(* ===== verification/_CoqProject ===== *)
-Q . S2P
Prelude.v
UBList.v
NodeHeap.v
WindowedQueue.v
WQChains.v
WQStream.v
WQCorrect.v
WQTheorems.v
NodePool.v
FileRcvStream.v
Bytes.v
Channel.v
Peer.v
PeerStream.v
PeerSend.v
Host.v
HostInv.v
HostTheorems.v
Stream.v
Cbc128.v
Ofb128.v
Cfb128.v
Ctr128.v
Cts128.v
Wrap128.v
AesTables.v
Aes.v
AesCorrect.v
AesKeys.v
Store.v
AesIge.v
AesModes.v
Xts128.v
Ccm128.v
Base64.v
Base64Correct.v
SafeMath.v
Bsearch.v
Stack.v
StackCorrect.v
StackTheorems.v
StackSearch.v
StackSamples.v
Ghash.v
GhashCorrect.v
Gcm128.v
GcmHash.v
GcmSpec.v
GcmCorrect.v
GcmSession.v
GcmTheorems.v
GcmSamples.v
QuicVlint.v
Packet.v
PacketCorrect.v
BufMem.v
WPacket.v
WPacketSpec.v
WPacketCorrect.v
WPacketOps.v
WPacketClose.v
WPacketTheorems.v
PacketMsg.v
PacketSamples.v
BnBase.v
BnMem.v
BnWords.v
BnDivWords.v
BnLib.v
BnLibCorrect.v
BnOps.v
BnBin.v
BnBinCorrect.v
BnArith.v
BnAddCorrect.v
BnShiftCorrect.v
BnWordCorrect.v
BnHistory.v
BnTheorems.v
BnSamples.v
