(* ===== verification/Prelude.v ===== *)
(** * Verification of the ALTUS network framework

    ALTUS (src/ALTUS/) is a peer-to-peer framework over UDP: a host holds
    connections to peers, each with numbered channels that carry
    reliable streams, lossy streams, shared structs or files.  Its cipher is to be
    AES-256; the repository carries the sources of OpenSSL for it
    (src/ALTUS/MyLibrary/openssl-master/).  This library models the whole of
    the framework's own logic and, of OpenSSL, the AES with its modes, base64, the stack
    with the checked arithmetic and the binary search under it, the readers and
    writers of packets with their buffers, and the big numbers up to their
    multiplication by words.

    ** The parts and how they interact

    A host ([ALTUSHost]) receives every datagram.  One from an unknown address
    is part of a handshake and ends in a new peer; one from a peer goes to
    [ALTUSPeer::processPacket], which finds the channel by its number and calls
    [channel::receive].  A reliable stream stores the data with [altusWQPut] in
    a windowed queue, which keeps what arrived ahead of the stream in a list of
    unsequenced blocks ([altusUBCheck], [altusUBPop]) over nodes that a pool
    recycles; the peer answers with an acknowledgement.  On the sending side
    [CreateUpstream] puts data into the window of a channel, [Send] cuts packets
    from it and an acknowledgement pops it.  A file channel collects its data in
    a [FileRcvStream] over the nodes of the C++ pool ([NodePool]).

    ** Files

    - [Prelude]: machine integers, outcomes of C and C++ code, arrays, tactics.
    - [UBList]: ublist.c and ublist.h.
    - [NodeHeap], [WindowedQueue]: windowedqueue.c and windowedqueue.h, over an
      explicit heap; [WQChains], [WQStream], [WQCorrect]: its linked structure
      and the stream it reassembles; [WQTheorems]: its main theorems.
    - [NodePool]: NodeBase.cpp; [FileRcvStream]: fileReceiveStream.cpp.
    - [Channel]: channel.cpp; [Peer]: ALTUSPeer.cpp; [PeerStream]: the receiving
      end of a stream from peer to peer; [PeerSend]: its sending end.
    - [Host]: ALTUSHost.cpp and the pre-peers of ALTUSPeer.cpp; [HostInv]: the
      invariant of its tables; [HostTheorems]: reachable states, handshake,
      retries.
    - [Bytes], [Stream], [Store]: byte strings, byte-at-a-time transformations,
      a flat memory with aliasing, for the files of OpenSSL.
    - [Cbc128], [Ofb128], [Cfb128], [Ctr128], [Cts128], [Wrap128], [Xts128],
      [Ccm128]: the files of the same name of crypto/modes/, over any block
      cipher (the class [BlockCipher] of [Bytes]).
    - GCM: [Ghash]: the multiplications of crypto/modes/gcm128.c; [GhashCorrect]: that
      they are those of the field; [Gcm128]: the rest of the file; [GcmHash]: the
      hash in pieces; [GcmSpec]: the mode of the standard; [GcmCorrect],
      [GcmSession]: the pieces of a call and calls; [GcmTheorems]: whole
      messages, limits; [GcmSamples]: a test case of the standard in every
      build, instances.
    - [AesTables], [Aes]: crypto/aes/aes_core.c; [AesCorrect], [AesKeys]: that it
      is the AES; [AesIge]: crypto/aes/aes_ige.c; [AesModes]: AES in its modes
      (aes_cbc.c, aes_cfb.c, aes_ecb.c, aes_ofb.c, aes_wrap.c), which
      instantiates the theorems of the modes.
    - [Base64]: crypto/evp/encode.c; [Base64Correct]: its theorems.
    - [SafeMath]: include/internal/safe_math.h; [Bsearch]: crypto/bsearch.c;
      [Stack]: crypto/stack/stack.c, over both; [StackCorrect]: the list it
      represents; [StackTheorems]: its operations; [StackSearch]:
      searching, copying, growth; [StackSamples]: examples.
    - Packets: [QuicVlint]: crypto/quic_vlint.c; [Packet]: the reader of
      include/internal/packet.h and the copies of crypto/o_str.c that it calls;
      [PacketCorrect]: that it parses; [BufMem]: crypto/buffer/buffer.c;
      [WPacket]: crypto/packet.c, the writer, over [BufMem]; [WPacketSpec]: the
      stack of frames that it represents; [WPacketCorrect], [WPacketOps],
      [WPacketClose]: its operations; [WPacketTheorems]: any
      sequence of calls; [PacketMsg]: messages from the writer to the reader;
      [PacketSamples]: instances, and calls that go wrong.
    - Big numbers (crypto/bn/): [BnBase]: words of a build, their bits,
      and include/internal/constant_time.h; [BnMem]: objects and programs over them;
      [BnWords], [BnDivWords]: bn_asm.c and the macros of bn_local.h; [BnLib]: bn_lib.c;
      [BnBin]: its conversions to and from bytes and bn_mpi.c; [BnArith]:
      bn_add.c, bn_shift.c and bn_word.c.  [BnLibCorrect], [BnOps],
      [BnBinCorrect], [BnAddCorrect], [BnShiftCorrect], [BnWordCorrect]: each
      operation; [BnHistory]: any sequence of calls;
      [BnTheorems], [BnSamples]: the main theorems and instances.

    A definition has the name of the function, type or macro it models; a loop
    of a function is a definition of its own, named after the function.  Fields
    of a struct or class are the fields of a record, and an operation takes the
    state before and returns the state after.

    ** What the theorems show

    - Reliable streams: the list of blocks is that of the abstract intervals
      ([UBList]); a put has one of five outcomes, each decided by numbers: an
      accepted packet that begins at most a node past the node being filled is
      stored exactly, one that begins further on is written to a wrong place;
      whatever the order, loss and repetition of packets within that reach,
      what a reader gets is a prefix of the sender's stream, for the queue alone
      and for a receiving channel of a peer, and nothing that arrives in order
      is lost ([WQTheorems], [PeerStream]); memory is released once.
    - Packets: what a sending channel sends, write after write and turn after
      turn, until an acknowledgement frees a node ([PeerSend]), what an
      acknowledgement says, new channel numbers ([PeerStream]).
    - The C++ layer: the pool under interleaved threads, with the data race of
      its unlocked test, when it is shrunk and destroyed, the classification of
      blocks of a file stream, and where files are lost ([NodePool],
      [FileRcvStream]).
    - The host: its tables stay sound through every history of turns and public
      calls, the exact answer to every handshake packet, two hosts complete a
      call, the thread of the retries is safe and with which interleaving it is
      not ([HostTheorems]).
    - Ciphers: AES is the cipher of FIPS 197 and is inverted by its decryption;
      every mode is inverted by its decryption, in all builds and for data fed
      in any chunks; counter mode, CCM and GCM are the constructions of their
      standards; the failure of an unwrapping or of an authentication is
      reported.
    - Base64: the encoder puts out RFC 4648 base64 in lines whatever the
      chunks, the decoder gives the data back whatever the pieces, and writes
      within its bounds for every input.
    - Checked arithmetic: results without error are exact, and the portable
      functions are those over the compiler's checks ([SafeMath]).
    - The stack: every operation is that of a list or fails without a change, a
      stack marked as sorted is sorted, searches find, growth ends, deep copies
      are all or nothing, and what goes wrong near the limits of [int].
    - Packets: the readers are the parsers of their formats and stay within the
      packet; whatever sequence of the calls of [wop], up to the first that
      fails, the writer stays within its buffer and produces the bytes of the
      frames that the calls describe, from either end, and counts them where
      there is no buffer, and it fails for the stated reasons only; a message
      written is read back.  [legal] has the arguments for which this is so;
      [wpacket_pitfalls] what other calls do.
    - Big numbers: after any sequence of calls on objects, with results among
      the operands, in builds with words of 32 and 64 bits and with every way to
      multiply and divide words in C (a double-word type, [BN_UMULT_LOHI],
      [BN_UMULT_HIGH], half words), every object holds the integer that it
      should; calls that are refused change nothing, and failed allocations
      leave well-formed objects.  The loops over words, the
      schoolbook quotient of two words, remainders by three methods, and the
      bytes of signed and unsigned numbers are what they mean to be.

    Where the code does not do what it means to, the theorem states what it
    does and the manifest of the library lists the line.

    ** Outcomes, fuel and bounds

    [outcome] distinguishes a return from [exit(-1)], an exception, undefined
    behaviour and the end of the model's fuel; theorems that promise a result
    prove [Ret].  Loops over a range are structural in the number of turns; the
    others take fuel: [put_fuel], the nodes that [length] bytes can touch and
    three more; the number of live nodes plus one for chains; the number of
    entries for the search of free numbers, since every turn meets another
    entry; the input's length for the cipher modes; the number of elements for
    a binary search; 64 turns for the growth of a stack, each of which is by
    half at least; 8 turns for the octets of a length of 64 bits; three turns to
    correct a digit of a quotient; the words of an array for a borrow.  Each is proved sufficient
    by the totality of the operation.  The one loop of the code that need not
    end, in [FileRcvStream::Append], has a theorem that says when.

    Machine integers are integers with their wrap-around written out; sequence
    numbers of the proofs are absolute, those of the code their residues modulo
    2^32, and the sources' signed comparison of differences is shown right for
    numbers less than 2^31 apart.  Signed overflow of an [int] counter is a
    fault.

    ** What is not modelled, and why

    - Sockets, clocks, files and the priority queue of the standard library are
      parameters or arguments: packets received and sent, times, [WriteFile],
      the class [PriorityQueue].
    - Threads of a host take turns handler by handler; data races within a
      handler, which is undefined behaviour of the maps that the threads share
      without a lock, are not modelled.  The two places whose interleaving is:
      the pool of nodes, where a read that no critical section orders after a
      conflicting write is undefined (its threads are ordered by its mutex only;
      shrinking and destroying it are modelled for one thread), and the sleep
      of the thread of the retries.
    - An acknowledgement that frees a node of a sending window leaves [headSeq]
      where it was, so that what is sent afterwards is not the stream;
      [upstream_sends] ends there.
    - main.cpp (a demonstration), ALTUSModule.cpp (Winsock set-up and the logo),
      connection.cpp (unused), fileSendStream.c (commented out as a whole) and
      the empty files.
    - OpenSSL beyond the files above: assembler (also the multiplications of
      GCM that a processor has instructions for), the constant-time variant of
      AES, other ciphers, digests, X.509, TLS, and of the big numbers what is
      built on [BN_CTX]: products of numbers, [BN_div], modular arithmetic,
      primes; it is a library that the framework does not call yet. *)

From Stdlib Require Export ZArith Lia.
From stdpp Require Export base tactics option list list_numbers numbers gmap.
#[global] Open Scope Z_scope.

(** ** Machine integers

    A [w]-bit unsigned value is a [Z] in [0, 2^w); [u8], [u16], [u32] and
    [u64] are the conversions to [uint8_t], [unsigned short], [unsigned int] and
    [size_t], and
    [s32] is the conversion to (two's complement) [int]. *)

Definition u8 (z : Z) : Z := z mod 2 ^ 8.

Definition u16 (z : Z) : Z := z mod 2 ^ 16.

Definition u32 (z : Z) : Z := z mod 2 ^ 32.

Definition u64 (z : Z) : Z := z mod 2 ^ 64.

Definition s32 (z : Z) : Z :=
  if u32 z <? 2 ^ 31 then u32 z else u32 z - 2 ^ 32.

(** Closes linear goals about wrapped values by exposing the quotients. *)
Ltac wrap_lia :=
  unfold s32, u32, u16, u8 in *;
  repeat match goal with
         | |- context [if ?a <? ?b then _ else _] => destruct (Z.ltb_spec a b)
         | H : context [if ?a <? ?b then _ else _] |- _ =>
             destruct (Z.ltb_spec a b)
         end;
  Z.div_mod_to_equations; lia.

Lemma u32_range z : 0 <= u32 z < 2 ^ 32.
Proof. unfold u32. apply Z.mod_pos_bound. lia. Qed.

Lemma u32_small z : 0 <= z < 2 ^ 32 -> u32 z = z.
Proof. apply Z.mod_small. Qed.

Lemma u16_small z : 0 <= z < 2 ^ 16 -> u16 z = z.
Proof. apply Z.mod_small. Qed.

Lemma u32_idemp z : u32 (u32 z) = u32 z.
Proof. apply Zmod_mod. Qed.

Lemma u32_add_l a b : u32 (u32 a + b) = u32 (a + b).
Proof. apply Zplus_mod_idemp_l. Qed.

Lemma u32_add_r a b : u32 (a + u32 b) = u32 (a + b).
Proof. apply Zplus_mod_idemp_r. Qed.

Lemma u32_sub_l a b : u32 (u32 a - b) = u32 (a - b).
Proof. apply Zminus_mod_idemp_l. Qed.

Lemma u32_sub_r a b : u32 (a - u32 b) = u32 (a - b).
Proof. apply Zminus_mod_idemp_r. Qed.

Lemma s32_u32 z : s32 (u32 z) = s32 z.
Proof. unfold s32. by rewrite u32_idemp. Qed.

Lemma s32_small z : - 2 ^ 31 <= z < 2 ^ 31 -> s32 z = z.
Proof. intros. wrap_lia. Qed.

Create Rewrite HintDb wrap.
#[export] Hint Rewrite u32_idemp u32_add_l u32_add_r u32_sub_l u32_sub_r s32_u32
  : wrap.

(** Two absolute sequence numbers less than [2^31] apart are compared
    correctly through their wrapped representatives: this is what makes the
    sources' [(int)(a - b) > 0] tests sound across the wrap of the counter. *)
Lemma s32_diff a b : - 2 ^ 31 <= a - b < 2 ^ 31 -> s32 (u32 a - u32 b) = a - b.
Proof.
  intros H. unfold s32. rewrite u32_sub_l, u32_sub_r. by apply s32_small.
Qed.

Lemma u32_diff a b : 0 <= a - b < 2 ^ 32 -> u32 (u32 a - u32 b) = a - b.
Proof. intros H. autorewrite with wrap. by apply u32_small. Qed.

Lemma u32_inj a b : - 2 ^ 32 < a - b < 2 ^ 32 -> u32 a = u32 b -> a = b.
Proof. intros H E. wrap_lia. Qed.

Lemma u32_eqb a b : - 2 ^ 32 < a - b < 2 ^ 32 -> (u32 a =? u32 b) = (a =? b).
Proof.
  intros H. destruct (Z.eqb_spec a b) as [->|N]; [apply Z.eqb_refl|].
  apply Z.eqb_neq. intros E. by apply N, u32_inj.
Qed.

(** Joining a number to the zero bits of another. *)
Lemma lor_low a b n : 0 <= n -> 0 <= b < 2 ^ n -> Z.lor (a * 2 ^ n) b = a * 2 ^ n + b.
Proof.
  intros Hn Hb. pose proof (Z.add_lor_land (a * 2 ^ n) b) as E.
  assert (Z.land (a * 2 ^ n) b = 0) as Z0; [|lia]. clear E. apply Z.bits_inj_0. intros i. rewrite Z.land_spec.
  destruct (Z.neg_nonneg_cases i); [by rewrite !Z.testbit_neg_r by done|].
  destruct (Z.lt_ge_cases i n).
  - by rewrite Z.mul_pow2_bits_low by done.
  - replace (Z.testbit b i) with false; [apply andb_false_r|].
    symmetry. rewrite <- (Z.mod_small b (2 ^ n)) by done. by apply Z.mod_pow2_bits_high.
Qed.

(** ** Outcomes of running C and C++ code

    [Ret] is a normal return, [Exit] a call of [exit(-1)], [Throw] a C++
    exception, [Fault] undefined behaviour (a null or dangling dereference, an
    access outside an array) and [NoFuel] a loop that used up the fuel of its
    model. *)
Inductive outcome (A : Type) : Type :=
| Ret (a : A)
| Exit
| Throw
| Fault
| NoFuel.
Arguments Ret {A} a.
Arguments Exit {A}.
Arguments Throw {A}.
Arguments Fault {A}.
Arguments NoFuel {A}.

#[global] Instance outcome_ret : MRet outcome := fun A a => Ret a.

#[global] Instance outcome_bind : MBind outcome := fun A B f m =>
  match m with
  | Ret a => f a
  | Exit => Exit
  | Throw => Throw
  | Fault => Fault
  | NoFuel => NoFuel
  end.

#[global] Instance outcome_fmap : FMap outcome := fun A B f m =>
  match m with
  | Ret a => Ret (f a)
  | Exit => Exit
  | Throw => Throw
  | Fault => Fault
  | NoFuel => NoFuel
  end.

Lemma bind_ret {A B} (a : A) (f : A -> outcome B) : (Ret a ≫= f) = f a.
Proof. done. Qed.

Lemma bind_Ret_inv {A B} (m : outcome A) (f : A -> outcome B) (b : B) :
  (m ≫= f) = Ret b -> exists a, m = Ret a /\ f a = Ret b.
Proof. destruct m; intros E; try discriminate E. eauto. Qed.

(** Inverts a chain of binds that returned. *)
Ltac inv_ret :=
  repeat match goal with
         | H : (_ ≫= _) = Ret _ |- _ =>
             let a := fresh "v" in
             let H1 := fresh "Hv" in
             apply bind_Ret_inv in H as (a & H1 & H)
         | H : Ret _ = Ret _ |- _ => injection H as H; subst
         | H : Exit = Ret _ |- _ => discriminate H
         | H : Throw = Ret _ |- _ => discriminate H
         | H : Fault = Ret _ |- _ => discriminate H
         | H : NoFuel = Ret _ |- _ => discriminate H
         end.

(** Case analysis on the integer comparisons that guard the goal. *)
Ltac zcase :=
  match goal with
  | |- context [if ?a <? ?b then _ else _] => destruct (Z.ltb_spec a b)
  | |- context [if ?a <=? ?b then _ else _] => destruct (Z.leb_spec a b)
  | |- context [if ?a =? ?b then _ else _] => destruct (Z.eqb_spec a b)
  | |- context [if (?a <? ?b)%nat then _ else _] => destruct (Nat.ltb_spec a b)
  end.

(** Cases that the context rules out are closed on the way. *)
Ltac zcases := repeat (zcase; try (exfalso; lia)).

(** The library's proof search also discharges arithmetic side conditions. *)
Create HintDb altus.
#[export] Hint Extern 1 (_ <= _) => lia : altus.
#[export] Hint Extern 1 (_ < _) => lia : altus.
#[export] Hint Extern 1 (_ <= _)%nat => lia : altus.
#[export] Hint Extern 1 (_ < _)%nat => lia : altus.

(** Splits a conjunction and closes its arithmetic parts. *)
Ltac split_lia :=
  simpl in *; destruct_and?; split_and?; try lia; try done; eauto with altus.

(** Chooses the disjunct of the goal that propositional and linear reasoning
    closes. *)
Ltac or_lia :=
  first [ lazymatch goal with |- _ \/ _ => left; or_lia end
        | lazymatch goal with |- _ \/ _ => right; or_lia end
        | solve [intuition (lia || congruence || eauto)] ].

(** ** The range of [int]

    An operation on [int] whose result is no [int] is undefined behaviour. *)

Definition INT_MAX : Z := 2 ^ 31 - 1.

Definition INT_MIN : Z := - 2 ^ 31.

Definition is_int (z : Z) : Prop := INT_MIN <= z <= INT_MAX.

#[global] Instance is_int_dec z : Decision (is_int z).
Proof. unfold is_int. apply _. Defined.

Definition int_op (z : Z) : outcome Z := if decide (is_int z) then Ret z else Fault.

Lemma int_op_ok z : is_int z -> int_op z = Ret z.
Proof. intros H. unfold int_op. by rewrite decide_True by done. Qed.

(** ** Arrays *)

Section arrays.
Context {A : Type}.
Implicit Types (l src dst : list A) (i off n : Z) (x : A).

(** [a[i]] as an r-value; outside the array it is undefined behaviour. *)
Definition aget l i : outcome A :=
  if i <? 0 then Fault
  else match l !! Z.to_nat i with Some x => Ret x | None => Fault end.

(** [a[i] = x] *)
Definition aset l i x : outcome (list A) :=
  if (i <? 0) || (Z.of_nat (length l) <=? i) then Fault
  else Ret (<[Z.to_nat i := x]> l).

(** The [n] bytes at [src + off], as [memcpy] reads them. *)
Definition mem_read src off n : outcome (list A) :=
  if (off <? 0) || (n <? 0) || (Z.of_nat (length src) <? off + n) then Fault
  else Ret (take (Z.to_nat n) (drop (Z.to_nat off) src)).

(** [dst] with [src] written over it from position [k] on. *)
Definition blit (k : nat) src dst : list A :=
  take k dst ++ src ++ drop (k + length src) dst.

(** [memcpy(dst + off, src, |src|)] *)
Definition mem_write dst off src : outcome (list A) :=
  if (off <? 0) || (Z.of_nat (length dst) <? off + Z.of_nat (length src))
  then Fault else Ret (blit (Z.to_nat off) src dst).

Lemma aget_lookup l i x :
  0 <= i -> l !! Z.to_nat i = Some x -> aget l i = Ret x.
Proof. intros H E. unfold aget. zcase; [lia|]. by rewrite E. Qed.

Lemma aget_nat l (k : nat) x : l !! k = Some x -> aget l (Z.of_nat k) = Ret x.
Proof. intros E. apply aget_lookup; [lia|]. by rewrite Nat2Z.id. Qed.

Lemma aset_ok l i x :
  0 <= i < Z.of_nat (length l) -> aset l i x = Ret (<[Z.to_nat i := x]> l).
Proof.
  intros H. unfold aset.
  destruct (Z.ltb_spec i 0), (Z.leb_spec (Z.of_nat (length l)) i); simpl;
    lia || done.
Qed.

Lemma aset_nat l (k : nat) x :
  (k < length l)%nat -> aset l (Z.of_nat k) x = Ret (<[k := x]> l).
Proof. intros H. rewrite aset_ok by lia. by rewrite Nat2Z.id. Qed.

Lemma mem_read_ok src off n :
  0 <= off -> 0 <= n -> off + n <= Z.of_nat (length src) ->
  mem_read src off n = Ret (take (Z.to_nat n) (drop (Z.to_nat off) src)).
Proof.
  intros. unfold mem_read.
  destruct (Z.ltb_spec off 0), (Z.ltb_spec n 0),
    (Z.ltb_spec (Z.of_nat (length src)) (off + n)); simpl; lia || done.
Qed.

Lemma mem_write_ok dst off src :
  0 <= off -> off + Z.of_nat (length src) <= Z.of_nat (length dst) ->
  mem_write dst off src = Ret (blit (Z.to_nat off) src dst).
Proof.
  intros. unfold mem_write.
  destruct (Z.ltb_spec off 0),
    (Z.ltb_spec (Z.of_nat (length dst)) (off + Z.of_nat (length src)));
    simpl; lia || done.
Qed.

Lemma mem_write_fault dst off src :
  Z.of_nat (length dst) < off + Z.of_nat (length src) ->
  mem_write dst off src = Fault.
Proof.
  intros. unfold mem_write.
  destruct (Z.ltb_spec (Z.of_nat (length dst)) (off + Z.of_nat (length src)));
    [|lia]. by rewrite orb_true_r.
Qed.

Lemma length_blit k src dst :
  (k + length src <= length dst)%nat -> length (blit k src dst) = length dst.
Proof.
  intros. unfold blit. rewrite !length_app, length_take, length_drop. lia.
Qed.

Lemma lookup_blit_in k src dst (i : nat) :
  (k + length src <= length dst)%nat -> (k <= i < k + length src)%nat ->
  blit k src dst !! i = src !! (i - k)%nat.
Proof.
  intros Hl Hi. unfold blit.
  rewrite lookup_app_r by (rewrite length_take; lia).
  rewrite length_take, Nat.min_l by lia.
  by rewrite lookup_app_l by lia.
Qed.

Lemma lookup_blit_out k src dst (i : nat) :
  (k + length src <= length dst)%nat -> ~ (k <= i < k + length src)%nat ->
  blit k src dst !! i = dst !! i.
Proof.
  intros Hl Hi. unfold blit. destruct (decide (i < k)%nat) as [Hk|Hk].
  - rewrite lookup_app_l by (rewrite length_take; lia).
    by rewrite lookup_take_lt.
  - rewrite lookup_app_r by (rewrite length_take; lia).
    rewrite length_take, Nat.min_l by lia.
    rewrite lookup_app_r by lia. rewrite lookup_drop. f_equal. lia.
Qed.
End arrays.

(** Consecutive writes. *)
Lemma blit_app {A} (k : nat) (x y dst : list A) :
  (k + length x + length y <= length dst)%nat ->
  blit (k + length x) y (blit k x dst) = blit k (x ++ y) dst.
Proof.
  intros H. apply list_eq. intros i.
  destruct (decide (k + length x <= i < k + length x + length y)%nat).
  - rewrite lookup_blit_in by (rewrite ?length_blit; lia).
    rewrite lookup_blit_in by (rewrite ?length_app; lia).
    rewrite lookup_app_r by lia. f_equal. lia.
  - rewrite lookup_blit_out by (rewrite ?length_blit; lia).
    destruct (decide (k <= i < k + length x)%nat).
    + rewrite !lookup_blit_in by (rewrite ?length_app; lia). by rewrite lookup_app_l by lia.
    + by rewrite !lookup_blit_out by (rewrite ?length_app; lia).
Qed.

Lemma blit_nil {A} (k : nat) (dst : list A) : blit k [] dst = dst.
Proof. unfold blit. simpl. by rewrite Nat.add_0_r, take_drop. Qed.

Create Rewrite HintDb len.
#[export] Hint Rewrite @length_app @length_take @length_drop @length_insert
  @length_replicate : len.
