(* ===== verification/UBList.v ===== *)
(** * The unsequenced block list (src/ALTUS/ublist.c, ublist.h)

    A receive window keeps the byte ranges that arrived ahead of the stream in
    two fixed arrays of eight wrapped sequence numbers.  This file translates
    [altusUBCheck] and [altusUBPop], relates the arrays to an abstract list of
    disjoint intervals of absolute sequence numbers, and shows that a check
    adds exactly the received range, or leaves the list as it was. *)

From S2P Require Import Prelude.

Definition ALTUS_MAX_UNSEQ_BLOCK_COUNT : Z := 8.
Definition ALTUS_UBENUM_FULL : Z := 0.
Definition ALTUS_UBENUM_MALICIOUS_INPUT : Z := 1.
Definition ALTUS_UBENUM_OVERLAP : Z := 2.
Definition ALTUS_UBENUM_UB_EXTENDED : Z := 3.
Definition ALTUS_UBENUM_NEW_UB_ADDED : Z := 4.

(** [ALTUS_UB_List_STRUCT] *)
Record ALTUS_UB_List := mkUB {
  headSeq : list Z;
  tailSeq : list Z;
  count : Z
}.

(** The [pushBack] macro: [for (j = 7; j > i; j--)] moves slot [j-1] to [j];
    the recursion argument is [j]. *)
Fixpoint pushBack (j : nat) (i : Z) (ub : ALTUS_UB_List) : outcome ALTUS_UB_List :=
  match j with
  | O => Ret ub
  | S j' =>
      if i <? Z.of_nat j then
        h ← aget (headSeq ub) (Z.of_nat j - 1);
        hs ← aset (headSeq ub) (Z.of_nat j) h;
        t ← aget (tailSeq ub) (Z.of_nat j - 1);
        ts ← aset (tailSeq ub) (Z.of_nat j) t;
        pushBack j' i (mkUB hs ts (count ub))
      else Ret ub
  end.

(** The loop [for (j = i + 1; j < 7; j++)] that closes the gap of a merged
    block. *)
Fixpoint pullForward (fuel : nat) (j : Z) (ub : ALTUS_UB_List)
  : outcome ALTUS_UB_List :=
  match fuel with
  | O => NoFuel
  | S f =>
      if j <? ALTUS_MAX_UNSEQ_BLOCK_COUNT - 1 then
        h ← aget (headSeq ub) (j + 1);
        hs ← aset (headSeq ub) j h;
        t ← aget (tailSeq ub) (j + 1);
        ts ← aset (tailSeq ub) j t;
        pullForward f (j + 1) (mkUB hs ts (count ub))
      else Ret ub
  end.

(** One turn of the [for] loop of [altusUBCheck]: [inl] is an early return with
    its code, [inr tt] goes on with the next block. *)
Definition altusUBCheck_body (ub : ALTUS_UB_List) (seq len i : Z)
  : outcome ((Z * ALTUS_UB_List) + unit) :=
  currentHS ← aget (headSeq ub) i;
  currentTS ← aget (tailSeq ub) i;
  if 0 <? s32 (currentHS - seq) then
    if 0 <? s32 (currentHS - u32 (seq + len)) then
      if 0 <? s32 (ALTUS_MAX_UNSEQ_BLOCK_COUNT - count ub) then
        ub1 ← pushBack 7 i ub;
        hs ← aset (headSeq ub1) i seq;
        ts ← aset (tailSeq ub1) i (u32 (seq + len));
        Ret (inl (ALTUS_UBENUM_NEW_UB_ADDED, mkUB hs ts (u32 (count ub1 + 1))))
      else Ret (inl (ALTUS_UBENUM_FULL, ub))
    else if u32 (seq + len) =? currentHS then
      hs ← aset (headSeq ub) i seq;
      Ret (inl (ALTUS_UBENUM_UB_EXTENDED, mkUB hs (tailSeq ub) (count ub)))
    else Ret (inl (ALTUS_UBENUM_MALICIOUS_INPUT, ub))
  else if 0 <? s32 (currentTS - seq) then
    Ret (inl (ALTUS_UBENUM_MALICIOUS_INPUT, ub))
  else if seq =? currentTS then
    if i =? u32 (count ub - 1) then
      ts ← aset (tailSeq ub) i (u32 (seq + len));
      Ret (inl (ALTUS_UBENUM_UB_EXTENDED, mkUB (headSeq ub) ts (count ub)))
    else
      nextHeadSeq ← aget (headSeq ub) (i + 1);
      if 0 <? s32 (nextHeadSeq - u32 (seq + len)) then
        ts ← aset (tailSeq ub) i (u32 (seq + len));
        Ret (inl (ALTUS_UBENUM_UB_EXTENDED, mkUB (headSeq ub) ts (count ub)))
      else if u32 (seq + len) =? nextHeadSeq then
        t ← aget (tailSeq ub) (i + 1);
        ts ← aset (tailSeq ub) i t;
        ub1 ← pullForward 8 (i + 1) (mkUB (headSeq ub) ts (count ub));
        Ret (inl (ALTUS_UBENUM_UB_EXTENDED,
                  mkUB (headSeq ub1) (tailSeq ub1) (u32 (count ub1 - 1))))
      else Ret (inl (ALTUS_UBENUM_MALICIOUS_INPUT, ub))
  else if (0 <? s32 (seq - currentTS)) && (i =? u32 (count ub - 1)) then
    if count ub <? ALTUS_MAX_UNSEQ_BLOCK_COUNT then
      hs ← aset (headSeq ub) (count ub) seq;
      ts ← aset (tailSeq ub) (count ub) (u32 (seq + len));
      Ret (inl (ALTUS_UBENUM_NEW_UB_ADDED, mkUB hs ts (u32 (count ub + 1))))
    else Ret (inl (ALTUS_UBENUM_FULL, ub))
  else Ret (inr tt).

(** [for (int i = 0; i < ubList->count; i++)] *)
Fixpoint altusUBCheck_loop (fuel : nat) (ub : ALTUS_UB_List) (seq len i : Z)
  : outcome ((Z * ALTUS_UB_List) + unit) :=
  if i <? count ub then
    match fuel with
    | O => NoFuel
    | S f =>
        r ← altusUBCheck_body ub seq len i;
        match r with
        | inl ret => Ret (inl ret)
        | inr tt => altusUBCheck_loop f ub seq len (i + 1)
        end
    end
  else Ret (inr tt).

(** [altusUBCheck]: the return code and the list after the call. *)
Definition altusUBCheck (ub : ALTUS_UB_List) (seq len : Z)
  : outcome (Z * ALTUS_UB_List) :=
  r ← altusUBCheck_loop (Z.to_nat (count ub)) ub seq len 0;
  match r with
  | inl ret => Ret ret
  | inr tt =>
      if count ub =? 0 then
        hs ← aset (headSeq ub) 0 seq;
        ts ← aset (tailSeq ub) 0 (u32 (seq + len));
        Ret (ALTUS_UBENUM_NEW_UB_ADDED, mkUB hs ts 1)
      else Ret (ALTUS_UBENUM_MALICIOUS_INPUT, ub)
  end.

(** The unrolled assignments [a[0] = a[1]; ...; a[6] = a[7]] of
    [altusUBPop]. *)
Fixpoint shiftFirst (n : nat) (i : Z) (a : list Z) : outcome (list Z) :=
  match n with
  | O => Ret a
  | S n' =>
      x ← aget a (i + 1);
      a' ← aset a i x;
      shiftFirst n' (i + 1) a'
  end.

Definition altusUBPop (ub : ALTUS_UB_List) : outcome ALTUS_UB_List :=
  hs ← shiftFirst 7 0 (headSeq ub);
  ts ← shiftFirst 7 0 (tailSeq ub);
  Ret (mkUB hs ts (u32 (count ub - 1))).

(** ** Abstract specification

    A list of half-open intervals [(h, t)] of absolute sequence numbers. *)

(** Sorted, non-empty, pairwise disjoint and non-adjacent blocks of
    [lo, hi]. *)
Fixpoint blocks_ok (lo hi : Z) (l : list (Z * Z)) : Prop :=
  match l with
  | [] => True
  | (h, t) :: r => lo <= h /\ h < t /\ t <= hi /\ blocks_ok (t + 1) hi r
  end.

Definition covered (l : list (Z * Z)) (x : Z) : Prop :=
  exists h t, (h, t) ∈ l /\ h <= x < t.

(** Some block ends where the new one begins, or begins where it ends. *)
Definition touches (l : list (Z * Z)) (s e : Z) : Prop :=
  exists h t, (h, t) ∈ l /\ (t = s \/ h = e).

Definition overlaps (l : list (Z * Z)) (s e : Z) : Prop :=
  exists x, covered l x /\ s <= x < e.

(** Adding [s, e) when [n] blocks are in use. *)
Fixpoint ub_insert (n : nat) (l : list (Z * Z)) (s e : Z) : Z * list (Z * Z) :=
  match l with
  | [] => if (n <? 8)%nat then (ALTUS_UBENUM_NEW_UB_ADDED, [(s, e)])
          else (ALTUS_UBENUM_FULL, [])
  | (h, t) :: r =>
      if s <? h then
        if e <? h then
          if (n <? 8)%nat then (ALTUS_UBENUM_NEW_UB_ADDED, (s, e) :: l)
          else (ALTUS_UBENUM_FULL, l)
        else if e =? h then (ALTUS_UBENUM_UB_EXTENDED, (s, t) :: r)
        else (ALTUS_UBENUM_MALICIOUS_INPUT, l)
      else if s <? t then (ALTUS_UBENUM_MALICIOUS_INPUT, l)
      else if s =? t then
        match r with
        | [] => (ALTUS_UBENUM_UB_EXTENDED, [(h, e)])
        | (h', t') :: r' =>
            if e <? h' then (ALTUS_UBENUM_UB_EXTENDED, (h, e) :: r)
            else if e =? h' then (ALTUS_UBENUM_UB_EXTENDED, (h, t') :: r')
            else (ALTUS_UBENUM_MALICIOUS_INPUT, l)
        end
      else let (c, r') := ub_insert n r s e in (c, (h, t) :: r')
  end.

(** The arrays hold the wrapped ends of the blocks, then unused slots. *)
Record ub_rep (ub : ALTUS_UB_List) (l : list (Z * Z)) : Prop := mk_ub_rep {
  rep_head : exists hr, headSeq ub = map (fun p => u32 p.1) l ++ hr;
  rep_tail : exists tr, tailSeq ub = map (fun p => u32 p.2) l ++ tr;
  rep_head_len : length (headSeq ub) = 8%nat;
  rep_tail_len : length (tailSeq ub) = 8%nat;
  rep_count : count ub = Z.of_nat (length l)
}.

Lemma rep_length ub l : ub_rep ub l -> (length l <= 8)%nat.
Proof.
  intros [[hr Hh] _ Hl _ _]. rewrite Hh, length_app, length_map in Hl. lia.
Qed.

Lemma blocks_ok_mono lo lo' hi l :
  lo' <= lo -> blocks_ok lo hi l -> blocks_ok lo' hi l.
Proof. destruct l as [|[h t] r]; simpl; intuition lia. Qed.

Lemma blocks_ok_elem lo hi l h t :
  blocks_ok lo hi l -> (h, t) ∈ l -> lo <= h < t /\ t <= hi.
Proof.
  revert lo. induction l as [|[a b] r IH]; intros lo Hok Hin; [by inversion Hin|].
  destruct Hok as (? & ? & ? & Hr). apply elem_of_cons in Hin as [[= -> ->]|Hin].
  - lia.
  - specialize (IH _ Hr Hin). lia.
Qed.

(** Insertion keeps the blocks sorted, disjoint and maximal. *)
Lemma ub_insert_ok n l s e lo hi :
  blocks_ok lo hi l -> lo <= s -> s < e -> e <= hi ->
  blocks_ok lo hi (ub_insert n l s e).2.
Proof.
  revert lo. induction l as [|[h t] r IH]; intros lo Hok Hs He Hhi.
  - simpl. zcases; split_lia.
  - destruct Hok as (? & ? & ? & Hr). simpl.
    zcases; split_lia.
    + destruct r as [|[h' t'] r']; zcases; split_lia.
    + specialize (IH (t + 1) Hr). destruct (ub_insert n r s e) as [c r'].
      split_lia.
Qed.

Lemma covered_cons h t r x :
  covered ((h, t) :: r) x <-> h <= x < t \/ covered r x.
Proof.
  unfold covered. split.
  - intros (a & b & Hin & Hx). apply elem_of_cons in Hin as [[= -> ->]|Hin]; eauto.
  - intros [Hx|(a & b & Hin & Hx)]; [exists h, t | exists a, b];
      rewrite elem_of_cons; eauto.
Qed.

Lemma covered_nil x : ~ covered [] x.
Proof. intros (h & t & Hin & _). by inversion Hin. Qed.

Lemma covered_app l1 l2 x : covered (l1 ++ l2) x <-> covered l1 x \/ covered l2 x.
Proof.
  induction l1 as [|[h t] r IH]; simpl.
  - split; [eauto|]. intros [H|H]; [by apply covered_nil in H|done].
  - rewrite !covered_cons, IH. tauto.
Qed.

Lemma covered_bounds lo hi l x : blocks_ok lo hi l -> covered l x -> lo <= x < hi.
Proof.
  intros Hok (h & t & Hin & Hx). destruct (blocks_ok_elem _ _ _ _ _ Hok Hin). lia.
Qed.

Lemma touches_cons h t r s e :
  touches ((h, t) :: r) s e <-> t = s \/ h = e \/ touches r s e.
Proof.
  unfold touches. split.
  - intros (a & b & Hin & Hx). apply elem_of_cons in Hin as [[= -> ->]|Hin];
      [intuition|eauto 7].
  - intros [->|[->|(a & b & Hin & Hx)]].
    + exists h, s. rewrite elem_of_cons. eauto.
    + exists e, t. rewrite elem_of_cons. eauto.
    + exists a, b. rewrite elem_of_cons. eauto.
Qed.

Lemma touches_bounds lo hi l s e :
  blocks_ok lo hi l -> s < e -> touches l s e -> lo <= e.
Proof.
  intros Hok Hlt (h & t & Hin & Hx).
  destruct (blocks_ok_elem _ _ _ _ _ Hok Hin). lia.
Qed.

Lemma overlaps_cons h t r s e :
  h < t -> s < e ->
  overlaps ((h, t) :: r) s e <-> (h < e /\ s < t) \/ overlaps r s e.
Proof.
  intros Ht He. unfold overlaps. setoid_rewrite covered_cons. split.
  - intros (x & [Hx|Hx] & ?); [lia|eauto].
  - intros [?|(x & ? & ?)]; [|eauto]. exists (Z.max h s). lia.
Qed.

Lemma overlaps_bounds lo hi l s e : blocks_ok lo hi l -> overlaps l s e -> lo < e.
Proof. intros Hok (x & Hx & ?). apply (covered_bounds _ _ _ _ Hok) in Hx. lia. Qed.

(** What a successful insertion covers. *)
Lemma ub_insert_covered n l s e lo hi c l' :
  blocks_ok lo hi l -> s < e -> ub_insert n l s e = (c, l') ->
  c = ALTUS_UBENUM_NEW_UB_ADDED \/ c = ALTUS_UBENUM_UB_EXTENDED ->
  forall x, covered l' x <-> covered l x \/ s <= x < e.
Proof.
  revert lo c l'. induction l as [|[h t] r IH]; intros lo c l' Hok He E Hc x.
  - simpl in E. revert E. zcases; intros [= <- <-]; [|by destruct Hc].
    rewrite covered_cons. pose proof (covered_nil x). tauto.
  - destruct Hok as (? & ? & ? & Hr). simpl in E. revert E.
    zcases; try (intros [= <- <-]; rewrite ?covered_cons; first [by destruct Hc | intuition lia]).
    + destruct r as [|[h' t'] r'].
      * intros [= <- <-]. rewrite !covered_cons. pose proof (covered_nil x).
        intuition lia.
      * simpl in Hr. zcases; intros [= <- <-]; rewrite ?covered_cons;
          first [by destruct Hc | intuition lia].
    + destruct (ub_insert n r s e) as [c' r'] eqn:E'. intros [= <- <-].
      rewrite !covered_cons, (IH _ _ _ Hr He eq_refl Hc). tauto.
Qed.

(** Which code an insertion returns, and that a refused one changes nothing. *)
Lemma ub_insert_code n l s e lo hi c l' :
  blocks_ok lo hi l -> s < e -> ub_insert n l s e = (c, l') ->
  (c = ALTUS_UBENUM_MALICIOUS_INPUT /\ overlaps l s e /\ l' = l) \/
  (c = ALTUS_UBENUM_UB_EXTENDED /\ ~ overlaps l s e /\ touches l s e) \/
  (c = ALTUS_UBENUM_NEW_UB_ADDED /\ ~ overlaps l s e /\ ~ touches l s e /\
     (n < 8)%nat /\ length l' = S (length l)) \/
  (c = ALTUS_UBENUM_FULL /\ ~ overlaps l s e /\ ~ touches l s e /\
     (8 <= n)%nat /\ l' = l).
Proof.
  revert lo c l'. induction l as [|[h t] r IH]; intros lo c l' Hok He E.
  - assert (~ overlaps [] s e) by (by intros (x & Hx%covered_nil & _)).
    assert (~ touches [] s e) by (intros (? & ? & Hx & _); by inversion Hx).
    simpl in E. revert E. zcases; intros [= <- <-]; simpl; or_lia.
  - destruct Hok as (? & ? & ? & Hr). simpl in E. revert E.
    pose proof (overlaps_bounds _ _ _ s e Hr).
    pose proof (touches_bounds _ _ _ s e Hr He).
    rewrite (overlaps_cons h t r s e), touches_cons by done.
    zcases; try (intros [= <- <-]; or_lia).
    + destruct r as [|[h' t'] r'].
      * intros [= <- <-]. assert (~ overlaps [] s e)
          by (by intros (x & Hx%covered_nil & _)). or_lia.
      * destruct Hr as (? & ? & ? & Hr).
        pose proof (overlaps_bounds _ _ _ s e Hr).
        rewrite (overlaps_cons h' t' r' s e) by done.
        zcases; intros [= <- <-]; or_lia.
    + destruct (ub_insert n r s e) as [c' r'] eqn:E'. intros [= <- <-].
      destruct (IH _ _ _ Hr He eq_refl) as [?|[?|[?|?]]];
        simpl; or_lia.
Qed.

(** ** The arrays implement the specification *)

(** An eight-slot array, slot by slot. *)
Ltac explode8 a :=
  let rec go n := match n with
    | O => destruct a as [|? a]; [|simpl in *; lia]
    | S ?n' => destruct a as [|? a]; [simpl in *; lia|]; go n'
    end in go 8%nat.

Lemma pushBack_spec hs ts c (i : nat) :
  length hs = 8%nat -> length ts = 8%nat -> (i < 8)%nat ->
  pushBack 7 (Z.of_nat i) (mkUB hs ts c) =
    Ret (mkUB (take (S i) hs ++ take (7 - i) (drop i hs))
              (take (S i) ts ++ take (7 - i) (drop i ts)) c).
Proof.
  intros Hh Ht Hi. explode8 hs. explode8 ts.
  do 8 (destruct i as [|i]; [reflexivity|]). lia.
Qed.

Lemma pullForward_spec hs ts c (i : nat) :
  length hs = 8%nat -> length ts = 8%nat -> (i < 7)%nat ->
  exists x y, pullForward 8 (Z.of_nat i + 1) (mkUB hs ts c) =
    Ret (mkUB (take (S i) hs ++ drop (S (S i)) hs ++ [x])
              (take (S i) ts ++ drop (S (S i)) ts ++ [y]) c).
Proof.
  intros Hh Ht Hi. explode8 hs. explode8 ts.
  do 7 (destruct i as [|i]; [eexists _, _; reflexivity|]). lia.
Qed.

Lemma shiftFirst_spec hs :
  length hs = 8%nat -> exists x, shiftFirst 7 0 hs = Ret (drop 1 hs ++ [x]).
Proof. intros Hh. explode8 hs. eexists. reflexivity. Qed.

#[global] Arguments pushBack : simpl never.
#[global] Arguments pullForward : simpl never.
#[global] Arguments shiftFirst : simpl never.

(** Reading the [i]-th block. *)
Lemma rep_get_head ub l (i : nat) p :
  ub_rep ub l -> l !! i = Some p -> aget (headSeq ub) (Z.of_nat i) = Ret (u32 p.1).
Proof.
  intros [[hr Hh] _ _ _ _] Hi. apply aget_nat. rewrite Hh.
  apply lookup_app_l_Some. by rewrite list_lookup_fmap, Hi.
Qed.

Lemma rep_get_tail ub l (i : nat) p :
  ub_rep ub l -> l !! i = Some p -> aget (tailSeq ub) (Z.of_nat i) = Ret (u32 p.2).
Proof.
  intros [_ [tr Ht] _ _ _] Hi. apply aget_nat. rewrite Ht.
  apply lookup_app_l_Some. by rewrite list_lookup_fmap, Hi.
Qed.

(** Overwriting slot [i] of an array that starts with the image of
    [pre ++ p :: suf]. *)
Lemma insert_image {A} (f : A -> Z) (pre suf : list A) (p q : A) rest :
  <[length pre := f q]> (map f (pre ++ p :: suf) ++ rest) =
  map f (pre ++ q :: suf) ++ rest.
Proof.
  rewrite !map_app. simpl. rewrite <- !app_assoc. simpl.
  rewrite <- (length_map f pre) at 1.
  by rewrite insert_app_r_alt, Nat.sub_diag by lia.
Qed.

(** Changing one end of a block in place. *)
Lemma rep_set_head ub pre suf h t s :
  ub_rep ub (pre ++ (h, t) :: suf) ->
  exists hs, aset (headSeq ub) (Z.of_nat (length pre)) (u32 s) = Ret hs /\
    ub_rep (mkUB hs (tailSeq ub) (count ub)) (pre ++ (s, t) :: suf).
Proof.
  intros Hr. pose proof (rep_length _ _ Hr) as Hlen.
  destruct Hr as [[hr Hh] [tr Ht] Lh Lt Hc]. rewrite length_app in Hlen.
  simpl in Hlen. eexists. split; [apply aset_nat; lia|].
  split; simpl; rewrite ?length_insert; auto.
  - exists hr. rewrite Hh. apply (insert_image (fun p => u32 p.1) pre suf (h, t) (s, t)).
  - exists tr. rewrite Ht. by rewrite !map_app.
  - rewrite Hc, !length_app. done.
Qed.

Lemma rep_set_tail ub pre suf h t e :
  ub_rep ub (pre ++ (h, t) :: suf) ->
  exists ts, aset (tailSeq ub) (Z.of_nat (length pre)) (u32 e) = Ret ts /\
    ub_rep (mkUB (headSeq ub) ts (count ub)) (pre ++ (h, e) :: suf).
Proof.
  intros Hr. pose proof (rep_length _ _ Hr) as Hlen.
  destruct Hr as [[hr Hh] [tr Ht] Lh Lt Hc]. rewrite length_app in Hlen.
  simpl in Hlen. eexists. split; [apply aset_nat; lia|].
  split; simpl; rewrite ?length_insert; auto.
  - exists hr. rewrite Hh. by rewrite !map_app.
  - exists tr. rewrite Ht. apply (insert_image (fun p => u32 p.2) pre suf (h, t) (h, e)).
  - rewrite Hc, !length_app. done.
Qed.

(** Opening a slot in front of [suf] uses up one of the spare slots. *)
Lemma insert_slot {A} (f : A -> Z) (pre suf : list A) (q : A) (rest : list Z) :
  length (map f (pre ++ suf) ++ rest) = 8%nat -> (length (pre ++ suf) < 8)%nat ->
  exists rest',
    <[length pre := f q]>
      (take (S (length pre)) (map f (pre ++ suf) ++ rest) ++
       take (7 - length pre) (drop (length pre) (map f (pre ++ suf) ++ rest)))
    = map f (pre ++ q :: suf) ++ rest' /\
    length (map f (pre ++ q :: suf) ++ rest') = 8%nat.
Proof.
  intros H8 Hlt. rewrite !map_app, <- !app_assoc in *. simpl.
  rewrite !length_app, !length_map in *.
  exists (take (7 - length pre - length suf) rest).
  rewrite <- (length_map f pre) at 1 2 4. rewrite drop_app_length.
  destruct (map f suf ++ rest) as [|y r] eqn:E.
  { apply (f_equal length) in E. rewrite length_app, length_map in E.
    simpl in E. lia. }
  rewrite <- Nat.add_1_r, take_app_add. simpl.
  rewrite <- app_assoc, insert_app_r_alt, Nat.sub_diag by lia. simpl.
  rewrite <- E, take_app_ge by (rewrite length_map; lia).
  rewrite length_map, <- !app_assoc. split; [done|].
  rewrite length_app, length_map, length_app. simpl.
  rewrite length_map, length_take. lia.
Qed.

Lemma rep_insert ub pre suf s e :
  ub_rep ub (pre ++ suf) -> (length (pre ++ suf) < 8)%nat ->
  exists ub1 hs ts,
    pushBack 7 (Z.of_nat (length pre)) ub = Ret ub1 /\
    aset (headSeq ub1) (Z.of_nat (length pre)) (u32 s) = Ret hs /\
    aset (tailSeq ub1) (Z.of_nat (length pre)) (u32 e) = Ret ts /\
    ub_rep (mkUB hs ts (u32 (count ub1 + 1))) (pre ++ (s, e) :: suf).
Proof.
  intros [[hr Hh] [tr Ht] Lh Lt Hc] Hlt. destruct ub as [hs ts c]. simpl in *.
  assert (length pre < 8)%nat by (rewrite length_app in Hlt; lia).
  rewrite pushBack_spec by done. subst hs ts.
  destruct (insert_slot (fun p => u32 p.1) pre suf (s, e) hr Lh Hlt) as (hr' & Eh & Lh').
  destruct (insert_slot (fun p => u32 p.2) pre suf (s, e) tr Lt Hlt) as (tr' & Et & Lt').
  eexists _, _, _. split; [done|]. simpl.
  rewrite !aset_nat by
    (rewrite length_app, !length_take, length_drop, ?Lh, ?Lt; lia).
  simpl in Eh, Et. rewrite Eh, Et. split_and!; try done.
  split; simpl; eauto. rewrite Hc, !length_app in *. simpl.
  rewrite u32_small; lia.
Qed.

Lemma rep_append ub l s e :
  ub_rep ub l -> (length l < 8)%nat ->
  exists hs ts,
    aset (headSeq ub) (count ub) (u32 s) = Ret hs /\
    aset (tailSeq ub) (count ub) (u32 e) = Ret ts /\
    ub_rep (mkUB hs ts (u32 (count ub + 1))) (l ++ [(s, e)]).
Proof.
  intros [[hr Hh] [tr Ht] Lh Lt Hc] Hlt. destruct ub as [hs ts c]. simpl in *.
  subst c. rewrite !aset_nat by lia. eexists _, _. split_and!; try done.
  split; simpl; rewrite ?length_insert; auto.
  - destruct hr as [|x hr]; [subst; rewrite length_app, length_map in Lh; simpl in Lh; lia|].
    exists hr. subst hs. rewrite map_app, <- app_assoc. simpl.
    rewrite <- (length_map (fun p : Z * Z => u32 p.1) l) at 1.
    by rewrite insert_app_r_alt, Nat.sub_diag by lia.
  - destruct tr as [|x tr]; [subst; rewrite length_app, length_map in Lt; simpl in Lt; lia|].
    exists tr. subst ts. rewrite map_app, <- app_assoc. simpl.
    rewrite <- (length_map (fun p : Z * Z => u32 p.2) l) at 1.
    by rewrite insert_app_r_alt, Nat.sub_diag by lia.
  - rewrite length_app. simpl. rewrite u32_small; lia.
Qed.

Lemma delete_slot {A} (f : A -> Z) (pre suf : list A) (a b : A) rest x :
  take (S (length pre)) (map f (pre ++ a :: b :: suf) ++ rest) ++
  drop (S (S (length pre))) (map f (pre ++ a :: b :: suf) ++ rest) ++ [x] =
  map f (pre ++ a :: suf) ++ rest ++ [x].
Proof.
  rewrite !map_app, <- !app_assoc. simpl.
  rewrite <- (length_map f pre).
  replace (S (S (length (map f pre)))) with (length (map f pre) + 2)%nat by lia.
  replace (S (length (map f pre))) with (length (map f pre) + 1)%nat by lia.
  rewrite take_app_add, drop_app_add. simpl.
  by rewrite drop_0, <- !app_assoc.
Qed.

(** Closing the gap between two blocks that the new one joins. *)
Lemma rep_merge ub pre suf h t h' t' :
  ub_rep ub (pre ++ (h, t) :: (h', t') :: suf) ->
  exists ts ub1,
    aset (tailSeq ub) (Z.of_nat (length pre)) (u32 t') = Ret ts /\
    pullForward 8 (Z.of_nat (length pre) + 1) (mkUB (headSeq ub) ts (count ub)) = Ret ub1 /\
    ub_rep (mkUB (headSeq ub1) (tailSeq ub1) (u32 (count ub1 - 1)))
      (pre ++ (h, t') :: suf).
Proof.
  intros Hr. pose proof (rep_length _ _ Hr) as Hlen.
  rewrite length_app in Hlen. simpl in Hlen.
  destruct (rep_set_tail _ _ _ _ _ t' Hr) as (ts & Ets & Hr').
  destruct Hr' as [[hr Hh] [tr Ht] Lh Lt Hc]. simpl in *.
  destruct (pullForward_spec (headSeq ub) ts (count ub) (length pre))
    as (x & y & Epf); [done|done|lia|].
  rewrite Hh, Ht, !delete_slot in Epf. rewrite Hh, Ht in *.
  eexists _, _. split_and!; [exact Ets|exact Epf|].
  rewrite !length_app, !length_map, !length_app in *. simpl in *.
  split; simpl; eauto; rewrite ?Hc, ?length_app, ?length_map, ?length_app;
    simpl; try lia. rewrite u32_small; lia.
Qed.

Lemma seq_end s e : u32 (u32 s + (e - s)) = u32 e.
Proof. rewrite u32_add_l. f_equal. lia. Qed.

Lemma ltb_0_sub a b : (0 <? a - b) = (b <? a).
Proof. apply eq_true_iff_eq. rewrite !Z.ltb_lt. lia. Qed.

(** Replaces the wrapped comparisons of the code by the absolute ones. *)
Ltac unwrap :=
  rewrite ?seq_end;
  repeat (rewrite s32_diff by lia);
  repeat (rewrite u32_eqb by lia);
  rewrite ?ltb_0_sub.

(** A result of the loop that agrees with the specification's [r]. *)
Definition ub_answer (ub : ALTUS_UB_List) (pre : list (Z * Z))
    (r : Z * list (Z * Z)) (c : Z) (ub' : ALTUS_UB_List) : Prop :=
  c = r.1 /\ ub_rep ub' (pre ++ r.2) /\
  (c = ALTUS_UBENUM_FULL \/ c = ALTUS_UBENUM_MALICIOUS_INPUT -> ub' = ub).

(** Refused blocks leave the list alone; accepted codes are other codes. *)
Ltac ub_done :=
  eexists; split; [reflexivity|]; unfold ub_answer; split_and!;
  [reflexivity|try done|first [by intros [?|?]|done]].

(** One turn of the loop, at the block [(h, t)]. *)
Lemma altusUBCheck_body_spec pre suf h t ub s e B hi :
  ub_rep ub (pre ++ (h, t) :: suf) -> blocks_ok B hi ((h, t) :: suf) ->
  B <= s -> s < e -> e <= hi -> hi - B < 2 ^ 31 ->
  exists r, altusUBCheck_body ub (u32 s) (e - s) (Z.of_nat (length pre)) = Ret r /\
    match r with
    | inl (c, ub') =>
        ub_answer ub pre
          (ub_insert (length (pre ++ (h, t) :: suf)) ((h, t) :: suf) s e) c ub'
    | inr _ => t < s /\ suf <> []
    end.
Proof.
  intros Hr (Hlo & Hht & Hthi & Hok) Hs He Hhi Hw.
  pose proof (rep_length _ _ Hr) as H8. pose proof (rep_count _ _ Hr) as Hc.
  rewrite length_app in *. simpl in H8, Hc. unfold altusUBCheck_body.
  rewrite (rep_get_head _ _ _ (h, t) Hr), (rep_get_tail _ _ _ (h, t) Hr)
    by (by apply list_lookup_middle).
  cbn [mbind outcome_bind fst snd]. unwrap.
  rewrite s32_small, (u32_small (count ub - 1)), ltb_0_sub by
    (unfold ALTUS_MAX_UNSEQ_BLOCK_COUNT; lia).
  unfold ALTUS_MAX_UNSEQ_BLOCK_COUNT. cbn [ub_insert length].
  destruct (Z.ltb_spec s h); [destruct (Z.ltb_spec e h)|].
  - zcases; [|ub_done].
    destruct (rep_insert ub pre ((h, t) :: suf) s e Hr) as (? & ? & ? & -> & E1 & E2 & ?);
      [rewrite length_app; simpl; lia|]. rewrite bind_ret, E1, bind_ret, E2. ub_done.
  - zcases; [|ub_done].
    destruct (rep_set_head ub pre suf h t s Hr) as (? & -> & ?). ub_done.
  - destruct (Z.ltb_spec s t); [ub_done|].
    destruct (Z.eqb_spec s t) as [->|].
    + destruct suf as [|[h' t'] suf]; simpl in Hc;
        destruct (Z.eqb_spec (Z.of_nat (length pre)) (count ub - 1)); try lia.
      * destruct (rep_set_tail ub pre [] h t e Hr) as (? & -> & ?). ub_done.
      * destruct Hok as (? & ? & ? & Hok).
        assert (Hn : (pre ++ (h, t) :: (h', t') :: suf) !! S (length pre) = Some (h', t')).
        { rewrite lookup_app_r by lia. by rewrite Nat.sub_succ_l, Nat.sub_diag. }
        replace (Z.of_nat (length pre) + 1) with (Z.of_nat (S (length pre))) by lia.
        rewrite (rep_get_head _ _ _ _ Hr Hn), (rep_get_tail _ _ _ _ Hr Hn).
        cbn [mbind outcome_bind fst snd]. unwrap. zcases; [..|ub_done].
        -- destruct (rep_set_tail ub pre _ h t e Hr) as (? & -> & ?). ub_done.
        -- destruct (rep_merge ub pre suf h t h' t' Hr) as (? & ? & -> & E & ?).
           rewrite bind_ret, Nat2Z.inj_succ. unfold Z.succ. rewrite E. ub_done.
    + destruct (Z.ltb_spec t s); [|lia].
      destruct (Z.eqb_spec (Z.of_nat (length pre)) (count ub - 1)); simpl.
      2: { eexists. split; [reflexivity|]. split; [done|]. intros ->. simpl in *. lia. }
      destruct suf; [|simpl in Hc; lia]. simpl. simpl in Hc. zcases; [|ub_done].
      destruct (rep_append ub _ s e Hr) as (? & ? & -> & E & Hx);
        [rewrite length_app; simpl; lia|].
      rewrite bind_ret, E. rewrite <- app_assoc in Hx. ub_done.
Qed.

(** The whole loop from block [length pre] on: it never runs off the end of a
    non-empty list. *)
Lemma altusUBCheck_loop_spec suf : forall pre ub s e B hi fuel,
  ub_rep ub (pre ++ suf) -> blocks_ok B hi suf ->
  B <= s -> s < e -> e <= hi -> hi - B < 2 ^ 31 ->
  suf <> [] -> (length suf <= fuel)%nat ->
  exists c ub',
    altusUBCheck_loop fuel ub (u32 s) (e - s) (Z.of_nat (length pre)) =
      Ret (inl (c, ub')) /\
    ub_answer ub pre (ub_insert (length (pre ++ suf)) suf s e) c ub'.
Proof.
  induction suf as [|[h t] suf IH]; intros pre ub s e B hi fuel Hr Hok Hs He Hhi Hw Hne Hf;
    [done|]. clear Hne. destruct fuel as [|fuel]; [simpl in Hf; lia|].
  pose proof (rep_count _ _ Hr) as Hc. rewrite length_app in Hc. simpl in Hc, Hf.
  cbn [altusUBCheck_loop].
  destruct (Z.ltb_spec (Z.of_nat (length pre)) (count ub)); [|lia].
  destruct (altusUBCheck_body_spec _ _ _ _ _ _ _ _ _ Hr Hok Hs He Hhi Hw)
    as ([[c ub']|[]] & E & Hres); rewrite E; cbn [mbind outcome_bind]; [eauto|].
  destruct Hres as [Hts Hne]. destruct Hok as (? & ? & ? & Hok).
  destruct (IH (pre ++ [(h, t)]) ub s e (t + 1) hi fuel) as (c & ub' & E' & Hc' & Hr' & Hx);
    rewrite <- ?app_assoc; simpl; try done; try lia.
  rewrite length_app in E'. simpl in E'.
  replace (Z.of_nat (length pre) + 1) with (Z.of_nat (length pre + 1)) by lia.
  exists c, ub'. split; [done|]. unfold ub_answer. cbn [ub_insert].
  assert (Ea : forall r, (pre ++ [(h, t)]) ++ r = pre ++ (h, t) :: r)
    by (intros; by rewrite <- app_assoc).
  rewrite Ea in Hr'. rewrite Ea in Hc'. rewrite Ea in Hr'. zcases.
  destruct (ub_insert _ suf s e) as [c0 l0]. simpl in *.
  split_and!; done.
Qed.

(** The C function on arrays computes the insertion into abstract blocks. *)
Lemma altusUBCheck_refines ub l s e B hi :
  ub_rep ub l -> blocks_ok B hi l ->
  B <= s -> s < e -> e <= hi -> hi - B < 2 ^ 31 ->
  exists c ub', altusUBCheck ub (u32 s) (e - s) = Ret (c, ub') /\
    ub_answer ub [] (ub_insert (length l) l s e) c ub'.
Proof.
  intros Hr Hok Hs He Hhi Hw. pose proof (rep_count _ _ Hr) as Hc.
  unfold altusUBCheck. destruct l as [|p l].
  - change (count ub = 0) in Hc. rewrite Hc. simpl. rewrite Hc. simpl.
    destruct (rep_append ub [] s e Hr) as (hs & ts & E1 & E2 & Hr'); [simpl; lia|].
    rewrite Hc in *. rewrite E1, bind_ret, seq_end, E2, bind_ret.
    eexists _, _. split; [done|]. split_and!; [done|done|by intros [?|?]].
  - destruct (altusUBCheck_loop_spec (p :: l) [] ub s e B hi (Z.to_nat (count ub)))
      as (c & ub' & E & ?); try done; [rewrite Hc; lia|].
    change (Z.of_nat (length [])) with 0 in E. rewrite E. eauto.
Qed.

(** The decision of [altusUBCheck] and the blocks it leaves, in one place. *)
Lemma UBCheck_rep ub l s e B hi :
  ub_rep ub l -> blocks_ok B hi l ->
  B <= s -> s < e -> e <= hi -> hi - B < 2 ^ 31 ->
  exists c ub' l',
    altusUBCheck ub (u32 s) (e - s) = Ret (c, ub') /\
    ub_rep ub' l' /\ blocks_ok B hi l' /\
    ((c = ALTUS_UBENUM_MALICIOUS_INPUT /\ overlaps l s e) \/
     (c = ALTUS_UBENUM_UB_EXTENDED /\ ~ overlaps l s e /\ touches l s e) \/
     (c = ALTUS_UBENUM_NEW_UB_ADDED /\ ~ overlaps l s e /\ ~ touches l s e /\
        (length l < 8)%nat) \/
     (c = ALTUS_UBENUM_FULL /\ ~ overlaps l s e /\ ~ touches l s e /\
        length l = 8%nat)) /\
    (c = ALTUS_UBENUM_UB_EXTENDED \/ c = ALTUS_UBENUM_NEW_UB_ADDED ->
       forall x, covered l' x <-> covered l x \/ s <= x < e) /\
    (c = ALTUS_UBENUM_FULL \/ c = ALTUS_UBENUM_MALICIOUS_INPUT ->
       ub' = ub /\ l' = l).
Proof.
  intros Hr Hok Hs He Hhi Hw. pose proof (rep_length _ _ Hr).
  destruct (altusUBCheck_refines _ _ _ _ _ _ Hr Hok Hs He Hhi Hw)
    as (c & ub' & E & Hc & Hr' & Hsame). simpl in Hr'.
  pose proof (ub_insert_ok (length l) l s e B hi Hok Hs He Hhi) as Hok'.
  destruct (ub_insert (length l) l s e) as [c0 l'] eqn:EI. simpl in *. subst c0.
  pose proof (ub_insert_covered _ _ _ _ _ _ _ _ Hok He EI) as Hcov.
  pose proof (ub_insert_code _ _ _ _ _ _ _ _ Hok He EI) as Hcode.
  exists c, ub', l'. split_and!; try done.
  - or_lia.
  - intros Hc. apply Hcov. tauto.
  - intros Hc. split; [by apply Hsame|].
    destruct Hcode as [?|[?|[?|?]]]; destruct_and?; subst; try done;
      by destruct Hc.
Qed.

(** C5: checking a received range [s, e) that lies, like every stored block,
    less than 2^31 ahead of the window base [B] never faults; it returns
    MALICIOUS exactly for a range that meets stored data, FULL exactly for an
    isolated range when eight blocks are in use, EXTENDED exactly for a range
    that touches a block, ADDED for an isolated one with a free slot; an
    accepted range is then covered in addition to what was covered and nothing
    else is, a refused one leaves the list untouched, and the stored blocks stay
    sorted, disjoint and maximal, at every position of the wrapping counter. *)
Theorem altusUBCheck_correct ub l s e B hi :
  ub_rep ub l -> blocks_ok B hi l ->
  B <= s -> s < e -> e <= hi -> hi - B < 2 ^ 31 ->
  exists c ub' l',
    altusUBCheck ub (u32 s) (e - s) = Ret (c, ub') /\
    ub_rep ub' l' /\ blocks_ok B hi l' /\
    ((c = ALTUS_UBENUM_MALICIOUS_INPUT /\ overlaps l s e) \/
     (c = ALTUS_UBENUM_UB_EXTENDED /\ ~ overlaps l s e /\ touches l s e) \/
     (c = ALTUS_UBENUM_NEW_UB_ADDED /\ ~ overlaps l s e /\ ~ touches l s e /\
        (length l < 8)%nat) \/
     (c = ALTUS_UBENUM_FULL /\ ~ overlaps l s e /\ ~ touches l s e /\
        length l = 8%nat)) /\
    (c = ALTUS_UBENUM_UB_EXTENDED \/ c = ALTUS_UBENUM_NEW_UB_ADDED ->
       forall x, covered l' x <-> covered l x \/ s <= x < e) /\
    (c = ALTUS_UBENUM_FULL \/ c = ALTUS_UBENUM_MALICIOUS_INPUT ->
       ub' = ub /\ l' = l).
Proof. exact (UBCheck_rep ub l s e B hi). Qed.

(** Two blocks across the wrap of the counter, and a range that joins them. *)
Definition ub_sample : ALTUS_UB_List :=
  mkUB [4294967290; 20; 0; 0; 0; 0; 0; 0] [4; 30; 0; 0; 0; 0; 0; 0] 2.

Lemma altusUBCheck_correct_witness :
  ub_rep ub_sample [(4294967290, 4294967300); (4294967316, 4294967326)] /\
  exists c ub' l', altusUBCheck ub_sample (u32 4294967300) 16 = Ret (c, ub') /\
    ub_rep ub' l' /\ blocks_ok 4294967290 4294967400 l'.
Proof.
  assert (Hr : ub_rep ub_sample
    [(4294967290, 4294967300); (4294967316, 4294967326)]).
  { split; try done; by eexists [_; _; _; _; _; _]. }
  split; [exact Hr|].
  destruct (altusUBCheck_correct ub_sample _ 4294967300 4294967316 4294967290
              4294967400 Hr) as (c & ub' & l' & E & ? & ? & _);
    [simpl; lia|lia..|].
  exists c, ub', l'. split; [exact E|done].
Defined.

(** Popping the list removes its first block. *)
Lemma UBPop_rep ub p l :
  ub_rep ub (p :: l) -> exists ub', altusUBPop ub = Ret ub' /\ ub_rep ub' l.
Proof.
  intros [[hr Hh] [tr Ht] Lh Lt Hc].
  destruct (shiftFirst_spec _ Lh) as [x Eh]. destruct (shiftFirst_spec _ Lt) as [y Et].
  unfold altusUBPop. rewrite Eh, bind_ret, Et, bind_ret, Hh, Ht.
  rewrite Hh in Lh. rewrite Ht in Lt.
  rewrite !length_app, length_map in Lh, Lt. simpl in *.
  eexists. split; [done|].
  split; simpl; rewrite ?drop_0, <- ?app_assoc; eauto;
    rewrite ?length_app, ?length_map; simpl; try lia.
  rewrite Hc, u32_small; lia.
Qed.
