(* ===== verification/NodeHeap.v ===== *)
(** * The heap of data nodes (the [WQ_Node] of src/ALTUS/windowedqueue.h)

    Window and node pool are doubly linked lists of the same nodes, which are
    allocated with [malloc], handed from one list to the other and freed.  The
    model keeps them in one finite map from addresses, so that links, aliasing
    and dangling pointers are what they are in the C program; [dll] says that a
    list of addresses is a well-formed doubly linked list of the heap. *)

From S2P Require Import Prelude.

Definition ALTUS_NODE_SIZE : Z := 4096.

(** A pointer to a node; [None] is [NULL]. *)
Notation ptr := (option positive).

(** [WQ_Node_Struct] *)
Record WQ_Node := mkNode {
  to_head : ptr;
  to_tail : ptr;
  data : list Z;
  validBlockCount : Z
}.

Definition set_to_head (p : ptr) (n : WQ_Node) : WQ_Node :=
  mkNode p (to_tail n) (data n) (validBlockCount n).
Definition set_to_tail (p : ptr) (n : WQ_Node) : WQ_Node :=
  mkNode (to_head n) p (data n) (validBlockCount n).
Definition set_data (d : list Z) (n : WQ_Node) : WQ_Node :=
  mkNode (to_head n) (to_tail n) d (validBlockCount n).
Definition set_valid (v : Z) (n : WQ_Node) : WQ_Node :=
  mkNode (to_head n) (to_tail n) (data n) v.

(** The memory: the live nodes, how many more calls of [malloc] succeed, and
    what a freshly allocated node happens to contain. *)
Record mem := mkMem {
  nodes : gmap positive WQ_Node;
  avail : nat;
  garbage : positive -> WQ_Node
}.

(** Every array is an array of [ALTUS_NODE_SIZE] bytes. *)
Definition mem_wf (m : mem) : Prop :=
  forall a, length (data (garbage m a)) = Z.to_nat ALTUS_NODE_SIZE.

Definition set_nodes (h : gmap positive WQ_Node) (m : mem) : mem :=
  mkMem h (avail m) (garbage m).

(** [malloc(sizeof(WQ_Node))]; [None] is a null result. *)
Definition malloc_node (m : mem) : option (positive * mem) :=
  match avail m with
  | O => None
  | S k =>
      let a := fresh (dom (nodes m)) in
      Some (a, mkMem (<[a := garbage m a]> (nodes m)) k (garbage m))
  end.

(** [malloc] of a structure that the model passes by value. *)
Definition malloc_struct (m : mem) : option mem :=
  match avail m with
  | O => None
  | S k => Some (mkMem (nodes m) k (garbage m))
  end.

(** [*p] *)
Definition load (m : mem) (p : ptr) : outcome WQ_Node :=
  match p with
  | None => Fault
  | Some a => match nodes m !! a with Some n => Ret n | None => Fault end
  end.

(** An assignment to a field of [*p]. *)
Definition update (m : mem) (p : ptr) (f : WQ_Node -> WQ_Node) : outcome mem :=
  match p with
  | None => Fault
  | Some a =>
      match nodes m !! a with
      | Some n => Ret (set_nodes (<[a := f n]> (nodes m)) m)
      | None => Fault
      end
  end.

(** [free(p)]: freeing [NULL] does nothing, freeing a dead node is undefined. *)
Definition free_node (m : mem) (p : ptr) : outcome mem :=
  match p with
  | None => Ret m
  | Some a =>
      match nodes m !! a with
      | Some _ => Ret (mkMem (delete a (nodes m)) (S (avail m)) (garbage m))
      | None => Fault
      end
  end.

Definition free_struct (m : mem) : mem := mkMem (nodes m) (S (avail m)) (garbage m).

(** [p == q] *)
Definition ptr_eqb (p q : ptr) : bool := bool_decide (p = q).

Lemma load_Some m a n : nodes m !! a = Some n -> load m (Some a) = Ret n.
Proof. intros H. simpl. by rewrite H. Qed.

Lemma update_Some m a n f :
  nodes m !! a = Some n ->
  update m (Some a) f = Ret (set_nodes (<[a := f n]> (nodes m)) m).
Proof. intros H. simpl. by rewrite H. Qed.

Lemma ptr_eqb_eq p q : p = q -> ptr_eqb p q = true.
Proof. intros ->. by apply bool_decide_eq_true. Qed.

Lemma ptr_eqb_ne p q : p <> q -> ptr_eqb p q = false.
Proof. apply bool_decide_eq_false. Qed.

(** ** Doubly linked lists *)

(** The link towards the head of element [i]. *)
Definition prev (l : list positive) (i : nat) : ptr :=
  match i with O => None | S j => l !! j end.

Definition linked (h : gmap positive WQ_Node) (l : list positive) : Prop :=
  forall i a, l !! i = Some a ->
    exists n, h !! a = Some n /\ to_tail n = l !! S i /\ to_head n = prev l i /\
      length (data n) = Z.to_nat ALTUS_NODE_SIZE.

Definition dll (h : gmap positive WQ_Node) (l : list positive) : Prop :=
  NoDup l /\ linked h l.

Lemma dll_lookup h l i a :
  dll h l -> l !! i = Some a ->
  exists n, h !! a = Some n /\ to_tail n = l !! S i /\ to_head n = prev l i /\
    length (data n) = Z.to_nat ALTUS_NODE_SIZE.
Proof. intros [_ H]. apply H. Qed.

(** What is written outside the list does not matter to it. *)
Lemma dll_frame h h' l :
  (forall a, a ∈ l -> h' !! a = h !! a) -> dll h l -> dll h' l.
Proof.
  intros Hf [Hnd Hl]. split; [done|]. intros i a Hi.
  rewrite Hf by (by apply list_elem_of_lookup_2 in Hi). by apply Hl.
Qed.

Lemma dll_frame_insert h l a n : a ∉ l -> dll h l -> dll (<[a := n]> h) l.
Proof.
  intros Ha. apply dll_frame. intros b Hb. apply lookup_insert_ne. congruence.
Qed.

(** Rewriting a node's payload keeps the list. *)
Lemma dll_update h l a n n' :
  h !! a = Some n -> to_tail n' = to_tail n -> to_head n' = to_head n ->
  length (data n') = length (data n) -> dll h l -> dll (<[a := n']> h) l.
Proof.
  intros Ha Et Eh Ed [Hnd Hl]. split; [done|]. intros i b Hi.
  destruct (Hl _ _ Hi) as (m & Hb & ? & ? & ?).
  destruct (decide (a = b)) as [->|Hne].
  - rewrite Ha in Hb. injection Hb as ->. rewrite lookup_insert_eq.
    exists n'. rewrite Et, Eh, Ed. done.
  - rewrite lookup_insert_ne by done. eauto.
Qed.

Lemma NoDup_lookup_inj (l : list positive) i j a :
  NoDup l -> l !! i = Some a -> l !! j = Some a -> i = j.
Proof. intros. by eapply NoDup_lookup. Qed.

(** Linking a node behind the last one. *)
Lemma dll_snoc h l z nz a na :
  dll h l -> last l = Some z -> a ∉ l ->
  h !! z = Some nz -> to_tail na = None -> to_head na = Some z ->
  length (data na) = Z.to_nat ALTUS_NODE_SIZE ->
  dll (<[z := set_to_tail (Some a) nz]> (<[a := na]> h)) (l ++ [a]).
Proof.
  intros [Hnd Hl] Hz Ha Hnz Ht Hh Hd. rewrite last_lookup in Hz.
  assert (Hlen : (0 < length l)%nat) by (destruct l; simpl in *; [done|lia]).
  assert (Hza : z <> a) by (intros ->; by apply list_elem_of_lookup_2 in Hz).
  split.
  { apply NoDup_app. split_and!; [done| |apply NoDup_singleton].
    intros x Hx ->%list_elem_of_singleton. done. }
  intros i b Hi. destruct (decide (i = length l)) as [->|Hil].
  - rewrite list_lookup_middle in Hi by done. injection Hi as <-.
    exists na. rewrite lookup_insert_ne, lookup_insert_eq by done.
    split_and!; try done.
    + rewrite lookup_ge_None_2; [done|]. rewrite length_app. simpl. lia.
    + destruct (length l) as [|k] eqn:E; [lia|]. simpl.
      rewrite lookup_app_l by lia. simpl in Hz. congruence.
  - assert (Hi' : l !! i = Some b).
    { pose proof (lookup_lt_Some _ _ _ Hi) as Hb. rewrite length_app in Hb.
      simpl in Hb. rewrite lookup_app_l in Hi by lia. done. }
    pose proof (lookup_lt_Some _ _ _ Hi').
    destruct (Hl _ _ Hi') as (n & Hn & Htn & Hhn & Hdn).
    assert (Hprev : prev (l ++ [a]) i = prev l i).
    { destruct i; [done|]. simpl. by rewrite lookup_app_l by lia. }
    assert (b <> a) by (intros ->; by apply list_elem_of_lookup_2 in Hi').
    destruct (decide (b = z)) as [->|Hbz].
    + assert (i = Nat.pred (length l)) as ->
        by (exact (NoDup_lookup_inj _ _ _ _ Hnd Hi' Hz)).
      rewrite lookup_insert_eq. rewrite Hnz in Hn. injection Hn as <-.
      eexists. split_and!; try done; [|by rewrite Hprev].
      simpl. replace (S (Nat.pred (length l))) with (length l) by lia.
      by rewrite list_lookup_middle.
    + rewrite !lookup_insert_ne by done. exists n. split_and!; try done.
      * rewrite Htn. destruct (decide (S i < length l)%nat);
          [by rewrite lookup_app_l|].
        exfalso. apply Hbz. replace i with (Nat.pred (length l)) in Hi' by lia.
        congruence.
      * by rewrite Hprev.
Qed.

(** Unlinking the first node. *)
Lemma dll_behead h a b r nb :
  dll h (a :: b :: r) -> h !! b = Some nb ->
  dll (<[b := set_to_head None nb]> h) (b :: r).
Proof.
  intros [Hnd Hl] Hb. apply NoDup_cons in Hnd as [Ha Hnd]. split; [done|].
  intros i c Hi. destruct (Hl (S i) c Hi) as (n & Hn & Ht & Hh & Hd).
  destruct i as [|i].
  - injection Hi as <-. rewrite lookup_insert_eq. rewrite Hb in Hn.
    injection Hn as <-. eexists. split_and!; done.
  - rewrite lookup_insert_ne.
    2: { intros ->. apply NoDup_cons in Hnd as [Hx _].
         apply Hx. simpl in Hi. by apply list_elem_of_lookup_2 in Hi. }
    exists n. split_and!; done.
Qed.
