(* ===== verification/WindowedQueue.v ===== *)
(** * The windowed queue (src/ALTUS/windowedqueue.c, windowedqueue.h)

    The receive and send buffer of a reliable stream: a linked list of 4096-byte
    nodes with a safe part (received in sequence) and an unsafe part, the list
    of unsequenced blocks, and the pool that nodes are recycled through.  The
    functions are translated one by one, in the release configuration (the
    [_DEBUG] null checks of the sources test pointers that are faults here). *)

From S2P Require Import Prelude UBList NodeHeap.

Definition ALTUS_WQ_BLOCK_SIZE : Z := 1.
Definition ALTUS_WINDOW_BLOCK_MAX_DEFAULT : Z := 0x20000.
Definition ALTUS_WINDOW_BLOCK_MAX_ABSOLUTE : Z := 0x40000000.

(** [WQ_WINDOW_STRUCT] *)
Record WQ_Window := mkWin {
  head : ptr;
  safe_tail : ptr;
  unsafe_tail : ptr;
  safe_len : Z;
  unsafe_len : Z;
  headDataOffset : Z;
  win_headSeq : Z;
  ub_list : ALTUS_UB_List;
  lastSeq : Z;
  windowSize : Z
}.

(** [WQ_NODE_POOL_STRUCT] *)
Record WQ_Node_Pool := mkPool {
  recycled_head : ptr;
  recycled_tail : ptr;
  pool_len : Z
}.

(** What a queue operation reads and writes: [*window], [*pool], the heap. *)
Record wqs := mkWqs {
  win : WQ_Window;
  pool : WQ_Node_Pool;
  memory : mem
}.

Definition set_head (p : ptr) (w : WQ_Window) : WQ_Window :=
  mkWin p (safe_tail w) (unsafe_tail w) (safe_len w) (unsafe_len w)
    (headDataOffset w) (win_headSeq w) (ub_list w) (lastSeq w) (windowSize w).
Definition set_safe_tail (p : ptr) (w : WQ_Window) : WQ_Window :=
  mkWin (head w) p (unsafe_tail w) (safe_len w) (unsafe_len w)
    (headDataOffset w) (win_headSeq w) (ub_list w) (lastSeq w) (windowSize w).
Definition set_unsafe_tail (p : ptr) (w : WQ_Window) : WQ_Window :=
  mkWin (head w) (safe_tail w) p (safe_len w) (unsafe_len w)
    (headDataOffset w) (win_headSeq w) (ub_list w) (lastSeq w) (windowSize w).
Definition set_safe_len (z : Z) (w : WQ_Window) : WQ_Window :=
  mkWin (head w) (safe_tail w) (unsafe_tail w) z (unsafe_len w)
    (headDataOffset w) (win_headSeq w) (ub_list w) (lastSeq w) (windowSize w).
Definition set_unsafe_len (z : Z) (w : WQ_Window) : WQ_Window :=
  mkWin (head w) (safe_tail w) (unsafe_tail w) (safe_len w) z
    (headDataOffset w) (win_headSeq w) (ub_list w) (lastSeq w) (windowSize w).
Definition set_offset (z : Z) (w : WQ_Window) : WQ_Window :=
  mkWin (head w) (safe_tail w) (unsafe_tail w) (safe_len w) (unsafe_len w)
    z (win_headSeq w) (ub_list w) (lastSeq w) (windowSize w).
Definition set_win_headSeq (z : Z) (w : WQ_Window) : WQ_Window :=
  mkWin (head w) (safe_tail w) (unsafe_tail w) (safe_len w) (unsafe_len w)
    (headDataOffset w) z (ub_list w) (lastSeq w) (windowSize w).
Definition set_ub_list (u : ALTUS_UB_List) (w : WQ_Window) : WQ_Window :=
  mkWin (head w) (safe_tail w) (unsafe_tail w) (safe_len w) (unsafe_len w)
    (headDataOffset w) (win_headSeq w) u (lastSeq w) (windowSize w).
Definition set_lastSeq (z : Z) (w : WQ_Window) : WQ_Window :=
  mkWin (head w) (safe_tail w) (unsafe_tail w) (safe_len w) (unsafe_len w)
    (headDataOffset w) (win_headSeq w) (ub_list w) z (windowSize w).

Definition on_win (f : WQ_Window -> WQ_Window) (st : wqs) : wqs :=
  mkWqs (f (win st)) (pool st) (memory st).
Definition set_mem (m : mem) (st : wqs) : wqs := mkWqs (win st) (pool st) m.

(** [altusNewWindow]: [raw] is what the allocated structure contains before it
    is filled in; the function sets neither [headSeq] nor [lastSeq]. *)
Definition altusNewWindow (raw : WQ_Window) (m : mem) : outcome (WQ_Window * mem) :=
  match malloc_struct m with
  | None => Exit
  | Some m1 =>
      match malloc_node m1 with
      | None => Exit
      | Some (a, m2) =>
          m3 ← update m2 (Some a) (set_to_head None);
          m4 ← update m3 (Some a) (set_to_tail None);
          m5 ← update m4 (Some a) (set_valid 0);
          let ub := ub_list raw in
          Ret (mkWin (Some a) (Some a) (Some a) 1 0 0 (win_headSeq raw)
                 (mkUB (headSeq ub) (tailSeq ub) 0) (lastSeq raw)
                 ALTUS_WINDOW_BLOCK_MAX_DEFAULT, m5)
      end
  end.

Definition altusWQNewNodePool (m : mem) : outcome (WQ_Node_Pool * mem) :=
  match malloc_struct m with
  | None => Exit
  | Some m1 =>
      match malloc_node m1 with
      | None => Exit
      | Some (a, m2) =>
          m3 ← update m2 (Some a) (set_to_head None);
          m4 ← update m3 (Some a) (set_to_tail None);
          m5 ← update m4 (Some a) (set_valid 0);
          Ret (mkPool (Some a) (Some a) 1, m5)
      end
  end.

(** [altusWQPopNode]: the head node goes to the pool, unless it is the safe
    tail. *)
Definition altusWQPopNode (st : wqs) : outcome (Z * wqs) :=
  let w := win st in
  let p := pool st in
  if ptr_eqb (head w) (safe_tail w) then Ret (-1, on_win (set_safe_len 1) st)
  else
    let old_head := head w in
    n ← load (memory st) old_head;
    let w1 := set_head (to_tail n) w in
    m1 ← update (memory st) (head w1) (set_to_head None);
    let w2 := set_safe_len (u32 (safe_len w1 - 1)) w1 in
    m2 ← update m1 old_head (set_to_tail None);
    m3 ← update m2 old_head (set_to_head (recycled_tail p));
    m4 ← update m3 (recycled_tail p) (set_to_tail old_head);
    Ret (0, mkWqs w2 (mkPool (recycled_head p) old_head (u32 (pool_len p + 1))) m4).

(** The node [altusWQNewNode] appends: recycled, or allocated when the pool
    holds only one. *)
Definition takeNode (p : WQ_Node_Pool) (m : mem)
  : outcome (ptr * WQ_Node_Pool * mem) :=
  if ptr_eqb (recycled_head p) (recycled_tail p) then
    match malloc_node m with
    | Some (a, m1) => Ret (Some a, p, m1)
    | None => Exit
    end
  else
    let newNode := recycled_head p in
    n ← load m newNode;
    m1 ← update m (to_tail n) (set_to_head None);
    Ret (newNode, mkPool (to_tail n) (recycled_tail p) (u32 (pool_len p - 1)), m1).

Definition altusWQNewNode (st : wqs) : outcome wqs :=
  let w := win st in
  '(newNode, p1, m1) ← takeNode (pool st) (memory st);
  m2 ← update m1 newNode (set_to_tail None);
  m3 ← update m2 newNode (set_to_head (unsafe_tail w));
  m4 ← update m3 (unsafe_tail w) (set_to_tail newNode);
  let w1 := set_unsafe_tail newNode w in
  Ret (mkWqs (set_unsafe_len (u32 (unsafe_len w1 + 1)) w1) p1 m4).

(** The copy loop of [altusWQPut]: [while (leftLen != 0)]. *)
Fixpoint put_copy (fuel : nat) (src : list Z) (length : Z)
    (currentNode : ptr) (currentNodeSeq leftSeq leftLen : Z) (st : wqs)
  : outcome wqs :=
  if leftLen =? 0 then Ret st
  else
    match fuel with
    | O => NoFuel
    | S f =>
        let writelen := u32 (currentNodeSeq + ALTUS_NODE_SIZE - leftSeq) in
        if writelen <=? 0 then
          st1 ← (if ptr_eqb currentNode (unsafe_tail (win st))
                 then altusWQNewNode st else Ret st);
          n ← load (memory st1) currentNode;
          put_copy f src length (to_tail n)
            (u32 (currentNodeSeq + ALTUS_NODE_SIZE)) leftSeq leftLen st1
        else
          let writelen := if leftLen <? writelen then leftLen else writelen in
          let writeoffset := u16 (leftSeq - currentNodeSeq) in
          n ← load (memory st) currentNode;
          chunk ← mem_read src ((length - leftLen) * ALTUS_WQ_BLOCK_SIZE)
                    (writelen * ALTUS_WQ_BLOCK_SIZE);
          d ← mem_write (data n) (writeoffset * ALTUS_WQ_BLOCK_SIZE) chunk;
          m1 ← update (memory st) currentNode (set_data d);
          let st1 := set_mem m1 st in
          let leftSeq := u32 (leftSeq + writelen) in
          let leftLen := u32 (leftLen - writelen) in
          if negb (leftLen =? 0)
             || (leftSeq =? u32 (currentNodeSeq + ALTUS_NODE_SIZE)) then
            st2 ← altusWQNewNode st1;
            n2 ← load (memory st2) currentNode;
            put_copy f src length (to_tail n2)
              (u32 (currentNodeSeq + ALTUS_NODE_SIZE)) leftSeq leftLen st2
          else
            put_copy f src length currentNode currentNodeSeq leftSeq leftLen st1
    end.

(** The loop of [altusWQPut] that moves [safe_tail] and [lastSeq] up to
    [newSeq]. *)
Fixpoint put_advance (fuel : nat) (newSeq : Z) (st : wqs) : outcome wqs :=
  match fuel with
  | O => NoFuel
  | S f =>
      let w := win st in
      n ← load (memory st) (safe_tail w);
      let SafeNodeSeq := u32 (lastSeq w - validBlockCount n) in
      let seqDiff := s32 (newSeq - SafeNodeSeq) in
      if ALTUS_NODE_SIZE <? seqDiff then
        m1 ← update (memory st) (safe_tail w) (set_valid ALTUS_NODE_SIZE);
        let w1 := set_lastSeq (u32 (SafeNodeSeq + ALTUS_NODE_SIZE)) w in
        let w2 := set_safe_len (u32 (safe_len w1 + 1)) w1 in
        let w3 := set_unsafe_len (u32 (unsafe_len w2 - 1)) w2 in
        n1 ← load m1 (safe_tail w3);
        let w4 := set_safe_tail (to_tail n1) w3 in
        m2 ← update m1 (safe_tail w4) (set_valid 0);
        put_advance f newSeq (mkWqs w4 (pool st) m2)
      else if seqDiff =? ALTUS_NODE_SIZE then
        m1 ← update (memory st) (safe_tail w) (set_valid seqDiff);
        n1 ← load m1 (safe_tail w);
        let w1 := set_safe_tail (to_tail n1) w in
        m2 ← update m1 (safe_tail w1) (set_valid 0);
        let w2 := set_safe_len (u32 (safe_len w1 + 1)) w1 in
        let w3 := set_unsafe_len (u32 (unsafe_len w2 - 1)) w2 in
        Ret (mkWqs w3 (pool st) m2)
      else
        m1 ← update (memory st) (safe_tail w) (set_valid (u32 seqDiff));
        Ret (mkWqs (set_lastSeq newSeq w) (pool st) m1)
  end.

(** The turns either loop can take for [length] bytes. *)
Definition put_fuel (length : Z) : nat := Z.to_nat (length / ALTUS_NODE_SIZE) + 3.

(** The part of [altusWQPut] after the block list accepted the range: copy the
    bytes, then move the safe end when the first block starts there. *)
Definition put_store (seq length : Z) (src : list Z) (st : wqs) : outcome (Z * wqs) :=
  let w := win st in
  n ← load (memory st) (safe_tail w);
  st1 ← put_copy (put_fuel length) src length (safe_tail w)
          (u32 (lastSeq w - validBlockCount n)) seq length st;
  h0 ← aget (headSeq (ub_list (win st1))) 0;
  if h0 =? lastSeq (win st1) then
    newSeq ← aget (tailSeq (ub_list (win st1))) 0;
    st2 ← put_advance (put_fuel (u32 (newSeq - lastSeq (win st1)))) newSeq st1;
    ub ← altusUBPop (ub_list (win st2));
    Ret (0, on_win (fun w => set_lastSeq newSeq (set_ub_list ub w)) st2)
  else Ret (0, st1).

(** [altusWQPut] *)
Definition altusWQPut (seq length : Z) (src : list Z) (st : wqs)
  : outcome (Z * wqs) :=
  let w := win st in
  if 0 <? s32 (lastSeq w - seq) then Ret (-2, st)
  else
    let required_new_node_count :=
      u32 (seq + length - lastSeq w) / ALTUS_NODE_SIZE + 1 in
    if windowSize w <? u32 (safe_len w + required_new_node_count) then Ret (-3, st)
    else
      '(retval, ub) ← altusUBCheck (ub_list w) seq length;
      let st1 := on_win (set_ub_list ub) st in
      if retval =? ALTUS_UBENUM_FULL then Ret (-4, st1)
      else if retval =? ALTUS_UBENUM_MALICIOUS_INPUT then Ret (-5, st1)
      else if retval =? ALTUS_UBENUM_OVERLAP then Ret (-2, st1)
      else if (retval =? ALTUS_UBENUM_UB_EXTENDED)
              || (retval =? ALTUS_UBENUM_NEW_UB_ADDED) then
        put_store seq length src st1
      else Exit.

(** The loop of [altusWQPop]; [dest] is [None] for a null destination.  The
    result is the returned count, the destination buffer and the queue. *)
Fixpoint pop_loop (fuel : nat) (length leftLen : Z) (currentNode : ptr)
    (dest : option (list Z)) (st : wqs) : outcome (Z * option (list Z) * wqs) :=
  if leftLen =? 0 then Ret (length, dest, st)
  else
    match fuel with
    | O => NoFuel
    | S f =>
        n ← load (memory st) currentNode;
        let writelen := s32 (validBlockCount n - headDataOffset (win st)) in
        let writelen := if leftLen <? writelen then leftLen else writelen in
        if writelen =? 0 then Ret (length - leftLen, dest, st)
        else
          dest1 ← match dest with
                  | None => Ret None
                  | Some buf =>
                      chunk ← mem_read (data n)
                                (headDataOffset (win st) * ALTUS_WQ_BLOCK_SIZE)
                                (writelen * ALTUS_WQ_BLOCK_SIZE);
                      buf1 ← mem_write buf
                               ((length - leftLen) * ALTUS_WQ_BLOCK_SIZE) chunk;
                      Ret (Some buf1)
                  end;
          let leftLen := s32 (leftLen - writelen) in
          let st1 := on_win (set_offset (u32 (headDataOffset (win st) + writelen))) st in
          if headDataOffset (win st1) =? ALTUS_NODE_SIZE then
            let currentNode := to_tail n in
            '(_, st2) ← altusWQPopNode st1;
            let st3 := on_win (set_offset 0) st2 in
            n' ← load (memory st3) currentNode;
            if headDataOffset (win st3) =? validBlockCount n'
            then Ret (length - leftLen, dest1, st3)
            else pop_loop f length leftLen currentNode dest1 st3
          else if headDataOffset (win st1) =? validBlockCount n then
            '(_, st2) ← altusWQPopNode st1;
            Ret (length - leftLen, dest1, st2)
          else if headDataOffset (win st1) =? validBlockCount n
          then Ret (length - leftLen, dest1, st1)
          else pop_loop f length leftLen currentNode dest1 st1
    end.

(** [altusWQPop] *)
Definition altusWQPop (length : Z) (dest : option (list Z)) (st : wqs)
  : outcome (Z * option (list Z) * wqs) :=
  pop_loop (put_fuel length) length length (head (win st)) dest st.

(** The loop of [altusWQPeek]: [None] is the early return. *)
Fixpoint peek_walk (fuel : nat) (deltaSeq : Z) (targetNode : ptr) (m : mem)
  : outcome (option (Z * ptr)) :=
  if deltaSeq <? ALTUS_NODE_SIZE then Ret (Some (deltaSeq, targetNode))
  else
    match fuel with
    | O => NoFuel
    | S f =>
        n ← load m targetNode;
        if ptr_eqb (to_tail n) None then Ret None
        else peek_walk f (deltaSeq - ALTUS_NODE_SIZE) (to_tail n) m
    end.

(** [altusWQPeek]: the returned length and [*pos], a node and a byte offset
    into its data. *)
Definition altusWQPeek (seq : Z) (st : wqs) : outcome (Z * option (ptr * Z)) :=
  let deltaSeq := u32 (seq - win_headSeq (win st)) in
  r ← peek_walk (Z.to_nat (deltaSeq / ALTUS_NODE_SIZE)) deltaSeq (head (win st))
        (memory st);
  match r with
  | None => Ret (0, None)
  | Some (deltaSeq, targetNode) =>
      n ← load (memory st) targetNode;
      if u32 (validBlockCount n - deltaSeq) <=? 0 then Ret (0, None)
      else Ret (s32 (validBlockCount n - deltaSeq), Some (targetNode, deltaSeq))
  end.

(** The loop of the [recalculateWinLen] macro; [ret] counts the nodes. *)
Fixpoint count_nodes (fuel : nat) (currentNode : ptr) (ret : Z) (st : wqs)
  : outcome (Z * wqs) :=
  if ptr_eqb currentNode (unsafe_tail (win st)) then Ret (ret, st)
  else
    match fuel with
    | O => NoFuel
    | S f =>
        let st1 := if ptr_eqb currentNode (safe_tail (win st))
                   then on_win (set_safe_len (u32 ret)) st else st in
        n ← load (memory st1) currentNode;
        count_nodes f (to_tail n) (ret + 1) st1
    end.

Definition recalculateWinLen (st : wqs) : outcome wqs :=
  let st1 := if ptr_eqb (head (win st)) (safe_tail (win st))
             then on_win (set_safe_len 1) st else st in
  '(ret, st2) ← count_nodes (size (nodes (memory st))) (head (win st1)) 1 st1;
  Ret (on_win (set_unsafe_len (u32 ret)) st2).

(** [altusWQSanitize] *)
Definition altusWQSanitize (st : wqs) : outcome (Z * wqs) :=
  st1 ← recalculateWinLen st;
  let w := win st1 in
  if ALTUS_WINDOW_BLOCK_MAX_ABSOLUTE <? unsafe_len w then Ret (-3, st1)
  else if u32 (Z.shiftl (windowSize w) 1) <? unsafe_len w then Ret (-2, st1)
  else if windowSize w <? unsafe_len w then Ret (-1, st1)
  else if unsafe_len w <? Z.shiftr (windowSize w) 3 then Ret (3, st1)
  else if unsafe_len w <? Z.shiftr (windowSize w) 2 then Ret (2, st1)
  else if unsafe_len w <? Z.shiftr (windowSize w) 1 then Ret (1, st1)
  else Ret (0, st1).

(** The loop shared by [altusFreeP] and [altusFreeWQ]: frees the nodes from
    [current_node] on, up to and including [tail]. *)
Fixpoint free_chain (fuel : nat) (current_node tail : ptr) (m : mem) : outcome mem :=
  if ptr_eqb current_node tail then free_node m current_node
  else
    match fuel with
    | O => NoFuel
    | S f =>
        n ← load m current_node;
        m1 ← free_node m current_node;
        free_chain f (to_tail n) tail m1
    end.

(** [altusFreeP]: the nodes of the pool, not the pool structure. *)
Definition altusFreeP (p : WQ_Node_Pool) (m : mem) : outcome mem :=
  if ptr_eqb (recycled_head p) None then Exit
  else free_chain (size (nodes m)) (recycled_head p) (recycled_tail p) m.

(** [altusFreeWQ] *)
Definition altusFreeWQ (w : WQ_Window) (m : mem) : outcome mem :=
  m1 ← free_chain (size (nodes m)) (head w) (unsafe_tail w) m;
  Ret (free_struct m1).
