(* ===== verification/WQStream.v ===== *)
(** * Reassembly of a stream by the windowed queue

    The invariant that ties a queue to the byte stream it receives, and the
    specifications of the loops of [altusWQPut].  Sequence numbers are absolute
    here ([B] is that of the first byte of the head node, [L] the next one
    expected in sequence); the queue stores them modulo 2^32. *)

From S2P Require Import Prelude UBList NodeHeap WindowedQueue WQChains.

(** The byte at offset [k] of the chain of nodes [wl]. *)
Definition chain_byte (h : gmap positive WQ_Node) (wl : list positive) (k : Z)
  : option Z :=
  a ← wl !! Z.to_nat (k / ALTUS_NODE_SIZE);
  n ← h !! a;
  data n !! Z.to_nat (k mod ALTUS_NODE_SIZE).

Lemma chain_byte_at h wl (i : nat) o a n :
  wl !! i = Some a -> h !! a = Some n -> 0 <= o < ALTUS_NODE_SIZE ->
  chain_byte h wl (ALTUS_NODE_SIZE * Z.of_nat i + o) = data n !! Z.to_nat o.
Proof.
  intros Hi Hn Ho. unfold chain_byte, ALTUS_NODE_SIZE in *.
  replace ((4096 * Z.of_nat i + o) / 4096) with (Z.of_nat i)
    by (Z.div_mod_to_equations; lia).
  replace ((4096 * Z.of_nat i + o) mod 4096) with o
    by (Z.div_mod_to_equations; lia).
  rewrite Nat2Z.id, Hi. simpl. by rewrite Hn.
Qed.

(** A byte of the chain is a byte of one of its nodes. *)
Lemma chain_byte_inv h wl k v :
  0 <= k -> chain_byte h wl k = Some v ->
  exists (i : nat) o a n, k = ALTUS_NODE_SIZE * Z.of_nat i + o /\
    0 <= o < ALTUS_NODE_SIZE /\ wl !! i = Some a /\ h !! a = Some n /\
    data n !! Z.to_nat o = Some v.
Proof.
  intros Hk Hv. unfold chain_byte in Hv.
  destruct (wl !! Z.to_nat (k / ALTUS_NODE_SIZE)) as [a|] eqn:Ha; [|done].
  simpl in Hv. destruct (h !! a) as [n|] eqn:Hn; [|done]. simpl in Hv.
  exists (Z.to_nat (k / ALTUS_NODE_SIZE)), (k mod ALTUS_NODE_SIZE), a, n.
  unfold ALTUS_NODE_SIZE in *. split_and!; try done; Z.div_mod_to_equations; lia.
Qed.

Lemma chain_byte_app h wl ext k v :
  chain_byte h wl k = Some v -> chain_byte h (wl ++ ext) k = Some v.
Proof.
  unfold chain_byte. intros H.
  destruct (wl !! Z.to_nat (k / ALTUS_NODE_SIZE)) as [a|] eqn:Ha; [|done].
  by rewrite (lookup_app_l_Some _ _ _ _ Ha).
Qed.

Lemma chain_byte_payload h h' wl k v :
  same_payload h h' wl -> chain_byte h wl k = Some v -> chain_byte h' wl k = Some v.
Proof.
  intros Hp. unfold chain_byte. intros H.
  destruct (wl !! Z.to_nat (k / ALTUS_NODE_SIZE)) as [a|] eqn:Ha; [|done].
  simpl in *. destruct (h !! a) as [n|] eqn:Hn; [|done].
  destruct (Hp a n) as (n' & -> & Hd & _); [|done|].
  - by apply list_elem_of_lookup_2 in Ha.
  - simpl in *. by rewrite Hd.
Qed.

(** Only the links of [wl] matter to where its bytes are. *)
Lemma chain_byte_dll h wl k :
  dll h wl -> 0 <= k < ALTUS_NODE_SIZE * Z.of_nat (length wl) ->
  is_Some (chain_byte h wl k).
Proof.
  intros Hd Hk. unfold ALTUS_NODE_SIZE in *.
  destruct (lookup_lt_is_Some_2 wl (Z.to_nat (k / 4096))) as [a Ha];
    [Z.div_mod_to_equations; lia|].
  destruct (dll_lookup _ _ _ _ Hd Ha) as (n & Hn & _ & _ & Hl).
  unfold chain_byte, ALTUS_NODE_SIZE in *. rewrite Ha. simpl. rewrite Hn. simpl.
  apply lookup_lt_is_Some_2. rewrite Hl. Z.div_mod_to_equations; lia.
Qed.

(** Writing [chunk] at offset [o] of node [i]. *)
Lemma chain_byte_write_in h wl (i : nat) a n o chunk k :
  wl !! i = Some a -> h !! a = Some n ->
  length (data n) = Z.to_nat ALTUS_NODE_SIZE ->
  0 <= o -> o + Z.of_nat (length chunk) <= ALTUS_NODE_SIZE ->
  0 <= k < Z.of_nat (length chunk) ->
  chain_byte (<[a := set_data (blit (Z.to_nat o) chunk (data n)) n]> h) wl
    (ALTUS_NODE_SIZE * Z.of_nat i + o + k) = chunk !! Z.to_nat k.
Proof.
  intros Hi Hn Hd Ho Hlen Hk. rewrite <- Z.add_assoc.
  rewrite (chain_byte_at _ _ _ _ a (set_data (blit (Z.to_nat o) chunk (data n)) n));
    [|done|apply lookup_insert_eq|lia].
  simpl. unfold ALTUS_NODE_SIZE in *. rewrite lookup_blit_in by lia. f_equal. lia.
Qed.

Lemma chain_byte_write_out h wl (i : nat) a n o chunk x v :
  NoDup wl -> wl !! i = Some a -> h !! a = Some n ->
  length (data n) = Z.to_nat ALTUS_NODE_SIZE ->
  0 <= o -> o + Z.of_nat (length chunk) <= ALTUS_NODE_SIZE -> 0 <= x ->
  ~ (ALTUS_NODE_SIZE * Z.of_nat i + o <= x <
     ALTUS_NODE_SIZE * Z.of_nat i + o + Z.of_nat (length chunk)) ->
  chain_byte h wl x = Some v ->
  chain_byte (<[a := set_data (blit (Z.to_nat o) chunk (data n)) n]> h) wl x = Some v.
Proof.
  intros Hnd Hi Hn Hd Ho Hlen Hx Hout Hv.
  destruct (chain_byte_inv _ _ _ _ Hx Hv) as (j & p & b & m & -> & Hp & Hj & Hm & Hb).
  destruct (decide (a = b)) as [->|Hne].
  - assert (i = j) as -> by (exact (NoDup_lookup_inj _ _ _ _ Hnd Hi Hj)).
    rewrite Hn in Hm. injection Hm as <-.
    erewrite chain_byte_at; [|done|apply lookup_insert_eq|done].
    simpl. unfold ALTUS_NODE_SIZE in *. by rewrite lookup_blit_out by lia.
  - by erewrite chain_byte_at; [|done|by rewrite lookup_insert_ne|done].
Qed.

(** The valid counts of the nodes of [l] are the same in both heaps. *)
Definition same_valid (h h' : gmap positive WQ_Node) (l : list positive) : Prop :=
  forall a n, a ∈ l -> h !! a = Some n ->
    exists n', h' !! a = Some n' /\ validBlockCount n' = validBlockCount n.

Lemma same_payload_valid h h' l : same_payload h h' l -> same_valid h h' l.
Proof. intros H a n Ha Hn. destruct (H _ _ Ha Hn) as (n' & ? & _ & ?). eauto. Qed.

Lemma same_valid_trans h1 h2 h3 l :
  same_valid h1 h2 l -> same_valid h2 h3 l -> same_valid h1 h3 l.
Proof.
  intros H12 H23 a n Ha Hn. destruct (H12 _ _ Ha Hn) as (n2 & Hn2 & <-).
  destruct (H23 _ _ Ha Hn2) as (n3 & Hn3 & <-). eauto.
Qed.

Lemma same_valid_app h h' l1 l2 : same_valid h h' (l1 ++ l2) -> same_valid h h' l1.
Proof. intros H a n Ha. apply H. by apply elem_of_app; left. Qed.

Lemma same_valid_refl h l : same_valid h h l.
Proof. intros a n _ Hn. eauto. Qed.

(** Overwriting the payload of a node keeps both lists. *)
Lemma wf_chains_update st wl pl a n n' :
  wf_chains st wl pl -> nodes (memory st) !! a = Some n ->
  to_tail n' = to_tail n -> to_head n' = to_head n ->
  length (data n') = length (data n) ->
  wf_chains (set_mem (set_nodes (<[a := n']> (nodes (memory st))) (memory st)) st) wl pl.
Proof.
  intros [] Ha Et Eh Ed. split; simpl; try done; by eapply dll_update.
Qed.

Lemma lookup_snoc_tail {A} (l : list A) x i :
  (i < length l)%nat -> is_Some ((l ++ [x]) !! S i).
Proof. intros. apply lookup_lt_is_Some_2. rewrite length_app. simpl. lia. Qed.

(** What a part of the copy loop does: it appends nodes to the chain and puts
    the stream [S] on [from, upto), leaving every other byte in place. *)
Record copied (S : Z -> Z) (B from upto : Z) (st st' : wqs) (wl wl' : list positive)
  : Prop := mk_copied {
  cp_ext : exists ext, wl' = wl ++ ext;
  cp_win : exists p z, win st' = set_unsafe_len z (set_unsafe_tail p (win st));
  cp_valid : same_valid (nodes (memory st)) (nodes (memory st')) wl;
  cp_new : forall x, from <= x < upto ->
    chain_byte (nodes (memory st')) wl' (x - B) = Some (S x);
  cp_old : forall x v, B <= x -> ~ (from <= x < upto) ->
    chain_byte (nodes (memory st)) wl (x - B) = Some v ->
    chain_byte (nodes (memory st')) wl' (x - B) = Some v
}.

Lemma copied_refl S B from upto st wl : upto <= from -> copied S B from upto st st wl wl.
Proof.
  intros H. split; [exists []; by rewrite app_nil_r| |apply same_valid_refl|lia|done].
  exists (unsafe_tail (win st)), (unsafe_len (win st)). by destruct (win st).
Qed.

Lemma copied_trans S B from mid upto st1 st2 st3 wl1 wl2 wl3 :
  B <= from -> from <= mid <= upto ->
  copied S B from mid st1 st2 wl1 wl2 -> copied S B mid upto st2 st3 wl2 wl3 ->
  copied S B from upto st1 st3 wl1 wl3.
Proof.
  intros HB Hm [[e1 ->] (p1 & z1 & Hw1) Hv1 Hn1 Ho1] [[e2 ->] (p2 & z2 & Hw2) Hv2 Hn2 Ho2].
  split.
  - exists (e1 ++ e2). by rewrite app_assoc.
  - exists p2, z2. rewrite Hw2, Hw1. done.
  - eapply same_valid_trans; [done|]. by eapply same_valid_app.
  - intros x Hx. destruct (decide (mid <= x)); [apply Hn2; lia|].
    apply Ho2; [lia..|]. apply Hn1. lia.
  - intros x v HBx Hx Hv. apply Ho2; [done|lia|]. apply Ho1; [done|lia|done].
Qed.

(** Appending a node copies nothing. *)
Lemma newNode_copied S B from st wl pl :
  wf_chains st wl pl -> (0 < avail (memory st))%nat ->
  exists a st' pl', altusWQNewNode st = Ret st' /\ wf_chains st' (wl ++ [a]) pl' /\
    copied S B from from st st' wl (wl ++ [a]) /\
    (avail (memory st) <= Datatypes.S (avail (memory st')))%nat.
Proof.
  intros Hwf Hav.
  destruct (altusWQNewNode_spec _ _ _ Hwf Hav) as (a & st' & pl' & E & Hwf' & Hp & Hav' & Hw).
  exists a, st', pl'. split_and!; try done. split; try lia.
  - by eexists.
  - by eexists _, _.
  - by apply same_payload_valid.
  - intros x v _ _ Hv. apply chain_byte_app. by eapply chain_byte_payload.
Qed.

(** One [memcpy] of the loop, into node [i] at offset [o]. *)
Lemma write_copied S B st wl pl (i : nat) a n o chunk :
  wf_chains st wl pl -> wl !! i = Some a -> nodes (memory st) !! a = Some n ->
  0 <= o -> o + Z.of_nat (length chunk) <= ALTUS_NODE_SIZE ->
  (forall k, 0 <= k < Z.of_nat (length chunk) ->
     chunk !! Z.to_nat k = Some (S (B + ALTUS_NODE_SIZE * Z.of_nat i + o + k))) ->
  let n' := set_data (blit (Z.to_nat o) chunk (data n)) n in
  let st' := set_mem (set_nodes (<[a := n']> (nodes (memory st))) (memory st)) st in
  let from := B + ALTUS_NODE_SIZE * Z.of_nat i + o in
  wf_chains st' wl pl /\
  copied S B from (from + Z.of_nat (length chunk)) st st' wl wl.
Proof.
  intros Hwf Hi Hn Ho Hlen Hc n' st' from.
  destruct (dll_lookup _ _ _ _ (wc_win _ _ _ Hwf) Hi) as (m & Hm & _ & _ & Hd).
  rewrite Hn in Hm. injection Hm as <-. unfold ALTUS_NODE_SIZE in *. split.
  - apply (wf_chains_update st wl pl a n n'); try done. apply length_blit. lia.
  - split.
    + exists []. by rewrite app_nil_r.
    + exists (unsafe_tail (win st)), (unsafe_len (win st)). simpl. by destruct (win st).
    + intros b m Hb Hm. simpl. destruct (decide (a = b)) as [->|Hne].
      * rewrite Hm in Hn. injection Hn as ->. rewrite lookup_insert_eq. by eexists.
      * rewrite lookup_insert_ne by done. by eexists.
    + intros x Hx. simpl. specialize (Hc (x - from) ltac:(lia)).
      replace (x - B) with (4096 * Z.of_nat i + o + (x - from)) by lia.
      rewrite (chain_byte_write_in (nodes (memory st)) wl i a n o chunk) by (done || lia).
      rewrite Hc. f_equal. f_equal. lia.
    + intros x v HB Hx Hv. simpl. unfold n'.
      apply (chain_byte_write_out _ wl i); try done; try lia.
      * apply (wc_win _ _ _ Hwf).
      * unfold ALTUS_NODE_SIZE. lia.
Qed.

(** The next node of a chain is reached through [to_tail]. *)
Lemma load_next st wl pl (i : nat) p :
  wf_chains st wl pl -> p = wl !! i -> (i < length wl)%nat ->
  exists n, load (memory st) p = Ret n /\ to_tail n = wl !! Datatypes.S i.
Proof.
  intros Hwf -> Hi. destruct (lookup_lt_is_Some_2 _ _ Hi) as [a Ha].
  destruct (dll_lookup _ _ _ _ (wc_win _ _ _ Hwf) Ha) as (n & Hn & Ht & _ & _).
  exists n. rewrite Ha. split; [by apply load_Some|done].
Qed.

Lemma lookup_ext {A} (l ext : list A) (i : nat) :
  (i < length l)%nat -> (l ++ ext) !! i = l !! i.
Proof. apply lookup_app_l. Qed.

Lemma last_index (l : list positive) (i : nat) :
  NoDup l -> (i < length l)%nat ->
  ptr_eqb (l !! i) (last l) = true <-> Datatypes.S i = length l.
Proof.
  intros Hnd Hi. unfold ptr_eqb. rewrite bool_decide_eq_true, last_lookup.
  split; intros H.
  - destruct (lookup_lt_is_Some_2 _ _ Hi) as [a Ha].
    assert (i = Nat.pred (length l)); [|lia].
    rewrite Ha in H. by apply (NoDup_lookup_inj l _ _ a).
  - f_equal. lia.
Qed.

(** What the next bytes to copy are. *)
Definition next_bytes (Str : Z -> Z) (src : list Z) (len left ls : Z) : Prop :=
  forall k, len - left <= k < len -> src !! Z.to_nat k = Some (Str (ls + (k - (len - left)))).

Lemma next_bytes_read Str src len left ls w :
  0 <= w <= left -> left <= len -> len <= Z.of_nat (length src) ->
  next_bytes Str src len left ls ->
  exists chunk, mem_read src (len - left) w = Ret chunk /\
    Z.of_nat (length chunk) = w /\
    forall k, 0 <= k < w -> chunk !! Z.to_nat k = Some (Str (ls + k)).
Proof.
  intros Hw Hl Hlen Hb. rewrite mem_read_ok by lia. eexists. split; [done|].
  rewrite length_take, length_drop. split; [lia|]. intros k Hk.
  rewrite lookup_take_lt, lookup_drop by lia.
  replace (Z.to_nat (len - left) + Z.to_nat k)%nat with (Z.to_nat (len - left + k)) by lia.
  rewrite Hb by lia. do 2 f_equal. lia.
Qed.

(** Moving on to the next node, which is appended when there is none. *)
Lemma copy_skip Str B from st wl pl (i : nat) :
  wf_chains st wl pl -> (i < length wl)%nat -> (0 < avail (memory st))%nat ->
  exists st1 wl1 pl1 n,
    (if ptr_eqb (wl !! i) (unsafe_tail (win st)) then altusWQNewNode st else Ret st)
      = Ret st1 /\
    wf_chains st1 wl1 pl1 /\ copied Str B from from st st1 wl wl1 /\
    (S i < length wl1)%nat /\
    load (memory st1) (wl !! i) = Ret n /\ to_tail n = wl1 !! S i /\
    (avail (memory st) <= S (avail (memory st1)))%nat.
Proof.
  intros Hwf Hi Hav. rewrite (wc_unsafe _ _ _ Hwf).
  pose proof (last_index wl i (proj1 (wc_win _ _ _ Hwf)) Hi) as Hlast.
  destruct (ptr_eqb (wl !! i) (last wl)).
  - destruct (newNode_copied Str B from _ _ _ Hwf Hav)
      as (a & st1 & pl1 & E & Hwf1 & Hc & Hav1).
    destruct (load_next st1 (wl ++ [a]) pl1 i (wl !! i) Hwf1) as (n & En & Hn);
      [by rewrite lookup_ext|rewrite length_app; lia|].
    exists st1, (wl ++ [a]), pl1, n. rewrite length_app. simpl. split_and!; (done || lia).
  - destruct (load_next st wl pl i (wl !! i) Hwf) as (n & En & Hn); [done|done|].
    exists st, wl, pl, n.
    assert (S i <> length wl) by (intros E; by apply Hlast in E).
    split_and!; try done; try lia. apply copied_refl. lia.
Qed.

(** Filling node [i] from offset [o] on with the next [w] bytes. *)
Lemma copy_write Str B src len left ls st wl pl (i : nat) o w :
  wf_chains st wl pl -> (i < length wl)%nat -> 0 <= o -> 0 <= w <= left ->
  o + w <= ALTUS_NODE_SIZE -> left <= len -> len <= Z.of_nat (length src) ->
  ls = B + ALTUS_NODE_SIZE * Z.of_nat i + o -> next_bytes Str src len left ls ->
  exists n chunk d m1,
    load (memory st) (wl !! i) = Ret n /\
    mem_read src (len - left) w = Ret chunk /\
    mem_write (data n) o chunk = Ret d /\
    update (memory st) (wl !! i) (set_data d) = Ret m1 /\
    wf_chains (set_mem m1 st) wl pl /\
    copied Str B ls (ls + w) st (set_mem m1 st) wl wl /\
    avail m1 = avail (memory st).
Proof.
  intros Hwf Hi Ho Hw How Hlen Hsrc -> Hb.
  destruct (next_bytes_read _ _ _ _ _ w Hw Hlen Hsrc Hb) as (chunk & Er & Hlc & Hc).
  destruct (lookup_lt_is_Some_2 _ _ Hi) as [a Ha].
  destruct (dll_lookup _ _ _ _ (wc_win _ _ _ Hwf) Ha) as (n & Hn & _ & _ & Hd).
  destruct (write_copied Str B st wl pl i a n o chunk) as [Hwf' Hcp]; try done; try lia.
  { intros k Hk. apply Hc. lia. }
  exists n, chunk. eexists _, _. rewrite Ha.
  split_and!; [by apply load_Some|done| |by apply update_Some| | |done].
  - apply mem_write_ok; [done|]. rewrite Hd. unfold ALTUS_NODE_SIZE in *. lia.
  - exact Hwf'.
  - rewrite <- Hlc. exact Hcp.
Qed.

Lemma next_bytes_advance Str src len left ls w :
  next_bytes Str src len left ls -> 0 <= w ->
  next_bytes Str src len (left - w) (ls + w).
Proof. intros Hb Hw k Hk. rewrite Hb by lia. do 2 f_equal. lia. Qed.

Lemma put_copy_done fuel src len p cs ls st : put_copy fuel src len p cs ls 0 st = Ret st.
Proof. by destruct fuel. Qed.

(** The copy loop, started at offset [o] of node [i]: with a turn and a free
    allocation per node it terminates, and it copies all the bytes. *)
Lemma put_copy_spec Str src len B : forall fuel st wl pl (i : nat) o left ls,
  wf_chains st wl pl -> (i < length wl)%nat -> 0 <= o <= ALTUS_NODE_SIZE ->
  0 <= left <= len -> len < 2 ^ 32 -> len <= Z.of_nat (length src) ->
  (left = 0 \/ o + left <= ALTUS_NODE_SIZE * Z.of_nat fuel) ->
  (fuel <= avail (memory st))%nat ->
  ls = B + ALTUS_NODE_SIZE * Z.of_nat i + o ->
  next_bytes Str src len left ls ->
  exists st' wl' pl',
    put_copy fuel src len (wl !! i) (u32 (B + ALTUS_NODE_SIZE * Z.of_nat i))
      (u32 ls) left st = Ret st' /\
    wf_chains st' wl' pl' /\ copied Str B ls (ls + left) st st' wl wl' /\
    (0 < left -> ls + left < B + ALTUS_NODE_SIZE * Z.of_nat (length wl')).
Proof.
  unfold ALTUS_NODE_SIZE.
  induction fuel as [|fuel IH]; intros st wl pl i o left ls Hwf Hi Ho Hl Hlen Hsrc Hf Hav Hls Hb.
  { assert (left = 0) as -> by lia. exists st, wl, pl.
    split_and!; try done. apply copied_refl. lia. }
  cbn [put_copy]. unfold ALTUS_NODE_SIZE, ALTUS_WQ_BLOCK_SIZE. rewrite ?Z.mul_1_r.
  destruct (Z.eqb_spec left 0) as [->|Hleft].
  { exists st, wl, pl. split_and!; try done. apply copied_refl. lia. }
  replace (u32 (u32 (B + 4096 * Z.of_nat i) + 4096 - u32 ls)) with (4096 - o).
  2: { rewrite u32_sub_r. rewrite <- Z.add_sub_assoc, u32_add_l, u32_small; lia. }
  rewrite (u32_add_l (B + 4096 * Z.of_nat i) 4096).
  replace (B + 4096 * Z.of_nat i + 4096) with (B + 4096 * Z.of_nat (S i)) by lia.
  destruct (Z.leb_spec (4096 - o) 0).
  - destruct (copy_skip Str B ls st wl pl i Hwf Hi ltac:(lia))
      as (st1 & wl1 & pl1 & n & -> & Hwf1 & Hc1 & Hi1 & En & Ht & Hav1).
    rewrite bind_ret, En, bind_ret, Ht.
    destruct (IH st1 wl1 pl1 (S i) 0 left ls) as (st' & wl' & pl' & E & Hwf' & Hc & Hroom);
      try done; try lia.
    exists st', wl', pl'. split_and!; try done.
    eapply (copied_trans _ _ _ ls); [lia|lia|done|done].
  - set (w := if left <? 4096 - o then left else 4096 - o).
    assert (Hw : 0 < w <= left /\ o + w <= 4096 /\ (w < left -> o + w = 4096)).
    { subst w. zcases; lia. }
    clearbody w.
    destruct (copy_write Str B src len left ls st wl pl i o w)
      as (n & chunk & d & m1 & -> & Er & Ew & Eu & Hwf1 & Hc1 & Hav1);
      try done; unfold ALTUS_NODE_SIZE; try lia.
    assert (u16 (u32 ls - u32 (B + 4096 * Z.of_nat i)) = o) as ->.
    { subst ls. wrap_lia. }
    rewrite bind_ret, Er, bind_ret, Ew, bind_ret, Eu, bind_ret.
    rewrite u32_add_l, (u32_small (left - w)), u32_eqb by lia.
    pose proof (next_bytes_advance _ _ _ _ _ w Hb ltac:(lia)) as Hb'.
    destruct (negb (left - w =? 0) || (ls + w =? B + 4096 * Z.of_nat (S i))) eqn:Eend.
    + assert (ls + w = B + 4096 * Z.of_nat (S i)) as Hend.
      { destruct (Z.eqb_spec (left - w) 0), (Z.eqb_spec (ls + w) (B + 4096 * Z.of_nat (S i)));
          simpl in Eend; (done || lia). }
      destruct (newNode_copied Str B (ls + w) _ _ _ Hwf1) as (a & st2 & pl2 & -> & Hwf2 & Hc2 & Hav2);
        [simpl; lia|].
      destruct (load_next st2 (wl ++ [a]) pl2 i (wl !! i) Hwf2) as (n2 & En2 & Ht2);
        [by rewrite lookup_ext|rewrite length_app; lia|].
      rewrite bind_ret, En2, bind_ret, Ht2. simpl in Hav2.
      destruct (IH st2 (wl ++ [a]) pl2 (S i) 0 (left - w) (ls + w))
        as (st' & wl' & pl' & E & Hwf' & Hc & Hroom); try done; try lia.
      { rewrite length_app. simpl. lia. }
      exists st', wl', pl'. replace (ls + w + (left - w)) with (ls + left) in * by lia.
      split_and!; try done.
      * eapply (copied_trans _ _ _ (ls + w)); [lia|lia|done|].
        by eapply (copied_trans _ _ _ (ls + w)); [lia|lia| |].
      * intros _. destruct (decide (left - w = 0)); [|lia].
        destruct (cp_ext _ _ _ _ _ _ _ _ Hc) as [ext ->].
        rewrite !length_app. simpl. lia.
    + apply orb_false_elim in Eend as [Ez%negb_false_iff%Z.eqb_eq Ee%Z.eqb_neq].
      rewrite Ez, put_copy_done. assert (w = left) as -> by lia.
      exists (set_mem m1 st), wl, pl. split_and!; try done. lia.
Qed.

(** ** Moving the safe end *)

(** The valid count of node [i]. *)
Definition valid_at (h : gmap positive WQ_Node) (wl : list positive) (i : nat)
  : option Z :=
  a ← wl !! i; n ← h !! a; Some (validBlockCount n).

Lemma valid_at_inv h wl i v :
  valid_at h wl i = Some v ->
  exists a n, wl !! i = Some a /\ h !! a = Some n /\ validBlockCount n = v.
Proof.
  unfold valid_at. destruct (wl !! i) as [a|] eqn:Ha; [|done]. simpl.
  destruct (h !! a) as [n|] eqn:Hn; [|done]. simpl. intros [= <-]. eauto.
Qed.

Lemma valid_at_intro h wl i a n :
  wl !! i = Some a -> h !! a = Some n -> valid_at h wl i = Some (validBlockCount n).
Proof. intros Ha Hn. unfold valid_at. rewrite Ha. simpl. by rewrite Hn. Qed.

Lemma valid_at_same h h' wl i v :
  same_valid h h' wl -> valid_at h wl i = Some v -> valid_at h' wl i = Some v.
Proof.
  intros Hs (a & n & Ha & Hn & <-)%valid_at_inv.
  destruct (Hs a n) as (n' & Hn' & <-); [by apply list_elem_of_lookup_2 in Ha|done|].
  by eapply valid_at_intro.
Qed.

Lemma valid_at_app h wl ext i v :
  valid_at h wl i = Some v -> valid_at h (wl ++ ext) i = Some v.
Proof.
  intros (a & n & Ha & Hn & <-)%valid_at_inv. eapply valid_at_intro; [|done].
  by apply lookup_app_l_Some.
Qed.

(** Setting the valid count of node [i]: the count changes there only, and no
    byte moves. *)
Lemma set_valid_spec st wl pl (i : nat) v :
  wf_chains st wl pl -> (i < length wl)%nat ->
  exists m1, update (memory st) (wl !! i) (set_valid v) = Ret m1 /\
    wf_chains (set_mem m1 st) wl pl /\
    valid_at (nodes m1) wl i = Some v /\
    (forall j, j <> i -> valid_at (nodes m1) wl j = valid_at (nodes (memory st)) wl j) /\
    (forall k, chain_byte (nodes m1) wl k = chain_byte (nodes (memory st)) wl k).
Proof.
  intros Hwf Hi. destruct (lookup_lt_is_Some_2 _ _ Hi) as [a Ha].
  pose proof (wc_win _ _ _ Hwf) as Hd.
  destruct (dll_lookup _ _ _ _ Hd Ha) as (n & Hn & _).
  rewrite Ha, (update_Some _ _ _ _ Hn). eexists. split; [done|]. simpl.
  split_and!.
  - by apply (wf_chains_update st wl pl a n (set_valid v n)).
  - by rewrite (valid_at_intro _ _ _ a (set_valid v n)) by (done || apply lookup_insert_eq).
  - intros j Hj. unfold valid_at. destruct (wl !! j) as [b|] eqn:Hb; [|done]. simpl.
    rewrite lookup_insert_ne; [done|]. intros ->. apply Hj.
    exact (NoDup_lookup_inj _ _ _ _ (proj1 Hd) Hb Ha).
  - intros k. unfold chain_byte.
    destruct (wl !! Z.to_nat (k / ALTUS_NODE_SIZE)) as [b|]; [|done]. simpl.
    destruct (decide (a = b)) as [<-|Hne].
    + by rewrite lookup_insert_eq, Hn.
    + by rewrite lookup_insert_ne.
Qed.

(** The fields of a window that the advance leaves alone. *)
Definition same_frame (w w' : WQ_Window) : Prop :=
  head w' = head w /\ unsafe_tail w' = unsafe_tail w /\
  headDataOffset w' = headDataOffset w /\ win_headSeq w' = win_headSeq w /\
  ub_list w' = ub_list w /\ windowSize w' = windowSize w.

(** Changing other window fields keeps the lists. *)
Lemma wf_chains_frame st wl pl w' :
  wf_chains st wl pl -> head w' = head (win st) ->
  unsafe_tail w' = unsafe_tail (win st) ->
  wf_chains (mkWqs w' (pool st) (memory st)) wl pl.
Proof. intros [] ? ?. split; simpl; first [done|congruence]. Qed.

(** The nodes from [s] on up to the one that holds [N] become full. *)
Record advanced (B N : Z) (s : nat) (st st' : wqs) (wl : list positive) : Prop := {
  ad_frame : same_frame (win st) (win st');
  ad_safe : exists (s' : nat) v', N = B + ALTUS_NODE_SIZE * Z.of_nat s' + v' /\
    0 <= v' < ALTUS_NODE_SIZE /\ (s <= s' < length wl)%nat /\
    safe_tail (win st') = wl !! s' /\
    valid_at (nodes (memory st')) wl s' = Some v' /\
    (forall i, (s <= i < s')%nat ->
       valid_at (nodes (memory st')) wl i = Some ALTUS_NODE_SIZE) /\
    safe_len (win st') = u32 (safe_len (win st) + (Z.of_nat s' - Z.of_nat s));
  ad_below : forall i, (i < s)%nat ->
    valid_at (nodes (memory st')) wl i = valid_at (nodes (memory st)) wl i;
  ad_bytes : forall k, chain_byte (nodes (memory st')) wl k =
    chain_byte (nodes (memory st)) wl k
}.

(** One full node: it is marked full and the safe tail moves to the next one. *)
Lemma advance_node st wl pl (s : nat) z :
  wf_chains st wl pl -> safe_tail (win st) = wl !! s -> (S s < length wl)%nat ->
  z = ALTUS_NODE_SIZE ->
  exists m1 n1 m2,
    update (memory st) (safe_tail (win st)) (set_valid z) = Ret m1 /\
    load m1 (safe_tail (win st)) = Ret n1 /\ to_tail n1 = wl !! S s /\
    update m1 (wl !! S s) (set_valid 0) = Ret m2 /\
    wf_chains (set_mem m2 st) wl pl /\
    valid_at (nodes m2) wl s = Some ALTUS_NODE_SIZE /\
    valid_at (nodes m2) wl (S s) = Some 0 /\
    (forall i, (i < s)%nat -> valid_at (nodes m2) wl i = valid_at (nodes (memory st)) wl i) /\
    (forall k, chain_byte (nodes m2) wl k = chain_byte (nodes (memory st)) wl k).
Proof.
  intros Hwf Hs Hi ->. rewrite Hs.
  destruct (set_valid_spec st wl pl s ALTUS_NODE_SIZE Hwf) as (m1 & E1 & Hwf1 & Hv1 & Ho1 & Hb1);
    [lia|].
  destruct (load_next _ wl pl s (wl !! s) Hwf1) as (n1 & En & Ht); [done|lia|].
  destruct (set_valid_spec _ wl pl (S s) 0 Hwf1 Hi) as (m2 & E2 & Hwf2 & Hv2 & Ho2 & Hb2).
  exists m1, n1, m2. simpl in *. split_and!; try done.
  - rewrite Ho2 by lia. done.
  - intros i Hlt. rewrite Ho2, Ho1 by lia. done.
  - intros k. by rewrite Hb2, Hb1.
Qed.

Lemma put_advance_spec B N : forall fuel st wl pl (s : nat) v,
  wf_chains st wl pl -> safe_tail (win st) = wl !! s ->
  valid_at (nodes (memory st)) wl s = Some v -> 0 <= v < ALTUS_NODE_SIZE ->
  lastSeq (win st) = u32 (B + ALTUS_NODE_SIZE * Z.of_nat s + v) ->
  B + ALTUS_NODE_SIZE * Z.of_nat s + v <= N ->
  N < B + ALTUS_NODE_SIZE * Z.of_nat (length wl) ->
  N - (B + ALTUS_NODE_SIZE * Z.of_nat s) < 2 ^ 31 ->
  N - (B + ALTUS_NODE_SIZE * Z.of_nat s) < ALTUS_NODE_SIZE * Z.of_nat fuel ->
  safe_len (win st) = u32 (safe_len (win st)) ->
  exists st', put_advance fuel (u32 N) st = Ret st' /\
    wf_chains st' wl pl /\ advanced B N s st st' wl.
Proof.
  unfold ALTUS_NODE_SIZE.
  induction fuel as [|fuel IH]; intros st wl pl s v Hwf Hs Hv Hv' HL HN Hroom Hw Hf Hsl; [lia|].
  destruct (valid_at_inv _ _ _ _ Hv) as (a & n & Ha & Hn & Hvn).
  pose proof (lookup_lt_Some _ _ _ Ha) as Hslt.
  assert (El : load (memory st) (safe_tail (win st)) = Ret n)
    by (rewrite Hs, Ha; by apply load_Some).
  cbn [put_advance]. unfold ALTUS_NODE_SIZE. rewrite El, bind_ret, Hvn, HL, u32_sub_l.
  clear El.
  replace (B + 4096 * Z.of_nat s + v - v) with (B + 4096 * Z.of_nat s) by lia.
  rewrite s32_diff by lia. set (d := N - (B + 4096 * Z.of_nat s)) in *.
  destruct (Z.ltb_spec 4096 d); [|destruct (Z.eqb_spec d 4096) as [Hd|Hd]].
  - destruct (advance_node st wl pl s 4096 Hwf Hs)
      as (m1 & n1 & m2 & -> & El & Ht & E2 & Hwf2 & Hvs & Hvs' & Hbel & Hby); [lia|done|].
    rewrite bind_ret. cbn [safe_tail set_unsafe_len set_safe_len set_lastSeq set_safe_tail].
    rewrite El, bind_ret, Ht, E2, bind_ret. set (st2 := mkWqs _ _ _).
    destruct (IH st2 wl pl (S s) 0) as (st' & E & Hwf' & [Hfr (s' & v' & ? & ? & ? & ? & ? & Hfull & Hlen) Hb Hc]);
      simpl; try done; try lia.
    { by apply (wf_chains_frame _ _ _ _ Hwf2). }
    { rewrite u32_add_l. f_equal. lia. }
    { by rewrite u32_idemp. }
    exists st'. split_and!; try done. split; [done| | |].
    + exists s', v'. split_and!; try done; try lia.
      * intros i Hi. destruct (decide (i = s)) as [->|]; [by rewrite Hb by lia|]. apply Hfull. lia.
      * rewrite Hlen. simpl. rewrite u32_add_l. f_equal. lia.
    + intros i Hi. rewrite Hb by lia. by apply Hbel.
    + intros k. by rewrite Hc.
  - destruct (advance_node st wl pl s d Hwf Hs)
      as (m1 & n1 & m2 & -> & El & Ht & E2 & Hwf2 & Hvs & Hvs' & Hbel & Hby); [lia|done|].
    rewrite bind_ret, El, bind_ret. cbn [safe_tail set_safe_tail].
    rewrite Ht, E2, bind_ret. eexists. split; [done|]. split.
    + by apply (wf_chains_frame _ _ _ _ Hwf2).
    + split; simpl; try done. exists (S s), 0. unfold ALTUS_NODE_SIZE.
      split_and!; try done; try lia.
      * intros i Hi. by replace i with s by lia.
      * f_equal. lia.
  - rewrite Hs, (u32_small d) by lia.
    destruct (set_valid_spec st wl pl s d Hwf Hslt) as (m1 & -> & Hwf1 & Hv1 & Ho1 & Hb1).
    rewrite bind_ret. eexists. split; [done|]. split.
    + by apply (wf_chains_frame _ _ _ _ Hwf1).
    + split; simpl; try done.
      * exists s, d. unfold ALTUS_NODE_SIZE. split_and!; try done; try lia.
        by rewrite Z.sub_diag, Z.add_0_r.
      * intros i Hi. apply Ho1. lia.
Qed.
