(* ===== verification/WQCorrect.v ===== *)
(** * Correctness of the windowed queue

    The queue as a reassembly buffer of one byte stream [Str], indexed by
    absolute sequence numbers: what [altusWQPut] stores, what [altusWQPop] and
    [altusWQPeek] deliver. *)

From S2P Require Import Prelude UBList NodeHeap WindowedQueue WQChains WQStream.

(** How far ahead of [lastSeq] a queue can hold data. *)
Definition REACH : Z := 2 ^ 31 - ALTUS_NODE_SIZE.

(** The bytes a window of the default size has room for, 512 MB. *)
Definition QUEUE_MAX : Z := ALTUS_NODE_SIZE * ALTUS_WINDOW_BLOCK_MAX_DEFAULT.

(** [wl], [pl]: the nodes of window and pool; node [s] is the safe tail; [B] is
    the absolute sequence number of the first byte of the head node, [L] the
    next one expected in order, [blk] the blocks received from [lo] on. *)
Record wq_state (Str : Z -> Z) (lo : Z) (st : wqs) (wl pl : list positive) (s : nat)
    (B L : Z) (blk : list (Z * Z)) : Prop := mk_wq_state {
  qi_chains : wf_chains st wl pl;
  qi_safe : safe_tail (win st) = wl !! s;
  qi_full : forall i, (i < s)%nat ->
    valid_at (nodes (memory st)) wl i = Some ALTUS_NODE_SIZE;
  qi_valid : exists v, L = B + ALTUS_NODE_SIZE * Z.of_nat s + v /\
    0 <= v < ALTUS_NODE_SIZE /\ valid_at (nodes (memory st)) wl s = Some v;
  qi_last : lastSeq (win st) = u32 L;
  qi_ub : ub_rep (ub_list (win st)) blk;
  qi_blk : blocks_ok lo (L + REACH) blk;
  qi_room : forall x, covered blk x ->
    x + 1 < B + ALTUS_NODE_SIZE * Z.of_nat (length wl);
  qi_bytes : forall x, B <= x < L \/ covered blk x ->
    chain_byte (nodes (memory st)) wl (x - B) = Some (Str x);
  qi_off : 0 <= headDataOffset (win st) < ALTUS_NODE_SIZE /\
    B + headDataOffset (win st) <= L;
  qi_len : safe_len (win st) = u32 (Z.of_nat s + 1);
  qi_win : windowSize (win st) = ALTUS_WINDOW_BLOCK_MAX_DEFAULT /\
    L - B < QUEUE_MAX /\ forall x, covered blk x -> x + 1 - B < QUEUE_MAX
}.

(** What the operations on arriving data leave alone. *)
Definition kept (w w' : WQ_Window) : Prop :=
  headDataOffset w' = headDataOffset w /\ win_headSeq w' = win_headSeq w /\
  windowSize w' = windowSize w.

(** Between operations the blocks lie strictly ahead of the next expected
    byte. *)
Definition wq_inv (Str : Z -> Z) (st : wqs) (wl pl : list positive) (s : nat)
    (B L : Z) (blk : list (Z * Z)) : Prop :=
  wq_state Str (L + 1) st wl pl s B L blk.

(** The bytes a queue holds: in order from its head node on, or ahead. *)
Definition holds (B L : Z) (blk : list (Z * Z)) (x : Z) : Prop :=
  B <= x < L \/ covered blk x.

(** The data part of [altusWQPut]: copy, then move the safe end. *)
Lemma put_copy_inv Str st wl pl s B L blk blk' ub' src s0 e :
  wq_inv Str st wl pl s B L blk -> ub_rep ub' blk' ->
  L <= s0 -> s0 < e -> e <= L + REACH ->
  s0 <= B + ALTUS_NODE_SIZE * Z.of_nat s + ALTUS_NODE_SIZE ->
  e - s0 <= Z.of_nat (length src) ->
  (forall k, 0 <= k < e - s0 -> src !! Z.to_nat k = Some (Str (s0 + k))) ->
  (put_fuel (e - s0) <= avail (memory st))%nat ->
  exists n st1 wl1 pl1,
    load (memory st) (safe_tail (win st)) = Ret n /\
    put_copy (put_fuel (e - s0)) src (e - s0) (safe_tail (win st))
      (u32 (lastSeq (win st) - validBlockCount n)) (u32 s0) (e - s0)
      (on_win (set_ub_list ub') st) = Ret st1 /\
    wf_chains st1 wl1 pl1 /\
    copied Str B s0 e (on_win (set_ub_list ub') st) st1 wl wl1 /\
    e < B + ALTUS_NODE_SIZE * Z.of_nat (length wl1).
Proof.
  intros Hq Hub HL He HR Hguard Hsrc Hdata Hav.
  destruct (qi_valid _ _ _ _ _ _ _ _ _ Hq) as (v & HLv & Hv & Hvs).
  destruct (valid_at_inv _ _ _ _ Hvs) as (a & n & Ha & Hn & Hvn).
  pose proof (lookup_lt_Some _ _ _ Ha).
  rewrite (qi_safe _ _ _ _ _ _ _ _ _ Hq), (qi_last _ _ _ _ _ _ _ _ _ Hq).
  exists n. rewrite Hvn, u32_sub_l.
  replace (L - v) with (B + ALTUS_NODE_SIZE * Z.of_nat s) by lia.
  destruct (put_copy_spec Str src (e - s0) B (put_fuel (e - s0))
    (on_win (set_ub_list ub') st) wl pl s (s0 - (B + ALTUS_NODE_SIZE * Z.of_nat s))
    (e - s0) s0) as (st1 & wl1 & pl1 & E & Hwf & Hc & Hroom);
    unfold REACH, ALTUS_NODE_SIZE in *; try done; try lia.
  - apply (wf_chains_frame st); [apply Hq|done|done].
  - right. unfold put_fuel, ALTUS_NODE_SIZE. Z.div_mod_to_equations; lia.
  - intros k Hk. rewrite Hdata by lia. do 2 f_equal. lia.
  - exists st1, wl1, pl1. split_and!; try done.
    + rewrite Ha. by apply load_Some.
    + by replace (s0 + (e - s0)) with e in Hc by lia.
    + lia.
Qed.

(** After the copy the queue represents the enlarged block list. *)
Lemma copied_state Str st st1 wl wl1 pl pl1 s B L blk blk' ub' s0 e :
  wq_inv Str st wl pl s B L blk -> ub_rep ub' blk' ->
  blocks_ok L (L + REACH) blk' ->
  (forall x, covered blk' x <-> covered blk x \/ s0 <= x < e) ->
  L <= s0 -> e - B < QUEUE_MAX -> wf_chains st1 wl1 pl1 ->
  copied Str B s0 e (on_win (set_ub_list ub') st) st1 wl wl1 ->
  e < B + ALTUS_NODE_SIZE * Z.of_nat (length wl1) ->
  wq_state Str L st1 wl1 pl1 s B L blk'.
Proof.
  intros [Hch Hs Hf (v & HLv & Hv & Hvs) Hl _ Hblk Hro Hby Hoff Hlen Hwin] Hub Hok Hcov HL HeW Hwf1
    [[ext ->] (p & z & Hw1) Hvalid Hnew Hold] Hroom.
  destruct (valid_at_inv _ _ _ _ Hvs) as (a & n & Ha & _ & _).
  split; rewrite ?Hw1; simpl; try done.
  - by rewrite (lookup_app_l_Some _ _ _ _ Ha), Hs.
  - intros i Hi. apply valid_at_app. eapply valid_at_same; [exact Hvalid|]. by apply Hf.
  - exists v. split; [done|]. split; [done|]. apply valid_at_app.
    by eapply valid_at_same.
  - unfold ALTUS_NODE_SIZE in *. intros x [Hx|Hx]%Hcov; [|lia].
    specialize (Hro _ Hx). rewrite length_app. lia.
  - intros x Hx. destruct (decide (s0 <= x < e)); [by apply Hnew|].
    apply Hold; [|done|apply Hby].
    + destruct Hx as [?|Hx]; [lia|].
      apply (covered_bounds _ _ _ _ Hok) in Hx. unfold ALTUS_NODE_SIZE in *. lia.
    + destruct Hx as [?|Hx%Hcov]; [by left|right]. destruct Hx; [done|lia].
  - destruct Hwin as (? & ? & Hw). split_and!; try done.
    intros x [Hx|Hx]%Hcov; [by apply Hw|lia].
Qed.

Lemma blocks_ok_mono_hi lo hi hi' l :
  hi <= hi' -> blocks_ok lo hi l -> blocks_ok lo hi' l.
Proof.
  revert lo. induction l as [|[h t] r IH]; intros lo Hh Hok; [done|].
  destruct Hok as (? & ? & ? & Hr). simpl. split_and!; try lia. by apply IH.
Qed.

(** The first block begins at the safe end: it becomes part of the stream. *)
Lemma put_advance_state Str st wl pl s B L t0 r :
  wq_state Str L st wl pl s B L ((L, t0) :: r) ->
  exists st' ub s', 
    put_advance (put_fuel (u32 (u32 t0 - u32 L))) (u32 t0) st = Ret st' /\
    altusUBPop (ub_list (win st')) = Ret ub /\
    wq_inv Str (on_win (fun w => set_lastSeq (u32 t0) (set_ub_list ub w)) st')
      wl pl s' B t0 r /\
    kept (win st) (win st').
Proof.
  intros [Hch Hs Hf (v & HLv & Hv & Hvs) Hl Hub Hblk Hro Hby Hoff Hlen Hwin].
  destruct Hblk as (_ & Hlt & Ht & Hr).
  assert (Hroom : t0 - 1 + 1 < B + ALTUS_NODE_SIZE * Z.of_nat (length wl)).
  { apply Hro. rewrite covered_cons. lia. }
  unfold REACH, ALTUS_NODE_SIZE in *. rewrite u32_diff by lia.
  destruct (put_advance_spec B t0 (put_fuel (t0 - L)) st wl pl s v)
    as (st' & E & Hwf' & [Hfr (s' & v' & HN & Hv' & Hs' & Hst' & Hvs' & Hfull & Hlen') Hbel Hbytes]);
    unfold ALTUS_NODE_SIZE; try done; try lia.
  { by rewrite Hl, HLv. }
  { unfold put_fuel, ALTUS_NODE_SIZE. Z.div_mod_to_equations; lia. }
  { by rewrite Hlen, u32_idemp. }
  destruct Hfr as (Fh & Fu & Fo & Fq & Fub & Fws).
  assert (exists ub, altusUBPop (ub_list (win st')) = Ret ub /\ ub_rep ub r) as (ub & Ep & Hub').
  { rewrite Fub. by eapply UBPop_rep. }
  exists st', ub, s'. split; [done|]. split; [done|]. split; [|by split_and!].
  split; simpl; try done.
  - by apply (wf_chains_frame st').
  - intros i Hi. destruct (decide (i < s)%nat); [rewrite Hbel by done; by apply Hf|].
    apply Hfull. lia.
  - exists v'. unfold ALTUS_NODE_SIZE in *. split_and!; (done || lia).
  - eapply blocks_ok_mono_hi; [|exact Hr]. unfold REACH, ALTUS_NODE_SIZE. lia.
  - intros x Hx. apply Hro. rewrite covered_cons. by right.
  - intros x Hx. rewrite Hbytes. apply Hby. rewrite covered_cons.
    destruct Hx; [|by right; right]. destruct (decide (x < L)); [left|right; left]; lia.
  - rewrite Fo. unfold ALTUS_NODE_SIZE. lia.
  - rewrite Hlen', Hlen, u32_add_l. f_equal. lia.
  - destruct Hwin as (Hws & _ & Hw). rewrite Fws. split_and!; [done| |].
    + specialize (Hw (t0 - 1)). rewrite covered_cons in Hw. lia.
    + intros x Hx. apply Hw. rewrite covered_cons. by right.
Qed.

Lemma holds_join B L t0 r x :
  B <= L -> L < t0 -> holds B L ((L, t0) :: r) x <-> holds B t0 r x.
Proof. unfold holds. rewrite covered_cons. intros. intuition lia. Qed.

(** The last part of [altusWQPut], after the copy. *)
Lemma put_finish_inv Str st wl pl s B L blk :
  wq_state Str L st wl pl s B L blk -> blk <> [] ->
  exists st' s' L' blk',
    (h0 ← aget (headSeq (ub_list (win st))) 0;
     if h0 =? lastSeq (win st) then
       newSeq ← aget (tailSeq (ub_list (win st))) 0;
       st2 ← put_advance (put_fuel (u32 (newSeq - lastSeq (win st)))) newSeq st;
       ub ← altusUBPop (ub_list (win st2));
       Ret (0, on_win (fun w => set_lastSeq newSeq (set_ub_list ub w)) st2)
     else Ret (0, st)) = Ret (0, st') /\
    wq_inv Str st' wl pl s' B L' blk' /\ L <= L' /\
    (forall x, holds B L' blk' x <-> holds B L blk x) /\
    kept (win st) (win st').
Proof.
  intros Hq Hne. destruct blk as [|[h0 t0] r]; [done|].
  pose proof (qi_ub _ _ _ _ _ _ _ _ _ Hq) as Hub.
  pose proof (qi_blk _ _ _ _ _ _ _ _ _ Hq) as (? & ? & ? & Hr).
  pose proof (qi_off _ _ _ _ _ _ _ _ _ Hq) as [? ?].
  pose proof (rep_get_head _ _ 0%nat (h0, t0) Hub eq_refl) as Eh.
  pose proof (rep_get_tail _ _ 0%nat (h0, t0) Hub eq_refl) as Et.
  change (Z.of_nat 0) with 0 in *. rewrite Eh, bind_ret, Et.
  rewrite (qi_last _ _ _ _ _ _ _ _ _ Hq). cbn [fst snd].
  unfold REACH, ALTUS_NODE_SIZE in *. rewrite u32_eqb by lia.
  destruct (Z.eqb_spec h0 L) as [->|].
  - destruct (put_advance_state _ _ _ _ _ _ _ _ _ Hq) as (st' & ub & s' & E & Ep & Hq' & Ho).
    rewrite bind_ret, E, bind_ret, Ep, bind_ret. eexists _, s', t0, r.
    split_and!; [done|exact Hq'|lia| |done]. intros x. rewrite holds_join by lia. done.
  - exists st, s, L, ((h0, t0) :: r). split_and!; try done.
    destruct Hq as [? ? ? ? ? ? (? & ? & ? & ?) ? ? ? ? ?]. split; try done.
    simpl. unfold REACH, ALTUS_NODE_SIZE. split_and!; (done || lia).
Qed.

Lemma put_store_inv Str st wl pl s B L blk blk' ub' src s0 e :
  wq_inv Str st wl pl s B L blk -> ub_rep ub' blk' -> 
  blocks_ok L (L + REACH) blk' ->
  (forall x, covered blk' x <-> covered blk x \/ s0 <= x < e) ->
  L <= s0 -> s0 < e -> e <= L + REACH -> e - B < QUEUE_MAX ->
  s0 <= B + ALTUS_NODE_SIZE * Z.of_nat s + ALTUS_NODE_SIZE ->
  e - s0 <= Z.of_nat (length src) ->
  (forall k, 0 <= k < e - s0 -> src !! Z.to_nat k = Some (Str (s0 + k))) ->
  (put_fuel (e - s0) <= avail (memory st))%nat ->
  exists st' wl' pl' s' L' blk'',
    put_store (u32 s0) (e - s0) src (on_win (set_ub_list ub') st) = Ret (0, st') /\
    wq_inv Str st' wl' pl' s' B L' blk'' /\ L <= L' /\
    (forall x, holds B L' blk'' x <-> holds B L blk x \/ s0 <= x < e) /\
    kept (win st) (win st').
Proof.
  intros Hq Hub Hok Hcov HL He HR HeW Hguard Hsrc Hdata Hav.
  destruct (put_copy_inv _ _ _ _ _ _ _ _ _ _ _ _ _ Hq Hub HL He HR Hguard Hsrc Hdata Hav)
    as (n & st1 & wl1 & pl1 & El & Ec & Hwf1 & Hc & Hroom).
  unfold put_store. cbn [win on_win safe_tail set_ub_list lastSeq memory].
  rewrite El, bind_ret, Ec, bind_ret.
  pose proof (copied_state _ _ _ _ _ _ _ _ _ _ _ _ _ _ _ Hq Hub Hok Hcov HL HeW Hwf1 Hc Hroom) as Hq1.
  destruct (put_finish_inv _ _ _ _ _ _ _ _ Hq1) as (st' & s' & L' & blk'' & E & Hq' & HL' & Hh & Ho).
  { intros ->. destruct (covered_nil s0). apply Hcov. lia. }
  exists st', wl1, pl1, s', L', blk''. split_and!; try done.
  - intros x. rewrite Hh. unfold holds. rewrite Hcov. tauto.
  - unfold kept in Ho |- *. destruct Hc as [_ (p & z & Ew) _ _ _]. by rewrite Ew in Ho.
Qed.

(** A refused put leaves the queue as it was. *)
Lemma on_win_same_ub st : on_win (set_ub_list (ub_list (win st))) st = st.
Proof. by destruct st as [[] ? ?]. Qed.

(** A packet up to [e] needs more nodes than the window may have. *)
Definition exceeds (s : nat) (L e : Z) : Prop :=
  ALTUS_WINDOW_BLOCK_MAX_DEFAULT < Z.of_nat s + (e - L) / ALTUS_NODE_SIZE + 2.

(** The bookkeeping has no room for the range: a ninth block. *)
Definition crowded (blk : list (Z * Z)) (s0 e : Z) : Prop :=
  ~ touches blk s0 e /\ length blk = 8%nat.

Lemma qi_count Str st wl pl s B L blk :
  wq_inv Str st wl pl s B L blk -> Z.of_nat s < ALTUS_WINDOW_BLOCK_MAX_DEFAULT.
Proof.
  intros Hq. destruct (qi_valid _ _ _ _ _ _ _ _ _ Hq) as (v & HLv & Hv & _).
  destruct (qi_win _ _ _ _ _ _ _ _ _ Hq) as (_ & HLB & _).
  unfold QUEUE_MAX, ALTUS_NODE_SIZE in *. lia.
Qed.

(** What a packet within the window is inside of. *)
Lemma not_exceeds Str st wl pl s B L blk e :
  wq_inv Str st wl pl s B L blk -> ~ exceeds s L e ->
  e - B < QUEUE_MAX /\ e <= L + REACH.
Proof.
  intros Hq Hx. destruct (qi_valid _ _ _ _ _ _ _ _ _ Hq) as (v & HLv & Hv & _).
  unfold exceeds, QUEUE_MAX, REACH, ALTUS_WINDOW_BLOCK_MAX_DEFAULT, ALTUS_NODE_SIZE in *.
  Z.div_mod_to_equations; lia.
Qed.

(** The checks of [altusWQPut] on a packet that does not begin before the next
    expected byte: the window, then the block list. *)
Lemma altusWQPut_checks Str st wl pl s B L blk src s0 e :
  wq_inv Str st wl pl s B L blk ->
  L <= s0 -> s0 - L <= 2 ^ 31 -> s0 < e -> e - s0 < 2 ^ 31 ->
  (exceeds s L e /\ altusWQPut (u32 s0) (e - s0) src st = Ret (-3, st)) \/
  (~ exceeds s L e /\ overlaps blk s0 e /\
     altusWQPut (u32 s0) (e - s0) src st = Ret (-5, st)) \/
  (~ exceeds s L e /\ ~ overlaps blk s0 e /\ crowded blk s0 e /\
     altusWQPut (u32 s0) (e - s0) src st = Ret (-4, st)) \/
  (~ exceeds s L e /\ ~ overlaps blk s0 e /\ ~ crowded blk s0 e /\ exists ub' blk',
     altusWQPut (u32 s0) (e - s0) src st =
       put_store (u32 s0) (e - s0) src (on_win (set_ub_list ub') st) /\
     ub_rep ub' blk' /\ blocks_ok L (L + REACH) blk' /\
     (forall x, covered blk' x <-> covered blk x \/ s0 <= x < e)).
Proof.
  intros Hq HL HR He Hlen. unfold altusWQPut.
  pose proof (qi_count _ _ _ _ _ _ _ _ Hq) as Hs.
  pose proof (qi_ub _ _ _ _ _ _ _ _ _ Hq) as Hub.
  pose proof (blocks_ok_mono (L + 1) L _ _ ltac:(lia) (qi_blk _ _ _ _ _ _ _ _ _ Hq)) as Hok.
  destruct (qi_win _ _ _ _ _ _ _ _ _ Hq) as (Hws & _).
  rewrite (qi_last _ _ _ _ _ _ _ _ _ Hq), (qi_len _ _ _ _ _ _ _ _ _ Hq), Hws.
  rewrite s32_diff by lia. destruct (Z.ltb_spec 0 (L - s0)); [lia|].
  assert (E : u32 (u32 (Z.of_nat s + 1) + (u32 (u32 s0 + (e - s0) - u32 L) / ALTUS_NODE_SIZE + 1)) =
    Z.of_nat s + (e - L) / ALTUS_NODE_SIZE + 2).
  { replace (u32 s0 + (e - s0) - u32 L) with (u32 s0 + (e - s0 - u32 L)) by lia.
    rewrite (u32_add_l s0). replace (s0 + (e - s0 - u32 L)) with (e - u32 L) by lia.
    rewrite (u32_sub_r e L), (u32_small (e - L)) by lia.
    unfold ALTUS_WINDOW_BLOCK_MAX_DEFAULT, ALTUS_NODE_SIZE in *.
    rewrite u32_add_l, u32_small; Z.div_mod_to_equations; lia. }
  rewrite E. clear E.
  match goal with |- context [if ?a <? ?z then _ else _] => destruct (Z.ltb_spec a z) as [Hx|Hx] end.
  { left. by split. }
  assert (Hin : ~ exceeds s L e) by (unfold exceeds; lia).
  destruct (not_exceeds _ _ _ _ _ _ _ _ _ Hq Hin) as [_ HeR].
  destruct (UBCheck_rep _ _ s0 e L (L + REACH) Hub Hok)
    as (c & ub' & l' & -> & Hub' & Hok' & Hcode & Hcov & Hsame);
    [lia..|unfold REACH, ALTUS_NODE_SIZE; lia|].
  rewrite bind_ret. right.
  destruct Hcode as [(-> & Hov)|[(-> & Hno & Ht)|[(-> & Hno & Ht & H8)|(-> & Hno & Ht & H8)]]]; simpl.
  - left. destruct Hsame as [-> ->]; [by right|]. by rewrite on_win_same_ub.
  - do 2 right. split_and!; [done..|intros [? _]; done|]. exists ub', l'.
    split_and!; try done. apply Hcov. by left.
  - do 2 right. split_and!; [done..|intros [_ ?]; lia|]. exists ub', l'.
    split_and!; try done. apply Hcov. by right.
  - right; left. destruct Hsame as [-> ->]; [by left|]. rewrite on_win_same_ub. by split_and!.
Qed.

(** A packet that begins past the node after the safe one: the unsigned
    [writelen] wraps, and the whole packet is written at a 16-bit offset into
    the safe node, outside of its data if it does not fit there. *)
Lemma put_copy_far fuel src len st a n N s0 :
  nodes (memory st) !! a = Some n -> length (data n) = Z.to_nat ALTUS_NODE_SIZE ->
  0 < len <= Z.of_nat (length src) -> ALTUS_NODE_SIZE < s0 - N -> s0 - N + len < 2 ^ 31 ->
  let o := u16 (s0 - N) in
  put_copy (S fuel) src len (Some a) (u32 N) (u32 s0) len st =
    if ALTUS_NODE_SIZE <? o + len then Fault
    else Ret (set_mem (set_nodes
           (<[a := set_data (blit (Z.to_nat o) (take (Z.to_nat len) src) (data n)) n]>
              (nodes (memory st))) (memory st)) st).
Proof.
  intros Hn Hd Hlen Hfar Hb o. cbn [put_copy]. unfold ALTUS_NODE_SIZE in *.
  destruct (Z.eqb_spec len 0); [lia|].
  assert (Hw : u32 (u32 N + 4096 - u32 s0) = 2 ^ 32 - (s0 - N - 4096)) by wrap_lia.
  assert (Ho : u16 (u32 s0 - u32 N) = o) by (unfold o; wrap_lia).
  assert (0 <= o) by (unfold o; apply Z.mod_pos_bound; lia).
  rewrite Hw, Ho. zcases; rewrite (load_Some _ _ _ Hn), bind_ret;
    unfold ALTUS_WQ_BLOCK_SIZE; rewrite mem_read_ok, bind_ret by lia.
  { rewrite mem_write_fault; [done|]. autorewrite with len. lia. }
  rewrite mem_write_ok, bind_ret by (try (autorewrite with len); lia).
  rewrite (update_Some _ _ _ _ Hn), bind_ret, Z.sub_diag. change (u32 0) with 0.
  rewrite u32_add_l. destruct (Z.eqb_spec (u32 (s0 + len)) (u32 (u32 N + 4096))) as [E|_].
  { exfalso. rewrite u32_add_l in E. apply u32_inj in E; lia. }
  cbn [negb orb Z.eqb]. replace (Z.to_nat ((len - len) * 1)) with 0%nat by lia.
  rewrite drop_0, !Z.mul_1_r. by destruct fuel.
Qed.

(** The queue after such a packet, when its bytes fit into the node: the block
    list records it, and its bytes are at the wrong place. *)
Definition strayed (st : wqs) (ub' : ALTUS_UB_List) (a : positive) (n : WQ_Node)
    (o : Z) (x : list Z) : wqs :=
  set_mem (set_nodes (<[a := set_data (blit (Z.to_nat o) x (data n)) n]>
    (nodes (memory st))) (memory st)) (on_win (set_ub_list ub') st).

Lemma put_store_far Str st wl pl s B L blk blk' ub' src s0 e :
  wq_inv Str st wl pl s B L blk -> ub_rep ub' blk' -> blocks_ok L (L + REACH) blk' ->
  (forall x, covered blk' x <-> covered blk x \/ s0 <= x < e) ->
  s0 < e -> e <= L + REACH -> e - s0 <= Z.of_nat (length src) ->
  let d := s0 - (B + ALTUS_NODE_SIZE * Z.of_nat s) in
  ALTUS_NODE_SIZE < d ->
  exists a n, safe_tail (win st) = Some a /\ nodes (memory st) !! a = Some n /\
    put_store (u32 s0) (e - s0) src (on_win (set_ub_list ub') st) =
      if ALTUS_NODE_SIZE <? u16 d + (e - s0) then Fault
      else Ret (0, strayed st ub' a n (u16 d) (take (Z.to_nat (e - s0)) src)).
Proof.
  intros Hq Hub Hok Hcov He HR Hsrc d Hd.
  destruct (qi_valid _ _ _ _ _ _ _ _ _ Hq) as (v & HLv & Hv & Hvs).
  destruct (valid_at_inv _ _ _ _ Hvs) as (a & n & Ha & Hn & Hvn).
  destruct (dll_lookup _ _ _ _ (wc_win _ _ _ (qi_chains _ _ _ _ _ _ _ _ _ Hq)) Ha)
    as (n' & Hn' & _ & _ & Hdn). rewrite Hn in Hn'. injection Hn' as <-.
  exists a, n. rewrite (qi_safe _ _ _ _ _ _ _ _ _ Hq). split; [done|]. split; [done|].
  unfold put_store. cbn [win on_win safe_tail set_ub_list lastSeq memory].
  rewrite (qi_safe _ _ _ _ _ _ _ _ _ Hq), (qi_last _ _ _ _ _ _ _ _ _ Hq), Ha.
  rewrite (load_Some _ _ _ Hn), bind_ret, Hvn, u32_sub_l.
  replace (L - v) with (B + ALTUS_NODE_SIZE * Z.of_nat s) by lia.
  replace (put_fuel (e - s0)) with (S (put_fuel (e - s0) - 1)) by (unfold put_fuel; lia).
  rewrite (put_copy_far _ _ _ _ a n); try done; [|unfold REACH, ALTUS_NODE_SIZE in *; lia..].
  fold d. destruct (ALTUS_NODE_SIZE <? u16 d + (e - s0)); [done|]. rewrite bind_ret.
  assert (HLs : L < s0) by (unfold d, ALTUS_NODE_SIZE in *; lia).
  destruct blk' as [|[h0 t0] r]; [destruct (covered_nil s0); apply Hcov; lia|].
  pose proof (rep_get_head _ _ 0%nat (h0, t0) Hub eq_refl) as Eh.
  change (Z.of_nat 0) with 0 in Eh. cbn [win set_mem on_win ub_list set_ub_list lastSeq].
  rewrite Eh, bind_ret, (qi_last _ _ _ _ _ _ _ _ _ Hq). destruct Hok as (? & ? & ? & _).
  unfold REACH, ALTUS_NODE_SIZE in *. cbn [fst]. rewrite u32_eqb by lia.
  destruct (Z.eqb_spec h0 L) as [->|]; [|done]. exfalso.
  destruct (proj1 (Hcov L)) as [Hc|?]; [rewrite covered_cons; lia| |lia].
  apply (covered_bounds _ _ _ _ (qi_blk _ _ _ _ _ _ _ _ _ Hq)) in Hc. lia.
Qed.

(** How far a put moves the expected sequence number. *)
Lemma holds_reach Str st st' wl wl' pl pl' s s' B L L' blk blk' s0 e :
  wq_inv Str st wl pl s B L blk -> wq_inv Str st' wl' pl' s' B L' blk' ->
  e <= L + REACH -> (forall x, holds B L' blk' x <-> holds B L blk x \/ s0 <= x < e) ->
  L' <= L + REACH.
Proof.
  intros Hq Hq' He Hh. pose proof (qi_off _ _ _ _ _ _ _ _ _ Hq) as [? ?].
  pose proof (qi_blk _ _ _ _ _ _ _ _ _ Hq) as Hblk.
  destruct (decide (L' <= L)); [unfold REACH, ALTUS_NODE_SIZE; lia|].
  destruct (proj1 (Hh (L' - 1))) as [[?|Hc]|?]; try lia; [left; lia|].
  apply (covered_bounds _ _ _ _ Hblk) in Hc. lia.
Qed.

(** A range that the queue refuses, leaving everything as it is. *)
Definition refused (s : nat) (L : Z) (blk : list (Z * Z)) (s0 e : Z) : Prop :=
  s0 < L \/ exceeds s L e \/ overlaps blk s0 e \/ crowded blk s0 e.

(** A put that begins at most one node past the node being filled. *)
Lemma altusWQPut_near Str st wl pl s B L blk src s0 e :
  wq_inv Str st wl pl s B L blk ->
  L - 2 ^ 31 < s0 -> s0 < e -> e - s0 < 2 ^ 31 ->
  s0 <= B + ALTUS_NODE_SIZE * Z.of_nat s + ALTUS_NODE_SIZE ->
  e - s0 <= Z.of_nat (length src) ->
  (forall k, 0 <= k < e - s0 -> src !! Z.to_nat k = Some (Str (s0 + k))) ->
  (put_fuel (e - s0) <= avail (memory st))%nat ->
  exists code st' wl' pl' s' L' blk',
    altusWQPut (u32 s0) (e - s0) src st = Ret (code, st') /\
    wq_inv Str st' wl' pl' s' B L' blk' /\ kept (win st) (win st') /\ L <= L' <= L + REACH /\
    ((refused s L blk s0 e /\ code <> 0 /\ st' = st /\ L' = L /\ blk' = blk) \/
     (~ refused s L blk s0 e /\ code = 0 /\
        forall x, holds B L' blk' x <-> holds B L blk x \/ s0 <= x < e)).
Proof.
  intros Hq Hlow He Hlen Hnear Hl Hsrc Hav.
  destruct (qi_valid _ _ _ _ _ _ _ _ _ Hq) as (v & HLv & Hv & _).
  assert (Hback : forall code, refused s L blk s0 e -> code <> 0 ->
    altusWQPut (u32 s0) (e - s0) src st = Ret (code, st) ->
    exists code st' wl' pl' s' L' blk',
    altusWQPut (u32 s0) (e - s0) src st = Ret (code, st') /\
    wq_inv Str st' wl' pl' s' B L' blk' /\ kept (win st) (win st') /\ L <= L' <= L + REACH /\
    ((refused s L blk s0 e /\ code <> 0 /\ st' = st /\ L' = L /\ blk' = blk) \/
     (~ refused s L blk s0 e /\ code = 0 /\
        forall x, holds B L' blk' x <-> holds B L blk x \/ s0 <= x < e))).
  { intros code Hr Hc E. exists code, st, wl, pl, s, L, blk. split; [done|]. split; [done|].
    split; [by split_and!|]. split; [unfold REACH, ALTUS_NODE_SIZE; lia|]. left. by split_and!. }
  destruct (decide (s0 < L)) as [Hdup|Hnew].
  { apply (Hback (-2)); [by left|done|]. unfold altusWQPut. rewrite (qi_last _ _ _ _ _ _ _ _ _ Hq).
    rewrite s32_diff by lia. by destruct (Z.ltb_spec 0 (L - s0)); [|lia]. }
  destruct (altusWQPut_checks Str st wl pl s B L blk src s0 e Hq)
    as [[Hx E]|[(_ & Hx & E)|[(_ & _ & Hx & E)|(H1 & H2 & H3 & ub' & blk1 & E & Hub & Hok & Hcov)]]];
    [unfold ALTUS_NODE_SIZE in *; lia..| | | |].
  1-3: eapply Hback; [|..|exact E]; [unfold refused; tauto|done].
  destruct (not_exceeds _ _ _ _ _ _ _ _ _ Hq H1) as [HeB HeL].
  destruct (put_store_inv Str st wl pl s B L blk blk1 ub' src s0 e Hq Hub Hok Hcov)
    as (st1 & wl' & pl' & s' & L1 & blk' & E1 & Hq' & HL1 & Hh & Ho); try done; [lia|].
  rewrite <- E in E1. pose proof (holds_reach _ _ _ _ _ _ _ _ _ _ _ _ _ _ _ _ Hq Hq' HeL Hh).
  exists 0, st1, wl', pl', s', L1, blk'. split; [done|]. split; [done|]. split; [done|].
  split; [lia|].
  right. split; [unfold refused; intuition lia|done].
Qed.

(** ** Delivery *)

(** The [k] bytes of the stream from [x] on. *)
Definition slice (Str : Z -> Z) (x k : Z) : list Z := map Str (seqZ x k).

Lemma length_slice Str x k : 0 <= k -> Z.of_nat (length (slice Str x k)) = k.
Proof. intros. unfold slice. rewrite length_map, length_seqZ. lia. Qed.

Lemma slice_app Str x k1 k2 :
  0 <= k1 -> 0 <= k2 -> slice Str x k1 ++ slice Str (x + k1) k2 = slice Str x (k1 + k2).
Proof.
  intros. unfold slice. rewrite <- map_app. f_equal. by rewrite seqZ_app.
Qed.

Lemma chain_byte_tail h a wl k :
  ALTUS_NODE_SIZE <= k -> chain_byte h (a :: wl) k = chain_byte h wl (k - ALTUS_NODE_SIZE).
Proof.
  intros Hk. unfold chain_byte, ALTUS_NODE_SIZE in *.
  replace (Z.to_nat (k / 4096)) with (S (Z.to_nat ((k - 4096) / 4096)))
    by (Z.div_mod_to_equations; lia).
  replace ((k - 4096) mod 4096) with (k mod 4096) by (Z.div_mod_to_equations; lia).
  done.
Qed.

Lemma valid_at_tail h a wl i : valid_at h (a :: wl) (S i) = valid_at h wl i.
Proof. done. Qed.

(** The head node: how much of it is valid, and what it holds. *)
Lemma head_node Str st wl pl s B L blk :
  wq_inv Str st wl pl s B L blk ->
  exists a n, head (win st) = Some a /\ wl !! 0%nat = Some a /\
    load (memory st) (head (win st)) = Ret n /\
    to_tail n = wl !! 1%nat /\
    validBlockCount n = (if (s =? 0)%nat then L - B else ALTUS_NODE_SIZE) /\
    forall o w, 0 <= o -> 0 <= w -> o + w <= validBlockCount n ->
      mem_read (data n) o w = Ret (slice Str (B + o) w).
Proof.
  intros [Hch Hs Hf (v & HLv & Hv & Hvs) Hl Hub Hblk Hro Hby Hoff Hlen Hwin].
  destruct (valid_at_inv _ _ _ _ Hvs) as (a' & n' & Ha' & _ & _).
  pose proof (lookup_lt_Some _ _ _ Ha').
  destruct (lookup_lt_is_Some_2 wl 0) as [a Ha]; [lia|].
  destruct (dll_lookup _ _ _ _ (wc_win _ _ _ Hch) Ha) as (n & Hn & Ht & _ & Hd).
  pose proof (wc_head _ _ _ Hch) as Hhd. rewrite Ha in Hhd.
  assert (Hvn : validBlockCount n = if (s =? 0)%nat then L - B else ALTUS_NODE_SIZE).
  { destruct (Nat.eqb_spec s 0) as [->|].
    - rewrite (valid_at_intro _ _ _ _ _ Ha Hn) in Hvs. injection Hvs as ->.
      unfold ALTUS_NODE_SIZE in *. lia.
    - specialize (Hf 0%nat ltac:(lia)). rewrite (valid_at_intro _ _ _ _ _ Ha Hn) in Hf.
      by injection Hf. }
  exists a, n. split_and!; try done. { rewrite Hhd. by apply load_Some. }
  intros o w Ho Hw How. unfold ALTUS_NODE_SIZE in *.
  assert (Hvb : validBlockCount n <= 4096 /\ validBlockCount n <= L - B).
  { rewrite Hvn. destruct (Nat.eqb_spec s 0) as [->|]; lia. }
  rewrite mem_read_ok by lia. f_equal. apply list_eq. intros i. unfold slice.
  destruct (decide (i < Z.to_nat w)%nat).
  - rewrite lookup_take_lt, lookup_drop by done. rewrite list_lookup_fmap.
    rewrite lookup_seqZ_lt by lia. simpl.
    specialize (Hby (B + (o + Z.of_nat i)) ltac:(left; lia)).
    replace (B + (o + Z.of_nat i) - B) with (ALTUS_NODE_SIZE * Z.of_nat 0 + (o + Z.of_nat i))
      in Hby by (unfold ALTUS_NODE_SIZE; lia).
    rewrite (chain_byte_at _ _ _ _ _ _ Ha Hn) in Hby by (unfold ALTUS_NODE_SIZE; lia).
    replace (Z.to_nat o + i)%nat with (Z.to_nat (o + Z.of_nat i)) by lia.
    rewrite Hby. do 2 f_equal. lia.
  - rewrite !lookup_ge_None_2; [done|rewrite length_map, length_seqZ; lia|].
    rewrite length_take. lia.
Qed.

(** Recycling a consumed head node. *)
Lemma pop_head_inv Str st wl pl s B L blk z :
  wq_inv Str st wl pl (S s) B L blk ->
  exists a b r st1, wl = a :: b :: r /\
    altusWQPopNode (on_win (set_offset z) st) = Ret (0, st1) /\
    wq_inv Str (on_win (set_offset 0) st1) (b :: r) (pl ++ [a]) s
      (B + ALTUS_NODE_SIZE) L blk /\
    avail (memory st1) = avail (memory st) /\
    pool_len (pool st1) = u32 (pool_len (pool st) + 1) /\
    win_headSeq (win st1) = win_headSeq (win st).
Proof.
  intros [Hch Hs Hf (v & HLv & Hv & Hvs) Hl Hub Hblk Hro Hby Hoff Hlen Hwin].
  destruct (valid_at_inv _ _ _ _ Hvs) as (a' & n' & Ha' & _ & _).
  destruct wl as [|a [|b r]]; [done|done|].
  assert (Hch' : wf_chains (on_win (set_offset z) st) (a :: b :: r) pl)
    by (by apply (wf_chains_frame st)).
  destruct (altusWQPopNode_spec _ _ _ _ _ Hch') as (st1 & E & Hwf1 & Hp & Hav & Hpl & Hw).
  { simpl. rewrite Hs. simpl. intros Hx.
    pose proof (proj1 (wc_win _ _ _ Hch)) as Hnd. apply NoDup_cons in Hnd as [Hn _].
    apply Hn. by apply list_elem_of_lookup_2 in Hx. }
  pose proof (same_payload_valid _ _ _ Hp) as Hpv. simpl in Hp, Hpv.
  exists a, b, r, st1. split; [done|]. split; [done|]. split; [|by rewrite Hw].
  split; simpl; rewrite ?Hw; simpl; try done.
  - by apply (wf_chains_frame st1).
  - intros i Hi. eapply valid_at_same; [exact Hpv|].
    rewrite <- (valid_at_tail _ a). apply Hf. lia.
  - exists v. unfold ALTUS_NODE_SIZE in *. split; [lia|]. split; [done|].
    by eapply valid_at_same.
  - intros x Hx. specialize (Hro x Hx). simpl in *. unfold ALTUS_NODE_SIZE in *. lia.
  - intros x Hx. replace (x - (B + ALTUS_NODE_SIZE)) with (x - B - ALTUS_NODE_SIZE) by lia.
    eapply chain_byte_payload; [exact Hp|]. unfold ALTUS_NODE_SIZE in *.
    rewrite <- (chain_byte_tail _ a); [apply Hby|]; unfold ALTUS_NODE_SIZE.
    + destruct Hx; [left; lia|by right].
    + destruct Hx as [?|Hx]; [lia|].
      apply (covered_bounds _ _ _ _ Hblk) in Hx. lia.
  - unfold ALTUS_NODE_SIZE in *. lia.
  - rewrite Hlen, u32_sub_l. f_equal. lia.
  - destruct Hwin as (? & ? & Hroom). unfold ALTUS_NODE_SIZE in *. split_and!; [done|lia|].
    intros x Hx. specialize (Hroom x Hx). lia.
Qed.

(** Reading within the head node only moves the offset. *)
Lemma set_offset_inv Str st wl pl s B L blk z :
  wq_inv Str st wl pl s B L blk -> 0 <= z < ALTUS_NODE_SIZE -> B + z <= L ->
  wq_inv Str (on_win (set_offset z) st) wl pl s B L blk.
Proof. intros [] ? ?. split; simpl; try done. by apply (wf_chains_frame st). Qed.

Lemma set_safe_len_inv Str st wl pl B L blk :
  wq_inv Str st wl pl 0 B L blk ->
  wq_inv Str (on_win (set_safe_len 1) st) wl pl 0 B L blk.
Proof. intros []. split; simpl; try done. by apply (wf_chains_frame st). Qed.

(** The copy of one chunk into the caller's buffer, if there is one. *)
Definition deliver (off : Z) (x : list Z) (dest : option (list Z)) : option (list Z) :=
  blit (Z.to_nat off) x <$> dest.

Lemma deliver_app off x y dest n :
  0 <= off -> off + Z.of_nat (length x) + Z.of_nat (length y) <= n ->
  (forall buf, dest = Some buf -> n <= Z.of_nat (length buf)) ->
  deliver (off + Z.of_nat (length x)) y (deliver off x dest) = deliver off (x ++ y) dest.
Proof.
  intros Ho Hl Hb. destruct dest as [buf|]; [|done]. simpl. f_equal.
  specialize (Hb buf eq_refl).
  replace (Z.to_nat (off + Z.of_nat (length x))) with (Z.to_nat off + length x)%nat by lia.
  apply blit_app. lia.
Qed.

(** A buffer of at least [n] bytes, or none. *)
Definition dest_ok (n : Z) (dest : option (list Z)) : Prop :=
  forall buf, dest = Some buf -> n <= Z.of_nat (length buf).

Lemma dest_ok_deliver n off x dest :
  dest_ok n dest -> 0 <= off -> off + Z.of_nat (length x) <= n ->
  dest_ok n (deliver off x dest).
Proof.
  intros Hd Ho Hx buf' E. destruct dest as [buf|]; [|done]. simpl in E.
  injection E as <-. specialize (Hd buf eq_refl). rewrite length_blit; lia.
Qed.

Lemma pop_copy n0 Str x off dl o w dest :
  (forall o w, 0 <= o -> 0 <= w -> o + w <= validBlockCount n0 ->
     mem_read (data n0) o w = Ret (slice Str (x + o) w)) ->
  0 <= o -> 0 <= w -> o + w <= validBlockCount n0 -> 0 <= off -> off + w <= dl ->
  dest_ok dl dest ->
  match dest with
  | None => Ret None
  | Some buf =>
      chunk ← mem_read (data n0) o w;
      buf1 ← mem_write buf off chunk;
      Ret (Some buf1)
  end = Ret (deliver off (slice Str (x + o) w) dest).
Proof.
  intros Hr Ho Hw How Hoff Hdl Hd. destruct dest as [buf|]; [|done].
  rewrite Hr by done. rewrite bind_ret. specialize (Hd buf eq_refl).
  rewrite mem_write_ok; [done|done|]. rewrite length_slice; lia.
Qed.

Lemma pop_loop_done fuel n p dest st : pop_loop fuel n 0 p dest st = Ret (n, dest, st).
Proof. by destruct fuel. Qed.

Lemma deliver_nil off dest : deliver off [] dest = dest.
Proof. destruct dest; [|done]. simpl. by rewrite blit_nil. Qed.

(** What reading does to the queue: the first [j] nodes, those that are used up
    when the next byte to read is [R], leave the window and are linked into the
    pool, and nothing is allocated or lost. *)
Definition popped (Str : Z -> Z) (st st' : wqs) (wl pl : list positive) (s : nat)
    (B L : Z) (blk : list (Z * Z)) (R : Z) (j : nat) : Prop :=
  (j <= s)%nat /\
  wq_inv Str st' (drop j wl) (pl ++ take j wl) (s - j) (B + ALTUS_NODE_SIZE * Z.of_nat j) L blk /\
  R = B + ALTUS_NODE_SIZE * Z.of_nat j + headDataOffset (win st') /\
  u32 (pool_len (pool st')) = u32 (pool_len (pool st) + Z.of_nat j) /\
  avail (memory st') = avail (memory st) /\
  win_headSeq (win st') = win_headSeq (win st).

Lemma popped_0 Str st st' wl pl s B L blk R :
  wq_inv Str st' wl pl s B L blk -> R = B + headDataOffset (win st') ->
  pool st' = pool st -> memory st' = memory st ->
  win_headSeq (win st') = win_headSeq (win st) ->
  popped Str st st' wl pl s B L blk R 0.
Proof.
  intros Hq -> Hp Hm Hh. unfold popped. rewrite Hp, Hm, Nat.sub_0_r, Z.mul_0_r, !Z.add_0_r.
  rewrite drop_0, app_nil_r. split_and!; (done || lia).
Qed.

Lemma popped_trans Str st st1 st2 wl pl s B L blk R1 R2 j1 j2 :
  popped Str st st1 wl pl s B L blk R1 j1 ->
  popped Str st1 st2 (drop j1 wl) (pl ++ take j1 wl) (s - j1)
    (B + ALTUS_NODE_SIZE * Z.of_nat j1) L blk R2 j2 ->
  popped Str st st2 wl pl s B L blk R2 (j1 + j2).
Proof.
  intros (Hj1 & _ & _ & Hp1 & Ha1 & Hh1) (Hj2 & Hq & HR & Hp2 & Ha2 & Hh2). unfold popped.
  replace (B + ALTUS_NODE_SIZE * Z.of_nat (j1 + j2)) with
    (B + ALTUS_NODE_SIZE * Z.of_nat j1 + ALTUS_NODE_SIZE * Z.of_nat j2) by lia.
  rewrite drop_drop, <- app_assoc in Hq. rewrite Nat.sub_add_distr.
  rewrite <- take_take_drop. split_and!; try done; try congruence; [lia|].
  rewrite Hp2, <- u32_add_l, Hp1, u32_add_l. f_equal. lia.
Qed.

(** One turn of the delivery loop: it delivers [w] bytes and is done, or the
    head node is used up and the loop goes on at the start of the next one. *)
Lemma pop_turn Str n fuel st wl pl s B L blk left dest :
  wq_inv Str st wl pl s B L blk -> 0 < left <= n -> n < 2 ^ 31 -> dest_ok n dest ->
  let R := B + headDataOffset (win st) in
  exists w st1 j, 0 <= w <= left /\ R + w <= L /\ popped Str st st1 wl pl s B L blk (R + w) j /\
    let dest1 := deliver (n - left) (slice Str R w) dest in
    let run := pop_loop (S fuel) n left (head (win st)) dest st in
    ((run = Ret (n - left + w, dest1, st1) /\ (w = left \/ R + w = L)) \/
     (run = pop_loop fuel n (left - w) (head (win st1)) dest1 st1 /\
      headDataOffset (win st1) = 0 /\ headDataOffset (win st) + w = ALTUS_NODE_SIZE)).
Proof.
  intros Hq Hl Hn Hd R.
  pose proof (qi_off _ _ _ _ _ _ _ _ _ Hq) as [Hoff HBL].
  destruct (head_node _ _ _ _ _ _ _ _ Hq) as (a & n0 & Hh & Ha & El & Ht & Hv & Hread).
  destruct (qi_valid _ _ _ _ _ _ _ _ _ Hq) as (v & HLv & Hv4 & _).
  unfold ALTUS_NODE_SIZE in *.
  assert (Hsv : headDataOffset (win st) <= validBlockCount n0 <= 4096 /\
    ((s = 0%nat /\ validBlockCount n0 = L - B) \/ (0 < s)%nat /\ validBlockCount n0 = 4096)).
  { rewrite Hv. destruct (Nat.eqb_spec s 0) as [->|]; lia. }
  cbn [pop_loop]. unfold ALTUS_NODE_SIZE, ALTUS_WQ_BLOCK_SIZE. rewrite !Z.mul_1_r.
  destruct (Z.eqb_spec left 0); [lia|].
  rewrite El, bind_ret, s32_small by lia.
  set (w := if left <? _ then left else _).
  assert (Hw : w = Z.min left (validBlockCount n0 - headDataOffset (win st)))
    by (subst w; zcases; lia). clearbody w. rewrite ?Z.mul_1_r. exists w.
  destruct (Z.eqb_spec w 0) as [->|Hw0].
  { exists st, 0%nat. split_and!; [lia..| |].
    - apply popped_0; (done || lia).
    - left. change (slice Str R 0) with (@nil Z). rewrite deliver_nil, Z.add_0_r.
      split; [done|lia]. }
  rewrite (pop_copy _ Str B _ n) by (done || lia). rewrite bind_ret.
  rewrite u32_small, (s32_small (left - w)) by lia.
  cbn [win on_win headDataOffset set_offset].
  replace (n - (left - w)) with (n - left + w) by lia.
  destruct (Z.eqb_spec (headDataOffset (win st) + w) 4096) as [Hfull|Hfull];
    [|destruct (Z.eqb_spec (headDataOffset (win st) + w) (validBlockCount n0)) as [He|He]].
  - destruct s as [|s]; [lia|].
    destruct (pop_head_inv _ _ _ _ _ _ _ _ (headDataOffset (win st) + w) Hq)
      as (a' & b & r & st1 & -> & -> & Hq1 & Hav1 & Hpl1 & Hhs1). rewrite bind_ret.
    destruct (head_node _ _ _ _ _ _ _ _ Hq1) as (b' & nb & Hh1 & Hb & El1 & _ & Hv1 & _).
    injection Hb as <-. rewrite Ht. simpl (_ !! 1%nat).
    rewrite <- Hh1, El1, bind_ret. cbn [headDataOffset win on_win set_offset].
    exists (on_win (set_offset 0) st1), 1%nat. unfold ALTUS_NODE_SIZE in *. split_and!; [lia..| |].
    + split; [lia|]. rewrite Nat.sub_succ, Nat.sub_0_r. split; [exact Hq1|].
      simpl. rewrite Hpl1, u32_idemp. split_and!; [|done..]. unfold ALTUS_NODE_SIZE. lia.
    + destruct (Z.eqb_spec 0 (validBlockCount nb)); [left|right; by split_and!].
      split; [done|]. destruct (Nat.eqb_spec s 0) as [->|]; lia.
  - destruct Hsv as [_ [[-> Hv0]|]]; [|lia]. rewrite altusWQPopNode_last.
    2: { simpl. by rewrite Hh, (qi_safe _ _ _ _ _ _ _ _ _ Hq), Ha. }
    exists (on_win (set_safe_len 1) (on_win (set_offset (headDataOffset (win st) + w)) st)), 0%nat.
    split_and!; [lia..| |left; split; [done|lia]].
    apply popped_0; [|simpl; lia|done..].
    apply set_safe_len_inv, set_offset_inv; [done|unfold ALTUS_NODE_SIZE; lia|lia].
  - assert (w = left) as -> by lia. rewrite Z.sub_diag, pop_loop_done.
    exists (on_win (set_offset (headDataOffset (win st) + left)) st), 0%nat.
    split_and!; [lia..| |left; split; [|by left]].
    + apply popped_0; [|simpl; lia|done..].
      apply set_offset_inv; [done|unfold ALTUS_NODE_SIZE; lia|lia].
    + do 3 f_equal. lia.
Qed.

(** The delivery loop with [left] of [n] bytes to go. *)
Lemma pop_loop_spec Str n L blk : forall fuel st wl pl s B left dest,
  wq_inv Str st wl pl s B L blk -> 0 <= left <= n -> n < 2 ^ 31 ->
  (left = 0 \/ headDataOffset (win st) + left <= ALTUS_NODE_SIZE * Z.of_nat fuel) ->
  dest_ok n dest ->
  let R := B + headDataOffset (win st) in
  let k := Z.min left (L - R) in
  exists st' j,
    pop_loop fuel n left (head (win st)) dest st =
      Ret (n - left + k, deliver (n - left) (slice Str R k) dest, st') /\
    popped Str st st' wl pl s B L blk (R + k) j.
Proof.
  assert (Hdone : forall st wl pl s B dest fuel, wq_inv Str st wl pl s B L blk -> 
    let R := B + headDataOffset (win st) in exists st' j,
    pop_loop fuel n 0 (head (win st)) dest st =
      Ret (n - 0 + Z.min 0 (L - R), deliver (n - 0) (slice Str R (Z.min 0 (L - R))) dest, st') /\
    popped Str st st' wl pl s B L blk (R + Z.min 0 (L - R)) j).
  { intros st wl pl s B dest fuel Hq R. pose proof (qi_off _ _ _ _ _ _ _ _ _ Hq).
    rewrite Z.min_l, !Z.add_0_r by lia.
    change (slice Str R 0) with (@nil Z). rewrite pop_loop_done, deliver_nil.
    exists st, 0%nat. split; [do 3 f_equal; lia|]. by apply popped_0. }
  induction fuel as [|fuel IH]; intros st wl pl s B left dest Hq Hl Hn Hf Hd R;
    pose proof (qi_off _ _ _ _ _ _ _ _ _ Hq); unfold ALTUS_NODE_SIZE in *.
  { assert (left = 0) as -> by lia. by apply Hdone. }
  destruct (Z.eq_dec left 0) as [->|Hleft]; [by apply Hdone|].
  destruct (pop_turn Str n fuel st wl pl s B L blk left dest)
    as (w & st1 & j & Hw & HwL & Hq1 & [[E Hend]|[E [Hz Hoff]]]); try done; try lia; fold R in HwL, Hq1, E.
  { rewrite E. exists st1, j. cbn zeta. fold R in Hend. replace (Z.min left (L - R)) with w by lia. done. }
  pose proof Hq1 as (_ & Hqi & HR1 & _).
  destruct (IH st1 _ _ _ _ (left - w) (deliver (n - left) (slice Str R w) dest) Hqi)
    as (st' & j' & E' & Hq'); try done; try lia.
  { unfold ALTUS_NODE_SIZE in *. lia. }
  { apply dest_ok_deliver; [done|lia|]. rewrite length_slice; lia. }
  rewrite <- HR1 in E', Hq'.
  exists st', (j + j')%nat. rewrite E, E'. cbn zeta.
  replace (Z.min left (L - R)) with (w + Z.min (left - w) (L - (R + w))) by lia.
  rewrite (Z.add_assoc R w). split; [|by eapply popped_trans].
  rewrite <- (slice_app Str R w) by lia.
  replace (n - (left - w)) with (n - left + Z.of_nat (length (slice Str R w)))
    by (rewrite length_slice; lia).
  rewrite (deliver_app _ _ _ _ n); [|lia|rewrite !length_slice; lia|done].
  rewrite length_slice by lia. do 3 f_equal. lia.
Qed.

Lemma altusWQPop_popped Str st wl pl s B L blk n dest :
  wq_inv Str st wl pl s B L blk -> 0 <= n < 2 ^ 31 -> dest_ok n dest ->
  let R := B + headDataOffset (win st) in
  let k := Z.min n (L - R) in
  exists st' j,
    altusWQPop n dest st = Ret (k, deliver 0 (slice Str R k) dest, st') /\
    popped Str st st' wl pl s B L blk (R + k) j.
Proof.
  intros Hq Hn Hd. pose proof (qi_off _ _ _ _ _ _ _ _ _ Hq).
  destruct (pop_loop_spec Str n L blk (put_fuel n) st wl pl s B n dest) as (st' & j & E & Hq');
    try done; try lia.
  { right. unfold put_fuel, ALTUS_NODE_SIZE in *. Z.div_mod_to_equations; lia. }
  exists st', j. unfold altusWQPop. rewrite E, Z.sub_diag. done.
Qed.

(** The state between two reads: the invariant, the next byte [R] to read, and
    that nodes are aligned to [B0], where the queue began. *)
Definition at_pos (Str : Z -> Z) (B0 : Z) (st : wqs) (L : Z) (blk : list (Z * Z))
    (R : Z) : Prop :=
  exists wl pl s B, wq_inv Str st wl pl s B L blk /\ R = B + headDataOffset (win st) /\
    B0 <= B /\ (B - B0) mod ALTUS_NODE_SIZE = 0.

Lemma altusWQPop_inv Str B0 st L blk R n dest :
  at_pos Str B0 st L blk R -> 0 <= n < 2 ^ 31 -> dest_ok n dest ->
  let k := Z.min n (L - R) in
  exists st',
    altusWQPop n dest st = Ret (k, deliver 0 (slice Str R k) dest, st') /\
    at_pos Str B0 st' L blk (R + k).
Proof.
  intros (wl & pl & s & B & Hq & -> & HB & Hal) Hn Hd.
  destruct (altusWQPop_popped Str st wl pl s B L blk n dest Hq Hn Hd)
    as (st' & j & E & (_ & Hq' & HR & _)).
  exists st'. split; [exact E|]. eexists _, _, _, _. split; [exact Hq'|]. split; [exact HR|].
  unfold ALTUS_NODE_SIZE in *. split; [lia|]. Z.div_mod_to_equations; lia.
Qed.

(** ** A fresh queue *)

Lemma malloc_fresh_update m a m1 f :
  malloc_node m = Some (a, m1) ->
  nodes m !! a = None /\ avail m = S (avail m1) /\ garbage m1 = garbage m /\
  update m1 (Some a) f =
    Ret (set_nodes (<[a := f (garbage m a)]> (nodes m)) m1).
Proof.
  unfold malloc_node. destruct (avail m) as [|k]; [done|]. intros [= <- <-].
  split_and!; try done; [apply not_elem_of_dom, is_fresh|].
  erewrite update_Some by apply lookup_insert_eq. simpl. by rewrite insert_insert_eq.
Qed.

(** A single node, unlinked. *)
Definition lone_node (g : WQ_Node) : WQ_Node := mkNode None None (data g) 0.

Lemma lone_dll h a g :
  length (data g) = Z.to_nat ALTUS_NODE_SIZE -> dll (<[a := lone_node g]> h) [a].
Proof.
  intros Hl. split; [apply NoDup_singleton|]. intros [|i] b Hb; [|done].
  injection Hb as <-. eexists. rewrite lookup_insert_eq. split_and!; done.
Qed.

(** What both constructors do with their node. *)
Lemma init_node m a m1 :
  malloc_node m = Some (a, m1) ->
  (m3 ← update m1 (Some a) (set_to_head None);
   m4 ← update m3 (Some a) (set_to_tail None);
   update m4 (Some a) (set_valid 0)) =
  Ret (set_nodes (<[a := lone_node (garbage m a)]> (nodes m)) m1).
Proof.
  intros E. destruct (malloc_fresh_update _ _ _ (set_to_head None) E) as (_ & _ & _ & ->).
  rewrite bind_ret. erewrite update_Some by (simpl; apply lookup_insert_eq).
  rewrite bind_ret. erewrite update_Some by (simpl; apply lookup_insert_eq).
  simpl. by rewrite !insert_insert_eq.
Qed.

Lemma malloc_node_S m k : avail m = S k -> exists a m1, malloc_node m = Some (a, m1).
Proof. intros E. unfold malloc_node. rewrite E. eauto. Qed.

(** The node pool, as the windows that share it see it. *)
Record pool_ok (p : WQ_Node_Pool) (m : mem) (pl : list positive) : Prop := mk_pool_ok {
  po_dll : dll (nodes m) pl;
  po_ne : pl <> [];
  po_head : recycled_head p = pl !! 0%nat;
  po_tail : recycled_tail p = last pl;
  po_mem : mem_wf m
}.

Lemma altusWQNewNodePool_inv m :
  mem_wf m -> (2 <= avail m)%nat ->
  exists p m1 b, altusWQNewNodePool m = Ret (p, m1) /\ pool_ok p m1 [b] /\
    avail m = S (S (avail m1)).
Proof.
  intros Hm Hav. unfold altusWQNewNodePool, malloc_struct.
  destruct (avail m) as [|[|k]] eqn:Ea; [lia..|].
  destruct (malloc_node_S (mkMem (nodes m) (S k) (garbage m)) k eq_refl) as (a & m1 & E).
  rewrite E. pose proof (init_node _ _ _ E) as Ei.
  destruct (malloc_fresh_update _ _ _ id E) as (_ & Hav1 & Hg & _).
  apply bind_Ret_inv in Ei as (m3 & -> & Ei). rewrite bind_ret.
  apply bind_Ret_inv in Ei as (m4 & -> & Ei). rewrite bind_ret, Ei, bind_ret.
  eexists _, _, a. split; [done|]. simpl in *. split; [|lia].
  split; simpl; try done; [by apply lone_dll|]. intros x. simpl. rewrite Hg. apply Hm.
Qed.

(** A new window is empty, and can expect its first byte at any [L]. *)
Lemma altusNewWindow_inv Str raw m p pl L :
  pool_ok p m pl -> (2 <= avail m)%nat ->
  length (headSeq (ub_list raw)) = 8%nat -> length (tailSeq (ub_list raw)) = 8%nat ->
  exists w m1 a, altusNewWindow raw m = Ret (w, m1) /\
    wq_inv Str (mkWqs (set_lastSeq (u32 L) w) p m1) [a] pl 0 L L [] /\
    headDataOffset w = 0 /\ avail m = S (S (avail m1)) /\
    win_headSeq w = win_headSeq raw.
Proof.
  intros [Hd Hne Hph Hpt Hm] Hav H8 H8'. unfold altusNewWindow, malloc_struct.
  destruct (avail m) as [|[|k]] eqn:Ea; [lia..|].
  destruct (malloc_node_S (mkMem (nodes m) (S k) (garbage m)) k eq_refl) as (a & m1 & E).
  rewrite E. pose proof (init_node _ _ _ E) as Ei.
  destruct (malloc_fresh_update _ _ _ id E) as (Hfresh & Hav1 & Hg & _).
  apply bind_Ret_inv in Ei as (m3 & -> & Ei). rewrite bind_ret.
  apply bind_Ret_inv in Ei as (m4 & -> & Ei). rewrite bind_ret, Ei, bind_ret.
  simpl in Hfresh, Hav1, Hg. eexists _, _, a. split; [done|].
  assert (Hapl : a ∉ pl).
  { intros Hin. destruct (dll_elem _ _ _ Hd Hin) as (? & ? & _). congruence. }
  split; [|simpl; split_and!; (done || lia)].
  split; simpl; try done.
  - split; simpl; try done.
    + by apply lone_dll.
    + by apply dll_frame_insert.
    + intros x ->%list_elem_of_singleton. done.
    + intros x. simpl. rewrite Hg. apply Hm.
  - intros i Hi. lia.
  - exists 0. split; [lia|]. split; [unfold ALTUS_NODE_SIZE; lia|].
    by rewrite (valid_at_intro _ _ _ a (lone_node (garbage m a)))
      by (done || apply lookup_insert_eq).
  - split; simpl; try done; [by exists (headSeq (ub_list raw))|by exists (tailSeq (ub_list raw))].
  - intros x Hx. by apply covered_nil in Hx.
  - intros x [?|Hx]; [lia|]. by apply covered_nil in Hx.
  - unfold ALTUS_NODE_SIZE. lia.
  - split_and!; [done|rewrite Z.sub_diag; done|]. intros x Hx. by apply covered_nil in Hx.
Qed.

(** ** End to end: a queue that receives one stream

    The receiver's history: the queue starts empty at [start]; packets that
    carry [s0, e) of the stream arrive in any order and any number of times (as
    long as they start at most one node past the safe one); bytes are read in
    between.  [L] is the absolute value of [lastSeq], [out] all that was read. *)
Inductive received (Str : Z -> Z) (start : Z) : wqs -> Z -> list Z -> Prop :=
| rx_new raw m p pl w m1 :
    pool_ok p m pl -> (2 <= avail m)%nat ->
    length (headSeq (ub_list raw)) = 8%nat -> length (tailSeq (ub_list raw)) = 8%nat ->
    altusNewWindow raw m = Ret (w, m1) ->
    received Str start (mkWqs (set_lastSeq (u32 start) w) p m1) start []
| rx_put st L out s0 e code st' L' :
    received Str start st L out ->
    L - 2 ^ 31 < s0 -> s0 < e -> e - s0 < 2 ^ 31 ->
    s0 <= L - (L - start) mod ALTUS_NODE_SIZE + ALTUS_NODE_SIZE ->
    (put_fuel (e - s0) <= avail (memory st))%nat ->
    altusWQPut (u32 s0) (e - s0) (slice Str s0 (e - s0)) st = Ret (code, st') ->
    L <= L' < L + 2 ^ 31 -> lastSeq (win st') = u32 L' ->
    received Str start st' L' out
| rx_pop st L out n buf k buf' st' :
    received Str start st L out ->
    0 <= n < 2 ^ 31 -> n <= Z.of_nat (length buf) ->
    altusWQPop n (Some buf) st = Ret (k, Some buf', st') ->
    received Str start st' L (out ++ take (Z.to_nat k) buf').

(** What every such history keeps. *)
Definition rx_inv (Str : Z -> Z) (start : Z) (st : wqs) (L : Z) (out : list Z) : Prop :=
  exists blk R, at_pos Str start st L blk R /\ start <= R /\
    out = slice Str start (R - start).

Lemma slice_bytes Str x k i :
  0 <= i < k -> slice Str x k !! Z.to_nat i = Some (Str (x + i)).
Proof.
  intros Hi. unfold slice. rewrite list_lookup_fmap, lookup_seqZ_lt by lia. simpl.
  do 2 f_equal. lia.
Qed.

Lemma take_blit_0 {A} (x dst : list A) : take (length x) (blit 0 x dst) = x.
Proof. unfold blit. simpl. by rewrite take_app_length. Qed.

(** A put of bytes of the stream returns, whatever follows them in the source,
    and the history goes on. *)
Lemma rx_put_total Str start st L out s0 e src :
  rx_inv Str start st L out ->
  L - 2 ^ 31 < s0 -> s0 < e -> e - s0 < 2 ^ 31 ->
  s0 <= L - (L - start) mod ALTUS_NODE_SIZE + ALTUS_NODE_SIZE ->
  (put_fuel (e - s0) <= avail (memory st))%nat ->
  e - s0 <= Z.of_nat (length src) ->
  (forall k, 0 <= k < e - s0 -> src !! Z.to_nat k = Some (Str (s0 + k))) ->
  exists code st' L', altusWQPut (u32 s0) (e - s0) src st = Ret (code, st') /\
    L <= L' <= L + REACH /\ lastSeq (win st') = u32 L' /\ rx_inv Str start st' L' out.
Proof.
  intros (blk & R & (wl & pl & s & B & Hq & HR & HB & Hal) & HsR & Hout) Hlow He HeR Hg Hav Hl Hsrc.
  destruct (qi_valid _ _ _ _ _ _ _ _ _ Hq) as (v & HLv & Hv & _).
  destruct (altusWQPut_near Str st wl pl s B L blk src s0 e)
    as (c & st1 & wl' & pl' & s' & L1 & blk' & E & Hq' & (Ho & _) & HL1 & _); try done.
  { unfold ALTUS_NODE_SIZE in *. Z.div_mod_to_equations; lia. }
  exists c, st1, L1. split; [done|]. split; [lia|].
  split; [by apply (qi_last _ _ _ _ _ _ _ _ _ Hq')|].
  exists blk', R. split; [|done]. exists wl', pl', s', B. by rewrite Ho.
Qed.

Lemma rx_put_inv Str start st L out s0 e code st' L' :
  rx_inv Str start st L out ->
  L - 2 ^ 31 < s0 -> s0 < e -> e - s0 < 2 ^ 31 ->
  s0 <= L - (L - start) mod ALTUS_NODE_SIZE + ALTUS_NODE_SIZE ->
  (put_fuel (e - s0) <= avail (memory st))%nat ->
  altusWQPut (u32 s0) (e - s0) (slice Str s0 (e - s0)) st = Ret (code, st') ->
  L <= L' < L + 2 ^ 31 -> lastSeq (win st') = u32 L' ->
  rx_inv Str start st' L' out.
Proof.
  intros Hi Hlow He HeR Hg Hav E HL' Hl'.
  destruct (rx_put_total Str start st L out s0 e (slice Str s0 (e - s0)) Hi Hlow He HeR Hg Hav)
    as (c & st1 & L1 & E1 & HL1 & Hl1 & Hi1).
  { rewrite length_slice; lia. }
  { intros k Hk. by apply slice_bytes. }
  rewrite E1 in E. injection E as -> ->. rewrite Hl1 in Hl'.
  apply u32_inj in Hl'; [|unfold REACH, ALTUS_NODE_SIZE in *; lia]. by subst.
Qed.

Lemma rx_new_inv Str start raw m p pl w m1 :
  pool_ok p m pl -> (2 <= avail m)%nat ->
  length (headSeq (ub_list raw)) = 8%nat -> length (tailSeq (ub_list raw)) = 8%nat ->
  altusNewWindow raw m = Ret (w, m1) ->
  rx_inv Str start (mkWqs (set_lastSeq (u32 start) w) p m1) start [].
Proof.
  intros Hp Ha H1 H2 E.
  destruct (altusNewWindow_inv Str raw m p pl start Hp Ha H1 H2)
    as (w' & m1' & a & E' & Hq & Ho & _).
  rewrite E' in E. injection E as -> ->. exists [], start.
  rewrite Z.sub_diag. split; [|done]. exists [a], pl, 0%nat, start.
  rewrite Z.sub_diag. split_and!; try done. simpl. lia.
Qed.

Lemma rx_pop_inv Str start st L out n buf k buf' st' :
  rx_inv Str start st L out -> 0 <= n < 2 ^ 31 -> n <= Z.of_nat (length buf) ->
  altusWQPop n (Some buf) st = Ret (k, Some buf', st') ->
  rx_inv Str start st' L (out ++ take (Z.to_nat k) buf').
Proof.
  intros (blk & R & Hp & HsR & ->) Hn Hb E.
  destruct (altusWQPop_inv Str start st L blk R n (Some buf)) as (st1 & E1 & Hp1);
    [done|done|by intros ? [= <-]|].
  assert (R <= L) by (destruct Hp as (? & ? & ? & ? & [] & -> & _); lia).
  rewrite E1 in E. injection E as <- <- <-. simpl (Z.to_nat 0).
  replace (Z.to_nat (Z.min n (L - R))) with (length (slice Str R (Z.min n (L - R)))).
  2: { pose proof (length_slice Str R (Z.min n (L - R))). lia. }
  rewrite take_blit_0. exists blk, (R + Z.min n (L - R)). split_and!; [done|lia|].
  replace R with (start + (R - start)) at 2 by lia.
  rewrite slice_app by lia. f_equal. lia.
Qed.

Lemma received_inv Str start st L out :
  received Str start st L out -> rx_inv Str start st L out.
Proof.
  induction 1; eauto using rx_new_inv, rx_put_inv, rx_pop_inv.
Qed.
