(* ===== verification/WQTheorems.v ===== *)
(** * The windowed queue: main theorems

    The properties of the queue that its callers rely on, each with an
    instance on a concrete queue.  They follow from the lemmas of the files
    before; the sample queue at the end of the first part is built by the code
    itself from an empty heap. *)

From S2P Require Import Prelude UBList NodeHeap WindowedQueue WQChains WQStream WQCorrect.

(** ** A concrete queue *)

(** A heap without nodes, on which 20 calls of [malloc] succeed. *)
Definition sample_mem : mem :=
  mkMem ∅ 20 (fun _ => mkNode None None (replicate 4096 0) 0).

Definition sample_raw : WQ_Window :=
  mkWin None None None 0 0 0 0 (mkUB (replicate 8 0) (replicate 8 0) 0) 0 0.

(** The value of an outcome that is known to be a return. *)
Definition ret_or {A} (d : A) (o : outcome A) : A :=
  match o with Ret a => a | _ => d end.

Definition sample_pool : WQ_Node_Pool * mem :=
  ret_or (mkPool None None 0, sample_mem) (altusWQNewNodePool sample_mem).

(** A queue whose first byte has the sequence number [start]. *)
Definition sample_wq (start : Z) : wqs :=
  let '(w, m) := ret_or (sample_raw, sample_mem) (altusNewWindow sample_raw (snd sample_pool)) in
  mkWqs (set_lastSeq (u32 start) w) (fst sample_pool) m.

(** The stream of the samples. *)
Definition sample_str (x : Z) : Z := (7 * x + 3) mod 256.

Lemma sample_pool_eq : altusWQNewNodePool sample_mem = Ret sample_pool.
Proof. vm_compute. reflexivity. Qed.

Lemma sample_wq_received start : received sample_str start (sample_wq start) start [].
Proof.
  destruct (altusWQNewNodePool_inv sample_mem) as (p & m1 & b & E & Hp & Hav);
    [done|simpl; lia|].
  rewrite sample_pool_eq in E. assert (Ep : sample_pool = (p, m1)) by congruence.
  assert (Ew : altusNewWindow sample_raw (snd sample_pool) =
    Ret (ret_or (sample_raw, sample_mem) (altusNewWindow sample_raw (snd sample_pool))))
    by (vm_compute; reflexivity).
  unfold sample_wq. rewrite Ep in Ew |- *. simpl in Ew |- *.
  destruct (ret_or _ _) as [w m]. apply (rx_new _ _ sample_raw m1 p [b]); try done.
  simpl in Hav. lia.
Qed.

(** The queue after a packet with the bytes [s0, e) of the stream. *)
Definition sample_put (s0 e : Z) (st : wqs) : wqs :=
  snd (ret_or (0, st) (altusWQPut (u32 s0) (e - s0) (slice sample_str s0 (e - s0)) st)).

(** ** Reassembly *)

(** End to end: whatever the order and the number of times in which packets
    of one stream reach the queue, and wherever the reads fall in between, the
    bytes read so far are the bytes of the stream from its start on, without
    gap, duplicate or reordering, and none is ahead of what arrived in order. *)
Theorem received_is_prefix Str start st L out :
  received Str start st L out ->
  out = slice Str start (Z.of_nat (length out)) /\
  start + Z.of_nat (length out) <= L.
Proof.
  intros (blk & R & Hp & HsR & ->)%received_inv.
  rewrite length_slice by lia. split; [done|].
  destruct Hp as (? & ? & ? & ? & [] & -> & _). lia.
Qed.

(** Two packets that cross the wrap of the sequence counter, the second one
    first and twice; then everything is read. *)
Definition sample_start : Z := 2 ^ 32 - 5.

Lemma received_is_prefix_witness :
  exists st out, received sample_str sample_start st (sample_start + 20) out /\
    length out = 20%nat /\ out = slice sample_str sample_start (Z.of_nat 20).
Proof.
  pose (s := sample_start).
  pose (st1 := sample_put (s + 8) (s + 20) (sample_wq s)).
  pose (st2 := sample_put (s + 8) (s + 20) st1).
  pose (st3 := sample_put s (s + 8) st2).
  assert (H1 : received sample_str s st1 s []).
  { apply (rx_put _ _ (sample_wq s) s [] (s + 8) (s + 20) 0); try (vm_compute; congruence);
      [apply sample_wq_received|vm_compute; lia|vm_compute; split; congruence]. }
  assert (H2 : received sample_str s st2 s []).
  { apply (rx_put _ _ st1 s [] (s + 8) (s + 20) (-5)); try (vm_compute; congruence);
      [exact H1|vm_compute; lia|vm_compute; split; congruence]. }
  assert (H3 : received sample_str s st3 (s + 20) []).
  { apply (rx_put _ _ st2 s [] s (s + 8) 0); try (vm_compute; congruence);
      [exact H2|vm_compute; lia|vm_compute; split; congruence]. }
  pose (r := ret_or (0, None, st3) (altusWQPop 32 (Some (replicate 32 0)) st3)).
  assert (H4 : received sample_str s (snd r) (s + 20)
    ([] ++ take 20 (default [] (snd (fst r))))).
  { apply (rx_pop _ _ st3 (s + 20) [] 32 (replicate 32 0) 20); try (vm_compute; congruence);
      [exact H3|lia]. }
  assert (Hl : length ([] ++ take 20 (default [] (snd (fst r)))) = 20%nat)
    by (vm_compute; reflexivity).
  eexists _, _. split_and!; [exact H4|exact Hl|].
  pose proof (proj1 (received_is_prefix _ _ _ _ _ H4)) as E. rewrite Hl in E. exact E.
Defined.

(** C3: One packet, with any bytes [s0, e) of the stream whose number is told
    apart from the next expected one, [L], by the 32-bit counter.  What
    [altusWQPut] answers is decided by five exclusive cases.  The packet is
    refused, and nothing changes, when it begins before [L] (-2); when the safe
    nodes, those up to [e] and one more would exceed the window (-3); when it
    overlaps a received block (-5); when it touches none and there are eight
    already (-4).  Otherwise it is accepted.  If it begins at most one node past
    the node being filled, and memory is left, the queue then holds exactly
    what it held before and the new bytes, the bytes that became contiguous
    having joined the ordered part (0).  If it begins further on, the code
    writes it at a wrong place: outside of the node when its 16-bit offset and
    its length exceed the node, else over other bytes of it (0). *)
Theorem altusWQPut_reassembles Str st wl pl s B L blk src s0 e :
  wq_inv Str st wl pl s B L blk ->
  L - 2 ^ 31 < s0 <= L + 2 ^ 31 -> s0 < e -> e - s0 < 2 ^ 31 ->
  e - s0 <= Z.of_nat (length src) ->
  let d := s0 - (B + ALTUS_NODE_SIZE * Z.of_nat s) in
  let r := altusWQPut (u32 s0) (e - s0) src st in
  (s0 < L -> r = Ret (-2, st)) /\
  (L <= s0 -> exceeds s L e -> r = Ret (-3, st)) /\
  (L <= s0 -> ~ exceeds s L e -> overlaps blk s0 e -> r = Ret (-5, st)) /\
  (L <= s0 -> ~ exceeds s L e -> ~ overlaps blk s0 e -> crowded blk s0 e -> r = Ret (-4, st)) /\
  (L <= s0 -> ~ exceeds s L e -> ~ overlaps blk s0 e -> ~ crowded blk s0 e ->
    (d <= ALTUS_NODE_SIZE ->
     (forall k, 0 <= k < e - s0 -> src !! Z.to_nat k = Some (Str (s0 + k))) ->
     (put_fuel (e - s0) <= avail (memory st))%nat ->
     exists st' wl' pl' s' L' blk', r = Ret (0, st') /\
       wq_inv Str st' wl' pl' s' B L' blk' /\ L <= L' /\
       (forall x, holds B L' blk' x <-> holds B L blk x \/ s0 <= x < e) /\
       kept (win st) (win st')) /\
    (ALTUS_NODE_SIZE < d ->
     exists ub' a n, safe_tail (win st) = Some a /\ nodes (memory st) !! a = Some n /\
       r = if ALTUS_NODE_SIZE <? u16 d + (e - s0) then Fault
           else Ret (0, strayed st ub' a n (u16 d) (take (Z.to_nat (e - s0)) src)))).
Proof.
  intros Hq Hs0 He Hlen Hsrc d r. split.
  { intros Hold. unfold r, altusWQPut.
    rewrite (qi_last _ _ _ _ _ _ _ _ _ Hq), s32_diff by lia. zcases. done. }
  destruct (decide (s0 < L)) as [|Hnew]; [split_and!; lia|].
  destruct (altusWQPut_checks Str st wl pl s B L blk src s0 e Hq)
    as [(H1 & E)|[(H1 & H2 & E)|[(H1 & H2 & H3 & E)|(H1 & H2 & H3 & ub' & blk' & E & Hub & Hok & Hcov)]]];
    [lia..| | | |]; fold r in E; [by split_and!..|].
  destruct (not_exceeds _ _ _ _ _ _ _ _ _ Hq H1) as [HeB HeL].
  split_and!; try done. intros _ _ _ _. rewrite E. split.
  - intros Hd Hdata Hav.
    destruct (put_store_inv Str st wl pl s B L blk blk' ub' src s0 e Hq Hub Hok Hcov)
      as (st' & wl' & pl' & s' & L' & blk'' & Es & Hst); try done; try (unfold d in *; lia).
    exists st', wl', pl', s', L', blk''. done.
  - intros Hd. exists ub'. by apply (put_store_far Str st wl pl s B L blk blk').
Qed.

Lemma sample_wq_inv start :
  exists a b, wq_inv sample_str (sample_wq start) [a] [b] 0 start start [].
Proof.
  destruct (altusWQNewNodePool_inv sample_mem) as (p & m1 & b & E & Hp & Hav);
    [done|simpl; lia|].
  rewrite sample_pool_eq in E. assert (Ep : sample_pool = (p, m1)) by congruence.
  destruct (altusNewWindow_inv sample_str sample_raw m1 p [b] start)
    as (w & m2 & a & Ew & Hq & _); try done; [simpl in Hav; lia|].
  exists a, b. unfold sample_wq. rewrite Ep. cbn [fst snd]. by rewrite Ew.
Qed.

(** The first packet of the sample above is stored ahead of a gap; one that
    begins two nodes ahead is written outside of the node. *)
Lemma altusWQPut_reassembles_witness :
  exists wl pl st', wq_inv sample_str (sample_wq sample_start) wl pl 0
      sample_start sample_start [] /\
    altusWQPut (u32 (sample_start + 8)) 12
      (slice sample_str (sample_start + 8) 12) (sample_wq sample_start) = Ret (0, st') /\
    (exists wl' pl' s' L' blk', wq_inv sample_str st' wl' pl' s' sample_start L' blk') /\
    altusWQPut (u32 (sample_start + 8192)) 1 [42] (sample_wq sample_start) = Fault.
Proof.
  destruct (sample_wq_inv sample_start) as (a & b & Hq).
  assert (Hno : forall s0 e, ~ overlaps [] s0 e) by (intros s0 e (x & Hx & _); by apply covered_nil in Hx).
  assert (Hcr : forall s0 e, ~ crowded [] s0 e) by (intros s0 e [_ H8]; discriminate).
  destruct (altusWQPut_reassembles sample_str (sample_wq sample_start) [a] [b] 0
    sample_start sample_start [] (slice sample_str (sample_start + 8) 12)
    (sample_start + 8) (sample_start + 20) Hq) as (_ & _ & _ & _ & Hin);
    [unfold sample_start; lia..|by vm_compute|].
  destruct Hin as [Hin _]; [lia|by vm_compute|apply Hno|apply Hcr|].
  destruct Hin as (st' & wl' & pl' & s' & L' & blk' & E & Hq' & _);
    [by vm_compute| |vm_compute; lia|].
  { intros k Hk. apply slice_bytes. lia. }
  destruct (altusWQPut_reassembles sample_str (sample_wq sample_start) [a] [b] 0
    sample_start sample_start [] [42] (sample_start + 8192) (sample_start + 8193) Hq)
    as (_ & _ & _ & _ & Hfar); [unfold sample_start; lia..|by vm_compute|].
  destruct Hfar as [_ Hfar]; [lia|by vm_compute|apply Hno|apply Hcr|].
  destruct Hfar as (ub' & a' & n' & _ & _ & Ef); [by vm_compute|].
  exists [a], [b], st'. split; [exact Hq|]. split; [|split; [by eexists _, _, _, _, _|exact Ef]].
  replace (sample_start + 20 - (sample_start + 8)) with 12 in E by lia. exact E.
Defined.

(** ** Delivery *)

(** C4: A read of [n] bytes returns the next [min n (L - R)] bytes of the
    stream, where [R] is the first byte not yet read and [L] the end of the
    ordered part; they are at the front of the caller's buffer, whose other
    bytes are untouched; a null destination skips them.  The nodes used up by
    the read, the first [j], leave the window and are linked into the pool in
    their order, whose length grows by [j]: the queue keeps its invariant with
    them there, nothing is allocated or lost, and the next read goes on behind
    the bytes returned, in the node where they end. *)
Theorem altusWQPop_delivers Str st wl pl s B L blk n dest :
  wq_inv Str st wl pl s B L blk -> 0 <= n < 2 ^ 31 -> dest_ok n dest ->
  let R := B + headDataOffset (win st) in
  let k := Z.min n (L - R) in
  exists st' j,
    altusWQPop n dest st = Ret (k, deliver 0 (slice Str R k) dest, st') /\
    (j <= s)%nat /\
    wq_inv Str st' (drop j wl) (pl ++ take j wl) (s - j) (B + ALTUS_NODE_SIZE * Z.of_nat j) L blk /\
    u32 (pool_len (pool st')) = u32 (pool_len (pool st) + Z.of_nat j) /\
    Z.of_nat j = (R + k - B) / ALTUS_NODE_SIZE /\
    B + ALTUS_NODE_SIZE * Z.of_nat j + headDataOffset (win st') = R + k /\
    avail (memory st') = avail (memory st).
Proof.
  intros Hq Hn Hd R k.
  destruct (altusWQPop_popped Str st wl pl s B L blk n dest Hq Hn Hd)
    as (st' & j & E & Hj & Hq' & HR & Hp & Ha & _).
  exists st', j. pose proof (qi_off _ _ _ _ _ _ _ _ _ Hq').
  unfold R, k, ALTUS_NODE_SIZE in *. split_and!; try done; Z.div_mod_to_equations; lia.
Qed.

(** A whole node and twenty bytes have arrived; all but ten bytes are read, and
    the first node goes to the pool. *)
Lemma altusWQPop_delivers_witness :
  let st := sample_put 100 4216 (sample_wq 100) in
  exists wl pl blk st', wq_inv sample_str st wl pl 1 100 4216 blk /\
    altusWQPop 4106 None st = Ret (4106, None, st') /\
    wq_inv sample_str st' (drop 1 wl) (pl ++ take 1 wl) 0 4196 4216 blk /\
    headDataOffset (win st') = 10.
Proof.
  intros st.
  assert (H : received sample_str 100 st 4216 []).
  { apply (rx_put _ _ (sample_wq 100) 100 [] 100 4216 0); try (vm_compute; congruence);
      [apply sample_wq_received|vm_compute; lia|vm_compute; split; congruence]. }
  apply received_inv in H as (blk & R & (wl & pl & s & B & Hq & HR & _) & HsR & Hout).
  assert (Ho : headDataOffset (win st) = 0) by (vm_compute; reflexivity).
  assert (B = 100) as ->.
  { apply (f_equal (fun l => Z.of_nat (length l))) in Hout.
    rewrite length_slice in Hout by lia. simpl in Hout. lia. }
  destruct (qi_valid _ _ _ _ _ _ _ _ _ Hq) as (v & HLv & Hv & _).
  assert (s = 1%nat) as -> by (unfold ALTUS_NODE_SIZE in *; lia).
  destruct (altusWQPop_delivers sample_str st wl pl 1 100 4216 blk 4106 None Hq)
    as (st' & j & E & _ & Hq' & _ & Hj & Hoff & _); [lia|done|].
  rewrite Ho in E, Hj, Hoff. unfold ALTUS_NODE_SIZE in *.
  assert (j = 1%nat) as -> by (apply Nat2Z.inj; rewrite Hj; reflexivity).
  exists wl, pl, blk, st'. split; [exact Hq|]. split; [exact E|]. split; [exact Hq'|].
  simpl in Hoff. lia.
Defined.

(** ** Peeking *)

(** Walking [k] nodes down the window. *)
Lemma peek_walk_spec h wl : forall k m (i : nat) a o,
  nodes m = h -> dll h wl -> wl !! i = Some a -> (i + k < length wl)%nat ->
  0 <= o < ALTUS_NODE_SIZE ->
  peek_walk k (ALTUS_NODE_SIZE * Z.of_nat k + o) (Some a) m =
    Ret (Some (o, wl !! (i + k)%nat)).
Proof.
  induction k as [|k IH]; intros m i a o Hm Hd Hi Hk Ho; unfold ALTUS_NODE_SIZE in *.
  - rewrite Nat.add_0_r, Hi. unfold peek_walk, ALTUS_NODE_SIZE. zcases. done.
  - cbn [peek_walk]. unfold ALTUS_NODE_SIZE. zcases.
    destruct (dll_lookup _ _ _ _ Hd Hi) as (n & Hn & Ht & _).
    destruct (lookup_lt_is_Some_2 wl (S i)) as [b Hb]; [lia|].
    rewrite (load_Some _ _ n), bind_ret, Ht, Hb, ptr_eqb_ne by (done || by rewrite Hm).
    replace (4096 * Z.of_nat (S k) + o - 4096) with (4096 * Z.of_nat k + o) by lia.
    rewrite (IH m (S i) b) by (done || lia). by replace (S i + k)%nat with (i + S k)%nat by lia.
Qed.

(** What node [i] of a queue has ready. *)
Lemma node_ready Str st wl pl s B L blk (i : nat) :
  wq_inv Str st wl pl s B L blk -> (i <= s)%nat ->
  exists a n, wl !! i = Some a /\ nodes (memory st) !! a = Some n /\
    validBlockCount n = Z.min ALTUS_NODE_SIZE (L - (B + ALTUS_NODE_SIZE * Z.of_nat i)) /\
    forall o, 0 <= o < validBlockCount n ->
      data n !! Z.to_nat o = Some (Str (B + ALTUS_NODE_SIZE * Z.of_nat i + o)).
Proof.
  intros [Hch Hs Hf (v & HLv & Hv & Hvs) Hl Hub Hblk Hro Hby Hoff] Hi.
  assert (exists vi, valid_at (nodes (memory st)) wl i = Some vi /\
    vi = Z.min ALTUS_NODE_SIZE (L - (B + ALTUS_NODE_SIZE * Z.of_nat i))) as (vi & Hvi & Ei).
  { unfold ALTUS_NODE_SIZE in *. destruct (decide (i = s)) as [->|].
    - exists v. split; [done|lia].
    - exists 4096. split; [apply Hf; lia|lia]. }
  destruct (valid_at_inv _ _ _ _ Hvi) as (a & n & Ha & Hn & Hvn).
  exists a, n. rewrite Hvn. split_and!; try done. intros o Ho.
  rewrite <- (chain_byte_at (nodes (memory st)) wl i o a n Ha Hn)
    by (unfold ALTUS_NODE_SIZE in *; lia).
  rewrite <- (Hby (B + ALTUS_NODE_SIZE * Z.of_nat i + o)); [f_equal; lia|left].
  unfold ALTUS_NODE_SIZE in *. lia.
Qed.

(** The node and the position of a sequence number of the ordered part. *)
Lemma peek_finds Str st wl pl s B L blk x :
  wq_inv Str st wl pl s B L blk -> win_headSeq (win st) = u32 B ->
  B <= x <= L -> L - B < 2 ^ 32 ->
  let o := (x - B) mod ALTUS_NODE_SIZE in
  let k := Z.min (ALTUS_NODE_SIZE - o) (L - x) in
  (x = L -> altusWQPeek (u32 x) st = Ret (0, None)) /\
  (x < L -> exists a n, altusWQPeek (u32 x) st = Ret (k, Some (Some a, o)) /\
     nodes (memory st) !! a = Some n /\ 0 < k /\
     forall j, 0 <= j < k -> data n !! Z.to_nat (o + j) = Some (Str (x + j))).
Proof.
  intros Hq Hh Hx HLB o k.
  pose proof (qi_chains _ _ _ _ _ _ _ _ _ Hq) as Hch.
  destruct (qi_valid _ _ _ _ _ _ _ _ _ Hq) as (v & HLv & Hv & Hvs).
  destruct (valid_at_inv _ _ _ _ Hvs) as (z & nz & Hz & _).
  apply lookup_lt_Some in Hz.
  set (i := Z.to_nat ((x - B) / ALTUS_NODE_SIZE)).
  assert (Hi : x - B = ALTUS_NODE_SIZE * Z.of_nat i + o /\ 0 <= o < ALTUS_NODE_SIZE /\
    (i <= s)%nat).
  { unfold i, o, ALTUS_NODE_SIZE in *. Z.div_mod_to_equations; lia. }
  destruct Hi as (Hxo & Ho & His).
  destruct (node_ready _ _ _ _ _ _ _ _ i Hq His) as (a & n & Ha & Hn & Hvn & Hdata).
  destruct (lookup_lt_is_Some_2 wl 0) as [a0 Ha0]; [lia|].
  assert (E : altusWQPeek (u32 x) st =
    if u32 (validBlockCount n - o) <=? 0 then Ret (0, None)
    else Ret (s32 (validBlockCount n - o), Some (Some a, o))).
  { unfold altusWQPeek. rewrite Hh, u32_diff by lia. fold i. rewrite Hxo.
    rewrite (wc_head _ _ _ Hch), Ha0.
    rewrite (peek_walk_spec (nodes (memory st)) wl i _ 0 a0 o) by (apply Hch || done || lia).
    rewrite bind_ret. simpl. rewrite Ha, (load_Some _ _ _ Hn), bind_ret. done. }
  rewrite E. unfold ALTUS_NODE_SIZE in *.
  rewrite u32_small, s32_small by lia. split; intros Hlt; zcases; [done|].
  exists a, n. replace (validBlockCount n - o) with k by lia. split_and!; try done; [lia|].
  intros j Hj. rewrite Hdata by lia. do 2 f_equal. lia.
Qed.

(** Looking at sequence number [x] of the ordered part, while [headSeq] is
    the sequence number of the head node, finds the node that holds it and the
    byte's position there, and reports how many ordered bytes follow in that
    node; at the end of the ordered part it reports none. *)
Theorem altusWQPeek_finds Str st wl pl s B L blk x :
  wq_inv Str st wl pl s B L blk -> win_headSeq (win st) = u32 B ->
  B <= x <= L -> L - B < 2 ^ 32 ->
  let o := (x - B) mod ALTUS_NODE_SIZE in
  let k := Z.min (ALTUS_NODE_SIZE - o) (L - x) in
  (x = L -> altusWQPeek (u32 x) st = Ret (0, None)) /\
  (x < L -> exists a n, altusWQPeek (u32 x) st = Ret (k, Some (Some a, o)) /\
     nodes (memory st) !! a = Some n /\ 0 < k /\
     forall j, 0 <= j < k -> data n !! Z.to_nat (o + j) = Some (Str (x + j))).
Proof. apply peek_finds. Qed.

(** A queue that starts at sequence number 0, where its [headSeq] is right. *)
Lemma altusWQPeek_finds_witness :
  let st := sample_put 0 20 (sample_wq 0) in
  exists wl pl s blk a n, wq_inv sample_str st wl pl s 0 20 blk /\
    altusWQPeek 15 st = Ret (5, Some (Some a, 15)) /\
    nodes (memory st) !! a = Some n /\ data n !! 17%nat = Some (sample_str 17).
Proof.
  intros st.
  assert (H : received sample_str 0 st 20 []).
  { apply (rx_put _ _ (sample_wq 0) 0 [] 0 20 0); try (vm_compute; congruence);
      [apply sample_wq_received|vm_compute; lia|vm_compute; split; congruence]. }
  apply received_inv in H as (blk & R & (wl & pl & s & B & Hq & HR & HB & Hal) & HsR & Hout).
  assert (Ho : headDataOffset (win st) = 0) by (vm_compute; reflexivity).
  assert (B = 0) as ->.
  { apply (f_equal (fun l => Z.of_nat (length l))) in Hout.
    rewrite length_slice in Hout by lia. simpl in Hout. lia. }
  destruct (altusWQPeek_finds sample_str st wl pl s 0 20 blk 15 Hq)
    as [_ Hp]; [vm_compute; reflexivity|lia|lia|].
  destruct (Hp ltac:(lia)) as (a & n & E & Hn & _ & Hd).
  exists wl, pl, s, blk, a, n. split; [exact Hq|]. split; [exact E|]. split; [exact Hn|].
  exact (Hd 2 ltac:(vm_compute; split; congruence)).
Defined.

(** ** Sanitizing *)

Lemma dll_size h l : dll h l -> (length l <= size h)%nat.
Proof.
  intros [Hnd Hl]. rewrite <- size_dom, <- (size_list_to_set (C := gset positive) l Hnd).
  apply subseteq_size. intros a Ha%elem_of_list_to_set.
  apply list_elem_of_lookup in Ha as [i Hi]. destruct (Hl _ _ Hi) as (n & Hn & _).
  by apply elem_of_dom_2 in Hn.
Qed.

(** The counting loop, from node [i] on: it may set [safe_len] on its way. *)
Lemma count_nodes_spec h wl : forall fuel st (i : nat) a,
  nodes (memory st) = h -> dll h wl -> unsafe_tail (win st) = last wl ->
  wl !! i = Some a -> (length wl <= i + fuel)%nat ->
  exists z, count_nodes fuel (Some a) (Z.of_nat i + 1) st =
    Ret (Z.of_nat (length wl), on_win (set_safe_len z) st).
Proof.
  induction fuel as [|fuel IH]; intros st i a Hm Hd Hu Hi Hf.
  { apply lookup_lt_Some in Hi. lia. }
  assert (Hsame : on_win (set_safe_len (safe_len (win st))) st = st)
    by (by destruct st as [[] ? ?]).
  cbn [count_nodes]. rewrite Hu. pose proof (lookup_lt_Some _ _ _ Hi).
  destruct (decide (S i = length wl)) as [Hlast|Hlast].
  { rewrite ptr_eqb_eq by (rewrite last_lookup, <- Hlast; by rewrite <- Hi).
    exists (safe_len (win st)). rewrite Hsame. do 2 f_equal. lia. }
  rewrite ptr_eqb_ne.
  2: { rewrite last_lookup. intros Hx. apply Hlast.
       rewrite (NoDup_lookup_inj _ _ _ _ (proj1 Hd) Hi (eq_sym Hx)). lia. }
  destruct (dll_lookup _ _ _ _ Hd Hi) as (n & Hn & Ht & _).
  destruct (lookup_lt_is_Some_2 wl (S i)) as [b Hb]; [lia|].
  set (st1 := if ptr_eqb _ _ then _ else st).
  assert (Hst1 : exists z, st1 = on_win (set_safe_len z) st).
  { unfold st1. destruct (ptr_eqb _ _); eauto. }
  destruct Hst1 as [z ->]. rewrite (load_Some _ _ n) by (simpl; by rewrite Hm).
  rewrite bind_ret, Ht, Hb. replace (Z.of_nat i + 1 + 1) with (Z.of_nat (S i) + 1) by lia.
  destruct (IH (on_win (set_safe_len z) st) (S i) b) as [z' ->]; try done; [lia|].
  by exists z'.
Qed.

(** [recalculateWinLen] counts the nodes of the window and changes no link. *)
Lemma recalculateWinLen_spec st wl pl :
  wf_chains st wl pl -> Z.of_nat (length wl) < 2 ^ 32 ->
  exists z, recalculateWinLen st =
    Ret (on_win (fun w => set_unsafe_len (Z.of_nat (length wl)) (set_safe_len z w)) st).
Proof.
  intros Hch Hl. unfold recalculateWinLen.
  pose proof (dll_size _ _ (wc_win _ _ _ Hch)) as Hs.
  pose proof (wc_wl _ _ _ Hch). destruct wl as [|a wl]; [done|].
  set (st1 := if ptr_eqb _ _ then _ else st).
  assert (exists z, st1 = on_win (set_safe_len z) st) as [z ->].
  { unfold st1. destruct (ptr_eqb _ _); [eauto|].
    exists (safe_len (win st)). by destruct st as [[] ? ?]. }
  cbn [on_win win head set_safe_len]. rewrite (wc_head _ _ _ Hch). simpl (_ !! 0%nat).
  destruct (count_nodes_spec (nodes (memory st)) (a :: wl) (size (nodes (memory st)))
    (on_win (set_safe_len z) st) 0 a) as [z' E]; try done; [apply Hch..|].
  change (Z.of_nat 0 + 1) with 1 in E. simpl (on_win _ _) in E |- *. rewrite E, bind_ret.
  exists z'. rewrite u32_small by lia. done.
Qed.

(** [altusWQSanitize] recounts the nodes of the window; the links and the
    data stay as they are, and the answer classifies the fill level: negative
    exactly when the window is over its limit, 0 when it is at least half full,
    and [k > 0] when less than [1 / 2^k] of it is used. *)
Theorem altusWQSanitize_classifies st wl pl :
  wf_chains st wl pl ->
  let N := Z.of_nat (length wl) in
  let W := windowSize (win st) in
  N < 2 ^ 32 -> 0 <= W <= ALTUS_WINDOW_BLOCK_MAX_ABSOLUTE ->
  exists code st', altusWQSanitize st = Ret (code, st') /\
    unsafe_len (win st') = N /\ wf_chains st' wl pl /\ memory st' = memory st /\
    (code < 0 <-> W < N) /\
    (code = 0 <-> W / 2 <= N <= W) /\
    (code = 1 <-> W / 4 <= N < W / 2) /\
    (code = 2 <-> W / 8 <= N < W / 4) /\
    (code = 3 <-> N < W / 8) /\ -3 <= code <= 3.
Proof.
  intros Hch N W HN HW. unfold altusWQSanitize.
  destruct (recalculateWinLen_spec st wl pl Hch HN) as [z ->]. rewrite bind_ret.
  set (st' := on_win _ st).
  assert (Hch' : wf_chains st' wl pl) by (by apply (wf_chains_frame st)).
  change (unsafe_len (win st')) with N. change (windowSize (win st')) with W.
  change (memory st') with (memory st).
  unfold ALTUS_WINDOW_BLOCK_MAX_ABSOLUTE in *.
  rewrite Z.shiftl_mul_pow2, !Z.shiftr_div_pow2, u32_small by lia.
  change (2 ^ 1) with 2. change (2 ^ 2) with 4. change (2 ^ 3) with 8.
  zcases; eexists _, st'; (split; [reflexivity|]); split_and!; try done;
    Z.div_mod_to_equations; lia.
Qed.

Lemma altusWQSanitize_classifies_witness :
  exists wl pl st', wf_chains (sample_wq 0) wl pl /\
    altusWQSanitize (sample_wq 0) = Ret (3, st') /\ unsafe_len (win st') = 1.
Proof.
  destruct (sample_wq_inv 0) as (a & b & Hq).
  destruct (altusWQSanitize_classifies (sample_wq 0) [a] [b])
    as (c & st' & E & Hu & Hch & _ & _ & _ & _ & _ & [_ H3] & _);
    [apply Hq|simpl; lia|vm_compute; split; congruence|].
  rewrite H3 in E by (vm_compute; reflexivity).
  exists [a], [b], st'. split; [apply Hq|]. split; [exact E|exact Hu].
Defined.

(** ** Release *)

Lemma ptr_eqb_lookup l (i j : nat) a :
  NoDup l -> l !! i = Some a -> l !! j <> None ->
  ptr_eqb (Some a) (l !! j) = (i =? j)%nat.
Proof.
  intros Hnd Hi Hj. destruct (l !! j) as [b|] eqn:Ej; [|done].
  destruct (Nat.eqb_spec i j) as [->|Hne]; [apply ptr_eqb_eq; congruence|].
  apply ptr_eqb_ne. intros [= ->]. by apply Hne, (NoDup_lookup_inj l i j b).
Qed.

(** The release loop from node [i] on frees that node and all behind it. *)
Lemma free_chain_spec l : forall fuel m (i : nat) a,
  NoDup l -> l !! i = Some a -> (length l <= i + S fuel)%nat ->
  (forall j b, (i <= j)%nat -> l !! j = Some b ->
     exists n, nodes m !! b = Some n /\ to_tail n = l !! S j) ->
  exists m', free_chain fuel (Some a) (last l) m = Ret m' /\
    (forall b, b ∈ drop i l -> nodes m' !! b = None) /\
    (forall b, b ∉ drop i l -> nodes m' !! b = nodes m !! b) /\
    avail m' = (avail m + (length l - i))%nat /\ garbage m' = garbage m.
Proof.
  induction fuel as [|fuel IH]; intros m i a Hnd Hi Hf Hm;
    pose proof (lookup_lt_Some _ _ _ Hi) as Hil;
    destruct (Hm i a ltac:(lia) Hi) as (n & Hn & Ht).
  all: assert (Heq : ptr_eqb (Some a) (last l) = (i =? Nat.pred (length l))%nat)
    by (rewrite last_lookup; apply ptr_eqb_lookup; [done..|]; apply not_eq_None_Some, lookup_lt_is_Some_2; lia).
  all: assert (Hd : drop i l = a :: drop (S i) l) by (by apply drop_S).
  all: simpl; rewrite Heq, Hn; destruct (Nat.eqb_spec i (Nat.pred (length l))) as [Hl|Hl]; [|try lia].
  1, 2: eexists; (split; [done|]); rewrite Hd, (drop_ge l (S i)) by lia; simpl; split_and!;
    [intros b ->%list_elem_of_singleton; apply lookup_delete_eq
    |intros b Hb; apply lookup_delete_ne; set_solver
    |lia|done].
  rewrite bind_ret, Ht.
  destruct (lookup_lt_is_Some_2 l (S i)) as [b Hb]; [lia|].
  rewrite Hb, bind_ret.
  destruct (IH (mkMem (delete a (nodes m)) (S (avail m)) (garbage m)) (S i) b)
    as (m' & E & Hin & Hout & Hav & Hg); [done|done|lia| |].
  { intros j c Hj Hc. simpl. rewrite lookup_delete_ne; [apply Hm; [lia|done]|].
    intros ->. pose proof (NoDup_lookup_inj _ _ _ _ Hnd Hi Hc). lia. }
  assert (Ha : a ∉ drop (S i) l).
  { intros [j Hj]%list_elem_of_lookup. rewrite lookup_drop in Hj.
    pose proof (NoDup_lookup_inj _ _ _ _ Hnd Hi Hj). lia. }
  exists m'. split; [done|]. rewrite Hd. simpl in *. split_and!; [| |lia|done].
  - intros c [->|Hc]%elem_of_cons; [|by apply Hin].
    rewrite Hout by done. apply lookup_delete_eq.
  - intros c Hc. rewrite Hout by set_solver. apply lookup_delete_ne. set_solver.
Qed.

(** Freeing a whole doubly linked list. *)
Lemma free_dll l m :
  dll (nodes m) l -> l <> [] ->
  exists m', free_chain (size (nodes m)) (l !! 0%nat) (last l) m = Ret m' /\
    (forall b, b ∈ l -> nodes m' !! b = None) /\
    (forall b, b ∉ l -> nodes m' !! b = nodes m !! b) /\
    avail m' = (avail m + length l)%nat.
Proof.
  intros Hd Hne. pose proof (dll_size _ _ Hd). destruct l as [|a r] eqn:El; [done|].
  rewrite <- El in *. replace (l !! 0%nat) with (Some a) by (by subst).
  destruct (free_chain_spec l (size (nodes m)) m 0 a) as (m' & E & Hin & Hout & Hav & _);
    [apply Hd|by subst|lia| |].
  { intros j b _ Hj. destruct (dll_lookup _ _ _ _ Hd Hj) as (n & ? & ? & _). eauto. }
  exists m'. rewrite drop_0 in *. split_and!; try done. lia.
Qed.

(** Releasing a window and then its pool frees each of their nodes once and
    nothing else: no dangling pointer is followed, no node is freed twice and
    no other node is touched.  The structure of the window is released with
    it; that of the pool is not. *)
Theorem free_releases_nodes st wl pl :
  wf_chains st wl pl ->
  exists m1 m2, altusFreeWQ (win st) (memory st) = Ret m1 /\
    altusFreeP (pool st) m1 = Ret m2 /\
    (forall a, a ∈ wl ++ pl -> nodes m2 !! a = None) /\
    (forall a, a ∉ wl ++ pl -> nodes m2 !! a = nodes (memory st) !! a) /\
    avail m2 = (avail (memory st) + length wl + length pl + 1)%nat.
Proof.
  intros Hch. unfold altusFreeWQ, altusFreeP.
  rewrite (wc_head _ _ _ Hch), (wc_unsafe _ _ _ Hch).
  destruct (free_dll wl (memory st)) as (m1 & -> & Hin1 & Hout1 & Hav1); [apply Hch..|].
  rewrite bind_ret. exists (free_struct m1).
  rewrite (wc_rhead _ _ _ Hch), (wc_rtail _ _ _ Hch).
  destruct (free_dll pl (free_struct m1)) as (m2 & E2 & Hin2 & Hout2 & Hav2); [|apply Hch|].
  { apply (dll_frame (nodes (memory st))); [|apply Hch]. intros a Ha. apply Hout1.
    intros Hw. by apply (wc_disj _ _ _ Hch a). }
  exists m2. split; [done|].
  assert (Hh : pl !! 0%nat <> None) by (pose proof (wc_pl _ _ _ Hch); by destruct pl).
  rewrite ptr_eqb_ne by done. simpl in *. split_and!; [done| | |lia].
  - intros a [Ha|Ha]%elem_of_app; [|by apply Hin2].
    rewrite Hout2; [by apply Hin1|]. intros Hp. by apply (wc_disj _ _ _ Hch a).
  - intros a [Hw Hp]%not_elem_of_app. rewrite Hout2 by done. by apply Hout1.
Qed.

Lemma free_releases_nodes_witness :
  exists wl pl m1 m2, wf_chains (sample_wq 0) wl pl /\
    altusFreeWQ (win (sample_wq 0)) (memory (sample_wq 0)) = Ret m1 /\
    altusFreeP (pool (sample_wq 0)) m1 = Ret m2 /\ avail m2 = 19%nat.
Proof.
  destruct (sample_wq_inv 0) as (a & b & Hq).
  destruct (free_releases_nodes (sample_wq 0) [a] [b]) as (m1 & m2 & E1 & E2 & _ & _ & Hav);
    [apply Hq|].
  exists [a], [b], m1, m2. split; [apply Hq|]. split; [exact E1|]. split; [exact E2|].
  rewrite Hav. vm_compute. reflexivity.
Defined.
