(* ===== verification/NodePool.v ===== *)
(** * The recycled nodes of the C++ layer (src/ALTUS/NodeBase.h, NodeBase.cpp)

    A lock-protected list of nodes that the receive streams of all peers share.
    The operations are translated with their pointers; a transition system over
    them interleaves the threads of a program that uses one pool: a thread that
    takes a node tests for an empty pool before it enters the critical section,
    so that the two parts of [pop] are two steps.  The test is an access without
    the lock: the system tracks which accesses are ordered by the mutex, and a
    test that is not ordered with a write of [recycled_head] is a data race,
    which is undefined behaviour. *)

From stdpp Require Import fin_sets.
From S2P Require Import Prelude.

Lemma size_add (a : positive) (X : gset positive) : a ∉ X -> size ({[a]} ∪ X) = S (size X).
Proof. intros. rewrite size_union by set_solver. by rewrite size_singleton. Qed.

Module NodeBase.

Definition ALTUS_NODE_SIZE : Z := 4096.

(** [enum class UBM] *)
Inductive UBM := FULL | MALICIOUS | OVERLAP | EXTENDED | ADDED | ONSEQ | MERGING.

#[export] Instance UBM_eq_dec : EqDecision UBM.
Proof. solve_decision. Defined.

(** A pointer to a node; [None] is [nullptr]. *)
Notation ptr := (option positive).

(** [class Node] *)
Record Node := mkNode { to_tail : ptr; data : list Z }.

Definition set_to_tail (p : ptr) (n : Node) : Node := mkNode p (data n).
Definition set_data (d : list Z) (n : Node) : Node := mkNode (to_tail n) d.

(** The heap: the live nodes, how many allocations succeed, and what the data
    of a new node is before it is written. *)
Record heap := mkHeap { nodes : gmap positive Node; avail : nat; garbage : positive -> list Z }.

Definition set_nodes (h : gmap positive Node) (m : heap) : heap := mkHeap h (avail m) (garbage m).

(** [new Node], with the constructor [Node::Node]. *)
Definition new_Node (m : heap) : outcome (positive * heap) :=
  match avail m with
  | O => Throw
  | S k =>
      let a := fresh (dom (nodes m)) in
      Ret (a, mkHeap (<[a := mkNode None (garbage m a)]> (nodes m)) k (garbage m))
  end.

Definition load (m : heap) (p : ptr) : outcome Node :=
  match p with
  | None => Fault
  | Some a => match nodes m !! a with Some n => Ret n | None => Fault end
  end.

Definition update (m : heap) (p : ptr) (f : Node -> Node) : outcome heap :=
  match p with
  | None => Fault
  | Some a =>
      match nodes m !! a with
      | Some n => Ret (set_nodes (<[a := f n]> (nodes m)) m)
      | None => Fault
      end
  end.

(** [delete p] *)
Definition delete_Node (m : heap) (p : ptr) : outcome heap :=
  match p with
  | None => Ret m
  | Some a =>
      match nodes m !! a with
      | Some _ => Ret (mkHeap (delete a (nodes m)) (S (avail m)) (garbage m))
      | None => Fault
      end
  end.

(** A result of [int] arithmetic: overflow is undefined. *)
Definition int_val (z : Z) : outcome Z :=
  if (- 2 ^ 31 <=? z) && (z <? 2 ^ 31) then Ret z else Fault.

(** [class NodePool]; the mutex shows in what is one step below. *)
Record NodePool := mkPool { size : Z; recycled_head : ptr; recycled_tail : ptr }.

Definition NodePool_new : NodePool := mkPool 0 None None.

(** [while (p != nullptr) { next = p->to_tail; delete p; p = next; }] *)
Fixpoint delete_loop (fuel : nat) (m : heap) (p : ptr) : outcome heap :=
  match p with
  | None => Ret m
  | Some _ =>
      match fuel with
      | O => NoFuel
      | S f =>
          n ← load m p;
          m ← delete_Node m p;
          delete_loop f m (to_tail n)
      end
  end.

(** [NodePool::~NodePool]: every turn deletes a node, so that the number of
    live nodes is fuel enough. *)
Definition NodePool_delete (p : NodePool) (m : heap) : outcome heap :=
  delete_loop (S (base.size (nodes m))) m (recycled_head p).

(** [NodePool::pop]: the value of the test outside the critical section (whether
    it may be read at all is decided by [read_unlocked] below), the section. *)
Definition pop_empty (p : NodePool) : bool :=
  match recycled_head p with None => true | Some _ => false end.

Definition pop_locked (p : NodePool) (m : heap) : outcome (ptr * NodePool) :=
  let poppingNode := recycled_head p in
  n ← load m poppingNode;
  s ← int_val (size p - 1);
  Ret (poppingNode, mkPool s (to_tail n) (recycled_tail p)).

Definition pop (p : NodePool) (m : heap) : outcome (ptr * NodePool) :=
  if pop_empty p then Ret (None, p) else pop_locked p m.

(** [NodePool::push] *)
Definition push (node : ptr) (p : NodePool) (m : heap) : outcome (NodePool * heap) :=
  m ← update m node (set_to_tail None);
  s ← int_val (size p + 1);
  match recycled_head p with
  | None => Ret (mkPool s node node, m)
  | Some _ =>
      m ← update m (recycled_tail p) (set_to_tail node);
      Ret (mkPool s (recycled_head p) (recycled_tail p), m)
  end.

(** [for (int i = 1; i < n; i++) currentNode = currentNode->to_tail;] *)
Fixpoint walk (turns : nat) (m : heap) (p : ptr) : outcome ptr :=
  match turns with
  | O => Ret p
  | S k => n ← load m p; walk k m (to_tail n)
  end.

(** [NodePool::resize] *)
Definition resize (n : Z) (p : NodePool) (m : heap) : outcome (Z * NodePool * heap) :=
  removeCount ← int_val (size p - n);
  if removeCount <=? 0 then Ret (0, p, m)
  else
    currentNode ← walk (Z.to_nat (n - 1)) m (recycled_head p);
    c ← load m currentNode;
    m ← update m currentNode (set_to_tail None);
    m ← delete_loop (S (base.size (nodes m))) m (to_tail c);
    Ret (removeCount, mkPool n (recycled_head p) currentNode, m).

(** ** Threads on one pool

    The mutex orders critical sections one after another; a thread is ordered
    after the sections up to its last one, and its accesses before that one are
    ordered before every later section.  [seen] is the last section a thread is
    ordered after, [head_written] the last one that wrote [recycled_head], and
    [unlocked_reads] the threads whose last test of [recycled_head] is not
    ordered before the next section of another thread.  The threads are ordered
    by the mutex of the pool only, and have all been started before. *)
Record sync := mkSync {
  sections : nat;
  seen : gmap nat nat;
  head_written : nat;
  unlocked_reads : gset nat
}.

Definition sync_start : sync := mkSync 0 ∅ 0 ∅.

(** The critical section of thread [t]; [None] is a data race: it writes
    [recycled_head], which another thread has read without the lock. *)
Definition section (t : nat) (writes_head : bool) (s : sync) : option sync :=
  if writes_head && negb (bool_decide (unlocked_reads s ⊆ {[t]})) then None
  else
    let k := S (sections s) in
    Some (mkSync k (<[t := k]> (seen s)) (if writes_head then k else head_written s)
      (unlocked_reads s ∖ {[t]})).

(** The test of [recycled_head] in line 25; [None] is a data race: the last
    write is not ordered before it. *)
Definition read_unlocked (t : nat) (s : sync) : option sync :=
  if decide (head_written s <= default 0 (seen s !! t))%nat
  then Some (mkSync (sections s) (seen s) (head_written s) ({[t]} ∪ unlocked_reads s))
  else None.

(** The nodes in the hands of the clients, and the threads that are between the
    test and the critical section of [pop]. *)
Record conf := mkConf {
  the_pool : NodePool;
  the_heap : heap;
  held : gset positive;
  entering : gset nat;
  the_sync : sync
}.

(** The state after a step; [None] is undefined behaviour. *)
Definition after_step {A} (o : outcome A) (f : A -> conf) : option conf :=
  match o with Ret a => Some (f a) | _ => None end.

(** [takers] are the threads that call [pop], [givers] those that call [push]. *)
Inductive pool_step (takers givers : gset nat) (c : conf) : option conf -> Prop :=
| step_new a m :
    new_Node (the_heap c) = Ret (a, m) ->
    pool_step takers givers c
      (Some (mkConf (the_pool c) m ({[a]} ∪ held c) (entering c) (the_sync c)))
| step_write a f :
    a ∈ held c ->
    pool_step takers givers c (after_step (update (the_heap c) (Some a) f) (fun m =>
      mkConf (the_pool c) m (held c) (entering c) (the_sync c)))
| step_push t a :
    t ∈ givers -> a ∈ held c ->
    pool_step takers givers c (s ← section t (pop_empty (the_pool c)) (the_sync c);
      after_step (push (Some a) (the_pool c) (the_heap c)) (fun '(p, m) =>
        mkConf p m (held c ∖ {[a]}) (entering c) s))
| step_pop_test t :
    t ∈ takers -> t ∉ entering c ->
    pool_step takers givers c (s ← read_unlocked t (the_sync c);
      Some (mkConf (the_pool c) (the_heap c) (held c)
        (if pop_empty (the_pool c) then entering c else {[t]} ∪ entering c) s))
| step_pop_locked t :
    t ∈ entering c ->
    pool_step takers givers c (s ← section t true (the_sync c);
      after_step (pop_locked (the_pool c) (the_heap c)) (fun '(a, p) =>
        mkConf p (the_heap c) (from_option singleton ∅ a ∪ held c) (entering c ∖ {[t]}) s)).

(** From an empty pool in an empty heap, in which [k] nodes can be allocated. *)
Inductive reachable (takers givers : gset nat) (k : nat) (g : positive -> list Z) : option conf -> Prop :=
| reach_start : reachable takers givers k g (Some (mkConf NodePool_new (mkHeap ∅ k g) ∅ ∅ sync_start))
| reach_step c o : reachable takers givers k g (Some c) -> pool_step takers givers c o ->
    reachable takers givers k g o.

(** ** The chain of recycled nodes *)

Fixpoint chain (m : heap) (p : ptr) (l : list positive) : Prop :=
  match l with
  | [] => p = None
  | a :: r => p = Some a /\ exists n, nodes m !! a = Some n /\ chain m (to_tail n) r
  end.

Lemma chain_frame m m' l : forall p,
  (forall a, a ∈ l -> nodes m' !! a = nodes m !! a) -> chain m p l -> chain m' p l.
Proof.
  induction l as [|a r IH]; intros p Hf Hc; [done|]. destruct Hc as (-> & n & Hn & Hr).
  split; [done|]. exists n. rewrite Hf by (by left). split; [done|].
  apply IH; [|done]. intros b Hb. apply Hf. by right.
Qed.

Lemma chain_live m l : forall p a, chain m p l -> a ∈ l -> a ∈ dom (nodes m).
Proof.
  induction l as [|b r IH]; intros p a Hc Ha; [by inversion Ha|]. destruct Hc as (_ & n & Hn & Hr).
  apply elem_of_cons in Ha as [->|Ha]; [by apply elem_of_dom_2 in Hn|by eapply IH].
Qed.

Lemma chain_det m l : forall p l', chain m p l -> chain m p l' -> l = l'.
Proof.
  induction l as [|a r IH]; intros p [|a' r'] H H'; simpl in *; [done| | |].
  - destruct H' as (? & _). congruence.
  - destruct H as (? & _). congruence.
  - destruct H as (-> & n & Hn & Hr), H' as ([= <-] & n' & Hn' & Hr').
    rewrite Hn in Hn'. injection Hn' as <-. f_equal. by eapply IH.
Qed.

Lemma update_live m a f :
  a ∈ dom (nodes m) -> exists n, nodes m !! a = Some n /\
    update m (Some a) f = Ret (set_nodes (<[a := f n]> (nodes m)) m).
Proof. intros [n Hn]%elem_of_dom. exists n. simpl. by rewrite Hn. Qed.

Lemma nupdate_Some m a n f :
  nodes m !! a = Some n -> update m (Some a) f = Ret (set_nodes (<[a := f n]> (nodes m)) m).
Proof. intros H. simpl. by rewrite H. Qed.

Lemma nload_Some m a n : nodes m !! a = Some n -> load m (Some a) = Ret n.
Proof. intros H. simpl. by rewrite H. Qed.

Lemma dom_update m a f m' : update m (Some a) f = Ret m' -> dom (nodes m') = dom (nodes m).
Proof.
  simpl. destruct (nodes m !! a) as [n|] eqn:E; [|done]. intros [= <-]. simpl.
  apply dom_insert_lookup_L. by exists n.
Qed.

Lemma int_val_ok z : - 2 ^ 31 <= z < 2 ^ 31 -> int_val z = Ret z.
Proof.
  intros H. unfold int_val. destruct (Z.leb_spec (- 2 ^ 31) z), (Z.ltb_spec z (2 ^ 31)); try lia. done.
Qed.

(** What a pool is after any steps: a chain of at most two nodes, a last node
    that is live, a size that counts all nodes that are in nobody's hands, in the
    chain or not, and tests that are ordered after the writes. *)
Record pool_inv (P Q : gset nat) (k : nat) (c : conf) (l : list positive) : Prop := mk_pool_inv {
  inv_chain : chain (the_heap c) (recycled_head (the_pool c)) l;
  inv_nodup : NoDup l;
  inv_two : (length l <= 2)%nat;
  inv_free : forall a, a ∈ l -> a ∉ held c;
  inv_held : held c ⊆ dom (nodes (the_heap c));
  inv_tail : l <> [] -> exists t, recycled_tail (the_pool c) = Some t /\
    t ∈ dom (nodes (the_heap c)) /\ (length l = 2%nat -> l !! 0%nat = Some t);
  inv_size : size (the_pool c) = Z.of_nat (base.size (dom (nodes (the_heap c)) ∖ held c));
  inv_total : (base.size (dom (nodes (the_heap c))) + avail (the_heap c))%nat = k;
  inv_entering : entering c ⊆ P;
  inv_waiting : entering c <> ∅ -> l <> [];
  inv_given : l <> [] -> Q <> ∅;
  inv_reads : unlocked_reads (the_sync c) ⊆ P;
  inv_sections : (head_written (the_sync c) <= sections (the_sync c))%nat;
  inv_seen : forall t, t ∈ P -> (head_written (the_sync c) <= default 0 (seen (the_sync c) !! t))%nat
}.

Lemma chain_nonempty m p l : chain m p l -> l <> [] -> exists a r, l = a :: r /\ p = Some a.
Proof. destruct l as [|a r]; [done|]. intros (-> & _) _. eauto. Qed.

(** Nodes are taken only by the thread that gives them, if any is given. *)
Definition ordered (takers givers : gset nat) : Prop :=
  forall t u, t ∈ takers -> u ∈ givers -> t = u.

Section steps.
Context (P Q : gset nat) (k : nat).

Lemma inv_int c l : pool_inv P Q k c l -> Z.of_nat k < 2 ^ 31 -> 0 <= size (the_pool c) < 2 ^ 31.
Proof.
  intros Hi Hk. rewrite (inv_size _ _ _ _ _ Hi). pose proof (inv_total _ _ _ _ _ Hi).
  assert (base.size (dom (nodes (the_heap c)) ∖ held c) <= base.size (dom (nodes (the_heap c))))%nat
    by (apply subseteq_size; set_solver). lia.
Qed.

Lemma inv_new c l a m :
  pool_inv P Q k c l -> new_Node (the_heap c) = Ret (a, m) ->
  pool_inv P Q k (mkConf (the_pool c) m ({[a]} ∪ held c) (entering c) (the_sync c)) l.
Proof.
  intros [Hc Hn H2 Hf Hh Ht Hs Hi He Hw Hg Hr Hsec Hseen] Ha. unfold new_Node in Ha.
  destruct (avail (the_heap c)) as [|j]; [done|].
  set (b := fresh (dom (nodes (the_heap c)))) in *. injection Ha as <- <-.
  pose proof (is_fresh (dom (nodes (the_heap c)))) as Hb. fold b in Hb.
  assert (Hbl : b ∉ l) by (intros Hin; apply Hb; by eapply chain_live).
  split; cbn [the_pool the_heap held entering nodes the_sync avail]; try done.
  - eapply chain_frame; [|exact Hc]. intros x Hx. simpl. apply lookup_insert_ne. by intros ->.
  - set_solver.
  - rewrite dom_insert_L. set_solver.
  - intros Hl. destruct (Ht Hl) as (t & Et & Htd & Hlt). exists t. rewrite dom_insert_L. set_solver.
  - rewrite Hs. do 2 f_equal. rewrite dom_insert_L. set_solver.
  - rewrite dom_insert_L, size_add by done. lia.
Qed.

Lemma update_avail m a f m' : update m (Some a) f = Ret m' -> avail m' = avail m.
Proof. simpl. destruct (nodes m !! a); [|done]. by intros [= <-]. Qed.

Lemma inv_write c l a f m :
  pool_inv P Q k c l -> a ∈ held c -> update (the_heap c) (Some a) f = Ret m ->
  pool_inv P Q k (mkConf (the_pool c) m (held c) (entering c) (the_sync c)) l.
Proof.
  intros [Hc Hn H2 Hf Hh Ht Hs Hi He Hw Hg Hr Hsec Hseen] Ha Hu. pose proof (dom_update _ _ _ _ Hu) as Hd.
  split; cbn [the_pool the_heap held entering the_sync]; rewrite ?Hd, ?(update_avail _ _ _ _ Hu); try done.
  eapply chain_frame; [|exact Hc]. intros x Hx. simpl in Hu.
  destruct (nodes (the_heap c) !! a); [|done]. injection Hu as <-. simpl.
  apply lookup_insert_ne. intros <-. by apply (Hf a).
Qed.

(** A test is ordered after the last write. *)
Lemma inv_pop_test c l t :
  pool_inv P Q k c l -> t ∈ P -> exists s, read_unlocked t (the_sync c) = Some s /\
  pool_inv P Q k (mkConf (the_pool c) (the_heap c) (held c)
    (if pop_empty (the_pool c) then entering c else {[t]} ∪ entering c) s) l.
Proof.
  intros [Hc Hn H2 Hf Hh Htl Hs Hi He Hw Hg Hr Hsec Hseen] Ht. unfold read_unlocked.
  rewrite decide_True by (by apply Hseen). eexists. split; [reflexivity|].
  split; cbn [the_pool the_heap held entering the_sync sections seen head_written unlocked_reads]; try done.
  - destruct (pop_empty _); set_solver.
  - unfold pop_empty. destruct (recycled_head (the_pool c)) as [a|] eqn:Eh; [|done].
    intros _ ->. simpl in Hc. congruence.
  - set_solver.
Qed.

(** No section of a thread that gives or takes races with a test. *)
Lemma section_ordered c l t w :
  ordered P Q -> pool_inv P Q k c l -> t ∈ P ∪ Q -> Q <> ∅ -> (t ∈ P -> t ∈ Q) ->
  exists s, section t w (the_sync c) = Some s /\ unlocked_reads s ⊆ P /\
    (head_written s <= sections s)%nat /\
    forall u, u ∈ P -> (head_written s <= default 0 (seen s !! u))%nat.
Proof.
  intros HO Hi Ht HQ HPQ. assert (Htq : t ∈ Q) by set_solver.
  assert (HP : P ⊆ {[t]}) by (intros u Hu; apply elem_of_singleton; by apply HO).
  pose proof (inv_reads _ _ _ _ _ Hi) as Hr. pose proof (inv_sections _ _ _ _ _ Hi).
  unfold section. rewrite bool_decide_eq_true_2 by set_solver. rewrite andb_false_r.
  eexists. split; [reflexivity|]. cbn [unlocked_reads head_written sections seen].
  split_and!; [set_solver|destruct w; lia|]. intros u Hu.
  assert (u = t) as -> by set_solver. rewrite lookup_insert_eq. simpl. destruct w; lia.
Qed.

(** With one thread taking nodes, the test still holds in the section. *)
Lemma inv_pop_locked c l t :
  Z.of_nat k < 2 ^ 31 -> ordered P Q -> pool_inv P Q k c l -> t ∈ entering c ->
  exists s a p l', section t true (the_sync c) = Some s /\
    pop_locked (the_pool c) (the_heap c) = Ret (Some a, p) /\ l = a :: l' /\
    pool_inv P Q k (mkConf p (the_heap c) ({[a]} ∪ held c) (entering c ∖ {[t]}) s) l'.
Proof.
  intros Hk HO Hinv Hin. pose proof (inv_int _ _ Hinv Hk) as Hint.
  assert (Hl : l <> []) by (apply (inv_waiting _ _ _ _ _ Hinv); set_solver).
  assert (HtP : t ∈ P) by (by apply (inv_entering _ _ _ _ _ Hinv)).
  destruct (set_choose_L Q (inv_given _ _ _ _ _ Hinv Hl)) as [u Hu].
  assert (HtQ : t ∈ Q) by (rewrite (HO t u HtP Hu); done).
  destruct (section_ordered c l t true HO Hinv) as (s & Es & Sr & Ssec & Sseen); [set_solver|set_solver|done|].
  destruct Hinv as [Hc Hn H2 Hf Hh Ht Hs Hi He Hw Hg Hr Hsec Hseen].
  destruct (chain_nonempty _ _ _ Hc Hl) as (a & r & -> & Eh).
  destruct Hc as (_ & n & Hna & Hrest). unfold pop_locked, load. rewrite Eh, Hna.
  assert (Had : a ∈ dom (nodes (the_heap c))) by (by apply elem_of_dom_2 in Hna).
  assert (Hsz : Z.of_nat (base.size (dom (nodes (the_heap c)) ∖ ({[a]} ∪ held c))) = size (the_pool c) - 1).
  { assert (E : dom (nodes (the_heap c)) ∖ held c =
      {[a]} ∪ dom (nodes (the_heap c)) ∖ ({[a]} ∪ held c)).
    { apply set_eq. intros x. destruct (decide (x = a)) as [->|]; [|set_solver].
      specialize (Hf a ltac:(left)). set_solver. }
    rewrite Hs, E, size_add by set_solver. lia. }
  rewrite bind_ret, int_val_ok by lia. rewrite bind_ret.
  exists s, a. eexists _, r. split; [done|]. split; [reflexivity|]. split; [done|]. apply NoDup_cons in Hn as [Hna' Hnr].
  split; cbn [the_pool the_heap held entering recycled_head recycled_tail size the_sync]; try done.
  - simpl in H2. lia.
  - intros x Hx. specialize (Hf x ltac:(by right)). set_solver.
  - set_solver.
  - intros Hre. destruct (Ht ltac:(done)) as (t' & Et & Htd & _). exists t'. split_and!; [done..|].
    intros Hl2. simpl in H2. lia.
  - set_solver.
  - intros Hne. exfalso. apply Hne. apply set_eq. intros x. split; [|set_solver].
    intros [Hx Hxt]%elem_of_difference. destruct Hxt. apply elem_of_singleton.
    rewrite (HO x u), (HO t u); [done|done..|by apply He|done].
  - intros _. set_solver.
Qed.

(** Returning a node: the chain becomes one or two nodes long; a second node
    that was there is lost. *)
Lemma inv_push c l t a :
  Z.of_nat k < 2 ^ 31 -> ordered P Q -> pool_inv P Q k c l -> t ∈ Q -> a ∈ held c ->
  exists s p m, section t (pop_empty (the_pool c)) (the_sync c) = Some s /\
    push (Some a) (the_pool c) (the_heap c) = Ret (p, m) /\
    let l' := match l with
              | [] => [a]
              | b :: r => if decide (recycled_tail (the_pool c) = Some b) then [b; a] else l
              end in
    pool_inv P Q k (mkConf p m (held c ∖ {[a]}) (entering c) s) l'.
Proof.
  intros Hk HO Hinv HtQ Ha. pose proof (inv_int _ _ Hinv Hk) as Hint.
  destruct (section_ordered c l t (pop_empty (the_pool c)) HO Hinv) as (s & Es & Sr & Ssec & Sseen);
    [set_solver|set_solver|done|]. exists s.
  destruct Hinv as [Hc Hn H2 Hf Hh Ht Hs Hi He Hw Hg Hr Hsec Hseen].
  assert (Had : a ∈ dom (nodes (the_heap c))) by (by apply Hh).
  assert (Hal : a ∉ l) by (intros Hin; by apply (Hf a)).
  assert (HQ : Q <> ∅) by set_solver.
  assert (Hsz : size (the_pool c) + 1 = Z.of_nat (base.size (dom (nodes (the_heap c)) ∖ (held c ∖ {[a]})))).
  { assert (E : dom (nodes (the_heap c)) ∖ (held c ∖ {[a]}) = {[a]} ∪ dom (nodes (the_heap c)) ∖ held c).
    { apply set_eq. intros x. destruct (decide (x = a)) as [->|]; set_solver. }
    rewrite E, size_add by set_solver. lia. }
  assert (size (the_pool c) + 1 < 2 ^ 31).
  { rewrite Hsz. assert (base.size (dom (nodes (the_heap c)) ∖ (held c ∖ {[a]})) <=
      base.size (dom (nodes (the_heap c))))%nat by (apply subseteq_size; set_solver). lia. }
  unfold push. destruct (update_live (the_heap c) a (set_to_tail None) Had) as (n & Hna & Eu). rewrite Eu, bind_ret.
  rewrite int_val_ok, bind_ret by lia. pose proof (update_avail _ _ _ _ Eu) as Av1.
  set (m1 := set_nodes (<[a := _]> _) _) in *.
  assert (Hd1 : dom (nodes m1) = dom (nodes (the_heap c))) by (by eapply dom_update).
  destruct l as [|b r].
  - rewrite Hc. eexists _, _. split; [done|]. split; [reflexivity|].
    split; cbn [the_pool the_heap held entering recycled_head recycled_tail size the_sync]; rewrite ?Hd1; try done.
    + split; [done|]. eexists. unfold m1. cbn [nodes set_nodes]. by rewrite lookup_insert_eq.
    + apply NoDup_singleton.
    + simpl. lia.
    + set_solver.
    + set_solver.
    + intros _. exists a. done.
  - destruct (chain_nonempty _ _ _ Hc ltac:(done)) as (? & ? & [= <- <-] & Eh). rewrite Eh in Hc |- *.
    destruct (Ht ltac:(done)) as (tl & Et & Htd & Hl2). rewrite Et.
    destruct (update_live m1 tl (set_to_tail (Some a))) as (nt & Hnt & Eu2); [by rewrite Hd1|]. rewrite Eu2, bind_ret.
    pose proof (update_avail _ _ _ _ Eu2) as Av2. set (m2 := set_nodes (<[tl := _]> _) _) in *.
    assert (Hd2 : dom (nodes m2) = dom (nodes (the_heap c))) by (rewrite <- Hd1; by eapply dom_update).
    eexists _, _. split; [done|]. split; [reflexivity|]. cbv zeta.
    assert (Hm1 : forall x, x <> a -> nodes m1 !! x = nodes (the_heap c) !! x).
    { intros x Hx. unfold m1. cbn [nodes set_nodes]. by apply lookup_insert_ne. }
    assert (Hm2 : forall x, x <> tl -> nodes m2 !! x = nodes m1 !! x).
    { intros x Hx. unfold m2. cbn [nodes set_nodes]. by apply lookup_insert_ne. }
    destruct (decide (Some tl = Some b)) as [[= ->]|Hne].
    + assert (Hba : b <> a) by (intros ->; apply Hal; left).
      split; cbn [the_pool the_heap held entering recycled_head recycled_tail size the_sync]; rewrite ?Hd2, ?Av2; try done.
      * split; [done|]. exists (set_to_tail (Some a) nt). split.
        { unfold m2. cbn [nodes set_nodes]. by rewrite lookup_insert_eq. }
        split; [done|]. exists (set_to_tail None n). rewrite Hm2 by done.
        unfold m1. cbn [nodes set_nodes]. by rewrite lookup_insert_eq.
      * apply NoDup_cons. split; [set_solver|apply NoDup_singleton].
      * intros x. specialize (Hf b ltac:(left)). set_solver.
      * set_solver.
      * intros _. exists b. done.
    + assert (Hrr : length (b :: r) = 2%nat -> False).
      { intros Hl. specialize (Hl2 Hl). simpl in Hl2. congruence. }
      assert (r = []) as -> by (destruct r as [|? []]; simpl in *; [done|by destruct Hrr|lia]).
      split; cbn [the_pool the_heap held entering recycled_head recycled_tail size the_sync]; rewrite ?Hd2, ?Av2; try done.
      * eapply chain_frame; [|exact Hc]. intros x ->%list_elem_of_singleton.
        rewrite Hm2, Hm1; [done|intros ->; apply Hal; left|congruence].
      * intros x Hx. specialize (Hf x Hx). set_solver.
      * set_solver.
      * intros _. exists tl. done.
Qed.
End steps.

(** A step from a state within the invariant stays within it. *)
Lemma inv_step P Q k c l o :
  Z.of_nat k < 2 ^ 31 -> ordered P Q -> pool_inv P Q k c l -> pool_step P Q c o ->
  exists c' l', o = Some c' /\ pool_inv P Q k c' l'.
Proof.
  intros Hk HO Hinv Hstep. destruct Hstep as [a m Ha|a f Ha|t a Ht Ha|t Ht Hnt|t Ht].
  - eexists _, l. split; [done|]. by eapply inv_new.
  - destruct (update_live (the_heap c) a f) as (n & Hn & Hu); [by apply (inv_held _ _ _ _ _ Hinv)|].
    rewrite Hu. eexists _, l. split; [done|]. by eapply inv_write.
  - destruct (inv_push P Q k c l t a Hk HO Hinv Ht Ha) as (s & p & m & -> & -> & Hi). eexists _, _. by split.
  - destruct (inv_pop_test P Q k c l t Hinv Ht) as (s & -> & Hi). eexists _, l. by split.
  - destruct (inv_pop_locked P Q k c l t Hk HO Hinv Ht) as (s & a & p & l' & -> & -> & _ & Hi). eexists _, l'. by split.
Qed.

Lemma inv_reachable P Q k g o :
  Z.of_nat k < 2 ^ 31 -> ordered P Q -> reachable P Q k g o ->
  exists c l, o = Some c /\ pool_inv P Q k c l.
Proof.
  intros Hk HO Hr. induction Hr as [|c o Hr IH Hs].
  - eexists _, []. split; [done|].
    split; cbn [the_pool the_heap held entering NodePool_new size nodes recycled_head the_sync sync_start
      unlocked_reads head_written sections avail]; try done; try set_solver; try lia.
    apply NoDup_nil_2.
  - destruct IH as (c' & l & [= ->] & Hi). by eapply inv_step.
Qed.

(** C9: the pool under any interleaving of threads that make nodes, write to
    those they hold, give them back ([push]) and take them ([pop], in its two
    steps), if nodes are taken only by the thread that gives them, or none are
    taken or none given; shrinking and destroying the pool is not among the
    steps.  No step reaches undefined behaviour, be it a data race or a pointer
    that dangles; the recycled nodes form a chain of distinct nodes that no
    client holds; and yet, since [push] does not move the last pointer, the
    chain never has more than two nodes, while the size counts every node that
    is in nobody's hands. *)
Theorem pool_invariant takers givers k g o :
  Z.of_nat k < 2 ^ 31 -> ordered takers givers -> reachable takers givers k g o ->
  exists c l, o = Some c /\ chain (the_heap c) (recycled_head (the_pool c)) l /\ NoDup l /\
    (length l <= 2)%nat /\ (forall a, a ∈ l -> a ∉ held c) /\
    size (the_pool c) = Z.of_nat (base.size (dom (nodes (the_heap c)) ∖ held c)).
Proof.
  intros Hk HO Hr. destruct (inv_reachable takers givers k g o Hk HO Hr) as (c & l & -> & Hi).
  exists c, l. split; [done|]. destruct Hi. done.
Qed.

Lemma first_node k g :
  new_Node (mkHeap ∅ (S k) g) =
    Ret (fresh (∅ : gset positive), mkHeap {[fresh (∅ : gset positive) := mkNode None (g (fresh (∅ : gset positive)))]} k g).
Proof. reflexivity. Qed.

(** A thread gives the first node; another one has not synchronised with it
    when it looks whether there is one. *)
Lemma race P Q k g t u :
  t ∈ P -> u ∈ Q -> t <> u -> reachable P Q (S k) g None.
Proof.
  intros Ht Hu Hne. set (a := fresh (∅ : gset positive)).
  set (n := mkNode None (g a)). set (m := mkHeap {[a := n]} k g).
  assert (R1 : reachable P Q (S k) g (Some (mkConf NodePool_new m ({[a]} ∪ ∅) ∅ sync_start))).
  { eapply reach_step; [apply reach_start|]. apply (step_new P Q (mkConf NodePool_new (mkHeap ∅ (S k) g) ∅ ∅ sync_start) a m).
    apply first_node. }
  pose proof (step_push P Q (mkConf NodePool_new m ({[a]} ∪ ∅) ∅ sync_start) u a Hu ltac:(set_solver)) as Hp.
  cbn [the_heap the_pool held entering the_sync] in Hp. unfold section in Hp.
  cbn [sync_start unlocked_reads sections seen head_written NodePool_new pop_empty recycled_head] in Hp.
  rewrite bool_decide_eq_true_2 in Hp by set_solver. cbn [negb andb mbind option_bind] in Hp.
  unfold push, update, m in Hp. cbn [nodes recycled_head NodePool_new size] in Hp.
  rewrite lookup_singleton_eq, bind_ret in Hp. change (int_val (0 + 1)) with (Ret 1) in Hp.
  rewrite bind_ret in Hp. cbn [after_step] in Hp.
  eapply reach_step; [eapply reach_step; [exact R1|exact Hp]|].
  match goal with |- pool_step _ _ ?c _ => pose proof (step_pop_test P Q c t Ht) as Hr end.
  cbn [the_sync entering] in Hr. specialize (Hr ltac:(set_solver)).
  unfold read_unlocked in Hr. cbn [head_written seen] in Hr.
  rewrite decide_False in Hr; [exact Hr|]. rewrite lookup_insert_ne by done. rewrite lookup_empty. simpl. lia.
Qed.

(** C36: undefined behaviour of the pool is reachable exactly when some thread
    takes nodes and another one gives them, even if no two of them ever do so
    at once: [pop] looks at the list before it locks the mutex, so that what it
    reads races with the locked write of [push].  (The threads are ordered by
    this mutex only; shrinking and destroying the pool is not among the steps.) *)
Theorem pool_safe_iff takers givers k g : Z.of_nat (S k) < 2 ^ 31 ->
  (forall o, reachable takers givers (S k) g o -> o <> None) <-> ordered takers givers.
Proof.
  intros Hk. split.
  - intros Hs t u Ht Hu. destruct (decide (t = u)) as [|Hne]; [done|].
    by destruct (Hs _ (race takers givers k g t u Ht Hu Hne)).
  - intros HO o Hr ->. by destruct (inv_reachable takers givers (S k) g None Hk HO Hr) as (c & l & ? & _).
Qed.

(** ** Shrinking *)

Lemma walk_chain m l : forall j p,
  chain m p l -> walk j m p = if (j <=? length l)%nat then Ret (l !! j) else Fault.
Proof.
  induction l as [|a r IH]; intros [|j] p Hc; cbn [walk length].
  - simpl in Hc. by subst.
  - simpl in Hc. by subst.
  - destruct Hc as (-> & _). done.
  - destruct Hc as (-> & n & Hn & Hr). simpl. rewrite Hn. cbn [mbind outcome_bind]. by apply IH.
Qed.

Lemma chain_drop m l : forall j p, chain m p l -> (j <= length l)%nat -> chain m (l !! j) (drop j l).
Proof.
  induction l as [|a r IH]; intros [|j] p Hc Hj; cbn [length] in Hj; try lia; try done.
  - simpl in Hc. destruct Hc as (-> & Hr). simpl. by split.
  - destruct Hc as (_ & n & _ & Hr). simpl. eapply IH; [done|lia].
Qed.

(** Cutting a chain behind its element [j]. *)
Lemma chain_cut m l : forall j p a n,
  chain m p l -> NoDup l -> l !! j = Some a -> nodes m !! a = Some n ->
  chain (set_nodes (<[a := set_to_tail None n]> (nodes m)) m) p (take (S j) l).
Proof.
  induction l as [|b r IH]; intros j p a n Hc Hnd Hj Hn; [done|].
  destruct Hc as (-> & nb & Hb & Hr). apply NoDup_cons in Hnd as [Hbr Hnd].
  destruct j as [|j]; cbn [lookup list_lookup] in Hj.
  - injection Hj as ->. split; [done|]. eexists. cbn [nodes set_nodes].
    rewrite lookup_insert_eq. split; [reflexivity|]. by rewrite take_0.
  - assert (Hba : a <> b) by (intros ->; by apply Hbr, (list_elem_of_lookup_2 _ j)).
    split; [done|]. exists nb. cbn [nodes set_nodes]. rewrite lookup_insert_ne by done.
    split; [done|]. by apply IH.
Qed.

Lemma delete_loop_frees l : forall fuel m p,
  chain m p l -> NoDup l -> (length l <= fuel)%nat ->
  exists m', delete_loop fuel m p = Ret m' /\
    (forall a, nodes m' !! a = if decide (a ∈ l) then None else nodes m !! a).
Proof.
  induction l as [|b r IH]; intros fuel m p Hc Hnd Hf.
  - simpl in Hc. subst. exists m. split; [by destruct fuel|]. intros a.
    by destruct (decide (a ∈ [])) as [Ha%elem_of_nil|].
  - destruct Hc as (-> & n & Hb & Hr). apply NoDup_cons in Hnd as [Hbr Hnd].
    destruct fuel as [|f]; cbn [length] in Hf; [lia|]. cbn [delete_loop].
    unfold load, delete_Node. rewrite Hb. cbn [mbind outcome_bind].
    set (m1 := mkHeap _ _ _). assert (Hm1 : forall a, a <> b -> nodes m1 !! a = nodes m !! a).
    { intros a Ha. unfold m1. cbn [nodes]. by apply lookup_delete_ne. }
    destruct (IH f m1 (to_tail n)) as (m' & Hd & Hl); [|done|lia|].
    { eapply chain_frame; [|exact Hr]. intros a Ha. apply Hm1. by intros ->. }
    exists m'. split; [exact Hd|]. intros a. rewrite Hl.
    destruct (decide (a ∈ r)) as [Ha|Ha], (decide (a ∈ b :: r)) as [Ha'|Ha']; try done.
    + destruct Ha'. by right.
    + apply elem_of_cons in Ha' as [->|]; [|done]. unfold m1. cbn [nodes]. apply lookup_delete_eq.
    + apply Hm1. intros ->. apply Ha'. left.
Qed.

Lemma chain_length m p l : chain m p l -> NoDup l -> (length l <= base.size (nodes m))%nat.
Proof.
  intros Hc Hnd. rewrite <- size_dom, <- (size_list_to_set (C := gset positive) l) by done.
  apply subseteq_size. intros a Ha%elem_of_list_to_set. by eapply chain_live.
Qed.

(** C37: shrinking a pool whose chain is [l] to [n] nodes: nothing happens
    unless the recorded size exceeds [n]; otherwise, when the chain has [n]
    nodes, its first [n] stay, the others are freed and no other node is
    touched, and when it is shorter, which the recorded size does not tell, the
    loop runs off the end of the chain into undefined behaviour.  Destroying the
    pool terminates and frees exactly the chain. *)
Theorem resize_result n p m l :
  chain m (recycled_head p) l -> NoDup l -> 1 <= n -> 0 <= size p < 2 ^ 31 -> n < 2 ^ 31 ->
  (if size p <=? n then resize n p m = Ret (0, p, m)
   else if Z.of_nat (length l) <? n then resize n p m = Fault
   else exists m', let k := Z.to_nat n in
     resize n p m = Ret (size p - n, mkPool n (recycled_head p) (l !! (k - 1)%nat), m') /\
     chain m' (recycled_head p) (take k l) /\
     (forall a, a ∉ take k l -> nodes m' !! a = if decide (a ∈ l) then None else nodes m !! a)) /\
  exists m', NodePool_delete p m = Ret m' /\
    (forall a, nodes m' !! a = if decide (a ∈ l) then None else nodes m !! a).
Proof.
  intros Hc Hnd Hn Hs Hi. split.
  2: { unfold NodePool_delete. apply delete_loop_frees; [done..|].
       pose proof (chain_length _ _ _ Hc Hnd). lia. }
  unfold resize. rewrite int_val_ok by lia. cbn [mbind outcome_bind].
  destruct (Z.leb_spec (size p) n), (Z.leb_spec (size p - n) 0); try lia; [done|].
  rewrite (walk_chain _ l) by done.
  destruct (Z.ltb_spec (Z.of_nat (length l)) n) as [Hlt|Hge].
  { destruct (Nat.leb_spec (Z.to_nat (n - 1)) (length l)); [|done]. cbn [mbind outcome_bind].
    rewrite (lookup_ge_None_2 l) by lia. done. }
  destruct (Nat.leb_spec (Z.to_nat (n - 1)) (length l)); [|lia]. cbn [mbind outcome_bind].
  replace (Z.to_nat (n - 1)) with (Z.to_nat n - 1)%nat by lia. set (k := Z.to_nat n) in *.
  assert (Hk : (1 <= k <= length l)%nat) by lia.
  destruct (lookup_lt_is_Some_2 l (k - 1)) as [a Ha]; [lia|]. rewrite Ha.
  pose proof (chain_drop _ _ (k - 1) _ Hc ltac:(lia)) as Hd.
  rewrite (drop_S _ _ _ Ha), Ha in Hd. destruct Hd as (_ & nd & Hna & Hrest).
  replace (S (k - 1)) with k in Hrest by lia.
  unfold load at 1, update. rewrite Hna. cbn [mbind outcome_bind].
  set (m1 := set_nodes _ m).
  assert (Hm1 : forall x, x <> a -> nodes m1 !! x = nodes m !! x).
  { intros x Hx. unfold m1. cbn [nodes set_nodes]. by apply lookup_insert_ne. }
  assert (Had : a ∉ drop k l).
  { intros Hin. rewrite <- (take_drop k l) in Hnd. apply NoDup_app in Hnd as (_ & Hdis & _).
    apply (Hdis a); [|done]. apply list_elem_of_lookup_2 with (k - 1)%nat.
    by rewrite lookup_take_lt by lia. }
  assert (Hr1 : chain m1 (to_tail nd) (drop k l)).
  { eapply chain_frame; [|exact Hrest]. intros x Hx. apply Hm1. by intros ->. }
  assert (Hndd : NoDup (drop k l)) by (rewrite <- (take_drop k l) in Hnd; by apply NoDup_app in Hnd as (_ & _ & ?)).
  destruct (delete_loop_frees (drop k l) (S (base.size (nodes m1))) m1 (to_tail nd) Hr1 Hndd)
    as (m' & -> & Hm').
  { pose proof (chain_length _ _ _ Hr1 Hndd). lia. }
  exists m'. cbv zeta. split; [done|]. split.
  - eapply chain_frame; [|pose proof (chain_cut m l (k - 1) _ a nd Hc Hnd Ha Hna) as Hcut;
      replace (S (k - 1)) with k in Hcut by lia; exact Hcut].
    intros x Hx. rewrite Hm'. destruct (decide (x ∈ drop k l)) as [Hin|]; [|done].
    rewrite <- (take_drop k l) in Hnd. apply NoDup_app in Hnd as (_ & Hdis & _).
    by destruct (Hdis x Hx).
  - intros x Hx. rewrite Hm'. assert (x ∈ l <-> x ∈ drop k l).
    { rewrite <- (take_drop k l) at 1. rewrite elem_of_app. tauto. }
    destruct (decide (x ∈ l)), (decide (x ∈ drop k l)); try tauto.
    apply Hm1. intros ->. apply Hx. apply list_elem_of_lookup_2 with (k - 1)%nat.
    by rewrite lookup_take_lt by lia.
Qed.

(** One thread makes a node, gives it and takes it again. *)
Lemma give_and_take :
  exists c, reachable {[0%nat]} {[0%nat]} 3 (fun _ => []) (Some c) /\
    recycled_head (the_pool c) = None /\ held c = {[1%positive]} /\ sections (the_sync c) = 2%nat.
Proof.
  set (R := reachable {[0%nat]} {[0%nat]} 3 (fun _ => [])).
  assert (R0 : R (Some (mkConf NodePool_new (mkHeap ∅ 3 (fun _ => [])) ∅ ∅ sync_start))) by apply reach_start.
  assert (In : (0%nat ∈ ({[0%nat]} : gset nat))) by by apply elem_of_singleton.
  eassert (R1 : R (Some _)).
  { refine (reach_step _ _ _ _ _ _ R0 _). apply step_new. vm_compute. reflexivity. }
  vm_compute in R1.
  eassert (R2 : R (Some _)).
  { refine (reach_step _ _ _ _ _ _ R1 _).
    match goal with |- pool_step _ _ ?c _ => refine (eq_rect _ (pool_step _ _ c) (step_push _ _ c 0%nat 1%positive In _) _ _) end;
      [vm_compute; done|vm_compute; reflexivity]. }
  eassert (R3 : R (Some _)).
  { refine (reach_step _ _ _ _ _ _ R2 _).
    match goal with |- pool_step _ _ ?c _ => refine (eq_rect _ (pool_step _ _ c) (step_pop_test _ _ c 0%nat In _) _ _) end;
      [vm_compute; discriminate|vm_compute; reflexivity]. }
  eassert (R4 : R (Some _)).
  { refine (reach_step _ _ _ _ _ _ R3 _).
    match goal with |- pool_step _ _ ?c _ => refine (eq_rect _ (pool_step _ _ c) (step_pop_locked _ _ c 0%nat _) _ _) end;
      [vm_compute; done|vm_compute; reflexivity]. }
  eexists. split; [exact R4|]. split_and!; by vm_compute.
Qed.

Lemma one_thread : ordered {[0%nat]} {[0%nat]}.
Proof. intros t u Ht%elem_of_singleton Hu%elem_of_singleton. congruence. Qed.

Lemma pool_invariant_witness :
  exists c l, reachable {[0%nat]} {[0%nat]} 3 (fun _ => []) (Some c) /\
    recycled_head (the_pool c) = None /\ held c = {[1%positive]} /\
    chain (the_heap c) (recycled_head (the_pool c)) l /\ NoDup l /\
    (length l <= 2)%nat /\ (forall a, a ∈ l -> a ∉ held c) /\
    size (the_pool c) = Z.of_nat (base.size (dom (nodes (the_heap c)) ∖ held c)).
Proof.
  destruct give_and_take as (c & R & Hh & Hd & _).
  destruct (pool_invariant {[0%nat]} {[0%nat]} 3 (fun _ => []) (Some c) ltac:(lia) one_thread R) as (c' & l & E & H).
  injection E as <-. exists c, l. split; [exact R|]. split; [exact Hh|]. split; [exact Hd|exact H].
Defined.

(** One thread is safe; a second one that takes what it gives is not. *)
Lemma pool_safe_iff_witness :
  (forall o, reachable {[0%nat]} {[0%nat]} 3 (fun _ => []) o -> o <> None) /\
  ~ (forall o, reachable {[1%nat]} {[0%nat]} 3 (fun _ => []) o -> o <> None).
Proof.
  split.
  - apply (pool_safe_iff {[0%nat]} {[0%nat]} 2 (fun _ => [])); [lia|exact one_thread].
  - intros H. apply (pool_safe_iff {[1%nat]} {[0%nat]} 2 (fun _ => []) ltac:(lia)) in H.
    discriminate (H 1%nat 0%nat ltac:(by apply elem_of_singleton) ltac:(by apply elem_of_singleton)).
Defined.

Lemma resize_result_witness :
  let m := mkHeap {[1%positive := mkNode (Some 2%positive) []; 2%positive := mkNode None []]} 0 (fun _ => []) in
  let p := mkPool 4 (Some 1%positive) (Some 1%positive) in
  resize 3 p m = Fault /\ exists m', NodePool_delete p m = Ret m' /\
    (forall a, nodes m' !! a = if decide (a ∈ [1%positive; 2%positive]) then None else nodes m !! a).
Proof.
  intros m p. apply (resize_result 3 p m [1%positive; 2%positive]).
  - split; [done|]. eexists. split; [reflexivity|]. split; [done|]. eexists. split; reflexivity.
  - apply (bool_decide_unpack _). vm_compute. exact I.
  - lia.
  - simpl. lia.
  - lia.
Defined.
End NodeBase.
