(* ===== verification/FileRcvStream.v ===== *)
(** * The file receive stream (src/ALTUS/fileReceiveStream.h, fileReceiveStream.cpp)

    The successor of the windowed queue: received bytes are collected in nodes
    of the shared pool and written to a temporary file node by node; blocks that
    arrive out of sequence are remembered in a vector of at most [capacity]
    pairs.  The file is a parameter: a type of contents and what [WriteFile]
    does to it. *)

From S2P Require Import Prelude UBList NodePool.
Import NodeBase.

Definition ALTUS_DEFAULT_MAX_NODE_COUNT : Z := 16384.

(** [class FileRcvStream], without the paths and the handle of the file. *)
Record FileRcvStream := mkFrs {
  head : ptr;
  tail : ptr;
  nodeCount : Z;
  max_nodeCount : Z;
  headSeq : Z;
  headByteCount : Z;
  ub_list : list (Z * Z);
  capacity : nat;
  lastSeq : Z;
  unSeqLen : Z
}.

(** What the methods read and write: the object, the pool, the heap, the file. *)
Record sys (F : Type) := mkSys { frs : FileRcvStream; pool : NodePool; mem : heap; file : F }.
Arguments mkSys {F} _ _ _ _.
Arguments frs {F} _.
Arguments pool {F} _.
Arguments mem {F} _.
Arguments file {F} _.

(** [seq + length - headSeq >= ALTUS_DEFAULT_MAX_NODE_COUNT * ALTUS_NODE_SIZE] *)
Definition beyond_window (hseq seq length : Z) : bool :=
  ALTUS_DEFAULT_MAX_NODE_COUNT * ALTUS_NODE_SIZE <=? u32 (u32 (seq + length) - hseq).

(** The loop of [FileRcvStream::CheckUB] from the iterator on, and what follows
    it; [room] is [ub_list.capacity() > ub_list.size()]. *)
Fixpoint CheckUB_loop (room : bool) (hseq : Z) (l : list (Z * Z)) (seq length : Z)
  : UBM * list (Z * Z) :=
  let e := u32 (seq + length) in
  match l with
  | [] =>
      if room then
        if beyond_window hseq seq length then (FULL, []) else (ADDED, [(seq, e)])
      else (FULL, [])
  | (currentHS, currentTS) :: r =>
      if 0 <? s32 (currentHS - seq) then
        if 0 <? s32 (currentHS - e) then
          if room then (ADDED, (seq, e) :: l) else (FULL, l)
        else if e =? currentHS then (EXTENDED, (seq, currentTS) :: r)
        else (MALICIOUS, l)
      else if 0 <? s32 (currentTS - seq) then
        if 0 <=? s32 (currentTS - e) then (OVERLAP, l) else (MALICIOUS, l)
      else if seq =? currentTS then
        let extended :=
          if beyond_window hseq seq length then (FULL, l)
          else (EXTENDED, (currentHS, e) :: r) in
        match r with
        | [] => extended
        | (jfirst, jsecond) :: r' =>
            if 0 <? u32 (jfirst - e) then extended
            else if jfirst =? e then (EXTENDED, (currentHS, jsecond) :: r')
            else (MALICIOUS, l)
        end
      else
        let '(message, r') := CheckUB_loop room hseq r seq length in
        (message, (currentHS, currentTS) :: r')
  end.

Definition CheckUB (s : FileRcvStream) (seq len : Z) : UBM * list (Z * Z) :=
  let l := ub_list s in
  if seq =? lastSeq s then
    match l with
    | [] => (ONSEQ, l)
    | (first, _) :: _ =>
        if 0 <? s32 (first - u32 (seq + len)) then (ONSEQ, l)
        else if first =? u32 (seq + len) then (MERGING, l)
        else (MALICIOUS, l)
    end
  else CheckUB_loop (length l <? capacity s)%nat (headSeq s) l seq len.

Definition set_ub_list (l : list (Z * Z)) (s : FileRcvStream) : FileRcvStream :=
  mkFrs (head s) (tail s) (nodeCount s) (max_nodeCount s) (headSeq s) (headByteCount s) l
    (capacity s) (lastSeq s) (unSeqLen s).
Definition set_unSeqLen (z : Z) (s : FileRcvStream) : FileRcvStream :=
  mkFrs (head s) (tail s) (nodeCount s) (max_nodeCount s) (headSeq s) (headByteCount s) (ub_list s)
    (capacity s) (lastSeq s) z.
Definition set_lastSeq (z : Z) (s : FileRcvStream) : FileRcvStream :=
  mkFrs (head s) (tail s) (nodeCount s) (max_nodeCount s) (headSeq s) (headByteCount s) (ub_list s)
    (capacity s) z (unSeqLen s).
Definition set_headByteCount (z : Z) (s : FileRcvStream) : FileRcvStream :=
  mkFrs (head s) (tail s) (nodeCount s) (max_nodeCount s) (headSeq s) z (ub_list s)
    (capacity s) (lastSeq s) (unSeqLen s).
Definition set_headSeq (z : Z) (s : FileRcvStream) : FileRcvStream :=
  mkFrs (head s) (tail s) (nodeCount s) (max_nodeCount s) z (headByteCount s) (ub_list s)
    (capacity s) (lastSeq s) (unSeqLen s).
Definition set_head (p : ptr) (s : FileRcvStream) : FileRcvStream :=
  mkFrs p (tail s) (nodeCount s) (max_nodeCount s) (headSeq s) (headByteCount s) (ub_list s)
    (capacity s) (lastSeq s) (unSeqLen s).
Definition set_nodeCount (z : Z) (s : FileRcvStream) : FileRcvStream :=
  mkFrs (head s) (tail s) z (max_nodeCount s) (headSeq s) (headByteCount s) (ub_list s)
    (capacity s) (lastSeq s) (unSeqLen s).

(** [memcpy(p->data + off, data + from, n)] *)
Definition copy_in (m : heap) (p : ptr) (off : Z) (data : list Z) (from n : Z) : outcome heap :=
  src ← mem_read data from n;
  node ← load m p;
  d ← mem_write (NodeBase.data node) off src;
  update m p (NodeBase.set_data d).

Section stream.
Context {F : Type} (WriteFile : F -> list Z -> F * Z).

Definition on_frs (f : FileRcvStream -> FileRcvStream) (st : sys F) : sys F :=
  mkSys (f (frs st)) (pool st) (mem st) (file st).
Definition set_mem (m : heap) (st : sys F) : sys F := mkSys (frs st) (pool st) m (file st).

(** The macro [NewNode()]: the link of [tail] is set, [tail] is not moved. *)
Definition NewNode (st : sys F) : outcome (sys F) :=
  '(a, p) ← NodeBase.pop (pool st) (mem st);
  m ← update (mem st) (tail (frs st)) (NodeBase.set_to_tail a);
  m ← match a with
      | Some _ => Ret m
      | None =>
          '(b, m) ← new_Node m;
          update m (tail (frs st)) (NodeBase.set_to_tail (Some b))
      end;
  c ← int_val (nodeCount (frs st) + 1);
  Ret (mkSys (set_nodeCount c (frs st)) p m (file st)).

(** [FileRcvStream::FlushNode] *)
Definition FlushNode (st : sys F) : outcome (sys F) :=
  let s := frs st in
  n ← load (mem st) (head s);
  let '(f, wrtLen) := WriteFile (file st) (NodeBase.data n) in
  if negb (wrtLen =? ALTUS_NODE_SIZE) then Throw
  else if bool_decide (head s = tail s) then
    Ret (mkSys (set_headByteCount 0 (set_headSeq (u32 (headSeq s + ALTUS_NODE_SIZE)) s))
           (pool st) (mem st) f)
  else
    let oldHead := head s in
    c ← int_val (nodeCount s - 1);
    '(p, m) ← NodeBase.push oldHead (pool st) (mem st);
    Ret (mkSys (set_headSeq (u32 (headSeq s + ALTUS_NODE_SIZE))
                  (set_nodeCount c (set_head (to_tail n) s))) p m f).

(** [FileRcvStream::PutUnSeq]: the walk to the node of the block; [i] is not
    negative when the loop turns, so that [i] is fuel enough. *)
Fixpoint PutUnSeq_walk (fuel : nat) (i : Z) (targetNode : ptr) (st : sys F)
  : outcome (Z * ptr * sys F) :=
  if ALTUS_NODE_SIZE <=? i then
    match fuel with
    | O => NoFuel
    | S k =>
        n ← load (mem st) targetNode;
        st ← match to_tail n with None => NewNode st | Some _ => Ret st end;
        n ← load (mem st) targetNode;
        PutUnSeq_walk k (i - ALTUS_NODE_SIZE) (to_tail n) st
    end
  else Ret (i, targetNode, st).

Definition PutUnSeq (seq length : Z) (data : list Z) (st : sys F) : outcome (sys F) :=
  let i := s32 (seq - headSeq (frs st)) in
  '(i, targetNode, st) ← PutUnSeq_walk (Z.to_nat i) i (head (frs st)) st;
  let writableLen := u32 (ALTUS_NODE_SIZE - i) in
  if length <=? writableLen then
    m ← copy_in (mem st) targetNode i data 0 length;
    Ret (set_mem m st)
  else
    m ← copy_in (mem st) targetNode i data 0 writableLen;
    n ← load m targetNode;
    st ← match to_tail n with None => NewNode (set_mem m st) | Some _ => Ret (set_mem m st) end;
    n ← load (mem st) targetNode;
    m ← copy_in (mem st) (to_tail n) 0 data writableLen (length - writableLen);
    Ret (set_mem m st).

(** [for (; mergeLength < ALTUS_NODE_SIZE; mergeLength -= ALTUS_NODE_SIZE)] *)
Fixpoint merge_flush (fuel : nat) (mergeLength : Z) (st : sys F) : outcome (sys F) :=
  if mergeLength <? ALTUS_NODE_SIZE then
    match fuel with
    | O => NoFuel
    | S k =>
        st ← FlushNode st;
        mergeLength ← int_val (mergeLength - ALTUS_NODE_SIZE);
        merge_flush k mergeLength st
    end
  else Ret st.

(** The case [ONSEQ] of [Append]. *)
Definition append_onseq (length : Z) (data : list Z) (st : sys F) : outcome (Z * sys F) :=
  let s := frs st in
  let writableLen := u32 (ALTUS_NODE_SIZE - headByteCount s) in
  if length <=? writableLen then
    m ← copy_in (mem st) (head s) (headByteCount s) data 0 length;
    Ret (0, mkSys (set_headByteCount (u16 (headByteCount s + length))
                     (set_lastSeq (u32 (lastSeq s + length)) s)) (pool st) m (file st))
  else
    m ← copy_in (mem st) (head s) (headByteCount s) data 0 writableLen;
    st ← (if bool_decide (head s = tail s) then NewNode (set_mem m st) else Ret (set_mem m st));
    n ← load (mem st) (head s);
    m ← copy_in (mem st) (to_tail n) 0 data writableLen (length - writableLen);
    let count := u16 (u32 (u32 (headByteCount s + length) - ALTUS_NODE_SIZE)) in
    st ← FlushNode (set_mem m (on_frs (set_headByteCount count) st));
    Ret (0, st).

(** The case [MERGING]; [fuel] bounds its loop. *)
Definition append_merging (fuel : nat) (length : Z) (data : list Z) (st : sys F)
  : outcome (Z * sys F) :=
  let s := frs st in
  match ub_list s with
  | [] => Fault
  | (first, second) :: _ =>
      let mergeLength := s32 (u32 (u32 (length + second) - first)) in
      let writableLen := u32 (ALTUS_NODE_SIZE - headByteCount s) in
      m ← (if length <=? writableLen then
             copy_in (mem st) (head s) (headByteCount s) data 0 length
           else
             m ← copy_in (mem st) (head s) (headByteCount s) data 0 writableLen;
             n ← load m (head s);
             copy_in m (to_tail n) 0 data writableLen (length - writableLen));
      sum ← int_val (headByteCount s + mergeLength);
      let s := set_headByteCount (u16 (Z.rem sum ALTUS_NODE_SIZE)) s in
      let s := set_lastSeq (u32 (lastSeq s + mergeLength)) s in
      st ← merge_flush fuel mergeLength (mkSys s (pool st) m (file st));
      Ret (0, st)
  end.

(** [FileRcvStream::Append] *)
Definition Append (fuel : nat) (seq length : Z) (data : list Z) (st : sys F)
  : outcome (Z * sys F) :=
  if 0 <? s32 (lastSeq (frs st) - seq) then Ret (-1, st)
  else
    let '(message, l) := CheckUB (frs st) seq length in
    let unSeqLen := match l with [] => 0 | (first, _) :: _ => u32 (first - lastSeq (frs st)) end in
    let st := on_frs (fun s => set_unSeqLen unSeqLen (set_ub_list l s)) st in
    match message with
    | FULL => Ret (-2, st)
    | MALICIOUS => Throw
    | OVERLAP => Ret (-1, st)
    | EXTENDED | ADDED => st ← PutUnSeq seq length data st; Ret (1, st)
    | ONSEQ => append_onseq length data st
    | MERGING => append_merging fuel length data st
    end.

(** [FileRcvStream::FileRcvStream]: [cap] is the capacity of the vector after
    [reserve(8)], [opened] whether the temporary file could be created. *)
Definition FileRcvStream_new (cap : nat) (opened : bool) (p : NodePool) (m : heap) (f : F)
  : outcome (sys F) :=
  '(a, p) ← NodeBase.pop p m;
  '(a, m) ← match a with
            | Some b => Ret (b, m)
            | None => new_Node m
            end;
  if negb opened then Throw
  else Ret (mkSys (mkFrs (Some a) (Some a) 0 ALTUS_DEFAULT_MAX_NODE_COUNT 0 0 [] cap 0 0) p m f).

(** [FileRcvStream::Finalize] *)
Definition Finalize (st : sys F) : outcome (sys F) :=
  n ← load (mem st) (head (frs st));
  match to_tail n with
  | Some _ => Throw
  | None =>
      bytes ← mem_read (NodeBase.data n) 0 (headByteCount (frs st));
      let '(f, wrtLen) := WriteFile (file st) bytes in
      if negb (wrtLen =? headByteCount (frs st)) then Throw
      else Ret (mkSys (frs st) (pool st) (mem st) f)
  end.

(** [FileRcvStream::~FileRcvStream]: the nodes go back to the pool; the number
    of live nodes bounds the turns along a chain. *)
Fixpoint push_all (fuel : nat) (currentNode : ptr) (p : NodePool) (m : heap)
  : outcome (NodePool * heap) :=
  match currentNode with
  | None => Ret (p, m)
  | Some _ =>
      match fuel with
      | O => NoFuel
      | S k =>
          n ← load m currentNode;
          '(p, m) ← NodeBase.push currentNode p m;
          push_all k (to_tail n) p m
      end
  end.

Definition FileRcvStream_delete (st : sys F) : outcome (NodePool * heap) :=
  push_all (S (base.size (nodes (mem st)))) (head (frs st)) (pool st) (mem st).
End stream.

(** ** The list of unsequenced blocks

    The blocks are intervals of absolute sequence numbers; the vector holds
    their ends modulo 2^32. *)

Definition wrap (l : list (Z * Z)) : list (Z * Z) := map (fun p => (u32 p.1, u32 p.2)) l.

(** What a packet [s, e) does to the blocks [l] between [lo] and [hi]. *)
Definition check_post (room full : bool) (lo hi : Z) (l : list (Z * Z)) (s e : Z)
  (c : UBM) (l' : list (Z * Z)) : Prop :=
  match c with
  | ADDED => ~ overlaps l s e /\ ~ touches l s e /\ room = true /\ length l' = S (length l) /\
      blocks_ok lo hi l' /\ (forall x, covered l' x <-> covered l x \/ s <= x < e)
  | EXTENDED => touches l s e /\ (length l' <= length l)%nat /\
      (forall x, covered l' x <-> covered l x \/ s <= x < e) /\
      (blocks_ok lo hi l' <-> ~ overlaps l s e)
  | OVERLAP => l' = l /\ exists h t, (h, t) ∈ l /\ h <= s /\ e <= t
  | MALICIOUS => l' = l /\ overlaps l s e
  | FULL => l' = l /\ (room = false \/ full = true)
  | ONSEQ | MERGING => False
  end.

Lemma check_post_cons room full lo hi h t r s e c r' :
  lo <= h -> h < t -> t <= hi -> t < s -> s < e -> blocks_ok (t + 1) hi r ->
  check_post room full (t + 1) hi r s e c r' ->
  check_post room full lo hi ((h, t) :: r) s e c ((h, t) :: r').
Proof.
  intros Hlo Hht Hhi Hs He Hr. pose proof (overlaps_cons h t r s e Hht He) as Ho.
  pose proof (touches_cons h t r s e) as Ht.
  assert (Hcov : (forall x, covered r' x <-> covered r x \/ s <= x < e) ->
    forall x, covered ((h, t) :: r') x <-> covered ((h, t) :: r) x \/ s <= x < e).
  { intros H x. rewrite !covered_cons, H. tauto. }
  destruct c; cbn [check_post]; try done.
  - intros [-> H]. done.
  - intros [-> H]. split; [done|]. apply Ho. by right.
  - intros (-> & h' & t' & Hin & H). split; [done|]. exists h', t'. split; [by right|done].
  - intros (Htt & Hl & Hc & Hok). split_and!; [apply Ht; tauto|simpl; lia|by apply Hcov|].
    cbn [blocks_ok]. rewrite Hok, Ho. intuition lia.
  - intros (Hov & Htt & Hroom & Hl & Hok & Hc).
    assert (h <> e) by lia.
    split_and!; [rewrite Ho; intuition lia|rewrite Ht; intuition lia|done|simpl; lia| |by apply Hcov].
    cbn [blocks_ok]. intuition lia.
Qed.

Lemma wrap_cons h t r : wrap ((h, t) :: r) = (u32 h, u32 t) :: wrap r.
Proof. done. Qed.

Lemma CheckUB_loop_spec room hseq hi l : forall lo s e,
  blocks_ok lo hi l -> lo <= s -> s < e -> e <= hi -> hi - lo < 2 ^ 31 -> 0 <= e - hseq < 2 ^ 32 ->
  exists c l', CheckUB_loop room (u32 hseq) (wrap l) (u32 s) (e - s) = (c, wrap l') /\
    check_post room (ALTUS_DEFAULT_MAX_NODE_COUNT * ALTUS_NODE_SIZE <=? e - hseq) lo hi l s e c l'.
Proof.
  induction l as [|[h t] r IH]; intros lo s e Hok Hs He Hhi Hw Hq;
    assert (Ee : u32 (u32 s + (e - s)) = u32 e) by (rewrite u32_add_l; f_equal; lia);
    assert (Ef : beyond_window (u32 hseq) (u32 s) (e - s) =
      (ALTUS_DEFAULT_MAX_NODE_COUNT * ALTUS_NODE_SIZE <=? e - hseq))
      by (unfold beyond_window; by rewrite Ee, u32_diff by lia);
    set (full := _ <=? e - hseq) in *.

  - exists (if room then if full then FULL else ADDED else FULL),
      (if room then if full then [] else [(s, e)] else []).
    cbn [wrap map CheckUB_loop]. rewrite Ef, Ee.
    destruct room; [|by split; [|split; [|left]]]. destruct full; [by split; [|split; [|right]]|].
    split; [done|]. cbn [check_post blocks_ok length].
    split_and!; try done; try lia.
    + by intros (x & Hx%covered_nil & _).
    + intros (? & ? & Hx & _). by inversion Hx.
    + intros x. rewrite covered_cons. pose proof (covered_nil x). tauto.
  - destruct Hok as (Hh & Hht & Ht & Hr). rewrite wrap_cons. cbn [CheckUB_loop]. rewrite Ee, Ef.
    rewrite !s32_diff by lia.
    pose proof (overlaps_cons h t r s e Hht He) as Ho. pose proof (touches_cons h t r s e) as Htc.
    pose proof (overlaps_bounds _ _ _ s e Hr) as Hob. pose proof (touches_bounds _ _ _ s e Hr He) as Htb.
    destruct (Z.ltb_spec 0 (h - s)).
    { destruct (Z.ltb_spec 0 (h - e)).
      - destruct room.
        + eexists ADDED, ((s, e) :: (h, t) :: r). split; [done|]. cbn [check_post blocks_ok length].
          split_and!; try done; try lia; [rewrite Ho; intuition lia|rewrite Htc; intuition lia|].
          intros x. rewrite covered_cons. tauto.
        + eexists FULL, ((h, t) :: r). split; [done|]. by split; [|left].
      - rewrite u32_eqb by lia. destruct (Z.eqb_spec e h) as [->|].
        + eexists EXTENDED, ((s, t) :: r). split; [done|]. cbn [check_post blocks_ok length].
          split_and!; [rewrite Htc; tauto|lia| |rewrite Ho; intuition lia].
          intros x. rewrite !covered_cons. intuition lia.
        + eexists MALICIOUS, ((h, t) :: r). split; [done|]. split; [done|]. apply Ho. left. lia. }
    destruct (Z.ltb_spec 0 (t - s)).
    { destruct (Z.leb_spec 0 (t - e)).
      - eexists OVERLAP, ((h, t) :: r). split; [done|]. split; [done|]. exists h, t.
        split; [left|lia].
      - eexists MALICIOUS, ((h, t) :: r). split; [done|]. split; [done|]. apply Ho. left. lia. }
    rewrite u32_eqb by lia. destruct (Z.eqb_spec s t) as [->|Hst].
    2: { destruct (IH (t + 1) s e Hr) as (c & l' & -> & Hp); try lia.
         exists c, ((h, t) :: l'). split; [done|]. by apply check_post_cons; try lia. }
    clear IH. assert (Hext : forall r0, r0 = r ->
      (forall h' t' r', r0 = (h', t') :: r' -> h' <> e) ->
      exists c l', (if full then (FULL, wrap ((h, t) :: r)) else (EXTENDED, wrap ((h, e) :: r0))) =
        (c, wrap l') /\ check_post room full lo hi ((h, t) :: r) t e c l').
    { intros r0 -> Hne. destruct full; [eexists FULL, _; split; [done|by split; [|right]]|].
      eexists EXTENDED, ((h, e) :: r). split; [done|]. cbn [check_post length].
      split_and!; [apply Htc; tauto|lia|intros x; rewrite !covered_cons; intuition lia|].
      rewrite Ho. destruct r as [|[h' t'] r'].
      - cbn [blocks_ok]. split; [|lia]. intros _ [?|(x & Hx%covered_nil & _)]; [lia|done].
      - specialize (Hne h' t' r' eq_refl). cbn [blocks_ok] in Hr |- *.
        destruct Hr as (Hh' & Hht' & Ht' & Hr').
        rewrite (overlaps_cons h' t' r' t e) by done.
        pose proof (overlaps_bounds _ _ _ t e Hr'). intuition lia. }
    destruct r as [|[h' t'] r']; [by apply Hext|]. rewrite wrap_cons.
    cbn [blocks_ok] in Hr. destruct Hr as (Hh' & Hht' & Ht' & Hr').
    assert (Hd : (0 <? u32 (u32 h' - u32 e)) = negb (h' =? e)).
    { rewrite u32_sub_l, u32_sub_r. pose proof (u32_range (h' - e)). destruct (Z.eqb_spec h' e) as [->|Hne].
      - by rewrite Z.sub_diag.
      - destruct (Z.ltb_spec 0 (u32 (h' - e))) as [|Hz]; [done|]. exfalso. apply Hne.
        assert (Hz' : u32 (h' - e) = 0) by lia. unfold u32 in Hz'. Z.div_mod_to_equations. lia. }
    rewrite Hd. rewrite u32_eqb by lia. destruct (Z.eqb_spec h' e) as [->|Hne]; cbn [negb].
    + eexists EXTENDED, ((h, t') :: r'). split; [done|]. cbn [check_post length].
      split_and!; [apply Htc; tauto|lia|intros x; rewrite !covered_cons; intuition lia|].
      rewrite Ho, (overlaps_cons e t' r' t e) by done.
      pose proof (overlaps_bounds _ _ _ t e Hr'). cbn [blocks_ok].
      split; [intuition lia|]. intros _. split_and!; try lia. eapply blocks_ok_mono; [|done]. lia.
    + apply (Hext ((h', t') :: r')); [done|]. by intros ? ? ? [= <- <- <-].
Qed.

(** C8: [CheckUB] on the wrapped 32-bit ends of sorted, disjoint blocks
    behind the bytes received in order, for a packet [s, e) that is not older:
    a packet at the front is in sequence, or closes the gap to the first block,
    or is refused; any other is added or joined to the blocks, so that these
    cover exactly the packet's numbers in addition, or is refused as a
    duplicate, for overlapping or for want of room, without change.  The blocks
    stay sorted and disjoint, but for one case: a packet that starts at the end
    of a block and runs into the next is accepted, and the blocks overlap. *)
Theorem CheckUB_correct st l b s e hi :
  blocks_ok (b + 1) hi l -> ub_list st = wrap l -> lastSeq st = u32 b ->
  b <= s -> s < e -> e <= hi -> hi - b < 2 ^ 31 ->
  forall hs, headSeq st = u32 hs -> 0 <= e - hs < 2 ^ 32 ->
  exists c l', CheckUB st (u32 s) (e - s) = (c, wrap l') /\
    if s =? b then
      l' = l /\
      match c with
      | ONSEQ => ~ overlaps l s e /\ ~ touches l s e
      | MERGING => ~ overlaps l s e /\ exists t r, l = (e, t) :: r
      | MALICIOUS => overlaps l s e
      | _ => False
      end
    else check_post (length l <? capacity st)%nat
           (ALTUS_DEFAULT_MAX_NODE_COUNT * ALTUS_NODE_SIZE <=? e - hs) (b + 1) hi l s e c l'.
Proof.
  intros Hok Hl Hb Hs He Hhi Hw hs Hh Hq. unfold CheckUB. rewrite Hl, Hb, Hh, u32_eqb by lia.
  destruct (Z.eqb_spec s b) as [->|Hne].
  2: { unfold wrap at 1. rewrite length_map. apply CheckUB_loop_spec; (done || lia). }
  rewrite u32_add_l. replace (b + (e - b)) with e by lia.
  destruct l as [|[h t] r].
  - exists ONSEQ, []. split_and!; try done; [by intros (x & Hx%covered_nil & _)|].
    intros (? & ? & Hx & _). by inversion Hx.
  - cbn [blocks_ok] in Hok. destruct Hok as (Hh' & Hht & Ht & Hr). rewrite wrap_cons.
    rewrite s32_diff, u32_eqb by lia.
    pose proof (overlaps_cons h t r b e Hht He) as Ho. pose proof (touches_cons h t r b e) as Htc.
    pose proof (overlaps_bounds _ _ _ b e Hr) as Hob. pose proof (touches_bounds _ _ _ b e Hr He) as Htb.
    destruct (Z.ltb_spec 0 (h - e)); [|destruct (Z.eqb_spec h e) as [->|]].
    + exists ONSEQ, ((h, t) :: r). split_and!; try done; [rewrite Ho|rewrite Htc]; intuition lia.
    + exists MERGING, ((e, t) :: r). split_and!; try done; [rewrite Ho; intuition lia|by exists t, r].
    + exists MALICIOUS, ((h, t) :: r). split_and!; try done. apply Ho. left. lia.
Qed.

(** ** Receiving a file *)

(** A file that takes every write in full. *)
Class Writes {F : Type} (WriteFile : F -> list Z -> F * Z) (put : F -> list Z -> F) : Prop :=
  write_full : forall f b, WriteFile f b = (put f b, Z.of_nat (length b)).

Definition NODE : nat := Z.to_nat ALTUS_NODE_SIZE.

Lemma NODE_eq : Z.of_nat NODE = ALTUS_NODE_SIZE.
Proof. done. Qed.

#[local] Opaque NODE.

Lemma copy_in_ok m a n off d from len :
  nodes m !! a = Some n -> 0 <= off -> 0 <= from -> 0 <= len ->
  from + len <= Z.of_nat (length d) -> off + len <= Z.of_nat (length (NodeBase.data n)) ->
  copy_in m (Some a) off d from len =
    Ret (set_nodes (<[a := NodeBase.set_data
      (blit (Z.to_nat off) (take (Z.to_nat len) (drop (Z.to_nat from) d)) (NodeBase.data n)) n]> (nodes m)) m).
Proof.
  intros Hn Ho Hf Hl Hd Hb. unfold copy_in. rewrite mem_read_ok by lia. cbn [mbind outcome_bind].
  unfold load. rewrite Hn. cbn [mbind outcome_bind]. rewrite mem_write_ok.
  - cbn [mbind outcome_bind]. unfold update. by rewrite Hn.
  - done.
  - rewrite length_take, length_drop. lia.
Qed.

Lemma copy_in_null m off d from len : copy_in m None off d from len = Fault.
Proof. unfold copy_in, mem_read. by destruct (_ || _). Qed.

Section receiving.
Context {F : Type} (WriteFile : F -> list Z -> F * Z) (put : F -> list Z -> F)
  `{!Writes WriteFile put}.

(** The stream after the bytes [rcvd] in order, all in the first node. *)
Record in_order (b0 : Z) (st : sys F) (a : positive) (rcvd : list Z) : Prop := mk_in_order {
  io_head : head (frs st) = Some a;
  io_tail : tail (frs st) = Some a;
  io_ub : ub_list (frs st) = [];
  io_node : exists n, nodes (mem st) !! a = Some n /\ to_tail n = None /\
    length (NodeBase.data n) = NODE /\ take (length rcvd) (NodeBase.data n) = rcvd;
  io_len : (length rcvd <= NODE)%nat;
  io_count : headByteCount (frs st) = Z.of_nat (length rcvd);
  io_seq : lastSeq (frs st) = u32 (b0 + Z.of_nat (length rcvd));
  io_headSeq : headSeq (frs st) = u32 b0
}.

(** A packet at the front meets no block and is in sequence. *)
Lemma Append_onseq fuel st len d :
  ub_list (frs st) = [] ->
  Append WriteFile fuel (lastSeq (frs st)) len d st =
    append_onseq WriteFile len d (on_frs (fun s => set_unSeqLen 0 (set_ub_list [] s)) st).
Proof.
  intros Hu. unfold Append, CheckUB. rewrite Hu, Z.sub_diag, Z.eqb_refl. reflexivity.
Qed.

Lemma append_in_order fuel b0 st a rcvd d :
  in_order b0 st a rcvd -> (length rcvd + length d <= NODE)%nat ->
  exists st', Append WriteFile fuel (lastSeq (frs st)) (Z.of_nat (length d)) d st = Ret (0, st') /\
    in_order b0 st' a (rcvd ++ d) /\ file st' = file st.
Proof.
  intros [Hh Ht Hu (n & Hn & Hnt & Hnl & Hnd) Hl Hc Hs Hq] Hlen.
  rewrite Append_onseq by done. unfold append_onseq, on_frs. cbn [frs mem pool file].
  cbn [set_unSeqLen set_ub_list head headByteCount lastSeq set_lastSeq set_headByteCount].
  rewrite Hc, Hh. pose proof NODE_eq as HN. change ALTUS_NODE_SIZE with 4096 in *.
  rewrite u32_small by lia.
  destruct (Z.leb_spec (Z.of_nat (length d)) (4096 - Z.of_nat (length rcvd))); [|lia].
  rewrite (copy_in_ok _ a n) by (exact Hn || lia). cbn [mbind outcome_bind].
  eexists. split; [reflexivity|]. split; [|done].
  split; cbn [frs mem head tail ub_list headByteCount lastSeq set_lastSeq set_headByteCount set_unSeqLen set_ub_list].
  - done.
  - done.
  - done.
  - eexists. cbn [nodes set_nodes]. rewrite lookup_insert_eq. split; [reflexivity|].
    cbn [to_tail NodeBase.data NodeBase.set_data]. rewrite !Nat2Z.id, drop_0, take_ge by lia.
    split_and!; [done|rewrite length_blit; lia|].
    unfold blit. rewrite Hnd, app_assoc, length_app. apply take_app_length'. rewrite length_app. lia.
  - rewrite length_app. lia.
  - rewrite length_app, u16_small by lia. lia.
  - rewrite Hs, u32_add_l, length_app. f_equal. lia.
  - exact Hq.
Qed.

(** The packets of a stream one after the other, from sequence number [seq] on:
    the results and the final state. *)
Fixpoint deliver_packets (fuel : nat) (seq : Z) (ds : list (list Z)) (st : sys F) : outcome (list Z * sys F) :=
  match ds with
  | [] => Ret ([], st)
  | d :: r =>
      '(z, st) ← Append WriteFile fuel (u32 seq) (Z.of_nat (length d)) d st;
      '(zs, st) ← deliver_packets fuel (seq + Z.of_nat (length d)) r st;
      Ret (z :: zs, st)
  end.

Lemma deliver_in_order fuel b0 ds : forall st a rcvd,
  in_order b0 st a rcvd -> (length rcvd + length (concat ds) <= NODE)%nat ->
  exists st', deliver_packets fuel (b0 + Z.of_nat (length rcvd)) ds st = Ret (replicate (length ds) 0, st') /\
    in_order b0 st' a (rcvd ++ concat ds) /\ file st' = file st.
Proof.
  induction ds as [|d r IH]; intros st a rcvd Hi Hl; cbn [concat] in *.
  - exists st. rewrite app_nil_r. done.
  - rewrite length_app in Hl. cbn [deliver_packets].
    destruct (append_in_order fuel b0 st a rcvd d Hi ltac:(lia)) as (st1 & Ha & Hi1 & Hf1).
    rewrite <- (io_seq _ _ _ _ Hi), Ha. cbn [mbind outcome_bind].
    destruct (IH st1 a (rcvd ++ d) Hi1) as (st' & Hd & Hi' & Hf'); [rewrite length_app; lia|].
    rewrite length_app, Nat2Z.inj_add, Z.add_assoc in Hd. rewrite Hd. cbn [mbind outcome_bind].
    exists st'. rewrite app_assoc. split_and!; [done|done|congruence].
Qed.

Lemma finalize_in_order b0 st a rcvd :
  in_order b0 st a rcvd ->
  exists st', Finalize WriteFile st = Ret st' /\ file st' = put (file st) rcvd.
Proof.
  intros [Hh Ht Hu (n & Hn & Hnt & Hnl & Hnd) Hl Hc Hs Hq]. unfold Finalize.
  rewrite Hh. unfold load. rewrite Hn. cbn [mbind outcome_bind]. rewrite Hnt, Hc.
  rewrite mem_read_ok by lia. cbn [mbind outcome_bind].
  rewrite Nat2Z.id. change (Z.to_nat 0) with 0%nat. rewrite drop_0, Hnd, write_full, Z.eqb_refl.
  cbn [negb]. eexists. split; [reflexivity|]. done.
Qed.

(** a file of at most one node, in packets of any sizes that arrive in
    order, on a stream made with an empty pool: every [Append] returns 0,
    nothing is written before the end, and [Finalize] writes exactly the bytes
    of the packets. *)
Theorem small_file_received fuel cap m f ds :
  (forall a, length (garbage m a) = NODE) -> (0 < avail m)%nat ->
  (length (concat ds) <= NODE)%nat ->
  exists st st' st'',
    FileRcvStream_new cap true NodePool_new m f = Ret st /\
    deliver_packets fuel 0 ds st = Ret (replicate (length ds) 0, st') /\ file st' = f /\
    Finalize WriteFile st' = Ret st'' /\ file st'' = put f (concat ds).
Proof.
  intros Hg Ha Hl. unfold FileRcvStream_new, NodeBase.pop, pop_empty, new_Node.
  cbn [NodePool_new recycled_head mbind outcome_bind].
  destruct (avail m) as [|k]; [lia|]. cbn [mbind outcome_bind negb].
  set (a := fresh (dom (nodes m))). set (st := mkSys _ _ _ _).
  assert (Hi : in_order 0 st a []).
  { split; try done; try (simpl; lia). eexists. unfold st. cbn [mem nodes]. rewrite lookup_insert_eq.
    split; [reflexivity|]. split_and!; [done|apply Hg|done]. }
  destruct (deliver_in_order fuel 0 ds st a [] Hi Hl) as (st' & Hd & Hi' & Hf).
  destruct (finalize_in_order _ _ _ _ Hi') as (st'' & Hfin & Hf').
  exists st, st', st''. rewrite Hf in Hf'. split_and!; done.
Qed.

(** A new node behind the last one, from an empty pool. *)
Lemma NewNode_ok (st : sys F) a n k :
  recycled_head (pool st) = None -> avail (mem st) = S k -> tail (frs st) = Some a ->
  nodes (mem st) !! a = Some n -> 0 <= nodeCount (frs st) < 2 ^ 31 - 1 ->
  exists b, b <> a /\ nodes (mem st) !! b = None /\
    NewNode st = Ret (mkSys (set_nodeCount (nodeCount (frs st) + 1) (frs st)) (pool st)
      (mkHeap (<[a := NodeBase.set_to_tail (Some b) n]>
                 (<[b := mkNode None (garbage (mem st) b)]> (<[a := NodeBase.set_to_tail None n]> (nodes (mem st)))))
         k (garbage (mem st))) (file st)).
Proof.
  intros Hp Ha Ht Hn Hc. unfold NewNode, NodeBase.pop, pop_empty. rewrite Hp, Ht.
  cbn [mbind outcome_bind]. rewrite (nupdate_Some _ a n) by done. cbn [mbind outcome_bind].
  unfold new_Node. cbn [avail set_nodes]. rewrite Ha. cbn [mbind outcome_bind nodes set_nodes].
  set (h1 := <[a := _]> (nodes (mem st))). set (b := fresh (dom h1)).
  assert (Hb : h1 !! b = None) by (apply not_elem_of_dom, is_fresh).
  assert (Hab : b <> a) by (intros E; rewrite E in Hb; unfold h1 in Hb; by rewrite lookup_insert_eq in Hb).
  exists b. split; [done|]. split; [unfold h1 in Hb; by rewrite lookup_insert_ne in Hb|].
  rewrite (nupdate_Some _ a (NodeBase.set_to_tail None n)).
  2: { cbn [nodes]. rewrite lookup_insert_ne by done. apply lookup_insert_eq. }
  cbn [mbind outcome_bind]. rewrite int_val_ok by lia. cbn [mbind outcome_bind].
  reflexivity.
Qed.

(** C38: a packet in order that crosses the end of the node is reported as
    appended, but the stream is stuck afterwards: the node is written to the
    file, the sequence number does not move, the bytes beyond the node are
    unreachable, the packet that follows is not in sequence, and [Finalize]
    throws. *)
Theorem crossing_packet_lost fuel b0 (st : sys F) a rcvd d k :
  in_order b0 st a rcvd -> (NODE < length rcvd + length d)%nat -> (length d <= NODE)%nat ->
  recycled_head (pool st) = None -> avail (mem st) = S k ->
  (forall x, length (garbage (mem st) x) = NODE) -> 0 <= nodeCount (frs st) < 2 ^ 31 - 1 ->
  exists st', Append WriteFile fuel (lastSeq (frs st)) (Z.of_nat (length d)) d st = Ret (0, st') /\
    file st' = put (file st) (take NODE (rcvd ++ d)) /\
    lastSeq (frs st') = lastSeq (frs st) /\ headByteCount (frs st') = 0 /\
    (forall len, fst (CheckUB (frs st') (u32 (lastSeq (frs st') + Z.of_nat (length d))) len) <> ONSEQ) /\
    Finalize WriteFile st' = Throw.
Proof.
  intros [Hh Ht Hu (n & Hn & Hnt & Hnl & Hnd) Hl Hc Hs Hq] Hlt Hd Hp Ha Hg Hnc.
  rewrite Append_onseq by done. unfold append_onseq, on_frs. cbn [frs mem pool file].
  cbn [set_unSeqLen set_ub_list head tail headByteCount lastSeq].
  rewrite Hc, Hh, Ht. pose proof NODE_eq as HN. change ALTUS_NODE_SIZE with 4096 in *.
  rewrite (u32_small (4096 - _)) by lia. set (w := (NODE - length rcvd)%nat).
  replace (4096 - Z.of_nat (length rcvd)) with (Z.of_nat w) by (unfold w; lia).
  destruct (Z.leb_spec (Z.of_nat (length d)) (Z.of_nat w)); [unfold w in *; lia|].
  rewrite (copy_in_ok _ a n) by (exact Hn || (unfold w; lia)). cbn [mbind outcome_bind].
  rewrite !Nat2Z.id, drop_0, bool_decide_eq_true_2 by done.
  set (full := blit _ _ _). set (m1 := set_nodes _ (mem st)).
  assert (Hfull : full = take NODE (rcvd ++ d)).
  { unfold full, blit. rewrite Hnd, take_app_ge by lia. f_equal.
    rewrite (drop_ge (NodeBase.data n)), app_nil_r by (rewrite length_take; unfold w; lia).
    reflexivity. }
  destruct (NewNode_ok (set_mem m1 (mkSys (set_unSeqLen 0 (set_ub_list [] (frs st))) (pool st) (mem st) (file st)))
    a (NodeBase.set_data full n) k Hp Ha Ht) as (b & Hba & Hb & ->).
  { cbn [mem set_mem]. unfold m1. cbn [nodes set_nodes]. apply lookup_insert_eq. }
  { exact Hnc. }
  cbn [mbind outcome_bind mem frs pool file set_mem head set_nodeCount].
  cbn [set_unSeqLen set_ub_list head]. rewrite ?Hh.
  rewrite (nload_Some _ a (NodeBase.set_to_tail (Some b) (NodeBase.set_data full n))) by apply lookup_insert_eq.
  rewrite bind_ret. cbn [to_tail NodeBase.set_to_tail NodeBase.set_data].
  rewrite (copy_in_ok _ b (mkNode None (garbage (mem st) b))); cycle 1.
  { cbn [nodes]. rewrite lookup_insert_ne by done. apply lookup_insert_eq. }
  all: try lia.
  { cbn [NodeBase.data]. rewrite Hg. unfold w in *. lia. }
  cbn [mbind outcome_bind]. unfold FlushNode, on_frs. cbn [frs mem set_mem head tail file].
  cbn [set_headByteCount set_nodeCount set_unSeqLen set_ub_list head tail headSeq]. rewrite Hh, Ht.
  rewrite (nload_Some _ a (NodeBase.set_to_tail (Some b) (NodeBase.set_data full n)))
    by (cbn [nodes set_nodes]; rewrite lookup_insert_ne by done; apply lookup_insert_eq).
  cbn [mbind outcome_bind NodeBase.data NodeBase.set_data NodeBase.set_to_tail].
  rewrite write_full, Hfull.
  assert (Lf : length (take NODE (rcvd ++ d)) = NODE) by (rewrite length_take, length_app; lia).
  rewrite Lf, HN. change (4096 =? ALTUS_NODE_SIZE) with true. cbn [negb].
  rewrite bool_decide_eq_true_2 by done. cbn [mbind outcome_bind].
  eexists. split; [reflexivity|]. cbn [frs mem file lastSeq headByteCount].
  split_and!; try done.
  - intros len. unfold CheckUB. cbn [lastSeq ub_list set_headSeq set_headByteCount set_nodeCount set_unSeqLen set_ub_list headSeq capacity].
    destruct (Z.eqb_spec (u32 (lastSeq (frs st) + Z.of_nat (length d))) (lastSeq (frs st))) as [E|E].
    { exfalso. rewrite Hs, u32_add_l in E. apply u32_inj in E; lia. }
    cbn [length CheckUB_loop]. destruct (_ <? _)%nat; [|done]. by destruct (beyond_window _ _ _).
  - unfold Finalize. cbn [mem frs head set_headSeq set_headByteCount set_nodeCount set_unSeqLen set_ub_list].
    rewrite Hh. unfold load. cbn [nodes set_nodes].
    rewrite lookup_insert_ne, lookup_insert_eq by done. reflexivity.
Qed.

(** The stream after its only node, with the bytes [d], has been written. *)
Definition flushed (d : list Z) (st : sys F) : sys F :=
  mkSys (set_headByteCount 0 (set_headSeq (u32 (headSeq (frs st) + ALTUS_NODE_SIZE)) (frs st)))
    (pool st) (mem st) (put (file st) d).

Lemma flushed_iter d j st :
  head (frs (Nat.iter j (flushed d) st)) = head (frs st) /\
  tail (frs (Nat.iter j (flushed d) st)) = tail (frs st) /\
  mem (Nat.iter j (flushed d) st) = mem st /\
  file (Nat.iter j (flushed d) st) = Nat.iter j (fun f => put f d) (file st).
Proof. induction j as [|j (H & T & M & E)]; [done|]. simpl. by rewrite H, T, M, E. Qed.

(** A turn of the loop behind a merge writes the node once more, and counts away
    from its bound, until the subtraction overflows. *)
Lemma merge_flush_turn fuel z (st : sys F) a n :
  head (frs st) = Some a -> tail (frs st) = Some a -> nodes (mem st) !! a = Some n ->
  length (NodeBase.data n) = NODE -> z < ALTUS_NODE_SIZE ->
  merge_flush WriteFile (S fuel) z st =
    if - 2 ^ 31 <=? z - ALTUS_NODE_SIZE
    then merge_flush WriteFile fuel (z - ALTUS_NODE_SIZE) (flushed (NodeBase.data n) st) else Fault.
Proof.
  intros Hh Ht Hn Hl Hz. cbn [merge_flush]. destruct (Z.ltb_spec z ALTUS_NODE_SIZE); [|lia].
  unfold FlushNode. rewrite Hh, Ht, (nload_Some _ a n) by done. rewrite bind_ret.
  rewrite write_full, Hl, NODE_eq, Z.eqb_refl. cbn [negb]. rewrite bool_decide_eq_true_2, bind_ret by done.
  unfold int_val. change ALTUS_NODE_SIZE with 4096 in *. destruct (Z.ltb_spec (z - 4096) (2 ^ 31)); [|lia].
  rewrite andb_true_r. by destruct (_ <=? _).
Qed.

Lemma merge_flush_turns a n z (st : sys F) :
  head (frs st) = Some a -> tail (frs st) = Some a -> nodes (mem st) !! a = Some n ->
  length (NodeBase.data n) = NODE -> z < ALTUS_NODE_SIZE -> forall j fuel,
  - 2 ^ 31 <= z - ALTUS_NODE_SIZE * Z.of_nat j ->
  merge_flush WriteFile (j + fuel) z st =
    merge_flush WriteFile fuel (z - ALTUS_NODE_SIZE * Z.of_nat j) (Nat.iter j (flushed (NodeBase.data n)) st).
Proof.
  intros Hh Ht Hn Hl Hz j. change ALTUS_NODE_SIZE with 4096 in *. induction j as [|j IH]; intros fuel Hj.
  - by rewrite Z.mul_0_r, Z.sub_0_r.
  - replace (S j + fuel)%nat with (j + S fuel)%nat by lia. rewrite IH by lia.
    destruct (flushed_iter (NodeBase.data n) j st) as (H1 & T1 & M1 & _).
    rewrite (merge_flush_turn fuel _ _ a n) by (change ALTUS_NODE_SIZE with 4096; lia || congruence).
    change ALTUS_NODE_SIZE with 4096. destruct (Z.leb_spec (- 2 ^ 31) (z - 4096 * Z.of_nat j - 4096)); [|lia].
    replace (z - 4096 * Z.of_nat (S j)) with (z - 4096 * Z.of_nat j - 4096) by lia. done.
Qed.

(** The whole loop: it runs out of any fuel up to the turn that overflows. *)
Lemma merge_flush_overflows fuel a n z (st : sys F) :
  head (frs st) = Some a -> tail (frs st) = Some a -> nodes (mem st) !! a = Some n ->
  length (NodeBase.data n) = NODE -> - 2 ^ 31 <= z < ALTUS_NODE_SIZE ->
  merge_flush WriteFile fuel z st =
    if (fuel <=? Z.to_nat ((z + 2 ^ 31) / ALTUS_NODE_SIZE))%nat then NoFuel else Fault.
Proof.
  intros Hh Ht Hn Hl Hz. change ALTUS_NODE_SIZE with 4096 in *. set (N := Z.to_nat _).
  assert (HN : 4096 * Z.of_nat N <= z + 2 ^ 31 < 4096 * Z.of_nat N + 4096) by (unfold N; Z.div_mod_to_equations; lia).
  destruct (Nat.leb_spec fuel N) as [Hf|Hf].
  - replace fuel with (fuel + 0)%nat by lia.
    rewrite (merge_flush_turns a n z st Hh Ht Hn Hl) by (change ALTUS_NODE_SIZE with 4096; lia).
    change ALTUS_NODE_SIZE with 4096. cbn [merge_flush]. change ALTUS_NODE_SIZE with 4096.
    by destruct (Z.ltb_spec (z - 4096 * Z.of_nat fuel) 4096); [|lia].
  - replace fuel with (N + S (fuel - N - 1))%nat by lia.
    rewrite (merge_flush_turns a n z st Hh Ht Hn Hl) by (change ALTUS_NODE_SIZE with 4096; lia).
    destruct (flushed_iter (NodeBase.data n) N st) as (H1 & T1 & M1 & _).
    rewrite (merge_flush_turn _ _ _ a n) by (change ALTUS_NODE_SIZE with 4096; lia || congruence).
    change ALTUS_NODE_SIZE with 4096. by destruct (Z.leb_spec (- 2 ^ 31) (z - 4096 * Z.of_nat N - 4096)); [lia|].
Qed.

Lemma s32_bounds z : - 2 ^ 31 <= s32 z < 2 ^ 31.
Proof. unfold s32. pose proof (Z.mod_pos_bound z (2 ^ 32)). fold (u32 z) in *. destruct (Z.ltb_spec (u32 z) (2 ^ 31)); lia. Qed.

(** [Append] up to the loop: the node then holds [full], and the length of the
    packet and the block is [ml]. *)
Lemma append_merges fuel len d (st : sys F) h t r a n :
  head (frs st) = Some a -> nodes (mem st) !! a = Some n -> length (NodeBase.data n) = NODE ->
  0 <= headByteCount (frs st) -> 0 <= len <= Z.of_nat (length d) ->
  headByteCount (frs st) + len <= ALTUS_NODE_SIZE ->
  ub_list (frs st) = (h, t) :: r -> h = u32 (lastSeq (frs st) + len) ->
  let ml := s32 (u32 (u32 (len + t) - h)) in ml + ALTUS_NODE_SIZE < 2 ^ 31 ->
  let full := blit (Z.to_nat (headByteCount (frs st))) (take (Z.to_nat len) d) (NodeBase.data n) in
  exists st1, Append WriteFile fuel (lastSeq (frs st)) len d st =
      (st' ← merge_flush WriteFile fuel ml st1; Ret (0, st')) /\
    head (frs st1) = head (frs st) /\ tail (frs st1) = tail (frs st) /\
    nodes (mem st1) !! a = Some (NodeBase.set_data full n) /\
    file st1 = file st /\ ub_list (frs st1) = ub_list (frs st) /\ lastSeq (frs st1) = u32 (lastSeq (frs st) + ml).
Proof.
  intros Hh Hn Hl Hc Hlen Hfit Hu Eh ml Hml full. pose proof NODE_eq as HN. change ALTUS_NODE_SIZE with 4096 in *.
  unfold Append, CheckUB. rewrite Z.sub_diag. change (s32 0) with 0. cbn [Z.ltb Z.compare].
  rewrite Z.eqb_refl, Hu, <- Eh, Z.sub_diag, Z.eqb_refl. change (s32 0) with 0. cbn [Z.ltb Z.compare].
  unfold append_merging, on_frs. cbn [frs set_unSeqLen set_ub_list ub_list mem pool file head headByteCount lastSeq].
  fold ml. change ALTUS_NODE_SIZE with 4096. rewrite (u32_small (4096 - _)) by lia.
  destruct (Z.leb_spec len (4096 - headByteCount (frs st))); [|lia]. rewrite Hh.
  rewrite (copy_in_ok _ a n), bind_ret by (exact Hn || lia). rewrite drop_0. fold full.
  pose proof (s32_bounds (u32 (u32 (len + t) - h)) : - 2 ^ 31 <= ml < 2 ^ 31).
  rewrite int_val_ok, bind_ret by lia. eexists. split; [reflexivity|].
  cbn [frs mem file head tail ub_list lastSeq set_lastSeq set_headByteCount set_unSeqLen set_ub_list nodes set_nodes].
  split_and!; try done; apply lookup_insert_eq.
Qed.

(** C39: a packet that fits into the only node of a stream and closes the gap to
    the first unsequenced block.  When packet and block together are shorter
    than a node, [Append] does not return: whatever number of turns its loop is
    given, up to [(ml + 2^31) / 4096] of them, it has not ended, each turn
    having written the same node to the file once more, since the loop subtracts
    a node from a length that is already below its bound; the next turn
    overflows an [int], which is undefined.  When they are not shorter, it
    returns 0 with nothing written to the file and the block still in the
    list. *)
Theorem merging_never_returns len d (st : sys F) h t r a n :
  head (frs st) = Some a -> tail (frs st) = Some a -> nodes (mem st) !! a = Some n ->
  length (NodeBase.data n) = NODE -> 0 <= headByteCount (frs st) -> 0 <= len <= Z.of_nat (length d) ->
  headByteCount (frs st) + len <= ALTUS_NODE_SIZE ->
  ub_list (frs st) = (h, t) :: r -> h = u32 (lastSeq (frs st) + len) ->
  let ml := s32 (u32 (u32 (len + t) - h)) in ml + ALTUS_NODE_SIZE < 2 ^ 31 ->
  let full := blit (Z.to_nat (headByteCount (frs st))) (take (Z.to_nat len) d) (NodeBase.data n) in
  let turns := Z.to_nat ((ml + 2 ^ 31) / ALTUS_NODE_SIZE) in
  if ml <? ALTUS_NODE_SIZE then
    (forall fuel, Append WriteFile fuel (lastSeq (frs st)) len d st =
       if (fuel <=? turns)%nat then NoFuel else Fault) /\
    (forall j fuel, (j <= turns)%nat -> exists st',
       Append WriteFile (j + fuel) (lastSeq (frs st)) len d st =
         (st'' ← merge_flush WriteFile fuel (ml - ALTUS_NODE_SIZE * Z.of_nat j) st'; Ret (0, st'')) /\
       file st' = Nat.iter j (fun f => put f full) (file st))
  else
    forall fuel, exists st', Append WriteFile fuel (lastSeq (frs st)) len d st = Ret (0, st') /\
      file st' = file st /\ ub_list (frs st') = ub_list (frs st) /\
      lastSeq (frs st') = u32 (lastSeq (frs st) + ml).
Proof.
  intros Hh Ht Hn Hl Hc Hlen Hfit Hu Eh ml Hml full turns.
  pose proof (fun fuel => append_merges fuel len d st h t r a n Hh Hn Hl Hc Hlen Hfit Hu Eh Hml) as A. fold ml full in A.
  assert (Lf : length full = NODE).
  { unfold full. pose proof NODE_eq. rewrite length_blit; rewrite Hl; [done|]. rewrite length_take. lia. }
  pose proof (s32_bounds (u32 (u32 (len + t) - h)) : - 2 ^ 31 <= ml < 2 ^ 31) as Lo.
  destruct (Z.ltb_spec ml ALTUS_NODE_SIZE) as [Hs|Hs].
  - split.
    + intros fuel. destruct (A fuel) as (st1 & -> & H1 & T1 & N1 & _).
      rewrite (merge_flush_overflows fuel a (NodeBase.set_data full n)) by (done || congruence || lia).
      fold turns. by destruct (fuel <=? turns)%nat.
    + intros j fuel Hj. destruct (A (j + fuel)%nat) as (st1 & -> & H1 & T1 & N1 & F1 & _).
      exists (Nat.iter j (flushed full) st1).
      rewrite (merge_flush_turns a (NodeBase.set_data full n)); try done; try congruence.
      * split; [done|]. destruct (flushed_iter full j st1) as (_ & _ & _ & ->). by rewrite F1.
      * unfold turns in Hj. change ALTUS_NODE_SIZE with 4096 in *. Z.div_mod_to_equations. lia.
  - intros fuel. destruct (A fuel) as (st1 & -> & _ & _ & _ & F1 & U1 & L1).
    exists st1. split; [|done]. destruct fuel; cbn [merge_flush]; by destruct (Z.ltb_spec ml ALTUS_NODE_SIZE); [lia|].
Qed.

(** From the third node on, the walk to a block's node leaves the chain: the
    missing node is always linked behind the first one. *)
Lemma walk_faults fuel i (st : sys F) a n k :
  recycled_head (pool st) = None -> avail (mem st) = S (S k) -> tail (frs st) = Some a ->
  nodes (mem st) !! a = Some n -> to_tail n = None -> 0 <= nodeCount (frs st) < 2 ^ 31 - 2 ->
  2 * ALTUS_NODE_SIZE <= i -> (2 < fuel)%nat ->
  (i < 3 * ALTUS_NODE_SIZE ->
     exists st', PutUnSeq_walk fuel i (Some a) st = Ret (i - 2 * ALTUS_NODE_SIZE, None, st')) /\
  (3 * ALTUS_NODE_SIZE <= i -> PutUnSeq_walk fuel i (Some a) st = Fault).
Proof.
  intros Hp Ha Ht Hn Hnt Hc Hi Hf. change ALTUS_NODE_SIZE with 4096 in *.
  destruct fuel as [|[|[|fuel]]]; try lia. cbn [PutUnSeq_walk].
  change ALTUS_NODE_SIZE with 4096 in *.
  destruct (Z.leb_spec 4096 i); [|lia]. rewrite (nload_Some _ a n), bind_ret, Hnt by done.
  destruct (NewNode_ok st a n (S k) Hp Ha Ht Hn ltac:(lia)) as (b & Hba & Hb & ->). rewrite bind_ret.
  rewrite (nload_Some _ a (NodeBase.set_to_tail (Some b) n)), bind_ret by apply lookup_insert_eq.
  set (st1 := mkSys _ _ _ _). cbn [to_tail NodeBase.set_to_tail].
  assert (Hb1 : nodes (mem st1) !! b = Some (mkNode None (garbage (mem st) b))).
  { unfold st1. cbn [mem nodes]. rewrite lookup_insert_ne by done. apply lookup_insert_eq. }
  assert (Ha1 : nodes (mem st1) !! a = Some (NodeBase.set_to_tail (Some b) n)) by apply lookup_insert_eq.
  destruct (Z.leb_spec 4096 (i - 4096)); [|lia].
  rewrite (nload_Some _ b _ Hb1), bind_ret. cbn [to_tail].
  destruct (NewNode_ok st1 a _ k Hp eq_refl Ht Ha1) as (b2 & Hba2 & Hb2 & ->).
  { cbn [st1 frs set_nodeCount nodeCount]. lia. }
  rewrite bind_ret. rewrite (nload_Some _ b (mkNode None (garbage (mem st) b))), bind_ret.
  2: { cbn [mem nodes]. assert (b2 <> b) by (intros ->; congruence).
       rewrite !lookup_insert_ne by done. exact Hb1. }
  cbn [to_tail]. destruct (Z.leb_spec 4096 (i - 4096 - 4096)).
  - split; [lia|]. intros _. reflexivity.
  - split; [|lia]. intros _. eexists. do 2 f_equal. f_equal. lia.
Qed.

(** A packet that begins two nodes or more behind the start of the first
    node, which [CheckUB] accepts as far as 64 megabytes ahead, has undefined
    behaviour when the stream has a single node. *)
Theorem far_block_faults fuel b0 (st : sys F) a rcvd s len d k :
  in_order b0 st a rcvd -> recycled_head (pool st) = None -> avail (mem st) = S (S k) ->
  0 <= nodeCount (frs st) < 2 ^ 31 - 2 -> (0 < capacity (frs st))%nat ->
  2 * ALTUS_NODE_SIZE <= s - b0 -> 0 < len ->
  s + len - b0 < ALTUS_DEFAULT_MAX_NODE_COUNT * ALTUS_NODE_SIZE ->
  fst (CheckUB (frs st) (u32 s) len) = ADDED /\
  Append WriteFile fuel (u32 s) len d st = Fault.
Proof.
  intros [Hh Ht Hu (n & Hn & Hnt & Hnl & Hnd) Hl Hc Hs Hq] Hp Ha Hnc Hcap Hfar Hlen Hwin.
  pose proof NODE_eq as HN. change (ALTUS_DEFAULT_MAX_NODE_COUNT * ALTUS_NODE_SIZE) with 67108864 in *.
  assert (HC : CheckUB (frs st) (u32 s) len = (ADDED, [(u32 s, u32 (s + len))])).
  { unfold CheckUB. rewrite Hu, Hs, u32_eqb by (change ALTUS_NODE_SIZE with 4096 in *; lia).
    destruct (Z.eqb_spec s (b0 + Z.of_nat (length rcvd))); [change ALTUS_NODE_SIZE with 4096 in *; lia|].
    cbn [length CheckUB_loop]. destruct (Nat.ltb_spec 0 (capacity (frs st))); [|lia].
    unfold beyond_window. change (ALTUS_DEFAULT_MAX_NODE_COUNT * ALTUS_NODE_SIZE) with 67108864.
    rewrite u32_add_l, Hq, u32_diff by (change ALTUS_NODE_SIZE with 4096 in *; lia).
    destruct (Z.leb_spec 67108864 (s + len - b0)); [lia|done]. }
  split; [by rewrite HC|]. unfold Append. rewrite HC, Hs.
  rewrite s32_diff by (change ALTUS_NODE_SIZE with 4096 in *; lia).
  destruct (Z.ltb_spec 0 (b0 + Z.of_nat (length rcvd) - s)); [change ALTUS_NODE_SIZE with 4096 in *; lia|].
  unfold PutUnSeq, on_frs. cbn [frs headSeq head set_unSeqLen set_ub_list]. rewrite Hq, Hh.
  rewrite s32_diff by (change ALTUS_NODE_SIZE with 4096 in *; lia).
  set (st1 := mkSys _ _ _ _).
  destruct (walk_faults (Z.to_nat (s - b0)) (s - b0) st1 a n k Hp Ha Ht Hn Hnt Hnc Hfar) as [W1 W2].
  { change ALTUS_NODE_SIZE with 4096 in *. lia. }
  destruct (Z.lt_ge_cases (s - b0) (3 * ALTUS_NODE_SIZE)) as [H3|H3]; [|by rewrite W2].
  destruct (W1 H3) as [st2 ->]. rewrite bind_ret.
  destruct (_ <=? _); by rewrite copy_in_null.
Qed.
End receiving.

(** ** Witnesses *)

(** A file as the list of the bytes written. *)
Definition append_file (f b : list Z) : list Z * Z := (f ++ b, Z.of_nat (length b)).

#[export] Instance append_file_writes : Writes append_file app.
Proof. by intros f b. Qed.

Definition zeros : positive -> list Z := fun _ => replicate NODE 0.

Definition a_node (d : list Z) : Node := mkNode None (blit 0 d (replicate NODE 0)).

(** A stream with one node that holds the bytes [d]. *)
Definition stream_at (b0 : Z) (d : list Z) (ub : list (Z * Z)) : sys (list Z) :=
  mkSys (mkFrs (Some 1%positive) (Some 1%positive) 0 ALTUS_DEFAULT_MAX_NODE_COUNT (u32 b0)
           (Z.of_nat (length d)) ub 8 (u32 (b0 + Z.of_nat (length d))) 0)
    NodePool_new (mkHeap {[1%positive := a_node d]} 5 zeros) [].

Lemma stream_at_in_order b0 d :
  (length d <= NODE)%nat -> in_order b0 (stream_at b0 d []) 1%positive d.
Proof.
  intros Hd. split; try done. exists (a_node d). split; [apply lookup_singleton_eq|].
  split; [done|]. cbn [a_node NodeBase.data]. split.
  - rewrite length_blit, length_replicate; [done|rewrite length_replicate; lia].
  - unfold blit. rewrite take_0. cbn [app]. apply take_app_length.
Qed.

Lemma CheckUB_correct_witness :
  let l := [(4294967300, 4294967320); (4294967330, 4294967340)] in
  let st := mkFrs None None 0 0 4294967000 0 (wrap l) 8 4294967290 0 in
  exists c l', CheckUB st (u32 4294967320) 12 = (c, wrap l') /\
    check_post true false 4294967291 4294968000 l 4294967320 4294967332 c l'.
Proof.
  intros l st.
  exact (CheckUB_correct st l 4294967290 4294967320 4294967332 4294968000
    ltac:(cbn; lia) eq_refl eq_refl ltac:(lia) ltac:(lia) ltac:(lia) ltac:(lia) 4294967000 eq_refl ltac:(lia)).
Defined.

Lemma small_file_received_witness :
  exists st st' st'',
    FileRcvStream_new 8 true NodePool_new (mkHeap ∅ 1 zeros) ([] : list Z) = Ret st /\
    deliver_packets append_file 0 0 [[1; 2; 3]; []; [4; 5]] st = Ret ([0; 0; 0], st') /\ file st' = [] /\
    Finalize append_file st' = Ret st'' /\ file st'' = [1; 2; 3; 4; 5].
Proof.
  apply (small_file_received append_file app 0 8 (mkHeap ∅ 1 zeros) [] [[1; 2; 3]; []; [4; 5]]).
  - intros a. apply length_replicate.
  - apply Nat.lt_0_1.
  - change (5 <= NODE)%nat. pose proof NODE_eq. change ALTUS_NODE_SIZE with 4096 in *. lia.
Defined.

Lemma crossing_packet_lost_witness :
  let d := replicate (NODE - 2) 7 in let st := stream_at 0 d [] in
  exists st', Append append_file 0 (lastSeq (frs st)) 3 [1; 2; 3] st = Ret (0, st') /\
    file st' = take NODE (d ++ [1; 2; 3]) /\
    lastSeq (frs st') = lastSeq (frs st) /\ headByteCount (frs st') = 0 /\
    (forall len, fst (CheckUB (frs st') (u32 (lastSeq (frs st') + 3)) len) <> ONSEQ) /\
    Finalize append_file st' = Throw.
Proof.
  intros d st. pose proof NODE_eq as HN. change ALTUS_NODE_SIZE with 4096 in HN.
  assert (Ld : length d = (NODE - 2)%nat) by apply length_replicate.
  apply (crossing_packet_lost append_file app 0 0 st 1%positive d [1; 2; 3] 4).
  - apply stream_at_in_order. lia.
  - cbn [length]. lia.
  - cbn [length]. lia.
  - reflexivity.
  - reflexivity.
  - intros a. apply length_replicate.
  - cbn. lia.
Defined.

(** Ten bytes have arrived, and a block of 15; the packet has the five between. *)
Lemma merging_never_returns_witness :
  let st := stream_at 0 (replicate 10 7) [(15, 30)] in
  Append append_file 20 10 5 [1; 2; 3; 4; 5] st = NoFuel /\
  Append append_file (Z.to_nat (2 ^ 31)) 10 5 [1; 2; 3; 4; 5] st = Fault.
Proof.
  intros st. pose proof NODE_eq as HN. change ALTUS_NODE_SIZE with 4096 in HN.
  destruct (merging_never_returns append_file app 5 [1; 2; 3; 4; 5] st 15 30 [] 1%positive
    (a_node (replicate 10 7)) eq_refl eq_refl (lookup_singleton_eq _ _)) as [E _].
  - cbn [a_node NodeBase.data]. rewrite length_blit; rewrite !length_replicate; [done|lia].
  - done.
  - cbn. lia.
  - done.
  - done.
  - done.
  - done.
  - change (lastSeq (frs st)) with 10 in E. rewrite !E.
    change (s32 (u32 (u32 (5 + 30) - 15))) with 20. change ALTUS_NODE_SIZE with 4096.
    split.
    + rewrite (proj2 (Nat.leb_le _ _)); [done|]. change 20%nat with (Z.to_nat 20).
      apply Z2Nat.inj_le; vm_compute; discriminate.
    + rewrite (proj2 (Nat.leb_gt _ _)); [done|].
      apply Z2Nat.inj_lt; [vm_compute; discriminate..|by vm_compute].
Defined.

Lemma far_block_faults_witness :
  let st := stream_at 0 [1; 2; 3] [] in
  fst (CheckUB (frs st) (u32 9000) 2) = ADDED /\ Append append_file 0 (u32 9000) 2 [8; 9] st = Fault.
Proof.
  intros st. pose proof NODE_eq as HN. change ALTUS_NODE_SIZE with 4096 in HN.
  apply (far_block_faults append_file 0 0 st 1%positive [1; 2; 3] 9000 2 [8; 9] 3).
  - apply stream_at_in_order. cbn [length]. lia.
  - reflexivity.
  - reflexivity.
  - cbn. lia.
  - cbn. lia.
  - change (2 * ALTUS_NODE_SIZE) with 8192. lia.
  - lia.
  - change (ALTUS_DEFAULT_MAX_NODE_COUNT * ALTUS_NODE_SIZE) with 67108864. lia.
Defined.
