(* ===== verification/Bytes.v ===== *)
(** * Byte strings

    What the cipher modes share: bytes as integers below 256, their exclusive
    or, machine words read and written in memory order, big-endian counters,
    and the interface of a block cipher. *)

From S2P Require Import Prelude.

Definition is_byte (b : Z) : Prop := 0 <= b < 256.

Definition bytes (l : list Z) : Prop := Forall is_byte l.

(** A string of [n] bytes. *)
Definition nbytes (n : nat) (l : list Z) : Prop := length l = n /\ bytes l.

(** [a[i] ^ b[i]] for every index of the shorter one. *)
Definition xor_bytes (a b : list Z) : list Z := zip_with Z.lxor a b.

(** A [size_t] read from and written to memory, lowest byte first. *)
Fixpoint word_get (l : list Z) : Z :=
  match l with [] => 0 | b :: r => b + 256 * word_get r end.

Fixpoint word_put (n : nat) (z : Z) : list Z :=
  match n with O => [] | S k => z mod 256 :: word_put k (z / 256) end.

(** [for (n = 0; n < 8 * k; n += sizeof(size_t)) out[n] = a[n] ^ b[n]] on words. *)
Fixpoint xor_words (k : nat) (a b : list Z) : list Z :=
  match k with
  | O => []
  | S k' =>
      word_put 8 (Z.lxor (word_get (take 8 a)) (word_get (take 8 b)))
      ++ xor_words k' (drop 8 a) (drop 8 b)
  end.

(** ** Exclusive or *)

Lemma testbit_byte b i : is_byte b -> 8 <= i -> Z.testbit b i = false.
Proof.
  intros [Hb0 Hb] Hi. destruct (Z.eq_dec b 0) as [->|]; [apply Z.bits_0|].
  apply Z.bits_above_log2; [done|]. apply Z.log2_lt_pow2; [lia|].
  apply Z.lt_le_trans with (2 ^ 8); [lia|]. by apply Z.pow_le_mono_r.
Qed.

Lemma is_byte_bits z : 0 <= z -> (forall i, 8 <= i -> Z.testbit z i = false) -> is_byte z.
Proof.
  intros Hz Hb. split; [done|]. destruct (Z.eq_dec z 0) as [->|Hne]; [lia|].
  change 256 with (2 ^ 8). apply Z.log2_lt_pow2; [lia|].
  destruct (Z.ltb_spec (Z.log2 z) 8); [done|].
  pose proof (Hb (Z.log2 z) ltac:(lia)) as Hx. rewrite Z.bit_log2 in Hx; [done|lia].
Qed.

Lemma is_byte_lxor a b : is_byte a -> is_byte b -> is_byte (Z.lxor a b).
Proof.
  intros Ha Hb. apply is_byte_bits; [apply Z.lxor_nonneg; unfold is_byte in *; lia|].
  intros i Hi. by rewrite Z.lxor_spec, !testbit_byte.
Qed.

Lemma lxor_cancel_r a b : Z.lxor (Z.lxor a b) b = a.
Proof. by rewrite Z.lxor_assoc, Z.lxor_nilpotent, Z.lxor_0_r. Qed.

Lemma lxor_cancel_l a b : Z.lxor a (Z.lxor a b) = b.
Proof. by rewrite <- Z.lxor_assoc, Z.lxor_nilpotent, Z.lxor_0_l. Qed.

Lemma length_xor_bytes a b : length (xor_bytes a b) = Nat.min (length a) (length b).
Proof. apply length_zip_with. Qed.

Lemma bytes_xor a b : bytes a -> bytes b -> bytes (xor_bytes a b).
Proof.
  revert b. induction a as [|x a IH]; intros [|y b] Ha Hb; try constructor.
  - apply is_byte_lxor; [by inversion Ha|by inversion Hb].
  - apply IH; [by inversion Ha|by inversion Hb].
Qed.

Lemma nbytes_xor n a b : nbytes n a -> nbytes n b -> nbytes n (xor_bytes a b).
Proof.
  intros [Ha ?] [Hb ?]. split; [rewrite length_xor_bytes; lia|by apply bytes_xor].
Qed.

(** Applying the same pad twice gives the text back. *)
Lemma xor_bytes_cancel a b : (length a <= length b)%nat -> xor_bytes (xor_bytes a b) b = a.
Proof.
  revert b. induction a as [|x a IH]; intros [|y b] H; simpl in *; try done; [lia|].
  f_equal; [apply lxor_cancel_r|apply IH; lia].
Qed.

Lemma xor_bytes_comm a b : xor_bytes a b = xor_bytes b a.
Proof.
  revert b. induction a as [|x a IH]; intros [|y b]; try done.
  unfold xor_bytes in *. simpl. f_equal; [apply Z.lxor_comm|apply IH].
Qed.

Lemma xor_bytes_app a1 a2 b1 b2 :
  length a1 = length b1 -> xor_bytes (a1 ++ a2) (b1 ++ b2) = xor_bytes a1 b1 ++ xor_bytes a2 b2.
Proof. apply zip_with_app. Qed.

Lemma xor_bytes_take n a b : take n (xor_bytes a b) = xor_bytes (take n a) (take n b).
Proof. apply zip_with_take. Qed.

Lemma bytes_app a b : bytes (a ++ b) <-> bytes a /\ bytes b.
Proof. apply Forall_app. Qed.

Lemma bytes_one b : bytes [b] -> is_byte b.
Proof. by inversion 1. Qed.

Lemma bytes_singleton b : is_byte b -> bytes [b].
Proof. intros H. by apply Forall_singleton. Qed.

Lemma bytes_take n a : bytes a -> bytes (take n a).
Proof. apply Forall_take. Qed.

Lemma bytes_drop n a : bytes a -> bytes (drop n a).
Proof. apply Forall_drop. Qed.

(** ** Words *)

Lemma lxor_mod_256 a b : Z.lxor a b mod 256 = Z.lxor (a mod 256) (b mod 256).
Proof.
  change 256 with (2 ^ 8). apply Z.bits_inj'. intros i Hi. rewrite Z.lxor_spec.
  destruct (Z.ltb_spec i 8).
  - rewrite !Z.mod_pow2_bits_low by lia. by rewrite Z.lxor_spec.
  - by rewrite !Z.mod_pow2_bits_high by lia.
Qed.

Lemma lxor_div_256 a b : Z.lxor a b / 256 = Z.lxor (a / 256) (b / 256).
Proof.
  change 256 with (2 ^ 8). rewrite <- !Z.shiftr_div_pow2 by lia. apply Z.shiftr_lxor.
Qed.

Lemma word_xor n : forall a b, nbytes n a -> nbytes n b ->
  word_put n (Z.lxor (word_get a) (word_get b)) = xor_bytes a b.
Proof.
  induction n as [|n IH]; intros [|x a] [|y b] [Ha Hx] [Hb Hy]; simpl in *; try done.
  inversion_clear Hx as [|? ? Hx1 Hx2]. inversion_clear Hy as [|? ? Hy1 Hy2].
  unfold is_byte in *. rewrite lxor_mod_256, lxor_div_256.
  replace ((x + 256 * word_get a) mod 256) with x by (Z.div_mod_to_equations; lia).
  replace ((y + 256 * word_get b) mod 256) with y by (Z.div_mod_to_equations; lia).
  replace ((x + 256 * word_get a) / 256) with (word_get a) by (Z.div_mod_to_equations; lia).
  replace ((y + 256 * word_get b) / 256) with (word_get b) by (Z.div_mod_to_equations; lia).
  unfold xor_bytes. simpl. f_equal. apply IH; split; (done || lia).
Qed.

Lemma nbytes_take n k l : nbytes (n + k) l -> nbytes n (take n l).
Proof. intros [Hl Hb]. split; [rewrite length_take; lia|by apply bytes_take]. Qed.

Lemma nbytes_drop n k l : nbytes (n + k) l -> nbytes k (drop n l).
Proof. intros [Hl Hb]. split; [rewrite length_drop; lia|by apply bytes_drop]. Qed.

(** Word by word or byte by byte: the same exclusive or. *)
Lemma xor_words_bytes k : forall a b, nbytes (8 * k) a -> nbytes (8 * k) b ->
  xor_words k a b = xor_bytes a b.
Proof.
  induction k as [|k IH]; intros a b Ha Hb.
  - destruct Ha as [Ha _]. by destruct a.
  - cbn [xor_words]. replace (8 * S k)%nat with (8 + 8 * k)%nat in * by lia.
    rewrite word_xor by (by eapply nbytes_take). rewrite IH by (by eapply nbytes_drop).
    rewrite <- xor_bytes_app, !take_drop; [done|].
    destruct (nbytes_take _ _ _ Ha), (nbytes_take _ _ _ Hb). congruence.
Qed.

Lemma xor_words_16 a b : nbytes 16 a -> nbytes 16 b -> xor_words 2 a b = xor_bytes a b.
Proof. apply (xor_words_bytes 2). Qed.

(** ** Big-endian numbers *)

Fixpoint be_get_acc (acc : Z) (l : list Z) : Z :=
  match l with [] => acc | b :: r => be_get_acc (256 * acc + b) r end.

Definition be_get (l : list Z) : Z := be_get_acc 0 l.

Lemma be_get_acc_eq l : forall acc,
  be_get_acc acc l = acc * 256 ^ Z.of_nat (length l) + be_get l.
Proof.
  unfold be_get. induction l as [|b l IH]; intros acc; cbn [be_get_acc length]; [change (Z.of_nat 0) with 0; rewrite Z.pow_0_r; ring|].
  rewrite (IH (256 * acc + b)), (IH (256 * 0 + b)).
  rewrite Nat2Z.inj_succ, Z.pow_succ_r by lia. ring.
Qed.

Lemma be_get_snoc l b : be_get (l ++ [b]) = 256 * be_get l + b.
Proof.
  unfold be_get. generalize 0. induction l as [|x l IH]; intros acc; simpl; [done|apply IH].
Qed.

Lemma be_get_app a b : be_get (a ++ b) = be_get a * 256 ^ Z.of_nat (length b) + be_get b.
Proof.
  assert (H : forall a acc, be_get_acc acc (a ++ b) = be_get_acc (be_get_acc acc a) b).
  { intros a'. induction a' as [|x a' IH]; intros acc; simpl; [done|apply IH]. }
  unfold be_get at 1. rewrite H, be_get_acc_eq. done.
Qed.

Lemma be_get_bounds l : bytes l -> 0 <= be_get l < 256 ^ Z.of_nat (length l).
Proof.
  induction l as [|b l IH] using rev_ind; intros Hb; [by vm_compute|].
  apply bytes_app in Hb as [Hl Hb]. specialize (IH Hl). apply bytes_one in Hb.
  rewrite be_get_snoc, length_app. cbn [length]. replace (Z.of_nat (length l + 1)) with
    (Z.succ (Z.of_nat (length l))) by lia. rewrite Z.pow_succ_r by lia.
  unfold is_byte in Hb. lia.
Qed.

Lemma be_get_inj a b : bytes a -> bytes b -> length a = length b -> be_get a = be_get b -> a = b.
Proof.
  revert b. induction a as [|x a IH] using rev_ind; intros b Ha Hb Hl He.
  - destruct b; [done|simpl in Hl; lia].
  - destruct b as [|y b _] using rev_ind; [rewrite length_app in Hl; simpl in Hl; lia|].
    rewrite !length_app in Hl. rewrite !be_get_snoc in He.
    apply bytes_app in Ha as [Ha Hx], Hb as [Hb Hy].
    apply bytes_one in Hx, Hy. unfold is_byte in *.
    assert (x = y) as -> by lia. f_equal. apply IH; (done || lia || simpl in *; lia).
Qed.

(** ** The interface of a block cipher

    [block128_f] of the modes, with the key applied: a function from 16-byte
    blocks to 16-byte blocks, and two such functions that invert each other. *)
Class BlockFn (f : list Z -> list Z) : Prop :=
  block_ok : forall b, nbytes 16 b -> nbytes 16 (f b).

Class BlockCipher (enc dec : list Z -> list Z) : Prop := {
  bc_enc :: BlockFn enc;
  bc_dec :: BlockFn dec;
  bc_inv : forall b, nbytes 16 b -> dec (enc b) = b
}.

(** A toy cipher for the instances: it reverses the block and masks it. *)
Definition toy_enc (b : list Z) : list Z := reverse (map (Z.lxor 85) b).
Definition toy_dec (b : list Z) : list Z := map (Z.lxor 85) (reverse b).

Lemma nbytes_map_lxor n c l : is_byte c -> nbytes n l -> nbytes n (map (Z.lxor c) l).
Proof.
  intros Hc [Hl Hb]. split; [by rewrite length_map|].
  apply Forall_map. eapply Forall_impl; [exact Hb|]. intros x. by apply is_byte_lxor.
Qed.

Lemma nbytes_reverse n l : nbytes n l -> nbytes n (reverse l).
Proof. intros [Hl Hb]. split; [by rewrite length_reverse|by apply Forall_reverse]. Qed.

#[export] Instance toy_cipher : BlockCipher toy_enc toy_dec.
Proof.
  split.
  - intros b Hb. apply nbytes_reverse, nbytes_map_lxor; [unfold is_byte; lia|done].
  - intros b Hb. apply nbytes_map_lxor; [unfold is_byte; lia|]. by apply nbytes_reverse.
  - intros b _. unfold toy_enc, toy_dec. rewrite reverse_involutive, map_map.
    rewrite <- (map_id b) at 2. apply map_ext. intros x. apply lxor_cancel_l.
Qed.

#[export] Instance is_byte_dec b : Decision (is_byte b).
Proof. unfold is_byte. apply _. Defined.

#[export] Instance bytes_dec l : Decision (bytes l).
Proof. unfold bytes. apply _. Defined.

#[export] Instance nbytes_dec n l : Decision (nbytes n l).
Proof. unfold nbytes. apply _. Defined.

(** Decides the side conditions of closed examples. *)
Ltac solve_closed := apply (bool_decide_unpack _); vm_compute; exact I.

(** [z] as [n] bytes, the highest first. *)
Fixpoint be_put (n : nat) (z : Z) : list Z :=
  match n with O => [] | S k => be_put k (z / 256) ++ [z mod 256] end.

Lemma nbytes_be_put n : forall z, nbytes n (be_put n z).
Proof.
  induction n as [|n IH]; intros z; [split; [done|constructor]|]. destruct (IH (z / 256)) as [Hl Hb].
  split; simpl; [rewrite length_app, Hl; simpl; lia|].
  apply bytes_app. split; [done|]. apply bytes_singleton. unfold is_byte.
  apply Z.mod_pos_bound. lia.
Qed.

Lemma be_get_put n : forall z, be_get (be_put n z) = z mod 256 ^ Z.of_nat n.
Proof.
  induction n as [|n IH]; intros z.
  - change (256 ^ Z.of_nat 0) with 1. by rewrite Z.mod_1_r.
  - cbn [be_put]. rewrite be_get_snoc, IH.
    rewrite Nat2Z.inj_succ, Z.pow_succ_r by lia.
    rewrite Z.rem_mul_r; [lia|lia|apply Z.pow_pos_nonneg; lia].
Qed.

(** ** Comparison *)

(** [CRYPTO_memcmp]: zero if no byte differs. *)
Fixpoint CRYPTO_memcmp (len : nat) (x : Z) (a b : list Z) : Z :=
  match len, a, b with
  | S n, p :: a', q :: b' => CRYPTO_memcmp n (Z.lor x (Z.lxor p q)) a' b'
  | _, _, _ => x
  end.

(** [CRYPTO_memcmp] is zero if no byte differs. *)
Lemma memcmp_zero n : forall x a b, 0 <= x -> bytes a -> bytes b -> (n <= length a)%nat -> (n <= length b)%nat ->
  CRYPTO_memcmp n x a b = 0 <-> x = 0 /\ take n a = take n b.
Proof.
  induction n as [|n IH]; intros x a b Hx Ha Hb La Lb; [cbn; naive_solver|].
  destruct a as [|p a], b as [|q b]; cbn in La, Lb; [lia..|].
  inversion_clear Ha as [|? ? Hp Ha']. inversion_clear Hb as [|? ? Hq Hb']. cbn [CRYPTO_memcmp take].
  rewrite IH; [|apply Z.lor_nonneg; split; [done|]; apply Z.lxor_nonneg; unfold is_byte in *; lia|done|done|lia|lia].
  rewrite Z.lor_eq_0_iff, Z.lxor_eq_0_iff. split; [intros [[-> ->] ->]; done|]. intros [-> E]. by simplify_eq.
Qed.

(** ** Words in memory *)

Lemma nbytes_word_put n z : nbytes n (word_put n z).
Proof.
  revert z. induction n as [|n IH]; intros z; [split; [done|apply Forall_nil_2]|].
  destruct (IH (z / 256)) as [Hl Hb]. split; [cbn; by rewrite Hl|].
  apply Forall_cons_2; [|done]. unfold is_byte. apply Z.mod_pos_bound. lia.
Qed.

Lemma word_get_put n z : word_get (word_put n z) = z mod 256 ^ Z.of_nat n.
Proof.
  revert z. induction n as [|n IH]; intros z.
  - change (256 ^ Z.of_nat 0) with 1. by rewrite Z.mod_1_r.
  - cbn [word_put word_get]. rewrite IH, Nat2Z.inj_succ, Z.pow_succ_r by lia.
    rewrite Z.rem_mul_r; [lia|lia|apply Z.pow_pos_nonneg; lia].
Qed.

Lemma word_get_bounds l : bytes l -> 0 <= word_get l < 256 ^ Z.of_nat (length l).
Proof.
  induction 1 as [|b r Hb Hr IH]; [by vm_compute|]. cbn [word_get length].
  rewrite Nat2Z.inj_succ, Z.pow_succ_r by lia. unfold is_byte in Hb. lia.
Qed.

Lemma word_get_app a b : word_get (a ++ b) = word_get a + 256 ^ Z.of_nat (length a) * word_get b.
Proof.
  induction a as [|x a IH]; cbn [app word_get length]; [change (256 ^ Z.of_nat 0) with 1; lia|].
  rewrite IH, Nat2Z.inj_succ, Z.pow_succ_r by lia. ring.
Qed.
