(* ===== verification/Channel.v ===== *)
(** * Channels (src/ALTUS/channel.h, channel.cpp)

    A channel dispatches the packets of one stream of a peer to the structure
    behind it: a shared struct, a windowed queue or a file receive stream.  The
    union of the class is a sum type; the windows of all channels share the node
    pool of the host and the heap of its nodes, the file streams the node pool
    of the C++ layer. *)

From S2P Require Import Prelude NodePool FileRcvStream UBList NodeHeap WindowedQueue Bytes.

Definition ALTUS_FLAG_ACK : Z := 1.
Definition ALTUS_PACKET_SIZE : Z := 496.
Definition ALTUS_RETRY_SIZE : Z := 62464.
Definition ALTUS_RDT_HEADER_SIZE : Z := 8.
Definition ALTUS_RDT_DATA_SIZE : Z := 488.

(** [enum class channelType] *)
Inductive channelType :=
| invalid | shared_struct | rdt_stream | file_stream | lossy_stream
| shared_struct_rcv | rdt_stream_rcv | file_stream_rcv | lossy_stream_rcv.

#[export] Instance channelType_eq_dec : EqDecision channelType.
Proof. solve_decision. Defined.

(** The union: a null pointer, [buffer], [frstream] with its file, [storage]. *)
Inductive content (F : Type) :=
| CNull
| CBuffer (w : WQ_Window)
| CFile (s : FileRcvStream) (f : F)
| CStorage (bytes : list Z).
Arguments CNull {F}.
Arguments CBuffer {F} w.
Arguments CFile {F} s f.
Arguments CStorage {F} bytes.

(** [class channel] *)
Record channel (F : Type) := mkChannel {
  ctype : channelType;
  IsReceiving : bool;
  NextSendSeq : Z;
  lastAckedSeq : Z;
  lastLostLen : Z;
  IsUpdated : bool;
  union : content F;
  storage_size : Z
}.
Arguments mkChannel {F} _ _ _ _ _ _ _ _.
Arguments ctype {F} _.
Arguments IsReceiving {F} _.
Arguments NextSendSeq {F} _.
Arguments lastAckedSeq {F} _.
Arguments lastLostLen {F} _.
Arguments IsUpdated {F} _.
Arguments union {F} _.
Arguments storage_size {F} _.

(** What all channels of a host share. *)
Record world := mkWorld {
  wq_pool : WQ_Node_Pool;
  wq_mem : mem;
  node_pool : NodeBase.NodePool;
  node_heap : NodeBase.heap
}.

(** Bytes [off, off + n) of a packet, and a number in network byte order. *)
Definition field (buf : list Z) (off n : nat) : list Z := take n (drop off buf).
Definition ntoh (buf : list Z) (off n : nat) : Z := be_get (field buf off n).
Definition packet_byte (buf : list Z) (off : nat) : Z := nth off buf 0.

Section channels.
Context {F : Type} (WriteFile : F -> list Z -> F * Z).

Definition set_union (u : content F) (c : channel F) : channel F :=
  mkChannel (ctype c) (IsReceiving c) (NextSendSeq c) (lastAckedSeq c) (lastLostLen c)
    (IsUpdated c) u (storage_size c).
Definition set_ctype (t : channelType) (c : channel F) : channel F :=
  mkChannel t (IsReceiving c) (NextSendSeq c) (lastAckedSeq c) (lastLostLen c)
    (IsUpdated c) (union c) (storage_size c).
Definition set_updated (b : bool) (c : channel F) : channel F :=
  mkChannel (ctype c) (IsReceiving c) (NextSendSeq c) (lastAckedSeq c) (lastLostLen c)
    b (union c) (storage_size c).
Definition set_NextSendSeq (z : Z) (c : channel F) : channel F :=
  mkChannel (ctype c) (IsReceiving c) z (lastAckedSeq c) (lastLostLen c)
    (IsUpdated c) (union c) (storage_size c).

(** [channel::channel(_newPool, _pool, IsReceiver)]; [raw_acked] is what the
    memory of [lastAckedSeq] holds, which this constructor does not set. *)
Definition channel_new (raw_acked : Z) (IsReceiver : bool) : channel F :=
  mkChannel invalid IsReceiver 0 raw_acked 0 false CNull 0.

(** [channel::channel(_newPool, _pool, _type, arg, n)]; [raw_c] is the memory of
    the object, of which the constructor leaves fields as they are, [raw] that
    of a new window, [storage] what [arg] points to; [cap] and [opened] are for
    the file stream. *)
Definition channel_new_type (raw_c : channel F) (t : channelType) (storage : list Z) (n : Z)
  (raw : WQ_Window) (cap : nat) (opened : bool) (f : F) (w : world) : outcome (channel F * world) :=
  match t with
  | invalid => Throw
  | shared_struct => Ret (mkChannel t false 0 0 0 false (CStorage storage) n, w)
  | rdt_stream =>
      '(win, m) ← altusNewWindow raw (wq_mem w);
      Ret (mkChannel t false 0 0 0 false (CBuffer win) (storage_size raw_c),
           mkWorld (wq_pool w) m (node_pool w) (node_heap w))
  | file_stream_rcv =>
      st ← FileRcvStream_new cap opened (node_pool w) (node_heap w) f;
      Ret (mkChannel t true 0 0 0 false (CFile (frs st) (file st)) (storage_size raw_c),
           mkWorld (wq_pool w) (wq_mem w) (FileRcvStream.pool st) (FileRcvStream.mem st))
  | _ => Ret (set_ctype t raw_c, w)
  end.

(** [channel::LinkStruct] *)
Definition LinkStruct (target : list Z) (length : Z) (c : channel F) : Z * channel F :=
  if decide (ctype c = invalid) then
    (0, mkChannel shared_struct (IsReceiving c) (NextSendSeq c) (lastAckedSeq c) (lastLostLen c)
          (IsUpdated c) (CStorage target) (u8 length))
  else (-1, c).

(** What [LinkRDTWindow] and [LinkLossyWindow] do to the new window. *)
Definition zero_window (w : WQ_Window) : WQ_Window := set_win_headSeq 0 (set_lastSeq 0 w).

(** [channel::LinkRDTWindow] and [channel::LinkLossyWindow] *)
Definition LinkWindow (t : channelType) (raw : WQ_Window) (c : channel F) (w : world)
  : outcome (channel F * world) :=
  '(win, m) ← altusNewWindow raw (wq_mem w);
  Ret (set_ctype t (set_union (CBuffer (zero_window win)) c),
       mkWorld (wq_pool w) m (node_pool w) (node_heap w)).

Definition LinkRDTWindow := LinkWindow rdt_stream.
Definition LinkLossyWindow := LinkWindow lossy_stream.

(** An operation of the windowed queue on the window of a channel. *)
Definition on_buffer {A} (op : wqs -> outcome (A * wqs)) (c : channel F) (w : world)
  : outcome (A * channel F * world) :=
  match union c with
  | CBuffer win =>
      '(a, st) ← op (mkWqs win (wq_pool w) (wq_mem w));
      Ret (a, set_union (CBuffer (WindowedQueue.win st)) c,
           mkWorld (WindowedQueue.pool st) (memory st) (node_pool w) (node_heap w))
  | _ => Fault
  end.

(** The header of a data packet: the number of padding bytes, the sequence
    number, and the length of the data as the [unsigned int] it is passed as. *)
Definition data_length (buf : list Z) (packetSize : Z) : Z :=
  u32 (packetSize - ALTUS_RDT_HEADER_SIZE - packet_byte buf 2).

(** [channel::receive] on a receiving channel. *)
Definition receive_data (fuel : nat) (buf : list Z) (packetSize : Z) (c : channel F) (w : world)
  : outcome (Z * channel F * world) :=
  match ctype c with
  | invalid => Ret (-1, c, w)
  | shared_struct =>
      if packetSize <? storage_size c then Ret (-1, c, w)
      else
        match union c with
        | CStorage s =>
            src ← mem_read buf 0 (storage_size c);
            s ← mem_write s 0 src;
            Ret (0, set_union (CStorage s) c, w)
        | _ => Fault
        end
  | rdt_stream =>
      let currentSeq := ntoh buf 4 4 in
      '(_, c, w) ← on_buffer (altusWQPut currentSeq (data_length buf packetSize)
                                (drop (Z.to_nat ALTUS_RDT_HEADER_SIZE) buf)) c w;
      if negb (Z.lor (packet_byte buf 3) ALTUS_FLAG_ACK =? 0) then Ret (1, c, w) else Ret (0, c, w)
  | lossy_stream =>
      '(_, c, w) ← on_buffer (fun st =>
                     altusWQPut (lastSeq (win st)) (u32 (Z.shiftr packetSize 4)) buf st) c w;
      Ret (0, c, w)
  | file_stream_rcv =>
      let currentSeq := ntoh buf 4 4 in
      match union c with
      | CFile s f =>
          '(_, st) ← Append WriteFile fuel currentSeq (data_length buf packetSize)
                       (drop (Z.to_nat ALTUS_RDT_HEADER_SIZE) buf)
                       (mkSys s (node_pool w) (node_heap w) f);
          Ret (0, set_union (CFile (frs st) (file st)) c,
               mkWorld (wq_pool w) (wq_mem w) (FileRcvStream.pool st) (FileRcvStream.mem st))
      | _ => Fault
      end
  | _ => Exit
  end.

(** [channel::receive] on a sending channel: an acknowledgement. *)
Definition receive_ack (buf : list Z) (c : channel F) (w : world) : outcome (Z * channel F * world) :=
  match ctype c with
  | rdt_stream =>
      let LostLen := ntoh buf 2 2 in
      let Seq := ntoh buf 4 4 in
      let deltaSeq := s32 (Seq - lastAckedSeq c) in
      if (deltaSeq <? 0) || (s32 (NextSendSeq c - Seq) <? 0) then Ret (0, c, w)
      else if negb (LostLen =? 0) then Ret (-1, c, w)
      else
        '(_, c, w) ← on_buffer (fun st =>
                       '(n, _, st) ← altusWQPop deltaSeq None st; Ret (n, st)) c w;
        Ret (-1, c, w)
  | _ => Ret (-1, c, w)
  end.

Definition receive (fuel : nat) (buf : list Z) (packetSize : Z) (c : channel F) (w : world)
  : outcome (Z * channel F * world) :=
  if IsReceiving c then receive_data fuel buf packetSize c w else receive_ack buf c w.

(** [channel::~channel]: the window is freed, the nodes of a file stream go
    back to their pool. *)
Definition channel_delete (c : channel F) (w : world) : outcome world :=
  match ctype c with
  | rdt_stream | rdt_stream_rcv =>
      match union c with
      | CBuffer win =>
          m ← altusFreeWQ win (wq_mem w);
          Ret (mkWorld (wq_pool w) m (node_pool w) (node_heap w))
      | _ => Fault
      end
  | file_stream_rcv =>
      match union c with
      | CFile s f =>
          '(p, h) ← FileRcvStream_delete (mkSys s (node_pool w) (node_heap w) f);
          Ret (mkWorld (wq_pool w) (wq_mem w) p h)
      | _ => Fault
      end
  | _ => Ret w
  end.
End channels.
