(* ===== verification/Peer.v ===== *)
(** * Peers (src/ALTUS/ALTUSPeer.h, ALTUSPeer.cpp)

    A peer maps channel numbers to channels, hands incoming packets to them,
    answers data with acknowledgements and cuts the windows of its sending
    channels into packets.  What [sendto] is given is part of the results. *)

From stdpp Require Import sorting.
From S2P Require Import Prelude NodePool FileRcvStream UBList NodeHeap WindowedQueue Bytes Channel.

Definition ALTUS_SESSION_KEY_SIZE : Z := 32.

(** [if (key != nullptr) { memset(key, 0, n); free(key); }], as the
    destructors of peers and pre-peers have it; what is freed is not read
    again. *)
Definition wipe (key : option (list Z)) (n : Z) : outcome unit :=
  match key with
  | None => Ret tt
  | Some k => _ ← mem_write k 0 (replicate (Z.to_nat n) 0); Ret tt
  end.

Section peers.
Context {F : Type} (WriteFile : F -> list Z -> F * Z).

(** [class ALTUSPeer]; the socket and the pools are not part of it here. *)
Record ALTUSPeer := mkPeer {
  ch : gmap Z (channel F);
  lastcuid : Z;
  remoteIP : Z;
  remotePort : Z;
  publicKey : list Z;
  keySize : Z;
  sessionKey : list Z
}.

Definition set_ch (m : gmap Z (channel F)) (p : ALTUSPeer) : ALTUSPeer :=
  mkPeer m (lastcuid p) (remoteIP p) (remotePort p) (publicKey p) (keySize p) (sessionKey p).
Definition set_lastcuid (z : Z) (p : ALTUSPeer) : ALTUSPeer :=
  mkPeer (ch p) z (remoteIP p) (remotePort p) (publicKey p) (keySize p) (sessionKey p).
Definition set_channel (cuid : Z) (c : channel F) (p : ALTUSPeer) : ALTUSPeer :=
  set_ch (<[cuid := c]> (ch p)) p.

(** A channel with a window, as both constructors make three of; [acked] and
    [raw] are uninitialised memory. *)
Definition window_channel (acked : Z) (raw : WQ_Window) (receiving : bool) (w : world)
  : outcome (channel F * world) :=
  LinkRDTWindow raw (channel_new acked receiving) w.

(** The two constructors: the channels 0 to 3 of the server's and of the
    client's side; [acked] and [raw] give the uninitialised memory of each. *)
Definition ALTUSPeer_server (ip port : Z) (key session : list Z) (ksize : Z)
  (acked : nat -> Z) (raw : nat -> WQ_Window) (raw_c : channel F) (cap : nat) (opened : bool) (f : F)
  (w : world) : outcome (ALTUSPeer * world) :=
  '(receivingCH, w) ← window_channel (acked 0%nat) (raw 0%nat) true w;
  '(sendingCH, w) ← window_channel (acked 1%nat) (raw 1%nat) false w;
  '(fileSenderCH, w) ← window_channel (acked 2%nat) (raw 2%nat) false w;
  '(fileCH, w) ← channel_new_type raw_c file_stream_rcv [] 0 (raw 3%nat) cap opened f w;
  Ret (mkPeer (<[3 := fileSenderCH]> (<[2 := fileCH]> (<[1 := sendingCH]> {[0 := receivingCH]})))
         1 ip port key ksize session, w).

Definition ALTUSPeer_client (addrport : Z) (key session : list Z) (ksize : Z)
  (acked : nat -> Z) (raw : nat -> WQ_Window) (raw_c : channel F) (cap : nat) (opened : bool) (f : F)
  (w : world) : outcome (ALTUSPeer * world) :=
  '(sendingCH, w) ← window_channel (acked 0%nat) (raw 0%nat) false w;
  '(receivingCH, w) ← window_channel (acked 1%nat) (raw 1%nat) true w;
  '(fileSenderCH, w) ← window_channel (acked 2%nat) (raw 2%nat) false w;
  '(fileCH, w) ← channel_new_type raw_c file_stream_rcv [] 0 (raw 3%nat) cap opened f w;
  Ret (mkPeer (<[3 := fileCH]> (<[2 := fileSenderCH]> (<[1 := receivingCH]> {[0 := sendingCH]})))
         1 (u32 (Z.shiftr addrport 32)) (Z.land addrport 0xFFFF) key ksize session, w).

(** [while (ch.find(newcuid) != ch.end())] of [newChannel]. *)
Fixpoint find_cuid (fuel : nat) (m : gmap Z (channel F)) (newcuid lastcuid : Z) : outcome (option Z) :=
  match m !! newcuid with
  | None => Ret (Some newcuid)
  | Some _ =>
      match fuel with
      | O => NoFuel
      | S k =>
          let newcuid := u16 (newcuid + 1) in
          if newcuid =? lastcuid then Ret None else find_cuid k m newcuid lastcuid
      end
  end.

(** [ALTUSPeer::newChannel]: every turn of the loop finds another channel, so
    that their number bounds the turns. *)
Definition newChannel (acked : Z) (receiving : bool) (p : ALTUSPeer) : outcome (Z * ALTUSPeer) :=
  let newcuid := u16 (lastcuid p + 1) in
  let p := set_lastcuid newcuid p in
  r ← find_cuid (size (ch p)) (ch p) newcuid newcuid;
  match r with
  | None => Ret (-1, p)
  | Some newcuid => Ret (newcuid, set_channel newcuid (channel_new acked receiving) p)
  end.

Definition getChannelByID (cuid : Z) (p : ALTUSPeer) : option (channel F) := ch p !! cuid.

(** The acknowledgement of [processPacket] for the packet in [buf]. *)
Definition response (buf : list Z) (w : WQ_Window) : outcome (list Z) :=
  let u := ub_list w in
  lostLen ← (if 0 <? count u then
               h ← aget (headSeq u) 0;
               let unseq_size := u32 (h - lastSeq w) in
               Ret (u16 unseq_size)
             else Ret 0);
  Ret (field buf 0 2 ++ be_put 2 lostLen ++ be_put 4 (lastSeq w)).

(** [ALTUSPeer::processPacket]: the result, what is sent, the new state. *)
Definition processPacket (fuel : nat) (buf : list Z) (recvSize : Z) (p : ALTUSPeer) (w : world)
  : outcome (Z * list (list Z) * ALTUSPeer * world) :=
  let cuid := ntoh buf 0 2 in
  match ch p !! cuid with
  | None => Ret (-1, [], p, w)
  | Some thisChannel =>
      '(r, c, w) ← receive WriteFile fuel buf recvSize thisChannel w;
      let p := set_channel cuid c p in
      if r =? 0 then Ret (0, [], p, w)
      else if r =? 1 then
        match union c with
        | CBuffer win => packet ← response buf win; Ret (-1, [packet], p, w)
        | _ => Fault
        end
      else Ret (-1, [], p, w)
  end.

(** [ALTUSPeer::CreateUpstream] *)
Definition CreateUpstream (cuid : Z) (buf : list Z) (len : Z) (p : ALTUSPeer) (w : world)
  : outcome (Z * ALTUSPeer * world) :=
  match ch p !! cuid with
  | None => Ret (-1, p, w)
  | Some c =>
      if negb (bool_decide (ctype c = rdt_stream)) || IsReceiving c then Ret (-2, p, w)
      else
        '(retval, c, w) ← on_buffer (fun st => altusWQPut (lastSeq (win st)) (u32 len) buf st) c w;
        Ret (retval, set_channel cuid (set_updated true c) p, w)
  end.

(** [memcpy] of [n] bytes from the position a peek has found. *)
Definition read_pos (m : mem) (pos : option (ptr * Z)) (n : Z) : outcome (list Z) :=
  match pos with
  | None => if n =? 0 then Ret [] else Fault
  | Some (q, off) => nd ← load m q; mem_read (data nd) off n
  end.

(** A data packet: its header, its data, and as much padding as the header
    says, which is what the buffer [raw] happened to hold. *)
Definition rdt_header (cuid padding seq : Z) : list Z :=
  be_put 2 (u16 cuid) ++ [padding; ALTUS_FLAG_ACK] ++ be_put 4 seq.

Definition rdt_packet (raw : list Z) (cuid padding seq : Z) (data : list Z) : list Z :=
  take (8 + length data + Z.to_nat padding)
    (rdt_header cuid padding seq ++ data ++ drop (8 + length data) raw).

(** The case [rdt_stream] of [Send], one packet. *)
Definition send_rdt (raw : list Z) (cuid : Z) (c : channel F) (w : world)
  : outcome (list Z * channel F) :=
  match union c with
  | CBuffer win =>
      let st := mkWqs win (wq_pool w) (wq_mem w) in
      let nextSeq := NextSendSeq c in
      let c' := set_NextSendSeq (u32 (nextSeq + ALTUS_RDT_DATA_SIZE)) c in
      '(a, pos) ← altusWQPeek nextSeq st;
      let availableLen := u32 a in
      if ALTUS_RDT_DATA_SIZE <=? availableLen then
        d ← read_pos (wq_mem w) pos ALTUS_RDT_DATA_SIZE;
        Ret (rdt_packet raw cuid 0 nextSeq d, c')
      else
        '(a2, pos2) ← altusWQPeek (u32 (nextSeq + availableLen)) st;
        let sendingLen := u32 (availableLen + u32 a2) in
        let sendingLen := if ALTUS_RDT_DATA_SIZE <? sendingLen then ALTUS_RDT_DATA_SIZE else sendingLen in
        let paddingLen := u32 (ALTUS_PACKET_SIZE - sendingLen - ALTUS_RDT_HEADER_SIZE) mod 16 in
        d ← read_pos (wq_mem w) pos availableLen;
        match pos2 with
        | Some _ =>
            d2 ← read_pos (wq_mem w) pos2 (u32 (sendingLen - availableLen));
            Ret (rdt_packet raw cuid paddingLen nextSeq (d ++ d2), c')
        | None => Ret (rdt_packet raw cuid paddingLen nextSeq d, set_updated false c')
        end
  | _ => Fault
  end.

(** [for (int i = 0; i < 16 && cd->_IsUpdated; i++)]: the packets, the channel,
    and whether [Send] returns -2. *)
Fixpoint send_channel (turns : nat) (raw : list Z) (cuid : Z) (c : channel F) (w : world)
  : outcome (list (list Z) * channel F * bool) :=
  match turns with
  | O => Ret ([], c, false)
  | S k =>
      if negb (IsUpdated c) then Ret ([], c, false)
      else if IsReceiving c then send_channel k raw cuid c w
      else
        match ctype c with
        | invalid => send_channel k raw cuid c w
        | shared_struct =>
            match union c with
            | CStorage s =>
                packet ← mem_read s 0 (storage_size c);
                '(l, c, stop) ← send_channel k raw cuid c w;
                Ret (packet :: l, c, stop)
            | _ => Fault
            end
        | rdt_stream =>
            '(packet, c) ← send_rdt raw cuid c w;
            '(l, c, stop) ← send_channel k raw cuid c w;
            Ret (packet :: l, c, stop)
        | _ => Ret ([], c, true)
        end
  end.

(** The channels in the order of the map. *)
Fixpoint send_channels (cuids : list Z) (raw : list Z) (p : ALTUSPeer) (w : world)
  : outcome (Z * list (list Z) * ALTUSPeer) :=
  match cuids with
  | [] => Ret (0, [], p)
  | cuid :: rest =>
      match ch p !! cuid with
      | None => send_channels rest raw p w
      | Some c =>
          '(l, c, stop) ← send_channel 16 raw cuid c w;
          let p := set_channel cuid c p in
          if (stop : bool) then Ret (-2, l, p)
          else
            '(r, l', p) ← send_channels rest raw p w;
            Ret (r, l ++ l', p)
      end
  end.

(** [ALTUSPeer::Send]; [raw] is what the uninitialised packet buffer holds. *)
Definition Send (raw : list Z) (p : ALTUSPeer) (w : world)
  : outcome (Z * list (list Z) * ALTUSPeer) :=
  send_channels (merge_sort Z.le (elements (dom (ch p)))) raw p w.

(** [delete chi.second] for every channel, in the order of the map. *)
Fixpoint delete_channels (cuids : list Z) (m : gmap Z (channel F)) (w : world) : outcome world :=
  match cuids with
  | [] => Ret w
  | cuid :: rest =>
      match m !! cuid with
      | None => delete_channels rest m w
      | Some c => w ← channel_delete c w; delete_channels rest m w
      end
  end.

(** [ALTUSPeer::~ALTUSPeer]: both keys are wiped, [keySize] bytes of the one,
    and the channels are deleted. *)
Definition ALTUSPeer_delete (p : ALTUSPeer) (w : world) : outcome world :=
  _ ← wipe (Some (publicKey p)) (keySize p);
  _ ← wipe (Some (sessionKey p)) ALTUS_SESSION_KEY_SIZE;
  delete_channels (merge_sort Z.le (elements (dom (ch p)))) (ch p) w.
End peers.
Arguments ALTUSPeer F : clear implicits.
