(* ===== verification/PeerStream.v ===== *)
(** * A stream from peer to peer

    The composition of the components: what [Send] cuts from the window of a
    sending channel, what [processPacket] does with it on the receiving side,
    and what a reader of the receiving channel sees in the end.  The numbers of
    new channels are also dealt with here. *)

From S2P Require Import Prelude NodePool FileRcvStream UBList NodeHeap WindowedQueue WQChains.
From S2P Require Import WQStream WQCorrect WQTheorems Bytes Channel Peer.

(** ** Packets *)

Lemma rdt_header_bytes cuid padding seq :
  rdt_header cuid padding seq =
    [u16 cuid / 256 mod 256; u16 cuid mod 256; padding; ALTUS_FLAG_ACK;
     seq / 256 / 256 / 256 mod 256; seq / 256 / 256 mod 256; seq / 256 mod 256; seq mod 256].
Proof. reflexivity. Qed.

(** What the receiver reads from a packet, whatever follows it in its buffer. *)
Lemma rdt_packet_fields raw cuid padding seq d junk :
  0 <= cuid < 2 ^ 16 -> 0 <= seq < 2 ^ 32 -> 0 <= padding -> length raw = 496%nat ->
  (8 + length d + Z.to_nat padding <= 496)%nat ->
  let packet := rdt_packet raw cuid padding seq d in
  let buf := packet ++ junk in
  length packet = (8 + length d + Z.to_nat padding)%nat /\
  ntoh buf 0 2 = cuid /\ field buf 0 2 = be_put 2 cuid /\
  packet_byte buf 2 = padding /\ packet_byte buf 3 = ALTUS_FLAG_ACK /\ ntoh buf 4 4 = seq /\
  data_length buf (Z.of_nat (length packet)) = Z.of_nat (length d) /\
  exists rest, drop 8 buf = d ++ rest.
Proof.
  intros Hc Hs Hp Hraw Hl. cbv zeta.
  assert (Ep : rdt_packet raw cuid padding seq d =
    rdt_header cuid padding seq ++ d ++ take (Z.to_nat padding) (drop (8 + length d) raw)).
  { unfold rdt_packet. rewrite rdt_header_bytes. cbn [app Nat.add take]. do 8 f_equal.
    rewrite take_app_ge by lia. do 2 f_equal. lia. }
  assert (Lp : length (rdt_packet raw cuid padding seq d) = (8 + length d + Z.to_nat padding)%nat).
  { rewrite Ep, !length_app, length_take, length_drop, Hraw, rdt_header_bytes. cbn [length]. lia. }
  assert (Ec : u16 cuid = cuid) by (by apply u16_small).
  assert (E2 : be_get (be_put 2 cuid) = cuid).
  { rewrite be_get_put. apply Z.mod_small. done. }
  assert (E4 : be_get (be_put 4 seq) = seq).
  { rewrite be_get_put. apply Z.mod_small. done. }
  rewrite Lp, Ep, rdt_header_bytes, Ec. unfold ntoh, field, data_length, packet_byte.
  cbn [app take drop nth]. split_and!; [done|exact E2|reflexivity|done|done|exact E4| |].
  - change ALTUS_RDT_HEADER_SIZE with 8. rewrite u32_small by lia. lia.
  - eexists. rewrite <- app_assoc. reflexivity.
Qed.

(** ** Receiving *)

(** The window behind channel [cuid], which receives a reliable stream. *)
Definition receiving {F} (p : ALTUSPeer F) (cuid : Z) (c : channel F) (v : WQ_Window) : Prop :=
  ch p !! cuid = Some c /\ ctype c = rdt_stream /\ IsReceiving c = true /\ union c = CBuffer v.

Definition queue (v : WQ_Window) (w : world) : wqs := mkWqs v (wq_pool w) (wq_mem w).

(** What the acknowledgement says is missing, for the blocks [blk] behind the
    next expected number [L]. *)
Definition lost (L : Z) (blk : list (Z * Z)) : Z :=
  match blk with [] => 0 | (h, _) :: _ => u16 (h - L) end.

Lemma response_spec Str st wl pl s B L blk buf :
  wq_inv Str st wl pl s B L blk ->
  response buf (win st) =
    Ret (field buf 0 2 ++ be_put 2 (lost L blk) ++ be_put 4 (u32 L)).
Proof.
  intros Hq. pose proof (qi_ub _ _ _ _ _ _ _ _ _ Hq) as Hub. unfold response.
  rewrite (qi_last _ _ _ _ _ _ _ _ _ Hq), (rep_count _ _ Hub).
  pose proof (qi_blk _ _ _ _ _ _ _ _ _ Hq) as Hblk.
  destruct blk as [|[h t] r]; [done|]. cbn [length lost].
  destruct (Z.ltb_spec 0 (Z.of_nat (S (length r)))); [|lia].
  destruct (rep_head _ _ Hub) as [hr Hhr]. cbn [map fst] in Hhr.
  rewrite (aget_lookup _ _ (u32 h)) by (lia || by rewrite Hhr). rewrite bind_ret.
  cbn [blocks_ok] in Hblk. unfold REACH, ALTUS_NODE_SIZE in Hblk.
  rewrite u32_diff by lia. done.
Qed.

Section session.
Context {F : Type} (WriteFile : F -> list Z -> F * Z) (Str : Z -> Z) (cuid : Z)
  (Hcuid : 0 <= cuid < 2 ^ 16).

(** A packet with the bytes [x, x + n) of the stream, at the start of the
    receive buffer. *)
Definition carries (buf : list Z) (size x n : Z) : Prop :=
  exists raw padding junk,
    buf = rdt_packet raw cuid padding (u32 x) (slice Str x n) ++ junk /\
    size = Z.of_nat (length (rdt_packet raw cuid padding (u32 x) (slice Str x n))) /\
    length raw = 496%nat /\ 0 <= padding /\ 8 + n + padding <= 496.

(** The packets the receiver can take in, when [L] is the next byte expected:
    not empty, not older than half the space of the sequence numbers, not
    beginning further ahead than the node after the one being filled, and with
    memory left for the nodes they may need. *)
Definition in_reach (L x n : Z) (w : world) : Prop :=
  L - 2 ^ 31 < x /\ 0 < n /\ x <= L - L mod ALTUS_NODE_SIZE + ALTUS_NODE_SIZE /\
  (put_fuel n <= avail (wq_mem w))%nat.

#[global] Instance in_reach_dec L x n w : Decision (in_reach L x n w).
Proof. unfold in_reach. apply _. Defined.

Definition acknowledgement (L : Z) (blk : list (Z * Z)) : list Z :=
  be_put 2 cuid ++ be_put 2 (lost L blk) ++ be_put 4 (u32 L).

Lemma packet_delivered fuel (q : ALTUSPeer F) w c v wl pl s B L blk buf size x n :
  receiving q cuid c v -> wq_inv Str (queue v w) wl pl s B L blk -> B mod ALTUS_NODE_SIZE = 0 ->
  carries buf size x n -> in_reach L x n w ->
  exists v' w' wl' pl' s' L' blk',
    processPacket WriteFile fuel buf size q w =
      Ret (-1, [acknowledgement L' blk'], set_channel cuid (set_union (CBuffer v') c) q, w') /\
    wq_inv Str (queue v' w') wl' pl' s' B L' blk' /\ kept v v' /\ L <= L' <= L + REACH /\
    ((refused s L blk x (x + n) /\ v' = v /\ w' = w /\ L' = L /\ blk' = blk) \/
     (~ refused s L blk x (x + n) /\
        forall y, holds B L' blk' y <-> holds B L blk y \/ x <= y < x + n)).
Proof.
  intros (Hch & Ht & Hr & Hu) Hq HB (raw & padding & junk & -> & -> & Hraw & Hp & Hsz)
    (Hlow & Hn & Hgap & Hav).
  pose proof (length_slice Str x n ltac:(lia)) as Ls.
  destruct (rdt_packet_fields raw cuid padding (u32 x) (slice Str x n) junk Hcuid (u32_range x) Hp Hraw ltac:(lia))
    as (_ & Fc & Fc2 & _ & Ff & Fs & Fl & rest & Fd).
  set (buf := _ ++ junk) in *. rewrite Ls in Fl.
  destruct (qi_valid _ _ _ _ _ _ _ _ _ Hq) as (vb & HLv & Hv & _).
  destruct (altusWQPut_near Str (queue v w) wl pl s B L blk (slice Str x n ++ rest) x (x + n) Hq Hlow)
    as (code & st' & wl' & pl' & s' & L' & blk' & Eput & Hq' & Hk & HL' & Hcases); try lia.
  { unfold ALTUS_NODE_SIZE in *. Z.div_mod_to_equations; lia. }
  { rewrite length_app. lia. }
  { intros k Hk. rewrite lookup_app_l by lia. apply slice_bytes. lia. }
  { replace (x + n - x) with n by lia. done. }
  replace (x + n - x) with n in Eput by lia.
  exists (win st'), (mkWorld (WindowedQueue.pool st') (memory st') (node_pool w) (node_heap w)),
    wl', pl', s', L', blk'. split.
  - unfold processPacket. rewrite Fc, Hch. unfold receive, receive_data. rewrite Hr, Ht.
    unfold on_buffer. rewrite Hu, Fs, Fl. change (Z.to_nat ALTUS_RDT_HEADER_SIZE) with 8%nat. rewrite Fd.
    unfold queue in Eput. rewrite Eput, !bind_ret. rewrite Ff. cbn [negb Z.lor].
    change (Z.lor ALTUS_FLAG_ACK ALTUS_FLAG_ACK =? 0) with false. cbn [negb].
    rewrite bind_ret. change (1 =? 0) with false. change (1 =? 1) with true. cbn iota.
    cbn [union set_union]. rewrite (response_spec _ _ _ _ _ _ _ _ buf Hq'), bind_ret, Fc2. reflexivity.
  - unfold queue at 1. cbn [wq_pool wq_mem]. destruct st' as [wst pst mst]. split; [exact Hq'|].
    split; [exact Hk|]. split; [lia|].
    destruct Hcases as [(H1 & _ & [= -> -> ->] & -> & ->)|(H1 & _ & Hh)]; [left|right; by split].
    cbn. by destruct w.
Qed.

(** C6: a packet of the stream that [processPacket] is given on a receiving
    channel, when it is within reach (its numbers are not 2^31 or more behind,
    it begins at most one node past the node being filled, and memory is left):
    the call succeeds without undefined behaviour, changes no other channel, and
    sends back one acknowledgement, with the number of the channel, the next
    byte expected in order, [L'], and how many bytes are missing before the
    first block beyond it (modulo 2^16).  Either the queue refuses the packet,
    for one of the four reasons, and stays exactly as it was; or it now holds
    what it held before and the bytes of the packet, which fixes [L'] as the
    first byte that is missing.  The expected byte never moves back. *)
Theorem packet_acknowledged fuel (q : ALTUSPeer F) w c v wl pl s B L blk buf size x n :
  receiving q cuid c v -> wq_inv Str (queue v w) wl pl s B L blk -> B mod ALTUS_NODE_SIZE = 0 ->
  carries buf size x n -> in_reach L x n w ->
  exists v' w' wl' pl' s' L' blk',
    processPacket WriteFile fuel buf size q w =
      Ret (-1, [acknowledgement L' blk'], set_channel cuid (set_union (CBuffer v') c) q, w') /\
    wq_inv Str (queue v' w') wl' pl' s' B L' blk' /\ L <= L' <= L + REACH /\
    ((refused s L blk x (x + n) /\ v' = v /\ w' = w /\ L' = L /\ blk' = blk) \/
     (~ refused s L blk x (x + n) /\
        forall y, holds B L' blk' y <-> holds B L blk y \/ x <= y < x + n)).
Proof.
  intros Hrc Hq HB Hca Hre.
  destruct (packet_delivered fuel q w c v wl pl s B L blk buf size x n Hrc Hq HB Hca Hre)
    as (v' & w' & wl' & pl' & s' & L' & blk' & E & Hq' & _ & HL & Hc).
  by exists v', w', wl', pl', s', L', blk'.
Qed.

(** ** Histories of a receiving channel *)

(** What happens to a receiving channel: a datagram of [size] bytes arrives, or
    a reader asks for [n] bytes. *)
Inductive event :=
| Arrives (buf : list Z) (size : Z)
| Reads (n : Z) (buf : list Z).

(** The state: the peer, the pools, and all that was read. *)
Definition session_state : Type := ALTUSPeer F * world * list Z.

Definition session_step (fuel : nat) (ev : event) (st : session_state) : outcome session_state :=
  let '(q, w, out) := st in
  match ev with
  | Arrives buf size =>
      '(_, _, q, w) ← processPacket WriteFile fuel buf size q w;
      Ret (q, w, out)
  | Reads n buf =>
      match ch q !! cuid with
      | None => Throw
      | Some c =>
          '(k, b, c, w) ← on_buffer (fun st => '(k, b, st) ← altusWQPop n (Some buf) st; Ret (k, b, st)) c w;
          Ret (set_channel cuid c q, w, out ++ take (Z.to_nat k) (default [] b))
      end
  end.

Fixpoint session_run (fuel : nat) (evs : list event) (st : session_state) : outcome session_state :=
  match evs with
  | [] => Ret st
  | ev :: rest => st ← session_step fuel ev st; session_run fuel rest st
  end.

(** The events of a history: packets of the stream, in any order and number,
    packets for channels that do not exist, and reads into a buffer. *)
Definition proper (q : ALTUSPeer F) (ev : event) : Prop :=
  match ev with
  | Arrives buf size => (exists x n, carries buf size x n) \/ ch q !! ntoh buf 0 2 = None
  | Reads n buf => 0 <= n < 2 ^ 31 /\ n <= Z.of_nat (length buf)
  end.

(** What every history keeps: a queue of the stream, whose next byte to read is
    number [length out]. *)
Definition session_inv (q0 : ALTUSPeer F) (st : session_state) (L : Z) : Prop :=
  let '(q, w, out) := st in
  exists c v, receiving q cuid c v /\ rx_inv Str 0 (queue v w) L out /\
    forall k, ch q !! k = None <-> ch q0 !! k = None.

Lemma rx_inv_out v w L out :
  rx_inv Str 0 (queue v w) L out ->
  lastSeq v = u32 L /\ out = slice Str 0 (Z.of_nat (length out)) /\ Z.of_nat (length out) <= L.
Proof.
  intros (blk & R & (wl & pl & s & B & Hq & HR & HB & _) & HsR & ->).
  pose proof (qi_off _ _ _ _ _ _ _ _ _ Hq). rewrite length_slice by lia.
  split; [apply (qi_last _ _ _ _ _ _ _ _ _ Hq)|]. split; [done|lia].
Qed.

Lemma zero_window_inv v p m wl pl s B L blk :
  wq_inv Str (mkWqs (set_lastSeq 0 v) p m) wl pl s B L blk ->
  wq_inv Str (mkWqs (zero_window v) p m) wl pl s B L blk.
Proof. intros [[] ? ? ? ? ? ? ? ? ? ? ?]. by split. Qed.

Lemma dom_set_channel (q0 q : ALTUSPeer F) c0 c :
  (forall k, ch q !! k = None <-> ch q0 !! k = None) -> ch q !! cuid = Some c0 ->
  forall k, ch (set_channel cuid c q) !! k = None <-> ch q0 !! k = None.
Proof.
  intros Hd Hc k. rewrite <- Hd. cbn [ch set_channel set_ch].
  destruct (decide (k = cuid)) as [->|]; [|by rewrite lookup_insert_ne].
  by rewrite lookup_insert_eq, Hc.
Qed.

(** The window of a new channel, sending or receiving. *)
Lemma window_channel_inv acked raw r w0 pl :
  pool_ok (wq_pool w0) (wq_mem w0) pl -> (2 <= avail (wq_mem w0))%nat ->
  length (headSeq (ub_list raw)) = 8%nat -> length (tailSeq (ub_list raw)) = 8%nat ->
  exists (c : channel F) v w a, window_channel acked raw r w0 = Ret (c, w) /\
    c = mkChannel rdt_stream r 0 acked 0 false (CBuffer v) 0 /\
    wq_inv Str (queue v w) [a] pl 0 0 0 [] /\ headDataOffset v = 0 /\ win_headSeq v = 0.
Proof.
  intros Hp Ha H1 H2.
  destruct (altusNewWindow_inv Str raw (wq_mem w0) (wq_pool w0) pl 0 Hp Ha H1 H2)
    as (v & m & a & E & Hq & Ho & _).
  unfold window_channel, LinkRDTWindow, LinkWindow. rewrite E, bind_ret.
  eexists _, (zero_window v), _, a. split; [reflexivity|]. split; [done|].
  split; [by apply zero_window_inv|done].
Qed.

Lemma session_step_inv fuel q0 ev st L :
  session_inv q0 st L -> proper q0 ev ->
  (exists st' L', session_step fuel ev st = Ret st' /\ session_inv q0 st' L' /\ L <= L') \/
  (exists buf size x n, ev = Arrives buf size /\ carries buf size x n /\
     ~ in_reach L x n (snd (fst st))).
Proof.
  destruct st as [[q w] out]. intros (c & v & Hrc & Hrx & Hd) Hev.
  destruct ev as [buf size|n buf]; cbn [session_step proper fst snd] in *.
  - destruct Hev as [(x & n & Hca)|Hno].
    + destruct (decide (in_reach L x n w)) as [Hre|Hre]; [left|right; by exists buf, size, x, n].
      destruct Hrx as (blk & R & (wl & pl & s & B & Hq & HR & HB & Hal) & HsR & Hout).
      rewrite Z.sub_0_r in Hal.
      destruct (packet_delivered fuel q w c v wl pl s B L blk buf size x n Hrc Hq Hal Hca Hre)
        as (v' & w' & wl' & pl' & s' & L' & blk' & E & Hq' & (Ho & _) & HL & _).
      eexists _, L'. split; [rewrite E; reflexivity|]. split; [|lia].
      destruct Hrc as (Hch & Ht & Hr & Hu). eexists _, v'.
      split; [split; [apply lookup_insert_eq|done]|]. split; [|by eapply dom_set_channel].
      exists blk', R. split; [|done]. exists wl', pl', s', B. rewrite Z.sub_0_r.
      split; [exact Hq'|]. split; [|done]. rewrite HR. cbn [queue win]. by rewrite Ho.
    + left. exists (q, w, out), L. apply Hd in Hno. unfold processPacket. rewrite Hno, bind_ret.
      split; [done|]. split; [by exists c, v|lia].
  - left. destruct Hev as [Hn Hb]. destruct Hrc as (Hch & Ht & Hr & Hu). rewrite Hch.
    unfold on_buffer. rewrite Hu. fold (queue v w).
    pose proof Hrx as (blk & R & Hp & HsR & Hout).
    destruct (altusWQPop_inv Str 0 (queue v w) L blk R n (Some buf)) as (st' & E & _);
      [done|done|by intros ? [= <-]|].
    pose proof (rx_pop_inv Str 0 _ L out n buf _ _ st' Hrx Hn Hb E) as Hrx'.
    rewrite E, !bind_ret. cbn [default]. eexists _, L. split; [reflexivity|]. split; [|lia].
    eexists _, (win st'). split; [split; [apply lookup_insert_eq|done]|].
    split; [|by eapply dom_set_channel]. unfold queue. cbn [wq_pool wq_mem]. by destruct st'.
Qed.

Lemma session_run_inv fuel q0 : forall evs st L,
  session_inv q0 st L -> Forall (proper q0) evs ->
  exists pre post st' L', evs = pre ++ post /\ session_run fuel pre st = Ret st' /\
    session_inv q0 st' L' /\ L <= L' /\
    (post = [] \/ exists buf size x n rest, post = Arrives buf size :: rest /\
       carries buf size x n /\ ~ in_reach L' x n (snd (fst st'))).
Proof.
  induction evs as [|ev evs IH]; intros st L Hi Hev.
  { exists [], [], st, L. do 3 (split; [done|]). split; [lia|by left]. }
  apply Forall_cons in Hev as [He Hev].
  destruct (session_step_inv fuel q0 ev st L Hi He)
    as [(st1 & L1 & E & Hi1 & HL)|(buf & size & x & n & -> & Hca & Hre)].
  - destruct (IH st1 L1 Hi1 Hev) as (pre & post & st' & L' & -> & E' & Hi' & HL' & Hpost).
    exists (ev :: pre), post, st', L'. split; [done|]. split; [|split; [done|split; [lia|done]]].
    cbn [session_run]. by rewrite E, bind_ret.
  - exists [], (Arrives buf size :: evs), st, L. do 3 (split; [done|]). split; [lia|right].
    by exists buf, size, x, n, evs.
Qed.

(** C1: from peer to peer.  A channel starts to receive with a new window;
    then packets of the stream arrive in any order, with losses and
    repetitions, mixed with packets for channels that do not exist, and bytes
    are read in between, however all this is interleaved.  The code runs through
    all of these events without undefined behaviour or failure, and what was
    read is the stream from its first byte on, without gap, duplicate or
    reordering, and not ahead of the next byte expected; or it does so up to
    the first packet that is out of reach: empty, 2^31 or more numbers behind,
    beginning more than one node past the node being filled (which the code
    may accept, and then writes to a wrong place), or when memory runs out. *)
Theorem session_prefix fuel acked raw w0 pl (q : ALTUSPeer F) c w evs :
  pool_ok (wq_pool w0) (wq_mem w0) pl -> (2 <= avail (wq_mem w0))%nat ->
  length (headSeq (ub_list raw)) = 8%nat -> length (tailSeq (ub_list raw)) = 8%nat ->
  window_channel acked raw true w0 = Ret (c, w) -> ch q !! cuid = Some c ->
  Forall (proper q) evs ->
  exists pre post q' w' out c' v' L,
    evs = pre ++ post /\ session_run fuel pre (q, w, []) = Ret (q', w', out) /\
    receiving q' cuid c' v' /\ lastSeq v' = u32 L /\
    out = slice Str 0 (Z.of_nat (length out)) /\ Z.of_nat (length out) <= L /\
    (post = [] \/ exists buf size x n rest, post = Arrives buf size :: rest /\
       carries buf size x n /\ ~ in_reach L x n w').
Proof.
  intros Hp Ha H1 H2 Hw Hc Hev.
  destruct (window_channel_inv acked raw true w0 pl Hp Ha H1 H2)
    as (c0 & v & w1 & a & E & -> & Hq & Ho & _). rewrite Hw in E. injection E as -> ->.
  destruct (session_run_inv fuel q evs (q, w1, []) 0) as (pre & post & [[q' w'] out] & L & -> & Er & Hi & _ & Hpost).
  { eexists _, v. split; [by split_and!|]. split; [|done]. exists [], 0. split; [|done].
    exists [a], pl, 0%nat, 0. split; [exact Hq|]. unfold queue. cbn [win]. by rewrite Ho. }
  { done. }
  destruct Hi as (c' & v' & Hrc & Hrx & _). pose proof (rx_inv_out _ _ _ _ Hrx) as (Hl & Hout & HL).
  exists pre, post, q', w', out, c', v', L. split_and!; done.
Qed.
(** ** Packets in order *)

(** Packets that carry the stream from [x] on, one behind the other. *)
Fixpoint in_order (x : Z) (pkts : list (list Z * Z * Z)) : Prop :=
  match pkts with
  | [] => True
  | (buf, size, n) :: rest => carries buf size x n /\ 0 < n /\ in_order (x + n) rest
  end.

Definition total (pkts : list (list Z * Z * Z)) : Z := foldr (fun p z => snd p + z) 0 pkts.

Definition arrivals (pkts : list (list Z * Z * Z)) : list event :=
  map (fun p => Arrives (fst (fst p)) (snd (fst p))) pkts.

(** A packet that begins at the next expected byte of a queue without blocks
    ahead extends its ordered part. *)
Lemma holds_in_order Str' st wl pl s L L' blk n :
  wq_inv Str' st wl pl s 0 L' blk -> 0 <= L <= L' -> 0 < n ->
  (forall y, holds 0 L' blk y <-> holds 0 L [] y \/ L <= y < L + n) ->
  L' = L + n /\ blk = [].
Proof using.
  intros Hq HL Hn Hh. clear - Hq HL Hn Hh. pose proof (qi_blk _ _ _ _ _ _ _ _ _ Hq) as Hb.
  assert (H0 : forall y, holds 0 L' blk y <-> 0 <= y < L + n).
  { intros y. rewrite Hh. unfold holds. pose proof (covered_nil y). intuition lia. }
  assert (HnL : ~ covered blk L') by (intros Hc; apply (covered_bounds _ _ _ _ Hb) in Hc; lia).
  assert (EL : L' = L + n).
  { destruct (Z.lt_trichotomy L' (L + n)) as [Hl|[->|Hg]]; [|done|].
    - exfalso. destruct (proj2 (H0 L') ltac:(lia)) as [?|?]; [lia|done].
    - pose proof (proj1 (H0 (L' - 1)) ltac:(left; lia)). lia. }
  split; [done|]. destruct blk as [|[h t] r]; [done|exfalso]. destruct Hb as (? & ? & _).
  pose proof (proj1 (H0 h) ltac:(right; rewrite covered_cons; lia)). lia.
Qed.

Lemma in_order_run fuel : forall pkts (q : ALTUSPeer F) w c v wl pl s L,
  receiving q cuid c v -> wq_inv Str (queue v w) wl pl s 0 L [] -> headDataOffset v = 0 ->
  in_order L pkts ->
  exists pre post q' w' c' v' wl' pl' s', pkts = pre ++ post /\
    session_run fuel (arrivals pre) (q, w, []) = Ret (q', w', []) /\
    receiving q' cuid c' v' /\ wq_inv Str (queue v' w') wl' pl' s' 0 (L + total pre) [] /\
    headDataOffset v' = 0 /\
    (post = [] \/ QUEUE_MAX - ALTUS_NODE_SIZE <= L + total pre \/ (avail (wq_mem w') < 3)%nat).
Proof.
  induction pkts as [|[[buf size] n] pkts IH]; intros q w c v wl pl s L Hrc Hq Ho Hin.
  { exists [], [], q, w, c, v, wl, pl, s. rewrite Z.add_0_r. split_and!; try done. by left. }
  destruct (decide (QUEUE_MAX - ALTUS_NODE_SIZE <= L)) as [Hfull|Hfull].
  { exists [], ((buf, size, n) :: pkts), q, w, c, v, wl, pl, s. rewrite Z.add_0_r. split_and!; try done.
    right; by left. }
  destruct (decide (avail (wq_mem w) < 3)%nat) as [Hmem|Hmem].
  { exists [], ((buf, size, n) :: pkts), q, w, c, v, wl, pl, s. rewrite Z.add_0_r. split_and!; try done.
    by do 2 right. }
  destruct Hin as (Hca & Hn & Hin).
  destruct (qi_valid _ _ _ _ _ _ _ _ _ Hq) as (vb & HLv & Hv & _).
  assert (Hn488 : n <= 488).
  { destruct Hca as (raw & pad & junk & _ & _ & _ & ? & ?). lia. }
  destruct (packet_delivered fuel q w c v wl pl s 0 L [] buf size L n Hrc Hq eq_refl Hca)
    as (v' & w' & wl' & pl' & s' & L' & blk' & E & Hq' & (Ho' & _) & HL & Hcases).
  { unfold in_reach, put_fuel, ALTUS_NODE_SIZE in *. rewrite Z.div_small by lia.
    split_and!; try lia. Z.div_mod_to_equations; lia. }
  destruct Hcases as [(Hr & _)|(_ & Hh)].
  { exfalso. destruct Hr as [?|[Hx|[(y & Hy & _)|[_ ?]]]]; [lia| |by apply covered_nil in Hy|done].
    unfold exceeds, QUEUE_MAX, ALTUS_NODE_SIZE in *. replace (L + n - L) with n in Hx by lia.
    rewrite Z.div_small in Hx by lia. lia. }
  destruct (holds_in_order _ _ _ _ _ L L' blk' n Hq') as [-> ->]; [unfold ALTUS_NODE_SIZE in *; lia|lia|exact Hh|].
  destruct (IH (set_channel cuid (set_union (CBuffer v') c) q) w' (set_union (CBuffer v') c) v' wl' pl' s' (L + n))
    as (pre & post & q2 & w2 & c2 & v2 & wl2 & pl2 & s2 & -> & E2 & Hrc2 & Hq2 & Ho2 & Hpost); try done.
  { destruct Hrc as (Hch & Ht & Hr & Hu). by split; [apply lookup_insert_eq|]. }
  { by rewrite Ho'. }
  exists ((buf, size, n) :: pre), post, q2, w2, c2, v2, wl2, pl2, s2.
  cbn [total foldr snd]. fold (total pre). rewrite Z.add_assoc.
  split; [done|]. split; [|by split_and!].
  cbn [arrivals map fst snd session_run session_step]. by rewrite E, !bind_ret.
Qed.

(** C2: no byte that arrives in order is lost.  When the packets that reach a
    new receiving channel carry the stream in order, without gap, each is
    accepted as long as the window has a node to spare and memory is left for
    three nodes; and then a single read of as many bytes as have arrived
    returns all of them. *)
Theorem in_order_delivered fuel acked raw w0 pl (q : ALTUSPeer F) c w pkts :
  pool_ok (wq_pool w0) (wq_mem w0) pl -> (2 <= avail (wq_mem w0))%nat ->
  length (headSeq (ub_list raw)) = 8%nat -> length (tailSeq (ub_list raw)) = 8%nat ->
  window_channel acked raw true w0 = Ret (c, w) -> ch q !! cuid = Some c ->
  in_order 0 pkts ->
  exists pre post q' w', pkts = pre ++ post /\
    session_run fuel (arrivals pre) (q, w, []) = Ret (q', w', []) /\
    (post = [] \/ QUEUE_MAX - ALTUS_NODE_SIZE <= total pre \/ (avail (wq_mem w') < 3)%nat) /\
    forall buf, total pre <= Z.of_nat (length buf) ->
      exists q2 w2, session_step fuel (Reads (total pre) buf) (q', w', []) =
        Ret (q2, w2, slice Str 0 (total pre)).
Proof.
  intros Hp Ha H1 H2 Hw Hc Hin.
  destruct (window_channel_inv acked raw true w0 pl Hp Ha H1 H2)
    as (c0 & v & w1 & a & E & -> & Hq & Ho & _). rewrite Hw in E. injection E as -> ->.
  destruct (in_order_run fuel pkts q w1 _ v [a] pl 0 0 ltac:(by split_and!) Hq Ho Hin)
    as (pre & post & q' & w' & c' & v' & wl' & pl' & s' & -> & Er & (Hch & _ & _ & Hu) & Hq' & Ho' & Hpost).
  exists pre, post, q', w'. split; [done|]. split; [done|]. split; [exact Hpost|].
  intros buf Hb. cbn [Z.add] in Hq'. set (T := total pre) in *.
  pose proof (qi_off _ _ _ _ _ _ _ _ _ Hq') as Hoff. unfold queue in Hoff. cbn [win] in Hoff.
  destruct (qi_win _ _ _ _ _ _ _ _ _ Hq') as (_ & HT & _).
  destruct (altusWQPop_popped Str (queue v' w') wl' pl' s' 0 T [] T (Some buf) Hq')
    as (st' & j & E & _); [unfold QUEUE_MAX, ALTUS_NODE_SIZE, ALTUS_WINDOW_BLOCK_MAX_DEFAULT in *; lia
    |by intros ? [= <-]|].
  change (headDataOffset (win (queue v' w'))) with (headDataOffset v') in E. rewrite Ho', Z.add_0_l, Z.sub_0_r, Z.min_id in E.
  cbn [session_step]. rewrite Hch. unfold on_buffer. rewrite Hu. fold (queue v' w').
  rewrite E, !bind_ret. eexists _, _. cbn [default].
  unfold deliver. cbn [fmap option_fmap option_map]. change (Z.to_nat 0) with 0%nat.
  assert (Z.to_nat T = length (slice Str 0 T)) as Hl by (pose proof (length_slice Str 0 T ltac:(lia)); lia).
  rewrite app_nil_l, Hl. exact (f_equal (fun o => Ret (_, _, o)) (take_blit_0 (slice Str 0 T) buf)).
Qed.
End session.

(** ** Numbers of channels *)

Lemma u16_range z : 0 <= u16 z < 2 ^ 16.
Proof. apply Z.mod_pos_bound. lia. Qed.

Section numbers.
Context {F : Type}.

(** The numbers tried so far, from [s] on. *)
Definition tried (s : Z) (j : nat) : list Z := map (fun i => u16 (s + Z.of_nat i)) (seq 0 j).

Lemma tried_NoDup s j : (j <= Z.to_nat (2 ^ 16))%nat -> NoDup (tried s j).
Proof.
  intros Hj. apply NoDup_alt. intros i1 i2 x H1 H2. unfold tried in *.
  apply list_lookup_fmap_Some in H1 as (a & -> & Ha), H2 as (b & E & Hb).
  apply lookup_seq in Ha as [-> ?], Hb as [-> ?]. cbn [Nat.add] in *.
  unfold u16 in E. change (2 ^ 16) with 65536 in *. Z.div_mod_to_equations. lia.
Qed.

Lemma tried_length s j : length (tried s j) = j.
Proof. unfold tried. by rewrite length_map, length_seq. Qed.

Lemma tried_S s j : tried s (S j) = tried s j ++ [u16 (s + Z.of_nat j)].
Proof. unfold tried. by rewrite seq_S, map_app. Qed.

Lemma NoDup_bound (l : list Z) (m : gmap Z (channel F)) :
  NoDup l -> (forall x, x ∈ l -> x ∈ dom m) -> (length l <= size m)%nat.
Proof.
  intros Hn Hd. rewrite <- size_dom, <- (size_list_to_set (C := gset Z) l Hn).
  apply subseteq_size. intros x Hx%elem_of_list_to_set. by apply Hd.
Qed.

Lemma find_cuid_spec (m : gmap Z (channel F)) s fuel : forall j,
  0 <= s < 2 ^ 16 -> Z.of_nat j < 2 ^ 16 -> (forall x, x ∈ tried s j -> x ∈ dom m) ->
  (size m <= fuel + j)%nat ->
  exists r, find_cuid fuel m (u16 (s + Z.of_nat j)) s = Ret r /\
    match r with
    | Some x => m !! x = None /\ 0 <= x < 2 ^ 16
    | None => 2 ^ 16 <= Z.of_nat (size m)
    end.
Proof.
  induction fuel as [|k IH]; intros j Hs Hj Ht Hf; cbn [find_cuid];
    (destruct (m !! u16 (s + Z.of_nat j)) as [c|] eqn:E;
     [|exists (Some (u16 (s + Z.of_nat j))); split; [done|]; split; [done|apply u16_range]]);
    assert (Ht' : forall x, x ∈ tried s (S j) -> x ∈ dom m) by
      (intros x; rewrite tried_S; intros [Hx| ->%list_elem_of_singleton]%elem_of_app;
       [by apply Ht|by apply elem_of_dom_2 in E]);
    pose proof (NoDup_bound _ m (tried_NoDup s (S j) ltac:(lia)) Ht') as Hb;
    rewrite tried_length in Hb; [lia|].
  assert (En : u16 (u16 (s + Z.of_nat j) + 1) = u16 (s + Z.of_nat (S j))).
  { unfold u16. rewrite Zplus_mod_idemp_l. f_equal. lia. }
  rewrite En. destruct (Z.eqb_spec (u16 (s + Z.of_nat (S j))) s) as [Ew|Ew].
  - exists None. split; [done|].
    assert (Z.of_nat (S j) = 2 ^ 16); [|lia].
    unfold u16 in Ew. change (2 ^ 16) with 65536 in *. Z.div_mod_to_equations. lia.
  - apply IH; try done; [|lia].
    destruct (Z.eq_dec (Z.of_nat (S j)) (2 ^ 16)) as [Ej|]; [|lia].
    exfalso. apply Ew. rewrite Ej. unfold u16. change (2 ^ 16) with 65536 in *.
    Z.div_mod_to_equations. lia.
Qed.

(** A map on a range of numbers with one missing is smaller than the range. *)
Lemma size_range (m : gmap Z (channel F)) N x :
  (forall y, y ∈ dom m -> 0 <= y < N) -> m !! x = None -> 0 <= x < N -> Z.of_nat (size m) < N.
Proof.
  intros Hd Hx HxN. assert (Hs : {[x]} ∪ dom m ⊆ list_to_set (C := gset Z) (seqZ 0 N)).
  { intros y [->%elem_of_singleton|Hy]%elem_of_union; apply elem_of_list_to_set, elem_of_seqZ; [lia|].
    specialize (Hd y Hy). lia. }
  apply not_elem_of_dom in Hx. apply subseteq_size in Hs.
  rewrite size_union, size_singleton, size_dom in Hs by set_solver.
  rewrite size_list_to_set, length_seqZ in Hs by apply NoDup_seqZ. lia.
Qed.

(** [newChannel] terminates in every state: it gives the new channel a
    number that no channel of the peer had, or returns -1, with the channels as
    they were, exactly when all 2^16 numbers are in use. *)
Theorem newChannel_total acked b (p : ALTUSPeer F) :
  (forall x, x ∈ dom (ch p) -> 0 <= x < 2 ^ 16) ->
  exists r p', newChannel acked b p = Ret (r, p') /\
    if 2 ^ 16 <=? Z.of_nat (size (ch p)) then r = -1 /\ ch p' = ch p
    else 0 <= r < 2 ^ 16 /\ ch p !! r = None /\ ch p' = <[r := channel_new acked b]> (ch p).
Proof.
  intros Hd. unfold newChannel. cbn [ch set_lastcuid].
  set (s := u16 (lastcuid p + 1)). pose proof (u16_range (lastcuid p + 1)) as Hs. fold s in Hs.
  destruct (find_cuid_spec (ch p) s (size (ch p)) 0 Hs) as (r & E & Hr); [lia|intros x Hx; change (tried s 0) with (@nil Z) in Hx; by apply elem_of_nil in Hx|lia|].
  rewrite Z.add_0_r in E. change (u16 s) with (s mod 2 ^ 16) in E. rewrite Z.mod_small in E by done.
  rewrite E, bind_ret. destruct r as [x|].
  - destruct Hr as [Hx Hr]. eexists x, _. split; [reflexivity|].
    destruct (Z.leb_spec (2 ^ 16) (Z.of_nat (size (ch p)))) as [Hfull|]; [|split_and!; (done || lia)].
    pose proof (size_range (ch p) (2 ^ 16) x Hd Hx ltac:(lia)). lia.
  - eexists (-1), _. split; [reflexivity|]. destruct (Z.leb_spec (2 ^ 16) (Z.of_nat (size (ch p)))); [|lia].
    done.
Qed.
End numbers.

(** ** Witnesses *)

Definition sample_world : world :=
  mkWorld (fst sample_pool) (snd sample_pool) NodeBase.NodePool_new (NodeBase.mkHeap ∅ 0 zeros).

Definition sample_channel (receiving : bool) : channel (list Z) * world :=
  ret_or (channel_new 0 receiving, sample_world) (window_channel 0 sample_raw receiving sample_world).

Definition sample_peer : ALTUSPeer (list Z) :=
  mkPeer {[0 := fst (sample_channel true)]} 1 0 0 [] 0 [].

Lemma sample_window :
  exists pl, pool_ok (wq_pool sample_world) (wq_mem sample_world) pl /\
    (2 <= avail (wq_mem sample_world))%nat /\
    window_channel 0 sample_raw true sample_world =
      Ret (fst (sample_channel true), snd (sample_channel true)) /\
    ch sample_peer !! 0 = Some (fst (sample_channel true)).
Proof.
  destruct (altusWQNewNodePool_inv sample_mem) as (p & m1 & b & E & Hp & Hav); [done|simpl; lia|].
  rewrite sample_pool_eq in E. assert (Ep : sample_pool = (p, m1)) by congruence.
  exists [b]. unfold sample_world at 1 2 3. cbn [wq_pool wq_mem]. rewrite Ep. cbn [fst snd].
  split; [done|]. split; [simpl in Hav |- *; lia|]. split; [vm_compute; reflexivity|].
  apply lookup_singleton_eq.
Qed.

(** A packet with bytes [x, x + n), and the state after it. *)
Definition sample_buf (x n : Z) : list Z :=
  rdt_packet (replicate 496 9) 0 3 (u32 x) (slice sample_str x n) ++ [1; 2].

Lemma sample_carries x n : 0 <= n <= 400 -> carries sample_str 0 (sample_buf x n) (8 + n + 3) x n.
Proof.
  intros Hn. exists (replicate 496 9), 3, [1; 2]. pose proof (length_slice sample_str x n ltac:(lia)) as Ls.
  split_and!; [done| |done|lia|lia].
  destruct (rdt_packet_fields (replicate 496 9) 0 3 (u32 x) (slice sample_str x n) []) as (L & _);
    [lia|apply u32_range|lia|apply length_replicate|lia|]. rewrite L. lia.
Qed.

(** A packet that leaves a gap of 20 bytes. *)
Lemma packet_acknowledged_witness :
  exists c v v' w' wl' pl' s' L' blk', receiving sample_peer 0 c v /\
    processPacket append_file 0 (sample_buf 20 10) 21 sample_peer (snd (sample_channel true)) =
      Ret (-1, [acknowledgement 0 L' blk'],
           set_channel 0 (set_union (CBuffer v') c) sample_peer, w') /\
    wq_inv sample_str (queue v' w') wl' pl' s' 0 L' blk' /\ L' = 0.
Proof.
  destruct sample_window as (pl & Hp & Ha & Hw & Hc).
  destruct (window_channel_inv (F := list Z) sample_str 0 sample_raw true sample_world pl Hp Ha eq_refl eq_refl)
    as (c & v & w & a & E & Ec & Hq & _). rewrite Hw in E. injection E as E <-.
  assert (Hrc : receiving sample_peer 0 c v).
  { rewrite <- E in *. rewrite Ec in Hc |- *. by split_and!. }
  destruct (packet_acknowledged append_file sample_str 0 ltac:(lia) 0 _ _ c v [a] pl 0 0 0 [] _ 21 20 10
    Hrc Hq eq_refl (sample_carries 20 10 ltac:(lia)))
    as (v' & w' & wl' & pl' & s' & L' & blk' & Er & Hq' & HL & Hcs).
  { unfold in_reach. split_and!; vm_compute; try done; lia. }
  exists c, v, v', w', wl', pl', s', L', blk'. split; [exact Hrc|]. split; [exact Er|].
  split; [exact Hq'|]. destruct Hcs as [(_ & _ & _ & EL & _)|(_ & Hh)]; [exact EL|].
  destruct (Z.eq_dec L' 0) as [|Hne]; [done|exfalso].
  destruct (proj1 (Hh 0)) as [[?|Hx]|?]; [left|..|]; try lia. by apply covered_nil in Hx.
Defined.

(** A packet for a channel that does not exist, the second packet of the stream,
    the first one, and everything is read. *)
Lemma session_prefix_witness :
  exists pre post q' w' out c' v' L,
    [Arrives [0; 9] 2; Arrives (sample_buf 20 10) 21; Arrives (sample_buf 0 20) 31;
     Reads 64 (replicate 64 0)] = pre ++ post /\
    session_run append_file 0 0 pre (sample_peer, snd (sample_channel true), []) = Ret (q', w', out) /\
    receiving q' 0 c' v' /\ lastSeq v' = u32 L /\
    out = slice sample_str 0 (Z.of_nat (length out)) /\ Z.of_nat (length out) <= L /\
    (post = [] \/ exists buf size x n rest, post = Arrives buf size :: rest /\
       carries sample_str 0 buf size x n /\ ~ in_reach L x n w').
Proof.
  destruct sample_window as (pl & Hp & Ha & Hw & Hc).
  refine (session_prefix append_file sample_str 0 ltac:(lia) 0 0 sample_raw sample_world pl
    sample_peer (fst (sample_channel true)) (snd (sample_channel true)) _ Hp Ha eq_refl eq_refl Hw Hc _).
  apply Forall_cons; split; [right; vm_compute; reflexivity|].
  apply Forall_cons; split; [left; exists 20, 10; apply sample_carries; lia|].
  apply Forall_cons; split; [left; exists 0, 20; apply sample_carries; lia|].
  apply Forall_cons; split; [|by apply Forall_nil].
  unfold proper. rewrite length_replicate. lia.
Defined.

(** Two packets in order, and everything is read. *)
Lemma in_order_delivered_witness :
  exists pre post q' w',
    [(sample_buf 0 20, 31, 20); (sample_buf 20 10, 21, 10)] = pre ++ post /\
    session_run append_file 0 0 (arrivals pre) (sample_peer, snd (sample_channel true), []) =
      Ret (q', w', []) /\
    (post = [] \/ QUEUE_MAX - ALTUS_NODE_SIZE <= total pre \/ (avail (wq_mem w') < 3)%nat) /\
    forall buf, total pre <= Z.of_nat (length buf) ->
      exists q2 w2, session_step append_file 0 0 (Reads (total pre) buf) (q', w', []) =
        Ret (q2, w2, slice sample_str 0 (total pre)).
Proof.
  destruct sample_window as (pl & Hp & Ha & Hw & Hc).
  refine (in_order_delivered append_file sample_str 0 ltac:(lia) 0 0 sample_raw sample_world pl
    sample_peer (fst (sample_channel true)) (snd (sample_channel true)) _ Hp Ha eq_refl eq_refl Hw Hc _).
  cbn [in_order]. split_and!; try lia; try done; apply sample_carries; lia.
Defined.

(** A peer with the channels 0 and 2, the last number given being 1. *)
Lemma newChannel_total_witness :
  let p := mkPeer (<[2 := channel_new 0 true]> {[0 := channel_new 0 true]}) 1 0 0 [] 0 []
    : ALTUSPeer (list Z) in
  exists r p', newChannel 7 false p = Ret (r, p') /\
    0 <= r < 2 ^ 16 /\ ch p !! r = None /\ ch p' = <[r := channel_new 7 false]> (ch p).
Proof.
  intros p. apply (newChannel_total 7 false p).
  intros x Hx. unfold p in Hx. cbn [ch] in Hx. rewrite dom_insert_L, dom_singleton_L in Hx.
  apply elem_of_union in Hx as [->%elem_of_singleton| ->%elem_of_singleton]; lia.
Defined.
