(* ===== verification/PeerSend.v ===== *)
(** * The sending side of a stream

    What a sending channel puts on the wire for what is written to it: the
    composition of [CreateUpstream], the windowed queue and the sending loop of
    [Send]. *)

From S2P Require Import Prelude NodePool FileRcvStream UBList NodeHeap WindowedQueue WQChains WQStream.
From S2P Require Import WQCorrect WQTheorems Bytes Channel Peer PeerStream.

(** ** Sending *)

(** What a peek finds, as bytes of the stream. *)
Lemma peek_read Str st wl pl s B L blk x :
  wq_inv Str st wl pl s B L blk -> win_headSeq (win st) = u32 B -> B <= x <= L -> L - B < 2 ^ 32 ->
  exists k pos, altusWQPeek (u32 x) st = Ret (k, pos) /\
    k = Z.min (ALTUS_NODE_SIZE - (x - B) mod ALTUS_NODE_SIZE) (L - x) /\
    (pos = None <-> x = L) /\
    forall m, 0 <= m <= k -> read_pos (memory st) pos m = Ret (slice Str x m).
Proof.
  intros Hq Hh Hx HLB. destruct (peek_finds Str st wl pl s B L blk x Hq Hh Hx HLB) as [P0 P1].
  cbv zeta in P0, P1. set (o := (x - B) mod ALTUS_NODE_SIZE) in *.
  assert (Ho : 0 <= o < ALTUS_NODE_SIZE) by (apply Z.mod_pos_bound; done).
  destruct (Z.eq_dec x L) as [->|Hne].
  - exists 0, None. split; [by apply P0|]. split; [lia|]. split; [done|].
    intros m Hm. replace m with 0 by lia. done.
  - destruct (P1 ltac:(lia)) as (a & n & E & Hn & Hk & Hd). set (k := Z.min _ _) in *.
    exists k, (Some (Some a, o)). split; [done|]. split; [done|]. split; [done|].
    intros m Hm. unfold read_pos. rewrite (load_Some _ _ _ Hn), bind_ret.
    assert (Hlen : Z.of_nat (length (data n)) >= o + k).
    { specialize (Hd (k - 1) ltac:(lia)). apply lookup_lt_Some in Hd. lia. }
    rewrite mem_read_ok by lia. f_equal. apply list_eq. intros i.
    destruct (decide (Z.of_nat i < m)).
    + rewrite lookup_take_lt, lookup_drop by lia.
      replace (Z.to_nat o + i)%nat with (Z.to_nat (o + Z.of_nat i)) by lia. rewrite Hd by lia.
      pose proof (slice_bytes Str x m (Z.of_nat i) ltac:(lia)) as Hs. rewrite Nat2Z.id in Hs. done.
    + rewrite lookup_ge_None_2 by (rewrite length_take; lia).
      rewrite lookup_ge_None_2; [done|]. pose proof (length_slice Str x m ltac:(lia)). lia.
Qed.

(** One turn of [Send] on a sending channel whose window holds the bytes
    of a stream in order up to [L], when the next byte to send is [x]: the
    packet carries the next 488 bytes, or all that are left, also across the end
    of a node, under the sequence number of [x]; its length is a multiple of the
    cipher's block and at most 496; and the position moves on by 488 however
    few bytes were sent. *)
Lemma send_rdt_turn {F} Str raw cuid (c : channel F) w v wl pl s B L blk x :
  union c = CBuffer v -> wq_inv Str (mkWqs v (wq_pool w) (wq_mem w)) wl pl s B L blk ->
  win_headSeq v = u32 B -> NextSendSeq c = u32 x -> B <= x <= L -> L - B < 2 ^ 31 ->
  length raw = 496%nat ->
  let n := Z.min ALTUS_RDT_DATA_SIZE (L - x) in
  let packet := rdt_packet raw cuid ((ALTUS_RDT_DATA_SIZE - n) mod 16) (u32 x) (slice Str x n) in
  exists c', send_rdt raw cuid c w = Ret (packet, c') /\
    NextSendSeq c' = u32 (x + ALTUS_RDT_DATA_SIZE) /\ union c' = union c /\
    ctype c' = ctype c /\ IsReceiving c' = IsReceiving c /\
    (length packet <= 496)%nat /\ (length packet mod 16 = 0)%nat.
Proof.
  intros Hu Hq Hh Hx HxL HLB Hraw n packet.
  set (st := mkWqs v (wq_pool w) (wq_mem w)) in *.
  assert (Hn : 0 <= n <= 488) by (unfold n, ALTUS_RDT_DATA_SIZE; lia).
  assert (Hlen : (length packet <= 496)%nat /\ (length packet mod 16 = 0)%nat).
  { pose proof (length_slice Str x n ltac:(lia)) as Ls.
    set (pad := (ALTUS_RDT_DATA_SIZE - n) mod 16) in *.
    assert (Hp : 0 <= pad /\ pad <= 488 - n /\ (8 + n + pad) mod 16 = 0).
    { unfold pad, ALTUS_RDT_DATA_SIZE. Z.div_mod_to_equations; lia. }
    assert (Lp : Z.of_nat (length packet) = 8 + n + pad).
    { unfold packet, rdt_packet.
      rewrite length_take, !length_app, length_drop, Hraw, rdt_header_bytes. cbn [length]. lia. }
    split; [lia|]. apply Nat2Z.inj. rewrite Nat2Z.inj_mod, Lp. apply Hp. }
  destruct (peek_read Str st wl pl s B L blk x Hq Hh HxL ltac:(lia)) as (k & pos & Ek & Hk & Hpos & Hread).
  assert (Ho : 0 <= (x - B) mod ALTUS_NODE_SIZE < ALTUS_NODE_SIZE) by (apply Z.mod_pos_bound; done).
  unfold send_rdt. rewrite Hu, Hx. fold st. rewrite Ek, bind_ret. rewrite (u32_small k) by lia.
  unfold ALTUS_RDT_DATA_SIZE, ALTUS_PACKET_SIZE, ALTUS_RDT_HEADER_SIZE in *.
  assert (Enext : u32 (u32 x + 488) = u32 (x + 488)) by apply u32_add_l.
  destruct (Z.leb_spec 488 k) as [Hge|Hlt].
  - assert (En : n = 488) by (unfold n; lia).
    change (wq_mem w) with (memory st). rewrite Hread, bind_ret by lia.
    eexists. split; [unfold packet; rewrite En; reflexivity|]. cbn [NextSendSeq set_NextSendSeq union]. done.
  - destruct (peek_read Str st wl pl s B L blk (x + k) Hq Hh ltac:(lia) ltac:(lia))
      as (k2 & pos2 & Ek2 & Hk2 & Hpos2 & Hread2).
    assert (Ho2 : 0 <= (x + k - B) mod ALTUS_NODE_SIZE < ALTUS_NODE_SIZE) by (apply Z.mod_pos_bound; done).
    assert (Hk0 : 0 <= k2 <= 4096) by (unfold ALTUS_NODE_SIZE in *; lia).
    rewrite (u32_add_l x k), Ek2, bind_ret. rewrite (u32_small k2) by lia.
    rewrite (u32_small (k + k2)) by lia.
    assert (En : (if 488 <? k + k2 then 488 else k + k2) = n).
    { assert (x + k = L \/ ((x + k - B) mod ALTUS_NODE_SIZE = 0 /\ x + k < L)) as [El|[El1 El2]].
      - destruct (Z.eq_dec (x + k) L); [by left|right]. split; [|lia].
        unfold ALTUS_NODE_SIZE in *. Z.div_mod_to_equations; lia.
      - destruct (Z.ltb_spec 488 (k + k2)); unfold n; lia.
      - rewrite El1 in Hk2. unfold ALTUS_NODE_SIZE in Hk2.
        destruct (Z.ltb_spec 488 (k + k2)); unfold n; lia. }
    rewrite En. change (wq_mem w) with (memory st).
    rewrite (u32_small (496 - n - 8)) by lia. replace (496 - n - 8) with (488 - n) by lia.
    rewrite Hread, bind_ret by lia.
    destruct pos2 as [q|].
    + assert (k <= n) by (rewrite <- En; destruct (Z.ltb_spec 488 (k + k2)); lia).
      assert (n - k <= k2) by (rewrite <- En; destruct (Z.ltb_spec 488 (k + k2)); lia).
      rewrite (u32_small (n - k)) by lia. rewrite Hread2, bind_ret by lia.
      rewrite slice_app by lia. replace (k + (n - k)) with n by lia.
      eexists. split; [reflexivity|]. done.
    + assert (x + k = L) by (by apply Hpos2). assert (n = k) as <- by (unfold n; lia).
      eexists. split; [reflexivity|]. done.
Qed.


(** ** A sending channel until the first acknowledgement *)

(** What happens to a sending channel: bytes are written to it, or the sending
    loop of [Send] makes a turn; [raw] is the memory of the packet buffer. *)
Inductive send_event :=
| Writes (d : list Z)
| Sends (raw : list Z).

Section upstream.
Context {F : Type} (cuid : Z).

(** The state: the peer, the pools, and the packets sent. *)
Definition send_state : Type := ALTUSPeer F * world * list (list Z).

Definition send_step (ev : send_event) (st : send_state) : outcome send_state :=
  let '(p, w, sent) := st in
  match ev with
  | Writes d =>
      '(_, p, w) ← CreateUpstream cuid d (Z.of_nat (length d)) p w;
      Ret (p, w, sent)
  | Sends raw =>
      match ch p !! cuid with
      | None => Throw
      | Some c =>
          '(packet, c) ← send_rdt raw cuid c w;
          Ret (set_channel cuid c p, w, sent ++ [packet])
      end
  end.

Fixpoint send_run (evs : list send_event) (st : send_state) : outcome send_state :=
  match evs with
  | [] => Ret st
  | ev :: rest => st ← send_step ev st; send_run rest st
  end.

(** The bytes written, and the number of turns, of a history. *)
Fixpoint written (evs : list send_event) : list Z :=
  match evs with
  | [] => []
  | Writes d :: rest => d ++ written rest
  | Sends _ :: rest => written rest
  end.

Fixpoint turns (evs : list send_event) : Z :=
  match evs with
  | [] => 0
  | Writes _ :: rest => turns rest
  | Sends _ :: rest => 1 + turns rest
  end.

(** The packets that should be sent for [evs], when the bytes of [Str] up to [L]
    are there already and [x] is the next to send. *)
Fixpoint packets (Str : Z -> Z) (evs : list send_event) (L x : Z) : list (list Z) :=
  match evs with
  | [] => []
  | Writes d :: rest => packets Str rest (L + Z.of_nat (length d)) x
  | Sends raw :: rest =>
      let n := Z.min ALTUS_RDT_DATA_SIZE (L - x) in
      rdt_packet raw cuid ((ALTUS_RDT_DATA_SIZE - n) mod 16) (u32 x) (slice Str x n)
        :: packets Str rest L (x + ALTUS_RDT_DATA_SIZE)
  end.

(** An event that the code does not carry out as it should, with [L] bytes
    written and the number [x] next: an empty write, one that does not fit the
    window or for which memory is short; a turn when the position has passed the
    end of what was written.  (A packet buffer has 496 bytes.) *)
Definition blocked (L x : Z) (w : world) (ev : send_event) : Prop :=
  match ev with
  | Writes d =>
      d = [] \/ 2 ^ 31 <= Z.of_nat (length d) \/
      ALTUS_WINDOW_BLOCK_MAX_DEFAULT <
        L / ALTUS_NODE_SIZE + Z.of_nat (length d) / ALTUS_NODE_SIZE + 2 \/
      (avail (wq_mem w) < put_fuel (Z.of_nat (length d)))%nat
  | Sends raw => L < x \/ length raw <> 496%nat
  end.

#[global] Instance blocked_dec L x w ev : Decision (blocked L x w ev).
Proof. destruct ev; unfold blocked; apply _. Defined.

(** The channel with its window, which holds [Str] up to [L]. *)
Definition sending (Str : Z -> Z) (p : ALTUSPeer F) (w : world) (L x : Z) : Prop :=
  exists c v wl pl s, ch p !! cuid = Some c /\ ctype c = rdt_stream /\ IsReceiving c = false /\
    union c = CBuffer v /\ NextSendSeq c = u32 x /\ win_headSeq v = 0 /\
    wq_inv Str (queue v w) wl pl s 0 L [].

Lemma write_step Str p w sent L x d :
  sending Str p w L x -> ~ blocked L x w (Writes d) ->
  (forall k, 0 <= k < Z.of_nat (length d) -> d !! Z.to_nat k = Some (Str (L + k))) ->
  exists p' w', send_step (Writes d) (p, w, sent) = Ret (p', w', sent) /\
    sending Str p' w' (L + Z.of_nat (length d)) x.
Proof.
  intros (c & v & wl & pl & s & Hc & Ht & Hr & Hu & Hx & Hh & Hq) Hb Hd.
  destruct (qi_valid _ _ _ _ _ _ _ _ _ Hq) as (vb & HLv & Hv & _).
  pose proof (qi_count _ _ _ _ _ _ _ _ Hq).
  set (n := Z.of_nat (length d)) in *.
  assert (Hn : 0 < n < 2 ^ 31 /\ (put_fuel n <= avail (wq_mem w))%nat /\
    L / ALTUS_NODE_SIZE + n / ALTUS_NODE_SIZE + 2 <= ALTUS_WINDOW_BLOCK_MAX_DEFAULT).
  { cbn [blocked] in Hb. fold n in Hb.
    assert (d <> []) by tauto. assert (n <> 0) by (destruct d; cbn in *; [done|lia]).
    unfold ALTUS_WINDOW_BLOCK_MAX_DEFAULT in *. lia. }
  destruct Hn as (Hn & Hm & Hfit).
  destruct (altusWQPut_near Str (queue v w) wl pl s 0 L [] d L (L + n) Hq)
    as (code & st' & wl' & pl' & s' & L' & blk' & E & Hq' & (_ & Hh' & _) & HL & Hcases);
    try (unfold ALTUS_NODE_SIZE in *; lia).
  { intros k Hk. apply Hd. lia. }
  { by replace (L + n - L) with n by lia. }
  replace (L + n - L) with n in E by lia.
  destruct Hcases as [(Hrf & _)|(_ & -> & Hhd)].
  { exfalso. destruct Hrf as [?|[Hx'|[(y & Hy & _)|[_ ?]]]]; [lia| |by apply covered_nil in Hy|done].
    unfold exceeds in Hx'. replace (L + n - L) with n in Hx' by lia.
    assert (L / ALTUS_NODE_SIZE = Z.of_nat s); [|lia].
    unfold ALTUS_NODE_SIZE in *. Z.div_mod_to_equations; lia. }
  destruct (holds_in_order _ _ _ _ _ L L' blk' n Hq') as [-> ->];
    [unfold ALTUS_NODE_SIZE in *; lia|lia|exact Hhd|].
  eexists _, _. split.
  { cbn [send_step]. unfold CreateUpstream. rewrite Hc, Hr, (bool_decide_true _ Ht).
    cbn [negb orb]. unfold on_buffer. rewrite Hu. fold (queue v w).
    change (lastSeq (win (queue v w))) with (lastSeq v).
    rewrite (qi_last _ _ _ _ _ _ _ _ _ Hq : lastSeq v = u32 L). fold n. rewrite (u32_small n) by lia.
    rewrite E, !bind_ret. reflexivity. }
  eexists _, (win st'), wl', pl', s'. split; [apply lookup_insert_eq|].
  split; [exact Ht|]. split; [exact Hr|]. split; [reflexivity|]. split; [exact Hx|].
  split; [by rewrite Hh'|]. unfold queue. cbn [wq_pool wq_mem]. by destruct st'.
Qed.

Lemma turn_step Str p w sent L x raw :
  sending Str p w L x -> 0 <= x -> ~ blocked L x w (Sends raw) ->
  let n := Z.min ALTUS_RDT_DATA_SIZE (L - x) in
  let packet := rdt_packet raw cuid ((ALTUS_RDT_DATA_SIZE - n) mod 16) (u32 x) (slice Str x n) in
  exists p', send_step (Sends raw) (p, w, sent) = Ret (p', w, sent ++ [packet]) /\
    sending Str p' w L (x + ALTUS_RDT_DATA_SIZE) /\
    (length packet <= 496)%nat /\ (length packet mod 16 = 0)%nat.
Proof.
  intros (c & v & wl & pl & s & Hc & Ht & Hr & Hu & Hx & Hh & Hq) Hx0 Hb n packet.
  cbn [blocked] in Hb. destruct (qi_win _ _ _ _ _ _ _ _ _ Hq) as (_ & HLB & _).
  destruct (send_rdt_turn Str raw cuid c w v wl pl s 0 L [] x Hu Hq Hh Hx)
    as (c' & E & Hx' & Hu' & Ht' & Hr' & Hlen);
    [lia|unfold QUEUE_MAX, ALTUS_WINDOW_BLOCK_MAX_DEFAULT, ALTUS_NODE_SIZE in *; lia|lia|].
  eexists. cbn [send_step]. rewrite Hc, E, bind_ret. split; [reflexivity|]. split; [|exact Hlen].
  exists c', v, wl, pl, s. split; [apply lookup_insert_eq|]. rewrite Ht', Hr', Hu'. by split_and!.
Qed.

Lemma send_run_spec Str : forall evs p w sent L x,
  sending Str p w L x -> 0 <= L -> 0 <= x ->
  (forall k, 0 <= k < Z.of_nat (length (written evs)) ->
     written evs !! Z.to_nat k = Some (Str (L + k))) ->
  exists pre post p' w', evs = pre ++ post /\
    send_run pre (p, w, sent) = Ret (p', w', sent ++ packets Str pre L x) /\
    Forall (fun q => (length q <= 496)%nat /\ (length q mod 16 = 0)%nat) (packets Str pre L x) /\
    (post = [] \/ exists ev rest, post = ev :: rest /\
       blocked (L + Z.of_nat (length (written pre))) (x + ALTUS_RDT_DATA_SIZE * turns pre) w' ev).
Proof.
  induction evs as [|ev evs IH]; intros p w sent L x Hs HL Hx Hw.
  { exists [], [], p, w. cbn [packets]. rewrite (app_nil_r sent). split_and!; try done. by left. }
  destruct (decide (blocked L x w ev)) as [Hb|Hb].
  { exists [], (ev :: evs), p, w. cbn [packets]. rewrite (app_nil_r sent). split_and!; try done. right.
    exists ev, evs. rewrite Z.mul_0_r, !Z.add_0_r. done. }
  destruct ev as [d|raw]; cbn [written] in Hw.
  - rewrite length_app in Hw.
    destruct (write_step Str p w sent L x d Hs Hb) as (p1 & w1 & E & Hs1).
    { intros k Hk. specialize (Hw k ltac:(lia)). by rewrite lookup_app_l in Hw by lia. }
    destruct (IH p1 w1 sent (L + Z.of_nat (length d)) x Hs1) as (pre & post & p2 & w2 & -> & E2 & Hp & Hpost);
      [lia|done| |].
    { intros k Hk. specialize (Hw (Z.of_nat (length d) + k) ltac:(lia)).
      rewrite lookup_app_r in Hw by lia. rewrite Z.add_assoc in Hw.
      replace (Z.to_nat (Z.of_nat (length d) + k) - length d)%nat with (Z.to_nat k) in Hw by lia. done. }
    exists (Writes d :: pre), post, p2, w2. cbn [packets send_run written turns].
    split; [done|]. split; [by rewrite E, bind_ret|]. split; [done|].
    rewrite length_app, Nat2Z.inj_add, Z.add_assoc. done.
  - destruct (turn_step Str p w sent L x raw Hs Hx Hb) as (p1 & E & Hs1 & Hlen).
    destruct (IH p1 w (sent ++ [rdt_packet raw cuid
        ((ALTUS_RDT_DATA_SIZE - Z.min ALTUS_RDT_DATA_SIZE (L - x)) mod 16) (u32 x)
        (slice Str x (Z.min ALTUS_RDT_DATA_SIZE (L - x)))])
      L (x + ALTUS_RDT_DATA_SIZE) Hs1) as (pre & post & p2 & w2 & -> & E2 & Hp & Hpost);
      [lia|unfold ALTUS_RDT_DATA_SIZE; lia|done|].
    exists (Sends raw :: pre), post, p2, w2. cbn [packets send_run written turns].
    split; [done|]. split; [rewrite E, bind_ret, E2, <- app_assoc; done|].
    split; [by apply Forall_cons|].
    replace (x + ALTUS_RDT_DATA_SIZE * (1 + turns pre)) with
      (x + ALTUS_RDT_DATA_SIZE + ALTUS_RDT_DATA_SIZE * turns pre) by lia. done.
Qed.

(** The byte at position [x] of what was written. *)
Definition stream_of (d : list Z) (x : Z) : Z := nth (Z.to_nat x) d 0.

(** C7: what a sending channel sends.  A new channel is made to send a
    stream; bytes are written to it and the sending loop makes its turns, in any
    order.  Every write is taken, and the turn at position [x] sends the packet
    with sequence number [x] and the next 488 bytes of what was written so far,
    or all that are left, also across the end of a node; every packet has at
    most 496 bytes and a length that is a multiple of the cipher's block.  This
    goes on until the first event that is blocked: an empty write, one that
    does not fit the window of 2^17 nodes or the memory, or a turn after the
    position, which moves by 488 however few bytes were sent, has passed the end
    of what was written.  (An acknowledgement that frees a node ends it too:
    the code does not move [headSeq] then.) *)
Theorem upstream_sends acked raw0 w0 pl (p : ALTUSPeer F) c w evs :
  pool_ok (wq_pool w0) (wq_mem w0) pl -> (2 <= avail (wq_mem w0))%nat ->
  length (headSeq (ub_list raw0)) = 8%nat -> length (tailSeq (ub_list raw0)) = 8%nat ->
  window_channel acked raw0 false w0 = Ret (c, w) -> ch p !! cuid = Some c ->
  let Str := stream_of (written evs) in
  exists pre post p' w', evs = pre ++ post /\
    send_run pre (p, w, []) = Ret (p', w', packets Str pre 0 0) /\
    Forall (fun q => (length q <= 496)%nat /\ (length q mod 16 = 0)%nat) (packets Str pre 0 0) /\
    (post = [] \/ exists ev rest, post = ev :: rest /\
       blocked (Z.of_nat (length (written pre))) (ALTUS_RDT_DATA_SIZE * turns pre) w' ev).
Proof.
  intros Hp Ha H1 H2 Hw Hc Str.
  destruct (window_channel_inv (F := F) Str acked raw0 false w0 pl Hp Ha H1 H2)
    as (c0 & v & w1 & a & E & -> & Hq & _ & Hh). rewrite Hw in E. injection E as -> ->.
  destruct (send_run_spec Str evs p w1 [] 0 0) as (pre & post & p' & w' & Hevs & Er & Hrest);
    [|lia|lia| |by exists pre, post, p', w'].
  - eexists _, v, [a], pl, 0%nat. by split_and!.
  - intros k Hk. unfold Str, stream_of. rewrite Z.add_0_l.
    destruct (lookup_lt_is_Some_2 (written evs) (Z.to_nat k)) as [z Hz]; [lia|].
    rewrite Hz. f_equal. symmetry. by apply nth_lookup_Some.
Qed.
End upstream.

(** A peer whose channel 0 sends. *)
Definition sender_peer : ALTUSPeer (list Z) :=
  mkPeer {[0 := fst (sample_channel false)]} 1 0 0 [] 0 [].

(** Twenty bytes in two writes, and two turns: the second is one too many. *)
Definition sender_events : list send_event :=
  [Writes (slice sample_str 0 5); Writes (slice sample_str 5 15);
   Sends (replicate 496 9); Sends (replicate 496 9)].

Lemma upstream_sends_witness :
  exists pre post p' w', sender_events = pre ++ post /\
    send_run 0 pre (sender_peer, snd (sample_channel false), []) =
      Ret (p', w', packets 0 (stream_of (slice sample_str 0 20)) pre 0 0) /\
    Forall (fun q => (length q <= 496)%nat /\ (length q mod 16 = 0)%nat)
      (packets 0 (stream_of (slice sample_str 0 20)) pre 0 0) /\
    (post = [] \/ exists ev rest, post = ev :: rest /\
       blocked (Z.of_nat (length (written pre))) (ALTUS_RDT_DATA_SIZE * turns pre) w' ev).
Proof.
  destruct sample_window as (pl & Hp & Ha & _).
  refine (upstream_sends 0 0 sample_raw sample_world pl sender_peer
    (fst (sample_channel false)) (snd (sample_channel false)) sender_events Hp Ha eq_refl eq_refl _ _).
  - vm_compute. reflexivity.
  - apply lookup_singleton_eq.
Defined.

(** The packet of that run: the twenty bytes and four of padding. *)
Example sender_sends_20 :
  exists p' w', send_run 0 (take 3 sender_events) (sender_peer, snd (sample_channel false), []) =
    Ret (p', w', [rdt_packet (replicate 496 9) 0 4 0 (slice sample_str 0 20)]).
Proof. eexists _, _. vm_compute. reflexivity. Qed.
