(* ===== verification/Host.v ===== *)
(** * The host (src/ALTUS/ALTUSHost.h, ALTUSHost.cpp; the pre-peers of
      src/ALTUS/ALTUSPeer.h, ALTUSPeer.cpp)

    A host owns a socket, the table of its peers, under their addresses and
    under numbers, and the half-open connections: pre-peers of clients that
    call and of servers that are called, with a queue of retries.  The maps of
    the class hold pointers; objects that several of them share live in a heap.
    The four threads take turns: a handler runs as a whole, except that the
    thread of the retries looks at its queue, sleeps, and acts later. *)

From S2P Require Import Prelude NodePool FileRcvStream UBList NodeHeap WindowedQueue Bytes Channel Peer.
From stdpp Require Import strings sorting.
#[local] Open Scope Z_scope.

Definition ALTUS_HANDSHAKE_HEADER_SIZE : Z := 12.
Definition ConnectRetryCount : Z := 3.
Definition ConnectWaitTime : Z := 1500.
Definition ConnectExpireTime : Z := ConnectRetryCount * ConnectWaitTime.
Definition ALTUS_RSA_KEY_SIZE : Z := 700.
Definition ALTUS_HANDSHAKE_WAITTIME : Z := 5000.

(** The key bytes that fit into one page of the handshake. *)
Definition page_size : Z := ALTUS_PACKET_SIZE - ALTUS_HANDSHAKE_HEADER_SIZE.

(** The bytes of a string literal, without its terminating zero. *)
Definition bytes_of (s : string) : list Z :=
  map (fun c => Z.of_N (Ascii.N_of_ascii c)) (String.list_ascii_of_string s).

(** [strncmp(a, b, n) == 0]; both arrays are long enough for the comparison. *)
Fixpoint strncmp_eq (n : nat) (a b : list Z) : bool :=
  match n with
  | O => true
  | S k =>
      let x := nth 0 a 0 in
      let y := nth 0 b 0 in
      if negb (x =? y) then false else if x =? 0 then true else strncmp_eq k (tl a) (tl b)
  end.

(** [addrTo_uint64], and the address and port that are taken from such a
    number again. *)
Definition addrTo_uint64 (ip port : Z) : Z := Z.lor (Z.shiftl ip 32) port.
Definition addr_ip (addrport : Z) : Z := u32 (Z.shiftr addrport 32).
Definition addr_port (addrport : Z) : Z := Z.land addrport 0xFFFF.
Definition addr_of (addrport : Z) : Z := addrTo_uint64 (addr_ip addrport) (addr_port addrport).

(** [class ALTUS_CPrePeer]; [None] is a null pointer. *)
Record ALTUS_CPrePeer := mkCPre {
  Expired : bool;
  c_ip : Z;
  c_port : Z;
  c_publicKey : option (list Z);
  c_keySize : Z;
  c_sessionKey : option (list Z);
  c_starttime : Z
}.

(** [class ALTUS_SPrePeer] *)
Record ALTUS_SPrePeer := mkSPre {
  s_publicKey : option (list Z);
  s_keySize : Z;
  s_sessionKey : option (list Z);
  s_starttime : Z;
  pageA : bool;
  pageB : bool;
  pageC : bool;
  pageD : bool;
  IsAckSent : bool
}.

Definition set_pages (k : option (list Z)) (a b c d : bool) (p : ALTUS_SPrePeer) : ALTUS_SPrePeer :=
  mkSPre k (s_keySize p) (s_sessionKey p) (s_starttime p) a b c d (IsAckSent p).
Definition set_AckSent (p : ALTUS_SPrePeer) : ALTUS_SPrePeer :=
  mkSPre (s_publicKey p) (s_keySize p) (s_sessionKey p) (s_starttime p)
    (pageA p) (pageB p) (pageC p) (pageD p) true.

(** The constructors; [key] and [session] are fresh memory of the sizes that
    are asked for. *)
Definition ALTUS_SPrePeer_new (key session : list Z) (now : Z) : ALTUS_SPrePeer :=
  mkSPre (Some key) 0 (Some session) now false false false false false.

Definition ALTUS_CPrePeer_new (ip port : Z) (serverkey : list Z) (keylen : Z) (session : list Z)
  (now : Z) : outcome ALTUS_CPrePeer :=
  if keylen <? 0 then Throw
  else
    key ← mem_read serverkey 0 keylen;
    Ret (mkCPre false ip port (Some key) (u16 keylen) (Some session) now).

(** The destructors wipe the keys that are still there. *)
Definition ALTUS_SPrePeer_delete (p : ALTUS_SPrePeer) : outcome unit :=
  _ ← wipe (s_publicKey p) (s_keySize p);
  wipe (s_sessionKey p) ALTUS_SESSION_KEY_SIZE.

Definition ALTUS_CPrePeer_delete (p : ALTUS_CPrePeer) : outcome unit :=
  _ ← wipe (c_publicKey p) (c_keySize p);
  wipe (c_sessionKey p) ALTUS_SESSION_KEY_SIZE.

(** An address that is not in use. *)
Definition new_addr {A} (m : gmap positive A) : positive :=
  Pos.succ (map_fold (fun k _ acc => Pos.max k acc) 1%positive m).

(** ** The retry queue

    [std::priority_queue] with the class [Comparator]: a parameter [top] that
    yields an entry before which no other has to come, where the times of the
    queue are close enough for the comparison of the clock's differences to be
    an order. *)

(** [Comparator::operator()] *)
Definition Comparator (a b : Z * positive) : bool := 0 <? s32 (a.1 - b.1).

Definition comparable (q : list (Z * positive)) : Prop :=
  exists base, forall t, t ∈ q -> u32 (t.1 - base) < 2 ^ 31.

Class PriorityQueue (top : list (Z * positive) -> option (Z * positive)) : Prop := {
  top_none q : top q = None <-> q = [];
  top_in q t : top q = Some t -> t ∈ q;
  top_first q t x : comparable q -> top q = Some t -> x ∈ q -> Comparator t x = false
}.

(** The queue without one occurrence of an entry. *)
Fixpoint remove_one (t : Z * positive) (q : list (Z * positive)) : list (Z * positive) :=
  match q with
  | [] => []
  | x :: r => if bool_decide (x = t) then r else x :: remove_one t r
  end.

Section hosts.
Context {F : Type} (WriteFile : F -> list Z -> F * Z).
Context (top : list (Z * positive) -> option (Z * positive)).

(** [class ALTUSHost] without its socket and its locks, with the heaps of the
    peers and of the client's pre-peers, what the channels of all peers share,
    and all that was sent so far, with its destinations. *)
Record ALTUSHost := mkHost {
  myPublicKey : list Z;
  myPublicKeySize : Z;
  peers : gmap Z positive;
  peer_objs : gmap positive (ALTUSPeer F);
  peid_peer : gmap Z positive;
  lastpeid : Z;
  s_prepeers : gmap Z ALTUS_SPrePeer;
  c_prepeers : gmap Z positive;
  cpre_objs : gmap positive ALTUS_CPrePeer;
  RetryQuque : list (Z * positive);
  IsAlive : bool;
  IsAccepting : bool;
  shared : world;
  sent : list (Z * list Z)
}.

Definition set_peers (m : gmap Z positive) (o : gmap positive (ALTUSPeer F)) (i : gmap Z positive)
  (n : Z) (h : ALTUSHost) : ALTUSHost :=
  mkHost (myPublicKey h) (myPublicKeySize h) m o i n (s_prepeers h) (c_prepeers h) (cpre_objs h)
    (RetryQuque h) (IsAlive h) (IsAccepting h) (shared h) (sent h).
Definition set_s_prepeers (m : gmap Z ALTUS_SPrePeer) (h : ALTUSHost) : ALTUSHost :=
  mkHost (myPublicKey h) (myPublicKeySize h) (peers h) (peer_objs h) (peid_peer h) (lastpeid h) m
    (c_prepeers h) (cpre_objs h) (RetryQuque h) (IsAlive h) (IsAccepting h) (shared h) (sent h).
Definition set_c_prepeers (m : gmap Z positive) (o : gmap positive ALTUS_CPrePeer) (h : ALTUSHost)
  : ALTUSHost :=
  mkHost (myPublicKey h) (myPublicKeySize h) (peers h) (peer_objs h) (peid_peer h) (lastpeid h)
    (s_prepeers h) m o (RetryQuque h) (IsAlive h) (IsAccepting h) (shared h) (sent h).
Definition set_queue (q : list (Z * positive)) (h : ALTUSHost) : ALTUSHost :=
  mkHost (myPublicKey h) (myPublicKeySize h) (peers h) (peer_objs h) (peid_peer h) (lastpeid h)
    (s_prepeers h) (c_prepeers h) (cpre_objs h) q (IsAlive h) (IsAccepting h) (shared h) (sent h).
Definition set_flags (alive accepting : bool) (h : ALTUSHost) : ALTUSHost :=
  mkHost (myPublicKey h) (myPublicKeySize h) (peers h) (peer_objs h) (peid_peer h) (lastpeid h)
    (s_prepeers h) (c_prepeers h) (cpre_objs h) (RetryQuque h) alive accepting (shared h) (sent h).
Definition set_shared (w : world) (h : ALTUSHost) : ALTUSHost :=
  mkHost (myPublicKey h) (myPublicKeySize h) (peers h) (peer_objs h) (peid_peer h) (lastpeid h)
    (s_prepeers h) (c_prepeers h) (cpre_objs h) (RetryQuque h) (IsAlive h) (IsAccepting h) w (sent h).

(** [sendto] *)
Definition send_to (addrport : Z) (packets : list (list Z)) (h : ALTUSHost) : ALTUSHost :=
  mkHost (myPublicKey h) (myPublicKeySize h) (peers h) (peer_objs h) (peid_peer h) (lastpeid h)
    (s_prepeers h) (c_prepeers h) (cpre_objs h) (RetryQuque h) (IsAlive h) (IsAccepting h) (shared h)
    (sent h ++ map (pair addrport) packets).

(** What uninitialised memory holds when an event makes new objects, and what
    comes of the temporary file of a new peer. *)
Record uninit := mkUninit {
  u_acked : nat -> Z;
  u_raw : nat -> WQ_Window;
  u_channel : channel F;
  u_capacity : nat;
  u_opened : bool;
  u_file : F;
  u_key : list Z;
  u_session : list Z
}.

(** The constructor of the host, with its uninitialised public key; [port] only
    matters to the socket. *)
Definition ALTUSHost_new (raw_key : list Z) (m : NodeHeap.mem) (nh : NodeBase.heap) : outcome ALTUSHost :=
  '(pool, m) ← altusWQNewNodePool m;
  Ret (mkHost raw_key ALTUS_RSA_KEY_SIZE ∅ ∅ ∅ 0 ∅ ∅ ∅ [] false false
         (mkWorld pool m NodeBase.NodePool_new nh) []).

(** [run] starts the threads. *)
Definition run (h : ALTUSHost) : Z * ALTUSHost := (0, set_flags true true h).

(** [getPeerbyID], [getPeer], [findCPrePeer] *)
Definition getPeerbyID (peid : Z) (h : ALTUSHost) : option positive := peid_peer h !! u32 peid.
Definition getPeer (addrport : Z) (h : ALTUSHost) : option positive := peers h !! addrport.
Definition findCPrePeer (addrport : Z) (h : ALTUSHost) : option positive := c_prepeers h !! addrport.

(** ** Becoming a peer *)

(** [while (peid_peer.find(newpeid) != peid_peer.end()) newpeid++;]: the
    number of peers bounds the turns. *)
Fixpoint find_peid (fuel : nat) (m : gmap Z positive) (newpeid : Z) : outcome Z :=
  match m !! newpeid with
  | None => Ret newpeid
  | Some _ =>
      match fuel with
      | O => NoFuel
      | S k => find_peid k m (u32 (newpeid + 1))
      end
  end.

(** The new peer in the tables, under a new number; [insert] leaves a map alone
    that has the key already. *)
Definition insert_new {A} (k : Z) (a : A) (m : gmap Z A) : gmap Z A :=
  match m !! k with None => <[k := a]> m | Some _ => m end.

Definition register (addrport : Z) (p : ALTUSPeer F) (h : ALTUSHost) : outcome (Z * ALTUSHost) :=
  let a := new_addr (peer_objs h) in
  let m := insert_new addrport a (peers h) in
  newpeid ← find_peid (size (peid_peer h)) (peid_peer h) (u32 (lastpeid h + 1));
  Ret (newpeid, set_peers m (<[a := p]> (peer_objs h)) (insert_new newpeid a (peid_peer h)) newpeid h).

(** The user's action on acceptance, which runs within the handler. *)
Context (acceptAction : ALTUSHost -> Z -> outcome ALTUSHost).

(** [prepeerToPeer]: the search for the pre-peer is not tested. *)
Definition prepeerToPeer (addrport : Z) (U : uninit) (h : ALTUSHost) : outcome ALTUSHost :=
  match s_prepeers h !! addrport with
  | None => Fault
  | Some src =>
      match peers h !! addrport with
      | Some _ => Exit
      | None =>
          '(dst, w) ← ALTUSPeer_server (addr_ip addrport) (addr_port addrport)
                        (default [] (s_publicKey src)) (default [] (s_sessionKey src)) (s_keySize src)
                        (u_acked U) (u_raw U) (u_channel U) (u_capacity U) (u_opened U) (u_file U)
                        (shared h);
          '(newpeid, h) ← register addrport dst (set_shared w h);
          acceptAction (set_s_prepeers (delete addrport (s_prepeers h)) h) newpeid
      end
  end.

(** [sendAck]: the packet, and the note that it was sent. *)
Definition ack_packet : list Z :=
  bytes_of "ALTUS/1.0Y" ++ [0; 0] ++ replicate (Z.to_nat ALTUS_SESSION_KEY_SIZE) 0.

Definition sendAck (addrport : Z) (prepeer : ALTUS_SPrePeer) (h : ALTUSHost) : ALTUSHost :=
  set_s_prepeers (<[addrport := set_AckSent prepeer]> (s_prepeers h))
    (send_to (addr_of addrport) [ack_packet] h).

(** ** Being called *)

(** The pages ['A'] to ['D'] of a key. *)
Definition page_index (page : Z) : option Z :=
  if page =? 65 then Some 0 else if page =? 66 then Some 1
  else if page =? 67 then Some 2 else if page =? 68 then Some 3 else None.

(** [memcpy] of the bytes of [buf] from [from] on into page [i] of the key,
    and the flag of the page. *)
Definition store_page (i : Z) (buf : list Z) (from n : Z) (p : ALTUS_SPrePeer) : outcome ALTUS_SPrePeer :=
  match s_publicKey p with
  | None => Fault
  | Some key =>
      bytes ← mem_read buf from n;
      key ← mem_write key (page_size * i) bytes;
      Ret (set_pages (Some key) (pageA p || (i =? 0)) (pageB p || (i =? 1)) (pageC p || (i =? 2))
             (pageD p || (i =? 3)) p)
  end.

(** [accepter] for an address without a pre-peer. *)
Definition accepter_first (addrport : Z) (buf : list Z) (size now : Z) (U : uninit) (h : ALTUSHost)
  : outcome (Z * ALTUSHost) :=
  let newpeer := ALTUS_SPrePeer_new (u_key U) (u_session U) now in
  let keysize := ntoh buf 10 2 in
  if keysize <? 128 then
    _ ← ALTUS_SPrePeer_delete newpeer; Ret (-3, h)
  else
    let newpeer := mkSPre (s_publicKey newpeer) keysize (s_sessionKey newpeer) now
                     false false false false false in
    match page_index (packet_byte buf 9) with
    | None => _ ← ALTUS_SPrePeer_delete newpeer; Ret (-3, h)
    | Some i =>
        newpeer ← store_page i buf ALTUS_HANDSHAKE_HEADER_SIZE (size - 12) newpeer;
        h ← (if (i =? 0) && (keysize =? size - 12) then prepeerToPeer addrport U h else Ret h);
        Ret (1, set_s_prepeers (insert_new addrport newpeer (s_prepeers h)) h)
    end.

(** The test for a complete key. *)
Definition key_complete (p : ALTUS_SPrePeer) : bool :=
  ((s_keySize p <? page_size * 2) && (pageA p || pageB p))
  || ((s_keySize p <? page_size * 3) && (pageA p || pageB p || pageC p))
  || (pageA p && pageB p && pageC p && pageD p).

(** [accepter] for an address with a pre-peer. *)
Definition accepter_next (addrport : Z) (buf : list Z) (size : Z) (peer : ALTUS_SPrePeer) (U : uninit)
  (h : ALTUSHost) : outcome (Z * ALTUSHost) :=
  let page := packet_byte buf 9 in
  if (page =? 90) && IsAckSent peer then
    h ← prepeerToPeer addrport U h; Ret (0, h)
  else
    peer ← (match page_index page with
            | Some i => store_page i buf 0 (size - ALTUS_HANDSHAKE_HEADER_SIZE) peer
            | None => Ret peer
            end);
    let h := set_s_prepeers (<[addrport := peer]> (s_prepeers h)) h in
    Ret (0, if key_complete peer then sendAck addrport peer h else h).

(** [accepter] *)
Definition accepter (addrport : Z) (buf : list Z) (size now : Z) (U : uninit) (h : ALTUSHost)
  : outcome (Z * ALTUSHost) :=
  if size <? 12 then Ret (-2, h)
  else if negb (strncmp_eq 6 (bytes_of "ALTUS/" ++ [0]) buf) then Ret (-2, h)
  else if negb (strncmp_eq 3 (bytes_of "1.0" ++ [0]) (drop 6 buf)) then Ret (-1, h)
  else
    match s_prepeers h !! addrport with
    | None => accepter_first addrport buf size now U h
    | Some p =>
        if ALTUS_HANDSHAKE_WAITTIME <? u32 (now - s_starttime p) then
          _ ← ALTUS_SPrePeer_delete p;
          accepter_first addrport buf size now U (set_s_prepeers (delete addrport (s_prepeers h)) h)
        else accepter_next addrport buf size p U h
    end.

(** ** Calling *)

(** [popCPrePeer] *)
Definition popCPrePeer (addrport : Z) (h : ALTUSHost) : option positive * ALTUSHost :=
  match c_prepeers h !! addrport with
  | None => (None, h)
  | Some a => (Some a, set_c_prepeers (delete addrport (c_prepeers h)) (cpre_objs h) h)
  end.

(** The pages of the own key, from [sentLen] on: header, key bytes, and the
    first [sendinglength] bytes of both are sent. *)
Fixpoint key_pages (fuel : nat) (key : list Z) (ksize sentLen page : Z) : outcome (list (list Z)) :=
  if sentLen <? ksize then
    match fuel with
    | O => NoFuel
    | S k =>
        let sendinglength := page_size in
        let sendinglength := if ksize - sentLen <? sendinglength then ksize - sentLen else sendinglength in
        bytes ← mem_read key 0 sendinglength;
        let msg := bytes_of "ALTUS/1.0" ++ [page] ++ be_put 2 (u16 ksize) ++ bytes in
        rest ← key_pages k key ksize (sentLen + sendinglength) (u8 (page + 1));
        Ret (take (Z.to_nat sendinglength) msg :: rest)
    end
  else Ret [].

(** [SendHandShake1] *)
Definition SendHandShake1 (addrport : Z) (h : ALTUSHost) : outcome (Z * ALTUSHost) :=
  match findCPrePeer addrport h with
  | None => Ret (-1, h)
  | Some _ =>
      packets ← key_pages (S (Z.to_nat (myPublicKeySize h / page_size))) (myPublicKey h) (myPublicKeySize h) 0 65;
      Ret (0, send_to (addr_of addrport) packets h)
  end.

(** [connect], up to the first packets, and the retries; [port] is in network
    byte order already. *)
Definition connect_begin (ip port : Z) (serverkey : list Z) (keylen now : Z) (U : uninit) (h : ALTUSHost)
  : outcome (option positive * ALTUSHost) :=
  let addrport := addrTo_uint64 ip port in
  match c_prepeers h !! addrport with
  | Some _ => Ret (None, h)
  | None =>
      newpeer ← ALTUS_CPrePeer_new ip port serverkey keylen (u_session U) now;
      let a := new_addr (cpre_objs h) in
      let h := set_c_prepeers (<[addrport := a]> (c_prepeers h)) (<[a := newpeer]> (cpre_objs h)) h in
      '(_, h) ← SendHandShake1 addrport h;
      Ret (Some a, h)
  end.

Definition connect_push (a : positive) (h : ALTUSHost) : outcome ALTUSHost :=
  match cpre_objs h !! a with
  | None => Fault
  | Some c =>
      let at_retry i := (u32 (c_starttime c + i * ConnectWaitTime), a) in
      Ret (set_queue (RetryQuque h ++ map at_retry (seqZ 1 ConnectRetryCount)) h)
  end.

Definition connect (ip port : Z) (serverkey : list Z) (keylen now : Z) (U : uninit) (h : ALTUSHost)
  : outcome (Z * ALTUSHost) :=
  '(r, h) ← connect_begin ip port serverkey keylen now U h;
  match r with
  | None => Ret (-1, h)
  | Some a => h ← connect_push a h; Ret (0, h)
  end.

(** [RetryQuque.pop()], whose argument is the queue's first entry *)
Definition pop_queue (h : ALTUSHost) : outcome ALTUSHost :=
  match top (RetryQuque h) with
  | None => Fault
  | Some t => Ret (set_queue (remove_one t (RetryQuque h)) h)
  end.

(** A turn of [Connecter] after [t] was taken from the top of the queue and the
    thread has slept until its time. *)
Definition Connecter_act (t : Z * positive) (h : ALTUSHost) : outcome ALTUSHost :=
  match cpre_objs h !! t.2 with
  | None => Fault
  | Some c =>
      if Expired c then pop_queue h
      else
        let addrport := addrTo_uint64 (c_ip c) (c_port c) in
        let peerTime := s32 (t.1 - c_starttime c) in
        if ConnectExpireTime <=? peerTime then
          _ ← ALTUS_CPrePeer_delete c;
          pop_queue (set_c_prepeers (delete addrport (c_prepeers h)) (delete t.2 (cpre_objs h)) h)
        else
          '(_, h) ← SendHandShake1 addrport h;
          pop_queue h
  end.

(** The whole turn, where nothing else touches the queue in between. *)
Definition Connecter_turn (h : ALTUSHost) : outcome ALTUSHost :=
  match top (RetryQuque h) with
  | None => Ret h
  | Some t => Connecter_act t h
  end.

(** [FlushRetryQueue] *)
Fixpoint flush_loop (fuel : nat) (h : ALTUSHost) : outcome ALTUSHost :=
  match RetryQuque h with
  | [] => Ret h
  | _ :: _ =>
      match fuel with
      | O => NoFuel
      | S k => h ← pop_queue h; flush_loop k h
      end
  end.

Definition FlushRetryQueue (h : ALTUSHost) : outcome ALTUSHost := flush_loop (length (RetryQuque h)) h.

(** [TryCompleteConnection]; the user's action on a connection runs in a thread
    of its own. *)
Definition done_packet : list Z := bytes_of "ALTUS/1.0Z" ++ [0; 0].

Definition TryCompleteConnection (addrport : Z) (buf : list Z) (recvSize : Z) (U : uninit) (h : ALTUSHost)
  : outcome (Z * ALTUSHost) :=
  let '(cprepeer, h) := popCPrePeer addrport h in
  match cprepeer with
  | None => Ret (-1, h)
  | Some a =>
      if negb (recvSize =? ALTUS_HANDSHAKE_HEADER_SIZE + ALTUS_SESSION_KEY_SIZE) then Ret (-1, h)
      else if negb (strncmp_eq 12 buf (bytes_of "ALTUS/1.0Y" ++ [0; 0; 0])) then Ret (-1, h)
      else
        match cpre_objs h !! a with
        | None => Fault
        | Some c =>
            match c_sessionKey c with
            | None => Fault
            | Some session =>
                bytes ← mem_read buf ALTUS_HANDSHAKE_HEADER_SIZE ALTUS_SESSION_KEY_SIZE;
                session ← mem_write session 0 bytes;
                match peers h !! addrport with
                | Some _ => Exit
                | None =>
                    '(newPeer, w) ← ALTUSPeer_client addrport (default [] (c_publicKey c)) session
                                      (c_keySize c) (u_acked U) (u_raw U) (u_channel U) (u_capacity U)
                                      (u_opened U) (u_file U) (shared h);
                    let c := mkCPre true (c_ip c) (c_port c) None (c_keySize c) None (c_starttime c) in
                    let h := set_c_prepeers (c_prepeers h) (<[a := c]> (cpre_objs h)) (set_shared w h) in
                    '(_, h) ← register addrport newPeer h;
                    Ret (0, send_to (addr_of addrport) [done_packet] h)
                end
            end
        end
  end.

(** ** The other threads' operations *)

(** An operation on the object of a peer. *)
Definition on_peer {A} (a : positive) (op : ALTUSPeer F -> world -> outcome (A * ALTUSPeer F * world))
  (h : ALTUSHost) : outcome (A * ALTUSHost) :=
  match peer_objs h !! a with
  | None => Fault
  | Some p =>
      '(x, p, w) ← op p (shared h);
      Ret (x, set_shared w (set_peers (peers h) (<[a := p]> (peer_objs h)) (peid_peer h) (lastpeid h) h))
  end.

(** What a peer sends goes to its address. *)
Definition peer_addr (p : ALTUSPeer F) : Z := addrTo_uint64 (remoteIP p) (remotePort p).

Definition peer_process (fuel : nat) (buf : list Z) (recvSize : Z) (a : positive) (h : ALTUSHost)
  : outcome ALTUSHost :=
  '(addr, packets, h) ← on_peer a (fun p w =>
     '(_, packets, p', w) ← processPacket WriteFile fuel buf recvSize p w;
     Ret (peer_addr p, packets, p', w)) h;
  Ret (send_to addr packets h).

(** A turn of [Listener] that has received [recvSize] bytes into [buf] from an
    address. *)
Definition Listener_turn (fuel : nat) (ip port : Z) (buf : list Z) (recvSize now : Z) (U : uninit)
  (h : ALTUSHost) : outcome ALTUSHost :=
  let addrport := addrTo_uint64 ip port in
  match getPeer addrport h with
  | None =>
      match findCPrePeer addrport h with
      | Some _ => '(_, h) ← TryCompleteConnection addrport buf recvSize U h; Ret h
      | None =>
          if IsAccepting h then '(_, h) ← accepter addrport buf recvSize now U h; Ret h else Ret h
      end
  | Some a => peer_process fuel buf recvSize a h
  end.

(** A turn of [Sender]: all peers, in the order of their addresses. *)
Fixpoint send_peers (addrs : list Z) (raw : list Z) (h : ALTUSHost) : outcome ALTUSHost :=
  match addrs with
  | [] => Ret h
  | x :: rest =>
      match peers h !! x with
      | None => send_peers rest raw h
      | Some a =>
          '(addr, packets, h) ← on_peer a (fun p w =>
             '(_, packets, p') ← Send raw p w; Ret (peer_addr p, packets, p', w)) h;
          send_peers rest raw (send_to addr packets h)
      end
  end.

Definition Sender_turn (raw : list Z) (h : ALTUSHost) : outcome ALTUSHost :=
  send_peers (merge_sort Z.le (elements (dom (peers h)))) raw h.

(** [removePeer] *)
Definition removePeer (peid : Z) (h : ALTUSHost) : outcome (Z * ALTUSHost) :=
  match peid_peer h !! peid with
  | None => Ret (-1, h)
  | Some a =>
      match peer_objs h !! a with
      | None => Fault
      | Some p =>
          w ← ALTUSPeer_delete p (shared h);
          Ret (0, set_shared w (set_peers (delete (peer_addr p) (peers h)) (delete a (peer_objs h))
                                  (delete peid (peid_peer h)) (lastpeid h) h))
      end
  end.

(** [keep_accept], [decline_accept] *)
Definition keep_accept (h : ALTUSHost) : ALTUSHost := set_flags (IsAlive h) true h.
Definition decline_accept (h : ALTUSHost) : ALTUSHost := set_flags (IsAlive h) false h.

(** The destructor's [delete] of the objects the tables point to, and the node
    pools. *)
Fixpoint delete_all {V} (del : V -> world -> outcome world) (l : list V) (w : world) : outcome world :=
  match l with
  | [] => Ret w
  | v :: r => w ← del v w; delete_all del r w
  end.

Definition pointees {V} (m : gmap Z positive) (o : gmap positive V) : outcome (list V) :=
  fold_right (fun x l => l ← l;
    match m !! x with
    | None => Ret l
    | Some a => match o !! a with Some v => Ret (v :: l) | None => Fault end
    end) (Ret []) (merge_sort Z.le (elements (dom m))).

Definition ALTUSHost_delete (h : ALTUSHost) : outcome (NodeHeap.mem * NodeBase.heap) :=
  ps ← pointees (peers h) (peer_objs h);
  w ← delete_all ALTUSPeer_delete ps (shared h);
  w ← delete_all (fun s w => _ ← ALTUS_SPrePeer_delete s; Ret w)
        (omap (fun x => s_prepeers h !! x) (merge_sort Z.le (elements (dom (s_prepeers h))))) w;
  cs ← pointees (c_prepeers h) (cpre_objs h);
  w ← delete_all (fun c w => _ ← ALTUS_CPrePeer_delete c; Ret w) cs w;
  m ← altusFreeP (wq_pool w) (wq_mem w);
  nh ← NodeBase.NodePool_delete (node_pool w) (node_heap w);
  Ret (m, nh).
End hosts.
Arguments ALTUSHost F : clear implicits.
Arguments uninit F : clear implicits.

(** [NullFunc] of src/ALTUS/CallbackFunctionTypedef.cpp, the default action. *)
Definition NullFunc {F} (h : ALTUSHost F) (a : Z) : outcome (ALTUSHost F) := Ret h.

(** A queue that is searched for its first entry. *)
Fixpoint first_top (q : list (Z * positive)) : option (Z * positive) :=
  match q with
  | [] => None
  | x :: r =>
      match first_top r with
      | None => Some x
      | Some t => if Comparator x t then Some t else Some x
      end
  end.
