(* ===== verification/HostInv.v ===== *)
(** * The tables of a host

    The invariant of the host's maps, heaps and retry queue, that every turn of
    its threads and every call of the application preserve it, and that the
    thread of the retries never touches a pre-peer that was deleted, as long as
    no connection is started while it sleeps. *)

From S2P Require Import Prelude NodePool FileRcvStream UBList NodeHeap WindowedQueue Bytes.
From S2P Require Import Channel Peer Host.
From stdpp Require Import strings.
#[local] Open Scope Z_scope.

(** ** New addresses, removal from the queue, addresses of hosts *)

Lemma new_addr_bound {A} (m : gmap positive A) a v : m !! a = Some v -> (a < new_addr m)%positive.
Proof.
  unfold new_addr. revert a v. apply (map_fold_weak_ind (fun r m => forall a v, m !! a = Some v -> (a < Pos.succ r)%positive)).
  - intros a v H. by rewrite lookup_empty in H.
  - intros k x m' r Hk IH a v H. destruct (decide (k = a)) as [->|N]; [lia|].
    rewrite lookup_insert_ne in H by done. specialize (IH _ _ H). lia.
Qed.

Lemma new_addr_fresh {A} (m : gmap positive A) : m !! new_addr m = None.
Proof. destruct (m !! new_addr m) eqn:E; [|done]. apply new_addr_bound in E. lia. Qed.

Lemma remove_one_in t x q : x ∈ remove_one t q -> x ∈ q.
Proof.
  induction q as [|y r IH]; cbn [remove_one]; [done|]. case_bool_decide; [by right|].
  intros [->|H']%elem_of_cons; [by left|]. right. by apply IH.
Qed.

Lemma remove_one_keeps t x q : t <> x -> x ∈ q -> x ∈ remove_one t q.
Proof.
  intros N. induction q as [|y r IH]; cbn [remove_one]; [done|].
  intros [->|H]%elem_of_cons; case_bool_decide as E; try (by subst); [by left|]. right. by apply IH.
Qed.

Lemma remove_one_nodup t q : NoDup q -> NoDup (remove_one t q) /\ t ∉ remove_one t q.
Proof.
  induction 1 as [|y r Hy Hr [IH1 IH2]]; cbn [remove_one].
  - split; [constructor|by intros ?%elem_of_nil].
  - case_bool_decide as E.
    + subst. done.
    + split; [constructor; [|done]; by intros ?%remove_one_in|].
      intros [->|?]%elem_of_cons; done.
Qed.

Lemma remove_one_length t q : t ∈ q -> length q = S (length (remove_one t q)).
Proof.
  induction q as [|y r IH]; cbn [remove_one]; [by intros ?%elem_of_nil|].
  intros [->|H]%elem_of_cons; case_bool_decide; cbn [length]; [done..|]. f_equal. by apply IH.
Qed.

Lemma mem_read_Ret {A} (src : list A) off n l : mem_read src off n = Ret l ->
  length l = Z.to_nat n /\ l = take (Z.to_nat n) (drop (Z.to_nat off) src) /\
  0 <= off /\ 0 <= n /\ off + n <= Z.of_nat (length src).
Proof.
  unfold mem_read. destruct (Z.ltb_spec off 0), (Z.ltb_spec n 0), (Z.ltb_spec (Z.of_nat (length src)) (off + n));
    cbn [orb]; try done.
  intros [= <-]. rewrite length_take, length_drop. split_and!; (done || lia).
Qed.

Lemma addr_parts ip port : 0 <= ip < 2 ^ 32 -> 0 <= port < 2 ^ 16 ->
  addr_ip (addrTo_uint64 ip port) = ip /\ addr_port (addrTo_uint64 ip port) = port.
Proof.
  intros Hi Hp. unfold addr_ip, addr_port, addrTo_uint64.
  rewrite Z.shiftl_mul_pow2 by lia. rewrite lor_low by lia.
  rewrite Z.shiftr_div_pow2 by lia. split.
  - rewrite Z.add_comm, Z.div_add by lia. rewrite Z.div_small by lia. apply u32_small. lia.
  - change 0xFFFF with (Z.ones 16). rewrite Z.land_ones by lia.
    replace (ip * 2 ^ 32 + port) with (port + ip * 2 ^ 16 * 2 ^ 16) by lia.
    rewrite Z.mod_add by lia. by apply Z.mod_small.
Qed.

Lemma addr_of_addr ip port : 0 <= ip < 2 ^ 32 -> 0 <= port < 2 ^ 16 ->
  addr_of (addrTo_uint64 ip port) = addrTo_uint64 ip port.
Proof. intros Hi Hp. unfold addr_of. by destruct (addr_parts ip port Hi Hp) as [-> ->]. Qed.

(** ** The invariant *)

Section invariant.
Context {F : Type}.
Implicit Types h : ALTUSHost F.

(** Every peer object is in the table of addresses, under its own, and in the
    table of numbers, once. *)
Record tables_ok (m : gmap Z positive) (o : gmap positive (ALTUSPeer F)) (i : gmap Z positive) : Prop := {
  t_peers x a : m !! x = Some a -> exists p, o !! a = Some p /\ peer_addr p = x;
  t_objs a p : o !! a = Some p -> m !! peer_addr p = Some a;
  t_peid n a : i !! n = Some a -> is_Some (o !! a) /\ 0 <= n < 2 ^ 32;
  t_named a p : o !! a = Some p -> exists n, i !! n = Some a;
  t_inj n n' a : i !! n = Some a -> i !! n' = Some a -> n = n'
}.

(** What the destructors need of the keys. *)
Definition cpre_ok (c : ALTUS_CPrePeer) : Prop :=
  if Expired c then c_publicKey c = None /\ c_sessionKey c = None
  else exists k s, c_publicKey c = Some k /\ c_keySize c <= Z.of_nat (length k) /\ 0 <= c_keySize c /\
       c_sessionKey c = Some s /\ Z.of_nat (length s) = ALTUS_SESSION_KEY_SIZE.

Definition spre_ok (s : ALTUS_SPrePeer) : Prop :=
  exists k e, s_publicKey s = Some k /\ Z.of_nat (length k) = ALTUS_RSA_KEY_SIZE /\
    s_sessionKey s = Some e /\ Z.of_nat (length e) = ALTUS_SESSION_KEY_SIZE /\ 128 <= s_keySize s < 2 ^ 16.

Definition caller_addr (c : ALTUS_CPrePeer) : Z := addrTo_uint64 (c_ip c) (c_port c).

(** Every client's pre-peer of the table is live, under its address, and not yet
    connected; every retry is one of the three of a live pre-peer. *)
Record callers_ok (m : gmap Z positive) (o : gmap positive ALTUS_CPrePeer) (q : list (Z * positive)) : Prop := {
  c_table x a : m !! x = Some a -> exists c, o !! a = Some c /\ caller_addr c = x /\ Expired c = false;
  c_objs a c : o !! a = Some c -> cpre_ok c;
  c_queue t a : (t, a) ∈ q -> exists c k, o !! a = Some c /\ 1 <= k <= ConnectRetryCount /\
                                 t = u32 (c_starttime c + k * ConnectWaitTime);
  c_nodup : NoDup q
}.

Definition host_inv h : Prop :=
  tables_ok (peers h) (peer_objs h) (peid_peer h) /\
  callers_ok (c_prepeers h) (cpre_objs h) (RetryQuque h) /\
  map_Forall (fun _ => spre_ok) (s_prepeers h) /\
  myPublicKeySize h = ALTUS_RSA_KEY_SIZE /\ Z.of_nat (length (myPublicKey h)) = ALTUS_RSA_KEY_SIZE.

Definition uninit_ok (U : uninit F) : Prop :=
  Z.of_nat (length (u_key U)) = ALTUS_RSA_KEY_SIZE /\ Z.of_nat (length (u_session U)) = ALTUS_SESSION_KEY_SIZE.

(** ** Peers *)

Lemma tables_empty : tables_ok ∅ ∅ ∅.
Proof. split; intros *; rewrite lookup_empty; done. Qed.

Lemma tables_insert m o i x n p a :
  tables_ok m o i -> m !! x = None -> peer_addr p = x -> o !! a = None -> i !! n = None -> 0 <= n < 2 ^ 32 ->
  tables_ok (<[x := a]> m) (<[a := p]> o) (<[n := a]> i).
Proof.
  intros [T1 T2 T3 T4 T5] Hx Hp Ha Hn Hr.
  assert (Hno : forall y b, m !! y = Some b -> b <> a) by (intros y b H ->; destruct (T1 _ _ H) as (q & Hq & _); congruence).
  assert (Hni : forall y b, i !! y = Some b -> b <> a) by (intros y b H ->; destruct (T3 _ _ H) as [[q Hq] _]; congruence).
  split.
  - intros y b [[-> <-]|[Ny Hy]]%lookup_insert_Some.
    + exists p. by rewrite lookup_insert_eq.
    + rewrite lookup_insert_ne by (intros ->; by apply (Hno _ _ Hy)). by apply T1.
  - intros b q [[<- <-]|[Nb Hb]]%lookup_insert_Some.
    + by rewrite Hp, lookup_insert_eq.
    + specialize (T2 _ _ Hb). rewrite lookup_insert_ne; [done|]. intros ->. congruence.
  - intros k b [[-> <-]|[Nk Hk]]%lookup_insert_Some.
    + split; [|done]. rewrite lookup_insert_eq. by eexists.
    + rewrite lookup_insert_ne by (intros ->; by apply (Hni _ _ Hk)). by apply (T3 k).
  - intros b q [[<- <-]|[Nb Hb]]%lookup_insert_Some.
    + exists n. by rewrite lookup_insert_eq.
    + destruct (T4 _ _ Hb) as [k Hk]. exists k. rewrite lookup_insert_ne; [done|]. intros ->. congruence.
  - intros k k' b [[-> <-]|[Nk Hk]]%lookup_insert_Some [[-> E]|[Nk' Hk']]%lookup_insert_Some.
    + done.
    + by destruct (Hni _ _ Hk').
    + subst. by destruct (Hni _ _ Hk).
    + by apply (T5 _ _ b).
Qed.

Lemma tables_delete m o i n a p :
  tables_ok m o i -> i !! n = Some a -> o !! a = Some p ->
  tables_ok (delete (peer_addr p) m) (delete a o) (delete n i).
Proof.
  intros [T1 T2 T3 T4 T5] Hn Ha. pose proof (T2 _ _ Ha) as Hm.
  split.
  - intros y b [Ny Hy]%lookup_delete_Some. destruct (T1 _ _ Hy) as (q & Hq & Hqy). exists q.
    rewrite lookup_delete_ne; [done|]. intros <-. congruence.
  - intros b q [Nb Hb]%lookup_delete_Some. rewrite lookup_delete_ne; [by apply T2|].
    intros E. specialize (T2 _ _ Hb). congruence.
  - intros k b [Nk Hk]%lookup_delete_Some. rewrite lookup_delete_ne; [by apply (T3 k)|].
    intros <-. by apply Nk, (T5 _ _ a).
  - intros b q [Nb Hb]%lookup_delete_Some. destruct (T4 _ _ Hb) as [k Hk]. exists k.
    rewrite lookup_delete_ne; [done|]. intros <-. congruence.
  - intros k k' b [_ Hk]%lookup_delete_Some [_ Hk']%lookup_delete_Some. by apply (T5 _ _ b).
Qed.

Lemma tables_update m o i a p p' :
  tables_ok m o i -> o !! a = Some p -> peer_addr p' = peer_addr p -> tables_ok m (<[a := p']> o) i.
Proof.
  intros [T1 T2 T3 T4 T5] Ha Hp. split; [| | | |done].
  - intros y b Hy. destruct (T1 _ _ Hy) as (q & Hq & Hqy).
    destruct (decide (a = b)) as [->|N]; [|exists q; by rewrite lookup_insert_ne].
    exists p'. rewrite lookup_insert_eq. split; [done|]. rewrite Hp. congruence.
  - intros b q [[-> <-]|[Nb Hb]]%lookup_insert_Some; [rewrite Hp|]; by apply T2.
  - intros k b Hk. destruct (T3 _ _ Hk) as [[q Hq] Hr]. split; [|done].
    destruct (decide (a = b)) as [->|N]; [rewrite lookup_insert_eq|rewrite lookup_insert_ne by done]; by eexists.
  - intros b q [[-> <-]|[Nb Hb]]%lookup_insert_Some; by eapply T4.
Qed.

Lemma find_peid_Ret fuel m n r : 0 <= n < 2 ^ 32 -> find_peid fuel m n = Ret r -> m !! r = None /\ 0 <= r < 2 ^ 32.
Proof.
  revert n. induction fuel as [|k IH]; intros n Hn; cbn [find_peid]; destruct (m !! n) eqn:E; intros H;
    try done; try (by injection H as <-).
  apply IH in H; [done|]. apply u32_range.
Qed.

(** Registering a peer under a free address. *)
Lemma register_inv x p h n h' :
  host_inv h -> peers h !! x = None -> peer_addr p = x -> register x p h = Ret (n, h') ->
  host_inv h' /\ peers h' = <[x := new_addr (peer_objs h)]> (peers h) /\
  peer_objs h' = <[new_addr (peer_objs h) := p]> (peer_objs h) /\
  peid_peer h !! n = None /\ peid_peer h' = <[n := new_addr (peer_objs h)]> (peid_peer h) /\
  h' = set_peers (peers h') (peer_objs h') (peid_peer h') n h.
Proof.
  intros (Ht & Hc & Hs & Hk) Hx Hp H. unfold register in H.
  apply bind_Ret_inv in H as (n' & Hf & [= -> <-]).
  apply find_peid_Ret in Hf as [Hn Hr]; [|apply u32_range].
  unfold insert_new. rewrite Hx, Hn. cbn. split_and!; try done.
  unfold host_inv. cbn. split_and!; try done; [|apply Hk..].
  apply tables_insert; try done. apply new_addr_fresh.
Qed.

(** ** The retry queue *)

Context (top : list (Z * positive) -> option (Z * positive)) `{!PriorityQueue top}.

Lemma callers_empty : callers_ok ∅ ∅ [].
Proof. split; try (intros *; rewrite lookup_empty; done); [by intros * ?%elem_of_nil|constructor]. Qed.

(** The queue may only lose entries. *)
Lemma callers_queue m o q q' : callers_ok m o q -> (forall t, t ∈ q' -> t ∈ q) -> NoDup q' -> callers_ok m o q'.
Proof. intros [C1 C2 C3 C4] Hq Hn. split; try done. intros t a H. by apply C3, Hq. Qed.

Lemma callers_new m o q x c : callers_ok m o q -> m !! x = None -> caller_addr c = x -> Expired c = false ->
  cpre_ok c ->
  callers_ok (<[x := new_addr o]> m) (<[new_addr o := c]> o)
    (q ++ map (fun i => (u32 (c_starttime c + i * ConnectWaitTime), new_addr o)) (seqZ 1 ConnectRetryCount)).
Proof.
  intros [C1 C2 C3 C4] Hx Hc He Hok. pose proof (new_addr_fresh o) as Hf. set (a := new_addr o) in *.
  assert (Hq : forall t, (t, a) ∉ q) by (intros t (d & k & Hd & _)%C3; congruence).
  split.
  - intros y b [[-> <-]|[Ny Hy]]%lookup_insert_Some; [exists c; by rewrite lookup_insert_eq|].
    destruct (C1 _ _ Hy) as (d & Hd & Hdx). exists d. rewrite lookup_insert_ne; [done|]. congruence.
  - intros b d [[<- <-]|[Nb Hb]]%lookup_insert_Some; [done|]. by apply (C2 b).
  - intros t b [H|H]%elem_of_app.
    + destruct (C3 _ _ H) as (d & k & Hd & Hk). exists d, k. rewrite lookup_insert_ne; [done|]. congruence.
    + apply list_elem_of_fmap in H as (k & [= -> ->] & Hk). exists c, k. rewrite lookup_insert_eq. split; [done|].
      apply elem_of_seqZ in Hk. unfold ConnectRetryCount in *. split; [lia|done].
  - apply NoDup_app. split; [done|]. split.
    + intros t Ht Hm. apply list_elem_of_fmap in Hm as (k & -> & _). by apply (Hq _ Ht).
    + change (seqZ 1 ConnectRetryCount) with [1; 2; 3]. cbn [map]. unfold ConnectWaitTime.
      repeat constructor; rewrite ?elem_of_cons, ?elem_of_nil; intros H; destruct_or?; try done;
        injection H as H; apply u32_inj in H; lia.
Qed.

Lemma s32_sub_l a b : s32 (u32 a - b) = s32 (a - b).
Proof. unfold s32. by rewrite u32_sub_l. Qed.

Lemma s32_sub_r a b : s32 (a - u32 b) = s32 (a - b).
Proof. unfold s32. by rewrite u32_sub_r. Qed.

(** The last retry of a pre-peer is not served before the others. *)
Lemma last_retry m o q t a c : callers_ok m o q -> comparable q -> top q = Some (t, a) -> o !! a = Some c ->
  ConnectExpireTime <= s32 (t - c_starttime c) -> forall t', (t', a) ∈ remove_one (t, a) q -> False.
Proof.
  intros [C1 C2 C3 C4] Hcmp Htop Ha Hexp t' Hin.
  destruct (remove_one_nodup (t, a) q C4) as [_ Hno].
  pose proof (remove_one_in _ _ _ Hin) as Hin'.
  destruct (C3 _ _ (top_in q _ Htop)) as (c1 & k & E1 & Hk & ->).
  destruct (C3 _ _ Hin') as (c2 & k' & E2 & Hk' & ->).
  rewrite Ha in E1, E2. injection E1 as <-. injection E2 as <-.
  assert (k <> k') as Hne by (intros ->; by apply Hno).
  pose proof (top_first q _ _ Hcmp Htop Hin') as Hf. unfold Comparator in Hf. cbn [fst] in Hf.
  unfold ConnectExpireTime, ConnectRetryCount, ConnectWaitTime in *.
  rewrite s32_sub_l in Hexp. rewrite s32_sub_l, s32_sub_r in Hf.
  replace (c_starttime c + k * 1500 - c_starttime c) with (k * 1500) in Hexp by lia.
  rewrite s32_small in Hexp by lia.
  replace (c_starttime c + k * 1500 - (c_starttime c + k' * 1500)) with ((k - k') * 1500) in Hf by lia.
  rewrite s32_small in Hf by lia. apply Z.ltb_ge in Hf. lia.
Qed.

Lemma wipe_ok k n : 0 <= n <= Z.of_nat (length k) -> wipe (Some k) n = Ret tt.
Proof.
  intros Hn. unfold wipe. rewrite mem_write_ok; [done|lia|]. rewrite length_replicate. lia.
Qed.

Lemma wipe_fault k n : Z.of_nat (length k) < n -> wipe (Some k) n = Fault.
Proof. intros Hn. unfold wipe. rewrite mem_write_fault; [done|]. rewrite length_replicate. lia. Qed.

Lemma cpre_delete_ok c : cpre_ok c -> ALTUS_CPrePeer_delete c = Ret tt.
Proof.
  unfold cpre_ok, ALTUS_CPrePeer_delete. destruct (Expired c).
  - by intros [-> ->].
  - intros (k & s & -> & Hk & Hk0 & -> & Hs). rewrite (wipe_ok k), bind_ret by lia. apply wipe_ok.
    rewrite Hs. unfold ALTUS_SESSION_KEY_SIZE. lia.
Qed.

Lemma pop_queue_ok h : host_inv h -> RetryQuque h <> [] ->
  exists h', pop_queue top h = Ret h' /\ host_inv h' /\ length (RetryQuque h) = S (length (RetryQuque h')).
Proof.
  intros (Ht & Hc & Hr) Hq. unfold pop_queue. destruct (top (RetryQuque h)) as [t|] eqn:E.
  - eexists. split; [reflexivity|]. cbn. split; [|by apply remove_one_length, top_in].
    split; [done|]. split; [|done]. cbn. eapply callers_queue; [done|intros ?; apply remove_one_in|].
    apply remove_one_nodup. apply Hc.
  - by apply top_none in E.
Qed.

Lemma key_pages_700 key : Z.of_nat (length key) = ALTUS_RSA_KEY_SIZE ->
  key_pages (S (Z.to_nat (ALTUS_RSA_KEY_SIZE / page_size))) key ALTUS_RSA_KEY_SIZE 0 65
  = Ret [bytes_of "ALTUS/1.0A" ++ [2; 188] ++ take 472 key; bytes_of "ALTUS/1.0B" ++ [2; 188] ++ take 204 key].
Proof.
  intros Hk. unfold ALTUS_RSA_KEY_SIZE in *. change (S (Z.to_nat (700 / page_size))) with 2%nat.
  cbn [key_pages]. change page_size with 484. change (0 <? 700) with true. change (700 - 0 <? 484) with false. cbv iota.
  change (0 + 484 <? 700) with true. change (if 700 - (0 + 484) <? 484 then 700 - (0 + 484) else 484) with 216.
  change (0 + 484 + 216 <? 700) with false. cbv iota.
  rewrite (mem_read_ok key 0 484), bind_ret, mem_read_ok, !bind_ret by lia.
  change (Z.to_nat 484) with (12 + 472)%nat. change (Z.to_nat 216) with (12 + 204)%nat.
  change (Z.to_nat 0) with 0%nat. rewrite drop_0.
  change (u8 (65 + 1)) with 66. change (be_put 2 (u16 700)) with [2; 188].
  rewrite !app_assoc, !take_app_add' by done. by rewrite !take_take.
Qed.

(** The first packets of a connection: two pages, the second too the start of
    the key. *)
Definition hello (key : list Z) : list (list Z) :=
  [bytes_of "ALTUS/1.0A" ++ [2; 188] ++ take 472 key; bytes_of "ALTUS/1.0B" ++ [2; 188] ++ take 204 key].

Lemma SendHandShake1_ok x h : host_inv h ->
  SendHandShake1 x h =
    match c_prepeers h !! x with
    | None => Ret (-1, h)
    | Some _ => Ret (0, send_to (addr_of x) (hello (myPublicKey h)) h)
    end.
Proof.
  intros (_ & _ & _ & E & Hk). unfold SendHandShake1, findCPrePeer. destruct (c_prepeers h !! x); [|done].
  rewrite E, key_pages_700 by done. done.
Qed.

Lemma send_to_inv x l h : host_inv h -> host_inv (send_to x l h).
Proof. done. Qed.

Lemma Connecter_turn_ok h : host_inv h -> comparable (RetryQuque h) -> RetryQuque h <> [] ->
  exists h', Connecter_turn top h = Ret h' /\ host_inv h' /\ length (RetryQuque h) = S (length (RetryQuque h')).
Proof.
  intros Hi Hcmp Hq. unfold Connecter_turn, Connecter_act.
  destruct (top (RetryQuque h)) as [[t a]|] eqn:E; [|by apply top_none in E].
  pose proof Hi as (Ht & Hc & Hs & Hk).
  destruct (c_queue _ _ _ Hc _ _ (top_in _ _ E)) as (c & k & Ha & _). cbn [snd fst]. rewrite Ha.
  destruct (Expired c) eqn:Ee; [by apply pop_queue_ok|].
  destruct (Z.leb_spec ConnectExpireTime (s32 (t - c_starttime c))) as [Hexp|_].
  - pose proof (last_retry _ _ _ _ _ _ Hc Hcmp E Ha Hexp) as Hlast.
    rewrite cpre_delete_ok, bind_ret by (by apply (c_objs _ _ _ Hc a)).
    unfold pop_queue. cbn. rewrite E. eexists. split; [reflexivity|].
    split; [|by apply remove_one_length, top_in].
    split; [done|]. split; [|done]. cbn.
    destruct Hc as [C1 C2 C3 C4]. split.
    + intros y b [Ny Hy]%lookup_delete_Some. destruct (C1 _ _ Hy) as (d & Hd & Hdx & Hde).
      exists d. rewrite lookup_delete_ne; [done|]. intros <-. apply Ny. rewrite Ha in Hd. by injection Hd as <-.
    + intros b d [_ Hb]%lookup_delete_Some. by apply (C2 b).
    + intros t' b Hin. destruct (decide (a = b)) as [->|N]; [by apply Hlast in Hin|].
      rewrite lookup_delete_ne by done. apply C3. by eapply remove_one_in.
    + by apply remove_one_nodup.
  - rewrite SendHandShake1_ok by done. destruct (c_prepeers h !! _); rewrite bind_ret.
    + by apply (pop_queue_ok (send_to _ _ h)).
    + by apply pop_queue_ok.
Qed.

(** ** The application *)

Lemma connect_inv ip port key keylen now (U : uninit F) h r h' :
  host_inv h -> uninit_ok U -> connect ip port key keylen now U h = Ret (r, h') -> host_inv h'.
Proof.
  intros Hi HU H. pose proof Hi as (Ht & Hc & Hs & Hk). unfold connect, connect_begin in H.
  destruct (c_prepeers h !! addrTo_uint64 ip port) eqn:Ex; [rewrite bind_ret in H; injection H as _ <-; exact Hi|].
  apply bind_Ret_inv in H as ([r1 h1] & Hb & H).
  apply bind_Ret_inv in Hb as (c & Hn & Hb).
  unfold ALTUS_CPrePeer_new in Hn. destruct (Z.ltb_spec keylen 0) as [|Hl]; [done|].
  apply bind_Ret_inv in Hn as (k & Hm & [= <-]).
  assert (length k = Z.to_nat keylen) as Hlk.
  { by apply mem_read_Ret in Hm as [? _]. }
  set (c := mkCPre _ _ _ _ _ _ _) in Hb.
  set (h0 := set_c_prepeers _ _ h) in Hb.
  assert (Hok : callers_ok (c_prepeers h0) (cpre_objs h0)
    (RetryQuque h ++ map (fun i => (u32 (now + i * ConnectWaitTime), new_addr (cpre_objs h))) (seqZ 1 ConnectRetryCount))).
  { apply (callers_new _ _ _ _ c Hc Ex); try done. exists k, (u_session U). cbn. destruct HU as [_ HU].
    split_and!; try done; unfold u16; pose proof (Z.mod_le keylen (2 ^ 16)); pose proof (Z.mod_pos_bound keylen (2 ^ 16)); lia. }
  assert (Hi0 : host_inv h0).
  { split; [done|]. split; [|done]. eapply callers_queue; [apply Hok|intros t Ht0; by apply elem_of_app; left|apply Hc]. }
  rewrite SendHandShake1_ok in Hb by done. unfold h0 in Hb at 1. cbn [c_prepeers set_c_prepeers] in Hb.
  rewrite lookup_insert_eq, bind_ret in Hb. injection Hb as <- <-.
  unfold connect_push in H. cbn [cpre_objs send_to h0 set_c_prepeers] in H. rewrite lookup_insert_eq, bind_ret in H.
  injection H as <- <-. split; [done|]. split; [exact Hok|done].
Qed.

Lemma removePeer_inv n h r h' : host_inv h -> removePeer n h = Ret (r, h') -> host_inv h'.
Proof.
  intros Hi H. pose proof Hi as (Ht & Hr). unfold removePeer in H.
  destruct (peid_peer h !! n) as [a|] eqn:En; [|by injection H as <- <-].
  destruct (peer_objs h !! a) as [p|] eqn:Ea; [|done].
  apply bind_Ret_inv in H as (w & _ & [= <- <-]). split; [|done]. cbn. by eapply tables_delete.
Qed.

(** Removing a peer whose [keySize] exceeds the memory of its key writes past
    the end of it. *)
Lemma removePeer_overflows n a p h :
  getPeerbyID n h = Some a -> peer_objs h !! a = Some p -> 0 <= n < 2 ^ 32 ->
  Z.of_nat (length (publicKey p)) < keySize p -> removePeer n h = Fault.
Proof.
  intros Hn Ha Hr Hk. unfold getPeerbyID in Hn. rewrite u32_small in Hn by done.
  unfold removePeer. rewrite Hn, Ha. unfold ALTUSPeer_delete. by rewrite (wipe_fault (publicKey p) (keySize p) Hk).
Qed.

Lemma on_peer_inv {A} a (op : ALTUSPeer F -> world -> outcome (A * ALTUSPeer F * world)) h r h' :
  (forall p w x p' w', op p w = Ret (x, p', w') -> peer_addr p' = peer_addr p) ->
  host_inv h -> on_peer a op h = Ret (r, h') -> host_inv h'.
Proof.
  intros Hop (Ht & Hr) H. unfold on_peer in H. destruct (peer_objs h !! a) as [p|] eqn:Ea; [|done].
  apply bind_Ret_inv in H as ([[x p'] w] & Hp & [= <- <-]). split; [|done]. cbn.
  eapply tables_update; [done|done|]. by eapply Hop.
Qed.

(** ** Peers keep their addresses *)

Context (WriteFile : F -> list Z -> F * Z).

Lemma processPacket_addr fuel buf n p w r l p' w' :
  processPacket WriteFile fuel buf n p w = Ret (r, l, p', w') -> peer_addr p' = peer_addr p.
Proof.
  unfold processPacket. destruct (ch p !! _); [|by intros [= _ _ <- _]].
  intros H. apply bind_Ret_inv in H as ([[x c'] w1] & _ & H).
  destruct (x =? 0); [by injection H as _ _ <- _|]. destruct (x =? 1); [|by injection H as _ _ <- _].
  destruct (Channel.union c'); try done. apply bind_Ret_inv in H as (pk & _ & H). by injection H as _ _ <- _.
Qed.

Lemma send_channels_addr l raw (p : ALTUSPeer F) w r pk p' :
  send_channels l raw p w = Ret (r, pk, p') -> peer_addr p' = peer_addr p.
Proof.
  revert p r pk p'. induction l as [|x rest IH]; intros p r pk p'; cbn [send_channels]; [by intros [= _ _ <-]|].
  destruct (ch p !! x); [|apply IH]. intros H. apply bind_Ret_inv in H as ([[l1 c1] stop] & _ & H).
  destruct stop; [by injection H as _ _ <-|]. apply bind_Ret_inv in H as ([[r2 l2] p2] & H2 & [= _ _ <-]).
  by apply IH in H2.
Qed.

Lemma CreateUpstream_addr cuid buf len (p : ALTUSPeer F) w r p' w' :
  CreateUpstream cuid buf len p w = Ret (r, p', w') -> peer_addr p' = peer_addr p.
Proof.
  unfold CreateUpstream. destruct (ch p !! cuid) as [c|]; [|by intros [= _ <- _]].
  destruct (_ || _); [by intros [= _ <- _]|]. intros H.
  apply bind_Ret_inv in H as ([[x c'] w1] & _ & H). by injection H as _ <- _.
Qed.

Lemma server_fields ip port key session ks acked raw rc cap op (f : F) w p w' :
  ALTUSPeer_server ip port key session ks acked raw rc cap op f w = Ret (p, w') ->
  remoteIP p = ip /\ remotePort p = port /\ publicKey p = key /\ keySize p = ks /\ sessionKey p = session.
Proof.
  unfold ALTUSPeer_server. intros H. repeat (apply bind_Ret_inv in H as ([? ?] & _ & H)). by injection H as <- _.
Qed.

Lemma client_fields x key session ks acked raw rc cap op (f : F) w p w' :
  ALTUSPeer_client x key session ks acked raw rc cap op f w = Ret (p, w') ->
  remoteIP p = addr_ip x /\ remotePort p = addr_port x /\ publicKey p = key /\ keySize p = ks /\
  sessionKey p = session.
Proof.
  unfold ALTUSPeer_client. intros H. repeat (apply bind_Ret_inv in H as ([? ?] & _ & H)). by injection H as <- _.
Qed.

(** ** The listener *)

(** A call of the public interface of the host, of its peers, and of the
    channels of a peer, which change nothing else of it. *)
Inductive api_call : ALTUSHost F -> ALTUSHost F -> Prop :=
| api_run h : api_call h (run h).2
| api_connect ip port key keylen now (U : uninit F) h r h' :
    uninit_ok U -> connect ip port key keylen now U h = Ret (r, h') -> api_call h h'
| api_upstream peid cuid buf len a h r h' :
    getPeerbyID peid h = Some a -> on_peer a (CreateUpstream cuid buf len) h = Ret (r, h') -> api_call h h'
| api_channel peid acked b a h r h' :
    getPeerbyID peid h = Some a ->
    on_peer a (fun p w => '(r, p) ← newChannel acked b p; Ret (r, p, w)) h = Ret (r, h') -> api_call h h'
| api_object {A} peid (op : ALTUSPeer F -> world -> outcome (A * ALTUSPeer F * world)) a h r h' :
    (forall p w x p' w', op p w = Ret (x, p', w') -> exists m, p' = set_ch m p) ->
    getPeerbyID peid h = Some a -> on_peer a op h = Ret (r, h') -> api_call h h'
| api_remove peid h r h' : removePeer peid h = Ret (r, h') -> api_call h h'
| api_flush h h' : FlushRetryQueue top h = Ret h' -> api_call h h'
| api_accept h : api_call h (keep_accept h)
| api_decline h : api_call h (decline_accept h).

Lemma newChannel_addr acked b (p : ALTUSPeer F) r p' :
  newChannel acked b p = Ret (r, p') -> peer_addr p' = peer_addr p.
Proof.
  unfold newChannel. intros H. apply bind_Ret_inv in H as ([x|] & _ & H); by injection H as _ <-.
Qed.

Lemma flush_loop_inv k h h' : host_inv h -> flush_loop top k h = Ret h' -> host_inv h'.
Proof.
  revert h. induction k as [|k IH]; intros h Hi; cbn [flush_loop]; destruct (RetryQuque h) eqn:E; try done;
    try by intros [= <-].
  destruct (pop_queue_ok h Hi) as (h1 & -> & Hi1 & _); [by rewrite E|]. rewrite bind_ret. by apply IH.
Qed.

Lemma api_call_inv h h' : host_inv h -> api_call h h' -> host_inv h'.
Proof.
  intros Hi Hs. destruct Hs; try done.
  - by eapply connect_inv.
  - eapply on_peer_inv; [|done|done]. intros ? ? ? ? ?. apply CreateUpstream_addr.
  - eapply on_peer_inv; [|done|done]. intros p w x p' w' E.
    apply bind_Ret_inv in E as ([r1 p1] & E & [= _ <- _]). by eapply newChannel_addr.
  - eapply on_peer_inv; [|done|done]. intros p w x p' w' E.
    match goal with H : forall p w x p' w', _ -> exists m, _ |- _ => by destruct (H _ _ _ _ _ E) as [m ->] end.
  - by eapply removePeer_inv.
  - by eapply flush_loop_inv.
Qed.

(** The user's action on acceptance knows the host by its public interface: it
    is some sequence of calls. *)
Class UserAction (act : ALTUSHost F -> Z -> outcome (ALTUSHost F)) : Prop :=
  user_calls h n h' : act h n = Ret h' -> rtc api_call h h'.

#[export] Instance NullFunc_action : UserAction NullFunc.
Proof. intros h n h' [= <-]. apply rtc_refl. Qed.

Lemma user_inv act `{!UserAction act} h n h' : host_inv h -> act h n = Ret h' -> host_inv h'.
Proof.
  intros Hi H%user_calls. induction H as [|x y z Hs _ IH]; [done|]. apply IH. by eapply api_call_inv.
Qed.

Context (acceptAction : ALTUSHost F -> Z -> outcome (ALTUSHost F)) `{!UserAction acceptAction}.

(** Addresses as sockets have them. *)
Definition sock_addr (x : Z) : Prop :=
  exists ip port, 0 <= ip < 2 ^ 32 /\ 0 <= port < 2 ^ 16 /\ x = addrTo_uint64 ip port.

Lemma sock_addr_of x : sock_addr x -> addrTo_uint64 (addr_ip x) (addr_port x) = x.
Proof. intros (ip & port & Hi & Hp & ->). by apply addr_of_addr. Qed.

Lemma set_s_prepeers_inv m h : host_inv h -> map_Forall (fun _ => spre_ok) m -> host_inv (set_s_prepeers m h).
Proof. intros (Ht & Hc & _ & Hk) Hm. done. Qed.

Lemma prepeerToPeer_inv x (U : uninit F) h h' : host_inv h -> sock_addr x ->
  prepeerToPeer acceptAction x U h = Ret h' -> host_inv h'.
Proof.
  intros Hi Hx H. unfold prepeerToPeer in H. destruct (s_prepeers h !! x) as [s|] eqn:Es; [|done].
  destruct (peers h !! x) eqn:Ep; [done|].
  apply bind_Ret_inv in H as ([p w] & Hp & H). apply bind_Ret_inv in H as ([n h1] & Hr & H).
  apply server_fields in Hp as (Hip & Hport & _).
  assert (peer_addr p = x) as Hpx by (unfold peer_addr; rewrite Hip, Hport; by apply sock_addr_of).
  destruct (register_inv x p (set_shared w h) n h1 Hi Ep Hpx Hr) as (Hi1 & _ & _ & _ & _ & E1).
  eapply user_inv; [exact _| |exact H]. apply set_s_prepeers_inv; [exact Hi1|].
  apply map_Forall_delete. rewrite E1. apply Hi.
Qed.

Lemma store_page_inv i buf from n s s' : spre_ok s -> 0 <= i ->
  store_page i buf from n s = Ret s' -> spre_ok s' /\ s_keySize s' = s_keySize s.
Proof.
  intros (k & e & Hk & Hl & Hr) H0 H. unfold store_page in H. rewrite Hk in H.
  apply bind_Ret_inv in H as (b & _ & H). apply bind_Ret_inv in H as (k' & Hw & [= <-]).
  split; [|done]. exists k', e. cbn. split; [done|]. split; [|done]. rewrite <- Hl.
  unfold mem_write in Hw. case_match; [done|]. injection Hw as <-.
  rewrite length_blit; [done|]. apply orb_false_iff in H as [H1 H2]. apply Z.ltb_ge in H1, H2.
  unfold page_size, ALTUS_PACKET_SIZE, ALTUS_HANDSHAKE_HEADER_SIZE in *. lia.
Qed.

Lemma page_index_range c i : page_index c = Some i -> 0 <= i <= 3.
Proof. unfold page_index. repeat case_match; intros [= <-]; lia. Qed.

Lemma ntoh_range buf off n : bytes buf -> 0 <= ntoh buf off n < 256 ^ Z.of_nat n.
Proof.
  intros Hb. unfold ntoh, field.
  assert (bytes (take n (drop off buf))) as Ht by (by apply Forall_take, Forall_drop).
  pose proof (be_get_bounds _ Ht). pose proof (Z.pow_le_mono_r 256 (Z.of_nat (length (take n (drop off buf)))) (Z.of_nat n)).
  rewrite length_take in *. lia.
Qed.

Lemma accepter_first_inv x buf n now (U : uninit F) h r h' : host_inv h -> sock_addr x -> bytes buf -> uninit_ok U ->
  accepter_first acceptAction x buf n now U h = Ret (r, h') -> host_inv h'.
Proof.
  intros Hi Hx Hb [HU1 HU2] H. unfold accepter_first in H.
  destruct (Z.ltb_spec (ntoh buf 10 2) 128) as [|Hk].
  { apply bind_Ret_inv in H as (? & _ & [= _ <-]). exact Hi. }
  pose proof (ntoh_range buf 10 2 Hb). change (256 ^ Z.of_nat 2) with (2 ^ 16) in *.
  destruct (page_index (packet_byte buf 9)) as [i|] eqn:Ei.
  2: { apply bind_Ret_inv in H as (? & _ & [= _ <-]). exact Hi. }
  apply bind_Ret_inv in H as (s & Hst & H). apply bind_Ret_inv in H as (h1 & Hp & [= _ <-]).
  apply store_page_inv in Hst as [Hs _]; [|exists (u_key U), (u_session U); split_and!; (done || cbn; lia)|by apply page_index_range in Ei; lia].
  assert (host_inv h1) as Hi1.
  { destruct (_ && _); [by eapply prepeerToPeer_inv|]. by injection Hp as <-. }
  apply set_s_prepeers_inv; [done|]. unfold insert_new. destruct (s_prepeers h1 !! x); [apply Hi1|].
  apply map_Forall_insert_2; [done|apply Hi1].
Qed.

Lemma accepter_inv x buf n now (U : uninit F) h r h' : host_inv h -> sock_addr x -> bytes buf -> uninit_ok U ->
  accepter acceptAction x buf n now U h = Ret (r, h') -> host_inv h'.
Proof.
  intros Hi Hx Hb HU H. unfold accepter in H.
  repeat (case_match; [injection H as _ <-; exact Hi|]).
  destruct (s_prepeers h !! x) as [s|] eqn:Es; [|by eapply accepter_first_inv].
  assert (spre_ok s) as Hs by (by apply (proj1 (proj2 (proj2 Hi)) x)).
  destruct (ALTUS_HANDSHAKE_WAITTIME <? _).
  { apply bind_Ret_inv in H as (? & _ & H). eapply accepter_first_inv; [|exact Hx|exact Hb|exact HU|exact H].
    apply set_s_prepeers_inv; [done|]. apply map_Forall_delete, Hi. }
  unfold accepter_next in H. destruct (_ && _).
  { apply bind_Ret_inv in H as (h1 & Hp & [= _ <-]). by eapply prepeerToPeer_inv. }
  apply bind_Ret_inv in H as (s' & Hst & H).
  assert (spre_ok s') as Hs'.
  { destruct (page_index _) as [i|] eqn:Ei; [|by injection Hst as <-].
    eapply store_page_inv; [exact Hs| |exact Hst]. apply page_index_range in Ei. lia. }
  assert (host_inv (set_s_prepeers (<[x := s']> (s_prepeers h)) h)) as Hi1.
  { apply set_s_prepeers_inv; [done|]. apply map_Forall_insert_2; [done|apply Hi]. }
  destruct (key_complete s'); injection H as _ <-; [|exact Hi1].
  unfold sendAck. apply set_s_prepeers_inv; [by apply send_to_inv|].
  apply map_Forall_insert_2; [|apply Hi1]. destruct Hs' as (k & e & Hrest). exists k, e. exact Hrest.
Qed.

Lemma callers_pop m o q x : callers_ok m o q -> callers_ok (delete x m) o q.
Proof. intros [C1 C2 C3 C4]. split; try done. intros y b [_ Hy]%lookup_delete_Some. by apply C1. Qed.

Lemma callers_expire m o q a c : callers_ok m o q -> o !! a = Some c -> m !! caller_addr c <> Some a ->
  callers_ok m (<[a := mkCPre true (c_ip c) (c_port c) None (c_keySize c) None (c_starttime c)]> o) q.
Proof.
  intros [C1 C2 C3 C4] Ha Hm. split; [| | |done].
  - intros y b Hy. destruct (C1 _ _ Hy) as (d & Hd & Hdx & Hde). exists d. rewrite lookup_insert_ne; [done|].
    intros ->. rewrite Ha in Hd. injection Hd as <-. by rewrite Hdx in Hm.
  - intros b d [[-> <-]|[_ Hb]]%lookup_insert_Some; [done|]. by apply (C2 b).
  - intros t b Hq. destruct (C3 _ _ Hq) as (d & k & Hd & Hk).
    destruct (decide (a = b)) as [->|N]; [|exists d, k; by rewrite lookup_insert_ne].
    rewrite Ha in Hd. injection Hd as <-. eexists _, k. rewrite lookup_insert_eq. split; [reflexivity|exact Hk].
Qed.

Lemma TryCompleteConnection_inv x buf n (U : uninit F) h r h' : host_inv h -> sock_addr x ->
  TryCompleteConnection x buf n U h = Ret (r, h') -> host_inv h'.
Proof.
  intros Hi Hx H. unfold TryCompleteConnection, popCPrePeer in H.
  destruct (c_prepeers h !! x) as [a|] eqn:Ea; [|by injection H as _ <-].
  pose proof Hi as (Ht & Hc & Hr). pose proof (callers_pop _ _ _ x Hc) as Hc1.
  assert (host_inv (set_c_prepeers (delete x (c_prepeers h)) (cpre_objs h) h)) as Hi1 by done.
  repeat (case_match; [by injection H as _ <-|]). cbn [cpre_objs set_c_prepeers peers] in H.
  destruct (c_table _ _ _ Hc _ _ Ea) as (c & Hca & Hcx & _). rewrite Hca in H.
  destruct (c_sessionKey c); [|done].
  apply bind_Ret_inv in H as (b & _ & H). apply bind_Ret_inv in H as (e & _ & H).
  destruct (peers h !! x) eqn:Ep; [done|].
  apply bind_Ret_inv in H as ([p w] & Hp & H). apply bind_Ret_inv in H as ([m h1] & Hg & [= _ <-]).
  apply client_fields in Hp as (Hip & Hport & _). apply send_to_inv.
  eapply register_inv; [| | |exact Hg].
  - split; [exact Ht|]. split; [|exact Hr]. cbn. apply callers_expire; [exact Hc1|exact Hca|].
    by rewrite Hcx, lookup_delete_eq.
  - exact Ep.
  - unfold peer_addr. rewrite Hip, Hport. by apply sock_addr_of.
Qed.

Lemma Listener_turn_inv fuel ip port buf n now (U : uninit F) h h' : host_inv h ->
  0 <= ip < 2 ^ 32 -> 0 <= port < 2 ^ 16 -> bytes buf -> uninit_ok U ->
  Listener_turn WriteFile acceptAction fuel ip port buf n now U h = Ret h' -> host_inv h'.
Proof.
  intros Hi Hip Hport Hb HU H. unfold Listener_turn in H.
  assert (sock_addr (addrTo_uint64 ip port)) as Hx by (by exists ip, port).
  destruct (getPeer _ h) as [a|].
  - unfold peer_process in H. apply bind_Ret_inv in H as ([[x l] h1] & Ho & [= <-]). apply send_to_inv.
    eapply on_peer_inv; [|exact Hi|exact Ho]. intros p w y p' w' E. cbn beta in E.
    apply bind_Ret_inv in E as ([[[r l1] p1] w1] & E & [= _ <- _]). by eapply processPacket_addr.
  - destruct (findCPrePeer _ h).
    + apply bind_Ret_inv in H as ([r h1] & E & [= <-]). by eapply TryCompleteConnection_inv.
    + destruct (IsAccepting h); [|by injection H as <-].
      apply bind_Ret_inv in H as ([r h1] & E & [= <-]). by eapply accepter_inv.
Qed.

Lemma send_peers_inv l raw h h' : host_inv h -> send_peers l raw h = Ret h' -> host_inv h'.
Proof.
  revert h. induction l as [|x r IH]; intros h Hi; cbn [send_peers]; [by intros [= <-]|].
  destruct (peers h !! x); [|by apply IH]. intros H. apply bind_Ret_inv in H as ([[y l] h1] & Ho & H).
  apply IH in H; [done|]. apply send_to_inv. eapply on_peer_inv; [|exact Hi|exact Ho].
  intros q w z q' w' E. apply bind_Ret_inv in E as ([[r1 l1] q1] & E & [= _ <- _]). by eapply send_channels_addr.
Qed.
End invariant.
