(* ===== verification/HostTheorems.v ===== *)
(** * The host: main theorems

    The states a host can reach, what its threads may rely on in them, which
    packets make the handshake write outside its buffers, and that the handshake
    between two hosts completes. *)

From S2P Require Import Prelude NodePool FileRcvStream UBList NodeHeap WindowedQueue Bytes.
From S2P Require Import WQTheorems Channel Peer PeerStream Host HostInv.
From stdpp Require Import strings sorting.
#[local] Open Scope Z_scope.

(** ** Reachable states *)

Section reachable.
Context {F : Type} (WriteFile : F -> list Z -> F * Z).
Context (top : list (Z * positive) -> option (Z * positive)) `{!PriorityQueue top}.
Context (acceptAction : ALTUSHost F -> Z -> outcome (ALTUSHost F)) `{!UserAction top acceptAction}.

(** A turn of a thread or a call of the application.  The thread of the
    retries has its turn as a whole. *)
Inductive host_step : ALTUSHost F -> ALTUSHost F -> Prop :=
| step_receive fuel ip port buf n now U h h' :
    0 <= ip < 2 ^ 32 -> 0 <= port < 2 ^ 16 -> bytes buf -> uninit_ok U ->
    Listener_turn WriteFile acceptAction fuel ip port buf n now U h = Ret h' -> host_step h h'
| step_retry h h' :
    comparable (RetryQuque h) -> Connecter_turn top h = Ret h' -> host_step h h'
| step_send raw h h' : Sender_turn raw h = Ret h' -> host_step h h'
| step_call h h' : api_call top h h' -> host_step h h'.

Definition host_reach (h : ALTUSHost F) : Prop :=
  exists key m nh h0, Z.of_nat (length key) = ALTUS_RSA_KEY_SIZE /\
    ALTUSHost_new key m nh = Ret h0 /\ rtc host_step h0 h.

Lemma host_step_inv h h' : host_inv h -> host_step h h' -> host_inv h'.
Proof.
  intros Hi Hs. destruct Hs as [|? ? Hc H| |].
  - by eapply Listener_turn_inv.
  - destruct (RetryQuque h) eqn:Eq.
    + unfold Connecter_turn in H. rewrite Eq in H. destruct (top []) eqn:E.
      * by assert (top [] = None) by (by apply top_none); congruence.
      * by injection H as <-.
    + destruct (Connecter_turn_ok top h Hi) as (h1 & E & Hi1 & _); [by rewrite Eq|by rewrite Eq|].
      rewrite E in H. by injection H as <-.
  - by eapply send_peers_inv.
  - by eapply api_call_inv.
Qed.

Lemma host_reach_inv h : host_reach h -> host_inv h.
Proof.
  intros (key & m & nh & h0 & Hk & H0 & Hr). 
  assert (host_inv h0) as Hi.
  { unfold ALTUSHost_new in H0. apply bind_Ret_inv in H0 as ([pool m1] & _ & [= <-]).
    split; [apply tables_empty|]. split; [apply callers_empty|]. split; [apply map_Forall_empty|done]. }
  clear H0. induction Hr as [|x y z Hs _ IH]; [done|]. apply IH. by eapply host_step_inv.
Qed.

(** C11: In every state that a host reaches by turns of its threads and calls of
    the public interface, made by the application or by its action on an
    acceptance, the tables are sound (as long as nothing undefined happens: the
    turns and calls that return are the steps): a number finds
    a live peer, which is in the table of addresses under the address its
    packets go to; every peer of that table has exactly one number; and an
    entry of the outgoing connections finds a live pre-peer of that address
    which is not connected yet. *)
Theorem host_tables_sound h : host_reach h ->
  (forall n a, getPeerbyID n h = Some a ->
     exists p, peer_objs h !! a = Some p /\ getPeer (peer_addr p) h = Some a) /\
  (forall x a, getPeer x h = Some a ->
     exists p n, peer_objs h !! a = Some p /\ peer_addr p = x /\ getPeerbyID n h = Some a /\
       forall n', getPeerbyID n' h = Some a -> u32 n' = n) /\
  (forall x a, findCPrePeer x h = Some a ->
     exists c, cpre_objs h !! a = Some c /\ caller_addr c = x /\ Expired c = false).
Proof.
  intros Hr. destruct (host_reach_inv h Hr) as ([T1 T2 T3 T4 T5] & Hc & _). unfold getPeerbyID, getPeer, findCPrePeer. split_and!.
  - intros n a H. destruct (T3 _ _ H) as [[p Hp] _]. exists p. split; [done|]. by apply T2.
  - intros x a H. destruct (T1 _ _ H) as (p & Hp & Hx). destruct (T4 _ _ Hp) as [n Hn].
    exists p, n. destruct (T3 _ _ Hn) as [_ Hn0]. rewrite u32_small by done. split_and!; try done.
    intros n' Hn'. by apply (T5 _ _ a).
  - apply (c_table _ _ _ Hc).
Qed.

(** C13: The thread of the retries in a history in which no other thread has a
    turn between its look at the queue and its action on what it saw (that this
    is needed is shown by the race below), and in which the times in the queue
    lie within 2^31 milliseconds of a common base whenever it acts, as the
    comparison of wrapping times needs: whatever connections were completed,
    refused, removed or restarted before, its turn touches live pre-peers only,
    returns, takes one entry off the queue, and every entry that is left still
    points to a live pre-peer. *)
Theorem retry_queue_safe h : host_reach h -> comparable (RetryQuque h) -> RetryQuque h <> [] ->
  exists h', Connecter_turn top h = Ret h' /\ length (RetryQuque h) = S (length (RetryQuque h')) /\
    forall t a, (t, a) ∈ RetryQuque h' -> is_Some (cpre_objs h' !! a).
Proof.
  intros Hr Hc Hq. destruct (Connecter_turn_ok top h (host_reach_inv h Hr) Hc Hq) as (h' & E & Hi & Hl).
  exists h'. split_and!; [done..|]. intros t a H. destruct Hi as (_ & Hc' & _).
  destruct (c_queue _ _ _ Hc' _ _ H) as (c & k & Hca & _). by exists c.
Qed.
End reachable.

(** ** Being called *)

Section accepting.
Context {F : Type} (acceptAction : ALTUSHost F -> Z -> outcome (ALTUSHost F)).

(** A page whose bytes do not fit into the 700 bytes of the key. *)
Definition page_overflows (i size : Z) : bool :=
  ALTUS_RSA_KEY_SIZE <? page_size * i + (size - ALTUS_HANDSHAKE_HEADER_SIZE).

(** A handshake packet by its first nine bytes. *)
Definition handshake_header (buf : list Z) : bool :=
  strncmp_eq 6 (bytes_of "ALTUS/" ++ [0]) buf && strncmp_eq 3 (bytes_of "1.0" ++ [0]) (drop 6 buf).

(** A first packet that leaves the memory of the host: an unknown page, after
    which too many bytes are wiped; a page that does not fit; or a key of one
    page, which is looked for before it was stored. *)
Definition first_bad (buf : list Z) (size : Z) : bool :=
  let keysize := ntoh buf 10 2 in
  (128 <=? keysize) &&
  match page_index (packet_byte buf 9) with
  | None => ALTUS_RSA_KEY_SIZE <? keysize
  | Some i => page_overflows i size || ((i =? 0) && (keysize =? size - 12))
  end.

(** The pre-peer of an address that has not timed out. *)
Definition live_prepeer (x now : Z) (h : ALTUSHost F) : option ALTUS_SPrePeer :=
  s ← s_prepeers h !! x;
  if ALTUS_HANDSHAKE_WAITTIME <? u32 (now - s_starttime s) then None else Some s.

(** The packet that makes a pre-peer a peer. *)
Definition promotes (buf : list Z) (s : option ALTUS_SPrePeer) : bool :=
  match s with Some s => (packet_byte buf 9 =? 90) && IsAckSent s | None => false end.

Definition accepter_bad (x : Z) (buf : list Z) (size now : Z) (h : ALTUSHost F) : bool :=
  match live_prepeer x now h with
  | Some s => match page_index (packet_byte buf 9) with Some i => page_overflows i size | None => false end
  | None =>
      match s_prepeers h !! x with Some s => ALTUS_RSA_KEY_SIZE <? s_keySize s | None => false end
      || first_bad buf size
  end.

(** [memcpy] of [n] bytes from [from] on into page [i], and its flag. *)
Definition with_page (i : Z) (buf : list Z) (from n : Z) (s : ALTUS_SPrePeer) : ALTUS_SPrePeer :=
  let bytes := take (Z.to_nat n) (drop (Z.to_nat from) buf) in
  set_pages (blit (Z.to_nat (page_size * i)) bytes <$> s_publicKey s)
    (pageA s || (i =? 0)) (pageB s || (i =? 1)) (pageC s || (i =? 2)) (pageD s || (i =? 3)) s.

(** The pre-peer after the first packet of a caller, and after a further one. *)
Definition first_prepeer (buf : list Z) (size now : Z) (U : uninit F) : ALTUS_SPrePeer :=
  with_page (default 0 (page_index (packet_byte buf 9))) buf 12 (size - 12)
    (mkSPre (Some (u_key U)) (ntoh buf 10 2) (Some (u_session U)) now false false false false false).

Definition next_prepeer (buf : list Z) (size : Z) (s : ALTUS_SPrePeer) : ALTUS_SPrePeer :=
  match page_index (packet_byte buf 9) with
  | Some i => with_page i buf 0 (size - 12) s
  | None => s
  end.

(** A first packet that is turned down: a key of less than 128 bytes, or an
    unknown page. *)
Definition first_refused (buf : list Z) : bool :=
  (ntoh buf 10 2 <? 128) || bool_decide (page_index (packet_byte buf 9) = None).

Lemma store_page_outcome i buf from n s : spre_ok s -> 0 <= i -> 0 <= from -> 0 <= n ->
  from + n <= Z.of_nat (length buf) ->
  store_page i buf from n s =
    if ALTUS_RSA_KEY_SIZE <? page_size * i + n then Fault else Ret (with_page i buf from n s).
Proof.
  intros (k & e & Hk & Hl & _) Hi Hf Hn Hb. unfold store_page, with_page.
  rewrite Hk, mem_read_ok, bind_ret by lia.
  assert (length (take (Z.to_nat n) (drop (Z.to_nat from) buf)) = Z.to_nat n) as Ht
    by (rewrite length_take, length_drop; lia).
  assert (0 <= page_size * i) by (change page_size with 484; lia).
  destruct (Z.ltb_spec ALTUS_RSA_KEY_SIZE (page_size * i + n)).
  - rewrite mem_write_fault; [done|]. rewrite Ht. lia.
  - rewrite mem_write_ok by (rewrite ?Ht; lia). done.
Qed.

(** [strncmp] with a literal of [n] bytes compares the first [n] bytes. *)
Lemma strncmp_literal lit : forall buf rest, forallb (fun x => negb (x =? 0)) lit = true ->
  strncmp_eq (length lit) (lit ++ rest) buf =
    bool_decide (map (fun i => nth i buf 0) (seq 0 (length lit)) = lit).
Proof.
  induction lit as [|x lit IH]; intros buf rest Hz; [done|].
  cbn [forallb] in Hz. apply andb_true_iff in Hz as [Hx Hz].
  cbn [length strncmp_eq app nth seq map tl].
  rewrite <- seq_shift, map_map.
  assert (Ent : forall i, nth (S i) buf 0 = nth i (tl buf) 0) by (intros; destruct buf; [by destruct i|done]).
  rewrite (map_ext _ _ Ent). destruct (Z.eqb_spec x (nth 0 buf 0)) as [<-|Hne]; cbn [negb].
  - apply negb_true_iff in Hx. rewrite Hx, IH by done. apply bool_decide_ext. split; [congruence|by intros [= ->]].
  - rewrite bool_decide_false; [done|]. intros [= E _]. congruence.
Qed.

Lemma first_bytes n buf : (n <= length buf)%nat -> map (fun i => nth i buf 0) (seq 0 n) = take n buf.
Proof.
  intros Hn. apply list_eq. intros i. rewrite list_lookup_fmap. destruct (decide (i < n)%nat).
  - rewrite lookup_seq_lt, lookup_take_lt by done. cbn. destruct (lookup_lt_is_Some_2 buf i) as [x Hx]; [lia|].
    rewrite Hx. f_equal. by apply nth_lookup_Some.
  - rewrite lookup_seq_ge, lookup_take_ge by lia. done.
Qed.

Lemma starts_with n lit rest buf : length lit = n -> (n <= length buf)%nat ->
  forallb (fun x => negb (x =? 0)) lit = true ->
  strncmp_eq n (lit ++ rest) buf = bool_decide (take n buf = lit).
Proof. intros <- Hl Hz. by rewrite strncmp_literal, first_bytes. Qed.

Lemma spre_delete_outcome s : (exists k e, s_publicKey s = Some k /\ Z.of_nat (length k) = ALTUS_RSA_KEY_SIZE /\
    s_sessionKey s = Some e /\ Z.of_nat (length e) = ALTUS_SESSION_KEY_SIZE /\ 0 <= s_keySize s) ->
  ALTUS_SPrePeer_delete s = if ALTUS_RSA_KEY_SIZE <? s_keySize s then Fault else Ret tt.
Proof.
  intros (k & e & Hk & Hl & He & Hle & Hs). unfold ALTUS_SPrePeer_delete. rewrite Hk, He.
  destruct (Z.ltb_spec ALTUS_RSA_KEY_SIZE (s_keySize s)).
  - by rewrite (wipe_fault k) by lia.
  - rewrite (wipe_ok k), bind_ret by lia. apply wipe_ok. unfold ALTUS_SESSION_KEY_SIZE in *. lia.
Qed.

Lemma accepter_first_outcome x buf size now (U : uninit F) h : s_prepeers h !! x = None -> uninit_ok U ->
  bytes buf -> Z.of_nat (length buf) = ALTUS_PACKET_SIZE -> 12 <= size <= ALTUS_PACKET_SIZE ->
  accepter_first acceptAction x buf size now U h =
    if first_bad buf size then Fault
    else if first_refused buf then Ret (-3, h)
    else Ret (1, set_s_prepeers (<[x := first_prepeer buf size now U]> (s_prepeers h)) h).
Proof.
  intros Hx [HU1 HU2] Hb Hl Hs. unfold first_bad, first_refused, first_prepeer, accepter_first.
  pose proof (ntoh_range buf 10 2 Hb) as Hk. change (256 ^ Z.of_nat 2) with (2 ^ 16) in Hk.
  destruct (Z.ltb_spec (ntoh buf 10 2) 128) as [|Hge]; destruct (Z.leb_spec 128 (ntoh buf 10 2)); try lia;
    cbn [andb orb].
  { rewrite spre_delete_outcome by (exists (u_key U), (u_session U); split_and!; (done || cbn; lia)). done. }
  cbn [s_publicKey s_sessionKey ALTUS_SPrePeer_new]. set (s := mkSPre _ _ _ _ _ _ _ _ _).
  destruct (page_index (packet_byte buf 9)) as [i|] eqn:Ei.
  2: { rewrite spre_delete_outcome by (exists (u_key U), (u_session U); split_and!; (done || cbn; lia)).
       cbn [s_keySize s]. by destruct (ALTUS_RSA_KEY_SIZE <? ntoh buf 10 2). }
  pose proof (page_index_range _ _ Ei). rewrite (bool_decide_false (Some i = None)) by done.
  assert (spre_ok s) as Hok by (exists (u_key U), (u_session U); split_and!; (done || cbn; lia)).
  unfold page_overflows. unfold ALTUS_HANDSHAKE_HEADER_SIZE.
  rewrite (store_page_outcome i buf 12 (size - 12) s Hok) by lia.
  destruct (ALTUS_RSA_KEY_SIZE <? page_size * i + (size - 12)); cbn [orb]; [done|].
  rewrite bind_ret. destruct ((i =? 0) && _).
  - unfold prepeerToPeer. by rewrite Hx.
  - rewrite bind_ret. unfold insert_new. by rewrite Hx.
Qed.

(** C12: The outcome of every handshake packet of up to 496 bytes that reaches
    [accepter], in every state that keeps the invariant, with the exact result
    and state.  A packet of less than 12 bytes or that does not begin with
    ALTUS/ is refused with -2, one of another version than 1.0 with -1, and
    nothing changes.  From a caller with a pre-peer not older than five seconds,
    a packet Z after the acknowledgement goes to [prepeerToPeer]; a page that
    does not fit the 700 bytes of the key is written outside of it; any other
    returns 0, with the page stored, and when the key is complete by the code's
    test the acknowledgement is sent and noted.  From any other caller the old
    pre-peer, if any, is deleted, which is undefined when its key size is above
    700; then undefined are a page that does not fit, a key of one page, and an
    unknown page with a key size above 700; a key of less than 128 bytes or an
    unknown page is refused with -3; and any other packet returns 1 and leaves a
    new pre-peer with its page. *)
Theorem accepter_outcome x buf size now (U : uninit F) h : host_inv h -> uninit_ok U -> bytes buf ->
  Z.of_nat (length buf) = ALTUS_PACKET_SIZE -> 0 <= size <= ALTUS_PACKET_SIZE ->
  accepter acceptAction x buf size now U h =
    if (size <? 12) || bool_decide (take 6 buf <> bytes_of "ALTUS/") then Ret (-2, h)
    else if bool_decide (take 3 (drop 6 buf) <> bytes_of "1.0") then Ret (-1, h)
    else match live_prepeer x now h with
    | Some s =>
        if (packet_byte buf 9 =? 90) && IsAckSent s then
          h' ← prepeerToPeer acceptAction x U h; Ret (0, h')
        else if match page_index (packet_byte buf 9) with Some i => page_overflows i size | None => false end
        then Fault
        else
          let s' := next_prepeer buf size s in
          Ret (0, if key_complete s'
                  then set_s_prepeers (<[x := set_AckSent s']> (s_prepeers h)) (send_to (addr_of x) [ack_packet] h)
                  else set_s_prepeers (<[x := s']> (s_prepeers h)) h)
    | None =>
        if match s_prepeers h !! x with Some s => ALTUS_RSA_KEY_SIZE <? s_keySize s | None => false end
           || first_bad buf size
        then Fault
        else if first_refused buf then Ret (-3, set_s_prepeers (delete x (s_prepeers h)) h)
        else Ret (1, set_s_prepeers (<[x := first_prepeer buf size now U]> (s_prepeers h)) h)
    end.
Proof.
  intros Hi HU Hb Hl Hs. assert (length buf = 496)%nat as Hl' by (unfold ALTUS_PACKET_SIZE in *; lia).
  unfold accepter. rewrite !starts_with by (try rewrite length_drop; (done || lia)).
  rewrite !bool_decide_not.
  destruct (Z.ltb_spec size 12) as [|Hge]; [done|]. cbn [orb].
  destruct (bool_decide (take 6 buf = _)); [|done]. cbn [negb].
  destruct (bool_decide (take 3 (drop 6 buf) = _)); [|done]. cbn [negb].
  unfold live_prepeer. destruct (s_prepeers h !! x) as [s|] eqn:Es.
  - change (Some s ≫= ?f) with (f s). cbv beta.
    assert (spre_ok s) as Hok by (by apply (proj1 (proj2 (proj2 Hi)) x)).
    destruct (ALTUS_HANDSHAKE_WAITTIME <? u32 (now - s_starttime s)).
    + rewrite spre_delete_outcome.
      2: { destruct Hok as (k & e & Hk & Hlk & He & Hle & Hsz). exists k, e. split_and!; (done || lia). }
      destruct (ALTUS_RSA_KEY_SIZE <? s_keySize s); [done|]. rewrite bind_ret. cbn [orb].
      rewrite accepter_first_outcome by (first [lia | done | apply lookup_delete_eq]).
      destruct (first_bad buf size), (first_refused buf); try done. cbn. by rewrite insert_delete_eq.
    + unfold accepter_next, next_prepeer. destruct ((packet_byte buf 9 =? 90) && IsAckSent s); [done|].
      assert (forall s', sendAck x s' (set_s_prepeers (<[x := s']> (s_prepeers h)) h) =
        set_s_prepeers (<[x := set_AckSent s']> (s_prepeers h)) (send_to (addr_of x) [ack_packet] h)) as Esend.
      { intros s'. unfold sendAck, send_to, set_s_prepeers. cbn -[ack_packet addr_of]. by rewrite insert_insert_eq. }
      destruct (page_index (packet_byte buf 9)) as [i|] eqn:Ei.
      2: { rewrite bind_ret, Esend. by destruct (key_complete s). }
      pose proof (page_index_range _ _ Ei). unfold page_overflows, ALTUS_HANDSHAKE_HEADER_SIZE.
      rewrite (store_page_outcome i buf 0 (size - 12) s Hok) by lia.
      destruct (ALTUS_RSA_KEY_SIZE <? page_size * i + (size - 12)); [done|].
      rewrite bind_ret, Esend. by destruct (key_complete _).
  - change (None ≫= ?f) with (@None ALTUS_SPrePeer). cbn [orb].
    rewrite accepter_first_outcome by (done || lia).
    destruct (first_bad buf size); [done|]. destruct (first_refused buf); [|done].
    rewrite delete_id by done. by destruct h.
Qed.
End accepting.

(** ** New numbers *)

(** The numbers tried so far, from [s] on. *)
Definition peids_from (s : Z) (j : nat) : list Z := map (fun i => u32 (s + Z.of_nat i)) (seq 0 j).

Lemma peids_from_NoDup s j : Z.of_nat j <= 2 ^ 32 -> NoDup (peids_from s j).
Proof.
  intros Hj. apply NoDup_alt. intros i1 i2 x H1 H2. unfold peids_from in *.
  apply list_lookup_fmap_Some in H1 as (a & -> & Ha), H2 as (b & E & Hb).
  apply lookup_seq in Ha as [-> ?], Hb as [-> ?]. cbn [Nat.add] in *.
  apply u32_inj in E; lia.
Qed.

Lemma find_peid_total fuel (m : gmap Z positive) s : forall j,
  Z.of_nat (size m) < 2 ^ 32 -> (forall x, x ∈ peids_from s j -> x ∈ dom m) -> (size m <= fuel + j)%nat ->
  (j <= size m)%nat -> exists r, find_peid fuel m (u32 (s + Z.of_nat j)) = Ret r.
Proof.
  induction fuel as [|k IH]; intros j Hsz Ht Hf Hj; cbn [find_peid];
    (destruct (m !! u32 (s + Z.of_nat j)) as [c|] eqn:E; [|by eexists]);
    assert (Ht' : forall x, x ∈ peids_from s (S j) -> x ∈ dom m) by
      (intros x; unfold peids_from; rewrite seq_S, map_app; intros [Hx| ->%list_elem_of_singleton]%elem_of_app;
       [by apply Ht|by apply elem_of_dom_2 in E]);
    assert (Hb : (S j <= size m)%nat) by
      (rewrite <- size_dom; transitivity (length (peids_from s (S j)));
       [by unfold peids_from; rewrite length_map, length_seq|];
       rewrite <- (size_list_to_set (C := gset Z) (peids_from s (S j))) by (apply peids_from_NoDup; lia);
       apply subseteq_size; intros x Hx%elem_of_list_to_set; by apply Ht'); [lia|].
  rewrite u32_add_l. replace (s + Z.of_nat j + 1) with (s + Z.of_nat (S j)) by lia. apply IH; (done || lia).
Qed.

Section handshake.
Context {F : Type} (WriteFile : F -> list Z -> F * Z).

Lemma register_total x (p : ALTUSPeer F) h :
  host_inv h -> peers h !! x = None -> peer_addr p = x -> Z.of_nat (size (peid_peer h)) < 2 ^ 32 ->
  exists n h' a, register x p h = Ret (n, h') /\ host_inv h' /\ getPeer x h' = Some a /\
    getPeerbyID n h' = Some a /\ peer_objs h' !! a = Some p /\
    h' = set_peers (peers h') (peer_objs h') (peid_peer h') (lastpeid h') h.
Proof.
  intros Hi Hx Hp Hs.
  destruct (find_peid_total (size (peid_peer h)) (peid_peer h) (lastpeid h + 1) 0) as [n Hn]; [done|by intros y Hy%elem_of_nil|lia|lia|].
  rewrite Z.add_0_r in Hn.
  assert (exists h', register x p h = Ret (n, h')) as [h' Hr] by (unfold register; rewrite Hn, bind_ret; by eexists).
  destruct (register_inv x p h n h' Hi Hx Hp Hr) as (Hi' & Ep & Eo & _ & Ei & E').
  exists n, h', (new_addr (peer_objs h)). split_and!; try done.
  - unfold getPeer. by rewrite Ep, lookup_insert_eq.
  - unfold getPeerbyID. apply find_peid_Ret in Hn as [_ Hr']; [|apply u32_range].
    by rewrite u32_small, Ei, lookup_insert_eq.
  - by rewrite Eo, lookup_insert_eq.
  - rewrite E'. done.
Qed.

(** The constructors of peers succeed, whatever the keys are. *)
Lemma server_keys ip port key session ks key' session' ks' acked raw rc cap op (f : F) w p w' :
  ALTUSPeer_server ip port key session ks acked raw rc cap op f w = Ret (p, w') ->
  ALTUSPeer_server ip port key' session' ks' acked raw rc cap op f w
  = Ret (mkPeer (ch p) (lastcuid p) ip port key' ks' session', w').
Proof.
  unfold ALTUSPeer_server. intros H.
  repeat (apply bind_Ret_inv in H as ([? ?] & E & H); rewrite E, bind_ret; clear E). by injection H as <- <-.
Qed.

Lemma client_keys x key session ks key' session' ks' acked raw rc cap op (f : F) w p w' :
  ALTUSPeer_client x key session ks acked raw rc cap op f w = Ret (p, w') ->
  ALTUSPeer_client x key' session' ks' acked raw rc cap op f w
  = Ret (mkPeer (ch p) (lastcuid p) (addr_ip x) (addr_port x) key' ks' session', w').
Proof.
  unfold ALTUSPeer_client. intros H.
  repeat (apply bind_Ret_inv in H as ([? ?] & E & H); rewrite E, bind_ret; clear E). by injection H as <- <-.
Qed.

(** The two packets of a caller with the key [key]. *)
Definition pageA_packet (key : list Z) : list Z := bytes_of "ALTUS/1.0A" ++ [2; 188] ++ take 472 key.
Definition pageB_packet (key : list Z) : list Z := bytes_of "ALTUS/1.0B" ++ [2; 188] ++ take 204 key.

(** What the called side keeps as the key of the caller: from the second page
    on, the header of the packet is taken for key bytes. *)
Definition stored_key (key raw : list Z) : list Z :=
  blit 484 (take 204 (pageB_packet key)) (blit 0 (take 472 key) raw).

Definition prepeer_1 (key : list Z) (U : uninit F) (now : Z) : ALTUS_SPrePeer :=
  mkSPre (Some (blit 0 (take 472 key) (u_key U))) 700 (Some (u_session U)) now true false false false false.
Definition prepeer_2 (key : list Z) (U : uninit F) (now : Z) : ALTUS_SPrePeer :=
  mkSPre (Some (stored_key key (u_key U))) 700 (Some (u_session U)) now true true false false true.

Lemma hello_length key : Z.of_nat (length key) = ALTUS_RSA_KEY_SIZE ->
  length (pageA_packet key) = 484%nat /\ length (pageB_packet key) = 216%nat.
Proof.
  intros Hk. unfold pageA_packet, pageB_packet, ALTUS_RSA_KEY_SIZE in *.
  rewrite !length_app, !length_take. cbn [length bytes_of map String.list_ascii_of_string]. lia.
Qed.

Context (act : ALTUSHost F -> Z -> outcome (ALTUSHost F)).

Lemma accept_page_A x key stale now (U : uninit F) h : s_prepeers h !! x = None -> uninit_ok U ->
  Z.of_nat (length key) = ALTUS_RSA_KEY_SIZE ->
  accepter act x (pageA_packet key ++ stale) 484 now U h
  = Ret (1, set_s_prepeers (<[x := prepeer_1 key U now]> (s_prepeers h)) h).
Proof.
  intros Hx [HU _] Hk. destruct (hello_length key Hk) as [Hl _]. unfold ALTUS_RSA_KEY_SIZE in *.
  unfold accepter. change (484 <? 12) with false. cbv iota.
  change (strncmp_eq 6 _ _) with true. change (strncmp_eq 3 _ _) with true. cbn [negb]. rewrite Hx.
  unfold accepter_first. change (ntoh _ 10 2) with 700. change (page_index _) with (Some 0).
  change (700 <? 128) with false. cbv iota. unfold store_page. cbn [s_publicKey ALTUS_SPrePeer_new].
  change (484 - 12) with 472. rewrite mem_read_ok by (rewrite ?length_app; change ALTUS_HANDSHAKE_HEADER_SIZE with 12; lia).
  rewrite bind_ret. change (Z.to_nat ALTUS_HANDSHAKE_HEADER_SIZE) with 12%nat. change (Z.to_nat 472) with 472%nat.
  assert (take 472 (drop 12 (pageA_packet key ++ stale)) = take 472 key) as ->.
  { change (drop 12 (pageA_packet key ++ stale)) with (take 472 key ++ stale).
    rewrite take_app_le by (rewrite length_take; lia). by rewrite take_take. }
  rewrite mem_write_ok by (rewrite ?length_take; change page_size with 484; lia). rewrite !bind_ret.
  change ((0 =? 0) && (700 =? 472)) with false. cbv iota. rewrite bind_ret.
  unfold insert_new. rewrite Hx. reflexivity.
Qed.

Lemma accept_page_B x key stale now t (U0 U : uninit F) h : s_prepeers h !! x = Some (prepeer_1 key U0 t) ->
  uninit_ok U0 -> Z.of_nat (length key) = ALTUS_RSA_KEY_SIZE -> u32 (now - t) <= ALTUS_HANDSHAKE_WAITTIME ->
  accepter act x (pageB_packet key ++ stale) 216 now U h
  = Ret (0, set_s_prepeers (<[x := prepeer_2 key U0 t]> (s_prepeers h)) (send_to (addr_of x) [ack_packet] h)).
Proof.
  intros Hx [HU _] Hk Ht. destruct (hello_length key Hk) as [_ Hl]. unfold ALTUS_RSA_KEY_SIZE in *.
  unfold accepter. change (216 <? 12) with false. cbv iota.
  change (strncmp_eq 6 _ _) with true. change (strncmp_eq 3 _ _) with true. cbn [negb]. rewrite Hx.
  cbn [s_starttime prepeer_1]. destruct (Z.ltb_spec ALTUS_HANDSHAKE_WAITTIME (u32 (now - t))); [lia|].
  unfold accepter_next. change (packet_byte _ 9) with 66. change (66 =? 90) with false. cbn [andb].
  change (page_index 66) with (Some 1). unfold store_page. cbn [s_publicKey prepeer_1].
  change (216 - ALTUS_HANDSHAKE_HEADER_SIZE) with 204.
  rewrite mem_read_ok by (rewrite ?length_app; lia). rewrite bind_ret. change (Z.to_nat 0) with 0%nat.
  change (Z.to_nat 204) with 204%nat. rewrite drop_0, take_app_le by lia.
  assert (length (blit 0 (take 472 key) (u_key U0)) = 700%nat) as Hb.
  { rewrite length_blit by (rewrite length_take; lia). lia. }
  rewrite mem_write_ok by (rewrite ?length_take, ?Hb; change page_size with 484; lia). rewrite !bind_ret.
  change (Z.to_nat (page_size * 1)) with 484%nat.
  change (key_complete _) with true. cbv iota. unfold sendAck, set_s_prepeers, send_to. cbn -[bytes_of].
  by rewrite insert_insert_eq.
Qed.

Lemma prepeer_1_ok key (U : uninit F) t : Z.of_nat (length key) = ALTUS_RSA_KEY_SIZE -> uninit_ok U ->
  spre_ok (prepeer_1 key U t).
Proof.
  intros Hk [HU1 HU2]. unfold ALTUS_RSA_KEY_SIZE in *. eexists _, (u_session U). split; [reflexivity|].
  rewrite length_blit by (rewrite length_take; lia). split_and!; (done || cbn; lia).
Qed.

Lemma prepeer_2_ok key (U : uninit F) t : Z.of_nat (length key) = ALTUS_RSA_KEY_SIZE -> uninit_ok U ->
  spre_ok (prepeer_2 key U t).
Proof.
  intros Hk [HU1 HU2]. destruct (hello_length key Hk) as [_ Hl]. unfold ALTUS_RSA_KEY_SIZE in *.
  eexists _, (u_session U). split; [reflexivity|]. unfold stored_key.
  rewrite !length_blit by (rewrite ?length_blit, ?length_take by (rewrite ?length_take; lia); lia).
  split_and!; (done || cbn; lia).
Qed.

(** The peer that a side has in the end: address, key and session key. *)
Definition peer_is (x : Z) (key : list Z) (ks : Z) (session : list Z) (n : Z) (h : ALTUSHost F) : Prop :=
  exists a p, getPeer x h = Some a /\ getPeerbyID n h = Some a /\ peer_objs h !! a = Some p /\
    peer_addr p = x /\ publicKey p = key /\ keySize p = ks /\ sessionKey p = session.

Lemma accept_done x stale now t key (U0 U : uninit F) h p w : host_inv h -> sock_addr x ->
  s_prepeers h !! x = Some (prepeer_2 key U0 t) -> peers h !! x = None ->
  u32 (now - t) <= ALTUS_HANDSHAKE_WAITTIME -> Z.of_nat (size (peid_peer h)) < 2 ^ 32 ->
  ALTUSPeer_server (addr_ip x) (addr_port x) [] [] 0 (u_acked U) (u_raw U) (u_channel U) (u_capacity U)
    (u_opened U) (u_file U) (shared h) = Ret (p, w) ->
  exists n h', accepter act x (done_packet ++ stale) 12 now U h = (h' ← act h' n; Ret (0, h')) /\
    peer_is x (stored_key key (u_key U0)) 700 (u_session U0) n h' /\ s_prepeers h' !! x = None /\ sent h' = sent h.
Proof.
  intros Hi Hx Hs Hp Ht Hn Hmk. unfold accepter. change (12 <? 12) with false. cbv iota.
  change (strncmp_eq 6 _ _) with true. change (strncmp_eq 3 _ _) with true. cbn [negb]. rewrite Hs.
  change (s_starttime (prepeer_2 key U0 t)) with t. destruct (Z.ltb_spec ALTUS_HANDSHAKE_WAITTIME (u32 (now - t))); [lia|].
  unfold accepter_next. change ((packet_byte _ 9 =? 90) && _) with true. cbv iota.
  unfold prepeerToPeer. rewrite Hs, Hp.
  rewrite (server_keys _ _ _ _ _ (stored_key key (u_key U0)) (u_session U0) 700 _ _ _ _ _ _ _ _ _ Hmk
    : ALTUSPeer_server _ _ (default [] (s_publicKey (prepeer_2 key U0 t)))
        (default [] (s_sessionKey (prepeer_2 key U0 t))) (s_keySize (prepeer_2 key U0 t)) _ _ _ _ _ _ _ = _).
  rewrite bind_ret. set (p' := mkPeer _ _ _ _ _ _ _).
  destruct (register_total x p' (set_shared w h) Hi Hp (sock_addr_of x Hx) Hn)
    as (n & h' & a & -> & _ & Hg & Hid & Ho & E).
  rewrite bind_ret. exists n, (set_s_prepeers (delete x (s_prepeers h')) h'). split; [done|]. split_and!.
  - exists a, p'. split_and!; try done. by apply sock_addr_of.
  - apply lookup_delete_eq.
  - rewrite E. done.
Qed.

Lemma call_begins ip port serverkey now (U : uninit F) h :
  host_inv h -> uninit_ok U -> findCPrePeer (addrTo_uint64 ip port) h = None ->
  0 <= ip < 2 ^ 32 -> 0 <= port < 2 ^ 16 ->
  let x := addrTo_uint64 ip port in
  let a := new_addr (cpre_objs h) in
  exists h', connect ip port serverkey (Z.of_nat (length serverkey)) now U h = Ret (0, h') /\
    findCPrePeer x h' = Some a /\
    cpre_objs h' !! a = Some (mkCPre false ip port (Some serverkey) (u16 (Z.of_nat (length serverkey))) (Some (u_session U)) now) /\
    sent h' = sent h ++ map (pair x) [pageA_packet (myPublicKey h); pageB_packet (myPublicKey h)] /\
    peers h' = peers h /\ peer_objs h' = peer_objs h /\ peid_peer h' = peid_peer h /\ shared h' = shared h /\
    lastpeid h' = lastpeid h.
Proof.
  intros Hi HU Hx Hip Hport x a. unfold findCPrePeer in Hx. unfold connect, connect_begin. fold x. fold x in Hx.
  rewrite Hx. unfold ALTUS_CPrePeer_new. destruct (Z.ltb_spec (Z.of_nat (length serverkey)) 0); [lia|].
  rewrite mem_read_ok, !bind_ret by lia. rewrite Nat2Z.id, drop_0, take_ge by lia.
  set (h0 := set_c_prepeers _ _ h). pose proof Hi as (_ & _ & _ & Ek & El).
  unfold SendHandShake1, findCPrePeer. cbn [c_prepeers h0 set_c_prepeers]. rewrite lookup_insert_eq.
  change (myPublicKeySize h0) with (myPublicKeySize h). change (myPublicKey h0) with (myPublicKey h).
  rewrite Ek, key_pages_700, !bind_ret by done.
  unfold connect_push, h0. cbn [cpre_objs send_to set_c_prepeers]. rewrite lookup_insert_eq, bind_ret.
  eexists. split; [reflexivity|]. cbn -[bytes_of addr_of]. unfold x in *. rewrite addr_of_addr by done.
  rewrite !lookup_insert_eq. split_and!; done.
Qed.

Lemma call_completes x a c stale (U : uninit F) h p w session : host_inv h -> sock_addr x ->
  findCPrePeer x h = Some a -> peers h !! x = None -> cpre_objs h !! a = Some c -> c_sessionKey c = Some session ->
  length session = 32%nat -> Z.of_nat (size (peid_peer h)) < 2 ^ 32 ->
  ALTUSPeer_client x [] [] 0 (u_acked U) (u_raw U) (u_channel U) (u_capacity U)
    (u_opened U) (u_file U) (shared h) = Ret (p, w) ->
  exists n h', TryCompleteConnection x (ack_packet ++ stale) 44 U h = Ret (0, h') /\
    peer_is x (default [] (c_publicKey c)) (c_keySize c) (replicate 32 0) n h' /\
    findCPrePeer x h' = None /\ sent h' = sent h ++ [(x, done_packet)].
Proof.
  intros Hi Hx Ha Hp Hc Hse Hl Hn Hmk. unfold findCPrePeer in Ha. unfold TryCompleteConnection, popCPrePeer. rewrite Ha.
  change (negb (44 =? _)) with false. cbv iota. change (strncmp_eq 12 _ _) with true. cbn [negb].
  cbn [cpre_objs set_c_prepeers peers c_prepeers]. rewrite Hc, Hse.
  rewrite mem_read_ok by (try (rewrite length_app; change (length ack_packet) with 44%nat); 
    unfold ALTUS_HANDSHAKE_HEADER_SIZE, ALTUS_SESSION_KEY_SIZE; lia).
  rewrite bind_ret. change (take _ (drop _ (ack_packet ++ stale))) with (replicate 32 0).
  rewrite mem_write_ok by (rewrite ?length_replicate; lia). rewrite bind_ret. change (Z.to_nat 0) with 0%nat.
  assert (blit 0 (replicate 32 0) session = replicate 32 0) as ->.
  { unfold blit. rewrite take_0, length_replicate. change (0 + 32)%nat with 32%nat. rewrite drop_ge by lia. apply app_nil_r. }
  rewrite Hp. cbn [shared set_c_prepeers]. rewrite (client_keys _ _ _ _ (default [] (c_publicKey c)) (replicate 32 0) (c_keySize c) _ _ _ _ _ _ _ _ _ Hmk).
  rewrite bind_ret. set (p' := mkPeer _ _ _ _ _ _ _).
  set (h1 := set_c_prepeers _ _ (set_shared w _)).
  assert (host_inv h1) as Hi1.
  { destruct Hi as (Ht & Hcal & Hr). split; [exact Ht|]. split; [|exact Hr]. cbn.
    destruct (c_table _ _ _ Hcal _ _ Ha) as (c' & Hc' & Hcx & _). rewrite Hc in Hc'. injection Hc' as <-.
    apply callers_expire; [by apply callers_pop|done|]. by rewrite Hcx, lookup_delete_eq. }
  destruct (register_total x p' h1 Hi1 Hp (sock_addr_of x Hx) Hn) as (n & h' & b & -> & _ & Hg & Hid & Ho & E).
  rewrite bind_ret. exists n, (send_to (addr_of x) [done_packet] h'). split; [done|].
  unfold addr_of. rewrite sock_addr_of by done. split_and!.
  - exists b, p'. split_and!; try done. by apply sock_addr_of.
  - unfold findCPrePeer. rewrite E. cbn. apply lookup_delete_eq.
  - rewrite E. done.
Qed.

(** A host that takes calls, and one that can make one; the last part of both
    says that the channels of the new peer can be made. *)
Definition can_accept (x : Z) (U : uninit F) (h : ALTUSHost F) : Prop :=
  host_inv h /\ IsAccepting h = true /\ getPeer x h = None /\ findCPrePeer x h = None /\
  s_prepeers h !! x = None /\ Z.of_nat (size (peid_peer h)) < 2 ^ 32 /\
  exists p w, ALTUSPeer_server (addr_ip x) (addr_port x) [] [] 0 (u_acked U) (u_raw U) (u_channel U)
                (u_capacity U) (u_opened U) (u_file U) (shared h) = Ret (p, w).

Definition can_call (x : Z) (U : uninit F) (h : ALTUSHost F) : Prop :=
  host_inv h /\ getPeer x h = None /\ findCPrePeer x h = None /\ Z.of_nat (size (peid_peer h)) < 2 ^ 32 /\
  exists p w, ALTUSPeer_client x [] [] 0 (u_acked U) (u_raw U) (u_channel U)
                (u_capacity U) (u_opened U) (u_file U) (shared h) = Ret (p, w).

(** C10: A call between two hosts comes to an end: if the caller has no
    connection to the called address and the called host takes calls and knows
    nothing of the caller, then, with the packets delivered in order and within
    five seconds, [connect] sends two pages, the called host answers the second
    with its acknowledgement, on which the caller makes the called host a peer
    and reports back, and the called host makes the caller a peer; the caller
    then has the server key it was given and a session key of zeros, the called
    host the 700 bytes of [stored_key] and an uninitialised session key. *)
Theorem handshake_completes fuel ipS portS ipC portC serverkey t0 t1 t2 t3 t4
    (U0 U1 U2 U3 U4 : uninit F) st1 st2 st3 st4 (C S : ALTUSHost F) :
  0 <= ipS < 2 ^ 32 -> 0 <= portS < 2 ^ 16 -> 0 <= ipC < 2 ^ 32 -> 0 <= portC < 2 ^ 16 ->
  uninit_ok U0 -> uninit_ok U1 ->
  u32 (t2 - t1) <= ALTUS_HANDSHAKE_WAITTIME -> u32 (t4 - t1) <= ALTUS_HANDSHAKE_WAITTIME ->
  let xS := addrTo_uint64 ipS portS in
  let xC := addrTo_uint64 ipC portC in
  let key := myPublicKey C in
  can_call xS U3 C -> can_accept xC U4 S ->
  let recv ip port buf n t U h := Listener_turn WriteFile act fuel ip port buf n t U h in
  exists C1 S1 S2 C2 S3 nC nS,
    connect ipS portS serverkey (Z.of_nat (length serverkey)) t0 U0 C = Ret (0, C1) /\
    sent C1 = sent C ++ [(xS, pageA_packet key); (xS, pageB_packet key)] /\
    recv ipC portC (pageA_packet key ++ st1) 484 t1 U1 S = Ret S1 /\ sent S1 = sent S /\
    recv ipC portC (pageB_packet key ++ st2) 216 t2 U2 S1 = Ret S2 /\ sent S2 = sent S ++ [(xC, ack_packet)] /\
    recv ipS portS (ack_packet ++ st3) 44 t3 U3 C1 = Ret C2 /\ sent C2 = sent C1 ++ [(xS, done_packet)] /\
    peer_is xS serverkey (u16 (Z.of_nat (length serverkey))) (replicate 32 0) nC C2 /\
    recv ipC portC (done_packet ++ st4) 12 t4 U4 S2 = act S3 nS /\
    peer_is xC (stored_key key (u_key U1)) 700 (u_session U1) nS S3.
Proof.
  intros HiS HpS HiC HpC HU0 HU1 Ht2 Ht4 xS xC key (HC & HC1 & HC2 & HC3 & pC & wC & HC4).
  intros (HS & HS1 & HS2 & HS3 & HS4 & HS5 & pS & wS & HS6) recv.
  assert (sock_addr xS) as HxS by (by exists ipS, portS). assert (sock_addr xC) as HxC by (by exists ipC, portC).
  assert (Z.of_nat (length key) = ALTUS_RSA_KEY_SIZE) as Hk by apply HC.
  destruct (call_begins ipS portS serverkey t0 U0 C HC HU0 HC2 HiS HpS)
    as (C1 & E1 & Ec & Eo & Es & Ep & Epo & Epi & Esh & _). fold xS in Ec, Es.
  pose proof (connect_inv ipS portS serverkey _ t0 U0 C 0 C1 HC HU0 E1) as Hi1.
  set (S1 := set_s_prepeers (<[xC := prepeer_1 key U1 t1]> (s_prepeers S)) S).
  assert (recv ipC portC (pageA_packet key ++ st1) 484 t1 U1 S = Ret S1) as R1.
  { unfold recv, Listener_turn. fold xC. rewrite HS2, HS3, HS1, accept_page_A by done. done. }
  set (S2 := set_s_prepeers (<[xC := prepeer_2 key U1 t1]> (s_prepeers S1)) (send_to xC [ack_packet] S1)).
  assert (recv ipC portC (pageB_packet key ++ st2) 216 t2 U2 S1 = Ret S2) as R2.
  { unfold recv, Listener_turn. fold xC. change (getPeer xC S1) with (getPeer xC S).
    change (findCPrePeer xC S1) with (findCPrePeer xC S). change (IsAccepting S1) with (IsAccepting S).
    rewrite HS2, HS3, HS1, (accept_page_B xC key st2 t2 t1 U1) by (try done; apply lookup_insert_eq).
    unfold addr_of. by rewrite sock_addr_of. }
  assert (host_inv S2) as HiS2.
  { apply set_s_prepeers_inv; [|apply map_Forall_insert_2; [by apply prepeer_2_ok|]; apply map_Forall_insert_2;
      [by apply prepeer_1_ok|apply HS]]. apply send_to_inv, set_s_prepeers_inv; [done|].
    apply map_Forall_insert_2; [by apply prepeer_1_ok|apply HS]. }
  set (cp := mkCPre false ipS portS (Some serverkey) (u16 (Z.of_nat (length serverkey))) (Some (u_session U0)) t0).
  destruct (call_completes xS _ cp st3 U3 C1 pC wC (u_session U0) Hi1 HxS Ec) as (nC & C2 & E2 & Pis & _ & Es2);
    [by rewrite Ep|exact Eo|done|destruct HU0 as [_ Hl]; unfold ALTUS_SESSION_KEY_SIZE in Hl; lia|by rewrite Epi|by rewrite Esh|].
  destruct (accept_done xC st4 t4 t1 key U1 U4 S2 pS wS HiS2 HxC) as (nS & S3 & E3 & PisS & _ & _);
    [apply lookup_insert_eq|exact HS2|done|exact HS5|exact HS6|].
  exists C1, S1, S2, C2, S3, nC, nS. split; [exact E1|]. split; [exact Es|]. split; [exact R1|].
  split; [done|]. split; [exact R2|]. split; [done|]. split.
  { unfold recv, Listener_turn. fold xS. unfold getPeer. rewrite Ep. unfold getPeer in HC1. rewrite HC1, Ec.
    rewrite E2. done. }
  split; [exact Es2|]. split; [exact Pis|]. split; [|exact PisS].
  unfold recv, Listener_turn. fold xC. change (getPeer xC S2) with (getPeer xC S).
  change (findCPrePeer xC S2) with (findCPrePeer xC S). change (IsAccepting S2) with (IsAccepting S).
  rewrite HS2, HS3, HS1, E3. by destruct (act S3 nS).
Qed.
End handshake.

(** ** Races of the thread of the retries *)

Section races.
Context {F : Type}.
Context (top : list (Z * positive) -> option (Z * positive)) `{!PriorityQueue top}.

(** C40: The thread of the retries sleeps between looking at the queue and
    taking the entry off it.  If in that time a connection [b] that was begun
    earlier puts its retries into the queue and its first one is due before the
    last retry of [a], for which the thread sleeps, the thread deletes the
    pre-peer of [a] but takes an entry of [b] off the queue: the entry of [a]
    stays, and its next turn uses the deleted pre-peer. *)
Theorem retry_race (h : ALTUSHost F) a b c d :
  let t := u32 (c_starttime c + 3 * ConnectWaitTime) in
  RetryQuque h = [(t, a)] -> a <> b ->
  cpre_objs h !! a = Some c -> Expired c = false -> cpre_ok c -> cpre_objs h !! b = Some d ->
  Comparator (t, a) (u32 (c_starttime d + ConnectWaitTime), b) = true ->
  (forall h1, connect_push b h = Ret h1 -> comparable (RetryQuque h1)) ->
  exists h1 h2, connect_push b h = Ret h1 /\ Connecter_act top (t, a) h1 = Ret h2 /\
    (t, a) ∈ RetryQuque h2 /\ Connecter_act top (t, a) h2 = Fault.
Proof.
  intros t Hq Hab Ha He Hok Hb Hcmp Hwin. unfold connect_push in *. rewrite Hb in *.
  set (h1 := set_queue _ h) in *. specialize (Hwin h1 eq_refl). exists h1.
  assert (Hin : (u32 (c_starttime d + ConnectWaitTime), b) ∈ RetryQuque h1).
  { cbn. rewrite Hq. apply elem_of_app. right. apply list_elem_of_fmap. exists 1.
    split; [by rewrite Z.mul_1_l|]. by apply elem_of_seqZ. }
  destruct (top (RetryQuque h1)) as [y|] eqn:Ey.
  2: { apply top_none in Ey. rewrite Ey in Hin. by apply elem_of_nil in Hin. }
  assert (y <> (t, a)) as Hy.
  { intros ->. pose proof (top_first _ _ _ Hwin Ey Hin). congruence. }
  set (h2 := set_queue (remove_one y (RetryQuque h1))
    (set_c_prepeers (delete (addrTo_uint64 (c_ip c) (c_port c)) (c_prepeers h)) (delete a (cpre_objs h)) h1)).
  exists h2. split; [done|]. split_and!.
  - unfold Connecter_act. cbn [snd fst cpre_objs h1 set_queue]. rewrite Ha, He. unfold t.
    rewrite s32_sub_l. replace (c_starttime c + 3 * ConnectWaitTime - c_starttime c) with 4500 by (unfold ConnectWaitTime; lia).
    rewrite s32_small by lia. change (ConnectExpireTime <=? 4500) with true. cbv iota.
    rewrite cpre_delete_ok, bind_ret by done. unfold pop_queue. cbn [RetryQuque set_c_prepeers]. by rewrite Ey.
  - cbn. destruct (decide (y = (t, a))); [done|]. apply remove_one_keeps; [done|]. cbn. rewrite Hq. by left.
  - unfold Connecter_act. cbn. by rewrite lookup_delete_eq.
Qed.

(** The last turn of an attempt that a wrong answer had ended erases the
    entry of its address from the table of outgoing connections, whoever's it
    is: a newer attempt stays in memory but no answer and no retry finds it. *)
Theorem stale_expiry (h : ALTUSHost F) t a b c :
  host_inv h -> comparable (RetryQuque h) -> top (RetryQuque h) = Some (t, a) ->
  cpre_objs h !! a = Some c -> Expired c = false -> ConnectExpireTime <= s32 (t - c_starttime c) ->
  findCPrePeer (caller_addr c) h = Some b -> b <> a ->
  exists h', Connecter_turn top h = Ret h' /\ findCPrePeer (caller_addr c) h' = None /\
    cpre_objs h' !! b = cpre_objs h !! b /\ SendHandShake1 (caller_addr c) h' = Ret (-1, h').
Proof.
  intros Hi Hc Ht Ha He Hexp Hb Hab. unfold Connecter_turn, Connecter_act. rewrite Ht. cbn [snd fst].
  rewrite Ha, He. destruct (Z.leb_spec ConnectExpireTime (s32 (t - c_starttime c))); [|lia].
  rewrite cpre_delete_ok, bind_ret by (by apply (c_objs _ _ _ (proj1 (proj2 Hi)) a)).
  unfold pop_queue. cbn [RetryQuque set_c_prepeers]. rewrite Ht. eexists. split; [reflexivity|].
  unfold findCPrePeer, SendHandShake1. cbn. unfold caller_addr, findCPrePeer. cbn. rewrite lookup_delete_eq.
  by rewrite lookup_delete_ne.
Qed.
End races.

(** ** The queue that is searched *)

Lemma Comparator_base base a b : u32 (a.1 - base) < 2 ^ 31 -> u32 (b.1 - base) < 2 ^ 31 ->
  Comparator a b = (u32 (b.1 - base) <? u32 (a.1 - base)).
Proof.
  intros Ha Hb. unfold Comparator. 
  assert (s32 (a.1 - b.1) = u32 (a.1 - base) - u32 (b.1 - base)) as ->.
  { replace (a.1 - b.1) with ((a.1 - base) - (b.1 - base)) by lia.
    rewrite <- s32_sub_l, <- s32_sub_r. pose proof (u32_range (a.1 - base)). pose proof (u32_range (b.1 - base)).
    apply s32_small. lia. }
  apply ltb_0_sub.
Qed.

Lemma first_top_in q t : first_top q = Some t -> t ∈ q.
Proof.
  revert t. induction q as [|x r IH]; intros t; cbn [first_top]; [done|].
  destruct (first_top r) as [y|]; [|intros [= <-]; by left].
  case_match; intros [= <-]; [right; by apply IH|by left].
Qed.

#[export] Instance first_top_queue : PriorityQueue first_top.
Proof.
  split.
  - intros [|x r]; cbn [first_top]; [done|]. split; [|done]. repeat case_match; done.
  - apply first_top_in.
  - intros q t x [base Hb]. revert t x. induction q as [|y r IH]; intros t x; cbn [first_top]; [done|].
    assert (Hr : forall t0, t0 ∈ r -> u32 (t0.1 - base) < 2 ^ 31) by (intros; apply Hb; by right).
    assert (u32 (y.1 - base) < 2 ^ 31) as Hy by (apply Hb; by left).
    specialize (IH Hr). destruct (first_top r) as [z|] eqn:Ez.
    + pose proof (first_top_in _ _ Ez) as Hz.
      rewrite (Comparator_base base y z Hy (Hr _ Hz)).
      destruct (Z.ltb_spec (u32 (z.1 - base)) (u32 (y.1 - base))) as [Hlt|Hge]; intros [= <-] [->|Hx]%elem_of_cons.
      * rewrite (Comparator_base base) by auto. apply Z.ltb_ge. lia.
      * by apply IH.
      * rewrite (Comparator_base base) by auto. apply Z.ltb_irrefl.
      * specialize (IH z x eq_refl Hx). rewrite (Comparator_base base) in IH by auto. apply Z.ltb_ge in IH.
        rewrite (Comparator_base base) by auto. apply Z.ltb_ge. lia.
    + assert (r = []) as ->.
      { destruct r as [|w r']; [done|]. cbn [first_top] in Ez. repeat case_match; done. }
      intros [= <-] [->|Hx]%elem_of_cons; [|by apply elem_of_nil in Hx].
      rewrite (Comparator_base base) by auto. apply Z.ltb_irrefl.
Qed.

(** ** Witnesses *)

Definition roomy : NodeHeap.mem := mkMem ∅ 40 (garbage sample_mem).
Definition roomy_nodes : NodeBase.heap := NodeBase.mkHeap ∅ 10 zeros.
Definition sample_key : list Z := replicate 700 7.

Definition no_host : ALTUSHost (list Z) :=
  mkHost [] 0 ∅ ∅ ∅ 0 ∅ ∅ ∅ [] false false sample_world [].

(** A host that was just made and is running. *)
Definition new_host : ALTUSHost (list Z) := (run (ret_or no_host (ALTUSHost_new sample_key roomy roomy_nodes))).2.

Definition sample_uninit : uninit (list Z) :=
  mkUninit (fun _ => 0) (fun _ => sample_raw) (channel_new 0 false) 8 true [] (replicate 700 0) (replicate 32 0).

Lemma sample_uninit_ok : uninit_ok sample_uninit.
Proof. done. Qed.

Definition host_turns (l : list (ALTUSHost (list Z) -> outcome (ALTUSHost (list Z)))) : ALTUSHost (list Z) :=
  foldl (fun h f => ret_or h (f h)) new_host l.

(** Calls at two times, a wrong answer, and turns of the retries. *)
Definition call (now : Z) (h : ALTUSHost (list Z)) : outcome (ALTUSHost (list Z)) :=
  '(_, h) ← connect 1 2 [9] 1 now sample_uninit h; Ret h.
Definition answer (buf : list Z) (h : ALTUSHost (list Z)) : outcome (ALTUSHost (list Z)) :=
  Listener_turn append_file NullFunc 1 1 2 buf (Z.of_nat (length buf)) 0 sample_uninit h.

Notation sample_reach := (host_reach append_file first_top NullFunc).

Lemma new_host_reach : sample_reach new_host.
Proof.
  eexists sample_key, roomy, roomy_nodes, _. split; [reflexivity|]. split; [vm_compute; reflexivity|].
  eapply rtc_l; [apply step_call, api_run|apply rtc_refl].
Qed.

Lemma reach_step h h' : sample_reach h -> host_step append_file first_top NullFunc h h' -> sample_reach h'.
Proof.
  intros (key & m & nh & h0 & Hk & H0 & Hr) Hs. exists key, m, nh, h0. split_and!; try done. by eapply rtc_r.
Qed.

Lemma comparable_check q : forallb (fun t => u32 t.1 <? 2 ^ 31) q = true -> comparable q.
Proof.
  intros H. exists 0. intros t Ht. rewrite forallb_forall in H. rewrite Z.sub_0_r.
  by apply Z.ltb_lt, H, list_elem_of_In.
Qed.

Lemma bytes_check l : forallb (fun b => (0 <=? b) && (b <? 256)) l = true -> bytes l.
Proof.
  intros H. rewrite forallb_forall in H. apply Forall_forall. intros x Hx%list_elem_of_In.
  apply H, andb_true_iff in Hx as [H1%Z.leb_le H2%Z.ltb_lt]. done.
Qed.

Lemma reach_call now h h' : sample_reach h -> call now h = Ret h' -> sample_reach h'.
Proof.
  intros Hr H. unfold call in H. apply bind_Ret_inv in H as ([r h1] & E & [= <-]).
  eapply reach_step; [exact Hr|]. apply step_call. by eapply (api_connect _ _ _ _ _ _ _ _ _ _ sample_uninit_ok).
Qed.

Lemma reach_answer buf h h' : forallb (fun b => (0 <=? b) && (b <? 256)) buf = true ->
  sample_reach h -> answer buf h = Ret h' -> sample_reach h'.
Proof.
  intros Hb%bytes_check Hr H. eapply reach_step; [exact Hr|].
  by eapply (step_receive _ _ _ 1 1 2 buf _ 0 sample_uninit); [lia|lia|exact Hb|apply sample_uninit_ok|exact H].
Qed.

Lemma reach_retry h h' : forallb (fun t => u32 t.1 <? 2 ^ 31) (RetryQuque h) = true ->
  sample_reach h -> Connecter_turn first_top h = Ret h' -> sample_reach h'.
Proof. intros Hq%comparable_check Hr H. eapply reach_step; [exact Hr|]. by eapply step_retry. Qed.

(** A host that has called, one that was answered, and one whose first call was
    answered wrongly and that has called again. *)
Definition calling : ALTUSHost (list Z) := ret_or no_host (call 0 new_host).
Definition connected : ALTUSHost (list Z) := ret_or no_host (answer ack_packet calling).
Definition misled : ALTUSHost (list Z) := ret_or no_host (answer [1; 2] calling).
Definition recalling : ALTUSHost (list Z) := ret_or no_host (call 3100 misled).
Definition recalling_1 : ALTUSHost (list Z) := ret_or no_host (Connecter_turn first_top recalling).
Definition recalling_2 : ALTUSHost (list Z) := ret_or no_host (Connecter_turn first_top recalling_1).

Lemma calling_reach : sample_reach calling.
Proof. apply (reach_call 0 new_host); [apply new_host_reach|vm_compute; reflexivity]. Qed.

Lemma connected_reach : sample_reach connected.
Proof. apply (reach_answer ack_packet calling); [reflexivity|apply calling_reach|vm_compute; reflexivity]. Qed.

Lemma recalling_reach : sample_reach recalling_2.
Proof.
  apply (reach_retry recalling_1); [reflexivity| |vm_compute; reflexivity].
  apply (reach_retry recalling); [reflexivity| |vm_compute; reflexivity].
  apply (reach_call 3100 misled); [|vm_compute; reflexivity].
  apply (reach_answer [1; 2] calling); [reflexivity|apply calling_reach|vm_compute; reflexivity].
Qed.

Lemma host_tables_sound_witness :
  getPeerbyID 1 connected = Some 2%positive /\
  exists p, peer_objs connected !! 2%positive = Some p /\ getPeer (peer_addr p) connected = Some 2%positive.
Proof.
  split; [vm_compute; reflexivity|].
  apply (proj1 (host_tables_sound append_file first_top NullFunc connected connected_reach) 1 2%positive).
  vm_compute. reflexivity.
Defined.

Lemma retry_queue_safe_witness :
  exists h', Connecter_turn first_top recalling_2 = Ret h' /\
    length (RetryQuque recalling_2) = S (length (RetryQuque h')) /\
    forall t a, (t, a) ∈ RetryQuque h' -> is_Some (cpre_objs h' !! a).
Proof.
  apply (retry_queue_safe append_file first_top NullFunc recalling_2 recalling_reach).
  - apply comparable_check. reflexivity.
  - vm_compute. discriminate.
Defined.

(** Twelve bytes of a handshake with an unknown page and the largest key size. *)
Definition bad_hello : list Z := bytes_of "ALTUS/1.0X" ++ [255; 255] ++ replicate 484 0.

Lemma accepter_outcome_witness :
  first_bad bad_hello 12 = true /\ accepter NullFunc 5 bad_hello 12 0 sample_uninit connected = Fault.
Proof.
  split; [reflexivity|].
  exact (accepter_outcome NullFunc 5 bad_hello 12 0 sample_uninit connected
    (host_reach_inv _ _ _ _ connected_reach) sample_uninit_ok (bytes_check bad_hello eq_refl) eq_refl
    ltac:(unfold ALTUS_PACKET_SIZE; lia)).
Defined.

(** Two hosts that were just made; the called one is at (3, 4), the caller at
    (1, 2). *)
Lemma handshake_completes_witness :
  exists (C2 S3 : ALTUSHost (list Z)) nC nS,
    peer_is (addrTo_uint64 3 4) [9; 9] 2 (replicate 32 0) nC C2 /\
    peer_is (addrTo_uint64 1 2) (stored_key sample_key (replicate 700 0)) 700 (replicate 32 0) nS S3.
Proof.
  assert (Hcall : can_call (addrTo_uint64 3 4) sample_uninit new_host).
  { split; [apply (host_reach_inv _ _ _ _ new_host_reach)|]. split; [reflexivity|]. split; [reflexivity|].
    split; [done|]. eexists _, _. vm_compute. reflexivity. }
  assert (Hacc : can_accept (addrTo_uint64 1 2) sample_uninit new_host).
  { split; [apply (host_reach_inv _ _ _ _ new_host_reach)|]. split; [reflexivity|]. split; [reflexivity|].
    split; [reflexivity|]. split; [reflexivity|]. split; [done|]. eexists _, _. vm_compute. reflexivity. }
  destruct (handshake_completes append_file NullFunc 1 3 4 1 2 [9; 9] 0 1 2 3 4 sample_uninit sample_uninit
    sample_uninit sample_uninit sample_uninit [] [] [] [] new_host new_host ltac:(lia) ltac:(lia) ltac:(lia)
    ltac:(lia) sample_uninit_ok sample_uninit_ok ltac:(done) ltac:(done) Hcall Hacc)
    as (C1 & S1 & S2 & C2 & S3 & nC & nS & _ & _ & _ & _ & _ & _ & _ & _ & HC & _ & HS).
  exists C2, S3, nC, nS. split; [exact HC|exact HS].
Defined.

(** The last retry of the attempt of time 0 at time 4500, and an attempt begun
    at 2990 whose retries are still to be queued. *)
Definition sample_cpre (ip start : Z) : ALTUS_CPrePeer :=
  mkCPre false ip 2 (Some [9]) 1 (Some (replicate 32 0)) start.
Definition racing : ALTUSHost (list Z) :=
  set_queue [(4500, 1%positive)]
    (set_c_prepeers (<[addrTo_uint64 1 2 := 1%positive]> {[addrTo_uint64 3 2 := 2%positive]})
       (<[1%positive := sample_cpre 1 0]> {[2%positive := sample_cpre 3 2990]}) new_host).

Lemma retry_race_witness :
  exists h1 h2, connect_push 2 racing = Ret h1 /\ Connecter_act first_top (4500, 1%positive) h1 = Ret h2 /\
    (4500, 1%positive) ∈ RetryQuque h2 /\ Connecter_act first_top (4500, 1%positive) h2 = Fault.
Proof.
  apply (retry_race first_top racing 1 2 (sample_cpre 1 0) (sample_cpre 3 2990)).
  - reflexivity.
  - discriminate.
  - reflexivity.
  - reflexivity.
  - exists [9], (replicate 32 0). split_and!; (done || cbn; lia).
  - reflexivity.
  - reflexivity.
  - intros h1 [= <-]. apply comparable_check. reflexivity.
Defined.

Lemma stale_expiry_witness :
  exists h', Connecter_turn first_top recalling_2 = Ret h' /\ findCPrePeer (addrTo_uint64 1 2) h' = None /\
    cpre_objs h' !! 3%positive = cpre_objs recalling_2 !! 3%positive /\
    SendHandShake1 (addrTo_uint64 1 2) h' = Ret (-1, h').
Proof.
  apply (stale_expiry first_top recalling_2 4500 2 3
    (mkCPre false 1 2 (Some [9]) 1 (Some (replicate 32 0)) 0)).
  - apply (host_reach_inv _ _ _ _ recalling_reach).
  - apply comparable_check. reflexivity.
  - vm_compute. reflexivity.
  - vm_compute. reflexivity.
  - reflexivity.
  - vm_compute. discriminate.
  - vm_compute. reflexivity.
  - discriminate.
Defined.

(** A caller that announces a key of 800 bytes, for which 700 are stored, is made
    a peer by three packets; when the peer is removed, the destructor wipes 800
    bytes. *)
Definition hello_800 : list Z := bytes_of "ALTUS/1.0A" ++ be_put 2 800 ++ replicate 100 5.
Definition oversized : ALTUSHost (list Z) :=
  host_turns [answer hello_800; answer hello_800; answer done_packet].

Example oversized_key_overflows :
  sample_reach oversized /\ removePeer 1 oversized = Fault.
Proof.
  split.
  - assert (Hb : forall l, forallb (fun b => (0 <=? b) && (b <? 256)) l = true ->
      forall h h', sample_reach h -> answer l h = Ret h' -> sample_reach h')
      by (intros l Hl h h'; by apply reach_answer).
    assert (E1 : answer hello_800 new_host = Ret (host_turns [answer hello_800]))
      by (vm_compute; reflexivity).
    assert (E2 : answer hello_800 (host_turns [answer hello_800]) =
      Ret (host_turns [answer hello_800; answer hello_800])) by (vm_compute; reflexivity).
    assert (E3 : answer done_packet (host_turns [answer hello_800; answer hello_800]) = Ret oversized)
      by (vm_compute; reflexivity).
    eapply Hb; [|eapply Hb; [|eapply Hb; [|apply new_host_reach|exact E1]|exact E2]|exact E3]; reflexivity.
  - destruct (peer_objs oversized !! 2%positive) as [p|] eqn:Ep; [|vm_compute in Ep; discriminate].
    apply (removePeer_overflows 1 2%positive p); [vm_compute; reflexivity|exact Ep|lia|].
    vm_compute in Ep. injection Ep as <-. vm_compute. reflexivity.
Qed.
