(* ===== verification/Stream.v ===== *)
(** * Byte-at-a-time transformations

    The stream modes keep a position [n] in the current block.  Their reference
    behaviour is a step function applied to one byte after the other, as in the
    sources' fallback loops [while (l < len)]; this file has what follows for
    any such function, and the chunks in which callers feed data. *)

From S2P Require Import Prelude Bytes.

Section run.
Context {S : Type}.
Implicit Types (step : S -> Z -> Z * S) (st : S).

Fixpoint run step st (inp : list Z) : list Z * S :=
  match inp with
  | [] => ([], st)
  | b :: r =>
      let '(o, st1) := step st b in
      let '(os, st2) := run step st1 r in
      (o :: os, st2)
  end.

Lemma run_app step st a b :
  run step st (a ++ b) =
    (fst (run step st a) ++ fst (run step (snd (run step st a)) b),
     snd (run step (snd (run step st a)) b)).
Proof.
  revert st. induction a as [|x a IH]; intros st; simpl; [by destruct (run step st b)|].
  destruct (step st x) as [o st1]. rewrite IH. by destruct (run step st1 a).
Qed.

(** [run] in two parts, when both are known. *)
Lemma run_app_eq step st a b oa ob st1 st2 :
  run step st a = (oa, st1) -> run step st1 b = (ob, st2) ->
  run step st (a ++ b) = (oa ++ ob, st2).
Proof. intros Ha Hb. rewrite run_app, Ha. cbn [fst snd]. by rewrite Hb. Qed.

Lemma length_run step st inp : length (fst (run step st inp)) = length inp.
Proof.
  revert st. induction inp as [|b r IH]; intros st; simpl; [done|].
  destruct (step st b) as [o st1]. specialize (IH st1).
  destruct (run step st1 r). simpl in *. by rewrite IH.
Qed.

End run.

(** A caller's data in chunks, each fed with the state left by the one before. *)
Fixpoint feed {T : Type} (f : list Z -> T -> list Z * T) (st : T)
    (chunks : list (list Z)) : list Z * T :=
  match chunks with
  | [] => ([], st)
  | c :: r =>
      let '(o, st1) := f c st in
      let '(os, st2) := feed f st1 r in
      (o ++ os, st2)
  end.

(** Feeding chunks to a function that runs [step] runs it on their
    concatenation; [I] holds of the states, which the function encodes by [e]. *)
Lemma feed_run {S T : Type} (e : S -> T) (I : S -> Prop) (P : list Z -> Prop)
    (f : list Z -> T -> list Z * T) (step : S -> Z -> Z * S) :
  (forall c st, I st -> P c ->
     f c (e st) = (fst (run step st c), e (snd (run step st c))) /\ I (snd (run step st c))) ->
  forall chunks st, I st -> Forall P chunks ->
  feed f (e st) chunks =
    (fst (run step st (concat chunks)), e (snd (run step st (concat chunks)))).
Proof.
  intros Hf. induction chunks as [|c r IH]; intros st Hst HP; simpl; [done|].
  inversion_clear HP as [|? ? Hc Hr]. destruct (Hf c st Hst Hc) as [E HI].
  rewrite E, run_app. simpl. by rewrite IH.
Qed.

(** Two step functions in lock step: the second one undoes the first. *)
Lemma run_inverse {S : Type} (I : S -> Prop) (fwd bwd : S -> Z -> Z * S) (P : Z -> Prop) :
  (forall st b, I st -> P b -> I (snd (fwd st b)) /\
     bwd st (fst (fwd st b)) = (b, snd (fwd st b))) ->
  forall inp st, I st -> Forall P inp ->
  run bwd st (fst (run fwd st inp)) = (inp, snd (run fwd st inp)).
Proof.
  intros Hstep. induction inp as [|b r IH]; intros st Hst HP; [done|].
  inversion_clear HP as [|? ? Hb Hr]. destruct (Hstep st b Hst Hb) as [HI E].
  simpl. destruct (fwd st b) as [o st1]. simpl in *.
  specialize (IH st1 HI Hr). destruct (run fwd st1 r) as [os st2]. simpl in *.
  by rewrite E, IH.
Qed.

(** What the steps put out, all of it. *)
Lemma run_outputs {S : Type} (I : S -> Prop) (step : S -> Z -> Z * S) (P Q : Z -> Prop) :
  (forall st b, I st -> P b -> I (snd (step st b)) /\ Q (fst (step st b))) ->
  forall inp st, I st -> Forall P inp -> Forall Q (fst (run step st inp)).
Proof.
  intros Hstep. induction inp as [|b r IH]; intros st Hst HP; [apply Forall_nil_2|].
  apply Forall_cons in HP as [Hb Hr]. destruct (Hstep st b Hst Hb) as [HI HQ]. simpl.
  destruct (step st b) as [o st1]. specialize (IH st1 HI Hr).
  destruct (run step st1 r) as [os st2]. by apply Forall_cons_2.
Qed.

(** The byte of a buffer at a position the caller keeps in range. *)
Definition byte_at (l : list Z) (n : nat) : Z := nth n l 0.

Lemma byte_at_is_byte k l n : nbytes k l -> is_byte (byte_at l n).
Proof.
  intros [_ Hb]. unfold byte_at. destruct (nth_in_or_default n l 0) as [Hin| ->].
  - apply (proj1 (Forall_forall _ _) Hb). by apply list_elem_of_In.
  - unfold is_byte. lia.
Qed.

Lemma drop_byte_at l n : (n < length l)%nat -> drop n l = byte_at l n :: drop (S n) l.
Proof.
  intros Hn. unfold byte_at. revert l Hn. induction n as [|n IH]; intros [|x l] Hn;
    simpl in *; try lia; [done|]. apply IH. lia.
Qed.

Lemma byte_at_insert l n m x :
  (n < length l)%nat -> byte_at (<[n := x]> l) m = if (m =? n)%nat then x else byte_at l m.
Proof.
  intros Hn. unfold byte_at. rewrite !nth_lookup. destruct (Nat.eqb_spec m n) as [->|].
  - by rewrite list_lookup_insert_eq.
  - by rewrite list_lookup_insert_ne by done.
Qed.

Lemma byte_at_xor a b i :
  (i < length a)%nat -> (i < length b)%nat ->
  byte_at (xor_bytes a b) i = Z.lxor (byte_at a i) (byte_at b i).
Proof.
  revert b i. induction a as [|x a IH]; intros [|y b] [|i] Ha Hb; simpl in *; try lia; [done|].
  apply (IH b i); lia.
Qed.

Lemma nbytes_insert k l n b : nbytes k l -> is_byte b -> nbytes k (<[n := b]> l).
Proof.
  intros [Hl Hb] H. split; [by rewrite length_insert|by apply Forall_insert].
Qed.

(** The states between calls: a 16-byte block and a position in it. *)
Definition stream_ok (st : list Z * nat) : Prop := nbytes 16 (fst st) /\ (snd st < 16)%nat.

Lemma bytes_concat chunks : Forall bytes chunks -> bytes (concat chunks).
Proof. intros H. apply Forall_concat. done. Qed.

