(* ===== verification/Cbc128.v ===== *)
(** * Cipher block chaining (openssl crypto/modes/cbc128.c)

    [CRYPTO_cbc128_encrypt] and [CRYPTO_cbc128_decrypt] over a block function.
    Both have a loop on whole blocks that works on machine words (or on bytes,
    for misaligned buffers of a strict-alignment build) and a byte loop for the
    rest, which is the whole function in a small-footprint build; the three
    builds are the parameters [small] and [misaligned]. *)

From S2P Require Import Prelude Bytes.

Section cbc.
Context (block : list Z -> list Z).

(** Sixteen bytes at once: two words, or byte by byte. *)
Definition xor16 (misaligned : bool) (a b : list Z) : list Z :=
  if misaligned then xor_bytes a b else xor_words 2 a b.

(** [while (len >= 16)] of the encryption, [n] times: the output and [iv]. *)
Fixpoint cbc_enc_loop (misaligned : bool) (n : nat) (inp iv : list Z) : list Z * list Z :=
  match n with
  | O => ([], iv)
  | S k =>
      let out := block (xor16 misaligned (take 16 inp) iv) in
      let '(rest, iv') := cbc_enc_loop misaligned k (drop 16 inp) out in
      (out ++ rest, iv')
  end.

(** [while (len)] of the encryption; the last block may be short. *)
Fixpoint cbc_enc_tail (fuel : nat) (inp iv : list Z) : list Z * list Z :=
  match fuel with
  | O => ([], iv)
  | S f =>
      if (length inp =? 0)%nat then ([], iv)
      else
        let n := Nat.min 16 (length inp) in
        let out := block (xor_bytes (take n inp) (take n iv) ++ drop n iv) in
        if (length inp <=? 16)%nat then (out, out)
        else
          let '(rest, iv') := cbc_enc_tail f (drop 16 inp) out in
          (out ++ rest, iv')
  end.

(** The result is the output, whose last block is complete, and [ivec]. *)
Definition CRYPTO_cbc128_encrypt (small misaligned : bool) (inp ivec : list Z)
  : list Z * list Z :=
  if (length inp =? 0)%nat then ([], ivec)
  else
    let n := if small then 0%nat else (length inp / 16)%nat in
    let '(out, iv) := cbc_enc_loop misaligned n inp ivec in
    let rest := drop (16 * n) inp in
    let '(out', iv') := cbc_enc_tail (length rest) rest iv in
    (out ++ out', iv').

(** [while (len >= 16)] of the decryption: each block is decrypted into a
    temporary or the output, masked with [iv], and becomes the next [iv]; in
    place it is copied to [ivec] before it is overwritten. *)
Fixpoint cbc_dec_loop (misaligned : bool) (n : nat) (inp iv : list Z) : list Z * list Z :=
  match n with
  | O => ([], iv)
  | S k =>
      let out := xor16 misaligned (block (take 16 inp)) iv in
      let '(rest, iv') := cbc_dec_loop misaligned k (drop 16 inp) (take 16 inp) in
      (out ++ rest, iv')
  end.

(** [while (len)] of the decryption: the input is read in whole blocks, also
    the last one, of which [len] bytes are output. *)
Fixpoint cbc_dec_tail (fuel len : nat) (inp ivec : list Z) : list Z * list Z :=
  match fuel with
  | O => ([], ivec)
  | S f =>
      if (len =? 0)%nat then ([], ivec)
      else
        let tmp := block (take 16 inp) in
        let n := Nat.min 16 len in
        let out := xor_bytes (take n tmp) (take n ivec) in
        if (len <=? 16)%nat then (out, take n inp ++ drop n (take 16 inp))
        else
          let '(rest, iv') := cbc_dec_tail f (len - 16) (drop 16 inp) (take 16 inp) in
          (out ++ rest, iv')
  end.

Definition CRYPTO_cbc128_decrypt (small misaligned : bool) (len : nat) (inp ivec : list Z)
  : list Z * list Z :=
  if (len =? 0)%nat then ([], ivec)
  else
    let n := if small then 0%nat else (len / 16)%nat in
    let '(out, iv) := cbc_dec_loop misaligned n inp ivec in
    let len' := (len - 16 * n)%nat in
    let '(out', iv') := cbc_dec_tail len' len' (drop (16 * n) inp) iv in
    (out ++ out', iv').
End cbc.

(** ** The builds agree *)

(** One block more or less at the front. *)
Definition cons_block (o : list Z) (r : list Z * list Z) : list Z * list Z :=
  (o ++ fst r, snd r).

Lemma nbytes_take_16 l : bytes l -> (16 <= length l)%nat -> nbytes 16 (take 16 l).
Proof. intros Hb Hl. split; [rewrite length_take; lia|by apply bytes_take]. Qed.

Lemma xor16_bytes m a b : nbytes 16 a -> nbytes 16 b -> xor16 m a b = xor_bytes a b.
Proof. intros Ha Hb. destruct m; [done|]. by apply xor_words_16. Qed.

Section cbc_facts.
Context (enc : list Z -> list Z) `{!BlockFn enc}.

(** The byte loop has fuel to spare. *)
Lemma cbc_enc_tail_fuel : forall f1 f2 inp iv,
  (length inp <= f1)%nat -> (length inp <= f2)%nat ->
  cbc_enc_tail enc f1 inp iv = cbc_enc_tail enc f2 inp iv.
Proof.
  induction f1 as [|f1 IH]; intros [|f2] inp iv H1 H2; try done;
    try (destruct inp; [done|simpl in *; lia]).
  cbn [cbc_enc_tail]. destruct (Nat.eqb_spec (length inp) 0); [done|].
  destruct (Nat.leb_spec (length inp) 16); [done|].
  erewrite IH; [done|rewrite length_drop; lia..].
Qed.

Lemma cbc_enc_tail_nil f iv : cbc_enc_tail enc f [] iv = ([], iv).
Proof. by destruct f. Qed.

(** A whole block at the front goes the way of the fast loop. *)
Lemma cbc_enc_tail_block inp iv :
  (16 <= length inp)%nat -> length iv = 16%nat ->
  cbc_enc_tail enc (length inp) inp iv =
    cons_block (enc (xor_bytes (take 16 inp) iv))
      (cbc_enc_tail enc (length (drop 16 inp)) (drop 16 inp)
         (enc (xor_bytes (take 16 inp) iv))).
Proof.
  intros Hl Hiv. destruct (length inp) as [|f] eqn:E; [lia|]. cbn [cbc_enc_tail].
  rewrite E, Nat.min_l by lia. rewrite (take_ge iv), (drop_ge iv), app_nil_r by lia.
  change (S f =? 0)%nat with false. cbn match. unfold cons_block.
  destruct (Nat.leb_spec (S f) 16).
  - assert (drop 16 inp = []) as -> by (apply drop_ge; lia). simpl. by rewrite app_nil_r.
  - rewrite (cbc_enc_tail_fuel f (length (drop 16 inp))) by (rewrite length_drop; lia).
    by destruct (cbc_enc_tail _ _ _ _).
Qed.

Lemma cbc_enc_loop_tail m n : forall inp iv,
  bytes inp -> nbytes 16 iv -> (16 * n <= length inp)%nat ->
  let '(out, iv') := cbc_enc_loop enc m n inp iv in
  nbytes 16 iv' /\
  cbc_enc_tail enc (length inp) inp iv =
    cons_block out (cbc_enc_tail enc (length (drop (16 * n) inp)) (drop (16 * n) inp) iv').
Proof.
  induction n as [|n IH]; intros inp iv Hin Hiv Hn.
  - split; [done|]. unfold cons_block. simpl. by destruct (cbc_enc_tail _ _ _ _).
  - cbn [cbc_enc_loop]. pose proof (nbytes_take_16 inp Hin ltac:(lia)) as Ht.
    rewrite xor16_bytes by done.
    assert (Ho : nbytes 16 (enc (xor_bytes (take 16 inp) iv)))
      by (by apply block_ok, nbytes_xor).
    specialize (IH (drop 16 inp) _ (bytes_drop _ _ Hin) Ho ltac:(rewrite length_drop; lia)).
    destruct (cbc_enc_loop _ _ _ _ _) as [out iv']. destruct IH as [Hiv' IH].
    split; [done|]. destruct Hiv as [Hiv _].
    rewrite cbc_enc_tail_block, IH by (done || lia). unfold cons_block. cbn [fst snd].
    rewrite drop_drop, app_assoc. replace (16 + 16 * n)%nat with (16 * S n)%nat by lia. done.
Qed.

(** Every build computes what the byte loop computes. *)
Lemma cbc_encrypt_tail small m inp iv :
  bytes inp -> nbytes 16 iv ->
  CRYPTO_cbc128_encrypt enc small m inp iv = cbc_enc_tail enc (length inp) inp iv.
Proof.
  intros Hin Hiv. unfold CRYPTO_cbc128_encrypt.
  destruct (Nat.eqb_spec (length inp) 0) as [E|Hne]; [by destruct inp|].
  set (n := if small then 0%nat else (length inp / 16)%nat).
  assert (Hn : (16 * n <= length inp)%nat).
  { unfold n. destruct small; [lia|]. pose proof (Nat.Div0.mul_div_le (length inp) 16). lia. }
  pose proof (cbc_enc_loop_tail m n inp iv Hin Hiv Hn) as H.
  destruct (cbc_enc_loop _ _ _ _ _) as [out iv']. destruct H as [_ ->].
  by destruct (cbc_enc_tail _ _ _ _).
Qed.

(** The decryption likewise. *)
Lemma cbc_dec_tail_fuel : forall f1 f2 len inp iv,
  (len <= f1)%nat -> (len <= f2)%nat ->
  cbc_dec_tail enc f1 len inp iv = cbc_dec_tail enc f2 len inp iv.
Proof.
  induction f1 as [|f1 IH]; intros [|f2] len inp iv H1 H2; try done;
    try (destruct len; [done|lia]).
  cbn [cbc_dec_tail]. destruct (Nat.eqb_spec len 0); [done|].
  destruct (Nat.leb_spec len 16); [done|]. erewrite IH; [done|lia..].
Qed.

Lemma cbc_dec_tail_block len inp iv :
  (16 <= len)%nat -> (16 <= length inp)%nat -> bytes inp -> nbytes 16 iv ->
  cbc_dec_tail enc len len inp iv =
    cons_block (xor_bytes (enc (take 16 inp)) iv)
      (cbc_dec_tail enc (len - 16) (len - 16) (drop 16 inp) (take 16 inp)).
Proof.
  intros Hl Hi Hb Hiv. destruct len as [|f]; [lia|]. cbn [cbc_dec_tail].
  destruct Hiv as [Hiv _].
  destruct (block_ok (take 16 inp) (nbytes_take_16 inp Hb Hi)) as [He _].
  rewrite Nat.min_l by lia. rewrite (take_ge iv), (take_ge (enc _)) by lia.
  change (S f =? 0)%nat with false. cbn match. unfold cons_block.
  destruct (Nat.leb_spec (S f) 16).
  - replace (S f - 16)%nat with 0%nat by lia. simpl. rewrite app_nil_r. f_equal.
    change (fst _) with (@nil Z). by rewrite ?app_nil_r, drop_ge, app_nil_r
      by (rewrite length_take; lia).
  - rewrite (cbc_dec_tail_fuel f (S f - 16)) by lia. by destruct (cbc_dec_tail _ _ _ _ _).
Qed.

Lemma cbc_dec_loop_tail m n : forall len inp iv,
  bytes inp -> nbytes 16 iv -> (16 * n <= len)%nat -> (len <= length inp)%nat ->
  let '(out, iv') := cbc_dec_loop enc m n inp iv in
  cbc_dec_tail enc len len inp iv =
    cons_block out (cbc_dec_tail enc (len - 16 * n) (len - 16 * n) (drop (16 * n) inp) iv').
Proof.
  induction n as [|n IH]; intros len inp iv Hin Hiv Hn Hl.
  - unfold cons_block. rewrite Nat.sub_0_r. simpl. by destruct (cbc_dec_tail _ _ _ _ _).
  - cbn [cbc_dec_loop]. pose proof (nbytes_take_16 inp Hin ltac:(lia)) as Ht.
    rewrite xor16_bytes by (done || by apply block_ok).
    specialize (IH (len - 16)%nat (drop 16 inp) _ (bytes_drop _ _ Hin) Ht ltac:(lia)
      ltac:(rewrite length_drop; lia)).
    destruct (cbc_dec_loop _ _ _ _ _) as [out iv'].
    rewrite cbc_dec_tail_block, IH by (done || lia). unfold cons_block. cbn [fst snd].
    rewrite drop_drop, app_assoc. replace (16 + 16 * n)%nat with (16 * S n)%nat by lia.
    replace (len - 16 - 16 * n)%nat with (len - 16 * S n)%nat by lia. done.
Qed.

Lemma cbc_decrypt_tail small m len inp iv :
  bytes inp -> nbytes 16 iv -> (len <= length inp)%nat ->
  CRYPTO_cbc128_decrypt enc small m len inp iv = cbc_dec_tail enc len len inp iv.
Proof.
  intros Hin Hiv Hl. unfold CRYPTO_cbc128_decrypt.
  destruct (Nat.eqb_spec len 0) as [->|Hne]; [done|].
  set (n := if small then 0%nat else (len / 16)%nat).
  assert (Hn : (16 * n <= len)%nat).
  { unfold n. destruct small; [lia|]. pose proof (Nat.Div0.mul_div_le len 16). lia. }
  pose proof (cbc_dec_loop_tail m n len inp iv Hin Hiv Hn Hl) as H.
  destruct (cbc_dec_loop _ _ _ _ _) as [out iv']. rewrite H.
  unfold cons_block. destruct (cbc_dec_tail enc _ _ (drop _ inp) _). reflexivity.
Qed.
End cbc_facts.

(** ** Round trip *)

Section cbc_roundtrip.
Context (enc dec : list Z -> list Z) `{!BlockCipher enc dec}.

(** The last, short block: the pad bytes do not disturb the text. *)
Lemma cbc_short_block inp iv :
  (0 < length inp <= 16)%nat -> bytes inp -> nbytes 16 iv ->
  let n := Nat.min 16 (length inp) in
  let x := xor_bytes (take n inp) (take n iv) ++ drop n iv in
  nbytes 16 x /\ xor_bytes (take n x) (take n iv) = inp.
Proof.
  intros Hl Hin Hiv n x. assert (n = length inp) as Hn by (subst n; lia).
  assert (Hx : length (xor_bytes (take n inp) (take n iv)) = n).
  { rewrite length_xor_bytes, !length_take. destruct Hiv. lia. }
  split; [split|].
  - subst x. rewrite length_app, Hx, length_drop. destruct Hiv. lia.
  - apply bytes_app. split; [|by apply bytes_drop, Hiv].
    apply bytes_xor; apply bytes_take; [done|apply Hiv].
  - subst x. rewrite take_app_le by lia. rewrite take_ge by lia.
    rewrite xor_bytes_cancel by (rewrite !length_take; destruct Hiv; lia).
    by rewrite take_ge by lia.
Qed.

Lemma cbc_tail_roundtrip : forall fuel inp iv,
  (length inp <= fuel)%nat -> bytes inp -> nbytes 16 iv ->
  let '(c, iv') := cbc_enc_tail enc fuel inp iv in
  bytes c /\ (length inp <= length c < length inp + 16)%nat /\ nbytes 16 iv' /\
  forall suf, cbc_dec_tail dec fuel (length inp) (c ++ suf) iv = (inp, iv').
Proof.
  induction fuel as [|fuel IH]; intros inp iv Hf Hin Hiv.
  { destruct inp; [|simpl in Hf; lia]. simpl. split_and!; (done || lia || constructor). }
  cbn [cbc_enc_tail cbc_dec_tail]. destruct (Nat.eqb_spec (length inp) 0) as [E|Hne].
  { destruct inp; [|done]. simpl. split_and!; (done || lia || constructor). }
  destruct (Nat.leb_spec (length inp) 16) as [Hs|Hs].
  - destruct (cbc_short_block inp iv ltac:(lia) Hin Hiv) as [Hx Hback].
    cbn zeta in Hx, Hback.
    set (x := xor_bytes _ _ ++ drop _ iv) in *.
    pose proof (block_ok (f := enc) x Hx) as [Hl Hb].
    split_and!; [done|lia|lia|done|]. intros suf.
    rewrite take_app_le by lia. rewrite (take_ge (enc x)) by lia.
    rewrite (bc_inv (enc := enc) (dec := dec)), Hback by done. f_equal.
    rewrite take_app_le by lia. apply take_drop.
  - rewrite Nat.min_l by lia. pose proof (nbytes_take_16 inp Hin ltac:(lia)) as Ht.
    rewrite (take_ge iv), (drop_ge iv), app_nil_r by (destruct Hiv; lia).
    set (o := enc (xor_bytes (take 16 inp) iv)).
    assert (Ho : nbytes 16 o) by (by apply block_ok, nbytes_xor).
    specialize (IH (drop 16 inp) o ltac:(rewrite length_drop; lia) (bytes_drop _ _ Hin) Ho).
    rewrite length_drop in IH.
    destruct (cbc_enc_tail _ _ _ _) as [c iv']. destruct IH as (Hc & Hlc & Hiv' & IH).
    pose proof (proj1 Ho) as Hlo. split_and!;
      [apply bytes_app; split; [apply Ho|done]|rewrite length_app; lia..|done|].
    intros suf. rewrite <- app_assoc, take_app_le, (take_ge o) by lia.
    rewrite drop_app_ge, Hlo, Nat.sub_diag, drop_0 by lia. rewrite IH.
    f_equal. unfold o. rewrite (bc_inv (enc := enc) (dec := dec)) by (by apply nbytes_xor).
    rewrite take_ge by (destruct (nbytes_xor _ _ _ Ht Hiv); lia).
    rewrite xor_bytes_cancel by (destruct Ht, Hiv; lia). apply take_drop.
Qed.

(** Decryption undoes encryption, and leaves the same chaining value. *)
Lemma cbc128_inverts small m small' m' inp iv :
  bytes inp -> nbytes 16 iv ->
  let '(c, iv') := CRYPTO_cbc128_encrypt enc small m inp iv in
  CRYPTO_cbc128_decrypt dec small' m' (length inp) c iv = (inp, iv').
Proof.
  intros Hin Hiv. rewrite (cbc_encrypt_tail enc) by done.
  pose proof (cbc_tail_roundtrip (length inp) inp iv ltac:(lia) Hin Hiv) as H.
  destruct (cbc_enc_tail _ _ _ _) as [c iv']. destruct H as (Hc & Hl & _ & H).
  rewrite (cbc_decrypt_tail dec) by (done || lia). rewrite <- (H []). by rewrite app_nil_r.
Qed.

(** Decrypting an encrypted text, in any two builds, gives the text back and
    leaves both sides with the same chaining value, for texts of any length:
    the last block of the ciphertext is complete, of the plaintext only the
    given bytes are written. *)
Theorem cbc128_roundtrip small m small' m' inp iv :
  bytes inp -> nbytes 16 iv ->
  let '(c, iv') := CRYPTO_cbc128_encrypt enc small m inp iv in
  CRYPTO_cbc128_decrypt dec small' m' (length inp) c iv = (inp, iv').
Proof. exact (cbc128_inverts small m small' m' inp iv). Qed.
End cbc_roundtrip.

(** Twenty bytes in chained blocks of the toy cipher. *)
Lemma cbc128_roundtrip_witness :
  let inp := map (fun x => x mod 256) (seqZ 250 20) in
  let iv := seqZ 1 16 in
  nbytes 20 inp /\
  CRYPTO_cbc128_decrypt toy_dec false false 20
    (fst (CRYPTO_cbc128_encrypt toy_enc false true inp iv)) iv =
  (inp, snd (CRYPTO_cbc128_encrypt toy_enc true false inp iv)).
Proof.
  intros inp iv. assert (Hin : nbytes 20 inp) by solve_closed.
  assert (Hiv : nbytes 16 iv) by solve_closed. split; [exact Hin|].
  rewrite (cbc_encrypt_tail toy_enc true false) by (done || apply Hin).
  rewrite <- (cbc_encrypt_tail toy_enc false true) by (done || apply Hin).
  pose proof (cbc128_roundtrip toy_enc toy_dec false true false false inp iv (proj2 Hin) Hiv) as H.
  destruct (CRYPTO_cbc128_encrypt toy_enc false true inp iv) as [c iv']. exact H.
Defined.
