(* ===== verification/Ofb128.v ===== *)
(** * Output feedback (openssl crypto/modes/ofb128.c)

    [ivec] is the current key stream block, [n] the bytes of it already used. *)

From S2P Require Import Prelude Bytes Stream.

Section ofb.
Context (block : list Z -> list Z).

(** One turn of the byte loop [while (l < len)]. *)
Definition ofb_step (st : list Z * nat) (b : Z) : Z * (list Z * nat) :=
  let '(ivec, n) := st in
  let ivec := if (n =? 0)%nat then block ivec else ivec in
  (Z.lxor b (byte_at ivec n), (ivec, ((n + 1) mod 16)%nat)).

(** [while (n && len)]: the output, what is left of the input, and [n]. *)
Fixpoint ofb_head (inp ivec : list Z) (n : nat) : list Z * list Z * nat :=
  match inp with
  | [] => ([], [], n)
  | b :: r =>
      if (n =? 0)%nat then ([], inp, n)
      else
        let '(out, rest, n') := ofb_head r ivec ((n + 1) mod 16) in
        (Z.lxor b (byte_at ivec n) :: out, rest, n')
  end.

(** [while (len >= 16)], [k] times. *)
Fixpoint ofb_blocks (k : nat) (inp ivec : list Z) : list Z * list Z :=
  match k with
  | O => ([], ivec)
  | S k' =>
      let ivec := block ivec in
      let out := xor_words 2 (take 16 inp) ivec in
      let '(rest, ivec') := ofb_blocks k' (drop 16 inp) ivec in
      (out ++ rest, ivec')
  end.

(** The word-wise path. *)
Definition ofb_fast (inp : list Z) (st : list Z * nat) : list Z * (list Z * nat) :=
  let '(ivec, n) := st in
  let '(out1, inp1, n1) := ofb_head inp ivec n in
  let k := (length inp1 / 16)%nat in
  let '(out2, ivec2) := ofb_blocks k inp1 ivec in
  let rest := drop (16 * k) inp1 in
  if (length rest =? 0)%nat then (out1 ++ out2, (ivec2, n1))
  else
    let ivec3 := block ivec2 in
    (out1 ++ out2 ++ xor_bytes rest (drop n1 ivec3),
     (ivec3, (n1 + length rest)%nat)).

(** [strict] is a build that works byte by byte (a small footprint, or buffers
    that are misaligned for a strict-alignment machine); a negative [*num] is
    only marked. *)
Definition CRYPTO_ofb128_encrypt (strict : bool) (inp ivec : list Z) (num : Z)
  : list Z * (list Z * Z) :=
  if num <? 0 then ([], (ivec, -1))
  else
    let st := (ivec, Z.to_nat num) in
    let '(out, (ivec', n)) :=
      if strict then run ofb_step st inp else ofb_fast inp st in
    (out, (ivec', Z.of_nat n)).
End ofb.

Section ofb_facts.
Context (block : list Z -> list Z) `{!BlockFn block}.

(** Within a block the step only masks and counts. *)
Lemma ofb_run_within : forall inp iv n,
  length iv = 16%nat -> (0 < n < 16)%nat -> (n + length inp <= 16)%nat ->
  run (ofb_step block) (iv, n) inp =
    (xor_bytes inp (drop n iv), (iv, ((n + length inp) mod 16)%nat)).
Proof.
  induction inp as [|b r IH]; intros iv n Hiv Hn Hl.
  - cbn [length run]. by rewrite Nat.add_0_r, Nat.mod_small by lia.
  - cbn [run ofb_step length] in *. destruct (Nat.eqb_spec n 0); [lia|].
    rewrite (drop_byte_at iv n) by lia. destruct (decide (n = 15%nat)) as [->|].
    + destruct r; [done|simpl in Hl; lia].
    + rewrite (Nat.mod_small (n + 1)) by lia. rewrite IH by lia.
      rewrite Nat.add_1_r. by replace (n + S (length r))%nat with (S n + length r)%nat by lia.
Qed.

(** At the start of a block. *)
Lemma ofb_run_block inp iv :
  nbytes 16 iv -> (0 < length inp <= 16)%nat ->
  run (ofb_step block) (iv, 0%nat) inp =
    (xor_bytes inp (block iv), (block iv, (length inp mod 16)%nat)).
Proof.
  intros Hiv Hl. pose proof (block_ok iv Hiv) as [Hb _]. destruct inp as [|b r]; [simpl in Hl; lia|].
  cbn [run ofb_step length Nat.eqb] in *. rewrite ofb_run_within by (done || simpl; lia).
  rewrite <- (drop_0 (block iv)) at 4. by rewrite (drop_byte_at (block iv) 0) by lia.
Qed.

(** The three parts of the fast path. *)
Lemma ofb_head_run : forall inp iv n,
  nbytes 16 iv -> (n < 16)%nat ->
  let '(out, rest, n') := ofb_head inp iv n in
  exists pre, inp = pre ++ rest /\ run (ofb_step block) (iv, n) pre = (out, (iv, n')) /\
    (n' < 16)%nat /\ (rest <> [] -> n' = 0%nat).
Proof.
  induction inp as [|b r IH]; intros iv n Hiv Hn; cbn [ofb_head].
  - exists []. split_and!; done.
  - destruct (Nat.eqb_spec n 0) as [->|Hn0]; [by exists []|].
    assert (Hm : ((n + 1) mod 16 < 16)%nat) by (apply Nat.mod_upper_bound; lia).
    specialize (IH iv ((n + 1) mod 16)%nat Hiv Hm).
    destruct (ofb_head r iv _) as [[out rest] n']. destruct IH as (pre & -> & E & ? & ?).
    exists (b :: pre). split_and!; try done. cbn [run ofb_step].
    destruct (Nat.eqb_spec n 0); [lia|]. by rewrite E.
Qed.

Lemma ofb_blocks_run k : forall inp iv,
  nbytes 16 iv -> bytes inp -> (16 * k <= length inp)%nat ->
  nbytes 16 (snd (ofb_blocks block k inp iv)) /\
  run (ofb_step block) (iv, 0%nat) (take (16 * k) inp) =
    (fst (ofb_blocks block k inp iv), (snd (ofb_blocks block k inp iv), 0%nat)).
Proof.
  induction k as [|k IH]; intros inp iv Hiv Hin Hl; [done|].
  replace (16 * S k)%nat with (16 + 16 * k)%nat in * by lia.
  destruct (IH (drop 16 inp) (block iv) (block_ok _ Hiv) (bytes_drop _ _ Hin)
    ltac:(rewrite length_drop; lia)) as [Hk Hrun].
  cbn [ofb_blocks]. destruct (ofb_blocks block k _ _) as [rest iv'].
  split; [done|]. rewrite <- take_take_drop.
  assert (Ht : nbytes 16 (take 16 inp)) by (split; [rewrite length_take; lia|by apply bytes_take]).
  rewrite xor_words_16 by (done || by apply block_ok).
  eapply run_app_eq; [|exact Hrun]. destruct Ht as [Ht _].
  rewrite ofb_run_block by (done || lia). by rewrite Ht.
Qed.

Lemma ofb_fast_run inp st :
  stream_ok st -> bytes inp ->
  ofb_fast block inp st = run (ofb_step block) st inp /\
  stream_ok (snd (ofb_fast block inp st)).
Proof.
  intros [Hiv Hn] Hin. destruct st as [iv n]. simpl in Hiv, Hn. unfold ofb_fast.
  pose proof (ofb_head_run inp iv n Hiv Hn) as Hh.
  destruct (ofb_head inp iv n) as [[out1 inp1] n1].
  destruct Hh as (pre & -> & Hpre & Hn1 & Hz). apply bytes_app in Hin as [_ Hin].
  pose proof (Nat.div_mod_eq (length inp1) 16) as Hdm.
  pose proof (Nat.mod_upper_bound (length inp1) 16 ltac:(lia)) as Hmod.
  set (k := (length inp1 / 16)%nat) in *.
  destruct (ofb_blocks_run k inp1 iv Hiv Hin ltac:(lia)) as [Hiv2 Hb].
  destruct (ofb_blocks block k inp1 iv) as [out2 iv2]. cbn [fst snd] in *.
  assert (Hrest : length (drop (16 * k) inp1) = (length inp1 mod 16)%nat)
    by (rewrite length_drop; lia).
  rewrite Hrest.
  destruct (decide (inp1 = [])) as [->|Hne].
  { simpl in *. injection Hb as <- <-. rewrite run_app, Hpre. simpl. done. }
  rewrite (Hz Hne) in *.
  assert (Hall : run (ofb_step block) (iv, n) (pre ++ take (16 * k) inp1) =
    (out1 ++ out2, (iv2, 0%nat))) by (by eapply run_app_eq).
  assert (Hsplit : pre ++ inp1 = (pre ++ take (16 * k) inp1) ++ drop (16 * k) inp1)
    by (by rewrite <- app_assoc, take_drop).
  rewrite Hsplit.
  destruct (Nat.eqb_spec (length inp1 mod 16) 0) as [E|E].
  - rewrite (nil_length_inv (drop (16 * k) inp1)) by lia. rewrite app_nil_r, Hall. done.
  - split; [|split; simpl; [by apply block_ok|lia]]. symmetry.
    rewrite app_assoc. eapply run_app_eq; [exact Hall|].
    rewrite ofb_run_block by (done || lia). rewrite drop_0, Hrest, (Nat.mod_small (_ mod _)) by lia.
    done.
Qed.

Lemma ofb_step_inverse st b :
  stream_ok st -> is_byte b ->
  stream_ok (snd (ofb_step block st b)) /\
  ofb_step block st (fst (ofb_step block st b)) = (b, snd (ofb_step block st b)).
Proof.
  intros [Hiv Hn] Hb. destruct st as [iv n]. unfold stream_ok in *. cbn [ofb_step fst snd] in *.
  rewrite lxor_cancel_r. split; [|done]. split.
  - destruct (n =? 0)%nat; [by apply block_ok|done].
  - apply Nat.mod_upper_bound. lia.
Qed.

Lemma ofb_run_ok : forall inp st,
  stream_ok st -> bytes inp -> stream_ok (snd (run (ofb_step block) st inp)).
Proof. intros inp st Hst Hin. destruct (ofb_fast_run inp st Hst Hin) as [<- H]. exact H. Qed.

(** A call, in either build, runs the step over its input. *)
Lemma ofb_encrypt_run strict inp st :
  stream_ok st -> bytes inp ->
  CRYPTO_ofb128_encrypt block strict inp (fst st) (Z.of_nat (snd st)) =
    (fst (run (ofb_step block) st inp),
     (fst (snd (run (ofb_step block) st inp)),
      Z.of_nat (snd (snd (run (ofb_step block) st inp))))).
Proof.
  intros Hst Hin. unfold CRYPTO_ofb128_encrypt. zcases. rewrite Nat2Z.id.
  rewrite <- surjective_pairing. destruct (ofb_fast_run inp st Hst Hin) as [-> _].
  destruct strict; by destruct (run _ _ _) as [? [? ?]].
Qed.

Definition ofb_call (strict : bool) (inp : list Z) (st : list Z * Z) : list Z * (list Z * Z) :=
  CRYPTO_ofb128_encrypt block strict inp (fst st) (snd st).

Lemma ofb_feed_run strict chunks iv n :
  nbytes 16 iv -> (n < 16)%nat -> Forall bytes chunks ->
  fst (feed (ofb_call strict) (iv, Z.of_nat n) chunks) =
  fst (run (ofb_step block) (iv, n) (concat chunks)).
Proof.
  intros Hiv Hn Hc.
  rewrite (feed_run (fun st => (fst st, Z.of_nat (snd st))) stream_ok bytes
    (ofb_call strict) (ofb_step block)) with (st := (iv, n)); [done| |done|done].
  intros c st Hst Hb. split; [by apply ofb_encrypt_run|by apply ofb_run_ok].
Qed.

(** Output feedback: a text that is encrypted in any chunks and decrypted
    in any other chunks, by the word-wise or the byte-wise build and from any
    position in the key stream, comes out unchanged. *)
Theorem ofb128_chunked_roundtrip strict strict' iv n cs ds :
  nbytes 16 iv -> (n < 16)%nat -> Forall bytes cs -> Forall bytes ds ->
  concat ds = fst (feed (ofb_call strict) (iv, Z.of_nat n) cs) ->
  fst (feed (ofb_call strict') (iv, Z.of_nat n) ds) = concat cs.
Proof.
  intros Hiv Hn Hcs Hds E. rewrite !ofb_feed_run in * by done. rewrite E.
  by rewrite (run_inverse stream_ok _ _ is_byte)
    by (apply ofb_step_inverse || done || by apply bytes_concat).
Qed.
End ofb_facts.

(** Twenty-five bytes, encrypted in chunks of 7 and 18 and decrypted in one. *)
Lemma ofb128_chunked_roundtrip_witness :
  let iv := seqZ 1 16 in
  let cs := [seqZ 10 7; seqZ 100 18] in
  let ds := [fst (feed (ofb_call toy_enc false) (iv, 3) cs)] in
  Forall bytes ds /\ fst (feed (ofb_call toy_enc true) (iv, 3) ds) = concat cs.
Proof.
  intros iv cs ds.
  assert (Hds : Forall bytes ds) by solve_closed.
  split; [exact Hds|].
  apply (ofb128_chunked_roundtrip toy_enc false true iv 3 cs ds); [solve_closed|lia| |exact Hds|].
  - solve_closed.
  - apply app_nil_r.
Defined.
