(* ===== verification/Cfb128.v ===== *)
(** * Cipher feedback (openssl crypto/modes/cfb128.c)

    The 128-bit mode with its word-wise and byte-wise paths, and the 8-bit and
    1-bit modes, which shift the feedback register by that many bits. *)

From S2P Require Import Prelude Bytes Stream.

Section cfb.
Context (block : list Z -> list Z).

(** One turn of the byte loops: the register takes up the ciphertext byte,
    which is the output when encrypting ([enc]) and the input otherwise. *)
Definition cfb_step (enc : bool) (st : list Z * nat) (b : Z) : Z * (list Z * nat) :=
  let '(ivec, n) := st in
  let ivec := if (n =? 0)%nat then block ivec else ivec in
  let o := Z.lxor (byte_at ivec n) b in
  (o, (<[n := if enc then o else b]> ivec, ((n + 1) mod 16)%nat)).

(** [while (n && len)] *)
Fixpoint cfb_head (enc : bool) (inp ivec : list Z) (n : nat)
  : list Z * list Z * list Z * nat :=
  match inp with
  | [] => ([], [], ivec, n)
  | b :: r =>
      if (n =? 0)%nat then ([], inp, ivec, n)
      else
        let o := Z.lxor (byte_at ivec n) b in
        let ivec := <[n := if enc then o else b]> ivec in
        let '(out, rest, ivec', n') := cfb_head enc r ivec ((n + 1) mod 16) in
        (o :: out, rest, ivec', n')
  end.

(** [while (len >= 16)], [k] times. *)
Fixpoint cfb_blocks (enc : bool) (k : nat) (inp ivec : list Z) : list Z * list Z :=
  match k with
  | O => ([], ivec)
  | S k' =>
      let out := xor_words 2 (block ivec) (take 16 inp) in
      let ivec := if enc then out else take 16 inp in
      let '(rest, ivec') := cfb_blocks enc k' (drop 16 inp) ivec in
      (out ++ rest, ivec')
  end.

Definition cfb_fast (enc : bool) (inp : list Z) (st : list Z * nat)
  : list Z * (list Z * nat) :=
  let '(ivec, n) := st in
  let '(out1, inp1, ivec1, n1) := cfb_head enc inp ivec n in
  let k := (length inp1 / 16)%nat in
  let '(out2, ivec2) := cfb_blocks enc k inp1 ivec1 in
  let rest := drop (16 * k) inp1 in
  if (length rest =? 0)%nat then (out1 ++ out2, (ivec2, n1))
  else
    let ivec3 := block ivec2 in
    let out3 := xor_bytes (drop n1 ivec3) rest in
    (out1 ++ out2 ++ out3,
     (blit n1 (if enc then out3 else rest) ivec3, (n1 + length rest)%nat)).

Definition CRYPTO_cfb128_encrypt (strict : bool) (inp ivec : list Z) (num : Z) (enc : bool)
  : list Z * (list Z * Z) :=
  if num <? 0 then ([], (ivec, -1))
  else
    let st := (ivec, Z.to_nat num) in
    let '(out, (ivec', n)) :=
      if strict then run (cfb_step enc) st inp else cfb_fast enc inp st in
    (out, (ivec', Z.of_nat n)).

(** [cfbr_encrypt_block]: [junk] is what the upper half of [ovec] holds before
    it is written. *)
Definition cfbr_encrypt_block (junk inp : list Z) (nbits : Z) (ivec : list Z) (enc : bool)
  : list Z * list Z :=
  if (nbits <=? 0) || (128 <? nbits) then ([], ivec)
  else
    let ivec1 := block ivec in
    let num := Z.to_nat ((nbits + 7) / 8) in
    let out := xor_bytes (take num inp) ivec1 in
    let ovec := ivec ++ blit 0 (if enc then out else take num inp) junk in
    let rem := nbits mod 8 in
    let num := Z.to_nat (nbits / 8) in
    (out,
     if rem =? 0 then take 16 (drop num ovec)
     else map (fun n => u8 (Z.lor (Z.shiftl (byte_at ovec (n + num)) rem)
                              (Z.shiftr (byte_at ovec (n + num + 1)) (8 - rem))))
            (seq 0 16)).

(** The loop of [CRYPTO_cfb128_8_encrypt]. *)
Fixpoint CRYPTO_cfb128_8_encrypt (junk inp ivec : list Z) (enc : bool) : list Z * list Z :=
  match inp with
  | [] => ([], ivec)
  | b :: r =>
      let '(o, ivec1) := cfbr_encrypt_block junk [b] 8 ivec enc in
      let '(os, ivec2) := CRYPTO_cfb128_8_encrypt junk r ivec1 enc in
      (o ++ os, ivec2)
  end.

(** Bit [n] of a packed bit string, the highest bit of a byte first. *)
Definition get_bit (inp : list Z) (n : nat) : Z :=
  if Z.land (byte_at inp (n / 8)) (Z.shiftl 1 (7 - Z.of_nat (n mod 8))) =? 0 then 0 else 0x80.

Definition put_bit (out : list Z) (n : nat) (d : Z) : list Z :=
  <[(n / 8)%nat :=
      u8 (Z.lor (Z.land (byte_at out (n / 8)) (Z.lnot (Z.shiftl 1 (7 - Z.of_nat (n mod 8)))))
            (Z.shiftr (Z.land d 0x80) (Z.of_nat (n mod 8))))]> out.

(** The loop of [CRYPTO_cfb128_1_encrypt], from bit [n] on, [left] times. *)
Fixpoint cfb1_loop (junk inp : list Z) (enc : bool) (n left : nat) (out ivec : list Z)
  : list Z * list Z :=
  match left with
  | O => (out, ivec)
  | S left' =>
      let '(d, ivec1) := cfbr_encrypt_block junk [get_bit inp n] 1 ivec enc in
      cfb1_loop junk inp enc (S n) left' (put_bit out n (byte_at d 0)) ivec1
  end.

Definition CRYPTO_cfb128_1_encrypt (junk inp : list Z) (bits : nat) (out ivec : list Z)
    (enc : bool) : list Z * list Z :=
  cfb1_loop junk inp enc 0 bits out ivec.
End cfb.

Section cfb_facts.
Context (block : list Z -> list Z) `{!BlockFn block}.

(** Writing one byte and then the others. *)
Lemma blit_cons (n : nat) (x : Z) (w iv : list Z) :
  (n < length iv)%nat -> blit (S n) w (<[n := x]> iv) = blit n (x :: w) iv.
Proof.
  intros Hn. unfold blit. rewrite (insert_take_drop iv n x) by done.
  assert (Hlt : length (take n iv) = n) by (rewrite length_take; lia).
  rewrite take_app_ge by lia. rewrite Hlt. replace (S n - n)%nat with 1%nat by lia.
  rewrite drop_app_ge by lia. rewrite Hlt.
  replace (S n + length w - n)%nat with (S (length w)) by lia. simpl.
  rewrite drop_drop, <- app_assoc. simpl. by rewrite Nat.add_succ_r.
Qed.

Lemma cfb_run_within enc : forall inp iv n,
  length iv = 16%nat -> (0 < n < 16)%nat -> (n + length inp <= 16)%nat ->
  let out := xor_bytes (drop n iv) inp in
  run (cfb_step block enc) (iv, n) inp =
    (out, (blit n (if enc then out else inp) iv, ((n + length inp) mod 16)%nat)).
Proof.
  induction inp as [|b r IH]; intros iv n Hiv Hn Hl.
  - cbn [length run] in *. rewrite Nat.add_0_r, Nat.mod_small by lia.
    rewrite (xor_bytes_comm _ []). simpl. destruct enc; by rewrite blit_nil.
  - cbn [run cfb_step length] in *. destruct (Nat.eqb_spec n 0); [lia|].
    rewrite (drop_byte_at iv n) by lia. cbn zeta.
    change (xor_bytes (?x :: ?a) (?y :: ?c)) with (Z.lxor x y :: xor_bytes a c).
    set (o := Z.lxor (byte_at iv n) b). set (x := if enc then o else b).
    replace (if enc then o :: xor_bytes (drop (S n) iv) r else b :: r)
      with (x :: if enc then xor_bytes (drop (S n) iv) r else r) by (unfold x; by destruct enc).
    rewrite <- blit_cons by lia.
    destruct (decide (n = 15%nat)) as [->|].
    + destruct r; [|simpl in Hl; lia]. simpl run. rewrite (xor_bytes_comm _ []). simpl.
      f_equal. f_equal. destruct enc; by rewrite blit_nil.
    + rewrite (Nat.mod_small (n + 1)) by lia. rewrite IH by (rewrite ?length_insert; lia).
      cbn zeta. rewrite Nat.add_1_r, drop_insert_lt by lia.
      by replace (n + S (length r))%nat with (S n + length r)%nat by lia.
Qed.

(** What the register holds after [inp] was written over it from [n] on. *)
Lemma blit_whole (w iv : list Z) : length w = length iv -> blit 0 w iv = w.
Proof. intros H. unfold blit. rewrite drop_ge by (simpl; lia). simpl. apply app_nil_r. Qed.

Lemma nbytes_blit k n w iv :
  nbytes k iv -> bytes w -> (n + length w <= k)%nat -> nbytes k (blit n w iv).
Proof.
  intros [Hl Hb] Hw Hn. split; [rewrite length_blit; lia|].
  unfold blit. apply bytes_app. split; [by apply bytes_take|].
  apply bytes_app. split; [done|by apply bytes_drop].
Qed.

Lemma cfb_run_block enc inp iv :
  nbytes 16 iv -> (0 < length inp <= 16)%nat ->
  let out := xor_bytes (block iv) inp in
  run (cfb_step block enc) (iv, 0%nat) inp =
    (out, (blit 0 (if enc then out else inp) (block iv), (length inp mod 16)%nat)).
Proof.
  intros Hiv Hl. pose proof (block_ok iv Hiv) as [Hb _].
  destruct inp as [|b r]; [simpl in Hl; lia|].
  cbn [run cfb_step length Nat.eqb] in *.
  rewrite cfb_run_within by (rewrite ?length_insert; simpl; lia).
  cbn zeta. change ((0 + 1) mod 16)%nat with 1%nat. rewrite drop_insert_lt by lia.
  assert (Hx : xor_bytes (block iv) (b :: r) =
    Z.lxor (byte_at (block iv) 0) b :: xor_bytes (drop 1 (block iv)) r)
    by (by destruct (block iv)).
  rewrite Hx, blit_cons by lia. f_equal. f_equal. by destruct enc.
Qed.

Lemma cfb_head_run enc : forall inp iv n,
  nbytes 16 iv -> (n < 16)%nat -> bytes inp ->
  let '(out, rest, iv', n') := cfb_head enc inp iv n in
  exists pre, inp = pre ++ rest /\ run (cfb_step block enc) (iv, n) pre = (out, (iv', n')) /\
    nbytes 16 iv' /\ (n' < 16)%nat /\ (rest <> [] -> n' = 0%nat).
Proof.
  induction inp as [|b r IH]; intros iv n Hiv Hn Hin; cbn [cfb_head].
  - exists []. split_and!; try done; apply Hiv.
  - destruct (Nat.eqb_spec n 0) as [->|Hn0]; [exists []; split_and!; (done || apply Hiv)|].
    inversion_clear Hin as [|? ? Hb Hr].
    assert (Hm : ((n + 1) mod 16 < 16)%nat) by (apply Nat.mod_upper_bound; lia).
    set (o := Z.lxor (byte_at iv n) b).
    assert (Hiv' : nbytes 16 (<[n := if enc then o else b]> iv)).
    { apply nbytes_insert; [done|]. destruct enc; [|done].
      apply is_byte_lxor; [by eapply byte_at_is_byte|done]. }
    specialize (IH _ ((n + 1) mod 16)%nat Hiv' Hm Hr).
    destruct (cfb_head enc r _ _) as [[[out rest] iv'] n'].
    destruct IH as (pre & -> & E & ? & ? & ?).
    exists (b :: pre). split_and!; try done. cbn [run cfb_step].
    destruct (Nat.eqb_spec n 0); [lia|]. fold o. by rewrite E.
Qed.

Lemma cfb_blocks_run enc k : forall inp iv,
  nbytes 16 iv -> bytes inp -> (16 * k <= length inp)%nat ->
  nbytes 16 (snd (cfb_blocks block enc k inp iv)) /\
  run (cfb_step block enc) (iv, 0%nat) (take (16 * k) inp) =
    (fst (cfb_blocks block enc k inp iv), (snd (cfb_blocks block enc k inp iv), 0%nat)).
Proof.
  induction k as [|k IH]; intros inp iv Hiv Hin Hl; [done|].
  replace (16 * S k)%nat with (16 + 16 * k)%nat in * by lia. cbn [cfb_blocks].
  assert (Ht : nbytes 16 (take 16 inp)) by (split; [rewrite length_take; lia|by apply bytes_take]).
  pose proof (block_ok iv Hiv) as Hb.
  rewrite xor_words_16 by done. pose proof (nbytes_xor _ _ _ Hb Ht) as Ho.
  assert (Hiv' : nbytes 16 (if enc then xor_bytes (block iv) (take 16 inp) else take 16 inp))
    by (by destruct enc).
  destruct (IH (drop 16 inp) _ Hiv' (bytes_drop _ _ Hin) ltac:(rewrite length_drop; lia))
    as [Hk Hrun].
  destruct (cfb_blocks block enc k _ _) as [rest iv']. split; [done|].
  rewrite <- take_take_drop. eapply run_app_eq; [|exact Hrun].
  destruct Ht as [Ht _], Hb as [Hb _], Ho as [Ho _].
  rewrite cfb_run_block by (done || lia). cbn zeta. rewrite Ht, blit_whole; [done|].
  destruct enc; lia.
Qed.

Lemma cfb_fast_run enc inp st :
  stream_ok st -> bytes inp ->
  cfb_fast block enc inp st = run (cfb_step block enc) st inp /\
  stream_ok (snd (cfb_fast block enc inp st)).
Proof.
  intros [Hiv Hn] Hin. destruct st as [iv n]. simpl in Hiv, Hn. unfold cfb_fast.
  pose proof (cfb_head_run enc inp iv n Hiv Hn Hin) as Hh.
  destruct (cfb_head enc inp iv n) as [[[out1 inp1] iv1] n1].
  destruct Hh as (pre & -> & Hpre & Hiv1 & Hn1 & Hz). apply bytes_app in Hin as [_ Hin].
  pose proof (Nat.div_mod_eq (length inp1) 16) as Hdm.
  pose proof (Nat.mod_upper_bound (length inp1) 16 ltac:(lia)) as Hmod.
  set (k := (length inp1 / 16)%nat) in *.
  destruct (cfb_blocks_run enc k inp1 iv1 Hiv1 Hin ltac:(lia)) as [Hiv2 Hb].
  destruct (cfb_blocks block enc k inp1 iv1) as [out2 iv2]. cbn [fst snd] in *.
  assert (Hrest : length (drop (16 * k) inp1) = (length inp1 mod 16)%nat)
    by (rewrite length_drop; lia).
  rewrite Hrest.
  destruct (decide (inp1 = [])) as [->|Hne].
  { simpl in *. injection Hb as <- <-. rewrite run_app, Hpre. simpl. done. }
  rewrite (Hz Hne) in *.
  assert (Hall : run (cfb_step block enc) (iv, n) (pre ++ take (16 * k) inp1) =
    (out1 ++ out2, (iv2, 0%nat))) by (by eapply run_app_eq).
  assert (Hsplit : pre ++ inp1 = (pre ++ take (16 * k) inp1) ++ drop (16 * k) inp1)
    by (by rewrite <- app_assoc, take_drop).
  rewrite Hsplit.
  destruct (Nat.eqb_spec (length inp1 mod 16) 0) as [E|E].
  - rewrite (nil_length_inv (drop (16 * k) inp1)) by lia. rewrite app_nil_r, Hall. done.
  - pose proof (block_ok iv2 Hiv2) as Hb2. split.
    + symmetry. rewrite app_assoc. eapply run_app_eq; [exact Hall|].
      rewrite cfb_run_block by (done || lia). cbn zeta.
      rewrite drop_0, Hrest, (Nat.mod_small (_ mod _)) by lia. done.
    + split; cbn [fst snd]; [|lia]. pose proof (bytes_drop (16 * k) _ Hin) as Hd.
      rewrite drop_0. apply nbytes_blit; [done| |].
      * destruct enc; [apply bytes_xor; [apply Hb2|done]|done].
      * destruct Hb2 as [Hb2 _], enc; rewrite ?length_xor_bytes; lia.
Qed.

Lemma cfb_run_ok enc inp st :
  stream_ok st -> bytes inp -> stream_ok (snd (run (cfb_step block enc) st inp)).
Proof. intros Hst Hin. destruct (cfb_fast_run enc inp st Hst Hin) as [<- H]. exact H. Qed.

Lemma cfb_step_inverse st b :
  stream_ok st -> is_byte b ->
  stream_ok (snd (cfb_step block true st b)) /\
  cfb_step block false st (fst (cfb_step block true st b)) = (b, snd (cfb_step block true st b)).
Proof.
  intros Hst Hb. split; [|destruct st as [iv n]; simpl; by rewrite lxor_cancel_l].
  pose proof (cfb_run_ok true [b] st Hst (bytes_singleton _ Hb)) as H.
  simpl in H. by destruct (cfb_step block true st b).
Qed.

Definition cfb_call (strict enc : bool) (inp : list Z) (st : list Z * Z)
  : list Z * (list Z * Z) :=
  CRYPTO_cfb128_encrypt block strict inp (fst st) (snd st) enc.

Lemma cfb_feed_run strict enc chunks iv n :
  nbytes 16 iv -> (n < 16)%nat -> Forall bytes chunks ->
  fst (feed (cfb_call strict enc) (iv, Z.of_nat n) chunks) =
  fst (run (cfb_step block enc) (iv, n) (concat chunks)).
Proof.
  intros Hiv Hn Hc.
  rewrite (feed_run (fun st => (fst st, Z.of_nat (snd st))) stream_ok bytes
    (cfb_call strict enc) (cfb_step block enc)) with (st := (iv, n)); [done| |done|done].
  intros c st Hst Hb. split; [|by apply cfb_run_ok].
  unfold cfb_call, CRYPTO_cfb128_encrypt. cbn [fst snd]. zcases. rewrite Nat2Z.id.
  rewrite <- surjective_pairing. destruct (cfb_fast_run enc c st Hst Hb) as [-> _].
  destruct strict; by destruct (run _ _ _) as [? [? ?]].
Qed.

(** Cipher feedback: a text encrypted in any chunks and decrypted in any
    other chunks, by either build and from any position in the block, comes out
    unchanged. *)
Theorem cfb128_chunked_roundtrip strict strict' iv n cs ds :
  nbytes 16 iv -> (n < 16)%nat -> Forall bytes cs -> Forall bytes ds ->
  concat ds = fst (feed (cfb_call strict true) (iv, Z.of_nat n) cs) ->
  fst (feed (cfb_call strict' false) (iv, Z.of_nat n) ds) = concat cs.
Proof.
  intros Hiv Hn Hcs Hds E. rewrite !cfb_feed_run in * by done. rewrite E.
  by rewrite (run_inverse stream_ok _ _ is_byte)
    by (apply cfb_step_inverse || done || by apply bytes_concat).
Qed.
End cfb_facts.

(** Twenty-five bytes, encrypted in chunks of 7 and 18 and decrypted in one. *)
Lemma cfb128_chunked_roundtrip_witness :
  let iv := seqZ 1 16 in
  let cs := [seqZ 10 7; seqZ 100 18] in
  let ds := [fst (feed (cfb_call toy_enc false true) (iv, 3) cs)] in
  Forall bytes ds /\ fst (feed (cfb_call toy_enc true false) (iv, 3) ds) = concat cs.
Proof.
  intros iv cs ds. assert (Hds : Forall bytes ds) by solve_closed.
  split; [exact Hds|].
  apply (cfb128_chunked_roundtrip toy_enc false true iv 3 cs ds);
    [solve_closed|lia|solve_closed|exact Hds|].
  apply app_nil_r.
Defined.

(** ** The 8-bit mode *)

Section cfb8_facts.
Context (block : list Z -> list Z) `{!BlockFn block}.

(** The register moves by one byte and takes up the ciphertext byte. *)
Lemma cfbr_8 junk b iv enc :
  nbytes 16 iv -> (0 < length junk)%nat ->
  let o := Z.lxor b (byte_at (block iv) 0) in
  cfbr_encrypt_block block junk [b] 8 iv enc =
    ([o], drop 1 iv ++ [if enc then o else b]).
Proof.
  intros Hiv Hj o. pose proof (block_ok iv Hiv) as [Hb _]. destruct Hiv as [Hl _].
  unfold cfbr_encrypt_block. change (take _ [b]) with [b].
  assert (Ho : xor_bytes [b] (block iv) = [o]) by (by destruct (block iv)).
  rewrite Ho. simpl (_ || _). cbn match. f_equal.
  change (8 mod 8 =? 0) with true. cbn match. change (Z.to_nat (8 / 8)) with 1%nat.
  rewrite drop_app_le by lia. destruct junk as [|j junk]; [simpl in Hj; lia|].
  assert (Hc : blit 0 (if enc then [o] else [b]) (j :: junk) =
    (if enc then o else b) :: junk) by (unfold blit; by destruct enc).
  rewrite Hc. rewrite take_app_ge by (rewrite length_drop; lia).
  rewrite length_drop, Hl. done.
Qed.

(** The 8-bit mode: what one side encrypts the other decrypts, byte by
    byte, and both registers stay equal; what the scratch buffer [ovec] held
    before does not matter. *)
Theorem cfb128_8_roundtrip junk junk' inp iv :
  (0 < length junk)%nat -> (0 < length junk')%nat -> bytes inp -> nbytes 16 iv ->
  let '(c, iv') := CRYPTO_cfb128_8_encrypt block junk inp iv true in
  CRYPTO_cfb128_8_encrypt block junk' c iv false = (inp, iv').
Proof.
  intros Hj Hj'. revert iv. induction inp as [|b r IH]; intros iv Hin Hiv; [done|].
  inversion_clear Hin as [|? ? Hb Hr]. cbn [CRYPTO_cfb128_8_encrypt].
  rewrite cfbr_8 by done. set (o := Z.lxor b (byte_at (block iv) 0)).
  assert (Ho : is_byte o).
  { apply is_byte_lxor; [done|]. by eapply byte_at_is_byte, block_ok. }
  assert (Hiv1 : nbytes 16 (drop 1 iv ++ [o])).
  { destruct Hiv as [Hl Hv]. split; [rewrite length_app, length_drop, Hl; done|].
    apply bytes_app. split; [by apply bytes_drop|by apply bytes_singleton]. }
  specialize (IH _ Hr Hiv1). destruct (CRYPTO_cfb128_8_encrypt _ _ r _ true) as [c iv'].
  cbn [app CRYPTO_cfb128_8_encrypt]. rewrite cfbr_8 by done. cbn zeta.
  assert (Hback : Z.lxor o (byte_at (block iv) 0) = b) by apply lxor_cancel_r.
  by rewrite Hback, IH.
Qed.
End cfb8_facts.

Lemma cfb128_8_roundtrip_witness :
  let inp := [1; 2; 255; 0; 7] in
  let iv := seqZ 1 16 in
  nbytes 16 iv /\
  fst (CRYPTO_cfb128_8_encrypt toy_enc [3]
    (fst (CRYPTO_cfb128_8_encrypt toy_enc [9; 9] inp iv true)) iv false) = inp.
Proof.
  intros inp iv. assert (Hiv : nbytes 16 iv) by solve_closed. split; [exact Hiv|].
  pose proof (cfb128_8_roundtrip toy_enc [9; 9] [3] inp iv) as H.
  destruct (CRYPTO_cfb128_8_encrypt toy_enc [9; 9] inp iv true) as [c iv'].
  simpl fst at 2. rewrite H; [reflexivity|simpl; lia|simpl; lia|solve_closed|exact Hiv].
Defined.

(** ** The 1-bit mode *)

(** Bit [n] of a packed string, as a boolean. *)
Definition bit_at (l : list Z) (n : nat) : bool :=
  Z.testbit (byte_at l (n / 8)) (7 - Z.of_nat (n mod 8)).

Lemma get_bit_spec l n : get_bit l n = if bit_at l n then 0x80 else 0.
Proof.
  unfold get_bit, bit_at. set (x := byte_at l _).
  assert (Hi : 0 <= 7 - Z.of_nat (n mod 8)).
  { pose proof (Nat.mod_upper_bound n 8). lia. }
  set (i := 7 - _) in *.
  assert (E : Z.land x (Z.shiftl 1 i) = if Z.testbit x i then 2 ^ i else 0).
  { rewrite Z.shiftl_1_l. apply Z.bits_inj'. intros j Hj. rewrite Z.land_spec.
    rewrite Z.pow2_bits_eqb by done. destruct (Z.eqb_spec i j) as [->|].
    - rewrite andb_true_r. destruct (Z.testbit x j); [|by rewrite Z.bits_0].
      by rewrite Z.pow2_bits_true.
    - rewrite andb_false_r. destruct (Z.testbit x i); [|by rewrite Z.bits_0].
      by rewrite Z.pow2_bits_false by lia. }
  rewrite E. destruct (Z.testbit x i); [|done].
  destruct (Z.eqb_spec (2 ^ i) 0); [|done]. pose proof (Z.pow_pos_nonneg 2 i). lia.
Qed.

Lemma testbit_u8 z i : 0 <= i < 8 -> Z.testbit (u8 z) i = Z.testbit z i.
Proof. intros Hi. apply Z.mod_pow2_bits_low. lia. Qed.

(** Writing a bit changes that bit and no other. *)
Lemma bit_at_put l n d m :
  (n / 8 < length l)%nat ->
  bit_at (put_bit l n d) m = if (m =? n)%nat then Z.testbit d 7 else bit_at l m.
Proof.
  intros Hn. unfold put_bit, bit_at. rewrite byte_at_insert by done.
  pose proof (Nat.mod_upper_bound n 8 ltac:(lia)). pose proof (Nat.mod_upper_bound m 8 ltac:(lia)).
  pose proof (Nat.div_mod_eq n 8). pose proof (Nat.div_mod_eq m 8).
  destruct (Nat.eqb_spec (m / 8) (n / 8)) as [E|E]; destruct (Nat.eqb_spec m n) as [Hmn|Hmn];
    try (exfalso; congruence); [| |done].
  - subst m. rewrite testbit_u8, Z.lor_spec, Z.land_spec, Z.lnot_spec by lia.
    rewrite Z.shiftl_1_l, Z.pow2_bits_true by lia. rewrite andb_false_r, orb_false_l.
    rewrite Z.shiftr_spec, Z.land_spec by lia.
    replace (7 - Z.of_nat (n mod 8) + Z.of_nat (n mod 8)) with 7 by lia.
    change 0x80 with (2 ^ 7). rewrite Z.pow2_bits_true by lia. apply andb_true_r.
  - rewrite E, testbit_u8, Z.lor_spec, Z.land_spec, Z.lnot_spec by lia.
    rewrite Z.shiftl_1_l, Z.pow2_bits_false by lia. rewrite andb_true_r.
    rewrite Z.shiftr_spec, Z.land_spec by lia. change 0x80 with (2 ^ 7).
    rewrite Z.pow2_bits_false by lia. by rewrite andb_false_r, orb_false_r.
Qed.

Section cfb1_facts.
Context (block : list Z -> list Z) `{!BlockFn block}.

(** The register shifted left by one bit, with [c] coming in. *)
Definition shift_in (iv : list Z) (c : bool) : list Z :=
  map (fun n => u8 (Z.lor (Z.shiftl (byte_at iv n) 1)
                     (if (n =? 15)%nat then Z.b2z c else Z.shiftr (byte_at iv (n + 1)) 7)))
    (seq 0 16).

Lemma nbytes_shift_in iv c : nbytes 16 (shift_in iv c).
Proof.
  split; [done|]. apply Forall_map, Forall_forall. intros n _.
  unfold is_byte, u8. simpl. apply Z.mod_pos_bound. lia.
Qed.

Lemma shiftr_7_byte x : is_byte x -> Z.shiftr x 7 = Z.b2z (Z.testbit x 7).
Proof.
  intros Hx. apply Z.bits_inj'. intros i Hi. rewrite Z.shiftr_spec by done.
  destruct (Z.eqb_spec i 0) as [->|].
  - change (0 + 7) with 7. by destruct (Z.testbit x 7).
  - rewrite testbit_byte by (done || lia).
    destruct (Z.testbit x 7); simpl; [|by rewrite Z.bits_0].
    by rewrite Z.bits_above_log2 by (simpl; lia).
Qed.

Lemma byte_at_app_l a b n : (n < length a)%nat -> byte_at (a ++ b) n = byte_at a n.
Proof. intros H. unfold byte_at. by rewrite app_nth1. Qed.

Lemma byte_at_app_r a b n :
  (length a <= n)%nat -> byte_at (a ++ b) n = byte_at b (n - length a).
Proof. intros H. unfold byte_at. by rewrite app_nth2. Qed.

Lemma cfbr_1 junk b iv enc :
  nbytes 16 iv -> (0 < length junk)%nat -> is_byte b ->
  let o := Z.lxor b (byte_at (block iv) 0) in
  cfbr_encrypt_block block junk [b] 1 iv enc =
    ([o], shift_in iv (Z.testbit (if enc then o else b) 7)).
Proof.
  intros Hiv Hj Hb o. pose proof (block_ok iv Hiv) as Hbl.
  assert (Hob : is_byte o) by (apply is_byte_lxor; [done|by eapply byte_at_is_byte]).
  unfold cfbr_encrypt_block. change (take _ [b]) with [b].
  assert (Ho : xor_bytes [b] (block iv) = [o]).
  { destruct Hbl as [Hl _]. by destruct (block iv). }
  rewrite Ho. simpl (_ || _). cbn match. f_equal.
  change (1 mod 8 =? 0) with false. cbn match. change (Z.to_nat (1 / 8)) with 0%nat.
  change (1 mod 8) with 1. change (8 - 1) with 7. unfold shift_in.
  apply map_ext_in. intros n Hn%in_seq. destruct Hiv as [Hl _].
  rewrite Nat.add_0_r, byte_at_app_l by lia. do 2 f_equal.
  destruct (Nat.eqb_spec n 15) as [->|].
  - rewrite byte_at_app_r by lia. rewrite Hl. destruct junk; [simpl in Hj; lia|].
    rewrite <- shiftr_7_byte by (by destruct enc). by destruct enc.
  - by rewrite byte_at_app_l by lia.
Qed.

(** The mode on a list of bits. *)
Fixpoint cfb1_bits (enc : bool) (bs : list bool) (iv : list Z) : list bool * list Z :=
  match bs with
  | [] => ([], iv)
  | b :: r =>
      let o := xorb b (Z.testbit (byte_at (block iv) 0) 7) in
      let '(os, iv') := cfb1_bits enc r (shift_in iv (if enc then o else b)) in
      (o :: os, iv')
  end.

Lemma cfb1_bits_inverse bs : forall iv,
  cfb1_bits false (fst (cfb1_bits true bs iv)) iv = (bs, snd (cfb1_bits true bs iv)).
Proof.
  induction bs as [|b r IH]; intros iv; [done|]. cbn [cfb1_bits].
  set (k := Z.testbit _ _). specialize (IH (shift_in iv (xorb b k))).
  destruct (cfb1_bits true r _) as [os iv'] eqn:E. cbn [fst snd cfb1_bits] in *. fold k.
  rewrite IH. by rewrite xorb_assoc, xorb_nilpotent, xorb_false_r.
Qed.

Lemma map_ext_seq {A} (f g : nat -> A) n k :
  (forall m, (n <= m < n + k)%nat -> f m = g m) -> map f (seq n k) = map g (seq n k).
Proof. intros H. apply map_ext_in. intros m Hm%in_seq. by apply H. Qed.

(** The loop over the packed bits does that. *)
Lemma cfb1_loop_bits junk inp enc : (0 < length junk)%nat -> forall left n out iv,
  nbytes 16 iv -> (n + left <= 8 * length out)%nat ->
  let '(out', iv') := cfb1_loop block junk inp enc n left out iv in
  cfb1_bits enc (map (bit_at inp) (seq n left)) iv = (map (bit_at out') (seq n left), iv') /\
  (forall m, (m < n)%nat -> bit_at out' m = bit_at out m).
Proof.
  intros Hj. induction left as [|left IH]; intros n out iv Hiv Hl; [done|].
  cbn [cfb1_loop]. rewrite get_bit_spec. set (b := bit_at inp n).
  rewrite cfbr_1 by (done || destruct b; unfold is_byte; lia).
  set (o := Z.lxor _ _). change (byte_at [o] 0) with o.
  assert (Hn8 : (n / 8 < length out)%nat) by (apply Nat.Div0.div_lt_upper_bound; lia).
  assert (Hout : length (put_bit out n o) = length out) by (apply length_insert).
  specialize (IH (S n) (put_bit out n o) _
    (nbytes_shift_in iv (Z.testbit (if enc then o else if b then 128 else 0) 7)) ltac:(lia)).
  destruct (cfb1_loop _ _ _ _ _ _ _ _) as [out' iv']. destruct IH as [IH Hold].
  assert (Ho : Z.testbit o 7 = xorb b (Z.testbit (byte_at (block iv) 0) 7)).
  { unfold o. rewrite Z.lxor_spec. by destruct b. }
  assert (Hc : Z.testbit (if enc then o else if b then 128 else 0) 7 =
    if enc then Z.testbit o 7 else b) by (destruct enc; [done|by destruct b]).
  split.
  - cbn [seq map cfb1_bits]. fold b. rewrite <- Ho. rewrite Hc in IH. rewrite IH.
    by rewrite Hold, bit_at_put, Nat.eqb_refl by (done || lia).
  - intros m Hm. rewrite Hold, bit_at_put by (done || lia).
    by destruct (Nat.eqb_spec m n); [lia|].
Qed.

(** The 1-bit mode: the bits of a packed string come back, whatever the
    output buffers held before and wherever the number of bits ends. *)
Theorem cfb128_1_roundtrip junk junk' inp bits buf buf' iv :
  (0 < length junk)%nat -> (0 < length junk')%nat -> nbytes 16 iv ->
  (bits <= 8 * length buf)%nat -> (bits <= 8 * length buf')%nat ->
  let '(c, iv') := CRYPTO_cfb128_1_encrypt block junk inp bits buf iv true in
  let '(p, iv'') := CRYPTO_cfb128_1_encrypt block junk' c bits buf' iv false in
  iv'' = iv' /\ forall n, (n < bits)%nat -> bit_at p n = bit_at inp n.
Proof.
  intros Hj Hj' Hiv Hb Hb'. unfold CRYPTO_cfb128_1_encrypt.
  pose proof (cfb1_loop_bits junk inp true Hj bits 0 buf iv Hiv ltac:(lia)) as H1.
  destruct (cfb1_loop _ _ _ true _ _ _ _) as [c iv']. destruct H1 as [H1 _].
  pose proof (cfb1_loop_bits junk' c false Hj' bits 0 buf' iv Hiv ltac:(lia)) as H2.
  destruct (cfb1_loop _ _ _ false _ _ _ _) as [p iv'']. destruct H2 as [H2 _].
  pose proof (cfb1_bits_inverse (map (bit_at inp) (seq 0 bits)) iv) as H3.
  rewrite H1 in H3. cbn [fst snd] in H3. rewrite H2 in H3. injection H3 as H3 ->.
  split; [done|]. intros n Hn.
  apply (f_equal (fun l => l !! n)) in H3.
  rewrite !list_lookup_fmap, !lookup_seq_lt in H3 by done. by injection H3.
Qed.
End cfb1_facts.

(** Thirteen bits. *)
Lemma cfb128_1_roundtrip_witness :
  let inp := [0xA5; 0x1B] in
  let c := fst (CRYPTO_cfb128_1_encrypt toy_enc [0] inp 13 [0; 0] (seqZ 1 16) true) in
  let p := fst (CRYPTO_cfb128_1_encrypt toy_enc [7] c 13 [255; 255] (seqZ 1 16) false) in
  bit_at p 12 = bit_at inp 12.
Proof.
  intros inp c p.
  pose proof (cfb128_1_roundtrip toy_enc [0] [7] inp 13 [0; 0] [255; 255] (seqZ 1 16)) as H.
  unfold p, c. destruct (CRYPTO_cfb128_1_encrypt toy_enc [0] inp _ _ _ true) as [c' iv'].
  cbn [fst]. destruct (CRYPTO_cfb128_1_encrypt toy_enc [7] c' _ _ _ false) as [p' iv''].
  apply H; [simpl; lia|simpl; lia|solve_closed|simpl; lia|simpl; lia|lia].
Defined.
