(* ===== verification/Ctr128.v ===== *)
(** * Counter mode (openssl crypto/modes/ctr128.c)

    The key stream is the encryption of a 128-bit big-endian counter.  The
    counter is incremented byte by byte or, on aligned big-endian machines, by
    words; a variant delegates whole runs of blocks to a routine that only
    counts in 32 bits and handles the carry itself. *)

From S2P Require Import Prelude Bytes Stream.

(** The [do ... while (n)] loop of both increments, from byte [n - 1] down. *)
Fixpoint inc_loop (n : nat) (c : Z) (counter : list Z) : list Z :=
  match n with
  | O => counter
  | S k =>
      let c := c + byte_at counter k in
      inc_loop k (Z.shiftr c 8) (<[k := u8 c]> counter)
  end.

Definition ctr128_inc (counter : list Z) : list Z := inc_loop 16 1 counter.

Definition ctr96_inc (counter : list Z) : list Z := inc_loop 12 1 counter.

(** The word loop of [ctr128_inc_aligned] on a big-endian machine: word [n - 1]
    and down, [c] the carry. *)
Fixpoint inc_words (n : nat) (c : Z) (counter : list Z) : list Z :=
  match n with
  | O => counter
  | S k =>
      let d := u64 (be_get (take 8 (drop (8 * k) counter)) + c) in
      let c := Z.shiftr (Z.land (u64 (d - c)) (u64 (Z.lnot d))) 63 in
      inc_words k c (blit (8 * k) (be_put 8 d) counter)
  end.

Definition ctr128_inc_aligned (little_endian misaligned : bool) (counter : list Z) : list Z :=
  if little_endian || misaligned then ctr128_inc counter else inc_words 2 1 counter.

(** [GETU32] and [PUTU32] at offset 12 *)
Definition get_ctr32 (ivec : list Z) : Z := be_get (take 4 (drop 12 ivec)).
Definition put_ctr32 (ivec : list Z) (v : Z) : list Z := blit 12 (be_put 4 v) ivec.

Section ctr.
Context (block : list Z -> list Z).

(** [ivec], [ecount_buf] and [num] *)
Record ctr_state := mkCtr { ct_ivec : list Z; ct_ecount : list Z; ct_num : nat }.

(** One turn of the byte loop. *)
Definition ctr_step (st : ctr_state) (b : Z) : Z * ctr_state :=
  let st1 := if (ct_num st =? 0)%nat
             then mkCtr (ctr128_inc (ct_ivec st)) (block (ct_ivec st)) (ct_num st)
             else st in
  (Z.lxor b (byte_at (ct_ecount st1) (ct_num st1)),
   mkCtr (ct_ivec st1) (ct_ecount st1) ((ct_num st1 + 1) mod 16)).

(** [while (n && len)] *)
Fixpoint ctr_head (inp ecount : list Z) (n : nat) : list Z * list Z * nat :=
  match inp with
  | [] => ([], [], n)
  | b :: r =>
      if (n =? 0)%nat then ([], inp, n)
      else
        let '(out, rest, n') := ctr_head r ecount ((n + 1) mod 16) in
        (Z.lxor b (byte_at ecount n) :: out, rest, n')
  end.

(** [while (len >= 16)], [k] times; [inc] is [ctr128_inc_aligned]. *)
Fixpoint ctr_blocks (inc : list Z -> list Z) (k : nat) (inp ivec ecount : list Z)
  : list Z * list Z * list Z :=
  match k with
  | O => ([], ivec, ecount)
  | S k' =>
      let ecount := block ivec in
      let out := xor_words 2 (take 16 inp) ecount in
      let '(rest, ivec', ecount') := ctr_blocks inc k' (drop 16 inp) (inc ivec) ecount in
      (out ++ rest, ivec', ecount')
  end.

Definition ctr_fast (inc : list Z -> list Z) (inp : list Z) (st : ctr_state)
  : list Z * ctr_state :=
  let '(out1, inp1, n1) := ctr_head inp (ct_ecount st) (ct_num st) in
  let k := (length inp1 / 16)%nat in
  let '(out2, ivec2, ecount2) := ctr_blocks inc k inp1 (ct_ivec st) (ct_ecount st) in
  let rest := drop (16 * k) inp1 in
  if (length rest =? 0)%nat then (out1 ++ out2, mkCtr ivec2 ecount2 n1)
  else
    let ecount3 := block ivec2 in
    (out1 ++ out2 ++ xor_bytes rest (drop n1 ecount3),
     mkCtr (inc ivec2) ecount3 (n1 + length rest)).

Definition CRYPTO_ctr128_encrypt (strict little_endian misaligned : bool) (inp : list Z)
    (st : ctr_state) : list Z * ctr_state :=
  if strict then run ctr_step st inp
  else ctr_fast (ctr128_inc_aligned little_endian misaligned) inp st.

(** The loop of [CRYPTO_ctr128_encrypt_ctr32] on whole blocks; [func] encrypts a
    number of blocks from a counter block. *)
Fixpoint ctr32_loop (fuel : nat) (func : list Z -> nat -> list Z -> list Z)
    (inp ivec : list Z) (ctr32 : Z) : list Z * list Z * list Z * Z :=
  match fuel with
  | O => ([], inp, ivec, ctr32)
  | S f =>
      if (length inp <? 16)%nat then ([], inp, ivec, ctr32)
      else
        let blocks := Z.of_nat (length inp / 16) in
        let blocks := if 2 ^ 28 <? blocks then 2 ^ 28 else blocks in
        let ctr32 := u32 (ctr32 + u32 blocks) in
        let '(blocks, ctr32) :=
          if ctr32 <? blocks then (blocks - ctr32, 0) else (blocks, ctr32) in
        let n := Z.to_nat blocks in
        let out := func inp n ivec in
        let ivec := put_ctr32 ivec ctr32 in
        let ivec := if ctr32 =? 0 then ctr96_inc ivec else ivec in
        let '(out', rest, ivec', ctr32') := ctr32_loop f func (drop (16 * n) inp) ivec ctr32 in
        (out ++ out', rest, ivec', ctr32')
  end.

Definition CRYPTO_ctr128_encrypt_ctr32 (func : list Z -> nat -> list Z -> list Z)
    (inp : list Z) (st : ctr_state) : list Z * ctr_state :=
  let '(out1, inp1, n1) := ctr_head inp (ct_ecount st) (ct_num st) in
  let ctr32 := get_ctr32 (ct_ivec st) in
  let '(out2, rest, ivec2, ctr32) := ctr32_loop (length inp1) func inp1 (ct_ivec st) ctr32 in
  if (length rest =? 0)%nat then (out1 ++ out2, mkCtr ivec2 (ct_ecount st) n1)
  else
    let ecount := func (replicate 16 0) 1%nat ivec2 in
    let ctr32 := u32 (ctr32 + 1) in
    let ivec3 := put_ctr32 ivec2 ctr32 in
    let ivec3 := if ctr32 =? 0 then ctr96_inc ivec3 else ivec3 in
    (out1 ++ out2 ++ xor_bytes rest (drop n1 ecount),
     mkCtr ivec3 ecount (n1 + length rest)).
End ctr.

(** ** The counter *)

Lemma length_inc_loop n : forall c l, length (inc_loop n c l) = length l.
Proof. induction n as [|n IH]; intros c l; simpl; [done|]. by rewrite IH, length_insert. Qed.

Lemma is_byte_u8 z : is_byte (u8 z).
Proof. unfold is_byte, u8. apply Z.mod_pos_bound. lia. Qed.

Lemma bytes_inc_loop n : forall c l, bytes l -> bytes (inc_loop n c l).
Proof.
  induction n as [|n IH]; intros c l Hl; simpl; [done|].
  apply IH. apply Forall_insert; [done|]. apply is_byte_u8.
Qed.

(** Bytes from [n] on are not touched. *)
Lemma drop_inc_loop n : forall c l, drop n (inc_loop n c l) = drop n l.
Proof.
  induction n as [|n IH]; intros c l; [done|]. cbn [inc_loop].
  replace (S n) with (n + 1)%nat by lia. rewrite <- !drop_drop, IH.
  rewrite drop_insert_ge, Nat.sub_diag by lia. by destruct (drop n l).
Qed.

Lemma take_S_byte l n : (n < length l)%nat -> take (S n) l = take n l ++ [byte_at l n].
Proof.
  intros Hn. erewrite take_S_r; [done|]. unfold byte_at. rewrite nth_lookup.
  by destruct (lookup_lt_is_Some_2 l n Hn) as [x ->].
Qed.

(** The loop adds [c] to the first [n] bytes, modulo their size. *)
Lemma be_get_inc_loop n : forall c l,
  bytes l -> (n <= length l)%nat -> 0 <= c <= 1 ->
  be_get (take n (inc_loop n c l)) = (be_get (take n l) + c) mod 256 ^ Z.of_nat n.
Proof.
  induction n as [|n IH]; intros c l Hb Hn Hc.
  { change (256 ^ Z.of_nat 0) with 1. by rewrite Z.mod_1_r. }
  cbn [inc_loop]. set (b := byte_at l n).
  assert (Hbb : is_byte b) by (eapply byte_at_is_byte; by split).
  set (l1 := <[n := u8 (c + b)]> l).
  assert (Hl1 : length l1 = length l) by (apply length_insert).
  rewrite (take_S_byte (inc_loop _ _ _)) by (rewrite length_inc_loop; lia).
  assert (Hat : byte_at (inc_loop n (Z.shiftr (c + b) 8) l1) n = u8 (c + b)).
  { pose proof (drop_inc_loop n (Z.shiftr (c + b) 8) l1) as Hd.
    rewrite (drop_byte_at (inc_loop _ _ _)), (drop_byte_at l1) in Hd
      by (rewrite ?length_inc_loop; lia).
    injection Hd as -> _. unfold l1, byte_at. by rewrite nth_lookup, list_lookup_insert_eq by lia. }
  rewrite Hat, (take_S_byte l) by lia. fold b. rewrite !be_get_snoc.
  assert (Hcar : Z.shiftr (c + b) 8 = (c + b) / 256) by (by rewrite Z.shiftr_div_pow2).
  unfold is_byte, u8 in *. rewrite IH; [|by apply Forall_insert, is_byte_u8|lia|].
  2: { rewrite Hcar. Z.div_mod_to_equations; lia. }
  unfold l1. rewrite take_insert_ge by lia. rewrite Hcar.
  rewrite Nat2Z.inj_succ, Z.pow_succ_r by lia.
  rewrite Z.rem_mul_r by (lia || apply Z.pow_pos_nonneg; lia).
  replace ((256 * be_get (take n l) + b + c) mod 256) with ((c + b) mod 2 ^ 8)
    by (Z.div_mod_to_equations; lia).
  replace ((256 * be_get (take n l) + b + c) / 256) with (be_get (take n l) + (c + b) / 256)
    by (Z.div_mod_to_equations; lia).
  lia.
Qed.

Lemma nbytes_ctr128_inc l : nbytes 16 l -> nbytes 16 (ctr128_inc l).
Proof.
  intros [Hl Hb]. unfold ctr128_inc.
  split; [by rewrite length_inc_loop|by apply bytes_inc_loop].
Qed.

Lemma be_get_ctr128_inc l :
  nbytes 16 l -> be_get (ctr128_inc l) = (be_get l + 1) mod 2 ^ 128.
Proof.
  intros [Hl Hb]. pose proof (be_get_inc_loop 16 1 l Hb ltac:(lia) ltac:(lia)) as H.
  rewrite !take_ge in H by (rewrite ?length_inc_loop; lia). exact H.
Qed.

(** [ctr96_inc] is the carry into the upper 96 bits. *)
Lemma be_get_ctr96_inc l :
  nbytes 16 l -> be_get (ctr96_inc l) =
    (be_get (take 12 l) + 1) mod 2 ^ 96 * 2 ^ 32 + be_get (drop 12 l).
Proof.
  intros [Hl Hb]. rewrite <- (take_drop 12 (ctr96_inc l)), be_get_app. unfold ctr96_inc.
  rewrite drop_inc_loop, be_get_inc_loop by (done || lia). by rewrite length_drop, Hl.
Qed.

(** The carry out of a word addition, as the code computes it. *)
Lemma word_carry x c :
  0 <= x < 2 ^ 64 -> 0 <= c <= 1 ->
  let d := u64 (x + c) in
  Z.shiftr (Z.land (u64 (d - c)) (u64 (Z.lnot d))) 63 = (x + c) / 2 ^ 64.
Proof.
  intros Hx Hc d. assert (Hd : 0 <= d < 2 ^ 64) by (apply Z.mod_pos_bound; lia).
  assert (Hn : u64 (Z.lnot d) = 2 ^ 64 - 1 - d).
  { unfold u64. replace (Z.lnot d) with (2 ^ 64 - 1 - d + (-1) * 2 ^ 64)
      by (pose proof (Z.add_lnot_diag d); lia).
    rewrite Z_mod_plus_full. apply Z.mod_small. lia. }
  rewrite Hn, Z.shiftr_land, !Z.shiftr_div_pow2 by lia.
  assert (c = 0 \/ c = 1) as [->| ->] by lia.
  - assert (Ed : d = x) by (unfold d; rewrite Z.add_0_r; apply Z.mod_small; lia).
    rewrite Ed, Z.sub_0_r, Z.add_0_r. unfold u64.
    rewrite (Z.mod_small x), (Z.div_small x (2 ^ 64)) by lia.
    assert (x / 2 ^ 63 = 0 \/ x / 2 ^ 63 = 1) as [E|E] by (Z.div_mod_to_equations; lia);
      rewrite E; [done|].
    replace ((2 ^ 64 - 1 - x) / 2 ^ 63) with 0; [done|].
    symmetry. apply Z.div_small. Z.div_mod_to_equations; lia.
  - destruct (Z.eq_dec x (2 ^ 64 - 1)) as [->|Hne]; [by vm_compute|].
    assert (Ed : d = x + 1) by (apply Z.mod_small; lia).
    rewrite (Z.div_small (x + 1) (2 ^ 64)) by lia. rewrite Ed, Z.add_simpl_r.
    unfold u64. rewrite (Z.mod_small x) by lia.
    assert (x / 2 ^ 63 = 0 \/ x / 2 ^ 63 = 1) as [E|E] by (Z.div_mod_to_equations; lia);
      rewrite E; [done|].
    replace ((2 ^ 64 - 1 - (x + 1)) / 2 ^ 63) with 0; [done|].
    symmetry. apply Z.div_small. Z.div_mod_to_equations; lia.
Qed.

Lemma nbytes_inc_words k : forall c l n,
  nbytes n l -> (8 * k <= n)%nat -> nbytes n (inc_words k c l).
Proof.
  induction k as [|k IH]; intros c l n [Hl Hb] Hk; [by split|].
  cbn [inc_words]. apply IH; [|lia]. set (w := be_put 8 _).
  destruct (nbytes_be_put 8 (u64 (be_get (take 8 (drop (8 * k) l)) + c))) as [Hw Hwb].
  fold w in Hw, Hwb. split; [rewrite length_blit; lia|]. unfold blit.
  apply bytes_app. split; [by apply bytes_take|]. apply bytes_app.
  split; [done|by apply bytes_drop].
Qed.

Lemma drop_inc_words k : forall c l,
  (8 * k <= length l)%nat -> drop (8 * k) (inc_words k c l) = drop (8 * k) l.
Proof.
  induction k as [|k IH]; intros c l Hk; [done|]. cbn [inc_words].
  set (w := be_put 8 _). assert (Hw : length w = 8%nat) by apply nbytes_be_put.
  replace (8 * S k)%nat with (8 * k + 8)%nat in * by lia.
  rewrite <- !drop_drop, IH by (rewrite length_blit; lia). unfold blit.
  rewrite drop_app_ge by (rewrite length_take; lia).
  rewrite length_take, Nat.min_l, Nat.sub_diag, drop_0 by lia.
  rewrite drop_app_ge, Hw, Nat.sub_diag, drop_0 by lia. by rewrite drop_drop.
Qed.

(** By words or by bytes: the same addition. *)
Lemma be_get_inc_words k : forall c l,
  bytes l -> (8 * k <= length l)%nat -> 0 <= c <= 1 ->
  be_get (take (8 * k) (inc_words k c l)) =
    (be_get (take (8 * k) l) + c) mod 256 ^ Z.of_nat (8 * k).
Proof.
  induction k as [|k IH]; intros c l Hb Hk Hc.
  { change (256 ^ Z.of_nat (8 * 0)) with 1. by rewrite Z.mod_1_r. }
  cbn [inc_words]. replace (8 * S k)%nat with (8 * k + 8)%nat in * by lia.
  set (x := be_get (take 8 (drop (8 * k) l))).
  assert (Hx : 0 <= x < 2 ^ 64).
  { pose proof (be_get_bounds (take 8 (drop (8 * k) l))) as H.
    rewrite length_take, length_drop, Nat.min_l in H by lia.
    apply H. by apply bytes_take, bytes_drop. }
  rewrite word_carry by done. set (d := u64 (x + c)). set (l1 := blit _ _ l).
  assert (Hw : length (be_put 8 d) = 8%nat) by apply nbytes_be_put.
  assert (Hl1 : length l1 = length l) by (apply length_blit; lia).
  assert (Hb1 : bytes l1).
  { unfold l1, blit. apply bytes_app. split; [by apply bytes_take|]. apply bytes_app.
    split; [apply nbytes_be_put|by apply bytes_drop]. }
  assert (Htk : forall m : list Z, take (8 * k + 8) m = take (8 * k) m ++ take 8 (drop (8 * k) m))
    by (intros m; by rewrite take_take_drop).
  rewrite !Htk, !be_get_app, drop_inc_words by lia.
  rewrite IH; [|done|lia|Z.div_mod_to_equations; lia].
  assert (Hd1 : take 8 (drop (8 * k) l1) = be_put 8 d).
  { unfold l1, blit. rewrite drop_app_ge by (rewrite length_take; lia).
    rewrite length_take, Nat.min_l, Nat.sub_diag, drop_0 by lia.
    by rewrite take_app_le, take_ge by lia. }
  assert (Ht1 : take (8 * k) l1 = take (8 * k) l).
  { unfold l1, blit. rewrite take_app_le by (rewrite length_take; lia). by rewrite take_take, Nat.min_id. }
  rewrite Hd1, Ht1, Hw. fold x.
  replace (length (take 8 (drop (8 * k) l))) with 8%nat by (rewrite length_take, length_drop; lia).
  rewrite be_get_put. unfold d, u64. change (256 ^ Z.of_nat 8) with (2 ^ 64).
  rewrite Zmod_mod, Nat2Z.inj_add, Z.pow_add_r by lia. change (256 ^ Z.of_nat 8) with (2 ^ 64).
  rewrite (Z.mul_comm (256 ^ Z.of_nat (8 * k)) (2 ^ 64)), Z.rem_mul_r
    by (lia || apply Z.pow_pos_nonneg; lia).
  set (g := be_get (take (8 * k) l)).
  replace ((g * 2 ^ 64 + x + c) mod 2 ^ 64) with ((x + c) mod 2 ^ 64)
    by (Z.div_mod_to_equations; lia).
  replace ((g * 2 ^ 64 + x + c) / 2 ^ 64) with (g + (x + c) / 2 ^ 64)
    by (Z.div_mod_to_equations; lia).
  lia.
Qed.

Lemma ctr128_inc_aligned_eq le mis l :
  nbytes 16 l -> ctr128_inc_aligned le mis l = ctr128_inc l.
Proof.
  intros Hl. unfold ctr128_inc_aligned. destruct (le || mis); [done|].
  destruct (nbytes_inc_words 2 1 l 16 Hl ltac:(lia)) as [H1 H2].
  destruct (nbytes_ctr128_inc l Hl) as [H3 H4].
  apply be_get_inj; [done|done|congruence|]. rewrite be_get_ctr128_inc by done.
  destruct Hl as [Hl Hb]. pose proof (be_get_inc_words 2 1 l Hb ltac:(lia) ltac:(lia)) as H.
  rewrite !take_ge in H by lia. exact H.
Qed.

(** ** The stream *)

Section ctr_facts.
Context (block : list Z -> list Z) `{!BlockFn block}.

Definition ctr_ok (st : ctr_state) : Prop :=
  nbytes 16 (ct_ivec st) /\ nbytes 16 (ct_ecount st) /\ (ct_num st < 16)%nat.

Lemma ctr_run_within : forall inp iv ec n,
  length ec = 16%nat -> (0 < n < 16)%nat -> (n + length inp <= 16)%nat ->
  run (ctr_step block) (mkCtr iv ec n) inp =
    (xor_bytes inp (drop n ec), mkCtr iv ec ((n + length inp) mod 16)).
Proof.
  induction inp as [|b r IH]; intros iv ec n Hec Hn Hl.
  - cbn [length run]. by rewrite Nat.add_0_r, Nat.mod_small by lia.
  - cbn [run length] in *. unfold ctr_step. cbn [ct_num ct_ivec ct_ecount].
    destruct (Nat.eqb_spec n 0); [lia|]. cbn [ct_num ct_ivec ct_ecount].
    rewrite (drop_byte_at ec n) by lia. destruct (decide (n = 15%nat)) as [->|].
    + destruct r; [done|simpl in Hl; lia].
    + rewrite (Nat.mod_small (n + 1)) by lia. fold (ctr_step block). rewrite IH by lia.
      rewrite Nat.add_1_r. by replace (n + S (length r))%nat with (S n + length r)%nat by lia.
Qed.

Lemma ctr_run_block inp iv ec :
  nbytes 16 iv -> (0 < length inp <= 16)%nat ->
  run (ctr_step block) (mkCtr iv ec 0) inp =
    (xor_bytes inp (block iv), mkCtr (ctr128_inc iv) (block iv) (length inp mod 16)).
Proof.
  intros Hiv Hl. pose proof (block_ok iv Hiv) as [Hb _].
  destruct inp as [|b r]; [simpl in Hl; lia|].
  cbn [run length] in *. unfold ctr_step. cbn [ct_num ct_ivec ct_ecount Nat.eqb].
  change ((0 + 1) mod 16)%nat with 1%nat. fold (ctr_step block).
  rewrite ctr_run_within by (done || lia).
  by destruct (block iv).
Qed.

Lemma ctr_head_run iv : forall inp ec n,
  (n < 16)%nat ->
  let '(out, rest, n') := ctr_head inp ec n in
  exists pre, inp = pre ++ rest /\
    run (ctr_step block) (mkCtr iv ec n) pre = (out, mkCtr iv ec n') /\
    (n' < 16)%nat /\ (rest <> [] -> n' = 0%nat).
Proof.
  induction inp as [|b r IH]; intros ec n Hn; cbn [ctr_head].
  - by exists [].
  - destruct (Nat.eqb_spec n 0) as [->|Hn0]; [by exists []|].
    assert (Hm : ((n + 1) mod 16 < 16)%nat) by (apply Nat.mod_upper_bound; lia).
    specialize (IH ec ((n + 1) mod 16)%nat Hm).
    destruct (ctr_head r ec _) as [[out rest] n']. destruct IH as (pre & -> & E & ? & ?).
    exists (b :: pre). split_and!; try done. cbn [run]. unfold ctr_step.
    cbn [ct_num ct_ivec ct_ecount]. destruct (Nat.eqb_spec n 0); [lia|].
    cbn [ct_num ct_ivec ct_ecount]. fold (ctr_step block). by rewrite E.
Qed.

Lemma ctr_blocks_run inc k : (forall l, nbytes 16 l -> inc l = ctr128_inc l) ->
  forall inp iv ec,
  nbytes 16 iv -> nbytes 16 ec -> bytes inp -> (16 * k <= length inp)%nat ->
  let '(out, iv', ec') := ctr_blocks block inc k inp iv ec in
  nbytes 16 iv' /\ nbytes 16 ec' /\ iv' = Nat.iter k ctr128_inc iv /\
  run (ctr_step block) (mkCtr iv ec 0) (take (16 * k) inp) = (out, mkCtr iv' ec' 0).
Proof.
  intros Hinc. induction k as [|k IH]; intros inp iv ec Hiv Hec Hin Hl; [done|].
  replace (16 * S k)%nat with (16 + 16 * k)%nat in * by lia. cbn [ctr_blocks].
  rewrite Hinc by done.
  specialize (IH (drop 16 inp) (ctr128_inc iv) (block iv) (nbytes_ctr128_inc _ Hiv)
    (block_ok _ Hiv) (bytes_drop _ _ Hin) ltac:(rewrite length_drop; lia)).
  destruct (ctr_blocks block inc k _ _ _) as [[rest iv'] ec'].
  destruct IH as (Hiv' & Hec' & Hit & Hrun). split_and!; try done.
  { rewrite Hit. by rewrite <- Nat.iter_succ_r. }
  assert (Ht : nbytes 16 (take 16 inp)) by (split; [rewrite length_take; lia|by apply bytes_take]).
  rewrite <- take_take_drop, xor_words_16 by (done || by apply block_ok).
  eapply run_app_eq; [|exact Hrun]. destruct Ht as [Ht _].
  rewrite ctr_run_block by (done || lia). by rewrite Ht.
Qed.

Lemma ctr_fast_run inc inp st :
  (forall l, nbytes 16 l -> inc l = ctr128_inc l) -> ctr_ok st -> bytes inp ->
  ctr_fast block inc inp st = run (ctr_step block) st inp /\
  ctr_ok (snd (ctr_fast block inc inp st)).
Proof.
  intros Hinc (Hiv & Hec & Hn) Hin. destruct st as [iv ec n]. simpl in Hiv, Hec, Hn.
  unfold ctr_fast. cbn [ct_ivec ct_ecount ct_num].
  pose proof (ctr_head_run iv inp ec n Hn) as Hh.
  destruct (ctr_head inp ec n) as [[out1 inp1] n1].
  destruct Hh as (pre & -> & Hpre & Hn1 & Hz). apply bytes_app in Hin as [_ Hin].
  pose proof (Nat.div_mod_eq (length inp1) 16) as Hdm.
  pose proof (Nat.mod_upper_bound (length inp1) 16 ltac:(lia)) as Hmod.
  set (k := (length inp1 / 16)%nat) in *.
  pose proof (ctr_blocks_run inc k Hinc inp1 iv ec Hiv Hec Hin ltac:(lia)) as Hb.
  destruct (ctr_blocks block inc k inp1 iv ec) as [[out2 iv2] ec2].
  destruct Hb as (Hiv2 & Hec2 & _ & Hb).
  assert (Hrest : length (drop (16 * k) inp1) = (length inp1 mod 16)%nat)
    by (rewrite length_drop; lia).
  rewrite Hrest.
  destruct (decide (inp1 = [])) as [->|Hne].
  { simpl in *. injection Hb as <- <- <-. rewrite run_app, Hpre. simpl. done. }
  rewrite (Hz Hne) in *.
  assert (Hall : run (ctr_step block) (mkCtr iv ec n) (pre ++ take (16 * k) inp1) =
    (out1 ++ out2, mkCtr iv2 ec2 0)) by (by eapply run_app_eq).
  assert (Hsplit : pre ++ inp1 = (pre ++ take (16 * k) inp1) ++ drop (16 * k) inp1)
    by (by rewrite <- app_assoc, take_drop).
  rewrite Hsplit.
  destruct (Nat.eqb_spec (length inp1 mod 16) 0) as [E|E].
  - rewrite (nil_length_inv (drop (16 * k) inp1)) by lia. rewrite app_nil_r, Hall. done.
  - rewrite Hinc by done. split.
    + symmetry. rewrite app_assoc. eapply run_app_eq; [exact Hall|].
      rewrite ctr_run_block by (done || lia).
      by rewrite drop_0, Hrest, (Nat.mod_small (_ mod _)) by lia.
    + split_and!; simpl; [by apply nbytes_ctr128_inc|by apply block_ok|lia].
Qed.

Lemma ctr_run_ok inp st :
  ctr_ok st -> bytes inp -> ctr_ok (snd (run (ctr_step block) st inp)).
Proof. intros Hst Hin. by destruct (ctr_fast_run ctr128_inc inp st) as [<- ?]. Qed.

(** Every build runs the byte step. *)
Lemma ctr_encrypt_run strict le mis inp st :
  ctr_ok st -> bytes inp ->
  CRYPTO_ctr128_encrypt block strict le mis inp st = run (ctr_step block) st inp.
Proof.
  intros Hst Hin. destruct strict; [done|]. unfold CRYPTO_ctr128_encrypt.
  destruct (ctr_fast_run (ctr128_inc_aligned le mis) inp st) as [-> _]; try done.
  intros l Hl. by apply ctr128_inc_aligned_eq.
Qed.

Lemma ctr_step_inverse st b :
  ctr_ok st -> is_byte b ->
  ctr_ok (snd (ctr_step block st b)) /\
  ctr_step block st (fst (ctr_step block st b)) = (b, snd (ctr_step block st b)).
Proof.
  intros Hst Hb. split.
  - pose proof (ctr_run_ok [b] st Hst (bytes_singleton _ Hb)) as H. cbn [run] in H.
    by destruct (ctr_step block st b).
  - unfold ctr_step. simpl. by rewrite lxor_cancel_r.
Qed.

(** Block [k] of the key stream is the encryption of the counter plus [k]. *)
Lemma nbytes_iter_inc k iv : nbytes 16 iv -> nbytes 16 (Nat.iter k ctr128_inc iv).
Proof. intros H. induction k as [|k IH]; [done|]. simpl. by apply nbytes_ctr128_inc. Qed.

Lemma be_get_iter_inc k iv :
  nbytes 16 iv ->
  be_get (Nat.iter k ctr128_inc iv) = (be_get iv + Z.of_nat k) mod 2 ^ 128.
Proof.
  intros Hiv. induction k as [|k IH].
  - simpl Nat.iter. rewrite Z.add_0_r, Z.mod_small; [done|].
    destruct Hiv as [Hl Hb]. pose proof (be_get_bounds iv Hb) as H. by rewrite Hl in H.
  - simpl. rewrite be_get_ctr128_inc, IH by (by apply nbytes_iter_inc).
    rewrite Zplus_mod_idemp_l. f_equal. lia.
Qed.

Lemma byte_at_split a b i :
  byte_at (a ++ b) i = if (i <? length a)%nat then byte_at a i else byte_at b (i - length a).
Proof.
  unfold byte_at. destruct (Nat.ltb_spec i (length a)); [by rewrite app_nth1|by rewrite app_nth2].
Qed.

Lemma ctr_keystream : forall k inp iv ec i,
  nbytes 16 iv -> (length inp <= 16 * k)%nat -> (i < length inp)%nat ->
  byte_at (fst (run (ctr_step block) (mkCtr iv ec 0) inp)) i =
    Z.lxor (byte_at inp i)
      (byte_at (block (Nat.iter (i / 16) ctr128_inc iv)) (i mod 16)).
Proof.
  induction k as [|k IH]; intros inp iv ec i Hiv Hl Hi; [lia|].
  assert (Ht : (0 < length (take 16 inp) <= 16)%nat) by (rewrite length_take; lia).
  pose proof (block_ok iv Hiv) as [Hbl _].
  rewrite <- (take_drop 16 inp) at 1. rewrite run_app, ctr_run_block by done. cbn [fst snd].
  assert (Hx : length (xor_bytes (take 16 inp) (block iv)) = Nat.min 16 (length inp))
    by (rewrite length_xor_bytes, length_take; lia).
  rewrite byte_at_split, Hx. destruct (Nat.ltb_spec i (Nat.min 16 (length inp))).
  - rewrite byte_at_xor by (rewrite ?length_take; lia).
    rewrite (Nat.div_small i), (Nat.mod_small i) by lia. simpl Nat.iter. f_equal.
    rewrite <- (take_drop 16 inp) at 2. rewrite byte_at_split.
    destruct (Nat.ltb_spec i (length (take 16 inp))); [done|].
    rewrite length_take in *. lia.
  - assert (H16 : (16 <= i)%nat) by lia. rewrite Nat.min_l by lia.
    rewrite length_take, Nat.min_l by lia. change (16 mod 16)%nat with 0%nat.
    rewrite IH; [|by apply nbytes_ctr128_inc|rewrite length_drop; lia..].
    assert (Hid : (i / 16 = S ((i - 16) / 16) /\ i mod 16 = (i - 16) mod 16)%nat).
    { replace i with (i - 16 + 1 * 16)%nat at 1 3 by lia.
      rewrite Nat.div_add, Nat.Div0.mod_add by lia. lia. }
    destruct Hid as [-> ->]. rewrite Nat.iter_succ_r. f_equal.
    rewrite <- (take_drop 16 inp) at 2. rewrite byte_at_split, length_take, Nat.min_l by lia.
    by destruct (Nat.ltb_spec i 16); [lia|].
Qed.

(** Counter mode computes its definition in every build: byte [i] of the
    output is byte [i] of the input masked with byte [i mod 16] of the encrypted
    block whose 128-bit big-endian value is the initial counter plus [i / 16],
    modulo 2^128. *)
Theorem ctr128_keystream strict le mis inp iv ec i :
  nbytes 16 iv -> nbytes 16 ec -> bytes inp -> (i < length inp)%nat ->
  exists ctr, nbytes 16 ctr /\
    be_get ctr = (be_get iv + Z.of_nat (i / 16)) mod 2 ^ 128 /\
    byte_at (fst (CRYPTO_ctr128_encrypt block strict le mis inp (mkCtr iv ec 0))) i =
      Z.lxor (byte_at inp i) (byte_at (block ctr) (i mod 16)).
Proof.
  intros Hiv Hec Hin Hi. exists (Nat.iter (i / 16) ctr128_inc iv).
  split; [by apply nbytes_iter_inc|]. split; [by apply be_get_iter_inc|].
  rewrite ctr_encrypt_run by (done || split_and!; (done || simpl; lia)).
  apply (ctr_keystream (length inp)); (done || lia).
Qed.
End ctr_facts.

(** Byte 20 of a text whose counter is about to wrap. *)
Lemma ctr128_keystream_witness :
  let iv := replicate 16 255 in
  exists ctr, be_get ctr = 0 /\
    byte_at (fst (CRYPTO_ctr128_encrypt toy_enc false false false (seqZ 0 25)
      (mkCtr iv (replicate 16 0) 0))) 20 = Z.lxor 20 (byte_at (toy_enc ctr) 4).
Proof.
  intros iv.
  destruct (ctr128_keystream toy_enc false false false (seqZ 0 25) iv (replicate 16 0) 20)
    as (ctr & _ & E & H); [solve_closed..|vm_compute; lia|].
  exists ctr. split; [rewrite E; vm_compute; reflexivity|exact H].
Defined.

(** ** The 32-bit variant *)

(** What is documented of a [ctr128_f]: it encrypts blocks while counting in the
    last 32 bits only, without a carry, and does not update the counter. *)
Fixpoint ctr32_blocks (block : list Z -> list Z) (k : nat) (inp iv : list Z) : list Z :=
  match k with
  | O => []
  | S k' =>
      xor_bytes (take 16 inp) (block iv)
      ++ ctr32_blocks block k' (drop 16 inp) (put_ctr32 iv (u32 (get_ctr32 iv + 1)))
  end.

Class Ctr32Fn (block : list Z -> list Z) (func : list Z -> nat -> list Z -> list Z) : Prop :=
  ctr32_fn : forall inp n iv, nbytes 16 iv -> bytes inp -> (16 * n <= length inp)%nat ->
    func inp n iv = ctr32_blocks block n inp iv.

#[export] Instance ctr32_blocks_fn block :
  Ctr32Fn block (fun inp n iv => ctr32_blocks block n inp iv).
Proof. by intros inp n iv _ _ _. Qed.

Lemma get_ctr32_bounds iv : nbytes 16 iv -> 0 <= get_ctr32 iv < 2 ^ 32.
Proof.
  intros [Hl Hb]. unfold get_ctr32.
  pose proof (be_get_bounds (take 4 (drop 12 iv)) (bytes_take _ _ (bytes_drop _ _ Hb))) as H.
  by rewrite length_take, length_drop, Hl in H.
Qed.

Lemma be_get_split iv :
  nbytes 16 iv -> be_get iv = be_get (take 12 iv) * 2 ^ 32 + get_ctr32 iv.
Proof.
  intros [Hl Hb]. rewrite <- (take_drop 12 iv) at 1. rewrite be_get_app, length_drop, Hl.
  unfold get_ctr32. by rewrite (take_ge (drop 12 iv)) by (rewrite length_drop; lia).
Qed.

Lemma be_get_take_12 iv : nbytes 16 iv -> 0 <= be_get (take 12 iv) < 2 ^ 96.
Proof.
  intros [Hl Hb]. pose proof (be_get_bounds _ (bytes_take 12 _ Hb)) as H.
  by rewrite length_take, Hl in H.
Qed.

Lemma put_ctr32_eq iv v : nbytes 16 iv -> put_ctr32 iv v = take 12 iv ++ be_put 4 v.
Proof.
  intros [Hl Hb]. unfold put_ctr32, blit.
  destruct (nbytes_be_put 4 v) as [Hp _]. by rewrite drop_ge, app_nil_r by lia.
Qed.

Lemma nbytes_put_ctr32 iv v : nbytes 16 iv -> nbytes 16 (put_ctr32 iv v).
Proof.
  intros Hiv. rewrite put_ctr32_eq by done. destruct (nbytes_be_put 4 v) as [Hp Hpb].
  destruct Hiv as [Hl Hb]. split; [rewrite length_app, length_take; lia|].
  apply bytes_app. split; [by apply bytes_take|done].
Qed.

Lemma nbytes_ctr96_inc iv : nbytes 16 iv -> nbytes 16 (ctr96_inc iv).
Proof.
  intros [Hl Hb]. unfold ctr96_inc.
  split; [by rewrite length_inc_loop|by apply bytes_inc_loop].
Qed.

(** Adding [n] to the low word, with the carry into the rest when it wraps, is
    adding [n] to the whole counter. *)
Lemma ctr32_next iv n :
  nbytes 16 iv -> get_ctr32 iv + Z.of_nat n <= 2 ^ 32 -> (0 < n)%nat ->
  let c := u32 (get_ctr32 iv + Z.of_nat n) in
  (if c =? 0 then ctr96_inc (put_ctr32 iv c) else put_ctr32 iv c) = Nat.iter n ctr128_inc iv.
Proof.
  intros Hiv Hn Hpos c. pose proof (get_ctr32_bounds iv Hiv) as Hg.
  pose proof (be_get_take_12 iv Hiv) as Hh.
  pose proof (nbytes_put_ctr32 iv c Hiv) as Hp.
  assert (Hput : be_get (put_ctr32 iv c) = be_get (take 12 iv) * 2 ^ 32 + c).
  { rewrite put_ctr32_eq, be_get_app, be_get_put by done.
    destruct (nbytes_be_put 4 c) as [-> _]. f_equal. apply Z.mod_small, u32_range. }
  destruct (nbytes_iter_inc n iv Hiv) as [Hl1 Hb1].
  apply be_get_inj; [|done| |].
  - destruct (c =? 0); [by apply nbytes_ctr96_inc|apply Hp].
  - rewrite Hl1. destruct (c =? 0); [by apply nbytes_ctr96_inc|apply Hp].
  - rewrite be_get_iter_inc, (be_get_split iv) by done. unfold c in *.
    destruct (Z.eqb_spec (u32 (get_ctr32 iv + Z.of_nat n)) 0) as [E|E].
    + assert (get_ctr32 iv + Z.of_nat n = 2 ^ 32) as HE by wrap_lia.
      rewrite be_get_ctr96_inc by done. rewrite HE in *. rewrite put_ctr32_eq by done.
      rewrite take_app_le, drop_app_ge by (destruct Hiv; rewrite length_take; lia).
      rewrite take_take, length_take. destruct Hiv as [-> _].
      change (be_get (drop (12 - Nat.min 12 16) (be_put 4 (u32 (2 ^ 32))))) with 0.
      change (Nat.min 12 12) with 12%nat. Z.div_mod_to_equations; lia.
    + assert (Hlt : get_ctr32 iv + Z.of_nat n < 2 ^ 32) by wrap_lia.
      rewrite Hput, u32_small by lia. rewrite Z.mod_small; lia.
Qed.

#[local] Opaque ctr128_inc ctr96_inc.

Section ctr32_facts.
Context (block : list Z -> list Z) `{!BlockFn block}.
Context (func : list Z -> nat -> list Z -> list Z) `{!Ctr32Fn block func}.

(** While the low word does not wrap, [func] runs the mode. *)
Lemma ctr32_blocks_run k : forall inp iv ec,
  nbytes 16 iv -> bytes inp -> (16 * k <= length inp)%nat ->
  get_ctr32 iv + Z.of_nat k <= 2 ^ 32 ->
  exists ec', run (ctr_step block) (mkCtr iv ec 0) (take (16 * k) inp) =
    (ctr32_blocks block k inp iv, mkCtr (Nat.iter k ctr128_inc iv) ec' 0) /\
    (nbytes 16 ec -> nbytes 16 ec').
Proof.
  induction k as [|k IH]; intros inp iv ec Hiv Hin Hl Hg; [by exists ec|].
  replace (16 * S k)%nat with (16 + 16 * k)%nat in * by lia. cbn [ctr32_blocks].
  rewrite <- take_take_drop.
  assert (Ht : length (take 16 inp) = 16%nat) by (rewrite length_take; lia).
  pose proof (get_ctr32_bounds iv Hiv) as Hb.
  destruct (decide (k = 0%nat)) as [->|Hk].
  { exists (block iv). cbn [ctr32_blocks]. rewrite app_nil_r. simpl (take (16 * 0) _).
    rewrite app_nil_r, ctr_run_block, Ht by (done || lia).
    split; [done|]. intros _. by apply block_ok. }
  pose proof (ctr32_next iv 1 Hiv ltac:(lia) ltac:(lia)) as Hnext. cbn zeta in Hnext.
  change (Z.of_nat 1) with 1 in Hnext. rewrite u32_small in Hnext by lia.
  destruct (Z.eqb_spec (get_ctr32 iv + 1) 0); [lia|]. simpl in Hnext.
  rewrite u32_small, Hnext by lia.
  assert (Hg1 : get_ctr32 (ctr128_inc iv) = get_ctr32 iv + 1).
  { rewrite <- Hnext. unfold get_ctr32 at 1. rewrite put_ctr32_eq by done.
    rewrite drop_app_ge by (destruct Hiv; rewrite length_take; lia).
    destruct Hiv as [Hl16 _]. rewrite length_take, Hl16, Nat.sub_diag, drop_0.
    rewrite take_ge by (destruct (nbytes_be_put 4 (get_ctr32 iv + 1)); lia).
    rewrite be_get_put. apply Z.mod_small. change (256 ^ Z.of_nat 4) with (2 ^ 32). lia. }
  destruct (IH (drop 16 inp) (ctr128_inc iv) (block iv)) as (ec' & Hrun & Hec);
    [by apply nbytes_ctr128_inc|by apply bytes_drop|rewrite length_drop; lia|lia|].
  exists ec'. split; [|intros _; by apply Hec, block_ok]. rewrite Nat.iter_succ_r.
  eapply run_app_eq; [|exact Hrun].
  rewrite (ctr_run_block block _ iv ec Hiv), Ht by lia. reflexivity.
Qed.

Lemma get_ctr32_iter iv n :
  nbytes 16 iv -> (0 < n)%nat -> get_ctr32 iv + Z.of_nat n <= 2 ^ 32 ->
  get_ctr32 (Nat.iter n ctr128_inc iv) = u32 (get_ctr32 iv + Z.of_nat n).
Proof.
  intros Hiv Hn Hg. pose proof (nbytes_iter_inc n iv Hiv) as Hit.
  pose proof (be_get_iter_inc n iv Hiv) as E. rewrite (be_get_split iv Hiv) in E.
  rewrite (be_get_split _ Hit) in E. pose proof (get_ctr32_bounds _ Hit).
  unfold u32. Z.div_mod_to_equations; lia.
Qed.

(** The loop on whole blocks. *)
Lemma ctr32_loop_run : forall fuel inp iv ec,
  nbytes 16 iv -> nbytes 16 ec -> bytes inp -> (length inp <= fuel)%nat ->
  let k := (length inp / 16)%nat in
  exists ec', nbytes 16 ec' /\
    let '(out, rest, iv', ctr') := ctr32_loop fuel func inp iv (get_ctr32 iv) in
    run (ctr_step block) (mkCtr iv ec 0) (take (16 * k) inp) = (out, mkCtr iv' ec' 0) /\
    rest = drop (16 * k) inp /\ iv' = Nat.iter k ctr128_inc iv /\ ctr' = get_ctr32 iv'.
Proof.
  induction fuel as [|fuel IH]; intros inp iv ec Hiv Hec Hin Hf k.
  { destruct inp; [|simpl in Hf; lia]. by exists ec. }
  cbn [ctr32_loop]. destruct (Nat.ltb_spec (length inp) 16) as [Hs|Hs].
  { exists ec. split; [done|]. unfold k. by rewrite Nat.div_small. }
  pose proof (get_ctr32_bounds iv Hiv) as Hg.
  assert (Hk : (1 <= k)%nat) by (apply Nat.div_le_lower_bound; lia).
  assert (H16 : (16 * k <= length inp)%nat) by (apply Nat.Div0.mul_div_le).
  fold k. set (b0 := if 2 ^ 28 <? Z.of_nat k then 2 ^ 28 else Z.of_nat k).
  assert (Hb0 : 1 <= b0 <= 2 ^ 28 /\ b0 <= Z.of_nat k) by (unfold b0; zcases; lia).
  assert (Hn : exists n, (1 <= n <= k)%nat /\ get_ctr32 iv + Z.of_nat n <= 2 ^ 32 /\
    (if u32 (get_ctr32 iv + u32 b0) <? b0
     then (b0 - u32 (get_ctr32 iv + u32 b0), 0)
     else (b0, u32 (get_ctr32 iv + u32 b0))) =
    (Z.of_nat n, u32 (get_ctr32 iv + Z.of_nat n))).
  { rewrite (u32_small b0) by lia.
    destruct (Z.ltb_spec (u32 (get_ctr32 iv + b0)) b0) as [Hw|Hw].
    - exists (Z.to_nat (2 ^ 32 - get_ctr32 iv)).
      assert (Hwrap : u32 (get_ctr32 iv + b0) = get_ctr32 iv + b0 - 2 ^ 32) by wrap_lia.
      pose proof (u32_range (get_ctr32 iv + b0)). rewrite Z2Nat.id by lia. split_and!; [lia..|]. f_equal; [lia|].
      replace (get_ctr32 iv + (2 ^ 32 - get_ctr32 iv)) with (2 ^ 32) by lia. done.
    - assert (get_ctr32 iv + b0 < 2 ^ 32) by wrap_lia.
      exists (Z.to_nat b0). rewrite Z2Nat.id by lia. split_and!; [lia..|done]. }
  destruct Hn as (n & Hnk & Hng & ->). rewrite Nat2Z.id.
  rewrite ctr32_next by (done || lia).
  rewrite (ctr32_fn inp n iv) by (done || lia).
  rewrite <- get_ctr32_iter by (done || lia).
  destruct (ctr32_blocks_run n inp iv ec Hiv Hin ltac:(lia) Hng) as (ec1 & Hrun & Hec1).
  destruct (IH (drop (16 * n) inp) (Nat.iter n ctr128_inc iv) ec1) as (ec' & Hec' & Hrest);
    [by apply nbytes_iter_inc|by apply Hec1|by apply bytes_drop|rewrite length_drop; lia|].
  exists ec'. split; [done|].
  destruct (ctr32_loop fuel func _ _ _) as [[[out' rest] iv'] ctr'].
  assert (Hkn : (length (drop (16 * n) inp) / 16 = k - n)%nat).
  { rewrite length_drop. unfold k. replace (length inp) with (length inp - 16 * n + n * 16)%nat at 2 by lia.
    rewrite Nat.div_add by lia. lia. }
  rewrite Hkn in Hrest. destruct Hrest as (Hr & -> & -> & ->).
  replace (16 * k)%nat with (16 * n + 16 * (k - n))%nat by lia.
  rewrite <- take_take_drop, <- drop_drop. rewrite <- Nat.iter_add.
  replace (k - n + n)%nat with k in * by lia. split_and!; try done.
  eapply run_app_eq; [exact Hrun|]. rewrite Hr, <- Nat.iter_add.
  by replace (k - n + n)%nat with k by lia.
Qed.

(** States that differ only in a key stream block that is used up. *)
Definition ctr_eqv (s1 s2 : ctr_state) : Prop :=
  ct_ivec s1 = ct_ivec s2 /\ ct_num s1 = ct_num s2 /\
  (ct_num s1 <> 0%nat -> ct_ecount s1 = ct_ecount s2).

#[export] Instance ctr_eqv_equivalence : Equivalence ctr_eqv.
Proof.
  split.
  - by intros s.
  - intros s1 s2 (? & E & H). split_and!; try done. rewrite <- E. intros Hn. symmetry. by apply H.
  - intros s1 s2 s3 (I1 & E1 & H1) (I2 & E2 & H2). split_and!; [congruence..|].
    intros Hn. rewrite H1 by done. apply H2. congruence.
Qed.

Lemma ctr_step_eqv s1 s2 b :
  ctr_eqv s1 s2 ->
  fst (ctr_step block s1 b) = fst (ctr_step block s2 b) /\
  ctr_eqv (snd (ctr_step block s1 b)) (snd (ctr_step block s2 b)).
Proof.
  destruct s1 as [iv1 ec1 n1], s2 as [iv2 ec2 n2]. intros (Hi & Hn & He). simpl in *. subst iv2 n2.
  unfold ctr_step. cbn [ct_num ct_ivec ct_ecount].
  destruct (Nat.eqb_spec n1 0); [done|]. by rewrite He.
Qed.

#[export] Instance run_proper :
  Proper (ctr_eqv ==> (=) ==> (fun r1 r2 => fst r1 = fst r2 /\ ctr_eqv (snd r1) (snd r2)))
    (run (ctr_step block)).
Proof.
  intros s1 s2 Hs inp ? <-. revert s1 s2 Hs. induction inp as [|b r IH]; intros s1 s2 Hs; [done|].
  destruct (ctr_step_eqv s1 s2 b Hs) as [Ho Hs']. cbn [run].
  destruct (ctr_step block s1 b) as [o1 s1'], (ctr_step block s2 b) as [o2 s2'].
  simpl in Ho, Hs'. specialize (IH s1' s2' Hs') as [IHo IHs].
  destruct (run _ s1' r), (run _ s2' r). simpl in *. by subst.
Qed.

(** A call that runs the mode on its input, up to a used key stream block. *)
Definition runs_ctr (call : list Z -> ctr_state -> list Z * ctr_state) : Prop :=
  forall inp st, ctr_ok st -> bytes inp ->
    fst (call inp st) = fst (run (ctr_step block) st inp) /\
    ctr_eqv (snd (call inp st)) (snd (run (ctr_step block) st inp)) /\
    ctr_ok (snd (call inp st)).

Lemma ctr128_runs strict le mis : runs_ctr (CRYPTO_ctr128_encrypt block strict le mis).
Proof.
  intros inp st Hst Hin. rewrite ctr_encrypt_run by done.
  split_and!; try done; by apply ctr_run_ok.
Qed.

Lemma xor_zeros l : nbytes 16 l -> xor_bytes (replicate 16 0) l = l.
Proof.
  intros [Hl _]. do 17 (destruct l as [|? l]; try discriminate Hl). done.
Qed.

Lemma ctr32_runs : runs_ctr (CRYPTO_ctr128_encrypt_ctr32 func).
Proof.
  intros inp [iv ec n] (Hiv & Hec & Hn) Hin. simpl in Hiv, Hec, Hn.
  unfold CRYPTO_ctr128_encrypt_ctr32. cbn [ct_ivec ct_ecount ct_num].
  pose proof (ctr_head_run block iv inp ec n Hn) as Hh.
  destruct (ctr_head inp ec n) as [[out1 inp1] n1].
  destruct Hh as (pre & -> & Hpre & Hn1 & Hz). apply bytes_app in Hin as [_ Hin].
  destruct (ctr32_loop_run (length inp1) inp1 iv ec Hiv Hec Hin ltac:(lia)) as (ec2 & Hec2 & Hl).
  destruct (ctr32_loop (length inp1) func inp1 iv (get_ctr32 iv)) as [[[out2 rest] iv2] c2].
  set (k := (length inp1 / 16)%nat) in *. destruct Hl as (Hrun & Hrest & Hiv2 & ->).
  assert (Hnb2 : nbytes 16 iv2) by (subst iv2; by apply nbytes_iter_inc).
  destruct (decide (inp1 = [])) as [->|Hne].
  { subst rest. simpl in *. injection Hrun as <- <- <-.
    rewrite app_nil_r, run_app, Hpre. simpl. by rewrite app_nil_r. }
  rewrite (Hz Hne) in *.
  assert (Hall : run (ctr_step block) (mkCtr iv ec n) (pre ++ take (16 * k) inp1) =
    (out1 ++ out2, mkCtr iv2 ec2 0)) by (by eapply run_app_eq).
  assert (Hsplit : pre ++ inp1 = (pre ++ take (16 * k) inp1) ++ rest)
    by (subst rest; by rewrite <- app_assoc, take_drop).
  assert (Hlr : (length rest < 16)%nat).
  { subst rest. rewrite length_drop. pose proof (Nat.mod_upper_bound (length inp1) 16 ltac:(lia)).
    pose proof (Nat.div_mod_eq (length inp1) 16) as Hdm. fold k in Hdm. lia. }
  rewrite Hsplit. destruct (Nat.eqb_spec (length rest) 0) as [E|E].
  - apply nil_length_inv in E. rewrite E, app_nil_r, Hall. split_and!; try done; simpl; lia.
  - pose proof (get_ctr32_bounds iv2 Hnb2).
    rewrite (ctr32_fn (replicate 16 0) 1 iv2); [|done|solve_closed|done].
    cbn [ctr32_blocks]. rewrite app_nil_r. change (take 16 (replicate 16 0)) with (replicate 16 0).
    rewrite xor_zeros by (by apply block_ok).
    pose proof (ctr32_next iv2 1 Hnb2 ltac:(lia) ltac:(lia)) as Hnext.
    cbn zeta in Hnext. change (Z.of_nat 1) with 1 in Hnext. rewrite Hnext.
    rewrite (run_app_eq _ _ _ rest _ _ _ _ Hall
      (ctr_run_block block rest iv2 ec2 Hnb2 ltac:(lia))).
    rewrite drop_0, Nat.mod_small by lia. cbn [fst snd Nat.iter nat_rect].
    split; [by rewrite app_assoc|]. split; [reflexivity|].
    split_and!; simpl; [by apply nbytes_ctr128_inc|by apply block_ok|lia].
Qed.

Lemma feed_ctr call chunks : runs_ctr call -> forall s1 s2,
  ctr_ok s1 -> ctr_eqv s1 s2 -> Forall bytes chunks ->
  fst (feed call s1 chunks) = fst (run (ctr_step block) s2 (concat chunks)).
Proof.
  intros Hcall. induction chunks as [|c r IH]; intros s1 s2 Hok Heq Hb; [done|].
  inversion_clear Hb as [|? ? Hc Hr]. destruct (Hcall c s1 Hok Hc) as (Ho & Hs & Hok').
  destruct (run_proper s1 s2 Heq c c eq_refl) as [Ho2 Hs2].
  cbn [feed concat]. rewrite run_app. destruct (call c s1) as [o s1'].
  simpl in Ho, Hs, Hok'. rewrite <- Ho2, <- Ho.
  assert (Hs' : ctr_eqv s1' (snd (run (ctr_step block) s2 c))) by (by rewrite Hs).
  specialize (IH s1' _ Hok' Hs' Hr). destruct (feed call s1' r). simpl in *. by rewrite IH.
Qed.

(** The 32-bit variant is the counter mode: whatever the chunks in which
    data is fed, it produces the same output as [CRYPTO_ctr128_encrypt] in any
    build, also where the low word of the counter wraps and where a call ends
    within a block; and either of them decrypts what the other encrypted. *)
Theorem ctr32_equals_ctr128 strict le mis st cs ds :
  ctr_ok st -> Forall bytes cs -> Forall bytes ds ->
  (concat cs = concat ds ->
     fst (feed (CRYPTO_ctr128_encrypt_ctr32 func) st cs) =
     fst (feed (CRYPTO_ctr128_encrypt block strict le mis) st ds)) /\
  (concat ds = fst (feed (CRYPTO_ctr128_encrypt_ctr32 func) st cs) ->
     fst (feed (CRYPTO_ctr128_encrypt block strict le mis) st ds) = concat cs).
Proof.
  intros Hst Hcs Hds.
  rewrite (feed_ctr _ cs ctr32_runs st st Hst) by done.
  rewrite (feed_ctr _ ds (ctr128_runs strict le mis) st st Hst) by done.
  split; intros E; rewrite E; [done|].
  rewrite (run_inverse ctr_ok _ _ is_byte); [done| |done|by apply bytes_concat].
  intros s b. apply (ctr_step_inverse block).
Qed.
End ctr32_facts.

#[local] Transparent ctr128_inc ctr96_inc.

(** Sixty bytes across the wrap of the low word of the counter. *)
Lemma ctr32_equals_ctr128_witness :
  let st := mkCtr (replicate 11 9 ++ [7; 255; 255; 255; 254]) (replicate 16 0) 0 in
  let cs := [seqZ 0 33; seqZ 40 27] in
  fst (feed (CRYPTO_ctr128_encrypt_ctr32 (fun inp n iv => ctr32_blocks toy_enc n inp iv)) st cs) =
  fst (feed (CRYPTO_ctr128_encrypt toy_enc false true false) st [concat cs]).
Proof.
  intros st cs.
  refine (proj1 (ctr32_equals_ctr128 toy_enc (fun inp n iv => ctr32_blocks toy_enc n inp iv)
    false true false st cs [concat cs] _ _ _) _).
  - split; [solve_closed|]. split; [solve_closed|]. simpl. lia.
  - solve_closed.
  - solve_closed.
  - symmetry. apply app_nil_r.
Defined.
