(* ===== verification/Cts128.v ===== *)
(** * Ciphertext stealing (openssl crypto/modes/cts128.c)

    CBC for texts that do not fill their last block, without padding: the last
    two blocks are recombined.  The file has two layouts, that of RFC 2040/3962
    ([cts128]: the last two blocks swapped) and the NIST proposal
    ([nistcts128]: in order), each over a block function and over a CBC routine;
    the latter in the default configuration, where that routine is only given
    whole blocks.  Results are the return value, the output and [ivec]. *)

From S2P Require Import Prelude Bytes Stream Cbc128.

(** [len % 16], or 16 for a multiple of it *)
Definition residue16 (len : nat) : nat :=
  let residue := (len mod 16)%nat in if (residue =? 0)%nat then 16%nat else residue.

(** [for (n = 0; n < residue; ++n) ivec[n] ^= in[n]] *)
Definition xor_front (n : nat) (ivec inp : list Z) : list Z :=
  xor_bytes (take n ivec) (take n inp) ++ drop n ivec.

Section cts_block.
Context (block : list Z -> list Z) (small misaligned : bool).

Definition CRYPTO_cts128_encrypt_block (inp ivec : list Z) : nat * list Z * list Z :=
  let len := length inp in
  if (len <=? 16)%nat then (0%nat, [], ivec)
  else
    let residue := residue16 len in
    let len := (len - residue)%nat in
    let '(out, ivec1) := CRYPTO_cbc128_encrypt block small misaligned (take len inp) ivec in
    let ivec2 := block (xor_front residue ivec1 (drop len inp)) in
    let out1 := out ++ take residue (drop (len - 16) out) in
    let out2 := blit (len - 16) ivec2 out1 in
    ((len + residue)%nat, out2, ivec2).

Definition CRYPTO_nistcts128_encrypt_block (inp ivec : list Z) : nat * list Z * list Z :=
  let len := length inp in
  if (len <? 16)%nat then (0%nat, [], ivec)
  else
    let residue := (len mod 16)%nat in
    let len := (len - residue)%nat in
    let '(out, ivec1) := CRYPTO_cbc128_encrypt block small misaligned (take len inp) ivec in
    if (residue =? 0)%nat then (len, out, ivec1)
    else
      let ivec2 := block (xor_front residue ivec1 (drop len inp)) in
      let out1 := take (len - 16 + residue) out ++ ivec2 in
      ((len + residue)%nat, out1, ivec2).

Definition CRYPTO_cts128_decrypt_block (inp ivec : list Z) : nat * list Z * list Z :=
  let len := length inp in
  if (len <=? 16)%nat then (0%nat, [], ivec)
  else
    let residue := residue16 len in
    let len := (len - (16 + residue))%nat in
    let '(out, ivec1) :=
      if (len =? 0)%nat then ([], ivec)
      else CRYPTO_cbc128_decrypt block small misaligned len inp ivec in
    let inp := drop len inp in
    let tmp16 := block (take 16 inp) in
    let tmp0 := block (blit 0 (take residue (drop 16 inp)) tmp16) in
    let out1 := xor_bytes tmp0 ivec1 in
    let ivec2 := take 16 inp in
    let out2 := xor_bytes (take residue tmp16) (take residue (drop 16 inp)) in
    let residue := (residue + 16)%nat in
    ((16 + len + residue)%nat, out ++ out1 ++ out2, ivec2).

Definition CRYPTO_nistcts128_decrypt_block (inp ivec : list Z) : nat * list Z * list Z :=
  let len := length inp in
  if (len <? 16)%nat then (0%nat, [], ivec)
  else
    let residue := (len mod 16)%nat in
    if (residue =? 0)%nat then
      let '(out, ivec1) := CRYPTO_cbc128_decrypt block small misaligned len inp ivec in
      (len, out, ivec1)
    else
      let len := (len - (16 + residue))%nat in
      let '(out, ivec1) :=
        if (len =? 0)%nat then ([], ivec)
        else CRYPTO_cbc128_decrypt block small misaligned len inp ivec in
      let inp := drop len inp in
      let tmp16 := block (take 16 (drop residue inp)) in
      let tmp0 := block (blit 0 (take residue inp) tmp16) in
      let out1 := xor_bytes tmp0 ivec1 in
      let ivec2 := take 16 (drop residue inp) in
      let tmp0 := take 16 inp in
      let out2 := xor_bytes (take residue tmp16) (take residue tmp0) in
      let residue := (residue + 16)%nat in
      ((16 + len + residue)%nat, out ++ out1 ++ out2, ivec2).
End cts_block.

Section cts_cbc.
(** [cbc128_f]: input, [ivec] and direction give output and [ivec]. *)
Context (cbc : list Z -> list Z -> bool -> list Z * list Z).

(** The residue, filled up with zeros. *)
Definition pad_residue (residue : nat) (inp : list Z) : list Z :=
  blit 0 (take residue inp) (replicate 16 0).

Definition CRYPTO_cts128_encrypt (inp ivec : list Z) : nat * list Z * list Z :=
  let len := length inp in
  if (len <=? 16)%nat then (0%nat, [], ivec)
  else
    let residue := residue16 len in
    let len := (len - residue)%nat in
    let '(out, ivec1) := cbc (take len inp) ivec true in
    let tmp := pad_residue residue (drop len inp) in
    let out1 := out ++ take residue (drop (len - 16) out) in
    let '(last, ivec2) := cbc tmp ivec1 true in
    ((len + residue)%nat, blit (len - 16) last out1, ivec2).

Definition CRYPTO_nistcts128_encrypt (inp ivec : list Z) : nat * list Z * list Z :=
  let len := length inp in
  if (len <? 16)%nat then (0%nat, [], ivec)
  else
    let residue := (len mod 16)%nat in
    let len := (len - residue)%nat in
    let '(out, ivec1) := cbc (take len inp) ivec true in
    if (residue =? 0)%nat then (len, out, ivec1)
    else
      let tmp := pad_residue residue (drop len inp) in
      let '(last, ivec2) := cbc tmp ivec1 true in
      ((len + residue)%nat, take (len - 16 + residue) out ++ last, ivec2).

(** The end of both decryptions: [last] is the complete last block, [part] the
    stolen part of the one before. *)
Definition cts_join (residue : nat) (last part ivec : list Z) : list Z * list Z :=
  let '(tmp0, tmp16) := cbc last (replicate 16 0) false in
  let tmp := blit 0 (take residue part) tmp0 ++ tmp16 in
  let '(out, ivec') := cbc tmp ivec false in
  (take (16 + residue) out, ivec').

Definition CRYPTO_cts128_decrypt (inp ivec : list Z) : nat * list Z * list Z :=
  let len := length inp in
  if (len <=? 16)%nat then (0%nat, [], ivec)
  else
    let residue := residue16 len in
    let len := (len - (16 + residue))%nat in
    let '(out, ivec1) :=
      if (len =? 0)%nat then ([], ivec) else cbc (take len inp) ivec false in
    let inp := drop len inp in
    let '(out1, ivec2) := cts_join residue (take 16 inp) (drop 16 inp) ivec1 in
    ((16 + len + residue)%nat, out ++ out1, ivec2).

Definition CRYPTO_nistcts128_decrypt (inp ivec : list Z) : nat * list Z * list Z :=
  let len := length inp in
  if (len <? 16)%nat then (0%nat, [], ivec)
  else
    let residue := (len mod 16)%nat in
    if (residue =? 0)%nat then
      let '(out, ivec1) := cbc inp ivec false in (len, out, ivec1)
    else
      let len := (len - (16 + residue))%nat in
      let '(out, ivec1) :=
        if (len =? 0)%nat then ([], ivec) else cbc (take len inp) ivec false in
      let inp := drop len inp in
      let '(out1, ivec2) := cts_join residue (take 16 (drop residue inp)) inp ivec1 in
      ((16 + len + residue)%nat, out ++ out1, ivec2).
End cts_cbc.

(** What is documented of a [cbc128_f]: on whole blocks it is CBC with the two
    directions of a block cipher. *)
Class CbcFn (enc dec : list Z -> list Z) (cbc : list Z -> list Z -> bool -> list Z * list Z)
    : Prop := {
  cbc_fn_enc : forall n inp iv, nbytes (16 * n) inp -> nbytes 16 iv ->
    cbc inp iv true = CRYPTO_cbc128_encrypt enc true true inp iv;
  cbc_fn_dec : forall n inp iv, nbytes (16 * n) inp -> nbytes 16 iv ->
    cbc inp iv false = CRYPTO_cbc128_decrypt dec true true (length inp) inp iv
}.

Definition cbc_pair (enc dec : list Z -> list Z) (inp iv : list Z) (e : bool) : list Z * list Z :=
  if e then CRYPTO_cbc128_encrypt enc false false inp iv
  else CRYPTO_cbc128_decrypt dec false false (length inp) inp iv.

#[export] Instance cbc_pair_fn enc dec `{!BlockCipher enc dec} : CbcFn enc dec (cbc_pair enc dec).
Proof.
  split; intros n inp iv [Hl Hb] Hiv; unfold cbc_pair.
  - by rewrite !(cbc_encrypt_tail enc).
  - by rewrite !(cbc_decrypt_tail dec).
Qed.

Section cts_facts.
Context (enc dec : list Z -> list Z) `{!BlockCipher enc dec}.

(** CBC on whole blocks: independent of the build, it can be continued with one
    more block, and undone. *)
Lemma cbc_whole n X iv :
  nbytes (16 * n) X -> nbytes 16 iv ->
  exists c iv1, nbytes (16 * n) c /\ nbytes 16 iv1 /\
    (forall small m, CRYPTO_cbc128_encrypt enc small m X iv = (c, iv1)) /\
    (forall small m suf, bytes suf ->
       CRYPTO_cbc128_decrypt dec small m (16 * n) (c ++ suf) iv = (X, iv1)) /\
    (forall small m P, nbytes 16 P -> let C := enc (xor_bytes P iv1) in
       CRYPTO_cbc128_encrypt enc small m (X ++ P) iv = (c ++ C, C)) /\
    (X = [] -> iv1 = iv).
Proof.
  intros [Hl Hb] Hiv.
  pose proof (cbc_tail_roundtrip enc dec (length X) X iv ltac:(lia) Hb Hiv) as Hr.
  pose proof (cbc_enc_loop_tail enc true n X iv Hb Hiv ltac:(lia)) as Ht.
  destruct (cbc_enc_loop enc true n X iv) as [c iv1] eqn:El.
  rewrite drop_ge, cbc_enc_tail_nil in Ht by lia. destruct Ht as [Hiv1 Ht].
  unfold cons_block in Ht. cbn [fst snd] in Ht. rewrite app_nil_r in Ht.
  rewrite Ht in Hr. destruct Hr as (Hc & Hlc & _ & Hdec).
  assert (Hcl : length c = (16 * n)%nat).
  { clear -El Hb Hiv Hl BlockCipher0. revert X iv c iv1 El Hb Hiv Hl.
    induction n as [|n IH]; intros X iv c iv1 El Hb Hiv Hl; [by injection El as <- _|].
    cbn [cbc_enc_loop] in El. pose proof (nbytes_take_16 X Hb ltac:(lia)) as Ht.
    rewrite xor16_bytes in El by done. set (o := enc _) in El.
    assert (Ho : nbytes 16 o) by (by apply block_ok, nbytes_xor).
    destruct (cbc_enc_loop enc true n (drop 16 X) o) as [c' iv'] eqn:E'.
    injection El as <- <-. rewrite length_app, (proj1 Ho).
    rewrite (IH _ _ _ _ E'); [lia|by apply bytes_drop|done|rewrite length_drop; lia]. }
  exists c, iv1. split; [by split|]. split; [done|]. split_and!.
  - intros small m. by rewrite (cbc_encrypt_tail enc).
  - intros small m suf Hs. rewrite (cbc_decrypt_tail dec); [|by apply bytes_app|done|rewrite length_app; lia].
    rewrite <- Hl. apply Hdec.
  - intros small m P HP C.
    assert (HXP : bytes (X ++ P)) by (apply bytes_app; split; [done|apply HP]).
    rewrite (cbc_encrypt_tail enc) by done.
    pose proof (cbc_enc_loop_tail enc true n (X ++ P) iv HXP Hiv ltac:(rewrite length_app; lia)) as HT.
    assert (EL : cbc_enc_loop enc true n (X ++ P) iv = (c, iv1)).
    { rewrite <- El. clear -Hl. revert X iv Hl. induction n as [|n IH]; intros X iv Hl; [done|].
      cbn [cbc_enc_loop]. rewrite take_app_le, drop_app_le by lia.
      by rewrite IH by (rewrite length_drop; lia). }
    rewrite EL in HT. destruct HT as [_ ->].
    rewrite drop_app_ge by lia. rewrite <- Hl, Nat.sub_diag, drop_0.
    destruct HP as [HP _]. rewrite cbc_enc_tail_block by (lia || apply Hiv1).
    rewrite (take_ge P), (drop_ge P), cbc_enc_tail_nil by lia.
    unfold cons_block. simpl. by rewrite app_nil_r.
  - intros ->. destruct n; [|simpl in Hl; lia]. by injection El.
Qed.

(** The two halves of stealing: [last] is the encryption of the block [CP] with
    the residue [Q] mixed in; its decryption and the bytes of [CP] that were
    kept give [CP] and [Q] back. *)
Lemma steal_back r CP Q :
  nbytes 16 CP -> bytes Q -> length Q = r -> (r <= 16)%nat ->
  let last := enc (xor_front r CP Q) in
  nbytes 16 last /\
  blit 0 (take r CP) (dec last) = CP /\
  xor_bytes (take r (dec last)) (take r CP) = Q.
Proof.
  intros [Hl Hb] HQ HQl Hr last.
  assert (Hx : length (xor_bytes (take r CP) (take r Q)) = r)
    by (rewrite length_xor_bytes, !length_take; lia).
  assert (Hf : nbytes 16 (xor_front r CP Q)).
  { unfold xor_front. split; [rewrite length_app, Hx, length_drop; lia|].
    apply bytes_app. split; [apply bytes_xor; by apply bytes_take|by apply bytes_drop]. }
  split; [by apply block_ok|]. unfold last. rewrite (bc_inv (enc := enc) (dec := dec)) by done.
  unfold xor_front. split.
  - unfold blit. simpl (take 0 _). rewrite length_take, Nat.min_l, app_nil_l by lia.
    rewrite drop_app_ge, Hx by (rewrite Hx; simpl; lia).
    simpl. rewrite Nat.sub_diag, drop_0. apply take_drop.
  - rewrite take_app_le, take_ge by (rewrite ?Hx; lia).
    rewrite (xor_bytes_comm (take r CP)), xor_bytes_cancel by (rewrite !length_take; lia).
    by rewrite take_ge by lia.
Qed.

(** A text as whole blocks [X], one more block [P] and a residue [Q]. *)
Lemma cts_split inp r :
  bytes inp -> (16 < length inp)%nat -> (1 <= r <= 16)%nat ->
  (length inp mod 16 = r mod 16)%nat ->
  exists n X P Q, inp = X ++ P ++ Q /\ nbytes (16 * n) X /\ nbytes 16 P /\ nbytes r Q.
Proof.
  intros Hb Hl Hr Hm. set (n := ((length inp - r) / 16 - 1)%nat).
  assert (Hn : length inp = (16 * n + 16 + r)%nat).
  { pose proof (Nat.div_mod_eq (length inp) 16). pose proof (Nat.div_mod_eq r 16).
    assert (Hd : ((length inp - r) / 16 = length inp / 16 - r / 16)%nat).
    { replace (length inp - r)%nat with ((length inp / 16 - r / 16) * 16)%nat by lia.
      apply Nat.div_mul. lia. }
    assert (r <= 15 \/ r = 16)%nat as [?| ->] by lia.
    - rewrite (Nat.div_small r), (Nat.mod_small r) in * by lia. unfold n. rewrite Hd. lia.
    - change (16 / 16)%nat with 1%nat in *. change (16 mod 16)%nat with 0%nat in *.
      unfold n. rewrite Hd. lia. }
  exists n, (take (16 * n) inp), (take 16 (drop (16 * n) inp)), (drop (16 * n + 16) inp).
  split; [by rewrite <- drop_drop, !take_drop|].
  split_and!; try (split; [rewrite ?length_take, ?length_drop; lia|]);
    repeat (apply bytes_take || apply bytes_drop); done.
Qed.

Lemma pad_xor r CP Q :
  nbytes 16 CP -> nbytes r Q -> (r <= 16)%nat ->
  nbytes 16 (pad_residue r Q) /\ xor_bytes (pad_residue r Q) CP = xor_front r CP Q.
Proof.
  intros [Hl Hb] [HQl HQ] Hr. unfold pad_residue, blit, xor_front.
  rewrite (take_ge Q) by lia. simpl (take 0 _). rewrite app_nil_l.
  assert (Hz : drop (0 + length Q) (replicate 16 0) = replicate (16 - r) 0)
    by (rewrite drop_replicate; f_equal; lia).
  rewrite Hz. split; [split|].
  - rewrite length_app, length_replicate. lia.
  - apply bytes_app. split; [done|]. apply Forall_replicate. unfold is_byte. lia.
  - rewrite <- (take_drop r CP) at 1.
    rewrite xor_bytes_app by (rewrite length_take; lia). rewrite xor_bytes_comm. f_equal.
    generalize (drop r CP) (length_drop CP r). rewrite Hl. intros l <-.
    clear. induction l as [|x l IH]; [done|]. simpl. by rewrite IH.
Qed.

Lemma residue16_spec len :
  (1 <= residue16 len <= 16)%nat /\ (len mod 16 = residue16 len mod 16)%nat.
Proof.
  unfold residue16. pose proof (Nat.mod_upper_bound len 16 ltac:(lia)).
  destruct (Nat.eqb_spec (len mod 16) 0) as [E|E]; [rewrite E; split; [lia|done]|].
  rewrite Nat.Div0.mod_mod. lia.
Qed.

(** One more block through CBC, either direction. *)
Lemma cbc_one_enc cbc `{!CbcFn enc dec cbc} B iv :
  nbytes 16 B -> nbytes 16 iv ->
  cbc B iv true = (enc (xor_bytes B iv), enc (xor_bytes B iv)).
Proof.
  intros HB Hiv. rewrite (cbc_fn_enc 1 B iv) by done.
  destruct (cbc_whole 0 [] iv) as (c & iv1 & Hc & _ & _ & _ & H & Hnil);
    [split; [done|constructor]|done|].
  rewrite Hnil in H by done. destruct Hc as [Hc _]. destruct c; [|done].
  rewrite <- (app_nil_l B). by rewrite H.
Qed.

Lemma cbc_one_dec cbc `{!CbcFn enc dec cbc} C iv :
  nbytes 16 C -> nbytes 16 iv -> cbc C iv false = (xor_bytes (dec C) iv, C).
Proof.
  intros [Hl Hb] Hiv. rewrite (cbc_fn_dec 1 C iv), (cbc_decrypt_tail dec) by (done || lia).
  rewrite Hl, (cbc_dec_tail_block dec) by (done || lia). rewrite take_ge by lia.
  unfold cons_block. simpl. by rewrite app_nil_r.
Qed.

Lemma cbc_two_dec cbc `{!CbcFn enc dec cbc} C1 C2 iv :
  nbytes 16 C1 -> nbytes 16 C2 -> nbytes 16 iv ->
  cbc (C1 ++ C2) iv false = (xor_bytes (dec C1) iv ++ xor_bytes (dec C2) C1, C2).
Proof.
  intros [Hl1 Hb1] [Hl2 Hb2] Hiv.
  assert (Hb : bytes (C1 ++ C2)) by (by apply bytes_app).
  assert (Hl : length (C1 ++ C2) = 32%nat) by (rewrite length_app; lia).
  rewrite (cbc_fn_dec 2 (C1 ++ C2) iv), (cbc_decrypt_tail dec) by (done || lia).
  rewrite Hl, (cbc_dec_tail_block dec) by (done || lia).
  rewrite take_app_le, drop_app_ge, Hl1, Nat.sub_diag, drop_0, (take_ge C1) by lia.
  change (32 - 16)%nat with 16%nat. rewrite (cbc_dec_tail_block dec) by (done || lia).
  rewrite (take_ge C2) by lia. unfold cons_block. simpl. by rewrite app_nil_r.
Qed.
End cts_facts.

(** ** Round trips *)

Section cts_roundtrip.
Context (enc dec : list Z -> list Z) `{!BlockCipher enc dec}.
Context (cbc : list Z -> list Z -> bool -> list Z * list Z) `{!CbcFn enc dec cbc}.

(** Decrypting the whole blocks in front, if there are any. *)
Lemma front_blocks n c X suf iv iv1 :
  nbytes (16 * n) c -> bytes suf -> nbytes 16 iv ->
  (forall small m suf, bytes suf ->
     CRYPTO_cbc128_decrypt dec small m (16 * n) (c ++ suf) iv = (X, iv1)) ->
  (forall small m, (if (16 * n =? 0)%nat then ([], iv)
     else CRYPTO_cbc128_decrypt dec small m (16 * n) (c ++ suf) iv) = (X, iv1)) /\
  (if (16 * n =? 0)%nat then ([], iv) else cbc (take (16 * n) (c ++ suf)) iv false) = (X, iv1).
Proof.
  intros Hc Hs Hiv H. pose proof (H true true [] ltac:(constructor)) as H0.
  rewrite app_nil_r in H0.
  destruct (Nat.eqb_spec (16 * n) 0) as [E|E].
  - assert (n = 0%nat) as -> by lia. split; [intros _ _|]; by rewrite <- H0.
  - split; [intros small m; by apply H|]. destruct Hc as [Hl Hb].
    rewrite take_app_le, take_ge by lia. rewrite (cbc_fn_dec n c iv) by done. by rewrite Hl.
Qed.

(** The join at the end of both decryptions over a CBC routine. *)
Lemma cts_join_eq r last CP part iv1 Q :
  nbytes 16 last -> nbytes 16 CP -> nbytes 16 iv1 ->
  take r part = take r CP -> (r <= 16)%nat ->
  blit 0 (take r CP) (dec last) = CP -> xor_bytes (take r (dec last)) (take r CP) = Q ->
  cts_join cbc r last part iv1 = (xor_bytes (dec CP) iv1 ++ Q, last).
Proof.
  intros Hlast HCP Hiv1 Hpart Hr Hb HQ. unfold cts_join.
  pose proof (block_ok (f := dec) last Hlast) as Hd.
  assert (Hz : nbytes 16 (replicate 16 0)) by solve_closed.
  rewrite (cbc_one_dec enc dec cbc) by done.
  assert (Hx : xor_bytes (dec last) (replicate 16 0) = dec last).
  { rewrite xor_bytes_comm. destruct Hd as [Hl _]. revert Hl. generalize (dec last). intros l Hl.
    do 17 (destruct l as [|? l]; try discriminate Hl). done. }
  rewrite Hx, Hpart, Hb. rewrite (cbc_two_dec enc dec cbc) by done.
  assert (Hlx : length (xor_bytes (dec CP) iv1) = 16%nat).
  { apply nbytes_xor; [by apply block_ok|done]. }
  rewrite take_app_ge by lia. rewrite Hlx. replace (16 + r - 16)%nat with r by lia.
  by rewrite xor_bytes_take, HQ.
Qed.

(** The layout of RFC 2040. *)
Lemma cts_geometry n r X P Q (iv : list Z) :
  nbytes (16 * n) X -> nbytes 16 P -> nbytes r Q -> (1 <= r <= 16)%nat ->
  let inp := X ++ P ++ Q in
  length inp = (16 * n + 16 + r)%nat /\ residue16 (length inp) = r /\
  (r < 16 -> length inp mod 16 = r)%nat /\
  take (16 * n + 16) inp = X ++ P /\ drop (16 * n + 16) inp = Q.
Proof.
  intros [HX _] [HP _] [HQ _] Hr inp. subst inp.
  assert (Hl : length (X ++ P ++ Q) = (16 * n + 16 + r)%nat) by (rewrite !length_app; lia).
  rewrite Hl. assert (Hm : ((16 * n + 16 + r) mod 16 = r mod 16)%nat).
  { replace (16 * n + 16 + r)%nat with (r + (n + 1) * 16)%nat by lia. apply Nat.Div0.mod_add. }
  split_and!.
  - done.
  - unfold residue16. rewrite Hm. assert (r < 16 \/ r = 16)%nat as [?| ->] by lia; [|done].
    rewrite Nat.mod_small by lia. destruct (Nat.eqb_spec r 0); [lia|done].
  - intros Hlt. by rewrite Hm, Nat.mod_small.
  - rewrite app_assoc. apply take_app_length'. rewrite length_app. lia.
  - rewrite app_assoc. apply drop_app_length'. rewrite length_app. lia.
Qed.

(** The parts of a text longer than one block and of its ciphertext: [c] the
    blocks in front, [CP] the encryption of the last whole block, [lst] that of
    the residue. *)
Record cts_parts (inp iv : list Z) (r n : nat) (X P Q c iv1 CP lst : list Z) : Prop := {
  cp_inp : inp = X ++ P ++ Q;
  cp_len : length inp = (16 * n + 16 + r)%nat;
  cp_take : take (16 * n + 16) inp = X ++ P;
  cp_drop : drop (16 * n + 16) inp = Q;
  cp_c : nbytes (16 * n) c;
  cp_iv1 : nbytes 16 iv1;
  cp_CP : nbytes 16 CP;
  cp_lst : nbytes 16 lst;
  cp_lst_eq : lst = enc (xor_front r CP Q);
  cp_XP : nbytes (16 * S n) (X ++ P);
  cp_enc : forall small m, CRYPTO_cbc128_encrypt enc small m (X ++ P) iv = (c ++ CP, CP);
  cp_front : forall suf, bytes suf ->
    (forall small m, (if (16 * n =? 0)%nat then ([], iv)
       else CRYPTO_cbc128_decrypt dec small m (16 * n) (c ++ suf) iv) = (X, iv1)) /\
    (if (16 * n =? 0)%nat then ([], iv) else cbc (take (16 * n) (c ++ suf)) iv false) = (X, iv1);
  cp_back : blit 0 (take r CP) (dec lst) = CP;
  cp_Q : xor_bytes (take r (dec lst)) (take r CP) = Q;
  cp_P : xor_bytes (dec CP) iv1 = P;
  cp_pad : nbytes 16 (pad_residue r Q) /\ xor_bytes (pad_residue r Q) CP = xor_front r CP Q
}.

Lemma cts_parts_exist inp iv r :
  bytes inp -> (16 < length inp)%nat -> nbytes 16 iv -> (1 <= r <= 16)%nat ->
  (length inp mod 16 = r mod 16)%nat ->
  exists n X P Q c iv1 CP lst, cts_parts inp iv r n X P Q c iv1 CP lst.
Proof.
  intros Hb Hl Hiv Hr Hm.
  destruct (cts_split inp r Hb Hl Hr Hm) as (n & X & P & Q & -> & HX & HP & HQ).
  destruct (cts_geometry n r X P Q iv HX HP HQ Hr) as (Hlen & _ & _ & Htk & Hdr).
  destruct (cbc_whole enc dec n X iv HX Hiv) as (c & iv1 & Hc & Hiv1 & _ & Hdec & Henc & _).
  assert (HCP : nbytes 16 (enc (xor_bytes P iv1))) by (by apply block_ok, nbytes_xor).
  destruct (steal_back enc dec r _ Q HCP (proj2 HQ) (proj1 HQ) ltac:(lia)) as (Hlast & Hback & HQb).
  eexists n, X, P, Q, c, iv1, (enc (xor_bytes P iv1)), _. split; try done.
  - destruct HX, HP. split; [rewrite length_app; lia|by apply bytes_app].
  - intros small m. by apply Henc.
  - intros suf Hs. by apply front_blocks.
  - rewrite (bc_inv (enc := enc) (dec := dec)) by (by apply nbytes_xor).
    apply xor_bytes_cancel. destruct HP, Hiv1. lia.
  - apply pad_xor; (done || lia).
Qed.

(** Cutting a list at a known position. *)
Lemma cut n (a b : list Z) : nbytes n a -> take n (a ++ b) = a /\ drop n (a ++ b) = b.
Proof. intros [Hl _]. split; [by apply take_app_length'|by apply drop_app_length']. Qed.

(** RFC 2040 ciphertext stealing: for every text longer than one block, the
    routine over a block function (in any build) and the one over a CBC routine
    produce the same ciphertext, of the length of the text, and both decryptions
    give the text back and the same chaining value.  The decryption over a
    block function reports 16 bytes more than it writes. *)
Theorem cts128_roundtrip inp iv :
  bytes inp -> (16 < length inp)%nat -> nbytes 16 iv ->
  exists c iv', length c = length inp /\
    CRYPTO_cts128_encrypt cbc inp iv = (length inp, c, iv') /\
    CRYPTO_cts128_decrypt cbc c iv = (length inp, inp, iv') /\
    forall small m,
      CRYPTO_cts128_encrypt_block enc small m inp iv = (length inp, c, iv') /\
      CRYPTO_cts128_decrypt_block dec small m c iv = ((length inp + 16)%nat, inp, iv').
Proof.
  intros Hb Hl Hiv. destruct (residue16_spec (length inp)) as [Hr Hm].
  destruct (cts_parts_exist inp iv (residue16 (length inp)) Hb Hl Hiv Hr Hm)
    as (n & X & P & Q & c & iv1 & CP & lst & C).
  set (r := residue16 (length inp)) in *. destruct C.
  assert (Hr2 : residue16 (length inp) = r) by done.
  set (out := c ++ lst ++ take r CP).
  assert (HC : length out = length inp).
  { unfold out. destruct cp_c0, cp_lst0, cp_CP0. rewrite !length_app, length_take. lia. }
  assert (Hsuf : bytes (lst ++ take r CP))
    by (apply bytes_app; split; [apply cp_lst0|apply bytes_take, cp_CP0]).
  destruct (cp_front0 _ Hsuf) as [Hf1 Hf2]. fold out in Hf1, Hf2.
  destruct (cut _ c (lst ++ take r CP) cp_c0) as [_ Hdc]. fold out in Hdc.
  destruct (cut _ lst (take r CP) cp_lst0) as [Ht16 Hd16].
  destruct (cut _ c CP cp_c0) as [_ HdC]. destruct cp_pad0 as [Hpad Hpx].
  assert (Hout : blit (16 * n) lst ((c ++ CP) ++ take r CP) = out).
  { destruct cp_c0 as [Hcl _], cp_lst0 as [Hll _], cp_CP0 as [HCl _]. unfold blit, out.
    rewrite <- app_assoc, take_app_le, take_ge by lia. f_equal. f_equal.
    rewrite drop_app_ge, drop_app_ge by lia. rewrite Hcl, HCl, Hll.
    by replace (16 * n + 16 - 16 * n - 16)%nat with 0%nat by lia. }
  exists out, lst. split; [done|].
  unfold CRYPTO_cts128_encrypt, CRYPTO_cts128_decrypt, CRYPTO_cts128_encrypt_block,
    CRYPTO_cts128_decrypt_block.
  rewrite HC, Hr2, cp_len0. clear Hr2.
  replace (16 * n + 16 + r - r)%nat with (16 * n + 16)%nat by lia.
  replace (16 * n + 16 + r - (16 + r))%nat with (16 * n)%nat by lia.
  replace (16 * n + 16 - 16)%nat with (16 * n)%nat by lia.
  destruct (Nat.leb_spec (16 * n + 16 + r) 16) as [Hbad|_]; [lia|].
  rewrite cp_take0, cp_drop0, Hdc, Hd16, Ht16, Hf2.
  rewrite (cbc_fn_enc (S n) (X ++ P) iv), cp_enc0 by done.
  rewrite (cbc_one_enc enc dec cbc), Hpx, <- cp_lst_eq0, HdC, Hout by done.
  rewrite (cts_join_eq r lst CP (take r CP) iv1 Q) by (done || lia || by rewrite take_take, Nat.min_id).
  rewrite cp_P0, <- cp_inp0. split; [done|]. split; [do 2 f_equal; lia|]. intros small m.
  rewrite cp_enc0, HdC, <- cp_lst_eq0, Hout, Hf1.
  rewrite (take_take CP), Nat.min_id, cp_back0, cp_P0, cp_Q0, <- cp_inp0.
  split; [done|]. do 2 f_equal. lia.
Qed.

(** The NIST layout: as above for texts that end within a block, and plain
    CBC for the others. *)
Theorem nistcts128_roundtrip inp iv :
  bytes inp -> (16 <= length inp)%nat -> nbytes 16 iv ->
  exists c iv', length c = length inp /\
    CRYPTO_nistcts128_encrypt cbc inp iv = (length inp, c, iv') /\
    CRYPTO_nistcts128_decrypt cbc c iv = (length inp, inp, iv') /\
    forall small m,
      CRYPTO_nistcts128_encrypt_block enc small m inp iv = (length inp, c, iv') /\
      CRYPTO_nistcts128_decrypt_block dec small m c iv =
        ((length inp + if (length inp mod 16 =? 0)%nat then 0 else 16)%nat, inp, iv').
Proof.
  intros Hb Hl Hiv. set (r := (length inp mod 16)%nat).
  assert (Hr : (r < 16)%nat) by (apply Nat.mod_upper_bound; lia).
  unfold CRYPTO_nistcts128_encrypt, CRYPTO_nistcts128_decrypt,
    CRYPTO_nistcts128_encrypt_block, CRYPTO_nistcts128_decrypt_block.
  fold r. destruct (Nat.ltb_spec (length inp) 16) as [Hbad|_]; [lia|].
  destruct (Nat.eqb_spec r 0) as [E|E].
  - assert (HX : nbytes (16 * (length inp / 16)) inp).
    { split; [|done]. pose proof (Nat.div_mod_eq (length inp) 16). lia. }
    destruct (cbc_whole enc dec _ inp iv HX Hiv) as (c & iv1 & Hc & Hiv1 & Henc & Hdec & _).
    assert (HC : length c = length inp) by (destruct Hc, HX; congruence).
    assert (Hdec' : forall small m, CRYPTO_cbc128_decrypt dec small m (length inp) c iv = (inp, iv1)).
    { intros small m. specialize (Hdec small m [] ltac:(constructor)).
      rewrite app_nil_r in Hdec. destruct HX as [HX _]. by rewrite HX. }
    exists c, iv1. split; [done|]. rewrite HC, E, Nat.sub_0_r, Nat.add_0_r, take_ge by lia.
    rewrite (cbc_fn_enc _ inp iv HX Hiv), Henc.
    rewrite (cbc_fn_dec _ c iv Hc Hiv), HC, Hdec'. fold r. rewrite E.
    destruct (Nat.ltb_spec (length inp) 16) as [Hbad|_]; [lia|].
    split; [done|]. split; [done|]. intros small m. by rewrite Henc, Hdec'.
  - destruct (cts_parts_exist inp iv r Hb) as (n & X & P & Q & c & iv1 & CP & lst & C);
      [unfold r in *; destruct (decide (length inp = 16%nat)) as [H16|]; [by rewrite H16 in E|lia]
      |done|lia|unfold r; by rewrite Nat.Div0.mod_mod|].
    destruct C. set (out := c ++ take r CP ++ lst).
    assert (HtC : nbytes r (take r CP)).
    { destruct cp_CP0. split; [rewrite length_take; lia|by apply bytes_take]. }
    assert (HC : length out = length inp).
    { unfold out. destruct cp_c0, cp_lst0, HtC. rewrite !length_app. lia. }
    assert (Hsuf : bytes (take r CP ++ lst))
      by (apply bytes_app; split; [apply HtC|apply cp_lst0]).
    destruct (cp_front0 _ Hsuf) as [Hf1 Hf2]. fold out in Hf1, Hf2.
    destruct (cut _ c (take r CP ++ lst) cp_c0) as [_ Hdc]. fold out in Hdc.
    destruct (cut _ (take r CP) lst HtC) as [Htr Hdr].
    assert (Htl : take 16 lst = lst) by (apply take_ge; destruct cp_lst0; lia).
    destruct cp_pad0 as [Hpad Hpx].
    assert (Hout : take (16 * n + r) (c ++ CP) ++ lst = out).
    { destruct cp_c0 as [Hcl _]. unfold out. rewrite take_app_ge by lia. rewrite Hcl.
      replace (16 * n + r - 16 * n)%nat with r by lia. by rewrite <- app_assoc. }
    exists out, lst. split; [done|]. rewrite HC. fold r.
    destruct (Nat.eqb_spec r 0) as [|_]; [done|].
    destruct (Nat.ltb_spec (length inp) 16) as [Hbad|_]; [lia|]. rewrite cp_len0.
    replace (16 * n + 16 + r - r)%nat with (16 * n + 16)%nat by lia.
    replace (16 * n + 16 + r - (16 + r))%nat with (16 * n)%nat by lia.
    replace (16 * n + 16 - 16 + r)%nat with (16 * n + r)%nat by lia.
    rewrite cp_take0, cp_drop0, Hdc, Hdr, Htl, Hf2.
    rewrite (cbc_fn_enc (S n) (X ++ P) iv), cp_enc0 by done.
    rewrite (cbc_one_enc enc dec cbc), Hpx, <- cp_lst_eq0, Hout by done.
    rewrite (cts_join_eq r lst CP (take r CP ++ lst) iv1 Q) by (done || lia).
    rewrite cp_P0, <- cp_inp0. split; [done|]. split; [do 2 f_equal; lia|]. intros small m.
    rewrite cp_enc0, <- cp_lst_eq0, Hout, Hf1, Htr, cp_back0, cp_P0.
    rewrite (take_take (take r CP ++ lst)), Nat.min_l, Htr, cp_Q0, <- cp_inp0 by lia.
    split; [done|]. do 2 f_equal. lia.
Qed.
End cts_roundtrip.

(** Twenty-one bytes. *)
Lemma cts128_roundtrip_witness :
  let inp := seqZ 30 21 in
  exists c, length c = 21%nat /\
    CRYPTO_cts128_decrypt_block toy_dec false false c (seqZ 1 16) =
      (37%nat, inp, snd (CRYPTO_cts128_encrypt_block toy_enc true true inp (seqZ 1 16))).
Proof.
  intros inp.
  destruct (cts128_roundtrip toy_enc toy_dec (cbc_pair toy_enc toy_dec) inp (seqZ 1 16))
    as (c & iv' & Hl & _ & _ & H); [solve_closed|vm_compute; lia|solve_closed|].
  exists c. split; [exact Hl|]. destruct (H true true) as [-> _]. exact (proj2 (H false false)).
Defined.

Lemma nistcts128_roundtrip_witness :
  let inp := seqZ 30 21 in
  exists c iv', length c = 21%nat /\
    CRYPTO_nistcts128_decrypt (cbc_pair toy_enc toy_dec) c (seqZ 1 16) = (21%nat, inp, iv').
Proof.
  intros inp.
  destruct (nistcts128_roundtrip toy_enc toy_dec (cbc_pair toy_enc toy_dec) inp (seqZ 1 16))
    as (c & iv' & Hl & _ & H & _); [solve_closed|vm_compute; lia|solve_closed|].
  exists c, iv'. split; [exact Hl|exact H].
Defined.
