(* ===== verification/Wrap128.v ===== *)
(** * Key wrapping (openssl crypto/modes/wrap128.c)

    RFC 3394 wrapping and RFC 5649 wrapping with padding: six passes over the
    8-byte blocks of the key data, each block encrypted together with a running
    value [A], which takes up a step counter.  The output buffer of the
    functions that erase it on failure is a list of the caller's size. *)

From S2P Require Import Prelude Bytes Stream.

Definition default_iv : list Z := [0xA6; 0xA6; 0xA6; 0xA6; 0xA6; 0xA6; 0xA6; 0xA6].

Definition default_aiv : list Z := [0xA6; 0x59; 0x59; 0xA6].

Definition CRYPTO128_WRAP_MAX : Z := 2 ^ 31.

(** [A[7] ^= t & 0xff; if (t > 0xff) ...] *)
Definition xor_step (t : Z) (A : list Z) : list Z :=
  let A := <[7%nat := Z.lxor (byte_at A 7) (u8 (Z.land t 0xff))]> A in
  if 0xff <? t then
    let A := <[6%nat := Z.lxor (byte_at A 6) (u8 (Z.land (Z.shiftr t 8) 0xff))]> A in
    let A := <[5%nat := Z.lxor (byte_at A 5) (u8 (Z.land (Z.shiftr t 16) 0xff))]> A in
    <[4%nat := Z.lxor (byte_at A 4) (u8 (Z.land (Z.shiftr t 24) 0xff))]> A
  else A.

Section wrap.
Context (block : list Z -> list Z).

(** The inner loop of the wrapping over [n] blocks [R]; [t] counts up. *)
Fixpoint wrap_pass (n : nat) (t : Z) (A R : list Z) : list Z * list Z :=
  match n with
  | O => (A, [])
  | S k =>
      let B := block (A ++ take 8 R) in
      let A := xor_step t (take 8 B) in
      let '(A', R') := wrap_pass k (t + 1) A (drop 8 R) in
      (A', drop 8 B ++ R')
  end.

(** [for (j = 0; j < 6; j++)] *)
Fixpoint wrap_passes (j n : nat) (t : Z) (A R : list Z) : list Z * list Z :=
  match j with
  | O => (A, R)
  | S j' =>
      let '(A', R') := wrap_pass n t A R in
      wrap_passes j' n (t + Z.of_nat n) A' R'
  end.

(** The return value and the output; [iv = None] is a null pointer. *)
Definition CRYPTO_128_wrap (iv : option (list Z)) (inp : list Z) : Z * list Z :=
  let inlen := Z.of_nat (length inp) in
  if negb (Z.land inlen 7 =? 0) || (inlen <? 16) || (CRYPTO128_WRAP_MAX <? inlen) then (0, [])
  else
    let A := take 8 (default default_iv iv) in
    let '(A', R') := wrap_passes 6 (length inp / 8) 1 A inp in
    (inlen + 8, A' ++ R').

(** The inner loop of the unwrapping, from the last block to the first; [t]
    counts down. *)
Fixpoint unwrap_pass (n : nat) (t : Z) (A R : list Z) : list Z * list Z :=
  match n with
  | O => (A, [])
  | S k =>
      let B := block (xor_step t A ++ drop (8 * k) R) in
      let '(A', R') := unwrap_pass k (t - 1) (take 8 B) (take (8 * k) R) in
      (A', R' ++ drop 8 B)
  end.

Fixpoint unwrap_passes (j n : nat) (t : Z) (A R : list Z) : list Z * list Z :=
  match j with
  | O => (A, R)
  | S j' =>
      let '(A', R') := unwrap_pass n t A R in
      unwrap_passes j' n (t - Z.of_nat n) A' R'
  end.

(** The return value, [iv] and the output, if any; [inlen] is a [size_t]. *)
Definition crypto_128_unwrap_raw (inp : list Z) : Z * list Z * list Z :=
  let inlen := (Z.of_nat (length inp) - 8) mod 2 ^ 64 in
  if negb (Z.land inlen 7 =? 0) || (inlen <? 16) || (CRYPTO128_WRAP_MAX <? inlen)
  then (0, [], [])
  else
    let n := Z.to_nat (Z.shiftr inlen 3) in
    let '(A, R) := unwrap_passes 6 n (6 * Z.shiftr inlen 3) (take 8 inp) (drop 8 inp) in
    (inlen, A, R).

(** [OPENSSL_cleanse(out, n)] *)
Definition cleanse (n : Z) (out : list Z) : outcome (list Z) :=
  mem_write out 0 (replicate (Z.to_nat n) 0).

Definition CRYPTO_128_unwrap (iv : option (list Z)) (inp out : list Z)
  : outcome (Z * list Z) :=
  let '(ret, got_iv, data) := crypto_128_unwrap_raw inp in
  if ret =? 0 then Ret (0, out)
  else
    out1 ← mem_write out 0 data;
    if bool_decide (got_iv = take 8 (default default_iv iv)) then Ret (ret, out1)
    else out2 ← cleanse ret out1; Ret (0, out2).

Definition CRYPTO_128_wrap_pad (icv : option (list Z)) (inp : list Z) : Z * list Z :=
  let inlen := Z.of_nat (length inp) in
  let blocks_padded := (inlen + 7) / 8 in
  let padded_len := blocks_padded * 8 in
  let padding_len := padded_len - inlen in
  if (inlen =? 0) || (CRYPTO128_WRAP_MAX <=? inlen) then (0, [])
  else
    let aiv := take 4 (default default_aiv icv) ++
      [Z.land (Z.shiftr inlen 24) 0xff; Z.land (Z.shiftr inlen 16) 0xff;
       Z.land (Z.shiftr inlen 8) 0xff; Z.land inlen 0xff] in
    if padded_len =? 8 then
      (16, block (aiv ++ inp ++ replicate (Z.to_nat padding_len) 0))
    else
      CRYPTO_128_wrap (Some aiv) (inp ++ replicate (Z.to_nat padding_len) 0).

(** The last part of [CRYPTO_128_unwrap_pad]: the checks of the initial value
    and of the padding. *)
Definition unwrap_pad_check (icv : option (list Z)) (inlen n padded_len : Z)
    (aiv out : list Z) : outcome (Z * list Z) :=
  if negb (bool_decide (take 4 aiv = take 4 (default default_aiv icv)))
  then out1 ← cleanse inlen out; Ret (0, out1)
  else
    let ptext_len :=
      Z.lor (Z.lor (Z.lor (Z.shiftl (byte_at aiv 4) 24) (Z.shiftl (byte_at aiv 5) 16))
               (Z.shiftl (byte_at aiv 6) 8)) (byte_at aiv 7) in
    if (ptext_len <=? 8 * (n - 1)) || (8 * n <? ptext_len)
    then out1 ← cleanse inlen out; Ret (0, out1)
    else
      let padding_len := padded_len - ptext_len in
      pad ← mem_read out ptext_len padding_len;
      if negb (bool_decide (pad = replicate (Z.to_nat padding_len) 0))
      then out1 ← cleanse inlen out; Ret (0, out1)
      else Ret (ptext_len, out).

Definition CRYPTO_128_unwrap_pad (icv : option (list Z)) (inp out : list Z)
  : outcome (Z * list Z) :=
  let inlen := Z.of_nat (length inp) in
  let n := inlen / 8 - 1 in
  if negb (Z.land inlen 7 =? 0) || (inlen <? 16) || (CRYPTO128_WRAP_MAX <=? inlen)
  then Ret (0, out)
  else if inlen =? 16 then
    let buff := block inp in
    out1 ← mem_write out 0 (drop 8 buff);
    unwrap_pad_check icv inlen n 8 (take 8 buff) out1
  else
    let padded_len := inlen - 8 in
    let '(ret, aiv, data) := crypto_128_unwrap_raw inp in
    out1 ← mem_write out 0 data;
    if negb (padded_len =? ret) then out2 ← cleanse inlen out1; Ret (0, out2)
    else unwrap_pad_check icv inlen n padded_len aiv out1.
End wrap.

(** ** Passes are inverse *)

Lemma length_xor_step t A : length (xor_step t A) = length A.
Proof. unfold xor_step. destruct (0xff <? t); by rewrite ?length_insert. Qed.

Lemma nbytes_xor_step t A : nbytes 8 A -> nbytes 8 (xor_step t A).
Proof.
  assert (H : forall n z B, nbytes 8 B ->
    nbytes 8 (<[n := Z.lxor (byte_at B n) (u8 z)]> B)).
  { intros n z B HB. apply nbytes_insert; [done|]. apply is_byte_lxor.
    - by eapply byte_at_is_byte.
    - unfold is_byte, u8. apply Z.mod_pos_bound. lia. }
  intros HA. unfold xor_step. destruct (0xff <? t); by repeat apply H.
Qed.

Lemma xor_step_involutive t A : length A = 8%nat -> xor_step t (xor_step t A) = A.
Proof.
  intros Hl. do 8 (destruct A as [|? A]; [discriminate Hl|]). destruct A; [|discriminate Hl].
  unfold xor_step, byte_at. destruct (0xff <? t); simpl; by rewrite !lxor_cancel_r.
Qed.

Section wrap_facts.
Context (enc dec : list Z -> list Z) `{!BlockCipher enc dec}.

Lemma split_16 B : nbytes 16 B -> nbytes 8 (take 8 B) /\ nbytes 8 (drop 8 B).
Proof.
  intros [Hl Hb]. split; (split; [rewrite ?length_take, ?length_drop; lia|]);
    [by apply bytes_take|by apply bytes_drop].
Qed.

Lemma nbytes_app n m a b : nbytes n a -> nbytes m b -> nbytes (n + m) (a ++ b).
Proof. intros [? ?] [? ?]. split; [rewrite length_app; lia|by apply bytes_app]. Qed.

Lemma nbytes_wrap_pass n : forall t A R, nbytes 8 A -> nbytes (8 * n) R ->
  nbytes 8 (fst (wrap_pass enc n t A R)) /\ nbytes (8 * n) (snd (wrap_pass enc n t A R)).
Proof.
  induction n as [|n IH]; intros t A R HA HR; [by split; [|split; [done|constructor]]|].
  replace (8 * S n)%nat with (8 + 8 * n)%nat in * by lia. cbn [wrap_pass].
  assert (HB : nbytes 16 (enc (A ++ take 8 R))).
  { apply block_ok. apply (nbytes_app 8 8); [done|by eapply nbytes_take]. }
  destruct (split_16 _ HB) as [H1 H2].
  destruct (IH (t + 1) (xor_step t (take 8 (enc (A ++ take 8 R)))) (drop 8 R))
    as [HA' HR']; [by apply nbytes_xor_step|by eapply nbytes_drop|].
  destruct (wrap_pass enc n _ _ _) as [A' R']. split; [done|]. by apply (nbytes_app 8 (8 * n)).
Qed.

(** The unwrapping reaches the first block last. *)
Lemma unwrap_pass_cons k : forall t A b R,
  length b = 8%nat -> length R = (8 * k)%nat ->
  unwrap_pass dec (S k) t A (b ++ R) =
    let '(A1, R1) := unwrap_pass dec k t A R in
    let B := dec (xor_step (t - Z.of_nat k) A1 ++ b) in
    (take 8 B, drop 8 B ++ R1).
Proof.
  induction k as [|k IH]; intros t A b R Hb HR.
  - destruct R; [|simpl in HR; lia]. cbn [unwrap_pass Nat.mul take drop].
    by rewrite !app_nil_r, Z.sub_0_r.
  - cbn [unwrap_pass].
    replace (drop (8 * S k) (b ++ R)) with (drop (8 * k) R)
      by (rewrite drop_app_ge by lia; f_equal; lia).
    replace (take (8 * S k) (b ++ R)) with (b ++ take (8 * k) R)
      by (rewrite take_app_ge by lia; do 2 f_equal; lia).
    set (B := dec (xor_step t A ++ drop (8 * k) R)).
    assert (Ht : length (take (8 * k) R) = (8 * k)%nat) by (rewrite length_take; lia).
    specialize (IH (t - 1) (take 8 B) b _ Hb Ht). cbn [unwrap_pass] in IH.
    rewrite IH. destruct (unwrap_pass dec k (t - 1) (take 8 B) (take (8 * k) R)) as [A1 R1].
    cbn zeta. replace (t - 1 - Z.of_nat k) with (t - Z.of_nat (S k)) by lia.
    by rewrite app_assoc.
Qed.

Lemma unwrap_wrap_pass n : forall t A R, nbytes 8 A -> nbytes (8 * n) R ->
  let '(A', R') := wrap_pass enc n t A R in
  unwrap_pass dec n (t + Z.of_nat n - 1) A' R' = (A, R).
Proof.
  induction n as [|n IH]; intros t A R HA HR.
  { destruct HR as [HR _]. by destruct R. }
  replace (8 * S n)%nat with (8 + 8 * n)%nat in * by lia. cbn [wrap_pass].
  pose proof (nbytes_take _ _ _ HR) as Ht. pose proof (nbytes_drop _ _ _ HR) as Hd.
  assert (HAR : nbytes 16 (A ++ take 8 R)) by (by apply (nbytes_app 8 8)).
  set (B := enc (A ++ take 8 R)). assert (HB : nbytes 16 B) by (by apply block_ok).
  destruct (split_16 _ HB) as [H1 H2].
  specialize (IH (t + 1) (xor_step t (take 8 B)) (drop 8 R)
    (nbytes_xor_step _ _ H1) Hd).
  pose proof (nbytes_wrap_pass n (t + 1) (xor_step t (take 8 B)) (drop 8 R)
    (nbytes_xor_step _ _ H1) Hd) as [_ HR'].
  destruct (wrap_pass enc n (t + 1) _ (drop 8 R)) as [A' R']. cbn [snd] in HR'.
  rewrite unwrap_pass_cons by (apply H2 || apply HR').
  replace (t + Z.of_nat (S n) - 1) with (t + 1 + Z.of_nat n - 1) by lia. rewrite IH.
  cbn zeta. replace (t + 1 + Z.of_nat n - 1 - Z.of_nat n) with t by lia.
  rewrite xor_step_involutive, take_drop by apply H1. unfold B.
  rewrite (bc_inv (enc := enc) (dec := dec)) by done. destruct HA as [HA _].
  rewrite take_app_le, drop_app_ge, (take_ge A), HA, Nat.sub_diag, drop_0 by lia.
  by rewrite take_drop.
Qed.

(** Undoing the passes from the last counter value on. *)
Lemma unwrap_wrap_passes n : forall j t A R, nbytes 8 A -> nbytes (8 * n) R ->
  let '(A', R') := wrap_passes enc j n t A R in
  nbytes 8 A' /\ nbytes (8 * n) R' /\
  unwrap_passes dec j n (t + Z.of_nat j * Z.of_nat n - 1) A' R' = (A, R).
Proof.
  assert (Hsnoc : forall j t A R, unwrap_passes dec (S j) n t A R =
    let '(A1, R1) := unwrap_passes dec j n t A R in
    unwrap_pass dec n (t - Z.of_nat j * Z.of_nat n) A1 R1).
  { induction j as [|j IH]; intros t A R.
    - cbn [unwrap_passes]. rewrite Z.sub_0_r. by destruct (unwrap_pass dec n t A R).
    - cbn [unwrap_passes] in *. destruct (unwrap_pass dec n t A R) as [A1 R1].
      rewrite IH. destruct (unwrap_passes dec j n _ A1 R1). f_equal. lia. }
  induction j as [|j IH]; intros t A R HA HR; [done|].
  cbn [wrap_passes]. pose proof (unwrap_wrap_pass n t A R HA HR) as Hone.
  pose proof (nbytes_wrap_pass n t A R HA HR) as [HA1 HR1].
  destruct (wrap_pass enc n t A R) as [A1 R1]. cbn [fst snd] in *.
  specialize (IH (t + Z.of_nat n) A1 R1 HA1 HR1).
  destruct (wrap_passes enc j n (t + Z.of_nat n) A1 R1) as [A' R'].
  destruct IH as (HA' & HR' & IH). split; [done|]. split; [done|].
  rewrite Hsnoc. replace (t + Z.of_nat (S j) * Z.of_nat n - 1)
    with (t + Z.of_nat n + Z.of_nat j * Z.of_nat n - 1) by lia.
  rewrite IH. rewrite <- Hone. f_equal. lia.
Qed.

Lemma land_7 z : Z.land z 7 = z mod 8.
Proof. change 7 with (Z.ones 3). by rewrite Z.land_ones. Qed.

(** What wrapping produces, and that the raw unwrapping undoes it. *)
Lemma wrap_raw iv inp :
  nbytes (length inp) inp -> Z.of_nat (length inp) mod 8 = 0 ->
  16 <= Z.of_nat (length inp) <= CRYPTO128_WRAP_MAX -> nbytes 8 (take 8 (default default_iv iv)) ->
  exists c, CRYPTO_128_wrap enc iv inp = (Z.of_nat (length inp) + 8, c) /\
    Z.of_nat (length c) = Z.of_nat (length inp) + 8 /\ bytes c /\
    crypto_128_unwrap_raw dec c = (Z.of_nat (length inp), take 8 (default default_iv iv), inp).
Proof.
  intros [_ Hb] Hm Hl Hiv. unfold CRYPTO_128_wrap. rewrite land_7, Hm.
  unfold CRYPTO128_WRAP_MAX in *. destruct (Z.ltb_spec (Z.of_nat (length inp)) 16); [lia|].
  destruct (Z.ltb_spec (2 ^ 31) (Z.of_nat (length inp))); [lia|]. simpl (_ || _). cbn match.
  set (n := (length inp / 8)%nat).
  assert (Hn : length inp = (8 * n)%nat).
  { unfold n. pose proof (Nat.div_mod_eq (length inp) 8).
    pose proof (Nat2Z.inj_mod (length inp) 8) as Hz. change (Z.of_nat 8) with 8 in Hz. rewrite Hm in Hz. lia. }
  pose proof (unwrap_wrap_passes n 6 1 (take 8 (default default_iv iv)) inp Hiv (conj Hn Hb)) as Hw.
  destruct (wrap_passes enc 6 n 1 _ inp) as [A' R']. destruct Hw as (HA & HR & Hw).
  exists (A' ++ R'). split; [done|].
  assert (Hlen : Z.of_nat (length (A' ++ R')) = Z.of_nat (length inp) + 8).
  { rewrite length_app. destruct HA, HR. lia. }
  split; [done|]. split; [apply bytes_app; split; [apply HA|apply HR]|].
  unfold crypto_128_unwrap_raw. rewrite Hlen.
  replace (Z.of_nat (length inp) + 8 - 8) with (Z.of_nat (length inp)) by lia.
  rewrite Z.mod_small by lia. rewrite land_7, Hm. unfold CRYPTO128_WRAP_MAX.
  destruct (Z.ltb_spec (Z.of_nat (length inp)) 16); [lia|].
  destruct (Z.ltb_spec (2 ^ 31) (Z.of_nat (length inp))); [lia|]. simpl (_ || _). cbn match.
  assert (Hsh : Z.shiftr (Z.of_nat (length inp)) 3 = Z.of_nat n).
  { rewrite Z.shiftr_div_pow2 by lia. change (2 ^ 3) with 8. rewrite Hn.
    rewrite Nat2Z.inj_mul. change (Z.of_nat 8) with 8. rewrite Z.mul_comm. apply Z.div_mul. lia. }
  rewrite Hsh, Nat2Z.id. destruct HA as [HA _].
  rewrite take_app_le, drop_app_ge, (take_ge A'), HA, Nat.sub_diag, drop_0 by lia.
  replace (1 + Z.of_nat 6 * Z.of_nat n - 1) with (6 * Z.of_nat n) in Hw by lia. by rewrite Hw.
Qed.

(** The output buffer after [data] was written at its start. *)
Lemma write_front (out data : list Z) :
  (length data <= length out)%nat ->
  mem_write out 0 data = Ret (data ++ drop (length data) out).
Proof. intros H. rewrite mem_write_ok by lia. done. Qed.

(** Unwrapping, with the right and with another initial value. *)
Lemma unwrap_of_wrap iv iv' inp out :
  bytes inp -> Z.of_nat (length inp) mod 8 = 0 ->
  16 <= Z.of_nat (length inp) <= CRYPTO128_WRAP_MAX ->
  nbytes 8 (default default_iv iv) -> nbytes 8 (default default_iv iv') ->
  (length inp <= length out)%nat ->
  let '(ret, c) := CRYPTO_128_wrap enc iv inp in
  ret = Z.of_nat (length c) /\
  CRYPTO_128_unwrap dec iv' c out =
    if decide (default default_iv iv = default default_iv iv')
    then Ret (Z.of_nat (length inp), inp ++ drop (length inp) out)
    else Ret (0, replicate (length inp) 0 ++ drop (length inp) out).
Proof.
  intros Hb Hm Hl Hiv Hiv' Hout.
  assert (Htk : forall o, nbytes 8 (default default_iv o) ->
    take 8 (default default_iv o) = default default_iv o).
  { intros o [Ho _]. apply take_ge. lia. }
  destruct (wrap_raw iv inp) as (c & E & Hc & _ & Hraw); try done; [by rewrite Htk|].
  rewrite E. split; [lia|]. unfold CRYPTO_128_unwrap. rewrite Hraw, !Htk by done.
  destruct (Z.eqb_spec (Z.of_nat (length inp)) 0); [lia|].
  rewrite write_front, bind_ret by done.
  destruct (decide (default default_iv iv = default default_iv iv')) as [Heq|Hne].
  - by rewrite bool_decide_true.
  - rewrite bool_decide_false by done. unfold cleanse. rewrite Nat2Z.id.
    rewrite write_front by (rewrite length_app, length_replicate; lia).
    rewrite bind_ret, length_replicate, drop_app_ge, Nat.sub_diag by lia. by rewrite drop_0.
Qed.


(** RFC 3394: unwrapping with the right initial value returns the wrapped
    data, and with any other one it returns 0 and has erased what it wrote. *)
Theorem wrap_unwrap iv iv' inp out :
  bytes inp -> Z.of_nat (length inp) mod 8 = 0 ->
  16 <= Z.of_nat (length inp) <= CRYPTO128_WRAP_MAX ->
  nbytes 8 (default default_iv iv) -> nbytes 8 (default default_iv iv') ->
  (length inp <= length out)%nat ->
  let '(ret, c) := CRYPTO_128_wrap enc iv inp in
  ret = Z.of_nat (length c) /\
  CRYPTO_128_unwrap dec iv' c out =
    if decide (default default_iv iv = default default_iv iv')
    then Ret (Z.of_nat (length inp), inp ++ drop (length inp) out)
    else Ret (0, replicate (length inp) 0 ++ drop (length inp) out).
Proof. exact (unwrap_of_wrap iv iv' inp out). Qed.

(** The alternative initial value: four bytes and the length. *)
Lemma aiv_length len :
  0 <= len < 2 ^ 32 ->
  Z.lor (Z.lor (Z.lor (Z.shiftl (Z.land (Z.shiftr len 24) 0xff) 24)
                 (Z.shiftl (Z.land (Z.shiftr len 16) 0xff) 16))
           (Z.shiftl (Z.land (Z.shiftr len 8) 0xff) 8)) (Z.land len 0xff) = len.
Proof.
  intros Hl. change 0xff with (Z.ones 8). apply Z.bits_inj'. intros i Hi.
  rewrite !Z.lor_spec, Z.land_spec, !Z.shiftl_spec by done.
  assert (Hk : forall k, 0 <= k -> Z.testbit (Z.land (Z.shiftr len k) (Z.ones 8)) (i - k) =
    (k <=? i) && (i <? k + 8) && Z.testbit len i).
  { intros k Hk. rewrite Z.land_spec, Z.testbit_ones by lia.
    destruct (Z.leb_spec k i); [|by rewrite Z.testbit_neg_r by lia].
    rewrite Z.shiftr_spec by lia. replace (i - k + k) with i by lia.
    destruct (Z.leb_spec 0 (i - k)), (Z.ltb_spec (i - k) 8), (Z.ltb_spec i (k + 8)); simpl;
      rewrite ?andb_true_r, ?andb_false_r; lia || done. }
  rewrite !Hk by lia. rewrite Z.testbit_ones by lia.
  destruct (Z.ltb_spec i 32) as [Hi32|Hi32].
  - destruct (Z.testbit len i); rewrite ?andb_false_r, ?andb_true_r; [|done].
    destruct (Z.leb_spec 24 i), (Z.ltb_spec i (24 + 8)), (Z.leb_spec 16 i),
      (Z.ltb_spec i (16 + 8)), (Z.leb_spec 8 i), (Z.ltb_spec i (8 + 8)), (Z.leb_spec 0 i),
      (Z.ltb_spec i 8); simpl; lia || done.
  - rewrite (Z.bits_above_log2 len i); [by rewrite ?andb_false_r|lia|].
    destruct (Z.eq_dec len 0) as [->|]; [simpl; lia|].
    apply Z.lt_le_trans with 32; [|done]. apply Z.log2_lt_pow2; lia.
Qed.

(** The four bytes of the alternative initial value and the length. *)
Definition aiv_of (icv : option (list Z)) (len : Z) : list Z :=
  take 4 (default default_aiv icv) ++
    [Z.land (Z.shiftr len 24) 0xff; Z.land (Z.shiftr len 16) 0xff;
     Z.land (Z.shiftr len 8) 0xff; Z.land len 0xff].

Lemma land_ff_byte z : is_byte (Z.land z 0xff).
Proof.
  change 0xff with (Z.ones 8). rewrite Z.land_ones by lia. unfold is_byte.
  apply Z.mod_pos_bound. lia.
Qed.

Lemma aiv_of_ok icv len :
  nbytes 4 (default default_aiv icv) ->
  nbytes 8 (aiv_of icv len) /\ take 4 (aiv_of icv len) = default default_aiv icv.
Proof.
  intros [Hl Hb]. unfold aiv_of. rewrite take_ge by lia. split; [split|].
  - rewrite length_app, Hl. done.
  - apply bytes_app. split; [done|]. repeat constructor; apply land_ff_byte.
  - by apply take_app_length'.
Qed.

(** The plaintext with its padding, and what the checks make of it. *)
Definition padded (inp : list Z) : list Z :=
  inp ++ replicate (Z.to_nat ((Z.of_nat (length inp) + 7) / 8 * 8 - Z.of_nat (length inp))) 0.

Lemma length_padded inp :
  Z.of_nat (length (padded inp)) = (Z.of_nat (length inp) + 7) / 8 * 8.
Proof.
  unfold padded. rewrite length_app, length_replicate. Z.div_mod_to_equations; lia.
Qed.

Lemma bytes_padded inp : bytes inp -> bytes (padded inp).
Proof.
  intros Hb. apply bytes_app. split; [done|]. apply Forall_replicate. unfold is_byte. lia.
Qed.

Lemma unwrap_pad_check_ok icv inp rest inlen :
  nbytes 4 (default default_aiv icv) -> 0 < Z.of_nat (length inp) < 2 ^ 32 ->
  let P := Z.of_nat (length (padded inp)) in
  unwrap_pad_check icv inlen (P / 8) P (aiv_of icv (Z.of_nat (length inp))) (padded inp ++ rest) =
    Ret (Z.of_nat (length inp), padded inp ++ rest).
Proof.
  intros Hicv Hl P. set (len := Z.of_nat (length inp)) in *.
  destruct (aiv_of_ok icv len Hicv) as [_ Htk]. unfold unwrap_pad_check.
  rewrite Htk, (take_ge (default default_aiv icv)) by (destruct Hicv; lia).
  rewrite bool_decide_true by done. cbn [negb].
  assert (Hat : forall k x, [Z.land (Z.shiftr len 24) 0xff; Z.land (Z.shiftr len 16) 0xff;
      Z.land (Z.shiftr len 8) 0xff; Z.land len 0xff] !! k = Some x ->
    byte_at (aiv_of icv len) (4 + k) = x).
  { intros k x Hx. unfold aiv_of, byte_at.
    rewrite (take_ge (default default_aiv icv)) by (destruct Hicv; lia).
    destruct Hicv as [H4 _]. rewrite app_nth2 by lia. rewrite H4, nth_lookup.
    replace (4 + k - 4)%nat with k by lia. by rewrite Hx. }
  rewrite (Hat 0%nat _ eq_refl : byte_at _ 4 = _), (Hat 1%nat _ eq_refl : byte_at _ 5 = _),
    (Hat 2%nat _ eq_refl : byte_at _ 6 = _), (Hat 3%nat _ eq_refl : byte_at _ 7 = _).
  rewrite aiv_length by lia.
  assert (HP : P = (len + 7) / 8 * 8) by (apply length_padded).
  destruct (Z.leb_spec len (8 * (P / 8 - 1))); [Z.div_mod_to_equations; lia|].
  destruct (Z.ltb_spec (8 * (P / 8)) len); [Z.div_mod_to_equations; lia|]. cbn [orb].
  rewrite mem_read_ok by (rewrite ?length_app; Z.div_mod_to_equations; lia). rewrite bind_ret.
  rewrite bool_decide_true; [done|]. unfold len. rewrite Nat2Z.id.
  unfold padded at 1. rewrite <- app_assoc, drop_app_length. fold len. rewrite <- HP.
  rewrite take_app_length'; [done|]. by rewrite length_replicate.
Qed.

(** The ciphertext of a padded wrapping, and its first decryption steps. *)
Lemma wrap_pad_eq icv inp :
  bytes inp -> 0 < Z.of_nat (length inp) < CRYPTO128_WRAP_MAX ->
  nbytes 4 (default default_aiv icv) ->
  let P := Z.of_nat (length (padded inp)) in
  exists c, CRYPTO_128_wrap_pad enc icv inp = (P + 8, c) /\ Z.of_nat (length c) = P + 8 /\
    (P = 8 -> dec c = aiv_of icv (Z.of_nat (length inp)) ++ padded inp) /\
    (P <> 8 -> crypto_128_unwrap_raw dec c =
       (P, aiv_of icv (Z.of_nat (length inp)), padded inp)).
Proof.
  intros Hb Hl Hicv P. unfold CRYPTO_128_wrap_pad. fold (aiv_of icv (Z.of_nat (length inp))).
  fold (padded inp). rewrite <- length_padded. fold P. unfold CRYPTO128_WRAP_MAX in *.
  assert (HP : P = (Z.of_nat (length inp) + 7) / 8 * 8) by (apply length_padded).
  destruct (aiv_of_ok icv (Z.of_nat (length inp)) Hicv) as [Haiv _].
  pose proof (bytes_padded inp Hb) as Hbp.
  destruct (Z.eqb_spec (Z.of_nat (length inp)) 0); [lia|].
  destruct (Z.leb_spec (2 ^ 31) (Z.of_nat (length inp))); [lia|]. cbn [orb].
  destruct (Z.eqb_spec P 8) as [E|E].
  - assert (Hblk : nbytes 16 (aiv_of icv (Z.of_nat (length inp)) ++ padded inp)).
    { apply (nbytes_app 8 8); [done|]. split; [unfold P in E; lia|done]. }
    eexists. split; [by rewrite E|]. split; [rewrite E; by destruct (block_ok (f := enc) _ Hblk) as [-> _]|].
    split; [|done]. intros _. by rewrite (bc_inv (enc := enc) (dec := dec)).
  - destruct (wrap_raw (Some (aiv_of icv (Z.of_nat (length inp)))) (padded inp))
      as (c & Ew & Hc & _ & Hraw); simpl (default _ _) in *.
    + by split.
    + fold P. rewrite HP. apply Z.mod_mul. lia.
    + fold P. unfold CRYPTO128_WRAP_MAX. Z.div_mod_to_equations; lia.
    + destruct Haiv. split; [rewrite length_take; lia|by apply bytes_take].
    + exists c. fold P in Ew, Hc, Hraw. rewrite Ew. split; [done|]. split; [done|].
      split; [done|]. intros _. rewrite Hraw. by rewrite take_ge by (destruct Haiv; lia).
Qed.

(** RFC 5649: data of any length up to the limit comes back from its padded
    wrapping, with its exact length, in a buffer of the documented size. *)
Theorem wrap_pad_unwrap_pad icv inp out :
  bytes inp -> 0 < Z.of_nat (length inp) -> nbytes 4 (default default_aiv icv) ->
  let '(ret, c) := CRYPTO_128_wrap_pad enc icv inp in
  ret < CRYPTO128_WRAP_MAX -> Z.of_nat (length inp) < CRYPTO128_WRAP_MAX ->
  Z.of_nat (length c) - 8 <= Z.of_nat (length out) ->
  ret = Z.of_nat (length c) /\
  exists out', CRYPTO_128_unwrap_pad dec icv c out = Ret (Z.of_nat (length inp), out') /\
    take (length inp) out' = inp.
Proof.
  intros Hb Hpos Hicv. destruct (CRYPTO_128_wrap_pad enc icv inp) as [ret c] eqn:E.
  intros Hmax Hlmax Hout.
  destruct (wrap_pad_eq icv inp Hb ltac:(lia) Hicv) as (c' & E' & Hc & H8 & Hraw).
  rewrite E' in E. injection E as <- <-. split; [lia|].
  set (P := Z.of_nat (length (padded inp))) in *.
  assert (HP : P = (Z.of_nat (length inp) + 7) / 8 * 8) by (apply length_padded).
  unfold CRYPTO_128_unwrap_pad. rewrite Hc, land_7. unfold CRYPTO128_WRAP_MAX in *.
  assert (Hm8 : (P + 8) mod 8 = 0) by (Z.div_mod_to_equations; lia).
  assert (Hd8 : (P + 8) / 8 - 1 = P / 8) by (Z.div_mod_to_equations; lia).
  rewrite Hm8, Hd8. destruct (Z.ltb_spec (P + 8) 16); [Z.div_mod_to_equations; lia|].
  destruct (Z.leb_spec (2 ^ 31) (P + 8)); [lia|]. cbn [negb orb Z.eqb].
  assert (Hres : take (length inp) (padded inp ++ drop (length (padded inp)) out) = inp).
  { unfold padded at 1. rewrite <- app_assoc. apply take_app_length. }
  pose proof (unwrap_pad_check_ok icv inp (drop (length (padded inp)) out) (P + 8) Hicv
    ltac:(lia)) as Hk. cbn zeta in Hk. fold P in Hk.
  destruct (aiv_of_ok icv (Z.of_nat (length inp)) Hicv) as [[Haiv _] _].
  destruct (Z.eqb_spec (P + 8) 16) as [E16|E16].
  - rewrite H8 by lia. rewrite (drop_app_length' (aiv_of _ _)), (take_app_length' (aiv_of _ _)) by done.
    rewrite write_front, bind_ret by lia. assert (HP8 : P = 8) by lia.
    rewrite HP8 in Hk |- *. rewrite Hk. eauto.
  - rewrite Hraw by lia. rewrite write_front, bind_ret by lia.
    replace (P + 8 - 8) with P by lia. rewrite Z.eqb_refl. cbn [negb]. rewrite Hk. eauto.
Qed.

(** On a failed check [CRYPTO_128_unwrap_pad] erases as many bytes as the
    ciphertext has, which is eight more than the output buffer it asks for: with
    a buffer of the documented size an unexpected initial value makes it write
    outside of the buffer. *)
Theorem unwrap_pad_erases_past_buffer icv icv' inp out :
  bytes inp -> 0 < Z.of_nat (length inp) ->
  nbytes 4 (default default_aiv icv) -> nbytes 4 (default default_aiv icv') ->
  default default_aiv icv <> default default_aiv icv' ->
  let '(ret, c) := CRYPTO_128_wrap_pad enc icv inp in
  ret < CRYPTO128_WRAP_MAX -> Z.of_nat (length inp) < CRYPTO128_WRAP_MAX ->
  Z.of_nat (length out) = Z.of_nat (length c) - 8 ->
  CRYPTO_128_unwrap_pad dec icv' c out = Fault.
Proof.
  intros Hb Hpos Hicv Hicv' Hne. destruct (CRYPTO_128_wrap_pad enc icv inp) as [ret c] eqn:E.
  intros Hmax Hlmax Hout.
  destruct (wrap_pad_eq icv inp Hb ltac:(lia) Hicv) as (c' & E' & Hc & H8 & Hraw).
  rewrite E' in E. injection E as <- <-.
  set (P := Z.of_nat (length (padded inp))) in *.
  assert (HP : P = (Z.of_nat (length inp) + 7) / 8 * 8) by (apply length_padded).
  destruct (aiv_of_ok icv (Z.of_nat (length inp)) Hicv) as [[Haiv _] Htk].
  assert (Hchk : forall pl, unwrap_pad_check icv' (P + 8) (P / 8) pl
    (aiv_of icv (Z.of_nat (length inp))) (padded inp ++ drop (length (padded inp)) out) = Fault).
  { intros pl. unfold unwrap_pad_check. rewrite Htk, (take_ge (default _ icv')) by (destruct Hicv'; lia).
    rewrite bool_decide_false by done. cbn [negb]. unfold cleanse.
    rewrite mem_write_fault; [done|].
    rewrite length_replicate, length_app, length_drop. lia. }
  unfold CRYPTO_128_unwrap_pad. rewrite Hc, land_7. unfold CRYPTO128_WRAP_MAX in *.
  assert (Hm8 : (P + 8) mod 8 = 0) by (Z.div_mod_to_equations; lia).
  assert (Hd8 : (P + 8) / 8 - 1 = P / 8) by (Z.div_mod_to_equations; lia).
  rewrite Hm8, Hd8. destruct (Z.ltb_spec (P + 8) 16); [Z.div_mod_to_equations; lia|].
  destruct (Z.leb_spec (2 ^ 31) (P + 8)); [lia|]. cbn [negb orb Z.eqb].
  destruct (Z.eqb_spec (P + 8) 16) as [E16|E16].
  - rewrite H8 by lia. rewrite (drop_app_length' (aiv_of _ _)), (take_app_length' (aiv_of _ _)) by done.
    rewrite write_front, bind_ret by lia. apply Hchk.
  - rewrite Hraw by lia. rewrite write_front, bind_ret by lia.
    replace (P + 8 - 8) with P by lia. rewrite Z.eqb_refl. cbn [negb]. apply Hchk.
Qed.
End wrap_facts.

(** Sixteen and nineteen bytes of key data. *)
Lemma wrap_unwrap_witness :
  let inp := seqZ 100 16 in
  CRYPTO_128_unwrap toy_dec None (snd (CRYPTO_128_wrap toy_enc None inp)) (replicate 16 0) =
    Ret (16, inp).
Proof.
  intros inp. pose proof (wrap_unwrap toy_enc toy_dec None None inp (replicate 16 0)) as H.
  destruct (CRYPTO_128_wrap toy_enc None inp) as [ret c].
  destruct H as [_ H]; [solve_closed|vm_compute; reflexivity|vm_compute; split; congruence
    |solve_closed|solve_closed|vm_compute; lia|].
  simpl snd. rewrite H. reflexivity.
Defined.

Lemma wrap_pad_unwrap_pad_witness :
  let inp := seqZ 100 19 in
  exists out', CRYPTO_128_unwrap_pad toy_dec None
      (snd (CRYPTO_128_wrap_pad toy_enc None inp)) (replicate 24 0) = Ret (19, out') /\
    take 19 out' = inp.
Proof.
  intros inp. pose proof (wrap_pad_unwrap_pad toy_enc toy_dec None inp (replicate 24 0)) as H.
  assert (Hw : CRYPTO_128_wrap_pad toy_enc None inp =
    (32, snd (CRYPTO_128_wrap_pad toy_enc None inp))) by (vm_compute; reflexivity).
  rewrite Hw in H.
  destruct H as [_ H]; [solve_closed|vm_compute; reflexivity|solve_closed|vm_compute; congruence
    |vm_compute; congruence|vm_compute; congruence|]. exact H.
Defined.

Lemma unwrap_pad_erases_past_buffer_witness :
  CRYPTO_128_unwrap_pad toy_dec (Some [1; 2; 3; 4])
    (snd (CRYPTO_128_wrap_pad toy_enc None (seqZ 100 19))) (replicate 24 0) = Fault.
Proof.
  pose proof (unwrap_pad_erases_past_buffer toy_enc toy_dec None (Some [1; 2; 3; 4])
    (seqZ 100 19) (replicate 24 0)) as H.
  assert (Hw : CRYPTO_128_wrap_pad toy_enc None (seqZ 100 19) =
    (32, snd (CRYPTO_128_wrap_pad toy_enc None (seqZ 100 19)))) by (vm_compute; reflexivity).
  rewrite Hw in H.
  apply H; [solve_closed|vm_compute; reflexivity|solve_closed|solve_closed|discriminate
    |vm_compute; congruence|vm_compute; congruence|vm_compute; congruence].
Defined.
