(* ===== verification/Aes.v ===== *)
(** * AES (openssl crypto/aes/aes_core.c, aes_local.h)

    The portable implementation with combined tables (the configuration without
    assembler and constant-time code):
    key schedules, encryption and decryption of one block. *)

From S2P Require Import Prelude Bytes Stream AesTables.

(** [T[i]] *)
Definition tbl (T : list Z) (i : Z) : Z := nth (Z.to_nat i) T 0.

(** [GETU32] and [PUTU32] *)
Definition GETU32 (l : list Z) (o : nat) : Z :=
  Z.lxor (Z.lxor (Z.lxor (Z.shiftl (byte_at l o) 24) (Z.shiftl (byte_at l (o + 1)) 16))
            (Z.shiftl (byte_at l (o + 2)) 8)) (byte_at l (o + 3)).

Definition PUTU32 (st : Z) : list Z :=
  [u8 (Z.shiftr st 24); u8 (Z.shiftr st 16); u8 (Z.shiftr st 8); u8 st].

(** The parts of a word the code uses as indices: [w >> 24], [(w >> 16) & 0xff],
    [(w >> 8) & 0xff] and [w & 0xff]. *)
Definition w3 (w : Z) : Z := Z.shiftr w 24.
Definition w2 (w : Z) : Z := Z.land (Z.shiftr w 16) 0xff.
Definition w1 (w : Z) : Z := Z.land (Z.shiftr w 8) 0xff.
Definition w0 (w : Z) : Z := Z.land w 0xff.

(** [AES_KEY] *)
Record AES_KEY := mkKey { rd_key : list Z; rounds : nat }.

(** The substitution and rotation of the key schedule, with [rcon[i]]. *)
Definition key_core (temp : Z) (i : nat) : Z :=
  Z.lxor (Z.lxor (Z.lxor (Z.lxor (Z.land (tbl Te2 (w2 temp)) 0xff000000)
                                 (Z.land (tbl Te3 (w1 temp)) 0x00ff0000))
                         (Z.land (tbl Te0 (w0 temp)) 0x0000ff00))
                 (Z.land (tbl Te1 (w3 temp)) 0x000000ff))
         (nth i rcon 0).

(** The substitution without rotation, of 256-bit keys. *)
Definition key_sub (temp : Z) : Z :=
  Z.lxor (Z.lxor (Z.lxor (Z.land (tbl Te2 (w3 temp)) 0xff000000)
                         (Z.land (tbl Te3 (w2 temp)) 0x00ff0000))
                 (Z.land (tbl Te0 (w1 temp)) 0x0000ff00))
         (Z.land (tbl Te1 (w0 temp)) 0x000000ff).

(** Element [k] of a schedule. *)
Definition rk_at (rk : list Z) (k : nat) : Z := nth k rk 0.

(** The loops of [AES_set_encrypt_key]: [rk] are the words the pointer of the
    same name points to, the result those that follow them. *)
Fixpoint expand128 (fuel i : nat) (rk : list Z) : list Z :=
  match fuel with
  | O => []
  | S f =>
      let r4 := Z.lxor (rk_at rk 0) (key_core (rk_at rk 3) i) in
      let r5 := Z.lxor (rk_at rk 1) r4 in
      let r6 := Z.lxor (rk_at rk 2) r5 in
      let r7 := Z.lxor (rk_at rk 3) r6 in
      [r4; r5; r6; r7]
      ++ (if (S i =? 10)%nat then [] else expand128 f (S i) [r4; r5; r6; r7])
  end.

Fixpoint expand192 (fuel i : nat) (rk : list Z) : list Z :=
  match fuel with
  | O => []
  | S f =>
      let r6 := Z.lxor (rk_at rk 0) (key_core (rk_at rk 5) i) in
      let r7 := Z.lxor (rk_at rk 1) r6 in
      let r8 := Z.lxor (rk_at rk 2) r7 in
      let r9 := Z.lxor (rk_at rk 3) r8 in
      [r6; r7; r8; r9]
      ++ (if (S i =? 8)%nat then []
          else
            let r10 := Z.lxor (rk_at rk 4) r9 in
            let r11 := Z.lxor (rk_at rk 5) r10 in
            [r10; r11] ++ expand192 f (S i) [r6; r7; r8; r9; r10; r11])
  end.

Fixpoint expand256 (fuel i : nat) (rk : list Z) : list Z :=
  match fuel with
  | O => []
  | S f =>
      let r8 := Z.lxor (rk_at rk 0) (key_core (rk_at rk 7) i) in
      let r9 := Z.lxor (rk_at rk 1) r8 in
      let r10 := Z.lxor (rk_at rk 2) r9 in
      let r11 := Z.lxor (rk_at rk 3) r10 in
      [r8; r9; r10; r11]
      ++ (if (S i =? 7)%nat then []
          else
            let r12 := Z.lxor (rk_at rk 4) (key_sub r11) in
            let r13 := Z.lxor (rk_at rk 5) r12 in
            let r14 := Z.lxor (rk_at rk 6) r13 in
            let r15 := Z.lxor (rk_at rk 7) r14 in
            [r12; r13; r14; r15]
            ++ expand256 f (S i) [r8; r9; r10; r11; r12; r13; r14; r15])
  end.

(** [AES_set_encrypt_key]: an error status or the key; [None] is a null
    pointer. *)
Definition AES_set_encrypt_key (userKey : option (list Z)) (bits : Z) : Z + AES_KEY :=
  match userKey with
  | None => inl (-1)
  | Some k =>
      if bits =? 128 then
        let rk := [GETU32 k 0; GETU32 k 4; GETU32 k 8; GETU32 k 12] in
        inr (mkKey (rk ++ expand128 10 0 rk) 10)
      else if bits =? 192 then
        let rk := [GETU32 k 0; GETU32 k 4; GETU32 k 8; GETU32 k 12; GETU32 k 16; GETU32 k 20] in
        inr (mkKey (rk ++ expand192 8 0 rk) 12)
      else if bits =? 256 then
        let rk := [GETU32 k 0; GETU32 k 4; GETU32 k 8; GETU32 k 12; GETU32 k 16; GETU32 k 20;
                   GETU32 k 24; GETU32 k 28] in
        inr (mkKey (rk ++ expand256 7 0 rk) 14)
      else inl (-2)
  end.

(** [temp = rk[i]; rk[i] = rk[j]; rk[j] = temp] *)
Definition swap (rk : list Z) (i j : nat) : list Z :=
  <[j := rk_at rk i]> (<[i := rk_at rk j]> rk).

(** [for (i = 0, j = 4*rounds; i < j; i += 4, j -= 4)] *)
Fixpoint invert_order (fuel i j : nat) (rk : list Z) : list Z :=
  match fuel with
  | O => rk
  | S f =>
      if (i <? j)%nat then
        let rk := swap rk i j in
        let rk := swap rk (i + 1) (j + 1) in
        let rk := swap rk (i + 2) (j + 2) in
        let rk := swap rk (i + 3) (j + 3) in
        invert_order f (i + 4) (j - 4) rk
      else rk
  end.

(** The inverse MixColumn transform of one word. *)
Definition inv_mix_word (w : Z) : Z :=
  Z.lxor (Z.lxor (Z.lxor (tbl Td0 (Z.land (tbl Te1 (w3 w)) 0xff))
                         (tbl Td1 (Z.land (tbl Te1 (w2 w)) 0xff)))
                 (tbl Td2 (Z.land (tbl Te1 (w1 w)) 0xff)))
         (tbl Td3 (Z.land (tbl Te1 (w0 w)) 0xff)).

(** [for (i = 1; i < rounds; i++) { rk += 4; ... }] from position [o] on. *)
Fixpoint inv_mix_loop (n o : nat) (rk : list Z) : list Z :=
  match n with
  | O => rk
  | S n' =>
      let rk := <[o := inv_mix_word (rk_at rk o)]> rk in
      let rk := <[(o + 1)%nat := inv_mix_word (rk_at rk (o + 1))]> rk in
      let rk := <[(o + 2)%nat := inv_mix_word (rk_at rk (o + 2))]> rk in
      let rk := <[(o + 3)%nat := inv_mix_word (rk_at rk (o + 3))]> rk in
      inv_mix_loop n' (o + 4) rk
  end.

Definition AES_set_decrypt_key (userKey : option (list Z)) (bits : Z) : Z + AES_KEY :=
  match AES_set_encrypt_key userKey bits with
  | inl status => inl status
  | inr key =>
      let rk := invert_order (rounds key) 0 (4 * rounds key) (rd_key key) in
      inr (mkKey (inv_mix_loop (rounds key - 1) 4 rk) (rounds key))
  end.

(** The cipher state: the four words [s0] to [s3]. *)
Record words := mkW { s0 : Z; s1 : Z; s2 : Z; s3 : Z }.

Definition load_state (inp : list Z) (rk : list Z) : words :=
  mkW (Z.lxor (GETU32 inp 0) (rk_at rk 0)) (Z.lxor (GETU32 inp 4) (rk_at rk 1))
      (Z.lxor (GETU32 inp 8) (rk_at rk 2)) (Z.lxor (GETU32 inp 12) (rk_at rk 3)).

(** One output word of a full encryption round. *)
Definition enc_word (a b c d k : Z) : Z :=
  Z.lxor (Z.lxor (Z.lxor (Z.lxor (tbl Te0 (w3 a)) (tbl Te1 (w2 b)))
                         (tbl Te2 (w1 c))) (tbl Te3 (w0 d))) k.

Definition enc_round (s : words) (rk : list Z) (o : nat) : words :=
  mkW (enc_word (s0 s) (s1 s) (s2 s) (s3 s) (rk_at rk o))
      (enc_word (s1 s) (s2 s) (s3 s) (s0 s) (rk_at rk (o + 1)))
      (enc_word (s2 s) (s3 s) (s0 s) (s1 s) (rk_at rk (o + 2)))
      (enc_word (s3 s) (s0 s) (s1 s) (s2 s) (rk_at rk (o + 3))).

(** [for (;;)]: two rounds a turn, left in the middle of the last one; the
    result is the state and the advanced [rk]. *)
Fixpoint enc_loop (r : nat) (rk : list Z) (s : words) : words * list Z :=
  match r with
  | O => (s, rk)
  | S r' =>
      let t := enc_round s rk 4 in
      let rk := drop 8 rk in
      if (r' =? 0)%nat then (t, rk)
      else enc_loop r' rk (enc_round t rk 0)
  end.

(** The last round, without MixColumns. *)
Definition enc_last_word (a b c d k : Z) : Z :=
  Z.lxor (Z.lxor (Z.lxor (Z.lxor (Z.land (tbl Te2 (w3 a)) 0xff000000)
                                 (Z.land (tbl Te3 (w2 b)) 0x00ff0000))
                         (Z.land (tbl Te0 (w1 c)) 0x0000ff00))
                 (Z.land (tbl Te1 (w0 d)) 0x000000ff)) k.

Definition AES_encrypt (inp : list Z) (key : AES_KEY) : list Z :=
  let rk := rd_key key in
  let '(t, rk) := enc_loop (rounds key / 2) rk (load_state inp rk) in
  PUTU32 (enc_last_word (s0 t) (s1 t) (s2 t) (s3 t) (rk_at rk 0))
  ++ PUTU32 (enc_last_word (s1 t) (s2 t) (s3 t) (s0 t) (rk_at rk 1))
  ++ PUTU32 (enc_last_word (s2 t) (s3 t) (s0 t) (s1 t) (rk_at rk 2))
  ++ PUTU32 (enc_last_word (s3 t) (s0 t) (s1 t) (s2 t) (rk_at rk 3)).

(** The same for decryption. *)
Definition dec_word (a b c d k : Z) : Z :=
  Z.lxor (Z.lxor (Z.lxor (Z.lxor (tbl Td0 (w3 a)) (tbl Td1 (w2 b)))
                         (tbl Td2 (w1 c))) (tbl Td3 (w0 d))) k.

Definition dec_round (s : words) (rk : list Z) (o : nat) : words :=
  mkW (dec_word (s0 s) (s3 s) (s2 s) (s1 s) (rk_at rk o))
      (dec_word (s1 s) (s0 s) (s3 s) (s2 s) (rk_at rk (o + 1)))
      (dec_word (s2 s) (s1 s) (s0 s) (s3 s) (rk_at rk (o + 2)))
      (dec_word (s3 s) (s2 s) (s1 s) (s0 s) (rk_at rk (o + 3))).

Fixpoint dec_loop (r : nat) (rk : list Z) (s : words) : words * list Z :=
  match r with
  | O => (s, rk)
  | S r' =>
      let t := dec_round s rk 4 in
      let rk := drop 8 rk in
      if (r' =? 0)%nat then (t, rk)
      else dec_loop r' rk (dec_round t rk 0)
  end.

Definition dec_last_word (a b c d k : Z) : Z :=
  Z.lxor (Z.lxor (Z.lxor (Z.lxor (Z.shiftl (tbl Td4 (w3 a)) 24)
                                 (Z.shiftl (tbl Td4 (w2 b)) 16))
                         (Z.shiftl (tbl Td4 (w1 c)) 8))
                 (tbl Td4 (w0 d))) k.

Definition AES_decrypt (inp : list Z) (key : AES_KEY) : list Z :=
  let rk := rd_key key in
  let '(t, rk) := dec_loop (rounds key / 2) rk (load_state inp rk) in
  PUTU32 (dec_last_word (s0 t) (s3 t) (s2 t) (s1 t) (rk_at rk 0))
  ++ PUTU32 (dec_last_word (s1 t) (s0 t) (s3 t) (s2 t) (rk_at rk 1))
  ++ PUTU32 (dec_last_word (s2 t) (s1 t) (s0 t) (s3 t) (rk_at rk 2))
  ++ PUTU32 (dec_last_word (s3 t) (s2 t) (s1 t) (s0 t) (rk_at rk 3)).

(** The same functions in a [FULL_UNROLL] build: the rounds in straight-line
    code, the last two pairs of them for the longer keys. *)
Definition enc_unrolled (rounds : nat) (rk : list Z) (s : words) : words * list Z :=
  let t := enc_round s rk 4 in
  let s := enc_round t rk 8 in
  let t := enc_round s rk 12 in
  let s := enc_round t rk 16 in
  let t := enc_round s rk 20 in
  let s := enc_round t rk 24 in
  let t := enc_round s rk 28 in
  let s := enc_round t rk 32 in
  let t := enc_round s rk 36 in
  let t :=
    if (10 <? rounds)%nat then
      let s := enc_round t rk 40 in
      let t := enc_round s rk 44 in
      if (12 <? rounds)%nat then
        let s := enc_round t rk 48 in
        enc_round s rk 52
      else t
    else t in
  (t, drop (4 * rounds) rk).

Definition AES_encrypt_unrolled (inp : list Z) (key : AES_KEY) : list Z :=
  let rk := rd_key key in
  let '(t, rk) := enc_unrolled (rounds key) rk (load_state inp rk) in
  PUTU32 (enc_last_word (s0 t) (s1 t) (s2 t) (s3 t) (rk_at rk 0))
  ++ PUTU32 (enc_last_word (s1 t) (s2 t) (s3 t) (s0 t) (rk_at rk 1))
  ++ PUTU32 (enc_last_word (s2 t) (s3 t) (s0 t) (s1 t) (rk_at rk 2))
  ++ PUTU32 (enc_last_word (s3 t) (s0 t) (s1 t) (s2 t) (rk_at rk 3)).

Definition dec_unrolled (rounds : nat) (rk : list Z) (s : words) : words * list Z :=
  let t := dec_round s rk 4 in
  let s := dec_round t rk 8 in
  let t := dec_round s rk 12 in
  let s := dec_round t rk 16 in
  let t := dec_round s rk 20 in
  let s := dec_round t rk 24 in
  let t := dec_round s rk 28 in
  let s := dec_round t rk 32 in
  let t := dec_round s rk 36 in
  let t :=
    if (10 <? rounds)%nat then
      let s := dec_round t rk 40 in
      let t := dec_round s rk 44 in
      if (12 <? rounds)%nat then
        let s := dec_round t rk 48 in
        dec_round s rk 52
      else t
    else t in
  (t, drop (4 * rounds) rk).

Definition AES_decrypt_unrolled (inp : list Z) (key : AES_KEY) : list Z :=
  let rk := rd_key key in
  let '(t, rk) := dec_unrolled (rounds key) rk (load_state inp rk) in
  PUTU32 (dec_last_word (s0 t) (s3 t) (s2 t) (s1 t) (rk_at rk 0))
  ++ PUTU32 (dec_last_word (s1 t) (s0 t) (s3 t) (s2 t) (rk_at rk 1))
  ++ PUTU32 (dec_last_word (s2 t) (s1 t) (s0 t) (s3 t) (rk_at rk 2))
  ++ PUTU32 (dec_last_word (s3 t) (s2 t) (s1 t) (s0 t) (rk_at rk 3)).

(** The example vectors of FIPS 197, appendix C. *)
Definition aes_enc_with (k : list Z) (bits : Z) (inp : list Z) : list Z :=
  match AES_set_encrypt_key (Some k) bits with inr key => AES_encrypt inp key | inl _ => [] end.

Definition aes_dec_with (k : list Z) (bits : Z) (inp : list Z) : list Z :=
  match AES_set_decrypt_key (Some k) bits with inr key => AES_decrypt inp key | inl _ => [] end.

Definition fips_plain : list Z := map (fun i => 17 * i) (seqZ 0 16).

Example fips197_c1 : aes_enc_with (seqZ 0 16) 128 fips_plain =
  [0x69; 0xc4; 0xe0; 0xd8; 0x6a; 0x7b; 0x04; 0x30; 0xd8; 0xcd; 0xb7; 0x80; 0x70; 0xb4; 0xc5; 0x5a].
Proof. vm_compute. reflexivity. Qed.

Example fips197_c2 : aes_enc_with (seqZ 0 24) 192 fips_plain =
  [0xdd; 0xa9; 0x7c; 0xa4; 0x86; 0x4c; 0xdf; 0xe0; 0x6e; 0xaf; 0x70; 0xa0; 0xec; 0x0d; 0x71; 0x91].
Proof. vm_compute. reflexivity. Qed.

Example fips197_c3 : aes_enc_with (seqZ 0 32) 256 fips_plain =
  [0x8e; 0xa2; 0xb7; 0xca; 0x51; 0x67; 0x45; 0xbf; 0xea; 0xfc; 0x49; 0x90; 0x4b; 0x49; 0x60; 0x89].
Proof. vm_compute. reflexivity. Qed.

Example fips197_c3_inverse : aes_dec_with (seqZ 0 32) 256
  [0x8e; 0xa2; 0xb7; 0xca; 0x51; 0x67; 0x45; 0xbf; 0xea; 0xfc; 0x49; 0x90; 0x4b; 0x49; 0x60; 0x89]
  = fips_plain.
Proof. vm_compute. reflexivity. Qed.
