(* ===== verification/AesCorrect.v ===== *)
(** * Correctness of AES

    The reference: the cipher of FIPS 197 on a state of four columns of four
    bytes, with the S-box as inversion in GF(2^8) followed by an affine map.
    The table-driven code computes it, and decryption inverts encryption. *)

From Stdlib Require Import Btauto.
From S2P Require Import Prelude Bytes Stream AesTables Aes.

(** ** The reference *)

Record col := Col { c0 : Z; c1 : Z; c2 : Z; c3 : Z }.
Record state := St { k0 : col; k1 : col; k2 : col; k3 : col }.

(** Multiplication in GF(2^8) by x and by the other constants of the cipher. *)
Definition xtime (b : Z) : Z :=
  if b <? 128 then 2 * b else Z.lxor (2 * b - 256) 0x1b.
Definition mul3 (b : Z) : Z := Z.lxor (xtime b) b.
Definition mul4 (b : Z) : Z := xtime (xtime b).
Definition mul8 (b : Z) : Z := xtime (mul4 b).
Definition mul9 (b : Z) : Z := Z.lxor (mul8 b) b.
Definition mulb (b : Z) : Z := Z.lxor (Z.lxor (mul8 b) (xtime b)) b.
Definition muld (b : Z) : Z := Z.lxor (Z.lxor (mul8 b) (mul4 b)) b.
Definition mule (b : Z) : Z := Z.lxor (Z.lxor (mul8 b) (mul4 b)) (xtime b).

(** [a * b] in GF(2^8), over the [n] low bits of [b]. *)
Fixpoint gmul (n : nat) (a b : Z) : Z :=
  match n with
  | O => 0
  | S n' => Z.lxor (if Z.odd b then a else 0) (gmul n' (xtime a) (b / 2))
  end.

(** The inverse, as the 254th power, and the S-box. *)
Definition gf_inv (a : Z) : Z :=
  let sq x := gmul 8 x x in
  let a2 := sq a in let a4 := sq a2 in let a8 := sq a4 in let a16 := sq a8 in
  let a32 := sq a16 in let a64 := sq a32 in let a128 := sq a64 in
  gmul 8 a128 (gmul 8 a64 (gmul 8 a32 (gmul 8 a16 (gmul 8 a8 (gmul 8 a4 a2))))).

Definition rotl8 (b : Z) (k : Z) : Z := (b * 2 ^ k) mod 256 + b / 2 ^ (8 - k).

Definition SBox (x : Z) : Z :=
  let b := gf_inv x in
  Z.lxor (Z.lxor (Z.lxor (Z.lxor (Z.lxor b (rotl8 b 1)) (rotl8 b 2)) (rotl8 b 3)) (rotl8 b 4)) 0x63.

Definition col_xor (a b : col) : col :=
  Col (Z.lxor (c0 a) (c0 b)) (Z.lxor (c1 a) (c1 b)) (Z.lxor (c2 a) (c2 b)) (Z.lxor (c3 a) (c3 b)).

Definition MixColumn (v : col) : col :=
  Col (Z.lxor (Z.lxor (Z.lxor (xtime (c0 v)) (mul3 (c1 v))) (c2 v)) (c3 v))
      (Z.lxor (Z.lxor (Z.lxor (c0 v) (xtime (c1 v))) (mul3 (c2 v))) (c3 v))
      (Z.lxor (Z.lxor (Z.lxor (c0 v) (c1 v)) (xtime (c2 v))) (mul3 (c3 v)))
      (Z.lxor (Z.lxor (Z.lxor (mul3 (c0 v)) (c1 v)) (c2 v)) (xtime (c3 v))).

Definition InvMixColumn (v : col) : col :=
  Col (Z.lxor (Z.lxor (Z.lxor (mule (c0 v)) (mulb (c1 v))) (muld (c2 v))) (mul9 (c3 v)))
      (Z.lxor (Z.lxor (Z.lxor (mul9 (c0 v)) (mule (c1 v))) (mulb (c2 v))) (muld (c3 v)))
      (Z.lxor (Z.lxor (Z.lxor (muld (c0 v)) (mul9 (c1 v))) (mule (c2 v))) (mulb (c3 v)))
      (Z.lxor (Z.lxor (Z.lxor (mulb (c0 v)) (muld (c1 v))) (mul9 (c2 v))) (mule (c3 v))).

(** A map on every byte; a map on every column; ShiftRows and its inverse. *)
Definition on_bytes (f : Z -> Z) (s : state) : state :=
  let g c := Col (f (c0 c)) (f (c1 c)) (f (c2 c)) (f (c3 c)) in
  St (g (k0 s)) (g (k1 s)) (g (k2 s)) (g (k3 s)).

Definition on_cols (f : col -> col) (s : state) : state :=
  St (f (k0 s)) (f (k1 s)) (f (k2 s)) (f (k3 s)).

Definition ShiftRows (s : state) : state :=
  St (Col (c0 (k0 s)) (c1 (k1 s)) (c2 (k2 s)) (c3 (k3 s)))
     (Col (c0 (k1 s)) (c1 (k2 s)) (c2 (k3 s)) (c3 (k0 s)))
     (Col (c0 (k2 s)) (c1 (k3 s)) (c2 (k0 s)) (c3 (k1 s)))
     (Col (c0 (k3 s)) (c1 (k0 s)) (c2 (k1 s)) (c3 (k2 s))).

Definition InvShiftRows (s : state) : state :=
  St (Col (c0 (k0 s)) (c1 (k3 s)) (c2 (k2 s)) (c3 (k1 s)))
     (Col (c0 (k1 s)) (c1 (k0 s)) (c2 (k3 s)) (c3 (k2 s)))
     (Col (c0 (k2 s)) (c1 (k1 s)) (c2 (k0 s)) (c3 (k3 s)))
     (Col (c0 (k3 s)) (c1 (k2 s)) (c2 (k1 s)) (c3 (k0 s))).

Definition AddRoundKey (s k : state) : state :=
  St (col_xor (k0 s) (k0 k)) (col_xor (k1 s) (k1 k))
     (col_xor (k2 s) (k2 k)) (col_xor (k3 s) (k3 k)).

(** The state of a block, column by column. *)
Definition of_block (l : list Z) : state :=
  let c o := Col (byte_at l o) (byte_at l (o + 1)) (byte_at l (o + 2)) (byte_at l (o + 3)) in
  St (c 0%nat) (c 4%nat) (c 8%nat) (c 12%nat).

Definition to_block (s : state) : list Z :=
  let c k := [c0 k; c1 k; c2 k; c3 k] in
  c (k0 s) ++ c (k1 s) ++ c (k2 s) ++ c (k3 s).

(** The state after [i] full rounds. *)
Fixpoint rounds_of (key : nat -> state) (inp : state) (i : nat) : state :=
  match i with
  | O => AddRoundKey inp (key 0%nat)
  | S j =>
      AddRoundKey (on_cols MixColumn (ShiftRows (on_bytes SBox (rounds_of key inp j)))) (key i)
  end.

(** [Cipher] of FIPS 197 with [Nr] rounds. *)
Definition fips_cipher (Nr : nat) (key : nat -> state) (inp : list Z) : list Z :=
  to_block (AddRoundKey
    (ShiftRows (on_bytes SBox (rounds_of key (of_block inp) (Nr - 1)))) (key Nr)).

(** ** Words and columns *)

Definition pack (c : col) : Z := ((c0 c * 256 + c1 c) * 256 + c2 c) * 256 + c3 c.
Definition unpack (w : Z) : col := Col (w3 w) (w2 w) (w1 w) (w0 w).

Definition col_ok (c : col) : Prop :=
  is_byte (c0 c) /\ is_byte (c1 c) /\ is_byte (c2 c) /\ is_byte (c3 c).

Definition state_ok (s : state) : Prop :=
  col_ok (k0 s) /\ col_ok (k1 s) /\ col_ok (k2 s) /\ col_ok (k3 s).

Definition word32 (w : Z) : Prop := 0 <= w < 2 ^ 32.

Lemma join_lxor x b y d :
  is_byte b -> is_byte d -> Z.lxor (x * 256 + b) (y * 256 + d) = Z.lxor x y * 256 + Z.lxor b d.
Proof.
  intros Hb Hd. pose proof (lxor_mod_256 (x * 256 + b) (y * 256 + d)) as Hm.
  pose proof (lxor_div_256 (x * 256 + b) (y * 256 + d)) as Hv. unfold is_byte in *.
  replace ((x * 256 + b) mod 256) with b in Hm by (Z.div_mod_to_equations; lia).
  replace ((y * 256 + d) mod 256) with d in Hm by (Z.div_mod_to_equations; lia).
  replace ((x * 256 + b) / 256) with x in Hv by (Z.div_mod_to_equations; lia).
  replace ((y * 256 + d) / 256) with y in Hv by (Z.div_mod_to_equations; lia).
  rewrite <- Hm, <- Hv. pose proof (Z.div_mod (Z.lxor (x * 256 + b) (y * 256 + d)) 256). lia.
Qed.

Lemma join_land x b y d :
  is_byte b -> is_byte d -> Z.land (x * 256 + b) (y * 256 + d) = Z.land x y * 256 + Z.land b d.
Proof.
  intros Hb Hd. set (a := x * 256 + b). set (c := y * 256 + d).
  assert (Hm : Z.land a c mod 256 = Z.land (a mod 256) (c mod 256)).
  { change 256 with (2 ^ 8). rewrite <- !Z.land_ones by lia.
    apply Z.bits_inj'. intros i Hi. rewrite !Z.land_spec. btauto. }
  assert (Hv : Z.land a c / 256 = Z.land (a / 256) (c / 256)).
  { change 256 with (2 ^ 8). rewrite <- !Z.shiftr_div_pow2 by lia. apply Z.shiftr_land. }
  unfold a, c, is_byte in *.
  replace ((x * 256 + b) mod 256) with b in Hm by (Z.div_mod_to_equations; lia).
  replace ((y * 256 + d) mod 256) with d in Hm by (Z.div_mod_to_equations; lia).
  replace ((x * 256 + b) / 256) with x in Hv by (Z.div_mod_to_equations; lia).
  replace ((y * 256 + d) / 256) with y in Hv by (Z.div_mod_to_equations; lia).
  rewrite <- Hm, <- Hv. pose proof (Z.div_mod (Z.land (x * 256 + b) (y * 256 + d)) 256). lia.
Qed.

Lemma pack_xor a b : col_ok a -> col_ok b -> Z.lxor (pack a) (pack b) = pack (col_xor a b).
Proof.
  intros (? & ? & ? & ?) (? & ? & ? & ?). unfold pack, col_xor. cbn [c0 c1 c2 c3].
  by rewrite !join_lxor.
Qed.

Lemma pack_land a b :
  col_ok a -> col_ok b -> Z.land (pack a) (pack b) =
    pack (Col (Z.land (c0 a) (c0 b)) (Z.land (c1 a) (c1 b))
              (Z.land (c2 a) (c2 b)) (Z.land (c3 a) (c3 b))).
Proof. intros (? & ? & ? & ?) (? & ? & ? & ?). unfold pack. cbn [c0 c1 c2 c3]. by rewrite !join_land. Qed.

Lemma land_255 b : is_byte b -> Z.land b 255 = b.
Proof. intros Hb. change 255 with (Z.ones 8). rewrite Z.land_ones by lia. by apply Z.mod_small. Qed.

Lemma w_pack c : col_ok c ->
  w3 (pack c) = c0 c /\ w2 (pack c) = c1 c /\ w1 (pack c) = c2 c /\ w0 (pack c) = c3 c.
Proof.
  intros (? & ? & ? & ?). unfold w3, w2, w1, w0, pack, is_byte in *.
  change 0xff with (Z.ones 8). rewrite !Z.land_ones, !Z.shiftr_div_pow2 by lia.
  change (2 ^ 24) with 16777216. change (2 ^ 16) with 65536. change (2 ^ 8) with 256.
  split_and!; Z.div_mod_to_equations; lia.
Qed.

Lemma pack_unpack w : word32 w -> col_ok (unpack w) /\ pack (unpack w) = w.
Proof.
  intros Hw. unfold word32, col_ok, unpack, pack, w3, w2, w1, w0, is_byte in *. cbn [c0 c1 c2 c3].
  change 0xff with (Z.ones 8). rewrite !Z.land_ones, !Z.shiftr_div_pow2 by lia.
  change (2 ^ 24) with 16777216. change (2 ^ 16) with 65536. change (2 ^ 8) with 256.
  split_and!; Z.div_mod_to_equations; lia.
Qed.

(** ** Facts about all bytes, by evaluation *)

Lemma all_bytes (f : Z -> bool) :
  forallb f (seqZ 0 256) = true -> forall b, is_byte b -> f b = true.
Proof.
  intros H b Hb. rewrite forallb_forall in H. apply H, list_elem_of_In, elem_of_seqZ.
  unfold is_byte in Hb. lia.
Qed.

Lemma all_byte_pairs (f : Z -> Z -> bool) :
  forallb (fun a => forallb (f a) (seqZ 0 256)) (seqZ 0 256) = true ->
  forall a b, is_byte a -> is_byte b -> f a b = true.
Proof. intros H a b Ha Hb. apply (all_bytes (f a)); [|done]. by apply (all_bytes _ H). Qed.

Definition is_byteb (b : Z) : bool := (0 <=? b) && (b <? 256).

Lemma is_byteb_spec b : is_byteb b = true -> is_byte b.
Proof. unfold is_byteb, is_byte. intros [?%Z.leb_le ?%Z.ltb_lt]%andb_prop. lia. Qed.

Lemma xtime_ok b : is_byte b -> is_byte (xtime b).
Proof.
  intros Hb. apply is_byteb_spec, (all_bytes (fun b => is_byteb (xtime b))); [|done].
  vm_compute. reflexivity.
Qed.

Lemma xtime_xor a b : is_byte a -> is_byte b -> xtime (Z.lxor a b) = Z.lxor (xtime a) (xtime b).
Proof.
  intros Ha Hb. apply Z.eqb_eq.
  apply (all_byte_pairs (fun a b => xtime (Z.lxor a b) =? Z.lxor (xtime a) (xtime b))); [|done..].
  vm_compute. reflexivity.
Qed.

Lemma SBox_ok b : is_byte b -> is_byte (SBox b).
Proof.
  intros Hb. apply is_byteb_spec, (all_bytes (fun b => is_byteb (SBox b))); [|done].
  vm_compute. reflexivity.
Qed.

(** [Td4] is the inverse of the S-box, and maps bytes to bytes. *)
Definition InvSBox (b : Z) : Z := tbl Td4 b.

Lemma Td4_InvSBox b : tbl Td4 b = InvSBox b.
Proof. done. Qed.

Lemma InvSBox_ok b : is_byte b -> is_byte (InvSBox b).
Proof.
  intros Hb. apply is_byteb_spec, (all_bytes (fun b => is_byteb (InvSBox b))); [|done].
  vm_compute. reflexivity.
Qed.

Lemma InvSBox_SBox b : is_byte b -> InvSBox (SBox b) = b.
Proof.
  intros Hb. apply Z.eqb_eq, (all_bytes (fun b => InvSBox (SBox b) =? b)); [|done].
  vm_compute. reflexivity.
Qed.

(** What the comment on the tables says of them. *)
Definition tables_ok (x : Z) : bool :=
  let s := SBox x in
  let i := InvSBox x in
  (tbl Te0 x =? pack (Col (xtime s) s s (mul3 s))) &&
  (tbl Te1 x =? pack (Col (mul3 s) (xtime s) s s)) &&
  (tbl Te2 x =? pack (Col s (mul3 s) (xtime s) s)) &&
  (tbl Te3 x =? pack (Col s s (mul3 s) (xtime s))) &&
  (tbl Td0 x =? pack (Col (mule i) (mul9 i) (muld i) (mulb i))) &&
  (tbl Td1 x =? pack (Col (mulb i) (mule i) (mul9 i) (muld i))) &&
  (tbl Td2 x =? pack (Col (muld i) (mulb i) (mule i) (mul9 i))) &&
  (tbl Td3 x =? pack (Col (mul9 i) (muld i) (mulb i) (mule i))).

Lemma tables_spec x : is_byte x ->
  let s := SBox x in
  let i := InvSBox x in
  tbl Te0 x = pack (Col (xtime s) s s (mul3 s)) /\
  tbl Te1 x = pack (Col (mul3 s) (xtime s) s s) /\
  tbl Te2 x = pack (Col s (mul3 s) (xtime s) s) /\
  tbl Te3 x = pack (Col s s (mul3 s) (xtime s)) /\
  tbl Td0 x = pack (Col (mule i) (mul9 i) (muld i) (mulb i)) /\
  tbl Td1 x = pack (Col (mulb i) (mule i) (mul9 i) (muld i)) /\
  tbl Td2 x = pack (Col (muld i) (mulb i) (mule i) (mul9 i)) /\
  tbl Td3 x = pack (Col (mul9 i) (muld i) (mulb i) (mule i)).
Proof.
  intros Hx. assert (H : tables_ok x = true).
  { apply (all_bytes tables_ok); [|done]. vm_compute. reflexivity. }
  unfold tables_ok in H. rewrite !andb_true_iff, !Z.eqb_eq in H. cbn zeta. tauto.
Qed.

(** ** MixColumns *)

(** Field expressions over bytes are bytes. *)
Ltac field_bytes :=
  unfold mule, muld, mulb, mul9, mul8, mul4, mul3;
  repeat first [assumption | apply xtime_ok | apply is_byte_lxor].

Lemma mul_ok b : is_byte b ->
  is_byte (mul3 b) /\ is_byte (mul4 b) /\ is_byte (mul8 b) /\ is_byte (mul9 b) /\
  is_byte (mulb b) /\ is_byte (muld b) /\ is_byte (mule b).
Proof.
  intros Hb. split_and!; field_bytes.
Qed.

(** Closes an equation between exclusive ors of the same terms. *)
Ltac xor_ac :=
  apply Z.bits_inj'; intros ?i ?; rewrite !Z.lxor_spec; btauto.

Lemma mul_xor a b : is_byte a -> is_byte b ->
  mul3 (Z.lxor a b) = Z.lxor (mul3 a) (mul3 b) /\
  mul9 (Z.lxor a b) = Z.lxor (mul9 a) (mul9 b) /\
  mulb (Z.lxor a b) = Z.lxor (mulb a) (mulb b) /\
  muld (Z.lxor a b) = Z.lxor (muld a) (muld b) /\
  mule (Z.lxor a b) = Z.lxor (mule a) (mule b).
Proof.
  intros Ha Hb.
  assert (H4 : mul4 (Z.lxor a b) = Z.lxor (mul4 a) (mul4 b))
    by (unfold mul4; by rewrite !xtime_xor by (done || by apply xtime_ok)).
  assert (H8 : mul8 (Z.lxor a b) = Z.lxor (mul8 a) (mul8 b))
    by (unfold mul8; rewrite H4, xtime_xor by (by apply mul_ok); done).
  unfold mule, muld, mulb, mul9, mul3. rewrite H4, H8, xtime_xor by done.
  split_and!; xor_ac.
Qed.

Lemma col_xor_ok a b : col_ok a -> col_ok b -> col_ok (col_xor a b).
Proof. intros (? & ? & ? & ?) (? & ? & ? & ?). split_and!; by apply is_byte_lxor. Qed.

Lemma MixColumn_ok v : col_ok v -> col_ok (MixColumn v).
Proof.
  intros (? & ? & ? & ?). unfold MixColumn. split_and!; cbn [c0 c1 c2 c3]; field_bytes.
Qed.

Lemma InvMixColumn_ok v : col_ok v -> col_ok (InvMixColumn v).
Proof.
  intros (? & ? & ? & ?). unfold InvMixColumn. split_and!; cbn [c0 c1 c2 c3]; field_bytes.
Qed.

(** Both transforms are linear. *)
Ltac linear :=
  repeat match goal with
         | |- context [xtime (Z.lxor ?a ?b)] => rewrite (xtime_xor a b) by assumption
         | |- context [mul3 (Z.lxor ?a ?b)] =>
             rewrite (proj1 (mul_xor a b ltac:(assumption) ltac:(assumption)))
         | |- context [mul9 (Z.lxor ?a ?b)] =>
             rewrite (proj1 (proj2 (mul_xor a b ltac:(assumption) ltac:(assumption))))
         | |- context [mulb (Z.lxor ?a ?b)] =>
             rewrite (proj1 (proj2 (proj2 (mul_xor a b ltac:(assumption) ltac:(assumption)))))
         | |- context [muld (Z.lxor ?a ?b)] =>
             rewrite (proj1 (proj2 (proj2 (proj2 (mul_xor a b ltac:(assumption) ltac:(assumption))))))
         | |- context [mule (Z.lxor ?a ?b)] =>
             rewrite (proj2 (proj2 (proj2 (proj2 (mul_xor a b ltac:(assumption) ltac:(assumption))))))
         end.

Lemma MixColumn_xor a b : col_ok a -> col_ok b ->
  MixColumn (col_xor a b) = col_xor (MixColumn a) (MixColumn b).
Proof.
  intros (? & ? & ? & ?) (? & ? & ? & ?).
  unfold MixColumn, col_xor. cbn [c0 c1 c2 c3]. linear. f_equal; xor_ac.
Qed.

Lemma InvMixColumn_xor a b : col_ok a -> col_ok b ->
  InvMixColumn (col_xor a b) = col_xor (InvMixColumn a) (InvMixColumn b).
Proof.
  intros (? & ? & ? & ?) (? & ? & ? & ?).
  unfold InvMixColumn, col_xor. cbn [c0 c1 c2 c3]. linear. f_equal; xor_ac.
Qed.

(** Hence it is enough to see that they are inverse on columns with one byte. *)
Definition col_eqb (a b : col) : bool :=
  (c0 a =? c0 b) && (c1 a =? c1 b) && (c2 a =? c2 b) && (c3 a =? c3 b).

Lemma col_eqb_eq a b : col_eqb a b = true -> a = b.
Proof.
  destruct a, b. unfold col_eqb. cbn [c0 c1 c2 c3].
  intros [[[?%Z.eqb_eq ?%Z.eqb_eq]%andb_prop ?%Z.eqb_eq]%andb_prop ?%Z.eqb_eq]%andb_prop.
  by subst.
Qed.

Definition mix_back (v : col) : col := InvMixColumn (MixColumn v).

Lemma one_byte_back (place : Z -> col) :
  forallb (fun x => col_eqb (mix_back (place x)) (place x)) (seqZ 0 256) = true ->
  forall x, is_byte x -> mix_back (place x) = place x.
Proof.
  intros H x Hx. apply col_eqb_eq.
  exact (all_bytes (fun x => col_eqb (mix_back (place x)) (place x)) H x Hx).
Qed.

Lemma mix_back_xor a b : col_ok a -> col_ok b ->
  mix_back (col_xor a b) = col_xor (mix_back a) (mix_back b).
Proof.
  intros Ha Hb. unfold mix_back. rewrite MixColumn_xor by done.
  by apply InvMixColumn_xor; apply MixColumn_ok.
Qed.

Lemma InvMix_Mix v : col_ok v -> InvMixColumn (MixColumn v) = v.
Proof.
  destruct v as [x y z w]. intros (Hx & Hy & Hz & Hw). cbn [c0 c1 c2 c3] in *.
  assert (H0 : is_byte 0) by (unfold is_byte; lia).
  assert (Ix := one_byte_back (fun x => Col x 0 0 0) ltac:(vm_compute; reflexivity) x Hx).
  assert (Iy := one_byte_back (fun x => Col 0 x 0 0) ltac:(vm_compute; reflexivity) y Hy).
  assert (Iz := one_byte_back (fun x => Col 0 0 x 0) ltac:(vm_compute; reflexivity) z Hz).
  assert (Iw := one_byte_back (fun x => Col 0 0 0 x) ltac:(vm_compute; reflexivity) w Hw).
  cbn beta in *. fold (mix_back (Col x y z w)).
  assert (Ex : Col x y z w =
    col_xor (col_xor (Col x 0 0 0) (Col 0 y 0 0)) (col_xor (Col 0 0 z 0) (Col 0 0 0 w))).
  { unfold col_xor. cbn [c0 c1 c2 c3]. by rewrite !Z.lxor_0_r, !Z.lxor_0_l. }
  rewrite Ex at 1. rewrite !mix_back_xor by (repeat apply col_xor_ok; by split_and!).
  rewrite Ix, Iy, Iz, Iw. by symmetry.
Qed.

(** ** The code on packed columns *)

Lemma zero_ok : is_byte 0.
Proof. unfold is_byte. lia. Qed.

Lemma SBox_cols_ok x : is_byte x ->
  let s := SBox x in
  col_ok (Col (xtime s) s s (mul3 s)) /\ col_ok (Col (mul3 s) (xtime s) s s) /\
  col_ok (Col s (mul3 s) (xtime s) s) /\ col_ok (Col s s (mul3 s) (xtime s)).
Proof.
  intros Hx s. pose proof (SBox_ok x Hx) as Hs. fold s in Hs.
  split_and!; split_and!; cbn [c0 c1 c2 c3]; field_bytes.
Qed.

Lemma InvSBox_cols_ok x : is_byte x ->
  let i := InvSBox x in
  col_ok (Col (mule i) (mul9 i) (muld i) (mulb i)) /\
  col_ok (Col (mulb i) (mule i) (mul9 i) (muld i)) /\
  col_ok (Col (muld i) (mulb i) (mule i) (mul9 i)) /\
  col_ok (Col (mul9 i) (muld i) (mulb i) (mule i)).
Proof.
  intros Hx i. pose proof (InvSBox_ok x Hx) as Hi. fold i in Hi.
  split_and!; split_and!; cbn [c0 c1 c2 c3]; field_bytes.
Qed.

Lemma shiftl_pack b : is_byte b ->
  Z.shiftl b 24 = pack (Col b 0 0 0) /\ Z.shiftl b 16 = pack (Col 0 b 0 0) /\
  Z.shiftl b 8 = pack (Col 0 0 b 0) /\ b = pack (Col 0 0 0 b).
Proof.
  intros _. unfold pack. cbn [c0 c1 c2 c3]. rewrite !Z.shiftl_mul_pow2 by lia.
  change (2 ^ 24) with 16777216. change (2 ^ 16) with 65536. change (2 ^ 8) with 256. lia.
Qed.

Lemma mask_spec c : col_ok c ->
  Z.land (pack c) 0xff000000 = pack (Col (c0 c) 0 0 0) /\
  Z.land (pack c) 0x00ff0000 = pack (Col 0 (c1 c) 0 0) /\
  Z.land (pack c) 0x0000ff00 = pack (Col 0 0 (c2 c) 0) /\
  Z.land (pack c) 0x000000ff = pack (Col 0 0 0 (c3 c)).
Proof.
  intros Hc. assert (H255 : is_byte 255) by (unfold is_byte; lia). pose proof zero_ok.
  change (Z.land (pack c) 255) with (Z.land (pack c) (pack (Col 0 0 0 255))).
  change 0xff000000 with (pack (Col 255 0 0 0)). change 0x00ff0000 with (pack (Col 0 255 0 0)).
  change 0x0000ff00 with (pack (Col 0 0 255 0)).
  rewrite !pack_land by (done || by split_and!). destruct Hc as (? & ? & ? & ?). cbn [c0 c1 c2 c3].
  rewrite !Z.land_0_r, !land_255 by done. done.
Qed.

#[local] Opaque SBox InvSBox xtime mul3 mul4 mul8 mul9 mulb muld mule pack tbl.

(** Rewrites the byte selections of packed columns. *)
Ltac select_bytes :=
  repeat match goal with
         | H : col_ok ?c |- context [w3 (pack ?c)] => rewrite (proj1 (w_pack c H))
         | H : col_ok ?c |- context [w2 (pack ?c)] => rewrite (proj1 (proj2 (w_pack c H)))
         | H : col_ok ?c |- context [w1 (pack ?c)] => rewrite (proj1 (proj2 (proj2 (w_pack c H))))
         | H : col_ok ?c |- context [w0 (pack ?c)] => rewrite (proj2 (proj2 (proj2 (w_pack c H))))
         end.

Lemma enc_word_spec a b c d k :
  col_ok a -> col_ok b -> col_ok c -> col_ok d -> col_ok k ->
  enc_word (pack a) (pack b) (pack c) (pack d) (pack k) =
    pack (col_xor (MixColumn (Col (SBox (c0 a)) (SBox (c1 b)) (SBox (c2 c)) (SBox (c3 d)))) k).
Proof.
  intros Ha Hb Hc Hd Hk. unfold enc_word. select_bytes.
  destruct Ha as (Ha & _), Hb as (_ & Hb & _), Hc as (_ & _ & Hc & _), Hd as (_ & _ & _ & Hd).
  destruct (tables_spec _ Ha) as (-> & _), (tables_spec _ Hb) as (_ & -> & _),
    (tables_spec _ Hc) as (_ & _ & -> & _), (tables_spec _ Hd) as (_ & _ & _ & -> & _).
  destruct (SBox_cols_ok _ Ha) as (Oa & _), (SBox_cols_ok _ Hb) as (_ & Ob & _),
    (SBox_cols_ok _ Hc) as (_ & _ & Oc & _), (SBox_cols_ok _ Hd) as (_ & _ & _ & Od).
  by rewrite !pack_xor by (repeat apply col_xor_ok; assumption).
Qed.

Lemma one_byte_cols a b c d :
  col_xor (col_xor (col_xor (Col a 0 0 0) (Col 0 b 0 0)) (Col 0 0 c 0)) (Col 0 0 0 d) = Col a b c d.
Proof. unfold col_xor. cbn [c0 c1 c2 c3]. by rewrite !Z.lxor_0_r, !Z.lxor_0_l. Qed.

Lemma pack_one_byte a b c d :
  is_byte a -> is_byte b -> is_byte c -> is_byte d ->
  Z.lxor (Z.lxor (Z.lxor (pack (Col a 0 0 0)) (pack (Col 0 b 0 0))) (pack (Col 0 0 c 0)))
    (pack (Col 0 0 0 d)) = pack (Col a b c d).
Proof.
  intros. pose proof zero_ok.
  rewrite !pack_xor by (repeat apply col_xor_ok; by split_and!). by rewrite one_byte_cols.
Qed.

Lemma shifts_pack a b c d :
  is_byte a -> is_byte b -> is_byte c -> is_byte d ->
  Z.lxor (Z.lxor (Z.lxor (Z.shiftl a 24) (Z.shiftl b 16)) (Z.shiftl c 8)) d = pack (Col a b c d).
Proof.
  intros Ha Hb Hc Hd. rewrite <- pack_one_byte by assumption.
  destruct (shiftl_pack a Ha) as (<- & _), (shiftl_pack b Hb) as (_ & <- & _),
    (shiftl_pack c Hc) as (_ & _ & <- & _), (shiftl_pack d Hd) as (_ & _ & _ & <-). done.
Qed.

Lemma enc_last_word_spec a b c d k :
  col_ok a -> col_ok b -> col_ok c -> col_ok d -> col_ok k ->
  enc_last_word (pack a) (pack b) (pack c) (pack d) (pack k) =
    pack (col_xor (Col (SBox (c0 a)) (SBox (c1 b)) (SBox (c2 c)) (SBox (c3 d))) k).
Proof.
  intros Ha Hb Hc Hd Hk. unfold enc_last_word. select_bytes.
  destruct Ha as (Ha & _), Hb as (_ & Hb & _), Hc as (_ & _ & Hc & _), Hd as (_ & _ & _ & Hd).
  destruct (tables_spec _ Ha) as (_ & _ & -> & _), (tables_spec _ Hb) as (_ & _ & _ & -> & _),
    (tables_spec _ Hc) as (-> & _), (tables_spec _ Hd) as (_ & -> & _).
  destruct (SBox_cols_ok _ Ha) as (_ & _ & Oa & _), (SBox_cols_ok _ Hb) as (_ & _ & _ & Ob),
    (SBox_cols_ok _ Hc) as (Oc & _), (SBox_cols_ok _ Hd) as (_ & Od & _).
  rewrite (proj1 (mask_spec _ Oa)), (proj1 (proj2 (mask_spec _ Ob))),
    (proj1 (proj2 (proj2 (mask_spec _ Oc)))), (proj2 (proj2 (proj2 (mask_spec _ Od)))).
  cbn [c0 c1 c2 c3]. rewrite pack_one_byte by (by apply SBox_ok).
  rewrite pack_xor; [done| |done]. split_and!; by apply SBox_ok.
Qed.

Lemma dec_word_spec a b c d k :
  col_ok a -> col_ok b -> col_ok c -> col_ok d -> col_ok k ->
  dec_word (pack a) (pack b) (pack c) (pack d) (pack k) =
    pack (col_xor (InvMixColumn (Col (InvSBox (c0 a)) (InvSBox (c1 b)) (InvSBox (c2 c))
                                     (InvSBox (c3 d)))) k).
Proof.
  intros Ha Hb Hc Hd Hk. unfold dec_word. select_bytes.
  destruct Ha as (Ha & _), Hb as (_ & Hb & _), Hc as (_ & _ & Hc & _), Hd as (_ & _ & _ & Hd).
  destruct (tables_spec _ Ha) as (_ & _ & _ & _ & -> & _),
    (tables_spec _ Hb) as (_ & _ & _ & _ & _ & -> & _),
    (tables_spec _ Hc) as (_ & _ & _ & _ & _ & _ & -> & _),
    (tables_spec _ Hd) as (_ & _ & _ & _ & _ & _ & _ & ->).
  destruct (InvSBox_cols_ok _ Ha) as (Oa & _), (InvSBox_cols_ok _ Hb) as (_ & Ob & _),
    (InvSBox_cols_ok _ Hc) as (_ & _ & Oc & _), (InvSBox_cols_ok _ Hd) as (_ & _ & _ & Od).
  by rewrite !pack_xor by (repeat apply col_xor_ok; assumption).
Qed.

Lemma dec_last_word_spec a b c d k :
  col_ok a -> col_ok b -> col_ok c -> col_ok d -> col_ok k ->
  dec_last_word (pack a) (pack b) (pack c) (pack d) (pack k) =
    pack (col_xor (Col (InvSBox (c0 a)) (InvSBox (c1 b)) (InvSBox (c2 c)) (InvSBox (c3 d))) k).
Proof.
  intros Ha Hb Hc Hd Hk. unfold dec_last_word. select_bytes.
  destruct Ha as (Ha & _), Hb as (_ & Hb & _), Hc as (_ & _ & Hc & _), Hd as (_ & _ & _ & Hd).
  rewrite !Td4_InvSBox.
  apply InvSBox_ok in Ha, Hb, Hc, Hd.
  rewrite shifts_pack by assumption. rewrite pack_xor; [done| |done]. by split_and!.
Qed.

Lemma inv_mix_word_spec c : col_ok c -> inv_mix_word (pack c) = pack (InvMixColumn c).
Proof.
  intros Hc. unfold inv_mix_word. select_bytes. destruct Hc as (H0 & H1 & H2 & H3).
  assert (Hs : forall x, is_byte x -> Z.land (tbl Te1 x) 0xff = SBox x).
  { intros x Hx. destruct (tables_spec _ Hx) as (_ & -> & _), (SBox_cols_ok _ Hx) as (_ & O & _).
    rewrite (proj2 (proj2 (proj2 (mask_spec _ O)))). cbn [c3]. symmetry.
    by apply shiftl_pack, SBox_ok. }
  rewrite !Hs by done.
  pose proof (SBox_ok _ H0) as S0. pose proof (SBox_ok _ H1) as S1.
  pose proof (SBox_ok _ H2) as S2. pose proof (SBox_ok _ H3) as S3.
  destruct (tables_spec _ S0) as (_ & _ & _ & _ & -> & _),
    (tables_spec _ S1) as (_ & _ & _ & _ & _ & -> & _),
    (tables_spec _ S2) as (_ & _ & _ & _ & _ & _ & -> & _),
    (tables_spec _ S3) as (_ & _ & _ & _ & _ & _ & _ & ->).
  destruct (InvSBox_cols_ok _ S0) as (O0 & _), (InvSBox_cols_ok _ S1) as (_ & O1 & _),
    (InvSBox_cols_ok _ S2) as (_ & _ & O2 & _), (InvSBox_cols_ok _ S3) as (_ & _ & _ & O3).
  rewrite !pack_xor by (repeat apply col_xor_ok; assumption).
  rewrite !InvSBox_SBox by done. done.
Qed.

(** ** Rounds *)

Definition wpack (s : state) : words := mkW (pack (k0 s)) (pack (k1 s)) (pack (k2 s)) (pack (k3 s)).

(** The round key in the four words from [o] on. *)
Definition key_at (rk : list Z) (o : nat) : state :=
  St (unpack (rk_at rk o)) (unpack (rk_at rk (o + 1)))
     (unpack (rk_at rk (o + 2))) (unpack (rk_at rk (o + 3))).

Definition sched_ok (rk : list Z) : Prop := Forall word32 rk.

Lemma rk_word32 rk k : sched_ok rk -> word32 (rk_at rk k).
Proof.
  intros H. unfold rk_at. destruct (nth_in_or_default k rk 0) as [Hin| ->].
  - apply (proj1 (Forall_forall _ _) H). by apply list_elem_of_In.
  - unfold word32. lia.
Qed.

Lemma key_at_ok rk o : sched_ok rk -> state_ok (key_at rk o).
Proof. intros H. split_and!; by apply pack_unpack, rk_word32. Qed.

Lemma rk_pack rk k : sched_ok rk -> rk_at rk k = pack (unpack (rk_at rk k)).
Proof. intros H. symmetry. by apply pack_unpack, rk_word32. Qed.

Lemma rk_at_drop rk n k : rk_at (drop n rk) k = rk_at rk (n + k).
Proof. unfold rk_at. by rewrite !nth_lookup, lookup_drop. Qed.

Lemma key_at_drop rk n o : key_at (drop n rk) o = key_at rk (n + o).
Proof. unfold key_at. rewrite !rk_at_drop. by rewrite !Nat.add_assoc. Qed.

Lemma on_bytes_ok f s : (forall b, is_byte b -> is_byte (f b)) -> state_ok s -> state_ok (on_bytes f s).
Proof.
  intros Hf ((? & ? & ? & ?) & (? & ? & ? & ?) & (? & ? & ? & ?) & (? & ? & ? & ?)).
  unfold state_ok, col_ok. split_and!; cbn; by apply Hf.
Qed.

Lemma on_cols_ok f s : (forall c, col_ok c -> col_ok (f c)) -> state_ok s -> state_ok (on_cols f s).
Proof. intros Hf (? & ? & ? & ?). unfold state_ok. split_and!; by apply Hf. Qed.

Lemma ShiftRows_ok s : state_ok s -> state_ok (ShiftRows s).
Proof.
  intros ((? & ? & ? & ?) & (? & ? & ? & ?) & (? & ? & ? & ?) & (? & ? & ? & ?)).
  unfold state_ok, col_ok. split_and!; cbn; assumption.
Qed.

Lemma InvShiftRows_ok s : state_ok s -> state_ok (InvShiftRows s).
Proof.
  intros ((? & ? & ? & ?) & (? & ? & ? & ?) & (? & ? & ? & ?) & (? & ? & ? & ?)).
  unfold state_ok, col_ok. split_and!; cbn; assumption.
Qed.

Lemma AddRoundKey_ok s k : state_ok s -> state_ok k -> state_ok (AddRoundKey s k).
Proof.
  intros (? & ? & ? & ?) (? & ? & ? & ?).
  split; [|split; [|split]]; by apply col_xor_ok.
Qed.

#[local] Hint Resolve on_bytes_ok on_cols_ok ShiftRows_ok InvShiftRows_ok AddRoundKey_ok
  SBox_ok InvSBox_ok MixColumn_ok InvMixColumn_ok key_at_ok : altus.

Lemma enc_round_spec s rk o :
  state_ok s -> sched_ok rk ->
  enc_round (wpack s) rk o =
    wpack (AddRoundKey (on_cols MixColumn (ShiftRows (on_bytes SBox s))) (key_at rk o)).
Proof.
  intros (H0 & H1 & H2 & H3) Hrk. destruct (key_at_ok rk o Hrk) as (K0 & K1 & K2 & K3).
  unfold enc_round. cbn [s0 s1 s2 s3 wpack].
  rewrite (rk_pack rk o), (rk_pack rk (o + 1)), (rk_pack rk (o + 2)), (rk_pack rk (o + 3)) by done.
  rewrite !enc_word_spec by assumption. reflexivity.
Qed.

Lemma dec_round_spec s rk o :
  state_ok s -> sched_ok rk ->
  dec_round (wpack s) rk o =
    wpack (AddRoundKey (on_cols InvMixColumn (on_bytes InvSBox (InvShiftRows s))) (key_at rk o)).
Proof.
  intros (H0 & H1 & H2 & H3) Hrk. destruct (key_at_ok rk o Hrk) as (K0 & K1 & K2 & K3).
  unfold dec_round. cbn [s0 s1 s2 s3 wpack].
  rewrite (rk_pack rk o), (rk_pack rk (o + 1)), (rk_pack rk (o + 2)), (rk_pack rk (o + 3)) by done.
  rewrite !dec_word_spec by assumption. reflexivity.
Qed.

Lemma of_block_ok inp : nbytes 16 inp -> state_ok (of_block inp).
Proof. intros H. unfold state_ok, col_ok. split_and!; by eapply byte_at_is_byte. Qed.

Lemma load_state_spec inp rk :
  nbytes 16 inp -> sched_ok rk ->
  load_state inp rk = wpack (AddRoundKey (of_block inp) (key_at rk 0)).
Proof.
  intros Hi Hrk. destruct (key_at_ok rk 0 Hrk) as (K0 & K1 & K2 & K3).
  destruct (of_block_ok inp Hi) as (I0 & I1 & I2 & I3).
  assert (Hb : forall n, is_byte (byte_at inp n)) by (intros n; by eapply byte_at_is_byte).
  unfold load_state, GETU32. rewrite !shifts_pack by apply Hb.
  rewrite (rk_pack rk 0), (rk_pack rk 1), (rk_pack rk 2), (rk_pack rk 3) by done.
  unfold wpack, AddRoundKey. cbn [k0 k1 k2 k3]. rewrite <- !pack_xor by assumption. reflexivity.
Qed.

Lemma to_block_put s : state_ok s ->
  PUTU32 (pack (k0 s)) ++ PUTU32 (pack (k1 s)) ++ PUTU32 (pack (k2 s)) ++ PUTU32 (pack (k3 s)) =
  to_block s.
Proof.
  assert (H : forall c, col_ok c -> PUTU32 (pack c) = [c0 c; c1 c; c2 c; c3 c]).
  { intros c Hc. destruct (w_pack c Hc) as (E3 & E2 & E1 & E0). destruct Hc as (B0 & B1 & B2 & B3).
    assert (Hu : forall z, u8 z = Z.land z 0xff).
    { intros z. change 0xff with (Z.ones 8). by rewrite Z.land_ones. }
    unfold PUTU32. rewrite !Hu. unfold w3, w2, w1, w0 in *. rewrite E2, E1, E0, E3.
    by rewrite land_255. }
  intros (H0 & H1 & H2 & H3). by rewrite !H.
Qed.

Section encryption.
Context (rk : list Z) (Hrk : sched_ok rk).
Let key (i : nat) : state := key_at rk (4 * i).

Lemma rounds_of_ok inp i : state_ok inp -> state_ok (rounds_of key inp i).
Proof. intros H. induction i as [|i IH]; cbn [rounds_of]; unfold key; auto 10 with altus. Qed.

Lemma enc_loop_spec inp : state_ok inp -> forall r a, (0 < r)%nat ->
  enc_loop r (drop (8 * a) rk) (wpack (rounds_of key inp (2 * a))) =
    (wpack (rounds_of key inp (2 * a + 2 * r - 1)), drop (8 * (a + r)) rk).
Proof.
  intros Hi. assert (Hd : forall n, sched_ok (drop n rk)) by (intros n; by apply Forall_drop).
  induction r as [|r IH]; intros a Hr; [lia|]. cbn [enc_loop].
  rewrite enc_round_spec by (done || by apply rounds_of_ok). rewrite key_at_drop.
  replace (8 * a + 4)%nat with (4 * S (2 * a))%nat by lia. fold (key (S (2 * a))).
  change (AddRoundKey _ (key (S (2 * a)))) with (rounds_of key inp (S (2 * a))).
  rewrite drop_drop. destruct (Nat.eqb_spec r 0) as [->|Hne].
  - f_equal; [do 2 f_equal; lia|f_equal; lia].
  - rewrite enc_round_spec by (done || by apply rounds_of_ok). rewrite key_at_drop.
    replace (8 * a + 8 + 0)%nat with (4 * S (S (2 * a)))%nat by lia. fold (key (S (S (2 * a)))).
    change (AddRoundKey _ (key (S (S (2 * a))))) with (rounds_of key inp (S (S (2 * a)))).
    replace (8 * a + 8)%nat with (8 * S a)%nat by lia.
    replace (S (S (2 * a))) with (2 * S a)%nat by lia. rewrite IH by lia.
    f_equal; [do 2 f_equal; lia|f_equal; lia].
Qed.

Lemma AES_encrypt_fips r inp :
  (0 < r)%nat -> nbytes 16 inp ->
  AES_encrypt inp (mkKey rk (2 * r)) = fips_cipher (2 * r) key inp.
Proof.
  intros Hr Hi. unfold AES_encrypt. cbn [rd_key rounds].
  assert (Hdiv : (2 * r / 2 = r)%nat) by (rewrite Nat.mul_comm; apply Nat.div_mul; lia).
  rewrite Hdiv, load_state_spec by done.
  pose proof (of_block_ok inp Hi) as Ho.
  pose proof (enc_loop_spec (of_block inp) Ho r 0 Hr) as El.
  change (drop (8 * 0) rk) with rk in El.
  change (rounds_of key (of_block inp) (2 * 0))
    with (AddRoundKey (of_block inp) (key_at rk 0)) in El.
  change (2 * 0)%nat with 0%nat in El. rewrite !Nat.add_0_l in El. rewrite El.
  unfold fips_cipher. set (y := rounds_of key (of_block inp) _).
  assert (Hy : state_ok y) by (by apply rounds_of_ok).
  rewrite !rk_at_drop. cbn [wpack s0 s1 s2 s3].
  replace (8 * r)%nat with (4 * (2 * r))%nat by lia. rewrite Nat.add_0_r.
  destruct (key_at_ok rk (4 * (2 * r)) Hrk) as (K0 & K1 & K2 & K3). destruct Hy as (Y0 & Y1 & Y2 & Y3).
  cbn [key_at k0 k1 k2 k3] in K0, K1, K2, K3.
  rewrite (rk_pack rk (4 * (2 * r))), (rk_pack rk (_ + 1)), (rk_pack rk (_ + 2)),
    (rk_pack rk (_ + 3)) by done.
  rewrite !enc_last_word_spec by assumption.
  rewrite <- to_block_put; [reflexivity|].
  apply AddRoundKey_ok; [|exact (key_at_ok rk (4 * (2 * r)) Hrk)].
  apply ShiftRows_ok, on_bytes_ok; [exact SBox_ok|]. exact (conj Y0 (conj Y1 (conj Y2 Y3))).
Qed.
End encryption.

(** ** Decryption *)

Lemma InvShiftRows_ShiftRows s : InvShiftRows (ShiftRows s) = s.
Proof. by destruct s as [[] [] [] []]. Qed.

Lemma InvSBox_bytes s : state_ok s -> on_bytes InvSBox (on_bytes SBox s) = s.
Proof.
  destruct s as [[] [] [] []].
  intros ((? & ? & ? & ?) & (? & ? & ? & ?) & (? & ? & ? & ?) & (? & ? & ? & ?)).
  unfold on_bytes. cbn [k0 k1 k2 k3 c0 c1 c2 c3] in *. by rewrite !InvSBox_SBox.
Qed.

Lemma InvMix_cols s : state_ok s -> on_cols InvMixColumn (on_cols MixColumn s) = s.
Proof.
  destruct s. intros (? & ? & ? & ?). unfold on_cols. cbn [k0 k1 k2 k3] in *. by rewrite !InvMix_Mix.
Qed.

Lemma InvMix_AddRoundKey s k : state_ok s -> state_ok k ->
  on_cols InvMixColumn (AddRoundKey s k) =
    AddRoundKey (on_cols InvMixColumn s) (on_cols InvMixColumn k).
Proof.
  intros (? & ? & ? & ?) (? & ? & ? & ?). unfold on_cols, AddRoundKey. cbn [k0 k1 k2 k3].
  by rewrite !InvMixColumn_xor.
Qed.

Lemma AddRoundKey_twice s k : AddRoundKey (AddRoundKey s k) k = s.
Proof.
  destruct s as [[] [] [] []]. unfold AddRoundKey, col_xor. cbn [k0 k1 k2 k3 c0 c1 c2 c3].
  by rewrite !lxor_cancel_r.
Qed.

Lemma of_to_block s : of_block (to_block s) = s.
Proof. by destruct s as [[] [] [] []]. Qed.

Lemma to_of_block inp : length inp = 16%nat -> to_block (of_block inp) = inp.
Proof.
  intros Hl. do 16 (destruct inp as [|? inp]; [discriminate Hl|]).
  by destruct inp; [|discriminate Hl].
Qed.

Lemma nbytes_to_block s : state_ok s -> nbytes 16 (to_block s).
Proof.
  intros ((? & ? & ? & ?) & (? & ? & ? & ?) & (? & ? & ? & ?) & (? & ? & ? & ?)).
  split; [done|]. unfold to_block, bytes. cbn [app].
  repeat (apply Forall_cons_2; [assumption|]). apply Forall_nil_2.
Qed.

(** The words of a decryption schedule. *)
Definition dec_sched (R : nat) (rk : list Z) : list Z :=
  inv_mix_loop (R - 1) 4 (invert_order R 0 (4 * R) rk).

Definition dec_sched_ref (R : nat) (rk : list Z) : list Z :=
  concat (map (fun i => map (fun k =>
    let w := rk_at rk (4 * (R - i) + k) in
    if (i =? 0)%nat || (i =? R)%nat then w else inv_mix_word w) (seq 0 4)) (seq 0 (S R))).

Lemma dec_sched_10 rk : length rk = 44%nat -> dec_sched 10 rk = dec_sched_ref 10 rk.
Proof.
  intros Hl. do 44 (destruct rk as [|? rk]; [discriminate Hl|]).
  destruct rk; [|discriminate Hl]. lazy -[inv_mix_word]. reflexivity.
Qed.

Lemma dec_sched_12 rk : length rk = 52%nat -> dec_sched 12 rk = dec_sched_ref 12 rk.
Proof.
  intros Hl. do 52 (destruct rk as [|? rk]; [discriminate Hl|]).
  destruct rk; [|discriminate Hl]. lazy -[inv_mix_word]. reflexivity.
Qed.

Lemma dec_sched_14 rk : length rk = 60%nat -> dec_sched 14 rk = dec_sched_ref 14 rk.
Proof.
  intros Hl. do 60 (destruct rk as [|? rk]; [discriminate Hl|]).
  destruct rk; [|discriminate Hl]. lazy -[inv_mix_word]. reflexivity.
Qed.

(** Element [4 i + k] of a list of groups of four. *)
Lemma nth_groups (f : nat -> nat -> Z) n : forall a i k, (i < n)%nat -> (k < 4)%nat ->
  nth (4 * i + k) (concat (map (fun i => map (f i) (seq 0 4)) (seq a n))) 0 = f (a + i)%nat k.
Proof.
  induction n as [|n IH]; intros a i k Hi Hk; [lia|]. cbn [seq map concat].
  destruct i as [|i].
  - rewrite app_nth1 by (simpl; lia). rewrite Nat.add_0_r.
    do 4 (destruct k as [|k]; [done|]). lia.
  - rewrite app_nth2 by (simpl; lia). cbn [length map seq].
    replace (4 * S i + k - 4)%nat with (4 * i + k)%nat by lia.
    change [f a 0%nat; f a 1%nat; f a 2%nat; f a 3%nat] with (map (f a) (seq 0 4)).
    rewrite IH by lia. f_equal. lia.
Qed.

Lemma unpack_inv_mix w : word32 w -> unpack (inv_mix_word w) = InvMixColumn (unpack w).
Proof.
  intros Hw. destruct (pack_unpack w Hw) as [Hok Hp]. rewrite <- Hp at 1.
  rewrite inv_mix_word_spec by done. unfold unpack at 1.
  destruct (w_pack _ (InvMixColumn_ok _ Hok)) as (-> & -> & -> & ->).
  by destruct (InvMixColumn (unpack w)).
Qed.

Lemma word32_inv_mix w : word32 w -> word32 (inv_mix_word w).
Proof.
  intros Hw. destruct (pack_unpack w Hw) as [Hok Hp]. rewrite <- Hp.
  rewrite inv_mix_word_spec by done.
  destruct (InvMixColumn_ok _ Hok) as (? & ? & ? & ?). unfold word32, is_byte in *.
  Transparent pack. unfold pack. Opaque pack. lia.
Qed.

Lemma dec_sched_ref_ok R rk : sched_ok rk -> sched_ok (dec_sched_ref R rk).
Proof.
  intros H. apply Forall_concat, Forall_map, Forall_forall. intros i _.
  apply Forall_map, Forall_forall. intros k _. cbn beta zeta.
  destruct (_ || _); [by apply rk_word32|by apply word32_inv_mix, rk_word32].
Qed.

(** Its round keys: those of the encryption in reverse, transformed inside. *)
Lemma dec_sched_key R rk i :
  sched_ok rk -> (i <= R)%nat ->
  key_at (dec_sched_ref R rk) (4 * i) =
    if (i =? 0)%nat || (i =? R)%nat then key_at rk (4 * (R - i))
    else on_cols InvMixColumn (key_at rk (4 * (R - i))).
Proof.
  intros Hrk Hi. unfold key_at, rk_at, dec_sched_ref.
  rewrite <- (Nat.add_0_r (4 * i)) at 1.
  rewrite !nth_groups by lia. rewrite Nat.add_0_l, Nat.add_0_r.
  destruct ((i =? 0)%nat || (i =? R)%nat); [done|].
  unfold on_cols. cbn [k0 k1 k2 k3]. by rewrite !unpack_inv_mix by (by apply rk_word32).
Qed.

Section decryption.
Context (dk : list Z) (Hdk : sched_ok dk).
Let key (i : nat) : state := key_at dk (4 * i).

(** The state after [i] full rounds of the decryption. *)
Fixpoint inv_rounds_of (inp : state) (i : nat) : state :=
  match i with
  | O => AddRoundKey inp (key 0%nat)
  | S j =>
      AddRoundKey (on_cols InvMixColumn (on_bytes InvSBox (InvShiftRows (inv_rounds_of inp j)))) (key i)
  end.

Lemma inv_rounds_of_ok inp i : state_ok inp -> state_ok (inv_rounds_of inp i).
Proof. intros H. induction i as [|i IH]; cbn [inv_rounds_of]; unfold key; auto 10 with altus. Qed.

Lemma dec_loop_spec inp : state_ok inp -> forall r a, (0 < r)%nat ->
  dec_loop r (drop (8 * a) dk) (wpack (inv_rounds_of inp (2 * a))) =
    (wpack (inv_rounds_of inp (2 * a + 2 * r - 1)), drop (8 * (a + r)) dk).
Proof.
  intros Hi. assert (Hd : forall n, sched_ok (drop n dk)) by (intros n; by apply Forall_drop).
  induction r as [|r IH]; intros a Hr; [lia|]. cbn [dec_loop].
  rewrite dec_round_spec by (done || by apply inv_rounds_of_ok). rewrite key_at_drop.
  replace (8 * a + 4)%nat with (4 * S (2 * a))%nat by lia. fold (key (S (2 * a))).
  change (AddRoundKey _ (key (S (2 * a)))) with (inv_rounds_of inp (S (2 * a))).
  rewrite drop_drop. destruct (Nat.eqb_spec r 0) as [->|Hne].
  - f_equal; [do 2 f_equal; lia|f_equal; lia].
  - rewrite dec_round_spec by (done || by apply inv_rounds_of_ok). rewrite key_at_drop.
    replace (8 * a + 8 + 0)%nat with (4 * S (S (2 * a)))%nat by lia. fold (key (S (S (2 * a)))).
    change (AddRoundKey _ (key (S (S (2 * a))))) with (inv_rounds_of inp (S (S (2 * a)))).
    replace (8 * a + 8)%nat with (8 * S a)%nat by lia.
    replace (S (S (2 * a))) with (2 * S a)%nat by lia. rewrite IH by lia.
    f_equal; [do 2 f_equal; lia|f_equal; lia].
Qed.

Lemma AES_decrypt_spec r inp :
  (0 < r)%nat -> nbytes 16 inp ->
  AES_decrypt inp (mkKey dk (2 * r)) =
    to_block (AddRoundKey (on_bytes InvSBox
      (InvShiftRows (inv_rounds_of (of_block inp) (2 * r - 1)))) (key (2 * r))).
Proof.
  intros Hr Hi. unfold AES_decrypt. cbn [rd_key rounds].
  assert (Hdiv : (2 * r / 2 = r)%nat) by (rewrite Nat.mul_comm; apply Nat.div_mul; lia).
  rewrite Hdiv, load_state_spec by done.
  pose proof (of_block_ok inp Hi) as Ho.
  pose proof (dec_loop_spec (of_block inp) Ho r 0 Hr) as El.
  change (drop (8 * 0) dk) with dk in El.
  change (inv_rounds_of (of_block inp) (2 * 0))
    with (AddRoundKey (of_block inp) (key_at dk 0)) in El.
  change (2 * 0)%nat with 0%nat in El. rewrite !Nat.add_0_l in El. rewrite El.
  set (y := inv_rounds_of (of_block inp) _).
  assert (Hy : state_ok y) by (by apply inv_rounds_of_ok).
  rewrite !rk_at_drop. cbn [wpack s0 s1 s2 s3].
  replace (8 * r)%nat with (4 * (2 * r))%nat by lia. rewrite Nat.add_0_r.
  destruct (key_at_ok dk (4 * (2 * r)) Hdk) as (K0 & K1 & K2 & K3). destruct Hy as (Y0 & Y1 & Y2 & Y3).
  cbn [key_at k0 k1 k2 k3] in K0, K1, K2, K3.
  rewrite (rk_pack dk (4 * (2 * r))), (rk_pack dk (_ + 1)), (rk_pack dk (_ + 2)),
    (rk_pack dk (_ + 3)) by done.
  rewrite !dec_last_word_spec by assumption.
  rewrite <- to_block_put; [reflexivity|].
  apply AddRoundKey_ok; [|exact (key_at_ok dk (4 * (2 * r)) Hdk)].
  apply on_bytes_ok; [exact InvSBox_ok|]. apply InvShiftRows_ok.
  exact (conj Y0 (conj Y1 (conj Y2 Y3))).
Qed.
End decryption.

(** Decryption with the transformed keys walks back through the states of the
    encryption. *)
Section roundtrip.
Context (rk : list Z) (Hrk : sched_ok rk) (r : nat) (Hr : (0 < r)%nat).
Let R : nat := (2 * r)%nat.
Let dk : list Z := dec_sched_ref R rk.
Let ekey (i : nat) : state := key_at rk (4 * i).

Lemma walk_back inp i :
  state_ok inp -> (i < R)%nat ->
  let c := AddRoundKey (ShiftRows (on_bytes SBox (rounds_of ekey inp (R - 1)))) (ekey R) in
  inv_rounds_of dk c i = ShiftRows (on_bytes SBox (rounds_of ekey inp (R - 1 - i))).
Proof.
  intros Hi Hlt c. induction i as [|i IH].
  - cbn [inv_rounds_of]. unfold dk. rewrite (dec_sched_key R rk 0) by (done || lia).
    cbn [Nat.eqb orb]. rewrite Nat.sub_0_r. unfold c, ekey. rewrite AddRoundKey_twice.
    by rewrite Nat.sub_0_r.
  - cbn [inv_rounds_of]. rewrite IH by lia.
    pose proof (rounds_of_ok rk Hrk inp (R - 1 - i) Hi) as Hy.
    rewrite InvShiftRows_ShiftRows, InvSBox_bytes by done.
    unfold dk. rewrite (dec_sched_key R rk (S i)) by (done || lia).
    destruct (Nat.eqb_spec (S i) 0); [lia|]. destruct (Nat.eqb_spec (S i) R); [lia|]. cbn [orb].
    rewrite <- InvMix_AddRoundKey by (done || by apply key_at_ok).
    replace (R - 1 - i)%nat with (S (R - 1 - S i)) by lia. cbn [rounds_of].
    replace (R - S i)%nat with (S (R - 1 - S i)) by lia. fold (ekey (S (R - 1 - S i))).
    rewrite AddRoundKey_twice, InvMix_cols; [done|].
    apply ShiftRows_ok, on_bytes_ok; [exact SBox_ok|]. exact (rounds_of_ok rk Hrk _ _ Hi).
Qed.

Lemma AES_inverse inp :
  nbytes 16 inp ->
  nbytes 16 (AES_encrypt inp (mkKey rk R)) /\
  AES_decrypt (AES_encrypt inp (mkKey rk R)) (mkKey dk R) = inp.
Proof.
  intros Hi. pose proof (of_block_ok inp Hi) as Ho. unfold R.
  rewrite AES_encrypt_fips by first [exact Hr | exact Hrk | exact Hi]. fold ekey R. unfold fips_cipher.
  set (c := AddRoundKey _ (ekey R)).
  assert (Hc : state_ok c).
  { apply AddRoundKey_ok; [|exact (key_at_ok rk _ Hrk)].
    apply ShiftRows_ok, on_bytes_ok; [exact SBox_ok|]. exact (rounds_of_ok rk Hrk _ _ Ho). }
  split; [exact (nbytes_to_block _ Hc)|].
  etransitivity;
    [exact (AES_decrypt_spec dk (dec_sched_ref_ok R rk Hrk) r _ Hr (nbytes_to_block _ Hc))|].
  fold R. rewrite of_to_block. unfold c. rewrite walk_back by first [exact Ho | unfold R; lia].
  rewrite InvShiftRows_ShiftRows, InvSBox_bytes by exact (rounds_of_ok rk Hrk _ _ Ho).
  unfold dk. rewrite (dec_sched_key R rk R) by first [exact Hrk | lia].
  rewrite Nat.eqb_refl, orb_true_r, !Nat.sub_diag.
  replace (R - 1 - (R - 1))%nat with 0%nat by lia. cbn [rounds_of]. unfold ekey.
  rewrite AddRoundKey_twice. apply to_of_block, Hi.
Qed.
End roundtrip.
