(* ===== verification/AesKeys.v ===== *)
(** * AES key schedules and the cipher as a whole

    The key expansion of FIPS 197, the proof that the unrolled loops of
    [AES_set_encrypt_key] compute it for the three key sizes, and from it that
    the code is AES and a block cipher in the sense of [BlockCipher]. *)

From S2P Require Import Prelude Bytes Stream AesTables Aes AesCorrect.

(** ** The reference *)

Definition RotWord (c : col) : col := Col (c1 c) (c2 c) (c3 c) (c0 c).
Definition SubWord (c : col) : col := Col (SBox (c0 c)) (SBox (c1 c)) (SBox (c2 c)) (SBox (c3 c)).
Definition Rcon (i : nat) : col := Col (Nat.iter (i - 1) xtime 1) 0 0 0.

Definition col0 : col := Col 0 0 0 0.

(** The word that follows the words [w] of the schedule of an [Nk]-word key. *)
Definition next_word (Nk : nat) (w : list col) : col :=
  let i := length w in
  let temp := nth (i - 1) w col0 in
  let temp :=
    if (i mod Nk =? 0)%nat then col_xor (SubWord (RotWord temp)) (Rcon (i / Nk))
    else if (6 <? Nk)%nat && (i mod Nk =? 4)%nat then SubWord temp
    else temp in
  col_xor (nth (i - Nk) w col0) temp.

Fixpoint extend (Nk n : nat) (w : list col) : list col :=
  match n with
  | O => w
  | S m => extend Nk m (w ++ [next_word Nk w])
  end.

(** The words of the key itself. *)
Definition key_cols (Nk : nat) (k : list Z) : list col :=
  map (fun i => Col (byte_at k (4 * i)) (byte_at k (4 * i + 1))
                    (byte_at k (4 * i + 2)) (byte_at k (4 * i + 3))) (seq 0 Nk).

Definition KeyExpansion (Nk : nat) (k : list Z) : list col :=
  extend Nk (4 * (Nk + 7) - Nk) (key_cols Nk k).

(** Round key [i] of a schedule. *)
Definition round_key (w : list col) (i : nat) : state :=
  St (nth (4 * i) w col0) (nth (4 * i + 1) w col0) (nth (4 * i + 2) w col0) (nth (4 * i + 3) w col0).

(** AES with an [Nk]-word key. *)
Definition aes_reference (Nk : nat) (k inp : list Z) : list Z :=
  fips_cipher (Nk + 6) (round_key (KeyExpansion Nk k)) inp.

(** ** One turn of the loops *)

Definition cols_ok (w : list col) : Prop := Forall col_ok w.

Lemma SubWord_ok c : col_ok c -> col_ok (SubWord c).
Proof. intros (? & ? & ? & ?). split_and!; by apply SBox_ok. Qed.

Lemma RotWord_ok c : col_ok c -> col_ok (RotWord c).
Proof. intros (? & ? & ? & ?). by split_and!. Qed.

Lemma rcon_spec i : (i < 10)%nat -> nth i rcon 0 = pack (Rcon (S i)) /\ col_ok (Rcon (S i)).
Proof.
  intros Hi. do 10 (destruct i as [|i]; [split; [reflexivity|split_and!; split; vm_compute; congruence]|]).
  lia.
Qed.

#[local] Opaque SBox InvSBox xtime pack tbl rcon Rcon.

Lemma key_sub_spec c : col_ok c -> key_sub (pack c) = pack (SubWord c).
Proof.
  intros Hc. unfold key_sub. pose proof Hc as (H0 & H1 & H2 & H3). select_bytes.
  destruct (tables_spec _ H0) as (_ & _ & -> & _), (tables_spec _ H1) as (_ & _ & _ & -> & _),
    (tables_spec _ H2) as (-> & _), (tables_spec _ H3) as (_ & -> & _).
  destruct (SBox_cols_ok _ H0) as (_ & _ & O0 & _), (SBox_cols_ok _ H1) as (_ & _ & _ & O1),
    (SBox_cols_ok _ H2) as (O2 & _), (SBox_cols_ok _ H3) as (_ & O3 & _).
  rewrite (proj1 (mask_spec _ O0)), (proj1 (proj2 (mask_spec _ O1))),
    (proj1 (proj2 (proj2 (mask_spec _ O2)))), (proj2 (proj2 (proj2 (mask_spec _ O3)))).
  cbn [c0 c1 c2 c3]. apply pack_one_byte; by apply SBox_ok.
Qed.

(** The substitution with rotation is the plain one of the rotated word. *)
Lemma key_core_spec c i : col_ok c -> (i < 10)%nat ->
  key_core (pack c) i = pack (col_xor (SubWord (RotWord c)) (Rcon (S i))).
Proof.
  intros Hc Hi. destruct (rcon_spec i Hi) as [Hr Hok].
  rewrite <- pack_xor by (assumption || by apply SubWord_ok, RotWord_ok). rewrite <- Hr.
  rewrite <- key_sub_spec by (by apply RotWord_ok). unfold key_core, key_sub.
  pose proof (RotWord_ok c Hc) as Hc'. select_bytes. reflexivity.
Qed.

(** The last [Nk] words [l] of a schedule decide the next one. *)
Lemma next_word_app Nk pre l :
  length l = Nk -> (0 < Nk)%nat ->
  next_word Nk (pre ++ l) =
    let i := (length pre + Nk)%nat in
    let temp := nth (Nk - 1) l col0 in
    col_xor (nth 0 l col0)
      (if (i mod Nk =? 0)%nat then col_xor (SubWord (RotWord temp)) (Rcon (i / Nk))
       else if (6 <? Nk)%nat && (i mod Nk =? 4)%nat then SubWord temp else temp).
Proof.
  intros Hl Hn. unfold next_word. rewrite length_app, Hl.
  rewrite !app_nth2 by lia.
  replace (length pre + Nk - 1 - length pre)%nat with (Nk - 1)%nat by lia.
  replace (length pre + Nk - Nk - length pre)%nat with 0%nat by lia. done.
Qed.

Lemma extend_turn Nk n pre a l i j :
  length pre = (Nk * i + j)%nat -> (j < Nk)%nat -> S (length l) = Nk ->
  extend Nk (S n) (pre ++ a :: l) =
    let temp := nth (Nk - 1) (a :: l) col0 in
    extend Nk n ((pre ++ [a]) ++ (l ++ [col_xor a
      (if (j =? 0)%nat then col_xor (SubWord (RotWord temp)) (Rcon (S i))
       else if (6 <? Nk)%nat && (j =? 4)%nat then SubWord temp else temp)])).
Proof.
  intros Hp Hj Hl. cbn [extend]. rewrite next_word_app by (simpl; lia). cbn zeta.
  replace (length pre + Nk)%nat with (j + S i * Nk)%nat by lia.
  rewrite Nat.Div0.mod_add, (Nat.mod_small j) by lia.
  rewrite Nat.div_add, (Nat.div_small j), Nat.add_0_l by lia.
  rewrite <- !app_assoc. done.
Qed.

Lemma nth_col_ok w k : cols_ok w -> col_ok (nth k w col0).
Proof.
  intros H. destruct (nth_in_or_default k w col0) as [Hin| ->].
  - apply (proj1 (Forall_forall _ _) H). by apply list_elem_of_In.
  - split_and!; unfold is_byte; cbn; lia.
Qed.

Lemma Rcon_ok i : col_ok (Rcon i).
Proof.
  Transparent Rcon. unfold Rcon. Opaque Rcon. split_and!; cbn [c0 c1 c2 c3]; try apply zero_ok.
  induction (i - 1)%nat as [|n IH]; [unfold is_byte; simpl; lia|by apply xtime_ok].
Qed.

Lemma next_word_ok Nk w : cols_ok w -> col_ok (next_word Nk w).
Proof.
  intros H. unfold next_word. cbn zeta. apply col_xor_ok; [by apply nth_col_ok|].
  pose proof (nth_col_ok w (length w - 1) H).
  repeat case_match;
    first [apply col_xor_ok; [by apply SubWord_ok, RotWord_ok|apply Rcon_ok]
          |by apply SubWord_ok|assumption].
Qed.

Lemma extend_ok Nk n w : cols_ok w -> cols_ok (extend Nk n w).
Proof.
  revert w. induction n as [|n IH]; intros w H; [done|]. apply IH, Forall_app.
  split; [done|]. by apply Forall_singleton, next_word_ok.
Qed.

Lemma length_extend Nk n w : length (extend Nk n w) = (length w + n)%nat.
Proof.
  revert w. induction n as [|n IH]; intros w; cbn [extend]; [lia|].
  rewrite IH, length_app. simpl. lia.
Qed.

(** One word of the schedule, with its place. *)
Ltac next_col i j :=
  rewrite (extend_turn _ _ _ _ _ i j) by (simpl; rewrite ?length_app; simpl; lia);
  cbn [Nat.sub nth Nat.eqb Nat.ltb Nat.leb andb app].

Ltac solve_cols :=
  repeat first [assumption | apply Rcon_ok | apply SubWord_ok | apply RotWord_ok | apply col_xor_ok].

(** The words a turn of a loop computes are those of the reference. *)
Ltac packed_turn :=
  unfold rk_at; cbn [map nth];
  repeat first [rewrite key_core_spec by (solve_cols || lia)
               |rewrite key_sub_spec by solve_cols
               |match goal with
                |- context [Z.lxor (pack ?a) (pack ?b)] => rewrite (pack_xor a b) by solve_cols
                end].

Ltac last_turn := rewrite !map_app, <- ?app_assoc, ?app_nil_r; simpl; rewrite ?map_app, <- ?app_assoc; reflexivity.

Lemma expand128_spec f : forall i pre a b c d,
  length pre = (4 * i)%nat -> (i + S f = 10)%nat ->
  col_ok a -> col_ok b -> col_ok c -> col_ok d ->
  map pack (extend 4 (4 * S f) (pre ++ [a; b; c; d])) =
    map pack (pre ++ [a; b; c; d]) ++ expand128 (S f) i (map pack [a; b; c; d]).
Proof.
  induction f as [|f IH]; intros i pre a b c d Hp Hi Ha Hb Hc Hd;
    replace (4 * S _)%nat with (S (S (S (S (4 * (9 - i)))))) by lia;
    next_col i 0%nat; next_col i 1%nat; next_col i 2%nat; next_col i 3%nat.
  - cbn [expand128]. replace (S i =? 10)%nat with true by (symmetry; apply Nat.eqb_eq; lia).
    packed_turn. replace (9 - i)%nat with 0%nat by lia. cbn [extend Nat.mul]. last_turn.
  - remember (S f) as g. cbn [expand128].
    replace (S i =? 10)%nat with false by (symmetry; apply Nat.eqb_neq; lia).
    replace (9 - i)%nat with g by lia. packed_turn.
    rewrite (IH (S i)); [last_turn|rewrite !length_app; simpl; lia|lia|solve_cols..].
Qed.

Lemma expand192_spec f : forall i pre a b c d e g,
  length pre = (6 * i)%nat -> (i + S f = 8)%nat ->
  col_ok a -> col_ok b -> col_ok c -> col_ok d -> col_ok e -> col_ok g ->
  map pack (extend 6 (6 * f + 4) (pre ++ [a; b; c; d; e; g])) =
    map pack (pre ++ [a; b; c; d; e; g]) ++ expand192 (S f) i (map pack [a; b; c; d; e; g]).
Proof.
  induction f as [|f IH]; intros i pre a b c d e g Hp Hi Ha Hb Hc Hd He Hg.
  - cbn [Nat.mul Nat.add].
    next_col i 0%nat. next_col i 1%nat. next_col i 2%nat. next_col i 3%nat.
    cbn [expand192]. replace (S i =? 8)%nat with true by (symmetry; apply Nat.eqb_eq; lia).
    packed_turn. cbn [extend]. last_turn.
  - replace (6 * S f + 4)%nat with (S (S (S (S (S (S (6 * f + 4))))))) by lia.
    next_col i 0%nat. next_col i 1%nat. next_col i 2%nat. next_col i 3%nat.
    next_col i 4%nat. next_col i 5%nat.
    remember (S f) as h eqn:Hh. cbn [expand192].
    replace (S i =? 8)%nat with false by (symmetry; apply Nat.eqb_neq; lia).
    packed_turn.
    rewrite (IH (S i)); [last_turn|rewrite !length_app; simpl; lia|lia|solve_cols..].
Qed.

Lemma expand256_spec f : forall i pre a b c d e g h k,
  length pre = (8 * i)%nat -> (i + S f = 7)%nat ->
  col_ok a -> col_ok b -> col_ok c -> col_ok d -> col_ok e -> col_ok g -> col_ok h -> col_ok k ->
  map pack (extend 8 (8 * f + 4) (pre ++ [a; b; c; d; e; g; h; k])) =
    map pack (pre ++ [a; b; c; d; e; g; h; k])
    ++ expand256 (S f) i (map pack [a; b; c; d; e; g; h; k]).
Proof.
  induction f as [|f IH]; intros i pre a b c d e g h k Hp Hi Ha Hb Hc Hd He Hg Hh Hk.
  - cbn [Nat.mul Nat.add].
    next_col i 0%nat. next_col i 1%nat. next_col i 2%nat. next_col i 3%nat.
    cbn [expand256]. replace (S i =? 7)%nat with true by (symmetry; apply Nat.eqb_eq; lia).
    packed_turn. cbn [extend]. last_turn.
  - replace (8 * S f + 4)%nat with (S (S (S (S (S (S (S (S (8 * f + 4))))))))) by lia.
    next_col i 0%nat. next_col i 1%nat. next_col i 2%nat. next_col i 3%nat.
    next_col i 4%nat. next_col i 5%nat. next_col i 6%nat. next_col i 7%nat.
    remember (S f) as m eqn:Hm. cbn [expand256].
    replace (S i =? 7)%nat with false by (symmetry; apply Nat.eqb_neq; lia).
    packed_turn.
    rewrite (IH (S i)); [last_turn|rewrite !length_app; simpl; lia|lia|solve_cols..].
Qed.

(** ** The schedules *)

(** The key sizes AES has, in words. *)
Definition aes_words (Nk : nat) : bool := (Nk =? 4)%nat || (Nk =? 6)%nat || (Nk =? 8)%nat.

Lemma aes_words_cases Nk : aes_words Nk = true -> Nk = 4%nat \/ Nk = 6%nat \/ Nk = 8%nat.
Proof. unfold aes_words. rewrite !orb_true_iff, !Nat.eqb_eq. tauto. Qed.

Lemma key_cols_ok Nk k : bytes k -> cols_ok (key_cols Nk k).
Proof.
  intros Hk. apply Forall_map, Forall_forall. intros i _.
  split_and!; by apply (byte_at_is_byte (length k)).
Qed.

Lemma GETU32_pack k o : bytes k ->
  GETU32 k o = pack (Col (byte_at k o) (byte_at k (o + 1)) (byte_at k (o + 2)) (byte_at k (o + 3))).
Proof. intros Hk. apply shifts_pack; by apply (byte_at_is_byte (length k)). Qed.

Lemma set_encrypt_key_spec Nk k :
  aes_words Nk = true -> bytes k ->
  AES_set_encrypt_key (Some k) (32 * Z.of_nat Nk) =
    inr (mkKey (map pack (KeyExpansion Nk k)) (Nk + 6)).
Proof.
  intros HN Hk. pose proof (key_cols_ok Nk k Hk) as Hok. unfold KeyExpansion.
  unfold cols_ok in Hok.
  destruct (aes_words_cases Nk HN) as [-> | [-> | ->]];
    unfold key_cols in *; cbn [seq map] in *;
    repeat match goal with H : Forall col_ok (_ :: _) |- _ => apply Forall_cons in H as [? H] end;
    unfold AES_set_encrypt_key; rewrite !GETU32_pack by exact Hk;
    cbn [Z.of_nat Pos.of_succ_nat Pos.succ Z.mul Pos.mul Z.eqb Pos.eqb]; do 2 f_equal; symmetry.
  - apply (expand128_spec 9 0 []); assumption || reflexivity.
  - apply (expand192_spec 7 0 []); assumption || reflexivity.
  - apply (expand256_spec 6 0 []); assumption || reflexivity.
Qed.

Lemma word32_pack c : col_ok c -> word32 (pack c).
Proof.
  intros (? & ? & ? & ?). Transparent pack. unfold pack, word32, is_byte in *. Opaque pack. lia.
Qed.

Lemma unpack_pack c : col_ok c -> unpack (pack c) = c.
Proof.
  intros H. unfold unpack. destruct (w_pack c H) as (-> & -> & -> & ->). by destruct c.
Qed.

Lemma rk_at_pack w k : rk_at (map pack w) k = pack (nth k w col0).
Proof. unfold rk_at. by rewrite <- (map_nth pack). Qed.

Lemma key_at_pack w i : cols_ok w -> key_at (map pack w) (4 * i) = round_key w i.
Proof.
  intros Hw. unfold key_at. rewrite !rk_at_pack.
  rewrite !unpack_pack by (by apply nth_col_ok). done.
Qed.

Lemma rounds_of_ext f g s n : (forall i, f i = g i) -> rounds_of f s n = rounds_of g s n.
Proof. intros H. induction n as [|n IH]; cbn [rounds_of]; by rewrite ?IH, H. Qed.

Lemma KeyExpansion_ok Nk k : bytes k ->
  cols_ok (KeyExpansion Nk k) /\ sched_ok (map pack (KeyExpansion Nk k)).
Proof.
  intros Hk. assert (H : cols_ok (KeyExpansion Nk k)) by (by apply extend_ok, key_cols_ok).
  split; [exact H|]. apply Forall_map. exact (Forall_impl _ _ _ H word32_pack).
Qed.

Lemma length_KeyExpansion Nk k : length (KeyExpansion Nk k) = (4 * (Nk + 7))%nat.
Proof. unfold KeyExpansion, key_cols. rewrite length_extend, length_map, length_seq. lia. Qed.

Lemma aes_enc_spec Nk k inp :
  aes_words Nk = true -> bytes k -> nbytes 16 inp ->
  aes_enc_with k (32 * Z.of_nat Nk) inp = aes_reference Nk k inp.
Proof.
  intros HN Hk Hi. destruct (KeyExpansion_ok Nk k Hk) as [Hc Hs].
  unfold aes_enc_with. rewrite set_encrypt_key_spec by assumption.
  replace (Nk + 6)%nat with (2 * (Nk / 2 + 3))%nat at 1
    by (destruct (aes_words_cases Nk HN) as [-> | [-> | ->]]; reflexivity).
  rewrite (AES_encrypt_fips _ Hs) by (assumption || lia).
  replace (2 * (Nk / 2 + 3))%nat with (Nk + 6)%nat
    by (destruct (aes_words_cases Nk HN) as [-> | [-> | ->]]; reflexivity).
  unfold aes_reference, fips_cipher. rewrite (key_at_pack _ _ Hc).
  by rewrite (rounds_of_ext _ (round_key (KeyExpansion Nk k))) by (intros i; by apply key_at_pack).
Qed.

Lemma set_decrypt_key_spec Nk k :
  aes_words Nk = true -> bytes k ->
  AES_set_decrypt_key (Some k) (32 * Z.of_nat Nk) =
    inr (mkKey (dec_sched_ref (Nk + 6) (map pack (KeyExpansion Nk k))) (Nk + 6)).
Proof.
  intros HN Hk. unfold AES_set_decrypt_key. rewrite set_encrypt_key_spec by assumption.
  cbn [rounds rd_key]. f_equal. f_equal.
  change (dec_sched (Nk + 6) (map pack (KeyExpansion Nk k)) =
          dec_sched_ref (Nk + 6) (map pack (KeyExpansion Nk k))).
  pose proof (length_KeyExpansion Nk k) as Hl. rewrite <- (length_map pack) in Hl.
  destruct (aes_words_cases Nk HN) as [-> | [-> | ->]];
    [apply dec_sched_10|apply dec_sched_12|apply dec_sched_14]; exact Hl.
Qed.

Lemma aes_inverse_keyed Nk k inp :
  aes_words Nk = true -> bytes k -> nbytes 16 inp ->
  nbytes 16 (aes_enc_with k (32 * Z.of_nat Nk) inp) /\
  aes_dec_with k (32 * Z.of_nat Nk) (aes_enc_with k (32 * Z.of_nat Nk) inp) = inp.
Proof.
  intros HN Hk Hi. destruct (KeyExpansion_ok Nk k Hk) as [Hc Hs].
  unfold aes_dec_with, aes_enc_with.
  rewrite set_encrypt_key_spec, set_decrypt_key_spec by assumption.
  replace (Nk + 6)%nat with (2 * (Nk / 2 + 3))%nat
    by (destruct (aes_words_cases Nk HN) as [-> | [-> | ->]]; reflexivity).
  apply AES_inverse; [exact Hs|lia|exact Hi].
Qed.

Lemma aes_dec_block Nk k inp :
  aes_words Nk = true -> bytes k -> nbytes 16 inp ->
  nbytes 16 (aes_dec_with k (32 * Z.of_nat Nk) inp).
Proof.
  intros HN Hk Hi. destruct (KeyExpansion_ok Nk k Hk) as [Hc Hs].
  unfold aes_dec_with. rewrite set_decrypt_key_spec by assumption.
  pose proof (dec_sched_ref_ok (Nk + 6) _ Hs) as Hd.
  replace (mkKey (dec_sched_ref (Nk + 6) (map pack (KeyExpansion Nk k))) (Nk + 6))
    with (mkKey (dec_sched_ref (Nk + 6) (map pack (KeyExpansion Nk k))) (2 * (Nk / 2 + 3)))
    by (f_equal; destruct (aes_words_cases Nk HN) as [-> | [-> | ->]]; reflexivity).
  rewrite (AES_decrypt_spec _ Hd) by (assumption || lia).
  apply nbytes_to_block, AddRoundKey_ok; [|exact (key_at_ok _ _ Hd)].
  apply on_bytes_ok; [exact InvSBox_ok|]. apply InvShiftRows_ok.
  apply (inv_rounds_of_ok _ Hd). by apply of_block_ok.
Qed.

(** AES with a key of one of its sizes is a block cipher, so that what the
    modes prove of block ciphers holds with it. *)
#[export] Instance aes_cipher Nk k `{!TCEq (aes_words Nk) true} (Hk : bytes k) :
  BlockCipher (aes_enc_with k (32 * Z.of_nat Nk)) (aes_dec_with k (32 * Z.of_nat Nk)).
Proof.
  assert (HN : aes_words Nk = true) by (by apply TCEq_eq).
  split; intros b Hb; [by apply aes_inverse_keyed|by apply aes_dec_block|by apply aes_inverse_keyed].
Qed.

(** ** The properties *)

(** C29: AES_set_encrypt_key followed by AES_encrypt, the code with the
    combined tables and the unrolled key schedule, computes the cipher of FIPS
    197 on every key of 128, 192 or 256 bits and every block: the key
    expansion word by word, with the S-box as inversion in GF(2^8) and an
    affine map, and SubBytes, ShiftRows, MixColumns and AddRoundKey. *)
Theorem AES_encrypt_is_fips197 Nk k inp :
  aes_words Nk = true -> nbytes (4 * Nk) k -> nbytes 16 inp ->
  exists key, AES_set_encrypt_key (Some k) (32 * Z.of_nat Nk) = inr key /\
              rounds key = (Nk + 6)%nat /\
              AES_encrypt inp key = aes_reference Nk k inp.
Proof.
  intros HN [_ Hk] Hi. pose proof (aes_enc_spec Nk k inp HN Hk Hi) as H.
  unfold aes_enc_with in H. pose proof (set_encrypt_key_spec Nk k HN Hk) as E. rewrite E in H.
  eexists. split; [exact E|]. split; [reflexivity|exact H].
Qed.

Lemma AES_encrypt_is_fips197_witness :
  exists key, AES_set_encrypt_key (Some (seqZ 0 24)) 192 = inr key /\
              rounds key = 12%nat /\
              AES_encrypt fips_plain key = aes_reference 6 (seqZ 0 24) fips_plain.
Proof. apply (AES_encrypt_is_fips197 6); [reflexivity|solve_closed|solve_closed]. Defined.

(** C30: for every key of 128, 192 or 256 bits, AES_decrypt with the schedule
    of AES_set_decrypt_key (the encryption schedule in reverse order, its inner
    round keys passed through the inverse MixColumns) undoes AES_encrypt on
    every block, and both give 16 bytes. *)
Theorem AES_decrypt_inverts_encrypt Nk k inp :
  aes_words Nk = true -> nbytes (4 * Nk) k -> nbytes 16 inp ->
  exists ekey dkey,
    AES_set_encrypt_key (Some k) (32 * Z.of_nat Nk) = inr ekey /\
    AES_set_decrypt_key (Some k) (32 * Z.of_nat Nk) = inr dkey /\
    nbytes 16 (AES_encrypt inp ekey) /\ nbytes 16 (AES_decrypt inp dkey) /\
    AES_decrypt (AES_encrypt inp ekey) dkey = inp.
Proof.
  intros HN [_ Hk] Hi. destruct (aes_inverse_keyed Nk k inp HN Hk Hi) as [H1 H2].
  pose proof (aes_dec_block Nk k inp HN Hk Hi) as H3.
  unfold aes_enc_with, aes_dec_with in *.
  pose proof (set_encrypt_key_spec Nk k HN Hk) as E. pose proof (set_decrypt_key_spec Nk k HN Hk) as D.
  rewrite E in H1, H2. rewrite D in H2, H3. eexists _, _. split_and!; eassumption.
Qed.

Lemma AES_decrypt_inverts_encrypt_witness :
  exists ekey dkey,
    AES_set_encrypt_key (Some (seqZ 0 32)) 256 = inr ekey /\
    AES_set_decrypt_key (Some (seqZ 0 32)) 256 = inr dkey /\
    nbytes 16 (AES_encrypt fips_plain ekey) /\ nbytes 16 (AES_decrypt fips_plain dkey) /\
    AES_decrypt (AES_encrypt fips_plain ekey) dkey = fips_plain.
Proof. apply (AES_decrypt_inverts_encrypt 8); [reflexivity|solve_closed|solve_closed]. Defined.

(** the statuses of the key setup: -1 without a key, else -2 for a
    length other than 128, 192 and 256 bits, else a schedule of 44, 52 or 60
    words and 10, 12 or 14 rounds; AES_set_decrypt_key fails exactly when
    AES_set_encrypt_key does, with the same status, and its schedule has the
    same size. *)
Theorem AES_set_key_status userKey bits :
  match AES_set_encrypt_key userKey bits, AES_set_decrypt_key userKey bits with
  | inl e, inl d =>
      d = e /\ (userKey = None /\ e = -1 \/
                userKey <> None /\ bits <> 128 /\ bits <> 192 /\ bits <> 256 /\ e = -2)
  | inr e, inr d =>
      userKey <> None /\ (bits = 128 \/ bits = 192 \/ bits = 256) /\
      Z.of_nat (rounds e) = bits / 32 + 6 /\ rounds d = rounds e /\
      length (rd_key e) = (4 * (rounds e + 1))%nat /\ length (rd_key d) = length (rd_key e)
  | _, _ => False
  end.
Proof.
  assert (Hinv : forall f i j rk, length (invert_order f i j rk) = length rk).
  { induction f as [|f IH]; intros i j rk; cbn [invert_order]; [done|].
    destruct (i <? j)%nat; [|done]. rewrite IH. unfold swap. by rewrite !length_insert. }
  assert (Hmix : forall n o rk, length (inv_mix_loop n o rk) = length rk).
  { induction n as [|n IH]; intros o rk; cbn [inv_mix_loop]; [done|].
    rewrite IH. by rewrite !length_insert. }
  unfold AES_set_decrypt_key, AES_set_encrypt_key. destruct userKey as [k|]; [|split; [done|tauto]].
  destruct (Z.eqb_spec bits 128) as [->|].
  { cbn [rounds rd_key]. rewrite Hmix, Hinv. split_and!; [done|tauto|reflexivity..]. }
  destruct (Z.eqb_spec bits 192) as [->|].
  { cbn [rounds rd_key]. rewrite Hmix, Hinv. split_and!; [done|tauto|reflexivity..]. }
  destruct (Z.eqb_spec bits 256) as [->|].
  { cbn [rounds rd_key]. rewrite Hmix, Hinv. split_and!; [done|tauto|reflexivity..]. }
  split; [reflexivity|]. right. split_and!; (done || assumption).
Qed.

(** ** The unrolled build *)

Lemma enc_round_drop s rk n o : enc_round s (drop n rk) o = enc_round s rk (n + o).
Proof. unfold enc_round. by rewrite !rk_at_drop, !Nat.add_assoc. Qed.

Lemma dec_round_drop s rk n o : dec_round s (drop n rk) o = dec_round s rk (n + o).
Proof. unfold dec_round. by rewrite !rk_at_drop, !Nat.add_assoc. Qed.

(** The number of rounds of a schedule. *)
Definition aes_rounds (r : nat) : bool := (r =? 10)%nat || (r =? 12)%nat || (r =? 14)%nat.

Lemma enc_unrolled_loop r rk s :
  aes_rounds r = true -> enc_unrolled r rk s = enc_loop (r / 2) rk s.
Proof.
  unfold aes_rounds. rewrite !orb_true_iff, !Nat.eqb_eq. intros [[-> | ->] | ->];
    cbn [Nat.div Nat.divmod fst enc_loop Nat.eqb]; rewrite !enc_round_drop, !drop_drop; reflexivity.
Qed.

Lemma dec_unrolled_loop r rk s :
  aes_rounds r = true -> dec_unrolled r rk s = dec_loop (r / 2) rk s.
Proof.
  unfold aes_rounds. rewrite !orb_true_iff, !Nat.eqb_eq. intros [[-> | ->] | ->];
    cbn [Nat.div Nat.divmod fst dec_loop Nat.eqb]; rewrite !dec_round_drop, !drop_drop; reflexivity.
Qed.

(** The straight-line code of a FULL_UNROLL build computes what the loop
    of two rounds a turn does, for encryption and decryption, on every input
    and every schedule with 10, 12 or 14 rounds. *)
Theorem AES_unrolled_agrees inp key :
  aes_rounds (rounds key) = true ->
  AES_encrypt_unrolled inp key = AES_encrypt inp key /\
  AES_decrypt_unrolled inp key = AES_decrypt inp key.
Proof.
  intros Hr. unfold AES_encrypt_unrolled, AES_encrypt, AES_decrypt_unrolled, AES_decrypt.
  by rewrite enc_unrolled_loop, dec_unrolled_loop.
Qed.

Lemma AES_unrolled_agrees_witness :
  AES_encrypt_unrolled fips_plain (mkKey (seqZ 1000 60) 14) =
    AES_encrypt fips_plain (mkKey (seqZ 1000 60) 14) /\
  AES_decrypt_unrolled fips_plain (mkKey (seqZ 1000 60) 14) =
    AES_decrypt fips_plain (mkKey (seqZ 1000 60) 14).
Proof. apply AES_unrolled_agrees. reflexivity. Defined.
