(* ===== verification/Store.v ===== *)
(** * A flat memory

    For the functions whose buffers may be the same memory: a list of bytes,
    pointers as offsets, blocks of 16 bytes and the loops that write the
    exclusive or of two blocks one word or byte after the other, so that what
    overlapping pointers do is part of the model. *)

From S2P Require Import Prelude Bytes.

(** The [n] bytes at [o]. *)
Definition mread (m : list Z) (o n : nat) : list Z := take n (drop o m).

(** What a block pointer refers to: memory, or an array of the function's own. *)
Inductive loc := At (o : nat) | Local (v : list Z).

Definition lread (m : list Z) (l : loc) (n : nat) : list Z :=
  match l with At o => mread m o n | Local v => take n v end.

Definition ladd (l : loc) (w : nat) : loc :=
  match l with At o => At (o + w) | Local v => Local (drop w v) end.

(** [for (n = 0; n < k; ++n) dst[n] = a[n] ^ b[n]] on words of [w] bytes. *)
Fixpoint xor_into (w k : nat) (m : list Z) (dst : nat) (a b : loc) : list Z :=
  match k with
  | O => m
  | S k' =>
      let x := word_put w (Z.lxor (word_get (lread m a w)) (word_get (lread m b w))) in
      xor_into w k' (blit dst x m) (dst + w) (ladd a w) (ladd b w)
  end.

(** Two pieces of memory without a common byte. *)
Definition apart (o n o' n' : nat) : Prop := (o + n <= o')%nat \/ (o' + n' <= o)%nat.

Lemma length_mread m o n : (o + n <= length m)%nat -> length (mread m o n) = n.
Proof. intros H. unfold mread. rewrite length_take, length_drop. lia. Qed.

Lemma bytes_mread m o n : bytes m -> bytes (mread m o n).
Proof. intros H. by apply bytes_take, bytes_drop. Qed.

Lemma nbytes_mread m o n : bytes m -> (o + n <= length m)%nat -> nbytes n (mread m o n).
Proof. intros. split; [by apply length_mread|by apply bytes_mread]. Qed.

Lemma lookup_mread m o n i :
  mread m o n !! i = if decide (i < n)%nat then m !! (o + i)%nat else None.
Proof.
  unfold mread. case_decide; [rewrite lookup_take_lt by done; apply lookup_drop|].
  apply lookup_take_ge. lia.
Qed.

Lemma mread_blit_same m o v : (o + length v <= length m)%nat -> mread (blit o v m) o (length v) = v.
Proof.
  intros H. apply list_eq. intros i. rewrite lookup_mread. case_decide.
  - rewrite lookup_blit_in by lia. f_equal. lia.
  - symmetry. apply lookup_ge_None. lia.
Qed.

Lemma mread_blit_apart m o v o' n :
  (o + length v <= length m)%nat -> apart o (length v) o' n ->
  mread (blit o v m) o' n = mread m o' n.
Proof.
  intros H Ha. apply list_eq. intros i. rewrite !lookup_mread. case_decide; [|done].
  apply lookup_blit_out; [done|]. unfold apart in Ha. lia.
Qed.

Lemma bytes_blit m o v : bytes m -> bytes v -> bytes (blit o v m).
Proof.
  intros Hm Hv. unfold blit. apply bytes_app. split; [by apply bytes_take|].
  apply bytes_app. split; [done|by apply bytes_drop].
Qed.

Lemma blit_same (m : list Z) o v v' :
  length v' = length v -> (o + length v <= length m)%nat -> blit o v' (blit o v m) = blit o v' m.
Proof.
  intros Hl H. apply list_eq. intros i.
  destruct (decide (o <= i < o + length v)%nat).
  - rewrite !lookup_blit_in by (rewrite ?length_blit; lia). done.
  - rewrite !lookup_blit_out by (rewrite ?length_blit; lia). done.
Qed.

Lemma mread_split m o a b : mread m o (a + b) = mread m o a ++ mread m (o + a) b.
Proof. unfold mread. by rewrite <- take_take_drop, drop_drop. Qed.

Lemma mread_drop m o a b : drop a (mread m o (a + b)) = mread m (o + a) b.
Proof.
  unfold mread. rewrite skipn_firstn_comm, drop_drop. f_equal. lia.
Qed.

(** A source the loop may read while it writes [n] bytes at [dst]: the target
    itself, memory apart from it, or a local array. *)
Definition source (dst n : nat) (m : list Z) (l : loc) : Prop :=
  match l with
  | At o => (o + n <= length m)%nat /\ (o = dst \/ apart dst n o n)
  | Local v => (n <= length v)%nat
  end.

Definition loc_bytes (m : list Z) (l : loc) : Prop :=
  match l with At _ => bytes m | Local v => bytes v end.

Lemma lread_ok dst n m l : source dst n m l -> loc_bytes m l -> nbytes n (lread m l n).
Proof.
  destruct l; cbn; [intros [? _] ?; by apply nbytes_mread|].
  intros ? ?. split; [rewrite length_take; lia|by apply bytes_take].
Qed.

(** Past the first word the source has not changed. *)
Lemma source_next dst w n m l x :
  length x = w -> (dst + (w + n) <= length m)%nat -> source dst (w + n) m l ->
  source (dst + w) n (blit dst x m) (ladd l w) /\
  lread (blit dst x m) (ladd l w) n = drop w (lread m l (w + n)).
Proof.
  intros Hx Hd. destruct l as [o|v]; cbn.
  - intros [Ho Ha]. rewrite length_blit by lia. split; [split; [lia|]|].
    + destruct Ha as [->|Ha]; [by left|right]. unfold apart in *. lia.
    + rewrite mread_drop. apply mread_blit_apart; [lia|].
      rewrite Hx. unfold apart in *. destruct Ha as [->|Ha]; lia.
  - intros Hv. split; [rewrite length_drop; lia|].
    rewrite skipn_firstn_comm. f_equal. lia.
Qed.

Lemma loc_bytes_next m dst w x l :
  bytes m -> bytes x -> loc_bytes m l -> loc_bytes (blit dst x m) (ladd l w).
Proof.
  destruct l; cbn; intros Hm Hx Hl; [by apply bytes_blit|by apply bytes_drop].
Qed.

Lemma lread_take m l w n : take w (lread m l (w + n)) = lread m l w.
Proof.
  destruct l; cbn; [unfold mread|]; rewrite take_take; f_equal; lia.
Qed.

Lemma xor_into_eq w k : forall m dst a b,
  bytes m -> (dst + w * k <= length m)%nat ->
  source dst (w * k) m a -> source dst (w * k) m b -> loc_bytes m a -> loc_bytes m b ->
  xor_into w k m dst a b =
    blit dst (xor_bytes (lread m a (w * k)) (lread m b (w * k))) m.
Proof.
  induction k as [|k IH]; intros m dst a b Hm Hd Ha Hb Ba Bb.
  - rewrite Nat.mul_0_r. cbn [xor_into].
    replace (lread m a 0) with (@nil Z) by (destruct a; reflexivity).
    cbn. by rewrite blit_nil.
  - replace (w * S k)%nat with (w + w * k)%nat in * by lia. cbn [xor_into].
    pose proof (lread_ok _ _ _ _ Ha Ba) as Na. pose proof (lread_ok _ _ _ _ Hb Bb) as Nb.
    rewrite <- (lread_take m a w (w * k)), <- (lread_take m b w (w * k)).
    pose proof (nbytes_take _ _ _ Na) as Ta. pose proof (nbytes_take _ _ _ Nb) as Tb.
    rewrite word_xor by done. destruct (nbytes_xor _ _ _ Ta Tb) as [Lx Bx].
    set (x := xor_bytes (take w _) (take w _)) in *.
    destruct (source_next dst w (w * k) m a x Lx Hd Ha) as [Sa Ea].
    destruct (source_next dst w (w * k) m b x Lx Hd Hb) as [Sb Eb].
    rewrite IH; [|by apply bytes_blit|rewrite length_blit; lia|done|done
                 |by apply loc_bytes_next..].
    rewrite Ea, Eb. rewrite <- Lx at 1. rewrite blit_app.
    + unfold x. rewrite <- xor_bytes_app by (by rewrite (proj1 Ta), (proj1 Tb)). by rewrite !take_drop.
    + rewrite length_xor_bytes, !length_drop, (proj1 Na), (proj1 Nb). lia.
Qed.
