(* ===== verification/AesIge.v ===== *)
(** * Infinite garble extension (openssl crypto/aes/aes_ige.c)

    [AES_ige_encrypt] and [AES_bi_ige_encrypt].  Input, output and the chaining
    value are pieces of one memory, since the code has a path of its own for a
    call in place and keeps pointers into its buffers as chaining values. *)

From S2P Require Import Prelude Bytes Stream Store Aes AesCorrect AesKeys.

(** ** The code *)

Section ige.
Context (block : list Z -> list Z).

(** The encryption loop on pointers, [len] blocks: the memory and the two
    chaining pointers after it; [unsigned long] has 8 bytes. *)
Fixpoint ige_enc_fast (len : nat) (m : list Z) (inp out ivp iv2p : nat) : list Z * nat * nat :=
  match len with
  | O => (m, ivp, iv2p)
  | S n =>
      let m := xor_into 8 2 m out (At inp) (At ivp) in
      let m := blit out (block (mread m out 16)) m in
      let m := xor_into 8 2 m out (At out) (At iv2p) in
      ige_enc_fast n m (inp + 16) (out + 16) out inp
  end.

(** The encryption loop on copies. *)
Fixpoint ige_enc_copy (len : nat) (m : list Z) (inp out : nat) (iv iv2 : list Z)
  : list Z * list Z * list Z :=
  match len with
  | O => (m, iv, iv2)
  | S n =>
      let tmp := mread m inp 16 in
      let tmp2 := xor_words 2 tmp iv in
      let tmp2 := block tmp2 in
      let tmp2 := xor_words 2 tmp2 iv2 in
      ige_enc_copy n (blit out tmp2 m) (inp + 16) (out + 16) tmp2 tmp
  end.

(** The decryption loops. *)
Fixpoint ige_dec_fast (len : nat) (m : list Z) (inp out ivp iv2p : nat) : list Z * nat * nat :=
  match len with
  | O => (m, ivp, iv2p)
  | S n =>
      let tmp := xor_words 2 (mread m inp 16) (mread m iv2p 16) in
      let m := blit out (block tmp) m in
      let m := xor_into 8 2 m out (At out) (At ivp) in
      ige_dec_fast n m (inp + 16) (out + 16) inp out
  end.

Fixpoint ige_dec_copy (len : nat) (m : list Z) (inp out : nat) (iv iv2 : list Z)
  : list Z * list Z * list Z :=
  match len with
  | O => (m, iv, iv2)
  | S n =>
      let tmp := mread m inp 16 in
      let tmp2 := tmp in
      let tmp := xor_words 2 tmp iv2 in
      let tmp := block tmp in
      let tmp := xor_words 2 tmp iv in
      ige_dec_copy n (blit out tmp m) (inp + 16) (out + 16) tmp2 tmp
  end.

(** The passes of [AES_bi_ige_encrypt]: forwards over [in] and [out],
    backwards over [out]; [prev] is copied from [in] after [out] is written. *)
Fixpoint bi_enc_fwd (len : nat) (m : list Z) (inp out : nat) (iv iv2 : loc) : list Z :=
  match len with
  | O => m
  | S n =>
      let m := xor_into 1 16 m out (At inp) iv in
      let m := blit out (block (mread m out 16)) m in
      let m := xor_into 1 16 m out (At out) iv2 in
      let prev := mread m inp 16 in
      bi_enc_fwd n m (inp + 16) (out + 16) (At out) (Local prev)
  end.

Fixpoint bi_enc_bwd (len : nat) (m : list Z) (base : nat) (iv iv2 : loc) : list Z :=
  match len with
  | O => m
  | S n =>
      let out := (base + 16 * n)%nat in
      let tmp := mread m out 16 in
      let m := xor_into 1 16 m out (At out) iv in
      let m := blit out (block (mread m out 16)) m in
      let m := xor_into 1 16 m out (At out) iv2 in
      bi_enc_bwd n m base (At out) (Local tmp)
  end.

Fixpoint bi_dec_bwd (len : nat) (m : list Z) (inbase base : nat) (iv iv2 : loc) : list Z :=
  match len with
  | O => m
  | S n =>
      let inp := (inbase + 16 * n)%nat in
      let out := (base + 16 * n)%nat in
      let tmp2 := mread m inp 16 in
      let tmp := xor_bytes (mread m inp 16) (lread m iv2 16) in
      let m := blit out (block tmp) m in
      let m := xor_into 1 16 m out (At out) iv in
      bi_dec_bwd n m inbase base (Local tmp2) (At out)
  end.

Fixpoint bi_dec_fwd (len : nat) (m : list Z) (out : nat) (iv iv2 : loc) : list Z :=
  match len with
  | O => m
  | S n =>
      let tmp2 := mread m out 16 in
      let tmp := xor_bytes (mread m out 16) (lread m iv2 16) in
      let m := blit out (block tmp) m in
      let m := xor_into 1 16 m out (At out) iv in
      bi_dec_fwd n m (out + 16) (Local tmp2) (At out)
  end.
End ige.

(** [AES_ige_encrypt]: the memory after the call.  [fast] is the condition on
    alignment (always true where unaligned accesses are fast); a failed
    assertion aborts the program. *)
Definition AES_ige_encrypt (fast : bool) (m : list Z) (inp out length : nat) (key : AES_KEY)
    (ivec : nat) (enc : bool) : outcome (list Z) :=
  if (length =? 0)%nat then Ret m
  else if negb (length mod 16 =? 0)%nat then Exit
  else
    let len := (length / 16)%nat in
    let finish_ptr '(m, ivp, iv2p) :=
      let m := blit ivec (mread m ivp 16) m in
      blit (ivec + 16) (mread m iv2p 16) m in
    let finish_copy '(m, iv, iv2) := blit (ivec + 16) iv2 (blit ivec iv m) in
    if enc then
      let E b := AES_encrypt b key in
      if negb (inp =? out)%nat && fast then
        Ret (finish_ptr (ige_enc_fast E len m inp out ivec (ivec + 16)))
      else
        Ret (finish_copy (ige_enc_copy E len m inp out (mread m ivec 16) (mread m (ivec + 16) 16)))
    else
      let D b := AES_decrypt b key in
      if negb (inp =? out)%nat && fast then
        Ret (finish_ptr (ige_dec_fast D len m inp out ivec (ivec + 16)))
      else
        Ret (finish_copy (ige_dec_copy D len m inp out (mread m ivec 16) (mread m (ivec + 16) 16))).

(** [AES_bi_ige_encrypt]: the second key is an argument no path uses. *)
Definition AES_bi_ige_encrypt (m : list Z) (inp out length : nat) (key key2 : AES_KEY)
    (ivec : nat) (enc : bool) : outcome (list Z) :=
  if negb (length mod 16 =? 0)%nat then Exit
  else
    let len := (length / 16)%nat in
    if enc then
      let E b := AES_encrypt b key in
      let m := bi_enc_fwd E len m inp out (At ivec) (At (ivec + 16)) in
      Ret (bi_enc_bwd E len m out (At (ivec + 32)) (At (ivec + 48)))
    else
      let D b := AES_decrypt b key in
      let m := bi_dec_bwd D len m inp out (At (ivec + 32)) (At (ivec + 48)) in
      Ret (bi_dec_fwd D len m out (At ivec) (At (ivec + 16))).

(** ** The reference, on a list of blocks *)

Fixpoint ige_enc (E : list Z -> list Z) (bs : list (list Z)) (iv iv2 : list Z)
  : list (list Z) * list Z * list Z :=
  match bs with
  | [] => ([], iv, iv2)
  | b :: r =>
      let c := xor_bytes (E (xor_bytes b iv)) iv2 in
      let '(cs, iv', iv2') := ige_enc E r c b in (c :: cs, iv', iv2')
  end.

Fixpoint ige_dec (D : list Z -> list Z) (cs : list (list Z)) (iv iv2 : list Z)
  : list (list Z) * list Z * list Z :=
  match cs with
  | [] => ([], iv, iv2)
  | c :: r =>
      let b := xor_bytes (D (xor_bytes c iv2)) iv in
      let '(bs, iv', iv2') := ige_dec D r c b in (b :: bs, iv', iv2')
  end.

(** The [n] blocks at [o]. *)
Fixpoint mblocks (m : list Z) (o n : nat) : list (list Z) :=
  match n with O => [] | S k => mread m o 16 :: mblocks m (o + 16) k end.

(** ** One block *)

(** A chaining value that writing [n] bytes at [dst] leaves alone. *)
Definition clear (dst n : nat) (m : list Z) (l : loc) : Prop :=
  match l with
  | At o => (o + 16 <= length m)%nat /\ apart dst n o 16
  | Local v => nbytes 16 v
  end.

Lemma clear_source dst m l : clear dst 16 m l -> source dst 16 m l.
Proof. destruct l; cbn; [intros [? ?]; auto|intros [? _]; lia]. Qed.

Lemma clear_bytes dst n m l : bytes m -> clear dst n m l -> loc_bytes m l.
Proof. destruct l; cbn; [done|by intros ? [_ ?]]. Qed.

Lemma clear_read dst n m l : bytes m -> clear dst n m l -> nbytes 16 (lread m l 16).
Proof.
  destruct l; cbn; [intros ? [? _]; by apply nbytes_mread|].
  intros _ [Hl Hb]. split; [rewrite length_take; lia|by apply bytes_take].
Qed.

Lemma clear_blit dst n m l o v :
  clear dst n m l -> (o + length v <= length m)%nat -> clear dst n (blit o v m) l.
Proof. destruct l; cbn; [|done]. intros [? ?] ?. by rewrite length_blit. Qed.

Lemma lread_blit dst m l v :
  length v = 16%nat -> (dst + 16 <= length m)%nat -> clear dst 16 m l ->
  lread (blit dst v m) l 16 = lread m l 16.
Proof.
  intros Hv Hd. destruct l; cbn; [|done]. intros [_ Ha]. apply mread_blit_apart; rewrite Hv; done.
Qed.

Lemma mread_blit_16 m o v : length v = 16%nat -> (o + 16 <= length m)%nat ->
  mread (blit o v m) o 16 = v.
Proof. intros Hv Ho. rewrite <- Hv. apply mread_blit_same. lia. Qed.

(** A smaller target leaves more alone. *)
Lemma clear_sub dst n dst' n' m l :
  clear dst n m l -> (dst <= dst')%nat -> (dst' + n' <= dst + n)%nat -> clear dst' n' m l.
Proof. destruct l; cbn; [|done]. intros [? Ha] ? ?. split; [done|]. unfold apart in *. lia. Qed.

Section one_block.
Context (f : list Z -> list Z) `{!BlockFn f}.

(** [out = f(out ^ a)] followed by [out ^= b] *)
Lemma mask_out w k m out a iv iv2 :
  (w * k = 16)%nat -> bytes m -> (out + 16 <= length m)%nat ->
  source out 16 m a -> loc_bytes m a -> clear out 16 m iv -> clear out 16 m iv2 ->
  xor_into w k (blit out (f (mread (xor_into w k m out a iv) out 16)) (xor_into w k m out a iv))
    out (At out) iv2 =
  blit out (xor_bytes (f (xor_bytes (lread m a 16) (lread m iv 16))) (lread m iv2 16)) m.
Proof.
  intros Hw Hm Ho Ha Ba Hiv Hiv2.
  rewrite (xor_into_eq w k m); rewrite ?Hw;
    [|done|done|done|by apply clear_source|done|by eapply clear_bytes].
  pose proof (nbytes_xor _ _ _ (lread_ok _ _ _ _ Ha Ba) (clear_read _ _ _ _ Hm Hiv)) as [Lx Bx].
  set (x := xor_bytes (lread m a 16) (lread m iv 16)) in *.
  rewrite mread_blit_16 by done. destruct (block_ok x (conj Lx Bx)) as [Ly By].
  rewrite blit_same by lia.
  rewrite xor_into_eq; rewrite ?Hw.
  - cbn [lread]. rewrite mread_blit_16, lread_blit by done.
    pose proof (clear_read _ _ _ _ Hm Hiv2) as [Lz Bz].
    rewrite blit_same by (rewrite ?length_xor_bytes; lia). done.
  - by apply bytes_blit.
  - by rewrite length_blit by lia.
  - cbn. rewrite length_blit by lia. split; [done|by left].
  - apply clear_source, clear_blit; [done|lia].
  - by apply bytes_blit.
  - eapply clear_bytes; [by apply bytes_blit|]. apply clear_blit; [exact Hiv2|lia].
Qed.

(** [out = f(x)] followed by [out ^= iv] *)
Lemma unmask_out w k m out x iv :
  (w * k = 16)%nat -> bytes m -> (out + 16 <= length m)%nat -> nbytes 16 x -> clear out 16 m iv ->
  xor_into w k (blit out (f x) m) out (At out) iv = blit out (xor_bytes (f x) (lread m iv 16)) m.
Proof.
  intros Hw Hm Ho Hx Hiv. destruct (block_ok x Hx) as [Ly By].
  pose proof (clear_read _ _ _ _ Hm Hiv) as [Lz Bz].
  rewrite xor_into_eq; rewrite ?Hw.
  - cbn [lread]. rewrite mread_blit_16, lread_blit by done.
    rewrite blit_same by (rewrite ?length_xor_bytes; lia). done.
  - by apply bytes_blit.
  - by rewrite length_blit by lia.
  - cbn. rewrite length_blit by lia. split; [done|by left].
  - apply clear_source, clear_blit; [done|lia].
  - by apply bytes_blit.
  - eapply clear_bytes; [by apply bytes_blit|]. apply clear_blit; [exact Hiv|lia].
Qed.
End one_block.

(** ** Blocks in memory *)

Definition blocks16 (bs : list (list Z)) : Prop := Forall (nbytes 16) bs.

Lemma length_mblocks m o n : length (mblocks m o n) = n.
Proof. revert o. induction n as [|n IH]; intros o; cbn; [done|by rewrite IH]. Qed.

Lemma length_concat16 bs : blocks16 bs -> length (concat bs) = (16 * length bs)%nat.
Proof.
  induction 1 as [|b r [Hb _] _ IH]; cbn -[Nat.mul]; [done|]. rewrite length_app, IH, Hb. lia.
Qed.

Lemma blocks16_mblocks m n : forall o,
  bytes m -> (o + 16 * n <= length m)%nat -> blocks16 (mblocks m o n).
Proof.
  induction n as [|n IH]; intros o Hm Ho; cbn [mblocks]; [apply Forall_nil_2|].
  apply Forall_cons_2; [apply nbytes_mread; (done || lia)|]. apply IH; [done|lia].
Qed.

Lemma mblocks_blit m k v n : forall o,
  (k + length v <= length m)%nat -> apart k (length v) o (16 * n) ->
  mblocks (blit k v m) o n = mblocks m o n.
Proof.
  induction n as [|n IH]; intros o Hk Ha; cbn [mblocks]; [done|]. unfold apart in Ha. f_equal.
  - apply mread_blit_apart; [done|]. unfold apart. lia.
  - apply IH; [done|]. unfold apart. lia.
Qed.

Lemma mblocks_snoc m n : forall o,
  mblocks m o (S n) = mblocks m o n ++ [mread m (o + 16 * n) 16].
Proof.
  induction n as [|n IH]; intros o.
  - cbn [mblocks app]. by rewrite Nat.mul_0_r, Nat.add_0_r.
  - change (mblocks m o (S (S n))) with (mread m o 16 :: mblocks m (o + 16) (S n)).
    rewrite IH. cbn [mblocks app]. do 3 f_equal. f_equal. lia.
Qed.

Lemma concat_mblocks m n : forall o, concat (mblocks m o n) = mread m o (16 * n).
Proof.
  induction n as [|n IH]; intros o; [by rewrite Nat.mul_0_r|]. cbn [mblocks concat].
  rewrite IH. replace (16 * S n)%nat with (16 + 16 * n)%nat by lia. by rewrite mread_split.
Qed.

(** Reading back the blocks written. *)
Lemma mblocks_written m o bs :
  blocks16 bs -> (o + 16 * length bs <= length m)%nat ->
  mblocks (blit o (concat bs) m) o (length bs) = bs.
Proof.
  revert m o. induction bs as [|b r IH]; intros m o Hb Ho; [done|].
  apply Forall_cons in Hb as [Hb Hr]. destruct Hb as [Lb Bb]. pose proof (length_concat16 r Hr).
  cbn [concat mblocks length] in *. rewrite <- blit_app by lia. f_equal.
  - rewrite mread_blit_apart by (rewrite ?length_blit; unfold apart; lia).
    apply mread_blit_16; [done|lia].
  - rewrite Lb. apply IH; [done|]. rewrite length_blit; lia.
Qed.

(** The write of a block and, later, of what comes before it. *)
Lemma blit_before (m : list Z) o x y :
  (o + length x + length y <= length m)%nat ->
  blit o x (blit (o + length x) y m) = blit o (x ++ y) m.
Proof.
  intros H. apply list_eq. intros i.
  destruct (decide (o <= i < o + length x)%nat).
  - rewrite !lookup_blit_in by (rewrite ?length_blit, ?length_app; lia).
    by rewrite lookup_app_l by lia.
  - rewrite lookup_blit_out by (rewrite ?length_blit; lia).
    destruct (decide (o + length x <= i < o + length x + length y)%nat).
    + rewrite !lookup_blit_in by (rewrite ?length_app; lia).
      rewrite lookup_app_r by lia. f_equal. lia.
    + by rewrite !lookup_blit_out by (rewrite ?length_app; lia).
Qed.

(** ** The loops compute the reference *)

Lemma ige_dec_enc D cs : forall iv iv2,
  ige_dec D cs iv iv2 = (let '(bs, a, b) := ige_enc D cs iv2 iv in (bs, b, a)).
Proof.
  induction cs as [|c r IH]; intros iv iv2; cbn [ige_dec ige_enc]; [done|].
  rewrite IH. by destruct (ige_enc D r _ _) as [[? ?] ?].
Qed.

Section loops.
Context (f : list Z -> list Z) `{!BlockFn f}.

Lemma mask_ok b iv iv2 :
  nbytes 16 b -> nbytes 16 iv -> nbytes 16 iv2 -> nbytes 16 (xor_bytes (f (xor_bytes b iv)) iv2).
Proof. intros. apply nbytes_xor; [|done]. by apply block_ok, nbytes_xor. Qed.

Lemma ige_enc_ok bs : forall iv iv2,
  blocks16 bs -> nbytes 16 iv -> nbytes 16 iv2 ->
  let '(cs, iv', iv2') := ige_enc f bs iv iv2 in
  blocks16 cs /\ length cs = length bs /\ nbytes 16 iv' /\ nbytes 16 iv2'.
Proof.
  induction bs as [|b r IH]; intros iv iv2 Hbs H1 H2; cbn [ige_enc]; [done|].
  apply Forall_cons in Hbs as [Hb Hr]. pose proof (mask_ok b iv iv2 Hb H1 H2) as Hc.
  specialize (IH _ _ Hr Hc Hb). destruct (ige_enc f r _ _) as [[cs i] j].
  destruct IH as (? & ? & ? & ?). split_and!; [by apply Forall_cons_2|cbn; lia|done|done].
Qed.

(** A written block and the ones after it. *)
Lemma blit_block (m : list Z) out c cs :
  length c = 16%nat -> (out + 16 + length (concat cs) <= length m)%nat ->
  blit (out + 16) (concat cs) (blit out c m) = blit out (concat (c :: cs)) m.
Proof.
  intros Hc H. replace (out + 16)%nat with (out + length c)%nat by lia.
  change (concat (c :: cs)) with (c ++ concat cs). apply blit_app. lia.
Qed.

Lemma ige_enc_fast_eq n : forall m inp out ivp iv2p,
  bytes m -> (inp + 16 * n <= length m)%nat -> (out + 16 * n <= length m)%nat ->
  apart out (16 * n) inp (16 * n) ->
  clear out (16 * n) m (At ivp) -> clear out (16 * n) m (At iv2p) ->
  let '(cs, iv', iv2') := ige_enc f (mblocks m inp n) (mread m ivp 16) (mread m iv2p 16) in
  exists p p2, ige_enc_fast f n m inp out ivp iv2p = (blit out (concat cs) m, p, p2) /\
    mread (blit out (concat cs) m) p 16 = iv' /\ mread (blit out (concat cs) m) p2 16 = iv2' /\
    ((0 < n)%nat -> p = (out + 16 * (n - 1))%nat /\ p2 = (inp + 16 * (n - 1))%nat).
Proof.
  induction n as [|n IH]; intros m inp out ivp iv2p Hm Hi Ho Ha H1 H2.
  - cbn [mblocks ige_enc ige_enc_fast concat]. rewrite blit_nil. exists ivp, iv2p. split_and!; [done..|]. intros; lia.
  - cbn [mblocks ige_enc ige_enc_fast].
    assert (C1 : clear out 16 m (At ivp)) by (eapply clear_sub; [exact H1|lia..]).
    assert (C2 : clear out 16 m (At iv2p)) by (eapply clear_sub; [exact H2|lia..]).
    assert (Hin : clear out 16 m (At inp)) by (split; [lia|unfold apart in *; lia]).
    rewrite (mask_out f 8 2 m out (At inp) (At ivp) (At iv2p));
      [|reflexivity|done|lia|by apply clear_source|done|done|done]. cbn [lread].
    pose proof (mask_ok _ _ _ (clear_read _ _ _ _ Hm Hin) (clear_read _ _ _ _ Hm C1)
      (clear_read _ _ _ _ Hm C2)) as Hc. cbn [lread] in Hc.
    set (c := xor_bytes _ _) in *. pose proof Hc as [Lc Bc].
    assert (Lm : length (blit out c m) = length m) by (apply length_blit; lia).
    specialize (IH (blit out c m) (inp + 16)%nat (out + 16)%nat out inp).
    rewrite mread_blit_16, mread_blit_apart, mblocks_blit in IH
      by (rewrite ?Lc; unfold apart in *; (done || lia)).
    pose proof (ige_enc_ok (mblocks m (inp + 16) n) c (mread m inp 16)) as Hok.
    destruct (ige_enc f (mblocks m (inp + 16) n) c (mread m inp 16)) as [[cs iv'] iv2'].
    destruct Hok as (Ocs & Lcs & _); [apply blocks16_mblocks; (done || lia)|done|apply nbytes_mread; (done||lia)|].
    rewrite length_mblocks in Lcs. pose proof (length_concat16 cs Ocs) as Lcc.
    destruct IH as (p & p2 & E & E1 & E2 & E3); [by apply bytes_blit|lia|lia
      |unfold apart in *; lia|cbn; rewrite Lm; unfold apart in *; lia..|].
    rewrite blit_block in * by lia. exists p, p2. split_and!; try done.
    intros _. destruct n as [|n]; [|specialize (E3 ltac:(lia)); lia].
    cbn [ige_enc_fast] in E. injection E as _ <- <-. lia.
Qed.

Lemma ige_dec_fast_eq n : forall m inp out ivp iv2p,
  bytes m -> (inp + 16 * n <= length m)%nat -> (out + 16 * n <= length m)%nat ->
  apart out (16 * n) inp (16 * n) ->
  clear out (16 * n) m (At ivp) -> clear out (16 * n) m (At iv2p) ->
  let '(bs, iv', iv2') := ige_dec f (mblocks m inp n) (mread m ivp 16) (mread m iv2p 16) in
  exists p p2, ige_dec_fast f n m inp out ivp iv2p = (blit out (concat bs) m, p, p2) /\
    mread (blit out (concat bs) m) p 16 = iv' /\ mread (blit out (concat bs) m) p2 16 = iv2' /\
    ((0 < n)%nat -> p = (inp + 16 * (n - 1))%nat /\ p2 = (out + 16 * (n - 1))%nat).
Proof.
  induction n as [|n IH]; intros m inp out ivp iv2p Hm Hi Ho Ha H1 H2.
  - cbn [mblocks ige_dec ige_dec_fast concat]. rewrite blit_nil. exists ivp, iv2p.
    split_and!; [done..|]. intros; lia.
  - cbn [mblocks ige_dec ige_dec_fast].
    assert (C1 : clear out 16 m (At ivp)) by (eapply clear_sub; [exact H1|lia..]).
    assert (C2 : clear out 16 m (At iv2p)) by (eapply clear_sub; [exact H2|lia..]).
    assert (Hin : clear out 16 m (At inp)) by (split; [lia|unfold apart in *; lia]).
    pose proof (clear_read _ _ _ _ Hm Hin) as Nin. pose proof (clear_read _ _ _ _ Hm C1) as N1.
    pose proof (clear_read _ _ _ _ Hm C2) as N2. cbn [lread] in Nin, N1, N2.
    rewrite xor_words_16 by done.
    rewrite (unmask_out f 8 2 m out _ (At ivp));
      [|reflexivity|done|lia|by apply nbytes_xor|done]. cbn [lread].
    pose proof (mask_ok _ _ _ Nin N2 N1) as Hc.
    set (c := xor_bytes (f _) _) in *. pose proof Hc as [Lc Bc].
    assert (Lm : length (blit out c m) = length m) by (apply length_blit; lia).
    specialize (IH (blit out c m) (inp + 16)%nat (out + 16)%nat inp out).
    rewrite mread_blit_16, mread_blit_apart, mblocks_blit in IH
      by (rewrite ?Lc; unfold apart in *; (done || lia)).
    pose proof (ige_enc_ok (mblocks m (inp + 16) n) c (mread m inp 16)) as Hok.
    rewrite ige_dec_enc in *.
    destruct (ige_enc f (mblocks m (inp + 16) n) c (mread m inp 16)) as [[cs iv'] iv2'].
    destruct Hok as (Ocs & Lcs & _); [apply blocks16_mblocks; (done || lia)|done..|].
    rewrite length_mblocks in Lcs. pose proof (length_concat16 cs Ocs) as Lcc.
    destruct IH as (p & p2 & E & E1 & E2 & E3); [by apply bytes_blit|lia|lia
      |unfold apart in *; lia|cbn; rewrite Lm; unfold apart in *; lia..|].
    rewrite blit_block in * by lia. exists p, p2. split_and!; try done.
    intros _. destruct n as [|n]; [|specialize (E3 ltac:(lia)); lia].
    cbn [ige_dec_fast] in E. injection E as _ <- <-. lia.
Qed.

(** The loops on copies also work in place, and when the output begins before
    the input. *)
Definition may_copy (inp out n : nat) : Prop := (out <= inp)%nat \/ (inp + 16 * n <= out)%nat.

Lemma ige_enc_copy_eq n : forall m inp out iv iv2,
  bytes m -> (inp + 16 * n <= length m)%nat -> (out + 16 * n <= length m)%nat ->
  may_copy inp out n -> nbytes 16 iv -> nbytes 16 iv2 ->
  ige_enc_copy f n m inp out iv iv2 =
    (let '(cs, iv', iv2') := ige_enc f (mblocks m inp n) iv iv2 in
     (blit out (concat cs) m, iv', iv2')).
Proof.
  induction n as [|n IH]; intros m inp out iv iv2 Hm Hi Ho Ha H1 H2;
    cbn [mblocks ige_enc ige_enc_copy concat]; [by rewrite blit_nil|].
  assert (Nin : nbytes 16 (mread m inp 16)) by (apply nbytes_mread; (done || lia)).
  rewrite (xor_words_16 (mread m inp 16)) by done.
  rewrite xor_words_16 by (done || by apply block_ok, nbytes_xor).
  pose proof (mask_ok _ _ _ Nin H1 H2) as Hc.
  set (c := xor_bytes (f _) _) in *. pose proof Hc as [Lc Bc].
  pose proof (length_blit out c m ltac:(lia)) as Lm.
  rewrite IH; [|by apply bytes_blit|lia|lia|unfold may_copy in *; lia|done|done].
  rewrite mblocks_blit by (rewrite ?Lc; unfold apart, may_copy in *; lia).
  pose proof (ige_enc_ok (mblocks m (inp + 16) n) c (mread m inp 16)) as Hok.
  destruct (ige_enc f (mblocks m (inp + 16) n) c (mread m inp 16)) as [[cs iv'] iv2'].
  destruct Hok as (Ocs & Lcs & _); [apply blocks16_mblocks; (done || lia)|done..|].
  rewrite length_mblocks in Lcs. pose proof (length_concat16 cs Ocs).
  by rewrite blit_block by lia.
Qed.

Lemma ige_dec_copy_eq n : forall m inp out iv iv2,
  bytes m -> (inp + 16 * n <= length m)%nat -> (out + 16 * n <= length m)%nat ->
  may_copy inp out n -> nbytes 16 iv -> nbytes 16 iv2 ->
  ige_dec_copy f n m inp out iv iv2 =
    (let '(bs, iv', iv2') := ige_dec f (mblocks m inp n) iv iv2 in
     (blit out (concat bs) m, iv', iv2')).
Proof.
  induction n as [|n IH]; intros m inp out iv iv2 Hm Hi Ho Ha H1 H2;
    cbn [mblocks ige_dec ige_dec_copy concat]; [by rewrite blit_nil|].
  assert (Nin : nbytes 16 (mread m inp 16)) by (apply nbytes_mread; (done || lia)).
  rewrite (xor_words_16 (mread m inp 16)) by done.
  rewrite xor_words_16 by (done || by apply block_ok, nbytes_xor).
  pose proof (mask_ok _ _ _ Nin H2 H1) as Hc.
  set (c := xor_bytes (f _) _) in *. pose proof Hc as [Lc Bc].
  pose proof (length_blit out c m ltac:(lia)) as Lm.
  rewrite IH; [|by apply bytes_blit|lia|lia|unfold may_copy in *; lia|done|done].
  rewrite mblocks_blit by (rewrite ?Lc; unfold apart, may_copy in *; lia).
  rewrite ige_dec_enc.
  pose proof (ige_enc_ok (mblocks m (inp + 16) n) c (mread m inp 16)) as Hok.
  destruct (ige_enc f (mblocks m (inp + 16) n) c (mread m inp 16)) as [[cs iv'] iv2'].
  destruct Hok as (Ocs & Lcs & _); [apply blocks16_mblocks; (done || lia)|done..|].
  rewrite length_mblocks in Lcs. pose proof (length_concat16 cs Ocs).
  by rewrite blit_block by lia.
Qed.
End loops.

(** ** The functions *)

Lemma blit_mread (m : list Z) o n : (o + n <= length m)%nat -> blit o (mread m o n) m = m.
Proof.
  intros H. apply list_eq. intros i. pose proof (length_mread m o n H).
  destruct (decide (o <= i < o + n)%nat).
  - rewrite lookup_blit_in, lookup_mread by lia. rewrite decide_True by lia. f_equal. lia.
  - by rewrite lookup_blit_out by lia.
Qed.

(** Where the buffers of a call may lie: input and output the same or apart,
    the chaining value of [k] bytes apart from both. *)
Record layout (m : list Z) (inp out n ivec k : nat) : Prop := {
  l_bytes : bytes m;
  l_in : (inp + 16 * n <= length m)%nat;
  l_out : (out + 16 * n <= length m)%nat;
  l_iv : (ivec + k <= length m)%nat;
  l_io : inp = out \/ apart out (16 * n) inp (16 * n);
  l_iv_in : apart ivec k inp (16 * n);
  l_iv_out : apart ivec k out (16 * n)
}.

(** The memory after a call with the chaining values [iv] and [iv2] left. *)
Definition after (m : list Z) (out ivec : nat) (r : list (list Z) * list Z * list Z) : list Z :=
  let '(cs, iv, iv2) := r in blit ivec (iv ++ iv2) (blit out (concat cs) m).

Section functions.
Context (f : list Z -> list Z) `{!BlockFn f}.
Context (m : list Z) (inp out n ivec : nat) (L : layout m inp out n ivec 32).
Let iv : list Z := mread m ivec 16.
Let iv2 : list Z := mread m (ivec + 16) 16.

Lemma finish_memory cs a b :
  blocks16 cs -> length cs = n -> nbytes 16 a -> nbytes 16 b ->
  blit (ivec + 16) b (blit ivec a (blit out (concat cs) m)) = after m out ivec (cs, a, b).
Proof.
  intros Hcs Hl [La _] [Lb _]. destruct L. unfold after.
  pose proof (length_concat16 cs Hcs). rewrite <- blit_app.
  - by rewrite La.
  - rewrite length_blit; lia.
Qed.

Lemma ref_ok : let '(cs, a, b) := ige_enc f (mblocks m inp n) iv iv2 in
  blocks16 cs /\ length cs = n /\ nbytes 16 a /\ nbytes 16 b.
Proof.
  destruct L. pose proof (ige_enc_ok f (mblocks m inp n) iv iv2) as H.
  destruct (ige_enc f (mblocks m inp n) iv iv2) as [[cs a] b]. rewrite length_mblocks in H.
  apply H; [by apply blocks16_mblocks|apply nbytes_mread; (done || lia)..].
Qed.

Lemma ref_dec_ok : let '(cs, a, b) := ige_dec f (mblocks m inp n) iv iv2 in
  blocks16 cs /\ length cs = n /\ nbytes 16 a /\ nbytes 16 b.
Proof.
  destruct L. rewrite ige_dec_enc. pose proof (ige_enc_ok f (mblocks m inp n) iv2 iv) as H.
  destruct (ige_enc f (mblocks m inp n) iv2 iv) as [[cs a] b]. rewrite length_mblocks in H.
  destruct H as (? & ? & ? & ?); [by apply blocks16_mblocks|apply nbytes_mread; (done || lia)..|].
  by split_and!.
Qed.

(** The pointer paths write the chaining values from where the pointers are. *)
Lemma finish_pointers cs a b p p2 :
  blocks16 cs -> length cs = n -> nbytes 16 a -> nbytes 16 b ->
  mread (blit out (concat cs) m) p 16 = a -> mread (blit out (concat cs) m) p2 16 = b ->
  apart ivec 16 p2 16 -> (p2 + 16 <= length m)%nat ->
  (let m1 := blit ivec (mread (blit out (concat cs) m) p 16) (blit out (concat cs) m) in
   blit (ivec + 16) (mread m1 p2 16) m1) = after m out ivec (cs, a, b).
Proof.
  intros Hcs Hl Ha Hb Ea Eb Hp Hp2. cbn zeta. rewrite Ea. pose proof Ha as [La _]. destruct L.
  pose proof (length_concat16 cs Hcs).
  rewrite mread_blit_apart; [|rewrite length_blit; lia|by rewrite La].
  rewrite Eb. by apply finish_memory.
Qed.
End functions.

Lemma AES_ige_encrypt_ref fast m inp out n key ivec :
  BlockFn (fun b => AES_encrypt b key) -> (0 < n)%nat -> layout m inp out n ivec 32 ->
  AES_ige_encrypt fast m inp out (16 * n) key ivec true =
    Ret (after m out ivec
      (ige_enc (fun b => AES_encrypt b key) (mblocks m inp n) (mread m ivec 16) (mread m (ivec + 16) 16))).
Proof.
  intros HE Hn L. pose proof (ref_ok _ m inp out n ivec L) as Hok. cbn zeta in Hok.
  unfold AES_ige_encrypt. replace (16 * n)%nat with (n * 16)%nat by lia.
  destruct (Nat.eqb_spec (n * 16) 0); [lia|]. rewrite Nat.Div0.mod_mul, Nat.div_mul by lia.
  cbn [Nat.eqb negb]. pose proof L as [Hm Hi Ho Hv Hio Hvi Hvo].
  destruct (Nat.eqb_spec inp out) as [->|Hne]; [|destruct fast]; cbn [negb andb].
  1, 3: rewrite (ige_enc_copy_eq (fun b => AES_encrypt b key)) by
    (done || lia || (apply nbytes_mread; (done || lia))
     || (unfold may_copy, apart in *; lia));
    destruct (ige_enc _ _ _ _) as [[cs a] b]; destruct Hok as (? & ? & ? & ?);
    f_equal; by eapply finish_memory.
  pose proof (ige_enc_fast_eq (fun b => AES_encrypt b key) n m inp out ivec (ivec + 16)) as H.
  destruct (ige_enc _ _ _ _) as [[cs a] b]. destruct Hok as (? & ? & ? & ?).
  destruct H as (p & p2 & E & E1 & E2 & E3);
    [done|lia|lia|unfold apart in *; lia|split; unfold apart in *; lia..|].
  rewrite E. f_equal. specialize (E3 Hn). eapply finish_pointers; try done; unfold apart in *; lia.
Qed.

Lemma AES_ige_decrypt_ref fast m inp out n key ivec :
  BlockFn (fun b => AES_decrypt b key) -> (0 < n)%nat -> layout m inp out n ivec 32 ->
  AES_ige_encrypt fast m inp out (16 * n) key ivec false =
    Ret (after m out ivec
      (ige_dec (fun b => AES_decrypt b key) (mblocks m inp n) (mread m ivec 16) (mread m (ivec + 16) 16))).
Proof.
  intros HE Hn L. pose proof (ref_dec_ok _ m inp out n ivec L) as Hok. cbn zeta in Hok.
  unfold AES_ige_encrypt. replace (16 * n)%nat with (n * 16)%nat by lia.
  destruct (Nat.eqb_spec (n * 16) 0); [lia|]. rewrite Nat.Div0.mod_mul, Nat.div_mul by lia.
  cbn [Nat.eqb negb]. pose proof L as [Hm Hi Ho Hv Hio Hvi Hvo].
  destruct (Nat.eqb_spec inp out) as [->|Hne]; [|destruct fast]; cbn [negb andb].
  1, 3: rewrite (ige_dec_copy_eq (fun b => AES_decrypt b key)) by
    (done || lia || (apply nbytes_mread; (done || lia))
     || (unfold may_copy, apart in *; lia));
    destruct (ige_dec _ _ _ _) as [[cs a] b]; destruct Hok as (? & ? & ? & ?);
    f_equal; by eapply finish_memory.
  pose proof (ige_dec_fast_eq (fun b => AES_decrypt b key) n m inp out ivec (ivec + 16)) as H.
  destruct (ige_dec _ _ _ _) as [[cs a] b]. destruct Hok as (? & ? & ? & ?).
  destruct H as (p & p2 & E & E1 & E2 & E3);
    [done|lia|lia|unfold apart in *; lia|split; unfold apart in *; lia..|].
  rewrite E. f_equal. specialize (E3 Hn). eapply finish_pointers; try done; unfold apart in *; lia.
Qed.

(** ** Round trips *)

(** The two keys of a key string make a block cipher. *)
Lemma keyed_cipher Nk k ek dk :
  aes_words Nk = true -> bytes k ->
  AES_set_encrypt_key (Some k) (32 * Z.of_nat Nk) = inr ek ->
  AES_set_decrypt_key (Some k) (32 * Z.of_nat Nk) = inr dk ->
  BlockCipher (fun b => AES_encrypt b ek) (fun b => AES_decrypt b dk).
Proof.
  intros HN Hk He Hd. pose proof (aes_inverse_keyed Nk k) as H1. pose proof (aes_dec_block Nk k) as H2.
  unfold aes_enc_with, aes_dec_with in *. rewrite He, Hd in *.
  split; intros b Hb; [by apply H1|by apply H2|by apply H1].
Qed.

Section roundtrip.
Context (E D : list Z -> list Z) `{!BlockCipher E D}.

Lemma ige_roundtrip bs : forall iv iv2,
  blocks16 bs -> nbytes 16 iv -> nbytes 16 iv2 ->
  let '(cs, iv', iv2') := ige_enc E bs iv iv2 in ige_dec D cs iv iv2 = (bs, iv', iv2').
Proof.
  induction bs as [|b r IH]; intros iv iv2 Hbs H1 H2; cbn [ige_enc]; [done|].
  apply Forall_cons in Hbs as [Hb Hr].
  pose proof (mask_ok E b iv iv2 Hb H1 H2) as Hc. specialize (IH _ _ Hr Hc Hb).
  destruct (ige_enc E r _ _) as [[cs i] j]. cbn [ige_dec].
  pose proof (nbytes_xor _ _ _ Hb H1) as Hx. pose proof (bc_enc _ Hx) as [Ly By].
  rewrite xor_bytes_cancel by (rewrite Ly, (proj1 H2); lia).
  rewrite (bc_inv _ Hx). rewrite xor_bytes_cancel by (rewrite (proj1 Hb), (proj1 H1); lia).
  by rewrite IH.
Qed.
End roundtrip.

(** The memory after a call, read back. *)
Lemma after_facts m inp out n ivec cs a b :
  layout m inp out n ivec 32 ->
  blocks16 cs -> length cs = n -> nbytes 16 a -> nbytes 16 b ->
  let m' := after m out ivec (cs, a, b) in
  length m' = length m /\ bytes m' /\ mblocks m' out n = cs /\
  mread m' ivec 16 = a /\ mread m' (ivec + 16) 16 = b /\
  forall c d, nbytes 16 c -> nbytes 16 d ->
    blit ivec (c ++ d) m' = after m out ivec (cs, c, d).
Proof.
  intros [Hm Hi Ho Hv Hio Hvi Hvo] Hcs Hl [La Ba] [Lb Bb]. pose proof (length_concat16 cs Hcs) as Lc.
  unfold after. cbn zeta. set (mc := blit out (concat cs) m).
  assert (Lmc : length mc = length m) by (apply length_blit; lia).
  assert (Bmc : bytes mc).
  { apply bytes_blit; [done|]. apply bytes_concat. eapply Forall_impl; [exact Hcs|by intros ? [_ ?]]. }
  split_and!.
  - rewrite length_blit; rewrite ?length_app; lia.
  - apply bytes_blit; [done|by apply bytes_app].
  - rewrite mblocks_blit by (rewrite length_app, La, Lb; (done || lia)).
    unfold mc. rewrite <- Hl. apply mblocks_written; [done|lia].
  - rewrite <- blit_before by lia. apply mread_blit_16; [done|]. rewrite length_blit; lia.
  - rewrite <- blit_app, La by lia. apply mread_blit_16; [done|]. rewrite length_blit; lia.
  - intros c d [Lc' _] [Ld _]. apply blit_same; rewrite !length_app; lia.
Qed.

(** IGE in memory.  With the schedules of any AES key, decrypting what
    AES_ige_encrypt wrote gives the input back and leaves the chaining value
    that encryption left, whichever of the pointer and copying paths the two
    calls take, and whether they work in place or from one buffer to another. *)
Theorem AES_ige_roundtrip Nk k ek dk fast fast' m inp out back n ivec :
  aes_words Nk = true -> bytes k ->
  AES_set_encrypt_key (Some k) (32 * Z.of_nat Nk) = inr ek ->
  AES_set_decrypt_key (Some k) (32 * Z.of_nat Nk) = inr dk ->
  layout m inp out n ivec 32 -> layout m out back n ivec 32 ->
  exists m1 m2,
    AES_ige_encrypt fast m inp out (16 * n) ek ivec true = Ret m1 /\
    AES_ige_encrypt fast' (blit ivec (mread m ivec 32) m1) out back (16 * n) dk ivec false = Ret m2 /\
    mread m2 back (16 * n) = mread m inp (16 * n) /\
    mread m2 ivec 32 = mread m1 ivec 32.
Proof.
  intros HN Hk He Hd L1 L2. pose proof (keyed_cipher Nk k ek dk HN Hk He Hd) as HC.
  pose proof L1 as [Hm Hi Ho Hv Hio Hvi Hvo]. pose proof L2 as [_ _ Hb _ Hob _ Hvb].
  destruct (Nat.eq_dec n 0%nat) as [->|Hn].
  { exists m, m. rewrite blit_mread by lia. by split_and!. }
  rewrite (AES_ige_encrypt_ref fast m inp out n ek ivec) by (apply _ || lia || done).
  change 32%nat with (16 + 16)%nat. rewrite (mread_split m).
  assert (Niv : nbytes 16 (mread m ivec 16)) by (apply nbytes_mread; (done || lia)).
  assert (Niv2 : nbytes 16 (mread m (ivec + 16) 16)) by (apply nbytes_mread; (done || lia)).
  pose proof (ref_ok (fun b => AES_encrypt b ek) m inp out n ivec L1) as Hok. cbn zeta in Hok.
  pose proof (ige_roundtrip (fun b => AES_encrypt b ek) (fun b => AES_decrypt b dk)
    (mblocks m inp n) _ _ (blocks16_mblocks m n inp Hm Hi) Niv Niv2) as Hrt.
  destruct (ige_enc _ (mblocks m inp n) _ _) as [[cs a] b]. destruct Hok as (Ocs & Lcs & Oa & Ob).
  destruct (after_facts m inp out n ivec cs a b L1 Ocs Lcs Oa Ob) as (_ & _ & _ & Ea & Eb & Er).
  eexists _. rewrite (Er _ _ Niv Niv2).
  destruct (after_facts m inp out n ivec cs _ _ L1 Ocs Lcs Niv Niv2) as (Lm & Bm & Ec & E1 & E2 & _).
  set (m' := after m out ivec (cs, mread m ivec 16, mread m (ivec + 16) 16)) in *.
  assert (L3 : layout m' out back n ivec 32) by (split; rewrite ?Lm; assumption).
  rewrite (AES_ige_decrypt_ref fast' m' out back n dk ivec) by (apply _ || lia || done).
  rewrite Ec, E1, E2, Hrt. eexists. split; [reflexivity|]. split; [reflexivity|].
  destruct (after_facts m' out back n ivec (mblocks m inp n) a b L3) as (_ & _ & Ep & Ea' & Eb' & _);
    [by apply blocks16_mblocks|apply length_mblocks|done..|].
  split; [by rewrite <- !concat_mblocks, Ep|]. by rewrite !mread_split, Ea, Eb, Ea', Eb'.
Qed.

(** The schedules of a key, for the examples. *)
Definition sample_ek : AES_KEY :=
  match AES_set_encrypt_key (Some (seqZ 0 16)) 128 with inr k => k | inl _ => mkKey [] 0 end.
Definition sample_dk : AES_KEY :=
  match AES_set_decrypt_key (Some (seqZ 0 16)) 128 with inr k => k | inl _ => mkKey [] 0 end.

Ltac solve_layout := split; [solve_closed|..]; unfold apart; vm_compute; lia.

Lemma AES_ige_roundtrip_witness : exists m1 m2,
  AES_ige_encrypt true (seqZ 0 128) 0 0 32 sample_ek 96 true = Ret m1 /\
  AES_ige_encrypt true (blit 96 (mread (seqZ 0 128) 96 32) m1) 0 48 32 sample_dk 96 false = Ret m2 /\
  mread m2 48 32 = mread (seqZ 0 128) 0 32 /\ mread m2 96 32 = mread m1 96 32.
Proof.
  apply (AES_ige_roundtrip 4 (seqZ 0 16) sample_ek sample_dk true true (seqZ 0 128) 0 0 48 2 96);
    [reflexivity|solve_closed|vm_compute; reflexivity|vm_compute; reflexivity
    |solve_layout|solve_layout].
Defined.

(** ** Both directions *)

Lemma lread_local m v : nbytes 16 v -> lread m (Local v) 16 = v.
Proof. intros [H _]. cbn. apply take_ge. lia. Qed.

Section bi_loops.
Context (f : list Z -> list Z) `{!BlockFn f}.

Lemma bi_enc_fwd_eq n : forall m inp out iv iv2,
  bytes m -> (inp + 16 * n <= length m)%nat -> (out + 16 * n <= length m)%nat ->
  apart out (16 * n) inp (16 * n) -> clear out (16 * n) m iv -> clear out (16 * n) m iv2 ->
  bi_enc_fwd f n m inp out iv iv2 =
    blit out (concat (fst (fst (ige_enc f (mblocks m inp n) (lread m iv 16) (lread m iv2 16))))) m.
Proof.
  induction n as [|n IH]; intros m inp out iv iv2 Hm Hi Ho Ha H1 H2.
  - cbn [mblocks ige_enc bi_enc_fwd fst concat]. by rewrite blit_nil.
  - cbn [mblocks ige_enc bi_enc_fwd].
    assert (C1 : clear out 16 m iv) by (eapply clear_sub; [exact H1|lia..]).
    assert (C2 : clear out 16 m iv2) by (eapply clear_sub; [exact H2|lia..]).
    assert (Hin : clear out 16 m (At inp)) by (split; [lia|unfold apart in *; lia]).
    rewrite (mask_out f 1 16 m out (At inp) iv iv2);
      [|reflexivity|done|lia|by apply clear_source|done|done|done].
    pose proof (clear_read _ _ _ _ Hm Hin) as Nin. cbn [lread] in *.
    pose proof (mask_ok f _ _ _ Nin (clear_read _ _ _ _ Hm C1) (clear_read _ _ _ _ Hm C2)) as Hc.
    set (c := xor_bytes (f _) _) in *. pose proof Hc as [Lc Bc].
    pose proof (length_blit out c m ltac:(lia)) as Lm.
    rewrite mread_blit_apart by (rewrite ?Lc; unfold apart in *; lia).
    rewrite IH; [|by apply bytes_blit|lia|lia|unfold apart in *; lia
                 |cbn; rewrite Lm; unfold apart in *; lia|done].
    rewrite lread_local by done. cbn [lread]. rewrite mread_blit_16 by (done || lia).
    rewrite mblocks_blit by (rewrite ?Lc; unfold apart in *; lia).
    pose proof (ige_enc_ok f (mblocks m (inp + 16) n) c (mread m inp 16)) as Hok.
    destruct (ige_enc f (mblocks m (inp + 16) n) c (mread m inp 16)) as [[cs a] b].
    destruct Hok as (Ocs & Lcs & _); [apply blocks16_mblocks; (done || lia)|done..|].
    rewrite length_mblocks in Lcs. pose proof (length_concat16 cs Ocs). cbn [fst].
    by rewrite blit_block by lia.
Qed.

Lemma bi_dec_fwd_eq n : forall m out iv iv2,
  bytes m -> (out + 16 * n <= length m)%nat -> clear out (16 * n) m iv -> clear out (16 * n) m iv2 ->
  bi_dec_fwd f n m out iv iv2 =
    blit out (concat (fst (fst (ige_dec f (mblocks m out n) (lread m iv 16) (lread m iv2 16))))) m.
Proof.
  induction n as [|n IH]; intros m out iv iv2 Hm Ho H1 H2.
  - cbn [mblocks ige_dec bi_dec_fwd fst concat]. by rewrite blit_nil.
  - cbn [mblocks ige_dec bi_dec_fwd].
    assert (C1 : clear out 16 m iv) by (eapply clear_sub; [exact H1|lia..]).
    assert (C2 : clear out 16 m iv2) by (eapply clear_sub; [exact H2|lia..]).
    assert (Nin : nbytes 16 (mread m out 16)) by (apply nbytes_mread; (done || lia)).
    pose proof (clear_read _ _ _ _ Hm C1) as N1. pose proof (clear_read _ _ _ _ Hm C2) as N2.
    rewrite (unmask_out f 1 16 m out); [|reflexivity|done|lia|by apply nbytes_xor|done].
    pose proof (mask_ok f _ _ _ Nin N2 N1) as Hc.
    set (c := xor_bytes (f _) _) in *. pose proof Hc as [Lc Bc].
    pose proof (length_blit out c m ltac:(lia)) as Lm.
    rewrite IH; [|by apply bytes_blit|lia|done|cbn; rewrite Lm; unfold apart in *; lia].
    rewrite lread_local by done. cbn [lread]. rewrite mread_blit_16 by (done || lia).
    rewrite mblocks_blit by (rewrite ?Lc; unfold apart in *; lia).
    rewrite !ige_dec_enc.
    pose proof (ige_enc_ok f (mblocks m (out + 16) n) c (mread m out 16)) as Hok.
    destruct (ige_enc f (mblocks m (out + 16) n) c (mread m out 16)) as [[cs a] b].
    destruct Hok as (Ocs & Lcs & _); [apply blocks16_mblocks; (done || lia)|done..|].
    rewrite length_mblocks in Lcs. pose proof (length_concat16 cs Ocs). cbn [fst].
    by rewrite blit_block by lia.
Qed.

(** The last block written and then the ones before it. *)
Lemma blit_block_last (m : list Z) base n c cs :
  length c = 16%nat -> blocks16 cs -> length cs = n -> (base + 16 * S n <= length m)%nat ->
  blit base (concat (rev cs)) (blit (base + 16 * n) c m) = blit base (concat (rev (c :: cs))) m.
Proof.
  intros Hc Hcs Hn H.
  assert (Lr : length (concat (rev cs)) = (16 * n)%nat).
  { rewrite length_concat16, length_rev by (by apply Forall_rev). lia. }
  cbn [rev]. rewrite concat_app. cbn [concat]. rewrite app_nil_r, <- Lr. apply blit_before. lia.
Qed.

Lemma blocks16_rev m o n :
  bytes m -> (o + 16 * n <= length m)%nat ->
  blocks16 (rev (mblocks m o n)) /\ length (rev (mblocks m o n)) = n.
Proof.
  intros Hm Ho. split; [by apply Forall_rev, blocks16_mblocks|]. by rewrite length_rev, length_mblocks.
Qed.

Lemma bi_enc_bwd_eq n : forall m base iv iv2,
  bytes m -> (base + 16 * n <= length m)%nat -> clear base (16 * n) m iv -> clear base (16 * n) m iv2 ->
  bi_enc_bwd f n m base iv iv2 =
    blit base (concat (rev (fst (fst
      (ige_enc f (rev (mblocks m base n)) (lread m iv 16) (lread m iv2 16)))))) m.
Proof.
  induction n as [|n IH]; intros m base iv iv2 Hm Ho H1 H2.
  - cbn [mblocks rev ige_enc bi_enc_bwd fst concat]. by rewrite blit_nil.
  - rewrite mblocks_snoc, rev_app_distr. cbn [rev app ige_enc bi_enc_bwd].
    set (out := (base + 16 * n)%nat).
    assert (C1 : clear out 16 m iv) by (eapply clear_sub; [exact H1|unfold out; lia..]).
    assert (C2 : clear out 16 m iv2) by (eapply clear_sub; [exact H2|unfold out; lia..]).
    assert (Nin : nbytes 16 (mread m out 16)) by (apply nbytes_mread; (done || unfold out; lia)).
    rewrite (mask_out f 1 16 m out (At out) iv iv2);
      [|reflexivity|done|unfold out; lia|split; [unfold out; lia|by left]|done|done|done].
    pose proof (mask_ok f _ _ _ Nin (clear_read _ _ _ _ Hm C1) (clear_read _ _ _ _ Hm C2)) as Hc.
    cbn [lread]. set (c := xor_bytes (f _) _) in *. pose proof Hc as [Lc Bc].
    pose proof (length_blit out c m ltac:(unfold out; lia)) as Lm.
    rewrite IH; [|by apply bytes_blit|lia|cbn; rewrite Lm; unfold apart, out; lia|done].
    rewrite lread_local by done. cbn [lread]. rewrite mread_blit_16 by (done || unfold out; lia).
    rewrite mblocks_blit by (rewrite ?Lc; unfold apart, out; lia).
    destruct (blocks16_rev m base n Hm ltac:(lia)) as [Or Lr].
    pose proof (ige_enc_ok f (rev (mblocks m base n)) c (mread m out 16) Or Hc Nin) as Hok.
    destruct (ige_enc f (rev (mblocks m base n)) c (mread m out 16)) as [[cs a] b].
    destruct Hok as (Ocs & Lcs & _). cbn [fst]. apply blit_block_last; (done || lia).
Qed.

Lemma bi_dec_bwd_eq n : forall m inbase base iv iv2,
  bytes m -> (inbase + 16 * n <= length m)%nat -> (base + 16 * n <= length m)%nat ->
  (inbase = base \/ apart base (16 * n) inbase (16 * n)) ->
  clear base (16 * n) m iv -> clear base (16 * n) m iv2 ->
  bi_dec_bwd f n m inbase base iv iv2 =
    blit base (concat (rev (fst (fst
      (ige_dec f (rev (mblocks m inbase n)) (lread m iv 16) (lread m iv2 16)))))) m.
Proof.
  induction n as [|n IH]; intros m inbase base iv iv2 Hm Hi Ho Ha H1 H2.
  - cbn [mblocks rev ige_dec bi_dec_bwd fst concat]. by rewrite blit_nil.
  - rewrite mblocks_snoc, rev_app_distr. cbn [rev app ige_dec bi_dec_bwd].
    set (out := (base + 16 * n)%nat). set (inp := (inbase + 16 * n)%nat).
    assert (C1 : clear out 16 m iv) by (eapply clear_sub; [exact H1|unfold out; lia..]).
    assert (C2 : clear out 16 m iv2) by (eapply clear_sub; [exact H2|unfold out; lia..]).
    assert (Nin : nbytes 16 (mread m inp 16)) by (apply nbytes_mread; (done || unfold inp; lia)).
    pose proof (clear_read _ _ _ _ Hm C1) as N1. pose proof (clear_read _ _ _ _ Hm C2) as N2.
    rewrite (unmask_out f 1 16 m out); [|reflexivity|done|unfold out; lia|by apply nbytes_xor|done].
    pose proof (mask_ok f _ _ _ Nin N2 N1) as Hc.
    set (c := xor_bytes (f _) _) in *. pose proof Hc as [Lc Bc].
    pose proof (length_blit out c m ltac:(unfold out; lia)) as Lm.
    rewrite IH; [|by apply bytes_blit|lia|lia|unfold apart in *; lia|done
                 |cbn; rewrite Lm; unfold apart, out; lia].
    rewrite lread_local by done. cbn [lread]. rewrite mread_blit_16 by (done || unfold out; lia).
    rewrite mblocks_blit by (rewrite ?Lc; unfold apart, out in *; lia).
    destruct (blocks16_rev m inbase n Hm ltac:(lia)) as [Or Lr].
    rewrite !ige_dec_enc.
    pose proof (ige_enc_ok f (rev (mblocks m inbase n)) c (mread m inp 16) Or Hc Nin) as Hok.
    destruct (ige_enc f (rev (mblocks m inbase n)) c (mread m inp 16)) as [[cs a] b].
    destruct Hok as (Ocs & Lcs & _). cbn [fst]. apply blit_block_last; (done || lia).
Qed.
End bi_loops.

(** The reference for both directions: IGE forwards, then backwards. *)
Definition bi_ige (E : list Z -> list Z) (bs : list (list Z)) (v0 v1 v2 v3 : list Z) : list (list Z) :=
  rev (fst (fst (ige_enc E (rev (fst (fst (ige_enc E bs v0 v1)))) v2 v3))).

(** The four parts of the chaining value. *)
Definition iv_part (m : list Z) (ivec i : nat) : list Z := mread m (ivec + 16 * i) 16.

Lemma AES_bi_ige_encrypt_ref m inp out n key key2 ivec :
  BlockFn (fun b => AES_encrypt b key) ->
  layout m inp out n ivec 64 -> apart out (16 * n) inp (16 * n) ->
  let cs := bi_ige (fun b => AES_encrypt b key) (mblocks m inp n)
              (iv_part m ivec 0) (iv_part m ivec 1) (iv_part m ivec 2) (iv_part m ivec 3) in
  AES_bi_ige_encrypt m inp out (16 * n) key key2 ivec true = Ret (blit out (concat cs) m) /\
  blocks16 cs /\ length cs = n.
Proof.
  intros HE [Hm Hi Ho Hv Hio Hvi Hvo] Ha. unfold AES_bi_ige_encrypt, bi_ige. cbn zeta.
  replace (16 * n)%nat with (n * 16)%nat by lia. rewrite Nat.Div0.mod_mul, Nat.div_mul by lia.
  cbn [Nat.eqb negb].
  assert (Np : forall i, (i < 4)%nat -> nbytes 16 (iv_part m ivec i)).
  { intros i Hlt. apply nbytes_mread; [done|lia]. }
  rewrite (bi_enc_fwd_eq (fun b => AES_encrypt b key)) by
    (done || lia || (split; unfold apart in *; lia)).
  change (lread m (At ivec) 16) with (mread m ivec 16).
  change (lread m (At (ivec + 16)) 16) with (iv_part m ivec 1).
  replace (mread m ivec 16) with (iv_part m ivec 0)
    by (unfold iv_part; by rewrite Nat.mul_0_r, Nat.add_0_r).
  pose proof (ige_enc_ok (fun b => AES_encrypt b key) (mblocks m inp n) (iv_part m ivec 0) (iv_part m ivec 1)) as Hok.
  destruct (ige_enc _ (mblocks m inp n) _ _) as [[c1 a] b]. cbn [fst].
  destruct Hok as (O1 & L1 & _); [by apply blocks16_mblocks|apply Np; lia..|].
  rewrite length_mblocks in L1. pose proof (length_concat16 c1 O1) as Lc.
  assert (Lm : length (blit out (concat c1) m) = length m) by (apply length_blit; lia).
  assert (Bc : bytes (concat c1)).
  { apply bytes_concat. eapply Forall_impl; [exact O1|by intros ? [_ ?]]. }
  rewrite bi_enc_bwd_eq by
    (done || (by apply bytes_blit) || lia || (split; rewrite ?Lm; unfold apart in *; lia)).
  rewrite <- L1 at 1. rewrite mblocks_written by (done || lia). cbn [lread].
  rewrite !mread_blit_apart by (rewrite ?Lc; unfold apart in *; lia).
  change (mread m (ivec + 32) 16) with (iv_part m ivec 2).
  change (mread m (ivec + 48) 16) with (iv_part m ivec 3).
  pose proof (ige_enc_ok (fun b => AES_encrypt b key) (rev c1) (iv_part m ivec 2) (iv_part m ivec 3)) as Hok.
  destruct (ige_enc _ (rev c1) _ _) as [[c2 a2] b2]. cbn [fst].
  destruct Hok as (O2 & L2 & _); [by apply Forall_rev|apply Np; lia..|]. rewrite length_rev in L2.
  split; [|split; [by apply Forall_rev|rewrite length_rev; lia]].
  f_equal. apply blit_same; rewrite ?length_concat16, ?length_rev by (done || by apply Forall_rev); lia.
Qed.

Definition bi_ige_inv (D : list Z -> list Z) (cs : list (list Z)) (v0 v1 v2 v3 : list Z)
  : list (list Z) :=
  fst (fst (ige_dec D (rev (fst (fst (ige_dec D (rev cs) v2 v3)))) v0 v1)).

Lemma ige_dec_ok f `{!BlockFn f} cs iv iv2 :
  blocks16 cs -> nbytes 16 iv -> nbytes 16 iv2 ->
  blocks16 (fst (fst (ige_dec f cs iv iv2))) /\
  length (fst (fst (ige_dec f cs iv iv2))) = length cs.
Proof.
  intros Hc H1 H2. rewrite ige_dec_enc. pose proof (ige_enc_ok f cs iv2 iv Hc H2 H1) as H.
  destruct (ige_enc f cs iv2 iv) as [[bs a] b]. tauto.
Qed.

Lemma AES_bi_ige_decrypt_ref m inp out n key key2 ivec :
  BlockFn (fun b => AES_decrypt b key) -> layout m inp out n ivec 64 ->
  let bs := bi_ige_inv (fun b => AES_decrypt b key) (mblocks m inp n)
              (iv_part m ivec 0) (iv_part m ivec 1) (iv_part m ivec 2) (iv_part m ivec 3) in
  AES_bi_ige_encrypt m inp out (16 * n) key key2 ivec false = Ret (blit out (concat bs) m).
Proof.
  intros HD [Hm Hi Ho Hv Hio Hvi Hvo]. unfold AES_bi_ige_encrypt, bi_ige_inv. cbn zeta.
  replace (16 * n)%nat with (n * 16)%nat by lia. rewrite Nat.Div0.mod_mul, Nat.div_mul by lia.
  cbn [Nat.eqb negb].
  assert (Np : forall i, (i < 4)%nat -> nbytes 16 (iv_part m ivec i)).
  { intros i Hlt. apply nbytes_mread; [done|lia]. }
  rewrite (bi_dec_bwd_eq (fun b => AES_decrypt b key)) by
    (done || lia || (split; unfold apart in *; lia)). cbn [lread].
  change (mread m (ivec + 32) 16) with (iv_part m ivec 2).
  change (mread m (ivec + 48) 16) with (iv_part m ivec 3).
  destruct (blocks16_rev m inp n Hm Hi) as [Or Lr].
  destruct (ige_dec_ok (fun b => AES_decrypt b key) _ _ _ Or (Np 2%nat ltac:(lia)) (Np 3%nat ltac:(lia)))
    as [O1 L1].
  set (c1 := fst (fst (ige_dec _ (rev (mblocks m inp n)) _ _))) in *. rewrite Lr in L1.
  assert (O1' : blocks16 (rev c1)) by (by apply Forall_rev).
  assert (L1' : length (rev c1) = n) by (by rewrite length_rev).
  pose proof (length_concat16 _ O1') as Lc.
  assert (Lm : length (blit out (concat (rev c1)) m) = length m) by (apply length_blit; lia).
  assert (Bc : bytes (concat (rev c1))).
  { apply bytes_concat. eapply Forall_impl; [exact O1'|by intros ? [_ ?]]. }
  rewrite bi_dec_fwd_eq by
    (done || (by apply bytes_blit) || lia || (split; rewrite ?Lm; unfold apart in *; lia)).
  rewrite <- L1' at 1. rewrite mblocks_written by (done || lia). cbn [lread].
  rewrite !mread_blit_apart by (rewrite ?Lc; unfold apart in *; lia).
  change (mread m (ivec + 16) 16) with (iv_part m ivec 1).
  replace (mread m ivec 16) with (iv_part m ivec 0)
    by (unfold iv_part; by rewrite Nat.mul_0_r, Nat.add_0_r).
  destruct (ige_dec_ok (fun b => AES_decrypt b key) _ _ _ O1' (Np 0%nat ltac:(lia)) (Np 1%nat ltac:(lia)))
    as [O2 L2].
  f_equal. apply blit_same; rewrite ?(length_concat16 _ O2); lia.
Qed.

Lemma bi_ige_roundtrip E D `{!BlockCipher E D} bs v0 v1 v2 v3 :
  blocks16 bs -> nbytes 16 v0 -> nbytes 16 v1 -> nbytes 16 v2 -> nbytes 16 v3 ->
  bi_ige_inv D (bi_ige E bs v0 v1 v2 v3) v0 v1 v2 v3 = bs.
Proof.
  intros Hbs H0 H1 H2 H3. unfold bi_ige_inv, bi_ige. rewrite rev_involutive.
  pose proof (ige_roundtrip E D bs v0 v1 Hbs H0 H1) as R1.
  pose proof (ige_enc_ok E bs v0 v1 Hbs H0 H1) as K1.
  destruct (ige_enc E bs v0 v1) as [[c1 a] b]. destruct K1 as [O1 _]. cbn [fst].
  pose proof (ige_roundtrip E D (rev c1) v2 v3 ltac:(by apply Forall_rev) H2 H3) as R2.
  destruct (ige_enc E (rev c1) v2 v3) as [[c2 a2] b2]. cbn [fst].
  rewrite R2. cbn [fst]. by rewrite rev_involutive, R1.
Qed.

(** IGE in both directions.  From one buffer to another, with the
    schedules of any AES key, decrypting what AES_bi_ige_encrypt wrote, to
    another buffer or in place, gives the input back, whatever the second key. *)
Theorem AES_bi_ige_roundtrip Nk k ek dk k2 k2' m inp out back n ivec :
  aes_words Nk = true -> bytes k ->
  AES_set_encrypt_key (Some k) (32 * Z.of_nat Nk) = inr ek ->
  AES_set_decrypt_key (Some k) (32 * Z.of_nat Nk) = inr dk ->
  layout m inp out n ivec 64 -> apart out (16 * n) inp (16 * n) -> layout m out back n ivec 64 ->
  exists m1 m2,
    AES_bi_ige_encrypt m inp out (16 * n) ek k2 ivec true = Ret m1 /\
    AES_bi_ige_encrypt m1 out back (16 * n) dk k2' ivec false = Ret m2 /\
    mread m2 back (16 * n) = mread m inp (16 * n).
Proof.
  intros HN Hk He Hd L1 Ha L2. pose proof (keyed_cipher Nk k ek dk HN Hk He Hd) as HC.
  destruct (AES_bi_ige_encrypt_ref m inp out n ek k2 ivec _ L1 Ha) as (E1 & Ocs & Lcs).
  pose proof L1 as [Hm Hi Ho Hv Hio Hvi Hvo]. pose proof L2 as [_ _ Hb _ Hob _ Hvb].
  assert (Np : forall i, (i < 4)%nat -> nbytes 16 (iv_part m ivec i)).
  { intros i Hlt. apply nbytes_mread; [done|lia]. }
  pose proof (bi_ige_roundtrip (fun b => AES_encrypt b ek) (fun b => AES_decrypt b dk)
    (mblocks m inp n) _ _ _ _ (blocks16_mblocks m n inp Hm Hi) (Np 0%nat ltac:(lia))
    (Np 1%nat ltac:(lia)) (Np 2%nat ltac:(lia)) (Np 3%nat ltac:(lia))) as Hrt.
  set (cs := bi_ige _ _ _ _ _ _) in *. pose proof (length_concat16 cs Ocs) as Lc.
  eexists _. rewrite E1. set (m1 := blit out (concat cs) m).
  assert (Lm : length m1 = length m) by (apply length_blit; lia).
  assert (L3 : layout m1 out back n ivec 64).
  { split; rewrite ?Lm; try assumption. apply bytes_blit; [done|]. apply bytes_concat.
    eapply Forall_impl; [exact Ocs|by intros ? [_ ?]]. }
  rewrite (AES_bi_ige_decrypt_ref m1 out back n dk k2' ivec) by (apply _ || done).
  assert (Ep : forall i, (i < 4)%nat -> iv_part m1 ivec i = iv_part m ivec i).
  { intros i Hlt. apply mread_blit_apart; unfold apart in *; lia. }
  assert (Eb : mblocks m1 out n = cs).
  { unfold m1. rewrite <- Lcs. apply mblocks_written; (done || lia). }
  rewrite !Ep, Eb, Hrt by lia.
  eexists. split; [reflexivity|]. split; [reflexivity|].
  rewrite concat_mblocks. pose proof (length_mread m inp (16 * n) Hi) as Lr.
  rewrite <- Lr at 2. apply mread_blit_same. lia.
Qed.

Lemma AES_bi_ige_roundtrip_witness : exists m1 m2,
  AES_bi_ige_encrypt (seqZ 0 160) 0 32 32 sample_ek sample_dk 96 true = Ret m1 /\
  AES_bi_ige_encrypt m1 32 32 32 sample_dk sample_ek 96 false = Ret m2 /\
  mread m2 32 32 = mread (seqZ 0 160) 0 32.
Proof.
  apply (AES_bi_ige_roundtrip 4 (seqZ 0 16) sample_ek sample_dk sample_dk sample_ek
           (seqZ 0 160) 0 32 32 2 96);
    [reflexivity|solve_closed|vm_compute; reflexivity|vm_compute; reflexivity
    |solve_layout|unfold apart; lia|solve_layout].
Defined.

(** The guard of the previous property on the buffers is needed.  In
    place, AES_bi_ige_encrypt takes the block it has just written as the
    previous input block: for the key 00..0f, two blocks of text and the chaining
    value c0..ff it writes something else than from one buffer to another, and
    decryption does not give the text back. *)
Theorem AES_bi_ige_in_place_differs :
  exists m1 m2 m3 m4,
    let text := seqZ 0 32 in
    let m := text ++ replicate 32 0 ++ seqZ 192 64 in
    AES_bi_ige_encrypt m 0 32 32 sample_ek sample_ek 64 true = Ret m1 /\
    AES_bi_ige_encrypt m 0 0 32 sample_ek sample_ek 64 true = Ret m2 /\
    AES_bi_ige_encrypt m1 32 32 32 sample_dk sample_dk 64 false = Ret m3 /\
    AES_bi_ige_encrypt m2 0 0 32 sample_dk sample_dk 64 false = Ret m4 /\
    mread m1 32 32 <> mread m2 0 32 /\ mread m3 32 32 = text /\ mread m4 0 32 <> text.
Proof.
  eexists _, _, _, _. cbn zeta. do 4 (split; [vm_compute; reflexivity|]).
  split; [vm_compute; congruence|]. split; [vm_compute; reflexivity|vm_compute; congruence].
Qed.
