(* ===== verification/AesModes.v ===== *)
(** * AES in its modes (openssl crypto/aes/aes_cbc.c, aes_cfb.c, aes_ecb.c,
      aes_ofb.c, aes_wrap.c)

    The functions that put [AES_encrypt] and [AES_decrypt] in the place of the
    block function of a mode, and what the modes prove, for them. *)

From S2P Require Import Prelude Bytes Stream Cbc128 Cfb128 Ofb128 Wrap128 Aes AesCorrect AesKeys AesIge.

Definition AES_cbc_encrypt (small misaligned : bool) (inp : list Z) (len : nat) (key : AES_KEY)
    (ivec : list Z) (enc : bool) : list Z * list Z :=
  if enc then CRYPTO_cbc128_encrypt (fun b => AES_encrypt b key) small misaligned (take len inp) ivec
  else CRYPTO_cbc128_decrypt (fun b => AES_decrypt b key) small misaligned len inp ivec.

Definition AES_cfb128_encrypt (strict : bool) (inp : list Z) (key : AES_KEY) (ivec : list Z)
    (num : Z) (enc : bool) : list Z * (list Z * Z) :=
  CRYPTO_cfb128_encrypt (fun b => AES_encrypt b key) strict inp ivec num enc.

Definition AES_cfb1_encrypt (junk inp out : list Z) (length : nat) (key : AES_KEY) (ivec : list Z)
    (enc : bool) : list Z * list Z :=
  CRYPTO_cfb128_1_encrypt (fun b => AES_encrypt b key) junk inp length out ivec enc.

Definition AES_cfb8_encrypt (junk inp : list Z) (key : AES_KEY) (ivec : list Z) (enc : bool)
  : list Z * list Z :=
  CRYPTO_cfb128_8_encrypt (fun b => AES_encrypt b key) junk inp ivec enc.

Definition AES_ofb128_encrypt (strict : bool) (inp : list Z) (key : AES_KEY) (ivec : list Z) (num : Z)
  : list Z * (list Z * Z) :=
  CRYPTO_ofb128_encrypt (fun b => AES_encrypt b key) strict inp ivec num.

Definition AES_ecb_encrypt (inp : list Z) (key : AES_KEY) (enc : bool) : list Z :=
  if enc then AES_encrypt inp key else AES_decrypt inp key.

Definition AES_wrap_key (key : AES_KEY) (iv : option (list Z)) (inp : list Z) : Z * list Z :=
  CRYPTO_128_wrap (fun b => AES_encrypt b key) iv inp.

Definition AES_unwrap_key (key : AES_KEY) (iv : option (list Z)) (inp out : list Z)
  : outcome (Z * list Z) :=
  CRYPTO_128_unwrap (fun b => AES_decrypt b key) iv inp out.

(** ** Round trips with AES *)

Section aes.
Context (Nk : nat) (k : list Z) (ek dk : AES_KEY).
Context (HN : aes_words Nk = true) (Hk : bytes k).
Context (He : AES_set_encrypt_key (Some k) (32 * Z.of_nat Nk) = inr ek).
Context (Hd : AES_set_decrypt_key (Some k) (32 * Z.of_nat Nk) = inr dk).

#[local] Instance keys_cipher : BlockCipher (fun b => AES_encrypt b ek) (fun b => AES_decrypt b dk).
Proof. by apply (keyed_cipher Nk k). Qed.

(** AES-CBC and AES-ECB as a caller uses them: key setup, encryption and
    decryption with the schedules of the same key string of 128, 192 or 256
    bits give the text back, in every build. *)
Theorem AES_cbc_roundtrip small m small' m' inp iv :
  bytes inp -> nbytes 16 iv ->
  (let '(c, iv') := AES_cbc_encrypt small m inp (length inp) ek iv true in
   AES_cbc_encrypt small' m' c (length inp) dk iv false = (inp, iv')) /\
  AES_ecb_encrypt (AES_ecb_encrypt iv ek true) dk false = iv.
Proof.
  intros Hi Hiv. unfold AES_cbc_encrypt, AES_ecb_encrypt. rewrite take_ge by lia. split.
  - apply (cbc128_inverts (fun b => AES_encrypt b ek) (fun b => AES_decrypt b dk)); done.
  - exact (bc_inv iv Hiv).
Qed.

(** AES key wrapping as a caller uses it: AES_unwrap_key with the
    decryption schedule and the right initial value returns what AES_wrap_key
    wrapped, and with another initial value returns 0 and erases the output. *)
Theorem AES_wrap_key_roundtrip iv iv' inp out :
  bytes inp -> Z.of_nat (length inp) mod 8 = 0 ->
  16 <= Z.of_nat (length inp) <= CRYPTO128_WRAP_MAX ->
  nbytes 8 (default default_iv iv) -> nbytes 8 (default default_iv iv') ->
  (length inp <= length out)%nat ->
  let '(ret, c) := AES_wrap_key ek iv inp in
  ret = Z.of_nat (length c) /\
  AES_unwrap_key dk iv' c out =
    if decide (default default_iv iv = default default_iv iv')
    then Ret (Z.of_nat (length inp), inp ++ drop (length inp) out)
    else Ret (0, replicate (length inp) 0 ++ drop (length inp) out).
Proof.
  exact (unwrap_of_wrap (fun b => AES_encrypt b ek) (fun b => AES_decrypt b dk) iv iv' inp out).
Qed.

(** One call is the byte-at-a-time function. *)
Lemma cfb_one strict enc inp iv (n : nat) :
  bytes inp -> nbytes 16 iv -> (n < 16)%nat ->
  fst (AES_cfb128_encrypt strict inp ek iv (Z.of_nat n) enc) =
    fst (run (cfb_step (fun b => AES_encrypt b ek) enc) (iv, n) inp).
Proof.
  intros Hi Hiv Hn.
  pose proof (cfb_feed_run (fun b => AES_encrypt b ek) strict enc [inp] iv n Hiv Hn
    ltac:(by apply Forall_singleton)) as H.
  cbn [feed concat] in H. rewrite app_nil_r in H. rewrite <- H.
  unfold cfb_call, AES_cfb128_encrypt. cbn [fst snd].
  destruct (CRYPTO_cfb128_encrypt _ _ _ _ _ _) as [o st]. cbn [fst]. by rewrite app_nil_r.
Qed.

Lemma ofb_one strict inp iv (n : nat) :
  bytes inp -> nbytes 16 iv -> (n < 16)%nat ->
  fst (AES_ofb128_encrypt strict inp ek iv (Z.of_nat n)) =
    fst (run (ofb_step (fun b => AES_encrypt b ek)) (iv, n) inp).
Proof.
  intros Hi Hiv Hn.
  pose proof (ofb_feed_run (fun b => AES_encrypt b ek) strict [inp] iv n Hiv Hn
    ltac:(by apply Forall_singleton)) as H.
  cbn [feed concat] in H. rewrite app_nil_r in H. rewrite <- H.
  unfold ofb_call, AES_ofb128_encrypt. cbn [fst snd].
  destruct (CRYPTO_ofb128_encrypt _ _ _ _ _) as [o st]. cbn [fst]. by rewrite app_nil_r.
Qed.

(** the AES stream modes: what AES_cfb128_encrypt encrypted with the
    encryption schedule it decrypts with the same schedule, and AES_ofb128_encrypt
    is its own inverse, from any position in the block and in any two builds. *)
Theorem AES_stream_roundtrip strict strict' inp iv (n : nat) :
  bytes inp -> nbytes 16 iv -> (n < 16)%nat ->
  fst (AES_cfb128_encrypt strict' (fst (AES_cfb128_encrypt strict inp ek iv (Z.of_nat n) true))
         ek iv (Z.of_nat n) false) = inp /\
  fst (AES_ofb128_encrypt strict' (fst (AES_ofb128_encrypt strict inp ek iv (Z.of_nat n)))
         ek iv (Z.of_nat n)) = inp.
Proof.
  intros Hi Hiv Hn.
  assert (Hst : stream_ok (iv, n)) by done.
  assert (HB : BlockFn (fun b => AES_encrypt b ek)) by (exact bc_enc).
  rewrite (cfb_one strict), (ofb_one strict) by done.
  assert (Hout : forall (v : list Z) (j : nat) c, nbytes 16 v -> is_byte c ->
    is_byte (byte_at (if (j =? 0)%nat then AES_encrypt v ek else v) j) ).
  { intros v j c Hv _. apply (byte_at_is_byte 16).
    destruct (j =? 0)%nat; [exact (bc_enc v Hv)|exact Hv]. }
  rewrite cfb_one, ofb_one; [| |exact Hiv|exact Hn| |exact Hiv|exact Hn].
  split.
  - by rewrite (run_inverse stream_ok _ _ is_byte) by (assumption || by apply cfb_step_inverse).
  - by rewrite (run_inverse stream_ok _ _ is_byte) by (assumption || by apply ofb_step_inverse).
  - apply (run_outputs stream_ok _ is_byte is_byte); [|done|done]. intros st b Hs Hb.
    split; [by apply ofb_step_inverse|]. destruct st as [v j], Hs as [Hv _].
    apply is_byte_lxor; [exact Hb|exact (Hout v j b Hv Hb)].
  - apply (run_outputs stream_ok _ is_byte is_byte); [|done|done]. intros st b Hs Hb.
    split; [by apply cfb_step_inverse|]. destruct st as [v j], Hs as [Hv _].
    apply is_byte_lxor; [exact (Hout v j b Hv Hb)|exact Hb].
Qed.
End aes.

Lemma AES_cbc_roundtrip_witness :
  let c := AES_cbc_encrypt false false (seqZ 0 20) 20 sample_ek (seqZ 7 16) true in
  AES_cbc_encrypt true true (fst c) 20 sample_dk (seqZ 7 16) false = (seqZ 0 20, snd c) /\
  AES_ecb_encrypt (AES_ecb_encrypt (seqZ 7 16) sample_ek true) sample_dk false = seqZ 7 16.
Proof.
  destruct (AES_cbc_roundtrip 4 (seqZ 0 16) sample_ek sample_dk eq_refl ltac:(solve_closed)
    ltac:(vm_compute; reflexivity) ltac:(vm_compute; reflexivity) false false true true
    (seqZ 0 20) (seqZ 7 16) ltac:(solve_closed) ltac:(solve_closed)) as [H1 H2].
  cbn zeta. split; [|exact H2]. change 20%nat with (length (seqZ 0 20)) at 1 2.
  destruct (AES_cbc_encrypt false false _ _ sample_ek _ true) as [c iv']. exact H1.
Defined.

Lemma AES_wrap_key_roundtrip_witness :
  let w := AES_wrap_key sample_ek None (seqZ 0 16) in
  fst w = 24 /\ AES_unwrap_key sample_dk None (snd w) (replicate 20 0) = Ret (16, seqZ 0 16 ++ replicate 4 0).
Proof.
  pose proof (AES_wrap_key_roundtrip 4 (seqZ 0 16) sample_ek sample_dk eq_refl ltac:(solve_closed)
    ltac:(vm_compute; reflexivity) ltac:(vm_compute; reflexivity) None None (seqZ 0 16) (replicate 20 0)
    ltac:(solve_closed) eq_refl ltac:(vm_compute; split; congruence) ltac:(solve_closed)
    ltac:(solve_closed) ltac:(vm_compute; lia)) as H.
  cbn zeta. split; [vm_compute; reflexivity|].
  destruct (AES_wrap_key sample_ek None (seqZ 0 16)) as [r c]. destruct H as [_ H]. exact H.
Defined.

Lemma AES_stream_roundtrip_witness :
  fst (AES_cfb128_encrypt false (fst (AES_cfb128_encrypt true (seqZ 3 21) sample_ek (seqZ 7 16) 5 true))
         sample_ek (seqZ 7 16) 5 false) = seqZ 3 21 /\
  fst (AES_ofb128_encrypt false (fst (AES_ofb128_encrypt true (seqZ 3 21) sample_ek (seqZ 7 16) 5))
         sample_ek (seqZ 7 16) 5) = seqZ 3 21.
Proof.
  apply (AES_stream_roundtrip 4 (seqZ 0 16) sample_ek sample_dk eq_refl ltac:(solve_closed)
    ltac:(vm_compute; reflexivity) ltac:(vm_compute; reflexivity) true false (seqZ 3 21) (seqZ 7 16) 5);
    [solve_closed|solve_closed|lia].
Defined.
