(* ===== verification/Xts128.v ===== *)
(** * XTS (openssl crypto/modes/xts128.c)

    The tweakable mode for storage: every block is masked with a tweak that is
    doubled in GF(2^128) from block to block, and the last two blocks of a text
    that ends within a block are stolen from each other.  The doubling has a
    path on machine words, for little-endian machines, and one on bytes. *)

From S2P Require Import Prelude Bytes Stream Cbc128.

(** The doubling on two 64-bit words: [res] from the sign of the highest 32-bit
    word, [carry] from the lower word. *)
Definition xts_double_le (tweak : list Z) : list Z :=
  let u0 := word_get (take 8 tweak) in
  let u1 := word_get (take 8 (drop 8 tweak)) in
  let d3 := word_get (take 4 (drop 12 tweak)) in
  let res := Z.land 0x87 (Z.shiftr (s32 d3) 31) in
  let carry := u32 (Z.shiftr u0 63) in
  word_put 8 (Z.lxor (Z.shiftl u0 1 mod 2 ^ 64) res)
  ++ word_put 8 (Z.lor (Z.shiftl u1 1 mod 2 ^ 64) carry).

(** [for (c = 0, i = 0; i < 16; ++i)] of the byte path: the bytes and [c]. *)
Fixpoint double_bytes (l : list Z) (c : Z) : list Z * Z :=
  match l with
  | [] => ([], c)
  | b :: r =>
      let c := c + Z.shiftl b 1 in
      let '(r', c') := double_bytes r (Z.shiftr c 8) in
      (u8 c :: r', c')
  end.

Definition xts_double_be (tweak : list Z) : list Z :=
  let '(t, c) := double_bytes tweak 0 in
  <[0%nat := Z.lxor (byte_at t 0) (u8 (Z.land 0x87 ((0 - c) mod 2 ^ 64)))]> t.

Definition xts_double (le : bool) (tweak : list Z) : list Z :=
  if le then xts_double_le tweak else xts_double_be tweak.

Section xts.
Context (block1 block2 : list Z -> list Z) (le : bool).

(** [scratch = inp ^ tweak; block1; scratch ^= tweak] *)
Definition xts_block (tweak b : list Z) : list Z :=
  xor_words 2 (block1 (xor_words 2 b tweak)) tweak.

(** [while (len >= 16)]: [inl] is the return from within the loop; otherwise
    the output so far, what is left of [len] and [inp], the tweak and the
    scratch block. *)
Fixpoint xts_loop (fuel len : nat) (inp tweak scratch : list Z)
  : list Z + (list Z * nat * list Z * list Z * list Z) :=
  match fuel with
  | O => inr ([], len, inp, tweak, scratch)
  | S f =>
      if (16 <=? len)%nat then
        let scratch := xts_block tweak (take 16 inp) in
        let len := (len - 16)%nat in
        if (len =? 0)%nat then inl scratch
        else
          match xts_loop f len (drop 16 inp) (xts_double le tweak) scratch with
          | inl out => inl (scratch ++ out)
          | inr (out, len, inp, tweak, s) => inr (scratch ++ out, len, inp, tweak, s)
          end
      else inr ([], len, inp, tweak, scratch)
  end.

(** [CRYPTO_xts128_encrypt]: the returned status and the output; [scratch0] is
    what the uninitialised scratch block holds. *)
Definition CRYPTO_xts128_encrypt (scratch0 iv inp : list Z) (enc : bool) : Z * list Z :=
  let len := length inp in
  if (len <? 16)%nat then (-1, [])
  else
    let tweak := block2 iv in
    let len := if negb enc && negb (len mod 16 =? 0)%nat then (len - 16)%nat else len in
    match xts_loop len len inp tweak scratch0 with
    | inl out => (0, out)
    | inr (out, len, inp, tweak, scratch) =>
        if enc then
          let stolen := take len scratch in
          let scratch := take len inp ++ drop len scratch in
          (0, take (length out - 16) out ++ xts_block tweak scratch ++ stolen)
        else
          let tweak1 := xts_double le tweak in
          let scratch := xts_block tweak1 (take 16 inp) in
          let last := take len scratch in
          let scratch := take len (drop 16 inp) ++ drop len scratch in
          (0, out ++ xts_block tweak scratch ++ last)
    end.
End xts.

(** ** The doubling

    The reference: the block as a number, lowest byte first, times two, reduced
    by the polynomial of the field. *)
Definition gf128_double (x : Z) : Z :=
  if x <? 2 ^ 127 then 2 * x else Z.lxor (2 * x - 2 ^ 128) 0x87.

Lemma word_get_inj a b :
  bytes a -> bytes b -> length a = length b -> word_get a = word_get b -> a = b.
Proof.
  intros Ha. revert b. induction Ha as [|x a Hx Ha IH]; intros [|y b] Hb Hl E; try done.
  apply Forall_cons in Hb as [Hy Hb]. cbn [word_get length] in *. unfold is_byte in *.
  assert (x = y) as -> by lia. f_equal. apply IH; (done || lia).
Qed.

Lemma testbit_high n z i : 0 <= z < 2 ^ n -> n <= i -> Z.testbit z i = false.
Proof.
  intros [Hz0 Hz] Hi. destruct (Z.eq_dec z 0) as [->|]; [apply Z.bits_0|].
  apply Z.bits_above_log2; [done|]. apply Z.log2_lt_pow2; [lia|].
  eapply Z.lt_le_trans; [exact Hz|]. by apply Z.pow_le_mono_r.
Qed.

Lemma lxor_below n a c : 0 <= n -> 0 <= a < 2 ^ n -> 0 <= c < 2 ^ n -> Z.lxor a c < 2 ^ n.
Proof.
  intros Hn Ha Hc. destruct (Z.eq_dec (Z.lxor a c) 0) as [->|Hne]; [lia|].
  assert (Hx : 0 <= Z.lxor a c) by (apply Z.lxor_nonneg; lia).
  apply Z.log2_lt_pow2; [lia|]. destruct (Z.ltb_spec (Z.log2 (Z.lxor a c)) n); [done|].
  pose proof (Z.bit_log2 (Z.lxor a c)) as Hb. rewrite Z.lxor_spec, !(testbit_high n) in Hb by lia.
  discriminate Hb. lia.
Qed.

Lemma lxor_low n a b c :
  0 <= n -> 0 <= a < 2 ^ n -> 0 <= c < 2 ^ n ->
  Z.lxor (a + 2 ^ n * b) c = Z.lxor a c + 2 ^ n * b.
Proof.
  intros Hn Ha Hc. assert (H0 : 0 < 2 ^ n) by (apply Z.pow_pos_nonneg; lia).
  assert (Hbits : forall z w i, 0 <= z < 2 ^ n -> 0 <= i ->
    Z.testbit (z + 2 ^ n * w) i = if i <? n then Z.testbit z i else Z.testbit w (i - n)).
  { intros z w i Hz Hi. destruct (Z.ltb_spec i n).
    - rewrite <- (Z.mod_pow2_bits_low _ n) by lia.
      replace ((z + 2 ^ n * w) mod 2 ^ n) with z; [done|].
      rewrite (Z.mul_comm (2 ^ n)), Z_mod_plus_full. by rewrite Z.mod_small.
    - replace i with (i - n + n) at 1 by lia. rewrite <- Z.div_pow2_bits by lia.
      rewrite (Z.mul_comm (2 ^ n)), Z.div_add, Z.div_small by lia. by rewrite Z.add_0_l. }
  assert (Hx : 0 <= Z.lxor a c < 2 ^ n).
  { split; [apply Z.lxor_nonneg; lia|by apply lxor_below]. }
  apply Z.bits_inj'. intros i Hi. rewrite Z.lxor_spec, (Hbits a), (Hbits (Z.lxor a c)) by done.
  destruct (Z.ltb_spec i n); [by rewrite Z.lxor_spec|].
  rewrite (testbit_high n c) by lia. by rewrite xorb_false_r.
Qed.

(** A shifted word takes a carry bit. *)
Lemma lor_bit m c : 0 <= c <= 1 -> Z.lor (2 * m) c = 2 * m + c.
Proof.
  intros Hc. pose proof (Z.add_lor_land (2 * m) c) as H.
  assert (Z.land (2 * m) c = 0); [|lia].
  assert (c = 0 \/ c = 1) as [-> | ->] by lia; [apply Z.land_0_r|].
  change 1 with (Z.ones 1). rewrite Z.land_ones by lia. change (2 ^ 1) with 2.
  rewrite Z.mul_comm. apply Z_mod_mult.
Qed.

Lemma xts_double_le_spec t : nbytes 16 t ->
  nbytes 16 (xts_double_le t) /\ word_get (xts_double_le t) = gf128_double (word_get t).
Proof.
  intros [Hl Hb]. unfold xts_double_le.
  set (u0 := word_get (take 8 t)). set (u1 := word_get (take 8 (drop 8 t))).
  set (d3 := word_get (take 4 (drop 12 t))).
  assert (B0 : 0 <= u0 < 2 ^ 64).
  { pose proof (word_get_bounds _ (bytes_take 8 _ Hb)) as H. rewrite length_take, Hl in H. exact H. }
  assert (B1 : 0 <= u1 < 2 ^ 64).
  { pose proof (word_get_bounds _ (bytes_take 8 _ (bytes_drop 8 _ Hb))) as H.
    rewrite length_take, length_drop, Hl in H. exact H. }
  assert (B3 : 0 <= d3 < 2 ^ 32).
  { pose proof (word_get_bounds _ (bytes_take 4 _ (bytes_drop 12 _ Hb))) as H.
    rewrite length_take, length_drop, Hl in H. exact H. }
  assert (Ex : word_get t = u0 + 2 ^ 64 * u1).
  { rewrite <- (take_drop 8 t) at 1. rewrite word_get_app, length_take, Hl.
    change (256 ^ Z.of_nat (8 `min` 16)) with (2 ^ 64). do 2 f_equal. unfold u1.
    rewrite take_ge; [done|]. rewrite length_drop. lia. }
  assert (Ed : exists lo, 0 <= lo < 2 ^ 32 /\ u1 = lo + 2 ^ 32 * d3).
  { exists (word_get (take 4 (drop 8 t))). split.
    - pose proof (word_get_bounds _ (bytes_take 4 _ (bytes_drop 8 _ Hb))) as H.
      rewrite length_take, length_drop, Hl in H. exact H.
    - unfold u1, d3. rewrite <- (take_drop 4 (take 8 (drop 8 t))), word_get_app.
      rewrite !length_take, length_drop, Hl. rewrite take_take, skipn_firstn_comm, drop_drop. done. }
  split; [destruct (nbytes_word_put 8 (Z.lxor (Z.shiftl u0 1 mod 2 ^ 64)
      (Z.land 0x87 (Z.shiftr (s32 d3) 31)))) as [L1 W1],
    (nbytes_word_put 8 (Z.lor (Z.shiftl u1 1 mod 2 ^ 64) (u32 (Z.shiftr u0 63)))) as [L2 W2];
    split; [rewrite length_app; lia|by apply bytes_app]|].
  rewrite word_get_app, (proj1 (nbytes_word_put _ _)), !word_get_put.
  change (256 ^ Z.of_nat 8) with (2 ^ 64).
  rewrite !Z.shiftl_mul_pow2, !Z.shiftr_div_pow2 by lia. change (2 ^ 1) with 2.
  assert (Ec : u32 (u0 / 2 ^ 63) = u0 / 2 ^ 63) by (apply u32_small; Z.div_mod_to_equations; lia).
  assert (Eu : Z.lor ((u1 * 2) mod 2 ^ 64) (u0 / 2 ^ 63) = (u1 * 2) mod 2 ^ 64 + u0 / 2 ^ 63).
  { replace ((u1 * 2) mod 2 ^ 64) with (2 * (u1 mod 2 ^ 63)) by (Z.div_mod_to_equations; lia).
    apply lor_bit. Z.div_mod_to_equations; lia. }
  rewrite Ec, Eu, (Z.mod_small (_ + _)) by (Z.div_mod_to_equations; lia).
  destruct Ed as (lo & Hlo & Ed). unfold gf128_double. rewrite Ex.
  assert (Elow : forall r, 0 <= r < 2 ^ 64 -> 0 <= Z.lxor ((u0 * 2) mod 2 ^ 64) r < 2 ^ 64).
  { intros r Hr. pose proof (Z.mod_pos_bound (u0 * 2) (2 ^ 64)).
    split; [apply Z.lxor_nonneg; lia|]. apply lxor_below; lia. }
  assert (Es : Z.shiftr (s32 d3) 31 = if d3 <? 2 ^ 31 then 0 else -1).
  { rewrite Z.shiftr_div_pow2 by lia. unfold s32. rewrite (u32_small d3) by lia.
    destruct (Z.ltb_spec d3 (2 ^ 31)); Z.div_mod_to_equations; lia. }
  rewrite <- (Z.shiftr_div_pow2 (s32 d3)) by lia. rewrite Es.
  destruct (Z.ltb_spec d3 (2 ^ 31)); destruct (Z.ltb_spec (u0 + 2 ^ 64 * u1) (2 ^ 127)); try lia.
  - rewrite Z.land_0_r, Z.lxor_0_r, Z.mod_mod by lia. Z.div_mod_to_equations; lia.
  - rewrite Z.land_m1_r, (Z.mod_small (Z.lxor _ _)) by (apply Elow; lia).
    rewrite <- (lxor_low 64) by (try apply Z.mod_pos_bound; lia). f_equal.
    Z.div_mod_to_equations; lia.
Qed.

Lemma double_bytes_spec l : forall c, bytes l -> 0 <= c <= 1 ->
  let '(r, c') := double_bytes l c in
  nbytes (length l) r /\ 0 <= c' <= 1 /\
  word_get r + 256 ^ Z.of_nat (length l) * c' = 2 * word_get l + c.
Proof.
  induction l as [|b l IH]; intros c Hl Hc; cbn [double_bytes].
  - split_and!; [split; [done|apply Forall_nil_2]|lia..|]. change (256 ^ Z.of_nat (length [])) with 1.
    cbn [word_get]. lia.
  - apply Forall_cons in Hl as [Hb Hl]. unfold is_byte in Hb.
    rewrite Z.shiftl_mul_pow2, Z.shiftr_div_pow2 by lia. change (2 ^ 1) with 2. change (2 ^ 8) with 256.
    specialize (IH ((c + b * 2) / 256) Hl ltac:(Z.div_mod_to_equations; lia)).
    destruct (double_bytes l _) as [r c']. destruct IH as ((Lr & Br) & Hc' & E).
    split_and!; [|lia..|].
    + split; [cbn; by rewrite Lr|]. apply Forall_cons_2; [|done]. unfold is_byte, u8.
      apply Z.mod_pos_bound. lia.
    + cbn [word_get length]. rewrite Nat2Z.inj_succ, Z.pow_succ_r by lia.
      unfold u8. change (2 ^ 8) with 256. pose proof (Z.div_mod (c + b * 2) 256). lia.
Qed.

Lemma xts_double_be_spec t : nbytes 16 t ->
  nbytes 16 (xts_double_be t) /\ word_get (xts_double_be t) = gf128_double (word_get t).
Proof.
  intros [Hl Hb]. unfold xts_double_be. pose proof (double_bytes_spec t 0 Hb ltac:(lia)) as H.
  destruct (double_bytes t 0) as [r c]. destruct H as ((Lr & Br) & Hc & E). rewrite Hl in *.
  destruct r as [|b r]; [done|]. apply Forall_cons in Br as [Hb0 Br]. cbn [byte_at nth list_insert insert].
  assert (Ex : u8 (Z.land 0x87 ((0 - c) mod 2 ^ 64)) = if c =? 0 then 0 else 0x87).
  { assert (c = 0 \/ c = 1) as [-> | ->] by lia; reflexivity. }
  unfold byte_at. cbn [nth]. rewrite Ex.
  set (x := if c =? 0 then 0 else 0x87).
  assert (Hx : is_byte x) by (unfold x; destruct (c =? 0); unfold is_byte; lia).
  change (<[0%nat:=Z.lxor b x]> (b :: r)) with (Z.lxor b x :: r).
  split; [split; [done|apply Forall_cons_2; [by apply is_byte_lxor|done]]|].
  cbn [word_get]. change 256 with (2 ^ 8). rewrite <- lxor_low by (unfold is_byte in *; lia).
  change (2 ^ 8) with 256. change (256 ^ Z.of_nat 16) with (2 ^ 128) in E. cbn [word_get] in E.
  pose proof (word_get_bounds r Br) as Hr. apply (f_equal pred) in Lr. cbn in Lr. rewrite Lr in Hr.
  change (256 ^ Z.of_nat 15) with (2 ^ 120) in Hr. unfold is_byte in Hb0.
  unfold gf128_double, x. assert (c = 0 \/ c = 1) as [-> | ->] by lia; cbn [Z.eqb].
  - rewrite Z.lxor_0_r. destruct (Z.ltb_spec (word_get t) (2 ^ 127)); lia.
  - destruct (Z.ltb_spec (word_get t) (2 ^ 127)); [lia|]. f_equal. lia.
Qed.

(** Both paths double. *)
Lemma xts_double_ok le t : nbytes 16 t -> nbytes 16 (xts_double le t).
Proof. intros H. destruct le; [apply xts_double_le_spec|apply xts_double_be_spec]; done. Qed.

Lemma xts_double_endian le le' t : nbytes 16 t -> xts_double le t = xts_double le' t.
Proof.
  intros H. destruct (xts_double_le_spec t H) as [[L1 B1] E1], (xts_double_be_spec t H) as [[L2 B2] E2].
  assert (E : xts_double_le t = xts_double_be t) by (apply word_get_inj; congruence).
  by destruct le, le'; cbn.
Qed.

(** ** The blocks *)

(** [n] blocks, each with its tweak. *)
Fixpoint xts_full (block1 : list Z -> list Z) (n : nat) (inp tweak : list Z) : list Z :=
  match n with
  | O => []
  | S k => xts_block block1 tweak (take 16 inp)
           ++ xts_full block1 k (drop 16 inp) (xts_double true tweak)
  end.

Definition tweak_at (n : nat) (tweak : list Z) : list Z := Nat.iter n (xts_double true) tweak.

Lemma tweak_at_S n t : tweak_at n (xts_double true t) = tweak_at (S n) t.
Proof. unfold tweak_at. by rewrite Nat.iter_succ_r. Qed.

Lemma tweak_at_ok n t : nbytes 16 t -> nbytes 16 (tweak_at n t).
Proof. intros Ht. induction n as [|n IH]; [done|by apply (xts_double_ok true)]. Qed.

Section blocks.
Context (f : list Z -> list Z) `{!BlockFn f} (le : bool).

Lemma xts_block_eq t b : nbytes 16 t -> nbytes 16 b ->
  xts_block f t b = xor_bytes (f (xor_bytes b t)) t.
Proof.
  intros Ht Hb. unfold xts_block. rewrite (xor_words_16 b t) by done.
  apply xor_words_16; [by apply block_ok, nbytes_xor|done].
Qed.

Lemma xts_block_ok t b : nbytes 16 t -> nbytes 16 b -> nbytes 16 (xts_block f t b).
Proof.
  intros Ht Hb. rewrite xts_block_eq by done. apply nbytes_xor; [|done]. by apply block_ok, nbytes_xor.
Qed.

Lemma nbytes_take_of n l : bytes l -> (n <= length l)%nat -> nbytes n (take n l).
Proof. intros Hb Hl. split; [rewrite length_take; lia|by apply bytes_take]. Qed.

Lemma xts_full_ok n : forall inp t,
  bytes inp -> (16 * n <= length inp)%nat -> nbytes 16 t -> nbytes (16 * n) (xts_full f n inp t).
Proof.
  induction n as [|n IH]; intros inp t Hb Hl Ht; [split; [done|apply Forall_nil_2]|].
  cbn [xts_full]. destruct (xts_block_ok t (take 16 inp) Ht) as [L1 B1]; [apply nbytes_take_of; (done || lia)|].
  destruct (IH (drop 16 inp) (xts_double true t)) as [L2 B2];
    [by apply bytes_drop|rewrite length_drop; lia|by apply xts_double_ok|].
  split; [rewrite length_app; lia|by apply bytes_app].
Qed.

Lemma xts_full_snoc n : forall inp t,
  xts_full f (S n) inp t =
    xts_full f n inp t ++ xts_block f (tweak_at n t) (take 16 (drop (16 * n) inp)).
Proof.
  induction n as [|n IH]; intros inp t; [cbn [xts_full app]; by rewrite app_nil_r|].
  change (xts_full f (S (S n)) inp t) with
    (xts_block f t (take 16 inp) ++ xts_full f (S n) (drop 16 inp) (xts_double true t)).
  rewrite IH, tweak_at_S, drop_drop. cbn [xts_full]. rewrite <- app_assoc.
  by replace (16 + 16 * n)%nat with (16 * S n)%nat by lia.
Qed.

(** The loop on whole blocks returns from within. *)
Lemma xts_loop_whole n : forall fuel inp t s,
  (n < fuel)%nat -> nbytes 16 t ->
  xts_loop f le fuel (16 * S n) inp t s = inl (xts_full f (S n) inp t).
Proof.
  induction n as [|n IH]; intros [|fuel] inp t s Hf Ht; try lia; cbn [xts_loop].
  - cbn [Nat.mul Nat.add Nat.leb Nat.sub Nat.eqb xts_full]. by rewrite app_nil_r.
  - destruct (Nat.leb_spec 16 (16 * S (S n))); [|lia].
    replace (16 * S (S n) - 16)%nat with (16 * S n)%nat by lia.
    destruct (Nat.eqb_spec (16 * S n) 0); [lia|].
    rewrite IH by (lia || by apply xts_double_ok). by rewrite (xts_double_endian le true) by done.
Qed.

(** With a rest it leaves the rest, the next tweak and the last block. *)
Lemma xts_loop_rest n r : forall fuel inp t s,
  (n < fuel)%nat -> (0 < r < 16)%nat -> nbytes 16 t ->
  xts_loop f le fuel (16 * n + r) inp t s =
    inr (xts_full f n inp t, r, drop (16 * n) inp, tweak_at n t,
         match n with O => s | S k => xts_block f (tweak_at k t) (take 16 (drop (16 * k) inp)) end).
Proof.
  induction n as [|n IH]; intros [|fuel] inp t s Hf Hr Ht; try lia; cbn [xts_loop].
  - destruct (Nat.leb_spec 16 (16 * 0 + r)); [lia|]. done.
  - destruct (Nat.leb_spec 16 (16 * S n + r)); [|lia].
    replace (16 * S n + r - 16)%nat with (16 * n + r)%nat by lia.
    destruct (Nat.eqb_spec (16 * n + r) 0); [lia|].
    rewrite (xts_double_endian le true) by done. rewrite IH by (lia || by apply xts_double_ok).
    rewrite tweak_at_S, drop_drop. replace (16 + 16 * n)%nat with (16 * S n)%nat by lia.
    destruct n as [|k]; [done|]. rewrite tweak_at_S, drop_drop.
    by replace (16 + 16 * k)%nat with (16 * S k)%nat by lia.
Qed.
End blocks.

(** ** Round trip *)

Section xts_roundtrip.
Context (enc dec : list Z -> list Z) `{!BlockCipher enc dec}.
Context (block2 : list Z -> list Z) `{!BlockFn block2}.

Lemma xts_block_inverse t b : nbytes 16 t -> nbytes 16 b ->
  xts_block dec t (xts_block enc t b) = b.
Proof.
  intros Ht Hb. rewrite (xts_block_eq dec) by (done || by apply (xts_block_ok enc)).
  rewrite (xts_block_eq enc) by done. pose proof (nbytes_xor _ _ _ Hb Ht) as Hx.
  destruct (bc_enc _ Hx) as [Ly By]. rewrite xor_bytes_cancel by (rewrite Ly, (proj1 Ht); lia).
  rewrite (bc_inv _ Hx). apply xor_bytes_cancel. rewrite (proj1 Hb), (proj1 Ht). lia.
Qed.

Lemma xts_full_inverse n : forall inp t suf,
  bytes inp -> (16 * n <= length inp)%nat -> nbytes 16 t ->
  xts_full dec n (xts_full enc n inp t ++ suf) t = take (16 * n) inp.
Proof.
  induction n as [|n IH]; intros inp t suf Hb Hl Ht; [done|]. cbn [xts_full].
  assert (Hk : nbytes 16 (take 16 inp)) by (apply nbytes_take_of; (done || lia)).
  destruct (xts_block_ok enc t _ Ht Hk) as [Lx _].
  rewrite <- app_assoc, take_app_le, (take_ge (xts_block _ _ _)) by lia.
  rewrite drop_app_ge, Lx, Nat.sub_diag, drop_0 by lia.
  rewrite xts_block_inverse, IH by
    (done || by apply bytes_drop || (rewrite length_drop; lia) || by apply xts_double_ok).
  replace (16 * S n)%nat with (16 + 16 * n)%nat by lia. by rewrite take_take_drop.
Qed.

(** A text in whole blocks, and one that ends within a block. *)
Lemma xts_whole le le' s s' iv inp n :
  nbytes 16 iv -> nbytes (16 * S n) inp ->
  exists c, CRYPTO_xts128_encrypt enc block2 le s iv inp true = (0, c) /\
    length c = length inp /\
    CRYPTO_xts128_encrypt dec block2 le' s' iv c false = (0, inp).
Proof.
  intros Hiv [Hl Hb]. pose proof (block_ok iv Hiv) as Ht.
  exists (xts_full enc (S n) inp (block2 iv)).
  destruct (xts_full_ok enc (S n) inp (block2 iv) Hb ltac:(lia) Ht) as [Lc Bc].
  assert (Hm : ((16 * S n) mod 16 = 0)%nat) by (rewrite Nat.mul_comm; apply Nat.Div0.mod_mul).
  unfold CRYPTO_xts128_encrypt. rewrite Lc, Hl, Hm.
  destruct (Nat.ltb_spec (16 * S n) 16); [lia|]. cbn [negb andb Nat.eqb].
  rewrite !xts_loop_whole by (done || lia). split_and!; [done|done|].
  rewrite <- (app_nil_r (xts_full enc _ _ _)), xts_full_inverse by (done || lia).
  rewrite take_ge by lia. done.
Qed.

Lemma xts_stolen le le' s s' iv inp n r :
  nbytes 16 iv -> nbytes (16 * S n + r) inp -> (0 < r < 16)%nat ->
  exists c, CRYPTO_xts128_encrypt enc block2 le s iv inp true = (0, c) /\
    length c = length inp /\
    CRYPTO_xts128_encrypt dec block2 le' s' iv c false = (0, inp).
Proof.
  intros Hiv [Hl Hb] Hr. pose proof (block_ok iv Hiv) as Ht. set (t := block2 iv) in *.
  set (P := take 16 (drop (16 * n) inp)). set (Pr := drop (16 * S n) inp).
  assert (HP : nbytes 16 P).
  { apply nbytes_take_of; [by apply bytes_drop|rewrite length_drop; lia]. }
  assert (HPr : nbytes r Pr).
  { split; [unfold Pr; rewrite length_drop; lia|by apply bytes_drop]. }
  set (tn := tweak_at n t). set (tn1 := tweak_at (S n) t).
  assert (Htn : nbytes 16 tn) by (by apply tweak_at_ok).
  assert (Htn1 : nbytes 16 tn1) by (by apply tweak_at_ok).
  set (CC := xts_block enc tn P). destruct (xts_block_ok enc tn P Htn HP) as [LC BC]. fold CC in LC, BC.
  set (X := xts_full enc n inp t).
  destruct (xts_full_ok enc n inp t Hb ltac:(lia) Ht) as [LX BX]. fold X in LX, BX.
  set (S1 := Pr ++ drop r CC).
  assert (HS1 : nbytes 16 S1).
  { destruct HPr. split; [unfold S1; rewrite length_app, length_drop; lia|].
    apply bytes_app. split; [done|by apply bytes_drop]. }
  set (C1 := xts_block enc tn1 S1). destruct (xts_block_ok enc tn1 S1 Htn1 HS1) as [L1 B1]. fold C1 in L1, B1.
  exists (X ++ C1 ++ take r CC).
  assert (Lc : length (X ++ C1 ++ take r CC) = (16 * S n + r)%nat).
  { rewrite !length_app, length_take. lia. }
  assert (Hm : ((16 * S n + r) mod 16 = r)%nat).
  { rewrite Nat.mul_comm, Nat.add_comm, Nat.Div0.mod_add. apply Nat.mod_small. lia. }
  unfold CRYPTO_xts128_encrypt. rewrite Lc, Hl, Hm. fold t.
  destruct (Nat.ltb_spec (16 * S n + r) 16); [lia|].
  destruct (Nat.eqb_spec r 0); [lia|]. cbn [negb andb]. split_and!; [|done|].
  - rewrite xts_loop_rest by (done || lia). rewrite xts_full_snoc. fold X tn P CC tn1 Pr.
    rewrite length_app, LX, LC. replace (16 * n + 16 - 16)%nat with (length X) by lia.
    rewrite take_app_length. rewrite (take_ge Pr) by (destruct HPr; lia). done.
  - replace (16 * S n + r - 16)%nat with (16 * n + r)%nat by lia.
    rewrite xts_loop_rest by (done || lia). fold tn.
    unfold X at 1. rewrite xts_full_inverse by (done || lia).
    rewrite <- LX, drop_app_length.
    rewrite (xts_double_endian le' true) by done. change (xts_double true tn) with tn1.
    rewrite take_app_le, (take_ge C1), drop_app_ge, L1, Nat.sub_diag, drop_0 by lia.
    unfold C1. rewrite xts_block_inverse by done. unfold S1.
    destruct HPr as [LPr _]. rewrite take_app_le, (take_ge Pr) by lia.
    rewrite drop_app_ge, LPr, Nat.sub_diag, drop_0 by lia. rewrite take_take, Nat.min_id, take_drop.
    unfold CC. rewrite xts_block_inverse by done. f_equal.
    unfold P, Pr. replace (16 * S n)%nat with (16 * n + 16)%nat by lia.
    rewrite <- drop_drop, take_drop, LX. apply take_drop.
Qed.

(** XTS: a text shorter than one block is refused with -1 by both
    directions; every longer text, with ciphertext stealing where it ends
    within a block, is encrypted to as many bytes and comes back from
    decryption, also when one side runs the word-wise doubling of little-endian
    machines and the other the byte-wise one. *)
Theorem xts128_roundtrip le le' s s' iv inp :
  nbytes 16 iv -> bytes inp ->
  if (length inp <? 16)%nat then
    CRYPTO_xts128_encrypt enc block2 le s iv inp true = (-1, []) /\
    CRYPTO_xts128_encrypt dec block2 le s iv inp false = (-1, [])
  else
    exists c, CRYPTO_xts128_encrypt enc block2 le s iv inp true = (0, c) /\
      length c = length inp /\
      CRYPTO_xts128_encrypt dec block2 le' s' iv c false = (0, inp).
Proof.
  intros Hiv Hb. destruct (Nat.ltb_spec (length inp) 16) as [Hlt|Hge].
  { unfold CRYPTO_xts128_encrypt. by destruct (Nat.ltb_spec (length inp) 16); [|lia]. }
  pose proof (Nat.div_mod (length inp) 16 ltac:(lia)) as Hd.
  pose proof (Nat.mod_upper_bound (length inp) 16 ltac:(lia)) as Hr.
  assert (Hn : exists n, (length inp / 16 = S n)%nat).
  { exists (length inp / 16 - 1)%nat. lia. }
  destruct Hn as [n Hn]. rewrite Hn in Hd.
  destruct (Nat.eq_dec ((length inp mod 16)%nat) 0%nat) as [E|E].
  - apply (xts_whole le le' s s' iv inp n Hiv). split; [lia|done].
  - apply (xts_stolen le le' s s' iv inp n (length inp mod 16)%nat Hiv); [split; [lia|done]|lia].
Qed.
End xts_roundtrip.

(** the tweak of the next block: on every 16 bytes, the word-wise path of
    little-endian machines, which takes the carries from a sign and a shift,
    and the byte-wise path both compute the double in GF(2^128) of the block as
    a number, lowest byte first. *)
Theorem xts_double_is_gf128 le t :
  nbytes 16 t ->
  nbytes 16 (xts_double le t) /\ word_get (xts_double le t) = gf128_double (word_get t).
Proof. destruct le; [apply xts_double_le_spec|apply xts_double_be_spec]. Qed.

Lemma xts128_roundtrip_witness : exists c,
  CRYPTO_xts128_encrypt toy_enc toy_enc true [] (seqZ 1 16) (seqZ 30 41) true = (0, c) /\
  length c = 41%nat /\
  CRYPTO_xts128_encrypt toy_dec toy_enc false [] (seqZ 1 16) c false = (0, seqZ 30 41).
Proof.
  exact (xts128_roundtrip toy_enc toy_dec toy_enc true false [] [] (seqZ 1 16) (seqZ 30 41)
    ltac:(solve_closed) ltac:(solve_closed)).
Defined.

Lemma xts_double_is_gf128_witness :
  nbytes 16 (xts_double true (seqZ 200 16)) /\
  word_get (xts_double false (seqZ 200 16)) = gf128_double (word_get (seqZ 200 16)).
Proof.
  split; [apply (xts_double_is_gf128 true)|apply (xts_double_is_gf128 false)]; solve_closed.
Defined.
