(* ===== verification/Ccm128.v ===== *)
(** * Counter with CBC-MAC (openssl crypto/modes/ccm128.c)

    The authenticated mode: a context is set up with the parameters M and L,
    takes a nonce and the length of the message, optional associated data, and
    then encrypts or decrypts the message and yields a tag. *)

From S2P Require Import Prelude Bytes Stream Cbc128.

(** [CCM128_CONTEXT]: the block function is a parameter of the operations. *)
Record CCM128_CONTEXT := mkCcm { nonce : list Z; cmac : list Z; blocks : Z }.

(** [a[i + k] ^= v[k]] for every index of [v]. *)
Definition xor_at (i : nat) (v a : list Z) : list Z :=
  blit i (xor_bytes (take (length v) (drop i a)) v) a.

(** [CRYPTO_ccm128_init]; [raw] is the memory of the context before. *)
Definition CRYPTO_ccm128_init (raw : CCM128_CONTEXT) (M L : Z) : CCM128_CONTEXT :=
  mkCcm (Z.lor (Z.land (u8 (u32 (L - 1))) 7) (Z.shiftl (u8 (Z.land (u32 (M - 2) / 2) 7)) 3)
           :: replicate 15 0) (cmac raw) 0.

(** The stored [L] parameter, one less than the length of the counter field. *)
Definition ccm_L (c : list Z) : nat := Z.to_nat (Z.land (byte_at c 0) 7).

(** [CRYPTO_ccm128_setiv] *)
Definition CRYPTO_ccm128_setiv (ctx : CCM128_CONTEXT) (iv : list Z) (mlen : Z)
  : Z * CCM128_CONTEXT :=
  let L := ccm_L (nonce ctx) in
  if (length iv <? 14 - L)%nat then (-1, ctx)
  else
    let b k := u8 (Z.shiftr mlen k) in
    let c := nonce ctx in
    let c := if (3 <=? L)%nat then blit 8 [b 56; b 48; b 40; b 32] c else blit 8 (replicate 8 0) c in
    let c := blit 12 [b 24; b 16; b 8; u8 mlen] c in
    let c := <[0%nat := Z.land (byte_at c 0) (Z.lnot 0x40)]> c in
    (0, mkCcm (blit 1 (take (14 - L) iv) c) (cmac ctx) (blocks ctx)).

(** [ctr64_inc]: the loop over the last eight bytes, from [n] down. *)
Fixpoint inc64 (n : nat) (c : list Z) : list Z :=
  match n with
  | O => c
  | S k =>
      let b := u8 (byte_at c k + 1) in
      let c := <[k := b]> c in
      if b =? 0 then inc64 k c else c
  end.

Definition ctr64_inc (counter : list Z) : list Z := take 8 counter ++ inc64 8 (drop 8 counter).

(** [ctr64_add] *)
Fixpoint add64 (n : nat) (c : list Z) (val inc : Z) : list Z :=
  match n with
  | O => c
  | S k =>
      let val := u64 (val + (byte_at c k + Z.land inc 0xff)) in
      let c := <[k := u8 val]> c in
      let val := Z.shiftr val 8 in
      let inc := Z.shiftr inc 8 in
      if (inc =? 0) && (val =? 0) then c else add64 k c val inc
  end.

Definition ctr64_add (counter : list Z) (inc : Z) : list Z :=
  take 8 counter ++ add64 8 (drop 8 counter) 0 inc.

(** [for (n = 0, i = 15 - L; i < 15; ++i)]: the length the nonce holds. *)
Fixpoint read_length (left i : nat) (n : Z) (c : list Z) : Z :=
  match left with
  | O => Z.lor n (byte_at c 15)
  | S k => read_length k (S i) (u64 (Z.shiftl (Z.lor n (byte_at c i)) 8)) c
  end.

Section ccm.
Context (block : list Z -> list Z).

(** The [do ... while (alen)] loop of [CRYPTO_ccm128_aad], with [fuel] turns. *)
Fixpoint aad_loop (fuel i : nat) (aad : list Z) (c : list Z) (blocks : Z) : list Z * Z :=
  match fuel with
  | O => (c, blocks)
  | S f =>
      let n := Nat.min (16 - i) (length aad) in
      let c := block (xor_at i (take n aad) c) in
      let blocks := u64 (blocks + 1) in
      let aad := drop n aad in
      if (length aad =? 0)%nat then (c, blocks) else aad_loop f 0 aad c blocks
  end.

(** The length of the associated data as the first bytes of its blocks. *)
Definition aad_prefix (alen : Z) : list Z :=
  let b k := u8 (Z.shiftr alen k) in
  if alen <? 0x10000 - 0x100 then [b 8; u8 alen]
  else if Z.shiftl 1 32 <=? alen then
    [0xFF; 0xFF; b 56; b 48; b 40; b 32; b 24; b 16; b 8; u8 alen]
  else [0xFF; 0xFE; b 24; b 16; b 8; u8 alen].

Definition CRYPTO_ccm128_aad (ctx : CCM128_CONTEXT) (aad : list Z) : CCM128_CONTEXT :=
  if (length aad =? 0)%nat then ctx
  else
    let n := <[0%nat := Z.lor (byte_at (nonce ctx) 0) 0x40]> (nonce ctx) in
    let c := block n in
    let blocks := u64 (blocks ctx + 1) in
    let p := aad_prefix (Z.of_nat (length aad)) in
    let '(c, blocks) := aad_loop (length aad) (length p) aad (xor_at 0 p c) blocks in
    mkCcm n c blocks.

(** What encryption and decryption begin with: the MAC of the nonce when there
    was no associated data, the length in the nonce, and the nonce as the first
    counter block. *)
Definition first_mac (ctx : CCM128_CONTEXT) : list Z :=
  if Z.land (byte_at (nonce ctx) 0) 0x40 =? 0 then block (nonce ctx) else cmac ctx.

Definition first_counter (c : list Z) : list Z :=
  let L := ccm_L c in
  <[15%nat := 1]> (blit (15 - L) (replicate L 0) (<[0%nat := Z.of_nat L]> c)).

(** The whole blocks, encrypting: the output, the counter and the MAC. *)
Fixpoint ccm_enc_loop (n : nat) (inp ctr mac : list Z) : list Z * list Z * list Z :=
  match n with
  | O => ([], ctr, mac)
  | S k =>
      let b := take 16 inp in
      let mac := block (xor_words 2 mac b) in
      let scratch := block ctr in
      let '(out, ctr', mac') := ccm_enc_loop k (drop 16 inp) (ctr64_inc ctr) mac in
      (xor_words 2 scratch b ++ out, ctr', mac')
  end.

(** The same, decrypting: the MAC takes up the plaintext. *)
Fixpoint ccm_dec_loop (n : nat) (inp ctr mac : list Z) : list Z * list Z * list Z :=
  match n with
  | O => ([], ctr, mac)
  | S k =>
      let scratch := xor_words 2 (block ctr) (take 16 inp) in
      let mac := block (xor_words 2 mac scratch) in
      let '(out, ctr', mac') := ccm_dec_loop k (drop 16 inp) (ctr64_inc ctr) mac in
      (scratch ++ out, ctr', mac')
  end.

(** The rest of the message, shorter than a block. *)
Definition ccm_enc_tail (inp ctr mac : list Z) : list Z * list Z :=
  if (length inp =? 0)%nat then ([], mac)
  else (xor_bytes (take (length inp) (block ctr)) inp, block (xor_at 0 inp mac)).

Definition ccm_dec_tail (inp ctr mac : list Z) : list Z * list Z :=
  if (length inp =? 0)%nat then ([], mac)
  else
    let out := xor_bytes (take (length inp) (block ctr)) inp in
    (out, block (xor_at 0 out mac)).

(** The end: the MAC masked with the block of counter zero, the flags back. *)
Definition finish (flags0 : Z) (ctr mac : list Z) (blocks : Z) : CCM128_CONTEXT :=
  let L := Z.to_nat (Z.land flags0 7) in
  let c := blit (15 - L) (replicate (L + 1) 0) ctr in
  mkCcm (<[0%nat := flags0]> c) (xor_words 2 mac (block c)) blocks.

Definition CRYPTO_ccm128_encrypt (ctx : CCM128_CONTEXT) (inp : list Z)
  : Z * list Z * CCM128_CONTEXT :=
  let flags0 := byte_at (nonce ctx) 0 in
  let mac := first_mac ctx in
  let blocks := if Z.land flags0 0x40 =? 0 then u64 (blocks ctx + 1) else blocks ctx in
  let L := ccm_L (nonce ctx) in
  let n := read_length L (15 - L) 0 (nonce ctx) in
  let ctr := first_counter (nonce ctx) in
  let len := Z.of_nat (length inp) in
  if negb (n =? len) then (-1, [], mkCcm ctr mac blocks)
  else
    let blocks := u64 (blocks + Z.lor (Z.shiftr (u64 (len + 15)) 3) 1) in
    if Z.shiftl 1 61 <? blocks then (-2, [], mkCcm ctr mac blocks)
    else
      let k := (length inp / 16)%nat in
      let '(out, ctr, mac) := ccm_enc_loop k inp ctr mac in
      let '(out', mac) := ccm_enc_tail (drop (16 * k) inp) ctr mac in
      (0, out ++ out', finish flags0 ctr mac blocks).

Definition CRYPTO_ccm128_decrypt (ctx : CCM128_CONTEXT) (inp : list Z)
  : Z * list Z * CCM128_CONTEXT :=
  let flags0 := byte_at (nonce ctx) 0 in
  let mac := first_mac ctx in
  let L := ccm_L (nonce ctx) in
  let n := read_length L (15 - L) 0 (nonce ctx) in
  let ctr := first_counter (nonce ctx) in
  if negb (n =? Z.of_nat (length inp)) then (-1, [], mkCcm ctr mac (blocks ctx))
  else
    let k := (length inp / 16)%nat in
    let '(out, ctr, mac) := ccm_dec_loop k inp ctr mac in
    let '(out', mac) := ccm_dec_tail (drop (16 * k) inp) ctr mac in
    (0, out ++ out', finish flags0 ctr mac (blocks ctx)).

(** The variants over a function [stream] that processes whole blocks: from
    the input, the counter and the MAC it computes the output and the MAC, and
    leaves the counter to the caller. *)
Section ccm64.
Context (stream : list Z -> nat -> list Z -> list Z -> list Z * list Z).

Definition ccm64_blocks (inp ctr mac : list Z) : list Z * list Z * list Z :=
  let n := (length inp / 16)%nat in
  if (n =? 0)%nat then ([], ctr, mac)
  else
    let '(out, mac) := stream inp n ctr mac in
    (out, if (length inp - 16 * n =? 0)%nat then ctr else ctr64_add ctr (Z.of_nat n), mac).

Definition CRYPTO_ccm128_encrypt_ccm64 (ctx : CCM128_CONTEXT) (inp : list Z)
  : Z * list Z * CCM128_CONTEXT :=
  let flags0 := byte_at (nonce ctx) 0 in
  let mac := first_mac ctx in
  let blocks := if Z.land flags0 0x40 =? 0 then u64 (blocks ctx + 1) else blocks ctx in
  let L := ccm_L (nonce ctx) in
  let n := read_length L (15 - L) 0 (nonce ctx) in
  let ctr := first_counter (nonce ctx) in
  let len := Z.of_nat (length inp) in
  if negb (n =? len) then (-1, [], mkCcm ctr mac blocks)
  else
    let blocks := u64 (blocks + Z.lor (Z.shiftr (u64 (len + 15)) 3) 1) in
    if Z.shiftl 1 61 <? blocks then (-2, [], mkCcm ctr mac blocks)
    else
      let '(out, ctr, mac) := ccm64_blocks inp ctr mac in
      let '(out', mac) := ccm_enc_tail (drop (16 * (length inp / 16)) inp) ctr mac in
      (0, out ++ out', finish flags0 ctr mac blocks).

Definition CRYPTO_ccm128_decrypt_ccm64 (ctx : CCM128_CONTEXT) (inp : list Z)
  : Z * list Z * CCM128_CONTEXT :=
  let flags0 := byte_at (nonce ctx) 0 in
  let mac := first_mac ctx in
  let L := ccm_L (nonce ctx) in
  let n := read_length L (15 - L) 0 (nonce ctx) in
  let ctr := first_counter (nonce ctx) in
  if negb (n =? Z.of_nat (length inp)) then (-1, [], mkCcm ctr mac (blocks ctx))
  else
    let '(out, ctr, mac) := ccm64_blocks inp ctr mac in
    let '(out', mac) := ccm_dec_tail (drop (16 * (length inp / 16)) inp) ctr mac in
    (0, out ++ out', finish flags0 ctr mac (blocks ctx)).
End ccm64.
End ccm.

(** [CRYPTO_ccm128_tag]: the length returned and the tag. *)
Definition CRYPTO_ccm128_tag (ctx : CCM128_CONTEXT) (len : Z) : Z * list Z :=
  let M := Z.land (Z.shiftr (byte_at (nonce ctx) 0) 3) 7 * 2 + 2 in
  if negb (len =? M) then (0, []) else (M, take (Z.to_nat M) (cmac ctx)).

(** ** Big-endian fields *)

Lemma be_put_drop k : forall n z, drop k (be_put (k + n) z) = be_put n z.
Proof.
  intros n. induction n as [|n IH]; intros z.
  - rewrite Nat.add_0_r. destruct (nbytes_be_put k z) as [Hl _]. apply drop_ge. lia.
  - rewrite Nat.add_succ_r. cbn [be_put]. destruct (nbytes_be_put (k + n) (z / 256)) as [Hl _].
    rewrite drop_app_le by lia. by rewrite IH.
Qed.

Lemma be_put_0 n : be_put n 0 = replicate n 0.
Proof.
  induction n as [|n IH]; [done|]. cbn [be_put]. change (0 / 256) with 0. rewrite IH.
  change [0 mod 256] with (replicate 1 0). rewrite <- replicate_add. f_equal. lia.
Qed.

Lemma be_put_1 n : be_put (S n) 1 = replicate n 0 ++ [1].
Proof. cbn [be_put]. change (1 / 256) with 0. by rewrite be_put_0. Qed.

Lemma length_be_put n z : length (be_put n z) = n.
Proof. apply nbytes_be_put. Qed.

(** The bytes the code shifts out. *)
Lemma be_put_8 z :
  be_put 8 z = map (fun k => u8 (Z.shiftr z k)) [56; 48; 40; 32; 24; 16; 8] ++ [u8 z].
Proof.
  cbn [be_put map app]. unfold u8. rewrite !Z.shiftr_div_pow2, !Z.div_div by lia. reflexivity.
Qed.

(** A byte added below a multiple of 256. *)
Lemma lor_byte m b : is_byte b -> Z.lor (256 * m) b = 256 * m + b.
Proof.
  intros Hb. pose proof (Z.add_lor_land (256 * m) b) as H.
  assert (Z.land (256 * m) b = 0); [|lia].
  replace b with (Z.land b (Z.ones 8)) by (rewrite Z.land_ones by lia; by apply Z.mod_small).
  rewrite (Z.land_comm b), Z.land_assoc, Z.land_ones by lia. change (2 ^ 8) with 256.
  rewrite Z.mul_comm, Z_mod_mult. apply Z.land_0_l.
Qed.

Lemma be_get_cons b l : be_get (b :: l) = b * 256 ^ Z.of_nat (length l) + be_get l.
Proof. unfold be_get at 1. cbn [be_get_acc]. by rewrite be_get_acc_eq. Qed.

(** The length read back from the nonce. *)
Lemma read_length_spec c k : forall i m j,
  nbytes 16 c -> (i + k = 15)%nat -> (j + k = 7)%nat -> 0 <= m < 256 ^ Z.of_nat j ->
  read_length k i (256 * m) c = 256 * m * 256 ^ Z.of_nat k + be_get (drop i c).
Proof.
  induction k as [|k IH]; intros i m j Hc Hi Hj Hm.
  - cbn [read_length]. replace i with 15%nat by lia.
    rewrite lor_byte by (by apply (byte_at_is_byte 16)).
    rewrite (drop_byte_at c 15), drop_ge by (destruct Hc; lia). change (256 ^ Z.of_nat 0) with 1.
    unfold be_get. cbn [be_get_acc]. lia.
  - pose proof (byte_at_is_byte 16 c i Hc) as Hb. cbn [read_length]. rewrite lor_byte by done.
    unfold is_byte in Hb. rewrite Z.shiftl_mul_pow2 by lia. change (2 ^ 8) with 256.
    assert (Hm' : 0 <= 256 * m + byte_at c i < 256 ^ Z.of_nat (S j)).
    { rewrite Nat2Z.inj_succ, Z.pow_succ_r by lia. lia. }
    assert (Hp : 256 ^ Z.of_nat (S j) <= 256 ^ 7) by (apply Z.pow_le_mono_r; lia).
    change (256 ^ 7) with (2 ^ 56) in Hp.
    unfold u64. rewrite Z.mod_small by lia. rewrite (Z.mul_comm _ 256).
    rewrite (IH (S i) _ (S j)) by (done || lia).
    rewrite (drop_byte_at c i) by (destruct Hc; lia). rewrite be_get_cons, length_drop.
    destruct Hc as [-> _]. replace (16 - S i)%nat with (S k) by lia.
    rewrite Nat2Z.inj_succ, Z.pow_succ_r by lia. ring.
Qed.

(** ** Counter blocks *)

(** The last byte of a field, and a store to it. *)
Lemma be_put_last pre k z suf :
  byte_at (pre ++ be_put (S k) z ++ suf) (length pre + k) = z mod 256.
Proof.
  cbn [be_put]. unfold byte_at. rewrite app_nth2 by lia.
  rewrite <- app_assoc, app_nth2 by (rewrite length_be_put; lia).
  rewrite length_be_put. by replace (length pre + k - length pre - k)%nat with 0%nat by lia.
Qed.

Lemma be_put_store pre k z suf b :
  <[(length pre + k)%nat := b]> (pre ++ be_put (S k) z ++ suf) = pre ++ be_put k (z / 256) ++ b :: suf.
Proof.
  cbn [be_put]. rewrite insert_app_r_alt by lia. f_equal. rewrite <- app_assoc.
  rewrite insert_app_r_alt by (rewrite length_be_put; lia). f_equal.
  rewrite length_be_put. by replace (length pre + k - length pre - k)%nat with 0%nat by lia.
Qed.

(** The increments on a field of [k] bytes, as long as it has room. *)
Lemma inc64_be k : forall pre i suf,
  0 <= i -> i + 1 < 256 ^ Z.of_nat k ->
  inc64 (length pre + k) (pre ++ be_put k i ++ suf) = pre ++ be_put k (i + 1) ++ suf.
Proof.
  induction k as [|k IH]; intros pre i suf Hi Hlt; [change (256 ^ Z.of_nat 0) with 1 in Hlt; lia|].
  rewrite Nat.add_succ_r. cbn [inc64]. rewrite be_put_last, be_put_store.
  rewrite Nat2Z.inj_succ, Z.pow_succ_r in Hlt by lia. cbn [be_put]. rewrite <- app_assoc.
  unfold u8. change (2 ^ 8) with 256. destruct (Z.eqb_spec ((i mod 256 + 1) mod 256) 0) as [E|E].
  - rewrite E. rewrite IH by (Z.div_mod_to_equations; lia). cbn [app].
    replace ((i + 1) mod 256) with 0 by (Z.div_mod_to_equations; lia).
    by replace ((i + 1) / 256) with (i / 256 + 1) by (Z.div_mod_to_equations; lia).
  - cbn [app]. replace ((i + 1) / 256) with (i / 256) by (Z.div_mod_to_equations; lia).
    by replace ((i mod 256 + 1) mod 256) with ((i + 1) mod 256) by (Z.div_mod_to_equations; lia).
Qed.

Lemma add64_be k : forall pre i val inc suf,
  0 <= i -> 0 <= val <= 1 -> 0 <= inc -> i + val + inc < 256 ^ Z.of_nat (S k) ->
  add64 (length pre + S k) (pre ++ be_put (S k) i ++ suf) val inc =
    pre ++ be_put (S k) (i + val + inc) ++ suf.
Proof.
  induction k as [|k IH]; intros pre i val inc suf Hi Hv Hn Hlt;
    rewrite Nat.add_succ_r; cbn [add64]; rewrite be_put_last, be_put_store;
    rewrite !Z.shiftr_div_pow2 by lia; change 0xff with (Z.ones 8); rewrite Z.land_ones by lia;
    change (2 ^ 8) with 256; unfold u64;
    rewrite (Z.mod_small (val + _)) by (pose proof (Z.mod_pos_bound i 256);
      pose proof (Z.mod_pos_bound inc 256); lia);
    unfold u8; change (2 ^ 8) with 256;
    rewrite Nat2Z.inj_succ, Z.pow_succ_r in Hlt by lia;
    set (v := val + (i mod 256 + inc mod 256)) in *;
    assert (Ev : v mod 256 = (i + val + inc) mod 256)
      by (unfold v; Z.div_mod_to_equations; lia);
    assert (Eq : (i + val + inc) / 256 = i / 256 + v / 256 + inc / 256)
      by (unfold v; Z.div_mod_to_equations; lia);
    assert (Hv1 : 0 <= v / 256 <= 1) by (unfold v; Z.div_mod_to_equations; lia);
    rewrite Ev.
  - change (256 ^ Z.of_nat 0) with 1 in Hlt.
    assert (H0 : (i + val + inc) / 256 = 0) by (Z.div_mod_to_equations; lia).
    assert (H1 : inc / 256 = 0 /\ v / 256 = 0 /\ i / 256 = 0) by (Z.div_mod_to_equations; lia).
    destruct H1 as (-> & -> & _). done.
  - destruct (Z.eqb_spec (inc / 256) 0), (Z.eqb_spec (v / 256) 0); cbn [andb].
    1: { change (be_put (S (S k)) (i + val + inc)) with
           (be_put (S k) ((i + val + inc) / 256) ++ [(i + val + inc) mod 256]).
         rewrite <- (app_assoc (be_put _ _)). do 3 f_equal. lia. }
    all: rewrite IH by (Z.div_mod_to_equations; lia).
    all: change (be_put (S (S k)) (i + val + inc)) with
           (be_put (S k) ((i + val + inc) / 256) ++ [(i + val + inc) mod 256]).
    all: rewrite Eq, <- (app_assoc (be_put _ _)); reflexivity.
Qed.

(** A block of the nonce: a first byte, the nonce [N] and the field [z]. *)
Definition nonce_block (N : list Z) (b z : Z) : list Z := b :: N ++ be_put (15 - length N) z.

Section nonce_blocks.
Context (N : list Z) (L : nat) (HL : (L <= 7)%nat) (HN : nbytes (14 - L) N).

Lemma nonce_block_ok b z : is_byte b -> nbytes 16 (nonce_block N b z).
Proof.
  intros Hb. destruct HN as [Hl Hn], (nbytes_be_put (15 - length N) z) as [Hp Bp]. split.
  - cbn [nonce_block length]. rewrite length_app. lia.
  - apply Forall_cons_2; [done|]. by apply bytes_app.
Qed.

Lemma nonce_field b z : drop (15 - L) (nonce_block N b z) = be_put (S L) z.
Proof.
  destruct HN as [Hl _]. unfold nonce_block. replace (15 - L)%nat with (S (length N)) by lia.
  cbn [drop]. rewrite drop_app_length. f_equal. lia.
Qed.

(** The last eight bytes: the end of the nonce and the field. *)
Lemma nonce_block_split b z :
  take 8 (nonce_block N b z) = b :: take 7 N /\
  drop 8 (nonce_block N b z) = drop 7 N ++ be_put (S L) z ++ [] /\
  length (drop 7 N) = (7 - L)%nat.
Proof.
  destruct HN as [Hl _]. unfold nonce_block. cbn [take drop].
  rewrite take_app_le, drop_app_le, app_nil_r, length_drop by lia.
  split_and!; [done| |lia]. do 2 f_equal. lia.
Qed.

Lemma nonce_block_join b z :
  (b :: take 7 N) ++ drop 7 N ++ be_put (S L) z ++ [] = nonce_block N b z.
Proof.
  destruct HN as [Hl _]. cbn [app]. rewrite app_nil_r, app_assoc, take_drop.
  unfold nonce_block. do 3 f_equal. lia.
Qed.

Lemma ctr64_inc_block b i :
  0 <= i -> i + 1 < 256 ^ Z.of_nat (S L) ->
  ctr64_inc (nonce_block N b i) = nonce_block N b (i + 1).
Proof.
  intros Hi Hlt. unfold ctr64_inc. destruct (nonce_block_split b i) as (-> & -> & Lp).
  replace 8%nat with (length (drop 7 N) + S L)%nat by lia.
  by rewrite inc64_be, nonce_block_join by done.
Qed.

Lemma ctr64_add_block b i n :
  0 <= i -> 0 <= n -> i + n < 256 ^ Z.of_nat (S L) ->
  ctr64_add (nonce_block N b i) n = nonce_block N b (i + n).
Proof.
  intros Hi Hn Hlt. unfold ctr64_add. destruct (nonce_block_split b i) as (-> & -> & Lp).
  replace 8%nat with (length (drop 7 N) + S L)%nat by lia.
  by rewrite add64_be, nonce_block_join, Z.add_0_r by lia.
Qed.

Lemma ccm_L_block b z : Z.land b 7 = Z.of_nat L -> ccm_L (nonce_block N b z) = L.
Proof. intros H. unfold ccm_L, nonce_block, byte_at. cbn [nth]. by rewrite H, Nat2Z.id. Qed.

Lemma read_length_block b z :
  is_byte b -> 0 <= z -> 
  read_length L (15 - L) 0 (nonce_block N b z) = z mod 256 ^ Z.of_nat (S L).
Proof.
  intros Hb Hz. change 0 with (256 * 0) at 1.
  rewrite (read_length_spec _ L (15 - L) 0 (7 - L)) by
    (by apply nonce_block_ok || lia || (split; [lia|apply Z.pow_pos_nonneg; lia])).
  rewrite nonce_field, be_get_put. lia.
Qed.

(** Overwriting the field. *)
Lemma blit_field b z w :
  length w = S L -> blit (15 - L) w (nonce_block N b z) = b :: N ++ w.
Proof.
  intros Hw. destruct HN as [Hl _]. unfold blit, nonce_block.
  replace (15 - L)%nat with (S (length N)) by lia. cbn [take app]. f_equal.
  rewrite take_app_length, drop_ge, app_nil_r; [done|].
  cbn [length]. rewrite length_app, length_be_put. lia.
Qed.

Lemma first_counter_block b z :
  Z.land b 7 = Z.of_nat L -> first_counter (nonce_block N b z) = nonce_block N (Z.of_nat L) 1.
Proof.
  intros Hb. destruct HN as [Hl _]. unfold first_counter. rewrite ccm_L_block by done.
  change (<[0%nat:=Z.of_nat L]> (nonce_block N b z)) with (nonce_block N (Z.of_nat L) z).
  unfold nonce_block. replace (15 - length N)%nat with (S L) by lia.
  rewrite be_put_1. destruct (nbytes_be_put (S L) z) as [Lz _].
  unfold blit. replace (15 - L)%nat with (S (length N)) by lia. cbn [take app].
  rewrite take_app_length, length_replicate.
  replace (S (length N) + L)%nat with (S (length N + L)) by lia. cbn [drop].
  rewrite drop_app_ge by lia. replace (length N + L - length N)%nat with L by lia.
  set (rest := N ++ replicate L 0 ++ drop L (be_put (S L) z)).
  change (<[15%nat:=1]> (Z.of_nat L :: rest)) with (Z.of_nat L :: <[14%nat:=1]> rest).
  unfold rest.
  f_equal. rewrite insert_app_r_alt by lia. f_equal. rewrite insert_app_r_alt by (rewrite length_replicate; lia).
  f_equal. rewrite length_replicate. replace (14 - length N - L)%nat with 0%nat by lia.
  destruct (drop L (be_put (S L) z)) as [|x [|y r]] eqn:E;
    apply (f_equal length) in E; rewrite length_drop, Lz in E; cbn in E; try lia. done.
Qed.
End nonce_blocks.

(** ** The reference (RFC 3610) *)

(** Zero padding to a block; the number of blocks of a string. *)
Definition pad16 (b : list Z) : list Z := b ++ replicate (16 - length b) 0.
Definition nblocks (l : list Z) : nat := ((length l + 15) / 16)%nat.

(** CBC-MAC over [n] blocks of a string, padded with zeros. *)
Fixpoint cbc_mac (E : list Z -> list Z) (n : nat) (x data : list Z) : list Z :=
  match n with
  | O => x
  | S k => cbc_mac E k (E (xor_bytes x (pad16 (take 16 data)))) (drop 16 data)
  end.

(** The key stream from counter [i] on. *)
Fixpoint key_stream (E : list Z -> list Z) (N : list Z) (L : Z) (n : nat) (i : Z) : list Z :=
  match n with
  | O => []
  | S k => E (nonce_block N L i) ++ key_stream E N L k (i + 1)
  end.

(** The length of the associated data (RFC 3610, 2.2). *)
Definition encode_length (l : Z) : list Z :=
  if l <? 2 ^ 16 - 2 ^ 8 then be_put 2 l
  else if l <? 2 ^ 32 then [0xFF; 0xFE] ++ be_put 4 l
  else [0xFF; 0xFF] ++ be_put 8 l.

(** The MAC of the first block and the associated data. *)
Definition header_mac (E : list Z -> list Z) (N : list Z) (flags : Z) (mlen : Z) (adata : list Z)
  : list Z :=
  if (length adata =? 0)%nat then E (nonce_block N flags mlen)
  else
    let data := encode_length (Z.of_nat (length adata)) ++ adata in
    cbc_mac E (nblocks data) (E (nonce_block N (flags + 64) mlen)) data.

(** The flags of the first block, but for the bit of the associated data. *)
Definition rfc3610_flags (M L : Z) : Z := 8 * ((M - 2) / 2) + (L - 1).

(** Ciphertext and masked MAC of a message. *)
Definition rfc3610_cipher (E : list Z -> list Z) (N : list Z) (L : Z) (msg : list Z) : list Z :=
  xor_bytes (key_stream E N L (nblocks msg) 1) msg.

Definition rfc3610_mac (E : list Z -> list Z) (N : list Z) (L flags : Z) (adata msg : list Z)
  : list Z :=
  xor_bytes (cbc_mac E (nblocks msg) (header_mac E N flags (Z.of_nat (length msg)) adata) msg)
    (E (nonce_block N L 0)).

(** ** The parts of a call *)

Lemma xor_bytes_zeros a : xor_bytes a (replicate (length a) 0) = a.
Proof.
  induction a as [|x a IH]; [done|]. unfold xor_bytes in *. cbn [length replicate zip_with].
  by rewrite Z.lxor_0_r, IH.
Qed.

Lemma length_pad16 b : (length b <= 16)%nat -> length (pad16 b) = 16%nat.
Proof. intros H. unfold pad16. rewrite length_app, length_replicate. lia. Qed.

Lemma nbytes_pad16 b : bytes b -> (length b <= 16)%nat -> nbytes 16 (pad16 b).
Proof.
  intros Hb Hl. split; [by apply length_pad16|]. apply bytes_app. split; [done|].
  apply Forall_replicate. unfold is_byte. lia.
Qed.

(** Masking a block from position [i] on. *)
Lemma xor_at_pad v w c :
  length c = 16%nat -> (length v + length w <= 16)%nat ->
  xor_at (length v) w (xor_bytes c (pad16 v)) = xor_bytes c (pad16 (v ++ w)).
Proof.
  intros Hc Hl.
  rewrite <- (take_drop (length v) c). set (c1 := take (length v) c). set (c2 := drop (length v) c).
  assert (L1 : length c1 = length v) by (unfold c1; rewrite length_take; lia).
  assert (L2 : length c2 = (16 - length v)%nat) by (unfold c2; rewrite length_drop; lia).
  rewrite <- (take_drop (length w) c2).
  set (d1 := take (length w) c2). set (d2 := drop (length w) c2).
  assert (M1 : length d1 = length w) by (unfold d1; rewrite length_take; lia).
  assert (M2 : length d2 = (16 - length v - length w)%nat) by (unfold d2; rewrite length_drop; lia).
  unfold pad16. rewrite length_app.
  replace (16 - length v)%nat with (length d1 + length d2)%nat by lia.
  replace (16 - (length v + length w))%nat with (length d2) by lia.
  rewrite replicate_add, <- app_assoc. rewrite !xor_bytes_app by (rewrite ?length_replicate; done).
  rewrite !xor_bytes_zeros. assert (Lx : length (xor_bytes c1 v) = length v).
  { rewrite length_xor_bytes. lia. }
  unfold xor_at, blit. rewrite take_app_le, (take_ge (xor_bytes c1 v)) by lia.
  rewrite drop_app_ge, Lx, Nat.sub_diag, drop_0 by lia.
  rewrite (take_app_le d1), (take_ge d1) by lia. do 2 f_equal.
  rewrite length_xor_bytes, M1, Nat.min_id.
  rewrite drop_app_ge by lia. replace (length v + length w - length (xor_bytes c1 v))%nat with (length w) by lia.
  rewrite drop_app_ge, M1, Nat.sub_diag by lia. apply drop_0.
Qed.

Lemma xor_at_0 v c :
  length c = 16%nat -> (length v <= 16)%nat -> xor_at 0 v c = xor_bytes c (pad16 v).
Proof.
  intros Hc Hv. pose proof (xor_at_pad [] v c Hc Hv) as H.
  change (pad16 []) with (replicate 16 0) in H. rewrite <- Hc in H at 1.
  rewrite xor_bytes_zeros in H. exact H.
Qed.

Lemma nblocks_0 l : nblocks l = 0%nat -> l = [].
Proof.
  unfold nblocks. intros H. destruct l as [|x l]; [done|]. cbn [length] in H.
  assert (1 <= (S (length l) + 15) / 16)%nat by (apply Nat.div_le_lower_bound; lia). lia.
Qed.

Lemma nblocks_S l : l <> [] -> nblocks l = S (nblocks (drop 16 l)).
Proof.
  intros H. assert (0 < length l)%nat by (destruct l; [done|simpl; lia]).
  unfold nblocks. rewrite length_drop. destruct (Nat.le_gt_cases 16 (length l)).
  - replace (length l + 15)%nat with (length l - 16 + 15 + 1 * 16)%nat by lia.
    rewrite Nat.div_add by lia. lia.
  - replace (length l - 16)%nat with 0%nat by lia. change ((0 + 15) / 16)%nat with 0%nat.
    symmetry. apply Nat.div_unique with (length l - 1)%nat; lia.
Qed.

Lemma cbc_mac_app E n : forall k x d,
  cbc_mac E (n + k) x d = cbc_mac E k (cbc_mac E n x d) (drop (16 * n) d).
Proof.
  induction n as [|n IH]; intros k x d; [done|]. cbn [Nat.add cbc_mac]. rewrite IH, drop_drop.
  by replace (16 + 16 * n)%nat with (16 * S n)%nat by lia.
Qed.

Lemma cbc_mac_prefix E n : forall x a d,
  length a = (16 * n)%nat -> cbc_mac E n x (a ++ d) = cbc_mac E n x a.
Proof.
  induction n as [|n IH]; intros x a d Ha; [done|]. cbn [cbc_mac].
  rewrite take_app_le, drop_app_le by lia. apply IH. rewrite length_drop. lia.
Qed.

(** A message is its whole blocks and a rest shorter than a block. *)
Lemma message_split (inp : list Z) :
  let k := (length inp / 16)%nat in
  length (take (16 * k) inp) = (16 * k)%nat /\
  (length (drop (16 * k) inp) < 16)%nat /\ nblocks inp = (k + nblocks (drop (16 * k) inp))%nat.
Proof.
  intros k. pose proof (Nat.div_mod (length inp) 16 ltac:(lia)) as Hd. fold k in Hd.
  pose proof (Nat.mod_upper_bound (length inp) 16 ltac:(lia)).
  rewrite length_take. split_and!; [lia|rewrite length_drop; lia|].
  unfold nblocks. rewrite length_drop.
  replace (length inp + 15)%nat with (length inp - 16 * k + 15 + k * 16)%nat by lia.
  rewrite Nat.div_add by lia. lia.
Qed.

Lemma whole_blocks_fit (L : nat) (inp : list Z) :
  Z.of_nat (length inp) < 256 ^ Z.of_nat (S L) ->
  1 + Z.of_nat (length inp / 16) < 256 ^ Z.of_nat (S L).
Proof.
  intros H. rewrite Nat2Z.inj_div. assert (256 ^ 1 <= 256 ^ Z.of_nat (S L)) by (apply Z.pow_le_mono_r; lia).
  Z.div_mod_to_equations. lia.
Qed.

Lemma cbc_mac_ok E `{!BlockFn E} n : forall x d, nbytes 16 x -> bytes d -> nbytes 16 (cbc_mac E n x d).
Proof.
  induction n as [|n IH]; intros x d Hx Hd; [done|]. cbn [cbc_mac].
  apply IH; [|by apply bytes_drop]. apply block_ok, nbytes_xor; [done|].
  apply nbytes_pad16; [by apply bytes_take|rewrite length_take; lia].
Qed.

Lemma aad_loop_spec E `{!BlockFn E} fuel : forall v aad c k,
  (length aad <= fuel)%nat -> aad <> [] -> (length v < 16)%nat -> nbytes 16 c -> bytes v -> bytes aad ->
  fst (aad_loop E fuel (length v) aad (xor_bytes c (pad16 v)) k) =
    cbc_mac E (nblocks (v ++ aad)) c (v ++ aad).
Proof.
  induction fuel as [|fuel IH]; intros v aad c k Hf Ha Hv Hc Bv Ba;
    assert (Hl : (0 < length aad)%nat) by (destruct aad; [done|simpl; lia]); [lia|].
  cbn [aad_loop]. set (n := Nat.min (16 - length v) (length aad)).
  rewrite xor_at_pad by (rewrite ?length_take; destruct Hc; unfold n; lia).
  rewrite nblocks_S by (intros Hn; apply app_eq_nil in Hn as [_ ?]; done). cbn [cbc_mac].
  rewrite take_app, (take_ge v), drop_app, (drop_ge v) by lia. cbn [app].
  assert (Et : take n aad = take (16 - length v) aad).
  { unfold n. destruct (Nat.le_gt_cases (16 - length v) (length aad)).
    - by rewrite Nat.min_l by lia.
    - rewrite Nat.min_r by lia. by rewrite !take_ge by lia. }
  assert (Ed : drop n aad = drop (16 - length v) aad).
  { unfold n. destruct (Nat.le_gt_cases (16 - length v) (length aad)).
    - by rewrite Nat.min_l by lia.
    - rewrite Nat.min_r by lia. by rewrite !drop_ge by lia. }
  rewrite Et, Ed. set (w := take (16 - length v) aad).
  set (c' := E (xor_bytes c (pad16 (v ++ w)))).
  assert (Hc' : nbytes 16 c').
  { apply block_ok, nbytes_xor; [done|]. apply nbytes_pad16.
    - apply bytes_app. split; [done|by apply bytes_take].
    - unfold w. rewrite length_app, length_take. lia. }
  destruct (Nat.eqb_spec (length (drop (16 - length v) aad)) 0) as [E0|E0].
  - apply length_zero_iff_nil in E0. rewrite E0. reflexivity.
  - replace c' with (xor_bytes c' (pad16 [])) at 1
      by (change (pad16 []) with (replicate 16 0); rewrite <- (proj1 Hc'); apply xor_bytes_zeros).
    apply (IH []); [rewrite length_drop; lia| |simpl; lia|done|apply Forall_nil_2|by apply bytes_drop].
    intros Hn. rewrite Hn in E0. done.
Qed.

Section parts.
Context (E : list Z -> list Z) `{!BlockFn E}.
Context (N : list Z) (L : nat) (HL : (L <= 7)%nat) (HN : nbytes (14 - L) N).
Let b : Z := Z.of_nat L.

Lemma b_byte : is_byte b.
Proof. unfold b, is_byte. lia. Qed.

Lemma key_stream_ok n : forall i, nbytes (16 * n) (key_stream E N b n i).
Proof.
  induction n as [|n IH]; intros i; [split; [done|apply Forall_nil_2]|]. cbn [key_stream].
  destruct (block_ok _ (nonce_block_ok N L HL HN b i b_byte)) as [L1 B1], (IH (i + 1)) as [L2 B2].
  split; [rewrite length_app; lia|by apply bytes_app].
Qed.

Lemma key_stream_app n : forall k i,
  key_stream E N b (n + k) i = key_stream E N b n i ++ key_stream E N b k (i + Z.of_nat n).
Proof.
  induction n as [|n IH]; intros k i; [by rewrite Z.add_0_r|]. cbn [Nat.add key_stream].
  rewrite IH, <- app_assoc. do 2 f_equal. f_equal. lia.
Qed.

(** Whole blocks. *)
Lemma ccm_enc_loop_spec n : forall inp i mac,
  bytes inp -> (16 * n <= length inp)%nat -> nbytes 16 mac ->
  0 <= i -> i + Z.of_nat n < 256 ^ Z.of_nat (S L) ->
  ccm_enc_loop E n inp (nonce_block N b i) mac =
    (xor_bytes (key_stream E N b n i) (take (16 * n) inp),
     nonce_block N b (i + Z.of_nat n), cbc_mac E n mac inp).
Proof.
  induction n as [|n IH]; intros inp i mac Hb Hl Hm Hi Hlt; [by rewrite Z.add_0_r|].
  cbn [ccm_enc_loop key_stream cbc_mac]. rewrite (ctr64_inc_block N L HL HN) by lia.
  assert (Ht : nbytes 16 (take 16 inp)) by (split; [rewrite length_take; lia|by apply bytes_take]).
  pose proof (block_ok _ (nonce_block_ok N L HL HN b i b_byte)) as Hk.
  rewrite !xor_words_16 by done.
  assert (Hp : pad16 (take 16 inp) = take 16 inp).
  { unfold pad16. rewrite (proj1 Ht). apply app_nil_r. }
  rewrite Hp. rewrite IH by (by apply bytes_drop || (rewrite length_drop; lia)
    || (by apply block_ok, nbytes_xor) || lia).
  replace (16 * S n)%nat with (16 + 16 * n)%nat by lia.
  rewrite <- take_take_drop, xor_bytes_app by (rewrite (proj1 Hk), (proj1 Ht); done).
  by replace (i + 1 + Z.of_nat n) with (i + Z.of_nat (S n)) by lia.
Qed.

Lemma ccm_dec_loop_spec n : forall inp i mac,
  bytes inp -> (16 * n <= length inp)%nat -> nbytes 16 mac ->
  0 <= i -> i + Z.of_nat n < 256 ^ Z.of_nat (S L) ->
  let out := xor_bytes (key_stream E N b n i) (take (16 * n) inp) in
  ccm_dec_loop E n inp (nonce_block N b i) mac =
    (out, nonce_block N b (i + Z.of_nat n), cbc_mac E n mac out).
Proof.
  induction n as [|n IH]; intros inp i mac Hb Hl Hm Hi Hlt; [by rewrite Z.add_0_r|].
  cbn [ccm_dec_loop key_stream]. rewrite (ctr64_inc_block N L HL HN) by lia.
  assert (Ht : nbytes 16 (take 16 inp)) by (split; [rewrite length_take; lia|by apply bytes_take]).
  pose proof (block_ok _ (nonce_block_ok N L HL HN b i b_byte)) as Hk.
  pose proof (nbytes_xor _ _ _ Hk Ht) as Hx. rewrite !xor_words_16 by (done || by rewrite xor_words_16).
  rewrite IH by (by apply bytes_drop || (rewrite length_drop; lia)
    || (by apply block_ok, nbytes_xor) || lia).
  replace (16 * S n)%nat with (16 + 16 * n)%nat by lia.
  rewrite <- take_take_drop, xor_bytes_app by (rewrite (proj1 Hk), (proj1 Ht); done).
  set (x := xor_bytes (E (nonce_block N b i)) (take 16 inp)) in *.
  cbn [cbc_mac]. rewrite take_app_le, (take_ge x), drop_app_ge, (proj1 Hx), Nat.sub_diag, drop_0
    by (rewrite (proj1 Hx); lia).
  assert (Hp : pad16 x = x) by (unfold pad16; rewrite (proj1 Hx); apply app_nil_r).
  rewrite Hp. by replace (i + 1 + Z.of_nat n) with (i + Z.of_nat (S n)) by lia.
Qed.

Lemma tail_stream r i :
  (length r < 16)%nat -> r <> [] ->
  nblocks r = 1%nat /\
  xor_bytes (take (length r) (E (nonce_block N b i))) r = xor_bytes (key_stream E N b (nblocks r) i) r.
Proof.
  intros Hl Hr. assert (Hn : nblocks r = 1%nat).
  { rewrite nblocks_S, drop_ge by (done || lia). done. }
  split; [done|]. rewrite Hn. cbn [key_stream]. rewrite app_nil_r.
  set (k := E _).
  replace (xor_bytes k r) with (take (length r) (xor_bytes k r))
    by (apply take_ge; rewrite length_xor_bytes; lia).
  by rewrite xor_bytes_take, (take_ge r) by lia.
Qed.

Lemma enc_tail_spec r i mac :
  (length r < 16)%nat -> nbytes 16 mac ->
  ccm_enc_tail E r (nonce_block N b i) mac =
    (xor_bytes (key_stream E N b (nblocks r) i) r, cbc_mac E (nblocks r) mac r).
Proof.
  intros Hl [Hm _]. unfold ccm_enc_tail. destruct (Nat.eqb_spec (length r) 0) as [H0|H0].
  { apply length_zero_iff_nil in H0 as ->. done. }
  destruct (tail_stream r i Hl) as [Hn ->]; [by intros ->|]. rewrite Hn. cbn [cbc_mac].
  by rewrite xor_at_0, take_ge by lia.
Qed.

Lemma dec_tail_spec r i mac :
  (length r < 16)%nat -> nbytes 16 mac ->
  let out := xor_bytes (key_stream E N b (nblocks r) i) r in
  ccm_dec_tail E r (nonce_block N b i) mac = (out, cbc_mac E (nblocks r) mac out).
Proof.
  intros Hl [Hm _]. cbv zeta. unfold ccm_dec_tail. destruct (Nat.eqb_spec (length r) 0) as [H0|H0].
  { apply length_zero_iff_nil in H0 as ->. done. }
  destruct (tail_stream r i Hl) as [Hn Et]; [by intros ->|]. rewrite Et.
  assert (Lx : length (xor_bytes (key_stream E N b (nblocks r) i) r) = length r).
  { rewrite length_xor_bytes, (proj1 (key_stream_ok _ _)), Hn. lia. }
  rewrite Hn in *. cbn [cbc_mac].
  by rewrite xor_at_0, take_ge by lia.
Qed.

(** The output of the two stages is the message under the whole key stream. *)
Lemma stream_join (inp : list Z) i :
  let k := (length inp / 16)%nat in
  let r := drop (16 * k) inp in
  xor_bytes (key_stream E N b k i) (take (16 * k) inp)
    ++ xor_bytes (key_stream E N b (nblocks r) (i + Z.of_nat k)) r =
  xor_bytes (key_stream E N b (nblocks inp) i) inp.
Proof.
  intros k r. destruct (message_split inp) as (Ht & Hr & Hn). fold k r in Ht, Hr, Hn.
  transitivity (xor_bytes (key_stream E N b k i ++ key_stream E N b (nblocks r) (i + Z.of_nat k))
    (take (16 * k) inp ++ r)).
  { symmetry. apply xor_bytes_app. by rewrite (proj1 (key_stream_ok _ _)). }
  rewrite Hn, key_stream_app. unfold r. by rewrite take_drop.
Qed.

End parts.

(** ** Whole calls *)

(** Every 16 bytes are a nonce block for the [L] they hold. *)
Lemma nonce_shape c :
  nbytes 16 c ->
  exists N z, let L := ccm_L c in
    (L <= 7)%nat /\ nbytes (14 - L) N /\ is_byte (byte_at c 0) /\
    Z.land (byte_at c 0) 7 = Z.of_nat L /\ 0 <= z < 256 ^ Z.of_nat (S L) /\
    c = nonce_block N (byte_at c 0) z.
Proof.
  intros Hc. set (L := ccm_L c). pose proof (byte_at_is_byte 16 c 0 Hc) as Hf.
  assert (HL : Z.land (byte_at c 0) 7 = Z.of_nat L /\ (L <= 7)%nat).
  { unfold L, ccm_L. change 7 with (Z.ones 3). rewrite Z.land_ones by lia.
    pose proof (Z.mod_pos_bound (byte_at c 0) (2 ^ 3) ltac:(lia)). lia. }
  destruct HL as [HL HL7]. destruct Hc as [Hl Hb]. destruct c as [|f c]; [done|].
  cbn [length] in Hl. assert (Hb' : bytes c) by (by inversion Hb).
  exists (take (14 - L) c), (be_get (drop (14 - L) c)). cbv zeta.
  assert (Ld : length (drop (14 - L) c) = S L) by (rewrite length_drop; lia).
  assert (Bd : bytes (drop (14 - L) c)) by (by apply bytes_drop).
  pose proof (be_get_bounds _ Bd) as Hz. rewrite Ld in Hz.
  split_and!; [done|split; [rewrite length_take; lia|by apply bytes_take]|done|done|lia|lia|].
  unfold nonce_block, byte_at. cbn [nth]. f_equal.
  rewrite <- (take_drop (14 - L) c) at 1. f_equal.
  rewrite length_take. replace (15 - (14 - L) `min` length c)%nat with (S L) by lia.
  destruct (nbytes_be_put (S L) (be_get (drop (14 - L) c))) as [Lp Bp].
  apply be_get_inj; [done|done|lia|]. by rewrite be_get_put, Z.mod_small.
Qed.

Section calls.
Context (E : list Z -> list Z) `{!BlockFn E}.
Context (N : list Z) (L : nat) (HL : (L <= 7)%nat) (HN : nbytes (14 - L) N).
Context (f : Z) (Hf : is_byte f) (Hfl : Z.land f 7 = Z.of_nat L).
Let b : Z := Z.of_nat L.

Lemma byte_at_nonce g z : byte_at (nonce_block N g z) 0 = g.
Proof. done. Qed.

Lemma finish_spec i mac k :
  nbytes 16 mac ->
  finish E f (nonce_block N b i) mac k =
    mkCcm (nonce_block N f 0) (xor_bytes mac (E (nonce_block N b 0))) k.
Proof.
  intros Hm. unfold finish. rewrite Hfl, Nat2Z.id.
  rewrite (blit_field N L HL HN) by (rewrite length_replicate; lia).
  destruct HN as [Hl _].
  assert (Ef : forall g, g :: N ++ replicate (L + 1) 0 = nonce_block N g 0).
  { intros g. unfold nonce_block. rewrite be_put_0. do 3 f_equal. lia. }
  rewrite Ef. change (<[0%nat:=f]> (nonce_block N b 0)) with (nonce_block N f 0).
  rewrite xor_words_16; [done|done|]. apply block_ok, (nonce_block_ok N L HL HN), b_byte. exact HL.
Qed.

Lemma first_mac_ok ctx z :
  nonce ctx = nonce_block N f z -> nbytes 16 (cmac ctx) -> nbytes 16 (first_mac E ctx).
Proof.
  intros Hn Hc. unfold first_mac. rewrite Hn. destruct (_ =? 0); [|done].
  by apply block_ok, (nonce_block_ok N L HL HN).
Qed.

(** The checks of both directions: the length, then for encryption the number
    of block operations. *)
Definition enc_blocks (ctx : CCM128_CONTEXT) (len : nat) : Z :=
  u64 ((if Z.land f 0x40 =? 0 then u64 (blocks ctx + 1) else blocks ctx)
       + Z.lor (Z.shiftr (u64 (Z.of_nat len + 15)) 3) 1).

Lemma encrypt_spec ctx inp :
  nonce ctx = nonce_block N f (Z.of_nat (length inp)) -> nbytes 16 (cmac ctx) -> bytes inp ->
  Z.of_nat (length inp) < 256 ^ Z.of_nat (S L) -> enc_blocks ctx (length inp) <= 2 ^ 61 ->
  CRYPTO_ccm128_encrypt E ctx inp =
    (0, rfc3610_cipher E N b inp,
     mkCcm (nonce_block N f 0)
       (xor_bytes (cbc_mac E (nblocks inp) (first_mac E ctx) inp) (E (nonce_block N b 0)))
       (enc_blocks ctx (length inp))).
Proof.
  intros Hn Hc Hb Hlt Hbl. pose proof (first_mac_ok ctx _ Hn Hc) as Hm.
  unfold CRYPTO_ccm128_encrypt. rewrite Hn, byte_at_nonce, (ccm_L_block N L) by done.
  rewrite (read_length_block N L HL HN), Z.mod_small, Z.eqb_refl by (done || lia). cbn [negb].
  change (Z.shiftl 1 61) with (2 ^ 61). fold (enc_blocks ctx (length inp)).
  destruct (Z.ltb_spec (2 ^ 61) (enc_blocks ctx (length inp))); [lia|].
  rewrite (first_counter_block N L HL HN) by done. fold b.
  destruct (message_split inp) as (Ht & Hr & Hq). set (k := (length inp / 16)%nat) in *.
  pose proof (whole_blocks_fit L inp Hlt) as Hfit. fold k in Hfit.
  assert (Hk : (16 * k <= length inp)%nat) by (rewrite length_take in Ht; lia).
  unfold b at 1. rewrite (ccm_enc_loop_spec E N L HL HN) by (done || lia).
  rewrite (enc_tail_spec E N L HL) by (done || by apply cbc_mac_ok).
  rewrite finish_spec by (repeat apply cbc_mac_ok; try done; by apply bytes_drop).
  rewrite <- cbc_mac_app, <- Hq. unfold k. by rewrite (stream_join E N L HL HN).
Qed.

Lemma decrypt_spec ctx inp :
  nonce ctx = nonce_block N f (Z.of_nat (length inp)) -> nbytes 16 (cmac ctx) -> bytes inp ->
  Z.of_nat (length inp) < 256 ^ Z.of_nat (S L) ->
  let out := rfc3610_cipher E N b inp in
  CRYPTO_ccm128_decrypt E ctx inp =
    (0, out,
     mkCcm (nonce_block N f 0)
       (xor_bytes (cbc_mac E (nblocks inp) (first_mac E ctx) out) (E (nonce_block N b 0)))
       (blocks ctx)).
Proof.
  intros Hn Hc Hb Hlt. cbv zeta. pose proof (first_mac_ok ctx _ Hn Hc) as Hm.
  unfold CRYPTO_ccm128_decrypt. rewrite Hn, byte_at_nonce, (ccm_L_block N L) by done.
  rewrite (read_length_block N L HL HN), Z.mod_small, Z.eqb_refl by (done || lia). cbn [negb].
  rewrite (first_counter_block N L HL HN) by done. fold b.
  destruct (message_split inp) as (Ht & Hr & Hq). set (k := (length inp / 16)%nat) in *.
  pose proof (whole_blocks_fit L inp Hlt) as Hfit. fold k in Hfit.
  assert (Hk : (16 * k <= length inp)%nat) by (rewrite length_take in Ht; lia).
  assert (Hx : forall i q d, bytes d -> bytes (xor_bytes (key_stream E N b q i) d)).
  { intros i q d Hd. apply bytes_xor; [|done]. apply (key_stream_ok E N L HL HN). }
  unfold b at 1. rewrite (ccm_dec_loop_spec E N L HL HN) by (done || lia). fold b.
  set (o := xor_bytes (key_stream E N b k 1) (take (16 * k) inp)).
  assert (Bo : bytes o) by (apply Hx, bytes_take; done).
  assert (Lo : length o = (16 * k)%nat).
  { unfold o. rewrite length_xor_bytes, (proj1 (key_stream_ok E N L HL HN _ _)). lia. }
  unfold b at 1. rewrite (dec_tail_spec E N L HL HN) by (done || by apply cbc_mac_ok). fold b.
  rewrite finish_spec by (repeat apply cbc_mac_ok; try done; apply Hx; by apply bytes_drop).
  pose proof (stream_join E N L HL HN inp 1) as Hj. cbv zeta in Hj. fold b k in Hj. fold o in Hj.
  unfold rfc3610_cipher. rewrite <- Hj, Hq, cbc_mac_app. rewrite drop_app_ge, Lo, Nat.sub_diag, drop_0 by lia.
  by rewrite cbc_mac_prefix.
Qed.

End calls.

(** ** Setting up *)

Lemma aad_prefix_encode l : aad_prefix l = encode_length l.
Proof.
  unfold aad_prefix, encode_length.
  change (0x10000 - 0x100) with (2 ^ 16 - 2 ^ 8). change (Z.shiftl 1 32) with (2 ^ 32).
  destruct (Z.ltb_spec l (2 ^ 16 - 2 ^ 8)); [|destruct (Z.ltb_spec l (2 ^ 32)), (Z.leb_spec (2 ^ 32) l); try lia].
  all: cbn [be_put app]; unfold u8; rewrite !Z.shiftr_div_pow2, ?Z.div_div by lia; reflexivity.
Qed.

(** The flags byte, for each of its 64 values: what the code reads from it. *)
Lemma flags_cases M L :
  (exists m, 0 <= m <= 7 /\ M = 2 * m + 2) -> 1 <= L <= 8 ->
  let f := rfc3610_flags M L in
  byte_at (nonce (CRYPTO_ccm128_init (mkCcm [] [] 0) M L)) 0 = f /\ is_byte f /\ is_byte (f + 64) /\
  Z.land f 7 = L - 1 /\ Z.land (f + 64) 7 = L - 1 /\ Z.land f 0x40 = 0 /\ Z.land (f + 64) 0x40 <> 0 /\
  Z.lor f 0x40 = f + 64 /\ Z.land f (Z.lnot 0x40) = f /\
  Z.land (Z.shiftr f 3) 7 * 2 + 2 = M /\ Z.land (Z.shiftr (f + 64) 3) 7 * 2 + 2 = M.
Proof.
  intros (m & Hm & ->) HL.
  assert (Cm : m = 0 \/ m = 1 \/ m = 2 \/ m = 3 \/ m = 4 \/ m = 5 \/ m = 6 \/ m = 7) by lia.
  assert (CL : L = 1 \/ L = 2 \/ L = 3 \/ L = 4 \/ L = 5 \/ L = 6 \/ L = 7 \/ L = 8) by lia.
  repeat destruct Cm as [->|Cm]; subst; repeat destruct CL as [->|CL]; subst;
    (split_and!; first [reflexivity | discriminate | split; [discriminate|reflexivity]]).
Qed.

Lemma aad_prefix_ok l : 0 <= l -> (length (aad_prefix l) < 16)%nat /\ bytes (aad_prefix l).
Proof.
  intros Hl. rewrite aad_prefix_encode. unfold encode_length.
  destruct (l <? _); [|destruct (l <? _)]; rewrite ?length_app, ?length_be_put;
    (split; [simpl; lia|rewrite ?bytes_app; split_and?; try apply nbytes_be_put;
      repeat constructor; lia]).
Qed.

(** The count of block operations grows by at most one for every block. *)
Lemma u64_le z : 0 <= z -> 0 <= u64 z <= z.
Proof. intros H. unfold u64. pose proof (Z.mod_pos_bound z (2 ^ 64)). pose proof (Z.mod_le z (2 ^ 64)). lia. Qed.

Lemma aad_loop_blocks E fuel : forall i aad c k,
  0 <= k -> 0 <= snd (aad_loop E fuel i aad c k) <= k + Z.of_nat fuel.
Proof.
  induction fuel as [|fuel IH]; intros i aad c k Hk; cbn [aad_loop]; [simpl; lia|].
  pose proof (u64_le (k + 1) ltac:(lia)).
  destruct (_ =? 0)%nat; [simpl; lia|].
  match goal with |- 0 <= snd (aad_loop E fuel 0 ?a ?x ?y) <= _ =>
    pose proof (IH 0%nat a x y ltac:(lia)) end. lia.
Qed.

Lemma enc_blocks_le f ctx len :
  0 <= blocks ctx -> enc_blocks f ctx len <= blocks ctx + (Z.of_nat len + 15) / 8 + 2.
Proof.
  intros Hb. unfold enc_blocks. pose proof (u64_le (Z.of_nat len + 15) ltac:(lia)) as Hl.
  pose proof (u64_le (blocks ctx + 1) ltac:(lia)) as Hk.
  rewrite Z.shiftr_div_pow2 by lia. change (2 ^ 3) with 8. set (l := u64 (Z.of_nat len + 15)) in *.
  assert (Hq : l / 8 <= (Z.of_nat len + 15) / 8) by (apply Z.div_le_mono; lia).
  assert (H0 : 0 <= l / 8) by (apply Z.div_pos; lia).
  assert (Ho : 0 <= Z.lor (l / 8) 1 <= l / 8 + 1).
  { pose proof (Z.add_lor_land (l / 8) 1). pose proof (Z.land_nonneg (l / 8) 1).
    split; [apply Z.lor_nonneg; lia|]. lia. }
  match goal with |- u64 ?x <= _ => assert (0 <= x <= blocks ctx + 1 + (l / 8 + 1));
    [destruct (_ =? 0); lia|pose proof (u64_le x)] end. lia.
Qed.

(** The nonce and the length of the message. *)
Lemma setiv_spec ctx iv mlen :
  nbytes 16 (nonce ctx) -> 0 <= mlen ->
  let L := ccm_L (nonce ctx) in
  CRYPTO_ccm128_setiv ctx iv mlen =
    if (length iv <? 14 - L)%nat then (-1, ctx)
    else (0, mkCcm (nonce_block (take (14 - L) iv) (Z.land (byte_at (nonce ctx) 0) (Z.lnot 0x40)) mlen)
                (cmac ctx) (blocks ctx)).
Proof.
  intros Hc Hm L. unfold CRYPTO_ccm128_setiv. fold L.
  destruct (Nat.ltb_spec (length iv) (14 - L)); [done|].
  destruct (nonce_shape _ Hc) as (_ & _ & HL & _). fold L in HL.
  set (V := take (14 - L) iv). assert (LV : length V = (14 - L)%nat) by (unfold V; rewrite length_take; lia).
  destruct Hc as [Hl _]. set (c := nonce ctx) in *. do 2 f_equal.
  set (b := fun k => u8 (Z.shiftr mlen k)).
  assert (Hblit : exists w, length w = 4%nat /\ ((3 <= L)%nat -> w = [b 56; b 48; b 40; b 32]) /\
    blit 12 [b 24; b 16; b 8; u8 mlen]
      (if (3 <=? L)%nat then blit 8 [b 56; b 48; b 40; b 32] c else blit 8 (replicate 8 0) c) =
    take 8 c ++ w ++ [b 24; b 16; b 8; u8 mlen]).
  { exists (if (3 <=? L)%nat then [b 56; b 48; b 40; b 32] else replicate 4 0).
    split_and!; [by destruct (_ <=? _)%nat|intros; by destruct (Nat.leb_spec 3 L); [|lia]|].
    clearbody L c. do 16 (destruct c as [|? c]; [done|]). destruct c; [|done].
    by destruct (3 <=? L)%nat. }
  destruct Hblit as (w & Lw & Hw & Hblit). fold (b 56) (b 48) (b 40) (b 32) (b 24) (b 16) (b 8).
  rewrite Hblit. clear Hblit.
  destruct c as [|c0 c']; [done|]. cbn [length] in Hl.
  unfold nonce_block, blit. cbn [take app drop]. rewrite LV.
  change (<[0%nat:=?x]> (c0 :: ?r)) with (x :: r). cbn [take app drop Nat.add].
  rewrite take_0. cbn [app]. do 2 f_equal.
  rewrite drop_app_ge, length_take, Nat.min_l by (rewrite ?length_take; lia).
  replace (15 - (14 - L))%nat with (S L) by lia.
  rewrite <- (be_put_drop (7 - L) (S L)). replace (7 - L + S L)%nat with 8%nat by lia.
  rewrite be_put_8. replace (14 - L - 7)%nat with (7 - L)%nat by lia.
  change (map (fun k : Z => u8 (mlen ≫ k)) [56; 48; 40; 32; 24; 16; 8] ++ [u8 mlen])
    with ([b 56; b 48; b 40; b 32] ++ [b 24; b 16; b 8; u8 mlen]).
  destruct (Nat.le_gt_cases 3 L) as [H3|H3]; [by rewrite Hw|].
  by rewrite !drop_app_ge, Lw by (rewrite ?Lw; cbn [length]; lia).
Qed.

(** Associated data, in a context whose nonce has just been set. *)
Section with_aad.
Context (E : list Z -> list Z) `{!BlockFn E}.
Context (N : list Z) (L : nat) (HL : (L <= 7)%nat) (HN : nbytes (14 - L) N).
Context (f : Z) (Hf : is_byte f) (Hf' : is_byte (f + 64)).
Context (H0 : Z.land f 0x40 = 0) (H1 : Z.land (f + 64) 0x40 <> 0) (Ho : Z.lor f 0x40 = f + 64).

Lemma aad_spec ctx adata mlen :
  nonce ctx = nonce_block N f mlen -> nbytes 16 (cmac ctx) -> bytes adata -> 0 <= blocks ctx ->
  let ctx' := CRYPTO_ccm128_aad E ctx adata in
  nonce ctx' = nonce_block N (if (length adata =? 0)%nat then f else f + 64) mlen /\
  nbytes 16 (cmac ctx') /\ first_mac E ctx' = header_mac E N f mlen adata /\
  0 <= blocks ctx' <= blocks ctx + 1 + Z.of_nat (length adata).
Proof.
  intros Hn Hc Ha Hb. unfold CRYPTO_ccm128_aad, header_mac, first_mac.
  destruct (Nat.eqb_spec (length adata) 0) as [E0|E0].
  { rewrite Hn. unfold nonce_block, byte_at. cbn [nth]. rewrite H0. split_and!; try done; lia. }
  rewrite Hn. change (byte_at (nonce_block N f mlen) 0) with f. rewrite Ho.
  change (<[0%nat:=f + 64]> (nonce_block N f mlen)) with (nonce_block N (f + 64) mlen).
  rewrite <- aad_prefix_encode. set (p := aad_prefix _).
  destruct (aad_prefix_ok (Z.of_nat (length adata)) ltac:(lia)) as [Lp Bp]. fold p in Lp, Bp.
  set (c := E (nonce_block N (f + 64) mlen)).
  assert (Bc : nbytes 16 c) by (by apply block_ok, (nonce_block_ok N L HL HN)).
  rewrite xor_at_0 by (destruct Bc; lia).
  pose proof (aad_loop_spec E (length adata) p adata c (u64 (blocks ctx + 1)) (le_n _)) as Hs.
  specialize (Hs ltac:(by intros ->) Lp Bc Bp Ha).
  pose proof (aad_loop_blocks E (length adata) (length p) adata (xor_bytes c (pad16 p))
    (u64 (blocks ctx + 1)) (proj1 (u64_le (blocks ctx + 1) ltac:(lia)))) as Hk.
  pose proof (u64_le (blocks ctx + 1) ltac:(lia)).
  destruct (aad_loop E _ _ _ _ _) as [c' k']. cbn [nonce cmac blocks fst snd] in *.
  change (byte_at (nonce_block N (f + 64) mlen) 0) with (f + 64).
  destruct (Z.eqb_spec (Z.land (f + 64) 64) 0) as [Ez|Ez]; [by destruct (H1 Ez)|].
  assert (Hc' : nbytes 16 c').
  { rewrite Hs. apply cbc_mac_ok; [done..|]. by apply bytes_app. }
  split_and!; [done|exact Hc'|exact Hs|lia|lia].
Qed.
End with_aad.

Lemma cipher_involutive E `{!BlockFn E} N L (HL : (L <= 7)%nat) (HN : nbytes (14 - L) N) msg :
  bytes msg ->
  let c := rfc3610_cipher E N (Z.of_nat L) msg in
  length c = length msg /\ bytes c /\ rfc3610_cipher E N (Z.of_nat L) c = msg.
Proof.
  intros Hb. unfold rfc3610_cipher. destruct (key_stream_ok E N L HL HN (nblocks msg) 1) as [Lk Bk].
  assert (Hn : (length msg <= 16 * nblocks msg)%nat).
  { unfold nblocks. pose proof (Nat.div_mod (length msg + 15) 16 ltac:(lia)).
    pose proof (Nat.mod_upper_bound (length msg + 15) 16 ltac:(lia)). lia. }
  assert (Lx : length (xor_bytes (key_stream E N (Z.of_nat L) (nblocks msg) 1) msg) = length msg).
  { rewrite length_xor_bytes. lia. }
  split_and!; [done|by apply bytes_xor|]. unfold nblocks at 1. rewrite Lx. fold (nblocks msg).
  rewrite (xor_bytes_comm _ msg), (xor_bytes_comm _ (xor_bytes _ _)). apply xor_bytes_cancel. lia.
Qed.

(** ** Sending and receiving a message *)

(** The admissible parameters: the length of the tag and of the counter. *)
Definition ccm_params (M L : Z) : Prop := (exists m, 0 <= m <= 7 /\ M = 2 * m + 2) /\ 1 <= L <= 8.

(** A message within the limits: its length fits the counter field, and the
    number of block operations stays below 2^61. *)
Definition ccm_message (L : Z) (iv adata msg : list Z) : Prop :=
  bytes iv /\ bytes adata /\ bytes msg /\ (15 - Z.to_nat L <= length iv)%nat /\
  Z.of_nat (length msg) < 256 ^ L /\ Z.of_nat (length adata) + Z.of_nat (length msg) < 2 ^ 60.

(** The state in which a context is ready for the text of a message. *)
Definition ccm_start (E : list Z -> list Z) (raw : CCM128_CONTEXT) (M L : Z) (iv adata : list Z)
  (mlen : Z) : Z * CCM128_CONTEXT :=
  let '(r, ctx) := CRYPTO_ccm128_setiv (CRYPTO_ccm128_init raw M L) iv mlen in
  (r, CRYPTO_ccm128_aad E ctx adata).

Section message.
Context (E : list Z -> list Z) `{!BlockFn E} (M L : Z) (HP : ccm_params M L).
Let K : nat := Z.to_nat (L - 1).

Lemma ccm_start_spec raw iv adata mlen :
  nbytes 16 (cmac raw) -> bytes iv -> bytes adata -> (15 - Z.to_nat L <= length iv)%nat -> 0 <= mlen ->
  exists ctx f,
    ccm_start E raw M L iv adata mlen = (0, ctx) /\
    nonce ctx = nonce_block (take (14 - K) iv) f mlen /\ is_byte f /\ Z.land f 7 = Z.of_nat K /\
    Z.land (Z.shiftr f 3) 7 * 2 + 2 = M /\ nbytes 16 (cmac ctx) /\
    first_mac E ctx = header_mac E (take (14 - K) iv) (rfc3610_flags M L) mlen adata /\
    0 <= blocks ctx <= 1 + Z.of_nat (length adata).
Proof.
  intros Hc Bi Ba Hi Hm. destruct HP as [HM HL].
  destruct (flags_cases M L HM HL) as (F0 & F1 & F2 & F3 & F4 & F5 & F6 & F7 & F8 & F9 & F10).
  set (f := rfc3610_flags M L) in *. assert (EK : Z.of_nat K = L - 1) by (unfold K; lia).
  assert (En : nonce (CRYPTO_ccm128_init raw M L) = f :: replicate 15 0).
  { rewrite <- F0. reflexivity. }
  assert (EL : ccm_L (f :: replicate 15 0) = K).
  { unfold ccm_L. change (byte_at (f :: replicate 15 0) 0) with f. by rewrite F3. }
  assert (Bn : nbytes 16 (f :: replicate 15 0)).
  { split; [done|]. apply Forall_cons_2; [done|]. apply Forall_replicate. unfold is_byte. lia. }
  unfold ccm_start. pose proof (setiv_spec (CRYPTO_ccm128_init raw M L) iv mlen) as Hs.
  rewrite En in Hs. cbv zeta in Hs. rewrite EL in Hs. rewrite (Hs Bn Hm). clear Hs.
  assert (Hlen : (14 - K <= length iv)%nat) by (unfold K; lia).
  destruct (Nat.ltb_spec (length iv) (14 - K)); [lia|].
  change (byte_at (f :: replicate 15 0) 0) with f. rewrite F8.
  set (N := take (14 - K) iv).
  assert (BN : nbytes (14 - K) N) by (split; [unfold N; rewrite length_take; lia|by apply bytes_take]).
  set (ctx1 := mkCcm _ _ _).
  destruct (aad_spec E N K ltac:(unfold K; lia) BN f F2 F5 F6 F7 ctx1 adata mlen eq_refl Hc Ba)
    as (A1 & A2 & A3 & A4); [done|].
  exists (CRYPTO_ccm128_aad E ctx1 adata), (if (length adata =? 0)%nat then f else f + 64).
  rewrite EK. change (blocks ctx1) with 0 in A4.
  split_and!; try done; try lia; destruct (_ =? 0)%nat; done.
Qed.

Lemma ccm_enc_blocks_fit f ctx alen len :
  0 <= blocks ctx <= 1 + Z.of_nat alen -> Z.of_nat alen + Z.of_nat len < 2 ^ 60 ->
  enc_blocks f ctx len <= 2 ^ 61.
Proof.
  intros Hb Hl. pose proof (enc_blocks_le f ctx len ltac:(lia)).
  assert ((Z.of_nat len + 15) / 8 <= Z.of_nat len + 15) by (Z.div_mod_to_equations; lia).
  assert (16 + 2 ^ 60 + 4 <= 2 ^ 61) by (vm_compute; discriminate). lia.
Qed.

(** C35: CCM: for every admissible M and L, a context that is set up, takes
    the nonce, the associated data (of any length, none included) and a message
    within the limits of the mode yields exactly the ciphertext of RFC 3610,
    and the tag call yields the RFC's tag, for any block function. *)
Theorem ccm128_is_rfc3610 raw iv adata msg :
  nbytes 16 (cmac raw) -> ccm_message L iv adata msg ->
  let N := take (15 - Z.to_nat L) iv in
  exists ctx ctx',
    ccm_start E raw M L iv adata (Z.of_nat (length msg)) = (0, ctx) /\
    CRYPTO_ccm128_encrypt E ctx msg = (0, rfc3610_cipher E N (L - 1) msg, ctx') /\
    CRYPTO_ccm128_tag ctx' M =
      (M, take (Z.to_nat M) (rfc3610_mac E N (L - 1) (rfc3610_flags M L) adata msg)).
Proof.
  intros Hc (Bi & Ba & Bm & Hi & Hlt & Hsum) N. destruct HP as [HM HL].
  destruct (ccm_start_spec raw iv adata (Z.of_nat (length msg)) Hc Bi Ba Hi ltac:(lia))
    as (ctx & f & Hs & Hn & Bf & Hf & HfM & Hc' & Hm & Hb).
  assert (EN : (14 - K = 15 - Z.to_nat L)%nat) by (unfold K; lia). rewrite EN in *. fold N in Hn, Hm.
  assert (BN : nbytes (14 - K) N) by (split; [unfold N; rewrite length_take; lia|by apply bytes_take]).
  assert (EK : Z.of_nat K = L - 1) by (unfold K; lia).
  assert (Hlt' : Z.of_nat (length msg) < 256 ^ Z.of_nat (S K)).
  { by replace (Z.of_nat (S K)) with L by lia. }
  exists ctx. eexists. split; [exact Hs|].
  rewrite (encrypt_spec E N K ltac:(unfold K; lia) BN f Bf Hf ctx msg Hn Hc' Bm Hlt')
    by (by apply (ccm_enc_blocks_fit f ctx (length adata))).
  rewrite EK. split; [reflexivity|].
  unfold CRYPTO_ccm128_tag. change (byte_at (nonce (mkCcm (nonce_block N f 0) _ _)) 0) with f.
  rewrite HfM, Z.eqb_refl. cbn [negb cmac]. by rewrite Hm.
Qed.

(** CCM: the receiver, a context of its own with the same parameters,
    nonce and associated data, gets from the ciphertext the message back and
    computes the same tag as the sender. *)
Theorem ccm128_roundtrip raw raw' iv adata msg :
  nbytes 16 (cmac raw) -> nbytes 16 (cmac raw') -> ccm_message L iv adata msg ->
  exists ctx1 ctx1' ctx2 ctx2' c,
    ccm_start E raw M L iv adata (Z.of_nat (length msg)) = (0, ctx1) /\
    CRYPTO_ccm128_encrypt E ctx1 msg = (0, c, ctx1') /\ length c = length msg /\
    ccm_start E raw' M L iv adata (Z.of_nat (length c)) = (0, ctx2) /\
    CRYPTO_ccm128_decrypt E ctx2 c = (0, msg, ctx2') /\
    fst (CRYPTO_ccm128_tag ctx1' M) = M /\ CRYPTO_ccm128_tag ctx2' M = CRYPTO_ccm128_tag ctx1' M.
Proof.
  intros Hc Hr (Bi & Ba & Bm & Hi & Hlt & Hsum). destruct HP as [HM HL].
  set (N := take (14 - K) iv).
  assert (BN : nbytes (14 - K) N).
  { split; [unfold N, K; rewrite length_take; lia|by apply bytes_take]. }
  assert (HK : (K <= 7)%nat) by (unfold K; lia).
  assert (Hlt' : Z.of_nat (length msg) < 256 ^ Z.of_nat (S K)).
  { replace (Z.of_nat (S K)) with L by (unfold K; lia). done. }
  destruct (ccm_start_spec raw iv adata (Z.of_nat (length msg)) Hc Bi Ba Hi ltac:(lia))
    as (ctx1 & f & Hs & Hn & Bf & Hf & HfM & Hc' & Hm & Hb). fold N in Hn, Hm.
  destruct (ccm_start_spec raw' iv adata (Z.of_nat (length msg)) Hr Bi Ba Hi ltac:(lia))
    as (ctx2 & g & Gs & Gn & Bg & Gf & GfM & Gc' & Gm & Gb). fold N in Gn, Gm.
  destruct (cipher_involutive E N K HK BN msg Bm) as (Lc & Bc & Hinv).
  set (c := rfc3610_cipher E N (Z.of_nat K) msg) in *.
  exists ctx1. eexists. exists ctx2. eexists. exists c. rewrite Lc.
  split; [exact Hs|]. split.
  { by rewrite (encrypt_spec E N K HK BN f Bf Hf ctx1 msg Hn Hc' Bm Hlt')
      by (by apply (ccm_enc_blocks_fit f ctx1 (length adata))). }
  split; [done|]. split; [exact Gs|]. split.
  { rewrite (decrypt_spec E N K HK BN g Bg Gf ctx2 c) by (done || by rewrite Lc).
    by rewrite Hinv. }
  unfold CRYPTO_ccm128_tag. cbn [nonce cmac].
  change (byte_at (nonce_block N f 0) 0) with f. change (byte_at (nonce_block N g 0) 0) with g.
  rewrite HfM, GfM, Z.eqb_refl. cbn [negb]. split; [done|]. unfold nblocks. by rewrite Lc, Hm, Gm.
Qed.
End message.

(** ** The variants over a block stream, and refusals *)

(** What a function that processes [n] blocks in one call promises: the output
    and the MAC of the loop over single blocks. *)
Class Ccm64Stream
  (loop : nat -> list Z -> list Z -> list Z -> list Z * list Z * list Z)
  (stream : list Z -> nat -> list Z -> list Z -> list Z * list Z) : Prop :=
  stream_loop : forall inp n ctr mac,
    nbytes 16 ctr -> nbytes 16 mac -> bytes inp -> (16 * n <= length inp)%nat ->
    stream inp n ctr mac = (fst (fst (loop n inp ctr mac)), snd (loop n inp ctr mac)).

(** The side conditions of the parts: MAC blocks and strings of bytes. *)
Ltac solve_mac :=
  repeat first [ done | apply cbc_mac_ok | eassumption | apply bytes_take | apply bytes_drop
               | match goal with H : forall i q d, bytes d -> bytes _ |- _ => apply H end ].

Section ccm64_calls.
Context (E : list Z -> list Z) `{!BlockFn E}.
Context (N : list Z) (L : nat) (HL : (L <= 7)%nat) (HN : nbytes (14 - L) N).
Let b : Z := Z.of_nat L.

(** One call for the whole blocks and one addition to the counter; the counter
    is left behind when the message ends there. *)
Lemma ccm64_blocks_spec loop stream `{!Ccm64Stream loop stream} inp mac o m :
  nbytes 16 mac -> bytes inp -> Z.of_nat (length inp) < 256 ^ Z.of_nat (S L) ->
  let k := (length inp / 16)%nat in
  loop k inp (nonce_block N b 1) mac = (o, nonce_block N b (1 + Z.of_nat k), m) ->
  (k = 0%nat -> o = [] /\ m = mac) ->
  exists i, ccm64_blocks stream inp (nonce_block N b 1) mac = (o, nonce_block N b i, m) /\
    ((length (drop (16 * k) inp) = 0)%nat \/ i = 1 + Z.of_nat k).
Proof.
  intros Hm Hb Hlt k Hloop Hz. unfold ccm64_blocks. fold k.
  destruct (message_split inp) as (Ht & Hr & Hq). fold k in Ht, Hr, Hq.
  assert (Hk : (16 * k <= length inp)%nat) by (rewrite length_take in Ht; lia).
  pose proof (whole_blocks_fit L inp Hlt) as Hfit. fold k in Hfit.
  destruct (Nat.eqb_spec k 0) as [K0|K0].
  { destruct (Hz K0) as [-> ->]. exists 1. split; [done|]. right. lia. }
  rewrite stream_loop by (done || by apply (nonce_block_ok N L HL HN), b_byte).
  rewrite Hloop. cbn [fst snd]. rewrite length_drop.
  destruct (Nat.eqb_spec (length inp - 16 * k) 0).
  - exists 1. split; [done|by left].
  - exists (1 + Z.of_nat k). split; [|by right]. rewrite (ctr64_add_block N L) by (done || lia). done.
Qed.
End ccm64_calls.

Section ccm64_equal.
Context (E : list Z -> list Z) `{!BlockFn E}.
Context (senc sdec : list Z -> nat -> list Z -> list Z -> list Z * list Z).
Context `{!Ccm64Stream (ccm_enc_loop E) senc} `{!Ccm64Stream (ccm_dec_loop E) sdec}.

(** CCM: the variants that hand all whole blocks to one call and then add
    their number to the counter behave exactly like the block-by-block
    functions, on every context and input: the same result, the same output and
    the same context, in the refusals as well, although the counter they leave
    behind may differ before the end of the call. *)
Theorem ccm64_equals_ccm128 ctx inp :
  nbytes 16 (nonce ctx) -> nbytes 16 (cmac ctx) -> bytes inp ->
  CRYPTO_ccm128_encrypt_ccm64 E senc ctx inp = CRYPTO_ccm128_encrypt E ctx inp /\
  CRYPTO_ccm128_decrypt_ccm64 E sdec ctx inp = CRYPTO_ccm128_decrypt E ctx inp.
Proof.
  intros Hn Hc Hb. destruct (nonce_shape _ Hn) as (N & z & HL & HN & Hf & Hfl & Hz & En).
  set (L := ccm_L (nonce ctx)) in *. set (f := byte_at (nonce ctx) 0) in *.
  pose proof (first_mac_ok E N L HL HN f Hf ctx z En Hc) as Hm.
  unfold CRYPTO_ccm128_encrypt_ccm64, CRYPTO_ccm128_encrypt, CRYPTO_ccm128_decrypt_ccm64,
    CRYPTO_ccm128_decrypt. fold L f.
  assert (Hrd : read_length L (15 - L) 0 (nonce ctx) = z).
  { rewrite En. rewrite (read_length_block N L HL HN), Z.mod_small by (done || lia). done. }
  assert (Hfc : first_counter (nonce ctx) = nonce_block N (Z.of_nat L) 1).
  { rewrite En. by rewrite (first_counter_block N L HL HN). }
  rewrite Hrd, Hfc.
  destruct (Z.eqb_spec z (Z.of_nat (length inp))) as [Ez|Ne]; [|done]. cbn [negb].
  destruct (message_split inp) as (Ht & Hr & Hq). set (k := (length inp / 16)%nat) in *.
  assert (Hk : (16 * k <= length inp)%nat) by (rewrite length_take in Ht; lia).
  pose proof (whole_blocks_fit L inp ltac:(lia)) as Hfit. fold k in Hfit.
  assert (Hx : forall i q d, bytes d -> bytes (xor_bytes (key_stream E N (Z.of_nat L) q i) d)).
  { intros i q d Hd. apply bytes_xor; [|done]. apply (key_stream_ok E N L HL HN). }
  split.
  - rewrite (ccm_enc_loop_spec E N L HL HN) by (done || lia).
    destruct (ccm64_blocks_spec N L HL HN (ccm_enc_loop E) senc inp (first_mac E ctx) _ _ Hm Hb ltac:(lia)
      (ccm_enc_loop_spec E N L HL HN k inp 1 (first_mac E ctx) Hb Hk Hm ltac:(lia) Hfit)) as (i & -> & Hi);
      [intros Hk0; fold k in Hk0; by rewrite Hk0|].
    fold k in Hi |- *.
    rewrite !(enc_tail_spec E N L HL) by (done || by apply cbc_mac_ok).
    rewrite !(finish_spec E N L HL HN f Hfl) by (repeat apply cbc_mac_ok; try done; by apply bytes_drop).
    destruct Hi as [Hi| ->]; [|done]. apply length_zero_iff_nil in Hi. by rewrite Hi.
  - rewrite (ccm_dec_loop_spec E N L HL HN) by (done || lia).
    destruct (ccm64_blocks_spec N L HL HN (ccm_dec_loop E) sdec inp (first_mac E ctx) _ _ Hm Hb ltac:(lia)
      (ccm_dec_loop_spec E N L HL HN k inp 1 (first_mac E ctx) Hb Hk Hm ltac:(lia) Hfit)) as (i & -> & Hi);
      [intros Hk0; fold k in Hk0; by rewrite Hk0|].
    fold k in Hi |- *.
    rewrite !(dec_tail_spec E N L HL HN) by solve_mac.
    rewrite !(finish_spec E N L HL HN f Hfl) by solve_mac.
    destruct Hi as [Hi| ->]; [|done]. apply length_zero_iff_nil in Hi. by rewrite Hi.
Qed.
End ccm64_equal.

Section refusals.
Context (E : list Z -> list Z) `{!BlockFn E}.

(** CCM refusals: a nonce shorter than 14 - L bytes is refused with -1
    and leaves the context as it was; otherwise the length is taken modulo the
    capacity of its field, and encryption and decryption return -1, with
    nothing written, exactly for the texts of another length, leaving a context
    whose flags are lost: it has the parameters M = 2 and the length 1. *)
Theorem ccm128_refuses ctx iv mlen inp :
  nbytes 16 (nonce ctx) -> bytes iv -> 0 <= mlen ->
  let L := ccm_L (nonce ctx) in
  let '(r, ctx') := CRYPTO_ccm128_setiv ctx iv mlen in
  let '(re, oe, ce) := CRYPTO_ccm128_encrypt E ctx' inp in
  let '(rd, od, cd) := CRYPTO_ccm128_decrypt E ctx' inp in
  if (length iv <? 14 - L)%nat then r = -1 /\ ctx' = ctx
  else
    r = 0 /\
    (re = -1 <-> Z.of_nat (length inp) <> mlen mod 256 ^ Z.of_nat (S L)) /\
    (rd = -1 <-> Z.of_nat (length inp) <> mlen mod 256 ^ Z.of_nat (S L)) /\
    (re = -1 -> oe = [] /\ od = [] /\ nonce ce = nonce cd /\
       nonce ce = nonce_block (take (14 - L) iv) (Z.of_nat L) 1 /\
       fst (CRYPTO_ccm128_tag ce 2) = 2).
Proof.
  intros Hn Bi Hm. cbv zeta. rewrite setiv_spec by done. cbv zeta.
  destruct (nonce_shape _ Hn) as (_ & _ & HL & _ & Hf & Hfl & _). cbv zeta in *.
  set (L := ccm_L (nonce ctx)) in *. set (f := byte_at (nonce ctx) 0) in *.
  destruct (Nat.ltb_spec (length iv) (14 - L)) as [Hlt|Hge].
  { by destruct (CRYPTO_ccm128_encrypt _ _ _) as [[re oe] ce], (CRYPTO_ccm128_decrypt _ _ _) as [[rd od] cd]. }
  set (N := take (14 - L) iv).
  assert (BN : nbytes (14 - L) N) by (split; [unfold N; rewrite length_take; lia|by apply bytes_take]).
  set (g := Z.land f (Z.lnot 64)).
  assert (Hg : is_byte g /\ Z.land g 7 = Z.of_nat L).
  { split.
    - apply is_byte_bits; [apply Z.land_nonneg; left; unfold is_byte in Hf; lia|].
      intros i Hi. unfold g. by rewrite Z.land_spec, testbit_byte.
    - unfold g. rewrite <- Z.land_assoc. change (Z.land (Z.lnot 64) 7) with 7. exact Hfl. }
  destruct Hg as [Bg Hgl]. set (ctx1 := mkCcm _ _ _).
  unfold CRYPTO_ccm128_encrypt, CRYPTO_ccm128_decrypt.
  change (nonce ctx1) with (nonce_block N g mlen). rewrite (ccm_L_block N L) by done.
  rewrite (read_length_block N L HL BN), (first_counter_block N L HL BN) by done.
  destruct (Z.eqb_spec (mlen mod 256 ^ Z.of_nat (S L)) (Z.of_nat (length inp))) as [Ez|Ne]; cbn [negb].
  - destruct (ccm_enc_loop E _ _ _ _) as [[o1 c1] m1], (ccm_enc_tail _ _ _ _) as [o2 m2],
      (ccm_dec_loop E _ _ _ _) as [[o3 c3] m3], (ccm_dec_tail _ _ _ _) as [o4 m4], (_ <? u64 _);
    (split_and!; [done|split; [discriminate|by intros []]|split; [discriminate|by intros []]|discriminate]).
  - split_and!; try done. intros _. split_and!; try done.
    unfold CRYPTO_ccm128_tag. cbn [nonce]. change (byte_at (nonce_block N (Z.of_nat L) 1) 0) with (Z.of_nat L).
    do 8 (destruct L as [|L]; [reflexivity|]). lia.
Qed.
End refusals.

(** ** Witnesses *)

(** The block streams as loops over single blocks. *)
Definition loop_stream (loop : nat -> list Z -> list Z -> list Z -> list Z * list Z * list Z)
  (inp : list Z) (n : nat) (ctr mac : list Z) : list Z * list Z :=
  (fst (fst (loop n inp ctr mac)), snd (loop n inp ctr mac)).

#[export] Instance loop_stream_ok loop : Ccm64Stream loop (loop_stream loop).
Proof. by intros inp n ctr mac. Qed.

Definition raw_ctx : CCM128_CONTEXT := mkCcm [] (replicate 16 7) 99.

Lemma params_8_2 : ccm_params 8 2.
Proof. split; [exists 3; lia|lia]. Qed.

Lemma message_8_2 : ccm_message 2 (seqZ 0 13) (seqZ 5 9) (seqZ 0 37).
Proof. unfold ccm_message. split_and!; try solve_closed; vm_compute; lia. Qed.

Lemma ccm128_is_rfc3610_witness :
  exists ctx ctx',
    ccm_start toy_enc raw_ctx 8 2 (seqZ 0 13) (seqZ 5 9) 37 = (0, ctx) /\
    CRYPTO_ccm128_encrypt toy_enc ctx (seqZ 0 37) =
      (0, rfc3610_cipher toy_enc (seqZ 0 13) 1 (seqZ 0 37), ctx') /\
    CRYPTO_ccm128_tag ctx' 8 =
      (8, take 8 (rfc3610_mac toy_enc (seqZ 0 13) 1 (rfc3610_flags 8 2) (seqZ 5 9) (seqZ 0 37))).
Proof.
  exact (ccm128_is_rfc3610 toy_enc 8 2 params_8_2 raw_ctx _ _ _ ltac:(solve_closed) message_8_2).
Defined.

Lemma ccm128_roundtrip_witness :
  exists ctx1 ctx1' ctx2 ctx2' c,
    ccm_start toy_enc raw_ctx 8 2 (seqZ 0 13) (seqZ 5 9) 37 = (0, ctx1) /\
    CRYPTO_ccm128_encrypt toy_enc ctx1 (seqZ 0 37) = (0, c, ctx1') /\ length c = 37%nat /\
    ccm_start toy_enc raw_ctx 8 2 (seqZ 0 13) (seqZ 5 9) (Z.of_nat (length c)) = (0, ctx2) /\
    CRYPTO_ccm128_decrypt toy_enc ctx2 c = (0, seqZ 0 37, ctx2') /\
    fst (CRYPTO_ccm128_tag ctx1' 8) = 8 /\ CRYPTO_ccm128_tag ctx2' 8 = CRYPTO_ccm128_tag ctx1' 8.
Proof.
  exact (ccm128_roundtrip toy_enc 8 2 params_8_2 raw_ctx raw_ctx _ _ _
    ltac:(solve_closed) ltac:(solve_closed) message_8_2).
Defined.

Lemma ccm64_equals_ccm128_witness :
  let ctx := mkCcm (1 :: seqZ 0 13 ++ [0; 37]) (replicate 16 7) 0 in
  CRYPTO_ccm128_encrypt_ccm64 toy_enc (loop_stream (ccm_enc_loop toy_enc)) ctx (seqZ 0 37) =
    CRYPTO_ccm128_encrypt toy_enc ctx (seqZ 0 37) /\
  CRYPTO_ccm128_decrypt_ccm64 toy_enc (loop_stream (ccm_dec_loop toy_enc)) ctx (seqZ 0 37) =
    CRYPTO_ccm128_decrypt toy_enc ctx (seqZ 0 37).
Proof.
  intros ctx.
  exact (ccm64_equals_ccm128 toy_enc _ _ ctx (seqZ 0 37) ltac:(solve_closed) ltac:(solve_closed)
    ltac:(solve_closed)).
Defined.

Lemma ccm128_refuses_witness :
  let ctx := mkCcm (1 :: replicate 15 0) (replicate 16 7) 0 in
  let '(r, ctx') := CRYPTO_ccm128_setiv ctx (seqZ 0 13) 65573 in
  let '(re, oe, ce) := CRYPTO_ccm128_encrypt toy_enc ctx' (seqZ 0 36) in
  let '(rd, od, cd) := CRYPTO_ccm128_decrypt toy_enc ctx' (seqZ 0 36) in
  r = 0 /\ (re = -1 <-> 36 <> 65573 mod 256 ^ 2) /\ (rd = -1 <-> 36 <> 65573 mod 256 ^ 2) /\
  (re = -1 -> oe = [] /\ od = [] /\ nonce ce = nonce cd /\
     nonce ce = nonce_block (seqZ 0 13) 1 1 /\ fst (CRYPTO_ccm128_tag ce 2) = 2).
Proof.
  intros ctx.
  exact (ccm128_refuses toy_enc ctx (seqZ 0 13) 65573 (seqZ 0 36)
    ltac:(solve_closed) ltac:(solve_closed) ltac:(lia)).
Defined.
