(* ===== verification/Base64.v ===== *)
(** * Base64 (openssl crypto/evp/encode.c)

    The encoder and decoder of the EVP layer: one-shot functions, and contexts
    that take the data in chunks of any size.  A context keeps up to a line of
    input; the output of an update is the list of bytes it writes. *)

From S2P Require Import Prelude Bytes Stream.
From stdpp Require Import strings.
#[local] Open Scope Z_scope.

(** The bytes of a string literal. *)
Definition literal (s : string) : list Z :=
  map (fun c => Z.of_N (Ascii.N_of_ascii c)) (String.list_ascii_of_string s).

Definition data_bin2ascii : list Z :=
  literal "ABCDEFGHIJKLMNOPQRSTUVWXYZabcdefghijklmnopqrstuvwxyz0123456789+/".
Definition srpdata_bin2ascii : list Z :=
  literal "0123456789ABCDEFGHIJKLMNOPQRSTUVWXYZabcdefghijklmnopqrstuvwxyz./".

Definition B64_EOLN : Z := 0xF0.
Definition B64_CR : Z := 0xF1.
Definition B64_EOF : Z := 0xF2.
Definition B64_WS : Z := 0xE0.
Definition B64_ERROR : Z := 0xFF.
Definition B64_NOT_BASE64 (a : Z) : bool := Z.lor a 0x13 =? 0xF3.
Definition B64_BASE64 (a : Z) : bool := negb (B64_NOT_BASE64 a).

Definition data_ascii2bin : list Z :=
  [0xFF; 0xFF; 0xFF; 0xFF; 0xFF; 0xFF; 0xFF; 0xFF;
   0xFF; 0xE0; 0xF0; 0xFF; 0xFF; 0xF1; 0xFF; 0xFF;
   0xFF; 0xFF; 0xFF; 0xFF; 0xFF; 0xFF; 0xFF; 0xFF;
   0xFF; 0xFF; 0xFF; 0xFF; 0xFF; 0xFF; 0xFF; 0xFF;
   0xE0; 0xFF; 0xFF; 0xFF; 0xFF; 0xFF; 0xFF; 0xFF;
   0xFF; 0xFF; 0xFF; 0x3E; 0xFF; 0xF2; 0xFF; 0x3F;
   0x34; 0x35; 0x36; 0x37; 0x38; 0x39; 0x3A; 0x3B;
   0x3C; 0x3D; 0xFF; 0xFF; 0xFF; 0x00; 0xFF; 0xFF;
   0xFF; 0x00; 0x01; 0x02; 0x03; 0x04; 0x05; 0x06;
   0x07; 0x08; 0x09; 0x0A; 0x0B; 0x0C; 0x0D; 0x0E;
   0x0F; 0x10; 0x11; 0x12; 0x13; 0x14; 0x15; 0x16;
   0x17; 0x18; 0x19; 0xFF; 0xFF; 0xFF; 0xFF; 0xFF;
   0xFF; 0x1A; 0x1B; 0x1C; 0x1D; 0x1E; 0x1F; 0x20;
   0x21; 0x22; 0x23; 0x24; 0x25; 0x26; 0x27; 0x28;
   0x29; 0x2A; 0x2B; 0x2C; 0x2D; 0x2E; 0x2F; 0x30;
   0x31; 0x32; 0x33; 0xFF; 0xFF; 0xFF; 0xFF; 0xFF].

Definition srpdata_ascii2bin : list Z :=
  [0xFF; 0xFF; 0xFF; 0xFF; 0xFF; 0xFF; 0xFF; 0xFF;
   0xFF; 0xE0; 0xF0; 0xFF; 0xFF; 0xF1; 0xFF; 0xFF;
   0xFF; 0xFF; 0xFF; 0xFF; 0xFF; 0xFF; 0xFF; 0xFF;
   0xFF; 0xFF; 0xFF; 0xFF; 0xFF; 0xFF; 0xFF; 0xFF;
   0xE0; 0xFF; 0xFF; 0xFF; 0xFF; 0xFF; 0xFF; 0xFF;
   0xFF; 0xFF; 0xFF; 0xFF; 0xFF; 0xF2; 0x3E; 0x3F;
   0x00; 0x01; 0x02; 0x03; 0x04; 0x05; 0x06; 0x07;
   0x08; 0x09; 0xFF; 0xFF; 0xFF; 0x00; 0xFF; 0xFF;
   0xFF; 0x0A; 0x0B; 0x0C; 0x0D; 0x0E; 0x0F; 0x10;
   0x11; 0x12; 0x13; 0x14; 0x15; 0x16; 0x17; 0x18;
   0x19; 0x1A; 0x1B; 0x1C; 0x1D; 0x1E; 0x1F; 0x20;
   0x21; 0x22; 0x23; 0xFF; 0xFF; 0xFF; 0xFF; 0xFF;
   0xFF; 0x24; 0x25; 0x26; 0x27; 0x28; 0x29; 0x2A;
   0x2B; 0x2C; 0x2D; 0x2E; 0x2F; 0x30; 0x31; 0x32;
   0x33; 0x34; 0x35; 0x36; 0x37; 0x38; 0x39; 0x3A;
   0x3B; 0x3C; 0x3D; 0xFF; 0xFF; 0xFF; 0xFF; 0xFF].

Definition conv_bin2ascii (a : Z) (table : list Z) : Z := nth (Z.to_nat (Z.land a 0x3f)) table 0.

Definition conv_ascii2bin (a : Z) (table : list Z) : Z :=
  if negb (Z.land a 0x80 =? 0) then B64_ERROR else nth (Z.to_nat a) table 0.

Definition EVP_ENCODE_CTX_NO_NEWLINES : Z := 1.
Definition EVP_ENCODE_CTX_USE_SRP_ALPHABET : Z := 2.

(** [struct evp_Encode_Ctx_st] *)
Record EVP_ENCODE_CTX := mkEnc {
  num : Z;
  length_ : Z;
  enc_data : list Z;
  line_num : Z;
  flags : Z
}.

(** [EVP_ENCODE_CTX_new] clears the memory; [EVP_ENCODE_CTX_copy] copies it. *)
Definition EVP_ENCODE_CTX_new : EVP_ENCODE_CTX := mkEnc 0 0 (replicate 80 0) 0 0.
Definition EVP_ENCODE_CTX_copy (sctx : EVP_ENCODE_CTX) : EVP_ENCODE_CTX := sctx.
Definition evp_encode_ctx_set_flags (ctx : EVP_ENCODE_CTX) (fl : Z) : EVP_ENCODE_CTX :=
  mkEnc (num ctx) (length_ ctx) (enc_data ctx) (line_num ctx) fl.
Definition set_num (n : Z) (ctx : EVP_ENCODE_CTX) : EVP_ENCODE_CTX :=
  mkEnc n (length_ ctx) (enc_data ctx) (line_num ctx) (flags ctx).
Definition set_data (d : list Z) (ctx : EVP_ENCODE_CTX) : EVP_ENCODE_CTX :=
  mkEnc (num ctx) (length_ ctx) d (line_num ctx) (flags ctx).

Definition flag_set (ctx : EVP_ENCODE_CTX) (f : Z) : bool := negb (Z.land (flags ctx) f =? 0).

(** ** Encoding *)

(** The alphabet that [ctx], which may be null, selects. *)
Definition bin2ascii (ctx : option EVP_ENCODE_CTX) : list Z :=
  match ctx with
  | Some c => if flag_set c EVP_ENCODE_CTX_USE_SRP_ALPHABET then srpdata_bin2ascii else data_bin2ascii
  | None => data_bin2ascii
  end.

(** [for (i = dlen; i > 0; i -= 3)]: the characters from [f] on. *)
Fixpoint encode_loop (fuel : nat) (table : list Z) (f : list Z) (i : Z) : list Z :=
  match fuel with
  | O => []
  | S k =>
      if 0 <? i then
        let group :=
          if 3 <=? i then
            let l := Z.lor (Z.lor (Z.shiftl (byte_at f 0) 16) (Z.shiftl (byte_at f 1) 8)) (byte_at f 2) in
            [conv_bin2ascii (Z.shiftr l 18) table; conv_bin2ascii (Z.shiftr l 12) table;
             conv_bin2ascii (Z.shiftr l 6) table; conv_bin2ascii l table]
          else
            let l := Z.shiftl (byte_at f 0) 16 in
            let l := if i =? 2 then Z.lor l (Z.shiftl (byte_at f 1) 8) else l in
            [conv_bin2ascii (Z.shiftr l 18) table; conv_bin2ascii (Z.shiftr l 12) table;
             if i =? 1 then 61 else conv_bin2ascii (Z.shiftr l 6) table; 61] in
        group ++ encode_loop k table (drop 3 f) (i - 3)
      else []
  end.

(** [evp_encodeblock_int]: the returned count and what is written, with the
    terminating zero. *)
Definition evp_encodeblock_int (ctx : option EVP_ENCODE_CTX) (f : list Z) (dlen : Z) : Z * list Z :=
  let t := encode_loop (Z.to_nat dlen) (bin2ascii ctx) f dlen in
  (Z.of_nat (length t), t ++ [0]).

Definition EVP_EncodeBlock (f : list Z) (dlen : Z) : Z * list Z := evp_encodeblock_int None f dlen.

Definition EVP_EncodeInit (ctx : EVP_ENCODE_CTX) : EVP_ENCODE_CTX := mkEnc 0 48 (enc_data ctx) 0 0.

(** One encoded line, with the newline and the terminating zero. *)
Definition encode_line (ctx : EVP_ENCODE_CTX) (f : list Z) (dlen : Z) : list Z :=
  let '(j, t) := evp_encodeblock_int (Some ctx) f dlen in
  take (Z.to_nat j) t ++ (if flag_set ctx EVP_ENCODE_CTX_NO_NEWLINES then [] else [10]) ++ [0].

(** Writing at [out], whose terminating zero is overwritten. *)
Definition write_line (out line : list Z) : list Z := removelast out ++ line.

(** [while (inl >= ctx->length && total <= INT_MAX)]: what is left of the input
    and the output with its terminating zero. *)
Fixpoint encode_lines (fuel : nat) (ctx : EVP_ENCODE_CTX) (inp : list Z) (inl : Z) (out : list Z)
  : outcome (list Z * Z * list Z) :=
  if (length_ ctx <=? inl) && (Z.of_nat (length (removelast out)) <=? INT_MAX) then
    match fuel with
    | O => NoFuel
    | S k => encode_lines k ctx (drop (Z.to_nat (length_ ctx)) inp) (inl - length_ ctx)
               (write_line out (encode_line ctx inp (length_ ctx)))
    end
  else Ret (inp, inl, out).

(** [EVP_EncodeUpdate]: the result, [*outl], what was written to [out]. *)
Definition EVP_EncodeUpdate (ctx : EVP_ENCODE_CTX) (inp : list Z) (inl : Z)
  : outcome (Z * Z * list Z * EVP_ENCODE_CTX) :=
  if inl <=? 0 then Ret (0, 0, [], ctx)
  else if 80 <? length_ ctx then Exit
  else if inl <? length_ ctx - num ctx then
    bytes ← mem_read inp 0 inl;
    d ← mem_write (enc_data ctx) (num ctx) bytes;
    Ret (1, 0, [], set_num (num ctx + inl) (set_data d ctx))
  else
    '(ctx, inp, inl, out) ←
      (if num ctx =? 0 then Ret (ctx, inp, inl, [])
       else
         let i := length_ ctx - num ctx in
         bytes ← mem_read inp 0 i;
         d ← mem_write (enc_data ctx) (num ctx) bytes;
         let ctx := set_data d ctx in
         let line := encode_line ctx d (length_ ctx) in
         Ret (set_num 0 ctx, drop (Z.to_nat i) inp, inl - i, line));
    '(inp, inl, out) ← encode_lines (Z.to_nat inl) ctx inp inl out;
    let total := Z.of_nat (length (removelast out)) in
    if INT_MAX <? total then Ret (0, 0, out, ctx)
    else
      d ← (if inl =? 0 then Ret (enc_data ctx)
           else bytes ← mem_read inp 0 inl; mem_write (enc_data ctx) 0 bytes);
      Ret (1, total, out, set_num inl (set_data d ctx)).

(** [EVP_EncodeFinal] *)
Definition EVP_EncodeFinal (ctx : EVP_ENCODE_CTX) : Z * list Z * EVP_ENCODE_CTX :=
  if num ctx =? 0 then (0, [], ctx)
  else
    let out := encode_line ctx (enc_data ctx) (num ctx) in
    (Z.of_nat (length (removelast out)), out, set_num 0 ctx).

(** ** Decoding *)

Definition ascii2bin (ctx : option EVP_ENCODE_CTX) : list Z :=
  match ctx with
  | Some c => if flag_set c EVP_ENCODE_CTX_USE_SRP_ALPHABET then srpdata_ascii2bin else data_ascii2bin
  | None => data_ascii2bin
  end.

(** [while ((n > 0) && (conv_ascii2bin( *f, table) == B64_WS))] *)
Fixpoint trim_front (fuel : nat) (table f : list Z) (n : Z) : list Z * Z :=
  match fuel with
  | O => (f, n)
  | S k =>
      if (0 <? n) && (conv_ascii2bin (byte_at f 0) table =? B64_WS)
      then trim_front k table (drop 1 f) (n - 1) else (f, n)
  end.

(** [while ((n > 3) && (B64_NOT_BASE64(conv_ascii2bin(f[n - 1], table))))] *)
Fixpoint trim_back (fuel : nat) (table f : list Z) (n : Z) : Z :=
  match fuel with
  | O => n
  | S k =>
      if (3 <? n) && B64_NOT_BASE64 (conv_ascii2bin (byte_at f (Z.to_nat (n - 1))) table)
      then trim_back k table f (n - 1) else n
  end.

(** [for (i = 0; i < n; i += 4)], [n] being the characters left: whether it
    comes to its end, and the bytes that are written. *)
Fixpoint decode_loop (fuel : nat) (table f : list Z) (n : Z) : bool * list Z :=
  match fuel with
  | O => (true, [])
  | S k =>
      if 0 <? n then
        let a := conv_ascii2bin (byte_at f 0) table in
        let b := conv_ascii2bin (byte_at f 1) table in
        let c := conv_ascii2bin (byte_at f 2) table in
        let d := conv_ascii2bin (byte_at f 3) table in
        if negb (Z.land a 0x80 =? 0) || negb (Z.land b 0x80 =? 0)
           || negb (Z.land c 0x80 =? 0) || negb (Z.land d 0x80 =? 0)
        then (false, [])
        else
          let l := Z.lor (Z.lor (Z.lor (Z.shiftl a 18) (Z.shiftl b 12)) (Z.shiftl c 6)) d in
          let '(ok, t) := decode_loop k table (drop 4 f) (n - 4) in
          (ok, u8 (Z.shiftr l 16) :: u8 (Z.shiftr l 8) :: u8 l :: t)
      else (true, [])
  end.

(** [evp_decodeblock_int]: -1 or the count, and the bytes that are written. *)
Definition evp_decodeblock_int (ctx : option EVP_ENCODE_CTX) (f : list Z) (n : Z) : Z * list Z :=
  let table := ascii2bin ctx in
  let '(f, n) := trim_front (Z.to_nat n) table f n in
  let n := trim_back (Z.to_nat n) table f n in
  if negb (n mod 4 =? 0) then (-1, [])
  else
    let '(ok, t) := decode_loop (Z.to_nat n) table f n in
    (if (ok : bool) then Z.of_nat (length t) else -1, t).

Definition EVP_DecodeBlock (f : list Z) (n : Z) : Z * list Z := evp_decodeblock_int None f n.

Definition EVP_DecodeInit (ctx : EVP_ENCODE_CTX) : EVP_ENCODE_CTX := mkEnc 0 0 (enc_data ctx) 0 0.

(** The locals of [EVP_DecodeUpdate] that change in its loop: [n], [d], [eof],
    and the output, of which the first [ret] bytes count. *)
Record decode_state := mkDec { dec_n : Z; dec_d : list Z; dec_eof : Z; dec_ret : Z; dec_out : list Z }.

(** The block in [d] is decoded to the end of the counted output; the flag says
    whether that was possible. *)
Definition decode_flush (ctx : EVP_ENCODE_CTX) (s : decode_state) : bool * decode_state :=
  let '(decoded_len, t) := evp_decodeblock_int (Some ctx) (dec_d s) (dec_n s) in
  if (decoded_len <? 0) || (decoded_len <? dec_eof s)
  then (false, mkDec 0 (dec_d s) (dec_eof s) (dec_ret s) (take (Z.to_nat (dec_ret s)) (dec_out s) ++ t))
  else (true, mkDec 0 (dec_d s) (dec_eof s) (dec_ret s + (decoded_len - dec_eof s))
                (take (Z.to_nat (dec_ret s)) (dec_out s) ++ t)).

(** How the loop ends: at the end of the input or at an end-of-file character,
    both with the tail to come, or with an error. *)
Inductive decode_exit := AtEnd | AtEof | AtError.

Fixpoint decode_chars (ctx : EVP_ENCODE_CTX) (inp : list Z) (s : decode_state)
  : outcome (decode_exit * decode_state) :=
  match inp with
  | [] => Ret (AtEnd, s)
  | tmp :: rest =>
      let v := conv_ascii2bin tmp (ascii2bin (Some ctx)) in
      if v =? B64_ERROR then Ret (AtError, s)
      else
        let more := (0 <? dec_eof s) && B64_BASE64 v in
        let eof := if tmp =? 61 then dec_eof s + 1 else dec_eof s in
        if negb (tmp =? 61) && more then Ret (AtError, s)
        else
          let s := mkDec (dec_n s) (dec_d s) eof (dec_ret s) (dec_out s) in
          if 2 <? eof then Ret (AtError, s)
          else if v =? B64_EOF then Ret (AtEof, s)
          else if B64_BASE64 v && (64 <=? dec_n s) then Ret (AtError, s)
          else
            s ← (if B64_BASE64 v then
                   d ← mem_write (dec_d s) (dec_n s) [tmp];
                   Ret (mkDec (dec_n s + 1) d eof (dec_ret s) (dec_out s))
                 else Ret s);
            if dec_n s =? 64 then
              let '(ok, s) := decode_flush ctx s in
              if (ok : bool) then decode_chars ctx rest s else Ret (AtError, s)
            else decode_chars ctx rest s
  end.

(** The number of padding characters at the end of [d]. *)
Definition saved_eof (d : list Z) (n : Z) : Z :=
  if (0 <? n) && (byte_at d (Z.to_nat (n - 1)) =? 61) then
    if (1 <? n) && (byte_at d (Z.to_nat (n - 2)) =? 61) then 2 else 1
  else 0.

(** [EVP_DecodeUpdate]: the result, [*outl], what was written to [out]. *)
Definition EVP_DecodeUpdate (ctx : EVP_ENCODE_CTX) (inp : list Z)
  : outcome (Z * Z * list Z * EVP_ENCODE_CTX) :=
  let s0 := mkDec (num ctx) (enc_data ctx) (saved_eof (enc_data ctx) (num ctx)) 0 [] in
  let stop rv s := Ret (rv, dec_ret s, dec_out s, set_num (dec_n s) (set_data (dec_d s) ctx)) in
  match inp with
  | [] => stop 0 s0
  | _ :: _ =>
      '(e, s) ← decode_chars ctx inp s0;
      let seof := match e with AtEof => true | _ => false end in
      let result s := stop (if seof || ((dec_n s =? 0) && negb (dec_eof s =? 0)) then 0 else 1) s in
      match e with
      | AtError => stop (-1) s
      | _ =>
          if 0 <? dec_n s then
            if Z.land (dec_n s) 3 =? 0 then
              let '(ok, s) := decode_flush ctx s in
              if (ok : bool) then result s else stop (-1) s
            else if seof then stop (-1) s
            else result s
          else result s
      end
  end.

(** [EVP_DecodeFinal] *)
Definition EVP_DecodeFinal (ctx : EVP_ENCODE_CTX) : Z * Z * list Z * EVP_ENCODE_CTX :=
  if num ctx =? 0 then (1, 0, [], ctx)
  else
    let '(i, t) := evp_decodeblock_int (Some ctx) (enc_data ctx) (num ctx) in
    if i <? 0 then (-1, 0, t, ctx) else (1, i, t, set_num 0 ctx).

(** ** Reference: RFC 4648, sections 3 and 4 *)

(** The character of a 6-bit value. *)
Definition b64_char (alphabet : list Z) (v : Z) : Z := nth (Z.to_nat v) alphabet 0.

(** Groups of 24 bits as four characters; one or two bytes at the end are
    completed with zero bits and padding. *)
Fixpoint base64 (alphabet : list Z) (data : list Z) : list Z :=
  match data with
  | [] => []
  | [a] => [b64_char alphabet (a / 4); b64_char alphabet (a mod 4 * 16); 61; 61]
  | [a; b] =>
      [b64_char alphabet (a / 4); b64_char alphabet (a mod 4 * 16 + b / 16);
       b64_char alphabet (b mod 16 * 4); 61]
  | a :: b :: c :: rest =>
      let v := 65536 * a + 256 * b + c in
      b64_char alphabet (v / 2 ^ 18) :: b64_char alphabet (v / 2 ^ 12 mod 64) ::
      b64_char alphabet (v / 2 ^ 6 mod 64) :: b64_char alphabet (v mod 64) :: base64 alphabet rest
  end.

Example base64_f : base64 data_bin2ascii (literal "f") = literal "Zg==".
Proof. reflexivity. Qed.

Example base64_foobar : base64 data_bin2ascii (literal "foobar") = literal "Zm9vYmFy".
Proof. reflexivity. Qed.

Example encode_foobar : EVP_EncodeBlock (literal "fooba") 5 = (8, literal "Zm9vYmE=" ++ [0]).
Proof. vm_compute. reflexivity. Qed.

Example decode_foobar : EVP_DecodeBlock (literal "Zm9vYmE=") 8 = (6, literal "fooba" ++ [0]).
Proof. vm_compute. reflexivity. Qed.
