(* ===== verification/Base64Correct.v ===== *)
(** * Correctness of the base64 functions

    The code computes the base64 of RFC 4648; a text encoded in any chunks is
    the lines of the whole, and decoding it in any other chunks gives the data
    back. *)

From S2P Require Import Prelude Bytes Stream Base64.
From stdpp Require Import strings.
#[local] Open Scope Z_scope.

(** ** Groups *)

(** Induction in steps of three bytes. *)
Lemma triple_ind (P : list Z -> Prop) :
  P [] -> (forall a, P [a]) -> (forall a b, P [a; b]) ->
  (forall a b c l, P l -> P (a :: b :: c :: l)) -> forall l, P l.
Proof.
  intros H0 H1 H2 H3 l. assert (H : P l /\ (forall a, P (a :: l)) /\ (forall a b, P (a :: b :: l))); [|apply H].
  induction l as [|x l (I0 & I1 & I2)]; [done|]. split_and!; auto.
Qed.

Lemma land_63 z : Z.land z 0x3f = z mod 64.
Proof. change 0x3f with (Z.ones 6). by rewrite Z.land_ones by lia. Qed.

Lemma conv_bin2ascii_eq z table : conv_bin2ascii z table = b64_char table (z mod 64).
Proof. unfold conv_bin2ascii, b64_char. by rewrite land_63. Qed.

(** The 24 bits of a group. *)
Lemma group_bits a b c : is_byte a -> is_byte b -> is_byte c ->
  Z.lor (Z.lor (Z.shiftl a 16) (Z.shiftl b 8)) c = 65536 * a + 256 * b + c.
Proof.
  unfold is_byte. intros Ha Hb Hc. rewrite !Z.shiftl_mul_pow2 by lia.
  rewrite (lor_low a (b * 2 ^ 8) 16) by lia.
  replace (a * 2 ^ 16 + b * 2 ^ 8) with ((a * 2 ^ 8 + b) * 2 ^ 8) by lia. rewrite lor_low by lia. lia.
Qed.

Lemma base64_div a : is_byte a -> 0 <= a / 4 < 64.
Proof. unfold is_byte. intros. Z.div_mod_to_equations. lia. Qed.

Ltac arith := unfold is_byte in *; Z.div_mod_to_equations; lia.

Lemma encode_loop_base64 table data : bytes data -> forall fuel rest, (length data <= fuel)%nat ->
  encode_loop fuel table (data ++ rest) (Z.of_nat (length data)) = base64 table data.
Proof.
  induction data as [|a|a b|a b c l IH] using triple_ind; intros Hb fuel rest Hf.
  - by destruct fuel.
  - destruct fuel as [|[|k]]; [cbn in Hf; lia| |]; apply bytes_one in Hb;
      cbn [encode_loop length app]; change (Z.of_nat 1) with 1; cbn -[Z.shiftr Z.shiftl b64_char];
      rewrite !conv_bin2ascii_eq, Z.shiftl_mul_pow2, !Z.shiftr_div_pow2 by lia; unfold byte_at; cbn [nth];
      repeat f_equal; try arith; try (destruct k; done).
  - destruct fuel as [|k]; [cbn in Hf; lia|]. inversion Hb as [|? ? Ha Hb']; subst. apply bytes_one in Hb'.
    cbn [encode_loop length app]. change (Z.of_nat 2) with 2. cbn -[Z.shiftr Z.shiftl b64_char Z.lor].
    unfold byte_at; cbn [nth]. pose proof (group_bits a b 0 Ha Hb' ltac:(unfold is_byte; lia)) as E.
    rewrite Z.lor_0_r in E. rewrite E. rewrite !conv_bin2ascii_eq, !Z.shiftr_div_pow2 by lia.
    repeat f_equal; try arith. destruct k; done.
  - destruct fuel as [|k]; [cbn in Hf; lia|]. inversion Hb as [|? ? Ha Hb1]; inversion Hb1 as [|? ? Hb2 Hb3];
      inversion Hb3 as [|? ? Hc Hl]; subst.
    cbn [encode_loop]. change (length (a :: b :: c :: l)) with (3 + length l)%nat in *.
    destruct (Z.ltb_spec 0 (Z.of_nat (3 + length l))); [|lia].
    destruct (Z.leb_spec 3 (Z.of_nat (3 + length l))); [|lia]. unfold byte_at. cbn [app nth drop].
    rewrite group_bits by done. rewrite !conv_bin2ascii_eq, !Z.shiftr_div_pow2 by lia.
    cbn [app base64]. rewrite <- (IH Hl k rest) by lia.
    replace (Z.of_nat (3 + length l) - 3) with (Z.of_nat (length l)) by lia.
    do 2 f_equal. arith.
Qed.

Lemma length_base64 table data : length (base64 table data) = (4 * ((length data + 2) / 3))%nat.
Proof.
  induction data as [|a|a b|a b c l IH] using triple_ind; [done..|].
  cbn [base64 length]. rewrite IH. replace (S (S (S (length l))) + 2)%nat with (length l + 2 + 1 * 3)%nat by lia.
  rewrite Nat.div_add by lia. lia.
Qed.

Lemma base64_take table data k : take (4 * k) (base64 table data) = base64 table (take (3 * k) data).
Proof.
  revert k. induction data as [|a|a b|a b c l IH] using triple_ind; intros [|k]; try done;
    try (by rewrite !take_ge by (cbn [length base64]; lia)).
  replace (4 * S k)%nat with (4 + 4 * k)%nat by lia. replace (3 * S k)%nat with (3 + 3 * k)%nat by lia.
  cbn [base64 take Nat.add]. by rewrite IH.
Qed.

Lemma base64_drop table data k : drop (4 * k) (base64 table data) = base64 table (drop (3 * k) data).
Proof.
  revert k. induction data as [|a|a b|a b c l IH] using triple_ind; intros [|k]; try done;
    try (by rewrite !drop_ge by (cbn [length base64]; lia)).
  replace (4 * S k)%nat with (4 + 4 * k)%nat by lia. replace (3 * S k)%nat with (3 + 3 * k)%nat by lia.
  cbn [base64 drop Nat.add]. by rewrite IH.
Qed.

(** ** The block functions *)

Lemma encodeblock_eq ctx data rest : bytes data ->
  evp_encodeblock_int ctx (data ++ rest) (Z.of_nat (length data))
  = (Z.of_nat (length (base64 (bin2ascii ctx) data)), base64 (bin2ascii ctx) data ++ [0]).
Proof. intros Hb. unfold evp_encodeblock_int. by rewrite encode_loop_base64 by (done || lia). Qed.

(** What an alphabet and its inverse table must satisfy. *)
Record alphabet_ok (alpha table : list Z) : Prop := {
  alpha_inv v : 0 <= v < 64 -> conv_ascii2bin (b64_char alpha v) table = v;
  alpha_pad v : 0 <= v < 64 -> b64_char alpha v <> 61;
  table_pad : conv_ascii2bin 61 table = 0;
  table_newline : conv_ascii2bin 10 table = B64_EOLN
}.

Definition alphabet_check (alpha table : list Z) : bool :=
  forallb (fun v => (conv_ascii2bin (b64_char alpha v) table =? v) && negb (b64_char alpha v =? 61)) (seqZ 0 64)
  && (conv_ascii2bin 61 table =? 0) && (conv_ascii2bin 10 table =? B64_EOLN).

Lemma alphabet_checked alpha table : alphabet_check alpha table = true -> alphabet_ok alpha table.
Proof.
  intros [[H H1]%andb_true_iff H2]%andb_true_iff. rewrite forallb_forall in H.
  assert (Hv : forall v, 0 <= v < 64 -> conv_ascii2bin (b64_char alpha v) table = v /\ b64_char alpha v <> 61).
  { intros v Hv. assert (In v (seqZ 0 64)) as Hin by (apply list_elem_of_In, elem_of_seqZ; lia).
    apply H, andb_true_iff in Hin as [H3%Z.eqb_eq H4]. split; [done|].
    by apply negb_true_iff, Z.eqb_neq in H4. }
  split; try (intros v Hv'; by apply Hv); by apply Z.eqb_eq.
Qed.

Lemma alphabets_ok ctx : alphabet_ok (bin2ascii ctx) (ascii2bin ctx).
Proof.
  unfold bin2ascii, ascii2bin. destruct ctx as [c|]; [destruct (flag_set c _)|]; apply alphabet_checked;
    vm_compute; reflexivity.
Qed.

(** The bytes of whole groups: what decoding yields, padding included. *)
Definition pad_amount (n : nat) : nat := ((3 - n mod 3) mod 3)%nat.
Definition padded (data : list Z) : list Z := data ++ replicate (pad_amount (length data)) 0.

Lemma padded_cons a b c l : padded (a :: b :: c :: l) = a :: b :: c :: padded l.
Proof.
  unfold padded. cbn [app length]. do 4 f_equal. unfold pad_amount.
  replace (S (S (S (length l)))) with (length l + 1 * 3)%nat by lia. by rewrite Nat.Div0.mod_add.
Qed.

Lemma length_padded3 data : length (padded data) = (3 * ((length data + 2) / 3))%nat.
Proof.
  induction data as [|a|a b|a b c l IH] using triple_ind; [done..|]. rewrite padded_cons. cbn [length].
  rewrite IH. replace (S (S (S (length l))) + 2)%nat with (length l + 2 + 1 * 3)%nat by lia.
  rewrite Nat.div_add by lia. lia.
Qed.

(** Four 6-bit values make the three bytes again. *)
Lemma quad_bits a b c d : 0 <= a < 64 -> 0 <= b < 64 -> 0 <= c < 64 -> 0 <= d < 64 ->
  Z.lor (Z.lor (Z.lor (Z.shiftl a 18) (Z.shiftl b 12)) (Z.shiftl c 6)) d = 2 ^ 18 * a + 2 ^ 12 * b + 2 ^ 6 * c + d.
Proof.
  intros Ha Hb Hc Hd. rewrite !Z.shiftl_mul_pow2 by lia. rewrite (lor_low a (b * 2 ^ 12) 18) by lia.
  replace (a * 2 ^ 18 + b * 2 ^ 12) with ((a * 2 ^ 6 + b) * 2 ^ 12) by lia. rewrite lor_low by lia.
  replace ((a * 2 ^ 6 + b) * 2 ^ 12 + c * 2 ^ 6) with (((a * 2 ^ 6 + b) * 2 ^ 6 + c) * 2 ^ 6) by lia.
  rewrite lor_low by lia. lia.
Qed.

Lemma land_128_small v : 0 <= v < 64 -> Z.land v 0x80 =? 0 = true.
Proof.
  intros Hv. apply Z.eqb_eq, Z.bits_inj_0. intros i. rewrite Z.land_spec.
  change 0x80 with (2 ^ 7). destruct (decide (i = 7)) as [->|N].
  - rewrite <- (Z.mod_small v (2 ^ 6)) by lia. by rewrite Z.mod_pow2_bits_high by lia.
  - rewrite Z.pow2_bits_false by done. apply andb_false_r.
Qed.

(** One turn of the decoding loop. *)
Lemma decode_loop_quad k table x0 x1 x2 x3 a b c d rest n :
  conv_ascii2bin x0 table = a -> conv_ascii2bin x1 table = b -> conv_ascii2bin x2 table = c ->
  conv_ascii2bin x3 table = d -> 0 <= a < 64 -> 0 <= b < 64 -> 0 <= c < 64 -> 0 <= d < 64 -> 0 < n ->
  let v := 2 ^ 18 * a + 2 ^ 12 * b + 2 ^ 6 * c + d in
  decode_loop (S k) table (x0 :: x1 :: x2 :: x3 :: rest) n
  = let '(ok, t) := decode_loop k table rest (n - 4) in
    (ok, v / 2 ^ 16 mod 256 :: v / 2 ^ 8 mod 256 :: v mod 256 :: t).
Proof.
  intros E0 E1 E2 E3 Ha Hb Hc Hd Hn v. cbn [decode_loop]. destruct (Z.ltb_spec 0 n); [|lia].
  unfold byte_at. cbn [nth drop]. rewrite E0, E1, E2, E3, !land_128_small by done. cbn [negb orb].
  rewrite quad_bits, !Z.shiftr_div_pow2 by done. reflexivity.
Qed.

Lemma small_base64 v : 0 <= v < 64 -> B64_BASE64 v = true /\ (v =? B64_WS) = false /\ (v =? B64_ERROR) = false /\ (v =? B64_EOF) = false.
Proof.
  intros Hv.
  assert (H : forallb (fun v => B64_BASE64 v && negb (v =? B64_WS) && negb (v =? B64_ERROR) && negb (v =? B64_EOF)) (seqZ 0 64) = true)
    by reflexivity.
  rewrite forallb_forall in H. specialize (H v). rewrite !andb_true_iff, !negb_true_iff in H.
  destruct H as [[[H1 H2] H3] H4]; [|done]. apply list_elem_of_In, elem_of_seqZ. lia.
Qed.

Section decoding.
Context (alpha table : list Z) (Hok : alphabet_ok alpha table).

(** A character of an encoded text. *)
Definition code_char (c : Z) : Prop := 0 <= conv_ascii2bin c table < 64.

Lemma code_pad : code_char 61.
Proof. unfold code_char. rewrite (table_pad _ _ Hok). lia. Qed.

Lemma code_alpha v : 0 <= v < 64 -> code_char (b64_char alpha v).
Proof. intros Hv. unfold code_char. by rewrite (alpha_inv _ _ Hok). Qed.

Lemma base64_chars data : bytes data -> Forall code_char (base64 alpha data).
Proof.
  induction data as [|a|a b|a b c l IH] using triple_ind; intros Hb; cbn [base64].
  - constructor.
  - apply bytes_one in Hb. repeat constructor; try apply code_pad; apply code_alpha; arith.
  - inversion Hb as [|? ? Ha Hb']; subst. apply bytes_one in Hb'.
    repeat constructor; try apply code_pad; apply code_alpha; arith.
  - inversion Hb as [|? ? Ha Hb1]; inversion Hb1 as [|? ? Hb2 Hb3]; inversion Hb3 as [|? ? Hc Hl]; subst.
    repeat constructor; try (apply code_alpha; arith). by apply IH.
Qed.

Lemma decode_loop_base64 data : bytes data -> forall fuel rest, (length (base64 alpha data) <= fuel)%nat ->
  decode_loop fuel table (base64 alpha data ++ rest) (Z.of_nat (length (base64 alpha data))) = (true, padded data).
Proof.
  pose proof (table_pad _ _ Hok) as Hp.
  assert (Hinv : forall v, 0 <= v < 64 -> conv_ascii2bin (b64_char alpha v) table = v) by apply Hok.
  induction data as [|a|a b|a b c l IH] using triple_ind; intros Hb fuel rest Hf.
  - by destruct fuel.
  - apply bytes_one in Hb. destruct fuel as [|k]; [cbn in Hf; lia|]. cbn [base64 app].
    rewrite (decode_loop_quad k table _ _ _ _ (a / 4) (a mod 4 * 16) 0 0) by
      (try apply Hinv; try exact Hp; try done; arith).
    change (Z.of_nat (length _) - 4) with 0. replace (decode_loop k table rest 0) with (true, @nil Z) by (by destruct k).
    cbn [padded app length]. f_equal. unfold padded. cbn. repeat f_equal; arith.
  - inversion Hb as [|? ? Ha Hb']; subst. apply bytes_one in Hb'. destruct fuel as [|k]; [cbn in Hf; lia|]. cbn [base64 app].
    rewrite (decode_loop_quad k table _ _ _ _ (a / 4) (a mod 4 * 16 + b / 16) (b mod 16 * 4) 0) by
      (try apply Hinv; try exact Hp; try done; arith).
    change (Z.of_nat (length _) - 4) with 0. replace (decode_loop k table rest 0) with (true, @nil Z) by (by destruct k).
    f_equal. unfold padded. cbn [length app]. change (pad_amount 2) with 1%nat. cbn [replicate app]. repeat f_equal; arith.
  - inversion Hb as [|? ? Ha Hb1]; inversion Hb1 as [|? ? Hb2 Hb3]; inversion Hb3 as [|? ? Hc Hl]; subst.
    destruct fuel as [|k]; [cbn in Hf; lia|]. cbn [base64 app]. set (v := 65536 * a + 256 * b + c).
    rewrite (decode_loop_quad k table _ _ _ _ (v / 2 ^ 18) (v / 2 ^ 12 mod 64) (v / 2 ^ 6 mod 64) (v mod 64)) by
      (try apply Hinv; try done; unfold v; arith).
    replace (Z.of_nat (length (_ :: _ :: _ :: _ :: base64 alpha l)) - 4) with (Z.of_nat (length (base64 alpha l)))
      by (cbn [length]; lia).
    rewrite IH by (try done; cbn [base64 length] in Hf; lia). rewrite padded_cons.
    replace (2 ^ 18 * (v / 2 ^ 18) + 2 ^ 12 * (v / 2 ^ 12 mod 64) + 2 ^ 6 * (v / 2 ^ 6 mod 64) + v mod 64) with v
      by (unfold v; arith).
    unfold v. repeat f_equal; arith.
Qed.

Lemma trim_front_none fuel f n : 0 < n -> code_char (byte_at f 0) -> trim_front fuel table f n = (f, n).
Proof.
  intros Hn Hc. destruct fuel; [done|]. cbn [trim_front]. apply small_base64 in Hc as (_ & -> & _ & _).
  by rewrite andb_false_r.
Qed.

Lemma trim_back_none fuel f n : code_char (byte_at f (Z.to_nat (n - 1))) -> trim_back fuel table f n = n.
Proof.
  intros Hc. destruct fuel; [done|]. cbn [trim_back]. apply small_base64 in Hc as (Hc & _).
  unfold B64_BASE64 in Hc. apply negb_true_iff in Hc. by rewrite Hc, andb_false_r.
Qed.
End decoding.

Lemma decodeblock_eq ctx data rest : bytes data ->
  let t := base64 (bin2ascii ctx) data in
  evp_decodeblock_int ctx (t ++ rest) (Z.of_nat (length t)) = (Z.of_nat (length (padded data)), padded data).
Proof.
  intros Hb t. pose proof (alphabets_ok ctx) as Hok. unfold evp_decodeblock_int.
  assert (Hn : Z.of_nat (length t) mod 4 = 0).
  { unfold t. rewrite length_base64, Nat2Z.inj_mul. rewrite Z.mul_comm. by apply Z.mod_mul. }
  pose proof (base64_chars _ _ Hok data Hb) as Hc. fold t in Hc.
  assert (Ht : trim_front (Z.to_nat (Z.of_nat (length t))) (ascii2bin ctx) (t ++ rest) (Z.of_nat (length t))
               = (t ++ rest, Z.of_nat (length t)) /\
               forall fuel, trim_back fuel (ascii2bin ctx) (t ++ rest) (Z.of_nat (length t)) = Z.of_nat (length t)).
  { destruct (length t) as [|n] eqn:El.
    - split; [done|]. intros [|k]; done.
    - assert (Hall : forall i, (i <= n)%nat -> code_char (ascii2bin ctx) (byte_at (t ++ rest) i)).
      { intros i Hi. unfold byte_at. rewrite app_nth1 by lia. destruct (lookup_lt_is_Some_2 t i) as [x Hx]; [lia|].
        rewrite (nth_lookup_Some _ _ _ _ Hx). by eapply Forall_lookup_1. }
      split; [apply trim_front_none; [lia|apply Hall; lia]|]. intros fuel. apply trim_back_none.
      apply Hall. lia. }
  destruct Ht as [-> Ht]. rewrite Ht, Hn. cbn [Z.eqb negb].
  rewrite (decode_loop_base64 _ _ Hok data Hb) by (unfold t; lia). done.
Qed.

(** ** Encoding in chunks *)

Section encoding.
Context (ctx0 : EVP_ENCODE_CTX).
Notation alpha := (bin2ascii (Some ctx0)).

Definition newline : list Z := if flag_set ctx0 EVP_ENCODE_CTX_NO_NEWLINES then [] else [10].

(** The text of [n] full lines of 48 bytes. *)
Fixpoint text_lines (n : nat) (data : list Z) : list Z :=
  match n with
  | O => []
  | S k => base64 alpha (take 48 data) ++ newline ++ text_lines k (drop 48 data)
  end.

(** The text of all the data: full lines, and a shorter one for what is left. *)
Definition base64_text (data : list Z) : list Z :=
  let q := (length data / 48)%nat in
  text_lines q data ++
  (if (length data mod 48 =? 0)%nat then [] else base64 alpha (drop (48 * q) data) ++ newline).

Lemma text_lines_app a b data : text_lines (a + b) data = text_lines a data ++ text_lines b (drop (48 * a) data).
Proof.
  revert data. induction a as [|a IH]; intros data; [done|]. cbn [text_lines Nat.add]. rewrite IH, drop_drop, <- !app_assoc.
  replace (48 + 48 * a)%nat with (48 * S a)%nat by lia. done.
Qed.

Lemma text_lines_prefix a data more : (48 * a <= length data)%nat -> text_lines a (data ++ more) = text_lines a data.
Proof.
  revert data. induction a as [|a IH]; intros data Ha; [done|]. cbn [text_lines].
  rewrite take_app_le, drop_app_le by lia. by rewrite IH by (rewrite length_drop; lia).
Qed.

Lemma length_text_lines a data : (48 * a <= length data)%nat -> length (text_lines a data) = (a * (64 + length newline))%nat.
Proof.
  revert data. induction a as [|a IH]; intros data Ha; [done|]. cbn [text_lines].
  rewrite !length_app, length_base64, length_take, IH by (rewrite length_drop; lia).
  rewrite Nat.min_l by lia. change ((48 + 2) / 3)%nat with 16%nat. lia.
Qed.

(** A context that holds the bytes [p] of an unfinished line. *)
Definition enc_holds (p : list Z) (ctx : EVP_ENCODE_CTX) : Prop :=
  length_ ctx = 48 /\ flags ctx = flags ctx0 /\ num ctx = Z.of_nat (length p) /\ (length p < 48)%nat /\
  length (enc_data ctx) = 80%nat /\ take (length p) (enc_data ctx) = p.

Lemma same_alphabet ctx : flags ctx = flags ctx0 -> bin2ascii (Some ctx) = alpha.
Proof. intros E. unfold bin2ascii, flag_set. by rewrite E. Qed.

Lemma encode_line_eq ctx data rest : flags ctx = flags ctx0 -> bytes data ->
  encode_line ctx (data ++ rest) (Z.of_nat (length data)) = (base64 alpha data ++ newline) ++ [0].
Proof.
  intros E Hb. unfold encode_line. rewrite encodeblock_eq by done. rewrite Nat2Z.id, take_app_length.
  unfold newline, flag_set. rewrite E, (same_alphabet ctx E), app_assoc. done.
Qed.

Lemma write_line_eq out l : write_line out (l ++ [0]) = (removelast out ++ l) ++ [0].
Proof. unfold write_line. by rewrite app_assoc. Qed.

Lemma encode_lines_eq ctx : length_ ctx = 48 -> flags ctx = flags ctx0 ->
  forall fuel inp out, bytes inp -> (length inp <= fuel)%nat ->
  let q := (length inp / 48)%nat in
  exists inp' inl' out', encode_lines fuel ctx inp (Z.of_nat (length inp)) out = Ret (inp', inl', out') /\
    if Z.of_nat (length (removelast out) + length (text_lines q inp)) <=? INT_MAX then
      inp' = drop (48 * q) inp /\ inl' = Z.of_nat (length inp') /\
      out' = (if (q =? 0)%nat then out else (removelast out ++ text_lines q inp) ++ [0])
    else INT_MAX < Z.of_nat (length (removelast out')).
Proof.
  intros Hl Hf. induction fuel as [|k IH]; intros inp out Hb Hk q.
  { destruct inp; [|cbn in Hk; lia]. unfold q. cbn [encode_lines length text_lines]. rewrite Hl.
    change (48 <=? Z.of_nat 0) with false. cbn [andb]. eexists _, _, _. split; [reflexivity|].
    change (0 / 48)%nat with 0%nat. cbn. rewrite Nat.add_0_r. destruct (Z.leb_spec (Z.of_nat (length (removelast out))) INT_MAX); done. }
  cbn [encode_lines]. rewrite Hl. destruct (Z.leb_spec 48 (Z.of_nat (length inp))) as [Hge|Hlt].
  2: { cbn [andb]. eexists _, _, _. split; [reflexivity|]. unfold q. rewrite Nat.div_small by lia. cbn [text_lines length Nat.mul Nat.eqb].
       rewrite Nat.add_0_r, drop_0. destruct (Z.leb_spec (Z.of_nat (length (removelast out))) INT_MAX); done. }
  assert (Eq : q = S (length (drop 48 inp) / 48)).
  { unfold q. rewrite length_drop. replace (length inp) with (length inp - 48 + 1 * 48)%nat at 1 by lia.
    rewrite Nat.div_add by lia. lia. }
  destruct (Z.leb_spec (Z.of_nat (length (removelast out))) INT_MAX) as [Hsm|Hbig]; cbn [andb].
  - set (out1 := write_line out (encode_line ctx inp 48)).
    assert (E1 : out1 = (removelast out ++ base64 alpha (take 48 inp) ++ newline) ++ [0]).
    { unfold out1. assert (Z.of_nat (length (take 48 inp)) = 48) as E48 by (rewrite length_take; lia).
      rewrite <- (take_drop 48 inp) at 1. rewrite <- E48 at 1.
      rewrite encode_line_eq by (done || by apply bytes_take). by rewrite write_line_eq. }
    replace (Z.of_nat (length inp) - 48) with (Z.of_nat (length (drop 48 inp))) by (rewrite length_drop; lia).
    change (Z.to_nat 48) with 48%nat.
    destruct (IH (drop 48 inp) out1) as (inp' & inl' & out' & -> & H); [by apply bytes_drop|rewrite length_drop; lia|].
    eexists _, _, _. split; [reflexivity|]. rewrite Eq. cbn [text_lines Nat.eqb].
    rewrite E1, removelast_last in H. rewrite !length_app in *. rewrite Nat.add_assoc, Nat.add_assoc in *.
    destruct (_ <=? INT_MAX); [|exact H]. destruct H as (-> & -> & ->). rewrite drop_drop.
    split; [f_equal; lia|]. split; [done|]. destruct (_ =? 0)%nat eqn:E0.
    + apply Nat.eqb_eq in E0. rewrite E0. cbn [text_lines]. by rewrite app_nil_r.
    + by rewrite <- !app_assoc.
  - eexists _, _, _. split; [reflexivity|].
    destruct (Z.leb_spec (Z.of_nat (length (removelast out) + length (text_lines q inp))) INT_MAX); [lia|done].
Qed.

Lemma take_blit_end {A} (x l : list A) n : (n + length x <= length l)%nat -> take (n + length x) (blit n x l) = take n l ++ x.
Proof.
  intros Hn. unfold blit. rewrite app_assoc. rewrite take_app_le by (rewrite length_app, length_take; lia).
  apply take_ge. rewrite length_app, length_take. lia.
Qed.

(** An update without a full line keeps the data. *)
Lemma enc_holds_store p x ctx : enc_holds p ctx -> (length p + length x < 48)%nat ->
  enc_holds (p ++ x) (set_num (num ctx + Z.of_nat (length x)) (set_data (blit (length p) x (enc_data ctx)) ctx)).
Proof.
  intros (Hl & Hf & Hn & Hp & Hd & Ht) Hs. split_and!; cbn; try done.
  - rewrite length_app, Hn. lia.
  - rewrite length_app. lia.
  - rewrite length_blit by lia. done.
  - rewrite length_app, take_blit_end by lia. by rewrite Ht.
Qed.

Lemma enc_holds_rest x ctx : length_ ctx = 48 -> flags ctx = flags ctx0 -> length (enc_data ctx) = 80%nat ->
  (length x < 48)%nat ->
  (d ← (if Z.of_nat (length x) =? 0 then Ret (enc_data ctx)
        else bytes ← mem_read x 0 (Z.of_nat (length x)); mem_write (enc_data ctx) 0 bytes);
   Ret (set_num (Z.of_nat (length x)) (set_data d ctx)))
  = Ret (set_num (Z.of_nat (length x)) (set_data (blit 0 x (enc_data ctx)) ctx)) /\
  enc_holds x (set_num (Z.of_nat (length x)) (set_data (blit 0 x (enc_data ctx)) ctx)).
Proof.
  intros Hl Hf Hd Hx. split.
  - destruct (Z.eqb_spec (Z.of_nat (length x)) 0) as [E|E].
    + destruct x; [|cbn in E; lia]. rewrite bind_ret, blit_nil. done.
    + rewrite mem_read_ok, bind_ret by lia. rewrite Nat2Z.id, drop_0, take_ge by lia.
      rewrite mem_write_ok by lia. done.
  - split_and!; cbn; try done. { rewrite length_blit by lia. done. }
    apply (take_blit_end x (enc_data ctx) 0). lia.
Qed.

(** Every update: the full lines of what was held and what is added are put
    out, the rest is held; an output of more than [INT_MAX] bytes fails. *)
Lemma EncodeUpdate_eq p x ctx : enc_holds p ctx -> bytes p -> bytes x -> x <> [] ->
  let D := p ++ x in
  let q := (length D / 48)%nat in
  exists out ctx',
    if Z.of_nat (length (text_lines q D)) <=? INT_MAX then
      EVP_EncodeUpdate ctx x (Z.of_nat (length x)) = Ret (1, Z.of_nat (length (text_lines q D)), out, ctx') /\
      out = (if (q =? 0)%nat then [] else text_lines q D ++ [0]) /\ enc_holds (drop (48 * q) D) ctx'
    else EVP_EncodeUpdate ctx x (Z.of_nat (length x)) = Ret (0, 0, out, ctx').
Proof.
  intros Hh Hbp Hbx Hx D q. pose proof Hh as (Hl & Hf & Hn & Hp & Hd & Ht).
  assert (length x <> 0)%nat as Hx0 by (by intros ?%nil_length_inv).
  assert (HD : length D = (length p + length x)%nat) by apply length_app.
  unfold EVP_EncodeUpdate. destruct (Z.leb_spec (Z.of_nat (length x)) 0); [lia|].
  rewrite Hl. change (80 <? 48) with false. cbv iota. rewrite Hn.
  destruct (Z.ltb_spec (Z.of_nat (length x)) (48 - Z.of_nat (length p))) as [Hs|Hs].
  { assert (q = 0%nat) as Eq by (unfold q; rewrite Nat.div_small; lia). rewrite Eq, Nat.mul_0_r. cbn [text_lines length Nat.eqb].
    change (Z.of_nat 0 <=? INT_MAX) with true. cbv iota.
    rewrite mem_read_ok, bind_ret by lia. rewrite Nat2Z.id, drop_0, take_ge by lia.
    rewrite mem_write_ok, bind_ret by lia. rewrite Nat2Z.id. eexists _, _. split; [reflexivity|]. split; [done|].
    rewrite drop_0, <- Hn. apply enc_holds_store; [done|lia]. }
  destruct (Z.eqb_spec (Z.of_nat (length p)) 0) as [Hp0|Hp0].
  - assert (p = []) as -> by (apply nil_length_inv; lia). cbn [app] in D. subst D. rewrite bind_ret.
    destruct (encode_lines_eq ctx Hl Hf (Z.to_nat (Z.of_nat (length x))) x [] Hbx) as (inp' & inl' & out' & -> & H1); [lia|].
    rewrite bind_ret. cbn [removelast length Nat.add app] in H1. fold q in H1.
    destruct (Z.of_nat (length (text_lines q x)) <=? INT_MAX) eqn:Eb.
    + apply Z.leb_le in Eb. destruct H1 as (-> & -> & ->).
      assert (length (removelast (if (q =? 0)%nat then [] else text_lines q x ++ [0])) = length (text_lines q x)) as E1.
      { destruct (Nat.eqb_spec q 0) as [->|]; [done|]. by rewrite removelast_last. }
      rewrite E1. destruct (Z.ltb_spec INT_MAX (Z.of_nat (length (text_lines q x)))); [lia|].
      pose proof (Nat.div_mod_eq (length x) 48) as Em. pose proof (Nat.mod_upper_bound (length x) 48). fold q in Em.
      destruct (enc_holds_rest (drop (48 * q) x) ctx Hl Hf Hd ltac:(rewrite length_drop; lia)) as [E2 Hr].
      apply bind_Ret_inv in E2 as (d & -> & E2). injection E2 as E2. rewrite bind_ret, E2.
      eexists _, _. split; [reflexivity|]. split; [done|]. done.
    + destruct (Z.ltb_spec INT_MAX (Z.of_nat (length (removelast out')))); [|lia]. eexists _, _. reflexivity.
  - set (i := 48 - Z.of_nat (length p)). rewrite mem_read_ok, bind_ret by lia. change (Z.to_nat 0) with 0%nat. rewrite drop_0.
    set (n := Z.to_nat i). assert (length (take n x) = n) as En by (rewrite length_take; lia).
    rewrite mem_write_ok by lia. rewrite !bind_ret, Nat2Z.id.
    set (d := blit (length p) (take n x) (enc_data ctx)).
    assert (Hdl : length d = 80%nat) by (unfold d; rewrite length_blit by lia; done).
    assert (Hd48 : take 48 d = p ++ take n x).
    { unfold d. replace 48%nat with (length p + length (take n x))%nat by lia.
      rewrite take_blit_end by lia. by rewrite Ht. }
    assert (E48 : Z.of_nat (length (p ++ take n x)) = 48) by (rewrite length_app; lia).
    set (line := encode_line (set_data d ctx) d (length_ (set_data d ctx))).
    assert (El : line = (base64 alpha (p ++ take n x) ++ newline) ++ [0]).
    { pose proof (encode_line_eq (set_data d ctx) (p ++ take n x) (drop 48 d) Hf) as E.
      rewrite E48 in E. rewrite <- Hd48, take_drop, Hd48 in E. unfold line.
      change (length_ (set_data d ctx)) with (length_ ctx). rewrite Hl. apply E.
      apply bytes_app. split; [done|by apply bytes_take]. }
    set (ctx1 := set_num 0 (set_data d ctx)). set (x1 := drop n x).
    replace (Z.of_nat (length x) - i) with (Z.of_nat (length x1)) by (unfold x1; rewrite length_drop; lia).
    destruct (encode_lines_eq ctx1 Hl Hf (Z.to_nat (Z.of_nat (length x1))) x1 line) as (inp' & inl' & out' & -> & H1);
      [by apply bytes_drop|lia|].
    rewrite bind_ret. rewrite El, removelast_last in H1.
    assert (Eq : q = S (length x1 / 48)).
    { unfold q. rewrite HD. unfold x1. rewrite length_drop. replace (length p + length x)%nat with (length x - n + 1 * 48)%nat by lia.
      rewrite Nat.div_add by lia. lia. }
    assert (ED : D = (p ++ take n x) ++ x1) by (unfold D, x1; by rewrite <- app_assoc, take_drop).
    assert (ET : text_lines q D = (base64 alpha (p ++ take n x) ++ newline) ++ text_lines (length x1 / 48) x1).
    { rewrite Eq, ED. cbn [text_lines]. rewrite take_app_le, drop_app_le by lia.
      rewrite take_ge, drop_ge by lia. by rewrite app_assoc. }
    rewrite <- length_app, <- ET in H1. destruct (Z.of_nat (length (text_lines q D)) <=? INT_MAX) eqn:Eb.
    + apply Z.leb_le in Eb. destruct H1 as (-> & -> & ->).
      assert (Eo : (if (length x1 / 48 =? 0)%nat then (base64 alpha (p ++ take n x) ++ newline) ++ [0]
                    else text_lines q D ++ [0]) = text_lines q D ++ [0]).
      { destruct (Nat.eqb_spec (length x1 / 48) 0) as [E0|]; [|done]. rewrite ET, E0. cbn [text_lines]. by rewrite app_nil_r. }
      rewrite Eo, removelast_last. destruct (Z.ltb_spec INT_MAX (Z.of_nat (length (text_lines q D)))); [lia|].
      pose proof (Nat.div_mod_eq (length x1) 48) as Em. pose proof (Nat.mod_upper_bound (length x1) 48).
      set (q1 := (length x1 / 48)%nat) in *.
      destruct (enc_holds_rest (drop (48 * q1) x1) ctx1 Hl Hf Hdl ltac:(rewrite length_drop; lia)) as [E2 Hr].
      apply bind_Ret_inv in E2 as (d2 & -> & E2). injection E2 as E2. rewrite bind_ret, E2.
      eexists _, _. split; [reflexivity|]. rewrite Eq. split; [done|].
      assert (drop (48 * S q1) D = drop (48 * q1) x1) as ->; [|exact Hr].
      rewrite ED. replace (48 * S q1)%nat with (length (p ++ take n x) + 48 * q1)%nat by lia.
      by rewrite drop_app_add.
    + destruct (Z.ltb_spec INT_MAX (Z.of_nat (length (removelast out')))); [|lia]. eexists _, _. reflexivity.
Qed.

(** A caller that encodes chunk after chunk and keeps the bytes that count. *)
Fixpoint encode_chunks (ctx : EVP_ENCODE_CTX) (chunks : list (list Z)) : outcome (list Z) :=
  match chunks with
  | [] => let '(outl, out, _) := EVP_EncodeFinal ctx in Ret (take (Z.to_nat outl) out)
  | x :: r =>
      '(_, outl, out, ctx) ← EVP_EncodeUpdate ctx x (Z.of_nat (length x));
      t ← encode_chunks ctx r;
      Ret (take (Z.to_nat outl) out ++ t)
  end.

Lemma EncodeFinal_eq p ctx : enc_holds p ctx -> bytes p ->
  let '(outl, out, _) := EVP_EncodeFinal ctx in
  take (Z.to_nat outl) out = if (length p =? 0)%nat then [] else base64 alpha p ++ newline.
Proof.
  intros (Hl & Hf & Hn & Hp & Hd & Ht) Hb. unfold EVP_EncodeFinal. rewrite Hn.
  destruct (Z.eqb_spec (Z.of_nat (length p)) 0), (Nat.eqb_spec (length p) 0); try lia; [done|].
  rewrite <- (take_drop (length p) (enc_data ctx)), Ht, encode_line_eq by done.
  rewrite removelast_last, Nat2Z.id. by rewrite take_app_length.
Qed.

Lemma length_lines_bound data : Z.of_nat (65 * (length data / 48)) <= INT_MAX ->
  Z.of_nat (length (text_lines (length data / 48) data)) <= INT_MAX.
Proof.
  intros H. pose proof (Nat.div_mod_eq (length data) 48). rewrite length_text_lines by lia.
  assert (length newline <= 1)%nat by (unfold newline; destruct (flag_set _ _); cbn; lia). nia.
Qed.

Lemma encode_chunks_eq chunks : forall p ctx, enc_holds p ctx -> bytes p -> Forall bytes chunks ->
  Z.of_nat (65 * (length (p ++ concat chunks) / 48)) <= INT_MAX ->
  encode_chunks ctx chunks = Ret (base64_text (p ++ concat chunks)).
Proof.
  induction chunks as [|x r IH]; intros p ctx Hh Hb Hc Hmax; cbn [encode_chunks concat].
  - pose proof (EncodeFinal_eq p ctx Hh Hb) as E. destruct (EVP_EncodeFinal ctx) as [[outl out] ctx'].
    rewrite E, app_nil_r. pose proof Hh as (_ & _ & _ & Hp & _). unfold base64_text.
    rewrite Nat.div_small, Nat.mod_small by lia. cbn [text_lines app]. rewrite Nat.mul_0_r, drop_0. done.
  - apply Forall_cons in Hc as [Hx Hr]. destruct (decide (x = [])) as [->|Hne].
    { change (EVP_EncodeUpdate ctx [] _) with (Ret (0, 0, @nil Z, ctx)). by rewrite bind_ret, (IH p ctx Hh Hb Hr Hmax). }
    cbn [concat] in Hmax. rewrite app_assoc in *. set (D := p ++ x) in *. set (q := (length D / 48)%nat).
    assert (Hq : (q <= length (D ++ concat r) / 48)%nat)
      by (unfold q; apply Nat.Div0.div_le_mono; rewrite length_app; lia).
    destruct (EncodeUpdate_eq p x ctx Hh Hb Hx Hne) as (out & ctx' & H). fold D q in H.
    pose proof (length_lines_bound D ltac:(fold q; lia)) as HT. fold q in HT.
    destruct (Z.leb_spec (Z.of_nat (length (text_lines q D))) INT_MAX); [|lia]. destruct H as (-> & -> & Hh').
    pose proof (Nat.div_mod_eq (length D) 48) as Em. fold q in Em.
    assert (Hsplit : length (D ++ concat r) = (length (drop (48 * q) D ++ concat r) + q * 48)%nat)
      by (rewrite !length_app, length_drop; lia).
    assert (Hdiv : (length (D ++ concat r) / 48 = length (drop (48 * q) D ++ concat r) / 48 + q)%nat)
      by (rewrite Hsplit, Nat.div_add by lia; done).
    rewrite bind_ret, (IH _ _ Hh').
    + rewrite bind_ret. f_equal. unfold base64_text. rewrite Hdiv, Hsplit, Nat.Div0.mod_add.
      set (q' := (length (drop (48 * q) D ++ concat r) / 48)%nat).
      rewrite (Nat.add_comm q' q), text_lines_app, (text_lines_prefix q D), Nat.mul_add_distr_l, <- drop_drop by lia.
      rewrite !(drop_app_le D (concat r) (48 * q)) by lia. rewrite <- !app_assoc. f_equal.
      rewrite Nat2Z.id. destruct (Nat.eqb_spec q 0) as [->|]; [done|]. apply take_app_length.
    + by apply bytes_drop, bytes_app.
    + done.
    + rewrite Hdiv in Hmax. lia.
Qed.
End encoding.

(** ** Padding is at the end *)

Section padding.
Context (alpha table : list Z) (Hok : alphabet_ok alpha table).

Lemma base64_shape data : bytes data ->
  exists body, base64 alpha data = body ++ replicate (pad_amount (length data)) 61 /\ 61 ∉ body.
Proof.
  assert (Hc : forall v, 0 <= v < 64 -> 61 <> b64_char alpha v) by (intros v Hv E; by apply (alpha_pad _ _ Hok v)).
  induction data as [|a|a b|a b c l IH] using triple_ind; intros Hb.
  - exists []. split; [done|]. by intros ?%elem_of_nil.
  - apply bytes_one in Hb. eexists [_; _]. split; [reflexivity|].
    rewrite !elem_of_cons, elem_of_nil. intros H. destruct_or?; try done; (eapply Hc; [|eassumption]; arith).
  - inversion Hb as [|? ? Ha Hb']; subst. apply bytes_one in Hb'. eexists [_; _; _]. split; [reflexivity|].
    rewrite !elem_of_cons, elem_of_nil. intros H. destruct_or?; try done; (eapply Hc; [|eassumption]; arith).
  - inversion Hb as [|? ? Ha Hb1]; inversion Hb1 as [|? ? Hb2 Hb3]; inversion Hb3 as [|? ? Hc' Hl]; subst.
    destruct (IH Hl) as (body & E & Hn). cbn [base64]. rewrite E. eexists (_ :: _ :: _ :: _ :: body). split.
    + cbn [app]. do 5 f_equal. unfold pad_amount. cbn [length].
      replace (S (S (S (length l)))) with (length l + 1 * 3)%nat by lia. by rewrite Nat.Div0.mod_add.
    + rewrite !elem_of_cons. intros H. destruct_or?; try done; (eapply Hc; [|eassumption]; arith).
Qed.

(** The number of padding characters. *)
Definition pads (P : list Z) : nat := length (filter (fun c => c = 61) P).

Lemma pads_app a b : pads (a ++ b) = (pads a + pads b)%nat.
Proof. unfold pads. by rewrite filter_app, length_app. Qed.

Lemma pads_none a : 61 ∉ a -> pads a = 0%nat.
Proof.
  unfold pads. induction a as [|x a IH]; [done|]. intros H. apply not_elem_of_cons in H as [Hx H].
  rewrite filter_cons_False by congruence. by apply IH.
Qed.

Lemma pads_replicate n : pads (replicate n 61) = n.
Proof. induction n as [|n IH]; [done|]. cbn [replicate]. unfold pads in *. by rewrite filter_cons_True, length_cons, IH. Qed.

Lemma pad_amount_le n : (pad_amount n <= 2)%nat.
Proof. unfold pad_amount. pose proof (Nat.mod_upper_bound (3 - n mod 3) 3). lia. Qed.

(** A prefix of an encoded text: its padding is at its end, and after padding
    there is only more of it. *)
Lemma base64_prefix data P R : bytes data -> base64 alpha data = P ++ R ->
  exists body j, P = body ++ replicate j 61 /\ 61 ∉ body /\ (j <= 2)%nat /\ pads P = j /\
    (j <> 0%nat -> R = replicate (pads R) 61 /\ (j + pads R <= 2)%nat).
Proof.
  intros Hb E. destruct (base64_shape data Hb) as (body & Es & Hn). rewrite E in Es.
  pose proof (pad_amount_le (length data)) as Hp. set (m := pad_amount _) in *.
  destruct (app_eq_inv _ _ _ _ Es) as [(k & E1 & E2)|(k & E1 & E2)].
  - assert (length k <= m)%nat as Hk by (apply (f_equal length) in E2; rewrite length_app, length_replicate in E2; lia).
    assert (k = replicate (length k) 61 /\ R = replicate (m - length k) 61) as [Ek ER].
    { replace m with (length k + (m - length k))%nat in E2 by lia. rewrite replicate_add in E2.
      apply app_inj_1 in E2 as [E3 E4]; [by split|by rewrite length_replicate]. }
    exists body, (length k). rewrite <- Ek. split_and!; try done; [lia| |].
    + rewrite E1, pads_app, (pads_none body) by done. rewrite Ek at 1. by rewrite pads_replicate.
    + intros _. rewrite ER, pads_replicate. split; [done|lia].
  - exists P, 0%nat. cbn. rewrite app_nil_r. assert (61 ∉ P) as HP by (rewrite E1 in Hn; intros H; apply Hn, elem_of_app; by left).
    split_and!; try done; [lia|by apply pads_none].
Qed.

Lemma pads_base64 data : bytes data -> pads (base64 alpha data) = pad_amount (length data).
Proof.
  intros Hb. destruct (base64_shape data Hb) as (body & -> & Hn).
  by rewrite pads_app, pads_none, pads_replicate.
Qed.
End padding.

(** ** Decoding in chunks *)

Section streaming.
Context (ctx0 : EVP_ENCODE_CTX).
Notation alpha := (bin2ascii (Some ctx0)).
Notation table := (ascii2bin (Some ctx0)).

(** Characters that a decoder skips. *)
Definition blank (c : Z) : Prop :=
  conv_ascii2bin c table = B64_WS \/ conv_ascii2bin c table = B64_EOLN \/ conv_ascii2bin c table = B64_CR.

Definition text_char (c : Z) : Prop := code_char table c \/ blank c.

Definition strip (T : list Z) : list Z := filter (fun c => B64_BASE64 (conv_ascii2bin c table) = true) T.

(** The state of the loop that holds the pending characters [P]. *)
Definition dec_holds (P : list Z) (s : decode_state) : Prop :=
  dec_n s = Z.of_nat (length P) /\ (length P < 64)%nat /\ length (dec_d s) = 80%nat /\
  take (length P) (dec_d s) = P /\ 0 <= dec_ret s <= Z.of_nat (length (dec_out s)).

(** [eof] counts the pending padding, or what was decoded when nothing more is
    to come. *)
Definition eof_ok (P R : list Z) (e : Z) : Prop :=
  e = Z.of_nat (pads P) \/ (P = [] /\ R = [] /\ 0 <= e <= 2).

Definition counted (s : decode_state) : list Z := take (Z.to_nat (dec_ret s)) (dec_out s).

Lemma decode_flush_eq ctx s data rest : flags ctx = flags ctx0 -> bytes data ->
  dec_d s = base64 alpha data ++ rest -> dec_n s = Z.of_nat (length (base64 alpha data)) ->
  dec_eof s = Z.of_nat (pad_amount (length data)) -> 0 <= dec_ret s <= Z.of_nat (length (dec_out s)) ->
  exists s', decode_flush ctx s = (true, s') /\ dec_n s' = 0 /\ dec_d s' = dec_d s /\ dec_eof s' = dec_eof s /\
    counted s' = counted s ++ data /\ 0 <= dec_ret s' <= Z.of_nat (length (dec_out s')) /\
    dec_ret s' = dec_ret s + Z.of_nat (length data).
Proof.
  intros Hf Hb Hd Hn He Hr. unfold decode_flush. rewrite Hd, Hn.
  assert (bin2ascii (Some ctx) = alpha) as Ea by (unfold bin2ascii, flag_set; by rewrite Hf).
  rewrite <- Ea. pose proof (decodeblock_eq (Some ctx) data rest Hb) as E. cbv zeta in E. rewrite E.
  assert (length (padded data) = (length data + pad_amount (length data))%nat) as Hl
    by (unfold padded; by rewrite length_app, length_replicate).
  destruct (Z.ltb_spec (Z.of_nat (length (padded data))) 0), (Z.ltb_spec (Z.of_nat (length (padded data))) (dec_eof s));
    try lia. cbn [orb]. eexists. split; [reflexivity|]. cbn. split_and!; try done; try lia.
  - unfold counted. cbn. rewrite He, Hl.
    replace (Z.to_nat (dec_ret s + (Z.of_nat (length data + pad_amount (length data)) - Z.of_nat (pad_amount (length data)))))
      with (length (take (Z.to_nat (dec_ret s)) (dec_out s)) + length data)%nat by (rewrite length_take; lia).
    rewrite take_app_add. f_equal. unfold padded. by rewrite take_app_length.
  - rewrite length_app, length_take. lia.
Qed.

Lemma blank_facts c : blank c ->
  (conv_ascii2bin c table =? B64_ERROR) = false /\ B64_BASE64 (conv_ascii2bin c table) = false /\
  (conv_ascii2bin c table =? B64_EOF) = false /\ c <> 61.
Proof.
  intros Hc. assert (c <> 61) as Hne.
  { intros ->. unfold blank in Hc. rewrite (table_pad _ _ (alphabets_ok (Some ctx0))) in Hc. by destruct Hc as [?|[?|?]]. }
  by destruct Hc as [->|[->| ->]].
Qed.

Lemma strip_code c T : code_char table c -> strip (c :: T) = c :: strip T.
Proof. intros Hc. unfold strip. apply filter_cons_True. by apply small_base64. Qed.

Lemma strip_blank c T : blank c -> strip (c :: T) = strip T.
Proof. intros Hc. unfold strip. apply filter_cons_False. by rewrite (proj1 (proj2 (blank_facts c Hc))). Qed.

Lemma pads_le2 data P R : bytes data -> P ++ R = base64 alpha data -> (pads P <= 2)%nat.
Proof.
  intros Hb E. destruct (base64_prefix _ _ (alphabets_ok (Some ctx0)) data P R Hb (eq_sym E)) as (? & j & _ & _ & ? & -> & _). done.
Qed.

(** The padding count after one more character of an encoded text. *)
Lemma pads_step data P c R : bytes data -> P ++ c :: R = base64 alpha data ->
  if c =? 61 then pads (P ++ [c]) = S (pads P) else pads P = 0%nat /\ pads (P ++ [c]) = 0%nat.
Proof.
  intros Hb E. destruct (Z.eqb_spec c 61) as [->|Hc].
  - rewrite pads_app. change (pads [61]) with 1%nat. lia.
  - assert (pads [c] = 0%nat) as H1 by (apply pads_none; intros H%list_elem_of_singleton; congruence).
    assert (pads P = 0%nat); [|by rewrite pads_app; lia].
    destruct (base64_prefix _ _ (alphabets_ok (Some ctx0)) data P (c :: R) Hb (eq_sym E)) as (? & j & _ & _ & _ & Hj & Hr).
    destruct (decide (j = 0%nat)) as [->|Hj0]; [done|]. destruct (Hr Hj0) as [Er _].
    destruct (pads (c :: R)); [done|]. by injection Er as Ec _.
Qed.

Lemma split_take data P R m : P ++ R = base64 alpha data -> length P = (4 * m)%nat ->
  P = base64 alpha (take (3 * m) data) /\ R = base64 alpha (drop (3 * m) data).
Proof.
  intros E Hl. rewrite <- base64_take, <- base64_drop, <- E, <- Hl. by rewrite take_app_length, drop_app_length.
Qed.

(** Padding in the first groups means that there are no others. *)
Lemma pads_last data m : bytes data -> pad_amount (length (take (3 * m) data)) <> 0%nat -> drop (3 * m) data = [].
Proof.
  intros Hb H. apply drop_ge. destruct (Nat.le_gt_cases (length data) (3 * m)) as [|Hgt]; [done|].
  exfalso. apply H. rewrite length_take, Nat.min_l by lia. unfold pad_amount.
  rewrite Nat.mul_comm, Nat.Div0.mod_mul. done.
Qed.

(** Decoding what is pending, when it is whole groups. *)
Lemma flush_pending ctx s data P R m : flags ctx = flags ctx0 -> bytes data ->
  dec_n s = Z.of_nat (length P) -> take (length P) (dec_d s) = P -> length P = (4 * m)%nat ->
  length (dec_d s) = 80%nat -> 0 <= dec_ret s <= Z.of_nat (length (dec_out s)) ->
  P ++ R = base64 alpha data -> dec_eof s = Z.of_nat (pads P) ->
  exists s', decode_flush ctx s = (true, s') /\ dec_holds [] s' /\ dec_d s' = dec_d s /\
    R = base64 alpha (drop (3 * m) data) /\ eof_ok [] R (dec_eof s') /\
    counted s' = counted s ++ take (3 * m) data /\
    dec_ret s' = dec_ret s + Z.of_nat (length (take (3 * m) data)).
Proof.
  intros Hf Hb Hn Hd Hl Hd80 Hr E He. destruct (split_take data P R m E Hl) as [EP ER].
  assert (bytes (take (3 * m) data)) as Hbt by (by apply bytes_take).
  assert (pads P = pad_amount (length (take (3 * m) data))) as Epad.
  { rewrite EP. apply (pads_base64 _ _ (alphabets_ok (Some ctx0))). done. }
  destruct (decode_flush_eq ctx s (take (3 * m) data) (drop (length P) (dec_d s)) Hf Hbt) as (s' & Ef & E1 & E2 & E3 & E4 & E5 & E6).
  - rewrite <- EP, <- (take_drop (length P) (dec_d s)) at 1. by rewrite Hd.
  - rewrite <- EP. done.
  - rewrite He, Epad. done.
  - done.
  - exists s'. split; [done|]. split_and!; try done.
    + split_and!; cbn; try done; try lia. by rewrite E2.
    + unfold eof_ok. destruct (decide (pad_amount (length (take (3 * m) data)) = 0%nat)) as [E0|E0].
      * left. by rewrite E3, He, Epad, E0.
      * right. split; [done|]. rewrite ER, (pads_last data m Hb E0). split; [done|].
        rewrite E3, He. pose proof (pads_le2 data P R Hb E). lia.
Qed.

Lemma decode_chars_eq ctx : flags ctx = flags ctx0 -> forall T data P s Rm, bytes data -> Forall text_char T ->
  dec_holds P s -> P ++ strip T ++ Rm = base64 alpha data -> eof_ok P (strip T ++ Rm) (dec_eof s) ->
  exists s' P' k, decode_chars ctx T s = Ret (AtEnd, s') /\ dec_holds P' s' /\
    P' ++ Rm = base64 alpha (drop (3 * k) data) /\ eof_ok P' Rm (dec_eof s') /\
    counted s' = counted s ++ take (3 * k) data /\
    dec_ret s' = dec_ret s + Z.of_nat (length (take (3 * k) data)).
Proof.
  intros Hf. assert (ascii2bin (Some ctx) = table) as Et by (unfold ascii2bin, flag_set; by rewrite Hf).
  induction T as [|c T IH]; intros data P s Rm Hb HT Hh E He.
  { exists s, P, 0%nat. rewrite Nat.mul_0_r, drop_0, take_0, app_nil_r. cbn [length]. rewrite Z.add_0_r. done. }
  apply Forall_cons in HT as [Hc HT]. cbn [decode_chars]. rewrite Et.
  pose proof Hh as (Hn & Hp & Hd & Htk & Hret).
  assert (He2 : dec_eof s <= 2).
  { pose proof (pads_le2 data P _ Hb E). destruct He as [->|(_ & _ & ?)]; lia. }
  destruct Hc as [Hc|Hc].
  - pose proof (small_base64 _ Hc) as (Hb64 & _ & Herr & Heof). rewrite Herr, Hb64, Heof, andb_true_r.
    rewrite strip_code in E, He by done. cbn [app] in E, He.
    assert (dec_eof s = Z.of_nat (pads P)) as He' by (by destruct He as [->|(_ & ? & _)]).
    pose proof (pads_step data P c _ Hb E) as Hps.
    assert (Epc : (P ++ [c]) ++ strip T ++ Rm = base64 alpha data) by (by rewrite <- app_assoc).
    pose proof (pads_le2 data (P ++ [c]) _ Hb Epc) as Hle.
    assert (Hmore : negb (c =? 61) && (0 <? dec_eof s) = false).
    { destruct (c =? 61); [done|]. destruct Hps as [Hps _]. by rewrite He', Hps. }
    rewrite Hmore. set (eof := if c =? 61 then dec_eof s + 1 else dec_eof s).
    assert (eof = Z.of_nat (pads (P ++ [c]))) as Ee by (unfold eof; destruct (c =? 61); lia).
    destruct (Z.ltb_spec 2 eof); [lia|]. cbn [dec_n dec_d dec_eof dec_ret dec_out andb].
    destruct (Z.leb_spec 64 (dec_n s)); [lia|]. rewrite mem_write_ok, !bind_ret by (cbn [length]; lia).
    cbn [dec_n dec_d dec_eof dec_ret dec_out].
    rewrite Hn, Nat2Z.id. set (s1 := mkDec _ _ _ _ _).
    assert (Hl1 : length (P ++ [c]) = S (length P)) by (rewrite length_app; cbn; lia).
    assert (Ht1 : take (length (P ++ [c])) (dec_d s1) = P ++ [c]).
    { cbn. rewrite length_app, take_blit_end by (cbn [length]; lia). by rewrite Htk. }
    assert (Hd1 : length (dec_d s1) = 80%nat) by (cbn; rewrite length_blit by (cbn [length]; lia); done).
    destruct (Z.eqb_spec (Z.of_nat (length P) + 1) 64) as [E64|N64].
    + destruct (flush_pending ctx s1 data (P ++ [c]) (strip T ++ Rm) 16 Hf Hb) as
        (s2 & -> & Hh2 & _ & ER & He3 & Ec2 & Er2); try done; [cbn; lia|lia|].
      destruct (IH (drop (3 * 16) data) [] s2 Rm) as (s' & P' & k & -> & Hh' & E' & He'' & Ec' & Er');
        [by apply bytes_drop|done|done|done|done|].
      exists s', P', (16 + k)%nat. rewrite Nat.mul_add_distr_l. rewrite drop_drop in E'. split_and!; try done.
      * rewrite Ec', Ec2, <- app_assoc. f_equal. by rewrite take_take_drop.
      * rewrite Er', Er2, <- take_take_drop, length_app. cbn [dec_ret s1]. lia.
    + destruct (IH data (P ++ [c]) s1 Rm) as (s' & P' & k & -> & Hrest); try done.
      * split_and!; cbn [dec_n s1 dec_ret dec_out]; try done; lia.
      * by left.
      * exists s', P', k. done.
  - destruct (blank_facts c Hc) as (Herr & Hb64 & Heof & Hne). rewrite Herr, Hb64, Heof, andb_false_r, andb_false_r.
    destruct (Z.eqb_spec c 61); [done|]. destruct (Z.ltb_spec 2 (dec_eof s)); [lia|]. cbn [andb].
    rewrite bind_ret. cbn [dec_n]. destruct (Z.eqb_spec (dec_n s) 64); [lia|].
    rewrite strip_blank in E, He by done.
    destruct (IH data P (mkDec (dec_n s) (dec_d s) (dec_eof s) (dec_ret s) (dec_out s)) Rm) as (s' & P' & k & -> & Hrest); try done.
    exists s', P', k. done.
Qed.

(** A context that holds the characters of an unfinished group. *)
Definition dec_ctx (P : list Z) (ctx : EVP_ENCODE_CTX) : Prop :=
  flags ctx = flags ctx0 /\ num ctx = Z.of_nat (length P) /\ (length P < 64)%nat /\
  length (enc_data ctx) = 80%nat /\ take (length P) (enc_data ctx) = P /\
  (P = [] \/ (length P mod 4)%nat <> 0%nat).

(** What the context remembers of the padding. *)
Lemma saved_eof_eq data P R d : bytes data -> P ++ R = base64 alpha data -> take (length P) d = P ->
  saved_eof d (Z.of_nat (length P)) = Z.of_nat (pads P).
Proof.
  intros Hb E Hd.
  destruct (base64_prefix _ _ (alphabets_ok (Some ctx0)) data P R Hb (eq_sym E)) as (body & j & EP & Hn & Hj & -> & _).
  assert (Hat : forall i, (i < length P)%nat -> byte_at d i = nth i P 0).
  { intros i Hi. unfold byte_at. rewrite <- Hd at 1. rewrite nth_firstn. destruct (Nat.ltb_spec i (length P)); [done|lia]. }
  assert (Hlen : length P = (length body + j)%nat) by (rewrite EP, length_app, length_replicate; done).
  assert (Hbody : forall i, (i < length body)%nat -> nth i P 0 <> 61).
  { intros i Hi H61. apply Hn. rewrite EP, app_nth1 in H61 by done.
    rewrite <- H61. apply list_elem_of_In, nth_In. done. }
  assert (Hpad : forall i, (length body <= i < length P)%nat -> nth i P 0 = 61).
  { intros i Hi. rewrite EP, app_nth2 by lia. apply nth_lookup_Some, lookup_replicate_2. lia. }
  unfold saved_eof. destruct (Z.ltb_spec 0 (Z.of_nat (length P))) as [H0|H0]; cbn [andb]; [|lia].
  replace (Z.to_nat (Z.of_nat (length P) - 1)) with (length P - 1)%nat by lia. rewrite Hat by lia.
  destruct j as [|[|[|j]]]; [| | |lia].
  - destruct (Z.eqb_spec (nth (length P - 1) P 0) 61); [|done]. exfalso. apply (Hbody (length P - 1)%nat); [lia|done].
  - rewrite (Hpad (length P - 1)%nat) by lia. cbn [Z.eqb Pos.eqb].
    destruct (Z.ltb_spec 1 (Z.of_nat (length P))) as [H1|H1]; cbn [andb]; [|done].
    replace (Z.to_nat (Z.of_nat (length P) - 2)) with (length P - 2)%nat by lia. rewrite Hat by lia.
    destruct (Z.eqb_spec (nth (length P - 2) P 0) 61); [|done]. exfalso. apply (Hbody (length P - 2)%nat); [lia|done].
  - rewrite (Hpad (length P - 1)%nat) by lia. cbn [Z.eqb Pos.eqb].
    destruct (Z.ltb_spec 1 (Z.of_nat (length P))) as [H1|H1]; cbn [andb]; [|lia].
    replace (Z.to_nat (Z.of_nat (length P) - 2)) with (length P - 2)%nat by lia. rewrite Hat by lia.
    by rewrite (Hpad (length P - 2)%nat) by lia.
Qed.

Lemma land_3 n : Z.land n 3 = n mod 4.
Proof. change 3 with (Z.ones 2). by rewrite Z.land_ones by lia. Qed.

Lemma DecodeUpdate_eq ctx P T Rm data : dec_ctx P ctx -> bytes data -> Forall text_char T ->
  P ++ strip T ++ Rm = base64 alpha data ->
  exists rv outl out ctx' P' k, EVP_DecodeUpdate ctx T = Ret (rv, outl, out, ctx') /\ (rv = 0 \/ rv = 1) /\
    take (Z.to_nat outl) out = take (3 * k) data /\ outl = Z.of_nat (length (take (3 * k) data)) /\
    dec_ctx P' ctx' /\ P' ++ Rm = base64 alpha (drop (3 * k) data).
Proof.
  intros (Hf & Hn & Hp & Hd & Htk & Hm) Hb HT E. unfold EVP_DecodeUpdate. rewrite Hn, (saved_eof_eq data P _ _ Hb E Htk).
  set (s0 := mkDec _ _ _ _ _). destruct T as [|c T].
  { eexists 0, 0, [], _, P, 0%nat. split; [reflexivity|]. rewrite Nat.mul_0_r, drop_0, take_0. split; [by left|].
    split_and!; cbn; done. }
  destruct (decode_chars_eq ctx Hf (c :: T) data P s0 Rm Hb HT) as (s & P' & k & -> & Hh & E' & He & Ec & Er); [|done|by left|].
  { split_and!; cbn; try done; lia. }
  rewrite bind_ret. pose proof Hh as (Hn' & Hp' & Hd' & Htk' & Hret').
  unfold counted in Ec. cbn [s0 dec_ret dec_out] in Ec. change (Z.to_nat 0) with 0%nat in Ec. rewrite take_0 in Ec. cbn [app] in Ec.
  cbn [s0 dec_ret] in Er. rewrite Z.add_0_l in Er.
  assert (Hrv : forall b, (if (b : bool) then 0 else 1) = 0 \/ (if b then 0 else 1) = 1) by (intros []; auto).
  assert (Hkeep : (P' = [] \/ (length P' mod 4)%nat <> 0%nat) ->
    dec_ctx P' (set_num (dec_n s) (set_data (dec_d s) ctx))) by (intros H; split_and!; cbn; done).
  destruct (Z.ltb_spec 0 (dec_n s)) as [H0|H0].
  2: { assert (P' = []) as -> by (apply nil_length_inv; lia).
       eexists _, _, _, _, [], k. split; [reflexivity|]. split; [apply Hrv|]. split; [done|].
       split; [done|]. split; [apply Hkeep; by left|done]. }
  rewrite land_3. destruct (Z.eqb_spec (dec_n s mod 4) 0) as [H4|H4].
  - rewrite Hn' in H4. assert (length P' = 4 * (length P' / 4))%nat as Hl4.
    { pose proof (Nat.div_mod_eq (length P') 4). rewrite <- (Nat2Z.inj_mod _ 4) in H4. lia. }
    assert (dec_eof s = Z.of_nat (pads P')) as He'.
    { destruct He as [He|(-> & _ & _)]; [done|]. cbn in Hn'. lia. }
    destruct (flush_pending ctx s (drop (3 * k) data) P' Rm (length P' / 4) Hf ltac:(by apply bytes_drop) Hn' Htk' Hl4 Hd' Hret' E' He')
      as (s' & -> & Hh'' & _ & ER & _ & Ec' & Er').
    unfold counted in Ec'. rewrite Ec in Ec'. rewrite Er in Er'. rewrite take_take_drop in Ec'.
    rewrite drop_drop in ER. rewrite <- Nat.mul_add_distr_l in ER, Ec'.
    pose proof Hh'' as (Hn3 & _ & Hd3 & _ & _).
    eexists _, _, _, _, [], (k + length P' / 4)%nat. split; [reflexivity|]. split; [apply Hrv|]. split; [done|]. split.
    { cbn [dec_ret]. rewrite Er', Nat.mul_add_distr_l, <- take_take_drop, length_app. lia. }
    split; [|done]. split_and!; cbn; try done; try lia. by left.
  - eexists _, _, _, _, P', k. split; [reflexivity|]. split; [apply Hrv|]. split; [done|]. split; [done|].
    split; [|done]. apply Hkeep. right. intros Hz. apply H4. rewrite Hn', <- (Nat2Z.inj_mod _ 4), Hz. done.
Qed.
End streaming.

(** A caller that decodes piece after piece and stops at an error. *)
Fixpoint decode_chunks (ctx : EVP_ENCODE_CTX) (pieces : list (list Z)) : outcome (option (list Z)) :=
  match pieces with
  | [] =>
      let '(rv, outl, out, _) := EVP_DecodeFinal ctx in
      Ret (if rv =? 1 then Some (take (Z.to_nat outl) out) else None)
  | x :: r =>
      '(rv, outl, out, ctx) ← EVP_DecodeUpdate ctx x;
      if rv <? 0 then Ret None
      else t ← decode_chunks ctx r; Ret (option_map (app (take (Z.to_nat outl) out)) t)
  end.

Lemma strip_app ctx0 a b : strip ctx0 (a ++ b) = strip ctx0 a ++ strip ctx0 b.
Proof. apply filter_app. Qed.

Lemma decode_chunks_eq ctx0 pieces : forall ctx P data, dec_ctx ctx0 P ctx -> bytes data ->
  Forall (text_char ctx0) (concat pieces) ->
  P ++ strip ctx0 (concat pieces) = base64 (bin2ascii (Some ctx0)) data ->
  decode_chunks ctx pieces = Ret (Some data).
Proof.
  induction pieces as [|x r IH]; intros ctx P data Hc Hb Ht E; cbn [decode_chunks concat] in *.
  - rewrite app_nil_r in E. pose proof Hc as (_ & Hn & _ & _ & _ & Hm).
    assert (P = []) as ->.
    { destruct Hm as [|Hm]; [done|]. exfalso. apply Hm. rewrite E, length_base64, Nat.mul_comm. apply Nat.Div0.mod_mul. }
    unfold EVP_DecodeFinal. cbn in Hn. rewrite Hn. cbn.
    assert (length data = 0%nat) as Hl; [|by apply nil_length_inv in Hl as ->].
    apply (f_equal length) in E. rewrite length_base64 in E. change (length []) with 0%nat in E.
    pose proof (Nat.div_mod_eq (length data + 2) 3). pose proof (Nat.mod_upper_bound (length data + 2) 3). lia.
  - rewrite strip_app in E. apply Forall_app in Ht as [Hx Hr].
    destruct (DecodeUpdate_eq ctx0 ctx P x _ data Hc Hb Hx E) as (rv & outl & out & ctx' & P' & k & -> & Hrv & Ho & _ & Hc' & E').
    rewrite bind_ret. destruct (Z.ltb_spec rv 0); [lia|].
    rewrite (IH ctx' P' (drop (3 * k) data) Hc' ltac:(by apply bytes_drop) Hr E'), bind_ret.
    cbn [option_map]. by rewrite Ho, take_drop.
Qed.

(** The text of any data is its base64 with newlines in between. *)
Lemma base64_split alpha data m : base64 alpha data = base64 alpha (take (3 * m) data) ++ base64 alpha (drop (3 * m) data).
Proof. rewrite <- base64_take, <- base64_drop. by rewrite take_drop. Qed.

Section texts.
Context (ctx0 : EVP_ENCODE_CTX).
Notation alpha := (bin2ascii (Some ctx0)).

Lemma code_chars_text T : Forall (code_char (ascii2bin (Some ctx0))) T -> Forall (text_char ctx0) T /\ strip ctx0 T = T.
Proof.
  induction 1 as [|c T Hc HT [IH1 IH2]]; [done|]. split; [constructor; [by left|done]|].
  by rewrite strip_code, IH2.
Qed.

Lemma base64_is_text data : bytes data ->
  Forall (text_char ctx0) (base64 alpha data) /\ strip ctx0 (base64 alpha data) = base64 alpha data.
Proof. intros Hb. apply code_chars_text. by apply (base64_chars _ _ (alphabets_ok (Some ctx0))). Qed.

Lemma newline_is_text : Forall (text_char ctx0) (newline ctx0) /\ strip ctx0 (newline ctx0) = [].
Proof.
  unfold newline. destruct (flag_set ctx0 _); [done|].
  assert (blank ctx0 10) as Hb by (right; left; apply (table_newline _ _ (alphabets_ok (Some ctx0)))).
  split; [|by rewrite strip_blank]. constructor; [by right|constructor].
Qed.

Lemma text_lines_strip q : forall data, bytes data ->
  Forall (text_char ctx0) (text_lines ctx0 q data) /\
  strip ctx0 (text_lines ctx0 q data) ++ base64 alpha (drop (48 * q) data) = base64 alpha data.
Proof.
  induction q as [|q IH]; intros data Hb; [done|]. cbn [text_lines].
  destruct (IH (drop 48 data) ltac:(by apply bytes_drop)) as [IH1 IH2]. rewrite drop_drop in IH2.
  destruct (base64_is_text (take 48 data) ltac:(by apply bytes_take)) as [B1 B2]. destruct newline_is_text as [N1 N2].
  split; [by repeat apply Forall_app_2|]. rewrite !strip_app, B2, N2. cbn [app].
  rewrite <- app_assoc. replace (48 * S q)%nat with (48 + 48 * q)%nat by lia. rewrite IH2.
  symmetry. apply (base64_split alpha data 16).
Qed.

Lemma base64_text_strip data : bytes data ->
  Forall (text_char ctx0) (base64_text ctx0 data) /\ strip ctx0 (base64_text ctx0 data) = base64 alpha data.
Proof.
  intros Hb. unfold base64_text. set (q := (length data / 48)%nat).
  destruct (text_lines_strip q data Hb) as [T1 T2]. pose proof (Nat.div_mod_eq (length data) 48) as Em. fold q in Em.
  destruct (Nat.eqb_spec (length data mod 48) 0) as [E0|E0].
  - rewrite app_nil_r. split; [done|]. rewrite drop_ge in T2 by lia. by rewrite app_nil_r in T2.
  - destruct (base64_is_text (drop (48 * q) data) ltac:(by apply bytes_drop)) as [B1 B2]. destruct newline_is_text as [N1 N2].
    split; [by repeat apply Forall_app_2|]. rewrite !strip_app, B2, N2, app_nil_r. done.
Qed.
End texts.

(** The contexts of a run: initialised, with the caller's flags. *)
Definition encoder (ctx : EVP_ENCODE_CTX) (fl : Z) : EVP_ENCODE_CTX :=
  evp_encode_ctx_set_flags (EVP_EncodeInit ctx) fl.
Definition decoder (ctx : EVP_ENCODE_CTX) (fl : Z) : EVP_ENCODE_CTX :=
  evp_encode_ctx_set_flags (EVP_DecodeInit ctx) fl.

(** Encoding a text in chunks of any sizes puts out the lines of RFC 4648
    base64 of the whole text, 48 bytes a line: with newlines unless the flag
    forbids them, in the alphabet that the flags select, for every text whose
    lines fit into an [int]. *)
Theorem base64_encode_stream ctx fl chunks : length (enc_data ctx) = 80%nat -> Forall bytes chunks ->
  Z.of_nat (65 * (length (concat chunks) / 48)) <= INT_MAX ->
  encode_chunks (encoder ctx fl) chunks = Ret (base64_text (encoder ctx fl) (concat chunks)).
Proof.
  intros Hl Hb Hm. apply (encode_chunks_eq (encoder ctx fl) chunks [] (encoder ctx fl)); [|constructor|done|done].
  split_and!; cbn; try done; lia.
Qed.

(** C34: Whatever was encoded, in chunks of any sizes, is what decoding the text
    in pieces of any sizes yields, without an error, under the same flags. *)
Theorem base64_stream_roundtrip ctx ctx' fl chunks pieces text :
  length (enc_data ctx) = 80%nat -> length (enc_data ctx') = 80%nat -> Forall bytes chunks ->
  Z.of_nat (65 * (length (concat chunks) / 48)) <= INT_MAX ->
  encode_chunks (encoder ctx fl) chunks = Ret text -> concat pieces = text ->
  decode_chunks (decoder ctx' fl) pieces = Ret (Some (concat chunks)).
Proof.
  intros Hl Hl' Hb Hm E Hp. pose proof (encode_chunks_eq (encoder ctx fl) chunks [] (encoder ctx fl)) as E'.
  rewrite E' in E; [|split_and!; cbn; (done || lia)|constructor|done|done]. injection E as E. cbn [app] in E.
  assert (bytes (concat chunks)) as Hbc by (by apply Forall_concat).
  destruct (base64_text_strip (encoder ctx fl) (concat chunks) Hbc) as [HT HS].
  apply (decode_chunks_eq (encoder ctx fl) pieces (decoder ctx' fl) []); [|done|by rewrite Hp, <- E|by rewrite Hp, <- E].
  split_and!; cbn; try done; try lia. by left.
Qed.

(** ** Any input *)

Lemma trim_front_le fuel table f n : 0 <= n -> 0 <= (trim_front fuel table f n).2 <= n.
Proof.
  revert f n. induction fuel as [|k IH]; intros f n Hn; cbn [trim_front]; [cbn; lia|].
  destruct (Z.ltb_spec 0 n); cbn [andb]; [|cbn; lia]. destruct (_ =? B64_WS); [|cbn; lia].
  specialize (IH (drop 1 f) (n - 1)). lia.
Qed.

Lemma trim_back_le fuel table f n : 0 <= n -> 0 <= trim_back fuel table f n <= n.
Proof.
  revert n. induction fuel as [|k IH]; intros n Hn; cbn [trim_back]; [lia|].
  destruct (Z.ltb_spec 3 n); cbn [andb]; [|lia]. destruct (B64_NOT_BASE64 _); [|lia].
  specialize (IH (n - 1)). lia.
Qed.

Lemma decode_loop_length fuel table f n : 0 <= n -> n mod 4 = 0 ->
  4 * Z.of_nat (length (decode_loop fuel table f n).2) <= 3 * n.
Proof.
  revert f n. induction fuel as [|k IH]; intros f n Hn Hm; cbn [decode_loop]; [cbn; lia|].
  destruct (Z.ltb_spec 0 n); [|cbn; lia]. destruct (_ || _); [cbn; lia|].
  assert (4 <= n) as H4 by (Z.div_mod_to_equations; lia).
  specialize (IH (drop 4 f) (n - 4) ltac:(lia) ltac:(Z.div_mod_to_equations; lia)).
  destruct (decode_loop k table (drop 4 f) (n - 4)) as [ok t]. cbn [snd length] in *. lia.
Qed.

Lemma decodeblock_length ctx f n : 0 <= n ->
  let '(len, t) := evp_decodeblock_int ctx f n in
  4 * Z.of_nat (length t) <= 3 * n /\ (len = -1 \/ len = Z.of_nat (length t)).
Proof.
  intros Hn. unfold evp_decodeblock_int. pose proof (trim_front_le (Z.to_nat n) (ascii2bin ctx) f n Hn) as H1.
  destruct (trim_front _ _ f n) as [f1 n1]. cbn [snd] in H1.
  pose proof (trim_back_le (Z.to_nat n1) (ascii2bin ctx) f1 n1 ltac:(lia)) as H2.
  set (n2 := trim_back _ _ f1 n1) in *. destruct (Z.eqb_spec (n2 mod 4) 0) as [E|]; cbn [negb]; [|cbn; lia].
  pose proof (decode_loop_length (Z.to_nat n2) (ascii2bin ctx) f1 n2 ltac:(lia) E) as H3.
  destruct (decode_loop _ _ f1 n2) as [ok t]. cbn [snd] in H3. split; [lia|]. destruct ok; lia.
Qed.

(** The state of the loop after [m] characters, those held before included. *)
Definition dec_bounded (m : Z) (s : decode_state) : Prop :=
  0 <= dec_n s < 64 /\ length (dec_d s) = 80%nat /\ 0 <= dec_eof s /\
  0 <= dec_ret s <= Z.of_nat (length (dec_out s)) /\
  4 * Z.of_nat (length (dec_out s)) + 3 * dec_n s <= 3 * m.

Lemma flush_bounded ctx s m : 0 <= dec_n s <= 64 -> length (dec_d s) = 80%nat -> 0 <= dec_eof s ->
  0 <= dec_ret s <= Z.of_nat (length (dec_out s)) ->
  4 * Z.of_nat (length (dec_out s)) + 3 * dec_n s <= 3 * m -> dec_bounded m (decode_flush ctx s).2.
Proof.
  intros Hn Hd He Hr Hb. unfold decode_flush.
  pose proof (decodeblock_length (Some ctx) (dec_d s) (dec_n s) ltac:(lia)) as H.
  destruct (evp_decodeblock_int _ _ _) as [len t]. destruct H as [H1 H2].
  destruct (Z.ltb_spec len 0), (Z.ltb_spec len (dec_eof s)); cbn [orb snd]; unfold dec_bounded;
    cbn [dec_n dec_d dec_eof dec_ret dec_out]; rewrite length_app, length_take; split_and!; lia.
Qed.

Lemma decode_chars_bounded ctx inp : forall s m, dec_bounded m s ->
  exists e s', decode_chars ctx inp s = Ret (e, s') /\ dec_bounded (m + Z.of_nat (length inp)) s'.
Proof.
  induction inp as [|c r IH]; intros s m Hs; cbn [decode_chars length].
  { exists AtEnd, s. rewrite Z.add_0_r. done. }
  pose proof Hs as (Hn & Hd & He & Hr & Hb).
  assert (Hstop : forall s', dec_bounded m s' -> dec_bounded (m + Z.of_nat (S (length r))) s').
  { intros s' (? & ? & ? & ? & ?). split_and!; lia. }
  set (v := conv_ascii2bin c _). destruct (v =? B64_ERROR); [eexists _, _; split; [reflexivity|by apply Hstop]|].
  destruct (negb (c =? 61) && _); [eexists _, _; split; [reflexivity|by apply Hstop]|].
  set (eof := if c =? 61 then _ else _). set (s1 := mkDec (dec_n s) (dec_d s) eof (dec_ret s) (dec_out s)).
  assert (Hs1 : dec_bounded m s1) by (split_and!; cbn; unfold eof; try lia; destruct (c =? 61); lia).
  destruct (2 <? eof); [eexists _, _; split; [reflexivity|by apply Hstop]|].
  destruct (v =? B64_EOF); [eexists _, _; split; [reflexivity|by apply Hstop]|].
  destruct (B64_BASE64 v && _); [eexists _, _; split; [reflexivity|by apply Hstop]|].
  replace (m + Z.of_nat (S (length r))) with ((m + 1) + Z.of_nat (length r)) in * by lia.
  destruct (B64_BASE64 v).
  - cbn [dec_n dec_d s1]. rewrite mem_write_ok, !bind_ret by (cbn [length]; lia). cbn [dec_n].
    set (s2 := mkDec (dec_n s + 1) _ _ _ _).
    assert (length (dec_d s2) = 80%nat) as Hd2 by (cbn; rewrite length_blit by (cbn [length]; lia); done).
    destruct Hs1 as (_ & _ & He1 & Hr1 & Hb1). cbn [s1 dec_ret dec_out dec_eof dec_n] in *.
    destruct (Z.eqb_spec (dec_n s + 1) 64) as [E|N].
    + assert (dec_bounded (m + 1) (decode_flush ctx s2).2) as Hf by (apply flush_bounded; cbn [s2 dec_n dec_eof dec_ret dec_out]; lia || done).
      destruct (decode_flush ctx s2) as [ok s3]. cbn [snd] in Hf. destruct ok; [by apply IH|].
      eexists _, _. split; [reflexivity|]. destruct Hf as (? & ? & ? & ? & ?). split_and!; lia.
    + apply IH. split_and!; cbn [s2 dec_n dec_d dec_eof dec_ret dec_out]; (done || lia).
  - rewrite bind_ret. cbn [dec_n s1]. destruct (Z.eqb_spec (dec_n s) 64); [lia|].
    apply IH. destruct Hs1 as (? & ? & ? & ? & ?). split_and!; cbn in *; lia.
Qed.

(** Decoding any input whatsoever, in any state in which fewer than 64
    characters are held, returns -1, 0 or 1, never uses memory it must not use,
    holds fewer than 64 characters again, and writes at most three bytes for
    every four characters, those held before included. *)
Theorem DecodeUpdate_bounds ctx inp : 0 <= num ctx < 64 -> length (enc_data ctx) = 80%nat ->
  exists rv outl out ctx', EVP_DecodeUpdate ctx inp = Ret (rv, outl, out, ctx') /\ -1 <= rv <= 1 /\
    0 <= num ctx' < 64 /\ length (enc_data ctx') = 80%nat /\ 0 <= outl <= Z.of_nat (length out) /\
    4 * Z.of_nat (length out) <= 3 * (num ctx + Z.of_nat (length inp)).
Proof.
  intros Hn Hd. unfold EVP_DecodeUpdate. set (s0 := mkDec _ _ _ _ _).
  assert (Hs0 : dec_bounded (num ctx) s0).
  { split_and!; cbn; try done; try lia. unfold saved_eof. repeat case_match; lia. }
  assert (Hend : forall rv s, -1 <= rv <= 1 -> dec_bounded (num ctx + Z.of_nat (length inp)) s ->
    exists rv' outl out ctx', Ret (rv, dec_ret s, dec_out s, set_num (dec_n s) (set_data (dec_d s) ctx)) = Ret (rv', outl, out, ctx') /\
      -1 <= rv' <= 1 /\ 0 <= num ctx' < 64 /\ length (enc_data ctx') = 80%nat /\ 0 <= outl <= Z.of_nat (length out) /\
      4 * Z.of_nat (length out) <= 3 * (num ctx + Z.of_nat (length inp))).
  { intros rv s Hrv (? & ? & ? & ? & ?). eexists _, _, _, _. split; [reflexivity|]. cbn. split_and!; (done || lia). }
  destruct inp as [|c r]; [apply Hend; [lia|]; cbn [length]; by rewrite Z.add_0_r|].
  destruct (decode_chars_bounded ctx (c :: r) s0 (num ctx) Hs0) as (e & s & -> & Hs). rewrite bind_ret.
  assert (Hrv : forall b, -1 <= (if (b : bool) then 0 else 1) <= 1) by (intros []; lia).
  assert (dec_bounded (num ctx + Z.of_nat (length (c :: r))) (decode_flush ctx s).2) as Hf
    by (destruct Hs as (? & ? & ? & ? & ?); apply flush_bounded; (done || lia)).
  destruct e; cbv zeta; try (apply Hend; [lia|done]);
    (destruct (0 <? dec_n s); [|by apply Hend]; destruct (_ =? 0);
     [destruct (decode_flush ctx s) as [[] s']; cbn [snd] in Hf; apply Hend; (done || lia || apply Hrv)|]);
    by apply Hend.
Qed.

(** The one-shot functions: [EVP_EncodeBlock] computes the base64 of
    RFC 4648 and its length, with a terminating zero; [EVP_DecodeBlock] of that
    gives the data, completed with zero bytes to a multiple of three. *)
Theorem base64_blocks data : bytes data ->
  let t := base64 data_bin2ascii data in
  let p := data ++ replicate (pad_amount (length data)) 0 in
  EVP_EncodeBlock data (Z.of_nat (length data)) = (Z.of_nat (4 * ((length data + 2) / 3)), t ++ [0]) /\
  EVP_DecodeBlock t (Z.of_nat (length t)) = (Z.of_nat (3 * ((length data + 2) / 3)), p).
Proof.
  intros Hb t p. split.
  - unfold EVP_EncodeBlock. rewrite <- (app_nil_r data) at 1. rewrite encodeblock_eq by done.
    by rewrite length_base64.
  - unfold EVP_DecodeBlock. pose proof (decodeblock_eq None data [] Hb) as E. cbv zeta in E.
    rewrite app_nil_r, length_padded3 in E. exact E.
Qed.

(** ** Witnesses *)

Definition sample_text : list Z := literal "an example that is longer than one line of forty-eight bytes".

Lemma base64_encode_stream_witness :
  encode_chunks (encoder EVP_ENCODE_CTX_new 0) [take 7 sample_text; []; drop 7 sample_text]
  = Ret (base64_text (encoder EVP_ENCODE_CTX_new 0) sample_text).
Proof.
  apply (base64_encode_stream EVP_ENCODE_CTX_new 0 [take 7 sample_text; []; drop 7 sample_text]).
  - reflexivity.
  - repeat constructor; vm_compute; discriminate.
  - vm_compute. discriminate.
Defined.

Lemma base64_stream_roundtrip_witness :
  let text := base64_text (encoder EVP_ENCODE_CTX_new 2) sample_text in
  decode_chunks (decoder EVP_ENCODE_CTX_new 2) [take 3 text; take 70 (drop 3 text); drop 73 text] = Ret (Some sample_text).
Proof.
  intros text.
  apply (base64_stream_roundtrip EVP_ENCODE_CTX_new EVP_ENCODE_CTX_new 2 [take 20 sample_text; drop 20 sample_text] _ text).
  - reflexivity.
  - reflexivity.
  - repeat constructor; vm_compute; discriminate.
  - vm_compute. discriminate.
  - vm_compute. reflexivity.
  - reflexivity.
Defined.

Lemma DecodeUpdate_bounds_witness :
  exists rv outl out ctx', EVP_DecodeUpdate EVP_ENCODE_CTX_new (literal "Zm9v====") = Ret (rv, outl, out, ctx') /\
    -1 <= rv <= 1 /\ 0 <= num ctx' < 64 /\ length (enc_data ctx') = 80%nat /\ 0 <= outl <= Z.of_nat (length out) /\
    4 * Z.of_nat (length out) <= 3 * (0 + 8).
Proof. apply (DecodeUpdate_bounds EVP_ENCODE_CTX_new (literal "Zm9v====")); [cbn; lia|reflexivity]. Defined.

Lemma base64_blocks_witness :
  EVP_EncodeBlock (literal "fooba") 5 = (8, literal "Zm9vYmE=" ++ [0]) /\
  EVP_DecodeBlock (literal "Zm9vYmE=") 8 = (6, literal "fooba" ++ [0]).
Proof. apply (base64_blocks (literal "fooba")). repeat constructor; vm_compute; discriminate. Defined.
