(* ===== verification/SafeMath.v ===== *)
(** * Overflow-checked arithmetic (openssl include/internal/safe_math.h)

    The signed functions that [OSSL_SAFE_MATH_SIGNED(int, int)] defines.  Sums,
    differences and products have two implementations: over the compiler's
    [__builtin_*_overflow], and portable ones that test before they compute.  A
    function returns its value and whether it sets [*err]. *)

From S2P Require Import Prelude.
#[local] Open Scope Z_scope.

(** Saturation: what the functions return with an error. *)
Definition saturate (negative : bool) : Z * bool := (if negative then INT_MIN else INT_MAX, true).

(** ** With the compiler's overflow checks *)

Definition safe_add_builtin (a b : Z) : Z * bool :=
  if decide (is_int (a + b)) then (a + b, false) else saturate (a <? 0).

Definition safe_sub_builtin (a b : Z) : Z * bool :=
  if decide (is_int (a - b)) then (a - b, false) else saturate (a <? 0).

Definition safe_mul_builtin (a b : Z) : Z * bool :=
  if decide (is_int (a * b)) then (a * b, false) else saturate (xorb (a <? 0) (b <? 0)).

(** ** Portable *)

(** [p || q] and [p && q] evaluate [q] only when [p] does not decide. *)
Definition or_else (p q : outcome bool) : outcome bool := b ← p; if (b : bool) then Ret true else q.
Definition and_then (p q : outcome bool) : outcome bool := b ← p; if (b : bool) then q else Ret false.

Definition safe_add_portable (a b : Z) : outcome (Z * bool) :=
  ok ← or_else (Ret (xorb (a <? 0) (b <? 0)))
      (or_else (and_then (Ret (0 <? a)) (d ← int_op (INT_MAX - a); Ret (b <=? d)))
      (or_else (and_then (Ret (a <? 0)) (d ← int_op (INT_MIN - a); Ret (d <=? b)))
               (Ret (a =? 0))));
  if (ok : bool) then s ← int_op (a + b); Ret (s, false) else Ret (saturate (a <? 0)).

Definition safe_sub_portable (a b : Z) : outcome (Z * bool) :=
  ok ← or_else (Ret (negb (xorb (a <? 0) (b <? 0))))
      (or_else (and_then (Ret (0 <? b)) (d ← int_op (INT_MIN + b); Ret (d <=? a)))
      (or_else (and_then (Ret (b <? 0)) (d ← int_op (INT_MAX + b); Ret (a <=? d)))
               (Ret (b =? 0))));
  if (ok : bool) then s ← int_op (a - b); Ret (s, false) else Ret (saturate (a <? 0)).

Definition safe_mul_portable (a b : Z) : outcome (Z * bool) :=
  if (a =? 0) || (b =? 0) then Ret (0, false)
  else if a =? 1 then Ret (b, false)
  else if b =? 1 then Ret (a, false)
  else
    fits ← (if negb (a =? INT_MIN) && negb (b =? INT_MIN) then
              x ← (if a <? 0 then int_op (- a) else Ret a);
              y ← (if b <? 0 then int_op (- b) else Ret b);
              Ret (x <=? Z.quot INT_MAX y)
            else Ret false);
    if (fits : bool) then p ← int_op (a * b); Ret (p, false)
    else Ret (saturate (xorb (a <? 0) (b <? 0))).

(** ** Negation, absolute value, division *)

Definition safe_neg (a : Z) : Z * bool := if negb (a =? INT_MIN) then (- a, false) else (INT_MIN, true).

Definition safe_abs (a : Z) : Z * bool :=
  if negb (a =? INT_MIN) then (if a <? 0 then - a else a, false) else (INT_MIN, true).

Definition safe_div (a b : Z) : Z * bool :=
  if b =? 0 then saturate (a <? 0)
  else if (b =? -1) && (a =? INT_MIN) then (INT_MAX, true)
  else (Z.quot a b, false).

Definition safe_mod (a b : Z) : Z * bool :=
  if b =? 0 then (0, true)
  else if (b =? -1) && (a =? INT_MIN) then (INT_MAX, true)
  else (Z.rem a b, false).

(** ** Multiplication and division at once

    Over either multiplication and addition; the errors of all steps but the
    first multiplication are collected. *)
Section muldiv.
Variables mul add : Z -> Z -> outcome (Z * bool).

Definition safe_muldiv (a b c : Z) : outcome (Z * bool) :=
  if c =? 0 then Ret (if (a =? 0) || (b =? 0) then 0 else INT_MAX, true)
  else
    '(x, e2) ← mul a b;
    if negb e2 then Ret (safe_div x c)
    else
      let '(a, b) := if a <? b then (b, a) else (a, b) in
      let '(q, e3) := safe_div a c in
      let '(r, e4) := safe_mod a c in
      '(x, e5) ← mul r b;
      '(y, e6) ← mul q b;
      let '(q, e7) := safe_div x c in
      '(s, e8) ← add y q;
      Ret (s, e3 || e4 || e5 || e6 || e7 || e8).
End muldiv.

(** The two builds of [safe_muldiv_int]. *)
Definition safe_muldiv_builtin : Z -> Z -> Z -> outcome (Z * bool) :=
  safe_muldiv (fun a b => Ret (safe_mul_builtin a b)) (fun a b => Ret (safe_add_builtin a b)).
Definition safe_muldiv_portable : Z -> Z -> Z -> outcome (Z * bool) :=
  safe_muldiv safe_mul_portable safe_add_portable.

(** ** Division rounding up *)

Definition safe_div_round_up (a b : Z) : outcome (Z * bool) :=
  if (0 <? b) && (0 <? a) then
    d ← int_op (INT_MAX - b);
    if a <? d then n ← int_op (a + b); Ret (Z.quot (n - 1) b, false)
    else s ← int_op (Z.quot a b + Z.b2z (negb (Z.rem a b =? 0))); Ret (s, false)
  else if b =? 0 then Ret (if a =? 0 then 0 else INT_MAX, true)
  else if a =? 0 then Ret (0, false)
  else
    let '(x, e1) := safe_mod a b in
    let '(q, e2) := safe_div a b in
    let '(s, e3) := safe_add_builtin q (Z.b2z (negb (x =? 0))) in
    Ret (s, e1 || e2 || e3).

(** ** What they compute *)

(** Decides the guards of these functions. *)
Ltac int_cases :=
  unfold or_else, and_then, int_op, saturate; cbn [mbind outcome_bind];
  repeat (cbn [mbind outcome_bind xorb negb andb orb];
    match goal with
    | |- context [decide (is_int ?z)] => destruct (decide (is_int z))
    | |- context [?a <? ?b] => destruct (Z.ltb_spec a b)
    | |- context [?a <=? ?b] => destruct (Z.leb_spec a b)
    | |- context [?a =? ?b] => destruct (Z.eqb_spec a b)
    end; try (exfalso; unfold is_int, INT_MAX, INT_MIN in *; lia)).

(** The portable sum and difference are those of the compiler. *)
Lemma add_portable_eq a b : is_int a -> is_int b ->
  safe_add_portable a b = Ret (safe_add_builtin a b).
Proof. intros Ha Hb. unfold safe_add_portable, safe_add_builtin. int_cases; done. Qed.

Lemma sub_portable_eq a b : is_int a -> is_int b ->
  safe_sub_portable a b = Ret (safe_sub_builtin a b).
Proof. intros Ha Hb. unfold safe_sub_portable, safe_sub_builtin. int_cases; done. Qed.

(** The portable product has the value of the compiler's, but takes [INT_MIN]
    for an overflow when it is a product of two numbers other than 1. *)
Lemma mul_portable_eq a b : is_int a -> is_int b ->
  safe_mul_portable a b
  = Ret ((safe_mul_builtin a b).1,
         (safe_mul_builtin a b).2
         || ((a * b =? INT_MIN) && negb (a =? 1) && negb (b =? 1))).
Proof.
  intros Ha Hb. unfold safe_mul_portable, safe_mul_builtin.
  destruct (Z.eqb_spec a 0) as [->|Na]; [done|].
  destruct (Z.eqb_spec b 0) as [->|Nb]; cbn [orb]; [rewrite Z.mul_0_r; done|].
  destruct (Z.eqb_spec a 1) as [->|Na1]; [rewrite Z.mul_1_l, decide_True, andb_false_r by done; done|].
  destruct (Z.eqb_spec b 1) as [->|Nb1]; [rewrite Z.mul_1_r, decide_True, andb_false_r by done; done|].
  rewrite !andb_true_r.
  assert (Hf : (if negb (a =? INT_MIN) && negb (b =? INT_MIN) then
              x ← (if a <? 0 then int_op (- a) else Ret a);
              y ← (if b <? 0 then int_op (- b) else Ret b);
              Ret (x <=? Z.quot INT_MAX y)
            else Ret false) = Ret (Z.abs a * Z.abs b <=? INT_MAX)).
  { destruct (Z.eqb_spec a INT_MIN) as [->|Ea], (Z.eqb_spec b INT_MIN) as [->|Eb]; cbn [negb andb];
      try (f_equal; symmetry; apply Z.leb_gt; unfold INT_MIN, INT_MAX in *; nia).
    replace (if a <? 0 then int_op (- a) else Ret a) with (Ret (Z.abs a))
      by (unfold int_op; zcase; [rewrite decide_True by (unfold is_int, INT_MIN, INT_MAX in *; lia)|]; f_equal; lia).
    replace (if b <? 0 then int_op (- b) else Ret b) with (Ret (Z.abs b))
      by (unfold int_op; zcase; [rewrite decide_True by (unfold is_int, INT_MIN, INT_MAX in *; lia)|]; f_equal; lia).
    cbn [mbind outcome_bind]. f_equal. rewrite Z.quot_div_nonneg by (unfold INT_MAX; lia).
    apply eq_true_iff_eq. rewrite !Z.leb_le. rewrite Z.mul_comm. split; intros H.
    - pose proof (Z.mul_div_le INT_MAX (Z.abs b)). nia.
    - apply Z.div_le_lower_bound; lia. }
  rewrite Hf. cbn [mbind outcome_bind]. rewrite <- Z.abs_mul.
  destruct (Z.leb_spec (Z.abs (a * b)) INT_MAX) as [Hl|Hl].
  - unfold int_op. rewrite !decide_True by (unfold is_int, INT_MIN, INT_MAX in *; lia). cbn. 
    rewrite (proj2 (Z.eqb_neq _ _)) by (unfold INT_MIN, INT_MAX in *; lia). done.
  - destruct (Z.eqb_spec (a * b) INT_MIN) as [E|E].
    + rewrite decide_True by (unfold is_int, INT_MIN, INT_MAX in *; lia). cbn. 
      unfold saturate. destruct (Z.ltb_spec a 0), (Z.ltb_spec b 0); cbn; rewrite ?E; try done; unfold INT_MIN in E; nia.
    + rewrite decide_False by (unfold is_int, INT_MIN, INT_MAX in *; lia). cbn. done.
Qed.

(** Checked arithmetic as a client needs it: a result without error is exact. *)
Definition exact (op : Z -> Z -> outcome (Z * bool)) (f : Z -> Z -> Z) : Prop :=
  forall a b, is_int a -> is_int b ->
    exists v e, op a b = Ret (v, e) /\ is_int v /\ (e = false -> v = f a b).

Lemma is_int_0 : is_int 0.
Proof. done. Qed.

Lemma saturate_int s : is_int (saturate s).1.
Proof. by destruct s. Qed.

Lemma mul_builtin_exact : exact (fun a b => Ret (safe_mul_builtin a b)) Z.mul.
Proof.
  intros a b _ _. unfold safe_mul_builtin. destruct (decide (is_int (a * b))); [by eauto|].
  do 2 eexists. split; [done|]. split; [apply saturate_int|done].
Qed.

Lemma add_builtin_exact : exact (fun a b => Ret (safe_add_builtin a b)) Z.add.
Proof.
  intros a b _ _. unfold safe_add_builtin. destruct (decide (is_int (a + b))); [by eauto|].
  do 2 eexists. split; [done|]. split; [apply saturate_int|done].
Qed.

Lemma mul_portable_exact : exact safe_mul_portable Z.mul.
Proof.
  intros a b Ha Hb. rewrite mul_portable_eq by done.
  destruct (mul_builtin_exact a b Ha Hb) as (v & e & [= E] & Hv & Hx). rewrite E.
  do 2 eexists. split; [done|]. cbn [fst snd]. split; [done|]. intros [-> _]%orb_false_iff. auto.
Qed.

Lemma add_portable_exact : exact safe_add_portable Z.add.
Proof. intros a b Ha Hb. rewrite add_portable_eq by done. by apply add_builtin_exact. Qed.

Lemma quot_half a c : c <> 0 -> c <> 1 -> c <> -1 -> 2 * Z.abs (Z.quot a c) <= Z.abs a.
Proof.
  intros Hc H1 H2. rewrite <- Z.quot_abs by done. rewrite Z.quot_div_nonneg by lia.
  pose proof (Z.mul_div_le (Z.abs a) (Z.abs c)). pose proof (Z.div_pos (Z.abs a) (Z.abs c)). nia.
Qed.

Lemma quot_int a c : is_int a -> c <> 0 -> ~ (c = -1 /\ a = INT_MIN) -> is_int (Z.quot a c).
Proof.
  intros Ha Hc Hn. destruct (decide (c = 1)) as [->|H1]; [by rewrite Z.quot_1_r|].
  destruct (decide (c = -1)) as [->|H2].
  { rewrite <- (Z.opp_involutive (-1)) in Hn |- *. rewrite Z.quot_opp_r by done.
    rewrite Z.quot_1_r. unfold is_int, INT_MIN, INT_MAX in *. lia. }
  pose proof (quot_half a c Hc H1 H2). unfold is_int, INT_MIN, INT_MAX in *. lia.
Qed.

Lemma div_exact a c : is_int a -> c <> 0 ->
  exists v e, safe_div a c = (v, e) /\ is_int v /\ (e = false -> v = Z.quot a c).
Proof.
  intros Ha Hc. unfold safe_div. rewrite (proj2 (Z.eqb_neq _ _) Hc).
  destruct (Z.eqb_spec c (-1)) as [->|Nc], (Z.eqb_spec a INT_MIN) as [->|Na]; cbn [andb];
    do 2 eexists; (split; [reflexivity|]); (split; [|done]); try done; apply quot_int; (done || tauto).
Qed.

Lemma mod_exact a c : is_int a -> is_int c -> c <> 0 ->
  exists v e, safe_mod a c = (v, e) /\ is_int v /\ (e = false -> v = Z.rem a c).
Proof.
  intros Ha Hi Hc. unfold safe_mod. rewrite (proj2 (Z.eqb_neq _ _) Hc).
  destruct (Z.eqb_spec c (-1)) as [->|Nc], (Z.eqb_spec a INT_MIN) as [->|Na]; cbn [andb];
    do 2 eexists; (split; [reflexivity|]); (split; [|done]); try done;
    try (pose proof (Z.rem_bound_abs a (-1) Hc)); try (pose proof (Z.rem_bound_abs INT_MIN c Hc));
    try (pose proof (Z.rem_bound_abs a c Hc)); unfold is_int, INT_MIN, INT_MAX in *; lia.
Qed.

(** Taking out the quotient first does not change the result. *)
Lemma quot_split a b c : c <> 0 -> Z.quot a c * b + Z.quot (Z.rem a c * b) c = Z.quot (a * b) c.
Proof.
  intros Hc. rewrite (Z.quot_rem' a c) at 3.
  replace ((c * Z.quot a c + Z.rem a c) * b) with (Z.rem a c * b + (Z.quot a c * b) * c) by ring.
  rewrite Z.quot_add; [lia|done|].
  replace ((Z.rem a c * b + Z.quot a c * b * c) * (Z.rem a c * b))
    with (Z.rem a c * (c * Z.quot a c + Z.rem a c) * (b * b)) by ring.
  rewrite <- Z.quot_rem'. pose proof (Z.rem_sign_mul a c Hc). nia.
Qed.

(** Over exact multiplication and addition, a result without error is the
    quotient of the whole product, also when that product is no [int]. *)
Lemma muldiv_exact mul add a b c : exact mul Z.mul -> exact add Z.add ->
  is_int a -> is_int b -> is_int c ->
  exists v e, safe_muldiv mul add a b c = Ret (v, e) /\ is_int v /\
    (e = false -> c <> 0 /\ v = Z.quot (a * b) c).
Proof.
  intros Hmul Hadd Ha Hb Hc. unfold safe_muldiv.
  destruct (Z.eqb_spec c 0) as [->|Nc].
  { do 2 eexists. split; [done|]. split; [by destruct (_ || _)|done]. }
  destruct (Hmul a b Ha Hb) as (x & e2 & -> & Hx & Ex). cbn [mbind outcome_bind].
  destruct e2; cbn [negb].
  2:{ destruct (div_exact x c Hx Nc) as (v & e & -> & Hv & Ev). do 2 eexists. split; [done|].
      split; [done|]. intros ->. split; [done|]. by rewrite Ev, Ex by done. }
  assert (exists a' b', (if a <? b then (b, a) else (a, b)) = (a', b') /\ is_int a' /\ is_int b' /\
            a' * b' = a * b) as (a' & b' & -> & Ha' & Hb' & Eab).
  { zcase; do 2 eexists; (split; [reflexivity|]); split_and!; done || lia. }
  destruct (div_exact a' c Ha' Nc) as (q & e3 & -> & Hq & Eq).
  destruct (mod_exact a' c Ha' Hc Nc) as (r & e4 & -> & Hr & Er).
  destruct (Hmul r b' Hr Hb') as (x' & e5 & -> & Hx' & Ex'). cbn [mbind outcome_bind].
  destruct (Hmul q b' Hq Hb') as (y & e6 & -> & Hy & Ey). cbn [mbind outcome_bind].
  destruct (div_exact x' c Hx' Nc) as (q' & e7 & -> & Hq' & Eq').
  destruct (Hadd y q' Hy Hq') as (s & e8 & -> & Hs & Es). cbn [mbind outcome_bind].
  do 2 eexists. split; [done|]. split; [done|].
  rewrite !orb_false_iff. intros [[[[[E3 E4] E5] E6] E7] E8].
  split; [done|]. rewrite Es, Ey, Eq', Ex', Er, Eq, <- Eab by done. by apply quot_split.
Qed.

(** The quotient rounded up. *)
Definition ceil (a b : Z) : Z := - (- a / b).

Lemma ceil_quot a b : b <> 0 ->
  ceil a b = Z.quot a b + (if (a * b <? 0) || (Z.rem a b =? 0) then 0 else 1).
Proof.
  intros Hb. unfold ceil. rewrite (Z.quot_rem' a b) at 1.
  replace (- (b * Z.quot a b + Z.rem a b)) with (- Z.rem a b + (- Z.quot a b) * b) by ring.
  rewrite Z.div_add by done. pose proof (Z.rem_bound_abs a b Hb) as Hr.
  pose proof (Z.rem_sign_mul a b Hb) as Hs.
  destruct (Z.eqb_spec (Z.rem a b) 0) as [->|Nr]; [rewrite orb_true_r; cbn [Z.opp]; rewrite Z.div_0_l by done; lia|]. rewrite orb_false_r.
  assert (Sa : (0 < a /\ 0 < Z.rem a b) \/ (a < 0 /\ Z.rem a b < 0)).
  { destruct (decide (a = 0)) as [->|Na]; [by rewrite Z.rem_0_l in Nr by done|]. nia. }
  assert (E : - Z.rem a b / b = if a * b <? 0 then 0 else -1).
  { destruct (Z.ltb_spec (a * b) 0) as [Hab|Hab].
    - apply Z.div_small_iff; [done|]. assert (Sb : (0 < a /\ b < 0) \/ (a < 0 /\ 0 < b)) by nia. lia.
    - symmetry. apply (Z.div_unique _ _ _ (b - Z.rem a b)); [|ring].
      assert (Sb : (0 < a /\ 0 < b) \/ (a < 0 /\ b < 0)) by nia. lia. }
  rewrite E. zcase; lia.
Qed.

(** Division rounding up is right for numbers of the same sign; for numbers of
    different signs, whose quotient C rounds up already, the result is one too
    large unless the division is exact. *)
Theorem div_round_up_spec a b : is_int a -> is_int b -> b <> 0 -> ~ (a = INT_MIN /\ b = -1) ->
  safe_div_round_up a b
  = Ret (ceil a b + (if (a * b <? 0) && negb (Z.rem a b =? 0) then 1 else 0), false).
Proof.
  intros Ha Hb Nb Nm. pose proof (quot_int a b Ha Nb ltac:(tauto)) as Hq.
  assert (Ec : ceil a b + (if (a * b <? 0) && negb (Z.rem a b =? 0) then 1 else 0)
               = Z.quot a b + Z.b2z (negb (Z.rem a b =? 0))).
  { rewrite ceil_quot by done. destruct (a * b <? 0), (Z.rem a b =? 0); cbn; lia. }
  assert (Hs : is_int (Z.quot a b + Z.b2z (negb (Z.rem a b =? 0)))).
  { destruct (Z.eqb_spec (Z.rem a b) 0) as [|Nr]; cbn; [by rewrite Z.add_0_r|].
    assert (b <> 1) as N1 by (intros ->; apply Nr, Z.rem_1_r).
    assert (b <> -1) as N2 by (intros ->; apply Nr; change (-1) with (- (1)); rewrite Z.rem_opp_r by done; apply Z.rem_1_r).
    pose proof (quot_half a b Nb N1 N2). unfold is_int, INT_MIN, INT_MAX in *. lia. }
  rewrite Ec. clear Ec. unfold safe_div_round_up.
  destruct (decide (0 < b /\ 0 < a)) as [[Hb0 Ha0]|Hn].
  - rewrite !(proj2 (Z.ltb_lt _ _)) by done. cbn [andb].
    rewrite (int_op_ok (INT_MAX - b)) by (unfold is_int, INT_MIN, INT_MAX in *; lia). cbn [mbind outcome_bind].
    zcase; [|by rewrite int_op_ok by done].
    rewrite int_op_ok by (unfold is_int, INT_MIN, INT_MAX in *; lia). cbn [mbind outcome_bind].
    do 2 f_equal. symmetry. pose proof (Z.quot_rem' a b). pose proof (Z.rem_bound_pos a b ltac:(lia) ltac:(lia)).
    destruct (Z.eqb_spec (Z.rem a b) 0) as [Er|Er]; cbn [negb Z.b2z].
    + apply (Z.quot_unique _ _ _ (b - 1)); lia.
    + apply (Z.quot_unique _ _ _ (Z.rem a b - 1)); lia.
  - assert ((0 <? b) && (0 <? a) = false) as -> by (apply andb_false_iff; rewrite !Z.ltb_ge; lia).
    rewrite (proj2 (Z.eqb_neq _ _) Nb). destruct (Z.eqb_spec a 0) as [->|Na]; [by rewrite Z.rem_0_l, Z.quot_0_l by done|].
    unfold safe_mod, safe_div. rewrite (proj2 (Z.eqb_neq _ _) Nb).
    assert ((b =? -1) && (a =? INT_MIN) = false) as -> by (apply andb_false_iff; rewrite !Z.eqb_neq; lia).
    unfold safe_add_builtin. by rewrite decide_True by done.
Qed.

Example div_round_up_mixed : safe_div_round_up (-1) 2 = Ret (1, false) /\ ceil (-1) 2 = 0.
Proof. done. Qed.

(** The checked arithmetic: the portable sum and difference are those of the
    compiler, and run into no overflow themselves; so is the product, but for a
    spurious error at [INT_MIN]; multiplication with division is exact whenever
    it reports no error, even when the product is no [int], in both builds. *)
Theorem safe_math_exact a b c : is_int a -> is_int b -> is_int c ->
  safe_add_portable a b = Ret (safe_add_builtin a b) /\
  safe_sub_portable a b = Ret (safe_sub_builtin a b) /\
  safe_mul_portable a b
  = Ret ((safe_mul_builtin a b).1,
         (safe_mul_builtin a b).2 || ((a * b =? INT_MIN) && negb (a =? 1) && negb (b =? 1))) /\
  forall muldiv, muldiv = safe_muldiv_builtin \/ muldiv = safe_muldiv_portable ->
    exists v e, muldiv a b c = Ret (v, e) /\ is_int v /\
      (e = false -> c <> 0 /\ v = Z.quot (a * b) c).
Proof.
  intros Ha Hb Hc. split_and!; [by apply add_portable_eq|by apply sub_portable_eq|by apply mul_portable_eq|].
  intros muldiv [-> | ->]; apply muldiv_exact; auto using mul_builtin_exact, add_builtin_exact,
    mul_portable_exact, add_portable_exact.
Qed.

Lemma safe_math_exact_witness :
  (exists v e, safe_muldiv_portable 1000000000 8 5 = Ret (v, e) /\ is_int v /\
    (e = false -> 5 <> 0 /\ v = Z.quot (1000000000 * 8) 5)) /\
  safe_muldiv_portable 1000000000 8 5 = Ret (1600000000, false).
Proof.
  split; [|vm_compute; reflexivity].
  pose proof (safe_math_exact 1000000000 8 5 ltac:(done) ltac:(done) ltac:(done)) as (_ & _ & _ & H).
  apply (H safe_muldiv_portable). by right.
Defined.
