(* ===== verification/Bsearch.v ===== *)
(** * Binary search (openssl crypto/bsearch.c)

    [ossl_bsearch] finds a key among [num] elements of [size] bytes each.  The
    comparison of the key with the element at an index is a function of the
    index, which faults where the element may not be read; a result points to an
    element and is its index, or null. *)

From S2P Require Import Prelude.
#[local] Open Scope Z_scope.

Definition OSSL_BSEARCH_VALUE_ON_NOMATCH : Z := 1.
Definition OSSL_BSEARCH_FIRST_VALUE_ON_MATCH : Z := 2.

Section bsearch.
Variable cmp_at : Z -> outcome Z.
Variables num size flags : Z.

(** [( *cmp) (key, &(base_[i * size]))]: the offset is computed as an [int]. *)
Definition compare_with (i : Z) : outcome Z := _ ← int_op (i * size); cmp_at i.

(** [while (l < h)]: the last index looked at, with the comparison there; [i]
    and [c] are the values to begin with, [p] is the element last looked at. *)
Fixpoint bsearch_loop (fuel : nat) (l h i c : Z) (p : option Z) : outcome (Z * Z * option Z) :=
  if l <? h then
    match fuel with
    | O => NoFuel
    | S k =>
        s ← int_op (l + h);
        let i := Z.quot s 2 in
        c ← compare_with i;
        if c <? 0 then bsearch_loop k l i i c (Some i)
        else if 0 <? c then bsearch_loop k (i + 1) h i c (Some i)
        else Ret (i, c, Some i)
    end
  else Ret (i, c, p).

(** [while (i > 0 && ( *cmp) (key, &(base_[(i - 1) * size])) == 0) i--;]: [k]
    bounds the turns. *)
Fixpoint first_match (k : nat) (i : Z) : outcome Z :=
  match k with
  | O => Ret i
  | S k' =>
      if 0 <? i then
        c ← compare_with (i - 1);
        if c =? 0 then first_match k' (i - 1) else Ret i
      else Ret i
  end.

Definition ossl_bsearch : outcome (option Z) :=
  if num =? 0 then Ret None
  else
    '(i, c, p) ← bsearch_loop (Z.to_nat num) 0 num 0 0 None;
    if negb (c =? 0) && (Z.land flags OSSL_BSEARCH_VALUE_ON_NOMATCH =? 0) then Ret None
    else if (c =? 0) && negb (Z.land flags OSSL_BSEARCH_FIRST_VALUE_ON_MATCH =? 0) then
      i ← first_match (Z.to_nat i) i; Ret (Some i)
    else Ret p.

(** ** What it finds

    [g] gives the comparisons with the elements, which are in ascending order:
    the key is first above, then equal to, then below them. *)
Variable g : Z -> Z.

Definition ascending : Prop :=
  forall i j, 0 <= i -> i < j -> j < num -> Z.sgn (g j) <= Z.sgn (g i).

(** What the result must be. *)
Definition bsearch_result (r : option Z) : Prop :=
  match r with
  | Some i =>
      0 <= i < num /\
      ((g i = 0 /\
        (Z.land flags OSSL_BSEARCH_FIRST_VALUE_ON_MATCH <> 0 -> forall j, 0 <= j < i -> 0 < g j)) \/
       (Z.land flags OSSL_BSEARCH_VALUE_ON_NOMATCH <> 0 /\ g i <> 0 /\
        (forall j, 0 <= j < i -> 0 < g j) /\ (forall j, i < j < num -> g j < 0)))
  | None =>
      (Z.land flags OSSL_BSEARCH_VALUE_ON_NOMATCH = 0 \/ num = 0) /\ forall j, 0 <= j < num -> g j <> 0
  end.

Hypothesis Hcmp : forall i, 0 <= i < num -> cmp_at i = Ret (g i).
Hypothesis Hasc : ascending.
Hypothesis Hsize : 0 <= size.
Hypothesis Hfit : 2 * num <= INT_MAX /\ num * size <= INT_MAX.

Lemma compare_with_eq i : 0 <= i < num -> compare_with i = Ret (g i).
Proof.
  intros Hi. unfold compare_with. rewrite int_op_ok; [by apply Hcmp|].
  unfold is_int, INT_MIN, INT_MAX in *. nia.
Qed.

(** The loop stops at a match, or beside the place of a key that has none. *)
Lemma bsearch_loop_spec fuel : forall l h i c p,
  0 <= l -> l <= h -> h <= num -> (Z.to_nat (h - l) <= fuel)%nat ->
  (forall j, 0 <= j < l -> 0 < g j) -> (forall j, h <= j < num -> g j < 0) ->
  (l < h \/ (0 <= i < num /\ g i = c /\ c <> 0 /\ p = Some i /\ (l = i + 1 \/ h = i))) ->
  exists i', bsearch_loop fuel l h i c p = Ret (i', g i', Some i') /\ 0 <= i' < num /\
    (g i' <> 0 -> (forall j, 0 <= j < i' -> 0 < g j) /\ (forall j, i' < j < num -> g j < 0)).
Proof.
  induction fuel as [|k IH]; intros l h i c p Hl Hlh Hh Hf Hlow Hhigh Hlast; cbn [bsearch_loop];
    (destruct (Z.ltb_spec l h) as [Hlt|Hge]; [try lia|]).
  1, 3: destruct Hlast as [?|(Hi & Hg & Nc & -> & Hend)]; [lia|]; exists i; rewrite Hg;
    (split; [done|]); (split; [done|]); intros _; split; intros j Hj; [apply Hlow; lia|apply Hhigh; lia].
  rewrite int_op_ok by (unfold is_int, INT_MIN, INT_MAX in *; lia). cbn [mbind outcome_bind].
  rewrite Z.quot_div_nonneg by lia. set (m := (l + h) / 2).
  assert (Hm : l <= m < h) by (unfold m; Z.div_mod_to_equations; lia).
  rewrite compare_with_eq by lia. cbn [mbind outcome_bind].
  destruct (Z.ltb_spec (g m) 0) as [Hneg|Hnn]; [|destruct (Z.ltb_spec 0 (g m)) as [Hpos|Hz]].
  - apply IH; try lia; [done| |right; split_and!; lia || done].
    intros j Hj. destruct (decide (j = m)) as [->|]; [done|]. destruct (decide (h <= j)); [apply Hhigh; lia|].
    pose proof (Hasc m j ltac:(lia) ltac:(lia) ltac:(lia)). lia.
  - apply IH; try lia; [|done|right; split_and!; lia || done].
    intros j Hj. destruct (decide (j = m)) as [->|]; [done|]. destruct (decide (j < l)); [apply Hlow; lia|].
    pose proof (Hasc j m ltac:(lia) ltac:(lia) ltac:(lia)). lia.
  - exists m. assert (g m = 0) as E by lia. rewrite E. split_and!; lia || done.
Qed.

Lemma first_match_spec k : forall i, (Z.to_nat i <= k)%nat -> 0 <= i < num -> g i = 0 ->
  exists i', first_match k i = Ret i' /\ 0 <= i' < num /\ g i' = 0 /\ forall j, 0 <= j < i' -> 0 < g j.
Proof.
  induction k as [|k IH]; intros i Hk Hi Hg; cbn [first_match].
  { exists i. split_and!; try lia; done. }
  zcase; [|exists i; split_and!; try lia; done].
  rewrite compare_with_eq by lia. cbn [mbind outcome_bind]. zcase; [apply IH; lia|].
  exists i. split_and!; try lia; [done|]. intros j Hj.
  pose proof (Hasc (i - 1) i ltac:(lia) ltac:(lia) ltac:(lia)).
  destruct (decide (j = i - 1)) as [->|]; [lia|].
  pose proof (Hasc j (i - 1) ltac:(lia) ltac:(lia) ltac:(lia)). lia.
Qed.

Lemma bsearch_finds : 0 <= num -> exists r, ossl_bsearch = Ret r /\ bsearch_result r.
Proof.
  intros Hn. unfold ossl_bsearch. destruct (Z.eqb_spec num 0) as [E|E].
  { eexists. split; [done|]. split; [by right|lia]. }
  destruct (bsearch_loop_spec (Z.to_nat num) 0 num 0 0 None) as (i & -> & Hi & Hmiss); try lia.
  cbn [mbind outcome_bind]. destruct (Z.eqb_spec (g i) 0) as [Eg|Ng]; cbn [negb andb].
  - destruct (Z.eqb_spec (Z.land flags OSSL_BSEARCH_FIRST_VALUE_ON_MATCH) 0) as [Ef|Nf]; cbn [negb].
    { eexists. split; [done|]. split; [done|]. left. by split. }
    destruct (first_match_spec (Z.to_nat i) i) as (i' & -> & Hi' & Hg' & Hf); try lia.
    eexists. split; [done|]. split; [done|]. left. by split.
  - destruct (Hmiss Ng) as [Hlow Hhigh].
    destruct (Z.eqb_spec (Z.land flags OSSL_BSEARCH_VALUE_ON_NOMATCH) 0) as [Ef|Nf].
    + eexists. split; [done|]. split; [by left|]. intros j Hj.
      destruct (Z.lt_trichotomy j i) as [H|[->|H]]; [|done|].
      * pose proof (Hlow j ltac:(lia)). lia.
      * pose proof (Hhigh j ltac:(lia)). lia.
    + eexists. split; [done|]. split; [done|]. by right.
Qed.
End bsearch.

(** An array whose middle lies past the range of [int] cannot be searched: the
    offset [i * size] overflows before the first comparison, whatever the
    elements are. *)
Lemma bsearch_overflow cmp_at num size flags : 0 < num -> INT_MAX < num / 2 * size ->
  ossl_bsearch cmp_at num size flags = Fault.
Proof.
  intros Hn Hs. unfold ossl_bsearch. rewrite (proj2 (Z.eqb_neq _ _)) by lia.
  destruct (Z.to_nat num) as [|k] eqn:Ek; [lia|]. cbn [bsearch_loop].
  rewrite (proj2 (Z.ltb_lt _ _)) by lia. rewrite Z.add_0_l.
  destruct (decide (is_int num)) as [Hi|Hi]; [|unfold int_op; by rewrite decide_False by done].
  rewrite int_op_ok by done. cbn [mbind outcome_bind].
  rewrite Z.quot_div_nonneg by lia. unfold compare_with, int_op. rewrite decide_False; [done|].
  unfold is_int. lia.
Qed.
