(* ===== verification/Stack.v ===== *)
(** * The stack of OpenSSL (openssl crypto/stack/stack.c)

    A growable array of pointers with an optional comparison function, sorted
    when it is searched.  The functions take and return the structure, [None]
    being a null pointer; an allocation succeeds or not as an argument of the
    function says. *)

From S2P Require Import Prelude SafeMath Bsearch.
#[local] Open Scope Z_scope.

(** The configuration of a build: pointers of 64 or 32 bits, and which checked
    arithmetic. *)
Class Platform := { bits64 : bool; has_builtin : bool }.

Definition sizeof_ptr `{Platform} : Z := if bits64 then 8 else 4.
Definition SIZE_MAX `{Platform} : Z := if bits64 then 2 ^ 64 - 1 else 2 ^ 32 - 1.
Definition min_nodes : Z := 4.
Definition max_nodes `{Platform} : Z :=
  if SIZE_MAX / sizeof_ptr <? INT_MAX then SIZE_MAX / sizeof_ptr else INT_MAX.

Definition safe_muldiv_int `{Platform} : Z -> Z -> Z -> outcome (Z * bool) :=
  if has_builtin then safe_muldiv_builtin else safe_muldiv_portable.

(** The caller's comparison functions are known by their pointers [F]; [qsort]
    is that of the C library. *)
Class Comparisons (A F : Type) := compare : F -> option A -> option A -> Z.
Class Qsort (A : Type) := qsort : (option A -> option A -> Z) -> list (option A) -> list (option A).

(** A slot of the array: memory that was never written, or a pointer. *)
Inductive cell (A : Type) :=
| Uninit
| Cell (p : option A).
Arguments Uninit {A}.
Arguments Cell {A} p.

(** [struct stack_st] *)
Record stack_st (A F : Type) := mkStack {
  num : Z;
  data : option (list (cell A));
  sorted : Z;
  num_alloc : Z;
  comp : option F
}.
Arguments mkStack {A F}.
Arguments num {A F}.
Arguments data {A F}.
Arguments sorted {A F}.
Arguments num_alloc {A F}.
Arguments comp {A F}.

(** ** Growth *)

(** [while (current < target)]; 0 for a failure. *)
Fixpoint growth_loop `{Platform} (fuel : nat) (target current : Z) : outcome Z :=
  if current <? target then
    match fuel with
    | O => NoFuel
    | S k =>
        if max_nodes <=? current then Ret 0
        else
          '(current, err) ← safe_muldiv_int current 8 5;
          if (err : bool) then Ret 0
          else growth_loop k target (if max_nodes <=? current then max_nodes else current)
    end
  else Ret current.

Definition compute_growth `{Platform} (target current : Z) : outcome Z := growth_loop 64 target current.

Section stack.
Context `{Platform} {A F : Type} `{EqDecision A, EqDecision F, Comparisons A F, Qsort A}.
Implicit Types (st : stack_st A F) (sk : option (stack_st A F)) (p : option A) (ok : nat -> bool).

(** *** Memory *)

(** An array that must be there. *)
Definition deref {B} (x : option B) : outcome B := match x with Some y => Ret y | None => Fault end.

(** The value of a slot. *)
Definition value_of (c : cell A) : outcome (option A) :=
  match c with Cell p => Ret p | Uninit => Fault end.

Definition cell_get (d : list (cell A)) (i : Z) : outcome (option A) := c ← aget d i; value_of c.

(** The values of [n] slots from the first on. *)
Fixpoint values_of (l : list (cell A)) : outcome (list (option A)) :=
  match l with
  | [] => Ret []
  | c :: l' => p ← value_of c; r ← values_of l'; Ret (p :: r)
  end.

Definition set_data (d : list (cell A)) st : stack_st A F :=
  mkStack (num st) (Some d) (sorted st) (num_alloc st) (comp st).
Definition set_num (n : Z) st : stack_st A F :=
  mkStack n (data st) (sorted st) (num_alloc st) (comp st).
Definition set_sorted (s : Z) st : stack_st A F :=
  mkStack (num st) (data st) s (num_alloc st) (comp st).
Definition set_alloc (d : list (cell A)) (n : Z) st : stack_st A F :=
  mkStack (num st) (Some d) (sorted st) n (comp st).

(** ** Allocation *)

(** [sk_reserve]: [ok] says whether the memory can be had. *)
Definition sk_reserve (ok : bool) (st : stack_st A F) (n : Z) (exact : bool) : outcome (Z * stack_st A F) :=
  room ← int_op (max_nodes - num st);
  if room <? n then Ret (0, st)
  else
    s ← int_op (num st + n);
    let na := if s <? min_nodes then min_nodes else s in
    match data st with
    | None =>
        if ok then Ret (1, set_alloc (replicate (Z.to_nat na) (Cell None)) na st) else Ret (0, st)
    | Some d =>
        let resize na :=
          if ok then
            Ret (1, set_alloc (take (Z.to_nat na) d ++ replicate (Z.to_nat na - length d) Uninit) na st)
          else Ret (0, st) in
        if negb exact then
          if na <=? num_alloc st then Ret (1, st)
          else
            na ← compute_growth na (num_alloc st);
            if na =? 0 then Ret (0, st) else resize na
        else if na =? num_alloc st then Ret (1, st)
        else resize na
    end.

(** [OPENSSL_sk_new_reserve]: [ok 0] is the structure, [ok 1] the array. *)
Definition OPENSSL_sk_new_reserve ok (c : option F) (n : Z) : outcome (option (stack_st A F)) :=
  if negb (ok 0%nat) then Ret None
  else
    let st := mkStack 0 None 0 0 c in
    if n <=? 0 then Ret (Some st)
    else
      '(r, st) ← sk_reserve (ok 1%nat) st n true;
      if r =? 0 then Ret None else Ret (Some st).

Definition OPENSSL_sk_new_null ok : outcome (option (stack_st A F)) := OPENSSL_sk_new_reserve ok None 0.
Definition OPENSSL_sk_new ok (c : option F) : outcome (option (stack_st A F)) := OPENSSL_sk_new_reserve ok c 0.

Definition OPENSSL_sk_reserve (ok : bool) sk (n : Z) : outcome (Z * option (stack_st A F)) :=
  match sk with
  | None => Ret (0, None)
  | Some st =>
      if n <? 0 then Ret (1, Some st)
      else '(r, st) ← sk_reserve ok st n true; Ret (r, Some st)
  end.

(** ** Insertion and deletion *)

Definition OPENSSL_sk_insert (ok : bool) sk p (loc : Z) : outcome (Z * option (stack_st A F)) :=
  match sk with
  | None => Ret (0, None)
  | Some st =>
      if num st =? max_nodes then Ret (0, Some st)
      else
        '(r, st) ← sk_reserve ok st 1 false;
        if r =? 0 then Ret (0, Some st)
        else
          d ← deref (data st);
          d ← (if (num st <=? loc) || (loc <? 0) then aset d (num st) (Cell p)
               else
                 moved ← mem_read d loc (num st - loc);
                 d ← mem_write d (loc + 1) moved;
                 aset d loc (Cell p));
          let st := set_sorted 0 (set_num (num st + 1) (set_data d st)) in
          Ret (num st, Some st)
  end.

Definition OPENSSL_sk_push (ok : bool) sk p : outcome (Z * option (stack_st A F)) :=
  match sk with
  | None => Ret (-1, None)
  | Some st => OPENSSL_sk_insert ok sk p (num st)
  end.

Definition OPENSSL_sk_unshift (ok : bool) sk p : outcome (Z * option (stack_st A F)) :=
  OPENSSL_sk_insert ok sk p 0.

Definition internal_delete st (loc : Z) : outcome (option A * stack_st A F) :=
  d ← deref (data st);
  ret ← cell_get d loc;
  d ← (if loc =? num st - 1 then Ret d
       else moved ← mem_read d (loc + 1) (num st - loc - 1); mem_write d loc moved);
  Ret (ret, set_num (num st - 1) (set_data d st)).

(** [for (i = 0; i < st->num; i++)], [k] being the turns that are left. *)
Fixpoint delete_ptr_loop (k : nat) st (i : Z) p : outcome (option A * stack_st A F) :=
  match k with
  | O => Ret (None, st)
  | S k' =>
      d ← deref (data st);
      q ← cell_get d i;
      if decide (q = p) then internal_delete st i else delete_ptr_loop k' st (i + 1) p
  end.

Definition OPENSSL_sk_delete_ptr sk p : outcome (option A * option (stack_st A F)) :=
  st ← deref sk;
  '(r, st) ← delete_ptr_loop (Z.to_nat (num st)) st 0 p;
  Ret (r, Some st).

Definition OPENSSL_sk_delete sk (loc : Z) : outcome (option A * option (stack_st A F)) :=
  match sk with
  | None => Ret (None, None)
  | Some st =>
      if (loc <? 0) || (num st <=? loc) then Ret (None, Some st)
      else '(r, st) ← internal_delete st loc; Ret (r, Some st)
  end.

Definition OPENSSL_sk_shift sk : outcome (option A * option (stack_st A F)) :=
  match sk with
  | None => Ret (None, None)
  | Some st =>
      if num st =? 0 then Ret (None, Some st)
      else '(r, st) ← internal_delete st 0; Ret (r, Some st)
  end.

Definition OPENSSL_sk_pop sk : outcome (option A * option (stack_st A F)) :=
  match sk with
  | None => Ret (None, None)
  | Some st =>
      if num st =? 0 then Ret (None, Some st)
      else '(r, st) ← internal_delete st (num st - 1); Ret (r, Some st)
  end.

Definition OPENSSL_sk_zero sk : outcome (option (stack_st A F)) :=
  match sk with
  | None => Ret None
  | Some st =>
      if num st =? 0 then Ret (Some st)
      else
        d ← deref (data st);
        d ← mem_write d 0 (replicate (Z.to_nat (num st)) (Cell None));
        Ret (Some (set_num 0 (set_data d st)))
  end.

(** ** Access *)

Definition OPENSSL_sk_num sk : Z := match sk with None => -1 | Some st => num st end.

Definition OPENSSL_sk_value sk (i : Z) : outcome (option A) :=
  match sk with
  | None => Ret None
  | Some st =>
      if (i <? 0) || (num st <=? i) then Ret None
      else d ← deref (data st); cell_get d i
  end.

Definition OPENSSL_sk_set sk (i : Z) p : outcome (option A * option (stack_st A F)) :=
  match sk with
  | None => Ret (None, None)
  | Some st =>
      if (i <? 0) || (num st <=? i) then Ret (None, Some st)
      else
        d ← deref (data st);
        d ← aset d i (Cell p);
        q ← cell_get d i;
        Ret (q, Some (set_sorted 0 (set_data d st)))
  end.

(** ** Sorting and searching *)

Definition OPENSSL_sk_set_cmp_func sk (c : option F) : outcome (option F * option (stack_st A F)) :=
  st ← deref sk;
  let old := comp st in
  let s := if decide (old = c) then sorted st else 0 in
  Ret (old, Some (mkStack (num st) (data st) s (num_alloc st) c)).

(** The array sorted by [qsort] when it has more than one element, and marked
    as sorted. *)
Definition sort_data (f : F) st : outcome (stack_st A F) :=
  st ← (if 1 <? num st then
          d ← deref (data st);
          cells ← mem_read d 0 (num st);
          vals ← values_of cells;
          d ← mem_write d 0 (Cell <$> qsort (compare f) vals);
          Ret (set_data d st)
        else Ret st);
  Ret (set_sorted 1 st).

Definition OPENSSL_sk_sort sk : outcome (option (stack_st A F)) :=
  match sk with
  | None => Ret None
  | Some st =>
      match comp st with
      | Some f => if sorted st =? 0 then st ← sort_data f st; Ret (Some st) else Ret sk
      | None => Ret sk
      end
  end.

Definition OPENSSL_sk_is_sorted sk : Z := match sk with None => 1 | Some st => sorted st end.

(** [for (i = 0; i < st->num; i++) if (st->data[i] == data)] *)
Fixpoint linear_find (k : nat) (d : list (cell A)) (i : Z) p : outcome Z :=
  match k with
  | O => Ret (-1)
  | S k' => q ← cell_get d i; if decide (q = p) then Ret i else linear_find k' d (i + 1) p
  end.

(** [while (p < st->data + st->num)]: how many elements from [i] on are equal. *)
Fixpoint count_equal (k : nat) (f : F) (d : list (cell A)) (i : Z) p : outcome Z :=
  match k with
  | O => Ret 0
  | S k' =>
      q ← cell_get d i;
      if compare f p q =? 0 then n ← count_equal k' f d (i + 1) p; Ret (n + 1) else Ret 0
  end.

(** [internal_find]: the index, what is stored through [pnum] if anything is,
    and the stack; [want] tells whether [pnum] is given. *)
Definition internal_find sk p (ret_val_options : Z) (want : bool)
  : outcome (Z * option Z * option (stack_st A F)) :=
  match sk with
  | None => Ret (-1, None, sk)
  | Some st =>
      if num st =? 0 then Ret (-1, None, sk)
      else
        match comp st with
        | None =>
            d ← deref (data st);
            i ← linear_find (Z.to_nat (num st)) d 0 p;
            Ret (i, if want then Some (if i =? -1 then 0 else 1) else None, sk)
        | Some f =>
            st ← (if sorted st =? 0 then sort_data f st else Ret st);
            match p with
            | None => Ret (-1, None, Some st)
            | Some _ =>
                let ret_val_options :=
                  if want then Z.lor ret_val_options OSSL_BSEARCH_FIRST_VALUE_ON_MATCH else ret_val_options in
                d ← deref (data st);
                r ← ossl_bsearch (fun i => q ← cell_get d i; Ret (compare f p q))
                      (num st) sizeof_ptr ret_val_options;
                n ← (if want then
                       match r with
                       | Some i => n ← count_equal (Z.to_nat (num st - i)) f d i p; Ret (Some n)
                       | None => Ret (Some 0)
                       end
                     else Ret None);
                Ret (match r with Some i => i | None => -1 end, n, Some st)
            end
        end
  end.

Definition OPENSSL_sk_find sk p : outcome (Z * option (stack_st A F)) :=
  '(i, _, sk) ← internal_find sk p OSSL_BSEARCH_FIRST_VALUE_ON_MATCH false; Ret (i, sk).

Definition OPENSSL_sk_find_ex sk p : outcome (Z * option (stack_st A F)) :=
  '(i, _, sk) ← internal_find sk p OSSL_BSEARCH_VALUE_ON_NOMATCH false; Ret (i, sk).

Definition OPENSSL_sk_find_all sk p : outcome (Z * option Z * option (stack_st A F)) :=
  internal_find sk p OSSL_BSEARCH_FIRST_VALUE_ON_MATCH true.

(** ** Copies *)

(** The structure of a copy, before its array. *)
Definition copy_head sk : stack_st A F :=
  match sk with
  | None => mkStack 0 None 0 0 None
  | Some st => st
  end.

(** [OPENSSL_sk_dup]: [ok 0] is the structure, [ok 1] the array. *)
Definition OPENSSL_sk_dup ok sk : outcome (option (stack_st A F)) :=
  if negb (ok 0%nat) then Ret None
  else
    let ret := copy_head sk in
    if num ret =? 0 then Ret (Some (mkStack (num ret) None (sorted ret) 0 (comp ret)))
    else if negb (ok 1%nat) then Ret None
    else
      d ← deref (data ret);
      cells ← mem_read d 0 (num ret);
      d' ← mem_write (replicate (Z.to_nat (num_alloc ret)) Uninit) 0 cells;
      Ret (Some (set_data d' ret)).

(** [while (--i >= 0)]: the copies that are freed, the last one first. *)
Fixpoint free_copies (i : nat) (d : list (cell A)) : outcome (list A) :=
  match i with
  | O => Ret []
  | S j =>
      p ← cell_get d (Z.of_nat j);
      l ← free_copies j d;
      Ret (match p with Some a => a :: l | None => l end)
  end.

(** [for (i = 0; i < ret->num; ++i)]: the array of copies, or what was freed
    when a copy failed. *)
Fixpoint copy_loop (k : nat) (copy_func : Z -> A -> option A) (src : list (cell A)) (i : nat)
  (d : list (cell A)) : outcome (list (cell A) + list A) :=
  match k with
  | O => Ret (inl d)
  | S k' =>
      p ← cell_get src (Z.of_nat i);
      match p with
      | None => copy_loop k' copy_func src (S i) d
      | Some a =>
          (* the result is stored before it is tested *)
          d ← aset d (Z.of_nat i) (Cell (copy_func (Z.of_nat i) a));
          match copy_func (Z.of_nat i) a with
          | None => l ← free_copies i d; Ret (inr l)
          | Some _ => copy_loop k' copy_func src (S i) d
          end
      end
  end.

(** [OPENSSL_sk_deep_copy]: the copy or null, and what [free_func] was called
    on; [copy_func i] is the copying of the element at [i]. *)
Definition OPENSSL_sk_deep_copy ok sk (copy_func : Z -> A -> option A)
  : outcome (option (stack_st A F) * list A) :=
  if negb (ok 0%nat) then Ret (None, [])
  else
    let ret := copy_head sk in
    if num ret =? 0 then Ret (Some (mkStack (num ret) None (sorted ret) 0 (comp ret)), [])
    else
      let na := if min_nodes <? num ret then num ret else min_nodes in
      if negb (ok 1%nat) then Ret (None, [])
      else
        src ← deref (data ret);
        r ← copy_loop (Z.to_nat (num ret)) copy_func src 0 (replicate (Z.to_nat na) (Cell None));
        match r with
        | inl d => Ret (Some (set_alloc d na ret), [])
        | inr freed => Ret (None, freed)
        end.

(** ** Release *)

(** What [OPENSSL_free] is called on, null pointers left out: the array and the
    structure. *)
Definition OPENSSL_sk_free sk : list (list (cell A) + stack_st A F) :=
  match sk with
  | None => []
  | Some st => match data st with Some d => [inl d] | None => [] end ++ [inr st]
  end.

(** The pointers that are not null. *)
Definition objects (l : list (option A)) : list A := omap (fun p : option A => p) l.

(** The elements on which [func] is called, in order, and what is released. *)
Definition OPENSSL_sk_pop_free sk : outcome (list A * list (list (cell A) + stack_st A F)) :=
  match sk with
  | None => Ret ([], [])
  | Some st =>
      vals ← (if num st =? 0 then Ret [] : outcome (list (option A))
              else
                d ← deref (data st);
                cells ← mem_read d 0 (num st);
                values_of cells);
      Ret (objects vals, OPENSSL_sk_free sk)
  end.
End stack.
