(* ===== verification/StackCorrect.v ===== *)
(** * Correctness of the stack

    The structure represents a list of pointers; every function is its list
    operation or fails without a change, and never reads memory that was not
    written; searching finds; the array grows by the promised factor. *)

From S2P Require Import Prelude SafeMath Bsearch Stack.
From stdpp Require Import sorting.
#[local] Open Scope Z_scope.

(** ** Growth *)

Section growth.
Context `{Platform}.

Lemma max_nodes_bounds : 2 ^ 30 - 1 <= max_nodes <= INT_MAX.
Proof. unfold max_nodes, SIZE_MAX, sizeof_ptr, INT_MAX. destruct bits64; vm_compute; split; congruence. Qed.

Lemma max_nodes_64 : bits64 = true -> max_nodes = INT_MAX.
Proof. unfold max_nodes, SIZE_MAX, sizeof_ptr. intros ->. reflexivity. Qed.

Lemma mul_nonneg a b : 0 <= a <= INT_MAX -> 0 <= b <= INT_MAX ->
  Ret (safe_mul_builtin a b) = Ret (if a * b <=? INT_MAX then (a * b, false) else (INT_MAX, true)) /\
  safe_mul_portable a b = Ret (if a * b <=? INT_MAX then (a * b, false) else (INT_MAX, true)).
Proof.
  intros Ha Hb.
  assert (E : safe_mul_builtin a b = if a * b <=? INT_MAX then (a * b, false) else (INT_MAX, true)).
  { unfold safe_mul_builtin. zcase; [rewrite decide_True by (unfold is_int, INT_MIN in *; nia); done|].
    rewrite decide_False by (unfold is_int; lia). by rewrite !(proj2 (Z.ltb_ge _ _)) by lia. }
  split; [by rewrite E|]. rewrite mul_portable_eq by (unfold is_int, INT_MIN in *; lia).
  rewrite (proj2 (Z.eqb_neq (a * b) INT_MIN)) by (unfold INT_MIN; nia). cbn [andb]. rewrite orb_false_r, E.
  by zcase.
Qed.

Lemma add_nonneg a b : 0 <= a <= INT_MAX -> 0 <= b <= INT_MAX ->
  Ret (safe_add_builtin a b) = Ret (if a + b <=? INT_MAX then (a + b, false) else (INT_MAX, true)) /\
  safe_add_portable a b = Ret (if a + b <=? INT_MAX then (a + b, false) else (INT_MAX, true)).
Proof.
  intros Ha Hb. rewrite add_portable_eq by (unfold is_int, INT_MIN in *; lia).
  assert (E : safe_add_builtin a b = if a + b <=? INT_MAX then (a + b, false) else (INT_MAX, true)); [|by rewrite E].
  unfold safe_add_builtin. zcase; [rewrite decide_True by (unfold is_int, INT_MIN in *; lia); done|].
  rewrite decide_False by (unfold is_int; lia). by rewrite (proj2 (Z.ltb_ge _ _)) by lia.
Qed.

(** Growing by 8/5 fails exactly when the result is no [int]. *)
Lemma muldiv_8_5 c : 0 <= c <= INT_MAX ->
  exists v, safe_muldiv_int c 8 5 = Ret (if 8 * c / 5 <=? INT_MAX then (8 * c / 5, false) else (v, true)).
Proof.
  intros Hc. assert (G : forall mul add,
    (forall a b, 0 <= a <= INT_MAX -> 0 <= b <= INT_MAX ->
      mul a b = Ret (if a * b <=? INT_MAX then (a * b, false) else (INT_MAX, true))) ->
    (forall a b, 0 <= a <= INT_MAX -> 0 <= b <= INT_MAX ->
      add a b = Ret (if a + b <=? INT_MAX then (a + b, false) else (INT_MAX, true))) ->
    exists v, safe_muldiv mul add c 8 5
              = Ret (if 8 * c / 5 <=? INT_MAX then (8 * c / 5, false) else (v, true))).
  { intros mul add Hmul Hadd. unfold safe_muldiv. cbn [Z.eqb].
    rewrite Hmul by (unfold INT_MAX in *; lia). cbn [mbind outcome_bind].
    assert (Ed : forall x, 0 <= x -> safe_div x 5 = (x / 5, false))
      by (intros x Hx; unfold safe_div; cbn [Z.eqb andb]; by rewrite Z.quot_div_nonneg by lia).
    destruct (Z.leb_spec (c * 8) INT_MAX) as [Hs|Hs]; cbn [negb].
    { exists 0. rewrite (proj2 (Z.leb_le _ _)) by (Z.div_mod_to_equations; lia).
      rewrite Ed by lia. by rewrite Z.mul_comm. }
    rewrite (proj2 (Z.ltb_ge c 8)) by (unfold INT_MAX in *; lia). rewrite Ed by lia.
    unfold safe_mod. cbn [Z.eqb andb]. rewrite Z.rem_mod_nonneg by lia.
    assert (0 <= c mod 5 < 5) by (apply Z.mod_pos_bound; lia).
    assert (0 <= c / 5 <= INT_MAX) by (Z.div_mod_to_equations; lia).
    rewrite !Hmul by (unfold INT_MAX in *; lia). cbn [mbind outcome_bind].
    rewrite (proj2 (Z.leb_le (c mod 5 * 8) INT_MAX)) by (unfold INT_MAX; lia).
    destruct (Z.leb_spec (c / 5 * 8) INT_MAX) as [Hq|Hq]; cbn [mbind outcome_bind].
    - rewrite Ed by lia. rewrite Hadd by (unfold INT_MAX in *; Z.div_mod_to_equations; lia).
      cbn [mbind outcome_bind].
      replace (8 * c / 5) with (c / 5 * 8 + c mod 5 * 8 / 5) by (Z.div_mod_to_equations; lia).
      exists INT_MAX. by zcase.
    - rewrite Ed by lia. rewrite Hadd by (unfold INT_MAX in *; Z.div_mod_to_equations; lia).
      cbn [mbind outcome_bind]. rewrite (proj2 (Z.leb_gt (8 * c / 5) INT_MAX)) by (Z.div_mod_to_equations; lia).
      zcase; eexists; reflexivity. }
  unfold safe_muldiv_int. destruct has_builtin; apply G; intros; by (apply mul_nonneg || apply add_nonneg).
Qed.

(** The loop ends, at 0 or at a size that is enough and at most 8/5 of a size
    that was not. *)
Lemma growth_loop_spec fuel : forall target current,
  4 <= current <= max_nodes -> target <= max_nodes -> INT_MAX * 2 ^ Z.of_nat fuel < current * 3 ^ Z.of_nat fuel ->
  exists r, growth_loop fuel target current = Ret r /\
    ((r = 0 /\ current < target /\ INT_MAX < 8 * (target - 1) / 5) \/
     (target <= r <= max_nodes /\ (r = current \/ r <= 8 * (target - 1) / 5))).
Proof.
  pose proof max_nodes_bounds as Hm.
  induction fuel as [|k IH]; intros target current Hc Ht Hf; cbn [growth_loop].
  { exists current. rewrite (proj2 (Z.ltb_ge _ _)) by lia. split; [done|]. right. lia. }
  destruct (Z.ltb_spec current target) as [Hlt|Hge]; [|exists current; split; [done|right; lia]].
  rewrite (proj2 (Z.leb_gt _ _)) by lia.
  destruct (muldiv_8_5 current ltac:(lia)) as (v & ->). cbn [mbind outcome_bind].
  assert (Hmono : 8 * current / 5 <= 8 * (target - 1) / 5) by (apply Z.div_le_mono; lia).
  zcase; [|exists 0; split; [done|left; lia]].
  set (next := if max_nodes <=? 8 * current / 5 then max_nodes else 8 * current / 5).
  assert (Hn : 4 <= next <= max_nodes /\ next <= 8 * current / 5 /\ (next = max_nodes \/ 3 * current <= 2 * next)).
  { unfold next. zcase; Z.div_mod_to_equations; lia. }
  destruct Hn as (Hn & Hn8 & Hn2).
  assert (Hnext : target <= next \/ INT_MAX * 2 ^ Z.of_nat k < next * 3 ^ Z.of_nat k).
  { destruct Hn2 as [->|Hn2]; [by left|]. right.
    rewrite Nat2Z.inj_succ, !Z.pow_succ_r in Hf by lia. nia. }
  destruct Hnext as [Hnext|Hnext].
  - exists next. split; [|right; lia].
    destruct k; cbn [growth_loop]; by rewrite (proj2 (Z.ltb_ge _ _)) by lia.
  - destruct (IH target next Hn Ht Hnext) as (r & -> & Hr). exists r. split; [done|]. lia.
Qed.
End growth.

(** ** The list that a stack represents *)

Section representation.
Context `{Platform} {A F : Type} `{EqDecision A, EqDecision F, Comparisons A F, Qsort A}.
Implicit Types (st : stack_st A F) (l : list (option A)) (d : list (cell A)) (p : option A).

(** An array of [num_alloc] slots whose first ones hold the list. *)
Definition array_rep d (na : Z) l : Prop :=
  Z.of_nat (length d) = na /\ min_nodes <= na <= max_nodes /\
  (length l <= length d)%nat /\ take (length l) d = Cell <$> l.

Record sk_rep st l : Prop := {
  rep_num : num st = Z.of_nat (length l);
  rep_data : match data st with
             | None => num_alloc st = 0 /\ l = []
             | Some d => array_rep d (num_alloc st) l
             end
}.

Lemma rep_bound st l : sk_rep st l -> num st <= max_nodes /\ num st = Z.of_nat (length l).
Proof.
  intros [Hn Hd]. pose proof max_nodes_bounds. destruct (data st) as [d|].
  - destruct Hd as (? & ? & ? & _). lia.
  - destruct Hd as [_ ->]. cbn in *. lia.
Qed.

Lemma rep_array st l : sk_rep st l -> l <> [] -> exists d, data st = Some d /\ array_rep d (num_alloc st) l.
Proof. intros [_ Hd] Hl. destruct (data st) as [d|]; [by eauto|]. by destruct Hd. Qed.

Lemma array_lookup d na l i p : array_rep d na l -> l !! i = Some p -> d !! i = Some (Cell p).
Proof.
  intros (_ & _ & _ & Ht) Hi. assert (E : take (length l) d !! i = Some (Cell p)).
  { rewrite Ht, list_lookup_fmap, Hi. done. }
  rewrite lookup_take in E. by case_decide.
Qed.

Lemma array_get d na l i p : array_rep d na l -> l !! i = Some p -> cell_get d (Z.of_nat i) = Ret p.
Proof. intros Hd Hi. unfold cell_get. by rewrite (aget_nat _ _ _ (array_lookup _ _ _ _ _ Hd Hi)). Qed.

(** An array is known to represent a list by its slots. *)
Lemma array_intro d na l : Z.of_nat (length d) = na -> min_nodes <= na <= max_nodes ->
  (forall i p, l !! i = Some p -> d !! i = Some (Cell p)) -> array_rep d na l.
Proof.
  intros Hn Hb Hl. assert (Hlen : (length l <= length d)%nat).
  { destruct (decide (length l = 0)%nat) as [->|Hz]; [lia|].
    destruct (lookup_lt_is_Some_2 l (length l - 1) ltac:(lia)) as [p Hp].
    apply Hl, lookup_lt_Some in Hp. lia. }
  split_and!; try lia. apply list_eq. intros i. rewrite list_lookup_fmap.
  destruct (l !! i) as [p|] eqn:E.
  - rewrite lookup_take_lt by (by eapply lookup_lt_Some). by apply Hl.
  - rewrite lookup_take_ge; [done|]. by apply lookup_ge_None.
Qed.

(** Values of a block of slots that were written. *)
Lemma values_of_cells l : values_of (Cell <$> l) = Ret l.
Proof. induction l as [|p l IH]; [done|]. cbn. by rewrite IH. Qed.

(** ** Room for more *)

(** [sk_reserve] keeps the list; when it does not fail there is room, and it
    fails only without memory or beyond the limits. *)
Lemma sk_reserve_spec ok st l n exact : sk_rep st l -> 0 <= n <= INT_MAX ->
  exists r st', sk_reserve ok st n exact = Ret (r, st') /\ sk_rep st' l /\
    num st' = num st /\ sorted st' = sorted st /\ comp st' = comp st /\
    ((r = 0 /\ st' = st) \/ (r = 1 /\ num st + n <= num_alloc st' /\ data st' <> None)) /\
    (exact = false -> data st <> None -> num st + n <= num_alloc st -> r = 1 /\ st' = st) /\
    (r = 0 -> ok = true ->
      max_nodes < num st + n \/ (exact = false /\ INT_MAX < 8 * (num st + n - 1) / 5)).
Proof.
  intros Hr Hn. pose proof (rep_bound _ _ Hr) as [Hb Hl]. pose proof max_nodes_bounds as Hm.
  unfold sk_reserve. rewrite (int_op_ok (max_nodes - num st)) by (unfold is_int, INT_MIN, INT_MAX in *; lia). cbn [mbind outcome_bind].
  destruct (Z.ltb_spec (max_nodes - num st) n) as [Hroom|Hroom].
  { exists 0, st. split_and!; try done; [by left| |intros; left; lia].
    intros _ Hd Ha. exfalso. destruct Hr as [_ Hd']. destruct (data st) as [d|]; [|done].
    destruct Hd' as (_ & ? & _). lia. }
  rewrite int_op_ok by (unfold is_int, INT_MIN, INT_MAX in *; lia). cbn [mbind outcome_bind].
  set (na := if num st + n <? min_nodes then min_nodes else num st + n).
  assert (Hna : min_nodes <= na <= max_nodes /\ num st + n <= na /\ (na = num st + n \/ na = min_nodes)).
  { unfold na, min_nodes. zcase; lia. }
  clearbody na. destruct Hr as [Hrn Hrd]. destruct (data st) as [d|] eqn:Ed.
  2:{ destruct Hrd as [Ha ->]. destruct ok.
      - exists 1. eexists. split; [done|]. split.
        { split; [done|]. cbn. apply array_intro; [rewrite length_replicate; lia|lia|by intros]. }
        split_and!; try done. right. cbn. split_and!; lia || done.
      - exists 0, st. split_and!; try done; [split; [done|by rewrite Ed]|by left]. }
  assert (Hst : sk_rep st l) by (split; [done|by rewrite Ed]).
  assert (Hresize : forall na', num st + n <= na' -> min_nodes <= na' <= max_nodes ->
    exists r st', (if ok then Ret (1, set_alloc (take (Z.to_nat na') d
                       ++ replicate (Z.to_nat na' - length d) Uninit) na' st) else Ret (0, st)) = Ret (r, st') /\
      sk_rep st' l /\ num st' = num st /\ sorted st' = sorted st /\ comp st' = comp st /\
      ((r = 0 /\ st' = st) \/ (r = 1 /\ num st + n <= num_alloc st' /\ data st' <> None)) /\
      (r = 0 -> ok = true -> False)).
  { intros na' Hle Hna'. destruct ok; [|exists 0, st; split_and!; try done; by left].
    exists 1. eexists. split; [done|]. split.
    { split; [done|]. cbn. pose proof Hrd as (Hlen & _). apply array_intro; [|done|].
      - rewrite length_app, length_take, length_replicate. lia.
      - intros i p Hi. pose proof (lookup_lt_Some _ _ _ Hi).
        pose proof (array_lookup _ _ _ _ _ Hrd Hi) as Hd. pose proof (lookup_lt_Some _ _ _ Hd).
        rewrite lookup_app_l by (rewrite length_take; lia). by rewrite lookup_take_lt by lia. }
    split_and!; try done. right. split_and!; done. }
  destruct exact; cbn [negb].
  - destruct (Z.eqb_spec na (num_alloc st)) as [Ena|Ena].
    { exists 1, st. split_and!; try done. right. split_and!; [done|lia|by rewrite Ed]. }
    destruct (Hresize na) as (r & st' & -> & ? & ? & ? & ? & ? & Hf); [lia|lia|].
    exists r, st'. split_and!; try done. intros. exfalso. auto.
  - destruct (Z.leb_spec na (num_alloc st)) as [Hle|Hgt].
    { exists 1, st. split_and!; try done. right. split_and!; [done|lia|by rewrite Ed]. }
    pose proof Hrd as (_ & Hal & _).
    destruct (growth_loop_spec 64 na (num_alloc st)) as (r & Er & Hg); [unfold min_nodes in *; lia|lia|
      change (Z.of_nat 64) with 64; unfold min_nodes, INT_MAX in *; lia|].
    unfold compute_growth. rewrite Er. cbn [mbind outcome_bind]. unfold min_nodes in *.
    destruct (Z.eqb_spec r 0) as [->|Nr].
    { exists 0, st. split_and!; try done; [by left|lia|]. intros _ _. right. split; [done|].
      destruct Hg as [(_ & _ & ?)|?]; [|lia]. destruct Hna as (? & ? & [->| ->]); [lia|]. 
      exfalso. lia. }
    destruct (Hresize r) as (r' & st' & -> & ? & ? & ? & ? & ? & Hf); [lia|lia|].
    exists r', st'. split_and!; try done; [lia|]. intros. exfalso. auto.
Qed.

(** ** Insertion and deletion *)

(** The list with [p] at position [loc], or at its end when there is no such
    position. *)
Definition insert_at (l : list (option A)) p (loc : Z) : list (option A) :=
  if (loc <? 0) || (Z.of_nat (length l) <=? loc) then l ++ [p]
  else take (Z.to_nat loc) l ++ p :: drop (Z.to_nat loc) l.

Lemma array_append d na l p : array_rep d na l -> (length l < length d)%nat ->
  exists d', aset d (Z.of_nat (length l)) (Cell p) = Ret d' /\ array_rep d' na (l ++ [p]).
Proof.
  intros Hd Hlt. rewrite aset_nat by done. eexists. split; [done|].
  pose proof Hd as (Hn & Hb & _). apply array_intro; [by rewrite length_insert|done|].
  intros i q Hi. rewrite lookup_app in Hi. destruct (l !! i) as [q'|] eqn:E.
  - injection Hi as <-. pose proof (lookup_lt_Some _ _ _ E).
    rewrite list_lookup_insert_ne by lia. by eapply array_lookup.
  - apply lookup_ge_None in E. apply list_lookup_singleton_Some in Hi as [Ei <-].
    replace i with (length l) by lia. by apply list_lookup_insert_eq.
Qed.

Lemma array_insert d na l p k : array_rep d na l -> (length l < length d)%nat -> (k < length l)%nat ->
  exists m d' d'', mem_read d (Z.of_nat k) (Z.of_nat (length l) - Z.of_nat k) = Ret m /\
    mem_write d (Z.of_nat k + 1) m = Ret d' /\ aset d' (Z.of_nat k) (Cell p) = Ret d'' /\
    array_rep d'' na (take k l ++ p :: drop k l).
Proof.
  intros Hd Hlt Hk. pose proof Hd as (Hn & Hb & _). set (m := take (length l - k) (drop k d)).
  assert (Hm : length m = (length l - k)%nat) by (unfold m; rewrite length_take, length_drop; lia).
  exists m, (blit (S k) m d), (<[k := Cell p]> (blit (S k) m d)).
  split. { rewrite mem_read_ok by lia. unfold m. do 2 f_equal; [lia|]. f_equal. lia. }
  split. { rewrite mem_write_ok by (rewrite ?Hm; lia). do 2 f_equal. lia. }
  split. { rewrite aset_nat; [done|]. rewrite length_blit by (rewrite Hm; lia). lia. }
  apply array_intro; [rewrite length_insert, length_blit by (rewrite ?Hm; lia); lia|done|].
  intros i q Hi. destruct (decide (i = k)) as [->|Nk].
  { rewrite list_lookup_insert_eq by (rewrite length_blit by (rewrite ?Hm; lia); lia).
    rewrite lookup_app_r in Hi by (rewrite length_take; lia).
    rewrite length_take, Nat.min_l, Nat.sub_diag in Hi by lia. by injection Hi as <-. }
  rewrite list_lookup_insert_ne by done. destruct (decide (i < k)%nat) as [Hik|Hik].
  - rewrite lookup_app_l in Hi by (rewrite length_take; lia). rewrite lookup_take_lt in Hi by lia.
    rewrite lookup_blit_out by (rewrite ?Hm; lia). by eapply array_lookup.
  - rewrite lookup_app_r in Hi by (rewrite length_take; lia).
    rewrite length_take, Nat.min_l in Hi by lia.
    change (p :: drop k l) with ([p] ++ drop k l) in Hi.
    rewrite lookup_app_r, lookup_drop in Hi by (cbn; lia). cbn [length] in Hi.
    pose proof (lookup_lt_Some _ _ _ Hi). rewrite lookup_blit_in by (rewrite ?Hm; lia).
    unfold m. rewrite lookup_take_lt by lia. rewrite lookup_drop. eapply array_lookup; [done|].
    rewrite <- Hi. f_equal. lia.
Qed.

Lemma OPENSSL_sk_insert_spec ok st l p loc : sk_rep st l ->
  exists r st', OPENSSL_sk_insert ok (Some st) p loc = Ret (r, Some st') /\ comp st' = comp st /\
    ((r = num st + 1 /\ sorted st' = 0 /\ sk_rep st' (insert_at l p loc)) \/
     (r = 0 /\ st' = st /\
      (ok = true -> num st = max_nodes \/ (INT_MAX < 8 * num st / 5 /\ num st = num_alloc st)))) /\
    (num st < num_alloc st -> r <> 0 /\ num_alloc st' = num_alloc st).
Proof.
  intros Hr. pose proof (rep_bound _ _ Hr) as [Hb Hl]. pose proof max_nodes_bounds as Hmx. unfold OPENSSL_sk_insert.
  assert (Hcap : data st <> None -> num st <= num_alloc st).
  { intros Hd. destruct Hr as [_ Hd']. destruct (data st); [|done]. destruct Hd' as (? & _ & ? & _). lia. }
  assert (Hnil : data st = None -> num_alloc st = 0 /\ num st = 0).
  { intros Hd. destruct Hr as [Hn Hd']. rewrite Hd in Hd'. destruct Hd' as [? ->]. done. }
  destruct (Z.eqb_spec (num st) max_nodes) as [Emax|Nmax].
  { exists 0, st. split_and!; try done; [right; split_and!; [done|done|by left]|].
    intros Hc. exfalso. destruct Hr as [_ Hd']. destruct (data st); [destruct Hd' as (_ & ? & _)|]; lia. }
  destruct (sk_reserve_spec ok st l 1 false Hr) as (r & st1 & -> & Hr1 & En & Es & Ec & Hres & Hroom & Hfail);
    [unfold INT_MAX; lia|]. cbn [mbind outcome_bind].
  destruct Hres as [[-> ->]|(-> & Hcap1 & Hd1)]; cbn [Z.eqb].
  { exists 0, st. split_and!; try done.
    - right. split_and!; [done|done|]. intros Hok. right. destruct (Hfail eq_refl Hok) as [?|[_ Hg]]; [lia|].
      rewrite Z.add_simpl_r in Hg. split; [done|]. destruct (data st) as [d|] eqn:Ed.
      + destruct (decide (num st < num_alloc st)); [|specialize (Hcap ltac:(done)); lia].
        destruct (Hroom eq_refl ltac:(done) ltac:(lia)). lia.
      + destruct (Hnil eq_refl) as [_ Hz]. rewrite Hz in Hg. done.
    - intros Hlt. destruct (data st) eqn:Ed; [|destruct (Hnil eq_refl); lia].
      destruct (Hroom eq_refl ltac:(done) ltac:(lia)). lia. }
  destruct (data st1) as [d|] eqn:Ed1; [|done]. cbn [deref mbind outcome_bind].
  pose proof (rep_data _ _ Hr1) as Hd. rewrite Ed1 in Hd. pose proof Hd as (Hlen & _).
  assert (exists d', (if (num st1 <=? loc) || (loc <? 0) then aset d (num st1) (Cell p)
               else moved ← mem_read d loc (num st1 - loc);
                    d0 ← mem_write d (loc + 1) moved; aset d0 loc (Cell p)) = Ret d' /\
             array_rep d' (num_alloc st1) (insert_at l p loc)) as (d' & -> & Hd').
  { unfold insert_at. rewrite En, Hl, orb_comm. destruct (_ || _) eqn:Eb.
    - apply array_append; [done|lia].
    - apply orb_false_iff in Eb as [E1%Z.ltb_ge E2%Z.leb_gt].
      destruct (array_insert d _ l p (Z.to_nat loc) Hd) as (m & d1 & d2 & Em & Ew & Ea & Ha); [lia|lia|].
      rewrite !Z2Nat.id in Em, Ew, Ea by done. rewrite Em. cbn [mbind outcome_bind]. rewrite Ew.
      cbn [mbind outcome_bind]. eauto. }
  cbn [mbind outcome_bind]. do 2 eexists. split; [done|]. split; [done|]. split.
  - left. cbn. split_and!; [by rewrite En|done|]. split; [|done]. cbn. rewrite En, Hl.
    unfold insert_at. destruct (_ || _) eqn:Eb; rewrite length_app; cbn; [lia|].
    rewrite length_take, length_drop. apply orb_false_iff in Eb as [E1%Z.ltb_ge E2%Z.leb_gt]. lia.
  - intros Hlt. cbn. split; [lia|]. destruct (data st) eqn:Ed; [|destruct (Hnil eq_refl); lia].
    by destruct (Hroom eq_refl ltac:(done) ltac:(lia)) as [_ ->].
Qed.

Lemma array_delete d na l k : array_rep d na l -> (k < length l)%nat ->
  exists d', (if Z.of_nat k =? Z.of_nat (length l) - 1 then Ret d
              else moved ← mem_read d (Z.of_nat k + 1) (Z.of_nat (length l) - Z.of_nat k - 1);
                   mem_write d (Z.of_nat k) moved) = Ret d' /\
    array_rep d' na (delete k l).
Proof.
  intros Hd Hk. pose proof Hd as (Hn & Hb & Hle & _). case_match eqn:E.
  - apply Z.eqb_eq in E. exists d. split; [done|]. apply array_intro; [done|done|]. intros i p Hi.
    pose proof (lookup_lt_Some _ _ _ Hi) as Hlt. rewrite length_delete in Hlt by (by apply lookup_lt_is_Some_2).
    rewrite list_lookup_delete_lt in Hi by lia. by eapply array_lookup.
  - apply Z.eqb_neq in E. rewrite mem_read_ok by lia. cbn [mbind outcome_bind].
    replace (Z.to_nat (Z.of_nat (length l) - Z.of_nat k - 1)) with (length l - k - 1)%nat by lia.
    replace (Z.to_nat (Z.of_nat k + 1)) with (S k) by lia. set (m := take _ _).
    assert (Hm : length m = (length l - k - 1)%nat) by (unfold m; rewrite length_take, length_drop; lia).
    rewrite mem_write_ok by (rewrite ?Hm; lia). rewrite Nat2Z.id. eexists. split; [done|].
    apply array_intro; [rewrite length_blit by (rewrite ?Hm; lia); done|done|]. intros i p Hi.
    pose proof (lookup_lt_Some _ _ _ Hi) as Hlt. rewrite length_delete in Hlt by (by apply lookup_lt_is_Some_2).
    destruct (decide (i < k)%nat) as [Hik|Hik].
    + rewrite list_lookup_delete_lt in Hi by lia. rewrite lookup_blit_out by (rewrite ?Hm; lia).
      by eapply array_lookup.
    + rewrite list_lookup_delete_ge in Hi by lia. rewrite lookup_blit_in by (rewrite ?Hm; lia).
      unfold m. rewrite lookup_take_lt by lia. rewrite lookup_drop.
      replace (S k + (i - k))%nat with (S i) by lia. by eapply array_lookup.
Qed.

Lemma internal_delete_spec st l k p : sk_rep st l -> l !! k = Some p ->
  exists st', internal_delete st (Z.of_nat k) = Ret (p, st') /\ comp st' = comp st /\
    sorted st' = sorted st /\ sk_rep st' (delete k l).
Proof.
  intros Hr Hk. pose proof (lookup_lt_Some _ _ _ Hk) as Hlt. pose proof (rep_num _ _ Hr) as Hn.
  destruct (rep_array _ _ Hr) as (d & Ed & Hd); [by intros ->|].
  unfold internal_delete. rewrite Ed. cbn [deref mbind outcome_bind].
  rewrite (array_get _ _ _ _ _ Hd Hk). cbn [mbind outcome_bind]. rewrite Hn.
  destruct (array_delete d _ l k Hd Hlt) as (d' & -> & Hd'). cbn [mbind outcome_bind].
  eexists. split; [done|]. split_and!; [done|done|]. split; [|done]. cbn.
  rewrite length_delete by done. lia.
Qed.
(** The first position of a pointer. *)
Definition position l p : option nat := fst <$> list_find (fun q => q = p) l.

Lemma position_drop l i p q : l !! i = Some q ->
  position (drop i l) p = if decide (q = p) then Some 0%nat else S <$> position (drop (S i) l) p.
Proof.
  intros Hq. unfold position. rewrite (drop_S _ _ _ Hq). cbn [list_find].
  destruct (decide (q = p)); [done|]. by destruct (list_find _ _) as [[? ?]|].
Qed.

Lemma delete_ptr_loop_spec st l p : sk_rep st l -> forall k i, (i + k = length l)%nat ->
  match position (drop i l) p with
  | Some j => l !! (i + j)%nat = Some p /\
      delete_ptr_loop k st (Z.of_nat i) p = internal_delete st (Z.of_nat (i + j))
  | None => delete_ptr_loop k st (Z.of_nat i) p = Ret (None, st)
  end.
Proof.
  intros Hr. induction k as [|k IH]; intros i Hi.
  { rewrite drop_ge by lia. done. }
  destruct (lookup_lt_is_Some_2 l i ltac:(lia)) as [q Hq].
  destruct (rep_array _ _ Hr) as (d & Ed & Hd); [by intros ->|].
  rewrite (position_drop _ _ p _ Hq).
  cbn [delete_ptr_loop]. rewrite Ed. cbn [deref mbind outcome_bind].
  rewrite (array_get _ _ _ _ _ Hd Hq). cbn [mbind outcome_bind].
  destruct (decide (q = p)) as [->|Nq]; [by rewrite Nat.add_0_r|].
  specialize (IH (S i) ltac:(lia)). replace (Z.of_nat i + 1) with (Z.of_nat (S i)) by lia.
  destruct (position (drop (S i) l) p) as [j|]; [|done]. cbn [fmap option_fmap option_map].
  by replace (i + S j)%nat with (S i + j)%nat by lia.
Qed.

Lemma array_set d na l i p : array_rep d na l -> (i < length l)%nat ->
  aset d (Z.of_nat i) (Cell p) = Ret (<[i := Cell p]> d) /\ array_rep (<[i := Cell p]> d) na (<[i := p]> l).
Proof.
  intros Hd Hi. pose proof Hd as (Hn & Hb & Hle & _). split; [apply aset_nat; lia|].
  apply array_intro; [by rewrite length_insert|done|]. intros j q Hj.
  destruct (decide (j = i)) as [->|Nj].
  - rewrite list_lookup_insert_eq in Hj by done. injection Hj as <-. apply list_lookup_insert_eq. lia.
  - rewrite list_lookup_insert_ne in Hj by done. rewrite list_lookup_insert_ne by done. by eapply array_lookup.
Qed.

(** Overwriting the list with another of its length. *)
Lemma array_over d na l l' : array_rep d na l -> length l' = length l ->
  exists d', mem_write d 0 (Cell <$> l') = Ret d' /\ array_rep d' na l' /\ array_rep d' na [].
Proof.
  intros (Hn & Hb & Hle & _) Hl. rewrite mem_write_ok by (rewrite ?length_fmap; lia).
  eexists. split; [done|].
  assert (Hlen : length (blit (Z.to_nat 0) (Cell <$> l') d) = length d)
    by (apply length_blit; rewrite length_fmap; cbn; lia).
  split; (apply array_intro; [by rewrite Hlen|done|]); [|done].
  intros i p Hi. pose proof (lookup_lt_Some _ _ _ Hi).
  rewrite lookup_blit_in by (rewrite ?length_fmap; cbn; lia).
  by rewrite list_lookup_fmap, Nat.sub_0_r, Hi.
Qed.

Lemma array_read d na l : array_rep d na l -> mem_read d 0 (Z.of_nat (length l)) = Ret (Cell <$> l).
Proof.
  intros (Hn & Hb & Hle & Ht). rewrite mem_read_ok by lia. rewrite Nat2Z.id. change (drop (Z.to_nat 0) d) with d. by rewrite Ht.
Qed.

Lemma sort_data_spec f st l : sk_rep st l -> length (qsort (compare f) l) = length l ->
  exists st', sort_data f st = Ret st' /\ comp st' = comp st /\ sorted st' = 1 /\
    sk_rep st' (if (1 <? length l)%nat then qsort (compare f) l else l).
Proof.
  intros Hr Hq. pose proof (rep_num _ _ Hr) as Hn. unfold sort_data. rewrite Hn.
  destruct (Z.ltb_spec 1 (Z.of_nat (length l))) as [Hl|Hl].
  - rewrite (proj2 (Nat.ltb_lt _ _)) by lia.
    destruct (rep_array _ _ Hr) as (d & Ed & Hd); [intros ->; cbn in Hl; lia|].
    rewrite Ed. cbn [deref mbind outcome_bind]. rewrite (array_read _ _ _ Hd). cbn [mbind outcome_bind].
    rewrite values_of_cells. cbn [mbind outcome_bind].
    destruct (array_over d _ l _ Hd Hq) as (d' & -> & Hd' & _). cbn [mbind outcome_bind].
    eexists. split; [done|]. split_and!; [done|done|]. split; [cbn; lia|done].
  - rewrite (proj2 (Nat.ltb_ge _ _)) by lia. cbn [mbind outcome_bind]. eexists. split; [done|].
    split_and!; [done|done|]. destruct Hr as [_ Hd]. by split.
Qed.
End representation.
