(* ===== verification/StackTheorems.v ===== *)
(** * What the stack promises

    The refinement of a list by every operation, the reachable stacks, searching,
    copying, and the limits of growth.  The comparison functions are consistent
    on the pointers in use ([V]), and [qsort] sorts. *)

From S2P Require Import Prelude SafeMath Bsearch Stack StackCorrect.
From stdpp Require Import sorting.
#[local] Open Scope Z_scope.

(** A comparison that is a total preorder of the pointers in [V]. *)
Definition consistent {A} (cmp : option A -> option A -> Z) (V : option A -> Prop) : Prop :=
  (forall x y, V x -> V y -> Z.sgn (cmp y x) = - Z.sgn (cmp x y)) /\
  (forall x y z, V x -> V y -> V z -> cmp x y <= 0 -> cmp y z <= 0 -> cmp x z <= 0).

Definition ordered {A} (cmp : option A -> option A -> Z) : list (option A) -> Prop :=
  StronglySorted (fun x y => cmp x y <= 0).

(** The contract of [qsort] of the C library. *)
Class QsortLaws (A : Type) `{Qsort A} : Prop := qsort_sorts cmp l :
  consistent cmp (fun x => x ∈ l) -> qsort cmp l ≡ₚ l /\ ordered cmp (qsort cmp l).

Section promises.
Context `{Platform} {A F : Type} `{EqDecision A, EqDecision F, Comparisons A F, !Qsort A, !QsortLaws A}.
Context (V : option A -> Prop).
Implicit Types (st : stack_st A F) (l : list (option A)) (p : option A).

(** ** The abstract stack *)

(** A list, whether it is known to be in order, and the order. *)
Record sk_abs := mkAbs { elems : list (option A); in_order : bool; abs_comp : option F }.

(** The operations with their arguments, and their answers. *)
Inductive sk_op :=
| OpInsert p (loc : Z) | OpPush p | OpUnshift p
| OpDelete (loc : Z) | OpDeletePtr p | OpShift | OpPop | OpZero
| OpSet (i : Z) p | OpValue (i : Z) | OpNum | OpReserve (n : Z)
| OpSetCmp (c : option F) | OpSort | OpIsSorted.

Inductive answer := AInt (z : Z) | APtr p | ACmp (c : option F) | ANone.

Definition run_op (ok : bool) (o : sk_op) (sk : option (stack_st A F)) : outcome (answer * option (stack_st A F)) :=
  match o with
  | OpInsert p loc => '(r, sk) ← OPENSSL_sk_insert ok sk p loc; Ret (AInt r, sk)
  | OpPush p => '(r, sk) ← OPENSSL_sk_push ok sk p; Ret (AInt r, sk)
  | OpUnshift p => '(r, sk) ← OPENSSL_sk_unshift ok sk p; Ret (AInt r, sk)
  | OpDelete loc => '(r, sk) ← OPENSSL_sk_delete sk loc; Ret (APtr r, sk)
  | OpDeletePtr p => '(r, sk) ← OPENSSL_sk_delete_ptr sk p; Ret (APtr r, sk)
  | OpShift => '(r, sk) ← OPENSSL_sk_shift sk; Ret (APtr r, sk)
  | OpPop => '(r, sk) ← OPENSSL_sk_pop sk; Ret (APtr r, sk)
  | OpZero => sk ← OPENSSL_sk_zero sk; Ret (ANone, sk)
  | OpSet i p => '(r, sk) ← OPENSSL_sk_set sk i p; Ret (APtr r, sk)
  | OpValue i => r ← OPENSSL_sk_value sk i; Ret (APtr r, sk)
  | OpNum => Ret (AInt (OPENSSL_sk_num sk), sk)
  | OpReserve n => '(r, sk) ← OPENSSL_sk_reserve ok sk n; Ret (AInt r, sk)
  | OpSetCmp c => '(r, sk) ← OPENSSL_sk_set_cmp_func sk c; Ret (ACmp r, sk)
  | OpSort => sk ← OPENSSL_sk_sort sk; Ret (ANone, sk)
  | OpIsSorted => Ret (AInt (OPENSSL_sk_is_sorted sk), sk)
  end.

(** The element at an index, null outside the list. *)
Definition elem_at l (i : Z) : option A := if i <? 0 then None else default None (l !! Z.to_nat i).

Definition drop_at (a : sk_abs) (i : Z) : sk_abs := mkAbs (delete (Z.to_nat i) (elems a)) (in_order a) (abs_comp a).

Definition in_range l (i : Z) : bool := (0 <=? i) && (i <? Z.of_nat (length l)).

(** The list in its order. *)
Definition sorted_abs (a : sk_abs) : sk_abs :=
  match abs_comp a with
  | Some f =>
      if in_order a then a
      else mkAbs (if (1 <? length (elems a))%nat then qsort (compare f) (elems a) else elems a) true (abs_comp a)
  | None => a
  end.

(** What an operation does to the list, when it does not fail. *)
Definition spec_op (o : sk_op) (a : sk_abs) : answer * sk_abs :=
  let l := elems a in
  let inserted p loc := (AInt (Z.of_nat (length l) + 1), mkAbs (insert_at l p loc) false (abs_comp a)) in
  match o with
  | OpInsert p loc => inserted p loc
  | OpPush p => inserted p (-1)
  | OpUnshift p => inserted p 0
  | OpDelete loc => if in_range l loc then (APtr (elem_at l loc), drop_at a loc) else (APtr None, a)
  | OpDeletePtr p =>
      match position l p with
      | Some j => (APtr p, drop_at a (Z.of_nat j))
      | None => (APtr None, a)
      end
  | OpShift => if decide (l = []) then (APtr None, a) else (APtr (elem_at l 0), drop_at a 0)
  | OpPop =>
      let i := Z.of_nat (length l) - 1 in
      if decide (l = []) then (APtr None, a) else (APtr (elem_at l i), drop_at a i)
  | OpZero => (ANone, mkAbs [] (in_order a) (abs_comp a))
  | OpSet i p =>
      if in_range l i then (APtr p, mkAbs (<[Z.to_nat i := p]> l) false (abs_comp a)) else (APtr None, a)
  | OpValue i => (APtr (elem_at l i), a)
  | OpNum => (AInt (Z.of_nat (length l)), a)
  | OpReserve _ => (AInt 1, a)
  | OpSetCmp c => (ACmp (abs_comp a), mkAbs l (if decide (abs_comp a = c) then in_order a else false) c)
  | OpSort => (ANone, sorted_abs a)
  | OpIsSorted => (AInt (Z.b2z (in_order a)), a)
  end.

(** A structure that represents an abstract stack: the flag tells the truth. *)
Record sk_ok st (a : sk_abs) : Prop := {
  ok_rep : sk_rep st (elems a);
  ok_flag : sorted st = Z.b2z (in_order a);
  ok_comp : comp st = abs_comp a;
  ok_valid : Forall V (elems a);
  ok_sorted : in_order a = true -> exists f, abs_comp a = Some f /\ ordered (compare f) (elems a)
}.

(** Arguments: pointers in use, and numbers that are [int]s. *)
Definition valid_op (o : sk_op) : Prop :=
  match o with
  | OpInsert p _ | OpPush p | OpUnshift p | OpSet _ p => V p
  | OpReserve n => is_int n
  | _ => True
  end.

(** Why an operation may fail: without memory, or at the limits. *)
Definition may_fail (ok : bool) st (o : sk_op) : Prop :=
  match o with
  | OpInsert _ _ | OpPush _ | OpUnshift _ =>
      num st = num_alloc st /\ (ok = true -> num st = max_nodes \/ INT_MAX < 8 * num st / 5)
  | OpReserve n => ok = true -> max_nodes < num st + n
  | _ => False
  end.

Definition all_consistent : Prop := forall f : F, consistent (compare f) V.

(** ** Refinement *)

(** The outcome of an operation: its list operation, or a failure that changes
    nothing. *)
Definition refines (ok : bool) st a (o : sk_op) : Prop :=
  exists ans st', run_op ok o (Some st) = Ret (ans, Some st') /\
    ((ans = (spec_op o a).1 /\ sk_ok st' (spec_op o a).2) \/
     (ans = AInt 0 /\ st' = st /\ may_fail ok st o)).

Lemma ordered_sub f l l' : ordered (compare f) l -> sublist l' l -> ordered (compare f) l'.
Proof.
  intros Hs Hl. induction Hl as [|x l1 l2 Hl IH|x l1 l2 Hl IH]; [constructor| |].
  - apply StronglySorted_cons in Hs as [Hf Hs]. apply StronglySorted_cons. split; [|by apply IH].
    rewrite Forall_forall in Hf |- *. intros y Hy. eapply Hf, sublist_subseteq; done.
  - apply StronglySorted_cons in Hs as [_ Hs]. auto.
Qed.

Lemma insert_at_valid l p loc : Forall V l -> V p -> Forall V (insert_at l p loc).
Proof.
  intros Hl Hp. unfold insert_at. case_match; [by apply Forall_app_2; [|by constructor]|].
  apply Forall_app_2; [by apply Forall_take|]. constructor; [done|by apply Forall_drop].
Qed.

Lemma refine_insert ok st a p loc : sk_ok st a -> V p ->
  exists r st', OPENSSL_sk_insert ok (Some st) p loc = Ret (r, Some st') /\
    ((AInt r = (spec_op (OpInsert p loc) a).1 /\ sk_ok st' (spec_op (OpInsert p loc) a).2) \/
     (r = 0 /\ st' = st /\ may_fail ok st (OpInsert p loc))).
Proof.
  intros [Hr Hf Hc Hv Ho] Hp.
  destruct (OPENSSL_sk_insert_spec ok st (elems a) p loc Hr) as (r & st' & -> & Ec & Hres & Hroom).
  exists r, st'. split; [done|]. pose proof (rep_num _ _ Hr) as Hn. cbn [spec_op fst snd].
  destruct Hres as [(-> & Es & Hr')|(-> & -> & Hfail)].
  - left. split; [by rewrite Hn|]. split; cbn; [done|done|by rewrite Ec|by apply insert_at_valid|done].
  - right. split_and!; [done|done|]. cbn. split.
    + destruct (decide (num st < num_alloc st)) as [Hlt|Hge]; [by destruct (Hroom Hlt)|].
      destruct Hr as [Hn' Hd]. destruct (data st); [destruct Hd as (? & _ & ? & _); lia|].
      destruct Hd as [? Hl]. rewrite Hl in Hn'. cbn in Hn'. lia.
    + intros Hok. destruct (Hfail Hok) as [?|[? _]]; auto.
Qed.

Lemma refine_drop st a k q : sk_ok st a -> elems a !! k = Some q ->
  exists st', internal_delete st (Z.of_nat k) = Ret (q, st') /\ sk_ok st' (drop_at a (Z.of_nat k)).
Proof.
  intros [Hr Hf Hc Hv Ho] Hk. destruct (internal_delete_spec _ _ _ _ Hr Hk) as (st' & -> & Ec & Es & Hr').
  exists st'. split; [done|]. unfold drop_at. rewrite Nat2Z.id.
  split; cbn; [done|by rewrite Es|by rewrite Ec|by apply Forall_delete|].
  intros Hin. destruct (Ho Hin) as (f & Ef & Hs). exists f. split; [done|].
  eapply ordered_sub; [done|apply sublist_delete].
Qed.

Lemma in_range_lookup l i : in_range l i = true ->
  exists q, l !! Z.to_nat i = Some q /\ elem_at l i = q /\ 0 <= i < Z.of_nat (length l).
Proof.
  intros [H1%Z.leb_le H2%Z.ltb_lt]%andb_true_iff.
  destruct (lookup_lt_is_Some_2 l (Z.to_nat i) ltac:(lia)) as [q Hq]. exists q. split; [done|].
  unfold elem_at. rewrite (proj2 (Z.ltb_ge _ _)) by lia. by rewrite Hq.
Qed.

(** The guard of the functions that take an index. *)
Lemma range_guard st l i : sk_rep st l -> (i <? 0) || (num st <=? i) = negb (in_range l i).
Proof.
  intros Hr. rewrite (rep_num _ _ Hr). unfold in_range. rewrite negb_andb, <- Z.ltb_antisym, <- Z.leb_antisym. done.
Qed.

Lemma refine_delete ok st a loc : sk_ok st a -> refines ok st a (OpDelete loc).
Proof.
  intros Hok. unfold refines. cbn [run_op OPENSSL_sk_delete spec_op].
  rewrite (range_guard _ _ _ (ok_rep _ _ Hok)). destruct (in_range _ _) eqn:E; cbn [negb].
  - destruct (in_range_lookup _ _ E) as (q & Hq & -> & Hi).
    destruct (refine_drop st a _ q Hok Hq) as (st' & Ed & Hok'). rewrite Z2Nat.id in Ed, Hok' by lia.
    rewrite Ed. cbn [mbind outcome_bind]. do 2 eexists. split; [done|]. by left.
  - do 2 eexists. split; [done|]. by left.
Qed.

Lemma num_0 st l : sk_rep st l -> (num st =? 0) = bool_decide (l = []).
Proof.
  intros Hr. rewrite (rep_num _ _ Hr). destruct l as [|x l]; [done|]. rewrite bool_decide_false by done.
  apply Z.eqb_neq. cbn. lia.
Qed.

Lemma refine_end ok st a o : sk_ok st a -> o = OpShift \/ o = OpPop -> refines ok st a o.
Proof.
  intros Hok Ho. set (i := match o with OpShift => 0 | _ => Z.of_nat (length (elems a)) - 1 end).
  assert (Er : run_op ok o (Some st)
               = if num st =? 0 then Ret (APtr None, Some st)
                 else '(r, st') ← internal_delete st i; Ret (APtr r, Some st')).
  { unfold i. rewrite <- (rep_num _ _ (ok_rep _ _ Hok)).
    destruct Ho as [-> | ->]; cbn [run_op OPENSSL_sk_shift OPENSSL_sk_pop]; (destruct (num st =? 0); [done|]);
      by destruct (internal_delete st _) as [[]| | | |]. }
  assert (Es : spec_op o a = if decide (elems a = []) then (APtr None, a) else (APtr (elem_at (elems a) i), drop_at a i))
    by (destruct Ho as [-> | ->]; done).
  assert (Ei : elems a <> [] -> in_range (elems a) i = true).
  { intros Hne. unfold in_range, i. destruct (elems a); [done|]. destruct Ho as [-> | ->]; cbn [length];
      rewrite andb_true_iff, Z.leb_le, Z.ltb_lt; lia. }
  clearbody i.
  unfold refines. rewrite Er, Es, (num_0 _ _ (ok_rep _ _ Hok)).
  destruct (decide (elems a = [])) as [E|E]; [rewrite bool_decide_true by done|rewrite bool_decide_false by done].
  { do 2 eexists. split; [done|]. by left. }
  destruct (in_range_lookup _ _ (Ei E)) as (q & Hq & -> & Hb).
  destruct (refine_drop st a _ q Hok Hq) as (st' & Ed & Hok'). rewrite Z2Nat.id in Ed, Hok' by lia.
  rewrite Ed. cbn [mbind outcome_bind]. do 2 eexists. split; [done|]. by left.
Qed.
Lemma position_lookup l p j : position l p = Some j -> l !! j = Some p.
Proof.
  unfold position. destruct (list_find _ l) as [[i q]|] eqn:E; [|done]. intros [= <-].
  by apply list_find_Some in E as (-> & -> & _).
Qed.

Lemma refine_delete_ptr ok st a p : sk_ok st a -> refines ok st a (OpDeletePtr p).
Proof.
  intros Hok. unfold refines. cbn [run_op OPENSSL_sk_delete_ptr spec_op deref mbind outcome_bind].
  pose proof (delete_ptr_loop_spec st (elems a) p (ok_rep _ _ Hok) (length (elems a)) 0 ltac:(lia)) as Hl.
  rewrite (rep_num _ _ (ok_rep _ _ Hok)), Nat2Z.id. change (Z.of_nat 0) with 0 in Hl. rewrite drop_0 in Hl.
  destruct (position (elems a) p) as [j|] eqn:Ej.
  - cbn [Nat.add] in Hl. destruct Hl as [Hj ->]. destruct (refine_drop st a j p Hok Hj) as (st' & -> & Hok').
    cbn [mbind outcome_bind]. do 2 eexists. split; [done|]. by left.
  - rewrite Hl. cbn [mbind outcome_bind]. do 2 eexists. split; [done|]. by left.
Qed.

Lemma refine_set ok st a i p : sk_ok st a -> V p -> refines ok st a (OpSet i p).
Proof.
  intros Hok Hp. unfold refines. cbn [run_op OPENSSL_sk_set spec_op]. pose proof Hok as [Hr Hf Hc Hv Ho].
  rewrite (range_guard _ _ _ Hr). destruct (in_range _ _) eqn:E; cbn [negb].
  2:{ do 2 eexists. split; [done|]. by left. }
  destruct (in_range_lookup _ _ E) as (q & Hq & _ & Hi).
  destruct (rep_array _ _ Hr) as (d & Ed & Hd); [by intros El; rewrite El in Hq|].
  destruct (array_set d _ _ (Z.to_nat i) p Hd ltac:(lia)) as [Ea Hd']. rewrite Z2Nat.id in Ea by lia.
  rewrite Ed. cbn [deref mbind outcome_bind]. rewrite Ea. cbn [mbind outcome_bind].
  assert (cell_get (<[Z.to_nat i := Cell p]> d) i = Ret p) as ->.
  { rewrite <- (Z2Nat.id i) at 2 by lia. eapply array_get; [done|]. apply list_lookup_insert_eq. lia. }
  cbn [mbind outcome_bind]. do 2 eexists. split; [done|]. left. split; [done|].
  split; cbn; [|done|done|by apply Forall_insert|done].
  split; cbn; [by rewrite length_insert, (rep_num _ _ Hr)|done].
Qed.

Lemma refine_value ok st a i : sk_ok st a -> refines ok st a (OpValue i).
Proof.
  intros Hok. unfold refines. cbn [run_op OPENSSL_sk_value spec_op]. pose proof (ok_rep _ _ Hok) as Hr.
  rewrite (range_guard _ _ _ Hr). destruct (in_range _ _) eqn:E; cbn [negb].
  - destruct (in_range_lookup _ _ E) as (q & Hq & -> & Hi).
    destruct (rep_array _ _ Hr) as (d & Ed & Hd); [by intros El; rewrite El in Hq|].
    rewrite Ed. cbn [deref mbind outcome_bind]. pose proof (array_get _ _ _ _ _ Hd Hq) as Eg.
    rewrite Z2Nat.id in Eg by lia. rewrite Eg. cbn [mbind outcome_bind]. do 2 eexists. split; [done|]. by left.
  - do 2 eexists. split; [done|]. left. split; [|done]. cbn. f_equal. unfold elem_at. zcase; [done|].
    rewrite lookup_ge_None_2; [done|]. apply andb_false_iff in E as [E%Z.leb_gt|E%Z.ltb_ge]; lia.
Qed.

Lemma refine_zero ok st a : sk_ok st a -> refines ok st a OpZero.
Proof.
  intros Hok. unfold refines. cbn [run_op OPENSSL_sk_zero spec_op]. pose proof Hok as [Hr Hf Hc Hv Ho].
  rewrite (num_0 _ _ Hr). case_bool_decide as E.
  - do 2 eexists. split; [done|]. left. split; [done|]. cbn. rewrite <- E. destruct a; exact Hok.
  - destruct (rep_array _ _ Hr E) as (d & Ed & Hd). rewrite Ed. cbn [deref mbind outcome_bind].
    rewrite (rep_num _ _ Hr), Nat2Z.id.
    destruct (array_over d _ _ (replicate (length (elems a)) None) Hd) as (d' & Ew & _ & Hd'); [by rewrite length_replicate|].
    rewrite fmap_replicate in Ew. rewrite Ew. cbn [mbind outcome_bind]. do 2 eexists. split; [done|]. left.
    split; [done|]. split; cbn; [|done|done|constructor|].
    + by split.
    + intros Hin. destruct (Ho Hin) as (f & Ef & _). exists f. split; [done|constructor].
Qed.

Lemma refine_reserve ok st a n : sk_ok st a -> is_int n -> refines ok st a (OpReserve n).
Proof.
  intros Hok Hn. unfold refines. cbn [run_op OPENSSL_sk_reserve spec_op]. pose proof Hok as [Hr Hf Hc Hv Ho].
  zcase; [do 2 eexists; split; [done|]; by left|].
  destruct (sk_reserve_spec ok st _ n true Hr) as (r & st' & -> & Hr' & _ & Es & Ec & Hres & _ & Hfail);
    [unfold is_int in Hn; lia|].
  cbn [mbind outcome_bind]. do 2 eexists. split; [done|].
  destruct Hres as [[-> ->]|(-> & _)].
  - right. split_and!; [done|done|]. cbn. intros Ek. destruct (Hfail eq_refl Ek) as [?|[? _]]; done.
  - left. split; [done|]. split; cbn; [done|by rewrite Es|by rewrite Ec|done|done].
Qed.

Lemma consistent_sub (cmp : option A -> option A -> Z) (W W' : option A -> Prop) :
  consistent cmp W -> (forall x, W' x -> W x) -> consistent cmp W'.
Proof. intros [H1 H2] Hs. split; intros; [apply H1|eapply (H2 _ y)]; auto. Qed.

(** Sorting, as the functions that sort use it. *)
Lemma refine_sort_data f st a : all_consistent -> sk_ok st a -> abs_comp a = Some f -> in_order a = false ->
  exists st', sort_data f st = Ret st' /\ sk_ok st' (sorted_abs a) /\ elems (sorted_abs a) ≡ₚ elems a.
Proof.
  intros Hcons [Hr Hf Hc Hv Ho] Ef Ei.
  destruct (qsort_sorts (compare f) (elems a)) as [Hp Hs].
  { eapply consistent_sub; [apply Hcons|]. intros x Hx. by eapply Forall_forall in Hv. }
  destruct (sort_data_spec f st _ Hr) as (st' & -> & Ec & Es & Hr'); [by rewrite Hp|].
  exists st'. split; [done|]. unfold sorted_abs. rewrite Ef, Ei. cbn [elems].
  assert (Hl : (if (1 <? length (elems a))%nat then qsort (compare f) (elems a) else elems a) ≡ₚ elems a /\
    ordered (compare f) (if (1 <? length (elems a))%nat then qsort (compare f) (elems a) else elems a)).
  { zcase; [done|]. split; [done|].
    destruct (elems a) as [|x [|y l]]; [constructor| |cbn [length] in *; lia]. by repeat constructor. }
  revert Hr' Hl. generalize (if (1 <? length (elems a))%nat then qsort (compare f) (elems a) else elems a).
  intros l Hr' [Hperm Hord]. split; [|done].
  split; cbn; [done|done|congruence|by rewrite Hperm|]. intros _. by exists f.
Qed.

Lemma refine_sort ok st a : all_consistent -> sk_ok st a -> refines ok st a OpSort.
Proof.
  intros Hcons Hok. unfold refines. cbn [run_op OPENSSL_sk_sort spec_op]. pose proof Hok as [_ Hf Hc _ _].
  rewrite Hc, Hf. unfold sorted_abs. destruct (abs_comp a) as [f|] eqn:Ef.
  2:{ do 2 eexists. split; [done|]. by left. }
  destruct (in_order a) eqn:Ei; cbn [Z.b2z Z.eqb].
  { do 2 eexists. split; [done|]. by left. }
  destruct (refine_sort_data f st a Hcons Hok Ef Ei) as (st' & -> & Hok' & _).
  cbn [mbind outcome_bind]. do 2 eexists. split; [done|]. left. split; [done|].
  unfold sorted_abs in Hok'. by rewrite Ef, Ei in Hok'.
Qed.

Lemma refine_set_cmp ok st a c : sk_ok st a -> refines ok st a (OpSetCmp c).
Proof.
  intros [Hr Hf Hc Hv Ho]. unfold refines. cbn [run_op OPENSSL_sk_set_cmp_func spec_op deref mbind outcome_bind].
  do 2 eexists. split; [done|]. left. rewrite Hc. split; [done|]. cbn [snd].
  split; cbn; [|by case_decide|done|done|].
  - destruct Hr as [Hn Hd]. by split.
  - case_decide as E; [|done]. rewrite <- E. done.
Qed.

(** Every operation refines the list operation. *)
Lemma op_refines ok st a o : all_consistent -> sk_ok st a -> valid_op o -> refines ok st a o.
Proof.
  intros Hcons Hok Ho. destruct o; try (by (apply refine_delete || apply refine_delete_ptr || apply refine_set ||
    apply refine_value || apply refine_zero || apply refine_reserve || apply refine_sort || apply refine_set_cmp));
    try (apply refine_end; [done|by auto]).
  - destruct (refine_insert ok st a p loc Hok Ho) as (r & st' & E & Hres). unfold refines. cbn [run_op]. rewrite E.
    cbn [mbind outcome_bind]. do 2 eexists. split; [done|]. destruct Hres as [?|(-> & ? & ?)]; [by left|by right].
  - destruct (refine_insert ok st a p (num st) Hok Ho) as (r & st' & E & Hres). unfold refines.
    cbn [run_op OPENSSL_sk_push]. rewrite E. cbn [mbind outcome_bind]. do 2 eexists. split; [done|].
    destruct Hres as [?|(-> & ? & ?)]; [left|by right]. cbn [spec_op fst snd] in *. unfold insert_at in *.
    rewrite (rep_num _ _ (ok_rep _ _ Hok)), Z.leb_refl, orb_true_r in *. done.
  - destruct (refine_insert ok st a p 0 Hok Ho) as (r & st' & E & Hres). unfold refines.
    cbn [run_op OPENSSL_sk_unshift]. unfold OPENSSL_sk_unshift. rewrite E. cbn [mbind outcome_bind].
    do 2 eexists. split; [done|]. destruct Hres as [?|(-> & ? & ?)]; [by left|by right].
  - unfold refines. do 2 eexists. split; [done|]. left. split; [|done]. cbn. f_equal. apply (rep_num _ _ (ok_rep _ _ Hok)).
  - unfold refines. do 2 eexists. split; [done|]. left. split; [|done]. cbn. f_equal. apply (ok_flag _ _ Hok).
Qed.

(** ** Reachable stacks *)

Lemma new_ok ok c n st : OPENSSL_sk_new_reserve ok c n = Ret (Some st) -> is_int n ->
  sk_ok st (mkAbs [] false c).
Proof.
  intros E Hn. unfold OPENSSL_sk_new_reserve in E. destruct (ok 0%nat); [|done]. cbn [negb] in E.
  assert (Hz : sk_rep (mkStack (A := A) (F := F) 0 None 0 0 c) []) by done.
  destruct (Z.leb_spec n 0) as [Hn0|Hn0]; [injection E as <-; by split|].
  destruct (sk_reserve_spec (ok 1%nat) _ _ n true Hz) as (r & st' & Er & Hr & _ & Es & Ec & _);
    [unfold is_int in Hn; lia|].
  rewrite Er in E. cbn [mbind outcome_bind] in E. destruct (r =? 0); [done|]. injection E as <-. by split.
Qed.

(** The stack after a search: a search sorts first. *)
Definition searched (a : sk_abs) : sk_abs := if decide (elems a = []) then a else sorted_abs a.

Lemma sort_if_needed f st a : all_consistent -> sk_ok st a -> abs_comp a = Some f ->
  exists st', (if sorted st =? 0 then sort_data f st else Ret st) = Ret st' /\ sk_ok st' (sorted_abs a) /\
    elems (sorted_abs a) ≡ₚ elems a /\ ordered (compare f) (elems (sorted_abs a)).
Proof.
  intros Hcons Hok Ef. rewrite (ok_flag _ _ Hok).
  assert (exists st', (if Z.b2z (in_order a) =? 0 then sort_data f st else Ret st) = Ret st' /\
    sk_ok st' (sorted_abs a) /\ elems (sorted_abs a) ≡ₚ elems a) as (st' & E & Hok' & Hp).
  { destruct (in_order a) eqn:Ei; cbn [Z.b2z Z.eqb].
    - exists st. unfold sorted_abs. by rewrite Ef, Ei.
    - by apply refine_sort_data. }
  exists st'. split_and!; try done.
  assert (in_order (sorted_abs a) = true /\ abs_comp (sorted_abs a) = Some f) as [Hi Hc].
  { unfold sorted_abs. rewrite Ef. by destruct (in_order a) eqn:Ei. }
  destruct (ok_sorted _ _ Hok' Hi) as (f' & Ef' & Hs). rewrite Hc in Ef'. by injection Ef' as <-.
Qed.

Lemma find_state st a p opts want i n sk : all_consistent -> sk_ok st a ->
  internal_find (Some st) p opts want = Ret (i, n, sk) -> exists st', sk = Some st' /\ sk_ok st' (searched a).
Proof.
  intros Hcons Hok. cbn [internal_find]. rewrite (num_0 _ _ (ok_rep _ _ Hok)). unfold searched.
  destruct (decide (elems a = [])) as [E|E]; [rewrite bool_decide_true by done|rewrite bool_decide_false by done].
  { intros [= _ _ <-]. eauto. }
  rewrite (ok_comp _ _ Hok). destruct (abs_comp a) as [f|] eqn:Ef.
  2:{ intros Ei. inv_ret. exists st. unfold sorted_abs. by rewrite Ef. }
  destruct (sort_if_needed f st a Hcons Hok Ef) as (st1 & -> & Hok1 & _).
  cbn [mbind outcome_bind]. destruct p as [x|]; [|intros [= _ _ <-]; eauto].
  intros Ei. inv_ret. eauto.
Qed.

Lemma dup_ok ok st a : sk_ok st a ->
  exists r, OPENSSL_sk_dup ok (Some st) = Ret r /\
    match r with
    | Some st' => sk_ok st' a
    | None => ok 0%nat = false \/ ok 1%nat = false
    end.
Proof.
  intros [Hr Hf Hc Hv Ho]. unfold OPENSSL_sk_dup. destruct (ok 0%nat); cbn [negb copy_head]; [|exists None; auto].
  rewrite (num_0 _ _ Hr). case_bool_decide as E.
  { eexists. split; [done|]. split; cbn; try done. split; cbn; [apply (rep_num _ _ Hr)|done]. }
  destruct (ok 1%nat); cbn [negb]; [|exists None; auto].
  destruct (rep_array _ _ Hr E) as (d & Ed & Hd). rewrite Ed. cbn [deref mbind outcome_bind].
  rewrite (rep_num _ _ Hr), (array_read _ _ _ Hd). cbn [mbind outcome_bind].
  pose proof Hd as (Hlen & Hb & Hle & _).
  rewrite mem_write_ok by (rewrite ?length_fmap, ?length_replicate; lia). cbn [mbind outcome_bind].
  eexists. split; [done|]. split; cbn; try done. split; cbn; [apply (rep_num _ _ Hr)|].
  assert (Hl : length (blit (Z.to_nat 0) (Cell <$> elems a) (replicate (Z.to_nat (num_alloc st)) Uninit))
               = Z.to_nat (num_alloc st)).
  { rewrite length_blit; rewrite length_replicate; [done|]. rewrite length_fmap. cbn. lia. }
  apply array_intro; [rewrite Hl; lia|done|]. intros i p Hi. pose proof (lookup_lt_Some _ _ _ Hi).
  rewrite lookup_blit_in by (rewrite ?length_fmap, ?length_replicate; cbn; lia).
  by rewrite list_lookup_fmap, Nat.sub_0_r, Hi.
Qed.

(** The stacks of a program: made new, changed by operations and searches, and
    duplicated. *)
Inductive sk_reach : stack_st A F -> Prop :=
| reach_new ok c n st : is_int n -> OPENSSL_sk_new_reserve ok c n = Ret (Some st) -> sk_reach st
| reach_op ok o st ans st' : sk_reach st -> valid_op o -> run_op ok o (Some st) = Ret (ans, Some st') -> sk_reach st'
| reach_find st p opts want i n st' :
    sk_reach st -> internal_find (Some st) p opts want = Ret (i, n, Some st') -> sk_reach st'
| reach_dup ok st st' : sk_reach st -> OPENSSL_sk_dup ok (Some st) = Ret (Some st') -> sk_reach st'.

Lemma reach_ok st : all_consistent -> sk_reach st -> exists a, sk_ok st a.
Proof.
  intros Hcons Hr. induction Hr as [ok c n st Hn E|ok o st ans st' _ [a IH] Ho E|st p opts want i n st' _ [a IH] E
    |ok st st' _ [a IH] E].
  - eexists. by eapply new_ok.
  - destruct (op_refines ok st a o Hcons IH Ho) as (ans' & st1 & E' & Hres). rewrite E in E'.
    injection E' as <- <-. destruct Hres as [[_ ?]|(_ & -> & _)]; eauto.
  - destruct (find_state _ _ _ _ _ _ _ _ Hcons IH E) as (st1 & [= <-] & ?). eauto.
  - destruct (dup_ok ok st a IH) as (r & E' & Hres). rewrite E in E'. injection E' as <-. eauto.
Qed.

(** C14: In every reachable stack every operation is that of the list it
    represents, with the same answer, or fails without a change: an insertion
    when the array is full and no memory can be had or the limits are reached, a
    reservation likewise.  It never reads memory that was not written, writes
    outside the array or overflows. *)
Theorem stack_refines_list ok st o : all_consistent -> sk_reach st -> valid_op o ->
  exists a, sk_ok st a /\ exists ans st', run_op ok o (Some st) = Ret (ans, Some st') /\
    ((ans = (spec_op o a).1 /\ sk_ok st' (spec_op o a).2) \/
     (ans = AInt 0 /\ st' = st /\ may_fail ok st o)).
Proof.
  intros Hcons Hr Ho. destruct (reach_ok st Hcons Hr) as [a Hok]. exists a. split; [done|].
  by apply op_refines.
Qed.

(** In every reachable stack the count is within the limit, an array that is
    there has at least [min_nodes] slots, its first ones hold the list, and a
    stack that is marked as sorted has a comparison function and is in its
    order. *)
Theorem stack_invariant st : all_consistent -> sk_reach st ->
  exists l, num st = Z.of_nat (length l) /\ num st <= max_nodes /\ Forall V l /\
    (forall d, data st = Some d -> Z.of_nat (length d) = num_alloc st /\ min_nodes <= num_alloc st <= max_nodes /\
       take (length l) d = Cell <$> l) /\
    (data st = None -> num_alloc st = 0 /\ l = []) /\
    (sorted st <> 0 -> exists f, comp st = Some f /\ ordered (compare f) l).
Proof.
  intros Hcons Hr. destruct (reach_ok st Hcons Hr) as [a [Hrep Hf Hc Hv Ho]]. exists (elems a).
  destruct (rep_bound _ _ Hrep) as [Hb Hn]. pose proof (rep_data _ _ Hrep) as Hd. split_and!; try done.
  - intros d Ed. rewrite Ed in Hd. by destruct Hd as (? & ? & _ & ?).
  - intros Ed. by rewrite Ed in Hd.
  - intros Hs. rewrite Hc. apply Ho. rewrite Hf in Hs. by destruct (in_order a).
Qed.
End promises.

Arguments sk_abs A F : clear implicits.
Arguments sk_op A F : clear implicits.
Arguments answer A F : clear implicits.
