(* ===== verification/StackSearch.v ===== *)
(** * Searching, copying and the limits of the stack *)

From S2P Require Import Prelude SafeMath Bsearch Stack StackCorrect StackTheorems.
From stdpp Require Import sorting.
#[local] Open Scope Z_scope.

Section search.
Context `{Platform} {A F : Type} `{EqDecision A, EqDecision F, Comparisons A F, !Qsort A, !QsortLaws A}.
Context (V : option A -> Prop).
Implicit Types (st : stack_st A F) (l : list (option A)) (p : option A).

(** The comparison of a key with the element at an index. *)
Definition cmp_key (f : F) p l (i : Z) : Z := compare f p (elem_at l i).

Lemma elem_at_nat l k q : l !! k = Some q -> elem_at l (Z.of_nat k) = q.
Proof. intros Hk. unfold elem_at. rewrite (proj2 (Z.ltb_ge _ _)) by lia. by rewrite Nat2Z.id, Hk. Qed.

Lemma ordered_lookup (cmp : option A -> option A -> Z) l i j x y : ordered cmp l ->
  (i < j)%nat -> l !! i = Some x -> l !! j = Some y -> cmp x y <= 0.
Proof.
  intros Hs Hij Hx Hy. pose proof (lookup_lt_Some _ _ _ Hx).
  rewrite <- (take_drop (S i) l) in Hs. eapply (StronglySorted_app_1_elem_of _ _ _ _ _ Hs).
  - apply list_elem_of_lookup. exists i. by rewrite lookup_take_lt by lia.
  - apply list_elem_of_lookup. exists (j - S i)%nat. rewrite lookup_drop, <- Hy. f_equal. lia.
Qed.

(** In an ordered list the comparisons with a key ascend. *)
Lemma ordered_ascending f p l : consistent (compare f) V -> Forall V l -> V p -> ordered (compare f) l ->
  ascending (Z.of_nat (length l)) (cmp_key f p l).
Proof.
  intros [Hanti Htrans] Hv Hp Hs i j Hi Hij Hj.
  destruct (lookup_lt_is_Some_2 l (Z.to_nat i) ltac:(lia)) as [x Hx].
  destruct (lookup_lt_is_Some_2 l (Z.to_nat j) ltac:(lia)) as [y Hy].
  unfold cmp_key. rewrite <- (Z2Nat.id i), <- (Z2Nat.id j) by lia.
  rewrite (elem_at_nat _ _ _ Hx), (elem_at_nat _ _ _ Hy).
  pose proof (ordered_lookup _ l (Z.to_nat i) (Z.to_nat j) x y Hs ltac:(lia) Hx Hy) as Hle.
  assert (V x /\ V y) as [Vx Vy] by (split; by eapply Forall_lookup_1).
  pose proof (Hanti p x Hp Vx). pose proof (Hanti p y Hp Vy).
  destruct (Z.lt_trichotomy (compare f p y) 0) as [Hc|[Hc|Hc]]; [lia| |].
  - destruct (Z.lt_ge_cases (compare f p x) 0) as [Hx0|]; [|lia].
    pose proof (Htrans x y p Vx Vy Hp Hle ltac:(lia)). lia.
  - destruct (Z.lt_ge_cases 0 (compare f p x)) as [|Hx0]; [lia|].
    pose proof (Htrans p x y Hp Vx Vy ltac:(lia) Hle). lia.
Qed.

(** The elements that equal a key. *)
Definition matching (f : F) p l : list (option A) := filter (fun q => compare f p q = 0) l.

Lemma matching_app f p l1 l2 : matching f p (l1 ++ l2) = matching f p l1 ++ matching f p l2.
Proof. apply filter_app. Qed.

Lemma matching_none f p l : (forall q, q ∈ l -> compare f p q <> 0) -> matching f p l = [].
Proof.
  intros Hn. unfold matching. induction l as [|q l IH]; [done|]. rewrite filter_cons, decide_False.
  - apply IH. intros q' Hq'. apply Hn. by right.
  - apply Hn. by left.
Qed.

Lemma count_equal_spec f p l d na : array_rep d na l ->
  ascending (Z.of_nat (length l)) (cmp_key f p l) ->
  forall k i, (i + k = length l)%nat ->
  (forall j, (i <= j)%nat -> (j < length l)%nat -> cmp_key f p l (Z.of_nat j) <= 0) ->
  count_equal k f d (Z.of_nat i) p = Ret (Z.of_nat (length (matching f p (drop i l)))).
Proof.
  intros Hd Hasc. induction k as [|k IH]; intros i Hi Hle.
  { cbn. by rewrite drop_ge by lia. }
  destruct (lookup_lt_is_Some_2 l i ltac:(lia)) as [q Hq]. cbn [count_equal].
  rewrite (array_get _ _ _ _ _ Hd Hq). cbn [mbind outcome_bind]. unfold matching in *.
  assert (Hc : cmp_key f p l (Z.of_nat i) = compare f p q) by (unfold cmp_key; by rewrite (elem_at_nat _ _ _ Hq)).
  rewrite (drop_S _ _ _ Hq), filter_cons. destruct (Z.eqb_spec (compare f p q) 0) as [E|N].
  - rewrite decide_True by done. replace (Z.of_nat i + 1) with (Z.of_nat (S i)) by lia.
    rewrite IH by (lia || (intros; apply Hle; lia)). cbn [mbind outcome_bind length]. f_equal. lia.
  - rewrite decide_False by done. change (filter _ (drop (S i) l)) with (matching f p (drop (S i) l)).
    rewrite matching_none; [done|].
    intros q' [j Hj]%list_elem_of_lookup. rewrite lookup_drop in Hj. pose proof (lookup_lt_Some _ _ _ Hj).
    pose proof (Hle i ltac:(lia) ltac:(lia)).
    pose proof (Hasc (Z.of_nat i) (Z.of_nat (S i + j)) ltac:(lia) ltac:(lia) ltac:(lia)) as Hs.
    unfold cmp_key in *. rewrite (elem_at_nat _ _ _ Hq) in *. rewrite (elem_at_nat _ _ _ Hj) in *. lia.
Qed.

(** What a search returns: the first match, or -1 when there is none. *)
Definition found (f : F) p l (i : Z) : Prop :=
  (i = -1 /\ forall q, q ∈ l -> compare f p q <> 0) \/
  (in_range l i = true /\ cmp_key f p l i = 0 /\ forall j, 0 <= j < i -> 0 < cmp_key f p l j).

(** With [OPENSSL_sk_find_ex] it is some match, or an element beside the place of
    the key. *)
Definition found_near (f : F) p l (i : Z) : Prop :=
  (l = [] /\ i = -1) \/
  (in_range l i = true /\
   (cmp_key f p l i = 0 \/
    ((forall q, q ∈ l -> compare f p q <> 0) /\ (forall j, 0 <= j < i -> 0 < cmp_key f p l j) /\
     (forall j, i < j < Z.of_nat (length l) -> cmp_key f p l j < 0)))).

(** The array is not too long for the offsets of the search to be [int]s. *)
Definition searchable st : Prop := num st * sizeof_ptr <= INT_MAX.

Lemma found_split f p l i : in_range l i = true -> cmp_key f p l i = 0 ->
  (forall j, 0 <= j < i -> 0 < cmp_key f p l j) ->
  matching f p l = matching f p (drop (Z.to_nat i) l).
Proof.
  intros Hr _ Hlow. rewrite <- (take_drop (Z.to_nat i) l) at 1. rewrite matching_app.
  destruct (in_range_lookup _ _ Hr) as (_ & _ & _ & Hi).
  rewrite (matching_none f p (take _ l)); [done|].
  intros q [j Hj]%list_elem_of_lookup. rewrite lookup_take in Hj. case_decide; [|done].
  pose proof (Hlow (Z.of_nat j) ltac:(lia)) as Hc. unfold cmp_key in Hc. rewrite (elem_at_nat _ _ _ Hj) in Hc. lia.
Qed.

Lemma sizeof_ptr_bounds : 4 <= sizeof_ptr <= 8.
Proof. unfold sizeof_ptr. by destruct bits64. Qed.

(** The comparisons of the search, on an array that represents a list. *)
Lemma array_compare f p l d na i : array_rep d na l -> 0 <= i < Z.of_nat (length l) ->
  (q ← cell_get d i; Ret (compare f p q)) = Ret (cmp_key f p l i).
Proof.
  intros Hd Hi. destruct (lookup_lt_is_Some_2 l (Z.to_nat i) ltac:(lia)) as [q Hq].
  pose proof (array_get _ _ _ _ _ Hd Hq) as Eg. rewrite Z2Nat.id in Eg by lia. rewrite Eg. cbn. f_equal.
  unfold cmp_key. pose proof (elem_at_nat _ _ _ Hq) as Ee. rewrite Z2Nat.id in Ee by lia. by rewrite Ee.
Qed.

(** A search by a comparison: the stack is put in order and searched. *)
Lemma find_spec st a f p opts (want : bool) : all_consistent (F := F) V -> sk_ok V st a -> V p -> p <> None ->
  abs_comp a = Some f -> elems a <> [] -> searchable st ->
  (want = true -> opts = OSSL_BSEARCH_FIRST_VALUE_ON_MATCH) ->
  let l := elems (sorted_abs a) in
  exists r st', internal_find (Some st) p opts want
      = Ret (match r with Some i => i | None => -1 end,
             if want then Some (Z.of_nat (length (matching f p l))) else None, Some st') /\
    sk_ok V st' (sorted_abs a) /\ l ≡ₚ elems a /\ ordered (compare f) l /\
    bsearch_result (Z.of_nat (length l)) opts (cmp_key f p l) r.
Proof.
  intros Hcons Hok Hp Np Ef Hne Hs Hw l. cbn [internal_find].
  rewrite (num_0 _ _ (ok_rep _ _ _ Hok)), bool_decide_false, (ok_comp _ _ _ Hok), Ef by done.
  destruct (sort_if_needed V f st a Hcons Hok Ef) as (st1 & -> & Hok1 & Hperm & Hord). fold l in Hperm, Hord.
  cbn [mbind outcome_bind]. pose proof (ok_rep _ _ _ Hok1) as Hr1. fold l in Hr1.
  assert (Hl : l <> []) by (intros E; rewrite E in Hperm; by apply Permutation_nil_l in Hperm).
  destruct (rep_array _ _ Hr1 Hl) as (d & Ed & Hd). pose proof (rep_num _ _ Hr1) as Hn.
  destruct p as [x|]; [|done]. rewrite Ed, Hn. cbn [deref mbind outcome_bind].
  assert (Eo : (if want then Z.lor opts OSSL_BSEARCH_FIRST_VALUE_ON_MATCH else opts) = opts)
    by (destruct want; [by rewrite Hw|done]). rewrite Eo. clear Eo.
  assert (Hasc : ascending (Z.of_nat (length l)) (cmp_key f (Some x) l)).
  { apply ordered_ascending; [apply Hcons|apply (ok_valid _ _ _ Hok1)|done|done]. }
  pose proof sizeof_ptr_bounds. assert (Hlen : num st = Z.of_nat (length l)).
  { rewrite (rep_num _ _ (ok_rep _ _ _ Hok)). f_equal. symmetry. by apply Permutation_length. }
  unfold searchable in Hs. rewrite Hlen in Hs.
  destruct (bsearch_finds (fun i => q ← cell_get d i; Ret (compare f (Some x) q)) (Z.of_nat (length l)) sizeof_ptr
    opts (cmp_key f (Some x) l)) as (r & -> & Hres); [by intros; eapply array_compare|done|lia|nia|lia|].
  cbn [mbind outcome_bind]. exists r, st1.
  enough (Hcount : (if want then
        match r with
        | Some i => n ← count_equal (Z.to_nat (Z.of_nat (length l) - i)) f d i (Some x); Ret (Some n)
        | None => Ret (Some 0)
        end else Ret None)
      = Ret (if want then Some (Z.of_nat (length (matching f (Some x) l))) else None)).
  { rewrite Hcount. cbn [mbind outcome_bind]. split_and!; done. }
  destruct want; [|done]. rewrite (Hw eq_refl) in Hres. destruct r as [i|].
  - destruct Hres as (Hi & [[Hg Hfirst]|[[] _]]); [|done]. specialize (Hfirst ltac:(done)).
    pose proof (count_equal_spec f (Some x) l d _ Hd Hasc (Z.to_nat (Z.of_nat (length l) - i)) (Z.to_nat i) ltac:(lia)) as Hc.
    rewrite Z2Nat.id in Hc by lia. rewrite Hc.
    + cbn [mbind outcome_bind]. rewrite <- found_split; [done| |done|done].
      unfold in_range. rewrite andb_true_iff, Z.leb_le, Z.ltb_lt. lia.
    + intros j Hj1 Hj2. destruct (decide (Z.of_nat j = i)) as [->|]; [lia|].
      pose proof (Hasc i (Z.of_nat j) ltac:(lia) ltac:(lia) ltac:(lia)). lia.
  - destruct Hres as [_ Hnone]. rewrite matching_none; [done|].
    intros q [j Hj]%list_elem_of_lookup. pose proof (lookup_lt_Some _ _ _ Hj).
    pose proof (Hnone (Z.of_nat j) ltac:(lia)) as Hq. unfold cmp_key in Hq. by rewrite (elem_at_nat _ _ _ Hj) in Hq.
Qed.
(** Reading the result of the binary search. *)
Lemma found_first f p l r : l <> [] ->
  bsearch_result (Z.of_nat (length l)) OSSL_BSEARCH_FIRST_VALUE_ON_MATCH (cmp_key f p l) r ->
  found f p l (match r with Some i => i | None => -1 end).
Proof.
  intros Hl Hr. destruct r as [i|].
  - right. destruct Hr as (Hi & [[Hg Hfirst]|[[] _]]); [|done].
    split_and!; [by unfold in_range; rewrite andb_true_iff, Z.leb_le, Z.ltb_lt|done|by apply Hfirst].
  - left. split; [done|]. intros q [j Hj]%list_elem_of_lookup. destruct Hr as [_ Hr].
    pose proof (lookup_lt_Some _ _ _ Hj). pose proof (Hr (Z.of_nat j) ltac:(lia)) as Hq.
    unfold cmp_key in Hq. by rewrite (elem_at_nat _ _ _ Hj) in Hq.
Qed.

Lemma found_beside f p l r : l <> [] ->
  bsearch_result (Z.of_nat (length l)) OSSL_BSEARCH_VALUE_ON_NOMATCH (cmp_key f p l) r ->
  found_near f p l (match r with Some i => i | None => -1 end).
Proof.
  intros Hl Hr. right. destruct r as [i|].
  2:{ destruct Hr as [[?|?] _]; [done|]. by destruct l. }
  destruct Hr as (Hi & Hr). split; [by unfold in_range; rewrite andb_true_iff, Z.leb_le, Z.ltb_lt|].
  destruct Hr as [[Hg _]|(_ & Hg & Hlow & Hhigh)]; [by left|right]. split_and!; [|done|done].
  intros q [j Hj]%list_elem_of_lookup. pose proof (lookup_lt_Some _ _ _ Hj).
  replace (compare f p q) with (cmp_key f p l (Z.of_nat j)) by (unfold cmp_key; by rewrite (elem_at_nat _ _ _ Hj)).
  destruct (Z.lt_trichotomy (Z.of_nat j) i) as [H1'|[->|H1']]; [|done|].
  - pose proof (Hlow (Z.of_nat j) ltac:(lia)). lia.
  - pose proof (Hhigh (Z.of_nat j) ltac:(lia)). lia.
Qed.

Lemma found_nothing f p : found f p [] (-1).
Proof. left. split; [done|]. intros q Hq. by apply not_elem_of_nil in Hq. Qed.

(** C15: Searching a stack with a comparison function puts it in order and finds:
    [OPENSSL_sk_find] the first element that equals the key or -1 when there is
    none, [OPENSSL_sk_find_all] the same with the number of equal elements,
    [OPENSSL_sk_find_ex] an equal element or one beside the place of the key; on
    an empty stack [OPENSSL_sk_find_all] stores no number. *)
Theorem sk_find_correct st a f p : all_consistent (F := F) V -> sk_ok V st a -> V p -> p <> None ->
  abs_comp a = Some f -> searchable st ->
  let l := elems (searched a) in
  l ≡ₚ elems a /\ ordered (compare f) l /\
  (exists i st', OPENSSL_sk_find (Some st) p = Ret (i, Some st') /\ sk_ok V st' (searched a) /\ found f p l i) /\
  (exists i st', OPENSSL_sk_find_all (Some st) p
      = Ret (i, if decide (l = []) then None else Some (Z.of_nat (length (matching f p l))), Some st') /\
    sk_ok V st' (searched a) /\ found f p l i) /\
  (exists i st', OPENSSL_sk_find_ex (Some st) p = Ret (i, Some st') /\ sk_ok V st' (searched a) /\ found_near f p l i).
Proof.
  intros Hcons Hok Hp Np Ef Hs l. unfold OPENSSL_sk_find, OPENSSL_sk_find_all, OPENSSL_sk_find_ex.
  unfold l, searched. destruct (decide (elems a = [])) as [E|E].
  { cbn [internal_find]. rewrite (num_0 _ _ (ok_rep _ _ _ Hok)), bool_decide_true by done. rewrite E.
    split; [done|]. split; [constructor|]. rewrite decide_True by done.
    split_and!; exists (-1), st; (split; [done|]); (split; [done|]); [apply found_nothing|apply found_nothing|by left]. }
  destruct (find_spec st a f p OSSL_BSEARCH_FIRST_VALUE_ON_MATCH false Hcons Hok Hp Np Ef E Hs ltac:(done))
    as (r1 & st1 & -> & Hok1 & Hperm & Hord & Hr1).
  destruct (find_spec st a f p OSSL_BSEARCH_FIRST_VALUE_ON_MATCH true Hcons Hok Hp Np Ef E Hs ltac:(done))
    as (r2 & st2 & -> & Hok2 & _ & _ & Hr2).
  destruct (find_spec st a f p OSSL_BSEARCH_VALUE_ON_NOMATCH false Hcons Hok Hp Np Ef E Hs ltac:(done))
    as (r3 & st3 & -> & Hok3 & _ & _ & Hr3).
  assert (Hl : elems (sorted_abs a) <> []) by (intros El; rewrite El in Hperm; by apply Permutation_nil_l in Hperm).
  rewrite decide_False by done. cbn [mbind outcome_bind].
  split_and!; [done|done| | |]; do 2 eexists; (split; [done|]); (split; [done|]).
  - by apply found_first.
  - by apply found_first.
  - by apply found_beside.
Qed.

(** Without a comparison function a search compares pointers and changes
    nothing: the first position of the pointer, or -1. *)
Theorem sk_find_pointer st a p want : sk_ok V st a -> abs_comp a = None -> elems a <> [] ->
  internal_find (Some st) p OSSL_BSEARCH_FIRST_VALUE_ON_MATCH want
  = Ret (match position (elems a) p with Some j => Z.of_nat j | None => -1 end,
         if want then Some (if position (elems a) p then 1 else 0) else None, Some st).
Proof.
  intros Hok Ec Hl. cbn [internal_find].
  rewrite (num_0 _ _ (ok_rep _ _ _ Hok)), bool_decide_false, (ok_comp _ _ _ Hok), Ec by done.
  destruct (rep_array _ _ (ok_rep _ _ _ Hok) Hl) as (d & Ed & Hd). rewrite Ed. cbn [deref mbind outcome_bind].
  assert (Hlin : forall k i, (i + k = length (elems a))%nat ->
    linear_find k d (Z.of_nat i) p
    = Ret (match position (drop i (elems a)) p with Some j => Z.of_nat (i + j) | None => -1 end)).
  { induction k as [|k IH]; intros i Hi; cbn [linear_find]; [by rewrite drop_ge by lia|].
    destruct (lookup_lt_is_Some_2 (elems a) i ltac:(lia)) as [q Hq].
    rewrite (array_get _ _ _ _ _ Hd Hq), (position_drop _ _ p _ Hq). cbn [mbind outcome_bind].
    destruct (decide (q = p)); [by rewrite Nat.add_0_r|].
    replace (Z.of_nat i + 1) with (Z.of_nat (S i)) by lia. rewrite IH by lia.
    destruct (position _ _) as [j|]; [|done]. cbn. do 2 f_equal. lia. }
  rewrite (rep_num _ _ (ok_rep _ _ _ Hok)), Nat2Z.id. rewrite (Hlin _ 0%nat) by lia. rewrite drop_0.
  cbn [mbind outcome_bind]. destruct (position (elems a) p) as [j|]; cbn [Nat.add]; [|by destruct want].
  destruct (Z.eqb_spec (Z.of_nat j) (-1)); [lia|]. by destruct want.
Qed.
End search.

(** * Growth, reservation, deep copies and the limits of the stack *)

(** Growing ends: from any capacity that the code allocates (at least
    [min_nodes]) it returns a capacity that is enough and at most 8/5 of one that
    was not, or 0, and 0 only when that product is no [int].  From a capacity of
    1 the loop would never end. *)
Theorem compute_growth_total `{Platform} target current :
  (min_nodes <= current -> current < target -> target <= max_nodes ->
   exists r, compute_growth target current = Ret r /\
     ((r = 0 /\ INT_MAX < 8 * (target - 1) / 5) \/ (target <= r <= max_nodes /\ r <= 8 * (target - 1) / 5))) /\
  (1 < target -> forall fuel, growth_loop fuel target 1 = NoFuel).
Proof.
  pose proof max_nodes_bounds as Hm. split.
  - intros Hc Hlt Ht. unfold min_nodes in Hc.
    destruct (growth_loop_spec 64 target current) as (r & E & Hr); [lia|done| |].
    { change (Z.of_nat 64) with 64. unfold INT_MAX. lia. }
    exists r. split; [done|]. lia.
  - intros Ht. induction fuel as [|k IH]; cbn [growth_loop]; rewrite (proj2 (Z.ltb_lt _ _)) by done; [done|].
    rewrite (proj2 (Z.leb_gt _ _)) by lia. destruct (muldiv_8_5 1) as (v & ->); [by unfold INT_MAX|].
    change (8 * 1 / 5) with 1. rewrite (proj2 (Z.leb_le 1 INT_MAX)) by (unfold INT_MAX; lia).
    cbn [mbind outcome_bind].
    rewrite (proj2 (Z.leb_gt max_nodes 1)) by lia. exact IH.
Qed.

Section limits.
Context `{Platform} {A F : Type} `{EqDecision A, EqDecision F, Comparisons A F, !Qsort A, !QsortLaws A}.
Context (V : option A -> Prop).
Implicit Types (st : stack_st A F) (l : list (option A)) (p : option A).

(** ** Reservation *)

(** Insertions one after the other, without any memory to be had: whether all
    succeed. *)
Fixpoint insert_all (ps : list (option A * Z)) (sk : option (stack_st A F)) : outcome (bool * option (stack_st A F)) :=
  match ps with
  | [] => Ret (true, sk)
  | (p, loc) :: ps' =>
      '(r, sk) ← OPENSSL_sk_insert false sk p loc;
      if r =? 0 then Ret (false, sk) else insert_all ps' sk
  end.

Lemma insert_all_room ps : forall st l, sk_rep st l -> num st + Z.of_nat (length ps) <= num_alloc st ->
  exists st', insert_all ps (Some st) = Ret (true, Some st') /\ num_alloc st' = num_alloc st /\
    sk_rep st' (foldl (fun l pl => insert_at l pl.1 pl.2) l ps).
Proof.
  induction ps as [|[p loc] ps IH]; intros st l Hr Hroom; cbn [insert_all foldl length] in *; [by exists st|].
  destruct (OPENSSL_sk_insert_spec false st l p loc Hr) as (r & st1 & -> & _ & Hres & Halloc).
  destruct (Halloc ltac:(lia)) as [Nr Ea]. cbn [mbind outcome_bind]. rewrite (proj2 (Z.eqb_neq _ _) Nr).
  destruct Hres as [(-> & _ & Hr1)|[? _]]; [|done].
  destruct (IH st1 _ Hr1) as (st' & -> & Ea' & Hr').
  { rewrite Ea, (rep_num _ _ Hr1). unfold insert_at. rewrite (rep_num _ _ Hr) in Hroom.
    destruct (_ || _) eqn:Eb; rewrite length_app; cbn [length]; [lia|].
    rewrite length_take, length_drop. lia. }
  exists st'. split; [done|]. split; [congruence|done].
Qed.

(** After a successful [OPENSSL_sk_reserve] for [n] more elements, the next
    [n] insertions succeed and allocate nothing, wherever they insert. *)
Theorem sk_reserve_room ok st a n st' ps : sk_ok V st a -> 0 <= n <= INT_MAX ->
  OPENSSL_sk_reserve ok (Some st) n = Ret (1, Some st') -> Z.of_nat (length ps) <= n ->
  exists st'', insert_all ps (Some st') = Ret (true, Some st'') /\ num_alloc st'' = num_alloc st' /\
    sk_rep st'' (foldl (fun l pl => insert_at l pl.1 pl.2) (elems a) ps).
Proof.
  intros Hok Hn E Hps. cbn [OPENSSL_sk_reserve] in E. rewrite (proj2 (Z.ltb_ge _ _)) in E by lia.
  destruct (sk_reserve_spec ok st _ n true (ok_rep _ _ _ Hok) Hn) as (r & st1 & Er & Hr & En & _ & _ & Hres & _).
  rewrite Er in E. cbn [mbind outcome_bind] in E. injection E as -> ->.
  destruct Hres as [[? _]|(_ & Hroom & _)]; [done|]. apply insert_all_room; [done|lia].
Qed.

(** ** Deep copies *)

Section copies.
Variable copy_func : Z -> A -> option A.

(** The copy of every element; a null pointer is its own copy. *)
Definition copies l : list (option A) := imap (fun i p => p ≫= copy_func (Z.of_nat i)) l.

(** The element at [i] cannot be copied. *)
Definition copy_fails l (i : nat) : Prop := exists x, l !! i = Some (Some x) /\ copy_func (Z.of_nat i) x = None.

(** The array while it is filled: the first [i] copies, then null pointers. *)
Definition filling l (i : nat) (d : list (cell A)) : Prop :=
  (length l <= length d)%nat /\
  (forall j p, (j < i)%nat -> copies l !! j = Some p -> d !! j = Some (Cell p)) /\
  (forall j, (i <= j < length d)%nat -> d !! j = Some (Cell None)).

Lemma objects_app l1 l2 : objects (l1 ++ l2) = objects l1 ++ objects l2.
Proof. apply omap_app. Qed.

Lemma copies_lookup l i : copies l !! i = (fun p => p ≫= copy_func (Z.of_nat i)) <$> l !! i.
Proof. unfold copies. by rewrite list_lookup_imap. Qed.

Lemma free_copies_spec l n d : filling l n d -> forall i, (i <= n)%nat -> (i <= length l)%nat ->
  free_copies i d = Ret (reverse (objects (take i (copies l)))).
Proof.
  intros (_ & Hd & _). induction i as [|i IH]; intros Hi Hl; [done|]. cbn [free_copies].
  assert (Hlt : (i < length (copies l))%nat) by (unfold copies; rewrite length_imap; lia).
  destruct (lookup_lt_is_Some_2 _ _ Hlt) as [p Hp].
  unfold cell_get. rewrite (aget_nat _ _ _ (Hd i p ltac:(lia) Hp)). cbn [mbind outcome_bind value_of].
  rewrite IH by lia. cbn [mbind outcome_bind]. rewrite (take_S_r _ _ _ Hp), objects_app, reverse_app.
  by destruct p.
Qed.

Lemma filling_next l i d p : filling l i d -> (i < length l)%nat -> copies l !! i = Some p ->
  filling l (S i) (<[i := Cell p]> d).
Proof.
  intros (Hlen & Hlow & Hhigh) Hi Hp. split; [by rewrite length_insert|]. split.
  - intros j q Hj Hq. destruct (decide (j = i)) as [->|Nj].
    + rewrite list_lookup_insert_eq by lia. congruence.
    + rewrite list_lookup_insert_ne by done. apply Hlow; [lia|done].
  - intros j Hj. rewrite length_insert in Hj. rewrite list_lookup_insert_ne by lia. apply Hhigh. lia.
Qed.

Lemma insert_same (d : list (cell A)) i c : d !! i = Some c -> <[i := c]> d = d.
Proof. apply list_insert_id. Qed.

(** The loop fills the array, or stops at the first element that cannot be
    copied and gives back the copies before it. *)
Lemma copy_loop_spec l src na : array_rep src na l -> forall k i d, (i + k = length l)%nat -> filling l i d ->
  (forall j, (j < i)%nat -> ~ copy_fails l j) ->
  (exists d', copy_loop k copy_func src i d = Ret (inl d') /\ length d' = length d /\ filling l (length l) d' /\
     forall j, ~ copy_fails l j) \/
  (exists m, copy_fails l m /\ (forall j, (j < m)%nat -> ~ copy_fails l j) /\
     copy_loop k copy_func src i d = Ret (inr (reverse (objects (take m (copies l)))))).
Proof.
  intros Hsrc. induction k as [|k IH]; intros i d Hi Hf Hno; cbn [copy_loop].
  { left. exists d. replace i with (length l) in * by lia. split_and!; try done.
    intros j (x & Hx & Hc). pose proof (lookup_lt_Some _ _ _ Hx). apply (Hno j); [lia|]. by exists x. }
  destruct (lookup_lt_is_Some_2 l i ltac:(lia)) as [p Hp]. rewrite (array_get _ _ _ _ _ Hsrc Hp).
  cbn [mbind outcome_bind]. pose proof Hf as (Hlen & Hlow & Hhigh).
  pose proof (copies_lookup l i) as Hci. rewrite Hp in Hci. cbn [fmap option_fmap option_map] in Hci.
  assert (Hnext : ~ copy_fails l i -> forall j, (j < S i)%nat -> ~ copy_fails l j).
  { intros Hn j Hj. destruct (decide (j = i)) as [->|]; [done|]. apply Hno. lia. }
  destruct p as [x|]; cbn in Hci.
  - rewrite aset_nat by lia. cbn [mbind outcome_bind].
    pose proof (filling_next l i d _ Hf ltac:(lia) Hci) as Hf'.
    destruct (copy_func (Z.of_nat i) x) as [y|] eqn:Ey.
    + destruct (IH (S i) _ ltac:(lia) Hf') as [(d' & E & El & Hd')|Hm].
      { apply Hnext. intros (z & Hz & Ez). rewrite Hp in Hz. injection Hz as <-. congruence. }
      * left. exists d'. rewrite El, length_insert. done.
      * by right.
    + right. exists i. split; [by exists x|]. split; [done|].
      rewrite (free_copies_spec l (S i) _ Hf') by lia. done.
  - pose proof (filling_next l i d _ Hf ltac:(lia) Hci) as Hf'.
    rewrite insert_same in Hf' by (apply Hhigh; lia).
    apply IH; [lia|done|]. apply Hnext. intros (z & Hz & _). by rewrite Hp in Hz.
Qed.

(** C16: A deep copy is all or nothing.  When memory and every element can be had
    it represents the copies, null pointers kept, and nothing is freed; when an
    element cannot be copied the result is null, and exactly the copies made
    before are freed, each once, the last one first. *)
Theorem sk_deep_copy ok st l : sk_rep st l ->
  exists r freed, OPENSSL_sk_deep_copy ok (Some st) copy_func = Ret (r, freed) /\
    match r with
    | Some st' => sk_rep st' (copies l) /\ sorted st' = sorted st /\ comp st' = comp st /\ freed = [] /\
        forall i, ~ copy_fails l i
    | None =>
        (freed = [] /\ (ok 0%nat = false \/ ok 1%nat = false)) \/
        exists m, copy_fails l m /\ (forall j, (j < m)%nat -> ~ copy_fails l j) /\
          freed = reverse (objects (take m (copies l)))
    end.
Proof.
  intros Hr. unfold OPENSSL_sk_deep_copy. cbn [copy_head].
  destruct (ok 0%nat) eqn:E0; cbn [negb]; [|exists None, []; auto].
  rewrite (num_0 _ _ Hr). pose proof (rep_num _ _ Hr) as Hn. case_bool_decide as El.
  { eexists (Some _), []. split; [done|]. subst l. split_and!; try done.
    intros i (x & Hx & _). by rewrite lookup_nil in Hx. }
  destruct (ok 1%nat) eqn:E1; cbn [negb]; [|exists None, []; auto].
  destruct (rep_array _ _ Hr El) as (src & Es & Hsrc). rewrite Es. cbn [deref mbind outcome_bind].
  destruct (rep_bound _ _ Hr) as [Hb _]. pose proof max_nodes_bounds as Hm.
  set (na := if min_nodes <? num st then num st else min_nodes).
  assert (Hna : min_nodes <= na <= max_nodes /\ num st <= na) by (unfold na, min_nodes; zcase; lia).
  replace (Z.to_nat (num st)) with (length l) by lia. clearbody na.
  destruct (copy_loop_spec l src _ Hsrc (length l) 0 (replicate (Z.to_nat na) (Cell None)))
    as [(d' & -> & Hl' & (Hlen & Hlow & _) & Hno)|(m & Hmf & Hmn & ->)]; [lia| |lia| |].
  { split; [rewrite length_replicate; lia|]. split; [lia|]. intros j Hj. rewrite length_replicate in Hj.
    apply lookup_replicate. split; [done|lia]. }
  - eexists (Some _), []. split; [done|]. split_and!; try done. rewrite length_replicate in Hl'.
    assert (Ec : length (copies l) = length l) by apply length_imap.
    split; cbn; [by rewrite Ec|]. apply array_intro; [lia|lia|]. intros i p Hp.
    apply Hlow; [|done]. rewrite <- Ec. by eapply lookup_lt_Some.
  - eexists None, _. split; [done|]. right. by exists m.
Qed.
End copies.

(** ** The limits *)

(** The capacity is given up before the limit that is declared: a full stack
    of 1342177280 elements or more refuses an insertion although memory is there
    and [max_nodes] is not reached. *)
Theorem sk_growth_gives_up st a p loc : sk_ok V st a -> num st = num_alloc st -> 1342177280 <= num st ->
  OPENSSL_sk_insert true (Some st) p loc = Ret (0, Some st).
Proof.
  intros Hok Efull Hbig. pose proof max_nodes_bounds as Hm. cbn [OPENSSL_sk_insert].
  destruct (rep_bound _ _ (ok_rep _ _ _ Hok)) as [Hb _].
  destruct (Z.eqb_spec (num st) max_nodes) as [|Nmax]; [done|].
  pose proof (rep_data _ _ (ok_rep _ _ _ Hok)) as Hd. unfold sk_reserve.
  destruct (data st) as [d|] eqn:Ed; [|lia].
  rewrite (int_op_ok (max_nodes - num st)) by (unfold is_int, INT_MIN, INT_MAX in *; lia).
  rewrite (int_op_ok (num st + 1)) by (unfold is_int, INT_MIN, INT_MAX in *; lia). cbn [mbind outcome_bind].
  rewrite (proj2 (Z.ltb_ge (max_nodes - num st) 1)) by lia.
  rewrite (proj2 (Z.ltb_ge (num st + 1) min_nodes)) by (unfold min_nodes; lia). cbn [negb].
  rewrite (proj2 (Z.leb_gt (num st + 1) (num_alloc st))) by lia.
  unfold compute_growth. cbn [growth_loop]. rewrite (proj2 (Z.ltb_lt (num_alloc st) (num st + 1))) by lia.
  rewrite (proj2 (Z.leb_gt max_nodes (num_alloc st))) by lia.
  destruct (muldiv_8_5 (num_alloc st) ltac:(lia)) as (v & ->).
  rewrite (proj2 (Z.leb_gt (8 * num_alloc st / 5) INT_MAX)) by (unfold INT_MAX; Z.div_mod_to_equations; lia).
  done.
Qed.

(** A stack of more than 4 GB of pointers cannot be searched by comparison:
    the offset of its middle overflows an [int], which is undefined behaviour. *)
Theorem sk_find_overflows st a f p : all_consistent (F := F) V -> sk_ok V st a -> abs_comp a = Some f -> p <> None ->
  INT_MAX < num st / 2 * sizeof_ptr -> OPENSSL_sk_find (Some st) p = Fault.
Proof.
  intros Hcons Hok Ef Np Hbig. unfold OPENSSL_sk_find. cbn [internal_find].
  assert (Hpos : 0 < num st).
  { destruct (Z.lt_ge_cases 0 (num st)) as [|Hle]; [done|]. pose proof sizeof_ptr_bounds.
    assert (num st / 2 <= 0) by (Z.div_mod_to_equations; lia). unfold INT_MAX in Hbig. nia. }
  rewrite (proj2 (Z.eqb_neq _ _)), (ok_comp _ _ _ Hok), Ef by lia.
  destruct (sort_if_needed V f st a Hcons Hok Ef) as (st1 & -> & Hok1 & Hperm & _).
  cbn [mbind outcome_bind]. destruct p as [x|]; [|done].
  assert (En : num st1 = num st).
  { rewrite (rep_num _ _ (ok_rep _ _ _ Hok1)), (rep_num _ _ (ok_rep _ _ _ Hok)). f_equal. by apply Permutation_length. }
  rewrite En. destruct (data st1); [|done]. cbn [deref mbind outcome_bind]. by rewrite bsearch_overflow.
Qed.
End limits.
