(* ===== verification/StackSamples.v ===== *)
(** * Concrete stacks: the theorems of the stack at work *)

From S2P Require Import Prelude SafeMath Bsearch Stack StackCorrect StackTheorems StackSearch.
From stdpp Require Import sorting.
#[local] Open Scope Z_scope.

(** Pointers to numbers, compared by the numbers, null first; [qsort] as an
    insertion sort. *)
#[local] Instance sample_platform : Platform := {| bits64 := true; has_builtin := true |}.

Definition sample_cmp (p q : option Z) : Z :=
  match p, q with
  | None, None => 0
  | None, Some _ => -1
  | Some _, None => 1
  | Some x, Some y => Z.sgn (x - y)
  end.
#[local] Instance sample_comparisons : Comparisons Z unit := fun _ => sample_cmp.

Fixpoint insert_sorted (cmp : option Z -> option Z -> Z) (x : option Z) (l : list (option Z)) : list (option Z) :=
  match l with
  | [] => [x]
  | y :: l' => if cmp x y <=? 0 then x :: l else y :: insert_sorted cmp x l'
  end.
#[local] Instance sample_qsort : Qsort Z := fun cmp l => foldr (insert_sorted cmp) [] l.

Lemma insert_sorted_perm cmp x l : insert_sorted cmp x l ≡ₚ x :: l.
Proof.
  induction l as [|y l IH]; cbn; [done|]. case_match; [done|]. rewrite IH. by rewrite Permutation_swap.
Qed.

Lemma insert_sorted_ordered cmp x l : consistent cmp (fun y => y ∈ x :: l) -> ordered cmp l ->
  ordered cmp (insert_sorted cmp x l).
Proof.
  induction l as [|y l IH]; intros Hc Hs; cbn [insert_sorted]; [by repeat constructor|].
  apply StronglySorted_cons in Hs as [Hf Hs]. pose proof Hc as [Hanti Htrans].
  destruct (Z.leb_spec (cmp x y) 0) as [Hxy|Hxy]; apply StronglySorted_cons.
  - split; [|by apply StronglySorted_cons]. constructor; [done|]. rewrite Forall_forall in Hf |- *.
    intros z Hz. apply (Htrans x y z); [set_solver..|done|by apply Hf].
  - split; [|apply IH; [eapply consistent_sub; [done|]; set_solver|done]].
    rewrite insert_sorted_perm. constructor; [|done].
    pose proof (Hanti x y ltac:(set_solver) ltac:(set_solver)). lia.
Qed.

#[local] Instance sample_qsort_laws : QsortLaws Z.
Proof.
  intros cmp l. unfold qsort, sample_qsort. induction l as [|x l IH]; intros Hc; [by repeat constructor|].
  destruct IH as [Hp Hs]; [eapply consistent_sub; [done|]; set_solver|]. cbn [foldr]. split.
  - by rewrite insert_sorted_perm, Hp.
  - apply insert_sorted_ordered; [|done]. eapply consistent_sub; [done|]. intros y. cbn. by rewrite Hp.
Qed.

Definition any (p : option Z) : Prop := True.

Lemma sample_consistent : all_consistent (F := unit) any.
Proof.
  intros f. split.
  - intros [x|] [y|] _ _; cbn; lia.
  - intros [x|] [y|] [z|] _ _ _; cbn; lia.
Qed.

(** 3, 1 and 2 pushed on a new stack. *)
Definition sample : stack_st Z unit :=
  mkStack 3 (Some [Cell (Some 3); Cell (Some 1); Cell (Some 2); Cell None]) 0 4 (Some tt).
Definition sample_abs : sk_abs Z unit := mkAbs [Some 3; Some 1; Some 2] false (Some tt).

Definition sample_0 : stack_st Z unit := mkStack 0 None 0 0 (Some tt).
Definition sample_1 : stack_st Z unit := mkStack 1 (Some [Cell (Some 3); Cell None; Cell None; Cell None]) 0 4 (Some tt).
Definition sample_2 : stack_st Z unit :=
  mkStack 2 (Some [Cell (Some 3); Cell (Some 1); Cell None; Cell None]) 0 4 (Some tt).

Lemma sample_reach : sk_reach any sample.
Proof.
  apply (reach_op _ true (OpPush (Some 2)) sample_2 (AInt 3)); [|done|vm_compute; reflexivity].
  apply (reach_op _ true (OpPush (Some 1)) sample_1 (AInt 2)); [|done|vm_compute; reflexivity].
  apply (reach_op _ true (OpPush (Some 3)) sample_0 (AInt 1)); [|done|vm_compute; reflexivity].
  by apply (reach_new _ (fun _ => true) (Some tt) 0).
Qed.

Lemma sample_ok : sk_ok any sample sample_abs.
Proof.
  split; [|done|done|by repeat constructor|done]. split; [done|]. cbn.
  split_and!; [done|done|pose proof max_nodes_bounds; lia|cbn; lia|done].
Qed.

(** A stack of [n] null pointers that fills its array. *)
Definition full (n : nat) : stack_st Z unit :=
  mkStack (Z.of_nat n) (Some (replicate n (Cell None))) 0 (Z.of_nat n) (Some tt).
Definition full_abs (n : nat) : sk_abs Z unit := mkAbs (replicate n None) false (Some tt).

Lemma full_ok n : 4 <= Z.of_nat n <= 2 ^ 31 - 1 -> sk_ok any (full n) (full_abs n).
Proof.
  intros Hn. split; [|done|done|by apply Forall_true|done].
  split; cbn [full full_abs num data num_alloc elems]; [by rewrite length_replicate|].
  apply array_intro; [by rewrite length_replicate|rewrite max_nodes_64 by done; unfold min_nodes, INT_MAX; lia|].
  intros i p Hi. apply lookup_replicate in Hi as [-> Hi]. by apply lookup_replicate.
Qed.

(** ** The theorems *)

Lemma stack_refines_list_witness :
  all_consistent (F := unit) any /\ sk_reach any sample /\
  (exists a, sk_ok any sample a /\ exists ans st', run_op false OpPop (Some sample) = Ret (ans, Some st') /\
    ((ans = (spec_op OpPop a).1 /\ sk_ok any st' (spec_op OpPop a).2) \/
     (ans = AInt 0 /\ st' = sample /\ may_fail false sample OpPop))).
Proof.
  split; [exact sample_consistent|]. split; [exact sample_reach|].
  exact (stack_refines_list any false sample OpPop sample_consistent sample_reach I).
Defined.

Lemma stack_invariant_witness :
  exists l, num sample = Z.of_nat (length l) /\ num sample <= max_nodes /\ Forall any l /\
    (forall d, data sample = Some d -> Z.of_nat (length d) = num_alloc sample /\
       min_nodes <= num_alloc sample <= max_nodes /\ take (length l) d = Cell <$> l) /\
    (data sample = None -> num_alloc sample = 0 /\ l = []) /\
    (sorted sample <> 0 -> exists f, comp sample = Some f /\ ordered (compare f) l).
Proof. exact (stack_invariant any sample sample_consistent sample_reach). Defined.

Lemma sk_find_correct_witness :
  elems (searched sample_abs) = [Some 1; Some 2; Some 3] /\
  exists i st', OPENSSL_sk_find (Some sample) (Some 2) = Ret (i, Some st') /\ sk_ok any st' (searched sample_abs) /\
    found tt (Some 2) (elems (searched sample_abs)) i.
Proof.
  split; [vm_compute; reflexivity|].
  destruct (sk_find_correct any sample sample_abs tt (Some 2) sample_consistent sample_ok I) as (_ & _ & H & _);
    [done|done|done|exact H].
Defined.

Lemma sk_find_pointer_witness :
  exists st a, sk_ok any st a /\
    internal_find (F := unit) (Some st) (Some 1) OSSL_BSEARCH_FIRST_VALUE_ON_MATCH true
    = Ret (match position (elems a) (Some 1) with Some j => Z.of_nat j | None => -1 end,
           Some (if position (elems a) (Some 1) then 1 else 0), Some st).
Proof.
  exists (mkStack 3 (data sample) 0 4 None), (mkAbs (elems sample_abs) false None).
  assert (Hok : sk_ok any (mkStack 3 (data sample) 0 4 None) (mkAbs (F := unit) (elems sample_abs) false None))
    by (destruct sample_ok as [[? ?] ? ? ? ?]; split; try done; split; done).
  split; [exact Hok|]. exact (sk_find_pointer any _ _ (Some 1) true Hok eq_refl ltac:(done)).
Defined.

Lemma compute_growth_total_witness :
  min_nodes <= 4 /\ compute_growth 5 4 = Ret 6 /\
  exists r, compute_growth 5 4 = Ret r /\
    ((r = 0 /\ INT_MAX < 8 * (5 - 1) / 5) \/ (5 <= r <= max_nodes /\ r <= 8 * (5 - 1) / 5)).
Proof.
  split; [unfold min_nodes; lia|]. split; [vm_compute; reflexivity|].
  apply (proj1 (compute_growth_total 5 4)); [unfold min_nodes; lia|lia|].
  pose proof max_nodes_bounds. lia.
Defined.

Lemma sk_reserve_room_witness :
  exists st', OPENSSL_sk_reserve true (Some sample) 2 = Ret (1, Some st') /\
  exists st'', insert_all [(Some 7, 0); (Some 8, -1)] (Some st') = Ret (true, Some st'') /\
    num_alloc st'' = num_alloc st' /\
    sk_rep st'' (foldl (fun l pl => insert_at l pl.1 pl.2) (elems sample_abs) [(Some 7, 0); (Some 8, -1)]).
Proof.
  eexists. assert (E : OPENSSL_sk_reserve true (Some sample) 2
    = Ret (1, Some (mkStack 3 (Some [Cell (Some 3); Cell (Some 1); Cell (Some 2); Cell None; Uninit]) 0 5 (Some tt))))
    by (vm_compute; reflexivity).
  split; [exact E|].
  apply (sk_reserve_room any true sample sample_abs 2 _ [(Some 7, 0); (Some 8, -1)] sample_ok); [unfold INT_MAX; lia|exact E|cbn; lia].
Defined.

(** Copies of even numbers only. *)
Definition copy_even (i : Z) (x : Z) : option Z := if Z.even x then Some x else None.

Lemma sk_deep_copy_witness :
  sk_rep sample (elems sample_abs) /\
  exists r freed, OPENSSL_sk_deep_copy (fun _ => true) (Some sample) copy_even = Ret (r, freed) /\
    match r with
    | Some st' => sk_rep st' (copies copy_even (elems sample_abs)) /\ sorted st' = sorted sample /\
        comp st' = comp sample /\ freed = [] /\ forall i, ~ copy_fails copy_even (elems sample_abs) i
    | None =>
        (freed = [] /\ (true = false \/ true = false)) \/
        exists m, copy_fails copy_even (elems sample_abs) m /\
          (forall j, (j < m)%nat -> ~ copy_fails copy_even (elems sample_abs) j) /\
          freed = reverse (objects (take m (copies copy_even (elems sample_abs))))
    end.
Proof.
  split; [apply (ok_rep _ _ _ sample_ok)|].
  exact (sk_deep_copy copy_even (fun _ => true) sample _ (ok_rep _ _ _ sample_ok)).
Defined.

Lemma sk_growth_gives_up_witness :
  exists n, Z.of_nat n = 1342177280 /\ OPENSSL_sk_insert true (Some (full n)) (Some 1) 0 = Ret (0, Some (full n)).
Proof.
  destruct (Z_of_nat_complete 1342177280) as [n E]; [lia|]. exists n. split; [by rewrite E|].
  assert (Hok : sk_ok any (full n) (full_abs n)) by (apply full_ok; rewrite <- E; lia).
  apply (sk_growth_gives_up any (full n) (full_abs n) (Some 1) 0 Hok eq_refl). unfold full. cbn [num]. rewrite <- E. lia.
Defined.

Lemma sk_find_overflows_witness :
  exists n, Z.of_nat n = 2 ^ 29 /\ OPENSSL_sk_find (Some (full n)) (Some 1) = Fault.
Proof.
  destruct (Z_of_nat_complete (2 ^ 29)) as [n E]; [lia|]. exists n. split; [by rewrite E|].
  assert (Hok : sk_ok any (full n) (full_abs n)) by (apply full_ok; rewrite <- E; lia).
  apply (sk_find_overflows any (full n) (full_abs n) tt (Some 1) sample_consistent Hok eq_refl); [done|].
  unfold full. cbn [num]. rewrite <- E. reflexivity.
Defined.
