(* ===== verification/Ghash.v ===== *)
(** * Multiplication in GF(2^128) (openssl crypto/modes/gcm128.c)

    The hash of GCM multiplies by a fixed element of the field.  The code has it
    with a table of 16 entries, for one block and for a run of blocks, and, for
    other values of [TABLE_BITS], with a table of 256 entries and bit by bit.
    All compute the multiplication of the standard. *)

From S2P Require Import Prelude Bytes Stream.
#[local] Open Scope Z_scope.

(** [u128]; every half is a 64-bit word. *)
Record u128 := mk128 { hi : Z; lo : Z }.

Definition zero128 : u128 := mk128 0 0.
Definition xor128 (a b : u128) : u128 := mk128 (Z.lxor (hi a) (hi b)) (Z.lxor (lo a) (lo b)).
Definition table_at (T : list u128) (n : Z) : u128 := nth (Z.to_nat n) T zero128.

(** [PACK] and [REDUCE1BIT], with a [size_t] of 64 bits or of 32 ([wide]). *)
Definition PACK (wide : bool) (s : Z) : Z := Z.shiftl s ((if wide then 64 else 32) - 16).

Definition REDUCE1BIT (wide : bool) (V : u128) : u128 :=
  let T := if wide then Z.land 0xe100000000000000 (u64 (0 - Z.land (lo V) 1))
           else u64 (Z.shiftl (Z.land 0xe1000000 (u32 (0 - u32 (Z.land (lo V) 1)))) 32) in
  mk128 (Z.lxor (Z.shiftr (hi V) 1) T)
        (Z.lor (u64 (Z.shiftl (hi V) 63)) (Z.shiftr (lo V) 1)).

(** A result is stored with its highest byte first, whatever the byte order. *)
Definition store128 (z : u128) : list Z := be_put 8 (hi z) ++ be_put 8 (lo z).

(** [z] shifted by [n] bits; [rem] is the table of what the bits shifted out
    leave. *)
Definition shift_rem (wide : bool) (n : Z) (rem : list Z) (z : u128) : u128 :=
  let r := nth (Z.to_nat (Z.land (lo z) (2 ^ n - 1))) rem 0 in
  mk128 (Z.lxor (Z.shiftr (hi z) n) (if wide then PACK true r else u64 (Z.shiftl (PACK false r) 32)))
        (Z.lor (u64 (Z.shiftl (hi z) (64 - n))) (Z.shiftr (lo z) n)).

(** ** The table of 16 entries *)

(** The loops of the small build: [for (j = 1; j < i; ++j)] and what is around
    it. *)
Fixpoint fill_row (k : nat) (i j : Z) (V : u128) (T : list u128) : list u128 :=
  match k with
  | O => T
  | S k' => fill_row k' i (j + 1) V (<[Z.to_nat (i + j) := xor128 V (table_at T j)]> T)
  end.

Definition fill_rows (rows : list Z) (T : list u128) : list u128 :=
  fold_left (fun T i => fill_row (Z.to_nat (i - 1)) i 1 (table_at T i) T) rows T.

Definition halve_rows (wide : bool) (rows : list Z) (V : u128) (T : list u128) : list u128 :=
  (fold_left (fun '(V, T) i => let V := REDUCE1BIT wide V in (V, <[Z.to_nat i := V]> T)) rows (V, T)).2.

Definition gcm_init_4bit (small wide : bool) (Hv : u128) : list u128 :=
  let T := replicate 16 zero128 in
  let V := Hv in
  if small then fill_rows [2; 4; 8] (halve_rows wide [4; 2; 1] V (<[8%nat := V]> T))
  else
    let V8 := V in
    let V4 := REDUCE1BIT wide V8 in
    let V2 := REDUCE1BIT wide V4 in
    let V1 := REDUCE1BIT wide V2 in
    let V3 := xor128 V1 V2 in
    let V5 := xor128 V4 V1 in
    let V6 := xor128 V4 V2 in
    let V7 := xor128 V4 V3 in
    [zero128; V1; V2; V3; V4; V5; V6; V7; V8; xor128 V8 V1; xor128 V8 V2; xor128 V8 V3;
     xor128 V8 V4; xor128 V8 V5; xor128 V8 V6; xor128 V8 V7].

Definition rem_4bit : list Z :=
  [0x0000; 0x1C20; 0x3840; 0x2460; 0x7080; 0x6CA0; 0x48C0; 0x54E0;
   0xE100; 0xFD20; 0xD940; 0xC560; 0x9180; 0x8DA0; 0xA9C0; 0xB5E0].

(** One nibble: shift by four and add the entry of the nibble. *)
Definition nibble (wide : bool) (T : list u128) (z : u128) (n : Z) : u128 :=
  xor128 (shift_rem wide 4 rem_4bit z) (table_at T n).

(** [while (1)], from [cnt] on with the high nibble of byte [cnt]; [byte] gives
    the bytes. *)
Fixpoint gmult_loop (wide : bool) (T : list u128) (byte : nat -> Z) (cnt : nat) (nhi : Z) (z : u128) : u128 :=
  let z := nibble wide T z nhi in
  match cnt with
  | O => z
  | S cnt' =>
      let n := byte cnt' in
      gmult_loop wide T byte cnt' (Z.shiftr n 4) (nibble wide T z (Z.land n 0xf))
  end.

Definition gmult_bytes (wide : bool) (T : list u128) (byte : nat -> Z) : list Z :=
  let n := byte 15%nat in
  store128 (gmult_loop wide T byte 15 (Z.shiftr n 4) (table_at T (Z.land n 0xf))).

Definition gcm_gmult_4bit (wide : bool) (Xi : list Z) (T : list u128) : list Z :=
  gmult_bytes wide T (byte_at Xi).

(** [do ... while (len > 0)] on [k] blocks. *)
Fixpoint ghash_loop (k : nat) (wide : bool) (Xi : list Z) (T : list u128) (inp : list Z) : list Z :=
  match k with
  | O => Xi
  | S k' =>
      let Xi := gmult_bytes wide T (fun cnt => Z.lxor (byte_at Xi cnt) (byte_at inp cnt)) in
      ghash_loop k' wide Xi T (drop 16 inp)
  end.

(** [gcm_ghash_4bit] on an input whose length is a positive multiple of 16, as
    its callers see to. *)
Definition gcm_ghash_4bit (wide : bool) (Xi : list Z) (T : list u128) (inp : list Z) : list Z :=
  ghash_loop (length inp / 16) wide Xi T inp.

(** ** The table of 256 entries *)

Definition gcm_init_8bit (wide : bool) (Hv : u128) : list u128 :=
  fill_rows [2; 4; 8; 16; 32; 64; 128]
    (halve_rows wide [64; 32; 16; 8; 4; 2; 1] Hv (<[128%nat := Hv]> (replicate 256 zero128))).

Definition rem_8bit : list Z :=
  [
   0x0000; 0x01C2; 0x0384; 0x0246; 0x0708; 0x06CA; 0x048C; 0x054E; 0x0E10; 0x0FD2; 0x0D94; 0x0C56;
   0x0918; 0x08DA; 0x0A9C; 0x0B5E; 0x1C20; 0x1DE2; 0x1FA4; 0x1E66; 0x1B28; 0x1AEA; 0x18AC; 0x196E;
   0x1230; 0x13F2; 0x11B4; 0x1076; 0x1538; 0x14FA; 0x16BC; 0x177E; 0x3840; 0x3982; 0x3BC4; 0x3A06;
   0x3F48; 0x3E8A; 0x3CCC; 0x3D0E; 0x3650; 0x3792; 0x35D4; 0x3416; 0x3158; 0x309A; 0x32DC; 0x331E;
   0x2460; 0x25A2; 0x27E4; 0x2626; 0x2368; 0x22AA; 0x20EC; 0x212E; 0x2A70; 0x2BB2; 0x29F4; 0x2836;
   0x2D78; 0x2CBA; 0x2EFC; 0x2F3E; 0x7080; 0x7142; 0x7304; 0x72C6; 0x7788; 0x764A; 0x740C; 0x75CE;
   0x7E90; 0x7F52; 0x7D14; 0x7CD6; 0x7998; 0x785A; 0x7A1C; 0x7BDE; 0x6CA0; 0x6D62; 0x6F24; 0x6EE6;
   0x6BA8; 0x6A6A; 0x682C; 0x69EE; 0x62B0; 0x6372; 0x6134; 0x60F6; 0x65B8; 0x647A; 0x663C; 0x67FE;
   0x48C0; 0x4902; 0x4B44; 0x4A86; 0x4FC8; 0x4E0A; 0x4C4C; 0x4D8E; 0x46D0; 0x4712; 0x4554; 0x4496;
   0x41D8; 0x401A; 0x425C; 0x439E; 0x54E0; 0x5522; 0x5764; 0x56A6; 0x53E8; 0x522A; 0x506C; 0x51AE;
   0x5AF0; 0x5B32; 0x5974; 0x58B6; 0x5DF8; 0x5C3A; 0x5E7C; 0x5FBE; 0xE100; 0xE0C2; 0xE284; 0xE346;
   0xE608; 0xE7CA; 0xE58C; 0xE44E; 0xEF10; 0xEED2; 0xEC94; 0xED56; 0xE818; 0xE9DA; 0xEB9C; 0xEA5E;
   0xFD20; 0xFCE2; 0xFEA4; 0xFF66; 0xFA28; 0xFBEA; 0xF9AC; 0xF86E; 0xF330; 0xF2F2; 0xF0B4; 0xF176;
   0xF438; 0xF5FA; 0xF7BC; 0xF67E; 0xD940; 0xD882; 0xDAC4; 0xDB06; 0xDE48; 0xDF8A; 0xDDCC; 0xDC0E;
   0xD750; 0xD692; 0xD4D4; 0xD516; 0xD058; 0xD19A; 0xD3DC; 0xD21E; 0xC560; 0xC4A2; 0xC6E4; 0xC726;
   0xC268; 0xC3AA; 0xC1EC; 0xC02E; 0xCB70; 0xCAB2; 0xC8F4; 0xC936; 0xCC78; 0xCDBA; 0xCFFC; 0xCE3E;
   0x9180; 0x9042; 0x9204; 0x93C6; 0x9688; 0x974A; 0x950C; 0x94CE; 0x9F90; 0x9E52; 0x9C14; 0x9DD6;
   0x9898; 0x995A; 0x9B1C; 0x9ADE; 0x8DA0; 0x8C62; 0x8E24; 0x8FE6; 0x8AA8; 0x8B6A; 0x892C; 0x88EE;
   0x83B0; 0x8272; 0x8034; 0x81F6; 0x84B8; 0x857A; 0x873C; 0x86FE; 0xA9C0; 0xA802; 0xAA44; 0xAB86;
   0xAEC8; 0xAF0A; 0xAD4C; 0xAC8E; 0xA7D0; 0xA612; 0xA454; 0xA596; 0xA0D8; 0xA11A; 0xA35C; 0xA29E;
   0xB5E0; 0xB422; 0xB664; 0xB7A6; 0xB2E8; 0xB32A; 0xB16C; 0xB0AE; 0xBBF0; 0xBA32; 0xB874; 0xB9B6;
   0xBCF8; 0xBD3A; 0xBF7C; 0xBEBE].

(** [while (1)], from byte [cnt] on. *)
Fixpoint gmult8_loop (wide : bool) (T : list u128) (Xi : list Z) (cnt : nat) (z : u128) : u128 :=
  let z := xor128 z (table_at T (byte_at Xi cnt)) in
  match cnt with
  | O => z
  | S cnt' => gmult8_loop wide T Xi cnt' (shift_rem wide 8 rem_8bit z)
  end.

Definition gcm_gmult_8bit (wide : bool) (Xi : list Z) (T : list u128) : list Z :=
  store128 (gmult8_loop wide T Xi 15 zero128).

(** ** Bit by bit *)

(** [for (i = 0; i < 8 * sizeof(long); ++i, X <<= 1)] with a [long] of [w] bits:
    [M] is all ones or zero, as the sign of [X] says. *)
Fixpoint gmult1_bits (k : nat) (wide : bool) (w : Z) (X : Z) (z V : u128) : u128 * u128 :=
  match k with
  | O => (z, V)
  | S k' =>
      let M := if Z.testbit X (w - 1) then 2 ^ 64 - 1 else 0 in
      gmult1_bits k' wide w (Z.shiftl X 1 mod 2 ^ w)
        (xor128 z (mk128 (Z.land (hi V) M) (Z.land (lo V) M))) (REDUCE1BIT wide V)
  end.

(** [for (j = 0; j < 16 / sizeof(long); ++j)] *)
Fixpoint gmult1_words (k : nat) (wide : bool) (bytes_per_long : nat) (Xi : list Z) (z V : u128) : u128 :=
  match k with
  | O => z
  | S k' =>
      let X := be_get (take bytes_per_long Xi) in
      let '(z, V) := gmult1_bits (8 * bytes_per_long) wide (8 * Z.of_nat bytes_per_long) X z V in
      gmult1_words k' wide bytes_per_long (drop bytes_per_long Xi) z V
  end.

Definition gcm_gmult_1bit (wide long64 : bool) (Xi : list Z) (Hv : u128) : list Z :=
  let n := if long64 then 8%nat else 4%nat in
  store128 (gmult1_words (16 / n) wide n Xi zero128 Hv).

(** ** Reference: NIST SP 800-38D, section 6.3

    A block is the number of its bytes, highest first: its highest bit is the
    coefficient of [x^0]. *)

Definition gf_R : Z := 0xe1 * 2 ^ 120.

(** Multiplication by [x]. *)
Definition mulx (V : Z) : Z := Z.lxor (Z.shiftr V 1) (if Z.odd V then gf_R else 0).

(** The steps for the last [k] bits of [X], the highest of them first. *)
Fixpoint gf_steps (k : nat) (X W V : Z) : Z :=
  match k with
  | O => W
  | S k' => gf_steps k' X (if Z.testbit X (Z.of_nat k') then Z.lxor W V else W) (mulx V)
  end.

Definition gf_mul (X Y : Z) : Z := gf_steps 128 X 0 Y.

(** The product of two blocks. *)
Definition block_mul (X Y : list Z) : list Z := be_put 16 (gf_mul (be_get X) (be_get Y)).

(** [GHASH] of the standard (section 6.4), from a state [Y] on: [k] blocks. *)
Fixpoint ghash (k : nat) (H Y : list Z) (inp : list Z) : list Z :=
  match k with
  | O => Y
  | S k' => ghash k' H (block_mul (xor_bytes Y (take 16 inp)) H) (drop 16 inp)
  end.

(** The key as [gcm_init_*] take it: the two halves of [H]. *)
Definition key_halves (H : list Z) : u128 := mk128 (be_get (take 8 H)) (be_get (drop 8 H)).

(** The product of the first test case of the standard's reference. *)
Example block_mul_sample :
  let H := be_put 16 0x66e94bd4ef8a2c3b884cfa59ca342b2e in
  let X := be_put 16 0x0388dace60b6a392f328c2b971b2fe78 in
  let P := be_put 16 0x5e2ec746917062882c85b0685353deb7 in
  let Hv := key_halves H in
  block_mul X H = P /\ gcm_gmult_4bit true X (gcm_init_4bit false true Hv) = P /\
  gcm_gmult_4bit false X (gcm_init_4bit true false Hv) = P /\
  gcm_gmult_8bit true X (gcm_init_8bit true Hv) = P /\
  gcm_gmult_1bit false false X Hv = P /\ gcm_gmult_1bit true true X Hv = P.
Proof. vm_compute. done. Qed.
