(* ===== verification/GhashCorrect.v ===== *)
(** * The table multiplications are the multiplication of the field

    The halves of a [u128] hold a 128-bit number ([split]).  Multiplication by
    [x] is linear for the exclusive or, hence so is the multiplication of
    SP 800-38D in its first argument, and can be had four or eight bits at a
    time by Horner's rule, which is what the tables serve. *)

From S2P Require Import Prelude Bytes Stream Ghash.
#[local] Open Scope Z_scope.

Definition split (z : Z) : u128 := mk128 (Z.shiftr z 64) (z mod 2 ^ 64).
Definition is_u128 (z : Z) : Prop := 0 <= z < 2 ^ 128.

(** ** Bits *)

Lemma below_pow2 z n : 0 <= n -> 0 <= z -> (forall i, n <= i -> Z.testbit z i = false) -> z < 2 ^ n.
Proof.
  intros Hn Hz Hb. destruct (Z.eq_dec z 0) as [->|Hne]; [lia|].
  apply Z.log2_lt_pow2; [lia|]. destruct (Z.ltb_spec (Z.log2 z) n) as [|Hge]; [done|].
  pose proof (Hb (Z.log2 z) Hge) as Hx. rewrite Z.bit_log2 in Hx; [done|lia].
Qed.

Lemma bits_above z n i : 0 <= z < 2 ^ n -> n <= i -> Z.testbit z i = false.
Proof.
  intros [Hz Hn] Hi. destruct (Z.eq_dec z 0) as [->|]; [apply Z.bits_0|].
  apply Z.bits_above_log2; [done|]. destruct (Z.ltb_spec n 0) as [Hneg|].
  - rewrite Z.pow_neg_r in Hn; lia.
  - apply Z.log2_lt_pow2; [lia|]. apply Z.lt_le_trans with (2 ^ n); [done|]. by apply Z.pow_le_mono_r.
Qed.

Lemma lxor_bound a b n : 0 <= n -> 0 <= a < 2 ^ n -> 0 <= b < 2 ^ n -> 0 <= Z.lxor a b < 2 ^ n.
Proof.
  intros Hn Ha Hb. assert (0 <= Z.lxor a b) by (apply Z.lxor_nonneg; lia). split; [done|].
  apply below_pow2; [done..|]. intros i Hi. rewrite Z.lxor_spec.
  by rewrite !(bits_above _ n) by lia.
Qed.

Lemma lxor_mod_pow2 a b n : 0 <= n -> Z.lxor a b mod 2 ^ n = Z.lxor (a mod 2 ^ n) (b mod 2 ^ n).
Proof.
  intros Hn. apply Z.bits_inj'. intros i Hi. rewrite Z.lxor_spec.
  destruct (Z.ltb_spec i n).
  - rewrite !Z.mod_pow2_bits_low by lia. by rewrite Z.lxor_spec.
  - by rewrite !Z.mod_pow2_bits_high by lia.
Qed.

Lemma xor128_split a b : xor128 (split a) (split b) = split (Z.lxor a b).
Proof. unfold xor128, split. cbn [hi lo]. f_equal; [symmetry; apply Z.shiftr_lxor|]. by rewrite lxor_mod_pow2. Qed.

(** A shift over the two halves, with [t] added to the upper one. *)
Lemma split_shift z n t : 0 < n <= 64 -> is_u128 z -> 0 <= t < 2 ^ 64 ->
  mk128 (Z.lxor (Z.shiftr (hi (split z)) n) t)
        (Z.lor (u64 (Z.shiftl (hi (split z)) (64 - n))) (Z.shiftr (lo (split z)) n)) =
  split (Z.lxor (Z.shiftr z n) (Z.shiftl t 64)).
Proof.
  intros Hn Hz Ht. unfold split, u64. cbn [hi lo]. f_equal.
  - rewrite Z.shiftr_lxor, Z.shiftr_shiftl_l, Z.sub_diag, Z.shiftl_0_r by lia.
    f_equal. rewrite !Z.shiftr_shiftr by lia. f_equal. lia.
  - apply Z.bits_inj'. intros i Hi. rewrite Z.lor_spec.
    destruct (Z.ltb_spec i 64).
    + rewrite !Z.mod_pow2_bits_low, Z.lxor_spec, (Z.shiftl_spec _ 64), !Z.shiftr_spec, (Z.testbit_neg_r t), xorb_false_r by lia.
      destruct (Z.ltb_spec (i + n) 64).
      * rewrite Z.shiftl_spec, Z.testbit_neg_r, Z.mod_pow2_bits_low by lia. done.
      * rewrite Z.shiftl_spec, Z.shiftr_spec, Z.mod_pow2_bits_high, orb_false_r by lia. f_equal. lia.
    + rewrite !(Z.mod_pow2_bits_high _ 64) by lia. rewrite Z.shiftr_spec, Z.mod_pow2_bits_high by lia. done.
Qed.

(** ** Multiplication by [x] *)

Notation mulxn n := (Nat.iter n mulx).

Lemma mulx_0 : mulx 0 = 0.
Proof. done. Qed.

Lemma mulx_lxor a b : mulx (Z.lxor a b) = Z.lxor (mulx a) (mulx b).
Proof.
  unfold mulx. rewrite <- !Z.bit0_odd, Z.shiftr_lxor, Z.lxor_spec.
  apply Z.bits_inj'. intros i _. rewrite !Z.lxor_spec.
  destruct (Z.testbit a 0), (Z.testbit b 0); cbn [xorb];
    rewrite ?Z.bits_0; generalize (Z.testbit gf_R i); intros c;
    destruct (Z.testbit (Z.shiftr a 1) i), (Z.testbit (Z.shiftr b 1) i), c; done.
Qed.

Lemma mulxn_0 n : mulxn n 0 = 0.
Proof. induction n as [|n IH]; [done|]. rewrite ?Nat.iter_succ. by rewrite IH. Qed.

Lemma mulxn_lxor n a b : mulxn n (Z.lxor a b) = Z.lxor (mulxn n a) (mulxn n b).
Proof. induction n as [|n IH]; [done|]. rewrite ?Nat.iter_succ. by rewrite IH, mulx_lxor. Qed.

Lemma mulxn_add m n v : mulxn (m + n) v = mulxn m (mulxn n v).
Proof. apply Nat.iter_add. Qed.

Lemma mulx_bound v : is_u128 v -> is_u128 (mulx v).
Proof.
  unfold is_u128. intros Hv. apply lxor_bound; [lia|..].
  - rewrite Z.shiftr_div_pow2 by lia. change (2 ^ 1) with 2. Z.div_mod_to_equations. lia.
  - destruct (Z.odd v); vm_compute; split; congruence || done.
Qed.

Lemma mulxn_bound n v : is_u128 v -> is_u128 (mulxn n v).
Proof. intros Hv. induction n as [|n IH]; [done|]. by apply mulx_bound. Qed.

Lemma mulxn_shiftl n v : 0 <= v -> mulxn n (Z.shiftl v (Z.of_nat n)) = v.
Proof.
  revert v. induction n as [|n IH]; intros v Hv; [apply Z.shiftl_0_r|].
  rewrite Nat2Z.inj_succ, <- Z.add_1_l, <- Z.shiftl_shiftl by lia. rewrite ?Nat.iter_succ. 
  rewrite IH by (apply Z.shiftl_nonneg; lia). unfold mulx.
  rewrite <- Z.bit0_odd, Z.shiftl_spec, Z.testbit_neg_r, Z.shiftr_shiftl_l by lia.
  by rewrite Z.sub_diag, Z.shiftl_0_r, Z.lxor_0_r.
Qed.

(** [n] steps are a shift and what the lowest [n] bits leave. *)
Lemma mulxn_low n v : 0 <= v ->
  mulxn n v = Z.lxor (Z.shiftr v (Z.of_nat n)) (mulxn n (v mod 2 ^ Z.of_nat n)).
Proof.
  intros Hv.
  assert (E : v = Z.lxor (Z.shiftl (Z.shiftr v (Z.of_nat n)) (Z.of_nat n)) (v mod 2 ^ Z.of_nat n)).
  { apply Z.bits_inj'. intros i Hi. rewrite Z.lxor_spec. destruct (Z.ltb_spec i (Z.of_nat n)).
    - by rewrite Z.shiftl_spec, (Z.testbit_neg_r _ (i - Z.of_nat n)), Z.mod_pow2_bits_low by lia.
    - rewrite Z.shiftl_spec, Z.shiftr_spec, Z.mod_pow2_bits_high, xorb_false_r by lia. f_equal. lia. }
  rewrite E at 1. rewrite mulxn_lxor, mulxn_shiftl; [done|]. by apply Z.shiftr_nonneg.
Qed.

Lemma REDUCE1BIT_split wide v : is_u128 v -> REDUCE1BIT wide (split v) = split (mulx v).
Proof.
  intros Hv.
  assert (Hodd : Z.land (lo (split v)) 1 = Z.b2z (Z.odd v)).
  { unfold split. cbn [lo]. rewrite (Z.land_ones _ 1) by lia.
    rewrite Zmod_odd, <- !Z.bit0_odd, Z.mod_pow2_bits_low by lia. by destruct (Z.testbit v 0). }
  unfold REDUCE1BIT. rewrite Hodd. unfold mulx.
  replace (if wide then _ else _) with (if Z.odd v then 0xe100000000000000 else 0)
    by (destruct wide, (Z.odd v); vm_compute; done).
  change 63 with (64 - 1). rewrite split_shift; [|lia|done|destruct (Z.odd v); lia].
  by destruct (Z.odd v).
Qed.

(** What the tables hold for the bits shifted out. *)
Definition rem_ok (n : nat) (rem : list Z) : bool :=
  forallb (fun r => mulxn n (Z.of_nat r) =? Z.shiftl (nth r rem 0) 112) (seq 0 (2 ^ n)).

Lemma rem_4bit_ok : rem_ok 4 rem_4bit = true.
Proof. vm_compute. done. Qed.

Lemma rem_8bit_ok : rem_ok 8 rem_8bit = true.
Proof. vm_compute. done. Qed.

Lemma shift_rem_split wide n rem v : (0 < n <= 16)%nat -> rem_ok n rem = true -> is_u128 v ->
  Forall (fun r => 0 <= r < 2 ^ 16) rem ->
  shift_rem wide (Z.of_nat n) rem (split v) = split (mulxn n v).
Proof.
  intros Hn Hok Hv Hrem. unfold shift_rem.
  assert (Hlow : Z.land (lo (split v)) (2 ^ Z.of_nat n - 1) = v mod 2 ^ Z.of_nat n).
  { rewrite Z.sub_1_r, <- Z.ones_equiv, Z.land_ones by lia. unfold split. cbn [lo].
    apply Z.bits_inj'. intros i Hi. destruct (Z.ltb_spec i (Z.of_nat n)).
    - by rewrite !Z.mod_pow2_bits_low by lia.
    - by rewrite !(Z.mod_pow2_bits_high _ (Z.of_nat n)) by lia. }
  rewrite Hlow.
  pose proof (Z.mod_pos_bound v (2 ^ Z.of_nat n) ltac:(lia)) as Hm.
  set (m := v mod 2 ^ Z.of_nat n) in *.
  assert (Hr : mulxn n m = Z.shiftl (nth (Z.to_nat m) rem 0) 112).
  { unfold rem_ok in Hok. rewrite forallb_forall in Hok.
    rewrite <- (Z2Nat.id m) at 1 by lia. apply Z.eqb_eq, Hok, in_seq.
    split; [lia|]. apply Nat2Z.inj_lt. rewrite Z2Nat.id, Nat2Z.inj_add, Nat2Z.inj_pow by lia. lia. }
  assert (Hb : 0 <= nth (Z.to_nat m) rem 0 < 2 ^ 16).
  { destruct (nth_in_or_default (Z.to_nat m) rem 0) as [Hin| ->]; [|lia].
    apply (proj1 (Forall_forall _ _) Hrem). by apply list_elem_of_In. }
  set (r := nth (Z.to_nat m) rem 0) in *.
  replace (if wide then _ else _) with (Z.shiftl r 48).
  - rewrite split_shift; [|lia|done|rewrite Z.shiftl_mul_pow2; lia].
    f_equal. rewrite (mulxn_low n v) by apply Hv. fold m. rewrite Hr.
    by rewrite Z.shiftl_shiftl by lia.
  - unfold PACK, u64. destruct wide; [done|].
    rewrite Z.shiftl_shiftl by lia. rewrite Z.mod_small; [done|].
    rewrite Z.shiftl_mul_pow2; lia.
Qed.

(** ** The product as a polynomial in the first argument *)

Notation poly k X V := (gf_steps k X 0 V).

Lemma gf_steps_acc k X : forall W V, gf_steps k X W V = Z.lxor W (poly k X V).
Proof.
  induction k as [|k IH]; intros W V; cbn [gf_steps]; [by rewrite Z.lxor_0_r|].
  rewrite IH, (IH (if (_ : bool) then _ else 0)).
  destruct (Z.testbit X (Z.of_nat k)); [|by rewrite Z.lxor_0_l].
  by rewrite Z.lxor_0_l, Z.lxor_assoc.
Qed.

Lemma gf_steps_ext k X Y : (forall i, 0 <= i < Z.of_nat k -> Z.testbit X i = Z.testbit Y i) ->
  forall W V, gf_steps k X W V = gf_steps k Y W V.
Proof.
  induction k as [|k IH]; intros Hb W V; cbn [gf_steps]; [done|].
  rewrite Hb by lia. apply IH. intros i Hi. apply Hb. lia.
Qed.

Lemma gf_steps_add a b X : forall W V,
  gf_steps (a + b) X W V = gf_steps b X (gf_steps a (Z.shiftr X (Z.of_nat b)) W V) (mulxn a V).
Proof.
  induction a as [|a IH]; intros W V; [done|]. cbn [Nat.add gf_steps].
  rewrite IH, Nat.iter_succ_r. rewrite Z.shiftr_spec by lia. by rewrite Nat2Z.inj_add.
Qed.

Lemma poly_lxor k X Y : forall V, poly k (Z.lxor X Y) V = Z.lxor (poly k X V) (poly k Y V).
Proof.
  induction k as [|k IH]; intros V; cbn [gf_steps]; [done|].
  rewrite !(gf_steps_acc k _ (if (_ : bool) then _ else _)), IH, Z.lxor_spec.
  apply Z.bits_inj'. intros i _. rewrite ?Z.lxor_0_l.
  destruct (Z.testbit X (Z.of_nat k)), (Z.testbit Y (Z.of_nat k)); cbn [xorb];
    rewrite !Z.lxor_spec, ?Z.bits_0;
    repeat match goal with |- context [Z.testbit ?z i] => destruct (Z.testbit z i) end; done.
Qed.

Lemma poly_mulxn k X n : forall V, poly k X (mulxn n V) = mulxn n (poly k X V).
Proof.
  induction k as [|k IH]; intros V; cbn [gf_steps]; [by rewrite mulxn_0|].
  rewrite !(gf_steps_acc k _ (if (_ : bool) then _ else _)), mulxn_lxor.
  rewrite <- Nat.iter_succ, Nat.iter_succ_r, IH.
  f_equal. destruct (Z.testbit X (Z.of_nat k)); [by rewrite !Z.lxor_0_l|by rewrite mulxn_0].
Qed.

(** Horner's rule. *)
Lemma poly_add a b X V :
  poly (a + b) X V = Z.lxor (poly a (Z.shiftr X (Z.of_nat b)) V) (mulxn a (poly b X V)).
Proof. by rewrite gf_steps_add, gf_steps_acc, poly_mulxn. Qed.

Lemma gf_steps_bound k X : forall W V, is_u128 W -> is_u128 V -> is_u128 (gf_steps k X W V).
Proof.
  induction k as [|k IH]; intros W V HW HV; [done|]. cbn [gf_steps]. apply IH; [|by apply mulx_bound].
  destruct (Z.testbit X (Z.of_nat k)); [|done]. by apply lxor_bound.
Qed.

Lemma is_u128_0 : is_u128 0.
Proof. unfold is_u128. lia. Qed.

Lemma poly_0 k V : poly k 0 V = 0.
Proof.
  revert V. induction k as [|k IH]; intros V; cbn [gf_steps]; [done|]. by rewrite Z.bits_0.
Qed.

Lemma poly_pow2 k i : (i < k)%nat -> forall V, poly k (2 ^ Z.of_nat i) V = mulxn (k - 1 - i) V.
Proof.
  induction k as [|k IH]; intros Hi V; [lia|]. cbn [gf_steps].
  rewrite Z.pow2_bits_eqb by lia. destruct (Z.eqb_spec (Z.of_nat i) (Z.of_nat k)) as [He|Hne].
  - apply Nat2Z.inj in He as ->. replace (S k - 1 - k)%nat with 0%nat by lia.
    rewrite (gf_steps_ext k _ 0), gf_steps_acc, poly_0, Z.lxor_0_l, Z.lxor_0_r; [done|].
    intros j Hj. rewrite Z.pow2_bits_eqb, Z.bits_0 by lia. by apply Z.eqb_neq; lia.
  - rewrite IH, <- Nat.iter_succ_r by lia. f_equal. lia.
Qed.

(** ** The tables

    Their entries, whichever way they are filled, are the products by [0], [1],
    ... of [k] bits each. *)
Section tables.
Context (k : nat) (h : Z) (Hh : is_u128 h).

Definition entry (n : Z) : u128 := split (poly k n h).

Lemma entry_lxor a b : xor128 (entry a) (entry b) = entry (Z.lxor a b).
Proof. unfold entry. by rewrite xor128_split, poly_lxor. Qed.

Lemma entry_bound n : is_u128 (poly k n h).
Proof. by apply gf_steps_bound; [apply is_u128_0|]. Qed.

Lemma entry_half wide i : (S i < k)%nat ->
  REDUCE1BIT wide (entry (2 ^ Z.of_nat (S i))) = entry (2 ^ Z.of_nat i).
Proof.
  intros Hi. unfold entry. rewrite REDUCE1BIT_split by apply entry_bound.
  rewrite !poly_pow2 by lia. by replace (k - 1 - i)%nat with (S (k - 1 - S i)) by lia.
Qed.

Lemma table_at_entries L n : (Z.to_nat n < length L)%nat ->
  table_at (map entry L) n = entry (nth (Z.to_nat n) L 0).
Proof.
  intros Hn. unfold table_at. rewrite (nth_indep _ _ (entry 0)) by by rewrite length_map.
  by rewrite map_nth.
Qed.

(** The filling of the table, on the numbers of its entries. *)
Fixpoint fill_row_nums (m : nat) (i j : Z) (v : Z) (L : list Z) : list Z :=
  match m with
  | O => L
  | S m' => fill_row_nums m' i (j + 1) v (<[Z.to_nat (i + j) := Z.lxor v (nth (Z.to_nat j) L 0)]> L)
  end.

Definition fill_rows_nums (rows L : list Z) : list Z :=
  fold_left (fun L i => fill_row_nums (Z.to_nat (i - 1)) i 1 (nth (Z.to_nat i) L 0) L) rows L.

Lemma fill_row_entries m : forall i j v L, (Z.to_nat j + m <= length L)%nat -> 0 <= j ->
  fill_row m i j (entry v) (map entry L) = map entry (fill_row_nums m i j v L).
Proof.
  induction m as [|m IH]; intros i j v L Hl Hj; [done|]. cbn [fill_row fill_row_nums].
  rewrite table_at_entries, entry_lxor by lia. rewrite <- list_fmap_insert.
  apply IH; [rewrite length_insert|]; lia.
Qed.

Lemma length_fill_row_nums m : forall i j v L, length (fill_row_nums m i j v L) = length L.
Proof. induction m as [|m IH]; intros i j v L; [done|]. cbn. by rewrite IH, length_insert. Qed.

Lemma fill_rows_entries rows : forall L, Forall (fun i => 0 < i /\ (Z.to_nat i < length L)%nat) rows ->
  fill_rows rows (map entry L) = map entry (fill_rows_nums rows L).
Proof.
  induction rows as [|i rows IH]; intros L HL; [done|].
  inversion_clear HL as [|? ? [Hi HiL] Hr]. unfold fill_rows, fill_rows_nums. cbn [fold_left].
  rewrite table_at_entries by done. rewrite fill_row_entries by lia.
  apply IH. eapply Forall_impl; [exact Hr|]. intros r Hx. cbn beta in *. by rewrite length_fill_row_nums.
Qed.

(** Halving from [2 ^ n] down. *)
Lemma halve_rows_entries wide n : (n < k)%nat -> forall L,
  halve_rows wide (map (fun i => 2 ^ Z.of_nat i) (rev (seq 0 n))) (entry (2 ^ Z.of_nat n)) (map entry L) =
  map entry (fold_left (fun L i => <[Z.to_nat (2 ^ Z.of_nat i) := 2 ^ Z.of_nat i]> L) (rev (seq 0 n)) L).
Proof.
  induction n as [|n IH]; intros Hn L; [done|].
  rewrite seq_S, rev_unit. unfold halve_rows in *. cbn [map fold_left Nat.add].
  rewrite entry_half by lia. rewrite <- list_fmap_insert. apply IH. lia.
Qed.
End tables.

(** The entries [0], [1], ... *)
Definition entries (k : nat) (h : Z) : list u128 := map (entry k h) (map Z.of_nat (seq 0 (2 ^ k))).

Lemma entry_top k h : (0 < k)%nat -> split h = entry k h (2 ^ Z.of_nat (k - 1)).
Proof.
  intros Hk. unfold entry. rewrite poly_pow2 by lia. by replace (k - 1 - (k - 1))%nat with 0%nat by lia.
Qed.

Lemma zero_entry k h : zero128 = entry k h 0.
Proof. unfold entry. by rewrite poly_0. Qed.

Lemma replicate_entries n k h : replicate n zero128 = map (entry k h) (replicate n 0).
Proof. rewrite (zero_entry k h). symmetry. apply fmap_replicate. Qed.

Lemma halved_table k h wide : is_u128 h -> (0 < k)%nat ->
  fill_rows (map (fun i => 2 ^ Z.of_nat i) (seq 1 (k - 1)))
    (halve_rows wide (map (fun i => 2 ^ Z.of_nat i) (rev (seq 0 (k - 1)))) (split h)
       (<[Z.to_nat (2 ^ Z.of_nat (k - 1)) := split h]> (replicate (2 ^ k) zero128))) =
  map (entry k h) (fill_rows_nums (map (fun i => 2 ^ Z.of_nat i) (seq 1 (k - 1)))
    (fold_left (fun L i => <[Z.to_nat (2 ^ Z.of_nat i) := 2 ^ Z.of_nat i]> L) (rev (seq 0 (k - 1)))
       (<[Z.to_nat (2 ^ Z.of_nat (k - 1)) := 2 ^ Z.of_nat (k - 1)]> (replicate (2 ^ k) 0)))).
Proof.
  intros Hh Hk. rewrite (replicate_entries _ k h), (entry_top k h) by done.
  rewrite <- list_fmap_insert, halve_rows_entries by (done || lia). apply fill_rows_entries.
  assert (Hlen : forall l (L : list Z), length (fold_left (fun L i => <[Z.to_nat (2 ^ Z.of_nat i) := 2 ^ Z.of_nat i]> L) l L) = length L).
  { induction l as [|i l IH]; intros L; [done|]. cbn. by rewrite IH, length_insert. }
  rewrite Hlen, length_insert, length_replicate. apply Forall_map, Forall_forall. intros i Hi.
  apply list_elem_of_In, in_seq in Hi. cbn. split; [lia|].
  apply Nat2Z.inj_lt. rewrite Z2Nat.id, Nat2Z.inj_pow by lia. apply Z.pow_lt_mono_r; lia.
Qed.

Lemma gcm_init_8bit_entries wide h : is_u128 h -> gcm_init_8bit wide (split h) = entries 8 h.
Proof. intros Hh. etransitivity; [apply (halved_table 8 h wide Hh); lia|]. unfold entries. f_equal. Qed.

Lemma gcm_init_4bit_entries small wide h : is_u128 h -> gcm_init_4bit small wide (split h) = entries 4 h.
Proof.
  intros Hh. destruct small.
  - etransitivity; [apply (halved_table 4 h wide Hh); lia|]. unfold entries. by f_equal.
  - unfold gcm_init_4bit. rewrite (entry_top 4 h) by lia. change (4 - 1)%nat with 3%nat.
    rewrite (entry_half 4 h Hh wide 2) by lia.
    rewrite (entry_half 4 h Hh wide 1), (entry_half 4 h Hh wide 0) by lia.
    rewrite (zero_entry 4 h), !entry_lxor. done.
Qed.

(** ** The multiplications, byte by byte *)

Lemma be_put_mod n : forall z, be_put n (z mod 256 ^ Z.of_nat n) = be_put n z.
Proof.
  intros z. destruct (nbytes_be_put n z) as [L1 B1], (nbytes_be_put n (z mod 256 ^ Z.of_nat n)) as [L2 B2].
  apply be_get_inj; [done|done|congruence|]. rewrite !be_get_put. apply Z.mod_mod. lia.
Qed.

Lemma store128_split z : store128 (split z) = be_put 16 z.
Proof.
  unfold store128, split. cbn [hi lo]. rewrite Z.shiftr_div_pow2 by lia.
  change (2 ^ 64) with (256 ^ Z.of_nat 8). rewrite be_put_mod.
  destruct (nbytes_be_put 8 (z / 256 ^ Z.of_nat 8)) as [L1 B1], (nbytes_be_put 8 z) as [L2 B2], (nbytes_be_put 16 z) as [L3 B3].
  apply be_get_inj; [by apply bytes_app|done|by rewrite length_app, L1, L2, L3|].
  rewrite be_get_app, L2, !be_get_put.
  change (256 ^ Z.of_nat 16) with (256 ^ Z.of_nat 8 * 256 ^ Z.of_nat 8).
  rewrite Z.rem_mul_r by lia. lia.
Qed.

Lemma split_block H : nbytes 16 H -> mk128 (be_get (take 8 H)) (be_get (drop 8 H)) = split (be_get H).
Proof.
  intros [HL HB]. unfold split. rewrite <- (take_drop 8 H) at 3 4.
  pose proof (be_get_bounds (drop 8 H) (bytes_drop _ _ HB)) as Hd.
  rewrite be_get_app. rewrite length_drop, HL in *. change (256 ^ Z.of_nat (16 - 8)) with (2 ^ 64) in *.
  f_equal.
  - rewrite Z.shiftr_div_pow2 by lia. Z.div_mod_to_equations. lia.
  - rewrite Z.add_comm, Z.mod_add by lia. by rewrite Z.mod_small.
Qed.

Lemma is_u128_be_get H : nbytes 16 H -> is_u128 (be_get H).
Proof. intros [HL HB]. pose proof (be_get_bounds H HB) as Hb. by rewrite HL in Hb. Qed.

Lemma gmult_loop_0 wide T f nhi z : gmult_loop wide T f 0 nhi z = nibble wide T z nhi.
Proof. done. Qed.

Lemma gmult_loop_S wide T f cnt nhi z :
  gmult_loop wide T f (S cnt) nhi z =
  gmult_loop wide T f cnt (Z.shiftr (f cnt) 4) (nibble wide T (nibble wide T z nhi) (Z.land (f cnt) 15)).
Proof. done. Qed.

Lemma gmult8_loop_0 wide T Xi z : gmult8_loop wide T Xi 0 z = xor128 z (table_at T (byte_at Xi 0)).
Proof. done. Qed.

Lemma gmult8_loop_S wide T Xi cnt z :
  gmult8_loop wide T Xi (S cnt) z =
  gmult8_loop wide T Xi cnt (shift_rem wide 8 rem_8bit (xor128 z (table_at T (byte_at Xi (S cnt))))).
Proof. done. Qed.

Section mult.
Context (h : Z) (Hh : is_u128 h) (wide : bool).

(** The product of a string of bytes, of any length. *)
Definition byte_poly (l : list Z) : Z := poly (8 * length l) (be_get l) h.

Lemma byte_poly_bound l : is_u128 (byte_poly l).
Proof. by apply gf_steps_bound; [apply is_u128_0|]. Qed.

Lemma byte_poly_nil : byte_poly [] = 0.
Proof. done. Qed.

Lemma byte_poly_cons b l : is_byte b -> bytes l ->
  byte_poly (b :: l) = Z.lxor (poly 8 b h) (mulxn 8 (byte_poly l)).
Proof.
  intros Hb Hl. unfold byte_poly. change (b :: l) with ([b] ++ l). rewrite be_get_app, length_app.
  change (be_get [b]) with b. change (length [b]) with 1%nat.
  replace (8 * (1 + length l))%nat with (8 + 8 * length l)%nat by lia.
  pose proof (be_get_bounds l Hl) as Hx.
  replace (256 ^ Z.of_nat (length l)) with (2 ^ Z.of_nat (8 * length l)) in *
    by (rewrite Nat2Z.inj_mul, Z.pow_mul_r by lia; done).
  set (n := (8 * length l)%nat) in *. rewrite poly_add. f_equal; [|f_equal].
  - f_equal. rewrite Z.shiftr_div_pow2 by lia. Z.div_mod_to_equations. nia.
  - apply gf_steps_ext. intros i Hi. rewrite <- lor_low by lia. rewrite Z.lor_spec.
    by rewrite Z.mul_pow2_bits_low by lia.
Qed.

Lemma byte_poly_block l : length l = 16%nat -> byte_poly l = gf_mul (be_get l) h.
Proof. intros HL. unfold byte_poly, gf_mul. rewrite HL. change (8 * 16)%nat with 128%nat. reflexivity. Qed.

Lemma table_at_entry k n : 0 <= n < 2 ^ Z.of_nat k -> table_at (entries k h) n = entry k h n.
Proof.
  intros Hn. assert (Hlt : (Z.to_nat n < 2 ^ k)%nat) by (apply Nat2Z.inj_lt; rewrite Z2Nat.id, Nat2Z.inj_pow by lia; lia).
  unfold entries. rewrite table_at_entries by (rewrite length_map, length_seq; done).
  f_equal. rewrite (nth_indep _ 0 (Z.of_nat 0)) by (rewrite length_map, length_seq; done).
  rewrite map_nth, seq_nth by done. lia.
Qed.

Lemma nibble_split v n : is_u128 v -> 0 <= n < 16 ->
  nibble wide (entries 4 h) (split v) n = split (Z.lxor (mulxn 4 v) (poly 4 n h)).
Proof.
  intros Hv Hn. unfold nibble. rewrite table_at_entry by done.
  rewrite (shift_rem_split wide 4) by (lia || done || solve_closed).
  apply xor128_split.
Qed.

Lemma byte_nibbles b : is_byte b -> 0 <= Z.land b 15 < 16 /\ 0 <= Z.shiftr b 4 < 16.
Proof.
  intros Hb. unfold is_byte in Hb. change 15 with (Z.ones 4).
  rewrite Z.land_ones, Z.shiftr_div_pow2 by lia.
  change (2 ^ 4) with 16. Z.div_mod_to_equations. lia.
Qed.

(** Two nibbles are a byte. *)
Lemma byte_split v b : is_u128 v -> is_byte b ->
  nibble wide (entries 4 h) (nibble wide (entries 4 h) (split v) (Z.land b 15)) (Z.shiftr b 4) =
  split (Z.lxor (poly 8 b h) (mulxn 8 v)).
Proof.
  intros Hv Hb. destruct (byte_nibbles b Hb) as [Hlo Hhi].
  rewrite nibble_split by done. rewrite nibble_split; [|apply lxor_bound; [lia|by apply mulxn_bound|apply entry_bound; done]|done].
  f_equal. rewrite mulxn_lxor, <- mulxn_add, (poly_add 4 4).
  rewrite (gf_steps_ext 4 b (Z.land b 15)).
  - rewrite (Z.lxor_comm (mulxn (4 + 4) v)), Z.lxor_comm. by rewrite !Z.lxor_assoc.
  - intros i Hi. change 15 with (Z.ones 4).
    by rewrite Z.land_ones, Z.mod_pow2_bits_low by lia.
Qed.

Lemma gmult_loop_split f : forall cnt l, (forall i, (i <= cnt)%nat -> is_byte (f i)) -> bytes l ->
  gmult_loop wide (entries 4 h) f cnt (Z.shiftr (f cnt) 4)
    (nibble wide (entries 4 h) (split (byte_poly l)) (Z.land (f cnt) 15)) =
  split (byte_poly (map f (seq 0 (S cnt)) ++ l)).
Proof.
  induction cnt as [|cnt IH]; intros l Hf Hl.
  - rewrite gmult_loop_0, byte_split by (apply byte_poly_bound || (apply Hf; lia)).
    by rewrite <- byte_poly_cons by ((apply Hf; lia) || done).
  - rewrite gmult_loop_S, byte_split by (apply byte_poly_bound || (apply Hf; lia)).
    rewrite <- byte_poly_cons by ((apply Hf; lia) || done).
    rewrite IH; [|intros i Hi; apply Hf; lia|apply Forall_cons; split; [apply Hf; lia|done]].
    rewrite (seq_S (S cnt)), map_app, <- app_assoc. done.
Qed.

Lemma gmult_bytes_split f : (forall i, (i < 16)%nat -> is_byte (f i)) ->
  gmult_bytes wide (entries 4 h) f = be_put 16 (gf_mul (be_get (map f (seq 0 16))) h).
Proof.
  intros Hf. unfold gmult_bytes. destruct (byte_nibbles (f 15%nat) (Hf 15%nat ltac:(lia))) as [Hlo _].
  replace (table_at _ _) with (nibble wide (entries 4 h) (split (byte_poly [])) (Z.land (f 15%nat) 15)).
  - rewrite gmult_loop_split; [|intros i Hi; apply Hf; lia|constructor].
    rewrite app_nil_r, byte_poly_block by done. apply store128_split.
  - rewrite nibble_split by (apply byte_poly_bound || done). rewrite table_at_entry by done.
    rewrite byte_poly_nil. by rewrite mulxn_0, Z.lxor_0_l.
Qed.

Lemma gmult8_loop_split Xi : (forall i, is_byte (byte_at Xi i)) -> forall cnt l, bytes l ->
  gmult8_loop wide (entries 8 h) Xi cnt (split (mulxn 8 (byte_poly l))) =
  split (byte_poly (map (byte_at Xi) (seq 0 (S cnt)) ++ l)).
Proof.
  intros HX. assert (Hb8 : forall b, is_byte b -> 0 <= b < 2 ^ Z.of_nat 8) by done.
  assert (Hz : forall v b, is_byte b ->
    xor128 (split (mulxn 8 v)) (table_at (entries 8 h) b) = split (Z.lxor (poly 8 b h) (mulxn 8 v))).
  { intros v b Hb. rewrite table_at_entry by by apply Hb8. rewrite Z.lxor_comm. apply xor128_split. }
  induction cnt as [|cnt IH]; intros l Hl; rewrite ?gmult8_loop_0, ?gmult8_loop_S;
    rewrite Hz, <- byte_poly_cons by (apply HX || done); [done|].
  rewrite (shift_rem_split wide 8) by (lia || apply byte_poly_bound || done || solve_closed).
  rewrite IH by (apply Forall_cons; split; [apply HX|done]).
  by rewrite (seq_S (S cnt)), map_app, <- app_assoc.
Qed.
End mult.

(** ** Bit by bit *)

Lemma and_mask (b : bool) z : 0 <= z < 2 ^ 64 ->
  Z.land z (if b then 2 ^ 64 - 1 else 0) = if b then z else 0.
Proof.
  intros Hz. destruct b; [|apply Z.land_0_r].
  change (2 ^ 64 - 1) with (Z.ones 64). rewrite Z.land_ones by lia. by apply Z.mod_small.
Qed.

Lemma split_halves z : is_u128 z -> 0 <= hi (split z) < 2 ^ 64 /\ 0 <= lo (split z) < 2 ^ 64.
Proof.
  unfold is_u128, split. intros Hz. cbn [hi lo]. rewrite Z.shiftr_div_pow2 by lia.
  Z.div_mod_to_equations. lia.
Qed.

Lemma gmult1_bits_split wide w X : forall k V W, Z.of_nat k <= w -> is_u128 V ->
  gmult1_bits k wide w X (split W) (split V) =
  (split (gf_steps k (Z.shiftr X (w - Z.of_nat k)) W V), split (mulxn k V)).
Proof.
  intros k. revert X. induction k as [|k IH]; intros X V W Hk HV; [done|].
  cbn [gmult1_bits gf_steps]. rewrite REDUCE1BIT_split by done.
  destruct (split_halves V HV). rewrite !and_mask by done.
  replace (xor128 (split W) _) with (split (if Z.testbit X (w - 1) then Z.lxor W V else W)).
  2:{ destruct (Z.testbit X (w - 1)); [by rewrite <- xor128_split|].
      unfold xor128. cbn [hi lo]. by rewrite !Z.lxor_0_r. }
  rewrite IH by (lia || by apply mulx_bound). rewrite <- Nat.iter_succ_r. f_equal. f_equal.
  rewrite Z.shiftr_spec by lia. replace (Z.of_nat k + (w - Z.of_nat (S k))) with (w - 1) by lia.
  apply gf_steps_ext. intros i Hi. rewrite !Z.shiftr_spec, Z.mod_pow2_bits_low, Z.shiftl_spec by lia.
  f_equal. lia.
Qed.

Lemma gmult1_words_split wide n : (0 < n)%nat -> forall k Xi V W,
  length Xi = (k * n)%nat -> bytes Xi -> is_u128 V ->
  gmult1_words k wide n Xi (split W) (split V) = split (gf_steps (8 * length Xi) (be_get Xi) W V).
Proof.
  intros Hn. induction k as [|k IH]; intros Xi V W HL HX HV; cbn [gmult1_words].
  - by destruct Xi.
  - rewrite gmult1_bits_split by (lia || done).
    assert (HLd : length (drop n Xi) = (k * n)%nat) by (rewrite length_drop; lia).
    rewrite IH; [|done|by apply bytes_drop|by apply mulxn_bound]. f_equal.
    replace (8 * length Xi)%nat with (8 * n + 8 * length (drop n Xi))%nat by lia.
    rewrite gf_steps_add.
    pose proof (be_get_bounds (drop n Xi) (bytes_drop _ _ HX)) as Hd.
    assert (EX : be_get Xi = be_get (take n Xi) * 2 ^ Z.of_nat (8 * length (drop n Xi)) + be_get (drop n Xi)).
    { rewrite <- (take_drop n Xi) at 1. rewrite be_get_app. f_equal. f_equal.
      by rewrite Nat2Z.inj_mul, Z.pow_mul_r by lia. }
    replace (256 ^ Z.of_nat (length (drop n Xi))) with (2 ^ Z.of_nat (8 * length (drop n Xi))) in Hd
      by (rewrite Nat2Z.inj_mul, Z.pow_mul_r by lia; done).
    set (m := (8 * length (drop n Xi))%nat) in *. rewrite EX.
    replace (8 * Z.of_nat n - Z.of_nat (8 * n)) with 0 by lia. rewrite Z.shiftr_0_r.
    replace (Z.shiftr _ (Z.of_nat m)) with (be_get (take n Xi))
      by (rewrite Z.shiftr_div_pow2 by lia; Z.div_mod_to_equations; nia).
    apply gf_steps_ext. intros i Hi. rewrite <- lor_low by lia.
    by rewrite Z.lor_spec, Z.mul_pow2_bits_low by lia.
Qed.

(** ** The theorems *)

Lemma map_byte_at l : map (byte_at l) (seq 0 (length l)) = l.
Proof.
  induction l as [|x l IH]; [done|]. cbn [length seq map]. f_equal.
  rewrite <- seq_shift, map_map. exact IH.
Qed.

Lemma gmult_all (small wide long64 : bool) (Xi H : list Z) :
  nbytes 16 Xi -> nbytes 16 H ->
  gcm_gmult_4bit wide Xi (gcm_init_4bit small wide (key_halves H)) = block_mul Xi H /\
  gcm_gmult_8bit wide Xi (gcm_init_8bit wide (key_halves H)) = block_mul Xi H /\
  gcm_gmult_1bit wide long64 Xi (key_halves H) = block_mul Xi H.
Proof.
  intros HX HH. unfold key_halves. rewrite split_block by done.
  pose proof (is_u128_be_get H HH) as Hh. destruct HX as [HL HB].
  assert (Hat : forall i, is_byte (byte_at Xi i)) by (intros i; by eapply byte_at_is_byte).
  assert (Hmap : map (byte_at Xi) (seq 0 16) = Xi) by (rewrite <- HL; apply map_byte_at).
  unfold block_mul. split; [|split].
  - rewrite gcm_init_4bit_entries by done. unfold gcm_gmult_4bit.
    rewrite gmult_bytes_split by done. by rewrite Hmap.
  - rewrite gcm_init_8bit_entries by done. unfold gcm_gmult_8bit.
    replace zero128 with (split (mulxn 8 (byte_poly (be_get H) []))) by done.
    rewrite gmult8_loop_split by (done || constructor).
    rewrite app_nil_r, Hmap, byte_poly_block by done. apply store128_split.
  - unfold gcm_gmult_1bit. replace zero128 with (split 0) by done.
    rewrite gmult1_words_split by (destruct long64; (done || lia)).
    rewrite HL, store128_split. unfold gf_mul. change (8 * 16)%nat with 128%nat. reflexivity.
Qed.

(** C33: every multiplication of the file, with the table of 16 entries as either
    build fills it, with the table of 256, and bit by bit with words of 64 or 32
    bits, is the multiplication of the standard. *)
Theorem gmult_is_block_mul (small wide long64 : bool) (Xi H : list Z) :
  nbytes 16 Xi -> nbytes 16 H ->
  gcm_gmult_4bit wide Xi (gcm_init_4bit small wide (key_halves H)) = block_mul Xi H /\
  gcm_gmult_8bit wide Xi (gcm_init_8bit wide (key_halves H)) = block_mul Xi H /\
  gcm_gmult_1bit wide long64 Xi (key_halves H) = block_mul Xi H.
Proof. apply gmult_all. Qed.

Lemma gmult_is_block_mul_witness :
  let H := be_put 16 0x66e94bd4ef8a2c3b884cfa59ca342b2e in
  let X := be_put 16 0x0388dace60b6a392f328c2b971b2fe78 in
  gcm_gmult_4bit true X (gcm_init_4bit true true (key_halves H)) = block_mul X H /\
  gcm_gmult_8bit true X (gcm_init_8bit true (key_halves H)) = block_mul X H /\
  gcm_gmult_1bit true false X (key_halves H) = block_mul X H.
Proof. apply (gmult_is_block_mul true true false); solve_closed. Defined.

Lemma nbytes_block_mul X H : nbytes 16 (block_mul X H).
Proof. apply nbytes_be_put. Qed.

Lemma nbytes_ghash k H : forall Y inp, nbytes 16 Y -> nbytes 16 (ghash k H Y inp).
Proof.
  induction k as [|k IH]; intros Y inp HY; [done|]. apply IH, nbytes_block_mul.
Qed.

Lemma xor_byte_at a b : length a = 16%nat -> (16 <= length b)%nat ->
  map (fun i => Z.lxor (byte_at a i) (byte_at b i)) (seq 0 16) = xor_bytes a (take 16 b).
Proof.
  intros Ha Hb.
  assert (Hl : length (xor_bytes a (take 16 b)) = 16%nat) by (rewrite length_xor_bytes, length_take; lia).
  rewrite <- (map_byte_at (xor_bytes a (take 16 b))), Hl. apply map_ext_in. intros i Hi.
  apply in_seq in Hi. unfold byte_at, xor_bytes. symmetry. apply nth_lookup_Some.
  rewrite lookup_zip_with.
  destruct (lookup_lt_is_Some_2 a i ltac:(lia)) as [x Hx].
  destruct (lookup_lt_is_Some_2 b i ltac:(lia)) as [y Hy].
  rewrite lookup_take, Hx by lia. destruct (decide (i < 16)%nat); [|lia].
  rewrite Hy. simpl. by rewrite (nth_lookup_Some _ _ _ _ Hx), (nth_lookup_Some _ _ _ _ Hy).
Qed.

Lemma ghash_loop_ghash wide H : nbytes 16 H -> forall k Y inp, nbytes 16 Y -> bytes inp ->
  (16 * k <= length inp)%nat ->
  ghash_loop k wide Y (entries 4 (be_get H)) inp = ghash k H Y inp.
Proof.
  intros HH. induction k as [|k IH]; intros Y inp HY Hinp HL; [done|]. cbn [ghash_loop ghash].
  rewrite gmult_bytes_split; [|by apply is_u128_be_get|].
  - rewrite xor_byte_at by (apply HY || lia).
    apply IH; [apply nbytes_block_mul|by apply bytes_drop|rewrite length_drop; lia].
  - intros i Hi. apply is_byte_lxor; eapply byte_at_is_byte; [exact HY|by split].
Qed.

Lemma ghash_4bit_all (small wide : bool) (Xi H inp : list Z) :
  nbytes 16 Xi -> nbytes 16 H -> bytes inp ->
  gcm_ghash_4bit wide Xi (gcm_init_4bit small wide (key_halves H)) inp =
  ghash (length inp / 16) H Xi inp.
Proof.
  intros HX HH Hinp. unfold key_halves. rewrite split_block by done.
  rewrite gcm_init_4bit_entries by by apply is_u128_be_get.
  apply ghash_loop_ghash; [done..|]. apply Nat.Div0.mul_div_le.
Qed.

(** [gcm_ghash_4bit] is [GHASH] of the standard: for every block, add it and
    multiply. *)
Theorem gcm_ghash_4bit_spec (small wide : bool) (Xi H inp : list Z) :
  nbytes 16 Xi -> nbytes 16 H -> bytes inp ->
  gcm_ghash_4bit wide Xi (gcm_init_4bit small wide (key_halves H)) inp =
  ghash (length inp / 16) H Xi inp.
Proof. apply ghash_4bit_all. Qed.

Lemma gcm_ghash_4bit_spec_witness :
  let H := be_put 16 0x66e94bd4ef8a2c3b884cfa59ca342b2e in
  let inp := map Z.of_nat (seq 0 48) in
  gcm_ghash_4bit false (replicate 16 0) (gcm_init_4bit false false (key_halves H)) inp =
  ghash (length inp / 16) H (replicate 16 0) inp.
Proof. apply (gcm_ghash_4bit_spec false false); solve_closed. Defined.
