(* ===== verification/Gcm128.v ===== *)
(** * GCM mode (openssl crypto/modes/gcm128.c)

    Counter mode with a tag: a hash of the additional data, the ciphertext and
    their lengths.  The data come in calls of any length; the context keeps what
    of the last block has not been hashed.  In the usual build that is a buffer
    [Xn] of three blocks, otherwise it is added to the state [Xi] at once. *)

From S2P Require Import Prelude Bytes Stream Ctr128 Ghash.
#[local] Open Scope Z_scope.

(** [TABLE_BITS]; 4 in the repository's modes.h. *)
Inductive table_bits := Bits8 | Bits4 | Bits1.

(** A build: [TABLE_BITS], [OPENSSL_SMALL_FOOTPRINT], [sizeof(size_t) == 8],
    [sizeof(long) == 8] and [STRICT_ALIGNMENT]. *)
Record build := mkBuild { bits : table_bits; small : bool; wide : bool; long64 : bool; strict : bool }.

(** [defined(GHASH) && !defined(OPENSSL_SMALL_FOOTPRINT)] *)
Definition has_ghash (B : build) : bool :=
  match bits B with Bits4 => negb (small B) | _ => false end.

(** [GCM128_CONTEXT]; [len.u] is [alen] and [mlen].  [H] is in host order. *)
Record gcm := mkGcm {
  Yi : list Z; EKi : list Z; EK0 : list Z; alen : Z; mlen : Z; Xi : list Z; gH : u128;
  Htable : list u128; mres : nat; ares : nat; Xn : list Z }.

Definition set_Yi (v : list Z) (c : gcm) : gcm :=
  mkGcm v (EKi c) (EK0 c) (alen c) (mlen c) (Xi c) (gH c) (Htable c) (mres c) (ares c) (Xn c).
Definition set_EKi (v : list Z) (c : gcm) : gcm :=
  mkGcm (Yi c) v (EK0 c) (alen c) (mlen c) (Xi c) (gH c) (Htable c) (mres c) (ares c) (Xn c).
Definition set_EK0 (v : list Z) (c : gcm) : gcm :=
  mkGcm (Yi c) (EKi c) v (alen c) (mlen c) (Xi c) (gH c) (Htable c) (mres c) (ares c) (Xn c).
Definition set_alen (v : Z) (c : gcm) : gcm :=
  mkGcm (Yi c) (EKi c) (EK0 c) v (mlen c) (Xi c) (gH c) (Htable c) (mres c) (ares c) (Xn c).
Definition set_mlen (v : Z) (c : gcm) : gcm :=
  mkGcm (Yi c) (EKi c) (EK0 c) (alen c) v (Xi c) (gH c) (Htable c) (mres c) (ares c) (Xn c).
Definition set_Xi (v : list Z) (c : gcm) : gcm :=
  mkGcm (Yi c) (EKi c) (EK0 c) (alen c) (mlen c) v (gH c) (Htable c) (mres c) (ares c) (Xn c).
Definition set_mres (v : nat) (c : gcm) : gcm :=
  mkGcm (Yi c) (EKi c) (EK0 c) (alen c) (mlen c) (Xi c) (gH c) (Htable c) v (ares c) (Xn c).
Definition set_ares (v : nat) (c : gcm) : gcm :=
  mkGcm (Yi c) (EKi c) (EK0 c) (alen c) (mlen c) (Xi c) (gH c) (Htable c) (mres c) v (Xn c).
Definition set_Xn (v : list Z) (c : gcm) : gcm :=
  mkGcm (Yi c) (EKi c) (EK0 c) (alen c) (mlen c) (Xi c) (gH c) (Htable c) (mres c) (ares c) v.

Definition zeros (n : nat) : list Z := replicate n 0.

(** [X[n + i] ^= data[i]] for every [i]. *)
Fixpoint xor_into (n : nat) (X data : list Z) : list Z :=
  match data with
  | [] => X
  | b :: r => xor_into (S n) (<[n := Z.lxor (byte_at X n) b]> X) r
  end.

Section gcm.
Context (B : build) (block : list Z -> list Z).

(** [GCM_MUL] and [GHASH] *)
Definition gcm_mul (X : list Z) (c : gcm) : list Z :=
  match bits B with
  | Bits8 => gcm_gmult_8bit (wide B) X (Htable c)
  | Bits4 => gcm_gmult_4bit (wide B) X (Htable c)
  | Bits1 => gcm_gmult_1bit (wide B) (long64 B) X (gH c)
  end.

Definition GCM_MUL (c : gcm) : gcm := set_Xi (gcm_mul (Xi c) c) c.

Definition GHASH (inp : list Z) (c : gcm) : gcm :=
  set_Xi (gcm_ghash_4bit (wide B) (Xi c) (Htable c) inp) c.

(** [Xi] with the bytes of [inp] added, and multiplied, [k] blocks. *)
Fixpoint mul_blocks (k : nat) (inp : list Z) (c : gcm) : gcm :=
  match k with
  | O => c
  | S k' => mul_blocks k' (drop 16 inp) (GCM_MUL (set_Xi (xor_into 0 (Xi c) (take 16 inp)) c))
  end.

(** ** Set up *)

Definition CRYPTO_gcm128_init : gcm :=
  let h := block (zeros 16) in
  let H := mk128 (be_get (take 8 h)) (be_get (drop 8 h)) in
  let T := match bits B with
           | Bits8 => gcm_init_8bit (wide B) H
           | Bits4 => gcm_init_4bit (small B) (wide B) H
           | Bits1 => replicate 16 zero128
           end in
  mkGcm (zeros 16) (zeros 16) (zeros 16) 0 0 (zeros 16) H T 0 0 (zeros 48).

Definition CRYPTO_gcm128_new (malloc_ok : bool) : option gcm :=
  if malloc_ok then Some CRYPTO_gcm128_init else None.

(** [Yi] from the nonce, and its counter; [Xi] is borrowed. *)
Definition setiv_Yi (iv : list Z) (c : gcm) : gcm * Z :=
  if (length iv =? 12)%nat then (set_Yi (iv ++ [0; 0; 0; 1]) c, 1)
  else
    let k := (length iv / 16)%nat in
    let rest := drop (16 * k) iv in
    let c := mul_blocks k iv (set_Xi (zeros 16) c) in
    let c := if (length rest =? 0)%nat then c
             else GCM_MUL (set_Xi (xor_into 0 (Xi c) rest) c) in
    let len0 := u64 (Z.shiftl (Z.of_nat (length iv)) 3) in
    let c := GCM_MUL (set_Xi (xor_into 8 (Xi c) (be_put 8 len0)) c) in
    (set_Yi (Xi c) c, get_ctr32 (Xi c)).

Definition CRYPTO_gcm128_setiv (iv : list Z) (c : gcm) : gcm :=
  let c := set_mres 0 (set_ares 0 (set_mlen 0 (set_alen 0 c))) in
  let '(c, ctr) := setiv_Yi iv c in
  let c := set_Xi (zeros 16) c in
  let c := set_EK0 (block (Yi c)) c in
  let ctr := u32 (ctr + 1) in
  set_Yi (put_ctr32 (Yi c) ctr) c.

(** ** Additional data *)

(** [while (n && len)] of [CRYPTO_gcm128_aad]. *)
Fixpoint aad_head (inp : list Z) (n : nat) (c : gcm) : list Z * nat * gcm :=
  match inp with
  | [] => ([], n, c)
  | b :: r =>
      if (n =? 0)%nat then (inp, n, c)
      else aad_head r ((n + 1) mod 16) (set_Xi (<[n := Z.lxor (byte_at (Xi c) n) b]> (Xi c)) c)
  end.

(** From the whole blocks on; [GHASH] for the additional data is there in the
    small build only if assembly is ([n] is zero). *)
Definition aad_body (aad : list Z) (c : gcm) : gcm :=
  let k := (length aad / 16)%nat in
  let rest := drop (16 * k) aad in
  let c := if has_ghash B then (if (k =? 0)%nat then c else GHASH (take (16 * k) aad) c)
           else mul_blocks k aad c in
  set_ares (length rest) (set_Xi (xor_into 0 (Xi c) rest) c).

Definition CRYPTO_gcm128_aad (aad : list Z) (c : gcm) : Z * gcm :=
  let len := Z.of_nat (length aad) in
  if negb (mlen c =? 0) then (-2, c)
  else
    let alen' := u64 (alen c + len) in
    if (2 ^ 61 <? alen') || (wide B && (alen' <? len)) then (-1, c)
    else
      let c := set_alen alen' c in
      let n := ares c in
      if (n =? 0)%nat then (0, aad_body aad c)
      else
        let '(rest, n, c) := aad_head aad n c in
        if (n =? 0)%nat then (0, aad_body rest (GCM_MUL c)) else (0, set_ares n c).

(** ** Encryption and decryption

    The two functions differ in what is hashed: the byte put out or the byte
    read ([dec]).  The local [ctr] is always the counter in [Yi], and the local
    [mres] is written back on every return: both are read from the context. *)

(** [( *block)(ctx->Yi.c, ctx->EKi.c, key); ++ctr; ctx->Yi.d[3] = ctr;] *)
Definition next_key (c : gcm) : gcm :=
  let c := set_EKi (block (Yi c)) c in
  set_Yi (put_ctr32 (Yi c) (u32 (get_ctr32 (Yi c) + 1))) c.

(** The limit on the length, and the end of the additional data: the context,
    and the value to return if that is all. *)
Definition crypt_begin (len : Z) (c : gcm) : gcm * option Z :=
  let mlen' := u64 (mlen c + len) in
  if (2 ^ 36 - 32 <? mlen') || (wide B && (mlen' <? len)) then (c, Some (-1))
  else
    let c := set_mlen mlen' c in
    if (ares c =? 0)%nat then (c, None)
    else if has_ghash B then
      if len =? 0 then (set_ares 0 (GCM_MUL c), Some 0)
      else (set_ares 0 (set_mres 16 (set_Xi (zeros 16) (set_Xn (blit 0 (Xi c) (Xn c)) c))), None)
    else (set_ares 0 (GCM_MUL c), None).

(** A byte to hash: [Xn[mres++] = h] or [Xi.c[n] ^= h]. *)
Definition absorb (h : Z) (n : nat) (c : gcm) : gcm :=
  if has_ghash B then set_mres (mres c + 1) (set_Xn (<[mres c := h]> (Xn c)) c)
  else set_Xi (<[n := Z.lxor (byte_at (Xi c) n) h]> (Xi c)) c.

(** [while (n && len)] *)
Fixpoint crypt_head (dec : bool) (inp : list Z) (n : nat) (c : gcm) : list Z * list Z * nat * gcm :=
  match inp with
  | [] => ([], [], n, c)
  | b :: r =>
      if (n =? 0)%nat then ([], inp, n, c)
      else
        let o := Z.lxor b (byte_at (EKi c) n) in
        let c := absorb (if dec then b else o) n c in
        let '(out, rest, n, c) := crypt_head dec r ((n + 1) mod 16) c in
        (o :: out, rest, n, c)
  end.

(** What the partial block is closed with. *)
Definition head_done (c : gcm) : gcm :=
  set_mres 0 (if has_ghash B then GHASH (take (mres c) (Xn c)) c else GCM_MUL c).

(** [while (len >= 16)] with [GHASH]: only the key stream is applied. *)
Fixpoint stream_blocks (k : nat) (inp : list Z) (c : gcm) : list Z * gcm :=
  match k with
  | O => ([], c)
  | S k' =>
      let c := next_key c in
      let o := xor_words 2 (take 16 inp) (EKi c) in
      let '(out, c) := stream_blocks k' (drop 16 inp) c in
      (o ++ out, c)
  end.

(** The blocks [k] of them, with the hash of what was read before, or of what
    was put out after. *)
Definition hashed_blocks (crypt : nat -> list Z -> gcm -> list Z * gcm) (dec : bool) (k : nat)
    (inp : list Z) (c : gcm) : list Z * gcm :=
  let c := if dec then GHASH (take (16 * k) inp) c else c in
  let '(out, c) := crypt k inp c in
  (out, if dec then c else GHASH out c).

(** [while (len >= GHASH_CHUNK)], chunks of 192 blocks. *)
Fixpoint chunk_loop (crypt : nat -> list Z -> gcm -> list Z * gcm) (dec : bool) (m : nat)
    (inp : list Z) (c : gcm) : list Z * gcm :=
  match m with
  | O => ([], c)
  | S m' =>
      let '(o, c) := hashed_blocks crypt dec 192 inp c in
      let '(out, c) := chunk_loop crypt dec m' (drop 3072 inp) c in
      (o ++ out, c)
  end.

(** The whole blocks, with [GHASH]. *)
Definition ghash_blocks (crypt : nat -> list Z -> gcm -> list Z * gcm) (dec : bool)
    (inp : list Z) (c : gcm) : list Z * gcm :=
  let c := if (16 <=? length inp)%nat && negb (mres c =? 0)%nat
           then set_mres 0 (GHASH (take (mres c) (Xn c)) c) else c in
  let m := (length inp / 3072)%nat in
  let '(o, c) := chunk_loop crypt dec m inp c in
  let inp := drop (3072 * m) inp in
  let k := (length inp / 16)%nat in
  if (k =? 0)%nat then (o, c)
  else let '(o', c) := hashed_blocks crypt dec k inp c in (o ++ o', c).

(** [while (len >= 16)] without it. *)
Fixpoint mul_crypt_blocks (dec : bool) (k : nat) (inp : list Z) (c : gcm) : list Z * gcm :=
  match k with
  | O => ([], c)
  | S k' =>
      let c := next_key c in
      let o := xor_words 2 (take 16 inp) (EKi c) in
      let h := if dec then take 16 inp else o in
      let c := GCM_MUL (set_Xi (xor_words 2 (Xi c) h) c) in
      let '(out, c) := mul_crypt_blocks dec k' (drop 16 inp) c in
      (o ++ out, c)
  end.

(** [while (len--)], from [n = 0] on. *)
Fixpoint tail_loop (dec : bool) (n : nat) (inp : list Z) (c : gcm) : list Z * gcm :=
  match inp with
  | [] => ([], c)
  | b :: r =>
      let o := Z.lxor b (byte_at (EKi c) n) in
      let '(out, c) := tail_loop dec (S n) r (absorb (if dec then b else o) n c) in
      (o :: out, c)
  end.

Definition crypt_tail (dec : bool) (inp : list Z) (c : gcm) : list Z * gcm :=
  if (length inp =? 0)%nat then ([], c)
  else
    let '(out, c) := tail_loop dec 0 inp (next_key c) in
    (out, if has_ghash B then c else set_mres (length inp) c).

(** The last loop, byte by byte. *)
Fixpoint crypt_bytes (dec : bool) (inp : list Z) (n : nat) (c : gcm) : list Z * gcm :=
  match inp with
  | [] => ([], c)
  | b :: r =>
      let c := if (n =? 0)%nat then next_key c else c in
      let o := Z.lxor b (byte_at (EKi c) n) in
      let c := absorb (if dec then b else o) n c in
      let n := ((n + 1) mod 16)%nat in
      let c := if has_ghash B then
                 if (mres c =? 48)%nat then set_mres 0 (GHASH (Xn c) c) else c
               else
                 let c := set_mres n c in if (n =? 0)%nat then GCM_MUL c else c in
      let '(out, c) := crypt_bytes dec r n c in
      (o :: out, c)
  end.

(** The partial block, the whole blocks and the rest; [bytewise] is the [break] to
    the last loop. *)
Definition crypt_parts (blocks : list Z -> gcm -> list Z * gcm) (dec bytewise : bool) (inp : list Z)
    (c : gcm) : Z * list Z * gcm :=
  let n0 := (mres c mod 16)%nat in
  let '(o1, inp, n, c) := crypt_head dec inp n0 c in
  if negb (n =? 0)%nat then (0, o1, if has_ghash B then c else set_mres n c)
  else
    let c := if (n0 =? 0)%nat then c else head_done c in
    if bytewise then let '(o2, c) := crypt_bytes dec inp 0 c in (0, o1 ++ o2, c)
    else
      let '(o2, c) := blocks inp c in
      let '(o3, c) := crypt_tail dec (drop (16 * (length inp / 16)) inp) c in
      (0, o1 ++ o2 ++ o3, c).

(** [CRYPTO_gcm128_encrypt] and [CRYPTO_gcm128_decrypt]; [misaligned] is what the
    addresses are once the partial block is done. *)
Definition gcm_crypt (dec misaligned : bool) (inp : list Z) (c : gcm) : Z * list Z * gcm :=
  match crypt_begin (Z.of_nat (length inp)) c with
  | (c, Some r) => (r, [], c)
  | (c, None) =>
      if small B then
        let '(out, c) := crypt_bytes dec inp (mres c mod 16) c in (0, out, c)
      else
        crypt_parts (fun inp c => if has_ghash B then ghash_blocks stream_blocks dec inp c
                                  else mul_crypt_blocks dec (length inp / 16) inp c)
          dec (strict B && misaligned) inp c
  end.

(** [CRYPTO_gcm128_encrypt_ctr32] and [CRYPTO_gcm128_decrypt_ctr32]: whole blocks
    go to [stream], which encrypts a number of blocks from a counter. *)
Definition ctr32_crypt (stream : list Z -> nat -> list Z -> list Z) (k : nat) (inp : list Z) (c : gcm)
  : list Z * gcm :=
  let out := stream inp k (Yi c) in
  (out, set_Yi (put_ctr32 (Yi c) (u32 (get_ctr32 (Yi c) + u32 (Z.of_nat k)))) c).

Definition ctr32_mul_blocks (stream : list Z -> nat -> list Z -> list Z) (dec : bool) (k : nat)
    (inp : list Z) (c : gcm) : list Z * gcm :=
  if (k =? 0)%nat then ([], c)
  else
    let c := if dec then mul_blocks k inp c else c in
    let '(out, c) := ctr32_crypt stream k inp c in
    (out, if dec then c else mul_blocks k out c).

Definition gcm_crypt_ctr32 (stream : list Z -> nat -> list Z -> list Z) (dec misaligned : bool)
    (inp : list Z) (c : gcm) : Z * list Z * gcm :=
  if small B then gcm_crypt dec misaligned inp c
  else
    match crypt_begin (Z.of_nat (length inp)) c with
    | (c, Some r) => (r, [], c)
    | (c, None) =>
        crypt_parts (fun inp c => if has_ghash B then ghash_blocks (ctr32_crypt stream) dec inp c
                                  else ctr32_mul_blocks stream dec (length inp / 16) inp c)
          dec false inp c
    end.

Definition CRYPTO_gcm128_encrypt := gcm_crypt false.
Definition CRYPTO_gcm128_decrypt := gcm_crypt true.
Definition CRYPTO_gcm128_encrypt_ctr32 (stream : list Z -> nat -> list Z -> list Z) :=
  gcm_crypt_ctr32 stream false.
Definition CRYPTO_gcm128_decrypt_ctr32 (stream : list Z -> nat -> list Z -> list Z) :=
  gcm_crypt_ctr32 stream true.

(** ** The tag *)

(** What is left to hash, and the lengths. *)
Definition finish_hash (c : gcm) : gcm :=
  let alen := u64 (Z.shiftl (alen c) 3) in
  let clen := u64 (Z.shiftl (mlen c) 3) in
  let bitlen := be_put 8 alen ++ be_put 8 clen in
  if has_ghash B then
    let '(m, c) :=
      if negb (mres c =? 0)%nat then
        let blocks := ((mres c + 15) / 16 * 16)%nat in
        let c := set_Xn (blit (mres c) (zeros (blocks - mres c)) (Xn c)) c in
        if (blocks =? 48)%nat then (0%nat, GHASH (take 48 (Xn c)) c) else (blocks, c)
      else (0%nat, if (ares c =? 0)%nat then c else GCM_MUL c) in
    let c := set_Xn (blit m bitlen (Xn c)) c in
    GHASH (take (m + 16) (Xn c)) c
  else
    let c := if negb (mres c =? 0)%nat || negb (ares c =? 0)%nat then GCM_MUL c else c in
    GCM_MUL (set_Xi (xor_into 0 (Xi c) bitlen) c).

Definition CRYPTO_gcm128_finish (tag : option (list Z)) (len : Z) (c : gcm) : Z * gcm :=
  let c := finish_hash c in
  let c := set_Xi (xor_words 2 (Xi c) (EK0 c)) c in
  match tag with
  | Some t => if len <=? 16 then (CRYPTO_memcmp (Z.to_nat len) 0 (Xi c) t, c) else (-1, c)
  | None => (-1, c)
  end.

Definition CRYPTO_gcm128_tag (len : Z) (c : gcm) : list Z * gcm :=
  let c := snd (CRYPTO_gcm128_finish None 0 c) in
  (take (Z.to_nat (if len <=? 16 then len else 16)) (Xi c), c).
End gcm.
