(* ===== verification/GcmHash.v ===== *)
(** * The hash of GCM in pieces

    What a context holds of the hash of a string: a state and bytes not hashed
    yet, or bytes already added to the state ([rep]).  The steps of the mode are
    steps of this relation, whatever the build. *)

From S2P Require Import Prelude Bytes Stream Ghash GhashCorrect Gcm128.
From Stdlib Require Import ZifyNat.
#[local] Open Scope Z_scope.

(** Linear arithmetic with quotients and remainders of lengths. *)
Ltac mod_lia := zify; Z.div_mod_to_equations; lia.

Lemma nbytes_zeros n : nbytes n (zeros n).
Proof.
  split; [apply length_replicate|]. apply Forall_replicate. unfold is_byte. lia.
Qed.

Lemma bytes_zeros n : bytes (zeros n).
Proof. apply nbytes_zeros. Qed.

Lemma length_zeros n : length (zeros n) = n.
Proof. apply length_replicate. Qed.

#[export] Hint Resolve bytes_zeros nbytes_zeros : core.

Lemma zeros_S n : zeros (S n) = 0 :: zeros n.
Proof. done. Qed.

Lemma xor_bytes_zeros_r l n : (length l <= n)%nat -> xor_bytes l (zeros n) = l.
Proof.
  revert n. induction l as [|x l IH]; intros [|n] Hn; simpl in *; try done; [lia|].
  unfold xor_bytes in *. simpl. f_equal; [apply Z.lxor_0_r|apply IH; lia].
Qed.

Lemma xor_bytes_zeros_l l n : (length l <= n)%nat -> xor_bytes (zeros n) l = l.
Proof. intros Hn. rewrite xor_bytes_comm. by apply xor_bytes_zeros_r. Qed.

(** ** Bytes added to the state *)

Lemma length_xor_into l : forall n X, length (xor_into n X l) = length X.
Proof. induction l as [|b l IH]; intros n X; [done|]. cbn [xor_into]. by rewrite IH, length_insert. Qed.

Lemma byte_at_xor_into l : forall n X i, (n + length l <= length X)%nat ->
  byte_at (xor_into n X l) i =
  if decide (n <= i < n + length l)%nat then Z.lxor (byte_at X i) (byte_at l (i - n)) else byte_at X i.
Proof.
  induction l as [|b l IH]; intros n X i Hl; cbn [xor_into length] in *.
  - by destruct (decide _); [lia|].
  - rewrite IH by (rewrite length_insert; lia). rewrite byte_at_insert by lia.
    destruct (Nat.eqb_spec i n) as [->|Hne].
    + rewrite decide_False by lia. rewrite decide_True by lia. by rewrite Nat.sub_diag.
    + destruct (decide (S n <= i < S n + length l)%nat).
      * rewrite decide_True by lia. by replace (i - n)%nat with (S (i - S n)) by lia.
      * by rewrite decide_False by lia.
Qed.

Lemma byte_at_ext a b : length a = length b ->
  (forall i, (i < length a)%nat -> byte_at a i = byte_at b i) -> a = b.
Proof. intros Hl Hb. eapply nth_ext; [done|exact Hb]. Qed.

Lemma byte_at_app a b i :
  byte_at (a ++ b) i = if decide (i < length a)%nat then byte_at a i else byte_at b (i - length a).
Proof.
  unfold byte_at. destruct (decide _); [by apply app_nth1|]. apply app_nth2. lia.
Qed.

Lemma byte_at_zeros n i : byte_at (zeros n) i = 0.
Proof. unfold byte_at, zeros. revert i. induction n as [|n IH]; intros [|i]; simpl; done || apply IH. Qed.

Lemma byte_at_take n l i : byte_at (take n l) i = if decide (i < n)%nat then byte_at l i else 0.
Proof.
  unfold byte_at. rewrite !nth_lookup, lookup_take. by destruct (decide _).
Qed.

Lemma byte_at_drop n l i : byte_at (drop n l) i = byte_at l (n + i).
Proof. unfold byte_at. by rewrite !nth_lookup, lookup_drop. Qed.

Lemma byte_at_ge l i : (length l <= i)%nat -> byte_at l i = 0.
Proof. apply nth_overflow. Qed.

Lemma bytes_xor_into l : forall n X, bytes X -> bytes l -> bytes (xor_into n X l).
Proof.
  induction l as [|b l IH]; intros n X HX Hl; [done|]. inversion_clear Hl as [|? ? Hb Hr].
  cbn [xor_into]. apply IH; [|done]. apply Forall_insert; [done|]. apply is_byte_lxor; [|done].
  by apply (byte_at_is_byte (length X)).
Qed.

(** The bytes added are a block with zeros around them. *)
Lemma xor_into_block n X l : length X = 16%nat -> (n + length l <= 16)%nat ->
  xor_into n X l = xor_bytes X (zeros n ++ l ++ zeros (16 - n - length l)).
Proof.
  intros HX Hl.
  assert (H16 : length (zeros n ++ l ++ zeros (16 - n - length l)) = 16%nat)
    by (rewrite !length_app, !length_zeros; lia).
  apply byte_at_ext; [rewrite length_xor_into, length_xor_bytes; lia|].
  intros i Hi. rewrite length_xor_into in Hi. rewrite byte_at_xor, byte_at_xor_into by lia.
  rewrite !byte_at_app, !byte_at_zeros, length_zeros.
  destruct (decide (n <= i < n + length l)%nat).
  - by rewrite decide_False, decide_True by lia.
  - destruct (decide (i < n)%nat); [by rewrite Z.lxor_0_r|].
    rewrite decide_False by lia. by rewrite Z.lxor_0_r.
Qed.

Lemma nbytes_xor_into n X l : nbytes 16 X -> bytes l -> nbytes 16 (xor_into n X l).
Proof. intros [HX HB] Hl. split; [by rewrite length_xor_into|by apply bytes_xor_into]. Qed.

Lemma xor_into_app a : forall n X b, xor_into n X (a ++ b) = xor_into (n + length a) (xor_into n X a) b.
Proof.
  induction a as [|x a IH]; intros n X b; cbn [app xor_into length]; [by rewrite Nat.add_0_r|].
  rewrite IH. f_equal. lia.
Qed.

(** ** The hash of a string of whole blocks *)

Section rep.
Context (H : list Z).

Definition hash (Y l : list Z) : list Z := ghash (length l / 16) H Y l.

Lemma nbytes_hash Y l : nbytes 16 Y -> nbytes 16 (hash Y l).
Proof. apply nbytes_ghash. Qed.

Lemma ghash_add k m : forall Y l, ghash (k + m) H Y l = ghash m H (ghash k H Y l) (drop (16 * k) l).
Proof.
  induction k as [|k IH]; intros Y l; [done|]. cbn [Nat.add ghash]. rewrite IH, drop_drop.
  f_equal. f_equal. lia.
Qed.

Lemma ghash_prefix k : forall Y a b, (16 * k <= length a)%nat -> ghash k H Y (a ++ b) = ghash k H Y a.
Proof.
  induction k as [|k IH]; intros Y a b Hl; [done|]. cbn [ghash].
  rewrite take_app_le, drop_app_le by lia. apply IH. rewrite length_drop. lia.
Qed.

Lemma hash_nil Y : hash Y [] = Y.
Proof. done. Qed.

Lemma hash_app Y a b : (length a mod 16 = 0)%nat -> hash Y (a ++ b) = hash (hash Y a) b.
Proof.
  intros Ha. unfold hash. rewrite length_app.
  replace ((length a + length b) / 16)%nat with (length a / 16 + length b / 16)%nat
    by (mod_lia).
  rewrite ghash_add, ghash_prefix by (mod_lia).
  replace (16 * (length a / 16))%nat with (length a) by (mod_lia).
  by rewrite drop_app_length.
Qed.

Lemma hash_block Y a : length a = 16%nat -> hash Y a = block_mul (xor_bytes Y a) H.
Proof.
  intros Ha. unfold hash. rewrite Ha. cbn [ghash Nat.div Nat.divmod fst]. rewrite take_ge by lia. done.
Qed.

(** From [Y] on, the bytes [P] lead where [S] leads from the start. *)
Record rep (Y P S : list Z) : Prop := {
  rep_state : nbytes 16 Y;
  rep_pend : bytes P;
  rep_all : bytes S;
  rep_len : (length P mod 16 = length S mod 16)%nat;
  rep_hash : forall x, bytes x -> ((length S + length x) mod 16 = 0)%nat ->
    hash Y (P ++ x) = hash (zeros 16) (S ++ x) }.

Lemma rep_start : rep (zeros 16) [] [].
Proof. split; done || constructor. Qed.

(** More bytes, not hashed yet. *)
Lemma rep_more Y P S x : rep Y P S -> bytes x -> rep Y (P ++ x) (S ++ x).
Proof.
  intros [HY HP HS Hl Hh] Hx. split; [done|by apply bytes_app..| |].
  - rewrite !length_app. mod_lia.
  - intros z Hz Hm. rewrite length_app in Hm. rewrite <- !app_assoc. apply Hh; [by apply bytes_app|].
    by rewrite length_app, Nat.add_assoc.
Qed.

(** Whole blocks hashed. *)
Lemma rep_hashed Y P Q S : rep Y (P ++ Q) S -> (length P mod 16 = 0)%nat -> rep (hash Y P) Q S.
Proof.
  intros [HY HP HS Hl Hh] Hm. apply bytes_app in HP as [HP HQ]. split; [by apply nbytes_hash|done..| |].
  - rewrite length_app in Hl. mod_lia.
  - intros x Hx Hx16. rewrite <- Hh, <- app_assoc by done. symmetry. by apply hash_app.
Qed.

Lemma rep_hashed_all Y P S : rep Y P S -> (length P mod 16 = 0)%nat -> rep (hash Y P) [] S.
Proof. intros Hr. rewrite <- (app_nil_r P) in Hr. by apply rep_hashed. Qed.

(** The first block of what follows a state. *)
Lemma hash_first Y a x : length a = 16%nat -> hash Y (a ++ x) = hash (block_mul (xor_bytes Y a) H) x.
Proof.
  intros Ha. rewrite hash_app by (rewrite Ha; done). by rewrite (hash_block Y a).
Qed.

(** Two states that differ by what is in front of the bytes to come. *)
Lemma hash_move Y1 Y2 P1 P2 x :
  length P1 = length P2 -> (0 < length P1 <= 16)%nat -> (16 <= length P1 + length x)%nat ->
  xor_bytes Y1 (P1 ++ take (16 - length P1) x) = xor_bytes Y2 (P2 ++ take (16 - length P2) x) ->
  hash Y1 (P1 ++ x) = hash Y2 (P2 ++ x).
Proof.
  intros Hl HP Hx He. set (k := (16 - length P1)%nat) in *.
  rewrite <- (take_drop k x), !app_assoc. rewrite <- Hl in He. fold k in He.
  assert (Ht : length (take k x) = k) by (rewrite length_take; lia).
  rewrite !hash_first by (rewrite length_app; lia). by rewrite He.
Qed.

(** Bytes added to the state. *)
Lemma rep_added Y r x S : rep Y (zeros r ++ x) S -> (r + length x <= 16)%nat ->
  rep (xor_into r Y x) (zeros (r + length x)) S.
Proof.
  intros Hr Hl. destruct Hr as [HY HP HS Hlen Hh].
  pose proof HP as HP2. apply bytes_app in HP2 as [_ Hx].
  destruct (decide (r + length x = 0)%nat) as [H0|H0].
  { destruct r, x; [|simpl in *; lia..]. done. }
  split; [by apply nbytes_xor_into|done|done| |].
  - rewrite length_zeros. rewrite length_app, length_zeros in Hlen. done.
  - intros z Hz Hm. rewrite <- Hh by done. rewrite length_app, length_zeros in Hlen.
    apply hash_move; rewrite ?length_app, ?length_zeros; [done|lia| |].
    + mod_lia.
    + destruct HY as [HY HYb]. rewrite xor_into_block by lia.
      assert (Ht : length (take (16 - (r + length x)) z) = (16 - (r + length x))%nat)
        by (rewrite length_take; mod_lia).
      apply byte_at_ext; rewrite !length_xor_bytes, ?length_app, ?length_xor_bytes, ?length_app, ?length_zeros, ?Ht; [lia|].
      intros i Hi.
      rewrite !byte_at_xor by (rewrite ?length_app, ?length_xor_bytes, ?length_app, ?length_zeros, ?Ht; lia).
      rewrite !byte_at_app, ?length_app, !length_zeros, !byte_at_zeros.
      destruct (decide (i < r)%nat); [rewrite !decide_True by lia; by rewrite !Z.lxor_0_r|].
      destruct (decide (i - r < length x)%nat); [rewrite !decide_True by lia|rewrite !decide_False by lia].
      * by rewrite Z.lxor_0_r.
      * rewrite Z.lxor_0_r. do 2 f_equal; lia.
Qed.

(** A block with zeros for what is missing. *)
Lemma rep_padded Y r S : rep Y (zeros r) S -> (0 < r <= 16)%nat ->
  rep (block_mul Y H) [] (S ++ zeros (16 - r)).
Proof.
  intros Hr Hl. pose proof (rep_more _ _ _ (zeros (16 - r)) Hr (bytes_zeros _)) as Hp.
  assert (E : zeros r ++ zeros (16 - r) = zeros 16) by (unfold zeros; rewrite <- replicate_add; f_equal; lia).
  rewrite E in Hp. apply rep_hashed_all in Hp; [|done].
  destruct Hr as [[HY _] _ _ _ _]. rewrite hash_block, xor_bytes_zeros_r in Hp by (done || lia). done.
Qed.

(** The state copied in front of the bytes to come. *)
Lemma rep_moved Y r S : rep Y (zeros r) S -> (0 < r <= 16)%nat ->
  rep (zeros 16) Y (S ++ zeros (16 - r)).
Proof.
  intros Hr Hl. pose proof (rep_more _ _ _ (zeros (16 - r)) Hr (bytes_zeros _)) as Hp.
  assert (E : zeros r ++ zeros (16 - r) = zeros 16) by (unfold zeros; rewrite <- replicate_add; f_equal; lia).
  rewrite E in Hp. destruct Hp as [HY HP HS Hlen Hh]. pose proof HY as [HY1 HY2].
  split; [done|done|done|rewrite HY1, <- Hlen; done|].
  intros x Hx Hm. rewrite <- Hh by done. rewrite !hash_first by done.
  by rewrite xor_bytes_zeros_l, xor_bytes_zeros_r by lia.
Qed.
End rep.
