(* ===== verification/GcmSpec.v ===== *)
(** * GCM as NIST SP 800-38D has it

    The reference of the mode: the counters, the key stream and the tag.  The
    key stream is also had byte by byte, which is how calls of any length see
    it. *)

From Stdlib Require Import ZifyNat.
From S2P Require Import Prelude Bytes Stream Ctr128 Ghash GhashCorrect Gcm128 GcmHash.
#[local] Open Scope Z_scope.

(** [inc_32] (section 6.2) *)
Definition inc32 (J : list Z) : list Z := put_ctr32 J (u32 (get_ctr32 J + 1)).

(** Zeros up to the next multiple of 16. *)
Definition pad16 (l : list Z) : list Z := l ++ zeros ((16 - length l mod 16) mod 16).

Section spec.
Context (block : list Z -> list Z).

(** [GCTR] (section 6.5), block by block. *)
Fixpoint gctr_blocks (k : nat) (icb X : list Z) : list Z :=
  match k with
  | O => []
  | S k' => xor_bytes (take 16 X) (block icb) ++ gctr_blocks k' (inc32 icb) (drop 16 X)
  end.

Definition gctr (icb X : list Z) : list Z := gctr_blocks ((length X + 15) / 16) icb X.

(** The hash subkey and the pre-counter block (section 7.1). *)
Definition hkey : list Z := block (zeros 16).

Definition J0 (iv : list Z) : list Z :=
  if (length iv =? 12)%nat then iv ++ [0; 0; 0; 1]
  else hash hkey (zeros 16) (pad16 iv ++ zeros 8 ++ be_put 8 (8 * Z.of_nat (length iv))).

(** [GCM-AE]: the ciphertext and the tag of 16 bytes. *)
Definition gcm_ciphertext (iv P : list Z) : list Z := gctr (inc32 (J0 iv)) P.

Definition gcm_tag (iv A C : list Z) : list Z :=
  gctr (J0 iv) (hash hkey (zeros 16)
    (pad16 A ++ pad16 C ++ be_put 8 (8 * Z.of_nat (length A)) ++ be_put 8 (8 * Z.of_nat (length C)))).

(** ** The key stream, byte by byte

    The counter block [k] increments after [J], and byte [o] of the stream. *)
Definition cb (J : list Z) (k : nat) : list Z := put_ctr32 J (u32 (get_ctr32 J + Z.of_nat k)).

Definition ks (J : list Z) (o : nat) : Z := byte_at (block (cb J (1 + o / 16))) (o mod 16).

Fixpoint ctr_xor (J : list Z) (o : nat) (inp : list Z) : list Z :=
  match inp with
  | [] => []
  | b :: r => Z.lxor b (ks J o) :: ctr_xor J (S o) r
  end.

Lemma get_put_ctr32 J v : nbytes 16 J -> 0 <= v < 2 ^ 32 -> get_ctr32 (put_ctr32 J v) = v.
Proof.
  intros HJ Hv. rewrite put_ctr32_eq by done. unfold get_ctr32.
  destruct HJ as [HJ _]. rewrite drop_app_length' by (rewrite length_take; lia).
  destruct (nbytes_be_put 4 v) as [Hl _]. rewrite take_ge by lia.
  rewrite be_get_put. by apply Z.mod_small.
Qed.

Lemma put_put_ctr32 J v w : nbytes 16 J -> put_ctr32 (put_ctr32 J v) w = put_ctr32 J w.
Proof.
  intros HJ. rewrite (put_ctr32_eq (put_ctr32 J v)) by by apply nbytes_put_ctr32.
  rewrite !put_ctr32_eq by done. destruct HJ as [HJ _].
  by rewrite take_app_length' by (rewrite length_take; lia).
Qed.

Context `{!BlockFn block}.

Lemma cb_0 J : nbytes 16 J -> cb J 0 = J.
Proof.
  intros HJ. unfold cb. rewrite Z.add_0_r, u32_small by by apply get_ctr32_bounds.
  rewrite put_ctr32_eq by done. unfold get_ctr32. destruct HJ as [HJ HB].
  rewrite <- (take_drop 12 J) at 3. f_equal.
  assert (Hd : length (drop 12 J) = 4%nat) by (rewrite length_drop; lia).
  rewrite take_ge by lia. destruct (nbytes_be_put 4 (be_get (drop 12 J))) as [L1 B1].
  apply be_get_inj; [done|by apply bytes_drop|congruence|]. rewrite be_get_put.
  pose proof (be_get_bounds (drop 12 J) (bytes_drop _ _ HB)) as Hb. rewrite Hd in Hb.
  by apply Z.mod_small.
Qed.

Lemma nbytes_cb J k : nbytes 16 J -> nbytes 16 (cb J k).
Proof. apply nbytes_put_ctr32. Qed.

Lemma cb_add J k n : nbytes 16 J ->
  put_ctr32 (cb J k) (u32 (get_ctr32 (cb J k) + Z.of_nat n)) = cb J (k + n).
Proof.
  intros HJ. unfold cb. rewrite put_put_ctr32, get_put_ctr32 by (done || apply u32_range).
  f_equal. rewrite u32_add_l. f_equal. lia.
Qed.

Lemma inc32_cb J k : nbytes 16 J -> inc32 (cb J k) = cb J (S k).
Proof. intros HJ. etransitivity; [apply (cb_add J k 1 HJ)|]. f_equal. lia. Qed.

Lemma length_ctr_xor J inp : forall o, length (ctr_xor J o inp) = length inp.
Proof. induction inp as [|b r IH]; intros o; [done|]. cbn. by rewrite IH. Qed.

Lemma is_byte_ks J o : nbytes 16 J -> is_byte (ks J o).
Proof. intros HJ. eapply byte_at_is_byte, block_ok, nbytes_cb, HJ. Qed.

Lemma bytes_ctr_xor J inp : nbytes 16 J -> forall o, bytes inp -> bytes (ctr_xor J o inp).
Proof.
  intros HJ. induction inp as [|b r IH]; intros o Hb; [constructor|]. inversion_clear Hb.
  constructor; [apply is_byte_lxor; [done|by apply is_byte_ks]|by apply IH].
Qed.

Lemma ctr_xor_app J a : forall o b, ctr_xor J o (a ++ b) = ctr_xor J o a ++ ctr_xor J (o + length a) b.
Proof.
  induction a as [|x a IH]; intros o b; cbn [app ctr_xor length]; [by rewrite Nat.add_0_r|].
  rewrite IH. by rewrite <- Nat.add_succ_comm.
Qed.

Lemma ctr_xor_cancel J inp : forall o, ctr_xor J o (ctr_xor J o inp) = inp.
Proof. induction inp as [|b r IH]; intros o; [done|]. cbn. by rewrite IH, lxor_cancel_r. Qed.

(** Within a block. *)
Lemma ctr_xor_block J x : nbytes 16 J -> forall o, (o mod 16 + length x <= 16)%nat ->
  ctr_xor J o x = xor_bytes x (drop (o mod 16) (block (cb J (1 + o / 16)))).
Proof.
  intros HJ. induction x as [|b x IH]; intros o Hl; [done|]. cbn [ctr_xor length] in *.
  assert (HB : length (block (cb J (1 + o / 16))) = 16%nat) by by apply block_ok, nbytes_cb.
  rewrite drop_byte_at by lia. unfold xor_bytes. cbn [zip_with]. f_equal.
  destruct x as [|y x]; [by destruct (drop _ _)|]. cbn [length] in *.
  rewrite IH by (cbn [length]; mod_lia).
  replace (S o mod 16)%nat with (S (o mod 16)) by mod_lia.
  by replace (S o / 16)%nat with (o / 16)%nat by mod_lia.
Qed.

Lemma gctr_blocks_ctr_xor J k : nbytes 16 J -> forall m X, (length X <= 16 * k)%nat ->
  gctr_blocks k (cb J (1 + m)) X = ctr_xor J (16 * m) X.
Proof.
  intros HJ. induction k as [|k IH]; intros m X HX; [destruct X; simpl in *; [done|lia]|].
  cbn [gctr_blocks]. rewrite inc32_cb by done. change (S (1 + m)) with (1 + S m)%nat.
  rewrite IH by (rewrite length_drop; lia). rewrite <- (take_drop 16 X) at 3.
  rewrite ctr_xor_app. f_equal.
  - rewrite ctr_xor_block by (done || rewrite length_take; mod_lia).
    replace ((16 * m) mod 16)%nat with 0%nat by mod_lia.
    by replace (16 * m / 16)%nat with m by mod_lia.
  - rewrite length_take. destruct (decide (16 <= length X)%nat).
    + f_equal. lia.
    + by rewrite drop_ge by lia.
Qed.

Lemma gctr_ctr_xor J X : nbytes 16 J -> gctr (inc32 J) X = ctr_xor J 0 X.
Proof.
  intros HJ. unfold gctr. rewrite <- (cb_0 J) at 1 by done. rewrite inc32_cb by done.
  apply (gctr_blocks_ctr_xor J _ HJ 0). mod_lia.
Qed.

(** The tag is the hash with the first block of the stream. *)
Lemma gctr_one J X : length X = 16%nat -> gctr J X = xor_bytes X (block J).
Proof.
  intros HX. unfold gctr. rewrite HX. cbn [gctr_blocks Nat.div Nat.divmod fst Nat.add].
  rewrite take_ge by lia. by rewrite app_nil_r.
Qed.

Lemma nbytes_hkey : nbytes 16 hkey.
Proof. by apply block_ok. Qed.

Lemma nbytes_J0 iv : bytes iv -> nbytes 16 (J0 iv).
Proof.
  intros Hiv. unfold J0. destruct (Nat.eqb_spec (length iv) 12) as [E|].
  - split; [rewrite length_app, E; done|]. apply bytes_app. split; [done|solve_closed].
  - by apply nbytes_hash.
Qed.
End spec.
