(* ===== verification/GcmCorrect.v ===== *)
(** * A call of GCM is a stretch of the key stream and of the hash

    Between calls, and between the pieces of a call, the context stands for a
    position in the key stream and a string hashed so far ([data_at]); every
    piece of the code, in every build, moves both by the bytes it takes. *)

From Stdlib Require Import ZifyNat.
From S2P Require Import Prelude Bytes Stream Ctr128 Ghash GhashCorrect Gcm128 GcmHash GcmSpec.
#[local] Open Scope Z_scope.

Section correct.
Context (B : build) (block : list Z -> list Z) `{!BlockFn block}.

Notation H := (hkey block).

(** The tables are those of the key. *)
Definition keyed (c : gcm) : Prop :=
  gH c = key_halves H /\
  match bits B with
  | Bits8 => Htable c = gcm_init_8bit (wide B) (key_halves H)
  | Bits4 => Htable c = gcm_init_4bit (small B) (wide B) (key_halves H)
  | Bits1 => True
  end.

Lemma gcm_mul_ok X c : keyed c -> nbytes 16 X -> gcm_mul B X c = block_mul X H.
Proof.
  intros [Hh HT] HX. pose proof (nbytes_hkey block) as HH.
  destruct (gmult_all (small B) (wide B) (long64 B) X H HX HH) as (E4 & E8 & E1).
  unfold gcm_mul. destruct (bits B); by rewrite ?HT, ?Hh.
Qed.

Lemma has_ghash_bits : has_ghash B = true -> bits B = Bits4 /\ small B = false.
Proof. unfold has_ghash. destruct (bits B), (small B); done. Qed.

Lemma GHASH_ok inp c : has_ghash B = true -> keyed c -> nbytes 16 (Xi c) -> bytes inp ->
  GHASH B inp c = set_Xi (hash H (Xi c) inp) c.
Proof.
  intros Hg [_ HT] HX Hi. destruct (has_ghash_bits Hg) as [E1 E2]. rewrite E1 in HT.
  unfold GHASH. rewrite HT. f_equal. apply ghash_4bit_all; [done|by apply nbytes_hkey|done].
Qed.

(** ** The relation *)

Definition pend (c : gcm) : list Z := if has_ghash B then take (mres c) (Xn c) else zeros (mres c).

Record data_at (J S : list Z) (o : nat) (c : gcm) : Prop := {
  d_key : keyed c;
  d_rep : rep H (Xi c) (pend c) S;
  d_mres : (mres c < if has_ghash B then 48 else 16)%nat;
  d_Xn : nbytes 48 (Xn c);
  d_pos : (o mod 16 = length S mod 16)%nat;
  d_J : nbytes 16 J;
  d_Yi : Yi c = cb J (1 + (o + 15) / 16);
  d_EKi : (o mod 16 <> 0)%nat -> EKi c = block (cb J (1 + o / 16)) }.

(** What the pieces leave alone. *)
Definition frame (c : gcm) := (EK0 c, alen c, mlen c, ares c).

(** A piece of a call takes [x] and puts out [out]. *)
Definition moves (dec : bool) (J S : list Z) (o : nat) (c : gcm) (x out : list Z) (c' : gcm) : Prop :=
  out = ctr_xor block J o x /\
  data_at J (S ++ if dec then x else out) (o + length x) c' /\ frame c' = frame c.

Lemma moves_nil dec J S o c : data_at J S o c -> moves dec J S o c [] [] c.
Proof.
  intros Hc. split; [done|]. split; [|done]. destruct dec; by rewrite app_nil_r, Nat.add_0_r.
Qed.

Lemma moves_app dec J S o c x1 out1 c1 x2 out2 c2 :
  moves dec J S o c x1 out1 c1 ->
  moves dec J (S ++ if dec then x1 else out1) (o + length x1) c1 x2 out2 c2 ->
  moves dec J S o c (x1 ++ x2) (out1 ++ out2) c2.
Proof.
  intros (E1 & H1 & F1) (E2 & H2 & F2). split; [by rewrite ctr_xor_app, E1, E2|].
  split; [|congruence]. rewrite length_app, Nat.add_assoc. rewrite <- app_assoc in H2.
  by destruct dec.
Qed.

Lemma pend_mod J S o c : data_at J S o c -> (mres c mod 16 = o mod 16)%nat.
Proof.
  intros [_ Hr Hm [HX _] Hp _ _ _]. rewrite Hp, <- (rep_len _ _ _ _ Hr). unfold pend.
  destruct (has_ghash B); [rewrite length_take_le by lia; done|by rewrite length_zeros].
Qed.

(** ** Bytes to hash *)

Fixpoint absorbs (h : list Z) (n : nat) (c : gcm) : gcm :=
  match h with [] => c | b :: r => absorbs r (S n) (absorb B b n c) end.

Lemma absorbs_buffer h : has_ghash B = true -> forall n c,
  length (Xn c) = 48%nat -> (mres c + length h <= 48)%nat ->
  absorbs h n c = set_mres (mres c + length h) (set_Xn (blit (mres c) h (Xn c)) c).
Proof.
  intros Hg. induction h as [|b h IH]; intros n c HX Hm; cbn [absorbs length] in *.
  - rewrite Nat.add_0_r, blit_nil. by destruct c.
  - assert (Hb : length (blit (mres c) [b] (Xn c)) = 48%nat) by (rewrite length_blit; simpl; lia).
    assert (E : absorb B b n c = set_mres (mres c + 1) (set_Xn (blit (mres c) [b] (Xn c)) c)).
    { unfold absorb. rewrite Hg. do 2 f_equal. unfold blit.
      rewrite insert_take_drop by lia. f_equal. simpl. do 2 f_equal. lia. }
    rewrite E, IH by (cbn; lia). cbn [mres Xn set_mres set_Xn].
    rewrite (blit_app (mres c) [b] h) by (cbn; lia). destruct c; unfold set_mres, set_Xn; cbn. f_equal. lia.
Qed.

Lemma absorbs_added h : has_ghash B = false -> forall n c,
  absorbs h n c = set_Xi (xor_into n (Xi c) h) c.
Proof.
  intros Hg. induction h as [|b h IH]; intros n c; cbn [absorbs xor_into]; [by destruct c|].
  rewrite IH. unfold absorb. rewrite Hg. done.
Qed.

Lemma absorbs_fields h n c : let c' := absorbs h n c in
  frame c' = frame c /\ Yi c' = Yi c /\ EKi c' = EKi c /\ (keyed c -> keyed c').
Proof.
  revert n c. induction h as [|b h IH]; intros n c; cbn [absorbs]; [done|].
  destruct (IH (S n) (absorb B b n c)) as (F & Y & E & K). cbv zeta.
  assert (A : frame (absorb B b n c) = frame c /\ Yi (absorb B b n c) = Yi c /\
              EKi (absorb B b n c) = EKi c /\ (keyed c -> keyed (absorb B b n c)))
    by (unfold absorb; destruct (has_ghash B); done).
  destruct A as (F' & Y' & E' & K'). split; [congruence|]. split; [congruence|]. split; [congruence|]. auto.
Qed.

(** Within a block: its key stream is there, and the counter is past it. *)
Record open_at (J S : list Z) (o : nat) (c : gcm) : Prop := {
  o_key : keyed c;
  o_rep : rep H (Xi c) (pend c) S;
  o_mres : (mres c < if has_ghash B then 48 else 16)%nat;
  o_mod : (mres c mod 16 = o mod 16)%nat;
  o_Xn : nbytes 48 (Xn c);
  o_pos : (o mod 16 = length S mod 16)%nat;
  o_J : nbytes 16 J;
  o_Yi : Yi c = cb J (2 + o / 16);
  o_EKi : EKi c = block (cb J (1 + o / 16)) }.

Lemma open_partial J S o c : data_at J S o c -> (o mod 16 <> 0)%nat -> open_at J S o c.
Proof.
  intros Hd Ho. pose proof (pend_mod _ _ _ _ Hd). destruct Hd as [? ? ? ? ? ? HY HE]. split; try done.
  - rewrite HY. f_equal. mod_lia.
  - by apply HE.
Qed.

Lemma open_next J S o c : data_at J S o c -> (o mod 16 = 0)%nat -> open_at J S o (next_key block c).
Proof.
  intros Hd Ho. pose proof (pend_mod _ _ _ _ Hd). destruct Hd as [? ? ? ? ? ? HY HE]. split; try done.
  - unfold next_key. cbn [Yi set_Yi set_EKi]. rewrite HY. etransitivity; [by apply inc32_cb|].
    f_equal. mod_lia.
  - unfold next_key. cbn [EKi set_Yi set_EKi]. rewrite HY. do 2 f_equal. mod_lia.
Qed.

(** Bytes taken within a block move the relation. *)
Lemma absorbs_data J S o h (c : gcm) : open_at J S o c -> bytes h ->
  (o mod 16 + length h <= 16)%nat -> (mres c + length h <= if has_ghash B then 48 else 16)%nat ->
  let c' := absorbs h (o mod 16) c in
  nbytes 48 (Xn c') /\
  rep H (Xi c') (if has_ghash B then take (mres c + length h) (Xn c') else zeros (mres c + length h)) (S ++ h) /\
  mres c' = if has_ghash B then (mres c + length h)%nat else mres c.
Proof.
  intros [_ Hr Hm0 Hn [HX HXb] _ _ _ _] Hh Hl Hm. cbv zeta.
  pose proof (rep_more _ _ _ _ h Hr Hh) as Hr2. unfold pend in Hr2.
  destruct (has_ghash B) eqn:Hg.
  - rewrite absorbs_buffer by done. cbn [Xn Xi mres set_mres set_Xn].
    assert (HX' : length (blit (mres c) h (Xn c)) = 48%nat) by (rewrite length_blit; lia).
    split; [|split; [|done]].
    + split; [done|]. unfold blit. rewrite !bytes_app.
      split; [by apply bytes_take|]. split; [done|by apply bytes_drop].
    + assert (Ht : take (mres c + length h) (blit (mres c) h (Xn c)) = take (mres c) (Xn c) ++ h).
      { unfold blit. rewrite app_assoc. apply take_app_length'. rewrite length_app, length_take_le; lia. }
      by rewrite Ht.
  - rewrite absorbs_added by done. cbn [Xn Xi mres set_Xi].
    assert (En : (o mod 16 = mres c)%nat) by mod_lia. rewrite En.
    split; [done|]. split; [|done]. apply rep_added; (done || lia).
Qed.

(** ** The partial block *)

Lemma tail_loop_eq dec inp : forall n c, (n + length inp <= 16)%nat -> length (EKi c) = 16%nat ->
  tail_loop B dec n inp c =
  (xor_bytes inp (drop n (EKi c)), absorbs (if dec then inp else xor_bytes inp (drop n (EKi c))) n c).
Proof.
  induction inp as [|b r IH]; intros n c Hl HE; cbn [tail_loop length] in *; [by destruct dec|].
  assert (HE' : forall b, EKi (absorb B b n c) = EKi c) by (intros z; unfold absorb; by destruct (has_ghash B)).
  rewrite IH by (rewrite ?HE'; lia). rewrite !HE'.
  rewrite (drop_byte_at (EKi c) n) by lia. by destruct dec.
Qed.

Lemma crypt_head_eq dec inp : forall n c, (0 < n < 16)%nat -> length (EKi c) = 16%nat ->
  let x := take (16 - n) inp in
  let o := xor_bytes x (drop n (EKi c)) in
  crypt_head B dec inp n c =
  (o, drop (16 - n) inp, ((n + length x) mod 16)%nat, absorbs (if dec then x else o) n c).
Proof.
  induction inp as [|b r IH]; intros n c Hn HE; cbv zeta.
  - rewrite take_nil, drop_nil. cbn [crypt_head length]. rewrite Nat.add_0_r, Nat.mod_small by lia. by destruct dec.
  - cbn [crypt_head]. destruct (Nat.eqb_spec n 0) as [|_]; [lia|].
    assert (HE' : forall b, EKi (absorb B b n c) = EKi c) by (intros z; unfold absorb; by destruct (has_ghash B)).
    rewrite (drop_byte_at (EKi c) n) by lia.
    destruct (decide (n = 15)%nat) as [->|Hne].
    + change ((15 + 1) mod 16)%nat with 0%nat. change (16 - 15)%nat with 1%nat. cbn [take drop].
      replace (crypt_head B dec r 0 _) with ([] : list Z, r, 0%nat, absorb B (if dec then b else Z.lxor b (byte_at (EKi c) 15)) 15 c)
        by by destruct r. by destruct dec.
    + replace ((n + 1) mod 16)%nat with (S n) by (rewrite Nat.mod_small; lia).
      rewrite IH by (rewrite ?HE'; lia). rewrite !HE'.
      replace (16 - n)%nat with (S (16 - S n)) by lia. cbn [take drop length].
      rewrite Nat.add_succ_r. by destruct dec.
Qed.

(** ** Pieces

    A relation at a block boundary with nothing left to hash. *)
Lemma data_closed J S o c :
  keyed c -> rep H (Xi c) [] S -> mres c = 0%nat -> nbytes 48 (Xn c) -> (o mod 16 = 0)%nat ->
  nbytes 16 J -> Yi c = cb J (1 + o / 16) -> data_at J S o c.
Proof.
  intros Hk Hr Hm HX Ho HJ HY. split; try done.
  - unfold pend. rewrite Hm. by destruct (has_ghash B).
  - rewrite Hm. destruct (has_ghash B); lia.
  - rewrite <- (rep_len _ _ _ _ Hr). done.
  - rewrite HY. f_equal. mod_lia.
Qed.

(** All the bytes of the buffer are whole blocks. *)
Lemma head_done_ok S c : keyed c -> nbytes 48 (Xn c) ->
  rep H (Xi c) (if has_ghash B then take (mres c) (Xn c) else zeros 16) S ->
  (length S mod 16 = 0)%nat ->
  exists X, head_done B c = set_mres 0 (set_Xi X c) /\ rep H X [] S.
Proof.
  intros Hk HX Hr HS. unfold head_done. destruct (has_ghash B) eqn:Hg.
  - rewrite GHASH_ok by (done || apply Hr). eexists. split; [done|].
    apply rep_hashed_all; [done|]. by rewrite (rep_len _ _ _ _ Hr).
  - unfold GCM_MUL. rewrite gcm_mul_ok by (done || apply Hr). eexists. split; [done|].
    apply rep_padded in Hr; [|lia]. by rewrite app_nil_r in Hr.
Qed.

Lemma bytes_hashed (dec : bool) J o x : nbytes 16 J -> bytes x -> bytes (if dec then x else ctr_xor block J o x).
Proof. intros HJ Hx. destruct dec; [done|by apply bytes_ctr_xor]. Qed.

Lemma length_hashed (dec : bool) J o x : length (if dec then x else ctr_xor block J o x) = length x.
Proof. destruct dec; [done|apply length_ctr_xor]. Qed.

(** Some bytes of a block: what is left is the relation again, if the block is
    not complete, or if the buffer has room for another one. *)
Lemma absorbs_open J S o h c : open_at J S o c -> bytes h -> (0 < length h)%nat ->
  (o mod 16 + length h <= 16)%nat ->
  let n := ((o + length h) mod 16)%nat in
  let c1 := absorbs h (o mod 16) c in
  let c2 := if has_ghash B then c1 else set_mres n c1 in
  (if has_ghash B then (mres c + length h < 48)%nat else n <> 0%nat) ->
  data_at J (S ++ h) (o + length h) c2 /\ frame c2 = frame c.
Proof.
  intros Ho Hh Hpos Hl n c1 c2 Hroom.
  destruct (absorbs_data J S o h c Ho Hh Hl) as (HX & Hr & Hmr).
  { destruct Ho as [_ _ Hm1 Hm2 _ _ _ _ _]. destruct (has_ghash B); mod_lia. }
  destruct (absorbs_fields h (o mod 16) c) as (F & HY & HE & Hk). fold c1 in F, HY, HE, Hk, HX, Hr, Hmr.
  specialize (Hk (o_key _ _ _ _ Ho)). destruct Ho as [_ _ Hm1 Hm2 _ Hp HJ HYo HEo].
  unfold c2. assert (Hmn : has_ghash B = false -> (mres c + length h = n)%nat)
    by (intros Hg; rewrite Hg in *; unfold n in *; mod_lia).
  destruct (has_ghash B) eqn:Hg; (split; [split|exact F]); try done.
  - unfold pend. by rewrite Hg, Hmr.
  - by rewrite Hg, Hmr.
  - rewrite length_app. mod_lia.
  - rewrite HY, HYo. f_equal. mod_lia.
  - intros Hn. rewrite HE, HEo. do 2 f_equal. mod_lia.
  - unfold pend. rewrite Hg. cbn [mres Xi set_mres]. by rewrite <- Hmn.
  - rewrite Hg. cbn [mres set_mres]. unfold n. mod_lia.
  - rewrite length_app. mod_lia.
  - cbn [Yi set_mres]. rewrite HY, HYo. f_equal. unfold n in *. mod_lia.
  - intros Hn. cbn [EKi set_mres]. rewrite HE, HEo. do 2 f_equal. unfold n in *. mod_lia.
Qed.

(** A block completed, and all that is there hashed. *)
Lemma absorbs_close J S o h c : open_at J S o c -> bytes h -> (o mod 16 + length h = 16)%nat ->
  let c2 := head_done B (absorbs h (o mod 16) c) in
  data_at J (S ++ h) (o + length h) c2 /\ frame c2 = frame c /\ mres c2 = 0%nat.
Proof.
  intros Ho Hh Hl c2.
  destruct (absorbs_data J S o h c Ho Hh ltac:(lia)) as (HX & Hr & Hmr).
  { destruct Ho as [_ _ Hm1 Hm2 _ _ _ _ _]. destruct (has_ghash B); mod_lia. }
  destruct (absorbs_fields h (o mod 16) c) as (F & HY & HE & Hk).
  specialize (Hk (o_key _ _ _ _ Ho)). destruct Ho as [_ _ Hm1 Hm2 _ Hp HJ HYo HEo].
  destruct (head_done_ok (S ++ h) (absorbs h (o mod 16) c) Hk HX) as (X & E & HrX).
  - destruct (has_ghash B); [by rewrite Hmr|].
    replace (mres c + length h)%nat with 16%nat in Hr by mod_lia. done.
  - rewrite length_app. mod_lia.
  - unfold c2. rewrite E. split; [|done].
    apply data_closed; cbn [Xi mres Xn Yi set_mres set_Xi]; try done; [mod_lia|].
    rewrite HY, HYo. f_equal. mod_lia.
Qed.

Lemma crypt_head_ok (dec : bool) J S o c inp : data_at J S o c -> bytes inp -> (o mod 16 <> 0)%nat ->
  let x := take (16 - o mod 16) inp in
  let n := ((o + length x) mod 16)%nat in
  exists out c1,
    crypt_head B dec inp (mres c mod 16) c = (out, drop (16 - o mod 16) inp, n, c1) /\
    (n <> 0%nat -> moves dec J S o c x out (if has_ghash B then c1 else set_mres n c1)) /\
    (n = 0%nat -> moves dec J S o c x out (head_done B c1) /\ mres (head_done B c1) = 0%nat).
Proof.
  intros Hd Hi Ho x n. pose proof (open_partial _ _ _ _ Hd Ho) as Hop.
  destruct (o_J _ _ _ _ Hop) as [HJ1 HJ2]. assert (HJ : nbytes 16 J) by done.
  assert (Hx : bytes x) by by apply bytes_take.
  assert (Hlx : (length x <= 16 - o mod 16)%nat) by (unfold x; rewrite length_take; lia).
  rewrite (o_mod _ _ _ _ Hop), crypt_head_eq; [|mod_lia|rewrite (o_EKi _ _ _ _ Hop); by apply block_ok, nbytes_cb].
  fold x. rewrite (o_EKi _ _ _ _ Hop), <- ctr_xor_block by (done || mod_lia).
  set (h := if dec then x else ctr_xor block J o x) in *.
  assert (Hlh : length h = length x) by apply length_hashed.
  assert (Hh : bytes h) by by apply bytes_hashed.
  eexists (ctr_xor block J o x), (absorbs h (o mod 16) c). split; [f_equal; f_equal; unfold n; mod_lia|].
  assert (ES : S ++ h = S ++ if dec then x else ctr_xor block J o x) by done.
  split; intros Hn.
  - destruct (decide (length x = 0)%nat) as [H0|H0].
    { assert (h = []) as -> by (destruct h; [done|simpl in *; lia]). assert (x = []) as Ex by (by destruct x).
      rewrite Ex. cbn [absorbs ctr_xor]. replace (if has_ghash B then c else set_mres n c) with c; [by apply moves_nil|].
      destruct (has_ghash B) eqn:Hg; [done|]. replace n with (mres c); [by destruct c|].
      destruct Hop as [_ _ Hm1 Hm2 _ _ _ _ _]. rewrite Hg in Hm1. unfold n. rewrite H0. mod_lia. }
    destruct (absorbs_open J S o h c Hop Hh) as [HG1 HG2]; rewrite ?Hlh; [lia|lia| |].
    { pose proof (o_mres _ _ _ _ Hop). pose proof (o_mod _ _ _ _ Hop).
      destruct (has_ghash B); [unfold n in *; mod_lia|done]. }
    rewrite Hlh in *. split; [done|]. by rewrite <- ES.
  - destruct (absorbs_close J S o h c Hop Hh) as (HG1 & HG2 & HG3); [unfold n in *; mod_lia|].
    rewrite Hlh in *. split; [|done]. split; [done|]. by rewrite <- ES.
Qed.

Lemma crypt_tail_ok (dec : bool) J S o c inp : data_at J S o c -> bytes inp -> (o mod 16 = 0)%nat ->
  (length inp < 16)%nat ->
  exists out c', crypt_tail B block dec inp c = (out, c') /\ moves dec J S o c inp out c'.
Proof.
  intros Hd Hi Ho Hl. unfold crypt_tail. destruct (Nat.eqb_spec (length inp) 0) as [E|E].
  { exists [], c. split; [done|]. destruct inp; [|done]. by apply moves_nil. }
  pose proof (open_next _ _ _ _ Hd Ho) as Hop. pose proof (d_J _ _ _ _ Hd) as HJ.
  rewrite tail_loop_eq; [|lia|rewrite (o_EKi _ _ _ _ Hop); by apply block_ok, nbytes_cb].
  assert (Ex : xor_bytes inp (drop 0 (EKi (next_key block c))) = ctr_xor block J o inp).
  { rewrite (o_EKi _ _ _ _ Hop), ctr_xor_block by (done || lia). by rewrite Ho. }
  rewrite Ex. eexists _, _. split; [done|].
  set (h := if dec then inp else ctr_xor block J o inp).
  assert (Hlh : length h = length inp) by apply length_hashed.
  destruct (absorbs_open J S o h (next_key block c) Hop) as [HG1 HG2];
    [by apply bytes_hashed|lia|lia| |].
  { pose proof (o_mres _ _ _ _ Hop). pose proof (o_mod _ _ _ _ Hop). destruct (has_ghash B); mod_lia. }
  rewrite Hlh, Ho in *. replace ((o + length inp) mod 16)%nat with (length inp) in * by mod_lia.
  split; [done|]. split; [|done]. by replace (S ++ _) with (S ++ h) by by destruct dec.
Qed.

(** One turn of the byte loop. *)
Lemma crypt_byte_ok (dec : bool) J S o c b : data_at J S o c -> is_byte b ->
  let c0 := if (o mod 16 =? 0)%nat then next_key block c else c in
  let out := Z.lxor b (byte_at (EKi c0) (o mod 16)) in
  let c1 := absorb B (if dec then b else out) (o mod 16) c0 in
  let n := ((o mod 16 + 1) mod 16)%nat in
  let c2 := if has_ghash B then if (mres c1 =? 48)%nat then set_mres 0 (GHASH B (Xn c1) c1) else c1
            else if (n =? 0)%nat then GCM_MUL B (set_mres n c1) else set_mres n c1 in
  moves dec J S o c [b] [out] c2.
Proof.
  intros Hd Hb c0 out c1 n c2.
  assert (Hop : open_at J S o c0).
  { unfold c0. destruct (Nat.eqb_spec (o mod 16) 0); [by apply open_next|by apply open_partial]. }
  assert (F0 : frame c0 = frame c) by (unfold c0; by destruct (_ =? _)%nat).
  assert (Eo : [out] = ctr_xor block J o [b]) by (unfold out; rewrite (o_EKi _ _ _ _ Hop); done).
  set (h := [if dec then b else out]).
  assert (Hh : bytes h).
  { apply bytes_singleton. destruct dec; [done|]. apply is_byte_lxor; [done|].
    rewrite (o_EKi _ _ _ _ Hop). eapply byte_at_is_byte. apply block_ok, nbytes_cb. apply (o_J _ _ _ _ Hop). }
  assert (Ec1 : c1 = absorbs h (o mod 16) c0) by done.
  assert (En : n = ((o + length h) mod 16)%nat) by (unfold n; cbn [length h]; mod_lia).
  destruct (absorbs_data J S o h c0 Hop Hh) as (HX & _ & Hmr); [cbn; mod_lia| |].
  { pose proof (o_mres _ _ _ _ Hop). cbn [length h]. destruct (has_ghash B); lia. }
  rewrite <- Ec1 in *. pose proof (o_mod _ _ _ _ Hop) as Hm2. pose proof (o_mres _ _ _ _ Hop) as Hm1.
  assert (Hclose : (o mod 16 + length h = 16)%nat -> c2 = head_done B c1 -> moves dec J S o c [b] [out] c2).
  { intros Hl E. destruct (absorbs_close J S o h c0 Hop Hh Hl) as (G1 & G2 & _).
    rewrite E, Ec1. split; [done|]. split; [by destruct dec|congruence]. }
  assert (Hopen : (if has_ghash B then (mres c0 + length h < 48)%nat else n <> 0%nat) ->
                  c2 = (if has_ghash B then c1 else set_mres n c1) -> moves dec J S o c [b] [out] c2).
  { intros Hr E. rewrite En in Hr. destruct (absorbs_open J S o h c0 Hop Hh) as (G1 & G2); [cbn; lia|cbn; mod_lia|done|].
    rewrite E, Ec1, En. split; [done|]. split; [by destruct dec|congruence]. }
  unfold c2 in *. cbn [length h] in *. destruct (has_ghash B) eqn:Hg.
  - destruct (Nat.eqb_spec (mres c1) 48) as [E|E].
    + apply Hclose; [mod_lia|]. unfold head_done. rewrite Hg, E. destruct HX as [HX _]. by rewrite take_ge by lia.
    + apply Hopen; [lia|done].
  - destruct (Nat.eqb_spec n 0) as [E|E].
    + apply Hclose; [unfold n in *; mod_lia|]. unfold head_done. by rewrite Hg, E.
    + by apply Hopen.
Qed.

Lemma crypt_bytes_ok (dec : bool) J inp : forall S o c, data_at J S o c -> bytes inp ->
  exists out c', crypt_bytes B block dec inp (o mod 16) c = (out, c') /\ moves dec J S o c inp out c'.
Proof.
  induction inp as [|b r IH]; intros S o c Hd Hi; [exists [], c; split; [done|by apply moves_nil]|].
  inversion_clear Hi as [|? ? Hb Hr]. cbn [crypt_bytes]. cbv zeta.
  pose proof (crypt_byte_ok dec J S o c b Hd Hb) as Hm. cbv zeta in Hm.
  set (c0 := if (o mod 16 =? 0)%nat then next_key block c else c) in *.
  set (o1 := Z.lxor b (byte_at (EKi c0) (o mod 16))) in *.
  set (c2 := if has_ghash B then _ else _) in *.
  replace ((o mod 16 + 1) mod 16)%nat with ((o + length [b]) mod 16)%nat by (cbn [length]; mod_lia).
  destruct (IH _ _ c2 (proj1 (proj2 Hm)) Hr) as (out & c' & E & Hm2). rewrite E.
  exists (o1 :: out), c'. split; [done|]. exact (moves_app dec J S o c [b] [o1] c2 r out c' Hm Hm2).
Qed.

(** ** Whole blocks

    What applies the key stream to [k] blocks from block [m] on: the loop, or the
    routine for counters of 32 bits. *)
Class StreamFn (crypt : nat -> list Z -> gcm -> list Z * gcm) : Prop :=
  stream_ok : forall J k m inp c, nbytes 16 J -> bytes inp -> (16 * k <= length inp)%nat ->
    Yi c = cb J (1 + m) ->
    exists e, crypt k inp c =
      (ctr_xor block J (16 * m) (take (16 * k) inp), set_Yi (cb J (1 + m + k)) (set_EKi e c)).

Lemma ctr_xor_aligned J m x : nbytes 16 J -> (length x <= 16)%nat ->
  ctr_xor block J (16 * m) x = xor_bytes x (block (cb J (1 + m))).
Proof.
  intros HJ Hl. rewrite ctr_xor_block by (done || mod_lia).
  replace ((16 * m) mod 16)%nat with 0%nat by mod_lia.
  by replace (16 * m / 16)%nat with m by mod_lia.
Qed.

(** A block and the rest of the stream. *)
Lemma ctr_xor_next J m k inp : nbytes 16 J -> (16 * S k <= length inp)%nat ->
  ctr_xor block J (16 * m) (take (16 * S k) inp) =
  xor_bytes (take 16 inp) (block (cb J (1 + m))) ++ ctr_xor block J (16 * S m) (take (16 * k) (drop 16 inp)).
Proof.
  intros HJ Hl. replace (16 * S k)%nat with (16 + 16 * k)%nat in * by lia. rewrite <- take_take_drop, ctr_xor_app.
  rewrite ctr_xor_aligned by (done || rewrite length_take; lia). f_equal.
  rewrite length_take_le by lia. f_equal. lia.
Qed.

Lemma next_key_cb J m c : nbytes 16 J -> Yi c = cb J (1 + m) ->
  next_key block c = set_Yi (cb J (1 + S m)) (set_EKi (block (cb J (1 + m))) c).
Proof.
  intros HJ HY. unfold next_key. cbn [Yi set_Yi set_EKi]. rewrite HY. f_equal.
  etransitivity; [by apply inc32_cb|]. done.
Qed.

#[export] Instance stream_blocks_fn : StreamFn (stream_blocks block).
Proof.
  intros J k. induction k as [|k IH]; intros m inp c HJ Hi Hl HY.
  - exists (EKi c). cbn [stream_blocks]. f_equal. rewrite Nat.add_0_r, <- HY. by destruct c.
  - cbn [stream_blocks]. rewrite (next_key_cb J m) by done. cbn [EKi set_Yi].
    destruct (IH (S m) (drop 16 inp) (set_Yi (cb J (1 + S m)) (set_EKi (block (cb J (1 + m))) c)))
      as (e & E); [done|by apply bytes_drop|rewrite length_drop; lia|done|].
    rewrite E. exists e. rewrite ctr_xor_next by done.
    change (EKi (set_EKi ?x c)) with x. rewrite xor_words_16; [by replace (1 + m + S k)%nat with (1 + S m + k)%nat by lia| |].
    + apply (nbytes_take 16 (length inp - 16)). split; [lia|done].
    + by apply block_ok, nbytes_cb.
Qed.

Lemma ctr32_blocks_xor J k : nbytes 16 J -> forall m inp, (16 * k <= length inp)%nat ->
  ctr32_blocks block k inp (cb J (1 + m)) = ctr_xor block J (16 * m) (take (16 * k) inp).
Proof.
  intros HJ. induction k as [|k IH]; intros m inp Hl; [done|]. cbn [ctr32_blocks].
  rewrite ctr_xor_next by done. f_equal. change (put_ctr32 _ _) with (inc32 (cb J (1 + m))).
  rewrite inc32_cb by done. apply (IH (S m)). rewrite length_drop. lia.
Qed.

#[export] Instance ctr32_crypt_fn func `{!Ctr32Fn block func} : StreamFn (ctr32_crypt func).
Proof.
  intros J k m inp c HJ Hi Hl HY. exists (EKi c). unfold ctr32_crypt.
  rewrite HY, ctr32_fn by (done || by apply nbytes_cb). rewrite ctr32_blocks_xor by done. f_equal.
  rewrite u32_add_r, cb_add by done. by destruct c.
Qed.

Section ghash_build.
Context (Hg : has_ghash B = true) (crypt : nat -> list Z -> gcm -> list Z * gcm) `{!StreamFn crypt}.

Lemma hashed_blocks_ok (dec : bool) J S o c k inp : data_at J S o c -> mres c = 0%nat ->
  bytes inp -> (o mod 16 = 0)%nat -> (16 * k <= length inp)%nat ->
  exists out c', hashed_blocks B crypt dec k inp c = (out, c') /\
    moves dec J S o c (take (16 * k) inp) out c' /\ mres c' = 0%nat.
Proof.
  intros Hd Hm Hi Ho Hl. destruct Hd as [Hk Hr _ HX Hp HJ HY _].
  assert (HY' : Yi c = cb J (1 + o / 16)) by (rewrite HY; f_equal; mod_lia).
  assert (Eo : o = (16 * (o / 16))%nat) by mod_lia.
  unfold pend in Hr. rewrite Hg, Hm in Hr. cbn [take] in Hr. unfold hashed_blocks.
  set (x := take (16 * k) inp). assert (Hx : bytes x) by by apply bytes_take.
  assert (Hlx : length x = (16 * k)%nat) by (unfold x; rewrite length_take_le; lia).
  set (h := if dec then x else ctr_xor block J o x).
  assert (Hh : bytes h) by by apply bytes_hashed.
  assert (Hlh : length h = length x) by apply length_hashed.
  assert (Hr' : rep H (hash H (Xi c) h) [] (S ++ h)).
  { apply rep_hashed_all; [by apply (rep_more _ _ [])|]. rewrite Hlh. mod_lia. }
  set (c0 := if dec then GHASH B x c else c).
  assert (Ec0 : exists X, c0 = set_Xi X c /\ keyed c0 /\ (if dec then X = hash H (Xi c) h else X = Xi c)).
  { unfold c0, h. destruct dec; [rewrite GHASH_ok by (done || apply Hr); by eexists|].
    exists (Xi c). split; [by destruct c|done]. }
  destruct Ec0 as (X0 & Ec0 & Hk0 & HX0).
  destruct (stream_ok J k (o / 16) inp c0) as (e & E); [done|done|done|by rewrite Ec0|].
  rewrite E. fold x. rewrite <- Eo. rewrite Ec0 in *.
  eexists _, _. split; [done|].
  assert (Ec : exists X, (if dec then set_Yi (cb J (1 + o / 16 + k)) (set_EKi e (set_Xi X0 c))
      else GHASH B (ctr_xor block J o x) (set_Yi (cb J (1 + o / 16 + k)) (set_EKi e (set_Xi X0 c)))) =
      set_Xi X (set_Yi (cb J (1 + o / 16 + k)) (set_EKi e c)) /\ X = hash H (Xi c) h).
  { destruct dec; [by exists X0|]. rewrite GHASH_ok; [|done|done|cbn; rewrite HX0; apply Hr|by apply bytes_ctr_xor].
    eexists. split; [done|]. cbn. by rewrite HX0. }
  destruct Ec as (X & -> & ->). split; [|done]. split; [done|]. split; [|done].
  replace (S ++ _) with (S ++ h) by by destruct dec.
  apply data_closed; try done; [mod_lia|]. cbn [Yi set_Xi set_Yi]. f_equal. mod_lia.
Qed.

Lemma chunk_loop_ok (dec : bool) J m : forall S o c inp, data_at J S o c -> mres c = 0%nat ->
  bytes inp -> (o mod 16 = 0)%nat -> (3072 * m <= length inp)%nat ->
  exists out c', chunk_loop B crypt dec m inp c = (out, c') /\
    moves dec J S o c (take (3072 * m) inp) out c' /\ mres c' = 0%nat.
Proof.
  induction m as [|m IH]; intros S o c inp Hd Hm Hi Ho Hl.
  - exists [], c. split; [done|]. split; [by apply moves_nil|done].
  - cbn [chunk_loop]. destruct (hashed_blocks_ok dec J S o c 192 inp Hd Hm Hi Ho) as (o1 & c1 & E1 & M1 & Hm1); [lia|].
    rewrite E1. change (16 * 192)%nat with 3072%nat in M1.
    assert (Ht : length (take 3072 inp) = 3072%nat) by (rewrite length_take_le; lia).
    destruct (IH _ _ c1 (drop 3072 inp) (proj1 (proj2 M1)) Hm1) as (o2 & c2 & E2 & M2 & Hm2);
      [by apply bytes_drop|rewrite Ht; mod_lia|rewrite length_drop; lia|].
    rewrite E2. exists (o1 ++ o2), c2. split; [done|]. split; [|done].
    replace (3072 * Datatypes.S m)%nat with (3072 + 3072 * m)%nat by lia. rewrite <- take_take_drop.
    exact (moves_app _ _ _ _ _ _ _ _ _ _ _ M1 M2).
Qed.

(** The buffer is hashed before whole blocks are. *)
Lemma flush_ok J S o c : data_at J S o c -> (o mod 16 = 0)%nat ->
  let c' := set_mres 0 (GHASH B (take (mres c) (Xn c)) c) in
  data_at J S o c' /\ frame c' = frame c.
Proof.
  intros [Hk Hr Hm HX Hp HJ HY _] Ho c'. unfold pend in Hr. rewrite Hg in Hr. unfold c'.
  rewrite GHASH_ok by (done || apply Hr). split; [|done].
  apply data_closed; try done; cbn [Xi Yi set_mres set_Xi].
  - apply rep_hashed_all; [done|]. rewrite (rep_len _ _ _ _ Hr). lia.
  - rewrite HY. f_equal. mod_lia.
Qed.

Lemma ghash_blocks_ok (dec : bool) J S o c inp : data_at J S o c -> bytes inp -> (o mod 16 = 0)%nat ->
  exists out c', ghash_blocks B crypt dec inp c = (out, c') /\
    moves dec J S o c (take (16 * (length inp / 16)) inp) out c'.
Proof.
  intros Hd Hi Ho. unfold ghash_blocks.
  destruct (Nat.leb_spec 16 (length inp)) as [Hl|Hl]; cbn [andb].
  2:{ replace (length inp / 3072)%nat with 0%nat by mod_lia. cbn [chunk_loop]. rewrite Nat.mul_0_r, drop_0.
      replace (length inp / 16)%nat with 0%nat by mod_lia. cbn [Nat.eqb].
      exists [], c. split; [done|]. by apply moves_nil. }
  set (c0 := if negb (mres c =? 0)%nat then _ else c).
  assert (Hc0 : data_at J S o c0 /\ frame c0 = frame c /\ mres c0 = 0%nat).
  { unfold c0. destruct (Nat.eqb_spec (mres c) 0) as [E|E]; [done|].
    destruct (flush_ok J S o c Hd Ho) as [F1 F2]. done. }
  destruct Hc0 as (Hd0 & F0 & Hm0). set (m := (length inp / 3072)%nat).
  destruct (chunk_loop_ok dec J m S o c0 inp Hd0 Hm0 Hi Ho) as (o1 & c1 & E1 & M1 & Hm1); [unfold m; mod_lia|].
  rewrite E1. set (inp' := drop (3072 * m) inp). set (k := (length inp' / 16)%nat).
  assert (Hl' : length inp' = (length inp - 3072 * m)%nat) by apply length_drop.
  assert (Ex : take (16 * (length inp / 16)) inp = take (3072 * m) inp ++ take (16 * k) inp').
  { unfold inp'. rewrite take_take_drop. f_equal. unfold k. rewrite Hl'. unfold m. mod_lia. }
  assert (Mc : forall x out c', moves dec J S o c0 x out c' -> moves dec J S o c x out c').
  { intros x out c' (? & ? & ?). split; [done|]. split; [done|congruence]. }
  rewrite Ex. destruct (Nat.eqb_spec k 0) as [Ek|Ek].
  - exists o1, c1. split; [done|]. rewrite Ek, app_nil_r. by apply Mc.
  - destruct (hashed_blocks_ok dec J _ _ c1 k inp' (proj1 (proj2 M1)) Hm1) as (o2 & c2 & E2 & M2 & _);
      [by apply bytes_drop|rewrite length_take_le by (unfold m; mod_lia); mod_lia|unfold k; mod_lia|].
    rewrite E2. exists (o1 ++ o2), c2. split; [done|]. apply Mc.
    exact (moves_app _ _ _ _ _ _ _ _ _ _ _ M1 M2).
Qed.
End ghash_build.

(** Without [GHASH], block by block. *)
Lemma mul_blocks_ok k : forall inp c, keyed c -> nbytes 16 (Xi c) -> bytes inp -> (16 * k <= length inp)%nat ->
  mul_blocks B k inp c = set_Xi (hash H (Xi c) (take (16 * k) inp)) c.
Proof.
  induction k as [|k IH]; intros inp c Hk HX Hi Hl; [by destruct c|]. cbn [mul_blocks].
  pose proof (bytes_take 16 inp Hi) as Ht.
  assert (HLt : length (take 16 inp) = 16%nat) by (rewrite length_take_le; lia).
  assert (HX0 : nbytes 16 (xor_into 0 (Xi c) (take 16 inp))) by by apply nbytes_xor_into.
  assert (E : GCM_MUL B (set_Xi (xor_into 0 (Xi c) (take 16 inp)) c) =
              set_Xi (hash H (Xi c) (take 16 inp)) c).
  { unfold GCM_MUL. rewrite gcm_mul_ok by done. cbn [Xi set_Xi].
    rewrite hash_block, xor_into_block by (destruct HX; lia).
    rewrite HLt. change (16 - 0 - 16)%nat with 0%nat. cbn [zeros replicate app]. by rewrite app_nil_r. }
  rewrite E, IH; [|done|by apply nbytes_hash|by apply bytes_drop|rewrite length_drop; lia].
  cbn [Xi set_Xi]. replace (16 * S k)%nat with (16 + 16 * k)%nat by lia.
  rewrite <- take_take_drop, hash_app by by rewrite HLt. done.
Qed.

(** The state after whole blocks, in a build without [GHASH]. *)
Lemma plain_blocks_ok (dec : bool) J S o c c' x out : has_ghash B = false ->
  data_at J S o c -> bytes x -> (o mod 16 = 0)%nat -> (length x mod 16 = 0)%nat ->
  out = ctr_xor block J o x ->
  (exists e, c' = set_Xi (hash H (Xi c) (if dec then x else out))
      (set_Yi (cb J (1 + (o + length x) / 16)) (set_EKi e c))) ->
  moves dec J S o c x out c'.
Proof.
  intros Hg Hd Hx Ho Hl -> (e & ->). pose proof (pend_mod _ _ _ _ Hd) as Hm.
  destruct Hd as [Hk Hr Hm1 HX Hp HJ HY _]. unfold pend in Hr. rewrite Hg in *.
  assert (Hm0 : mres c = 0%nat) by mod_lia. rewrite Hm0 in Hr.
  set (h := if dec then x else ctr_xor block J o x).
  assert (Hlh : length h = length x) by apply length_hashed.
  split; [done|]. split; [|done]. replace (S ++ _) with (S ++ h) by by destruct dec.
  apply data_closed; try done; [|mod_lia].
  apply rep_hashed_all; [apply (rep_more _ _ []); [done|by apply bytes_hashed]|by rewrite Hlh].
Qed.

Lemma mul_crypt_blocks_eq (dec : bool) J k : nbytes 16 J -> forall m inp c,
  keyed c -> nbytes 16 (Xi c) -> bytes inp -> (16 * k <= length inp)%nat -> Yi c = cb J (1 + m) ->
  let x := take (16 * k) inp in
  let out := ctr_xor block J (16 * m) x in
  exists e, mul_crypt_blocks B block dec k inp c =
    (out, set_Xi (hash H (Xi c) (if dec then x else out)) (set_Yi (cb J (1 + m + k)) (set_EKi e c))).
Proof.
  intros HJ. induction k as [|k IH]; intros m inp c Hk HX Hi Hl HY x out.
  - exists (EKi c). unfold out, x. change (16 * 0)%nat with 0%nat.
    cbn [mul_crypt_blocks take firstn ctr_xor]. rewrite take_0, Nat.add_0_r, <- HY. destruct dec, c; done.
  - cbn [mul_crypt_blocks]. rewrite (next_key_cb J m) by done.
    assert (HLt : length (take 16 inp) = 16%nat) by (rewrite length_take_le; lia).
    assert (Hb : nbytes 16 (block (cb J (1 + m)))) by by apply block_ok, nbytes_cb.
    assert (Ht : nbytes 16 (take 16 inp)) by (split; [done|by apply bytes_take]).
    change (EKi (set_Yi ?y (set_EKi ?e c))) with e.
    rewrite (xor_words_16 (take 16 inp)) by done.
    set (o1 := xor_bytes (take 16 inp) (block (cb J (1 + m)))).
    set (h1 := if dec then take 16 inp else o1).
    assert (Hh1 : nbytes 16 h1) by (unfold h1; destruct dec; [done|by apply nbytes_xor]).
    change (Xi (set_Yi ?y (set_EKi ?x c))) with (Xi c). rewrite xor_words_16 by done.
    unfold GCM_MUL at 1. rewrite gcm_mul_ok by (done || by apply nbytes_xor). cbn [Xi set_Xi].
    rewrite <- hash_block by apply Hh1.
    destruct (IH (S m) (drop 16 inp) (set_Xi (hash H (Xi c) h1)
        (set_Xi (xor_bytes (Xi c) h1) (set_Yi (cb J (1 + S m)) (set_EKi (block (cb J (1 + m))) c))))) as (e & E);
      [done|by apply nbytes_hash|by apply bytes_drop|rewrite length_drop; lia|done|].
    rewrite E. exists e. unfold out, x. rewrite ctr_xor_next by done. fold o1. f_equal.
    replace (1 + m + S k)%nat with (1 + S m + k)%nat by lia.
    cbn [Xi set_Xi set_Yi]. rewrite <- hash_app by (destruct Hh1 as [-> _]; done).
    replace (16 * S k)%nat with (16 + 16 * k)%nat by lia. rewrite <- take_take_drop.
    unfold h1. by destruct dec.
Qed.

Lemma mul_crypt_blocks_ok (dec : bool) J S o c inp : has_ghash B = false -> data_at J S o c ->
  bytes inp -> (o mod 16 = 0)%nat ->
  exists out c', mul_crypt_blocks B block dec (length inp / 16) inp c = (out, c') /\
    moves dec J S o c (take (16 * (length inp / 16)) inp) out c'.
Proof.
  intros Hg Hd Hi Ho. pose proof Hd as [Hk Hr _ _ _ HJ HY _]. set (k := (length inp / 16)%nat).
  assert (Hl : (16 * k <= length inp)%nat) by (unfold k; mod_lia).
  destruct (mul_crypt_blocks_eq dec J k HJ (o / 16) inp c) as (e & E);
    [done|apply Hr|done|done|rewrite HY; f_equal; mod_lia|].
  rewrite E. replace (16 * (o / 16))%nat with o by mod_lia. eexists _, _. split; [done|].
  assert (Hlx : length (take (16 * k) inp) = (16 * k)%nat) by (rewrite length_take_le; lia).
  apply plain_blocks_ok; [done|done|by apply bytes_take|done|rewrite Hlx; mod_lia|done|].
  exists e. rewrite Hlx. by replace (1 + (o + 16 * k) / 16)%nat with (1 + o / 16 + k)%nat by mod_lia.
Qed.

Lemma ctr32_mul_blocks_ok func `{!Ctr32Fn block func} (dec : bool) J S o c inp :
  has_ghash B = false -> data_at J S o c -> bytes inp -> (o mod 16 = 0)%nat ->
  exists out c', ctr32_mul_blocks B func dec (length inp / 16) inp c = (out, c') /\
    moves dec J S o c (take (16 * (length inp / 16)) inp) out c'.
Proof.
  intros Hg Hd Hi Ho. pose proof Hd as [Hk Hr _ _ _ HJ HY _]. set (k := (length inp / 16)%nat).
  assert (Hl : (16 * k <= length inp)%nat) by (unfold k; mod_lia).
  assert (Hlx : length (take (16 * k) inp) = (16 * k)%nat) by (rewrite length_take_le; lia).
  unfold ctr32_mul_blocks. destruct (Nat.eqb_spec k 0) as [E0|E0].
  { rewrite E0. exists [], c. split; [done|]. by apply moves_nil. }
  assert (Es : forall X, exists e, ctr32_crypt func k inp (set_Xi X c) =
     (ctr_xor block J o (take (16 * k) inp), set_Yi (cb J (1 + (o + 16 * k) / 16)) (set_EKi e (set_Xi X c)))).
  { intros X. destruct (stream_ok (crypt := ctr32_crypt func) J k (o / 16) inp (set_Xi X c)) as (e & E); [done|done|done|cbn [Yi set_Xi]; rewrite HY; f_equal; mod_lia|].
    exists e. rewrite E. replace (16 * (o / 16))%nat with o by mod_lia.
    by replace (1 + (o + 16 * k) / 16)%nat with (1 + o / 16 + k)%nat by mod_lia. }
  assert (Hx : bytes (take (16 * k) inp)) by by apply bytes_take.
  destruct dec.
  - rewrite mul_blocks_ok by (done || apply Hr). destruct (Es (hash H (Xi c) (take (16 * k) inp))) as (e & ->).
    eexists _, _. split; [done|].
    apply plain_blocks_ok; [done|done|done|done|rewrite Hlx; mod_lia|done|]. exists e. by rewrite Hlx.
  - destruct (Es (Xi c)) as (e & E). replace (set_Xi (Xi c) c) with c in E by by destruct c. rewrite E.
    set (out := ctr_xor block J o (take (16 * k) inp)).
    assert (Hout : length out = (16 * k)%nat) by (unfold out; by rewrite length_ctr_xor).
    rewrite mul_blocks_ok; [|done|apply Hr|by apply bytes_ctr_xor|lia].
    eexists _, _. split; [done|].
    apply plain_blocks_ok; [done|done|done|done|rewrite Hlx; mod_lia|done|]. exists e.
    rewrite Hlx, take_ge by lia. done.
Qed.
End correct.
