(* ===== verification/GcmSession.v ===== *)
(** * Calls of GCM on one message

    What a context stands for between calls: additional data so far
    ([aad_at]), then a message so far ([msg_at]); what every function makes of
    it, and the tag at the end. *)

From Stdlib Require Import ZifyNat.
From S2P Require Import Prelude Bytes Stream Ctr128 Ghash GhashCorrect Gcm128 GcmHash GcmSpec GcmCorrect.
#[local] Open Scope Z_scope.

Lemma pad16_length l : (length (pad16 l) mod 16 = 0)%nat.
Proof. unfold pad16. rewrite length_app, length_zeros. mod_lia. Qed.

Lemma pad16_aligned l : (length l mod 16 = 0)%nat -> pad16 l = l.
Proof. intros Hl. unfold pad16. rewrite Hl. apply app_nil_r. Qed.

Lemma pad16_app a b : (length a mod 16 = 0)%nat -> pad16 (a ++ b) = a ++ pad16 b.
Proof.
  intros Ha. unfold pad16. rewrite length_app, <- app_assoc. do 3 f_equal. mod_lia.
Qed.

Section session.
Context (B : build) (block : list Z -> list Z) `{!BlockFn block}.

Notation H := (hkey block).
Notation keyed := (keyed B block).
Notation data_at := (data_at B block).

Definition gcm_ok (c : gcm) : Prop := keyed c /\ nbytes 48 (Xn c).

(** The additional data [S] hashed so far. *)
Record aad_base (J : list Z) (c : gcm) : Prop := {
  a_ok : gcm_ok c;
  a_J : nbytes 16 J;
  a_mres : mres c = 0%nat;
  a_mlen : mlen c = 0;
  a_EK0 : EK0 c = block J;
  a_Yi : Yi c = cb J 1 }.

Record aad_at (J S : list Z) (c : gcm) : Prop := {
  a_base : aad_base J c;
  a_rep : rep H (Xi c) (zeros (ares c)) S;
  a_ares : (ares c < 16)%nat }.

(** The additional data, padded ([S]), and the ciphertext [C]. *)
Record msg_at (J S C : list Z) (c : gcm) : Prop := {
  m_data : data_at J (S ++ C) (length C) c;
  m_S : (length S mod 16 = 0)%nat;
  m_ares : ares c = 0%nat;
  m_mlen : mlen c = Z.of_nat (length C);
  m_EK0 : EK0 c = block J }.

(** ** Padding *)

(** [if (ares) GCM_MUL(ctx)] *)
Lemma rep_pad S c : keyed c -> rep H (Xi c) (zeros (ares c)) S -> (ares c < 16)%nat ->
  ares c <> 0%nat -> rep H (Xi (GCM_MUL B c)) [] (pad16 S).
Proof.
  intros Hk Hr Ha Hne. pose proof (rep_len _ _ _ _ Hr) as Hl. rewrite length_zeros in Hl.
  unfold GCM_MUL. cbn [Xi set_Xi]. rewrite (gcm_mul_ok B block) by (done || apply Hr).
  unfold pad16. rewrite <- Hl. rewrite (Nat.mod_small (ares c)), (Nat.mod_small (16 - ares c)) by lia.
  apply rep_padded; [done|lia].
Qed.

(** The hash of whole blocks is the state. *)
Lemma rep_closed Y S : rep H Y [] S -> (length S mod 16 = 0)%nat -> Y = hash H (zeros 16) S.
Proof.
  intros Hr Hl. pose proof (rep_hash _ _ _ _ Hr [] ltac:(constructor)) as E.
  rewrite !app_nil_r in E. apply E. cbn [length]. by rewrite Nat.add_0_r.
Qed.

(** ** The start *)

Lemma init_ok : gcm_ok (CRYPTO_gcm128_init B block).
Proof.
  split; [|solve_closed]. split; [done|]. unfold CRYPTO_gcm128_init. destruct (bits B); done.
Qed.

(** The hash of bytes added block by block, the last one with zeros. *)
Lemma hash_added c l : keyed c -> rep H (Xi c) [] [] -> bytes l ->
  let k := (length l / 16)%nat in
  let rest := drop (16 * k) l in
  let c1 := mul_blocks B k l c in
  let c2 := if (length rest =? 0)%nat then c1 else GCM_MUL B (set_Xi (xor_into 0 (Xi c1) rest) c1) in
  exists X, c2 = set_Xi X c /\ rep H X [] (pad16 l).
Proof.
  intros Hk Hr Hl k rest c1 c2.
  assert (Hl16 : (16 * k <= length l)%nat) by (unfold k; mod_lia).
  assert (Er : length rest = (length l mod 16)%nat) by (unfold rest, k; rewrite length_drop; mod_lia).
  assert (Ec1 : c1 = set_Xi (hash H (Xi c) (take (16 * k) l)) c) by (apply mul_blocks_ok; [done|done|apply Hr|done|done]).
  assert (Hr1 : rep H (Xi c1) [] (take (16 * k) l)).
  { rewrite Ec1. apply rep_hashed_all; [apply (rep_more _ _ [] []); [done|by apply bytes_take]|].
    rewrite length_take_le by done. mod_lia. }
  pose proof (rep_more _ _ _ _ rest Hr1 (bytes_drop _ _ Hl)) as Hr2. unfold rest in Hr2 at 2. rewrite take_drop in Hr2.
  unfold c2. destruct (Nat.eqb_spec (length rest) 0) as [E|E].
  - exists (Xi c1). split; [rewrite Ec1; by destruct c|].
    rewrite pad16_aligned by lia. destruct rest; [|done]. done.
  - apply (rep_added _ _ 0) in Hr2; [|lia]. cbn [Nat.add] in Hr2.
    eexists. split; [unfold GCM_MUL; rewrite Ec1; reflexivity|].
    set (c3 := set_ares (length rest) (set_Xi (xor_into 0 (Xi c1) rest) c1)).
    assert (Hk3 : keyed c3) by (unfold c3; rewrite Ec1; exact Hk).
    pose proof (rep_pad l c3 Hk3 Hr2) as Hp. cbn [ares c3 set_ares] in Hp. rewrite Er in *.
    specialize (Hp ltac:(mod_lia) E). unfold c3, GCM_MUL in Hp. rewrite Ec1 in Hp. exact Hp.
Qed.

Lemma get_ctr32_one iv : length iv = 12%nat -> get_ctr32 (iv ++ [0; 0; 0; 1]) = 1.
Proof. intros Hl. unfold get_ctr32. by rewrite drop_app_length'. Qed.

Lemma setiv_Yi_ok iv c : keyed c -> bytes iv -> Z.of_nat (length iv) < 2 ^ 61 ->
  exists X, setiv_Yi B iv c = (set_Yi (J0 block iv) (set_Xi X c), get_ctr32 (J0 block iv)).
Proof.
  intros Hk Hiv Hl. unfold setiv_Yi, J0. destruct (Nat.eqb_spec (length iv) 12) as [E|E].
  { exists (Xi c). rewrite get_ctr32_one by done. by destruct c. }
  destruct (hash_added (set_Xi (zeros 16) c) iv) as (X & EX & Hr); [done|apply rep_start|done|].
  cbv zeta in *. rewrite EX.
  assert (E8 : u64 (Z.shiftl (Z.of_nat (length iv)) 3) = 8 * Z.of_nat (length iv)).
  { unfold u64. rewrite Z.shiftl_mul_pow2, Z.mod_small by lia. lia. }
  rewrite E8. destruct (nbytes_be_put 8 (8 * Z.of_nat (length iv))) as [L8 B8].
  set (bl := be_put 8 (8 * Z.of_nat (length iv))) in *.
  unfold GCM_MUL. cbn [Xi set_Xi]. assert (HX16 : nbytes 16 X) by apply Hr.
  rewrite (gcm_mul_ok B block) by (exact Hk || by apply nbytes_xor_into).
  rewrite xor_into_block by (destruct HX16; lia). rewrite L8. change (16 - 8 - 8)%nat with 0%nat.
  change (zeros 0) with ([] : list Z). rewrite app_nil_r.
  rewrite <- hash_block by (rewrite length_app, L8; done).
  rewrite (rep_closed X (pad16 iv) Hr) by apply pad16_length. rewrite <- hash_app by apply pad16_length.
  by eexists.
Qed.

Lemma setiv_ok iv c : gcm_ok c -> bytes iv -> Z.of_nat (length iv) < 2 ^ 61 ->
  aad_at (J0 block iv) [] (CRYPTO_gcm128_setiv B block iv c) /\
  alen (CRYPTO_gcm128_setiv B block iv c) = 0.
Proof.
  intros [Hk HX] Hiv Hl. pose proof (nbytes_J0 block iv Hiv) as HJ. unfold CRYPTO_gcm128_setiv.
  destruct (setiv_Yi_ok iv (set_mres 0 (set_ares 0 (set_mlen 0 (set_alen 0 c))))) as (X & E); [done..|].
  rewrite E. split; [|done]. split; [by split|apply rep_start|cbn; lia].
Qed.

(** ** Additional data *)

Lemma aad_head_eq inp : forall n c, (0 < n < 16)%nat ->
  let x := take (16 - n) inp in
  aad_head inp n c = (drop (16 - n) inp, ((n + length x) mod 16)%nat, set_Xi (xor_into n (Xi c) x) c).
Proof.
  induction inp as [|b r IH]; intros n c Hn; cbv zeta.
  - rewrite take_nil, drop_nil. cbn [aad_head length xor_into]. rewrite Nat.add_0_r, Nat.mod_small by lia. by destruct c.
  - cbn [aad_head]. destruct (Nat.eqb_spec n 0) as [|_]; [lia|].
    destruct (decide (n = 15)%nat) as [->|Hne].
    + change ((15 + 1) mod 16)%nat with 0%nat. change (16 - 15)%nat with 1%nat. cbn [take drop]. by destruct r.
    + replace ((n + 1) mod 16)%nat with (S n) by (rewrite Nat.mod_small; lia).
      rewrite IH by lia. replace (16 - n)%nat with (S (16 - S n)) by lia. cbn [take drop length].
      by rewrite Nat.add_succ_r.
Qed.

Lemma aad_set_alen J S v c : aad_at J S c -> aad_at J S (set_alen v c).
Proof. intros [[] ? ?]. split; [by split|done..]. Qed.

Lemma aad_body_ok J S c aad : aad_base J c -> rep H (Xi c) [] S -> bytes aad ->
  aad_at J (S ++ aad) (aad_body B aad c) /\ alen (aad_body B aad c) = alen c.
Proof.
  intros Ha Hr Hb. destruct Ha as [[Hk HX] HJ Hm Hl HE HY]. unfold aad_body.
  set (k := (length aad / 16)%nat). set (rest := drop (16 * k) aad).
  assert (Hl16 : (16 * k <= length aad)%nat) by (unfold k; mod_lia).
  assert (Er : length rest = (length aad mod 16)%nat) by (unfold rest, k; rewrite length_drop; mod_lia).
  set (c1 := if has_ghash B then _ else _).
  assert (Ec1 : c1 = set_Xi (hash H (Xi c) (take (16 * k) aad)) c).
  { unfold c1. destruct (has_ghash B) eqn:Hg; [|apply (mul_blocks_ok B block); (done || apply Hr)].
    destruct (Nat.eqb_spec k 0) as [->|]; [by destruct c|].
    apply (GHASH_ok B block); [done|done|apply Hr|by apply bytes_take]. }
  assert (Hr1 : rep H (Xi c1) [] (S ++ take (16 * k) aad)).
  { rewrite Ec1. apply rep_hashed_all; [apply (rep_more _ _ [] S); [done|by apply bytes_take]|].
    rewrite length_take_le by done. mod_lia. }
  pose proof (rep_more _ _ _ _ rest Hr1 (bytes_drop _ _ Hb)) as Hr2. unfold rest in Hr2 at 2.
  rewrite <- app_assoc, take_drop in Hr2. apply (rep_added _ _ 0) in Hr2; [|mod_lia]. cbn [Nat.add] in Hr2.
  rewrite Ec1 in *. split; [|done]. split; [by split|done|]. cbn [ares set_ares]. mod_lia.
Qed.

(** [CRYPTO_gcm128_aad] within the limit. *)
Lemma aad_ok J S c aad : aad_at J S c -> bytes aad -> 0 <= alen c ->
  alen c + Z.of_nat (length aad) <= 2 ^ 61 ->
  exists c', CRYPTO_gcm128_aad B aad c = (0, c') /\ aad_at J (S ++ aad) c' /\
    alen c' = alen c + Z.of_nat (length aad).
Proof.
  intros Ha Hb H0 Hl. unfold CRYPTO_gcm128_aad. rewrite (a_mlen _ _ (a_base _ _ _ Ha)). cbn [Z.eqb negb].
  set (al := u64 (alen c + Z.of_nat (length aad))).
  assert (Eal : al = alen c + Z.of_nat (length aad)) by (apply Z.mod_small; lia).
  replace ((2 ^ 61 <? al) || (wide B && (al <? Z.of_nat (length aad)))) with false.
  2:{ destruct (Z.ltb_spec (2 ^ 61) al), (Z.ltb_spec al (Z.of_nat (length aad))); [lia..|]. by destruct (wide B). }
  pose proof (aad_set_alen J S al c Ha) as Ha'. set (c1 := set_alen al c) in *.
  pose proof (a_rep _ _ _ Ha') as Hr. pose proof (a_ares _ _ _ Ha') as Har.
  destruct (Nat.eqb_spec (ares c1) 0) as [E|E].
  { rewrite E in Hr. destruct (aad_body_ok J S c1 aad (a_base _ _ _ Ha') Hr Hb) as [G1 G2].
    eexists. split; [done|]. split; [done|]. rewrite G2. exact Eal. }
  rewrite aad_head_eq by lia. set (x := take (16 - ares c1) aad).
  assert (Hx : bytes x) by by apply bytes_take.
  assert (Hlx : (length x <= 16 - ares c1)%nat) by (unfold x; rewrite length_take; lia).
  assert (Hr2 : rep H (xor_into (ares c1) (Xi c1) x) (zeros (ares c1 + length x)) (S ++ x))
    by (apply rep_added; [by apply rep_more|lia]).
  destruct (Nat.eqb_spec ((ares c1 + length x) mod 16) 0) as [E2|E2].
  - assert (Efull : (ares c1 + length x = 16)%nat) by mod_lia. rewrite Efull in Hr2.
    set (c2 := GCM_MUL B (set_Xi (xor_into (ares c1) (Xi c1) x) c1)).
    destruct Ha' as [[[Hk HX] HJ Hm Hml HE HY] _ _].
    assert (Hr3 : rep H (Xi c2) [] (S ++ x)).
    { unfold c2, GCM_MUL. cbn [Xi set_Xi]. rewrite (gcm_mul_ok B block) by (done || apply Hr2).
      apply rep_padded in Hr2; [|lia]. by rewrite app_nil_r in Hr2. }
    destruct (aad_body_ok J (S ++ x) c2 (drop (16 - ares c1) aad)) as [G1 G2];
      [by split|done|by apply bytes_drop|].
    unfold x in G1. rewrite <- app_assoc, take_drop in G1.
    eexists. split; [done|]. split; [done|]. rewrite G2. exact Eal.
  - assert (Ex : x = aad) by (unfold x in *; rewrite length_take in *; apply take_ge; mod_lia).
    rewrite Ex in *. eexists. split; [done|]. split; [|exact Eal].
    assert (En : ((ares c1 + length aad) mod 16 = ares c1 + length aad)%nat) by mod_lia.
    destruct Ha' as [[] _ _]. split; [by split|cbn [Xi ares set_ares set_Xi]; by rewrite En|cbn; lia].
Qed.

(** ** The message

    The additional data are [A]; the message may not have started. *)
Definition started (J A C : list Z) (c : gcm) : Prop :=
  msg_at J (pad16 A) C c \/ (C = [] /\ aad_at J A c).

Lemma started_mlen J A C c : started J A C c -> mlen c = Z.of_nat (length C).
Proof. intros [[]|[-> [[] _ _]]]; done. Qed.

Lemma data_at_same J S o c c' : data_at J S o c ->
  Yi c' = Yi c -> EKi c' = EKi c -> Xi c' = Xi c -> Xn c' = Xn c -> mres c' = mres c ->
  gH c' = gH c -> Htable c' = Htable c -> data_at J S o c'.
Proof.
  intros [Hk Hr Hm HX Hp HJ HY HE] E1 E2 E3 E4 E5 E6 E7.
  split; unfold pend, keyed in *; rewrite ?E1, ?E2, ?E3, ?E4, ?E5, ?E6, ?E7 in *; done.
Qed.

(** The message starts where the additional data end. *)
Lemma msg_start J S c : aad_base J c -> rep H (Xi c) [] S -> (length S mod 16 = 0)%nat -> ares c = 0%nat ->
  msg_at J S [] c.
Proof.
  intros [[Hk HX] HJ Hm Hl HE HY] Hr HS Ha. split; [|done..]. rewrite app_nil_r.
  by apply data_closed.
Qed.

(** The additional data closed with [GCM_MUL]. *)
Lemma msg_start_mul J A c : aad_at J A c -> ares c <> 0%nat ->
  msg_at J (pad16 A) [] (set_ares 0 (GCM_MUL B c)).
Proof.
  intros [[[Hk HX] HJ Hm Hl HE HY] Hr Ha] Hne. apply msg_start; [by split| |apply pad16_length|done].
  by apply (rep_pad A c).
Qed.

(** ... or moved to the buffer. *)
Lemma msg_start_buffer J A c : has_ghash B = true -> aad_at J A c -> ares c <> 0%nat ->
  msg_at J (pad16 A) [] (set_ares 0 (set_mres 16 (set_Xi (zeros 16) (set_Xn (blit 0 (Xi c) (Xn c)) c)))).
Proof.
  intros Hg [[[Hk HX] HJ Hm Hl HE HY] Hr Ha] Hne. split; [|by apply pad16_length|done..].
  rewrite app_nil_r. pose proof Hr as [[HX1 HX2] _ _ Hlen _]. destruct HX as [HXn HXb].
  rewrite length_zeros in Hlen.
  assert (Ep : pad16 A = A ++ zeros (16 - ares c)).
  { unfold pad16. rewrite <- Hlen. rewrite (Nat.mod_small (ares c)), (Nat.mod_small (16 - ares c)) by lia. done. }
  assert (Et : take 16 (blit 0 (Xi c) (Xn c)) = Xi c)
    by (unfold blit; rewrite take_0; cbn [app]; by apply take_app_length').
  split; unfold pend; rewrite ?Hg; cbn [mres Xi Xn Yi EKi set_ares set_mres set_Xi set_Xn]; try done.
  - rewrite Et, Ep.
    apply rep_moved; [done|lia].
  - lia.
  - split; [rewrite length_blit; lia|]. unfold blit. rewrite !bytes_app.
    split; [apply bytes_take; done|]. split; [done|by apply bytes_drop].
  - by rewrite pad16_length.
Qed.

(** [crypt_begin] within the limit. *)
Lemma begin_ok J A C c len : started J A C c -> 0 <= len ->
  Z.of_nat (length C) + len <= 2 ^ 36 - 32 ->
  exists c' r, crypt_begin B len c = (c', r) /\ alen c' = alen c /\
    match r with
    | Some v => v = 0 /\ len = 0 /\ msg_at J (pad16 A) C c'
    | None => msg_at J (pad16 A) C (set_mlen (Z.of_nat (length C)) c') /\ mlen c' = Z.of_nat (length C) + len
    end.
Proof.
  intros Hs H0 Hl. unfold crypt_begin. rewrite (started_mlen _ _ _ _ Hs).
  set (ml := u64 (Z.of_nat (length C) + len)).
  assert (Eml : ml = Z.of_nat (length C) + len) by (apply Z.mod_small; lia).
  replace ((2 ^ 36 - 32 <? ml) || (wide B && (ml <? len))) with false.
  2:{ destruct (Z.ltb_spec (2 ^ 36 - 32) ml), (Z.ltb_spec ml len); [lia..|]. by destruct (wide B). }
  destruct Hs as [Hm|[-> Ha]].
  - cbn [ares set_mlen]. rewrite (m_ares _ _ _ _ Hm). cbn [Nat.eqb]. eexists _, None. split; [done|].
    split; [done|]. split; [|exact Eml]. destruct Hm as [Hd ? ? ? ?]. split; try done.
    by apply (data_at_same _ _ _ c).
  - assert (Ha' : aad_at J A (set_mlen 0 (set_mlen ml c))) by (destruct Ha as [[? ? ? ? ? ?] ? ?]; split; [by split|done..]).
    cbn [ares set_mlen]. destruct (Nat.eqb_spec (ares c) 0) as [E|E].
    + eexists _, None. split; [done|]. split; [done|]. split; [|exact Eml].
      pose proof (a_rep _ _ _ Ha') as Hr. cbn [ares Xi set_mlen] in Hr. rewrite E in Hr.
      assert (HA : (length A mod 16 = 0)%nat) by by rewrite <- (rep_len _ _ _ _ Hr).
      rewrite pad16_aligned by done. by apply msg_start; [apply (a_base _ _ _ Ha')|..].
    + destruct (has_ghash B) eqn:Hg.
      * destruct (Z.eqb_spec len 0) as [E0|E0].
        -- eexists _, (Some 0). split; [done|]. split; [done|]. split; [done|]. split; [done|].
           assert (Em : ml = 0) by (rewrite Eml, E0; done). rewrite Em in *.
           apply (msg_start_mul J A (set_mlen 0 c)); [|done].
           destruct Ha as [[? ? ? ? ? ?] ? ?]; split; [by split|done..].
        -- eexists _, None. split; [done|]. split; [done|]. split; [|exact Eml].
           exact (msg_start_buffer J A _ Hg Ha' E).
      * eexists _, None. split; [done|]. split; [done|]. split; [|exact Eml].
        exact (msg_start_mul J A _ Ha' E).
Qed.

(** ** A call *)

Notation moves := (moves B block).

(** What takes the whole blocks of a call. *)
Definition blocks_fn (dec : bool) (blocks : list Z -> gcm -> list Z * gcm) : Prop :=
  forall J S o c inp, data_at J S o c -> bytes inp -> (o mod 16 = 0)%nat ->
  exists out c', blocks inp c = (out, c') /\
    moves dec J S o c (take (16 * (length inp / 16)) inp) out c'.

Lemma crypt_parts_ok dec bytewise blocks J S o c inp : blocks_fn dec blocks ->
  data_at J S o c -> bytes inp ->
  exists out c', crypt_parts B block blocks dec bytewise inp c = (0, out, c') /\
    moves dec J S o c inp out c'.
Proof.
  intros Hbl Hd Hi. unfold crypt_parts. pose proof (pend_mod _ _ _ _ _ _ Hd) as Hm.
  assert (Hrest : forall S o c inp, data_at J S o c -> bytes inp -> (o mod 16 = 0)%nat ->
    exists out c', (if bytewise then let '(o2, c) := crypt_bytes B block dec inp 0 c in (o2, c)
      else let '(o2, c) := blocks inp c in
           let '(o3, c) := crypt_tail B block dec (drop (16 * (length inp / 16)) inp) c in (o2 ++ o3, c)) = (out, c') /\
      moves dec J S o c inp out c').
  { clear -Hbl BlockFn0. intros S o c inp Hd Hi Ho. destruct bytewise.
    - destruct (crypt_bytes_ok B block dec J inp S o c Hd Hi) as (out & c' & E & M).
      rewrite Ho in E. rewrite E. by eexists _, _.
    - destruct (Hbl J S o c inp Hd Hi Ho) as (o2 & c2 & E2 & M2). rewrite E2.
      destruct (crypt_tail_ok B block dec J _ _ c2 (drop (16 * (length inp / 16)) inp) (proj1 (proj2 M2)))
        as (o3 & c3 & E3 & M3); [by apply bytes_drop|rewrite length_take; mod_lia|rewrite length_drop; mod_lia|].
      rewrite E3. eexists _, _. split; [done|].
      rewrite <- (take_drop (16 * (length inp / 16)) inp) at 1. exact (moves_app _ _ _ _ _ _ _ _ _ _ _ _ _ M2 M3). }
  destruct (Nat.eqb_spec (mres c mod 16) 0) as [E|E].
  - rewrite E. replace (crypt_head B dec inp 0 c) with ([] : list Z, inp, 0%nat, c) by by destruct inp.
    cbn [Nat.eqb negb app]. destruct (Hrest S o c inp Hd Hi) as (out & c' & E2 & M); [lia|].
    exists out, c'. split; [|done]. destruct bytewise.
    + destruct (crypt_bytes _ _ _ _ _ _). by simplify_eq.
    + destruct (blocks inp c) as [o2 c2]. destruct (crypt_tail _ _ _ _ _). by simplify_eq.
  - destruct (crypt_head_ok B block dec J S o c inp Hd Hi) as (o1 & c1 & E1 & M1 & M2); [lia|].
    rewrite E1. set (n := ((o + length (take (16 - o mod 16) inp)) mod 16)%nat) in *.
    destruct (Nat.eqb_spec n 0) as [En|En]; cbn [negb].
    + destruct (M2 En) as [M3 _].
      destruct (Hrest _ _ _ (drop (16 - o mod 16) inp) (proj1 (proj2 M3))) as (out & c' & E2 & M4);
        [by apply bytes_drop|exact En|].
      exists (o1 ++ out), c'. split.
      * destruct bytewise.
        -- destruct (crypt_bytes _ _ _ _ _ _). by simplify_eq.
        -- destruct (blocks _ _) as [o2 c2]. destruct (crypt_tail _ _ _ _ _). by simplify_eq.
      * rewrite <- (take_drop (16 - o mod 16) inp) at 1. exact (moves_app _ _ _ _ _ _ _ _ _ _ _ _ _ M3 M4).
    + eexists _, _. split; [done|]. specialize (M1 En).
      replace inp with (take (16 - o mod 16) inp) at 1; [done|].
      apply take_ge. unfold n in En. rewrite length_take in En. mod_lia.
Qed.

Lemma plain_blocks_fn dec : blocks_fn dec (fun inp c =>
  if has_ghash B then ghash_blocks B (stream_blocks block) dec inp c
  else mul_crypt_blocks B block dec (length inp / 16) inp c).
Proof.
  intros J S o c inp Hd Hi Ho. destruct (has_ghash B) eqn:Hg.
  - apply (ghash_blocks_ok B block Hg); done || apply _.
  - by apply mul_crypt_blocks_ok.
Qed.

Lemma ctr32_blocks_fn2 func dec `{!Ctr32Fn block func} : blocks_fn dec (fun inp c =>
  if has_ghash B then ghash_blocks B (ctr32_crypt func) dec inp c
  else ctr32_mul_blocks B func dec (length inp / 16) inp c).
Proof.
  intros J S o c inp Hd Hi Ho. destruct (has_ghash B) eqn:Hg.
  - apply (ghash_blocks_ok B block Hg); done || apply _.
  - by apply ctr32_mul_blocks_ok.
Qed.

(** What a call makes of the message: [x] is the ciphertext of the call. *)
Definition call_result (dec : bool) (J A C : list Z) (c : gcm) (inp : list Z) (r : Z * list Z * gcm) : Prop :=
  let out := ctr_xor block J (length C) inp in
  exists c', r = (0, out, c') /\ alen c' = alen c /\
    started J A (C ++ if dec then inp else out) c'.

(** After [crypt_begin], whatever the rest is done by. *)
Lemma call_begin dec J A C c inp (rest : list Z -> gcm -> Z * list Z * gcm) :
  started J A C c -> bytes inp ->
  Z.of_nat (length C + length inp) <= 2 ^ 36 - 32 ->
  (forall S o c0, data_at J S o c0 -> exists out c', rest inp c0 = (0, out, c') /\ moves dec J S o c0 inp out c') ->
  call_result dec J A C c inp
    (match crypt_begin B (Z.of_nat (length inp)) c with
     | (c1, Some r) => (r, [], c1)
     | (c1, None) => rest inp c1
     end).
Proof.
  intros Hs Hi Hl Hrest.
  destruct (begin_ok J A C c (Z.of_nat (length inp)) Hs) as (c1 & r & E & Ea & Hr); [lia|lia|].
  rewrite E. destruct r as [v|].
  - destruct Hr as (-> & H0 & Hm). assert (inp = []) as -> by (destruct inp; [done|simpl in H0; lia]).
    exists c1. split; [done|]. split; [done|]. left. destruct dec; by rewrite app_nil_r.
  - destruct Hr as [Hm Hml]. destruct (Hrest (pad16 A ++ C) (length C) c1) as (out & c' & E2 & -> & Hd' & F).
    { apply (data_at_same _ _ _ _ _ (m_data _ _ _ _ Hm)); done. }
    unfold frame in F. injection F as F1 F2 F3 F4. unfold call_result. rewrite E2.
    exists c'. split; [done|]. split; [congruence|]. left. rewrite <- app_assoc in Hd'.
    destruct Hm as [_ HS Har _ HE]. cbn in Har, HE. split; [|done|congruence| |congruence].
    + rewrite length_app. replace (length (if dec then inp else ctr_xor block J (length C) inp)) with (length inp);
        [done|]. destruct dec; [done|by rewrite length_ctr_xor].
    + rewrite F3, Hml, length_app. destruct dec; rewrite ?length_ctr_xor; lia.
Qed.

Lemma gcm_crypt_ok dec mis J A C c inp : started J A C c -> bytes inp ->
  Z.of_nat (length C + length inp) <= 2 ^ 36 - 32 ->
  call_result dec J A C c inp (gcm_crypt B block dec mis inp c).
Proof.
  intros Hs Hi Hl. unfold gcm_crypt.
  apply (call_begin dec J A C c inp (fun inp c =>
    if small B then let '(out, c) := crypt_bytes B block dec inp (mres c mod 16) c in (0, out, c)
    else crypt_parts B block _ dec (strict B && mis) inp c)); [done..|].
  intros S o c0 Hd. destruct (small B).
  - rewrite (pend_mod _ _ _ _ _ _ Hd). destruct (crypt_bytes_ok B block dec J inp S o c0 Hd Hi) as (out & c' & E & M).
    rewrite E. by eexists _, _.
  - apply crypt_parts_ok; [apply plain_blocks_fn|done|done].
Qed.

Lemma gcm_crypt_ctr32_ok func `{!Ctr32Fn block func} dec mis J A C c inp : started J A C c -> bytes inp ->
  Z.of_nat (length C + length inp) <= 2 ^ 36 - 32 ->
  call_result dec J A C c inp (gcm_crypt_ctr32 B block func dec mis inp c).
Proof.
  intros Hs Hi Hl. unfold gcm_crypt_ctr32. destruct (small B) eqn:Hsm; [by apply gcm_crypt_ok|].
  apply (call_begin dec J A C c inp (crypt_parts B block _ dec false)); [done..|].
  intros S o c0 Hd. apply crypt_parts_ok; [by apply ctr32_blocks_fn2|done|done].
Qed.

(** ** The tag *)

Definition lengths (a m : Z) : list Z := be_put 8 (u64 (Z.shiftl a 3)) ++ be_put 8 (u64 (Z.shiftl m 3)).

Lemma nbytes_lengths a m : nbytes 16 (lengths a m).
Proof.
  unfold lengths. destruct (nbytes_be_put 8 (u64 (Z.shiftl a 3))) as [L1 B1], (nbytes_be_put 8 (u64 (Z.shiftl m 3))) as [L2 B2].
  split; [by rewrite length_app, L1, L2|by apply bytes_app].
Qed.

(** The lengths are the last block. *)
Lemma finish_last S c m (X Xn0 : list Z) : has_ghash B = true -> keyed c -> nbytes 48 Xn0 ->
  rep H X (take m Xn0) S -> (m <= 32)%nat -> (length S mod 16 = 0)%nat -> (m mod 16 = 0)%nat ->
  let bl := lengths (alen c) (mlen c) in
  let c1 := set_Xn (blit m bl Xn0) (set_Xi X c) in
  Xi (GHASH B (take (m + 16) (Xn c1)) c1) = hash H (zeros 16) (S ++ bl).
Proof.
  intros Hg Hk [HXl HXb] Hr Hm HS Hm16 bl c1. destruct (nbytes_lengths (alen c) (mlen c)) as [L1 B1]. fold bl in L1, B1.
  assert (Et : take (m + 16) (Xn c1) = take m Xn0 ++ bl).
  { unfold c1, blit. cbn [Xn set_Xn]. rewrite app_assoc. apply take_app_length'. rewrite length_app, length_take_le; lia. }
  assert (Hr2 : rep H X (take m Xn0 ++ bl) (S ++ bl)) by by apply rep_more.
  rewrite Et, (GHASH_ok B block) by (done || apply Hr2). cbn [Xi set_Xi c1 set_Xn].
  apply rep_closed; [|rewrite length_app, L1; mod_lia].
  apply rep_hashed_all; [done|]. rewrite length_app, L1, length_take_le by lia. mod_lia.
Qed.

(** The buffer with zeros up to a whole block. *)
Lemma finish_pad S c : has_ghash B = true -> rep H (Xi c) (take (mres c) (Xn c)) S ->
  nbytes 48 (Xn c) -> (mres c < 48)%nat ->
  let blocks := ((mres c + 15) / 16 * 16)%nat in
  let Xn' := blit (mres c) (zeros (blocks - mres c)) (Xn c) in
  nbytes 48 Xn' /\ rep H (Xi c) (take blocks Xn') (pad16 S).
Proof.
  intros Hg Hr [HXl HXb] Hm blocks Xn'.
  assert (Hbl : (mres c <= blocks <= 48)%nat) by (unfold blocks; mod_lia).
  assert (HX' : nbytes 48 Xn').
  { split; [unfold Xn'; rewrite length_blit; rewrite ?length_zeros; lia|]. unfold Xn', blit.
    rewrite !bytes_app. split; [by apply bytes_take|]. split; [done|by apply bytes_drop]. }
  split; [done|].
  assert (Et : take blocks Xn' = take (mres c) (Xn c) ++ zeros (blocks - mres c)).
  { unfold Xn', blit. rewrite app_assoc. apply take_app_length'.
    rewrite length_app, length_zeros, length_take_le; lia. }
  assert (Ep : pad16 S = S ++ zeros (blocks - mres c)).
  { unfold pad16. pose proof (rep_len _ _ _ _ Hr) as Hl. rewrite length_take_le in Hl by lia.
    rewrite <- Hl. do 2 f_equal. unfold blocks. mod_lia. }
  rewrite Et, Ep. by apply rep_more.
Qed.

Lemma finish_mul S c : has_ghash B = false -> keyed c -> rep H (Xi c) [] S -> (length S mod 16 = 0)%nat ->
  Xi (GCM_MUL B (set_Xi (xor_into 0 (Xi c) (lengths (alen c) (mlen c))) c)) =
  hash H (zeros 16) (S ++ lengths (alen c) (mlen c)).
Proof.
  intros Hg Hk Hr HS. destruct (nbytes_lengths (alen c) (mlen c)) as [L1 B1]. set (bl := lengths _ _) in *.
  assert (Hr2 : rep H (xor_into 0 (Xi c) bl) (zeros 16) (S ++ bl)).
  { replace 16%nat with (0 + length bl)%nat by lia. apply rep_added; [|lia]. by apply (rep_more _ _ []). }
  unfold GCM_MUL. cbn [Xi set_Xi]. rewrite (gcm_mul_ok B block) by (done || apply Hr2).
  apply rep_padded in Hr2; [|lia]. rewrite app_nil_r in Hr2.
  apply rep_closed; [done|]. rewrite length_app. mod_lia.
Qed.

(** The state of [Xi] before the lengths, from either phase. *)
Lemma finish_started J A C c : started J A C c ->
  (exists S, pad16 S = pad16 A ++ pad16 C /\ data_at J S (length C) c /\ ares c = 0%nat) \/
  (C = [] /\ mres c = 0%nat /\ ares c <> 0%nat /\ keyed c /\ nbytes 48 (Xn c) /\
   rep H (Xi (GCM_MUL B c)) [] (pad16 A)).
Proof.
  intros [Hm|[-> Ha]].
  - left. exists (pad16 A ++ C). split; [apply pad16_app, pad16_length|]. split; apply Hm.
  - destruct (Nat.eq_dec (ares c) 0%nat) as [E|E].
    + left. exists A. split; [by rewrite app_nil_r|]. split; [|done].
      destruct Ha as [[[Hk HX] HJ Hm0 Hl HE HY] Hr _]. rewrite E in Hr. by apply data_closed.
    + right. destruct Ha as [[[Hk HX] HJ Hm0 Hl HE HY] Hr Har]. split_and!; try done. by apply rep_pad.
Qed.

Lemma finish_ok J A C c : started J A C c ->
  Xi (finish_hash B c) = hash H (zeros 16) (pad16 A ++ pad16 C ++ lengths (alen c) (mlen c)) /\
  EK0 (finish_hash B c) = EK0 c.
Proof.
  intros Hs. destruct (finish_started J A C c Hs) as [(S & ES & Hd & Ha)|(-> & Hm & Ha & Hk & HX & Hr)].
  - rewrite app_assoc, <- ES. destruct Hd as [Hk Hr Hm HX _ _ _ _]. unfold pend in Hr. unfold finish_hash.
    fold (lengths (alen c) (mlen c)). destruct (has_ghash B) eqn:Hg.
    + pose proof (finish_pad S c Hg Hr HX Hm) as Hp. cbv zeta in Hp. destruct Hp as [HX' Hr'].
      set (blocks := ((mres c + 15) / 16 * 16)%nat) in *. set (Xn' := blit (mres c) (zeros (blocks - mres c)) (Xn c)) in *.
      destruct (Nat.eqb_spec (mres c) 0) as [E|E]; cbn [negb].
      * rewrite Ha. cbn [Nat.eqb]. split; [|done].
        assert (HS : pad16 S = S).
        { apply pad16_aligned. rewrite <- (rep_len _ _ _ _ Hr), E. done. }
        rewrite E in Hr. replace c with (set_Xi (Xi c) c) by by destruct c.
        rewrite HS. apply (finish_last S c 0 (Xi c) (Xn c)); try done; [lia|].
        rewrite <- HS. apply pad16_length.
      * destruct (Nat.eqb_spec blocks 48) as [E48|E48]; (split; [|done]).
        -- cbn [Xn set_Xn]. rewrite (GHASH_ok B block (take 48 Xn') (set_Xn Xn' c)) by (done || apply Hr || by apply bytes_take, HX').
           cbn [Xi Xn alen mlen set_Xn set_Xi].
           rewrite <- E48. apply (finish_last (pad16 S) c 0 (hash H (Xi c) (take blocks Xn')) Xn');
             try done; [|lia|by apply pad16_length].
           apply rep_hashed_all; [done|]. destruct HX' as [HX1 _]. rewrite length_take_le by lia. unfold blocks. mod_lia.
        -- apply (finish_last (pad16 S) c blocks (Xi c) Xn'); try done;
             [unfold blocks in *; mod_lia|by apply pad16_length|unfold blocks; mod_lia].
    + rewrite Ha, orb_false_r. destruct (Nat.eqb_spec (mres c) 0) as [E|E]; cbn [negb]; (split; [|done]).
      * rewrite E in Hr. pose proof (rep_len _ _ _ _ Hr) as Hl. change (0 = length S mod 16)%nat in Hl.
        rewrite pad16_aligned by lia. apply finish_mul; done || lia.
      * apply (finish_mul (pad16 S) (GCM_MUL B c)); [done|done| |by apply pad16_length].
        apply (rep_pad S (set_ares (mres c) c)); done.
  - unfold finish_hash. fold (lengths (alen c) (mlen c)). rewrite (pad16_aligned []) by done. cbn [app].
    rewrite Hm. cbn [Nat.eqb negb]. destruct (Nat.eqb_spec (ares c) 0) as [|_]; [done|]. cbn [negb orb].
    destruct (has_ghash B) eqn:Hg; (split; [|done]).
    + apply (finish_last (pad16 A) (GCM_MUL B c) 0 (Xi (GCM_MUL B c)) (Xn c)); try done; [lia|apply pad16_length].
    + apply (finish_mul (pad16 A) (GCM_MUL B c)); [done|done|done|apply pad16_length].
Qed.
End session.
