(* ===== verification/GcmTheorems.v ===== *)
(** * What GCM computes

    A whole message, in any number of calls of any length and by either of the
    two ways, against the standard; the tag; the limits; and additional data
    after an empty call. *)

From Stdlib Require Import ZifyNat.
From S2P Require Import Prelude Bytes Stream Ctr128 Ghash GhashCorrect Gcm128 GcmHash GcmSpec GcmCorrect GcmSession.
#[local] Open Scope Z_scope.

(** One call for a part of the message: by which function, with what alignment. *)
Record part := mkPart { p_ctr32 : bool; p_misaligned : bool; p_data : list Z }.

Section sessions.
Context (B : build) (block : list Z -> list Z) (func : list Z -> nat -> list Z -> list Z).

Definition encrypt_part (p : part) (c : gcm) : Z * list Z * gcm :=
  if p_ctr32 p then CRYPTO_gcm128_encrypt_ctr32 B block func (p_misaligned p) (p_data p) c
  else CRYPTO_gcm128_encrypt B block (p_misaligned p) (p_data p) c.

Definition decrypt_part (p : part) (c : gcm) : Z * list Z * gcm :=
  if p_ctr32 p then CRYPTO_gcm128_decrypt_ctr32 B block func (p_misaligned p) (p_data p) c
  else CRYPTO_gcm128_decrypt B block (p_misaligned p) (p_data p) c.

(** Calls until one fails. *)
Fixpoint feed_aad (aads : list (list Z)) (c : gcm) : Z * gcm :=
  match aads with
  | [] => (0, c)
  | a :: r => let '(rc, c) := CRYPTO_gcm128_aad B a c in if rc =? 0 then feed_aad r c else (rc, c)
  end.

Fixpoint feed_parts (f : part -> gcm -> Z * list Z * gcm) (parts : list part) (c : gcm) : Z * list Z * gcm :=
  match parts with
  | [] => (0, [], c)
  | p :: r =>
      let '(rc, o, c) := f p c in
      if rc =? 0 then let '(rc, out, c) := feed_parts f r c in (rc, o ++ out, c) else (rc, o, c)
  end.

(** The nonce, the additional data and the message. *)
Definition gcm_session (f : part -> gcm -> Z * list Z * gcm) (iv : list Z) (aads : list (list Z))
    (parts : list part) (c : gcm) : Z * list Z * gcm :=
  let '(rc, c) := feed_aad aads (CRYPTO_gcm128_setiv B block iv c) in
  if rc =? 0 then feed_parts f parts c else (rc, [], c).

Definition aad_of (aads : list (list Z)) : list Z := concat aads.
Definition data_of (parts : list part) : list Z := concat (map p_data parts).
End sessions.

Lemma concat_bytes l : Forall bytes l -> bytes (concat l).
Proof. apply bytes_concat. Qed.

(** What the theorems ask of a session. *)
Record session_ok (B : build) (block : list Z -> list Z) (c : gcm) (iv : list Z) (aads : list (list Z))
    (parts : list part) : Prop := {
  s_gcm : gcm_ok B block c;
  s_iv : bytes iv;
  s_ivlen : Z.of_nat (length iv) < 2 ^ 61;
  s_aads : Forall bytes aads;
  s_alen : Z.of_nat (length (aad_of aads)) < 2 ^ 61;
  s_parts : Forall bytes (map p_data parts);
  s_mlen : Z.of_nat (length (data_of parts)) <= 2 ^ 36 - 32 }.

Section theorems.
Context (B : build) (block : list Z -> list Z) `{!BlockFn block}.
Context (func : list Z -> nat -> list Z -> list Z) `{!Ctr32Fn block func}.

Lemma feed_aad_ok J aads : forall S c, aad_at B block J S c -> Forall bytes aads -> 0 <= alen c ->
  alen c + Z.of_nat (length (concat aads)) <= 2 ^ 61 ->
  exists c', feed_aad B aads c = (0, c') /\ aad_at B block J (S ++ concat aads) c' /\
    alen c' = alen c + Z.of_nat (length (concat aads)).
Proof.
  induction aads as [|a r IH]; intros S c Ha Hb H0 Hl.
  - exists c. split; [done|]. rewrite app_nil_r. split; [done|]. cbn. lia.
  - inversion_clear Hb as [|? ? Hb1 Hb2]. cbn [concat] in *. rewrite length_app in *.
    destruct (aad_ok B block J S c a Ha Hb1 H0) as (c1 & E1 & Ha1 & L1); [lia|].
    cbn [feed_aad]. rewrite E1. cbn [Z.eqb].
    destruct (IH _ _ Ha1 Hb2) as (c2 & E2 & Ha2 & L2); [lia|lia|].
    exists c2. split; [done|]. rewrite app_assoc. split; [done|lia].
Qed.

Lemma part_ok (dec : bool) J A C p c : started B block J A C c -> bytes (p_data p) ->
  Z.of_nat (length C + length (p_data p)) <= 2 ^ 36 - 32 ->
  call_result B block dec J A C c (p_data p) ((if dec then decrypt_part B block func else encrypt_part B block func) p c).
Proof.
  intros Hs Hi Hl. unfold decrypt_part, encrypt_part. destruct dec, (p_ctr32 p);
    (by apply gcm_crypt_ctr32_ok) || by apply gcm_crypt_ok.
Qed.

Lemma feed_parts_ok (dec : bool) J A parts : forall C c, started B block J A C c ->
  Forall bytes (map p_data parts) -> Z.of_nat (length C + length (data_of parts)) <= 2 ^ 36 - 32 ->
  let x := data_of parts in
  let out := ctr_xor block J (length C) x in
  exists c', feed_parts (if dec then decrypt_part B block func else encrypt_part B block func) parts c = (0, out, c') /\
    alen c' = alen c /\ started B block J A (C ++ if dec then x else out) c'.
Proof.
  induction parts as [|p r IH]; intros C c Hs Hb Hl x out.
  - exists c. split; [done|]. split; [done|]. replace (C ++ _) with C; [done|].
    symmetry. destruct dec; apply app_nil_r.
  - cbn [map] in Hb. inversion_clear Hb as [|? ? Hb1 Hb2].
    subst x out. change (data_of (p :: r)) with (p_data p ++ data_of r) in *. rewrite length_app in Hl.
    destruct (part_ok dec J A C p c Hs Hb1) as (c1 & E1 & A1 & S1); [lia|].
    cbn [feed_parts]. rewrite E1. cbn [Z.eqb].
    assert (Lh : length (if dec then p_data p else ctr_xor block J (length C) (p_data p)) = length (p_data p))
      by (destruct dec; [done|apply length_ctr_xor]).
    destruct (IH _ c1 S1 Hb2) as (c2 & E2 & A2 & S2); [rewrite length_app, Lh; lia|].
    rewrite length_app, Lh in E2, S2. rewrite E2. exists c2. rewrite ctr_xor_app.
    split; [done|]. split; [congruence|]. rewrite <- app_assoc in S2. by destruct dec.
Qed.

(** A session within the limits. *)
Lemma session_result (dec : bool) c iv aads parts : session_ok B block c iv aads parts ->
  let J := J0 block iv in
  let x := data_of parts in
  let out := ctr_xor block J 0 x in
  exists c', gcm_session B block (if dec then decrypt_part B block func else encrypt_part B block func) iv aads parts c = (0, out, c') /\
    alen c' = Z.of_nat (length (aad_of aads)) /\ started B block J (aad_of aads) (if dec then x else out) c'.
Proof.
  intros [Hc Hiv Hivl Ha Hal Hp Hpl] J x out. unfold gcm_session, aad_of in *.
  destruct (setiv_ok B block iv c Hc Hiv Hivl) as [S1 L1].
  destruct (feed_aad_ok J aads [] _ S1 Ha) as (c1 & E1 & S2 & L2); [lia|lia|]. rewrite E1. cbn [Z.eqb].
  destruct (feed_parts_ok dec J (concat aads) parts [] c1) as (c2 & E2 & A2 & S3); [by right|done|done|].
  exists c2. split; [done|]. split; [lia|done].
Qed.

(** The tag of a context. *)
Lemma finish_tag J iv A C c : J = J0 block iv -> nbytes 16 J -> started B block J A C c ->
  alen c = Z.of_nat (length A) -> Z.of_nat (length A) < 2 ^ 61 -> Z.of_nat (length C) < 2 ^ 61 ->
  Xi (set_Xi (xor_words 2 (Xi (finish_hash B c)) (EK0 (finish_hash B c))) (finish_hash B c)) =
  gcm_tag block iv A C.
Proof.
  intros EJ HJ Hs Hal HA HC. destruct (finish_ok B block J A C c Hs) as [EX EE]. cbn [Xi set_Xi].
  rewrite EX, EE, Hal, (started_mlen B block J A C c Hs).
  assert (El : lengths (Z.of_nat (length A)) (Z.of_nat (length C)) =
    be_put 8 (8 * Z.of_nat (length A)) ++ be_put 8 (8 * Z.of_nat (length C))).
  { unfold lengths, u64. rewrite !Z.shiftl_mul_pow2 by lia. rewrite !Z.mod_small by lia.
    f_equal; f_equal; lia. }
  rewrite El. unfold gcm_tag. rewrite <- EJ.
  assert (HE : EK0 c = block J) by (destruct Hs as [[]|[_ [[] _ _]]]; done). rewrite HE.
  set (S := hash (hkey block) (zeros 16) _).
  assert (HS : nbytes 16 S) by by apply nbytes_hash.
  rewrite (gctr_one block J S) by apply HS. apply xor_words_16; [done|by apply block_ok].
Qed.

Lemma session_J c iv aads parts : session_ok B block c iv aads parts -> nbytes 16 (J0 block iv).
Proof. intros Hs. apply nbytes_J0, (s_iv _ _ _ _ _ _ Hs). Qed.

(** C31: a message encrypted in any calls, of either kind, of any lengths and with
    any alignment, after additional data in any calls: no call fails, and the
    ciphertext and the tag are those of the standard, in every build. *)
Theorem gcm_encrypt_standard c iv aads parts :
  session_ok B block c iv aads parts ->
  exists c',
    gcm_session B block (encrypt_part B block func) iv aads parts c =
      (0, gcm_ciphertext block iv (data_of parts), c') /\
    fst (CRYPTO_gcm128_tag B 16 c') =
      gcm_tag block iv (aad_of aads) (gcm_ciphertext block iv (data_of parts)).
Proof.
  intros Hs. pose proof (session_J _ _ _ _ Hs) as HJ.
  destruct (session_result false c iv aads parts Hs) as (c' & E & La & S).
  exists c'. unfold gcm_ciphertext. rewrite gctr_ctr_xor by done. split; [exact E|].
  pose proof (finish_tag _ iv _ _ c' eq_refl HJ S La (s_alen _ _ _ _ _ _ Hs)) as Et.
  rewrite length_ctr_xor in Et. specialize (Et ltac:(pose proof (s_mlen _ _ _ _ _ _ Hs); lia)).
  unfold CRYPTO_gcm128_tag, CRYPTO_gcm128_finish. cbn [fst snd].
  rewrite take_ge; [exact Et|]. rewrite Et. unfold gcm_tag. rewrite gctr_one by by apply nbytes_hash.
  rewrite length_xor_bytes. destruct (block_ok (J0 block iv) HJ) as [-> _].
  change (Z.to_nat _) with 16%nat. lia.
Qed.

(** C32: decryption, in any calls, puts out the plaintext of the standard, and
    [CRYPTO_gcm128_finish] returns zero exactly if the [len] bytes of the tag it
    is given are those of the tag of the standard; more than 16 are refused. *)
Theorem gcm_decrypt_verifies c iv aads parts tag (len : Z) :
  session_ok B block c iv aads parts -> bytes tag -> 0 <= len <= Z.of_nat (length tag) ->
  exists c',
    gcm_session B block (decrypt_part B block func) iv aads parts c =
      (0, gctr block (inc32 (J0 block iv)) (data_of parts), c') /\
    let n := Z.to_nat len in
    let r := fst (CRYPTO_gcm128_finish B (Some tag) len c') in
    if len <=? 16 then r = 0 <-> take n tag = take n (gcm_tag block iv (aad_of aads) (data_of parts))
    else r = -1.
Proof.
  intros Hs Ht Hl. pose proof (session_J _ _ _ _ Hs) as HJ.
  destruct (session_result true c iv aads parts Hs) as (c' & E & La & S).
  exists c'. rewrite gctr_ctr_xor by done. split; [exact E|]. cbv zeta.
  pose proof (finish_tag _ iv _ _ c' eq_refl HJ S La (s_alen _ _ _ _ _ _ Hs)) as Et.
  specialize (Et ltac:(pose proof (s_mlen _ _ _ _ _ _ Hs); lia)).
  unfold CRYPTO_gcm128_finish. cbv zeta. rewrite Et. destruct (Z.leb_spec len 16) as [H16|H16]; [|done]. cbn [fst].
  assert (HT : nbytes 16 (gcm_tag block iv (aad_of aads) (data_of parts))).
  { unfold gcm_tag. rewrite gctr_one by by apply nbytes_hash. apply nbytes_xor; [by apply nbytes_hash|by apply block_ok]. }
  destruct HT as [HT1 HT2]. rewrite memcmp_zero by (done || lia). naive_solver.
Qed.

(** What is encrypted in some calls is decrypted in others, and its tag is
    accepted. *)
Theorem gcm_roundtrip c c2 iv aads aads2 parts parts2 :
  session_ok B block c iv aads parts -> gcm_ok B block c2 ->
  Forall bytes aads2 -> aad_of aads2 = aad_of aads ->
  let '(rc, ct, c') := gcm_session B block (encrypt_part B block func) iv aads parts c in
  let tag := fst (CRYPTO_gcm128_tag B 16 c') in
  Forall bytes (map p_data parts2) -> data_of parts2 = ct ->
  let '(rc2, pt, c2') := gcm_session B block (decrypt_part B block func) iv aads2 parts2 c2 in
  rc = 0 /\ rc2 = 0 /\ pt = data_of parts /\
  fst (CRYPTO_gcm128_finish B (Some tag) 16 c2') = 0.
Proof.
  intros Hs Hc2 Ha2 Ea. pose proof (session_J _ _ _ _ Hs) as HJ.
  destruct (session_result false c iv aads parts Hs) as (c' & E & La & S). rewrite E. cbv zeta.
  intros Hp2 Ed.
  assert (Hs2 : session_ok B block c2 iv aads2 parts2).
  { destruct Hs. split; try done; [by rewrite Ea|by rewrite Ed, length_ctr_xor]. }
  destruct (session_result true c2 iv aads2 parts2 Hs2) as (c2' & E2 & La2 & S2). rewrite E2.
  split; [done|]. split; [done|]. split; [rewrite Ed; apply ctr_xor_cancel|].
  pose proof (finish_tag _ iv _ _ c' eq_refl HJ S La (s_alen _ _ _ _ _ _ Hs)) as Et.
  pose proof (finish_tag _ iv _ _ c2' eq_refl HJ S2 La2 (s_alen _ _ _ _ _ _ Hs2)) as Et2.
  pose proof (s_mlen _ _ _ _ _ _ Hs) as Hml. rewrite Ed, Ea, length_ctr_xor in Et2. rewrite length_ctr_xor in Et.
  specialize (Et ltac:(lia)). specialize (Et2 ltac:(lia)).
  unfold CRYPTO_gcm128_tag, CRYPTO_gcm128_finish. cbv zeta. cbn [fst snd]. change (16 <=? 16) with true. cbn [fst].
  rewrite Et, Et2.
  assert (HT : bytes (gcm_tag block iv (aad_of aads) (ctr_xor block (J0 block iv) 0 (data_of parts)))
    /\ length (gcm_tag block iv (aad_of aads) (ctr_xor block (J0 block iv) 0 (data_of parts))) = 16%nat).
  { unfold gcm_tag. rewrite gctr_one by by apply nbytes_hash.
    apply and_comm. apply nbytes_xor; [by apply nbytes_hash|by apply block_ok]. }
  destruct HT as [HT1 HT2]. change (Z.to_nat 16) with 16%nat. rewrite take_ge by lia.
  apply memcmp_zero; done || lia.
Qed.

(** Between the calls of a session the positions stay in range: the buffer of
    48 bytes has room, and so has the block of the additional data. *)
Theorem gcm_invariant (dec : bool) c iv aads parts :
  session_ok B block c iv aads parts ->
  let c' := snd (gcm_session B block (if dec then decrypt_part B block func else encrypt_part B block func) iv aads parts c) in
  (mres c' < if has_ghash B then 48 else 16)%nat /\ (ares c' < 16)%nat /\
  nbytes 48 (Xn c') /\ nbytes 16 (Xi c') /\ gcm_ok B block c'.
Proof.
  intros Hs. destruct (session_result dec c iv aads parts Hs) as (c' & E & _ & S). rewrite E. cbn [snd].
  destruct S as [[[Hk Hr Hm HX _ _ _ _] _ Ha _ _]|[_ [[[Hk HX] _ Hm _ _ _] Hr Ha]]]; split_and!; try done.
  - rewrite Ha. lia.
  - apply Hr.
  - rewrite Hm. destruct (has_ghash B); lia.
  - apply Hr.
Qed.

(** An empty call right after the additional data. *)
Lemma crypt_empty dec mis J A c : aad_at B block J A c ->
  gcm_crypt B block dec mis [] c = (0, [], set_mlen 0 (if (ares c =? 0)%nat then c else set_ares 0 (GCM_MUL B c))).
Proof.
  intros [[_ _ Hm Hl _ _] _ _]. unfold gcm_crypt, crypt_begin. cbn [length]. rewrite Hl.
  change (u64 (0 + Z.of_nat 0)) with 0.
  replace ((2 ^ 36 - 32 <? 0) || (wide B && (0 <? Z.of_nat 0))) with false by by destruct (wide B).
  cbn [ares set_mlen].
  assert (Hbody : forall c0, mres c0 = 0%nat ->
    (if small B then let '(out, c) := crypt_bytes B block dec [] (mres c0 mod 16) c0 in (0, out, c)
     else crypt_parts B block (fun inp c => if has_ghash B then ghash_blocks B (stream_blocks block) dec inp c
       else mul_crypt_blocks B block dec (length inp / 16) inp c) dec (strict B && mis) [] c0) = (0, [], c0)).
  { intros c0 H0. unfold crypt_parts. rewrite H0. change (0 mod 16)%nat with 0%nat.
    destruct (small B), (strict B && mis), (has_ghash B); done. }
  destruct (Nat.eqb_spec (ares c) 0) as [E|E]; [by rewrite Hbody|].
  destruct (has_ghash B); [done|]. by rewrite Hbody.
Qed.

(** an empty call to encrypt or to decrypt pads the additional data but does
    not end them: more are accepted after it, and the tag is not the one of the
    data given, but of those with the zeros in between. *)
Theorem gcm_late_aad dec mis c iv a b :
  gcm_ok B block c -> bytes iv -> Z.of_nat (length iv) < 2 ^ 61 -> bytes a -> bytes b ->
  Z.of_nat (length a + length b) < 2 ^ 61 ->
  let c1 := snd (CRYPTO_gcm128_aad B a (CRYPTO_gcm128_setiv B block iv c)) in
  let '(rc2, out, c2) := gcm_crypt B block dec mis [] c1 in
  let '(rc3, c3) := CRYPTO_gcm128_aad B b c2 in
  rc2 = 0 /\ rc3 = 0 /\
  fst (CRYPTO_gcm128_tag B 16 c3) =
    xor_bytes (hash (hkey block) (zeros 16)
      (pad16 (pad16 a ++ b) ++ be_put 8 (8 * Z.of_nat (length a + length b)) ++ be_put 8 0))
      (block (J0 block iv)).
Proof.
  intros Hc Hiv Hivl Ha Hb Hl. pose proof (nbytes_J0 block iv Hiv) as HJ.
  destruct (setiv_ok B block iv c Hc Hiv Hivl) as [S0 L0].
  destruct (aad_ok B block _ _ _ a S0 Ha) as (c1 & E1 & S1 & L1); [lia|lia|]. rewrite E1. cbn [snd app] in *.
  rewrite (crypt_empty dec mis _ _ _ S1). set (c2 := set_mlen 0 _).
  assert (S2 : aad_at B block (J0 block iv) (pad16 a) c2 /\ alen c2 = alen c1).
  { unfold c2. destruct S1 as [[[Hk HX] ? Hm Hml HE HY] Hr Har].
    destruct (Nat.eqb_spec (ares c1) 0) as [E|E]; (split; [|done]).
    - rewrite pad16_aligned; [by split; [split|..]|]. by rewrite <- (rep_len _ _ _ _ Hr), E.
    - split; [by split|by apply (rep_pad B block a c1)|cbn; lia]. }
  destruct S2 as [S2 L2]. destruct (aad_ok B block _ _ _ b S2 Hb) as (c3 & E3 & S3 & L3); [lia|lia|].
  rewrite E3. split; [done|]. split; [done|].
  destruct (finish_ok B block _ _ [] c3 (or_intror (conj eq_refl S3))) as [EX EE].
  unfold CRYPTO_gcm128_tag, CRYPTO_gcm128_finish. cbn [fst snd Xi set_Xi].
  rewrite EX, EE, (a_EK0 _ _ _ _ (a_base _ _ _ _ _ S3)), (a_mlen _ _ _ _ (a_base _ _ _ _ _ S3)).
  assert (El : lengths (alen c3) 0 = be_put 8 (8 * Z.of_nat (length a + length b)) ++ be_put 8 0).
  { unfold lengths, u64. rewrite !Z.shiftl_mul_pow2 by lia. rewrite !Z.mod_small by lia. f_equal. f_equal. lia. }
  rewrite El, (pad16_aligned []) by done. cbn [app].
  set (Y := hash (hkey block) (zeros 16) _). assert (HY : nbytes 16 Y) by by apply nbytes_hash.
  rewrite xor_words_16 by (done || by apply block_ok). apply take_ge. rewrite length_xor_bytes.
  destruct HY as [-> _], (block_ok (J0 block iv) HJ) as [-> _]. done.
Qed.
End theorems.

(** A length a [size_t] holds. *)
Definition size_ok (B : build) (n : nat) : Prop := Z.of_nat n < if wide B then 2 ^ 64 else 2 ^ 32.

(** the limits.  Additional data after a byte of the message are refused with
    -2, more than [2 ^ 61] bytes of them with -1, and a message that would exceed
    [2 ^ 36 - 32] bytes with -1, all without a change; everything else is
    accepted, whatever wraps around. *)
Theorem gcm_limits B block func dec mis inp c :
  size_ok B (length inp) -> 0 <= alen c <= 2 ^ 61 -> 0 <= mlen c <= 2 ^ 36 - 32 ->
  let n := Z.of_nat (length inp) in
  (mlen c <> 0 -> CRYPTO_gcm128_aad B inp c = (-2, c)) /\
  (mlen c = 0 -> if 2 ^ 61 <? alen c + n then CRYPTO_gcm128_aad B inp c = (-1, c)
                 else fst (CRYPTO_gcm128_aad B inp c) = 0) /\
  (if 2 ^ 36 - 32 <? mlen c + n
   then gcm_crypt B block dec mis inp c = (-1, [], c) /\ gcm_crypt_ctr32 B block func dec mis inp c = (-1, [], c)
   else fst (fst (gcm_crypt B block dec mis inp c)) = 0 /\ fst (fst (gcm_crypt_ctr32 B block func dec mis inp c)) = 0).
Proof.
  intros Hs Ha Hm n. unfold size_ok in Hs. fold n in Hs.
  assert (Hn : 0 <= n) by lia.
  assert (Hover : forall x lim, 0 <= x <= lim -> lim < 2 ^ 62 ->
    ((lim <? u64 (x + n)) || (wide B && (u64 (x + n) <? n))) = (lim <? x + n)).
  { intros x lim Hx Hlim. unfold u64. destruct (Z.ltb_spec lim (x + n)) as [H1|H1].
    - destruct (Z.ltb_spec (x + n) (2 ^ 64)).
      + rewrite Z.mod_small by lia. by destruct (Z.ltb_spec lim (x + n)); [|lia].
      + destruct (wide B); [|lia]. cbn [andb]. apply orb_true_intro. right. apply Z.ltb_lt.
        Z.div_mod_to_equations. lia.
    - rewrite Z.mod_small by lia. destruct (Z.ltb_spec lim (x + n)), (Z.ltb_spec (x + n) n); [lia..|]. by destruct (wide B). }
  assert (Hparts : forall blocks dec bw inp c, fst (fst (crypt_parts B block blocks dec bw inp c)) = 0).
  { intros blocks d bw i c0. unfold crypt_parts. destruct (crypt_head _ _ _ _ _) as [[[o1 i1] k] c1].
    destruct (negb _); [done|]. destruct bw; [by destruct (crypt_bytes _ _ _ _ _ _)|].
    destruct (blocks _ _) as [o2 c2]. by destruct (crypt_tail _ _ _ _ _). }
  split; [|split].
  - intros Hne. unfold CRYPTO_gcm128_aad. by destruct (Z.eqb_spec (mlen c) 0).
  - intros He. unfold CRYPTO_gcm128_aad. rewrite He. cbn [Z.eqb negb]. fold n. rewrite Hover by lia.
    destruct (2 ^ 61 <? alen c + n); [done|]. destruct (Nat.eqb_spec (ares (set_alen (u64 (alen c + n)) c)) 0); [done|].
    destruct (aad_head _ _ _) as [[i k] c1]. by destruct (k =? 0)%nat.
  - unfold gcm_crypt, gcm_crypt_ctr32, gcm_crypt, crypt_begin. fold n. rewrite Hover by lia.
    destruct (2 ^ 36 - 32 <? mlen c + n); [by destruct (small B)|].
    destruct (small B); destruct (ares _ =? 0)%nat; try destruct (has_ghash B); try destruct (n =? 0);
      rewrite ?Hparts; try done; by destruct (crypt_bytes _ _ _ _ _ _).
Qed.

(** The limit on the additional data lets one length in whose number of bits does
    not fit: the tag then has zero for it. *)
Theorem gcm_aad_limit_wraps B aad c :
  mlen c = 0 -> 0 <= alen c -> alen c + Z.of_nat (length aad) = 2 ^ 61 ->
  fst (CRYPTO_gcm128_aad B aad c) = 0 /\ alen (snd (CRYPTO_gcm128_aad B aad c)) = 2 ^ 61 /\
  lengths (2 ^ 61) (mlen c) = lengths 0 (mlen c).
Proof.
  intros Hm Ha Hl. unfold CRYPTO_gcm128_aad. rewrite Hm. cbn [Z.eqb negb]. rewrite Hl.
  change (u64 (2 ^ 61)) with (2 ^ 61). change (2 ^ 61 <? 2 ^ 61) with false.
  destruct (Z.ltb_spec (2 ^ 61) (Z.of_nat (length aad))); [lia|]. rewrite andb_false_r. cbn [orb].
  assert (Hb : forall l c, alen (aad_body B l c) = alen c).
  { intros l c0. unfold aad_body. cbn [alen set_ares set_Xi]. destruct (has_ghash B); [by destruct (_ =? 0)%nat|].
    assert (Hmb : forall k l c, alen (mul_blocks B k l c) = alen c)
      by (induction k as [|k IH]; intros; [done|]; cbn [mul_blocks]; by rewrite IH).
    apply Hmb. }
  assert (Hh : forall l n c, alen (aad_head l n c).2 = alen c).
  { induction l as [|x l IH]; intros n c0; [done|]. cbn [aad_head]. destruct (n =? 0)%nat; [done|]. by rewrite IH. }
  destruct (Nat.eqb_spec (ares (set_alen (2 ^ 61) c)) 0); [cbn [fst snd]; by rewrite Hb|].
  specialize (Hh aad (ares (set_alen (2 ^ 61) c)) (set_alen (2 ^ 61) c)).
  destruct (aad_head _ _ _) as [[i k] c1]. cbn [fst snd] in *. destruct (k =? 0)%nat; cbn [fst snd].
  - rewrite Hb. split; [done|]. split; [exact Hh|done].
  - done.
Qed.
