(* ===== verification/GcmSamples.v ===== *)
(** * GCM on concrete inputs

    A test case of the standard's reference with AES, in pieces, and instances of
    the theorems. *)

From S2P Require Import Prelude Bytes Stream Ctr128 Aes Ghash Gcm128 GcmHash GcmSpec GcmCorrect GcmSession GcmTheorems.
#[local] Open Scope Z_scope.

Definition default_build : build := mkBuild Bits4 false true true false.
Definition builds : list build :=
  [default_build; mkBuild Bits4 false false false true; mkBuild Bits4 true true true false;
   mkBuild Bits8 false true true true; mkBuild Bits8 true true true true; mkBuild Bits1 false true false false;
   mkBuild Bits1 true false true false].

Definition aes_block : list Z -> list Z := aes_enc_with (be_put 16 0xfeffe9928665731c6d6a8f9467308308) 128.
Definition aes_blocks (inp : list Z) (n : nat) (iv : list Z) : list Z := ctr32_blocks aes_block n inp iv.

Definition sample_iv : list Z := be_put 12 0xcafebabefacedbaddecaf888.
Definition sample_A : list Z := be_put 20 0xfeedfacedeadbeeffeedfacedeadbeefabaddad2.
Definition sample_P : list Z := be_put 60
  0xd9313225f88406e5a55909c5aff5269a86a7a9531534f7da2e4c303d8a318a721c3c0c95956809532fcf0e2449a6b525b16aedf5aa0de657ba637b39.
Definition sample_C : list Z := be_put 60
  0x42831ec2217774244b7221b784d0d49ce3aa212f2c02a4e035c17e2329aca12e21d514b25466931c7d8f6a5aac84aa051ba30b396a0aac973d58e091.

Definition sample_parts (l : list Z) : list part :=
  [mkPart false false (take 5 l); mkPart true false (take 20 (drop 5 l)); mkPart false true (drop 25 l)].

(** Every build, in calls of 5, 20 and 35 bytes of the three kinds. *)
Definition gcm_test (B : build) : bool :=
  let '(rc, out, c) := gcm_session B aes_block (encrypt_part B aes_block aes_blocks) sample_iv
    [take 7 sample_A; drop 7 sample_A] (sample_parts sample_P) (CRYPTO_gcm128_init B aes_block) in
  bool_decide (rc = 0 /\ out = sample_C /\
    fst (CRYPTO_gcm128_tag B 16 c) = be_put 16 0x5bc94fbc3221a5db94fae95ae7121a47).

Example gcm_test_case_4 : forallb gcm_test builds = true.
Proof. vm_compute. done. Qed.

(** ** Instances of the theorems, with the toy cipher *)

Definition toy_func (inp : list Z) (n : nat) (iv : list Z) : list Z := ctr32_blocks toy_enc n inp iv.

Definition toy_ctx : gcm := CRYPTO_gcm128_init default_build toy_enc.
Definition toy_iv : list Z := [1; 2; 3; 4; 5].
Definition toy_A : list (list Z) := [[10; 20; 30]; []; seqZ 40 30].
Definition toy_parts : list part :=
  [mkPart false false (seqZ 0 7); mkPart true false (seqZ 7 60); mkPart false true []; mkPart false true (seqZ 67 20)].

Lemma toy_session : session_ok default_build toy_enc toy_ctx toy_iv toy_A toy_parts.
Proof.
  split; [apply init_ok; apply _|solve_closed|vm_compute; reflexivity|..].
  - repeat (apply Forall_cons; split; [solve_closed|]). apply Forall_nil_2.
  - vm_compute. reflexivity.
  - repeat (apply Forall_cons; split; [solve_closed|]). apply Forall_nil_2.
  - vm_compute. discriminate.
Qed.

Lemma gcm_encrypt_standard_witness :
  exists c',
    gcm_session default_build toy_enc (encrypt_part default_build toy_enc toy_func) toy_iv toy_A toy_parts toy_ctx =
      (0, gcm_ciphertext toy_enc toy_iv (data_of toy_parts), c') /\
    fst (CRYPTO_gcm128_tag default_build 16 c') =
      gcm_tag toy_enc toy_iv (aad_of toy_A) (gcm_ciphertext toy_enc toy_iv (data_of toy_parts)).
Proof. apply gcm_encrypt_standard; [apply _..|apply toy_session]. Defined.

Lemma gcm_decrypt_verifies_witness :
  exists c',
    gcm_session default_build toy_enc (decrypt_part default_build toy_enc toy_func) toy_iv toy_A toy_parts toy_ctx =
      (0, gctr toy_enc (inc32 (J0 toy_enc toy_iv)) (data_of toy_parts), c') /\
    (fst (CRYPTO_gcm128_finish default_build (Some [1; 2; 3; 4]) 4 c') = 0 <->
     [1; 2; 3; 4] = take 4 (gcm_tag toy_enc toy_iv (aad_of toy_A) (data_of toy_parts))).
Proof.
  apply (gcm_decrypt_verifies default_build toy_enc toy_func toy_ctx toy_iv toy_A toy_parts [1; 2; 3; 4] 4);
    [apply toy_session|solve_closed|split; vm_compute; discriminate].
Defined.

Lemma gcm_roundtrip_witness :
  let ct := gctr toy_enc (inc32 (J0 toy_enc toy_iv)) (data_of toy_parts) in
  let '(rc, ct', c') := gcm_session default_build toy_enc (encrypt_part default_build toy_enc toy_func) toy_iv toy_A toy_parts toy_ctx in
  let tag := fst (CRYPTO_gcm128_tag default_build 16 c') in
  let '(rc2, pt, c2') := gcm_session default_build toy_enc (decrypt_part default_build toy_enc toy_func) toy_iv
    [aad_of toy_A] [mkPart true false ct'] toy_ctx in
  rc = 0 /\ rc2 = 0 /\ pt = data_of toy_parts /\ fst (CRYPTO_gcm128_finish default_build (Some tag) 16 c2') = 0.
Proof.
  pose proof (gcm_roundtrip default_build toy_enc toy_func toy_ctx toy_ctx toy_iv toy_A [aad_of toy_A] toy_parts) as R.
  destruct (gcm_session default_build toy_enc (encrypt_part default_build toy_enc toy_func) toy_iv toy_A toy_parts toy_ctx)
    as [[rc ct'] c'] eqn:E.
  specialize (R [mkPart true false ct'] toy_session (init_ok default_build toy_enc)).
  apply R; [repeat (apply Forall_cons; split; [solve_closed|]); apply Forall_nil_2|apply app_nil_r| |apply app_nil_r].
  apply Forall_cons; split; [|apply Forall_nil_2]. cbn [p_data].
  assert (Ec : ct' = snd (fst (gcm_session default_build toy_enc (encrypt_part default_build toy_enc toy_func) toy_iv toy_A toy_parts toy_ctx)))
    by (rewrite E; done).
  rewrite Ec. solve_closed.
Defined.

Lemma gcm_invariant_witness :
  let c' := snd (gcm_session default_build toy_enc (encrypt_part default_build toy_enc toy_func) toy_iv toy_A toy_parts toy_ctx) in
  (mres c' < 48)%nat /\ (ares c' < 16)%nat /\ nbytes 48 (Xn c') /\ nbytes 16 (Xi c') /\ gcm_ok default_build toy_enc c'.
Proof. exact (gcm_invariant default_build toy_enc toy_func false toy_ctx toy_iv toy_A toy_parts toy_session). Defined.

Lemma gcm_limits_witness :
  let c := set_mlen (2 ^ 36 - 32) toy_ctx in
  CRYPTO_gcm128_aad default_build [7] c = (-2, c) /\
  gcm_crypt default_build toy_enc false false [7] c = (-1, [], c).
Proof.
  destruct (gcm_limits default_build toy_enc toy_func false false [7] (set_mlen (2 ^ 36 - 32) toy_ctx)) as (H1 & _ & H3);
    [vm_compute; reflexivity|split; vm_compute; discriminate|split; vm_compute; discriminate|].
  split; [apply H1; vm_compute; discriminate|exact (proj1 H3)].
Defined.

Lemma gcm_late_aad_witness :
  let c1 := snd (CRYPTO_gcm128_aad default_build [1; 2; 3] (CRYPTO_gcm128_setiv default_build toy_enc toy_iv toy_ctx)) in
  let '(rc2, out, c2) := gcm_crypt default_build toy_enc false false [] c1 in
  let '(rc3, c3) := CRYPTO_gcm128_aad default_build [4; 5] c2 in
  rc2 = 0 /\ rc3 = 0 /\
  fst (CRYPTO_gcm128_tag default_build 16 c3) =
    xor_bytes (hash (hkey toy_enc) (zeros 16) (pad16 (pad16 [1; 2; 3] ++ [4; 5]) ++ be_put 8 40 ++ be_put 8 0))
      (toy_enc (J0 toy_enc toy_iv)).
Proof.
  exact (gcm_late_aad default_build toy_enc false false toy_ctx toy_iv [1; 2; 3] [4; 5]
    (init_ok default_build toy_enc) ltac:(solve_closed) ltac:(vm_compute; reflexivity)
    ltac:(solve_closed) ltac:(solve_closed) ltac:(vm_compute; reflexivity)).
Defined.

(** The tag after the empty call is not the one of the five bytes. *)
Example gcm_late_aad_differs :
  xor_bytes (hash (hkey toy_enc) (zeros 16) (pad16 (pad16 [1; 2; 3] ++ [4; 5]) ++ be_put 8 40 ++ be_put 8 0))
      (toy_enc (J0 toy_enc toy_iv)) <> gcm_tag toy_enc toy_iv [1; 2; 3; 4; 5] [].
Proof. vm_compute. discriminate. Qed.

Lemma gcm_aad_limit_wraps_witness :
  let c := set_alen (2 ^ 61 - 1) toy_ctx in
  fst (CRYPTO_gcm128_aad default_build [7] c) = 0 /\ alen (snd (CRYPTO_gcm128_aad default_build [7] c)) = 2 ^ 61 /\
  lengths (2 ^ 61) (mlen c) = lengths 0 (mlen c).
Proof.
  apply (gcm_aad_limit_wraps default_build [7] (set_alen (2 ^ 61 - 1) toy_ctx)); [reflexivity|vm_compute; discriminate|reflexivity].
Defined.
