(* ===== verification/QuicVlint.v ===== *)
(** * QUIC variable-length integers

    crypto/quic_vlint.c and include/internal/quic_vlint.h: an integer below 2^62
    in 1, 2, 4 or 8 bytes, the two high bits of the first byte giving the number.
    A buffer is a byte string with an offset, and what the code reads or writes
    outside of it is a fault. *)

From S2P Require Import Prelude Bytes.

Definition OSSL_QUIC_VLINT_2B_MIN : Z := 64.
Definition OSSL_QUIC_VLINT_4B_MIN : Z := 16384.
Definition OSSL_QUIC_VLINT_8B_MIN : Z := 1073741824.
Definition OSSL_QUIC_VLINT_MAX : Z := Z.shiftl 1 62 - 1.

Definition ossl_quic_vlint_encode_len (v : Z) : Z :=
  if v <? OSSL_QUIC_VLINT_2B_MIN then 1
  else if v <? OSSL_QUIC_VLINT_4B_MIN then 2
  else if v <? OSSL_QUIC_VLINT_8B_MIN then 4
  else if v <=? OSSL_QUIC_VLINT_MAX then 8
  else 0.

(** [buf[0]], [buf[1]], ... as [ossl_quic_vlint_encode_n] sets them. *)
Definition vlint_bytes (v n : Z) : list Z :=
  if n =? 1 then [u8 v]
  else if n =? 2 then
    [u8 (Z.lor 0x40 (Z.land (Z.shiftr v 8) 0x3F)); u8 v]
  else if n =? 4 then
    [u8 (Z.lor 0x80 (Z.land (Z.shiftr v 24) 0x3F));
     u8 (Z.shiftr v 16); u8 (Z.shiftr v 8); u8 v]
  else
    [u8 (Z.lor 0xC0 (Z.land (Z.shiftr v 56) 0x3F));
     u8 (Z.shiftr v 48); u8 (Z.shiftr v 40); u8 (Z.shiftr v 32);
     u8 (Z.shiftr v 24); u8 (Z.shiftr v 16); u8 (Z.shiftr v 8); u8 v].

Definition ossl_quic_vlint_encode_n (mem : list Z) (buf v n : Z) : outcome (list Z) :=
  mem_write mem buf (vlint_bytes v n).

Definition ossl_quic_vlint_encode (mem : list Z) (buf v : Z) : outcome (list Z) :=
  ossl_quic_vlint_encode_n mem buf v (ossl_quic_vlint_encode_len v).

Definition ossl_quic_vlint_decode_len (first_byte : Z) : Z :=
  u32 (Z.shiftl 1 (Z.shiftr (Z.land first_byte 0xC0) 6)).

Definition ossl_quic_vlint_decode_unchecked (mem : list Z) (buf : Z) : outcome Z :=
  first_byte ← aget mem buf;
  let sz := ossl_quic_vlint_decode_len first_byte in
  let at_ i := aget mem (buf + i) in
  if sz =? 1 then Ret (Z.land first_byte 0x3F)
  else if sz =? 2 then
    b1 ← at_ 1;
    Ret (Z.lor (Z.shiftl (Z.land first_byte 0x3F) 8) b1)
  else if sz =? 4 then
    b1 ← at_ 1; b2 ← at_ 2; b3 ← at_ 3;
    Ret (Z.lor (Z.lor (Z.lor (Z.shiftl (Z.land first_byte 0x3F) 24)
      (Z.shiftl b1 16)) (Z.shiftl b2 8)) b3)
  else
    b1 ← at_ 1; b2 ← at_ 2; b3 ← at_ 3; b4 ← at_ 4; b5 ← at_ 5; b6 ← at_ 6; b7 ← at_ 7;
    Ret (Z.lor (Z.lor (Z.lor (Z.lor (Z.lor (Z.lor (Z.lor
      (Z.shiftl (Z.land first_byte 0x3F) 56)
      (Z.shiftl b1 48)) (Z.shiftl b2 40)) (Z.shiftl b3 32))
      (Z.shiftl b4 24)) (Z.shiftl b5 16)) (Z.shiftl b6 8)) b7).

(** The return value, and what [*v] is set to. *)
Definition ossl_quic_vlint_decode (mem : list Z) (buf buf_len : Z) : outcome (Z * option Z) :=
  if buf_len <? 1 then Ret (0, None)
  else
    b0 ← aget mem buf;
    let dec_len := ossl_quic_vlint_decode_len b0 in
    if buf_len <? dec_len then Ret (0, None)
    else
      x ← ossl_quic_vlint_decode_unchecked mem buf;
      Ret (dec_len, Some x).

(** ** What the encoding means

    RFC 9000, section 16: the high bits hold the logarithm of the number of
    bytes, the rest the number, highest byte first. *)

Definition vlint_size (n : Z) : Prop := n = 1 \/ n = 2 \/ n = 4 \/ n = 8.

#[export] Instance vlint_size_dec n : Decision (vlint_size n).
Proof. unfold vlint_size. apply _. Defined.

Definition quic_put (n v : Z) : list Z :=
  be_put (Z.to_nat n) (Z.log2 n * 2 ^ (8 * n - 2) + v).

Lemma vlint_fits n v : vlint_size n -> 0 <= v ->
  (v < 2 ^ (8 * n - 2) <-> 1 <= ossl_quic_vlint_encode_len v <= n).
Proof.
  unfold ossl_quic_vlint_encode_len, OSSL_QUIC_VLINT_2B_MIN, OSSL_QUIC_VLINT_4B_MIN,
    OSSL_QUIC_VLINT_8B_MIN, OSSL_QUIC_VLINT_MAX.
  rewrite Z.shiftl_mul_pow2 by done.
  intros [->|[->|[->| ->]]] Hv; simpl (2 ^ _); zcases; lia.
Qed.

Lemma vlint_encode_len_cases v : 0 <= v ->
  ossl_quic_vlint_encode_len v = 0 /\ 2 ^ 62 <= v \/
  vlint_size (ossl_quic_vlint_encode_len v) /\ v < 2 ^ (8 * ossl_quic_vlint_encode_len v - 2).
Proof.
  unfold ossl_quic_vlint_encode_len, OSSL_QUIC_VLINT_2B_MIN, OSSL_QUIC_VLINT_4B_MIN,
    OSSL_QUIC_VLINT_8B_MIN, OSSL_QUIC_VLINT_MAX, vlint_size.
  rewrite Z.shiftl_mul_pow2 by done. intros Hv. zcases; simpl (2 ^ _); lia.
Qed.

Lemma high_bits t x : 0 <= t -> 0 <= x < 64 -> Z.lor (64 * t) (Z.land x 0x3F) = 64 * t + x.
Proof.
  intros Ht Hx. change 0x3F with (Z.ones 6). rewrite Z.land_ones by done.
  rewrite Z.mod_small by done. rewrite (Z.mul_comm 64). by apply (lor_low t x 6).
Qed.

Lemma div_mul_add a b k : 0 < k -> (k * a + b) / k = a + b / k.
Proof. intros. rewrite Z.mul_comm, Z.div_add_l; lia. Qed.

(** What the code stores is the encoding. *)
Lemma vlint_bytes_put n v : vlint_size n -> 0 <= v < 2 ^ (8 * n - 2) -> vlint_bytes v n = quic_put n v.
Proof.
  intros Hn Hv. unfold vlint_bytes, quic_put, u8. rewrite !Z.shiftr_div_pow2 by done.
  destruct Hn as [->|[->|[->| ->]]]; cbn [Z.eqb Pos.eqb];
    change (Z.to_nat 1) with 1%nat; change (Z.to_nat 2) with 2%nat;
    change (Z.to_nat 4) with 4%nat; change (Z.to_nat 8) with 8%nat; cbn [be_put app];
    change (Z.log2 1) with 0; change (Z.log2 2) with 1;
    change (Z.log2 4) with 2; change (Z.log2 8) with 3;
    change (8 * 1 - 2) with 6 in *; change (8 * 2 - 2) with 14 in *;
    change (8 * 4 - 2) with 30 in *; change (8 * 8 - 2) with 62 in *;
    rewrite ?(high_bits 1), ?(high_bits 2), ?(high_bits 3) by (Z.div_mod_to_equations; lia);
    repeat (f_equal; try (Z.div_mod_to_equations; lia)).
Qed.

Lemma vlint_decode_len b : is_byte b -> ossl_quic_vlint_decode_len b = 2 ^ (b / 64).
Proof.
  intros Hb. unfold ossl_quic_vlint_decode_len, is_byte in *.
  rewrite Z.shiftr_land. change (Z.shiftr 0xC0 6) with (Z.ones 2).
  rewrite Z.land_ones, Z.shiftr_div_pow2 by done.
  rewrite Z.mod_small by (Z.div_mod_to_equations; lia).
  change (2 ^ 6) with 64. assert (b / 64 = 0 \/ b / 64 = 1 \/ b / 64 = 2 \/ b / 64 = 3) as H by (Z.div_mod_to_equations; lia).
  by destruct H as [->|[->|[->| ->]]].
Qed.

Lemma vlint_decode_len_size b : is_byte b -> vlint_size (ossl_quic_vlint_decode_len b).
Proof.
  intros Hb. rewrite vlint_decode_len by done. unfold is_byte, vlint_size in *.
  assert (b / 64 = 0 \/ b / 64 = 1 \/ b / 64 = 2 \/ b / 64 = 3) as H by (Z.div_mod_to_equations; lia).
  destruct H as [->|[->|[->| ->]]]; simpl (2 ^ _); lia.
Qed.

Lemma lor_add a x n : 0 <= n -> a mod 2 ^ n = 0 -> 0 <= x < 2 ^ n -> Z.lor a x = a + x.
Proof.
  intros Hn Ha Hx. pose proof (Z.div_mod a (2 ^ n) ltac:(lia)) as E. rewrite Ha in E.
  replace a with (a / 2 ^ n * 2 ^ n) at 1 2 by lia. by apply lor_low.
Qed.

(** [buf] holds the bytes [l] at [off]. *)
Definition holds (mem : list Z) (off : Z) (l : list Z) : Prop :=
  0 <= off /\ take (length l) (drop (Z.to_nat off) mem) = l.

Lemma holds_get mem off l i b :
  holds mem off l -> 0 <= i -> l !! Z.to_nat i = Some b -> aget mem (off + i) = Ret b.
Proof.
  intros [Ho Hl] Hi E. apply aget_lookup; [lia|].
  rewrite <- Hl in E. rewrite lookup_take, lookup_drop in E. case_decide; [|done].
  rewrite <- E. f_equal. lia.
Qed.

Lemma vlint_decode_bytes mem buf b0 l :
  holds mem buf (b0 :: l) -> bytes (b0 :: l) ->
  Z.of_nat (length (b0 :: l)) = ossl_quic_vlint_decode_len b0 ->
  ossl_quic_vlint_decode_unchecked mem buf =
    Ret (be_get (b0 :: l) mod 2 ^ (8 * ossl_quic_vlint_decode_len b0 - 2)).
Proof.
  intros Hh Hb Hl. unfold ossl_quic_vlint_decode_unchecked.
  pose proof (holds_get _ _ _ 0 _ Hh ltac:(lia) eq_refl) as E0. rewrite Z.add_0_r in E0.
  rewrite E0, bind_ret. clear E0. apply Forall_cons in Hb as [Hb0 Hb].
  pose proof (vlint_decode_len_size b0 Hb0) as Hs.
  assert (Z.land b0 0x3F = b0 mod 64) as -> by (by change 0x3F with (Z.ones 6); rewrite Z.land_ones).
  assert (b0 / 64 = Z.log2 (ossl_quic_vlint_decode_len b0)) as Hq.
  { rewrite vlint_decode_len by done. rewrite Z.log2_pow2; [done|]. unfold is_byte in Hb0. Z.div_mod_to_equations. lia. }
  set (n := ossl_quic_vlint_decode_len b0) in *. clearbody n. unfold is_byte in *.
  destruct Hs as [->|[->|[->| ->]]]; simpl in Hl;
    repeat (destruct l as [|? l]; try (simpl in Hl; lia));
    repeat (let H := fresh in apply Forall_cons in Hb as [H Hb]);
    clear Hb Hl; cbn [Z.eqb Pos.eqb];
    repeat match goal with |- context [aget mem (buf + ?k)] =>
      rewrite (holds_get _ _ _ k _ Hh ltac:(lia) eq_refl) end;
    clear Hh; rewrite ?bind_ret; apply (f_equal Ret); unfold be_get; cbn [be_get_acc];
    change (8 * 1 - 2) with 6; change (8 * 2 - 2) with 14;
    change (8 * 4 - 2) with 30; change (8 * 8 - 2) with 62;
    change (Z.log2 1) with 0 in Hq; change (Z.log2 2) with 1 in Hq;
    change (Z.log2 4) with 2 in Hq; change (Z.log2 8) with 3 in Hq;
    rewrite ?Z.shiftl_mul_pow2 by done.
  - Z.div_mod_to_equations. lia.
  - rewrite (lor_add _ _ 8) by (Z.div_mod_to_equations; lia).
    Z.div_mod_to_equations. lia.
  - rewrite (lor_add (b0 mod 64 * 2 ^ 24) _ 24) by (Z.div_mod_to_equations; lia).
    rewrite (lor_add _ (_ * 2 ^ 8) 16) by (Z.div_mod_to_equations; lia).
    rewrite (lor_add _ _ 8) by (Z.div_mod_to_equations; lia).
    Z.div_mod_to_equations. lia.
  - rewrite (lor_add (b0 mod 64 * 2 ^ 56) _ 56) by (Z.div_mod_to_equations; lia).
    rewrite (lor_add _ (_ * 2 ^ 40) 48) by (Z.div_mod_to_equations; lia).
    rewrite (lor_add _ (_ * 2 ^ 32) 40) by (Z.div_mod_to_equations; lia).
    rewrite (lor_add _ (_ * 2 ^ 24) 32) by (Z.div_mod_to_equations; lia).
    rewrite (lor_add _ (_ * 2 ^ 16) 24) by (Z.div_mod_to_equations; lia).
    rewrite (lor_add _ (_ * 2 ^ 8) 16) by (Z.div_mod_to_equations; lia).
    rewrite (lor_add _ _ 8) by (Z.div_mod_to_equations; lia).
    Z.div_mod_to_equations. lia.
Qed.

(** ** Reading what was written *)

Lemma quic_put_get n v : vlint_size n -> 0 <= v < 2 ^ (8 * n - 2) ->
  be_get (quic_put n v) mod 2 ^ (8 * n - 2) = v.
Proof.
  intros Hn Hv. unfold quic_put. rewrite be_get_put.
  destruct Hn as [->|[->|[->| ->]]]; change (Z.log2 1) with 0; change (Z.log2 2) with 1;
    change (Z.log2 4) with 2; change (Z.log2 8) with 3;
    change (8 * 1 - 2) with 6 in *; change (8 * 2 - 2) with 14 in *;
    change (8 * 4 - 2) with 30 in *; change (8 * 8 - 2) with 62 in *;
    [change (256 ^ _) with (2 ^ 8)|change (256 ^ _) with (2 ^ 16)
    |change (256 ^ _) with (2 ^ 32)|change (256 ^ _) with (2 ^ 64)];
    Z.div_mod_to_equations; lia.
Qed.

Lemma nbytes_quic_put n v : nbytes (Z.to_nat n) (quic_put n v).
Proof. apply nbytes_be_put. Qed.

Lemma quic_put_head n v : vlint_size n -> 0 <= v < 2 ^ (8 * n - 2) ->
  exists b l, quic_put n v = b :: l /\ is_byte b /\ ossl_quic_vlint_decode_len b = n.
Proof.
  intros Hn Hv. pose proof (nbytes_quic_put n v) as [Hl Hb].
  rewrite <- vlint_bytes_put in * by done. unfold vlint_bytes in *.
  assert (forall b, is_byte b -> b / 64 = Z.log2 n -> ossl_quic_vlint_decode_len b = n) as Hd.
  { intros b Hb0 E. rewrite vlint_decode_len, E by done. by destruct Hn as [->|[->|[->| ->]]]. }
  unfold u8 in *. rewrite !Z.shiftr_div_pow2 in * by done.
  destruct Hn as [->|[->|[->| ->]]]; cbn [Z.eqb Pos.eqb] in *;
    change (8 * 1 - 2) with 6 in *; change (8 * 2 - 2) with 14 in *;
    change (8 * 4 - 2) with 30 in *; change (8 * 8 - 2) with 62 in *;
    rewrite ?(high_bits 1), ?(high_bits 2), ?(high_bits 3) in *
      by (Z.div_mod_to_equations; lia);
    (eexists _, _; split; [reflexivity|]; inversion_clear Hb; split; [done|]; apply Hd; [done|]);
    change (Z.log2 1) with 0; change (Z.log2 2) with 1;
    change (Z.log2 4) with 2; change (Z.log2 8) with 3; Z.div_mod_to_equations; lia.
Qed.

Lemma decode_unchecked_put mem buf n v : vlint_size n -> 0 <= v < 2 ^ (8 * n - 2) ->
  holds mem buf (quic_put n v) -> ossl_quic_vlint_decode_unchecked mem buf = Ret v.
Proof.
  intros Hn Hv Hh. destruct (quic_put_head n v Hn Hv) as (b & l & E & Hb & Hd).
  pose proof (nbytes_quic_put n v) as [Hl Hbs]. pose proof (quic_put_get n v Hn Hv) as G.
  rewrite E in *. rewrite (vlint_decode_bytes mem buf b l) by (try done; rewrite Hl, Hd; destruct Hn as [->|[->|[->| ->]]]; done).
  by rewrite Hd, G.
Qed.

(** Every string that the decoder accepts is the encoding of its value: a
    number has one encoding of each size. *)
Lemma quic_put_complete b l : bytes (b :: l) ->
  Z.of_nat (length (b :: l)) = ossl_quic_vlint_decode_len b ->
  let n := ossl_quic_vlint_decode_len b in
  quic_put n (be_get (b :: l) mod 2 ^ (8 * n - 2)) = b :: l.
Proof.
  intros Hb Hl n. pose proof (Forall_inv Hb) as Hb0.
  assert (vlint_size n) as Hn by by apply vlint_decode_len_size.
  set (v := be_get (b :: l) mod 2 ^ (8 * n - 2)).
  assert (0 <= v < 2 ^ (8 * n - 2)) as Hv by (apply Z.mod_pos_bound; destruct Hn as [->|[->|[->| ->]]]; done).
  pose proof (nbytes_quic_put n v) as [Hl' Hb'].
  apply be_get_inj; [done..| |]; [rewrite Hl'; lia|].
  unfold quic_put. rewrite be_get_put.
  pose proof (be_get_bounds _ Hb) as Hg. rewrite Hl in Hg.
  subst v. change (be_get (b :: l)) with (be_get ([b] ++ l)) in *. rewrite be_get_app in *.
  change (be_get [b]) with b in *. pose proof (be_get_bounds l (Forall_inv_tail Hb)) as Hg2.
  assert (Z.log2 n = b / 64) as Hq.
  { unfold n. rewrite vlint_decode_len by done. apply Z.log2_pow2. unfold is_byte in Hb0. Z.div_mod_to_equations. lia. }
  fold n in Hl. simpl in Hl. rewrite Hq.
  clear Hb' Hl' Hb Hv. generalize dependent (be_get l). intros g Hg Hg2. clearbody n.
  unfold is_byte in Hb0. assert (Z.of_nat (length l) = n - 1) as Hl1 by lia. rewrite Hl1 in *.
  rewrite Z2Nat.id by lia. clear Hl Hl1.
  destruct Hn as [->|[->|[->| ->]]]; simpl (Z.log2 _) in Hq; 
    [change (256 ^ (1 - 1)) with 1 in *; change (256 ^ 1) with (2 ^ 8) in *; change (8 * 1 - 2) with 6 in *
    |change (256 ^ (2 - 1)) with (2 ^ 8) in *; change (256 ^ 2) with (2 ^ 16) in *; change (8 * 2 - 2) with 14 in *
    |change (256 ^ (4 - 1)) with (2 ^ 24) in *; change (256 ^ 4) with (2 ^ 32) in *; change (8 * 4 - 2) with 30 in *
    |change (256 ^ (8 - 1)) with (2 ^ 56) in *; change (256 ^ 8) with (2 ^ 64) in *; change (8 * 8 - 2) with 62 in *];
    Z.div_mod_to_equations; lia.
Qed.

Lemma holds_write mem off l mem' : mem_write mem off l = Ret mem' -> holds mem' off l.
Proof.
  unfold mem_write, holds. destruct (Z.ltb_spec off 0) as [|H0]; [done|].
  destruct (Z.ltb_spec (Z.of_nat (length mem)) (off + Z.of_nat (length l))); [done|].
  intros [= <-]. split; [done|]. unfold blit.
  rewrite drop_app_ge by (rewrite length_take; lia).
  rewrite length_take, Nat.min_l by lia. rewrite Nat.sub_diag, drop_0.
  by rewrite take_app_le, take_ge by done.
Qed.

(** C20: a number that an encoding of [n] bytes can hold (as [encode_len] says)
    is written within [n] bytes and read back, with the number of bytes; a
    buffer that ends earlier is refused. *)
Theorem quic_vlint_roundtrip mem buf v n :
  vlint_size n -> 0 <= v -> 1 <= ossl_quic_vlint_encode_len v <= n ->
  0 <= buf -> buf + n <= Z.of_nat (length mem) ->
  exists mem', ossl_quic_vlint_encode_n mem buf v n = Ret mem' /\
    mem' = take (Z.to_nat buf) mem ++ quic_put n v ++ drop (Z.to_nat (buf + n)) mem /\
    forall buf_len, 0 <= buf_len ->
      ossl_quic_vlint_decode mem' buf buf_len =
        Ret (if buf_len <? n then (0, None) else (n, Some v)).
Proof.
  intros Hn Hv Hlen Hbuf Hroom. apply vlint_fits in Hlen; [|done..].
  assert (0 <= v < 2 ^ (8 * n - 2)) as Hv' by done. clear Hlen Hv.
  pose proof (nbytes_quic_put n v) as [Hl Hb].
  assert (1 <= n) by (unfold vlint_size in Hn; lia).
  unfold ossl_quic_vlint_encode_n. rewrite vlint_bytes_put by done.
  destruct (mem_write mem buf (quic_put n v)) as [mem'| | | |] eqn:E;
    rewrite mem_write_ok in E by lia; try done.
  exists mem'. split; [done|]. split.
  { injection E as <-. unfold blit. do 3 f_equal. lia. }
  rewrite <- mem_write_ok in E by lia. apply holds_write in E as Hh. clear E. intros bl Hbl.
  unfold ossl_quic_vlint_decode.
  destruct (quic_put_head n v Hn Hv') as (b & l & Eq & Hb0 & Hd).
  rewrite (decode_unchecked_put mem' buf n v) by done. rewrite Eq in Hh.
  pose proof (holds_get _ _ _ 0 _ Hh ltac:(lia) eq_refl) as E0. rewrite Z.add_0_r in E0.
  rewrite E0, bind_ret, Hd. zcases; done.
Qed.

Lemma quic_vlint_roundtrip_witness :
  exists mem', ossl_quic_vlint_encode_n [1; 2; 3; 4; 5; 6] 1 15293 4 = Ret mem' /\
    mem' = [1; 128; 0; 59; 189; 6] /\
    ossl_quic_vlint_decode mem' 1 5 = Ret (4, Some 15293) /\
    ossl_quic_vlint_decode mem' 1 3 = Ret (0, None).
Proof.
  destruct (quic_vlint_roundtrip [1; 2; 3; 4; 5; 6] 1 15293 4) as (mem' & H1 & H2 & H3);
    [solve_closed|lia|vm_compute; split; discriminate|lia|simpl; lia|].
  exists mem'. split; [exact H1|]. split; [exact H2|].
  split; [exact (H3 5 ltac:(lia))|exact (H3 3 ltac:(lia))].
Defined.

(** The smallest encoding: the least of 1, 2, 4 and 8 bytes that holds the
    number, 0 above 2^62 - 1. *)
Lemma encode_len_least v : 0 <= v ->
  if decide (v < 2 ^ 62)
  then vlint_size (ossl_quic_vlint_encode_len v) /\
       forall n, vlint_size n -> (v < 2 ^ (8 * n - 2) <-> ossl_quic_vlint_encode_len v <= n)
  else ossl_quic_vlint_encode_len v = 0.
Proof.
  intros Hv. destruct (vlint_encode_len_cases v Hv) as [[-> ?]|[H ?]]; case_decide; try done; try lia.
  - split; [done|]. intros n Hn. rewrite vlint_fits by done.
    unfold vlint_size in H. lia.
  - exfalso. destruct H as [E|[E|[E|E]]]; rewrite E in *; simpl (2 ^ _) in *; lia.
Qed.

(** Without room the encoder writes outside of the buffer: the caller checks. *)
Example encode_overruns : ossl_quic_vlint_encode [0; 0; 0] 0 16384 = Fault.
Proof. reflexivity. Qed.
