(* ===== verification/Packet.v ===== *)
(** * Reading packets

    The reader of include/internal/packet.h: a [PACKET] is a position in memory
    and the number of bytes that remain.  The memory is a byte string; a pointer
    is an offset in it, or [None] for the null pointer, and what is read outside
    of the memory is a fault.  A function that returns 0 or 1 and stores a value
    returns the value as an option; one that moves the packet also returns the
    packet after it.  Of crypto/o_str.c the file has the copies of strings. *)

From S2P Require Import Prelude Bytes QuicVlint.

Definition SIZE_MAX : Z := 2 ^ 64 - 1.

(** ** Copies of memory *)

Section memory.
Context (mem : list Z).

(** [p[i]] *)
Definition deref (p : option Z) (i : Z) : outcome Z :=
  match p with Some a => aget mem (a + i) | None => Fault end.

(** The bytes that [memcpy(_, p, n)] reads; a null pointer is undefined even if
    [n] is zero. *)
Definition read_bytes (p : option Z) (n : Z) : outcome (list Z) :=
  match p with Some a => mem_read mem a n | None => Fault end.

Fixpoint strnlen_loop (maxlen : nat) (p : option Z) (i : Z) : outcome Z :=
  match maxlen with
  | O => Ret i
  | S n => c ← deref p i; if c =? 0 then Ret i else strnlen_loop n p (i + 1)
  end.

Definition OPENSSL_strnlen (str : option Z) (maxlen : Z) : outcome Z :=
  strnlen_loop (Z.to_nat maxlen) str 0.

(** [ok] says whether the allocator had memory; the result is the contents of
    the new block. *)
Definition CRYPTO_strndup (ok : bool) (str : option Z) (s : Z) : outcome (option (list Z)) :=
  if decide (str = None) then Ret None
  else
    maxlen ← OPENSSL_strnlen str s;
    if ok then l ← read_bytes str maxlen; Ret (Some (l ++ [0])) else Ret None.

Definition CRYPTO_memdup (ok : bool) (data : option Z) (siz : Z) : outcome (option (list Z)) :=
  if bool_decide (data = None) || (INT_MAX <=? siz) then Ret None
  else if ok then l ← read_bytes data siz; Ret (Some l) else Ret None.

(** [memchr(p, c, n) != NULL] *)
Definition memchr (p : option Z) (c n : Z) : outcome bool :=
  l ← read_bytes p n; Ret (bool_decide (c ∈ l)).
End memory.

(** ** Packets *)

Record PACKET : Type := { curr : option Z; remaining : Z }.

Definition ptr_add (p : option Z) (n : Z) : option Z := (fun a => a + n) <$> p.

Definition packet_forward (pkt : PACKET) (len : Z) : PACKET :=
  {| curr := ptr_add (curr pkt) len; remaining := u64 (remaining pkt - len) |}.

Definition PACKET_remaining (pkt : PACKET) : Z := remaining pkt.

Definition PACKET_end (pkt : PACKET) : option Z := ptr_add (curr pkt) (remaining pkt).

Definition PACKET_data (pkt : PACKET) : option Z := curr pkt.

Definition PACKET_buf_init (buf : option Z) (len : Z) : option PACKET :=
  if SIZE_MAX / 2 <? len then None else Some {| curr := buf; remaining := len |}.

Definition PACKET_null_init : PACKET := {| curr := None; remaining := 0 |}.

Definition PACKET_peek_sub_packet (pkt : PACKET) (len : Z) : option PACKET :=
  if PACKET_remaining pkt <? len then None else PACKET_buf_init (curr pkt) len.

Definition PACKET_get_sub_packet (pkt : PACKET) (len : Z) : option PACKET * PACKET :=
  match PACKET_peek_sub_packet pkt len with
  | None => (None, pkt)
  | Some sub => (Some sub, packet_forward pkt len)
  end.

Definition PACKET_peek_bytes (pkt : PACKET) (len : Z) : option (option Z) :=
  if PACKET_remaining pkt <? len then None else Some (curr pkt).

Definition PACKET_get_bytes (pkt : PACKET) (len : Z) : option (option Z) * PACKET :=
  match PACKET_peek_bytes pkt len with
  | None => (None, pkt)
  | Some data => (Some data, packet_forward pkt len)
  end.

Definition PACKET_forward (pkt : PACKET) (len : Z) : bool * PACKET :=
  if PACKET_remaining pkt <? len then (false, pkt) else (true, packet_forward pkt len).

Section reader.
Context (mem : list Z).

Definition PACKET_equal (pkt : PACKET) (ptr : list Z) (num : Z) : outcome bool :=
  if negb (PACKET_remaining pkt =? num) then Ret false
  else if num =? 0 then Ret true
  else
    l ← read_bytes mem (curr pkt) num;
    Ret (CRYPTO_memcmp (Z.to_nat num) 0 l ptr =? 0).

Definition PACKET_peek_net_2 (pkt : PACKET) : outcome (option Z) :=
  if PACKET_remaining pkt <? 2 then Ret None
  else
    b0 ← deref mem (curr pkt) 0; b1 ← deref mem (curr pkt) 1;
    Ret (Some (Z.lor (Z.shiftl b0 8) b1)).

Definition PACKET_peek_net_3 (pkt : PACKET) : outcome (option Z) :=
  if PACKET_remaining pkt <? 3 then Ret None
  else
    b0 ← deref mem (curr pkt) 0; b1 ← deref mem (curr pkt) 1; b2 ← deref mem (curr pkt) 2;
    Ret (Some (Z.lor (Z.lor (Z.shiftl b0 16) (Z.shiftl b1 8)) b2)).

Definition PACKET_peek_net_4 (pkt : PACKET) : outcome (option Z) :=
  if PACKET_remaining pkt <? 4 then Ret None
  else
    b0 ← deref mem (curr pkt) 0; b1 ← deref mem (curr pkt) 1; b2 ← deref mem (curr pkt) 2;
    b3 ← deref mem (curr pkt) 3;
    Ret (Some (Z.lor (Z.lor (Z.lor (Z.shiftl b0 24) (Z.shiftl b1 16)) (Z.shiftl b2 8)) b3)).

Definition PACKET_peek_1 (pkt : PACKET) : outcome (option Z) :=
  if PACKET_remaining pkt =? 0 then Ret None
  else b0 ← deref mem (curr pkt) 0; Ret (Some b0).

Definition PACKET_peek_4 (pkt : PACKET) : outcome (option Z) :=
  if PACKET_remaining pkt <? 4 then Ret None
  else
    b0 ← deref mem (curr pkt) 0; b1 ← deref mem (curr pkt) 1; b2 ← deref mem (curr pkt) 2;
    b3 ← deref mem (curr pkt) 3;
    Ret (Some (Z.lor (Z.lor (Z.lor b0 (Z.shiftl b1 8)) (Z.shiftl b2 16)) (Z.shiftl b3 24))).

Definition PACKET_peek_copy_bytes (pkt : PACKET) (len : Z) : outcome (option (list Z)) :=
  if PACKET_remaining pkt <? len then Ret None
  else l ← read_bytes mem (curr pkt) len; Ret (Some l).

(** [if (!peek) return 0; packet_forward(pkt, n); return 1;] *)
Definition then_forward {A} (peek : outcome (option A)) (pkt : PACKET) (n : Z)
    : outcome (option A * PACKET) :=
  r ← peek;
  match r with
  | None => Ret (None, pkt)
  | Some x => Ret (Some x, packet_forward pkt n)
  end.

Definition PACKET_get_net_2 pkt := then_forward (PACKET_peek_net_2 pkt) pkt 2.
Definition PACKET_get_net_3 pkt := then_forward (PACKET_peek_net_3 pkt) pkt 3.
Definition PACKET_get_net_4 pkt := then_forward (PACKET_peek_net_4 pkt) pkt 4.
Definition PACKET_get_1 pkt := then_forward (PACKET_peek_1 pkt) pkt 1.
Definition PACKET_get_4 pkt := then_forward (PACKET_peek_4 pkt) pkt 4.
Definition PACKET_copy_bytes pkt (len : Z) :=
  then_forward (PACKET_peek_copy_bytes pkt len) pkt len.

(** [if (ret) *data = (size_t)i; return ret;] *)
Definition as_size_t (m : outcome (option Z * PACKET)) : outcome (option Z * PACKET) :=
  x ← m; Ret (option_map u64 (fst x), snd x).

Definition PACKET_get_net_2_len pkt := as_size_t (PACKET_get_net_2 pkt).
Definition PACKET_get_net_3_len pkt := as_size_t (PACKET_get_net_3 pkt).
Definition PACKET_get_net_4_len pkt := as_size_t (PACKET_get_net_4 pkt).
Definition PACKET_get_1_len pkt := as_size_t (PACKET_get_1 pkt).

Definition PACKET_get_quic_vlint (pkt : PACKET) : outcome (option Z * PACKET) :=
  if PACKET_remaining pkt <? 1 then Ret (None, pkt)
  else
    b ← deref mem (curr pkt) 0;
    let enclen := ossl_quic_vlint_decode_len b in
    if PACKET_remaining pkt <? enclen then Ret (None, pkt)
    else
      match curr pkt with
      | None => Fault
      | Some a =>
          v ← ossl_quic_vlint_decode_unchecked mem a;
          Ret (Some v, packet_forward pkt enclen)
      end.

(** The return value, the bytes copied and [*len]. *)
Definition PACKET_copy_all (pkt : PACKET) (dest_len : Z) : outcome (bool * list Z * Z) :=
  if dest_len <? PACKET_remaining pkt then Ret (false, [], 0)
  else
    l ← read_bytes mem (curr pkt) (remaining pkt);
    Ret (true, l, remaining pkt).

(** The return value, [*data] and [*len] after the call, and what it freed. *)
Definition PACKET_memdup {B} (ok : bool) (pkt : PACKET) (data : option B)
    : outcome (bool * option (list Z) * Z * option B) :=
  let length := PACKET_remaining pkt in
  if length =? 0 then Ret (true, None, 0, data)
  else
    d ← CRYPTO_memdup mem ok (curr pkt) length;
    match d with
    | None => Ret (false, None, 0, data)
    | Some l => Ret (true, Some l, length, data)
    end.

Definition PACKET_strndup {B} (ok : bool) (pkt : PACKET) (data : option B)
    : outcome (bool * option (list Z) * option B) :=
  d ← CRYPTO_strndup mem ok (curr pkt) (PACKET_remaining pkt);
  Ret (bool_decide (d <> None), d, data).

Definition PACKET_contains_zero_byte (pkt : PACKET) : outcome bool :=
  memchr mem (curr pkt) 0 (remaining pkt).

(** A vector with its length in front: [get] reads the length from a copy of the
    packet, which replaces the packet when all of the vector is there.  The
    functions store the rest in [*pkt] first and the vector in [*subpkt] then, so
    that they may be the same object, which then is the vector. *)
Definition length_prefixed (get : PACKET -> outcome (option Z * PACKET)) (all : bool)
    (pkt : PACKET) : outcome (option PACKET * PACKET) :=
  '(r, tmp) ← get pkt;
  match r with
  | None => Ret (None, pkt)
  | Some length =>
      match PACKET_get_bytes tmp length with
      | (None, _) => Ret (None, pkt)
      | (Some data, tmp) =>
          if all && negb (PACKET_remaining tmp =? 0) then Ret (None, pkt)
          else Ret (Some {| curr := data; remaining := length |}, tmp)
      end
  end.

Definition PACKET_get_length_prefixed_1 := length_prefixed PACKET_get_1 false.
Definition PACKET_as_length_prefixed_1 := length_prefixed PACKET_get_1 true.
Definition PACKET_get_length_prefixed_2 := length_prefixed PACKET_get_net_2 false.
Definition PACKET_as_length_prefixed_2 := length_prefixed PACKET_get_net_2 true.
Definition PACKET_get_length_prefixed_3 := length_prefixed PACKET_get_net_3 false.

(** [length > SIZE_MAX] is never so where [size_t] has 64 bits. *)
Definition PACKET_get_quic_length_prefixed (pkt : PACKET) : outcome (option PACKET * PACKET) :=
  '(r, tmp) ← PACKET_get_quic_vlint pkt;
  match r with
  | None => Ret (None, pkt)
  | Some length =>
      if SIZE_MAX <? length then Ret (None, pkt)
      else
        match PACKET_get_bytes tmp length with
        | (None, _) => Ret (None, pkt)
        | (Some data, tmp) => Ret (Some {| curr := data; remaining := u64 length |}, tmp)
        end
  end.
End reader.
