(* ===== verification/PacketCorrect.v ===== *)
(** * The packet reader against the wire format

    A well-formed packet is a view of a byte string.  Every reader is a parser of
    that string: it returns what the wire format says and leaves the view on the
    rest, or returns 0 and leaves the packet alone; it never reads outside of the
    view. *)

From S2P Require Import Prelude Bytes QuicVlint Packet.

(** ** The wire format *)

Definition take_bytes (n : Z) (l : list Z) : option (list Z * list Z) :=
  if decide (0 <= n <= Z.of_nat (length l))
  then Some (take (Z.to_nat n) l, drop (Z.to_nat n) l) else None.

Definition p_uint (n : Z) (l : list Z) : option (Z * list Z) :=
  '(b, r) ← take_bytes n l; Some (be_get b, r).

Definition p_uint_rev (n : Z) (l : list Z) : option (Z * list Z) :=
  '(b, r) ← take_bytes n l; Some (be_get (reverse b), r).

Definition p_quic (l : list Z) : option (Z * list Z) :=
  b ← head l;
  let n := ossl_quic_vlint_decode_len b in
  '(bs, r) ← take_bytes n l; Some (be_get bs mod 2 ^ (8 * n - 2), r).

Definition p_vec (p : list Z -> option (Z * list Z)) (all : bool) (l : list Z)
    : option (list Z * list Z) :=
  '(n, r) ← p l;
  '(v, r) ← take_bytes n r;
  if all && bool_decide (r <> []) then None else Some (v, r).

(** ** Views *)

Section view.
Context (mem : list Z).

Definition wf (pkt : PACKET) : Prop :=
  0 <= remaining pkt <= SIZE_MAX / 2 /\
  match curr pkt with
  | Some a => 0 <= a /\ a + remaining pkt <= Z.of_nat (length mem)
  | None => remaining pkt = 0
  end.

Definition content (pkt : PACKET) : list Z :=
  match curr pkt with
  | Some a => take (Z.to_nat (remaining pkt)) (drop (Z.to_nat a) mem)
  | None => []
  end.

Lemma length_content pkt : wf pkt -> Z.of_nat (length (content pkt)) = remaining pkt.
Proof.
  intros [? H]. unfold content. destruct (curr pkt); [|simpl; lia].
  rewrite length_take, length_drop. lia.
Qed.

Lemma deref_content pkt i b :
  wf pkt -> 0 <= i -> content pkt !! Z.to_nat i = Some b -> deref mem (curr pkt) i = Ret b.
Proof.
  intros [? H] Hi E. unfold deref, content in *. destruct (curr pkt) as [a|]; [|done].
  apply aget_lookup; [lia|]. apply lookup_take_Some in E as [E _].
  rewrite lookup_drop in E. rewrite <- E. f_equal. lia.
Qed.

Lemma read_content pkt n : wf pkt -> 0 <= n <= remaining pkt -> curr pkt <> None ->
  read_bytes mem (curr pkt) n = Ret (take (Z.to_nat n) (content pkt)).
Proof.
  intros [? H] Hn Hc. unfold read_bytes, content. destruct (curr pkt) as [a|]; [|done].
  rewrite mem_read_ok by lia. rewrite take_take, Nat.min_l by lia. done.
Qed.

Lemma curr_some pkt : wf pkt -> 0 < remaining pkt -> curr pkt <> None.
Proof. intros [? H] ? E. rewrite E in H. lia. Qed.

Lemma forward_ok pkt n : wf pkt -> 0 <= n <= remaining pkt ->
  wf (packet_forward pkt n) /\ content (packet_forward pkt n) = drop (Z.to_nat n) (content pkt) /\
  PACKET_end (packet_forward pkt n) = PACKET_end pkt.
Proof.
  intros [Hr H] Hn. unfold packet_forward, wf, content, PACKET_end, ptr_add, SIZE_MAX in *; simpl.
  change ((2 ^ 64 - 1) / 2) with (2 ^ 63 - 1) in *.
  unfold u64. rewrite Z.mod_small by lia.
  destruct (curr pkt) as [a|]; simpl.
  - split; [lia|]. split; [|f_equal; lia].
    rewrite skipn_firstn_comm, drop_drop. f_equal; [|f_equal]; lia.
  - split; [lia|]. by rewrite drop_nil.
Qed.

(** [f] parses the view as [p] parses the string. *)
Definition reads {A B} (R : A -> B -> Prop) (f : PACKET -> outcome (option A * PACKET))
    (p : list Z -> option (B * list Z)) : Prop :=
  forall pkt, wf pkt ->
    match p (content pkt) with
    | Some (y, rest) =>
        exists x pkt', f pkt = Ret (Some x, pkt') /\ R x y /\
          wf pkt' /\ content pkt' = rest /\ PACKET_end pkt' = PACKET_end pkt
    | None => f pkt = Ret (None, pkt)
    end.

Definition is_view (pkt : PACKET) (l : list Z) : Prop := wf pkt /\ content pkt = l.

Lemma take_bytes_None pkt n : wf pkt -> 0 <= n -> remaining pkt < n -> take_bytes n (content pkt) = None.
Proof.
  intros Hw ? ?. unfold take_bytes. rewrite decide_False; [done|]. rewrite length_content by done. lia.
Qed.

Lemma take_bytes_Some pkt n : wf pkt -> 0 <= n <= remaining pkt ->
  take_bytes n (content pkt) = Some (take (Z.to_nat n) (content pkt), drop (Z.to_nat n) (content pkt)).
Proof.
  intros Hw ?. unfold take_bytes. rewrite decide_True; [done|]. rewrite length_content by done. lia.
Qed.

(** A reader that looks at the next [n] bytes and moves past them. *)
Lemma reads_forward {A} (peek : PACKET -> outcome (option A)) n (g : list Z -> A) : 0 <= n ->
  (forall pkt, wf pkt -> remaining pkt < n -> peek pkt = Ret None) ->
  (forall pkt, wf pkt -> n <= remaining pkt ->
     peek pkt = Ret (Some (g (take (Z.to_nat n) (content pkt))))) ->
  reads eq (fun pkt => then_forward (peek pkt) pkt n)
    (fun l => '(b, r) ← take_bytes n l; Some (g b, r)).
Proof.
  intros Hn Hnone Hsome pkt Hw. unfold then_forward.
  destruct (Z.lt_ge_cases (remaining pkt) n).
  - rewrite take_bytes_None by done. simpl. by rewrite Hnone.
  - rewrite take_bytes_Some by (done || lia). simpl. rewrite Hsome by (done || lia). simpl.
    destruct (forward_ok pkt n Hw) as (? & ? & ?); [lia|]. eauto 8.
Qed.

Lemma peek_bytes_of pkt n : wf pkt -> 0 <= n <= remaining pkt ->
  forall i, 0 <= i < n -> exists b, take (Z.to_nat n) (content pkt) !! Z.to_nat i = Some b /\
    deref mem (curr pkt) i = Ret b.
Proof.
  intros Hw Hn i Hi. destruct (lookup_lt_is_Some_2 (content pkt) (Z.to_nat i)) as [b Hb].
  { pose proof (length_content pkt Hw). lia. }
  exists b. split; [rewrite lookup_take_lt by lia; done|]. by apply deref_content; [|lia|].
Qed.
End view.

(** Lists of a known length. *)
Lemma list_2 {A} (l : list A) : length l = 2%nat -> exists a b, l = [a; b].
Proof. destruct l as [|a [|b [|]]]; simpl; try lia. eauto. Qed.

Lemma list_3 {A} (l : list A) : length l = 3%nat -> exists a b c, l = [a; b; c].
Proof. destruct l as [|a l]; simpl; [lia|]. intros. destruct (list_2 l) as (?&?&->); [lia|eauto]. Qed.

Lemma list_4 {A} (l : list A) : length l = 4%nat -> exists a b c d, l = [a; b; c; d].
Proof. destruct l as [|a l]; simpl; [lia|]. intros. destruct (list_3 l) as (?&?&?&->); [lia|eauto]. Qed.

Section readers.
Context (mem : list Z).
Hypothesis (Hmem : bytes mem).

Lemma bytes_content pkt : bytes (content mem pkt).
Proof.
  unfold content. destruct (curr pkt); [|constructor].
  by apply bytes_take, bytes_drop.
Qed.

Lemma bytes_next pkt n : wf mem pkt -> 0 <= n <= remaining pkt ->
  nbytes (Z.to_nat n) (take (Z.to_nat n) (content mem pkt)).
Proof.
  intros Hw Hn. split; [|apply bytes_take, bytes_content].
  rewrite length_take. pose proof (length_content mem pkt Hw). lia.
Qed.

(** Replaces the reads of the first [n] bytes by their values. *)
Local Ltac next_bytes n lst :=
  match goal with
  | Hw : wf mem ?pkt |- _ =>
      pose proof (bytes_next pkt n Hw ltac:(lia)) as [Hl Hb];
      pose proof (peek_bytes_of mem pkt n Hw ltac:(lia)) as Hd;
      revert Hl Hb Hd; generalize (take (Z.to_nat n) (content mem pkt)); intros l Hl Hb Hd;
      lst;
      repeat match goal with
      | |- context [deref mem (curr pkt) ?i] =>
          let b := fresh in let E := fresh in
          destruct (Hd i ltac:(lia)) as (b & E & ->); simpl in E; injection E as <-
      end;
      rewrite ?bind_ret;
      unfold bytes in Hb; repeat match goal with H : Forall is_byte (_ :: _) |- _ => apply Forall_cons in H as [? H] end;
      rewrite ?Z.shiftl_mul_pow2 by done; unfold is_byte in *
  end.

Lemma peek_net_2_ok pkt : wf mem pkt -> 2 <= remaining pkt ->
  PACKET_peek_net_2 mem pkt = Ret (Some (be_get (take (Z.to_nat 2) (content mem pkt)))).
Proof.
  intros Hw Hr. unfold PACKET_peek_net_2, PACKET_remaining. zcase; [lia|].
  next_bytes 2 ltac:(destruct (list_2 l Hl) as (b0 & b1 & ->)).
  do 2 f_equal. rewrite (lor_add _ _ 8) by (Z.div_mod_to_equations; lia).
  unfold be_get. simpl. lia.
Qed.

Lemma peek_net_3_ok pkt : wf mem pkt -> 3 <= remaining pkt ->
  PACKET_peek_net_3 mem pkt = Ret (Some (be_get (take (Z.to_nat 3) (content mem pkt)))).
Proof.
  intros Hw Hr. unfold PACKET_peek_net_3, PACKET_remaining. zcase; [lia|].
  next_bytes 3 ltac:(destruct (list_3 l Hl) as (b0 & b1 & b2 & ->)).
  do 2 f_equal. rewrite (lor_add (b0 * _) _ 16) by (Z.div_mod_to_equations; lia).
  rewrite (lor_add _ _ 8) by (Z.div_mod_to_equations; lia).
  unfold be_get. simpl. lia.
Qed.

Lemma peek_net_4_ok pkt : wf mem pkt -> 4 <= remaining pkt ->
  PACKET_peek_net_4 mem pkt = Ret (Some (be_get (take (Z.to_nat 4) (content mem pkt)))).
Proof.
  intros Hw Hr. unfold PACKET_peek_net_4, PACKET_remaining. zcase; [lia|].
  next_bytes 4 ltac:(destruct (list_4 l Hl) as (b0 & b1 & b2 & b3 & ->)).
  do 2 f_equal. rewrite (lor_add (b0 * _) _ 24) by (Z.div_mod_to_equations; lia).
  rewrite (lor_add _ (b2 * _) 16) by (Z.div_mod_to_equations; lia).
  rewrite (lor_add _ _ 8) by (Z.div_mod_to_equations; lia).
  unfold be_get. simpl. lia.
Qed.

Lemma peek_4_ok pkt : wf mem pkt -> 4 <= remaining pkt ->
  PACKET_peek_4 mem pkt = Ret (Some (be_get (reverse (take (Z.to_nat 4) (content mem pkt))))).
Proof.
  intros Hw Hr. unfold PACKET_peek_4, PACKET_remaining. zcase; [lia|].
  next_bytes 4 ltac:(destruct (list_4 l Hl) as (b0 & b1 & b2 & b3 & ->)).
  do 2 f_equal. rewrite (Z.lor_comm b0), (lor_add _ b0 8) by (Z.div_mod_to_equations; lia).
  rewrite (Z.lor_comm _ (b2 * _)), (lor_add (b2 * _) _ 16) by (Z.div_mod_to_equations; lia).
  rewrite (Z.lor_comm _ (b3 * _)), (lor_add (b3 * _) _ 24) by (Z.div_mod_to_equations; lia).
  unfold be_get. simpl. lia.
Qed.

Lemma peek_1_ok pkt : wf mem pkt -> 1 <= remaining pkt ->
  PACKET_peek_1 mem pkt = Ret (Some (be_get (take (Z.to_nat 1) (content mem pkt)))).
Proof.
  intros Hw Hr. unfold PACKET_peek_1, PACKET_remaining. zcase; [lia|].
  next_bytes 1 ltac:(destruct l as [|b0 [|]]; simpl in Hl; try lia). done.
Qed.

Lemma peek_none {A} (g : PACKET -> outcome (option A)) pkt n :
  wf mem pkt -> remaining pkt < n -> 
  (if PACKET_remaining pkt <? n then Ret None else g pkt) = Ret None.
Proof. intros. unfold PACKET_remaining. zcase; [done|lia]. Qed.

Lemma reads_net_2 : reads mem eq (PACKET_get_net_2 mem) (p_uint 2).
Proof. apply reads_forward; [lia| |apply peek_net_2_ok]. intros. by apply (peek_none (fun pkt => _)). Qed.

Lemma reads_net_3 : reads mem eq (PACKET_get_net_3 mem) (p_uint 3).
Proof. apply reads_forward; [lia| |apply peek_net_3_ok]. intros. by apply (peek_none (fun pkt => _)). Qed.

Lemma reads_net_4 : reads mem eq (PACKET_get_net_4 mem) (p_uint 4).
Proof. apply reads_forward; [lia| |apply peek_net_4_ok]. intros. by apply (peek_none (fun pkt => _)). Qed.

Lemma reads_4 : reads mem eq (PACKET_get_4 mem) (p_uint_rev 4).
Proof.
  apply (reads_forward mem _ 4 (fun b => be_get (reverse b))); [lia| |apply peek_4_ok].
  intros. by apply (peek_none (fun pkt => _)).
Qed.

Lemma reads_1 : reads mem eq (PACKET_get_1 mem) (p_uint 1).
Proof.
  apply reads_forward; [lia| |apply peek_1_ok]. intros pkt [? ?] ?. unfold PACKET_peek_1, PACKET_remaining.
  zcase; [done|lia].
Qed.

Lemma p_uint_range n l v r : 0 <= n -> bytes l -> p_uint n l = Some (v, r) -> 0 <= v < 256 ^ n /\ bytes r.
Proof.
  intros Hn Hb. unfold p_uint, take_bytes. case_decide; simpl; [|done]. intros [= <- <-].
  pose proof (be_get_bounds (take (Z.to_nat n) l) ltac:(by apply bytes_take)) as B.
  rewrite length_take in B. rewrite Nat.min_l, Z2Nat.id in B by lia.
  split; [done|by apply bytes_drop].
Qed.

(** The variants for [size_t]. *)
Lemma reads_size_t f n : 0 <= n <= 8 -> reads mem eq f (p_uint n) ->
  reads mem eq (fun pkt => as_size_t (f pkt)) (p_uint n).
Proof.
  intros Hn Hf pkt Hw. specialize (Hf pkt Hw). unfold as_size_t.
  destruct (p_uint n (content mem pkt)) as [[v r]|] eqn:E.
  - destruct Hf as (x & pkt' & -> & -> & Hw' & Hc & He). exists v, pkt'. simpl.
    apply p_uint_range in E as [Hv _]; [|lia|apply bytes_content].
    unfold u64. rewrite Z.mod_small; [done|]. split; [lia|]. eapply Z.lt_le_trans; [apply Hv|].
    change (2 ^ 64) with (256 ^ 8). apply Z.pow_le_mono_r; lia.
  - by rewrite Hf.
Qed.

Lemma reads_copy_bytes n : 0 < n -> reads mem eq (fun pkt => PACKET_copy_bytes mem pkt n) (take_bytes n).
Proof.
  intros Hn pkt Hw.
  pose proof (reads_forward mem (fun pkt => PACKET_peek_copy_bytes mem pkt n) n (fun b => b) ltac:(lia)) as H.
  unfold PACKET_copy_bytes. 
  assert (take_bytes n (content mem pkt) = '(b, r) ← take_bytes n (content mem pkt); Some (b, r)) as E.
  { by destruct (take_bytes _ _) as [[]|]. }
  rewrite E. apply H; [..|done]; intros p Hp ?; unfold PACKET_peek_copy_bytes, PACKET_remaining; zcase; try lia; [done|].
  rewrite (read_content mem p n); [done..|lia|]. apply (curr_some mem p Hp). lia.
Qed.

Lemma content_cons pkt : wf mem pkt -> 1 <= remaining pkt ->
  exists b l, content mem pkt = b :: l /\ is_byte b /\ deref mem (curr pkt) 0 = Ret b.
Proof.
  intros Hw Hr. pose proof (length_content mem pkt Hw) as Hl. pose proof (bytes_content pkt) as Hb.
  pose proof (deref_content mem pkt 0) as Hd.
  destruct (content mem pkt) as [|b l]; simpl in Hl; [lia|].
  exists b, l. split; [done|]. split; [by inversion Hb|]. by apply Hd.
Qed.

Lemma holds_content pkt a n : wf mem pkt -> curr pkt = Some a -> 0 <= n <= remaining pkt ->
  holds mem a (take (Z.to_nat n) (content mem pkt)).
Proof.
  intros [Hr Hc] Ea Hn. unfold content, holds. rewrite Ea in *. split; [lia|].
  rewrite take_take, Nat.min_l by lia. rewrite length_take, length_drop.
  by rewrite Nat.min_l by lia.
Qed.

Lemma reads_quic : reads mem eq (PACKET_get_quic_vlint mem) p_quic.
Proof.
  intros pkt Hw. unfold PACKET_get_quic_vlint, PACKET_remaining, p_quic.
  pose proof (length_content mem pkt Hw) as Hl. destruct (Z.ltb_spec (remaining pkt) 1) as [|Hr].
  { destruct Hw as [? _]. destruct (content mem pkt); [done|simpl in Hl; lia]. }
  destruct (content_cons pkt Hw Hr) as (b & l & Ec & Hb & ->).
  destruct (curr pkt) as [a|] eqn:Ea; [|by destruct (curr_some mem pkt Hw ltac:(lia) Ea)].
  pose proof (vlint_decode_len_size b Hb) as Hs.
  set (n := ossl_quic_vlint_decode_len b) in *.
  assert (1 <= n) by (unfold vlint_size in Hs; lia).
  rewrite Ec. cbn [head mbind option_bind]. rewrite bind_ret, <- Ec. fold n.
  destruct (Z.ltb_spec (remaining pkt) n) as [Hlt|Hge].
  - by rewrite (take_bytes_None mem) by (done || lia).
  - rewrite (take_bytes_Some mem) by (done || lia). cbn [mbind option_bind].
    destruct (forward_ok mem pkt n Hw) as (Hw' & Hc' & He); [lia|].
    pose proof (holds_content pkt a n Hw Ea ltac:(lia)) as Hh.
    pose proof (bytes_next pkt n Hw ltac:(lia)) as [Hln Hbn]. rewrite Ec in Hh, Hln, Hbn.
    destruct (Z.to_nat n) as [|k] eqn:En; [lia|]. cbn [take] in Hh, Hln, Hbn.
    rewrite (vlint_decode_bytes mem a b (take k l)) by (try done; rewrite Hln; unfold n in *; lia).
    rewrite bind_ret. rewrite Ec in *. cbn [take]. eexists _, _. by rewrite Hc'.
Qed.

Lemma reads_sub_packet n : 0 <= n ->
  reads mem (is_view mem) (fun pkt => Ret (PACKET_get_sub_packet pkt n)) (take_bytes n).
Proof.
  intros Hn pkt Hw. unfold PACKET_get_sub_packet, PACKET_peek_sub_packet, PACKET_remaining.
  destruct (Z.ltb_spec (remaining pkt) n) as [|Hr]; [by rewrite (take_bytes_None mem) by done|].
  rewrite (take_bytes_Some mem) by (done || lia). unfold PACKET_buf_init.
  pose proof Hw as [Hr' Hc]. destruct (Z.ltb_spec (SIZE_MAX / 2) n); [lia|].
  destruct (forward_ok mem pkt n Hw) as (? & ? & ?); [lia|].
  eexists _, _. split; [done|]. split; [|done].
  split; [split; simpl; [lia|destruct (curr pkt); lia]|].
  unfold content; simpl. destruct (curr pkt) as [a|]; [|by rewrite take_nil].
  rewrite take_take. f_equal. lia.
Qed.

(** [PACKET_get_bytes] gives the pointer at which a view of the bytes starts. *)
Lemma get_bytes_sub pkt n : wf mem pkt -> 0 <= n ->
  PACKET_get_bytes pkt n =
    match PACKET_get_sub_packet pkt n with
    | (Some sub, p) => (Some (curr sub), p)
    | (None, p) => (None, p)
    end.
Proof.
  intros [Hr _] Hn. unfold PACKET_get_bytes, PACKET_peek_bytes, PACKET_get_sub_packet,
    PACKET_peek_sub_packet, PACKET_buf_init, PACKET_remaining. zcases; done.
Qed.

Lemma sub_packet_fields pkt n sub p : PACKET_get_sub_packet pkt n = (Some sub, p) ->
  sub = {| curr := curr sub; remaining := n |}.
Proof.
  unfold PACKET_get_sub_packet, PACKET_peek_sub_packet, PACKET_buf_init.
  zcase; [done|]. zcase; [done|]. by intros [= <- _].
Qed.

Lemma reads_length_prefixed get p all : reads mem eq get p ->
  (forall l v r, bytes l -> p l = Some (v, r) -> 0 <= v /\ bytes r) ->
  reads mem (is_view mem) (length_prefixed get all) (p_vec p all).
Proof.
  intros Hg Hp pkt Hw. specialize (Hg pkt Hw). unfold length_prefixed, p_vec.
  destruct (p (content mem pkt)) as [[n r]|] eqn:E; simpl; [|by rewrite Hg].
  apply Hp in E as [Hn _]; [|apply bytes_content].
  destruct Hg as (x & tmp & -> & -> & Hw' & <- & He). rewrite bind_ret.
  rewrite get_bytes_sub by done. pose proof (reads_sub_packet n Hn tmp Hw') as Hs.
  destruct (take_bytes n (content mem tmp)) as [[v r']|] eqn:E; simpl.
  - destruct Hs as (sub & tmp' & [= Es] & Hv & Hw2 & <- & He2). rewrite Es.
    rewrite <- (sub_packet_fields _ _ _ _ Es).
    pose proof (length_content mem tmp' Hw2) as Hl. unfold PACKET_remaining.
    assert (remaining tmp' =? 0 = negb (bool_decide (content mem tmp' <> []))) as ->.
    { rewrite <- Hl. destruct (content mem tmp'); case_bool_decide; simpl; (done || lia || congruence). }
    rewrite negb_involutive. destruct (all && bool_decide (content mem tmp' <> [])); [done|]. rewrite He in He2. eauto 8.
  - injection Hs as Hs. by rewrite Hs.
Qed.

Lemma reads_get_quic_length_prefixed :
  reads mem (is_view mem) (PACKET_get_quic_length_prefixed mem) (p_vec p_quic false).
Proof.
  assert (forall l v r, bytes l -> p_quic l = Some (v, r) -> 0 <= v < 2 ^ 62 /\ bytes r) as Hp.
  { intros l v r Hb. unfold p_quic, take_bytes. destruct l as [|b l]; simpl; [done|].
    pose proof (vlint_decode_len_size b ltac:(by inversion Hb)) as Hs. case_decide; simpl; [|done].
    intros [= <- <-]. split; [|by apply bytes_drop].
    assert (2 ^ (8 * ossl_quic_vlint_decode_len b - 2) <= 2 ^ 62).
    { apply Z.pow_le_mono_r; unfold vlint_size in Hs; lia. }
    pose proof (Z.mod_pos_bound (be_get (take (Z.to_nat (ossl_quic_vlint_decode_len b)) (b :: l)))
      (2 ^ (8 * ossl_quic_vlint_decode_len b - 2)) ltac:(destruct Hs as [->|[->|[->| ->]]]; done)). lia. }
  intros pkt Hw.
  pose proof (reads_length_prefixed _ _ false reads_quic) as H.
  specialize (H ltac:(intros l v r Hb E; destruct (Hp l v r Hb E); split; [lia|done]) pkt Hw).
  enough (PACKET_get_quic_length_prefixed mem pkt = length_prefixed (PACKET_get_quic_vlint mem) false pkt) as -> by exact H.
  unfold PACKET_get_quic_length_prefixed, length_prefixed.
  pose proof (reads_quic pkt Hw) as Hq. destruct (p_quic (content mem pkt)) as [[v r]|] eqn:E.
  - destruct Hq as (x & p & -> & -> & _). simpl. apply Hp in E as [? _]; [|apply bytes_content].
    unfold SIZE_MAX, u64. zcase; [lia|]. rewrite Z.mod_small by lia. done.
  - by rewrite Hq.
Qed.
End readers.

(** ** Every reader *)

(** C19: every reader is the parser of its wire format.  On a well-formed packet it
    returns what the format says and leaves the packet a view of the rest, with
    the same end, or returns 0 and leaves the packet as it was; no byte outside
    of the packet is read. *)
Theorem packet_readers mem : bytes mem ->
  reads mem eq (PACKET_get_1 mem) (p_uint 1) /\
  reads mem eq (PACKET_get_net_2 mem) (p_uint 2) /\
  reads mem eq (PACKET_get_net_3 mem) (p_uint 3) /\
  reads mem eq (PACKET_get_net_4 mem) (p_uint 4) /\
  reads mem eq (PACKET_get_4 mem) (p_uint_rev 4) /\
  reads mem eq (PACKET_get_1_len mem) (p_uint 1) /\
  reads mem eq (PACKET_get_net_2_len mem) (p_uint 2) /\
  reads mem eq (PACKET_get_net_3_len mem) (p_uint 3) /\
  reads mem eq (PACKET_get_net_4_len mem) (p_uint 4) /\
  reads mem eq (PACKET_get_quic_vlint mem) p_quic /\
  (forall n, 0 <= n -> reads mem (is_view mem) (fun pkt => Ret (PACKET_get_sub_packet pkt n)) (take_bytes n)) /\
  (forall n, 0 < n -> reads mem eq (fun pkt => PACKET_copy_bytes mem pkt n) (take_bytes n)) /\
  reads mem (is_view mem) (PACKET_get_length_prefixed_1 mem) (p_vec (p_uint 1) false) /\
  reads mem (is_view mem) (PACKET_as_length_prefixed_1 mem) (p_vec (p_uint 1) true) /\
  reads mem (is_view mem) (PACKET_get_length_prefixed_2 mem) (p_vec (p_uint 2) false) /\
  reads mem (is_view mem) (PACKET_as_length_prefixed_2 mem) (p_vec (p_uint 2) true) /\
  reads mem (is_view mem) (PACKET_get_length_prefixed_3 mem) (p_vec (p_uint 3) false) /\
  reads mem (is_view mem) (PACKET_get_quic_length_prefixed mem) (p_vec p_quic false).
Proof.
  intros Hm.
  assert (forall n, 0 <= n -> forall l v r, bytes l -> p_uint n l = Some (v, r) -> 0 <= v /\ bytes r) as Hp.
  { intros n Hn l v r Hb E. destruct (p_uint_range n l v r Hn Hb E) as [[? _] ?]. done. }
  split_and!;
    first [ by apply reads_1 | by apply reads_net_2 | by apply reads_net_3 | by apply reads_net_4
          | by apply reads_4 | by apply reads_quic | by apply reads_get_quic_length_prefixed
          | by apply reads_copy_bytes | by apply reads_sub_packet
          | apply reads_size_t; [done|lia|]; auto using reads_1, reads_net_2, reads_net_3, reads_net_4
          | apply reads_length_prefixed; [done| |apply Hp; lia];
            auto using reads_1, reads_net_2, reads_net_3 ].
Qed.

(** ** Copies *)

Section copies.
Context (mem : list Z) (Hmem : bytes mem).

(** The bytes before the first zero. *)
Fixpoint upto_nul (l : list Z) : list Z :=
  match l with [] => [] | c :: r => if c =? 0 then [] else c :: upto_nul r end.

Lemma strnlen_content pkt : wf mem pkt -> forall l i, 0 <= i ->
  drop (Z.to_nat i) (content mem pkt) = l ->
  strnlen_loop mem (length l) (curr pkt) i = Ret (i + Z.of_nat (length (upto_nul l))).
Proof.
  intros Hw. induction l as [|c l IH]; intros i Hi E; cbn [strnlen_loop length upto_nul].
  { f_equal. simpl. lia. }
  assert (content mem pkt !! Z.to_nat i = Some c) as Hc.
  { pose proof (lookup_drop (content mem pkt) (Z.to_nat i) 0) as L. rewrite E, Nat.add_0_r in L. done. }
  rewrite (deref_content mem pkt i c) by done. rewrite bind_ret.
  destruct (Z.eqb_spec c 0); [simpl; f_equal; lia|].
  rewrite IH; [cbn [length]; f_equal; lia|lia|].
  replace (Z.to_nat (i + 1)) with (Z.to_nat i + 1)%nat by lia.
  rewrite <- drop_drop, E. done.
Qed.

Lemma upto_nul_prefix l : upto_nul l = take (length (upto_nul l)) l.
Proof. induction l as [|c l IH]; [done|]. cbn [upto_nul]. destruct (c =? 0); [done|]. cbn. by f_equal. Qed.

Lemma length_upto_nul l : (length (upto_nul l) <= length l)%nat.
Proof. induction l as [|c l IH]; cbn; [done|]. destruct (c =? 0); cbn; lia. Qed.

(** C1: what the functions that copy or compare do with a packet at memory: the
    comparison is equality, the copies are the contents, [PACKET_strndup] ends at
    the first zero byte, and only allocation (and 2^31 - 1 bytes) can fail. *)
Theorem packet_copies {B} pkt (data : option B) ok : wf mem pkt -> curr pkt <> None ->
  (forall ptr, bytes ptr -> PACKET_equal mem pkt ptr (Z.of_nat (length ptr)) =
     Ret (bool_decide (content mem pkt = ptr))) /\
  (forall dest_len, PACKET_copy_all mem pkt dest_len =
     Ret (if dest_len <? remaining pkt then (false, [], 0)
          else (true, content mem pkt, remaining pkt))) /\
  PACKET_memdup mem ok pkt data =
     Ret (if remaining pkt =? 0 then (true, None, 0, data)
          else if (remaining pkt <? INT_MAX) && ok
          then (true, Some (content mem pkt), remaining pkt, data)
          else (false, None, 0, data)) /\
  PACKET_strndup mem ok pkt data =
     Ret (if ok then (true, Some (upto_nul (content mem pkt) ++ [0]), data)
          else (false, None, data)) /\
  PACKET_contains_zero_byte mem pkt = Ret (bool_decide (0 ∈ content mem pkt)).
Proof.
  intros Hw Hc. pose proof (length_content mem pkt Hw) as Hl. pose proof Hw as [Hr _].
  assert (read_bytes mem (curr pkt) (remaining pkt) = Ret (content mem pkt)) as Hall.
  { rewrite (read_content mem pkt) by (done || lia). by rewrite take_ge by lia. }
  split_and!.
  - intros ptr Hb. unfold PACKET_equal, PACKET_remaining.
    destruct (Z.eqb_spec (remaining pkt) (Z.of_nat (length ptr))) as [E|E]; cbn [negb].
    + zcase.
      { destruct ptr; [|simpl in *; lia]. destruct (content mem pkt); [by rewrite bool_decide_true|simpl in *; lia]. }
      rewrite <- E, Hall, bind_ret. apply (f_equal Ret).
      pose proof (memcmp_zero (Z.to_nat (remaining pkt)) 0 (content mem pkt) ptr ltac:(lia)
        (bytes_content mem Hmem pkt) Hb ltac:(lia) ltac:(lia)) as M. rewrite !take_ge in M by lia.
      case_bool_decide as Hd; [apply Z.eqb_eq, M; done|]. apply Z.eqb_neq. intros F. by apply M in F as [_ F].
    + rewrite bool_decide_false; [done|]. intros <-. lia.
  - intros n. unfold PACKET_copy_all, PACKET_remaining. zcase; [done|]. by rewrite Hall.
  - unfold PACKET_memdup, PACKET_remaining, CRYPTO_memdup. zcase; [done|].
    rewrite bool_decide_false by done. cbn [orb].
    destruct (Z.ltb_spec (remaining pkt) INT_MAX), (Z.leb_spec INT_MAX (remaining pkt)); try lia; [|done].
    destruct ok; [|done]. by rewrite Hall.
  - unfold PACKET_strndup, CRYPTO_strndup, OPENSSL_strnlen, PACKET_remaining.
    rewrite decide_False by done. rewrite <- Hl, Nat2Z.id.
    rewrite (strnlen_content pkt Hw (content mem pkt) 0) by (done || lia). rewrite bind_ret, Z.add_0_l.
    destruct ok; [|done]. pose proof (length_upto_nul (content mem pkt)).
    rewrite (read_content mem pkt) by (done || lia). rewrite bind_ret, Nat2Z.id, <- upto_nul_prefix. done.
  - unfold PACKET_contains_zero_byte, memchr. by rewrite Hall.
Qed.
End copies.

(** A packet of no bytes at no memory: [memcpy] and [memchr] of a null pointer. *)
Lemma null_packet_copies mem n : 0 <= n ->
  PACKET_copy_all mem PACKET_null_init n = Fault /\
  PACKET_copy_bytes mem PACKET_null_init 0 = Fault /\
  PACKET_contains_zero_byte mem PACKET_null_init = Fault.
Proof. intros Hn. unfold PACKET_copy_all. simpl. zcase; [lia|done]. Qed.

Definition sample : list Z := [0; 3; 97; 0; 98; 99].

Lemma packet_readers_witness :
  bytes sample /\
  PACKET_get_net_2 sample {| curr := Some 0; remaining := 6 |} =
    Ret (Some 3, {| curr := Some 2; remaining := 4 |}) /\
  reads sample (is_view sample) (PACKET_get_length_prefixed_2 sample) (p_vec (p_uint 2) false).
Proof.
  split; [solve_closed|]. split; [reflexivity|]. eapply packet_readers. solve_closed.
Defined.

Lemma packet_copies_witness :
  PACKET_equal sample {| curr := Some 2; remaining := 4 |} [97; 0; 98; 99] 4 = Ret true /\
  PACKET_strndup sample true {| curr := Some 2; remaining := 4 |} (@None Z) =
    Ret (true, Some [97; 0], None).
Proof.
  destruct (packet_copies sample ltac:(solve_closed) {| curr := Some 2; remaining := 4 |} (@None Z) true)
    as (H1 & _ & _ & H4 & _); [split; simpl; [split; vm_compute; discriminate|lia]|done|].
  split; [|exact H4]. exact (H1 [97; 0; 98; 99] ltac:(solve_closed)).
Defined.
