(* ===== verification/BufMem.v ===== *)
(** * Growing buffers

    [BUF_MEM] of crypto/buffer/buffer.c: a block of [max] bytes of which the first
    [length] are in use.  The block is a byte string of its real size; what the
    allocator answers is an argument: nothing, or a block whose bytes are given
    by a function of their index. *)

From S2P Require Import Prelude Bytes.

Definition LIMIT_BEFORE_EXPANSION : Z := 0x5ffffffc.
Definition BUF_MEM_FLAG_SECURE : Z := 1.

Record BUF_MEM : Type :=
  { bm_length : Z; bm_data : option (list Z); bm_max : Z; bm_flags : Z }.

(** The answer of the allocator. *)
Definition fresh : Type := option (nat -> Z).

Definition new_block (f : nat -> Z) (n : nat) : list Z := f <$> seq 0 n.

(** [OPENSSL_realloc]: a block of [n] bytes that begins with those of the old
    one. *)
Definition realloc (fr : fresh) (old : option (list Z)) (n : Z) : option (list Z) :=
  match fr with
  | None => None
  | Some f =>
      let o := take (Z.to_nat n) (default [] old) in
      Some (blit 0 o (new_block f (Z.to_nat n)))
  end.

Definition memset_block (d : option (list Z)) (off : Z) (c : Z) (n : Z) : outcome (option (list Z)) :=
  match d with
  | None => Fault
  | Some m => m ← mem_write m off (replicate (Z.to_nat n) c); Ret (Some m)
  end.

Definition set_length (b : BUF_MEM) (len : Z) : BUF_MEM :=
  {| bm_length := len; bm_data := bm_data b; bm_max := bm_max b; bm_flags := bm_flags b |}.

Definition set_block (b : BUF_MEM) (d : option (list Z)) (n : Z) : BUF_MEM :=
  {| bm_length := bm_length b; bm_data := d; bm_max := n; bm_flags := bm_flags b |}.

Definition BUF_MEM_new (ok : bool) : option BUF_MEM :=
  if ok then Some {| bm_length := 0; bm_data := None; bm_max := 0; bm_flags := 0 |} else None.

Definition BUF_MEM_new_ex (ok : bool) (flags : Z) : option BUF_MEM :=
  match BUF_MEM_new ok with
  | None => None
  | Some ret =>
      Some {| bm_length := bm_length ret; bm_data := bm_data ret; bm_max := bm_max ret; bm_flags := flags |}
  end.

(** What is given back to the allocator: the block, with [max] bytes cleared. *)
Definition BUF_MEM_free (a : option BUF_MEM) : outcome (option (list Z)) :=
  match a with
  | None => Ret None
  | Some a =>
      match bm_data a with
      | None => Ret None
      | Some _ => memset_block (bm_data a) 0 0 (bm_max a)
      end
  end.

(** The new block, if there is one; then the old one has been released. *)
Definition sec_alloc_realloc (fr : fresh) (str : BUF_MEM) (len : Z) : outcome (option (list Z)) :=
  match fr with
  | None => Ret None
  | Some f =>
      let ret := new_block f (Z.to_nat len) in
      match bm_data str with
      | None => Ret (Some ret)
      | Some d => old ← mem_read d 0 (bm_length str); m ← mem_write ret 0 old; Ret (Some m)
      end
  end.

(** The new block, from here on the same in both functions. *)
Definition grow_to (fr : fresh) (str : BUF_MEM) (len : Z) : outcome (Z * BUF_MEM) :=
  if LIMIT_BEFORE_EXPANSION <? len then Ret (0, str)
  else
    let n := (len + 3) / 3 * 4 in
    ret ← (if negb (Z.land (bm_flags str) BUF_MEM_FLAG_SECURE =? 0)
           then sec_alloc_realloc fr str n
           else Ret (realloc fr (bm_data str) n));
    match ret with
    | None => Ret (0, str)
    | Some _ =>
        let str := set_block str ret n in
        d ← memset_block (bm_data str) (bm_length str) 0 (len - bm_length str);
        Ret (len, set_length (set_block str d n) len)
    end.

Definition BUF_MEM_grow (fr : fresh) (str : BUF_MEM) (len : Z) : outcome (Z * BUF_MEM) :=
  if len <=? bm_length str then Ret (len, set_length str len)
  else if len <=? bm_max str then
    d ← (match bm_data str with
         | None => Ret None
         | Some _ => memset_block (bm_data str) (bm_length str) 0 (len - bm_length str)
         end);
    Ret (len, set_length (set_block str d (bm_max str)) len)
  else grow_to fr str len.

Definition BUF_MEM_grow_clean (fr : fresh) (str : BUF_MEM) (len : Z) : outcome (Z * BUF_MEM) :=
  if len <=? bm_length str then
    d ← (match bm_data str with
         | None => Ret None
         | Some _ => memset_block (bm_data str) len 0 (bm_length str - len)
         end);
    Ret (len, set_length (set_block str d (bm_max str)) len)
  else if len <=? bm_max str then
    d ← memset_block (bm_data str) (bm_length str) 0 (len - bm_length str);
    Ret (len, set_length (set_block str d (bm_max str)) len)
  else grow_to fr str len.

(** [*out-- = *in++], [size] times *)
Fixpoint reverse_copy (k : nat) (i : Z) (out inp : list Z) (size : Z) : outcome (list Z) :=
  match k with
  | O => Ret out
  | S k' =>
      c ← aget inp i; out ← aset out (size - 1 - i) c;
      reverse_copy k' (i + 1) out inp size
  end.

(** [c = *q; *q-- = *out; *out++ = c], [size / 2] times *)
Fixpoint reverse_swap (k : nat) (i : Z) (out : list Z) (size : Z) : outcome (list Z) :=
  match k with
  | O => Ret out
  | S k' =>
      c ← aget out (size - 1 - i); x ← aget out i;
      out ← aset out (size - 1 - i) x; out ← aset out i c;
      reverse_swap k' (i + 1) out size
  end.

(** [in] is null, or memory apart from [out]. *)
Definition BUF_reverse (out : list Z) (inp : option (list Z)) (size : Z) : outcome (list Z) :=
  match inp with
  | Some l => reverse_copy (Z.to_nat size) 0 out l size
  | None => reverse_swap (Z.to_nat (size / 2)) 0 out size
  end.

(** ** The block and its contents *)

Definition bm_wf (b : BUF_MEM) : Prop :=
  0 <= bm_length b <= bm_max b /\
  match bm_data b with
  | Some d => Z.of_nat (length d) = bm_max b
  | None => bm_max b = 0
  end.

Definition bm_content (b : BUF_MEM) : list Z := take (Z.to_nat (bm_length b)) (default [] (bm_data b)).

(** The first [n] bytes of [l] followed by zeros. *)
Definition resize0 (n : Z) (l : list Z) : list Z :=
  take (Z.to_nat n) l ++ replicate (Z.to_nat n - length l) 0.

Lemma length_new_block f n : length (new_block f n) = n.
Proof. unfold new_block. by rewrite length_fmap, length_seq. Qed.

Lemma length_bm_content b : bm_wf b -> length (bm_content b) = Z.to_nat (bm_length b).
Proof.
  intros [H Hd]. unfold bm_content. rewrite length_take.
  destruct (bm_data b); simpl; lia.
Qed.

(** What writing zeros over the end of [m] leaves in front. *)
Lemma take_blit_zeros (m : list Z) (a n : nat) : (a <= n)%nat -> (n <= length m)%nat ->
  take n (blit a (replicate (n - a) 0) m) = take a m ++ replicate (n - a) 0.
Proof.
  intros H1 H2. unfold blit. rewrite length_replicate.
  rewrite take_app_ge by (rewrite length_take; lia). f_equal.
  rewrite length_take, Nat.min_l by lia. rewrite take_app_le by (rewrite length_replicate; lia).
  by rewrite take_ge by (rewrite length_replicate; lia).
Qed.

Lemma memset_zeros (m : list Z) (a n : Z) : 0 <= a <= n -> n <= Z.of_nat (length m) ->
  exists m', memset_block (Some m) a 0 (n - a) = Ret (Some m') /\ length m' = length m /\
    take (Z.to_nat n) m' = take (Z.to_nat a) m ++ replicate (Z.to_nat n - Z.to_nat a) 0.
Proof.
  intros Ha Hn. unfold memset_block. rewrite mem_write_ok by (rewrite ?length_replicate; lia).
  eexists. split; [reflexivity|]. replace (Z.to_nat (n - a)) with (Z.to_nat n - Z.to_nat a)%nat by lia.
  split; [apply length_blit; rewrite length_replicate; lia|]. apply take_blit_zeros; lia.
Qed.

(** The outcome of growing: the length is as asked for and the contents are kept
    and followed by zeros, or the buffer is as before since it is too small and
    there is no memory or the length is over the limit. *)
Definition grown (fr : fresh) (b : BUF_MEM) (len : Z) (r : Z) (b' : BUF_MEM) : Prop :=
  bm_wf b' /\
  ((r = len /\ bm_length b' = len /\ bm_content b' = resize0 len (bm_content b) /\ bm_flags b' = bm_flags b) \/
   (r = 0 /\ b' = b /\ bm_max b < len /\ (fr = None \/ LIMIT_BEFORE_EXPANSION < len))).

Lemma grown_fill (fr : fresh) b len d n :
  bm_wf b -> bm_length b < len -> len <= n -> n = Z.of_nat (length d) ->
  take (Z.to_nat (bm_length b)) d = bm_content b ->
  exists d', memset_block (Some d) (bm_length b) 0 (len - bm_length b) = Ret d' /\
    grown fr b len len (set_length (set_block b d' n) len).
Proof.
  intros [Hl Hd] Hlen Hn En Ec.
  destruct (memset_zeros d (bm_length b) len) as (m' & E & Lm & Et); [lia|lia|].
  exists (Some m'). split; [done|]. split; [split; simpl; lia|]. left.
  split; [done|]. split; [done|]. split; [|done].
  unfold bm_content at 1; simpl. rewrite Et, Ec. unfold resize0.
  rewrite length_bm_content by done. rewrite take_ge by (rewrite length_bm_content by done; lia). done.
Qed.

Lemma grown_shrink (fr : fresh) b len d :
  bm_wf b -> 0 <= len <= bm_length b -> d = None /\ bm_data b = None \/
    (exists m m', d = Some m' /\ bm_data b = Some m /\ length m' = length m /\
       take (Z.to_nat len) m' = take (Z.to_nat len) m) ->
  grown fr b len len (set_length (set_block b d (bm_max b)) len).
Proof.
  intros [Hl Hd] Hlen Hdd. assert (bm_wf b) as Hw by done.
  assert (forall l, (length l = Z.to_nat (bm_length b))%nat -> resize0 len l = take (Z.to_nat len) l) as Hr.
  { intros l L. unfold resize0. replace (Z.to_nat len - length l)%nat with 0%nat by lia. by rewrite app_nil_r. }
  destruct Hdd as [[-> E]|(m & m' & -> & E & L & T)]; rewrite E in Hd.
  - split; [split; simpl; lia|]. left. do 2 (split; [done|]). split; [|done].
    rewrite Hr by by apply length_bm_content. unfold bm_content; simpl. rewrite E. simpl. by rewrite !take_nil.
  - split; [split; simpl; lia|]. left. do 2 (split; [done|]). split; [|done].
    rewrite Hr by by apply length_bm_content. unfold bm_content; simpl. rewrite E. simpl.
    rewrite take_take, Nat.min_l by lia. done.
Qed.

Lemma realloc_keeps f b n : bm_wf b -> bm_length b <= n ->
  exists d, realloc (Some f) (bm_data b) n = Some d /\ Z.of_nat (length d) = Z.max 0 n /\
    take (Z.to_nat (bm_length b)) d = bm_content b.
Proof.
  intros [Hl Hd] Hn. unfold realloc, bm_content. eexists. split; [reflexivity|].
  set (o := default [] (bm_data b)).
  assert (bm_length b <= Z.of_nat (length o)) as Ho by (unfold o; destruct (bm_data b); simpl; lia).
  split; [rewrite length_blit; rewrite ?length_take, length_new_block; lia|].
  unfold blit. rewrite take_0, app_nil_l, take_app_le by (rewrite length_take; lia).
  rewrite take_take. f_equal. lia.
Qed.

Lemma sec_realloc_keeps f b n : bm_wf b -> bm_length b <= n ->
  exists d, sec_alloc_realloc (Some f) b n = Ret (Some d) /\ Z.of_nat (length d) = Z.max 0 n /\
    take (Z.to_nat (bm_length b)) d = bm_content b.
Proof.
  intros [Hl Hd] Hn. unfold sec_alloc_realloc, bm_content. destruct (bm_data b) as [o|].
  - rewrite mem_read_ok by lia. rewrite bind_ret. simpl (default _ _).
    rewrite mem_write_ok by (rewrite ?length_new_block, ?length_take, ?length_drop; lia).
    eexists. split; [reflexivity|]. change (Z.to_nat 0) with 0%nat. rewrite drop_0.
    split; [rewrite length_blit; rewrite ?length_take, ?length_new_block; lia|].
    unfold blit. rewrite take_0, app_nil_l, take_app_le by (rewrite length_take; lia).
    rewrite take_take. f_equal. lia.
  - eexists. split; [reflexivity|]. split; [rewrite length_new_block; lia|].
    replace (bm_length b) with 0 by lia. done.
Qed.

Lemma grow_to_ok fr b len : bm_wf b -> bm_max b < len ->
  exists r b', grow_to fr b len = Ret (r, b') /\ grown fr b len r b'.
Proof.
  intros Hw Hm. pose proof Hw as [Hl Hd]. unfold grow_to.
  destruct (Z.ltb_spec LIMIT_BEFORE_EXPANSION len) as [|Hlim].
  { eexists _, _. split; [done|]. split; [done|]. right. eauto. }
  set (n := (len + 3) / 3 * 4). assert (len <= n) as Hn by (unfold n; Z.div_mod_to_equations; lia).
  destruct fr as [f|].
  - assert (exists d, (if negb (Z.land (bm_flags b) BUF_MEM_FLAG_SECURE =? 0)
        then sec_alloc_realloc (Some f) b n else Ret (realloc (Some f) (bm_data b) n)) = Ret (Some d) /\
        Z.of_nat (length d) = Z.max 0 n /\ take (Z.to_nat (bm_length b)) d = bm_content b) as (d & -> & Ld & Td).
    { destruct (negb _).
      - apply sec_realloc_keeps; [done|lia].
      - destruct (realloc_keeps f b n Hw) as (d & -> & ?); [lia|eauto]. }
    rewrite bind_ret. cbn beta iota.
    destruct (grown_fill (Some f) b len d n Hw) as (d' & E & G); [lia|lia|lia|done|].
    simpl bm_length. simpl bm_data. rewrite E, bind_ret. eexists _, _. split; [reflexivity|done].
  - assert ((if negb (Z.land (bm_flags b) BUF_MEM_FLAG_SECURE =? 0)
        then sec_alloc_realloc None b n else Ret (realloc None (bm_data b) n)) = Ret None) as ->
      by by destruct (negb _).
    eexists _, _. split; [done|]. split; [done|]. right. eauto.
Qed.

(** Growing is total: it does what [grown] says for every buffer and length. *)
Theorem buf_mem_grows fr b len : bm_wf b -> 0 <= len ->
  (exists r b', BUF_MEM_grow fr b len = Ret (r, b') /\ grown fr b len r b') /\
  (exists r b', BUF_MEM_grow_clean fr b len = Ret (r, b') /\ grown fr b len r b' /\
     (len < bm_length b -> forall d, bm_data b' = Some d ->
        take (Z.to_nat (bm_length b) - Z.to_nat len) (drop (Z.to_nat len) d) =
          replicate (Z.to_nat (bm_length b) - Z.to_nat len) 0)).
Proof.
  intros Hw H0. pose proof Hw as [Hl Hd]. unfold BUF_MEM_grow, BUF_MEM_grow_clean.
  destruct (Z.leb_spec len (bm_length b)) as [Hle|Hgt].
  - split.
    + eexists _, _. split; [reflexivity|].
      replace (set_length b len) with (set_length (set_block b (bm_data b) (bm_max b)) len) by by destruct b.
      apply grown_shrink; [done|lia|]. destruct (bm_data b); [right|left]; eauto 8.
    + destruct (bm_data b) as [m|] eqn:E.
      * unfold memset_block. rewrite mem_write_ok by (rewrite ?length_replicate; lia).
        rewrite !bind_ret. eexists _, _. split; [reflexivity|].
        set (k := Z.to_nat (bm_length b - len)). assert (k = Z.to_nat (bm_length b) - Z.to_nat len)%nat as Ek by lia.
        assert (length (take (Z.to_nat len) m) = Z.to_nat len) as Lt by (rewrite length_take; lia).
        split.
        -- apply grown_shrink; [done|lia|]. right. eexists _, _.
           split_and!; [reflexivity|exact E|apply length_blit; rewrite length_replicate; lia|].
           unfold blit. by rewrite take_app_le, take_ge by lia.
        -- intros _ d [= <-]. unfold blit. rewrite drop_app_ge by lia. rewrite Lt, Nat.sub_diag, drop_0, <- Ek.
           rewrite take_app_le by (rewrite length_replicate; lia). by rewrite take_ge by (rewrite length_replicate; lia).
      * rewrite bind_ret. eexists _, _. split; [reflexivity|]. split; [|done].
        apply grown_shrink; [done|lia|]. by left.
  - destruct (Z.leb_spec len (bm_max b)).
    + destruct (bm_data b) as [m|] eqn:E; [|lia].
      destruct (grown_fill fr b len m (bm_max b) Hw) as (d' & Em & G); [lia..|by unfold bm_content; rewrite E|].
      rewrite Em, !bind_ret. split; eexists _, _; (split; [reflexivity|]); [done|]. split; [done|lia].
    + destruct (grow_to_ok fr b len Hw) as (r & b' & -> & G); [lia|].
      split; eexists _, _; (split; [reflexivity|]); [done|]. split; [done|lia].
Qed.

(** ** Reversal *)

Lemma reverse_copy_ok k : forall i out inp size,
  size = Z.of_nat (length inp) -> length out = length inp -> 0 <= i -> i + Z.of_nat k = size ->
  drop (Z.to_nat (size - i)) out = reverse (take (Z.to_nat i) inp) ->
  reverse_copy k i out inp size = Ret (reverse inp).
Proof.
  induction k as [|k IH]; intros i out inp size Es Hl Hi Hk Hd; cbn [reverse_copy].
  - f_equal. replace (size - i) with 0 in Hd by lia. simpl in Hd.
    rewrite drop_0 in Hd. by rewrite Hd, take_ge by lia.
  - destruct (lookup_lt_is_Some_2 inp (Z.to_nat i)) as [c Ec]; [lia|].
    rewrite (aget_lookup _ _ c), bind_ret by (done || lia). rewrite aset_ok, bind_ret by lia.
    apply IH; [done|by rewrite length_insert|lia|lia|].
    replace (Z.to_nat (i + 1)) with (S (Z.to_nat i)) by lia. rewrite (take_S_r _ _ c) by done.
    rewrite reverse_app. cbn [reverse rev_append app]. change (reverse [c]) with [c]. cbn [app].
    replace (Z.to_nat (size - (i + 1))) with (Z.to_nat (size - 1 - i)) by lia.
    rewrite (drop_S _ c) by (rewrite list_lookup_insert_eq; [done|lia]).
    f_equal. rewrite drop_insert_lt by lia. rewrite <- Hd. f_equal. lia.
Qed.

Definition swapped (i : nat) (l out : list Z) : Prop :=
  length out = length l /\
  forall j : nat, (j < length l)%nat ->
    out !! j = if decide (j < i \/ length l - i <= j)%nat then l !! (length l - 1 - j)%nat else l !! j.

Lemma reverse_swap_ok k : forall i l out,
  swapped i l out -> (i + k = length l / 2)%nat ->
  exists out', reverse_swap k (Z.of_nat i) out (Z.of_nat (length l)) = Ret out' /\ swapped (i + k) l out'.
Proof.
  induction k as [|k IH]; intros i l out [Hl Hs] Hk; cbn [reverse_swap].
  { exists out. rewrite Nat.add_0_r. done. }
  assert (i < length l / 2)%nat as Hi by lia. assert (2 * (length l / 2) <= length l)%nat by (apply Nat.Div0.mul_div_le).
  destruct (lookup_lt_is_Some_2 l i) as [x Ex]; [lia|].
  destruct (lookup_lt_is_Some_2 l (length l - 1 - i)) as [c Ec]; [lia|].
  replace (Z.of_nat (length l) - 1 - Z.of_nat i) with (Z.of_nat (length l - 1 - i)) by lia.
  rewrite (aget_nat out (length l - 1 - i) c) by (rewrite Hs by lia; rewrite decide_False by lia; done).
  rewrite bind_ret. rewrite (aget_nat out i x) by (rewrite Hs by lia; rewrite decide_False by lia; done).
  rewrite bind_ret. rewrite aset_nat by lia. rewrite bind_ret.
  rewrite aset_nat by (rewrite length_insert; lia). rewrite bind_ret.
  replace (Z.of_nat i + 1) with (Z.of_nat (S i)) by lia.
  replace (i + S k)%nat with (S i + k)%nat by lia. apply IH; [|lia].
  split; [by rewrite !length_insert|]. intros j Hj.
  destruct (decide (j = i)) as [->|].
  { rewrite list_lookup_insert_eq by (rewrite length_insert; lia). by rewrite decide_True by lia. }
  rewrite list_lookup_insert_ne by done.
  destruct (decide (j = length l - 1 - i)%nat) as [->|].
  { rewrite list_lookup_insert_eq by lia. rewrite decide_True by lia. rewrite <- Ex. f_equal. lia. }
  rewrite list_lookup_insert_ne by done. rewrite Hs by done.
  destruct (decide (j < i \/ length l - i <= j)%nat), (decide (j < S i \/ length l - S i <= j)%nat); (done || lia).
Qed.

(** [BUF_reverse], from other memory and in place. *)
Theorem buf_reverse_ok out inp :
  (length out = length inp -> BUF_reverse out (Some inp) (Z.of_nat (length inp)) = Ret (reverse inp)) /\
  BUF_reverse out None (Z.of_nat (length out)) = Ret (reverse out).
Proof.
  split.
  - intros Hl. apply reverse_copy_ok; [done..|lia|lia|]. rewrite Z.sub_0_r, Nat2Z.id.
    by rewrite drop_ge by lia.
  - simpl. replace (Z.to_nat (Z.of_nat (length out) / 2)) with (length out / 2)%nat.
    2:{ change 2 with (Z.of_nat 2). by rewrite <- Nat2Z.inj_div, Nat2Z.id. }
    destruct (reverse_swap_ok (length out / 2) 0 out out) as (o & E & Hl & Hs); [|lia|].
    { split; [done|]. intros j Hj. by rewrite decide_False by lia. }
    change (Z.of_nat 0) with 0 in E. rewrite E. f_equal. apply list_eq. intros j.
    destruct (Nat.lt_ge_cases j (length out)) as [Hj|].
    + rewrite Hs by done. rewrite reverse_lookup by done.
      pose proof (Nat.div_mod_eq (length out) 2). pose proof (Nat.mod_upper_bound (length out) 2).
      case_decide as D; [f_equal; lia|]. f_equal. lia.
    + rewrite !lookup_ge_None_2 by (rewrite ?length_reverse; lia). done.
Qed.
