(* ===== verification/WPacket.v ===== *)
(** * Writing packets

    The writer of crypto/packet.c and include/internal/packet.h, in a release build
    ([ossl_assert] only returns the condition) with 64-bit [size_t].  A [WPACKET]
    writes to a growing [BUF_MEM], to a buffer of a fixed size or, to count only,
    to none; the record holds the contents of the buffer with the pointer to it.
    Pointers into the buffer are offsets, [None] is null.  The sub-packets are a
    list, the innermost first; the parent of one is the next.  [alloc n] is what
    the allocator answers to the [n]th request; the field [calls] counts the
    requests and belongs to the model alone.

    A function that returns 0 or 1 returns an option, [None] for 0, and the packet
    after it, since a failure may leave changes behind. *)

From S2P Require Import Prelude Bytes QuicVlint BufMem Packet.

Definition DEFAULT_BUF_SIZE : Z := 256.
Definition WPACKET_FLAGS_NON_ZERO_LENGTH : Z := 1.
Definition WPACKET_FLAGS_ABANDON_ON_ZERO_LENGTH : Z := 2.
Definition WPACKET_FLAGS_QUIC_VLINT : Z := 4.

Record WPACKET_SUB : Type :=
  { packet_len : Z; lenbytes : Z; pwritten : Z; flags : Z }.

Record WPACKET : Type :=
  { buf : option BUF_MEM;
    staticbuf : option (list Z);
    wcurr : Z;
    written : Z;
    maxsize : Z;
    subs : list WPACKET_SUB;
    endfirst : bool;
    calls : nat }.

Definition set_buf b p : WPACKET :=
  {| buf := b; staticbuf := staticbuf p; wcurr := wcurr p; written := written p;
     maxsize := maxsize p; subs := subs p; endfirst := endfirst p; calls := calls p |}.
Definition set_static b p : WPACKET :=
  {| buf := buf p; staticbuf := b; wcurr := wcurr p; written := written p;
     maxsize := maxsize p; subs := subs p; endfirst := endfirst p; calls := calls p |}.
Definition set_pos c w p : WPACKET :=
  {| buf := buf p; staticbuf := staticbuf p; wcurr := c; written := w;
     maxsize := maxsize p; subs := subs p; endfirst := endfirst p; calls := calls p |}.
Definition set_maxsize m p : WPACKET :=
  {| buf := buf p; staticbuf := staticbuf p; wcurr := wcurr p; written := written p;
     maxsize := m; subs := subs p; endfirst := endfirst p; calls := calls p |}.
Definition set_subs s p : WPACKET :=
  {| buf := buf p; staticbuf := staticbuf p; wcurr := wcurr p; written := written p;
     maxsize := maxsize p; subs := s; endfirst := endfirst p; calls := calls p |}.
Definition called p : WPACKET :=
  {| buf := buf p; staticbuf := staticbuf p; wcurr := wcurr p; written := written p;
     maxsize := maxsize p; subs := subs p; endfirst := endfirst p; calls := S (calls p) |}.

(** The contents of the buffer that the packet writes to, if there is one. *)
Definition GETBUF (p : WPACKET) : option (list Z) :=
  match staticbuf p with
  | Some b => Some b
  | None => match buf p with Some b => bm_data b | None => None end
  end.

Definition set_mem (m : list Z) (p : WPACKET) : WPACKET :=
  match staticbuf p with
  | Some _ => set_static (Some m) p
  | None =>
      match buf p with
      | Some b => set_buf (Some (set_block b (Some m) (bm_max b))) p
      | None => p
      end
  end.

Notation res A := (outcome (option A * WPACKET)).

Definition ok {A} (x : A) (p : WPACKET) : res A := Ret (Some x, p).
Definition fail {A} (p : WPACKET) : res A := Ret (None, p).

(** [if (!m) return 0;] and on with the rest. *)
Definition and_then {A B} (m : res A) (k : A -> WPACKET -> res B) : res B :=
  '(r, p) ← m; match r with Some x => k x p | None => fail p end.

(** [memcpy(ptr, l, |l|)] *)
Definition store (p : WPACKET) (ptr : option Z) (l : list Z) : outcome WPACKET :=
  match ptr, GETBUF p with
  | Some a, Some m => m ← mem_write m a l; Ret (set_mem m p)
  | _, _ => Fault
  end.

(** ** Reserving room *)

Definition WPACKET_get_curr (pkt : WPACKET) : option Z :=
  match GETBUF pkt with
  | None => None
  | Some _ => Some (if endfirst pkt then maxsize pkt - wcurr pkt else wcurr pkt)
  end.

Section alloc.
Context (alloc : nat -> fresh).

Definition reserve_newlen (b : BUF_MEM) (len : Z) : Z :=
  let reflen := if bm_length b <? len then len else bm_length b in
  if SIZE_MAX / 2 <? reflen then SIZE_MAX
  else
    let newlen := reflen * 2 in
    if newlen <? DEFAULT_BUF_SIZE then DEFAULT_BUF_SIZE else newlen.

(** The result is [*allocbytes]. *)
Definition WPACKET_reserve_bytes (pkt : WPACKET) (len : Z) : res (option Z) :=
  if bool_decide (subs pkt = []) || (len =? 0) then fail pkt
  else if u64 (maxsize pkt - written pkt) <? len then fail pkt
  else
    and_then
      (match buf pkt with
       | None => ok tt pkt
       | Some b =>
           if u64 (bm_length b - written pkt) <? len then
             '(r, b) ← BUF_MEM_grow (alloc (calls pkt)) b (reserve_newlen b len);
             let pkt := called (set_buf (Some b) pkt) in
             if r =? 0 then fail pkt else ok tt pkt
           else ok tt pkt
       end)
      (fun _ pkt =>
         let p := WPACKET_get_curr pkt in
         ok (if endfirst pkt then (fun a => a - len) <$> p else p) pkt).

Definition WPACKET_allocate_bytes (pkt : WPACKET) (len : Z) : res (option Z) :=
  and_then (WPACKET_reserve_bytes pkt len) (fun p pkt =>
    ok p (set_pos (u64 (wcurr pkt + len)) (u64 (written pkt + len)) pkt)).

(** [want] tells that [allocbytes] is not null. *)
Definition WPACKET_sub_reserve_bytes__ (pkt : WPACKET) (len : Z) (want : bool) (lenbytes : Z)
    : res (option Z) :=
  if endfirst pkt && (0 <? lenbytes) then fail pkt
  else
    and_then (WPACKET_reserve_bytes pkt (u64 (lenbytes + len))) (fun p pkt =>
      if negb want then Fault else ok ((fun a => a + lenbytes) <$> p) pkt).

(** ** Starting *)

Definition maxmaxsize (lenbytes : Z) : Z :=
  if (8 <=? lenbytes) || (lenbytes =? 0) then SIZE_MAX
  else u64 (u64 (Z.shiftl 1 (lenbytes * 8)) - 1 + lenbytes).

(** [OPENSSL_zalloc] of a sub-packet: whether it succeeded, and the packet after
    the request. *)
Definition zalloc_sub (pkt : WPACKET) : bool * WPACKET :=
  (match alloc (calls pkt) with Some _ => true | None => false end, called pkt).

Definition wpacket_intern_init_len (pkt : WPACKET) (lenbytes : Z) : res unit :=
  let pkt := set_pos 0 0 pkt in
  let '(got, pkt) := zalloc_sub pkt in
  if negb got then fail (set_subs [] pkt)
  else if lenbytes =? 0 then
    ok tt (set_subs [{| packet_len := 0; lenbytes := 0; pwritten := 0; flags := 0 |}] pkt)
  else
    let sub := {| packet_len := 0; lenbytes := lenbytes; pwritten := lenbytes; flags := 0 |} in
    '(r, pkt) ← WPACKET_allocate_bytes (set_subs [sub] pkt) lenbytes;
    match r with
    | None => fail (set_subs [] pkt)
    | Some _ => ok tt pkt
    end.

Definition init_fields b s m e (pkt : WPACKET) : WPACKET :=
  {| buf := b; staticbuf := s; wcurr := wcurr pkt; written := written pkt; maxsize := m;
     subs := subs pkt; endfirst := e; calls := calls pkt |}.

Definition WPACKET_init_static_len (pkt : WPACKET) (b : option (list Z)) (len lenbytes : Z) : res unit :=
  let max := maxmaxsize lenbytes in
  if bool_decide (b = None) || (len =? 0) then fail pkt
  else
    wpacket_intern_init_len (init_fields None b (if max <? len then max else len) false pkt) lenbytes.

Definition WPACKET_init_der (pkt : WPACKET) (b : option (list Z)) (len : Z) : res unit :=
  if bool_decide (b = None) || (len =? 0) then fail pkt
  else wpacket_intern_init_len (init_fields None b len true pkt) 0.

Definition WPACKET_init_len (pkt : WPACKET) (b : option BUF_MEM) (lenbytes : Z) : res unit :=
  match b with
  | None => fail pkt
  | Some _ => wpacket_intern_init_len (init_fields b None (maxmaxsize lenbytes) false pkt) lenbytes
  end.

Definition WPACKET_init (pkt : WPACKET) (b : option BUF_MEM) : res unit := WPACKET_init_len pkt b 0.

Definition WPACKET_init_null (pkt : WPACKET) (lenbytes : Z) : res unit :=
  wpacket_intern_init_len (init_fields None None (maxmaxsize lenbytes) false pkt) 0.

Definition WPACKET_init_null_der (pkt : WPACKET) : res unit :=
  wpacket_intern_init_len (init_fields None None SIZE_MAX true pkt) 0.

Definition set_flags (f : Z) (s : WPACKET_SUB) : WPACKET_SUB :=
  {| packet_len := packet_len s; lenbytes := lenbytes s; pwritten := pwritten s; flags := f |}.

Definition WPACKET_set_flags (pkt : WPACKET) (f : Z) : res unit :=
  match subs pkt with
  | [] => fail pkt
  | s :: r => ok tt (set_subs (set_flags f s :: r) pkt)
  end.

(** ** Values and lengths *)

(** [for (data += len - 1; len > 0; len--) { *data = value & 0xff; data--; value >>= 8; }] *)
Fixpoint put_loop (k : nat) (m : list Z) (pos value : Z) : outcome (list Z * Z) :=
  match k with
  | O => Ret (m, value)
  | S k' =>
      m ← aset m pos (Z.land value 0xff);
      put_loop k' m (pos - 1) (Z.shiftr value 8)
  end.

(** A failure has stored the low bytes. *)
Definition put_value (pkt : WPACKET) (data : option Z) (value len : Z) : res unit :=
  match data with
  | None => ok tt pkt
  | Some a =>
      match GETBUF pkt with
      | None => Fault
      | Some m =>
          '(m, value) ← put_loop (Z.to_nat len) m (a + len - 1) value;
          let pkt := set_mem m pkt in
          if 0 <? value then fail pkt else ok tt pkt
      end
  end.

Definition put_quic_value (pkt : WPACKET) (data : option Z) (value len : Z) : res unit :=
  match data with
  | None => ok tt pkt
  | Some a =>
      if len <? ossl_quic_vlint_encode_len value then fail pkt
      else
        match GETBUF pkt with
        | None => Fault
        | Some m => m ← ossl_quic_vlint_encode_n m a value (s32 len); ok tt (set_mem m pkt)
        end
  end.

Definition WPACKET_put_bytes__ (pkt : WPACKET) (val size : Z) : res unit :=
  if 4 <? size then fail pkt
  else
    and_then (WPACKET_allocate_bytes pkt size) (fun data pkt => put_value pkt data val size).

(** [while ((tmplen = tmplen >> 8) > 0) numlenbytes++;] *)
Fixpoint der_numlen (fuel : nat) (tmplen numlenbytes : Z) : outcome Z :=
  match fuel with
  | O => NoFuel
  | S k =>
      let tmplen := Z.shiftr tmplen 8 in
      if 0 <? tmplen then der_numlen k tmplen (numlenbytes + 1) else Ret numlenbytes
  end.

Definition put_der_length (pkt : WPACKET) (packlen : Z) : res unit :=
  numlenbytes ← der_numlen 8 packlen 1;
  and_then (WPACKET_put_bytes__ pkt (u32 packlen) numlenbytes) (fun _ pkt =>
    if 0x7f <? packlen then WPACKET_put_bytes__ pkt (Z.lor numlenbytes 0x80) 1
    else ok tt pkt).

(** ** Closing

    [parents] are the sub-packets around [sub].  A sub-packet whose fields change
    (an abandoned one) is freed by the same call. *)

Definition has_flag (s : WPACKET_SUB) (f : Z) : bool := negb (Z.land (flags s) f =? 0).

Definition wpacket_intern_close (pkt : WPACKET) (sub : WPACKET_SUB) (parents : list WPACKET_SUB)
    (doclose : bool) : res unit :=
  let packlen := u64 (written pkt - pwritten sub) in
  let abandon := (packlen =? 0) && has_flag sub WPACKET_FLAGS_ABANDON_ON_ZERO_LENGTH in
  if (packlen =? 0) && has_flag sub WPACKET_FLAGS_NON_ZERO_LENGTH then fail pkt
  else if abandon && negb doclose then fail pkt
  else
    let pkt :=
      if abandon && (u64 (wcurr pkt - lenbytes sub) =? packet_len sub)
      then set_pos (u64 (wcurr pkt - lenbytes sub)) (u64 (written pkt - lenbytes sub)) pkt
      else pkt in
    let len_at := if abandon then 0 else packet_len sub in
    let lenbytes := if abandon then 0 else lenbytes sub in
    and_then
      (if 0 <? lenbytes then
         match GETBUF pkt with
         | None => ok tt pkt
         | Some _ =>
             if negb (has_flag sub WPACKET_FLAGS_QUIC_VLINT)
             then put_value pkt (Some len_at) packlen lenbytes
             else put_quic_value pkt (Some len_at) packlen lenbytes
         end
       else if endfirst pkt && bool_decide (parents <> []) &&
               (negb (packlen =? 0) || negb (has_flag sub WPACKET_FLAGS_ABANDON_ON_ZERO_LENGTH))
       then put_der_length pkt packlen
       else ok tt pkt)
      (fun _ pkt => ok tt (if doclose then set_subs parents pkt else pkt)).

(** The packet's own list of sub-packets stays the same during the loop. *)
Fixpoint fill_lengths_loop (pkt : WPACKET) (l : list WPACKET_SUB) : res unit :=
  match l with
  | [] => ok tt pkt
  | sub :: parents =>
      and_then (wpacket_intern_close pkt sub parents false) (fun _ pkt => fill_lengths_loop pkt parents)
  end.

Definition WPACKET_fill_lengths (pkt : WPACKET) : res unit :=
  if bool_decide (subs pkt = []) then fail pkt else fill_lengths_loop pkt (subs pkt).

Definition WPACKET_close (pkt : WPACKET) : res unit :=
  match subs pkt with
  | sub :: (_ :: _) as parents => wpacket_intern_close pkt sub parents true
  | _ => fail pkt
  end.

Definition WPACKET_finish (pkt : WPACKET) : res unit :=
  match subs pkt with
  | [sub] => wpacket_intern_close pkt sub [] true
  | _ => fail pkt
  end.

(** ** Writing *)

Definition WPACKET_start_sub_packet_len__ (pkt : WPACKET) (lenbytes : Z) : res unit :=
  if bool_decide (subs pkt = []) then fail pkt
  else if (0 <? lenbytes) && endfirst pkt then fail pkt
  else
    let '(got, pkt) := zalloc_sub pkt in
    if negb got then fail pkt
    else
      let sub := {| packet_len := if lenbytes =? 0 then 0 else written pkt; lenbytes := lenbytes;
                    pwritten := u64 (written pkt + lenbytes); flags := 0 |} in
      let pkt := set_subs (sub :: subs pkt) pkt in
      if lenbytes =? 0 then ok tt pkt
      else and_then (WPACKET_allocate_bytes pkt lenbytes) (fun _ pkt => ok tt pkt).

Definition WPACKET_start_sub_packet (pkt : WPACKET) : res unit := WPACKET_start_sub_packet_len__ pkt 0.

Definition WPACKET_sub_allocate_bytes__ (pkt : WPACKET) (len lenbytes : Z) : res (option Z) :=
  and_then (WPACKET_start_sub_packet_len__ pkt lenbytes) (fun _ pkt =>
  and_then (WPACKET_allocate_bytes pkt len) (fun p pkt =>
  and_then (WPACKET_close pkt) (fun _ pkt => ok p pkt))).

Definition WPACKET_set_max_size (pkt : WPACKET) (max : Z) : res unit :=
  match last (subs pkt) with
  | None => fail pkt
  | Some sub =>
      let lenbytes := if lenbytes sub =? 0 then 8 else lenbytes sub in
      if (maxmaxsize lenbytes <? max) || (max <? written pkt) then fail pkt
      else ok tt (set_maxsize max pkt)
  end.

(** [if (dest != NULL) memcpy(dest, l, |l|)] after [WPACKET_allocate_bytes] *)
Definition allocate_and_store (pkt : WPACKET) (l : list Z) : res unit :=
  and_then (WPACKET_allocate_bytes pkt (Z.of_nat (length l))) (fun dest pkt =>
    match dest with
    | None => ok tt pkt
    | Some _ => pkt ← store pkt dest l; ok tt pkt
    end).

Definition WPACKET_memset (pkt : WPACKET) (ch len : Z) : res unit :=
  if len =? 0 then ok tt pkt
  else allocate_and_store pkt (replicate (Z.to_nat len) (u8 ch)).

(** [src] are the [len] bytes at the source. *)
Definition WPACKET_memcpy (pkt : WPACKET) (src : list Z) : res unit :=
  if Z.of_nat (length src) =? 0 then ok tt pkt else allocate_and_store pkt src.

Definition WPACKET_sub_memcpy__ (pkt : WPACKET) (src : list Z) (lenbytes : Z) : res unit :=
  and_then (WPACKET_start_sub_packet_len__ pkt lenbytes) (fun _ pkt =>
  and_then (WPACKET_memcpy pkt src) (fun _ pkt => WPACKET_close pkt)).

Definition WPACKET_get_total_written (pkt : WPACKET) : res Z := ok (written pkt) pkt.

Definition WPACKET_get_length (pkt : WPACKET) : res Z :=
  match subs pkt with
  | [] => fail pkt
  | sub :: _ => ok (u64 (written pkt - pwritten sub)) pkt
  end.

Definition WPACKET_is_null_buf (pkt : WPACKET) : bool :=
  bool_decide (buf pkt = None) && bool_decide (staticbuf pkt = None).

Definition WPACKET_cleanup (pkt : WPACKET) : WPACKET := set_subs [] pkt.

(** ** QUIC *)

Definition WPACKET_start_quic_sub_packet_bound (pkt : WPACKET) (max_len : Z) : res unit :=
  let enclen := ossl_quic_vlint_encode_len max_len in
  if enclen =? 0 then fail pkt
  else
    and_then (WPACKET_start_sub_packet_len__ pkt enclen) (fun _ pkt =>
      match subs pkt with
      | [] => Fault
      | s :: r => ok tt (set_subs (set_flags (Z.lor (flags s) WPACKET_FLAGS_QUIC_VLINT) s :: r) pkt)
      end).

Definition WPACKET_start_quic_sub_packet (pkt : WPACKET) : res unit :=
  WPACKET_start_quic_sub_packet_bound pkt OSSL_QUIC_VLINT_4B_MIN.

Definition WPACKET_quic_sub_allocate_bytes (pkt : WPACKET) (len : Z) : res (option Z) :=
  and_then (WPACKET_start_quic_sub_packet_bound pkt len) (fun _ pkt =>
  and_then (WPACKET_allocate_bytes pkt len) (fun p pkt =>
  and_then (WPACKET_close pkt) (fun _ pkt => ok p pkt))).

(** The encoder is not told that there is no buffer. *)
Definition WPACKET_quic_write_vlint (pkt : WPACKET) (v : Z) : res unit :=
  let enclen := ossl_quic_vlint_encode_len v in
  if enclen =? 0 then fail pkt
  else
    and_then (WPACKET_allocate_bytes pkt enclen) (fun b pkt =>
      match b, GETBUF pkt with
      | Some a, Some m => m ← ossl_quic_vlint_encode m a v; ok tt (set_mem m pkt)
      | _, _ => Fault
      end).
End alloc.
