(* ===== verification/WPacketSpec.v ===== *)
(** * What the packet writer is to write

    The writer as a stack of frames, innermost first: each has the room left for
    its length, its flags and the bytes that it contains so far.  Writing appends
    to the innermost frame (in front of its bytes when the packet is written from
    its end), closing prefixes the bytes of a frame with their length and appends
    them to the frame around it.  [laid] is how the frames lie in the buffer. *)

From S2P Require Import Prelude Bytes QuicVlint BufMem Packet WPacket.

Record frame : Type := { f_len : Z; f_flags : Z; f_body : list Z }.

(** [l] written after [c]: in front of it when writing from the end. *)
Definition join (e : bool) (c l : list Z) : list Z := if e then l ++ c else c ++ l.

Definition frame_push (e : bool) (l : list Z) (fs : list frame) : list frame :=
  match fs with
  | [] => []
  | f :: r => {| f_len := f_len f; f_flags := f_flags f; f_body := join e (f_body f) l |} :: r
  end.

Definition open (n fl : Z) (fs : list frame) : list frame := {| f_len := n; f_flags := fl; f_body := [] |} :: fs.

Definition flagged (fl f : Z) : bool := negb (Z.land fl f =? 0).

(** The length octets of X.690: one octet below 128, otherwise the number of
    octets with the high bit set and the octets of the length. *)
Definition der_octets (n : Z) : nat := Z.to_nat (Z.log2 n / 8 + 1).

Definition der_length (n : Z) : list Z :=
  if n <? 128 then [n] else Z.lor (Z.of_nat (der_octets n)) 0x80 :: be_put (der_octets n) n.

(** The length of a frame, as the packet of [k] bytes begins with it. *)
Definition prefix (f : frame) (k : Z) : list Z :=
  if f_len f =? 0 then []
  else if flagged (f_flags f) WPACKET_FLAGS_QUIC_VLINT then quic_put (f_len f) k
  else be_put (Z.to_nat (f_len f)) k.

Definition fits (f : frame) (k : Z) : bool :=
  if f_len f =? 0 then true
  else if flagged (f_flags f) WPACKET_FLAGS_QUIC_VLINT then ossl_quic_vlint_encode_len k <=? f_len f
  else k <? 256 ^ f_len f.

Definition size (f : frame) : Z := Z.of_nat (length (f_body f)).

Definition must_write (f : frame) (k : Z) : bool :=
  (k =? 0) && flagged (f_flags f) WPACKET_FLAGS_NON_ZERO_LENGTH.

Definition abandoned (f : frame) (k : Z) : bool :=
  (k =? 0) && flagged (f_flags f) WPACKET_FLAGS_ABANDON_ON_ZERO_LENGTH.

(** A frame that is closed becomes bytes of the one around it.  [null] says that
    there is no buffer: then nothing looks whether the length fits. *)
Definition a_close (e null : bool) (fs : list frame) : option (list frame) :=
  match fs with
  | f :: (_ :: _) as r =>
      if must_write f (size f) then None
      else if abandoned f (size f) then Some r
      else if e then
        if decide (size f < 2 ^ 32) then Some (frame_push e (der_length (size f) ++ f_body f) r) else None
      else if fits f (size f) || null then Some (frame_push e (prefix f (size f) ++ f_body f) r)
      else None
  | _ => None
  end.

Definition a_finish (e null : bool) (fs : list frame) : option (list Z) :=
  match fs with
  | [f] =>
      if must_write f (size f) then None
      else if abandoned f (size f) then Some []
      else if e then Some (f_body f)
      else if fits f (size f) || null then Some (prefix f (size f) ++ f_body f)
      else None
  | _ => None
  end.

(** What the buffer would hold if all frames were closed now: [t] are the bytes
    after those of the innermost frame. *)
Fixpoint serial (fs : list frame) (t : list Z) : list Z :=
  match fs with
  | [] => t
  | f :: r =>
      let b := f_body f ++ t in
      serial r (prefix f (Z.of_nat (length b)) ++ b)
  end.

(** ** How frames lie in the buffer *)

Definition sub_of (f : frame) (at_ : Z) : WPACKET_SUB :=
  {| packet_len := if f_len f =? 0 then 0 else at_; lenbytes := f_len f;
     pwritten := at_ + f_len f; flags := f_flags f |}.

Inductive laid (e : bool) : list frame -> list Z -> list WPACKET_SUB -> Prop :=
| laid_none : laid e [] [] []
| laid_frame f fs c ss hole :
    laid e fs c ss -> 0 <= f_len f -> length hole = Z.to_nat (f_len f) ->
    (e = true -> f_len f = 0) ->
    (flagged (f_flags f) WPACKET_FLAGS_QUIC_VLINT = true -> f_len f <> 0 -> vlint_size (f_len f)) ->
    laid e (f :: fs) (join e (join e c hole) (f_body f)) (sub_of f (Z.of_nat (length c)) :: ss).

(** The bytes [c] are in the block [m], at its start or up to [max]. *)
Definition window (e : bool) (max : Z) (m c : list Z) : Prop :=
  if e then take (length c) (drop (Z.to_nat max - length c) m) = c
  else take (length c) m = c.

Definition mem_ok (p : WPACKET) (c : list Z) : Prop :=
  match staticbuf p, buf p with
  | Some m, None =>
      maxsize p <= Z.of_nat (length m) < 2 ^ 62 /\ window (endfirst p) (maxsize p) m c
  | None, Some b =>
      endfirst p = false /\ bm_wf b /\ bm_max b < 2 ^ 62 /\ Z.of_nat (length c) <= bm_length b /\
      window false 0 (default [] (bm_data b)) c
  | None, None => True
  | Some _, Some _ => False
  end.

Record inv (p : WPACKET) (fs : list frame) (c : list Z) : Prop := {
  inv_laid : laid (endfirst p) fs c (subs p);
  inv_curr : wcurr p = Z.of_nat (length c);
  inv_written : written p = Z.of_nat (length c);
  inv_max : Z.of_nat (length c) <= maxsize p <= SIZE_MAX;
  inv_mem : mem_ok p c
}.

(** The parts of the state that no write changes. *)
Definition same_target (p p' : WPACKET) : Prop :=
  maxsize p' = maxsize p /\ endfirst p' = endfirst p /\ WPACKET_is_null_buf p' = WPACKET_is_null_buf p /\
  (staticbuf p' = None <-> staticbuf p = None) /\ (buf p' = None <-> buf p = None).

#[export] Instance same_target_preorder : PreOrder same_target.
Proof.
  split; [by intros p; unfold same_target|].
  intros p q r (? & ? & ? & ? & ?) (? & ? & ? & ? & ?). unfold same_target.
  split_and!; try congruence; naive_solver.
Qed.

(** ** Lemmas on layouts *)

Lemma length_join e c l : length (join e c l) = (length c + length l)%nat.
Proof. destruct e; simpl; rewrite length_app; lia. Qed.

Lemma join_assoc e a b c : join e (join e a b) c = join e a (join e b c).
Proof. destruct e; simpl; by rewrite app_assoc. Qed.

Lemma join_nil e c : join e c [] = c.
Proof. destruct e; simpl; [done|apply app_nil_r]. Qed.

Lemma laid_push e fs c ss l : fs <> [] -> laid e fs c ss -> laid e (frame_push e l fs) (join e c l) ss.
Proof.
  intros Hne H. destruct H as [|f fs c ss hole H H0 Hh He Hq]; [done|].
  rewrite join_assoc. by apply (laid_frame e {| f_len := f_len f; f_flags := f_flags f; f_body := join e (f_body f) l |}).
Qed.

Lemma laid_subs e fs c ss : laid e fs c ss -> (ss = [] <-> fs = []).
Proof. by destruct 1. Qed.

Lemma laid_inv e f fs c ss : laid e (f :: fs) c ss ->
  exists c0 hole ss0, laid e fs c0 ss0 /\ 0 <= f_len f /\ length hole = Z.to_nat (f_len f) /\
    (e = true -> f_len f = 0) /\
    (flagged (f_flags f) WPACKET_FLAGS_QUIC_VLINT = true -> f_len f <> 0 -> vlint_size (f_len f)) /\
    c = join e (join e c0 hole) (f_body f) /\ ss = sub_of f (Z.of_nat (length c0)) :: ss0.
Proof. inversion 1; subst. eauto 12. Qed.

Lemma push_ne e l fs : frame_push e l fs = [] <-> fs = [].
Proof. by destruct fs. Qed.
