(* ===== verification/WPacketCorrect.v ===== *)
(** * The packet writer keeps its frames

    Reserving, allocating and storing against the layout of [WPacketSpec]. *)

From S2P Require Import Prelude Bytes QuicVlint BufMem Packet WPacket WPacketSpec.

Lemma and_then_ok {A B} (x : A) p (k : A -> WPACKET -> res B) : and_then (ok x p) k = k x p.
Proof. done. Qed.

Lemma and_then_fail {A B} p (k : A -> WPACKET -> res B) : and_then (fail p) k = fail p.
Proof. done. Qed.

(** ** Windows *)

Definition posn (p : WPACKET) (c : list Z) (len : Z) : Z :=
  if endfirst p then maxsize p - Z.of_nat (length c) - len else Z.of_nat (length c).

Lemma window_write e max m c l :
  window e max m c -> Z.of_nat (length c) + Z.of_nat (length l) <= Z.of_nat (length m) ->
  (e = true -> Z.of_nat (length c) + Z.of_nat (length l) <= max <= Z.of_nat (length m)) ->
  window e max (blit (Z.to_nat (if e then max - Z.of_nat (length c) - Z.of_nat (length l)
                                 else Z.of_nat (length c))) l m) (join e c l).
Proof.
  unfold window, blit. intros Hw Hm He. destruct e; simpl.
  - specialize (He eq_refl).
    replace (Z.to_nat (max - Z.of_nat (length c) - Z.of_nat (length l)))
      with (Z.to_nat max - length (l ++ c))%nat by (rewrite length_app; lia).
    rewrite drop_app_ge by (rewrite length_take; lia).
    rewrite length_take, Nat.min_l by lia. rewrite Nat.sub_diag, drop_0, length_app.
    rewrite take_app_ge by lia. f_equal. rewrite Nat.add_comm, Nat.add_sub.
    etransitivity; [|exact Hw]. do 2 f_equal. lia.
  - rewrite Nat2Z.id, app_assoc, take_app_le by (rewrite !length_app, length_take; lia).
    rewrite take_ge by (rewrite !length_app, length_take; lia). by rewrite Hw.
Qed.

(** The bytes [x ++ hole ++ y] with [hole] replaced. *)
Lemma window_hole max m x hole pre y :
  window false max m (x ++ hole ++ y) -> length pre = length hole ->
  (length (x ++ hole ++ y) <= length m)%nat ->
  window false max (blit (length x) pre m) (x ++ pre ++ y).
Proof.
  unfold window. intros Hw Hl Hm.
  assert (m = x ++ hole ++ y ++ drop (length (x ++ hole ++ y)) m) as Em.
  { rewrite <- (take_drop (length (x ++ hole ++ y)) m) at 1. rewrite Hw. by rewrite <- !app_assoc. }
  unfold blit. rewrite Em. rewrite take_app_length. rewrite drop_app_ge by lia.
  replace (length x + length pre - length x)%nat with (length hole) by lia. rewrite drop_app_length.
  rewrite !app_assoc. rewrite take_app_le by (rewrite !length_app; lia).
  by rewrite take_ge by (rewrite !length_app; lia).
Qed.

(** ** The memory of a packet *)

Lemma getbuf_set_mem p m m' : GETBUF p = Some m -> GETBUF (set_mem m' p) = Some m'.
Proof. unfold GETBUF, set_mem. by destruct p as [[] [] ? ? ? ? ? ?]. Qed.

Lemma set_mem_same p m : GETBUF p = Some m -> set_mem m p = p.
Proof.
  unfold GETBUF, set_mem. destruct p as [b s ? ? ? ? ? ?]; simpl. destruct s as [x|].
  - by intros [= ->].
  - destruct b as [b|]; [|done]. destruct b; simpl. by intros ->.
Qed.

Lemma same_target_set_mem p m : same_target p (set_mem m p).
Proof.
  unfold same_target, set_mem, WPACKET_is_null_buf.
  destruct p as [b s ? ? ? ? ? ?]; simpl. destruct s; simpl; [naive_solver|].
  destruct b; simpl; naive_solver.
Qed.

Lemma set_mem_fields p m :
  wcurr (set_mem m p) = wcurr p /\ written (set_mem m p) = written p /\
  maxsize (set_mem m p) = maxsize p /\ subs (set_mem m p) = subs p /\
  endfirst (set_mem m p) = endfirst p.
Proof. unfold set_mem. destruct (staticbuf p); [done|]. by destruct (buf p). Qed.

Lemma null_getbuf p : WPACKET_is_null_buf p = true -> GETBUF p = None.
Proof.
  intros [E1%bool_decide_eq_true E2%bool_decide_eq_true]%andb_true_iff. unfold GETBUF.
  by rewrite E1, E2.
Qed.

(** Blocks of the same length take the place of each other. *)
Lemma mem_ok_set p c c' m m' : mem_ok p c -> GETBUF p = Some m -> length m' = length m ->
  length c' = length c -> (window (endfirst p) (maxsize p) m c -> window (endfirst p) (maxsize p) m' c') ->
  mem_ok (set_mem m' p) c'.
Proof.
  unfold mem_ok, GETBUF, set_mem. intros Hm Hg Hl Hc Hw.
  destruct p as [[b|] [s|] ? ? ? ? ? ?]; simpl in *; try done.
  - destruct Hm as (He & [Hb1 Hb2] & H62 & Hlen & Hwin). rewrite He, Hg in *.
    split; [done|]. split; [split; simpl; [done|lia]|]. split; [done|]. split; [simpl; lia|]. by apply Hw.
  - injection Hg as ->. rewrite Hl. split; [apply Hm|apply Hw, Hm].
Qed.

(** Room for [len] bytes has been found, at [ptr]. *)
Definition reserved (p : WPACKET) (c : list Z) (len : Z) (ptr : option Z) : Prop :=
  match ptr with
  | None => WPACKET_is_null_buf p = true
  | Some a =>
      a = posn p c len /\ 0 <= a /\
      exists m, GETBUF p = Some m /\ a + len <= Z.of_nat (length m) /\ Z.of_nat (length m) < 2 ^ 62 /\
        forall l, Z.of_nat (length l) = len ->
          mem_ok (set_mem (blit (Z.to_nat a) l m) p) (join (endfirst p) c l)
  end.

Lemma reserved_static p m c len :
  mem_ok p c -> staticbuf p = Some m -> 0 < len -> Z.of_nat (length c) + len <= maxsize p ->
  reserved p c len (Some (posn p c len)).
Proof.
  intros Hm Es Hlen Hmax. unfold reserved. unfold mem_ok in Hm. rewrite Es in Hm.
  destruct (buf p) eqn:Eb; [done|]. destruct Hm as [Hmm Hw].
  split; [done|]. split; [unfold posn; destruct (endfirst p); lia|].
  exists m. split; [unfold GETBUF; by rewrite Es|].
  split; [unfold posn; destruct (endfirst p); lia|]. split; [lia|].
  intros l Hl. unfold mem_ok, set_mem. rewrite Es; simpl. rewrite Eb.
  assert (Z.to_nat (posn p c len) + length l <= length m)%nat by (unfold posn; destruct (endfirst p); lia).
  split; [rewrite length_blit; lia|]. rewrite <- Hl. unfold posn.
  apply window_write; [done|lia|lia].
Qed.

Lemma reserved_grow p b c len :
  endfirst p = false -> staticbuf p = None -> buf p = Some b ->
  bm_wf b -> bm_max b < 2 ^ 62 -> window false 0 (default [] (bm_data b)) c ->
  0 < len -> Z.of_nat (length c) + len <= bm_length b ->
  reserved p c len (Some (posn p c len)).
Proof.
  intros He Es Eb [Hb1 Hb2] H62 Hw Hlen Hr. unfold reserved, posn. rewrite He.
  destruct (bm_data b) as [m|] eqn:Em; [|lia]. simpl in Hw.
  split; [done|]. split; [lia|]. exists m.
  split; [unfold GETBUF; by rewrite Es, Eb|]. split; [lia|]. split; [lia|].
  intros l Hl. unfold mem_ok, set_mem. rewrite Es, Eb; simpl. rewrite Es, He.
  split; [done|]. split; [split; simpl; [done|rewrite length_blit; lia]|].
  split; [done|]. split; [rewrite length_app; lia|].
  apply (window_write false 0); [done|lia|done].
Qed.

(** ** Reserving and allocating *)

Section correct.
Context (alloc : nat -> fresh).

Lemma reserve_newlen_ok b len : bm_wf b -> bm_max b < 2 ^ 62 -> 0 < len ->
  bm_length b + len <= reserve_newlen b len \/ reserve_newlen b len = SIZE_MAX.
Proof.
  intros [Hb _] H62 Hlen. unfold reserve_newlen, DEFAULT_BUF_SIZE.
  set (r := if bm_length b <? len then len else bm_length b).
  assert (len <= r /\ bm_length b <= r) as [? ?] by (unfold r; zcase; lia).
  destruct (SIZE_MAX / 2 <? r); [by right|]. left. zcase; lia.
Qed.

Lemma grown_bounds fr b len r b' : grown fr b len r b' -> bm_wf b -> bm_max b < 2 ^ 62 ->
  BUF_MEM_grow fr b len = Ret (r, b') -> bm_max b' < 2 ^ 62.
Proof.
  intros [Hw' [(Hr & Hl & _ & _)|(_ & -> & _)]] Hw H62; [|done].
  unfold BUF_MEM_grow, grow_to, set_length, set_block, LIMIT_BEFORE_EXPANSION. intros E.
  destruct (len <=? bm_length b); [by injection E as <- <-|].
  destruct (len <=? bm_max b).
  { destruct (match bm_data b with Some _ => _ | None => _ end); simpl in E; try done.
    by injection E as <- <-. }
  destruct (Z.ltb_spec 1610612732 len); [by injection E as <- <-|].
  destruct (if negb _ then _ else _) as [[m|]| | | |]; cbn [mbind outcome_bind] in E; try done.
  - cbn [bm_data bm_length bm_flags bm_max] in E.
    destruct (memset_block (Some m) (bm_length b) 0 (len - bm_length b)); cbn [mbind outcome_bind] in E; try done.
    injection E as <- <-. simpl. Z.div_mod_to_equations. lia.
  - by injection E as <- <-.
Qed.

(** What [BUF_MEM_grow] leaves for the packet. *)
Lemma grow_keeps b c len (n : nat) : bm_wf b -> bm_max b < 2 ^ 62 -> Z.of_nat (length c) <= bm_length b ->
  window false 0 (default [] (bm_data b)) c -> 0 < len ->
  exists r b', BUF_MEM_grow (alloc n) b (reserve_newlen b len) = Ret (r, b') /\
    bm_wf b' /\ bm_max b' < 2 ^ 62 /\ Z.of_nat (length c) <= bm_length b' /\
    window false 0 (default [] (bm_data b')) c /\ (r <> 0 -> bm_length b + len <= bm_length b') /\
    (r = 0 -> alloc n = None \/ LIMIT_BEFORE_EXPANSION < reserve_newlen b len).
Proof.
  intros Hbw H62 Hcl Hwin Hlen. pose proof Hbw as [Hb1 Hb2].
  destruct (buf_mem_grows (alloc n) b (reserve_newlen b len) Hbw) as [(r & b' & E & G) _].
  { unfold reserve_newlen, DEFAULT_BUF_SIZE, SIZE_MAX. zcases; lia. }
  pose proof (grown_bounds _ _ _ _ _ G Hbw H62 E) as H62'.
  exists r, b'. split; [done|]. destruct G as [Hbw' G]. split; [done|]. split; [done|].
  destruct G as [(-> & Hl & Hc & _)|(-> & -> & _ & Hwhy)]; [|split_and!; done].
  assert (bm_length b + len <= reserve_newlen b len) as Hn.
  { destruct (reserve_newlen_ok b len Hbw H62 Hlen) as [|E']; [done|].
    destruct Hbw' as [? _]. unfold SIZE_MAX in *. lia. }
  split; [lia|]. split; [|split; [lia|intros E0; exfalso; lia]].
  unfold window, bm_content, resize0 in *.
  rewrite Hl in Hc. apply (f_equal (take (length c))) in Hc.
  rewrite take_take in Hc. rewrite Nat.min_l in Hc by lia. rewrite Hc.
  rewrite take_app_le. 2:{ rewrite !length_take. destruct (bm_data b); simpl in *; lia. }
  rewrite !take_take, !Nat.min_l by lia. done.
Qed.

(** The bytes that a growing buffer takes for certain: [BUF_MEM_grow] is asked
    for twice as many. *)
Definition GROW_LIMIT : Z := LIMIT_BEFORE_EXPANSION / 2.

(** A growing buffer may have no room for [n] bytes: since the allocator fails,
    or since it is asked for more than it takes. *)
Definition starving (p : WPACKET) (n : Z) : Prop :=
  buf p <> None /\ ((exists k, alloc k = None) \/ GROW_LIMIT < n).

Lemma starving_same p p' n : same_target p p' -> starving p' n -> starving p n.
Proof. intros (_ & _ & _ & _ & Eb) [Hb ?]. split; [|done]. by rewrite <- Eb. Qed.

Lemma starving_mono p n n' : n <= n' -> starving p n -> starving p n'.
Proof. intros Hn [? [?|?]]; (split; [done|]); [by left|right; lia]. Qed.

Definition reserve_result (p p' : WPACKET) (fs : list frame) (c : list Z) (len : Z) (r : option (option Z)) : Prop :=
  inv p' fs c /\ same_target p p' /\ subs p' = subs p /\
  match r with
  | None => len = 0 \/ maxsize p < Z.of_nat (length c) + len \/ starving p (Z.of_nat (length c) + len)
  | Some ptr => 0 < len /\ Z.of_nat (length c) + len <= maxsize p /\ reserved p' c len ptr
  end.

Lemma reserve_pointer p fs c len ptr : inv p fs c -> reserved p c len ptr ->
  (if endfirst p then (fun a => a - len) <$> WPACKET_get_curr p else WPACKET_get_curr p) = ptr.
Proof.
  intros [_ Hc _ _ Hm]. unfold reserved, posn, WPACKET_get_curr. rewrite Hc.
  destruct ptr as [a|].
  - intros (-> & _ & m & -> & _). by destruct (endfirst p).
  - intros Hn. rewrite (null_getbuf p) by done. by destruct (endfirst p).
Qed.

Lemma reserve_done p q fs c len ptr : inv q fs c -> same_target p q -> subs q = subs p ->
  0 < len -> Z.of_nat (length c) + len <= maxsize p -> reserved q c len ptr ->
  exists r p', (let p := WPACKET_get_curr q in
      ok (if endfirst q then (fun a => a - len) <$> p else p) q) = Ret (r, p') /\
    reserve_result p p' fs c len r.
Proof.
  intros. cbv zeta. rewrite (reserve_pointer q fs c len ptr) by done.
  eexists _, _. split; [reflexivity|]. split_and!; done.
Qed.

Lemma inv_grown p b' fs c : inv p fs c -> staticbuf p = None -> endfirst p = false ->
  (exists b, buf p = Some b) -> bm_wf b' -> bm_max b' < 2 ^ 62 ->
  Z.of_nat (length c) <= bm_length b' -> window false 0 (default [] (bm_data b')) c ->
  inv (called (set_buf (Some b') p)) fs c /\ same_target p (called (set_buf (Some b') p)).
Proof.
  intros [Hl Hc Hw Hm Hmem] Es He [b Eb] ? ? ? ?. split.
  - constructor; try done. unfold mem_ok; simpl. by rewrite Es.
  - unfold same_target, WPACKET_is_null_buf; simpl. rewrite Eb, Es. naive_solver.
Qed.

Lemma reserve_ok p fs c len : inv p fs c -> fs <> [] -> 0 <= len < 2 ^ 64 ->
  exists r p', WPACKET_reserve_bytes alloc p len = Ret (r, p') /\ reserve_result p p' fs c len r.
Proof.
  intros Hi Hne Hlen. pose proof Hi as [Hlaid Hcu Hwr Hmax Hmem]. unfold WPACKET_reserve_bytes.
  rewrite bool_decide_false by (rewrite (laid_subs _ _ _ _ Hlaid); done). cbn [orb].
  destruct (Z.eqb_spec len 0) as [->|Hnz]; [eexists _, _; split; [reflexivity|]; split_and!; try done; by left|].
  unfold SIZE_MAX in Hmax. rewrite Hwr. unfold u64 at 1. rewrite Z.mod_small by lia.
  destruct (Z.ltb_spec (maxsize p - Z.of_nat (length c)) len).
  { eexists _, _; split; [reflexivity|]. split_and!; try done. lia. }
  pose proof Hmem as Hmem'. unfold mem_ok in Hmem'.
  destruct (buf p) as [b|] eqn:Eb.
  - destruct (staticbuf p) eqn:Es; [done|]. destruct Hmem' as (He & Hbw & H62 & Hcl & Hwin).
    pose proof Hbw as [Hb1 Hb2]. unfold u64. rewrite Z.mod_small by lia.
    destruct (Z.ltb_spec (bm_length b - Z.of_nat (length c)) len) as [Hgrow|Hroom].
    + cbv zeta. destruct (grow_keeps b c len (calls p) Hbw H62 Hcl Hwin ltac:(lia)) as (r & b' & -> & ? & ? & ? & ? & Hr & Hwhy).
      cbn [mbind outcome_bind]. destruct (inv_grown p b' fs c) as [? ?]; [eauto..|].
      destruct (Z.eqb_spec r 0) as [->|Hr0].
      * eexists _, _. split; [reflexivity|]. split_and!; try done. right. right.
        split; [by rewrite Eb|]. destruct (Hwhy eq_refl) as [Ha|Hbig]; [left; by eexists|right].
        revert Hbig. unfold reserve_newlen, GROW_LIMIT, DEFAULT_BUF_SIZE, SIZE_MAX, LIMIT_BEFORE_EXPANSION.
        set (rl := if bm_length b <? len then len else bm_length b).
        assert (rl <= Z.of_nat (length c) + len) by (unfold rl; zcase; lia). clearbody rl.
        zcases; Z.div_mod_to_equations; lia.
      * rewrite and_then_ok. eapply reserve_done; [done..|lia|lia|].
        eapply (reserved_grow _ b'); try done; [lia|]. specialize (Hr Hr0). lia.
    + rewrite and_then_ok.
      eapply reserve_done; [done..|lia|lia|]. eapply reserved_grow; eauto; lia.
  - rewrite and_then_ok. destruct (staticbuf p) as [m|] eqn:Es.
    + eapply reserve_done; [done..|lia|lia|]. eapply reserved_static; [done..|lia|lia].
    + eapply (reserve_done _ _ _ _ _ None); [done..|lia|lia|].
      unfold reserved, WPACKET_is_null_buf. by rewrite Es, Eb.
Qed.

(** Room has been allocated at [ptr]: whatever [len] bytes are stored there have
    been written. *)
Definition allocated (p p' : WPACKET) (fs : list frame) (c : list Z) (len : Z) (ptr : option Z) : Prop :=
  0 < len /\ Z.of_nat (length c) + len <= maxsize p /\
  match ptr with
  | None => WPACKET_is_null_buf p' = true /\
      forall l, Z.of_nat (length l) = len -> inv p' (frame_push (endfirst p) l fs) (join (endfirst p) c l)
  | Some a => 0 <= a /\
      exists m, GETBUF p' = Some m /\ a + len <= Z.of_nat (length m) /\ Z.of_nat (length m) < 2 ^ 62 /\
        forall l, Z.of_nat (length l) = len ->
          inv (set_mem (blit (Z.to_nat a) l m) p') (frame_push (endfirst p) l fs) (join (endfirst p) c l)
  end.

(** Why there was no room. *)
Definition no_room (p : WPACKET) (c : list Z) (len : Z) : Prop :=
  len = 0 \/ maxsize p < Z.of_nat (length c) + len \/ starving p (Z.of_nat (length c) + len).

Lemma allocate_ok p fs c len : inv p fs c -> fs <> [] -> 0 <= len < 2 ^ 64 ->
  exists r p', WPACKET_allocate_bytes alloc p len = Ret (r, p') /\ same_target p p' /\ subs p' = subs p /\
    match r with
    | None => inv p' fs c /\ no_room p c len
    | Some ptr => allocated p p' fs c len ptr
    end.
Proof.
  intros Hi Hne Hlen. unfold WPACKET_allocate_bytes.
  destruct (reserve_ok p fs c len Hi Hne Hlen) as (r & p' & -> & Hi' & Hst & Hs & Hr).
  destruct r as [ptr|]; unfold and_then; rewrite bind_ret.
  2:{ eexists _, _. split; [reflexivity|]. done. }
  eexists _, _. split; [reflexivity|].
  destruct Hr as (Hpos & Hmax & Hr). pose proof Hst as (Em & Ee & _).
  split; [done|]. split; [done|]. split; [done|]. split; [done|].
  destruct Hi' as [Hl Hc Hw Hm _]. rewrite Ee in *.
  assert (forall l, Z.of_nat (length l) = len -> u64 (Z.of_nat (length c) + len) = Z.of_nat (length (join (endfirst p) c l))) as Hu.
  { intros l Hl'. rewrite length_join. unfold u64, SIZE_MAX in *. rewrite Z.mod_small; lia. }
  assert (forall l, Z.of_nat (length l) = len -> Z.of_nat (length (join (endfirst p) c l)) <= maxsize p' <= SIZE_MAX) as Hb.
  { intros l Hl'. rewrite length_join. lia. }
  destruct ptr as [a|]; simpl in Hr.
  - destruct Hr as (Ea & Ha & m & Hg & Hroom & H62 & Hok). split; [done|]. exists m.
    split; [done|]. split; [done|]. split; [done|]. intros l Hl'. specialize (Hok l Hl'). rewrite Ee in Hok.
    destruct (set_mem_fields (set_pos (u64 (wcurr p' + len)) (u64 (written p' + len)) p')
      (blit (Z.to_nat a) l m)) as (F1 & F2 & F3 & F4 & F5).
    constructor; rewrite ?F1, ?F2, ?F3, ?F4, ?F5; simpl.
    + rewrite Ee. by apply laid_push.
    + rewrite Hc. by apply Hu.
    + rewrite Hw. by apply Hu.
    + by apply Hb.
    + revert Hok. unfold mem_ok, set_mem. by destruct p' as [[] [] ? ? ? ? ? ?].
  - split; [done|]. intros l Hl'. constructor; simpl.
    + rewrite Ee. by apply laid_push.
    + rewrite Hc. by apply Hu.
    + rewrite Hw. by apply Hu.
    + by apply Hb.
    + apply andb_true_iff in Hr as [E1%bool_decide_eq_true E2%bool_decide_eq_true].
      unfold mem_ok; simpl. by rewrite E1, E2.
Qed.

(** Allocation looks at the sub-packets only to see that there are any. *)
Lemma allocate_subs p s n : s <> [] -> subs p <> [] ->
  WPACKET_allocate_bytes alloc (set_subs s p) n =
    '(r, q) ← WPACKET_allocate_bytes alloc p n; Ret (r, set_subs s q).
Proof.
  intros Hs Hp. unfold WPACKET_allocate_bytes, WPACKET_reserve_bytes. simpl.
  rewrite !bool_decide_false by done. cbn [orb]. destruct (n =? 0); [done|].
  destruct (u64 (maxsize p - written p) <? n); [done|]. destruct (buf p) as [b|]; [|done].
  destruct (u64 (bm_length b - written p) <? n); [|done].
  destruct (BUF_MEM_grow _ _ _) as [[r' b']| | | |]; [|done..]. simpl. by destruct (r' =? 0).
Qed.

(** Bytes that nobody stores are those that the block had. *)
Lemma refill_same {A} (m : list A) (a n : nat) : (a + n <= length m)%nat -> blit a (take n (drop a m)) m = m.
Proof.
  intros H. unfold blit. rewrite length_take, length_drop, Nat.min_l by lia.
  rewrite <- drop_drop, take_drop. apply take_drop.
Qed.

Lemma allocated_as_is p p' fs c len ptr : allocated p p' fs c len ptr ->
  exists l, Z.of_nat (length l) = len /\ inv p' (frame_push (endfirst p) l fs) (join (endfirst p) c l).
Proof.
  intros (Hpos & _ & H). destruct ptr as [a|].
  - destruct H as (Ha & m & Hg & Hroom & _ & H). exists (take (Z.to_nat len) (drop (Z.to_nat a) m)).
    assert (Z.of_nat (length (take (Z.to_nat len) (drop (Z.to_nat a) m))) = len) as L
      by (rewrite length_take, length_drop; lia).
    split; [done|]. specialize (H _ L). rewrite refill_same in H by lia. by rewrite set_mem_same in H.
  - destruct H as (_ & H). exists (replicate (Z.to_nat len) 0).
    rewrite length_replicate. split; [lia|]. apply H. rewrite length_replicate. lia.
Qed.

Lemma null_iff p p' : same_target p p' -> WPACKET_is_null_buf p' = WPACKET_is_null_buf p.
Proof. by intros (? & ? & ? & ?). Qed.

Lemma getbuf_not_null p m : GETBUF p = Some m -> WPACKET_is_null_buf p = false.
Proof.
  intros E. destruct (WPACKET_is_null_buf p) eqn:N; [|done]. by rewrite null_getbuf in E.
Qed.

(** ** Writing bytes *)

Lemma allocate_and_store_ok p fs c l : inv p fs c -> fs <> [] -> Z.of_nat (length l) < 2 ^ 64 ->
  exists r p', allocate_and_store alloc p l = Ret (r, p') /\ same_target p p' /\
    match r with
    | None => inv p' fs c /\ no_room p c (Z.of_nat (length l))
    | Some _ => inv p' (frame_push (endfirst p) l fs) (join (endfirst p) c l)
    end.
Proof.
  intros Hi Hne Hl. unfold allocate_and_store.
  destruct (allocate_ok p fs c (Z.of_nat (length l)) Hi Hne) as (r & p' & -> & Hst & Hs & Hr); [lia|].
  destruct r as [ptr|]; unfold and_then; rewrite bind_ret.
  2:{ eexists _, _. split; [reflexivity|]. done. }
  destruct Hr as (Hpos & Hmax & Hr). destruct ptr as [a|].
  - destruct Hr as (Ha & m & Hg & Hroom & _ & H). unfold store. rewrite Hg, mem_write_ok, !bind_ret by lia.
    eexists _, _. split; [reflexivity|]. split; [|by apply H].
    etransitivity; [exact Hst|apply same_target_set_mem].
  - eexists _, _. split; [reflexivity|]. split; [done|]. by apply Hr.
Qed.

(** The loop of [put_value] stores the number and is left with what does not fit. *)
Lemma put_loop_ok k : forall m a v, 0 <= a -> 0 <= v -> a + Z.of_nat k <= Z.of_nat (length m) ->
  put_loop k m (a + Z.of_nat k - 1) v = Ret (blit (Z.to_nat a) (be_put k v) m, v / 256 ^ Z.of_nat k).
Proof.
  induction k as [|k IH]; intros m a v Ha Hv Hk; cbn [put_loop be_put].
  { rewrite blit_nil. change (256 ^ Z.of_nat 0) with 1. by rewrite Z.div_1_r. }
  replace (a + Z.of_nat (S k) - 1) with (a + Z.of_nat k) by lia.
  rewrite aset_ok, bind_ret by lia. rewrite IH; [|done|apply Z.shiftr_nonneg; done|rewrite length_insert; lia].
  rewrite Z.shiftr_div_pow2 by done. change (2 ^ 8) with 256. change 0xff with (Z.ones 8).
  rewrite Z.land_ones by done. change (2 ^ 8) with 256.
  pose proof (nbytes_be_put k (v / 256)) as [Hl _].
  rewrite Nat2Z.inj_succ, Z.pow_succ_r, Z.div_div by lia. f_equal. f_equal.
  rewrite <- blit_app by (rewrite Hl; simpl; lia). rewrite Hl.
  apply list_eq. intros i.
  assert (Z.to_nat (a + Z.of_nat k) = Z.to_nat a + k)%nat as -> by lia.
  destruct (decide (Z.to_nat a <= i < Z.to_nat a + k)%nat).
  - rewrite lookup_blit_in by (rewrite ?length_insert, ?Hl; lia).
    rewrite lookup_blit_out by (rewrite ?length_blit, ?Hl; simpl; lia).
    by rewrite lookup_blit_in by (rewrite ?Hl; lia).
  - rewrite lookup_blit_out by (rewrite ?length_insert, ?Hl; lia).
    destruct (decide (i = Z.to_nat a + k)%nat) as [->|].
    + rewrite list_lookup_insert_eq by lia.
      rewrite lookup_blit_in by (rewrite ?length_blit, ?Hl; simpl; lia). by rewrite Nat.sub_diag.
    + rewrite list_lookup_insert_ne by done.
      rewrite lookup_blit_out by (rewrite ?length_blit, ?Hl; simpl; lia).
      by rewrite lookup_blit_out by (rewrite ?Hl; lia).
Qed.
End correct.
