(* ===== verification/WPacketOps.v ===== *)
(** * The packet writer, operation by operation

    Every operation of [WPacket] against its counterpart on frames. *)

From S2P Require Import Prelude Bytes QuicVlint BufMem Packet WPacket WPacketSpec WPacketCorrect.

Lemma push_nil e fs : frame_push e [] fs = fs.
Proof. destruct fs as [|[? ? ?] ?]; simpl; [done|]. by rewrite join_nil. Qed.

Lemma push_push e a b fs : frame_push e b (frame_push e a fs) = frame_push e (join e a b) fs.
Proof. destruct fs as [|[? ? ?] ?]; simpl; [done|]. by rewrite join_assoc. Qed.

(** After a failure the frames are as before, or the innermost has some more
    bytes. *)
Definition kept (p' : WPACKET) (e : bool) (fs : list frame) (c : list Z) : Prop :=
  exists l, inv p' (frame_push e l fs) (join e c l).

Lemma kept_same p' e fs c : inv p' fs c -> kept p' e fs c.
Proof. intros H. exists []. by rewrite push_nil, join_nil. Qed.

Lemma kept_more p' e fs c l : kept p' e (frame_push e l fs) (join e c l) -> kept p' e fs c.
Proof. intros [l' H]. exists (join e l l'). by rewrite push_push, join_assoc in H. Qed.

Section ops.
Context (alloc : nat -> fresh).

(** ** Numbers *)

Lemma put_bytes_ok p fs c v n : inv p fs c -> fs <> [] -> 0 <= v -> 0 <= n ->
  exists r p', WPACKET_put_bytes__ alloc p v n = Ret (r, p') /\ same_target p p' /\ subs p' = subs p /\
    let l := be_put (Z.to_nat n) v in
    match r with
    | Some _ => 1 <= n <= 4 /\ (v < 256 ^ n \/ WPACKET_is_null_buf p = true) /\
        inv p' (frame_push (endfirst p) l fs) (join (endfirst p) c l)
    | None => (4 < n \/ no_room alloc p c n \/ 256 ^ n <= v /\ WPACKET_is_null_buf p = false) /\ kept p' (endfirst p) fs c
    end.
Proof.
  intros Hi Hne Hv Hn. unfold WPACKET_put_bytes__.
  destruct (Z.ltb_spec 4 n).
  { eexists _, _. split; [reflexivity|]. split; [done|]. split; [done|]. split; [by left|by apply kept_same]. }
  destruct (allocate_ok alloc p fs c n Hi Hne) as (r & p' & -> & Hst & Hs & Hr); [lia|].
  destruct r as [ptr|]; unfold and_then; rewrite bind_ret.
  2:{ eexists _, _. split; [reflexivity|]. split; [done|]. split; [done|]. destruct Hr. split; [by right; left|by apply kept_same]. }
  destruct Hr as (Hpos & Hmax & Hr). pose proof (nbytes_be_put (Z.to_nat n) v) as [Hl _].
  unfold put_value. destruct ptr as [a|].
  - destruct Hr as (Ha & m & Hg & Hroom & _ & Hst2). rewrite Hg.
    replace (a + n - 1) with (a + Z.of_nat (Z.to_nat n) - 1) by lia.
    rewrite put_loop_ok, bind_ret by lia. rewrite Z2Nat.id by lia.
    specialize (Hst2 (be_put (Z.to_nat n) v) ltac:(lia)).
    assert (same_target p (set_mem (blit (Z.to_nat a) (be_put (Z.to_nat n) v) m) p')) as Hst'.
    { etransitivity; [exact Hst|apply same_target_set_mem]. }
    pose proof (set_mem_fields p' (blit (Z.to_nat a) (be_put (Z.to_nat n) v) m)) as (_ & _ & _ & F & _).
    assert (0 < 256 ^ n) by (apply Z.pow_pos_nonneg; lia).
    destruct (Z.ltb_spec 0 (v / 256 ^ n)) as [Hbig|Hfit]; eexists _, _; (split; [reflexivity|]);
      (split; [done|]); (split; [congruence|]).
    + split; [|by eexists]. right; right.
      split; [apply Z.nlt_ge; intros Hlt; rewrite Z.div_small in Hbig; lia|].
      rewrite <- (null_iff _ _ Hst). by apply getbuf_not_null in Hg.
    + split; [lia|]. split; [|done]. left.
      assert (v / 256 ^ n = 0) as E by (pose proof (Z.div_pos v (256 ^ n)); lia).
      apply Z.div_small_iff in E as [?|?]; lia.
  - destruct Hr as [Hnull Hw]. eexists _, _. split; [reflexivity|]. split; [done|]. split; [done|].
    split; [lia|]. split; [right; rewrite <- Hnull; symmetry; by apply null_iff|]. apply Hw. lia.
Qed.

(** ** Lengths from the end *)

Lemma log2_shift x : 256 <= x -> Z.log2 (Z.shiftr x 8) = Z.log2 x - 8.
Proof. intros H. rewrite Z.log2_shiftr by lia. pose proof (Z.log2_le_mono 256 x H). change (Z.log2 256) with 8 in *. lia. Qed.

Lemma der_numlen_ok k : forall x n, 0 <= x < 256 ^ Z.of_nat k -> (0 < k)%nat ->
  der_numlen k x n = Ret (n + Z.of_nat (der_octets x) - 1).
Proof.
  unfold der_octets. induction k as [|k IH]; intros x n Hx Hk; [lia|]. cbn [der_numlen].
  assert (0 <= Z.log2 x / 8) by (apply Z.div_pos; [apply Z.log2_nonneg|lia]).
  destruct (Z.ltb_spec x 256).
  - rewrite Z.shiftr_div_pow2, Z.div_small by lia. cbn [Z.ltb Z.compare].
    f_equal. destruct (Z.eq_dec x 0) as [->|]; [change (Z.log2 0 / 8) with 0; lia|].
    assert (Z.log2 x < 8) by (apply Z.log2_lt_pow2; lia).
    rewrite (Z.div_small (Z.log2 x)) by (split; [apply Z.log2_nonneg|lia]). lia.
  - pose proof (log2_shift x ltac:(lia)) as E.
    assert (0 < Z.shiftr x 8) by (rewrite Z.shiftr_div_pow2 by done; Z.div_mod_to_equations; lia).
    destruct (Z.ltb_spec 0 (Z.shiftr x 8)); [|lia].
    rewrite Nat2Z.inj_succ, Z.pow_succ_r in Hx by lia.
    assert (1 < 256 ^ Z.of_nat k) by lia.
    destruct k as [|k]; [done|]. rewrite IH; [|split; [lia|]; rewrite Z.shiftr_div_pow2 by done; change (2 ^ 8) with 256; apply Z.div_lt_upper_bound; lia|lia].
    f_equal. rewrite E. replace (Z.log2 x) with ((Z.log2 x - 8) + 1 * 8) at 2 by lia.
    rewrite Z.div_add by lia. rewrite <- E.
    assert (0 <= Z.log2 (Z.shiftr x 8) / 8) by (apply Z.div_pos; [apply Z.log2_nonneg|lia]). lia.
Qed.

Lemma der_octets_fit x : 0 <= x -> x < 256 ^ Z.of_nat (der_octets x) /\ 1 <= Z.of_nat (der_octets x).
Proof.
  intros Hx. unfold der_octets.
  assert (0 <= Z.log2 x / 8) by (apply Z.div_pos; [apply Z.log2_nonneg|lia]).
  rewrite Z2Nat.id by lia. split; [|lia]. destruct (Z.eq_dec x 0) as [->|]; [done|].
  apply Z.lt_le_trans with (2 ^ (Z.log2 x + 1)).
  - pose proof (Z.log2_spec x ltac:(lia)) as [_ L]. by rewrite <- Z.add_1_r in L.
  - change 256 with (2 ^ 8). rewrite <- Z.pow_mul_r by lia. apply Z.pow_le_mono_r; [lia|].
    pose proof (Z.div_mod (Z.log2 x) 8 ltac:(lia)). pose proof (Z.mod_pos_bound (Z.log2 x) 8 ltac:(lia)). lia.
Qed.

Lemma der_octets_le x n : 0 <= x < 256 ^ n -> 1 <= n -> Z.of_nat (der_octets x) <= n.
Proof.
  intros Hx Hn. unfold der_octets.
  assert (0 <= Z.log2 x / 8) by (apply Z.div_pos; [apply Z.log2_nonneg|lia]).
  rewrite Z2Nat.id by lia. destruct (Z.eq_dec x 0) as [->|]; [change (Z.log2 0 / 8) with 0; lia|].
  assert (Z.log2 x < 8 * n) by (apply Z.log2_lt_pow2; [lia|]; rewrite Z.pow_mul_r by lia; change (2 ^ 8) with 256; lia).
  Z.div_mod_to_equations. lia.
Qed.

Lemma der_octets_gt x n : 0 <= n -> 256 ^ n <= x -> n < Z.of_nat (der_octets x).
Proof.
  intros Hn Hx. destruct (der_octets_fit x) as [Hf _].
  { pose proof (Z.pow_nonneg 256 n). lia. }
  apply Z.nle_gt. intros Hle. assert (256 ^ Z.of_nat (der_octets x) <= 256 ^ n) by (apply Z.pow_le_mono_r; lia). lia.
Qed.

Lemma put_der_length_ok p fs c k : inv p fs c -> fs <> [] -> endfirst p = true -> 0 <= k < 2 ^ 64 ->
  exists r p', put_der_length alloc p k = Ret (r, p') /\ same_target p p' /\ subs p' = subs p /\
    match r with
    | Some _ => k < 2 ^ 32 /\ inv p' (frame_push true (der_length k) fs) (der_length k ++ c)
    | None => (2 ^ 32 <= k \/ maxsize p < Z.of_nat (length c) + Z.of_nat (length (der_length k)) \/
          starving alloc p (Z.of_nat (length c) + Z.of_nat (length (der_length k)))) /\
        kept p' true fs c
    end.
Proof.
  intros Hi Hne He Hk. unfold put_der_length. rewrite der_numlen_ok by (simpl; lia).
  rewrite bind_ret. replace (1 + Z.of_nat (der_octets k) - 1) with (Z.of_nat (der_octets k)) by lia.
  destruct (der_octets_fit k ltac:(lia)) as [Hfit Hone].
  set (n := Z.of_nat (der_octets k)) in *.
  destruct (put_bytes_ok p fs c (u32 k) n Hi Hne) as (r & p1 & -> & Hst & Hs & Hr); [apply u32_range|lia|].
  rewrite He in Hr. simpl join in Hr.
  destruct r as [[]|]; unfold and_then; rewrite bind_ret; cbv zeta in Hr.
  2:{ eexists _, _. split; [reflexivity|]. split; [done|]. split; [done|]. destruct Hr as [Hw Hkept].
      split; [|done]. destruct (Z.lt_ge_cases k (2 ^ 32)) as [Hs32|]; [|by left]. right.
      rewrite u32_small in Hw by lia. assert (n <= 4) by (apply der_octets_le; simpl; lia).
      assert (n <= Z.of_nat (length (der_length k))) as Hnd.
      { unfold der_length. destruct (Z.ltb_spec k 128); simpl.
        - apply der_octets_le; simpl; lia.
        - destruct (nbytes_be_put (der_octets k) k) as [-> _]. lia. }
      destruct Hw as [?|[[?|[?|Hsv]]|?]]; try lia; right.
      eapply starving_mono; [|exact Hsv]. lia. }
  destruct Hr as (Hn & _ & Hi1).
  assert (k < 2 ^ 32) as Hk32.
  { apply Z.nle_gt. intros Hge. assert (4 < n) by (apply der_octets_gt; simpl; lia). lia. }
  rewrite u32_small in Hi1 by lia.
  unfold n in Hi1. rewrite Nat2Z.id in Hi1. unfold der_length.
  destruct (Z.ltb_spec 0x7f k), (Z.ltb_spec k 128); try lia.
  - pose proof Hst as (Em & Ee & _ & _ & Eb). rewrite He in Ee.
    destruct (put_bytes_ok p1 _ _ (Z.lor n 0x80) 1 Hi1) as (r & p2 & -> & Hst2 & Hs2 & Hr).
    { by rewrite push_ne. } { apply Z.lor_nonneg. lia. } { lia. }
    eexists _, _. split; [reflexivity|]. split; [by etransitivity|]. split; [congruence|].
    rewrite Ee in Hr. cbv zeta in Hr. change (Z.to_nat 1) with 1%nat in Hr.
    assert (be_put 1 (Z.lor n 128) = [Z.lor n 128]) as Hone'.
    { cbn [be_put app]. f_equal. assert (n = 1 \/ n = 2 \/ n = 3 \/ n = 4) as [->|[->|[->| ->]]] by lia; done. }
    rewrite Hone' in Hr. destruct r as [[]|].
    + destruct Hr as (_ & _ & Hi2). rewrite push_push in Hi2. split; [done|exact Hi2].
    + destruct Hr as [Hw Hkept]. split.
      * right. simpl length. destruct (nbytes_be_put (der_octets k) k) as [Hlb _]. rewrite Hlb.
        unfold no_room in Hw. rewrite length_app, Hlb in Hw. rewrite Em in Hw. fold n.
        destruct Hw as [?|[[?|[?|Hsv]]|Hbig]]; [lia|lia|left; lia|right; eapply starving_mono; [|eapply starving_same; [exact Hst|exact Hsv]]; lia|].
        exfalso. assert (n = 1 \/ n = 2 \/ n = 3 \/ n = 4) as [E|[E|[E|E]]] by lia; rewrite E in Hbig; vm_compute in Hbig; by apply Hbig.
      * by eapply (kept_more _ true).
  - assert (be_put (der_octets k) k = [k]) as Hb.
    { assert (n <= 1) by (apply der_octets_le; simpl; lia). assert (der_octets k = 1%nat) as -> by lia.
      cbn [be_put app]. f_equal. Z.div_mod_to_equations; lia. }
    rewrite Hb in Hi1. eexists _, _. split; [reflexivity|]. done.
Qed.

(** ** Starting *)

Lemma inv_called p fs c : inv p fs c -> inv (called p) fs c /\ same_target p (called p).
Proof. intros [? ? ? ? ?]. by split. Qed.

Lemma start_ok p fs c n : inv p fs c -> fs <> [] -> 0 <= n < 2 ^ 64 ->
  exists r p', WPACKET_start_sub_packet_len__ alloc p n = Ret (r, p') /\ same_target p p' /\
    match r with
    | Some _ => (endfirst p = true -> n = 0) /\
        exists hole, length hole = Z.to_nat n /\ inv p' (open n 0 fs) (join (endfirst p) c hole)
    | None => inv p' fs c /\ (alloc (calls p) = None \/ 0 < n /\ endfirst p = true) \/ 0 < n /\ no_room alloc p c n
    end.
Proof.
  intros Hi Hne Hn. unfold WPACKET_start_sub_packet_len__. pose proof Hi as [Hl Hc Hw Hm Hmem].
  rewrite bool_decide_false by (rewrite (laid_subs _ _ _ _ Hl); done).
  destruct ((0 <? n) && endfirst p) eqn:E0.
  { apply andb_true_iff in E0 as [?%Z.ltb_lt ?]. eexists _, _. split; [reflexivity|]. split; [done|]. left. split; [done|]. by right. }
  assert (endfirst p = true -> n = 0) as He0.
  { intros E. rewrite E, andb_true_r in E0. apply Z.ltb_ge in E0. lia. }
  unfold zalloc_sub. destruct (inv_called p fs c Hi) as [Hi' Hst].
  destruct (alloc (calls p)) as [f|]; cbn [negb].
  2:{ eexists _, _. split; [reflexivity|]. split; [done|]. left. split; [done|]. by left. }
  change (subs (called p)) with (subs p). change (written (called p)) with (written p). rewrite Hw.
  set (sub := {| packet_len := _ |}). 
  assert (Z.of_nat (length c) + n < 2 ^ 64 -> sub = sub_of {| f_len := n; f_flags := 0; f_body := [] |} (Z.of_nat (length c))) as Hsub.
  { intros Hlt. unfold sub, sub_of, u64. simpl. by rewrite Z.mod_small by lia. }
  destruct (Z.eqb_spec n 0) as [->|Hn0].
  - eexists _, _. split; [reflexivity|]. split; [done|]. split; [done|]. exists []. split; [done|].
    rewrite join_nil. rewrite Hsub by (unfold SIZE_MAX in Hm; lia).
    constructor; [|done..]. simpl.
    pose proof (laid_frame (endfirst p) {| f_len := 0; f_flags := 0; f_body := [] |} fs c (subs p) [] Hl) as L.
    rewrite !join_nil in L. apply L; done.
  - (* the length's room, with the new frame not there yet *)
    pose proof (allocate_ok alloc (called p) fs c n Hi' Hne Hn) as (r & p' & E & Hst' & Hs & Hr).
    rewrite allocate_subs by (simpl; rewrite ?(laid_subs _ _ _ _ Hl); done).
    rewrite E. cbn [mbind outcome_bind]. unfold and_then. rewrite bind_ret.
    assert (same_target p (set_subs (sub :: subs p) p')) as Hst2 by exact Hst'.
    destruct r as [ptr|]; eexists _, _; (split; [reflexivity|]); (split; [exact Hst2|]).
    + split; [done|]. apply allocated_as_is in Hr as Hr'. destruct Hr' as (hole & Hlen & [Hl2 Hc2 Hw2 Hm2 Hmem2]).
      change (endfirst (called p)) with (endfirst p) in *.
      exists hole. split; [lia|].
      destruct Hr as (_ & Hmax & _). change (maxsize (called p)) with (maxsize p) in *.
      rewrite Hsub by (unfold SIZE_MAX in Hm; lia).
      pose proof Hst' as (_ & Ee & _). change (endfirst (called p)) with (endfirst p) in *.
      constructor; try done. simpl. rewrite Ee.
      pose proof (laid_frame (endfirst p) {| f_len := n; f_flags := 0; f_body := [] |} fs c (subs p) hole Hl) as L.
      rewrite join_nil in L. apply L; simpl; try done; lia.
    + right. split; [lia|]. apply Hr.
Qed.

(** ** Flags *)

Definition flag_frame (fl : Z) (f : frame) : frame :=
  {| f_len := f_len f; f_flags := fl; f_body := f_body f |}.

Definition quic_legal (f : frame) : Prop :=
  flagged (f_flags f) WPACKET_FLAGS_QUIC_VLINT = true -> f_len f <> 0 -> vlint_size (f_len f).

Lemma inv_flags p f fs c s r fl : inv p (f :: fs) c -> subs p = s :: r -> quic_legal (flag_frame fl f) ->
  inv (set_subs (set_flags fl s :: r) p) (flag_frame fl f :: fs) c.
Proof.
  intros [Hl Hc Hw Hm Hmem] Es Hq. constructor; try done. simpl. rewrite Es in Hl.
  apply laid_inv in Hl as (c0 & hole & ss0 & Hl & H0 & Hh & He & _ & -> & [= -> ->]).
  by apply (laid_frame (endfirst p) (flag_frame fl f)).
Qed.

Lemma set_flags_ok p f fs c fl : inv p (f :: fs) c -> quic_legal (flag_frame fl f) ->
  exists p', WPACKET_set_flags p fl = Ret (Some tt, p') /\ same_target p p' /\
    inv p' (flag_frame fl f :: fs) c.
Proof.
  intros Hi Hq. pose proof (inv_laid _ _ _ Hi) as Hl. unfold WPACKET_set_flags.
  destruct (subs p) as [|s r] eqn:Es; [by inversion Hl|].
  eexists. split; [reflexivity|]. split; [done|]. by apply inv_flags.
Qed.
End ops.
