(* ===== verification/WPacketClose.v ===== *)
(** * Closing sub-packets

    The length of a frame goes into the room left for it, or in front of it, and
    the frame becomes a part of the one around it.  The lengths that are filled
    in early and the remaining operations follow. *)

From S2P Require Import Prelude Bytes QuicVlint BufMem Packet WPacket WPacketSpec WPacketCorrect WPacketOps.

Lemma flagged_has f at_ fl : has_flag (sub_of f at_) fl = flagged (f_flags f) fl.
Proof. done. Qed.

Lemma length_prefix f k : 0 <= f_len f -> length (prefix f k) = Z.to_nat (f_len f).
Proof.
  intros H. unfold prefix. destruct (Z.eqb_spec (f_len f) 0) as [->|]; [done|].
  destruct (flagged _ _); [apply nbytes_quic_put|apply nbytes_be_put].
Qed.

(** The memory has the bytes of the layout. *)
Lemma mem_window p c m : mem_ok p c -> GETBUF p = Some m ->
  window (endfirst p) (maxsize p) m c /\ Z.of_nat (length m) < 2 ^ 62 /\
  (Z.of_nat (length c) <= maxsize p -> (length c <= length m)%nat).
Proof.
  unfold mem_ok, GETBUF. destruct (staticbuf p), (buf p) as [b|]; try done.
  - intros [H1 H2] [= ->]. split; [done|]. split; [lia|]. intros. lia.
  - intros (He & [Hb1 Hb2] & H62 & Hl & Hw) E. rewrite He. rewrite E in *. split; [done|].
    split; [lia|]. intros. lia.
Qed.

Lemma getbuf_null p c : mem_ok p c -> c <> [] -> GETBUF p = None -> WPACKET_is_null_buf p = true.
Proof.
  unfold mem_ok, GETBUF, WPACKET_is_null_buf. destruct (staticbuf p), (buf p) as [b|]; try done.
  intros (_ & [Hb1 Hb2] & _ & Hl & _) Hne E. rewrite E in Hb2. destruct c; [done|]. simpl in Hl. lia.
Qed.

(** [x ++ hole ++ y] with [hole] replaced, in the packet. *)
Lemma mem_hole p x hole pre y m : endfirst p = false ->
  mem_ok p (x ++ hole ++ y) -> Z.of_nat (length (x ++ hole ++ y)) <= maxsize p ->
  GETBUF p = Some m -> length pre = length hole ->
  mem_ok (set_mem (blit (length x) pre m) p) (x ++ pre ++ y).
Proof.
  intros He Hm Hmax Hg Hl. destruct (mem_window p _ m Hm Hg) as (Hw & _ & Hlen). specialize (Hlen Hmax).
  apply (mem_ok_set p (x ++ hole ++ y) _ m); [done..| | |].
  - rewrite length_blit; [done|]. rewrite !length_app in Hlen. lia.
  - rewrite !length_app. lia.
  - rewrite He. intros _. rewrite He in Hw. by apply (window_hole (maxsize p)) with hole.
Qed.

(** What closing stores at the place of the length. *)
Definition write_len (p : WPACKET) (sub : WPACKET_SUB) (k : Z) : res unit :=
  match GETBUF p with
  | None => ok tt p
  | Some _ =>
      if negb (has_flag sub WPACKET_FLAGS_QUIC_VLINT)
      then put_value p (Some (packet_len sub)) k (lenbytes sub)
      else put_quic_value p (Some (packet_len sub)) k (lenbytes sub)
  end.

Definition same_fields (p p' : WPACKET) : Prop :=
  wcurr p' = wcurr p /\ written p' = written p /\ maxsize p' = maxsize p /\ subs p' = subs p /\
  endfirst p' = endfirst p.

Lemma write_len_ok p f x hole y k : endfirst p = false -> 0 < f_len f -> quic_legal f ->
  length hole = Z.to_nat (f_len f) -> mem_ok p (x ++ hole ++ y) ->
  Z.of_nat (length (x ++ hole ++ y)) <= maxsize p -> 0 <= k -> k <= Z.of_nat (length (x ++ hole ++ y)) ->
  exists r p' pre, write_len p (sub_of f (Z.of_nat (length x))) k = Ret (r, p') /\
    same_target p p' /\ same_fields p p' /\ length pre = length hole /\ mem_ok p' (x ++ pre ++ y) /\
    match r with
    | Some _ => fits f k || WPACKET_is_null_buf p = true /\ pre = prefix f k
    | None => fits f k || WPACKET_is_null_buf p = false
    end.
Proof.
  intros He Hn Hq Hh Hm Hmax Hk0 Hk. unfold write_len.
  assert (length (prefix f k) = length hole) as Hp by (rewrite length_prefix by lia; lia).
  destruct (GETBUF p) as [m|] eqn:Hg.
  2:{ assert (WPACKET_is_null_buf p = true) as Hnull.
      { apply getbuf_null in Hm; [done| |done]. destruct hole; [simpl in Hh; lia|]. by destruct x. }
      exists (Some tt), p, (prefix f k). split; [done|]. split; [done|]. split; [done|]. split; [done|].
      split; [|by rewrite Hnull, orb_true_r].
      apply andb_true_iff in Hnull as [E1%bool_decide_eq_true E2%bool_decide_eq_true].
      unfold mem_ok. by rewrite E1, E2. }
  pose proof (mem_window p _ m Hm Hg) as (_ & H62 & Hlen). specialize (Hlen Hmax).
  rewrite (getbuf_not_null p m Hg), orb_false_r. rewrite flagged_has. unfold fits, prefix, quic_legal in *. simpl.
  destruct (Z.eqb_spec (f_len f) 0); [lia|].
  assert (Z.of_nat (length x) + f_len f <= Z.of_nat (length m)) as Hroom by (rewrite !length_app in Hlen; lia).
  assert (forall pre, length pre = length hole ->
    same_target p (set_mem (blit (length x) pre m) p) /\ same_fields p (set_mem (blit (length x) pre m) p) /\
    mem_ok (set_mem (blit (length x) pre m) p) (x ++ pre ++ y)) as Hset.
  { intros pre Hl. split; [apply same_target_set_mem|]. split; [apply set_mem_fields|].
    by apply mem_hole with hole. }
  destruct (flagged (f_flags f) WPACKET_FLAGS_QUIC_VLINT); cbn [negb].
  - specialize (Hq eq_refl n). unfold put_quic_value.
    destruct (Z.leb_spec (ossl_quic_vlint_encode_len k) (f_len f)) as [Hfit|Hbig].
    + destruct (Z.ltb_spec (f_len f) (ossl_quic_vlint_encode_len k)); [lia|]. rewrite Hg.
      assert (0 <= k < 2 ^ (8 * f_len f - 2)) as Hkk.
      { split; [done|]. apply vlint_fits; [done..|].
        destruct (vlint_encode_len_cases k Hk0) as [[_ ?]|[Hs _]]; [lia|]. unfold vlint_size in Hs. lia. }
      rewrite s32_small by (unfold vlint_size in Hq; lia).
      unfold ossl_quic_vlint_encode_n. rewrite vlint_bytes_put by done.
      rewrite mem_write_ok by (rewrite ?(proj1 (nbytes_quic_put _ _)); lia).
      rewrite bind_ret, Nat2Z.id. destruct (Hset _ Hp) as (? & ? & ?).
      eexists _, _, _. split; [reflexivity|]. split; [done|]. split; [done|]. split; [|split; [done|]]; done.
    + destruct (Z.ltb_spec (f_len f) (ossl_quic_vlint_encode_len k)); [|lia].
      exists None, p, hole. done.
  - unfold put_value. rewrite Hg.
    replace (Z.of_nat (length x) + f_len f - 1) with (Z.of_nat (length x) + Z.of_nat (Z.to_nat (f_len f)) - 1) by lia.
    rewrite put_loop_ok, bind_ret by lia. rewrite Z2Nat.id, Nat2Z.id by lia. destruct (Hset _ Hp) as (? & ? & ?).
    assert (0 < 256 ^ f_len f) by (apply Z.pow_pos_nonneg; lia).
    destruct (Z.ltb_spec 0 (k / 256 ^ f_len f)) as [Hbig|Hfit]; eexists _, _, _; (split; [reflexivity|]);
      (split; [done|]); (split; [done|]); (split; [done|]); (split; [done|]).
    + apply Z.ltb_ge. apply Z.nlt_ge. intros Hlt. rewrite Z.div_small in Hbig; lia.
    + split; [|done]. apply Z.ltb_lt. assert (k / 256 ^ f_len f = 0) as E by (pose proof (Z.div_pos k (256 ^ f_len f)); lia).
      apply Z.div_small_iff in E as [?|?]; lia.
Qed.

Lemma mem_ok_prefix p x y : endfirst p = false -> mem_ok p (x ++ y) -> mem_ok p x.
Proof.
  assert (forall max m, window false max m (x ++ y) -> window false max m x) as Hw.
  { unfold window. intros max m H. apply (f_equal (take (length x))) in H.
    rewrite take_take, Nat.min_l in H by (rewrite length_app; lia).
    by rewrite take_app_length in H. }
  unfold mem_ok. intros ->. destruct (staticbuf p), (buf p); try done.
  - intros [? ?]. split; [done|]. by apply Hw.
  - intros (? & ? & ? & Hl & ?). rewrite length_app in Hl. split_and!; try done; [lia|by apply Hw].
Qed.

Lemma prefix_nil f k : f_len f = 0 -> prefix f k = [].
Proof. intros E. unfold prefix. by rewrite E. Qed.

Section close.
Context (alloc : nat -> fresh).

(** Closing the frame [f] that begins after [x], with the bytes [y] in it. *)
Lemma intern_close_fwd p f x hole y parents doclose :
  endfirst p = false -> 0 <= f_len f -> quic_legal f -> length hole = Z.to_nat (f_len f) ->
  mem_ok p (x ++ hole ++ y) -> Z.of_nat (length (x ++ hole ++ y)) <= maxsize p <= SIZE_MAX ->
  wcurr p = Z.of_nat (length (x ++ hole ++ y)) -> written p = Z.of_nat (length (x ++ hole ++ y)) ->
  let k := Z.of_nat (length y) in
  exists r p', wpacket_intern_close alloc p (sub_of f (Z.of_nat (length x))) parents doclose = Ret (r, p') /\
    same_target p p' /\
    match r with
    | Some _ => must_write f k = false /\ subs p' = (if doclose then parents else subs p) /\
        if abandoned f k
        then doclose = true /\ mem_ok p' x /\ wcurr p' = Z.of_nat (length x) /\ written p' = Z.of_nat (length x)
        else fits f k || WPACKET_is_null_buf p = true /\ mem_ok p' (x ++ prefix f k ++ y) /\
             wcurr p' = wcurr p /\ written p' = written p
    | None =>
        (must_write f k = true \/ abandoned f k && negb doclose = true \/
         abandoned f k = false /\ fits f k || WPACKET_is_null_buf p = false) /\
        same_fields p p' /\ exists pre, length pre = length hole /\ mem_ok p' (x ++ pre ++ y)
    end.
Proof.
  intros He Hn Hq Hh Hm Hmax Hc Hw k. unfold wpacket_intern_close, SIZE_MAX in *.
  simpl pwritten. simpl lenbytes. rewrite !flagged_has. rewrite Hw.
  assert (u64 (Z.of_nat (length (x ++ hole ++ y)) - (Z.of_nat (length x) + f_len f)) = k) as ->.
  { rewrite !length_app in *. unfold u64. rewrite Z.mod_small; unfold k; lia. }
  fold (must_write f k) (abandoned f k).
  destruct (must_write f k) eqn:Emw.
  { eexists _, _. split; [reflexivity|]. split; [done|]. split; [by left|]. split; [done|]. by exists hole. }
  destruct (abandoned f k) eqn:Eab; cbn [andb negb].
  - destruct doclose; cbn [negb].
    2:{ eexists _, _. split; [reflexivity|]. split; [done|]. split; [by right; left|]. split; [done|]. by exists hole. }
    change (0 <? 0) with false. cbn iota.
    apply andb_true_iff in Eab as [Ek%Z.eqb_eq _]. assert (y = []) as -> by (destruct y; [done|unfold k in Ek; simpl in Ek; lia]).
    rewrite !length_app in *. rewrite app_nil_r in Hm. simpl (length []) in *.
    assert (u64 (wcurr p - f_len f) = Z.of_nat (length x)) as Ec by (unfold u64; rewrite Z.mod_small; lia).
    assert (u64 (Z.of_nat (length x + (length hole + 0)) - f_len f) = Z.of_nat (length x)) as Ew by (unfold u64; rewrite Z.mod_small; lia).
    rewrite Ec, Ew.
    assert (exists q, (if Z.of_nat (length x) =? packet_len (sub_of f (Z.of_nat (length x)))
       then set_pos (Z.of_nat (length x)) (Z.of_nat (length x)) p else p) = q /\ same_target p q /\
         endfirst q = false /\
         subs q = subs p /\ mem_ok q x /\ wcurr q = Z.of_nat (length x) /\ written q = Z.of_nat (length x)) as (q & -> & Hst & Heq & Hsq & Hq1 & Hq2 & Hq3).
    { simpl. pose proof (mem_ok_prefix p x hole He Hm) as Hx.
      destruct (Z.eqb_spec (f_len f) 0) as [E0|].
      - destruct (Z.eqb_spec (Z.of_nat (length x)) 0); (eexists; split; [reflexivity|]); split_and!; try done; simpl; lia.
      - rewrite Z.eqb_refl. eexists. split; [reflexivity|]. done. }
    rewrite Heq. cbn [andb]. rewrite and_then_ok. eexists _, _. split; [reflexivity|]. split; [done|].
    split; [done|]. split; [done|]. done.
  - rewrite He. cbn [andb]. change (let pkt := p in _) with p.
    destruct (Z.ltb_spec 0 (f_len f)) as [Hpos|Hz].
    + fold (write_len p (sub_of f (Z.of_nat (length x))) k).
      assert (match GETBUF p with None => ok tt p | Some _ =>
         if negb (flagged (f_flags f) WPACKET_FLAGS_QUIC_VLINT)
         then put_value p (Some (packet_len (sub_of f (Z.of_nat (length x))))) k (f_len f)
         else put_quic_value p (Some (packet_len (sub_of f (Z.of_nat (length x))))) k (f_len f) end =
         write_len p (sub_of f (Z.of_nat (length x))) k) as -> by done.
      destruct (write_len_ok p f x hole y k He Hpos Hq Hh Hm) as (r & p' & pre & -> & Hst & Hsf & Hpre & Hm' & Hr);
        [lia|lia|unfold k; rewrite !length_app; lia|].
      destruct r as [[]|]; unfold and_then; rewrite bind_ret.
      * eexists _, _. split; [reflexivity|]. destruct Hr as [Hfit ->]. destruct Hsf as (S1 & S2 & S3 & S4 & S5).
        destruct doclose; (split; [exact Hst|]); split_and!; try done; simpl; congruence.
      * eexists _, _. split; [reflexivity|]. split; [done|]. split; [by right; right|]. split; [done|]. by exists pre.
    + assert (f_len f = 0) as E0 by lia. assert (hole = []) as -> by (destruct hole; [done|simpl in Hh; lia]).
      rewrite and_then_ok. eexists _, _. split; [reflexivity|].
      rewrite (prefix_nil f k E0). unfold fits. rewrite E0. simpl (0 =? 0).
      by destruct doclose.
Qed.

(** The same at the end of the buffer, where no length has room. *)
Lemma intern_close_end p f fs c0 ss0 parents : endfirst p = true ->
  inv p (f :: fs) (f_body f ++ c0) -> f_len f = 0 -> laid true fs c0 ss0 ->
  subs p = sub_of f (Z.of_nat (length c0)) :: ss0 ->
  exists r p', wpacket_intern_close alloc p (sub_of f (Z.of_nat (length c0))) parents true = Ret (r, p') /\
    same_target p p' /\
    match r with
    | Some _ => must_write f (size f) = false /\ subs p' = parents /\
        exists c', wcurr p' = Z.of_nat (length c') /\ written p' = Z.of_nat (length c') /\
          Z.of_nat (length c') <= maxsize p <= SIZE_MAX /\ mem_ok p' c' /\
          if abandoned f (size f) then c' = c0
          else if decide (parents = []) then c' = f_body f ++ c0
          else size f < 2 ^ 32 /\ c' = (der_length (size f) ++ f_body f) ++ c0
    | None =>
        (must_write f (size f) = true \/ parents <> [] /\ abandoned f (size f) = false /\
           (2 ^ 32 <= size f \/
            starving alloc p (Z.of_nat (length (f_body f ++ c0)) + Z.of_nat (length (der_length (size f)))) \/
            maxsize p < Z.of_nat (length (f_body f ++ c0)) + Z.of_nat (length (der_length (size f))))) /\
        kept p' true (f :: fs) (f_body f ++ c0)
    end.
Proof.
  intros He Hi E0 Hl Es. pose proof Hi as [_ Hc Hw Hmax Hm]. unfold wpacket_intern_close.
  simpl pwritten. simpl lenbytes. simpl packet_len. rewrite !flagged_has, E0, Hw, Z.add_0_r.
  rewrite length_app in Hc, Hw, Hmax |- *. unfold SIZE_MAX in Hmax.
  assert (u64 (Z.of_nat (length (f_body f) + length c0) - Z.of_nat (length c0)) = size f) as ->.
  { unfold u64, size. rewrite Z.mod_small; lia. }
  fold (must_write f (size f)) (abandoned f (size f)).
  destruct (must_write f (size f)) eqn:Emw.
  { eexists _, _. split; [reflexivity|]. split; [done|]. split; [by left|]. by apply kept_same. }
  destruct (abandoned f (size f)) eqn:Eab; cbn [andb negb].
  - change (0 =? 0) with true. cbn iota. change (0 <? 0) with false. cbn iota.
    apply andb_true_iff in Eab as [Ek%Z.eqb_eq Efl]. rewrite Efl, Ek. cbn [negb orb Z.eqb]. rewrite andb_false_r.
    assert (f_body f = []) as Eb by (unfold size in Ek; destruct (f_body f); [done|simpl in Ek; lia]).
    rewrite Eb in *. cbn [app length plus] in *. rewrite Z.sub_0_r, Hc.
    assert (u64 (Z.of_nat (length c0)) = Z.of_nat (length c0)) as -> by (unfold u64; rewrite Z.mod_small; lia).
    rewrite Z.sub_0_r.
    assert (u64 (Z.of_nat (length c0)) = Z.of_nat (length c0)) as -> by (unfold u64; rewrite Z.mod_small; lia).
    rewrite and_then_ok. eexists _, _. split; [reflexivity|].
    destruct (Z.of_nat (length c0) =? 0); (split; [done|]); (split; [done|]); (split; [done|]); exists c0;
      unfold SIZE_MAX; split_and!; try done; lia.
  - change (0 <? 0) with false. cbn iota. rewrite He.
    assert (negb (size f =? 0) || negb (flagged (f_flags f) WPACKET_FLAGS_ABANDON_ON_ZERO_LENGTH) = true) as ->.
    { unfold abandoned in Eab. by rewrite <- negb_andb, Eab. }
    rewrite andb_true_r, andb_true_l. destruct (decide (parents = [])) as [Ep|Ep].
    + rewrite bool_decide_false by (intros F; by apply F). rewrite and_then_ok.
      eexists _, _. split; [reflexivity|]. split; [done|]. split; [done|]. split; [done|].
      exists (f_body f ++ c0). unfold SIZE_MAX. rewrite length_app. split_and!; try done; lia.
    + rewrite bool_decide_true by done.
      destruct (put_der_length_ok alloc p (f :: fs) (f_body f ++ c0) (size f) Hi) as (r & p' & -> & Hst & Hs & Hr);
        [done|done|unfold size; lia|].
      destruct r as [[]|]; unfold and_then; rewrite bind_ret; (eexists _, _; split; [reflexivity|]); (split; [exact Hst|]).
      * destruct Hr as [Hsz [Hl' Hc' Hw' Hm' Hmem']]. split; [done|]. split; [done|].
        exists (der_length (size f) ++ f_body f ++ c0). destruct Hst as (Em & _). rewrite Em in Hm'.
        split_and!; try done; [lia..|by rewrite app_assoc].
      * destruct Hr as [Hwhy Hkept]. split; [|done]. right. split; [done|]. split; [done|].
        rewrite length_app in *. destruct Hwhy as [?|[?|?]]; eauto.
Qed.

(** ** Closing on frames *)

Lemma inv_parts p f fs c : inv p (f :: fs) c ->
  exists c0 hole ss0, laid (endfirst p) fs c0 ss0 /\ 0 <= f_len f /\ length hole = Z.to_nat (f_len f) /\
    quic_legal f /\ (endfirst p = true -> f_len f = 0 /\ c = f_body f ++ c0) /\
    (endfirst p = false -> c = c0 ++ hole ++ f_body f) /\
    subs p = sub_of f (Z.of_nat (length c0)) :: ss0.
Proof.
  intros [Hl _ _ _ _]. apply laid_inv in Hl as (c0 & hole & ss0 & Hl & H0 & Hh & He & Hq & Ec & Es).
  exists c0, hole, ss0. do 4 (split; [done|]). split; [|split; [|done]].
  - intros E. specialize (He E). split; [done|]. rewrite E in Ec. simpl in Ec.
    destruct hole; [done|simpl in Hh; lia].
  - intros E. rewrite E in Ec. simpl in Ec. by rewrite app_assoc.
Qed.

Lemma inv_fwd_hole p p' f fs c0 hole pre ss0 : inv p (f :: fs) (c0 ++ hole ++ f_body f) ->
  endfirst p = false -> laid false fs c0 ss0 -> 0 <= f_len f -> quic_legal f ->
  length hole = Z.to_nat (f_len f) ->
  subs p = sub_of f (Z.of_nat (length c0)) :: ss0 ->
  same_fields p p' -> length pre = length hole -> mem_ok p' (c0 ++ pre ++ f_body f) ->
  inv p' (f :: fs) (c0 ++ pre ++ f_body f).
Proof.
  intros [_ Hc Hw Hmax _] He Hl H0 Hq Hh Es (F1 & F2 & F3 & F4 & F5) Hp Hm.
  assert (length (c0 ++ pre ++ f_body f) = length (c0 ++ hole ++ f_body f)) as El by (rewrite !length_app; lia).
  constructor; rewrite ?F1, ?F2, ?F3, ?F4, ?F5, ?El; try done.
  rewrite He, Es. pose proof (laid_frame false f fs c0 ss0 pre Hl H0 ltac:(lia) ltac:(done) Hq) as L.
  simpl in L. by rewrite <- app_assoc in L.
Qed.

(** Why closing failed though the frames allow it: no room for a DER length. *)
Definition no_der_room (p : WPACKET) (f : frame) (c : list Z) : Prop :=
  endfirst p = true /\ abandoned f (size f) = false /\
  (starving alloc p (Z.of_nat (length c) + Z.of_nat (length (der_length (size f)))) \/
   maxsize p < Z.of_nat (length c) + Z.of_nat (length (der_length (size f)))).

Lemma close_ok p f g fs c : inv p (f :: g :: fs) c ->
  exists r p', WPACKET_close alloc p = Ret (r, p') /\ same_target p p' /\
    let a := a_close (endfirst p) (WPACKET_is_null_buf p) (f :: g :: fs) in
    match r with
    | Some _ => exists fs' c', a = Some fs' /\ inv p' fs' c'
    | None => (a = None \/ no_der_room p f c) /\ exists l c', inv p' (frame_push (endfirst p) l (f :: g :: fs)) c'
    end.
Proof.
  intros Hi. destruct (inv_parts p f (g :: fs) c Hi) as (c0 & hole & ss0 & Hl & H0 & Hh & Hq & Hend & Hfwd & Es).
  pose proof Hi as [_ Hc Hw Hmax Hm]. unfold WPACKET_close. rewrite Es.
  destruct ss0 as [|s1 ss1] eqn:Ess; [by inversion Hl|]. rewrite <- Ess in *.
  unfold a_close. destruct (endfirst p) eqn:He.
  - destruct (Hend eq_refl) as [E0 ->]. clear Hend Hfwd.
    destruct (intern_close_end p f (g :: fs) c0 ss0 ss0 He Hi E0 Hl Es) as (r & p' & -> & Hst & Hr).
    eexists _, _. split; [reflexivity|]. split; [done|]. cbv zeta. destruct r as [[]|].
    + destruct Hr as (-> & Hs & c' & Hc' & Hw' & Hmax' & Hm' & Hcase).
      pose proof Hst as (Em & Ee & _). rewrite He in Ee.
      assert (forall l, c' = join true c0 l -> inv p' (frame_push true l (g :: fs)) c') as Hinv.
      { intros l ->. constructor; rewrite ?Ee, ?Em, ?Hs; try done; [apply laid_push; done]. }
      destruct (abandoned f (size f)).
      * subst c'. exists (g :: fs), c0. split; [done|]. rewrite <- (push_nil true (g :: fs)). by apply Hinv.
      * rewrite decide_False in Hcase by (by subst ss0). destruct Hcase as [Hsz ->].
        rewrite decide_True by done. eexists _, _. split; [reflexivity|]. by apply Hinv.
    + destruct Hr as [Hwhy [l Hk]]. split; [|by exists l, (join true (f_body f ++ c0) l)].
      destruct Hwhy as [->|(_ & Hab & Hwhy)]; [by left|]. destruct (must_write f (size f)); [by left|]. rewrite Hab.
      destruct Hwhy as [Hbig|Hno]; [left; by rewrite decide_False by lia|].
      right. split; [done|]. split; [done|]. destruct Hno; [by left|by right].
  - specialize (Hfwd eq_refl). subst c. clear Hend. 
    destruct (intern_close_fwd p f c0 hole (f_body f) ss0 true He H0 Hq Hh Hm Hmax Hc Hw) as (r & p' & -> & Hst & Hr).
    eexists _, _. split; [reflexivity|]. split; [done|]. cbv zeta. fold (size f) in Hr. destruct r as [[]|].
    + destruct Hr as (-> & Hs & Hcase). pose proof Hst as (Em & Ee & _). rewrite He in Ee.
      rewrite !length_app in *. destruct (abandoned f (size f)).
      * destruct Hcase as (_ & Hm' & Hc' & Hw'). exists (g :: fs), c0. split; [done|].
        constructor; rewrite ?Ee, ?Em, ?Hs; try done. lia.
      * destruct Hcase as (Hfit & Hm' & Hc' & Hw'). rewrite Hfit.
        assert (length (prefix f (size f)) = length hole) as Lp by (rewrite length_prefix by done; lia).
        eexists _, _. split; [reflexivity|].
        constructor; rewrite ?Ee, ?Em, ?Hs; [by apply laid_push| | | |exact Hm'];
          simpl; rewrite !length_app; lia.
    + destruct Hr as (Hwhy & Hsf & pre & Hp & Hm'). split.
      * left. destruct Hwhy as [->|[F|[Hab Hno]]]; [done|by rewrite andb_false_r in F|].
        destruct (must_write f (size f)); [done|]. by rewrite Hab, Hno.
      * exists [], (c0 ++ pre ++ f_body f). rewrite push_nil. by eapply inv_fwd_hole.
Qed.

(** A packet that is finished: the bytes and no frames. *)
Record finished (p : WPACKET) (c : list Z) : Prop := {
  fin_subs : subs p = [];
  fin_written : written p = Z.of_nat (length c);
  fin_mem : mem_ok p c
}.

Lemma wfinish_ok p f c : inv p [f] c ->
  exists r p', WPACKET_finish alloc p = Ret (r, p') /\ same_target p p' /\
    let a := a_finish (endfirst p) (WPACKET_is_null_buf p) [f] in
    match r with
    | Some _ => exists c', a = Some c' /\ finished p' c'
    | None => a = None /\ exists l c', inv p' (frame_push (endfirst p) l [f]) c'
    end.
Proof.
  intros Hi. destruct (inv_parts p f [] c Hi) as (c0 & hole & ss0 & Hl & H0 & Hh & Hq & Hend & Hfwd & Es).
  assert (c0 = [] /\ ss0 = []) as [-> ->] by by inversion Hl.
  pose proof Hi as [_ Hc Hw Hmax Hm]. unfold WPACKET_finish. rewrite Es. unfold a_finish.
  destruct (endfirst p) eqn:He.
  - destruct (Hend eq_refl) as [E0 ->]. clear Hend Hfwd.
    destruct (intern_close_end p f [] [] [] [] He Hi E0 Hl Es) as (r & p' & -> & Hst & Hr).
    eexists _, _. split; [reflexivity|]. split; [done|]. cbv zeta. destruct r as [[]|].
    + destruct Hr as (-> & Hs & c' & Hc' & Hw' & Hmax' & Hm' & Hcase).
      rewrite decide_True in Hcase by done. rewrite app_nil_r in Hcase. destruct (abandoned f (size f)); subst c'; eexists; by split.
    + destruct Hr as [[->|[F _]] [l Hk]]; [|done]. split; [done|]. by eexists _, _.
  - specialize (Hfwd eq_refl). subst c. clear Hend. 
    destruct (intern_close_fwd p f [] hole (f_body f) [] true He H0 Hq Hh Hm Hmax Hc Hw) as (r & p' & -> & Hst & Hr).
    eexists _, _. split; [reflexivity|]. split; [done|]. cbv zeta. fold (size f) in Hr. destruct r as [[]|].
    + destruct Hr as (-> & Hs & Hcase). rewrite !length_app in *. destruct (abandoned f (size f)).
      * destruct Hcase as (_ & Hm' & Hc' & Hw'). exists []. by split.
      * destruct Hcase as (Hfit & Hm' & Hc' & Hw'). rewrite Hfit.
        assert (length (prefix f (size f)) = length hole) as Lp by (rewrite length_prefix by done; lia).
        eexists. split; [reflexivity|]. split; [done| |exact Hm']. rewrite length_app. simpl in Hw. lia.
    + destruct Hr as (Hwhy & Hsf & pre & Hp & Hm'). split.
      * destruct Hwhy as [->|[F|[Hab Hno]]]; [done|by rewrite andb_false_r in F|].
        destruct (must_write f (size f)); [done|]. by rewrite Hab, Hno.
      * exists [], ([] ++ pre ++ f_body f). rewrite push_nil. by eapply inv_fwd_hole.
Qed.
End close.

(** * Filling in the lengths, and the remaining operations of the writer *)

(** Whether all frames could be closed now, [t] being the bytes after those of
    the innermost; an empty one that is to be abandoned can not. *)
Fixpoint fillable (null : bool) (fs : list frame) (t : list Z) : bool :=
  match fs with
  | [] => true
  | f :: r =>
      let b := f_body f ++ t in
      let k := Z.of_nat (length b) in
      negb (must_write f k) && negb (abandoned f k) && (fits f k || null) &&
      fillable null r (prefix f k ++ b)
  end.

Section fill.
Context (alloc : nat -> fresh).

Lemma fill_loop_ok fs c0 ss : laid false fs c0 ss -> forall p t,
  endfirst p = false -> mem_ok p (c0 ++ t) -> Z.of_nat (length (c0 ++ t)) <= maxsize p <= SIZE_MAX ->
  wcurr p = Z.of_nat (length (c0 ++ t)) -> written p = Z.of_nat (length (c0 ++ t)) ->
  exists r p' c0', fill_lengths_loop alloc p ss = Ret (r, p') /\ same_target p p' /\ same_fields p p' /\
    length c0' = length c0 /\ laid false fs c0' ss /\ mem_ok p' (c0' ++ t) /\
    match r with
    | Some _ => fillable (WPACKET_is_null_buf p) fs t = true /\ c0' ++ t = serial fs t
    | None => fillable (WPACKET_is_null_buf p) fs t = false
    end.
Proof.
  induction 1 as [|f fs c ss hole Hl IH H0 Hh _ Hq]; intros p t He Hm Hmax Hc Hw; cbn [fill_lengths_loop].
  { exists (Some tt), p, []. split_and!; try done. constructor. }
  cbn [join] in *. rewrite <- !app_assoc in Hm, Hmax, Hc, Hw.
  destruct (intern_close_fwd alloc p f c hole (f_body f ++ t) ss false He H0 Hq Hh Hm Hmax Hc Hw)
    as (r & p' & -> & Hst & Hr). cbn [fillable serial].
  set (k := Z.of_nat (length (f_body f ++ t))) in *.
  assert (forall pre, length pre = length hole -> laid false (f :: fs) ((c ++ pre) ++ f_body f)
    (sub_of f (Z.of_nat (length c)) :: ss)) as Hlaid.
  { intros pre Hp. apply (laid_frame false f fs c ss pre); (done || lia). }
  destruct r as [[]|]; unfold and_then at 1; rewrite bind_ret.
  - destruct Hr as (-> & Hs & Hcase). destruct (abandoned f k); [by destruct Hcase|].
    destruct Hcase as (-> & Hm' & Hc' & Hw'). cbn [negb andb].
    assert (length (prefix f k) = length hole) as Lp by (rewrite length_prefix by done; lia).
    pose proof Hst as (Em & Ee & En & _). rewrite He in Ee.
    assert (length (c ++ prefix f k ++ f_body f ++ t) = length (c ++ hole ++ f_body f ++ t)) as Lc
      by (rewrite !length_app; lia).
    destruct (IH p' (prefix f k ++ f_body f ++ t)) as (r & p2 & c1 & E & Hst2 & Hsf2 & Lc1 & Hl1 & Hm2 & Hr);
      [done|done|by rewrite Lc, Em|by rewrite Lc, Hc'|by rewrite Lc, Hw'|].
    exists r, p2, ((c1 ++ prefix f k) ++ f_body f). rewrite E. rewrite En in Hr.
    split; [done|]. split; [by etransitivity|].
    split. { destruct Hsf2 as (? & ? & ? & ? & ?). unfold same_fields. split_and!; congruence. }
    split; [rewrite !length_app; lia|]. split.
    { rewrite <- Lc1. apply (laid_frame false f fs c1 ss (prefix f k)); (done || lia). }
    rewrite <- !app_assoc. split; [done|]. exact Hr.
  - destruct Hr as (Hwhy & Hsf & pre & Hp & Hm').
    exists None, p', ((c ++ pre) ++ f_body f). split; [done|]. split; [done|]. split; [done|].
    split; [rewrite !length_app; lia|]. split; [by apply Hlaid|]. rewrite <- !app_assoc. split; [done|].
    destruct Hwhy as [->|[[Hab _]%andb_true_iff|[Hab ->]]]; [done| |]; rewrite Hab; cbn [negb andb];
      by rewrite !andb_false_r.
Qed.

Lemma fill_ok p fs c : inv p fs c -> fs <> [] -> endfirst p = false ->
  exists r p' c', WPACKET_fill_lengths alloc p = Ret (r, p') /\ same_target p p' /\ inv p' fs c' /\
    match r with
    | Some _ => fillable (WPACKET_is_null_buf p) fs [] = true /\ c' = serial fs []
    | None => fillable (WPACKET_is_null_buf p) fs [] = false
    end.
Proof.
  intros [Hl Hc Hw Hmax Hm] Hne He. unfold WPACKET_fill_lengths.
  rewrite bool_decide_false by (rewrite (laid_subs _ _ _ _ Hl); done). rewrite He in Hl.
  destruct (fill_loop_ok fs c (subs p) Hl p []) as (r & p' & c' & E & Hst & Hsf & Lc & Hl' & Hm' & Hr);
    rewrite ?app_nil_r; try done.
  rewrite app_nil_r in *. exists r, p', c'. split; [done|]. split; [done|]. split; [|done].
  destruct Hsf as (F1 & F2 & F3 & F4 & F5).
  constructor; rewrite ?F1, ?F2, ?F3, ?F4, ?F5, ?Lc; try done. by rewrite He.
Qed.

(** ** The remaining operations *)

Lemma memcpy_ok p fs c l : inv p fs c -> fs <> [] -> Z.of_nat (length l) < 2 ^ 64 ->
  exists r p', WPACKET_memcpy alloc p l = Ret (r, p') /\ same_target p p' /\
    match r with
    | Some _ => inv p' (frame_push (endfirst p) l fs) (join (endfirst p) c l)
    | None => inv p' fs c /\ no_room alloc p c (Z.of_nat (length l)) /\ l <> []
    end.
Proof.
  intros Hi Hne Hl. unfold WPACKET_memcpy. destruct (Z.eqb_spec (Z.of_nat (length l)) 0).
  - destruct l; [|simpl in *; lia]. eexists _, _. split; [reflexivity|]. split; [done|]. by rewrite push_nil, join_nil.
  - destruct (allocate_and_store_ok alloc p fs c l Hi Hne Hl) as (r & p' & -> & Hst & Hr).
    eexists _, _. split; [reflexivity|]. split; [done|]. destruct r; [done|].
    destruct Hr. split; [done|]. split; [done|]. by intros ->.
Qed.

Lemma memset_ok p fs c ch len : inv p fs c -> fs <> [] -> 0 <= len < 2 ^ 64 ->
  let l := replicate (Z.to_nat len) (u8 ch) in
  exists r p', WPACKET_memset alloc p ch len = Ret (r, p') /\ same_target p p' /\
    match r with
    | Some _ => inv p' (frame_push (endfirst p) l fs) (join (endfirst p) c l)
    | None => inv p' fs c /\ no_room alloc p c len /\ len <> 0
    end.
Proof.
  intros Hi Hne Hl l. unfold WPACKET_memset. destruct (Z.eqb_spec len 0) as [->|].
  - eexists _, _. split; [reflexivity|]. split; [done|]. by rewrite push_nil, join_nil.
  - fold l. assert (Z.of_nat (length l) = len) as El by (unfold l; rewrite length_replicate; lia).
    destruct (allocate_and_store_ok alloc p fs c l Hi Hne) as (r & p' & -> & Hst & Hr); [lia|].
    eexists _, _. split; [reflexivity|]. split; [done|]. rewrite El in Hr. destruct r as [[]|]; [done|]. by destruct Hr.
Qed.

(** The limit of a packet that grows forward may change while the buffer has
    room for it. *)
Lemma set_max_size_ok p fs c m : inv p fs c -> endfirst p = false -> 0 <= m ->
  (forall b, staticbuf p = Some b -> m <= Z.of_nat (length b)) ->
  exists r p', WPACKET_set_max_size p m = Ret (r, p') /\ inv p' fs c /\
    endfirst p' = false /\ WPACKET_is_null_buf p' = WPACKET_is_null_buf p /\
    match r with
    | Some _ => Z.of_nat (length c) <= m /\ maxsize p' = m
    | None => p' = p
    end.
Proof.
  intros Hi He Hm0 Hroom. pose proof Hi as [Hl Hc Hw Hmax Hm]. unfold WPACKET_set_max_size.
  destruct (last (subs p)) as [s|]; [|by eexists _, _; split; [reflexivity|]].
  set (n := if lenbytes s =? 0 then 8 else lenbytes s).
  destruct (Z.ltb_spec (maxmaxsize n) m); cbn [orb]; [eexists _, _; split; [reflexivity|done]|].
  rewrite Hw. destruct (Z.ltb_spec m (Z.of_nat (length c))); [eexists _, _; split; [reflexivity|done]|].
  eexists _, _. split; [reflexivity|]. split; [|done]. constructor; try done; simpl.
  - split; [done|]. assert (maxmaxsize n <= SIZE_MAX); [|lia]. unfold maxmaxsize, SIZE_MAX, u64.
    destruct (_ || _); [done|]. pose proof (Z.mod_pos_bound (Z.shiftl 1 (n * 8) mod 2 ^ 64 - 1 + n) (2 ^ 64) ltac:(lia)). lia.
  - unfold mem_ok in *; simpl. destruct (staticbuf p) as [b|] eqn:Es, (buf p); try done.
    specialize (Hroom b eq_refl). rewrite He in *. split; [lia|]. apply Hm.
Qed.

Lemma get_length_ok p f fs c : inv p (f :: fs) c ->
  WPACKET_get_length p = Ret (Some (size f), p) /\
  WPACKET_get_total_written p = Ret (Some (Z.of_nat (length c)), p).
Proof.
  intros Hi. destruct (inv_parts p f fs c Hi) as (c0 & hole & ss0 & Hl & H0 & Hh & Hq & Hend & Hfwd & Es).
  pose proof Hi as [_ Hc Hw Hmax _]. unfold WPACKET_get_length, WPACKET_get_total_written.
  rewrite Es, Hw. split; [|done]. simpl. unfold size, ok, SIZE_MAX in *. do 3 f_equal.
  unfold u64. destruct (endfirst p).
  - destruct (Hend eq_refl) as [-> ->]. rewrite length_app in *. rewrite Z.mod_small; lia.
  - rewrite (Hfwd eq_refl) in *. rewrite !length_app in *. rewrite Z.mod_small; lia.
Qed.

(** ** QUIC *)

Lemma start_quic_ok p fs c mx : inv p fs c -> fs <> [] -> 0 <= mx ->
  let n := ossl_quic_vlint_encode_len mx in
  exists r p', WPACKET_start_quic_sub_packet_bound alloc p mx = Ret (r, p') /\ same_target p p' /\
    match r with
    | Some _ => n <> 0 /\ endfirst p = false /\
        exists c', inv p' (open n WPACKET_FLAGS_QUIC_VLINT fs) c'
    | None => n = 0 \/ alloc (calls p) = None \/ endfirst p = true \/ no_room alloc p c n
    end.
Proof.
  intros Hi Hne Hmx n. unfold WPACKET_start_quic_sub_packet_bound. fold n.
  destruct (Z.eqb_spec n 0); [eexists _, _; split; [reflexivity|]; split; [done|by left]|].
  assert (vlint_size n) as Hn by (destruct (vlint_encode_len_cases mx Hmx) as [[? _]|[? _]]; done).
  assert (1 <= n <= 8) by (unfold vlint_size in Hn; lia).
  destruct (start_ok alloc p fs c n Hi Hne) as (r & p' & -> & Hst & Hr); [lia|].
  destruct r as [[]|]; unfold and_then; rewrite bind_ret.
  - destruct Hr as (He & hole & Hh & Hi'). pose proof Hi' as [Hl' _ _ _ _].
    destruct (subs p') as [|s r'] eqn:Es; [by inversion Hl'|].
    eexists _, _. split; [reflexivity|]. split; [exact Hst|]. split; [done|].
    split; [destruct (endfirst p); [|done]; specialize (He eq_refl); lia|].
    destruct (laid_inv _ _ _ _ _ Hl') as (c0 & h & ss0 & _ & _ & _ & _ & _ & _ & [= Hs' _]).
    rewrite Hs'. eexists. change (Z.lor _ _) with WPACKET_FLAGS_QUIC_VLINT. rewrite <- Hs'.
    apply (inv_flags _ {| f_len := n; f_flags := 0; f_body := [] |} fs _ _ _ _ Hi' Es). by intros _ _.
  - eexists _, _. split; [reflexivity|]. split; [done|]. naive_solver.
Qed.

Lemma write_vlint_ok p fs c v : inv p fs c -> fs <> [] -> 0 <= v -> WPACKET_is_null_buf p = false ->
  let n := ossl_quic_vlint_encode_len v in
  exists r p', WPACKET_quic_write_vlint alloc p v = Ret (r, p') /\ same_target p p' /\
    match r with
    | Some _ => n <> 0 /\ inv p' (frame_push (endfirst p) (quic_put n v) fs) (join (endfirst p) c (quic_put n v))
    | None => inv p' fs c /\ (n = 0 \/ no_room alloc p c n)
    end.
Proof.
  intros Hi Hne Hv Hnull n. unfold WPACKET_quic_write_vlint. fold n.
  destruct (Z.eqb_spec n 0); [eexists _, _; split; [reflexivity|]; split; [done|split; [done|by left]]|].
  destruct (vlint_encode_len_cases v Hv) as [[? _]|[Hs Hfit]]; [done|]. fold n in Hs, Hfit.
  assert (1 <= n <= 8) by (unfold vlint_size in Hs; lia).
  destruct (allocate_ok alloc p fs c n Hi Hne) as (r & p' & -> & Hst & Hss & Hr); [lia|].
  destruct r as [ptr|]; unfold and_then; rewrite bind_ret.
  2:{ eexists _, _. split; [reflexivity|]. split; [done|]. destruct Hr. split; [done|]. by right. }
  destruct Hr as (_ & _ & Hr). destruct ptr as [a|].
  2:{ destruct Hr as [F _]. rewrite (null_iff _ _ Hst) in F. congruence. }
  destruct Hr as (Ha & m & Hg & Hroom & _ & Hok). rewrite Hg.
  pose proof (nbytes_quic_put n v) as [Hlen _].
  unfold ossl_quic_vlint_encode, ossl_quic_vlint_encode_n. fold n. rewrite vlint_bytes_put by done.
  rewrite mem_write_ok, bind_ret by lia. eexists _, _. split; [reflexivity|].
  split; [etransitivity; [exact Hst|apply same_target_set_mem]|]. split; [done|]. apply Hok. lia.
Qed.

(** Without a buffer the encoder is given the null pointer. *)
Lemma write_vlint_null p fs c v : inv p fs c -> fs <> [] -> 0 <= v < 2 ^ 62 -> WPACKET_is_null_buf p = true ->
  Z.of_nat (length c) + 8 <= maxsize p ->
  WPACKET_quic_write_vlint alloc p v = Fault.
Proof.
  intros Hi Hne Hv Hnull Hmax. unfold WPACKET_quic_write_vlint. set (n := ossl_quic_vlint_encode_len v).
  destruct (vlint_encode_len_cases v ltac:(lia)) as [[_ ?]|[Hs _]]; [lia|]. fold n in Hs.
  assert (1 <= n <= 8) by (unfold vlint_size in Hs; lia).
  destruct (Z.eqb_spec n 0); [lia|].
  destruct (allocate_ok alloc p fs c n Hi Hne) as (r & p' & -> & Hst & Hss & Hr); [lia|].
  destruct r as [ptr|]; unfold and_then; rewrite bind_ret.
  - destruct Hr as (_ & _ & Hr). destruct ptr as [a|]; [|done].
    destruct Hr as (_ & m & Hg & _). apply getbuf_not_null in Hg. rewrite (null_iff _ _ Hst) in Hg. congruence.
  - destruct Hr as [_ [?|[?|[Hb _]]]]; [lia..|]. unfold WPACKET_is_null_buf in Hnull.
    apply andb_true_iff in Hnull as [E%bool_decide_eq_true _]. done.
Qed.
End fill.
