(* ===== verification/WPacketTheorems.v ===== *)
(** * Sequences of calls on a packet

    The writer against a stack of frames with a limit: the calls that succeed,
    what the buffer then holds, and that none of them leaves the buffer. *)

From S2P Require Import Prelude Bytes QuicVlint BufMem Packet WPacket WPacketSpec WPacketCorrect WPacketOps WPacketClose.

(** The calls; [WAlloc] is [WPACKET_allocate_bytes] with the bytes that the
    caller stores there at once. *)
Inductive wop : Type :=
| WPut (v n : Z)
| WMemcpy (l : list Z)
| WMemset (ch len : Z)
| WAlloc (l : list Z)
| WStart (n : Z)
| WStartQuic (mx : Z)
| WFlags (fl : Z)
| WClose
| WSubMemcpy (l : list Z) (n : Z)
| WFill
| WVlint (v : Z).

(** What a call does to the frames. *)
Definition aexec (e null : bool) (op : wop) (fs : list frame) : option (list frame) :=
  match op with
  | WPut v n =>
      if decide (1 <= n <= 4 /\ (v < 256 ^ n \/ null = true)) then Some (frame_push e (be_put (Z.to_nat n) v) fs) else None
  | WMemcpy l => Some (frame_push e l fs)
  | WMemset ch len => Some (frame_push e (replicate (Z.to_nat len) (u8 ch)) fs)
  | WAlloc l => if decide (l = []) then None else Some (frame_push e l fs)
  | WStart n => if (0 <? n) && e then None else Some (open n 0 fs)
  | WStartQuic mx =>
      let n := ossl_quic_vlint_encode_len mx in
      if (n =? 0) || e then None else Some (open n WPACKET_FLAGS_QUIC_VLINT fs)
  | WFlags fl => match fs with [] => None | f :: r => Some (flag_frame fl f :: r) end
  | WClose => a_close e null fs
  | WSubMemcpy l n =>
      if (0 <? n) && e then None else a_close e null (frame_push e l (open n 0 fs))
  | WFill => if fillable null fs [] then Some fs else None
  | WVlint v =>
      let n := ossl_quic_vlint_encode_len v in
      if n =? 0 then None else Some (frame_push e (quic_put n v) fs)
  end.

(** The bytes in the buffer, with the room for lengths. *)
Definition total (fs : list frame) : Z := foldr (fun f n => f_len f + size f + n) 0 fs.

(** The calls in order; the frames must stay within [max] bytes. *)
Fixpoint arun (e null : bool) (max : Z) (ops : list wop) (fs : list frame) : option (list frame) :=
  match ops with
  | [] => Some fs
  | op :: r =>
      match aexec e null op fs with
      | Some fs' => if total fs' <=? max then arun e null max r fs' else None
      | None => None
      end
  end.

(** What callers have to observe: arguments of their types, a QUIC length of 1,
    2, 4 or 8 bytes, no lengths filled in at the end of a buffer and no QUIC
    integer without a buffer. *)
Definition legal (e null : bool) (op : wop) (fs : list frame) : Prop :=
  match op with
  | WPut v n => 0 <= v < 2 ^ 32 /\ 0 <= n < 2 ^ 64
  | WMemcpy l | WAlloc l => Z.of_nat (length l) < 2 ^ 64
  | WMemset ch len => 0 <= len < 2 ^ 64
  | WStart n => 0 <= n < 2 ^ 64
  | WStartQuic mx => 0 <= mx < 2 ^ 64
  | WFlags fl => match fs with [] => True | f :: _ => quic_legal (flag_frame fl f) end
  | WClose => True
  | WSubMemcpy l n => Z.of_nat (length l) < 2 ^ 64 /\ 0 <= n < 2 ^ 64
  | WFill => e = false
  | WVlint v => 0 <= v < 2 ^ 64 /\ null = false
  end.

Fixpoint legal_run (e null : bool) (ops : list wop) (fs : list frame) : Prop :=
  match ops with
  | [] => True
  | op :: r => legal e null op fs /\ forall fs', aexec e null op fs = Some fs' -> legal_run e null r fs'
  end.

Section run.
Context (alloc : nat -> fresh).

Definition exec (op : wop) (p : WPACKET) : res unit :=
  match op with
  | WPut v n => WPACKET_put_bytes__ alloc p v n
  | WMemcpy l => WPACKET_memcpy alloc p l
  | WMemset ch len => WPACKET_memset alloc p ch len
  | WAlloc l => allocate_and_store alloc p l
  | WStart n => WPACKET_start_sub_packet_len__ alloc p n
  | WStartQuic mx => WPACKET_start_quic_sub_packet_bound alloc p mx
  | WFlags fl => WPACKET_set_flags p fl
  | WClose => WPACKET_close alloc p
  | WSubMemcpy l n => WPACKET_sub_memcpy__ alloc p l n
  | WFill => WPACKET_fill_lengths alloc p
  | WVlint v => WPACKET_quic_write_vlint alloc p v
  end.

(** A caller gives up at the first failure. *)
Fixpoint run (ops : list wop) (p : WPACKET) : outcome (bool * WPACKET) :=
  match ops with
  | [] => Ret (true, p)
  | op :: r => '(x, p) ← exec op p; match x with Some _ => run r p | None => Ret (false, p) end
  end.

(** ** Sizes *)

Lemma total_push e l fs : fs <> [] -> total (frame_push e l fs) = total fs + Z.of_nat (length l).
Proof. destruct fs as [|f fs]; [done|]. intros _. simpl. unfold size; simpl. rewrite length_join. lia. Qed.

Lemma laid_total e fs c ss : laid e fs c ss -> Z.of_nat (length c) = total fs.
Proof. induction 1; simpl; [done|]. unfold size. rewrite !length_join. lia. Qed.

Lemma inv_total p fs c : inv p fs c -> Z.of_nat (length c) = total fs.
Proof. intros [Hl _ _ _ _]. by apply laid_total in Hl. Qed.

(** A failure that is not the caller's: the allocator's. *)
Definition starved : Prop := exists n, alloc n = None.

(** The bytes that the packet takes for certain. *)
Definition room (p : WPACKET) : Z :=
  if bool_decide (buf p = None) then maxsize p else Z.min (maxsize p) GROW_LIMIT.

Definition refused (p : WPACKET) (a : option (list frame)) : Prop :=
  starved \/ match a with None => True | Some fs' => room p < total fs' end.

Lemma room_same p p' : same_target p p' -> room p' = room p.
Proof.
  intros (Em & _ & _ & _ & Eb). unfold room. rewrite Em.
  by rewrite (bool_decide_ext (buf p' = None) (buf p = None)) by (destruct (buf p), (buf p'); naive_solver).
Qed.

Lemma room_whole p : buf p = None -> room p = maxsize p.
Proof. intros E. unfold room. by rewrite bool_decide_true. Qed.

Lemma room_max p : room p <= maxsize p.
Proof. unfold room. case_bool_decide; lia. Qed.

Lemma room_out p n n' : n <= n' -> maxsize p < n \/ starving alloc p n -> starved \/ room p < n'.
Proof.
  intros Hn [Hm|[Hb [Ha|Hg]]]; [right|by left|right].
  - pose proof (room_max p). lia.
  - unfold room. rewrite bool_decide_false by done. lia.
Qed.

Lemma no_room_refused p fs c l e : inv p fs c -> fs <> [] -> no_room alloc p c (Z.of_nat (length l)) -> l <> [] ->
  refused p (Some (frame_push e l fs)).
Proof.
  intros Hi Hne Hno Hl. unfold refused. rewrite total_push by done.
  rewrite <- (inv_total p fs c) by done. destruct Hno as [E|Hno]; [destruct l; [done|simpl in E; lia]|].
  by eapply room_out.
Qed.

(** ** One call *)

Definition step_ok (op : wop) (p : WPACKET) (fs : list frame) : Prop :=
  exists r p', exec op p = Ret (r, p') /\
    let a := aexec (endfirst p) (WPACKET_is_null_buf p) op fs in
    match r with
    | Some _ => same_target p p' /\ exists fs' c', a = Some fs' /\ fs' <> [] /\ inv p' fs' c'
    | None => refused p a
    end.

Lemma step_put p fs c v n : inv p fs c -> fs <> [] -> 0 <= v < 2 ^ 32 -> 0 <= n < 2 ^ 64 -> step_ok (WPut v n) p fs.
Proof.
  intros Hi Hne Hv Hn. destruct (put_bytes_ok alloc p fs c v n Hi Hne) as (r & p' & E & Hst & Hs & Hr); [lia..|].
  exists r, p'. split; [done|]. cbv zeta in *. cbn [aexec]. destruct r as [[]|].
  - destruct Hr as (H1 & H2 & Hi'). split; [done|]. rewrite decide_True by done. eexists _, _.
    split; [done|]. split; [by rewrite push_ne|done].
  - destruct Hr as [Hwhy _]. case_decide as D; [|by right]. destruct D as [D1 D2].
    pose proof (nbytes_be_put (Z.to_nat n) v) as [Hl _].
    destruct Hwhy as [?|[Hno|[? ?]]]; [lia| |].
    + eapply no_room_refused; [done..| |intros F; rewrite F in Hl; simpl in Hl; lia].
      rewrite Hl, Z2Nat.id by lia. done.
    + exfalso. destruct D2 as [?|F]; [lia|]. congruence.
Qed.

Lemma inv_nonempty e l fs : fs <> [] -> frame_push e l fs <> [].
Proof. by rewrite push_ne. Qed.

(** Calls that write the bytes [l] when there is room. *)
Lemma step_push op p fs c l : inv p fs c -> fs <> [] ->
  aexec (endfirst p) (WPACKET_is_null_buf p) op fs = Some (frame_push (endfirst p) l fs) ->
  (exists r p', exec op p = Ret (r, p') /\ same_target p p' /\
     match r with
     | Some _ => inv p' (frame_push (endfirst p) l fs) (join (endfirst p) c l)
     | None => no_room alloc p c (Z.of_nat (length l)) /\ l <> []
     end) -> step_ok op p fs.
Proof.
  intros Hi Hne Ea (r & p' & E & Hst & Hr). exists r, p'. split; [done|]. cbv zeta. rewrite Ea.
  destruct r as [[]|].
  - split; [done|]. eexists _, _. split; [done|]. split; [by apply inv_nonempty|done].
  - destruct Hr. by eapply no_room_refused.
Qed.

Lemma step_memcpy p fs c l : inv p fs c -> fs <> [] -> Z.of_nat (length l) < 2 ^ 64 -> step_ok (WMemcpy l) p fs.
Proof.
  intros Hi Hne Hl. destruct (memcpy_ok alloc p fs c l Hi Hne Hl) as (r & p' & E & Hst & Hr).
  eapply step_push; [done..|]. exists r, p'. split; [done|]. split; [done|]. destruct r; [done|]. apply Hr.
Qed.

Lemma step_memset p fs c ch len : inv p fs c -> fs <> [] -> 0 <= len < 2 ^ 64 -> step_ok (WMemset ch len) p fs.
Proof.
  intros Hi Hne Hl. destruct (memset_ok alloc p fs c ch len Hi Hne Hl) as (r & p' & E & Hst & Hr).
  eapply step_push; [done..|]. exists r, p'. split; [done|]. split; [done|]. destruct r; [done|].
  destruct Hr as (_ & Hr & H0). rewrite length_replicate, Z2Nat.id by lia. split; [done|].
  intros F. apply (f_equal length) in F. rewrite length_replicate in F. simpl in F. lia.
Qed.

Lemma step_alloc p fs c l : inv p fs c -> fs <> [] -> Z.of_nat (length l) < 2 ^ 64 -> step_ok (WAlloc l) p fs.
Proof.
  intros Hi Hne Hl. destruct (allocate_and_store_ok alloc p fs c l Hi Hne Hl) as (r & p' & E & Hst & Hr).
  destruct (decide (l = [])) as [->|Hl0].
  - exists r, p'. split; [done|]. cbn [aexec]. rewrite decide_True by done. destruct r as [[]|]; [|by right].
    exfalso. unfold exec, allocate_and_store, WPACKET_allocate_bytes, WPACKET_reserve_bytes in E.
    cbn [length] in E. change (Z.of_nat 0 =? 0) with true in E. rewrite orb_true_r in E. discriminate E.
  - eapply step_push; [done..|cbn [aexec]; by rewrite decide_False by done|].
    exists r, p'. split; [done|]. split; [done|]. destruct r; [done|]. by destruct Hr.
Qed.

Lemma step_vlint p fs c v : inv p fs c -> fs <> [] -> 0 <= v < 2 ^ 64 -> WPACKET_is_null_buf p = false ->
  step_ok (WVlint v) p fs.
Proof.
  intros Hi Hne Hv Hnull. destruct (write_vlint_ok alloc p fs c v Hi Hne) as (r & p' & E & Hst & Hr); [lia|done|].
  exists r, p'. split; [done|]. cbn [aexec]. destruct (Z.eqb_spec (ossl_quic_vlint_encode_len v) 0) as [E0|N0].
  - rewrite E0 in Hr. destruct r as [[]|]; [by destruct Hr|by right].
  - destruct r as [[]|].
    + split; [done|]. destruct Hr. eexists _, _. split; [done|]. split; [by apply inv_nonempty|done].
    + destruct Hr as (_ & [?|Hno]); [done|].
      pose proof (nbytes_quic_put (ossl_quic_vlint_encode_len v) v) as [Hl _].
      destruct (vlint_encode_len_cases v ltac:(lia)) as [[? _]|[Hs _]]; [done|]. unfold vlint_size in Hs.
      eapply no_room_refused; [done..| |intros F; rewrite F in Hl; simpl in Hl; lia]. by rewrite Hl, Z2Nat.id by lia.
Qed.

Lemma start_refused p fs c n : inv p fs c -> 0 < n -> no_room alloc p c n -> refused p (Some (open n 0 fs)) /\
  forall fl, refused p (Some (open n fl fs)).
Proof.
  intros Hi Hn Hno. assert (forall fl, refused p (Some (open n fl fs))) as H; [|by split].
  intros fl. unfold refused. simpl. rewrite <- (inv_total p fs c) by done.
  destruct Hno as [?|Hno]; [lia|]. eapply room_out; [|exact Hno]. unfold size; simpl; lia.
Qed.

Lemma step_start p fs c n : inv p fs c -> fs <> [] -> 0 <= n < 2 ^ 64 -> step_ok (WStart n) p fs.
Proof.
  intros Hi Hne Hn. destruct (start_ok alloc p fs c n Hi Hne Hn) as (r & p' & E & Hst & Hr).
  exists r, p'. split; [done|]. cbn [aexec]. destruct r as [[]|].
  - split; [done|]. destruct Hr as (He & hole & _ & Hi').
    assert ((0 <? n) && endfirst p = false) as ->.
    { destruct (endfirst p); [rewrite (He eq_refl); done|apply andb_false_r]. }
    eexists _, _. split; [done|]. done.
  - destruct Hr as [[_ [Ha|[H0 He]]]|[H0 Hno]].
    + left. by eexists.
    + rewrite He. destruct (Z.ltb_spec 0 n); [by right|lia].
    + destruct ((0 <? n) && endfirst p); [by right|]. by eapply start_refused.
Qed.

Lemma step_start_quic p fs c mx : inv p fs c -> fs <> [] -> 0 <= mx < 2 ^ 64 -> step_ok (WStartQuic mx) p fs.
Proof.
  intros Hi Hne Hn. destruct (start_quic_ok alloc p fs c mx Hi Hne) as (r & p' & E & Hst & Hr); [lia|].
  exists r, p'. split; [done|]. cbn [aexec]. set (n := ossl_quic_vlint_encode_len mx) in *.
  destruct r as [[]|].
  - split; [done|]. destruct Hr as (Hn0 & -> & c' & Hi'). destruct (Z.eqb_spec n 0); [done|].
    eexists _, _. split; [done|]. done.
  - destruct (Z.eqb_spec n 0); [by right|]. cbn [orb].
    destruct Hr as [?|[Ha|[->|Hno]]]; [done|by left; eexists|by right|].
    destruct (endfirst p); [by right|].
    assert (0 < n) by (destruct (vlint_encode_len_cases mx ltac:(lia)) as [[? _]|[Hs _]]; [done|]; unfold vlint_size in Hs; lia).
    by eapply start_refused.
Qed.

Lemma step_flags p fs c fl : inv p fs c -> fs <> [] ->
  legal (endfirst p) (WPACKET_is_null_buf p) (WFlags fl) fs -> step_ok (WFlags fl) p fs.
Proof.
  intros Hi Hne Hl. destruct fs as [|f fs]; [done|].
  destruct (set_flags_ok p f fs c fl Hi Hl) as (p' & E & Hst & Hi').
  exists (Some tt), p'. split; [done|]. split; [done|]. by eexists _, _.
Qed.

Lemma step_fill p fs c : inv p fs c -> fs <> [] -> endfirst p = false -> step_ok WFill p fs.
Proof.
  intros Hi Hne He. destruct (fill_ok alloc p fs c Hi Hne He) as (r & p' & c' & E & Hst & Hi' & Hr).
  exists r, p'. split; [done|]. cbn [aexec]. destruct r as [[]|].
  - destruct Hr as [-> _]. split; [done|]. by eexists _, _.
  - rewrite Hr. by right.
Qed.

(** Closing does not change the number of bytes, but for a length at the end and
    a frame that is abandoned. *)
Lemma a_close_total e null f g fs fs' : (e = true -> f_len f = 0) -> 0 <= f_len f ->
  a_close e null (f :: g :: fs) = Some fs' -> abandoned f (size f) = false ->
  fs' <> [] /\
  total fs' = total (f :: g :: fs) + if e then Z.of_nat (length (der_length (size f))) else 0.
Proof.
  intros He H0 Ha Hab. unfold a_close in Ha. destruct (must_write f (size f)); [done|]. rewrite Hab in Ha.
  destruct e.
  - specialize (He eq_refl). case_decide; [|done]. apply (inj Some) in Ha as <-. split; [done|].
    rewrite total_push by done. rewrite length_app. simpl. rewrite He. unfold size. lia.
  - destruct (_ || _); [|done]. apply (inj Some) in Ha as <-. split; [done|].
    rewrite total_push by done. rewrite length_app, length_prefix by done. simpl. unfold size. lia.
Qed.

Lemma close_refused p f g fs c : inv p (f :: g :: fs) c -> no_der_room alloc p f c ->
  refused p (a_close (endfirst p) (WPACKET_is_null_buf p) (f :: g :: fs)).
Proof.
  intros Hi (He & Hab & Hwhy). destruct (inv_parts p f _ c Hi) as (c0 & hole & ss0 & _ & H0 & _ & _ & Hend & _).
  destruct (Hend He) as [E0 _]. unfold refused.
  destruct (a_close _ _ _) as [fs'|] eqn:Ea; [|by right].
  destruct (a_close_total _ _ f g fs fs' ltac:(done) H0 Ea Hab) as [_ ->]. rewrite He, <- (inv_total p _ c Hi).
  eapply room_out; [|destruct Hwhy; [by right|by left]]. lia.
Qed.

Lemma a_close_nonempty e null fs fs' : a_close e null fs = Some fs' -> fs' <> [].
Proof.
  unfold a_close. destruct fs as [|f [|g fs]]; [done..|].
  destruct (must_write _ _); [done|]. destruct (abandoned _ _); [by intros [= <-]|].
  destruct e; [case_decide; [|done]|destruct (_ || _); [|done]]; by intros [= <-].
Qed.

Lemma step_close p fs c : inv p fs c -> fs <> [] -> step_ok WClose p fs.
Proof.
  intros Hi Hne. destruct fs as [|f [|g fs]]; [done| |].
  - exists None, p. cbn [exec aexec a_close]. split; [|by right]. unfold WPACKET_close.
    destruct (inv_parts p f [] c Hi) as (c0 & hole & ss0 & Hl & _ & _ & _ & _ & _ & ->). by inversion Hl.
  - destruct (close_ok alloc p f g fs c Hi) as (r & p' & E & Hst & Hr). exists r, p'. split; [done|].
    cbv zeta in *. cbn [aexec]. destruct r as [[]|].
    + split; [done|]. destruct Hr as (fs' & c' & Ea & Hi'). exists fs', c'.
      split; [done|]. split; [by eapply a_close_nonempty|done].
    + destruct Hr as [[->|Hno] _]; [by right|]. by eapply close_refused.
Qed.

(** A sub-packet in one call. *)
Lemma step_sub_memcpy p fs c l n : inv p fs c -> fs <> [] -> Z.of_nat (length l) < 2 ^ 64 -> 0 <= n < 2 ^ 64 ->
  step_ok (WSubMemcpy l n) p fs.
Proof.
  intros Hi Hne Hl Hn. unfold step_ok. cbn [exec aexec]. unfold WPACKET_sub_memcpy__.
  destruct (start_ok alloc p fs c n Hi Hne Hn) as (r & p1 & E1 & Hst1 & Hr1). rewrite E1.
  set (f := {| f_len := n; f_flags := 0; f_body := join (endfirst p) [] l |}).
  assert (frame_push (endfirst p) l (open n 0 fs) = f :: fs) as Ep by done.
  assert (exists g fs0, fs = g :: fs0) as (g & fs0 & Eg) by (destruct fs; [done|eauto]).
  assert (abandoned f (size f) = false) as Hab by (unfold abandoned; apply andb_false_r).
  assert (((0 <? n) && endfirst p = false -> forall fs', a_close (endfirst p) (WPACKET_is_null_buf p) (f :: fs) = Some fs' ->
    Z.of_nat (length c) + n + Z.of_nat (length l) <= total fs')) as Htot.
  { intros Hf fs' Ha. rewrite Eg in Ha.
    assert (endfirst p = true -> n = 0) as He by (intros E; rewrite E, andb_true_r in Hf; apply Z.ltb_ge in Hf; lia).
    destruct (a_close_total _ _ f g fs0 fs' He ltac:(simpl; lia) Ha Hab) as [_ ->]. rewrite <- Eg.
    cbn [total foldr]. fold (total fs). rewrite (inv_total p fs c Hi). unfold size; simpl. rewrite length_join. simpl.
    destruct (endfirst p); lia. }
  destruct r as [[]|]; unfold and_then at 1; rewrite bind_ret.
  2:{ eexists _, _. split; [reflexivity|]. cbv zeta. destruct ((0 <? n) && endfirst p) eqn:E0; [by right|].
      destruct Hr1 as [[_ [Ha|[H0 He]]]|[H0 Hno]].
      - left. by eexists.
      - rewrite He in E0. destruct (Z.ltb_spec 0 n); [done|lia].
      - destruct Hno as [?|Hno]; [lia|]. unfold refused. rewrite Ep.
        destruct (a_close _ _ _) as [fs'|] eqn:Ea; [|by right]. specialize (Htot eq_refl fs' eq_refl).
        eapply room_out; [|exact Hno]. lia. }
  destruct Hr1 as (He & hole & Hh & Hi1).
  assert ((0 <? n) && endfirst p = false) as E0.
  { destruct (endfirst p); [rewrite (He eq_refl); done|apply andb_false_r]. }
  specialize (Htot E0). rewrite E0. pose proof Hst1 as (Em1 & Ee1 & En1 & _ & Eb1).
  destruct (memcpy_ok alloc p1 (open n 0 fs) _ l Hi1) as (r & p2 & E2 & Hst2 & Hr2); [done|done|].
  rewrite E2, Ee1 in *. destruct r as [[]|]; unfold and_then at 1; rewrite bind_ret.
  2:{ eexists _, _. split; [reflexivity|]. cbv zeta. destruct Hr2 as (_ & Hno & Hl0).
      destruct Hno as [F|Hno]; [destruct l; [done|simpl in F; lia]|].
      unfold refused. rewrite Ep. destruct (a_close _ _ _) as [fs'|] eqn:Ea; [|by right]. specialize (Htot fs' eq_refl).
      rewrite <- (room_same p p1 Hst1). eapply (room_out p1); [|exact Hno]. rewrite length_join. lia. }
  rewrite Ep in *. rewrite Eg in Hr2.
  destruct (close_ok alloc p2 f g fs0 _ Hr2) as (r & p3 & E3 & Hst3 & Hr3). exists r, p3. split; [done|].
  pose proof Hst2 as (Em2 & Ee2 & En2 & _ & Eb2). rewrite Ee1 in Ee2. rewrite En1 in En2. rewrite Em1 in Em2.
  assert (same_target p p3) as Hst by (etransitivity; [|exact Hst3]; by etransitivity).
  cbv zeta in Hr3. rewrite Ee2, En2, <- Eg in Hr3. cbv zeta. destruct r as [[]|].
  - split; [done|]. destruct Hr3 as (fs' & c' & Ea & Hi'). exists fs', c'.
    split; [done|]. split; [by eapply a_close_nonempty|done].
  - destruct Hr3 as [[->|Hno] _]; [by right|]. apply (close_refused p2 f g fs0) in Hno; [|done].
    rewrite Ee2, En2, <- Eg in Hno. unfold refused in *. rewrite <- (room_same p p2); [done|by transitivity p1].
Qed.

Lemma step_all op p fs c : inv p fs c -> fs <> [] -> legal (endfirst p) (WPACKET_is_null_buf p) op fs -> step_ok op p fs.
Proof.
  intros Hi Hne Hl.
  destruct op; cbn [legal] in Hl; destruct_and?;
    eauto using step_put, step_memcpy, step_memset, step_alloc, step_start, step_start_quic, step_flags,
      step_close, step_sub_memcpy, step_fill, step_vlint.
Qed.

(** ** Sequences of calls *)

Lemma run_ok ops : forall p fs c, inv p fs c -> fs <> [] ->
  legal_run (endfirst p) (WPACKET_is_null_buf p) ops fs ->
  exists b p', run ops p = Ret (b, p') /\
    let a max := arun (endfirst p) (WPACKET_is_null_buf p) max ops fs in
    if (b : bool)
    then same_target p p' /\ exists fs' c', a (maxsize p) = Some fs' /\ fs' <> [] /\ inv p' fs' c'
    else starved \/ a (room p) = None.
Proof.
  induction ops as [|op ops IH]; intros p fs c Hi Hne Hl; cbn [run arun].
  { exists true, p. split; [done|]. cbv zeta. split; [done|]. eauto. }
  destruct Hl as [Hop Hrest].
  destruct (step_all op p fs c Hi Hne Hop) as (r & p1 & E & Hr). rewrite E. cbn [mbind outcome_bind].
  cbv zeta in Hr. destruct r as [[]|].
  - destruct Hr as (Hst & fs1 & c1 & Ea & Hne1 & Hi1). rewrite Ea.
    pose proof Hst as (Em & Ee & En & _). pose proof (room_max p).
    destruct (Z.leb_spec (total fs1) (maxsize p)) as [Hle|Hgt].
    + destruct (IH p1 fs1 c1 Hi1 Hne1) as (b & p' & E' & Hr'); [rewrite Ee, En; by apply Hrest|].
      rewrite Em, Ee, En, (room_same p p1 Hst) in Hr'. exists b, p'. split; [done|]. cbv zeta in *. destruct b.
      * destruct Hr' as [Hst' Hr']. split; [by etransitivity|done].
      * destruct (total fs1 <=? room p); [done|by right].
    + exfalso. pose proof (inv_max _ _ _ Hi1). rewrite (inv_total _ _ _ Hi1) in *. lia.
  - exists false, p1. split; [done|]. cbv zeta. destruct Hr as [?|Hr]; [by left|]. right.
    destruct (aexec _ _ _ _) as [fs'|]; [|done]. destruct (Z.leb_spec (total fs') (room p)); [lia|done].
Qed.

(** ** Where a packet can write to *)

Inductive target : Type :=
| TStatic (b : list Z) (len n : Z)
| TDer (b : list Z) (len : Z)
| TMem (b : BUF_MEM) (n : Z)
| TNull (n : Z)
| TNullDer.

Definition init (t : target) (p : WPACKET) : res unit :=
  match t with
  | TStatic b len n => WPACKET_init_static_len alloc p (Some b) len n
  | TDer b len => WPACKET_init_der alloc p (Some b) len
  | TMem b n => WPACKET_init_len alloc p (Some b) n
  | TNull n => WPACKET_init_null alloc p n
  | TNullDer => WPACKET_init_null_der alloc p
  end.

(** The buffer is as long as said, the [BUF_MEM] in order. *)
Definition target_ok (t : target) : Prop :=
  match t with
  | TStatic b len n => 0 < len <= Z.of_nat (length b) /\ Z.of_nat (length b) < 2 ^ 62 /\ 0 <= n < 2 ^ 64
  | TDer b len => 0 < len <= Z.of_nat (length b) /\ Z.of_nat (length b) < 2 ^ 62
  | TMem b n => bm_wf b /\ bm_max b < 2 ^ 62 /\ 0 <= n < 2 ^ 64
  | TNull n => 0 <= n < 2 ^ 64
  | TNullDer => True
  end.

Definition from_end (t : target) : bool :=
  match t with TDer _ _ | TNullDer => true | _ => false end.

Definition no_buffer (t : target) : bool :=
  match t with TNull _ | TNullDer => true | _ => false end.

Definition limit (t : target) : Z :=
  match t with
  | TStatic _ len n => Z.min (maxmaxsize n) len
  | TDer _ len => len
  | TMem _ n | TNull n => maxmaxsize n
  | TNullDer => SIZE_MAX
  end.

(** The frame that a packet begins with: without a buffer it has no length. *)
Definition top (t : target) : frame :=
  {| f_len := match t with TStatic _ _ n | TMem _ n => n | _ => 0 end; f_flags := 0; f_body := [] |}.

(** The bytes that a target takes for certain, if memory can be had. *)
Definition certain (t : target) : Z :=
  match t with TMem _ n => Z.min (maxmaxsize n) GROW_LIMIT | _ => limit t end.

Lemma maxmaxsize_range n : 0 <= n < 2 ^ 64 -> 0 <= maxmaxsize n <= SIZE_MAX.
Proof.
  intros Hn. unfold maxmaxsize, SIZE_MAX. destruct (_ || _); [lia|]. unfold u64.
  pose proof (Z.mod_pos_bound (Z.shiftl 1 (n * 8) mod 2 ^ 64 - 1 + n) (2 ^ 64) ltac:(lia)). lia.
Qed.

Lemma intern_init_ok p n : 0 <= n < 2 ^ 64 -> (endfirst p = true -> n = 0) -> 0 <= maxsize p <= SIZE_MAX ->
  mem_ok p [] ->
  let f := {| f_len := n; f_flags := 0; f_body := [] |} in
  exists r p', wpacket_intern_init_len alloc p n = Ret (r, p') /\
    match r with
    | Some _ => same_target p p' /\ total [f] <= maxsize p /\ exists c, inv p' [f] c
    | None => starved \/ room p < total [f]
    end.
Proof.
  intros Hn He Hmax Hm f. unfold wpacket_intern_init_len, zalloc_sub. simpl calls.
  destruct (alloc (calls p)) as [x|] eqn:Ea; cbn [negb].
  2:{ eexists _, _. split; [reflexivity|]. left. by eexists. }
  set (p0 := called (set_pos 0 0 p)).
  set (f0 := {| f_len := 0; f_flags := 0; f_body := [] |}).
  assert (forall q, q = set_subs [sub_of f0 0] p0 -> inv q [f0] []) as Hi0.
  { intros q ->. constructor; try done. simpl.
    pose proof (laid_frame (endfirst p) f0 [] [] [] []) as L.
    destruct (endfirst p); simpl in L; apply L; (done || constructor). }
  destruct (Z.eqb_spec n 0) as [->|Hn0].
  - eexists _, _. split; [reflexivity|]. split; [done|]. split; [simpl; unfold size; simpl; lia|].
    exists []. by apply Hi0.
  - assert (endfirst p = false) as He' by (destruct (endfirst p); [lia|done]).
    assert (set_subs [{| packet_len := 0; lenbytes := n; pwritten := n; flags := 0 |}] p0 =
      set_subs [sub_of f 0] (set_subs [sub_of f0 0] p0)) as ->.
    { unfold sub_of; simpl. destruct (n =? 0); done. }
    rewrite allocate_subs by done.
    destruct (allocate_ok alloc (set_subs [sub_of f0 0] p0) [f0] [] n (Hi0 _ eq_refl)) as (r & p' & -> & Hst & Hs & Hr);
      [done|done|].
    cbn [mbind outcome_bind]. destruct r as [ptr|]; eexists _, _; (split; [reflexivity|]).
    + apply allocated_as_is in Hr as Hr2. destruct Hr2 as (l & Hl & Hi). destruct Hr as (_ & Hmx & _).
      simpl in Hmx. change (endfirst (set_subs [sub_of f0 0] p0)) with (endfirst p) in Hi. rewrite He' in Hi. simpl in Hi.
      split; [exact Hst|]. split; [simpl; unfold size; simpl; lia|]. exists l.
      destruct Hi as [_ Hc Hw Hm' Hmem]. pose proof Hst as (_ & Ee & _). simpl in Ee. rewrite He' in Ee.
      constructor; try done. simpl. rewrite Ee.
      pose proof (laid_frame false f [] [] [] l) as L. simpl in L. rewrite app_nil_r in L.
      apply L; try done; [constructor|lia|lia].
    + destruct Hr as [_ [?|Hno]]; [lia|]. eapply (room_out p); [|exact Hno]. simpl. unfold size; simpl. lia.
Qed.

Lemma winit_ok t p : target_ok t ->
  exists r p', init t p = Ret (r, p') /\
    match r with
    | Some _ => endfirst p' = from_end t /\ WPACKET_is_null_buf p' = no_buffer t /\ maxsize p' = limit t /\
        room p' = certain t /\ total [top t] <= limit t /\ exists c, inv p' [top t] c
    | None => starved \/ certain t < total [top t]
    end.
Proof.
  intros Ht.
  assert (forall q n, 0 <= n < 2 ^ 64 -> (endfirst q = true -> n = 0) -> 0 <= maxsize q <= SIZE_MAX -> mem_ok q [] ->
    endfirst q = from_end t -> WPACKET_is_null_buf q = no_buffer t -> maxsize q = limit t -> 
    room q = certain t -> top t = {| f_len := n; f_flags := 0; f_body := [] |} ->
    exists r p', wpacket_intern_init_len alloc q n = Ret (r, p') /\
    match r with
    | Some _ => endfirst p' = from_end t /\ WPACKET_is_null_buf p' = no_buffer t /\ maxsize p' = limit t /\
        room p' = certain t /\ total [top t] <= limit t /\ exists c, inv p' [top t] c
    | None => starved \/ certain t < total [top t]
    end) as H.
  { intros q n Hn He Hmax Hm E1 E2 E3 E4 E5.
    destruct (intern_init_ok q n Hn He Hmax Hm) as (r & p' & -> & Hr). exists r, p'. split; [done|].
    rewrite E5, <- E3, <- E4. destruct r as [[]|]; [|done].
    destruct Hr as (Hst & Htot & Hc). pose proof Hst as (Em & Ee & En & _ & Eb).
    rewrite Ee, En, Em. split_and!; try done. by apply room_same. }
  destruct t as [b len n|b len|b n|n|]; simpl in Ht; destruct_and?; cbn [init].
  - unfold WPACKET_init_static_len. rewrite bool_decide_false by done. destruct (Z.eqb_spec len 0); [lia|]. cbn [orb].
    pose proof (maxmaxsize_range n ltac:(lia)).
    apply H; simpl; try done; try (unfold mem_ok, SIZE_MAX in *; simpl; zcases; lia).
    + unfold mem_ok; simpl. split; [zcases; lia|done].
    + rewrite room_whole by done. simpl. zcases; lia.
  - unfold WPACKET_init_der. rewrite bool_decide_false by done. destruct (Z.eqb_spec len 0); [lia|]. cbn [orb].
    apply H; simpl; try done; try (unfold SIZE_MAX; lia).
  - unfold WPACKET_init_len. apply H; simpl; try done; [by apply maxmaxsize_range|].
    unfold mem_ok; simpl. match goal with H : bm_wf b |- _ => pose proof H as [? _] end. split_and!; (done || lia).
  - unfold WPACKET_init_null. apply H; simpl; try done; by apply maxmaxsize_range.
  - unfold WPACKET_init_null_der. apply H; done.
Qed.

(** ** Sessions: a packet from its beginning to [WPACKET_finish] *)

Definition session (t : target) (ops : list wop) (p : WPACKET) : outcome (option WPACKET) :=
  '(r, p) ← init t p;
  match r with
  | None => Ret None
  | Some _ =>
      '(b, p) ← run ops p;
      if (b : bool) then '(r, p) ← WPACKET_finish alloc p; Ret (match r with Some _ => Some p | None => None end)
      else Ret None
  end.
End run.

(** What a session writes within [max] bytes. *)
Definition spec_upto (max : Z) (t : target) (ops : list wop) : option (list Z) :=
  if total [top t] <=? max then
    match arun (from_end t) (no_buffer t) max ops [top t] with
    | Some fs => a_finish (from_end t) (no_buffer t) fs
    | None => None
    end
  else None.

Definition spec_session (t : target) (ops : list wop) : option (list Z) := spec_upto (limit t) t ops.

(** The bytes of a packet in its buffer. *)
Definition packet_bytes (p : WPACKET) : list Z :=
  match GETBUF p with
  | Some m =>
      if endfirst p then take (Z.to_nat (written p)) (drop (Z.to_nat (maxsize p - written p)) m)
      else take (Z.to_nat (written p)) m
  | None => []
  end.

Lemma finished_bytes p c : finished p c -> WPACKET_is_null_buf p = false -> Z.of_nat (length c) <= maxsize p ->
  packet_bytes p = c.
Proof.
  intros [_ Hw Hm] Hnull Hmax. unfold packet_bytes. rewrite Hw.
  destruct (GETBUF p) as [m|] eqn:Hg.
  - destruct (mem_window p c m Hm Hg) as (Hwin & _ & _). unfold window in Hwin. rewrite Nat2Z.id.
    destruct (endfirst p); [|done]. etransitivity; [|exact Hwin]. do 2 f_equal. lia.
  - destruct c; [done|]. by rewrite (getbuf_null p _ Hm) in Hnull.
Qed.

Lemma a_finish_single e null fs c : a_finish e null fs = Some c -> exists f, fs = [f].
Proof. destruct fs as [|f [|]]; [done|eauto|done]. Qed.

Lemma a_finish_size e null f c : (e = true -> f_len f = 0) -> 0 <= f_len f -> a_finish e null [f] = Some c ->
  Z.of_nat (length c) <= total [f].
Proof.
  intros He H0. unfold a_finish, size. simpl. unfold size.
  destruct (must_write _ _); [done|]. destruct (abandoned _ _); [intros [= <-]; simpl; lia|].
  destruct e; [intros [= <-]; lia|]. destruct (_ || _); [|done]. intros [= <-].
  rewrite length_app, length_prefix by done. lia.
Qed.

Lemma finish_deep alloc p f g fs c : inv p (f :: g :: fs) c -> WPACKET_finish alloc p = Ret (None, p).
Proof.
  intros Hi. destruct (inv_parts p f _ c Hi) as (c0 & hole & ss0 & Hl & _ & _ & _ & _ & _ & Es).
  unfold WPACKET_finish. rewrite Es. destruct ss0; [by inversion Hl|done].
Qed.

Lemma arun_mono e null max max' ops : max <= max' -> forall fs fs',
  arun e null max ops fs = Some fs' -> arun e null max' ops fs = Some fs'.
Proof.
  intros Hm. induction ops as [|op ops IH]; intros fs fs'; cbn [arun]; [done|].
  destruct (aexec e null op fs) as [fs1|]; [|done].
  destruct (Z.leb_spec (total fs1) max), (Z.leb_spec (total fs1) max'); try lia; auto; done.
Qed.

Lemma session_ok alloc t ops p : target_ok t ->
  legal_run (from_end t) (no_buffer t) ops [top t] ->
  exists out, session alloc t ops p = Ret out /\
    match out with
    | Some p' =>
        exists c, spec_session t ops = Some c /\ subs p' = [] /\ written p' = Z.of_nat (length c) /\
          (no_buffer t = false -> packet_bytes p' = c)
    | None => spec_upto (certain t) t ops = None \/ exists n, alloc n = None
    end.
Proof.
  intros Ht Hl. unfold session, spec_session, spec_upto.
  destruct (winit_ok alloc t p Ht) as (r & p1 & -> & Hr). cbn [mbind outcome_bind]. destruct r as [[]|].
  2:{ eexists. split; [done|]. destruct Hr as [?|Hbig]; [by right|]. left. zcase; [lia|done]. }
  destruct Hr as (Ee & En & Em & Hroom & Htot & c1 & Hi1). apply Z.leb_le in Htot. rewrite Htot.
  destruct (run_ok alloc ops p1 [top t] c1 Hi1) as (b & p2 & -> & Hr2); [done|by rewrite Ee, En|].
  cbn [mbind outcome_bind]. cbv zeta in Hr2. rewrite Ee, En, Em, Hroom in Hr2. destruct b.
  2:{ eexists. split; [done|]. destruct Hr2 as [?| ->]; [by right|left]. by zcase. }
  destruct Hr2 as (Hst & fs & c2 & Ea2 & Hne & Hi2). rewrite Ea2. pose proof Hst as (Em2 & Ee2 & En2 & _).
  assert (Hless : forall fs', arun (from_end t) (no_buffer t) (certain t) ops [top t] = Some fs' -> fs' = fs).
  { intros fs' E. apply (arun_mono _ _ _ (limit t)) in E; [congruence|]. destruct t; simpl; lia. }
  rewrite Ee in Ee2. rewrite En in En2. rewrite Em in Em2.
  destruct fs as [|f [|g fs]]; [done| |].
  2:{ rewrite (finish_deep alloc p2 f g fs c2 Hi2). eexists. split; [reflexivity|]. left. zcase; [|done].
      destruct (arun _ _ (certain t) _ _) as [fs'|] eqn:E; [|done]. by rewrite (Hless fs' eq_refl). }
  destruct (wfinish_ok alloc p2 f c2 Hi2) as (r & p3 & -> & Hst3 & Hr3). cbn [mbind outcome_bind].
  cbv zeta in Hr3. rewrite Ee2, En2 in Hr3. eexists. split; [done|]. destruct r as [[]|].
  2:{ left. zcase; [|done]. destruct (arun _ _ (certain t) _ _) as [fs'|] eqn:E; [|done].
      rewrite (Hless fs' eq_refl). by apply Hr3. }
  destruct Hr3 as (c3 & Ea & Hfin). exists c3. split; [done|]. pose proof Hfin as [Hs Hw _].
  split; [done|]. split; [done|]. intros Hnull. apply finished_bytes; [done|by rewrite (null_iff _ _ Hst3), En2|].
  destruct Hst3 as (Em3 & _). rewrite Em3, Em2.
  destruct (inv_parts p2 f [] c2 Hi2) as (c0 & hole & ss0 & _ & H0 & _ & _ & Hend & _ & _).
  pose proof (a_finish_size _ _ f c3 (fun E => proj1 (Hend (eq_trans Ee2 E))) H0 Ea).
  pose proof (inv_max _ _ _ Hi2). rewrite (inv_total _ _ _ Hi2), Em2 in *. lia.
Qed.

(** C17: a packet from its initialisation to [WPACKET_finish], for every kind of
    buffer (of a fixed size, filled from its end, growing, or none) and any
    sequence of the calls of [wop] with arguments that the interface allows
    ([legal]: values of their C types, a QUIC length of 1, 2, 4 or 8 bytes, no
    [WPACKET_fill_lengths] at the end of a buffer and no QUIC integer without
    one); the caller stops at the first call that fails, and
    [WPACKET_set_max_size] and the calls that reserve without writing are not
    among them.  No access leaves the buffer.  If the session succeeds, the
    buffer holds, and [written] counts, exactly the bytes that the stack of
    frames specifies within the limit; and if it fails, then the frames do not
    allow the calls, or exceed the limit (for a growing buffer: the limit or
    805306366 bytes), or an allocation failed. *)
Theorem wpacket_refines alloc t ops p : target_ok t ->
  legal_run (from_end t) (no_buffer t) ops [top t] ->
  exists out, session alloc t ops p = Ret out /\
    match out with
    | Some p' =>
        exists c, spec_session t ops = Some c /\ subs p' = [] /\ written p' = Z.of_nat (length c) /\
          (no_buffer t = false -> packet_bytes p' = c)
    | None => spec_upto (certain t) t ops = None \/ exists n, alloc n = None
    end.
Proof. apply session_ok. Qed.

(** ** Packets without a buffer count *)

Lemma a_close_null e fs fs' : a_close e false fs = Some fs' -> a_close e true fs = Some fs'.
Proof.
  unfold a_close. destruct fs as [|f [|g fs]]; [done..|]. destruct (must_write _ _); [done|].
  destruct (abandoned _ _); [done|]. destruct e; [done|]. rewrite orb_true_r, orb_false_r. by destruct (fits _ _).
Qed.

Lemma fillable_null fs : forall t, fillable false fs t = true -> fillable true fs t = true.
Proof.
  induction fs as [|f fs IH]; intros t; [done|]. cbn [fillable].
  rewrite orb_true_r, orb_false_r, !andb_true_iff. intros [[[H1 H2] H3] H4]. auto.
Qed.

Lemma aexec_null e op fs fs' : aexec e false op fs = Some fs' -> aexec e true op fs = Some fs'.
Proof.
  destruct op; cbn [aexec]; try done.
  - case_decide as D; [|done]. rewrite decide_True; [done|]. destruct D. split; [done|by right].
  - apply a_close_null.
  - destruct (_ && _); [done|]. apply a_close_null.
  - destruct (fillable false fs []) eqn:E; [|done]. by rewrite fillable_null.
Qed.

Lemma arun_null e max max' ops : max <= max' -> forall fs fs',
  arun e false max ops fs = Some fs' -> arun e true max' ops fs = Some fs'.
Proof.
  intros Hm. induction ops as [|op ops IH]; intros fs fs'; cbn [arun]; [done|].
  destruct (aexec e false op fs) as [fs1|] eqn:E; [|done]. rewrite (aexec_null _ _ _ _ E).
  destruct (Z.leb_spec (total fs1) max), (Z.leb_spec (total fs1) max'); try lia; auto; done.
Qed.

Lemma a_finish_null e fs c : a_finish e false fs = Some c -> a_finish e true fs = Some c.
Proof.
  unfold a_finish. destruct fs as [|f [|]]; try done. destruct (must_write _ _); [done|].
  destruct (abandoned _ _); [done|]. destruct e; [done|]. rewrite orb_true_r, orb_false_r. by destruct (fits _ _).
Qed.

Lemma legal_null e op fs : legal e true op fs -> legal e false op fs.
Proof. destruct op; simpl; tauto. Qed.

Lemma legal_run_null e ops : forall fs, legal_run e true ops fs -> legal_run e false ops fs.
Proof.
  induction ops as [|op ops IH]; intros fs; [done|]. intros [H1 H2]. split; [by apply legal_null|].
  intros fs' E. by apply IH, H2, aexec_null.
Qed.

(** The packet without a buffer that stands for another. *)
Definition counting (t : target) : target := if from_end t then TNullDer else TNull 0.

Lemma limit_le t : target_ok t -> limit t <= SIZE_MAX.
Proof.
  destruct t as [b len n|b len|b n|n|]; simpl; intros; destruct_and?; try done.
  - pose proof (maxmaxsize_range n ltac:(lia)). lia.
  - unfold SIZE_MAX. lia.
  - by apply maxmaxsize_range.
  - by apply maxmaxsize_range.
Qed.

Lemma limit_nonneg t : target_ok t -> 0 <= limit t.
Proof.
  destruct t as [b len n|b len|b n|n|]; simpl; intros; destruct_and?; try lia;
    try (pose proof (maxmaxsize_range n ltac:(lia)); lia).
  unfold SIZE_MAX. lia.
Qed.

(** a packet without a buffer, given the same calls, succeeds when one with a
    buffer does and counts the bytes that the other has written. *)
Theorem null_packet_counts alloc alloc' t ops p p' q : target_ok t -> f_len (top t) = 0 ->
  no_buffer t = false -> legal_run (from_end t) true ops [top t] -> (forall n, alloc' n <> None) ->
  session alloc t ops p = Ret (Some p') ->
  exists q', session alloc' (counting t) ops q = Ret (Some q') /\ written q' = written p'.
Proof.
  intros Ht H0 Hbuf Hl Halloc E.
  assert (top (counting t) = top t) as Etop.
  { unfold counting. destruct t; simpl in *; unfold top; simpl; by rewrite ?H0. }
  assert (from_end (counting t) = from_end t) as Ee by by destruct t.
  assert (no_buffer (counting t) = true) as En by (unfold counting; by destruct (from_end t)).
  assert (limit (counting t) = SIZE_MAX) as Elim by (unfold counting; by destruct (from_end t)).
  assert (target_ok (counting t)) as Htc by (unfold counting; by destruct (from_end t)).
  assert (certain (counting t) = SIZE_MAX) as Ecert by (unfold counting; by destruct (from_end t)).
  destruct (session_ok alloc t ops p Ht) as (out & E' & Hout); [rewrite Hbuf; by apply legal_run_null|].
  rewrite E in E'. injection E' as <-. destruct Hout as (c & Hc & _ & Hw & _).
  destruct (session_ok alloc' (counting t) ops q Htc) as (out & Eq & Hq); [by rewrite Ee, En, Etop|].
  assert (spec_session (counting t) ops = Some c) as Hcq.
  { unfold spec_session, spec_upto in *. rewrite Ee, En, Etop, Elim. rewrite Hbuf in Hc.
    pose proof (limit_le t Ht). destruct (Z.leb_spec (total [top t]) (limit t)); [|done].
    destruct (Z.leb_spec (total [top t]) SIZE_MAX); [|lia].
    destruct (arun _ false _ _ _) as [fs|] eqn:Ea; [|done]. rewrite (arun_null _ (limit t) SIZE_MAX _ (limit_le t Ht) _ _ Ea).
    by apply a_finish_null. }
  destruct out as [q'|].
  - exists q'. split; [done|]. destruct Hq as (c' & Hc' & _ & Hw' & _). congruence.
  - exfalso. rewrite Ecert in Hq. unfold spec_session in Hcq. rewrite Elim in Hcq.
    destruct Hq as [?|[n Hn]]; [congruence|]. by apply (Halloc n).
Qed.
