(* ===== verification/PacketMsg.v ===== *)
(** * Messages: what one packet writes another reads

    A message is a sequence of integers, byte strings, QUIC integers and vectors
    of messages, the shape of the handshake messages of TLS and of the frames of
    QUIC.  It is written with the calls of [WPacket] and read with those of
    [Packet]. *)

From S2P Require Import Prelude Bytes QuicVlint BufMem Packet PacketCorrect WPacket WPacketSpec WPacketCorrect WPacketOps WPacketClose WPacketTheorems.

Inductive msg : Type :=
| MEnd
| MUint (n v : Z) (m : msg)
| MBytes (l : list Z) (m : msg)
| MQuic (v : Z) (m : msg)
| MVec (n : Z) (body m : msg)
| MQVec (body m : msg).

(** What a reader knows in advance. *)
Inductive shape : Type :=
| SEnd
| SUint (n : Z) (s : shape)
| SBytes (len : Z) (s : shape)
| SQuic (s : shape)
| SVec (n : Z) (body s : shape)
| SQVec (body s : shape).

Fixpoint shape_of (m : msg) : shape :=
  match m with
  | MEnd => SEnd
  | MUint n _ m => SUint n (shape_of m)
  | MBytes l m => SBytes (Z.of_nat (length l)) (shape_of m)
  | MQuic _ m => SQuic (shape_of m)
  | MVec n b m => SVec n (shape_of b) (shape_of m)
  | MQVec b m => SQVec (shape_of b) (shape_of m)
  end.

(** ** The wire format *)

Fixpoint encode (m : msg) : list Z :=
  match m with
  | MEnd => []
  | MUint n v m => be_put (Z.to_nat n) v ++ encode m
  | MBytes l m => l ++ encode m
  | MQuic v m => quic_put (ossl_quic_vlint_encode_len v) v ++ encode m
  | MVec n b m => be_put (Z.to_nat n) (Z.of_nat (length (encode b))) ++ encode b ++ encode m
  | MQVec b m =>
      let k := Z.of_nat (length (encode b)) in
      quic_put (ossl_quic_vlint_encode_len k) k ++ encode b ++ encode m
  end.

(** The integers fit their fields, the vectors their lengths. *)
Fixpoint msg_ok (m : msg) : Prop :=
  match m with
  | MEnd => True
  | MUint n v m => 1 <= n <= 4 /\ 0 <= v < 256 ^ n /\ msg_ok m
  | MBytes l m => l <> [] /\ bytes l /\ msg_ok m
  | MQuic v m => 0 <= v < 2 ^ 62 /\ msg_ok m
  | MVec n b m => 1 <= n <= 3 /\ Z.of_nat (length (encode b)) < 256 ^ n /\ msg_ok b /\ msg_ok m
  | MQVec b m => Z.of_nat (length (encode b)) < 2 ^ 62 /\ msg_ok b /\ msg_ok m
  end.

(** ** Writing and reading *)

Fixpoint write_msg (m : msg) : list wop :=
  match m with
  | MEnd => []
  | MUint n v m => WPut v n :: write_msg m
  | MBytes l m => WMemcpy l :: write_msg m
  | MQuic v m => WVlint v :: write_msg m
  | MVec n b m => WStart n :: write_msg b ++ WClose :: write_msg m
  | MQVec b m => WStartQuic (Z.of_nat (length (encode b))) :: write_msg b ++ WClose :: write_msg m
  end.

Definition get_uint (mem : list Z) (n : Z) (pkt : PACKET) : outcome (option Z * PACKET) :=
  if n =? 1 then PACKET_get_1 mem pkt
  else if n =? 2 then PACKET_get_net_2 mem pkt
  else if n =? 3 then PACKET_get_net_3 mem pkt
  else PACKET_get_net_4 mem pkt.

Definition get_vec (mem : list Z) (n : Z) (pkt : PACKET) : outcome (option PACKET * PACKET) :=
  if n =? 1 then PACKET_get_length_prefixed_1 mem pkt
  else if n =? 2 then PACKET_get_length_prefixed_2 mem pkt
  else PACKET_get_length_prefixed_3 mem pkt.

Section read.
Context (mem : list Z).

Fixpoint read_msg (s : shape) (pkt : PACKET) : outcome (option msg) :=
  match s with
  | SEnd => Ret (if PACKET_remaining pkt =? 0 then Some MEnd else None)
  | SUint n s =>
      '(r, pkt) ← get_uint mem n pkt;
      match r with Some v => m ← read_msg s pkt; Ret (option_map (MUint n v) m) | None => Ret None end
  | SBytes len s =>
      '(r, pkt) ← PACKET_copy_bytes mem pkt len;
      match r with Some l => m ← read_msg s pkt; Ret (option_map (MBytes l) m) | None => Ret None end
  | SQuic s =>
      '(r, pkt) ← PACKET_get_quic_vlint mem pkt;
      match r with Some v => m ← read_msg s pkt; Ret (option_map (MQuic v) m) | None => Ret None end
  | SVec n sb s =>
      '(r, pkt) ← get_vec mem n pkt;
      match r with
      | Some sub =>
          b ← read_msg sb sub; m ← read_msg s pkt;
          Ret (match b, m with Some b, Some m => Some (MVec n b m) | _, _ => None end)
      | None => Ret None
      end
  | SQVec sb s =>
      '(r, pkt) ← PACKET_get_quic_length_prefixed mem pkt;
      match r with
      | Some sub =>
          b ← read_msg sb sub; m ← read_msg s pkt;
          Ret (match b, m with Some b, Some m => Some (MQVec b m) | _, _ => None end)
      | None => Ret None
      end
  end.

(** ** Reading gives the message back *)

Lemma bytes_encode m : msg_ok m -> bytes (encode m).
Proof.
  induction m; simpl; intros; destruct_and?; try constructor;
    repeat (apply bytes_app; split); auto; try apply nbytes_be_put; try apply nbytes_quic_put.
Qed.

Lemma take_bytes_app n a b : Z.of_nat (length a) = n -> take_bytes n (a ++ b) = Some (a, b).
Proof.
  intros <-. unfold take_bytes. rewrite decide_True by (rewrite length_app; lia).
  rewrite Nat2Z.id. by rewrite take_app_length, drop_app_length.
Qed.

Lemma p_uint_put n v r : 0 <= n -> 0 <= v < 256 ^ n -> p_uint n (be_put (Z.to_nat n) v ++ r) = Some (v, r).
Proof.
  intros Hn Hv. unfold p_uint. rewrite take_bytes_app by (rewrite (proj1 (nbytes_be_put _ _)); lia).
  simpl. rewrite be_get_put, Z2Nat.id by lia. by rewrite Z.mod_small.
Qed.

Lemma encode_len_fits v : 0 <= v < 2 ^ 62 ->
  vlint_size (ossl_quic_vlint_encode_len v) /\ v < 2 ^ (8 * ossl_quic_vlint_encode_len v - 2).
Proof. intros Hv. destruct (vlint_encode_len_cases v ltac:(lia)) as [[_ ?]|?]; [lia|done]. Qed.

Lemma p_quic_put v r : 0 <= v < 2 ^ 62 ->
  p_quic (quic_put (ossl_quic_vlint_encode_len v) v ++ r) = Some (v, r).
Proof.
  intros Hv. destruct (encode_len_fits v Hv) as [Hs Hf]. set (n := ossl_quic_vlint_encode_len v) in *.
  destruct (quic_put_head n v Hs ltac:(lia)) as (b & l & E & _ & Hd).
  pose proof (quic_put_get n v Hs ltac:(lia)) as Hg. pose proof (nbytes_quic_put n v) as [Hl _].
  unfold p_quic. rewrite E in *. cbn [app head mbind option_bind]. rewrite Hd.
  change (b :: l ++ r) with ((b :: l) ++ r).
  rewrite take_bytes_app by (rewrite Hl; unfold vlint_size in Hs; lia). cbn [mbind option_bind]. by rewrite Hg.
Qed.

Lemma reads_some {A B} (R : A -> B -> Prop) f p pkt y rest : reads mem R f p -> wf mem pkt ->
  p (content mem pkt) = Some (y, rest) ->
  exists x pkt', f pkt = Ret (Some x, pkt') /\ R x y /\ is_view mem pkt' rest.
Proof.
  intros H Hw E. specialize (H pkt Hw). rewrite E in H. destruct H as (x & pkt' & ? & ? & ? & ? & _).
  exists x, pkt'. unfold is_view. auto.
Qed.

Hypothesis (Hmem : bytes mem).

Lemma get_uint_reads n : 1 <= n <= 4 -> reads mem eq (get_uint mem n) (p_uint n).
Proof.
  intros Hn. unfold get_uint. assert (n = 1 \/ n = 2 \/ n = 3 \/ n = 4) as [->|[->|[->| ->]]] by lia; simpl;
    [by apply reads_1|by apply reads_net_2|by apply reads_net_3|by apply reads_net_4].
Qed.

Lemma get_vec_reads n : 1 <= n <= 3 -> reads mem (is_view mem) (get_vec mem n) (p_vec (p_uint n) false).
Proof.
  intros Hn. unfold get_vec.
  assert (forall l v r, bytes l -> p_uint n l = Some (v, r) -> 0 <= v /\ bytes r) as Hp.
  { intros l v r Hb E. destruct (p_uint_range n l v r ltac:(lia) Hb E) as [[? _] ?]. done. }
  assert (n = 1 \/ n = 2 \/ n = 3) as [->|[->| ->]] by lia; simpl;
    (apply reads_length_prefixed; [done| |exact Hp]);
    [by apply reads_1|by apply reads_net_2|by apply reads_net_3].
Qed.

Lemma p_vec_prefix p k pre b r : p (pre ++ b ++ r) = Some (k, b ++ r) -> Z.of_nat (length b) = k ->
  p_vec p false (pre ++ b ++ r) = Some (b, r).
Proof. intros E Hk. unfold p_vec. rewrite E. cbn [mbind option_bind]. by rewrite take_bytes_app. Qed.

Lemma read_msg_ok m : msg_ok m -> forall pkt, is_view mem pkt (encode m) -> read_msg (shape_of m) pkt = Ret (Some m).
Proof.
  induction m as [|n v m IH|l m IH|v m IH|n b IHb m IH|b IHb m IH]; intros Hok pkt [Hw Hc];
    cbn [msg_ok encode shape_of read_msg] in *; destruct_and?.
  - pose proof (length_content mem pkt Hw) as Hl. rewrite Hc in Hl. unfold PACKET_remaining. by rewrite <- Hl.
  - destruct (reads_some eq _ _ pkt v (encode m) (get_uint_reads n ltac:(done)) Hw) as (x & p' & -> & -> & Hv).
    { rewrite Hc. apply p_uint_put; [lia|done]. }
    cbn [mbind outcome_bind]. by rewrite (IH ltac:(done) p' Hv).
  - destruct l as [|x l]; [done|].
    destruct (reads_some eq _ _ pkt (x :: l) (encode m) (reads_copy_bytes mem (Z.of_nat (length (x :: l))) ltac:(simpl; lia)) Hw)
      as (y & p' & -> & -> & Hv). { rewrite Hc. by apply take_bytes_app. }
    cbn [mbind outcome_bind]. by rewrite (IH ltac:(done) p' Hv).
  - destruct (reads_some eq _ _ pkt v (encode m) (reads_quic mem Hmem) Hw) as (x & p' & -> & -> & Hv).
    { rewrite Hc. by apply p_quic_put. }
    cbn [mbind outcome_bind]. by rewrite (IH ltac:(done) p' Hv).
  - destruct (reads_some _ _ _ pkt (encode b) (encode m) (get_vec_reads n ltac:(done)) Hw) as (sub & p' & -> & Hs & Hv).
    { rewrite Hc. eapply p_vec_prefix; [apply p_uint_put; [lia|]|done]. lia. }
    cbn [mbind outcome_bind]. rewrite (IHb ltac:(done) sub Hs). cbn [mbind outcome_bind].
    by rewrite (IH ltac:(done) p' Hv).
  - destruct (reads_some _ _ _ pkt (encode b) (encode m) (reads_get_quic_length_prefixed mem Hmem) Hw) as (sub & p' & -> & Hs & Hv).
    { rewrite Hc. eapply p_vec_prefix; [apply p_quic_put; lia|done]. }
    cbn [mbind outcome_bind]. rewrite (IHb ltac:(done) sub Hs). cbn [mbind outcome_bind].
    by rewrite (IH ltac:(done) p' Hv).
Qed.
End read.

(** ** Writing succeeds when there is room *)

Lemma push_app a b fs : frame_push false b (frame_push false a fs) = frame_push false (a ++ b) fs.
Proof. apply push_push. Qed.

Lemma close_open n fl l fs null : fs <> [] -> 0 < n ->
  flagged fl WPACKET_FLAGS_NON_ZERO_LENGTH = false -> flagged fl WPACKET_FLAGS_ABANDON_ON_ZERO_LENGTH = false ->
  let f := {| f_len := n; f_flags := fl; f_body := l |} in
  fits f (Z.of_nat (length l)) = true ->
  a_close false null (frame_push false l (open n fl fs)) = Some (frame_push false (prefix f (Z.of_nat (length l)) ++ l) fs).
Proof.
  intros Hne Hn H1 H2 f Hf. unfold a_close. cbn [open frame_push f_len f_flags f_body join app]. fold f.
  destruct fs as [|g fs]; [done|]. unfold must_write, abandoned, size. simpl f_flags. simpl f_body.
  rewrite H1, H2, !andb_false_r, Hf. done.
Qed.

Lemma total_ge_push fs l l' : fs <> [] -> (length l <= length l')%nat -> total (frame_push false l fs) <= total (frame_push false l' fs).
Proof. intros. rewrite !total_push by done. lia. Qed.

Lemma arun_msg null max m : msg_ok m -> forall fs rest, fs <> [] ->
  total fs + Z.of_nat (length (encode m)) <= max ->
  arun false null max (write_msg m ++ rest) fs = arun false null max rest (frame_push false (encode m) fs).
Proof.
  induction m as [|n v m IH|l m IH|v m IH|n b IHb m IH|b IHb m IH]; intros Hok fs rest Hne Hmax;
    cbn [msg_ok encode write_msg app] in *; destruct_and?.
  - by rewrite push_nil.
  - rewrite length_app in Hmax. cbn [arun aexec]. rewrite decide_True by (split; [lia|left; lia]).
    assert (total (frame_push false (be_put (Z.to_nat n) v) fs) <= max) as Ht by (rewrite total_push by done; lia).
    apply Z.leb_le in Ht as ->. rewrite IH; [by rewrite push_app|done|by apply inv_nonempty|rewrite total_push by done; lia].
  - rewrite length_app in Hmax. cbn [arun aexec].
    assert (total (frame_push false l fs) <= max) as Ht by (rewrite total_push by done; lia).
    apply Z.leb_le in Ht as ->. rewrite IH; [by rewrite push_app|done|by apply inv_nonempty|rewrite total_push by done; lia].
  - destruct (encode_len_fits v ltac:(done)) as [Hs _]. rewrite length_app in Hmax. cbn [arun aexec].
    destruct (Z.eqb_spec (ossl_quic_vlint_encode_len v) 0) as [E|]; [unfold vlint_size in Hs; lia|].
    set (q := quic_put (ossl_quic_vlint_encode_len v) v) in *.
    assert (total (frame_push false q fs) <= max) as Ht by (rewrite total_push by done; lia).
    apply Z.leb_le in Ht as ->. rewrite IH; [by rewrite push_app|done|by apply inv_nonempty|rewrite total_push by done; lia].
  - rewrite !length_app, (proj1 (nbytes_be_put _ _)) in Hmax. cbn [arun aexec]. rewrite andb_false_r.
    assert (total (open n 0 fs) = total fs + n) as Et by (simpl; unfold size; simpl; lia).
    assert (total (open n 0 fs) <=? max = true) as -> by (apply Z.leb_le; lia).
    rewrite <- app_assoc, IHb; [|done|done|lia]. cbn [app arun aexec].
    rewrite close_open; [|done|lia|done|done|]. 2:{ unfold fits; simpl. destruct (n =? 0); [done|]. apply Z.ltb_lt. done. }
    assert (prefix {| f_len := n; f_flags := 0; f_body := encode b |} (Z.of_nat (length (encode b))) =
      be_put (Z.to_nat n) (Z.of_nat (length (encode b)))) as ->.
    { unfold prefix; simpl. destruct (Z.eqb_spec n 0); [lia|done]. }
    set (l := be_put _ _ ++ encode b). assert (Z.of_nat (length l) = n + Z.of_nat (length (encode b))) as El.
    { unfold l. rewrite length_app, (proj1 (nbytes_be_put _ _)). lia. }
    assert (total (frame_push false l fs) <= max) as Ht by (rewrite total_push by done; lia).
    apply Z.leb_le in Ht as ->. rewrite IH; [|done|by apply inv_nonempty|rewrite total_push by done; lia].
    rewrite push_app. unfold l. by rewrite <- app_assoc.
  - set (k := Z.of_nat (length (encode b))) in *. destruct (encode_len_fits k ltac:(lia)) as [Hs _].
    set (n := ossl_quic_vlint_encode_len k) in *. assert (0 < n) as Hn by (unfold vlint_size in Hs; lia).
    rewrite !length_app, (proj1 (nbytes_quic_put _ _)) in Hmax. cbn [arun aexec]. fold n.
    destruct (Z.eqb_spec n 0); [lia|]. cbn [orb].
    assert (total (open n WPACKET_FLAGS_QUIC_VLINT fs) = total fs + n) as Et by (simpl; unfold size; simpl; lia).
    assert (total (open n WPACKET_FLAGS_QUIC_VLINT fs) <=? max = true) as -> by (apply Z.leb_le; lia).
    rewrite <- app_assoc, IHb; [|done|done|lia]. cbn [app arun aexec].
    rewrite close_open; [|done|lia|done|done|]. 2:{ unfold fits; simpl. destruct (n =? 0); [done|]. apply Z.leb_le. fold k. fold n. lia. }
    assert (prefix {| f_len := n; f_flags := WPACKET_FLAGS_QUIC_VLINT; f_body := encode b |} (Z.of_nat (length (encode b))) =
      quic_put n k) as ->.
    { unfold prefix; simpl. destruct (Z.eqb_spec n 0); [lia|done]. }
    set (l := quic_put n k ++ encode b). assert (Z.of_nat (length l) = n + k) as El.
    { unfold l. rewrite length_app, (proj1 (nbytes_quic_put _ _)). unfold k. lia. }
    assert (total (frame_push false l fs) <= max) as Ht by (rewrite total_push by done; lia).
    apply Z.leb_le in Ht as ->. rewrite IH; [|done|by apply inv_nonempty|rewrite total_push by done; lia].
    rewrite push_app. unfold l. by rewrite <- app_assoc.
Qed.

(** The calls of a message are legal. *)
Lemma legal_app e null a : forall b fs, legal_run e null a fs ->
  (forall fs', fs' <> [] -> legal_run e null b fs') -> 
  (forall fs op fs', fs <> [] -> aexec e null op fs = Some fs' -> fs' <> []) -> fs <> [] -> legal_run e null (a ++ b) fs.
Proof.
  induction a as [|op a IH]; intros b fs Ha Hb Hx Hne; [by apply Hb|]. destruct Ha as [H1 H2]. split; [done|].
  intros fs' E. apply IH; [by apply H2|done|done|by eapply Hx].
Qed.

Lemma aexec_nonempty e null fs op fs' : fs <> [] -> aexec e null op fs = Some fs' -> fs' <> [].
Proof.
  intros Hne. destruct op; cbn [aexec]; try (intros [= <-]; by apply inv_nonempty).
  - case_decide; [|done]. intros [= <-]. by apply inv_nonempty.
  - case_decide; [done|]. intros [= <-]. by apply inv_nonempty.
  - destruct (_ && _); [done|]. by intros [= <-].
  - destruct (_ || _); [done|]. by intros [= <-].
  - destruct fs; [done|]. by intros [= <-].
  - apply a_close_nonempty.
  - destruct (_ && _); [done|]. apply a_close_nonempty.
  - destruct (fillable _ _ _); [|done]. by intros [= <-].
  - destruct (_ =? 0); [done|]. intros [= <-]. by apply inv_nonempty.
Qed.

Lemma msg_legal m : msg_ok m -> Z.of_nat (length (encode m)) < 2 ^ 62 ->
  forall fs, fs <> [] -> legal_run false false (write_msg m) fs.
Proof.
  induction m as [|n v m IH|l m IH|v m IH|n b IHb m IH|b IHb m IH]; intros Hok Hlen fs Hne;
    cbn [msg_ok encode write_msg] in *; destruct_and?; rewrite ?length_app in Hlen; [done|..].
  - split.
    + simpl. split; [|lia]. split; [lia|]. apply Z.lt_le_trans with (256 ^ n); [lia|].
      change (2 ^ 32) with (256 ^ 4). apply Z.pow_le_mono_r; lia.
    + intros fs' E. apply IH; [done|lia|by eapply aexec_nonempty].
  - split; [simpl; lia|]. intros fs' E. apply IH; [done|lia|by eapply aexec_nonempty].
  - split; [simpl; split; [lia|done]|]. intros fs' E. apply IH; [done|lia|by eapply aexec_nonempty].
  - split; [simpl; lia|]. intros fs' E. apply legal_app; [apply IHb; [done|lia|by eapply aexec_nonempty]| |apply aexec_nonempty|by eapply aexec_nonempty].
    intros fs1 Hfs1. split; [done|]. intros fs2 E2. apply IH; [done|lia|by eapply aexec_nonempty].
  - split; [simpl; lia|]. intros fs' E. apply legal_app; [apply IHb; [done|lia|by eapply aexec_nonempty]| |apply aexec_nonempty|by eapply aexec_nonempty].
    intros fs1 Hfs1. split; [done|]. intros fs2 E2. apply IH; [done|lia|by eapply aexec_nonempty].
Qed.

(** C18: a message of nested vectors that fits is written with success and read
    back: for a packet without a length of its own, to a buffer of a fixed size
    with room for the message, or to a growing one and a message of up to
    805306366 bytes, whatever the buffer held, when no allocation fails, the
    buffer holds the encoding, [written] is its length, and the readers give the
    message back from these bytes. *)
Theorem message_roundtrip alloc t m p : target_ok t -> f_len (top t) = 0 -> no_buffer t = false -> from_end t = false ->
  msg_ok m -> Z.of_nat (length (encode m)) <= Z.min (certain t) (2 ^ 62 - 1) -> (forall n, alloc n <> None) ->
  exists p', session alloc t (write_msg m) p = Ret (Some p') /\
    let got := packet_bytes p' in
    got = encode m /\ written p' = Z.of_nat (length got) /\
    exists pkt, PACKET_buf_init (Some 0) (written p') = Some pkt /\
      read_msg got (shape_of m) pkt = Ret (Some m).
Proof.
  intros Ht H0 Hbuf He Hok Hlen Halloc.
  destruct (session_ok alloc t (write_msg m) p Ht) as (out & E & Hout).
  { rewrite He, Hbuf. apply msg_legal; [done|lia|done]. }
  assert (total [top t] = 0) as Et by (simpl; unfold size; simpl; unfold top in H0; simpl in H0; lia).
  assert (0 <= certain t <= limit t) as Hcl.
  { pose proof (limit_nonneg t Ht). destruct t; simpl in *; unfold GROW_LIMIT, LIMIT_BEFORE_EXPANSION; try lia.
    Z.div_mod_to_equations; lia. }
  assert (forall max, Z.of_nat (length (encode m)) <= max -> spec_upto max t (write_msg m) = Some (encode m)) as Hs.
  { intros max Hmax. unfold spec_upto. rewrite Et, He, Hbuf. destruct (Z.leb_spec 0 max); [|lia].
    pose proof (arun_msg false max m Hok [top t] []) as Ha. rewrite app_nil_r in Ha.
    rewrite Ha by (done || lia). cbn [arun frame_push]. unfold a_finish, must_write, abandoned, fits, prefix. simpl.
    unfold top in H0; simpl in H0. rewrite !andb_false_r, H0. done. }
  destruct out as [p'|].
  2:{ exfalso. destruct Hout as [Hn|[n Hn]]; [rewrite Hs in Hn by lia; discriminate|by apply Halloc in Hn]. }
  exists p'. split; [done|]. intros got. destruct Hout as (c & Hc & _ & Hw & Hb).
  unfold spec_session in Hc. rewrite Hs in Hc by lia. injection Hc as <-.
  specialize (Hb Hbuf). unfold got. rewrite Hb. split; [done|]. split; [done|].
  unfold PACKET_buf_init. rewrite Hw. assert ((SIZE_MAX / 2 <? Z.of_nat (length (encode m))) = false) as ->.
  { apply Z.ltb_ge. unfold SIZE_MAX. change ((2 ^ 64 - 1) / 2) with (2 ^ 63 - 1). lia. }
  eexists. split; [reflexivity|]. apply read_msg_ok; [by apply bytes_encode|done|].
  split; [split; simpl|unfold content; simpl].
  - unfold SIZE_MAX. change ((2 ^ 64 - 1) / 2) with (2 ^ 63 - 1). lia.
  - lia.
  - change (Z.to_nat 0) with 0%nat. by rewrite drop_0, Nat2Z.id, take_ge.
Qed.
