(* ===== verification/PacketSamples.v ===== *)
(** * Packets: examples

    Instances of the theorems on packets, and the calls that go wrong. *)

From S2P Require Import Prelude Bytes QuicVlint BufMem Packet PacketCorrect WPacket WPacketSpec WPacketCorrect WPacketOps WPacketClose WPacketTheorems PacketMsg.

(** An allocator that always has memory, full of some byte. *)
Definition plenty : nat -> fresh := fun _ => Some (fun _ => 170).

(** A [WPACKET] before it is initialised. *)
Definition blank : WPACKET :=
  {| buf := None; staticbuf := None; wcurr := 7; written := 9; maxsize := 0; subs := []; endfirst := true; calls := 0 |}.

Definition zeros (n : nat) : list Z := replicate n 0.

Definition demo_ops : list wop := [WStart 2; WPut 0x0102 2; WStart 1; WMemcpy [97; 98; 99]; WClose; WFill; WClose; WPut 5 1].

(** Calls on known frames are legal. *)
Ltac legal_steps :=
  repeat (split; [cbn; first [exact I | reflexivity | lia]|];
    let E := fresh in intros ? E; vm_compute in E; injection E as <-); exact I.

Lemma wpacket_refines_witness :
  exists p', session plenty (TStatic (zeros 12) 12 0) demo_ops blank = Ret (Some p') /\
    packet_bytes p' = [0; 6; 1; 2; 3; 97; 98; 99; 5] /\ written p' = 9.
Proof.
  destruct (wpacket_refines plenty (TStatic (zeros 12) 12 0) demo_ops blank) as (out & E & H).
  - simpl. lia.
  - legal_steps.
  - destruct out as [p'|]; [|exfalso; revert E; vm_compute; discriminate].
    exists p'. split; [exact E|]. destruct H as (c & Hc & _ & Hw & Hb). specialize (Hb eq_refl).
    assert (c = [0; 6; 1; 2; 3; 97; 98; 99; 5]) as -> by (revert Hc; vm_compute; by intros [= <-]).
    split; [exact Hb|exact Hw].
Defined.

(** A growing buffer. *)
Definition empty_buf : BUF_MEM := {| bm_length := 0; bm_data := None; bm_max := 0; bm_flags := 0 |}.

Lemma null_packet_counts_witness :
  exists q', session plenty (TNull 0) demo_ops blank = Ret (Some q') /\ written q' = 9.
Proof.
  destruct (session plenty (TMem empty_buf 0) demo_ops blank) as [[p'|]| | | |] eqn:E;
    [|exfalso; revert E; vm_compute; discriminate..].
  destruct (null_packet_counts plenty plenty (TMem empty_buf 0) demo_ops blank p' blank) as (q' & Eq & Hw).
  - simpl. split; [split; simpl; [lia|done]|lia].
  - reflexivity.
  - reflexivity.
  - legal_steps.
  - discriminate.
  - exact E.
  - exists q'. split; [exact Eq|]. rewrite Hw. revert E. vm_compute. by intros [= <-].
Defined.

Definition demo_msg : msg :=
  MUint 2 0x0303 (MVec 1 (MBytes [1; 2; 3] MEnd) (MVec 2 (MUint 1 7 (MQVec (MQuic 300 (MBytes [9] MEnd)) MEnd)) MEnd)).

Lemma message_roundtrip_witness :
  exists p', session plenty (TStatic (zeros 20) 20 0) (write_msg demo_msg) blank = Ret (Some p') /\
    packet_bytes p' = [3; 3; 3; 1; 2; 3; 0; 5; 7; 3; 65; 44; 9] /\
    read_msg (packet_bytes p') (shape_of demo_msg) {| curr := Some 0; remaining := 13 |} = Ret (Some demo_msg).
Proof.
  destruct (message_roundtrip plenty (TStatic (zeros 20) 20 0) demo_msg blank) as (p' & E & Hb & Hw & pkt & Hp & Hr).
  - simpl. lia.
  - reflexivity.
  - reflexivity.
  - reflexivity.
  - cbn. split_and!; try lia; try done; try (apply (bool_decide_unpack _); vm_compute; exact I).
  - vm_compute. discriminate.
  - discriminate.
  - exists p'. split; [exact E|]. rewrite Hb in Hw, Hr |- *. split; [reflexivity|].
    revert Hp Hr. rewrite Hw. change (PACKET_buf_init (Some 0) _) with (Some {| curr := Some 0; remaining := 13 |}).
    intros [= <-] Hr. exact Hr.
Defined.

(** ** What goes wrong *)

(** [m], then the call [k] on the packet that it leaves, whatever it returned. *)
Definition next {A B} (m : res A) (k : WPACKET -> res B) : res B := '(_, p) ← m; k p.

Definition returned {A} (m : res A) : outcome bool :=
  '(r, _) ← m; Ret (match r with Some _ => true | None => false end).

Definition start4 : res unit := WPACKET_init_static_len plenty blank (Some (zeros 4)) 4 0.

(** Calls with which the writer leaves its buffer or goes wrong otherwise.  In
    order: a sub-packet whose length has no room is refused but stays open, and
    closing it writes behind the buffer; [WPACKET_set_max_size] lets a fixed
    buffer be overrun; a QUIC integer without a buffer is written to the null
    pointer; a QUIC length with room for 3 bytes is written with 8;
    [WPACKET_sub_reserve_bytes__] reads through a null pointer; a packet with a
    length does not count it when there is no buffer; lengths filled in at the
    end of a buffer are written again by every call. *)
Theorem wpacket_pitfalls :
  (let m := next start4 (fun p => WPACKET_memset plenty p 1 3) in
   let s := next m (fun p => WPACKET_start_sub_packet_len__ plenty p 2) in
   returned s = Ret false /\ next s (WPACKET_close plenty) = Fault) /\
  (let m := next start4 (fun p => WPACKET_set_max_size p 100) in
   returned m = Ret true /\ next m (fun p => WPACKET_memset plenty p 1 5) = Fault) /\
  next (WPACKET_init_null plenty blank 0) (fun p => WPACKET_quic_write_vlint plenty p 1) = Fault /\
  (let m := next (next start4 (fun p => WPACKET_start_sub_packet_len__ plenty p 3))
              (fun p => WPACKET_set_flags p WPACKET_FLAGS_QUIC_VLINT) in
   returned m = Ret true /\ next m (WPACKET_close plenty) = Fault) /\
  next start4 (fun p => WPACKET_sub_reserve_bytes__ plenty p 1 false 1) = Fault /\
  (let total m := next (next m (fun p => WPACKET_memset plenty p 1 3)) WPACKET_get_total_written in
   (fst <$> total (WPACKET_init_len plenty blank (Some empty_buf) 2) = Ret (Some 5)) /\
   (fst <$> total (WPACKET_init_null plenty blank 2)) = Ret (Some 3)) /\
  (let m := next (next (WPACKET_init_der plenty blank (Some (zeros 9)) 9)
              (WPACKET_start_sub_packet plenty)) (fun p => WPACKET_memset plenty p 1 2) in
   let bytes_of m := packet_bytes ∘ snd <$> next (B := unit) m (WPACKET_close plenty) in
   bytes_of m = Ret [2; 1; 1] /\
   bytes_of (next m (WPACKET_fill_lengths plenty)) = Ret [3; 2; 1; 1] /\
   bytes_of (next (next m (WPACKET_fill_lengths plenty)) (WPACKET_fill_lengths plenty)) = Ret [4; 3; 2; 1; 1]).
Proof. by vm_compute. Qed.
