(* ===== verification/BnBase.v ===== *)
(** * Big numbers: words

    What the files of crypto/bn/ share.  [Build] has the configurations: 64- or
    32-bit words, a double-width type ([BN_LLONG]), its division ([BN_DIV2W]),
    small footprint, and the multiplication of the processor or compiler
    ([BN_UMULT_LOHI], [BN_UMULT_HIGH]) if there is one.  [eval] is the number that an array of words stands for.
    [BN_num_bits_word] and the masks that [BN_num_bits] uses follow. *)

From S2P Require Import Prelude Bytes.

(** ** Configurations and words *)

(** Which of the macros [BN_UMULT_LOHI] and [BN_UMULT_HIGH] are defined: none,
    both, or the second one only. *)
Inductive umult_macros : Type := UMULT_NONE | UMULT_LOHI | UMULT_HIGH.

Class Build : Type := { wide : bool; llong : bool; div2w : bool; small : bool; umult : umult_macros }.

Section words.
Context {c : Build}.

Definition BN_BYTES : Z := if wide then 8 else 4.
Definition BN_BITS2 : Z := BN_BYTES * 8.
Definition BN_BITS4 : Z := if wide then 32 else 16.
Definition BN_MASK2 : Z := if wide then 0xffffffffffffffff else 0xffffffff.
Definition BN_MASK2l : Z := if wide then 0xffffffff else 0xffff.
Definition BN_MASK2h : Z := if wide then 0xffffffff00000000 else 0xffff0000.
Definition BN_MASK2h1 : Z := if wide then 0xffffffff80000000 else 0xffff8000.

(** The conversions to [BN_ULONG] and [BN_ULLONG]. *)
Definition BASE : Z := 2 ^ BN_BITS2.
Definition ul (z : Z) : Z := z mod BASE.
Definition ull (z : Z) : Z := z mod (BASE * BASE).

(** [z & BN_MASK2] *)
Definition mask2 (z : Z) : Z := Z.land (ul z) BN_MASK2.

Definition is_word (z : Z) : Prop := 0 <= z < BASE.
Definition words (l : list Z) : Prop := Forall is_word l.

(** The number that words stand for, the least significant one first. *)
Fixpoint eval (l : list Z) : Z :=
  match l with [] => 0 | x :: r => x + BASE * eval r end.

Lemma BITS2_cases : BN_BITS2 = 64 \/ BN_BITS2 = 32.
Proof. unfold BN_BITS2, BN_BYTES. destruct wide; lia. Qed.

Lemma BITS2_half : BN_BITS2 = 2 * BN_BITS4 /\ 16 <= BN_BITS4.
Proof. unfold BN_BITS2, BN_BYTES, BN_BITS4. destruct wide; lia. Qed.

Lemma BASE_big : 2 ^ 32 <= BASE.
Proof. unfold BASE. apply Z.pow_le_mono_r; destruct BITS2_cases; lia. Qed.

Lemma BASE_pos : 1 < BASE.
Proof. pose proof BASE_big. lia. Qed.

Lemma BASE_even : BASE = 2 * 2 ^ (BN_BITS2 - 1).
Proof. unfold BASE. rewrite <- Z.pow_succ_r by (destruct BITS2_cases; lia). f_equal. lia. Qed.

Lemma MASK2_ones : BN_MASK2 = Z.ones BN_BITS2.
Proof. unfold BN_MASK2, BN_BITS2, BN_BYTES. by destruct wide. Qed.

Lemma mask2_mod z : mask2 z = z mod BASE.
Proof.
  unfold mask2, ul, BASE. rewrite MASK2_ones, Z.land_ones by (destruct BITS2_cases; lia).
  apply Zmod_mod.
Qed.

Lemma ul_word z : is_word (ul z).
Proof. apply Z.mod_pos_bound. pose proof BASE_pos. lia. Qed.

Lemma mask2_word z : is_word (mask2 z).
Proof. rewrite mask2_mod. apply ul_word. Qed.

Lemma ul_small z : is_word z -> ul z = z.
Proof. apply Z.mod_small. Qed.

Lemma is_word_0 : is_word 0.
Proof. unfold is_word. pose proof BASE_pos. lia. Qed.

Lemma words_app a b : words (a ++ b) <-> words a /\ words b.
Proof. apply Forall_app. Qed.

Lemma words_take n l : words l -> words (take n l).
Proof. apply Forall_take. Qed.

Lemma words_drop n l : words l -> words (drop n l).
Proof. apply Forall_drop. Qed.

Lemma words_zeros n : words (replicate n 0).
Proof. apply Forall_replicate, is_word_0. Qed.

Lemma words_lookup l i x : words l -> l !! i = Some x -> is_word x.
Proof. intros H E. by apply (Forall_lookup_1 _ _ _ _ H E). Qed.

Lemma words_insert l i x : words l -> is_word x -> words (<[i := x]> l).
Proof. apply Forall_insert. Qed.

Lemma words_blit k x l : words x -> words l -> words (blit k x l).
Proof. intros. unfold blit. rewrite !words_app. eauto using words_take, words_drop. Qed.

(** ** Values *)

Definition weight (n : nat) : Z := BASE ^ Z.of_nat n.

Lemma weight_0 : weight 0 = 1.
Proof. done. Qed.

Lemma weight_S n : weight (S n) = BASE * weight n.
Proof. unfold weight. rewrite Nat2Z.inj_succ, Z.pow_succ_r by lia. done. Qed.

Lemma weight_add m n : weight (m + n) = weight m * weight n.
Proof. unfold weight. rewrite Nat2Z.inj_add, Z.pow_add_r by lia. done. Qed.

Lemma weight_pos n : 0 < weight n.
Proof. unfold weight. apply Z.pow_pos_nonneg; [pose proof BASE_pos|]; lia. Qed.

Lemma weight_bits n : weight n = 2 ^ (BN_BITS2 * Z.of_nat n).
Proof. unfold weight, BASE. rewrite Z.pow_mul_r by (destruct BITS2_cases; lia). done. Qed.

Lemma weight_mono m n : (m <= n)%nat -> weight m <= weight n.
Proof. intros H. apply Z.pow_le_mono_r; [pose proof BASE_pos|]; lia. Qed.

Lemma eval_app a b : eval (a ++ b) = eval a + weight (length a) * eval b.
Proof.
  induction a as [|x a IH]; cbn [eval app length]; [rewrite weight_0; lia|].
  rewrite IH, weight_S. ring.
Qed.

Lemma eval_snoc l x : eval (l ++ [x]) = eval l + weight (length l) * x.
Proof. rewrite eval_app. cbn. ring. Qed.

Lemma eval_bounds l : words l -> 0 <= eval l < weight (length l).
Proof.
  induction 1 as [|x l Hx _ IH]; cbn [eval length]; [rewrite weight_0; lia|].
  rewrite weight_S. unfold is_word in Hx. nia.
Qed.

Lemma eval_zeros n : eval (replicate n 0) = 0.
Proof. induction n as [|n IH]; cbn [eval replicate]; [|rewrite IH]; lia. Qed.

Lemma eval_split n l : eval l = eval (take n l) + weight (length (take n l)) * eval (drop n l).
Proof. by rewrite <- eval_app, take_drop. Qed.

Lemma eval_zeros_r l n : eval (l ++ replicate n 0) = eval l.
Proof. rewrite eval_app, eval_zeros. lia. Qed.

Lemma eval_zero l : words l -> eval l = 0 -> l = replicate (length l) 0.
Proof.
  induction 1 as [|x l Hx Hl IH]; cbn [eval length replicate]; intros E; [done|].
  pose proof (eval_bounds _ Hl). pose proof BASE_pos. unfold is_word in Hx.
  assert (eval l = 0) by nia. f_equal; [nia|auto].
Qed.

Lemma eval_inj a b : words a -> words b -> length a = length b -> eval a = eval b -> a = b.
Proof.
  intros Ha. revert b. induction Ha as [|x a Hx Ha IH]; intros [|y b] Hb L E; try done.
  apply Forall_cons in Hb as [Hy Hb]. cbn [eval] in E. unfold is_word in *.
  assert (eval a = eval b /\ x = y) as [E1 ->].
  { pose proof BASE_pos. assert (eval a = eval b) by nia. split; [done|]. nia. }
  f_equal. apply IH; auto.
Qed.

(** A number with a non-zero top word. *)
Lemma eval_top_pos l n : words l -> length l = S n -> l !! n <> Some 0 -> weight n <= eval l.
Proof.
  intros Hw L T. destruct (l !! n) as [x|] eqn:E; [|apply lookup_ge_None in E; lia].
  rewrite (eval_split n l), (drop_S _ _ _ E), (drop_ge l (S n)) by lia. cbn [eval].
  rewrite length_take, Nat.min_l by lia.
  pose proof (eval_bounds _ (words_take n _ Hw)) as Hb.
  pose proof (words_lookup _ _ _ Hw E). unfold is_word in *.
  assert (x <> 0) by congruence. pose proof (weight_pos n). nia.
Qed.

Lemma eval_insert l i x y : l !! i = Some x -> eval (<[i := y]> l) = eval l + weight i * (y - x).
Proof.
  revert i. induction l as [|z l IH]; intros [|i] E; try done.
  - injection E as ->. change (<[0%nat := y]> (x :: l)) with (y :: l). cbn [eval]. rewrite weight_0. lia.
  - change (<[S i := y]> (z :: l)) with (z :: <[i := y]> l). cbn [eval].
    rewrite (IH i E), weight_S. ring.
Qed.

Lemma eval_div l i : words l -> (i <= length l)%nat -> eval l / weight i = eval (drop i l) /\ eval l mod weight i = eval (take i l).
Proof.
  intros W L. pose proof (eval_bounds _ (words_take i _ W)) as B. rewrite length_take, Nat.min_l in B by done.
  pose proof (weight_pos i). rewrite (eval_split i l), length_take, Nat.min_l by done.
  split; symmetry; [apply Z.div_unique with (eval (take i l))|apply Z.mod_unique with (eval (drop i l))]; lia.
Qed.

(** The bits of a number are those of its words. *)
Lemma eval_testbit l (i j : Z) : words l -> 0 <= i -> 0 <= j < BN_BITS2 ->
  Z.testbit (eval l) (i * BN_BITS2 + j) = Z.testbit (default 0 (l !! Z.to_nat i)) j.
Proof.
  intros W Hi Hj. destruct (l !! Z.to_nat i) as [x|] eqn:E; cbn [default].
  - pose proof (lookup_lt_Some _ _ _ E) as L. destruct (eval_div l (Z.to_nat i) W) as [D _]; [lia|].
    rewrite weight_bits, Z2Nat.id, Z.mul_comm in D by done.
    rewrite Z.add_comm, <- Z.div_pow2_bits, D by nia.
    rewrite (drop_S _ _ _ E). cbn [eval].
    rewrite <- (Z.mod_pow2_bits_low _ BN_BITS2) by lia. fold BASE.
    rewrite (Z.mul_comm BASE), Z.mod_add, Z.mod_small by (pose proof BASE_pos; lia || by apply (words_lookup _ _ _ W E)).
    done.
  - apply lookup_ge_None in E. pose proof (eval_bounds l W) as B. rewrite weight_bits in B.
    rewrite Z.bits_0. destruct (Z.eq_dec (eval l) 0) as [->|N]; [apply Z.bits_0|].
    apply Z.bits_above_log2; [lia|]. apply Z.log2_lt_pow2; [lia|].
    eapply Z.lt_le_trans; [apply B|]. apply Z.pow_le_mono_r; [lia|nia].
Qed.

Lemma split_index n : 0 <= n -> 0 <= n / BN_BITS2 /\ 0 <= n mod BN_BITS2 < BN_BITS2 /\
  n = n / BN_BITS2 * BN_BITS2 + n mod BN_BITS2.
Proof.
  intros Hn. assert (0 < BN_BITS2) by (destruct BITS2_cases; lia).
  pose proof (Z.div_mod n BN_BITS2). pose proof (Z.mod_pos_bound n BN_BITS2).
  split; [apply Z.div_pos; lia|]. lia.
Qed.

(** Numbers are compared bit by bit through their words. *)
Lemma eval_bits l z : words l -> 0 <= z ->
  (forall i j, 0 <= i -> 0 <= j < BN_BITS2 ->
    Z.testbit z (i * BN_BITS2 + j) = Z.testbit (default 0 (l !! Z.to_nat i)) j) -> eval l = z.
Proof.
  intros W Hz H. apply Z.bits_inj'. intros n Hn. destruct (split_index n Hn) as (H1 & H2 & ->).
  by rewrite eval_testbit, H.
Qed.
End words.

(** * The bits of a word

    [BN_num_bits_word] of crypto/bn/bn_lib.c and the masks of
    include/internal/constant_time.h that [BN_num_bits] uses. *)

(** ** Masks *)

Definition constant_time_msb (a : Z) : Z := u32 (0 - Z.shiftr a 31).

Definition constant_time_is_zero (a : Z) : Z :=
  constant_time_msb (Z.land (u32 (Z.lnot a)) (u32 (a - 1))).

Definition constant_time_eq (a b : Z) : Z := constant_time_is_zero (Z.lxor a b).

Definition constant_time_eq_int (a b : Z) : Z := constant_time_eq (u32 a) (u32 b).

(** A mask of all bits, or none. *)
Definition mask32 (b : bool) : Z := if b then 2 ^ 32 - 1 else 0.

Lemma top_bit_set a n : 0 <= n -> 0 <= a < 2 ^ (n + 1) -> Z.shiftr a n = Z.b2z (2 ^ n <=? a).
Proof.
  intros Hn Ha. rewrite Z.shiftr_div_pow2 by done. rewrite Z.pow_add_r in Ha by lia.
  assert (0 < 2 ^ n) by (apply Z.pow_pos_nonneg; lia).
  destruct (Z.leb_spec (2 ^ n) a); cbn.
  - symmetry. apply Z.div_unique with (a - 2 ^ n); lia.
  - apply Z.div_small. lia.
Qed.

Lemma lnot_u32 a : 0 <= a < 2 ^ 32 -> u32 (Z.lnot a) = 2 ^ 32 - 1 - a.
Proof.
  intros H. unfold u32, Z.lnot. symmetry. apply Z.mod_unique with (-1); lia.
Qed.

(** [~a & (a - 1)] has the high bit exactly for zero. *)
Lemma constant_time_is_zero_ok a : 0 <= a < 2 ^ 32 -> constant_time_is_zero a = mask32 (a =? 0).
Proof.
  intros Ha. unfold constant_time_is_zero, constant_time_msb.
  assert (0 <= Z.land (u32 (Z.lnot a)) (u32 (a - 1)) < 2 ^ 32) as B.
  { split; [apply Z.land_nonneg; left; apply u32_range|].
    rewrite lnot_u32 by done. unfold u32. rewrite <- (Z.land_ones _ 32), Z.land_assoc, Z.land_ones by done.
    by apply Z.mod_pos_bound. }
  rewrite Z.shiftr_land, !top_bit_set by (apply u32_range || lia). rewrite lnot_u32 by done.
  destruct (Z.eqb_spec a 0) as [->|N]; [done|].
  rewrite (u32_small (a - 1)) by lia.
  destruct (Z.leb_spec (2 ^ 31) (2 ^ 32 - 1 - a)), (Z.leb_spec (2 ^ 31) (a - 1)); try lia; done.
Qed.

Lemma constant_time_eq_int_ok a b : - 2 ^ 31 <= a < 2 ^ 31 -> - 2 ^ 31 <= b < 2 ^ 31 ->
  constant_time_eq_int a b = mask32 (a =? b).
Proof.
  intros Ha Hb. unfold constant_time_eq_int, constant_time_eq.
  pose proof (u32_range a) as Ra. pose proof (u32_range b) as Rb.
  rewrite constant_time_is_zero_ok.
  - f_equal. destruct (Z.eqb_spec a b) as [->|N]; [by rewrite Z.lxor_nilpotent|].
    apply Z.eqb_neq. rewrite Z.lxor_eq_0_iff. intros E. apply N, (u32_inj a b); [lia|done].
  - split; [apply Z.lxor_nonneg; lia|].
    destruct (Z.eqb_spec (Z.lxor (u32 a) (u32 b)) 0) as [->|N]; [lia|].
    apply Z.log2_lt_pow2; [pose proof (Z.lxor_nonneg (u32 a) (u32 b)); lia|].
    eapply Z.le_lt_trans; [apply Z.log2_lxor; lia|].
    apply Z.max_lub_lt; (destruct (Z.eqb_spec (u32 a) 0), (Z.eqb_spec (u32 b) 0);
      first [apply Z.log2_lt_pow2; lia | rewrite e; cbn; lia | rewrite e0; cbn; lia]).
Qed.

(** ** The number of bits of a word *)

Section word.
Context {c : Build}.

Definition num_bits_step (k : Z) (st : Z * Z) : Z * Z :=
  let '(bits, l) := st in
  let x := Z.shiftr l k in
  let mask := Z.land (ul (0 - x)) BN_MASK2 in
  let mask := ul (0 - Z.shiftr mask (BN_BITS2 - 1)) in
  (bits + Z.land k mask, Z.lxor l (Z.land (Z.lxor x l) mask)).

Definition BN_num_bits_word (l : Z) : Z :=
  let st := (Z.b2z (negb (l =? 0)), l) in
  let st := if wide then num_bits_step 32 st else st in
  fst (num_bits_step 1 (num_bits_step 2 (num_bits_step 4 (num_bits_step 8 (num_bits_step 16 st))))).

(** The number of bits of a number. *)
Definition bit_length (z : Z) : Z := if z =? 0 then 0 else Z.log2 z + 1.

Lemma land_mask2 z : Z.land z BN_MASK2 = z mod BASE.
Proof. rewrite MASK2_ones. apply Z.land_ones. destruct BITS2_cases; lia. Qed.

Lemma num_bits_step_ok k bits l : 0 < k < BN_BITS2 -> 0 <= l < 2 ^ (2 * k) -> is_word l ->
  exists bits' l', num_bits_step k (bits, l) = (bits', l') /\ 0 <= l' < 2 ^ k /\ is_word l' /\
    (l' = 0 <-> l = 0) /\ (0 < l -> bits' + Z.log2 l' = bits + Z.log2 l) /\ (l = 0 -> bits' = bits).
Proof.
  intros Hk Hl Hw. unfold num_bits_step. fold (ul (0 - Z.shiftr l k)).
  change (Z.land (ul (0 - Z.shiftr l k)) BN_MASK2) with (mask2 (0 - Z.shiftr l k)).
  set (x := Z.shiftr l k). pose proof BASE_pos as HB. pose proof BASE_even as HE.
  assert (x = l / 2 ^ k) as Ex by (apply Z.shiftr_div_pow2; lia).
  assert (0 < 2 ^ k) as Hp by (apply Z.pow_pos_nonneg; lia).
  assert (2 ^ (2 * k) = 2 ^ k * 2 ^ k) as E2 by (rewrite <- Z.pow_add_r by lia; f_equal; lia).
  assert (0 <= x <= l) as Hx.
  { rewrite Ex. split; [apply Z.div_pos; lia|]. apply Z.div_le_upper_bound; nia. }
  assert (Z.shiftr (mask2 (0 - x)) (BN_BITS2 - 1) = Z.b2z (negb (x =? 0))) as ->.
  { rewrite top_bit_set; [|destruct BITS2_cases; lia|].
    2: { rewrite Z.sub_add. apply mask2_word. }
    rewrite mask2_mod. f_equal. destruct (Z.eqb_spec x 0) as [->|N].
    - rewrite Z.mod_small by lia. apply Z.leb_gt. apply Z.pow_pos_nonneg; destruct BITS2_cases; lia.
    - assert ((0 - x) mod BASE = BASE - x) as -> by (symmetry; apply Z.mod_unique with (-1); unfold is_word in Hw; lia).
      apply Z.leb_le. assert (2 * x <= l); [|unfold is_word in Hw; lia].
      rewrite Ex. assert (2 * (l / 2 ^ k) <= 2 ^ k * (l / 2 ^ k)).
      { apply Z.mul_le_mono_nonneg_r; [apply Z.div_pos; lia|]. apply (Z.pow_le_mono_r 2 1); lia. }
      pose proof (Z.mul_div_le l (2 ^ k) Hp). lia. }
  destruct (Z.eqb_spec x 0) as [E|N]; cbn [negb Z.b2z].
  - unfold ul. rewrite Z.mod_0_l by lia. rewrite !Z.land_0_r, Z.lxor_0_r.
    exists (bits + 0), l. split; [done|]. split; [|split; [done|split; [done|lia]]].
    split; [lia|]. rewrite Ex in E. apply Z.div_small_iff in E; lia.
  - assert (ul (0 - 1) = BN_MASK2) as ->.
    { rewrite MASK2_ones. unfold ul. rewrite Z.ones_equiv. symmetry. apply Z.mod_unique with (-1); unfold BASE; lia. }
    rewrite !land_mask2. rewrite (Z.mod_small k) by (pose proof BASE_big; destruct BITS2_cases; lia).
    assert (is_word (Z.lxor x l)) as Wx.
    { unfold is_word in *. split; [apply Z.lxor_nonneg; lia|].
      destruct (Z.eqb_spec (Z.lxor x l) 0) as [->|]; [lia|].
      apply Z.log2_lt_pow2; [pose proof (Z.lxor_nonneg x l); lia|].
      eapply Z.le_lt_trans; [apply Z.log2_lxor; lia|].
      apply Z.max_lub_lt; apply Z.log2_lt_pow2; unfold BASE in Hw; lia. }
    rewrite (Z.mod_small (Z.lxor x l)) by done.
    rewrite (Z.lxor_comm x l), lxor_cancel_l.
    exists (bits + k), x. assert (0 < l) by lia.
    assert (Z.log2 x = Z.log2 l - k) as EL.
    { unfold x. rewrite Z.log2_shiftr by lia. apply Z.max_r.
      assert (k <= Z.log2 l); [|lia]. apply Z.log2_le_pow2; [lia|].
      destruct (Z.lt_ge_cases l (2 ^ k)); [|lia]. rewrite Ex, Z.div_small in N by lia. done. }
    split; [done|]. split; [|split; [unfold is_word in *; lia|split; [lia|split; lia]]].
    split; [lia|]. rewrite Ex. apply Z.div_lt_upper_bound; lia.
Qed.

Lemma BN_num_bits_word_ok l : is_word l -> BN_num_bits_word l = bit_length l.
Proof.
  intros Hw. unfold BN_num_bits_word.
  assert (exists b l0, (if wide then num_bits_step 32 (Z.b2z (negb (l =? 0)), l) else (Z.b2z (negb (l =? 0)), l)) = (b, l0) /\
    0 <= l0 < 2 ^ 32 /\ is_word l0 /\ (l0 = 0 <-> l = 0) /\
    (0 < l -> b + Z.log2 l0 = 1 + Z.log2 l) /\ (l = 0 -> b = 0)) as (b0 & l0 & -> & H0).
  { assert (Z.b2z (negb (l =? 0)) = if l =? 0 then 0 else 1) as -> by (by destruct (l =? 0)).
    destruct wide eqn:Ew.
    - destruct (num_bits_step_ok 32 (if l =? 0 then 0 else 1) l) as (b & l' & E & H);
        [unfold BN_BITS2, BN_BYTES; rewrite Ew; lia| |done|].
      { unfold is_word, BASE, BN_BITS2, BN_BYTES in Hw. by rewrite Ew in Hw. }
      exists b, l'. split; [done|]. destruct (Z.eqb_spec l 0); intuition lia.
    - exists (if l =? 0 then 0 else 1), l. split; [done|].
      pose proof Hw as Hw'. unfold is_word, BASE, BN_BITS2, BN_BYTES in Hw'. rewrite Ew in Hw'.
      split; [done|]. split; [done|]. destruct (Z.eqb_spec l 0); intuition lia. }
  assert (forall k, In k [16; 8; 4; 2; 1] -> 0 < k < BN_BITS2) as Hk.
  { intros k I. destruct BITS2_cases as [-> | ->]; repeat destruct I as [<-|I]; try lia; done. }
  destruct (num_bits_step_ok 16 b0 l0) as (b1 & l1 & -> & H1); [apply Hk; cbn; auto|apply H0|apply H0|].
  destruct (num_bits_step_ok 8 b1 l1) as (b2 & l2 & -> & H2); [apply Hk; cbn; auto|apply H1|apply H1|].
  destruct (num_bits_step_ok 4 b2 l2) as (b3 & l3 & -> & H3); [apply Hk; cbn; auto|apply H2|apply H2|].
  destruct (num_bits_step_ok 2 b3 l3) as (b4 & l4 & -> & H4); [apply Hk; cbn; auto|apply H3|apply H3|].
  destruct (num_bits_step_ok 1 b4 l4) as (b5 & l5 & -> & H5); [apply Hk; cbn; auto 6|apply H4|apply H4|].
  cbn [fst]. unfold bit_length. unfold is_word in Hw. destruct (Z.eqb_spec l 0) as [->|N]; [intuition lia|].
  assert (l5 = 1) as -> by intuition lia. change (Z.log2 1) with 0 in H5. intuition lia.
Qed.

Lemma bit_length_bounds z : 0 <= z -> 2 ^ bit_length z <= 2 * z \/ z = 0.
Proof.
  intros Hz. unfold bit_length. destruct (Z.eqb_spec z 0); [by right|left].
  rewrite Z.pow_add_r by (pose proof (Z.log2_nonneg z); lia). pose proof (Z.log2_spec z). lia.
Qed.

Lemma bit_length_lt z : 0 <= z -> z < 2 ^ bit_length z.
Proof.
  intros Hz. unfold bit_length. destruct (Z.eqb_spec z 0) as [->|]; [done|]. apply Z.log2_spec. lia.
Qed.

Lemma bit_length_range z n : 0 <= n -> 0 <= z < 2 ^ n -> 0 <= bit_length z <= n.
Proof.
  intros Hn Hz. unfold bit_length. destruct (Z.eqb_spec z 0); [lia|].
  pose proof (Z.log2_nonneg z). assert (Z.log2 z < n); [|lia]. apply Z.log2_lt_pow2; lia.
Qed.
End word.
