(* ===== verification/BnMem.v ===== *)
(** * Big numbers: objects and programs over them

    A [BIGNUM] is an object with its array of words in it, so that a pointer to a
    word is an object and an index; the null array is the empty one.  The code
    takes the address of a word only after the array has been expanded.
    Programs are in a state monad over the objects, with faults; [runs] says that
    one returns, with a postcondition. *)

From S2P Require Import Prelude Bytes BnBase.

(** ** Objects *)

Record BIGNUM : Type :=
  { bn_d : list Z; bn_top : Z; bn_dmax : Z; bn_neg : Z; bn_flags : Z }.

(** [next] numbers the allocations, and names what they create. *)
Record mem : Type := { objs : gmap nat BIGNUM; next : nat }.

Definition set_d (d : list Z) (a : BIGNUM) : BIGNUM :=
  {| bn_d := d; bn_top := bn_top a; bn_dmax := bn_dmax a; bn_neg := bn_neg a; bn_flags := bn_flags a |}.

Definition set_top (t : Z) (a : BIGNUM) : BIGNUM :=
  {| bn_d := bn_d a; bn_top := t; bn_dmax := bn_dmax a; bn_neg := bn_neg a; bn_flags := bn_flags a |}.

Definition set_dmax (n : Z) (a : BIGNUM) : BIGNUM :=
  {| bn_d := bn_d a; bn_top := bn_top a; bn_dmax := n; bn_neg := bn_neg a; bn_flags := bn_flags a |}.

Definition set_neg (n : Z) (a : BIGNUM) : BIGNUM :=
  {| bn_d := bn_d a; bn_top := bn_top a; bn_dmax := bn_dmax a; bn_neg := n; bn_flags := bn_flags a |}.

Definition set_flags (f : Z) (a : BIGNUM) : BIGNUM :=
  {| bn_d := bn_d a; bn_top := bn_top a; bn_dmax := bn_dmax a; bn_neg := bn_neg a; bn_flags := f |}.

(** ** Programs *)

Definition prog (A : Type) : Type := mem -> outcome (A * mem).

#[export] Instance prog_ret : MRet prog := fun A x s => Ret (x, s).

#[export] Instance prog_bind : MBind prog := fun A B f m s =>
  match m s with
  | Ret (x, s') => f x s'
  | Exit => Exit
  | Throw => Throw
  | Fault => Fault
  | NoFuel => NoFuel
  end.

Definition ret {A} (x : A) : prog A := fun s => Ret (x, s).

Definition lift {A} (m : outcome A) : prog A := fun s =>
  match m with
  | Ret x => Ret (x, s)
  | Exit => Exit
  | Throw => Throw
  | Fault => Fault
  | NoFuel => NoFuel
  end.

Definition get (l : nat) : prog BIGNUM := fun s =>
  match objs s !! l with Some o => Ret (o, s) | None => Fault end.

Definition put (l : nat) (o : BIGNUM) : prog unit := fun s =>
  match objs s !! l with
  | Some _ => Ret (tt, {| objs := <[l := o]> (objs s); next := next s |})
  | None => Fault
  end.

Definition modify (l : nat) (f : BIGNUM -> BIGNUM) : prog unit := o ← get l; put l (f o).

(** [p[i]] and [p[i] = v] *)
Definition ptr : Type := nat * Z.

Definition padd (p : ptr) (i : Z) : ptr := (fst p, snd p + i).

Definition ldw (p : ptr) (i : Z) : prog Z := o ← get (fst p); lift (aget (bn_d o) (snd p + i)).

Definition stw (p : ptr) (i v : Z) : prog unit :=
  o ← get (fst p); d ← lift (aset (bn_d o) (snd p + i) v); put (fst p) (set_d d o).

(** [for (; n > 0; i++, n--)] over a state of local variables. *)
Fixpoint for_ {S} (n : nat) (i : Z) (body : Z -> S -> prog S) (x : S) : prog S :=
  match n with
  | O => ret x
  | Datatypes.S k => x ← body i x; for_ k (i + 1) body x
  end.

(** [while (n & ~3)] with four bodies in a turn. *)
Fixpoint quads {S} (k : nat) (i : Z) (body : Z -> S -> prog S) (x : S) : prog S :=
  match k with
  | O => ret x
  | Datatypes.S k =>
      x ← body i x; x ← body (i + 1) x; x ← body (i + 2) x; x ← body (i + 3) x;
      quads k (i + 4) body x
  end.

(** The loops of bn_asm.c, unrolled unless the footprint is to be small. *)
Definition unrolled {c : Build} {S} (n : Z) (body : Z -> S -> prog S) (x : S) : prog S :=
  if small then for_ (Z.to_nat n) 0 body x
  else
    x ← quads (Z.to_nat (n / 4)) 0 body x;
    for_ (Z.to_nat (n mod 4)) (n / 4 * 4) body x.

(** ** Total correctness *)

Definition runs {A} (m : prog A) (s : mem) (Q : A -> mem -> Prop) : Prop :=
  exists x s', m s = Ret (x, s') /\ Q x s'.

Section rules.
Context {A B : Type}.
Implicit Types (m : prog A) (s : mem) (Q : A -> mem -> Prop).

Lemma runs_ret (x : A) s Q : Q x s -> runs (ret x) s Q.
Proof. intros H. by exists x, s. Qed.

Lemma runs_mono m s Q Q' : runs m s Q -> (forall x s', Q x s' -> Q' x s') -> runs m s Q'.
Proof. intros (x & s' & E & H) I. exists x, s'. eauto. Qed.

Lemma runs_bind m (f : A -> prog B) s (Q : B -> mem -> Prop) :
  runs m s (fun x s' => runs (f x) s' Q) -> runs (m ≫= f) s Q.
Proof.
  intros (x & s' & E & y & s2 & E2 & H). exists y, s2. split; [|done].
  unfold mbind, prog_bind. by rewrite E.
Qed.

Lemma runs_lift (x : A) (mo : outcome A) s Q : mo = Ret x -> Q x s -> runs (lift mo) s Q.
Proof. intros -> H. by exists x, s. Qed.

Lemma bind_assoc {C} m (f : A -> prog B) (g : B -> prog C) s :
  ((m ≫= f) ≫= g) s = (m ≫= (fun x => f x ≫= g)) s.
Proof. unfold mbind, prog_bind. destruct (m s) as [[x s']| | | |]; done. Qed.

Lemma bind_ext m (f g : A -> prog B) s :
  (forall x s', f x s' = g x s') -> (m ≫= f) s = (m ≫= g) s.
Proof. intros H. unfold mbind, prog_bind. destruct (m s) as [[x s']| | | |]; auto. Qed.

Lemma bind_step m (f : A -> prog B) s x s' : m s = Ret (x, s') -> (m ≫= f) s = f x s'.
Proof. intros E. unfold mbind, prog_bind. by rewrite E. Qed.
End rules.

Definition set_obj (l : nat) (o : BIGNUM) (s : mem) : mem :=
  {| objs := <[l := o]> (objs s); next := next s |}.

Lemma runs_get l o s Q : objs s !! l = Some o -> Q o s -> runs (get l) s Q.
Proof. intros E H. exists o, s. unfold get. by rewrite E. Qed.

Lemma runs_put l o o' s (Q : unit -> mem -> Prop) :
  objs s !! l = Some o' -> Q tt (set_obj l o s) -> runs (put l o) s Q.
Proof. intros E H. exists tt, (set_obj l o s). unfold put. by rewrite E. Qed.

Lemma runs_modify l f o s (Q : unit -> mem -> Prop) :
  objs s !! l = Some o -> Q tt (set_obj l (f o) s) -> runs (modify l f) s Q.
Proof. intros E H. apply runs_bind, (runs_get _ _ _ _ E), (runs_put _ _ _ _ _ E H). Qed.

Lemma runs_ldw (p : ptr) i o x s Q : objs s !! fst p = Some o -> 0 <= snd p + i ->
  bn_d o !! Z.to_nat (snd p + i) = Some x -> Q x s -> runs (ldw p i) s Q.
Proof.
  intros E Hi Ex H. apply runs_bind, (runs_get _ _ _ _ E), (runs_lift x); [|done].
  by apply aget_lookup.
Qed.

Lemma runs_stw (p : ptr) i v o s (Q : unit -> mem -> Prop) : objs s !! fst p = Some o ->
  0 <= snd p + i < Z.of_nat (length (bn_d o)) ->
  Q tt (set_obj (fst p) (set_d (<[Z.to_nat (snd p + i) := v]> (bn_d o)) o) s) ->
  runs (stw p i v) s Q.
Proof.
  intros E Hi H. apply runs_bind, (runs_get _ _ _ _ E), runs_bind.
  apply (runs_lift _ _ _ _ (aset_ok _ _ _ Hi)), (runs_put _ _ _ _ _ E H).
Qed.

(** A loop keeps an invariant over the index. *)
Lemma runs_for {S} (I : Z -> S -> mem -> Prop) (body : Z -> S -> prog S) n : forall i x s Q,
  (forall j x s, i <= j < i + Z.of_nat n -> I j x s -> runs (body j x) s (I (j + 1))) ->
  I i x s -> (forall x s, I (i + Z.of_nat n) x s -> Q x s) -> runs (for_ n i body x) s Q.
Proof.
  induction n as [|n IH]; intros i x s Q Hb Hi HQ; cbn [for_].
  - apply runs_ret, HQ. by rewrite Z.add_0_r.
  - apply runs_bind. eapply runs_mono; [apply Hb; [lia|exact Hi]|].
    intros x' s' Hi'. apply (IH (i + 1)); [|done|].
    + intros j y t Hj. apply Hb. lia.
    + intros y t Ht. apply HQ. by replace (i + Z.of_nat (Datatypes.S n)) with (i + 1 + Z.of_nat n) by lia.
Qed.

Lemma for_add {S} (body : Z -> S -> prog S) m n : forall i x s,
  for_ (m + n) i body x s = (for_ m i body x ≫= for_ n (i + Z.of_nat m) body) s.
Proof.
  induction m as [|m IH]; intros i x s.
  - cbn. by rewrite Z.add_0_r.
  - cbn [for_ Nat.add]. rewrite bind_assoc. apply bind_ext. intros y t. rewrite IH.
    by replace (i + 1 + Z.of_nat m) with (i + Z.of_nat (Datatypes.S m)) by lia.
Qed.

Lemma quads_for {S} (body : Z -> S -> prog S) k : forall i x s,
  quads k i body x s = for_ (4 * k) i body x s.
Proof.
  induction k as [|k IH]; intros i x s; [done|].
  replace (4 * Datatypes.S k)%nat with (4 + 4 * k)%nat by lia. rewrite for_add.
  cbn [quads for_].
  replace (i + 1 + 1 + 1) with (i + 3) by lia. replace (i + 1 + 1) with (i + 2) by lia.
  do 4 (rewrite bind_assoc; apply bind_ext; intros ? ?). apply IH.
Qed.

(** Unrolling does not change what a loop does. *)
Lemma unrolled_for {c : Build} {S} n (body : Z -> S -> prog S) x s : 0 <= n ->
  unrolled n body x s = for_ (Z.to_nat n) 0 body x s.
Proof.
  intros Hn. unfold unrolled. destruct small; [done|].
  replace (Z.to_nat n) with (4 * Z.to_nat (n / 4) + Z.to_nat (n mod 4))%nat
    by (pose proof (Z.div_mod n 4); pose proof (Z.mod_pos_bound n 4); lia).
  rewrite for_add. unfold mbind, prog_bind. rewrite quads_for.
  destruct (for_ (4 * Z.to_nat (n / 4)) 0 body x s) as [[y t]| | | |]; try done.
  f_equal. pose proof (Z.div_pos n 4). lia.
Qed.

Lemma runs_unrolled {c : Build} {S} n (body : Z -> S -> prog S) x s Q : 0 <= n ->
  runs (for_ (Z.to_nat n) 0 body x) s Q -> runs (unrolled n body x) s Q.
Proof. intros Hn (y & t & E & H). exists y, t. by rewrite unrolled_for. Qed.

(** ** Regions of arrays *)

Definition rd (s : mem) (p : ptr) (n : nat) : list Z :=
  match objs s !! fst p with
  | Some o => take n (drop (Z.to_nat (snd p)) (bn_d o))
  | None => []
  end.

Definition wr (p : ptr) (l : list Z) (s : mem) : mem :=
  {| objs := alter (fun o => set_d (blit (Z.to_nat (snd p)) l (bn_d o)) o) (fst p) (objs s);
     next := next s |}.

Definition within (s : mem) (p : ptr) (n : nat) : Prop :=
  exists o, objs s !! fst p = Some o /\ 0 <= snd p /\ snd p + Z.of_nat n <= Z.of_nat (length (bn_d o)).

(** Words written at [p] do not change those that are still to be read at [q]. *)
Definition ahead (p q : ptr) (n : nat) : Prop :=
  fst p <> fst q \/ snd p <= snd q \/ snd q + Z.of_nat n <= snd p.

Lemma length_rd s p n : within s p n -> length (rd s p n) = n.
Proof.
  intros (o & E & H0 & H). unfold rd. rewrite E. rewrite length_take, length_drop. lia.
Qed.

Lemma set_d_same o : set_d (bn_d o) o = o.
Proof. by destruct o. Qed.

Lemma wr_nil p s : wr p [] s = s.
Proof.
  destruct s as [O n]. unfold wr. cbn [objs next]. f_equal. apply map_eq. intros l.
  destruct (decide (l = fst p)) as [->|N].
  - rewrite lookup_alter_eq. destruct (O !! fst p) as [o|]; cbn; [|done]. f_equal.
    by rewrite blit_nil, set_d_same.
  - by rewrite lookup_alter_ne by done.
Qed.

Lemma wr_objs p l s o : objs s !! fst p = Some o ->
  objs (wr p l s) !! fst p = Some (set_d (blit (Z.to_nat (snd p)) l (bn_d o)) o).
Proof. intros E. unfold wr. cbn [objs]. by rewrite lookup_alter_eq, E. Qed.

Lemma wr_other p l s q : q <> fst p -> objs (wr p l s) !! q = objs s !! q.
Proof. intros N. unfold wr. cbn [objs]. by rewrite lookup_alter_ne by done. Qed.

Lemma wr_set_obj p l s o : objs s !! fst p = Some o ->
  wr p l s = set_obj (fst p) (set_d (blit (Z.to_nat (snd p)) l (bn_d o)) o) s.
Proof.
  intros E. unfold wr, set_obj. f_equal. apply map_eq. intros q.
  destruct (decide (q = fst p)) as [->|N].
  - by rewrite lookup_alter_eq, lookup_insert_eq, E.
  - by rewrite lookup_alter_ne, lookup_insert_ne by done.
Qed.

Lemma blit_snoc {A} k (l d : list A) v : (k + length l < length d)%nat ->
  <[(k + length l)%nat := v]> (blit k l d) = blit k (l ++ [v]) d.
Proof.
  intros H. assert (length (blit k l d) = length d) as L by (rewrite length_blit; lia).
  rewrite <- blit_app by (cbn; lia). apply list_eq. intros i.
  destruct (decide (i = k + length l)%nat) as [->|N].
  - rewrite list_lookup_insert_eq by lia. rewrite lookup_blit_in by (cbn; lia).
    by rewrite Nat.sub_diag.
  - rewrite list_lookup_insert_ne by done.
    by rewrite (lookup_blit_out (k + length l) [v]) by (cbn; lia).
Qed.

Lemma runs_stw_next p l v s n (Q : unit -> mem -> Prop) : within s p n -> (length l < n)%nat ->
  Q tt (wr p (l ++ [v]) s) -> runs (stw p (Z.of_nat (length l)) v) (wr p l s) Q.
Proof.
  intros (o & E & H0 & H) Hl HQ. eapply runs_stw; [by apply wr_objs| |].
  - cbn [bn_d set_d]. rewrite length_blit; lia.
  - replace (set_obj _ _ _) with (wr p (l ++ [v]) s); [done|].
    rewrite (wr_set_obj p (l ++ [v]) s o E), (wr_set_obj p l s o E). unfold set_obj. cbn [objs next].
    rewrite insert_insert_eq. f_equal. f_equal. unfold set_d. cbn. f_equal.
    rewrite Z2Nat.inj_add, Nat2Z.id by lia. symmetry. apply blit_snoc. lia.
Qed.

(** What is read at [q] after the first words have been written at [p]. *)
Lemma runs_ldw_next p l q n s x (Q : Z -> mem -> Prop) : within s p n -> within s q n -> ahead p q n ->
  (length l < n)%nat -> rd s q n !! length l = Some x ->
  Q x (wr p l s) -> runs (ldw q (Z.of_nat (length l))) (wr p l s) Q.
Proof.
  intros (o & E & H0 & H) (o' & E' & H0' & H') Ha Hl Ex HQ.
  unfold rd in Ex. rewrite E' in Ex. rewrite lookup_take_lt in Ex by done. rewrite lookup_drop in Ex.
  assert (Z.to_nat (snd q + Z.of_nat (length l)) = (Z.to_nat (snd q) + length l)%nat) as Ei by lia.
  destruct (decide (fst q = fst p)) as [Eq|N].
  - assert (o' = o) as -> by congruence. eapply runs_ldw; [rewrite Eq; by apply wr_objs|lia| |done].
    cbn [bn_d set_d]. rewrite Ei, lookup_blit_out; [done|lia|]. destruct Ha as [?|?]; [congruence|lia].
  - eapply runs_ldw; [by rewrite wr_other|lia| |done]. by rewrite Ei.
Qed.

(** ** Loops over words

    A loop that reads a word from each of two regions (which may be the same),
    computes a word and a carry, and writes the word to a third. *)

Fixpoint stream (f : Z -> Z -> Z -> Z * Z) (k : Z) (A B : list Z) : list Z * Z :=
  match A, B with
  | a :: A, b :: B =>
      let '(v, k) := f k a b in
      let '(r, k) := stream f k A B in (v :: r, k)
  | _, _ => ([], k)
  end.

Lemma stream_snoc f A : forall B k a b, length A = length B ->
  stream f k (A ++ [a]) (B ++ [b]) =
    let '(r, k') := stream f k A B in
    let '(v, k2) := f k' a b in (r ++ [v], k2).
Proof.
  induction A as [|x A IH]; intros [|y B] k a b L; try done; cbn [stream app].
  destruct (f k x y) as [v k1]. rewrite IH by (cbn in L; lia).
  destruct (stream f k1 A B) as [r k2]. by destruct (f k2 a b).
Qed.

Lemma length_stream f A : forall B k, length A = length B -> length (stream f k A B).1 = length A.
Proof.
  induction A as [|x A IH]; intros [|y B] k L; try done; cbn [stream].
  destruct (f k x y) as [v k1]. specialize (IH B k1 ltac:(cbn in L; lia)).
  destruct (stream f k1 A B). cbn in *. lia.
Qed.

Lemma runs_stream f (body : Z -> Z -> prog Z) rp ap bp n s k :
  within s rp n -> within s ap n -> within s bp n -> ahead rp ap n -> ahead rp bp n ->
  (forall i k a b t Q, runs (ldw ap i) t (fun x t' => x = a /\ t' = t) ->
     runs (ldw bp i) t (fun x t' => x = b /\ t' = t) ->
     runs (stw rp i (f k a b).1) t (fun _ t' => Q (f k a b).2 t') -> runs (body i k) t Q) ->
  runs (for_ n 0 body k) s (fun k' s' =>
    exists r, stream f k (rd s ap n) (rd s bp n) = (r, k') /\ s' = wr rp r s).
Proof.
  intros Hr Ha Hb Aa Ab Hbody.
  pose proof (length_rd _ _ _ Ha) as La. pose proof (length_rd _ _ _ Hb) as Lb.
  apply (runs_for (fun i k' s' => exists r,
    stream f k (take (Z.to_nat i) (rd s ap n)) (take (Z.to_nat i) (rd s bp n)) = (r, k') /\ s' = wr rp r s)).
  - intros i k' s' Hi (r & Er & ->).
    destruct (lookup_lt_is_Some_2 (rd s ap n) (Z.to_nat i)) as [a Ea]; [lia|].
    destruct (lookup_lt_is_Some_2 (rd s bp n) (Z.to_nat i)) as [b Eb]; [lia|].
    assert (length r = Z.to_nat i) as Lr.
    { pose proof (length_stream f (take (Z.to_nat i) (rd s ap n)) (take (Z.to_nat i) (rd s bp n)) k) as L.
      rewrite Er in L. cbn in L. rewrite L by (rewrite !length_take; lia). rewrite length_take. lia. }
    assert (i = Z.of_nat (length r)) as -> by lia. rewrite Nat2Z.id in *.
    apply (Hbody _ _ a b).
    + eapply runs_ldw_next; try done. lia.
    + eapply runs_ldw_next; try done. lia.
    + eapply runs_stw_next; [done|lia|]. exists (r ++ [(f k' a b).1]). split; [|done].
      replace (Z.to_nat (Z.of_nat (length r) + 1)) with (S (length r)) by lia.
      rewrite (take_S_r _ _ _ Ea), (take_S_r _ _ _ Eb), stream_snoc by (rewrite !length_take; lia).
      rewrite Er. by destruct (f k' a b).
  - exists []. by rewrite wr_nil.
  - intros k' s' (r & Er & ->). exists r. split; [|done].
    rewrite Z.add_0_l, Nat2Z.id in Er. by rewrite !take_ge in Er by lia.
Qed.
