(* ===== verification/BnWords.v ===== *)
(** * Big numbers: arithmetic on arrays of words

    crypto/bn/bn_asm.c in portable C, with the macros of bn_local.h that it uses:
    sums, differences, products of arrays and a word, squares of words, the
    quotient of two words by one.  Each is proved to be the operation on the
    numbers, in every build: with a double-word type, with a multiplication that
    gives the high word of a product ([BN_UMULT_LOHI], [BN_UMULT_HIGH]), or by
    half words. *)

From S2P Require Import Prelude Bytes BnBase BnMem.

(** Names the high word after a carry into [h]. *)
Ltac name_high h h' :=
  match goal with
  | |- context [if ?b then ul (h + 1) else h] => set (h' := if b then ul (h + 1) else h) in *; clearbody h'
  end.

Section macros.
Context {c : Build}.

(** ** Halves of words and their products *)

Definition LBITS (a : Z) : Z := Z.land a BN_MASK2l.
Definition HBITS (a : Z) : Z := Z.land (Z.shiftr a BN_BITS4) BN_MASK2l.
Definition L2HBITS (a : Z) : Z := mask2 (Z.shiftl a BN_BITS4).

(** [(l, h)] after [mul64(l, h, bl, bh)] *)
Definition mul64 (l h bl bh : Z) : Z * Z :=
  let lt := l in
  let ht := h in
  let m := ul (bh * lt) in
  let lt := ul (bl * lt) in
  let m1 := ul (bl * ht) in
  let ht := ul (bh * ht) in
  let m := mask2 (m + m1) in
  let ht := if m <? m1 then ul (ht + L2HBITS 1) else ht in
  let ht := ul (ht + HBITS m) in
  let m1 := L2HBITS m in
  let lt := mask2 (lt + m1) in
  let ht := if lt <? m1 then ul (ht + 1) else ht in
  (lt, ht).

Definition sqr64 (inp : Z) : Z * Z :=
  let h := inp in
  let l := LBITS h in
  let h := HBITS h in
  let m := ul (l * h) in
  let l := ul (l * l) in
  let h := ul (h * h) in
  let h := ul (h + Z.shiftr (Z.land m BN_MASK2h1) (BN_BITS4 - 1)) in
  let m := ul (Z.shiftl (Z.land m BN_MASK2l) (BN_BITS4 + 1)) in
  let l := mask2 (l + m) in
  let h := if l <? m then ul (h + 1) else h in
  (l, h).

(** The low and the high word of [t], a [BN_ULLONG]. *)
Definition Lw (t : Z) : Z := mask2 t.
Definition Hw (t : Z) : Z := mask2 (Z.shiftr t BN_BITS2).

(** The new [r] and [c] *)
Definition mul_add_llong (w : Z) (c a r : Z) : Z * Z :=
  let t := ull (ull (ull (w * a) + r) + c) in (Lw t, Hw t).

Definition mul_llong (w : Z) (c a : Z) : Z * Z :=
  let t := ull (ull (w * a) + c) in (Lw t, Hw t).

Definition sqr_llong (a : Z) : Z * Z := let t := ull (a * a) in (Lw t, Hw t).

(** The product of words as the macros give it: the multiplication of two
    [uint128_t], or the instruction of a processor.  [BN_UMULT_LOHI] gives the low
    word first. *)
Definition BN_UMULT_HIGH (a b : Z) : Z := ul (Z.shiftr (ull (a * b)) BN_BITS2).
Definition BN_UMULT_LOHI (a b : Z) : Z * Z :=
  let r := ull (a * b) in (ul r, ul (Z.shiftr r BN_BITS2)).

Definition mul_add_lohi (w : Z) (c a r : Z) : Z * Z :=
  let tmp := a in
  let ret := r in
  let '(low, high) := BN_UMULT_LOHI w tmp in
  let ret := ul (ret + c) in
  let c := Z.b2z (ret <? c) in
  let c := ul (c + high) in
  let ret := ul (ret + low) in
  let c := ul (c + Z.b2z (ret <? low)) in
  (ret, c).

Definition mul_lohi (w : Z) (c a : Z) : Z * Z :=
  let ta := a in
  let '(low, high) := BN_UMULT_LOHI w ta in
  let ret := ul (low + c) in
  let c := high in
  let c := ul (c + Z.b2z (ret <? low)) in
  (ret, c).

Definition sqr_lohi (a : Z) : Z * Z := let tmp := a in BN_UMULT_LOHI tmp tmp.

Definition mul_add_high (w : Z) (c a r : Z) : Z * Z :=
  let tmp := a in
  let ret := r in
  let high := BN_UMULT_HIGH w tmp in
  let ret := ul (ret + c) in
  let low := ul (w * tmp) in
  let c := Z.b2z (ret <? c) in
  let c := ul (c + high) in
  let ret := ul (ret + low) in
  let c := ul (c + Z.b2z (ret <? low)) in
  (ret, c).

Definition mul_high (w : Z) (c a : Z) : Z * Z :=
  let ta := a in
  let low := ul (w * ta) in
  let high := BN_UMULT_HIGH w ta in
  let ret := ul (low + c) in
  let c := high in
  let c := ul (c + Z.b2z (ret <? low)) in
  (ret, c).

Definition sqr_high (a : Z) : Z * Z := let tmp := a in (ul (tmp * tmp), BN_UMULT_HIGH tmp tmp).

Definition mul_add_half (bl bh : Z) (c a r : Z) : Z * Z :=
  let h := a in
  let l := LBITS h in
  let h := HBITS h in
  let '(l, h) := mul64 l h bl bh in
  let l := mask2 (l + c) in
  let h := if l <? c then ul (h + 1) else h in
  let c := r in
  let l := mask2 (l + c) in
  let h := if l <? c then ul (h + 1) else h in
  (l, mask2 h).

Definition mul_half (bl bh : Z) (c a : Z) : Z * Z :=
  let h := a in
  let l := LBITS h in
  let h := HBITS h in
  let '(l, h) := mul64 l h bl bh in
  let l := ul (l + c) in
  let h := if mask2 l <? c then ul (h + 1) else h in
  (mask2 l, mask2 h).

(** The macros as the two halves of the file use them. *)
Definition mul_add (w : Z) : Z -> Z -> Z -> Z * Z :=
  if llong then mul_add_llong w
  else
    match umult with
    | UMULT_LOHI => mul_add_lohi w
    | UMULT_HIGH => mul_add_high w
    | UMULT_NONE => mul_add_half (LBITS w) (HBITS w)
    end.

Definition mul (w : Z) : Z -> Z -> Z * Z :=
  if llong then mul_llong w
  else
    match umult with
    | UMULT_LOHI => mul_lohi w
    | UMULT_HIGH => mul_high w
    | UMULT_NONE => mul_half (LBITS w) (HBITS w)
    end.

Definition sqr (a : Z) : Z * Z :=
  if llong then sqr_llong a
  else
    match umult with
    | UMULT_LOHI => sqr_lohi a
    | UMULT_HIGH => sqr_high a
    | UMULT_NONE => sqr64 a
    end.

(** One turn of [bn_add_words]: the word and the carry. *)
Definition add_step (k a b : Z) : Z * Z :=
  if llong then
    let ll := ull (k + ull (a + b)) in
    (Z.land (ul ll) BN_MASK2, Z.shiftr ll BN_BITS2)
  else
    let t := a in
    let t := mask2 (t + k) in
    let c := Z.b2z (t <? k) in
    let l := mask2 (t + b) in
    (l, c + Z.b2z (l <? t)).

Definition sub_step (k a b : Z) : Z * Z :=
  (mask2 (a - b - k), if negb (a =? b) then Z.b2z (a <? b) else k).

(** ** Loops *)

Definition bn_mul_add_words (rp ap : ptr) (num w : Z) : prog Z :=
  if num <=? 0 then ret 0
  else
    unrolled num (fun i c1 =>
      r ← ldw rp i; a ← ldw ap i;
      let '(r, c1) := mul_add w c1 a r in
      _ ← stw rp i r; ret c1) 0.

Definition bn_mul_words (rp ap : ptr) (num w : Z) : prog Z :=
  if num <=? 0 then ret 0
  else
    unrolled num (fun i c1 =>
      a ← ldw ap i;
      let '(r, c1) := mul w c1 a in
      _ ← stw rp i r; ret c1) 0.

Definition bn_sqr_words (r a : ptr) (n : Z) : prog unit :=
  if n <=? 0 then ret tt
  else
    unrolled n (fun i _ =>
      x ← ldw a i;
      let '(lo, hi) := sqr x in
      _ ← stw r (2 * i) lo; stw r (2 * i + 1) hi) tt.

Definition bn_add_words (r a b : ptr) (n : Z) : prog Z :=
  if n <=? 0 then ret 0
  else
    k ← unrolled n (fun i k =>
      x ← ldw a i; y ← ldw b i;
      let '(l, k) := add_step k x y in
      _ ← stw r i l; ret k) 0;
    ret (ul k).

Definition bn_sub_words (r a b : ptr) (n : Z) : prog Z :=
  if n <=? 0 then ret 0
  else
    unrolled n (fun i k =>
      t1 ← ldw a i; t2 ← ldw b i;
      let '(l, k) := sub_step k t1 t2 in
      _ ← stw r i l; ret k) 0.

(** ** What the macros compute *)

Definition HALF : Z := 2 ^ BN_BITS4.

Lemma HALF_sqr : BASE = HALF * HALF.
Proof.
  unfold BASE, HALF. destruct BITS2_half as [E H]. rewrite <- Z.pow_add_r by lia. f_equal. lia.
Qed.

Lemma HALF_pos : 2 <= HALF.
Proof. unfold HALF. destruct BITS2_half as [_ H]. apply (Z.pow_le_mono_r 2 1); lia. Qed.

Lemma MASK2l_ones : BN_MASK2l = Z.ones BN_BITS4.
Proof. unfold BN_MASK2l, BN_BITS4. by destruct wide. Qed.

Lemma LBITS_mod a : LBITS a = a mod HALF.
Proof. unfold LBITS. rewrite MASK2l_ones, Z.land_ones by (destruct BITS2_half; lia). done. Qed.

Lemma HBITS_div a : is_word a -> HBITS a = a / HALF.
Proof.
  intros [H0 H1]. unfold HBITS. rewrite MASK2l_ones, Z.land_ones, Z.shiftr_div_pow2 by (destruct BITS2_half; lia).
  fold HALF. apply Z.mod_small. pose proof HALF_pos. rewrite HALF_sqr in H1.
  split; [apply Z.div_pos; lia|]. apply Z.div_lt_upper_bound; lia.
Qed.

Lemma L2HBITS_mul a : L2HBITS a = a mod HALF * HALF.
Proof.
  unfold L2HBITS. rewrite mask2_mod, Z.shiftl_mul_pow2 by (destruct BITS2_half; lia). fold HALF.
  rewrite HALF_sqr. pose proof HALF_pos. by rewrite Z.mul_mod_distr_r by lia.
Qed.

Definition is_half (a : Z) : Prop := 0 <= a < HALF.

Lemma half_word a : is_half a -> is_word a.
Proof. unfold is_half, is_word. rewrite HALF_sqr. pose proof HALF_pos. nia. Qed.

Lemma half_mul a b : is_half a -> is_half b -> 0 <= a * b <= (HALF - 1) * (HALF - 1).
Proof. unfold is_half. intros. split; [nia|]. apply Z.mul_le_mono_nonneg; lia. Qed.

Lemma ul_half_mul a b : is_half a -> is_half b -> ul (a * b) = a * b.
Proof.
  intros. apply ul_small. pose proof (half_mul a b). unfold is_word. rewrite HALF_sqr.
  pose proof HALF_pos. intuition nia.
Qed.

Lemma halves a : is_word a -> is_half (LBITS a) /\ is_half (HBITS a) /\ a = LBITS a + HALF * HBITS a.
Proof.
  intros Ha. pose proof HALF_pos as HP. rewrite LBITS_mod, HBITS_div by done. unfold is_half.
  pose proof (Z.div_mod a HALF) as Hd. pose proof (Z.mod_pos_bound a HALF) as Hm.
  destruct Ha as [Ha Ha']. rewrite HALF_sqr in Ha'.
  split; [lia|]. split; [|lia]. split; [apply Z.div_pos; lia|]. apply Z.div_lt_upper_bound; lia.
Qed.

(** [t = (a + b) & BN_MASK2] and [t < b]: the sum and its carry. *)
Lemma carry_of a b : is_word a -> is_word b ->
  a + b = mask2 (a + b) + BASE * Z.b2z (mask2 (a + b) <? b).
Proof.
  unfold is_word. intros Ha Hb. rewrite mask2_mod. pose proof BASE_pos.
  destruct (Z.lt_ge_cases (a + b) BASE).
  - rewrite Z.mod_small by lia. destruct (Z.ltb_spec (a + b) b); cbn; lia.
  - assert ((a + b) mod BASE = a + b - BASE) as E.
    { symmetry. apply Z.mod_unique with 1; lia. }
    rewrite E. destruct (Z.ltb_spec (a + b - BASE) b); cbn; lia.
Qed.

Lemma ul_add_carry x (b : bool) : is_word (x + Z.b2z b) -> (if b then ul (x + 1) else x) = x + Z.b2z b.
Proof. destruct b; cbn; [|lia]. intros. by apply ul_small. Qed.

Lemma div_mod_half m : m = m mod HALF + HALF * (m / HALF).
Proof. pose proof HALF_pos. pose proof (Z.div_mod m HALF). lia. Qed.

Lemma half_shift_word a : is_half a -> is_word (a * HALF).
Proof. unfold is_half, is_word. rewrite HALF_sqr. pose proof HALF_pos. nia. Qed.

(** What a carry out of the middle of a product adds to its high word. *)
Lemma mul64_ok l h bl bh : is_half l -> is_half h -> is_half bl -> is_half bh ->
  let '(lo, hi) := mul64 l h bl bh in
  is_word lo /\ is_word hi /\ lo + BASE * hi = (l + HALF * h) * (bl + HALF * bh).
Proof.
  intros Hl Hh Hbl Hbh. unfold mul64. rewrite !ul_half_mul by done. rewrite !L2HBITS_mul.
  pose proof HALF_pos as HP. pose proof HALF_sqr as HS.
  pose proof (half_mul bh l Hbh Hl) as B1. pose proof (half_mul bl h Hbl Hh) as B2.
  pose proof (half_mul bl l Hbl Hl) as B3. pose proof (half_mul bh h Hbh Hh) as B4.
  assert (is_word (bh * l) /\ is_word (bl * h) /\ is_word (bl * l)) as (W1 & W2 & W3)
    by (unfold is_word; nia).
  pose proof (carry_of (bh * l) (bl * h) W1 W2) as C1. pose proof (mask2_word (bh * l + bl * h)) as Wm.
  set (m := mask2 (bh * l + bl * h)) in *. set (k1 := m <? bl * h) in *.
  rewrite HBITS_div by done. rewrite (Z.mod_small 1) by lia.
  pose proof (div_mod_half m) as Dm. pose proof (Z.mod_pos_bound m HALF ltac:(lia)) as Bm.
  pose proof (carry_of (bl * l) (m mod HALF * HALF) W3 (half_shift_word _ Bm)) as C2.
  pose proof (mask2_word (bl * l + m mod HALF * HALF)) as Wl.
  set (lo := mask2 (bl * l + m mod HALF * HALF)) in *. set (k2 := lo <? m mod HALF * HALF) in *.
  set (m0 := m mod HALF) in *. set (m1 := m / HALF) in *. clearbody m lo k1 k2 m0 m1.
  set (hi := bh * h + HALF * Z.b2z k1 + m1 + Z.b2z k2).
  assert (lo + BASE * hi = (l + HALF * h) * (bl + HALF * bh)) as E by (unfold hi; nia).
  assert ((l + HALF * h) * (bl + HALF * bh) <= (BASE - 1) * (BASE - 1)) as Bd.
  { unfold is_half in *. apply Z.mul_le_mono_nonneg; nia. }
  assert (0 <= m1) as H by (clear - Wm Dm Bm HP; unfold is_word in Wm; nia).
  assert (0 <= bh * h + HALF * Z.b2z k1 + m1 + Z.b2z k2 < BASE) as Bh.
  { fold hi. unfold is_word in Wl. assert (0 <= hi) as H0 by (clear - B4 HP H; unfold hi; destruct k1, k2; cbn; lia). clear - E Bd Wl H0; nia. }
  assert ((if k1 then ul (bh * h + 1 * HALF) else bh * h) = bh * h + HALF * Z.b2z k1) as ->.
  { destruct k1; cbn in *; [|lia]. rewrite ul_small; [lia|]. clear - B4 Bh HP H; unfold is_word; destruct k2; cbn in *; lia. }
  rewrite (ul_small (_ + m1)) by (clear - B4 Bh HP H; unfold is_word; destruct k1, k2; cbn in *; lia).
  rewrite ul_add_carry by done. by split.
Qed.

(** The middle product of a square, doubled. *)
Lemma sqr_middle m : 0 <= m < BASE ->
  let hi := Z.shiftr (Z.land m BN_MASK2h1) (BN_BITS4 - 1) in
  let lo := ul (Z.shiftl (Z.land m BN_MASK2l) (BN_BITS4 + 1)) in
  0 <= hi < 2 * HALF /\ is_word lo /\ 2 * HALF * m = lo + BASE * hi.
Proof.
  intros Hm hi lo. destruct BITS2_half as [_ HB].
  set (Q := 2 ^ (BN_BITS4 - 1)).
  assert (HALF = 2 * Q) as HQ.
  { unfold HALF, Q. rewrite <- Z.pow_succ_r by lia. f_equal. lia. }
  assert (0 < Q) by (unfold Q; apply Z.pow_pos_nonneg; lia).
  pose proof HALF_sqr as HS.
  assert (hi = m / Q) as Eh.
  { unfold hi. rewrite Z.shiftr_land.
    replace (Z.shiftr BN_MASK2h1 (BN_BITS4 - 1)) with (Z.ones (BN_BITS4 + 1))
      by (unfold BN_MASK2h1, BN_BITS4; by destruct wide).
    rewrite Z.land_ones, Z.shiftr_div_pow2 by lia. fold Q. apply Z.mod_small.
    replace (2 ^ (BN_BITS4 + 1)) with (2 * HALF) by (unfold HALF; rewrite Z.pow_add_r; lia).
    split; [apply Z.div_pos; lia|]. apply Z.div_lt_upper_bound; nia. }
  assert (lo = m mod Q * (4 * Q)) as El.
  { unfold lo, ul. change (Z.land m BN_MASK2l) with (LBITS m). rewrite LBITS_mod, Z.shiftl_mul_pow2 by lia.
    replace (2 ^ (BN_BITS4 + 1)) with (4 * Q) by (rewrite Z.pow_add_r by lia; fold HALF; lia).
    replace BASE with (Q * (4 * Q)) by nia. rewrite Z.mul_mod_distr_r by lia. f_equal.
    rewrite HQ. rewrite (Z.mul_comm 2 Q), Z.rem_mul_r by lia.
    rewrite (Z.mul_comm Q (_ mod 2)), Z.mod_add by lia. apply Zmod_mod. }
  pose proof (Z.div_mod m Q ltac:(lia)) as D. pose proof (Z.mod_pos_bound m Q ltac:(lia)) as Bm.
  rewrite Eh, El. split; [|split].
  - split; [apply Z.div_pos; lia|]. apply Z.div_lt_upper_bound; nia.
  - unfold is_word. nia.
  - nia.
Qed.

(** Adding a word to a two-word number: [l = (l + x) & BN_MASK2; if (l < x) h++]. *)
Lemma add_low l h x : is_word l -> is_word x -> 0 <= h -> l + BASE * h + x < BASE * BASE ->
  let l' := mask2 (l + x) in
  let h' := if l' <? x then ul (h + 1) else h in
  is_word l' /\ 0 <= h' < BASE /\ l' + BASE * h' = l + BASE * h + x.
Proof.
  intros Hl Hx Hh B l' h'. pose proof (carry_of l x Hl Hx) as E. fold l' in E.
  pose proof (mask2_word (l + x)) as W. fold l' in W. split; [done|].
  assert (0 <= h + Z.b2z (l' <? x) < BASE) as Bh.
  { unfold is_word in *. split; [destruct (l' <? x); cbn; lia|nia]. }
  unfold h'. rewrite ul_add_carry by done. split; [done|nia].
Qed.

Lemma square_bound a w x y : is_word a -> is_word w -> is_word x -> is_word y ->
  0 <= w * a + x + y < BASE * BASE.
Proof.
  unfold is_word. intros. assert (0 <= w * a <= (BASE - 1) * (BASE - 1)); [|nia].
  split; [nia|]. apply Z.mul_le_mono_nonneg; lia.
Qed.

Lemma sqr64_ok a : is_word a ->
  let '(lo, hi) := sqr64 a in is_word lo /\ is_word hi /\ lo + BASE * hi = a * a.
Proof.
  intros Ha. destruct (halves a Ha) as (Hl & Hh & E). unfold sqr64.
  rewrite !ul_half_mul by done.
  set (l := LBITS a) in *. set (h := HBITS a) in *. clearbody l h.
  pose proof (half_mul l h Hl Hh) as B1. pose proof (half_mul l l Hl Hl) as B2.
  pose proof (half_mul h h Hh Hh) as B3. pose proof HALF_sqr as HS. pose proof HALF_pos as HP.
  destruct (sqr_middle (l * h)) as (Bh & Wl & Em); [nia|].
  set (hi := Z.shiftr _ _) in *. set (lo := ul (Z.shiftl _ _)) in *. clearbody hi lo.
  assert (a * a = l * l + 2 * HALF * (l * h) + BASE * (h * h)) as Ea by (rewrite E, HS; ring).
  assert (a * a < BASE * BASE) as Ba by (unfold is_word in Ha; nia).
  assert (0 <= l * l < BASE) as Bl by nia.
  rewrite (ul_small (h * h + hi)) by (unfold is_word in *; nia).
  destruct (add_low (l * l) (h * h + hi) lo) as (W & B & S); [done|done|lia|lia|].
  split; [done|]. split; [done|]. lia.
Qed.

Lemma mul_half_ok w k a : is_word w -> is_word k -> is_word a ->
  let '(r, k') := mul_half (LBITS w) (HBITS w) k a in
  is_word r /\ is_word k' /\ r + BASE * k' = w * a + k.
Proof.
  intros Hw Hk Ha. destruct (halves w Hw) as (W1 & W2 & Ew), (halves a Ha) as (A1 & A2 & Ea).
  unfold mul_half. pose proof (mul64_ok _ _ _ _ A1 A2 W1 W2) as M. rewrite <- Ea, <- Ew in M.
  destruct (mul64 _ _ _ _) as [l h]. destruct M as (Hl & Hh & E).
  pose proof (square_bound a w k 0 Ha Hw Hk is_word_0) as B.
  destruct (add_low l h k) as (Wl & Bh & S); [done|done|unfold is_word in *; lia|lia|].
  cbv zeta in *. replace (mask2 (ul (l + k))) with (mask2 (l + k)) by (rewrite !mask2_mod; unfold ul; by rewrite Zmod_mod).
  name_high h h'.
  rewrite (mask2_mod h'), Z.mod_small by done. split; [done|]. split; [done|]. lia.
Qed.

Lemma mul_add_half_ok w k a r : is_word w -> is_word k -> is_word a -> is_word r ->
  let '(r', k') := mul_add_half (LBITS w) (HBITS w) k a r in
  is_word r' /\ is_word k' /\ r' + BASE * k' = w * a + r + k.
Proof.
  intros Hw Hk Ha Hr. destruct (halves w Hw) as (W1 & W2 & Ew), (halves a Ha) as (A1 & A2 & Ea).
  unfold mul_add_half. pose proof (mul64_ok _ _ _ _ A1 A2 W1 W2) as M. rewrite <- Ea, <- Ew in M.
  destruct (mul64 _ _ _ _) as [l h]. destruct M as (Hl & Hh & E).
  pose proof (square_bound a w k r Ha Hw Hk Hr) as B.
  destruct (add_low l h k) as (Wl & Bh & S); [done|done|unfold is_word in *; lia|unfold is_word in *; lia|].
  cbv zeta in *. name_high h h'.
  set (l' := mask2 (l + k)) in *. clearbody l'.
  destruct (add_low l' h' r) as (Wl' & Bh' & S'); [done|done|lia|lia|].
  cbv zeta in *. name_high h' h2.
  rewrite (mask2_mod h2), Z.mod_small by done. split; [done|]. split; [done|]. lia.
Qed.

Lemma ull_small z : 0 <= z < BASE * BASE -> ull z = z.
Proof. apply Z.mod_small. Qed.

(** The two words of a [BN_ULLONG]. *)
Lemma split_ull t : 0 <= t < BASE * BASE ->
  is_word (Lw t) /\ is_word (Hw t) /\ Lw t + BASE * Hw t = t.
Proof.
  intros H. split; [apply mask2_word|]. split; [apply mask2_word|].
  unfold Lw, Hw. rewrite !mask2_mod, Z.shiftr_div_pow2 by (destruct BITS2_cases; lia). fold BASE.
  pose proof BASE_pos. pose proof (Z.div_mod t BASE).
  rewrite (Z.mod_small (t / BASE)); [lia|]. split; [apply Z.div_pos; lia|].
  apply Z.div_lt_upper_bound; lia.
Qed.

(** The two words of a product, however they are got. *)
Lemma umult_ok a b : is_word a -> is_word b ->
  is_word (ul (a * b)) /\ is_word (BN_UMULT_HIGH a b) /\ ul (a * b) + BASE * BN_UMULT_HIGH a b = a * b /\
  BN_UMULT_LOHI a b = (ul (a * b), BN_UMULT_HIGH a b).
Proof.
  intros Ha Hb. pose proof (square_bound b a 0 0 Hb Ha is_word_0 is_word_0) as B.
  unfold BN_UMULT_LOHI, BN_UMULT_HIGH. rewrite ull_small by lia.
  destruct (split_ull (a * b)) as (W1 & W2 & E); [lia|]. unfold Lw, Hw in *. rewrite !mask2_mod in *. done.
Qed.

(** A sum and its carry, which is seen on either summand. *)
Lemma ul_carry a b : is_word a -> is_word b ->
  is_word (ul (a + b)) /\ a + b = ul (a + b) + BASE * Z.b2z (ul (a + b) <? b) /\
  a + b = ul (a + b) + BASE * Z.b2z (ul (a + b) <? a).
Proof.
  intros Ha Hb. split; [apply ul_word|]. pose proof (carry_of a b Ha Hb) as C1. pose proof (carry_of b a Hb Ha) as C2.
  rewrite mask2_mod in *. fold (ul (a + b)) in C1. rewrite (Z.add_comm b a) in C2. fold (ul (a + b)) in C2. done.
Qed.

Lemma mul_umult_ok w k a : is_word w -> is_word k -> is_word a ->
  mul_high w k a = mul_lohi w k a /\
  let '(r, k') := mul_lohi w k a in is_word r /\ is_word k' /\ r + BASE * k' = w * a + k.
Proof.
  intros Hw Hk Ha. destruct (umult_ok w a Hw Ha) as (W1 & W2 & E & EL). unfold mul_high, mul_lohi. rewrite EL.
  split; [done|]. pose proof (square_bound a w k 0 Ha Hw Hk is_word_0) as B.
  set (low := ul (w * a)) in *. set (high := BN_UMULT_HIGH w a) in *. clearbody low high.
  destruct (ul_carry low k W1 Hk) as (W & _ & C). set (ret := ul (low + k)) in *. clearbody ret.
  assert (is_word (high + Z.b2z (ret <? low))) as Wc.
  { unfold is_word in *. pose proof BASE_pos. destruct (ret <? low); cbn in *; nia. }
  rewrite ul_small by done. split; [done|]. split; [done|]. lia.
Qed.

Lemma mul_add_umult_ok w k a r : is_word w -> is_word k -> is_word a -> is_word r ->
  mul_add_high w k a r = mul_add_lohi w k a r /\
  let '(r', k') := mul_add_lohi w k a r in is_word r' /\ is_word k' /\ r' + BASE * k' = w * a + r + k.
Proof.
  intros Hw Hk Ha Hr. destruct (umult_ok w a Hw Ha) as (W1 & W2 & E & EL). unfold mul_add_high, mul_add_lohi. rewrite EL.
  split; [done|]. pose proof (square_bound a w k r Ha Hw Hk Hr) as B.
  set (low := ul (w * a)) in *. set (high := BN_UMULT_HIGH w a) in *. clearbody low high.
  destruct (ul_carry r k Hr Hk) as (W & C & _). set (r1 := ul (r + k)) in *. set (c1 := Z.b2z (r1 <? k)) in *.
  assert (0 <= c1 <= 1) as B1 by (unfold c1; destruct (r1 <? k); cbn; lia). clearbody r1 c1.
  destruct (ul_carry r1 low W W1) as (W' & C' & _). set (r2 := ul (r1 + low)) in *. set (c2 := Z.b2z (r2 <? low)) in *.
  assert (0 <= c2 <= 1) as B2 by (unfold c2; destruct (r2 <? low); cbn; lia). clearbody r2 c2.
  assert (0 <= c1 + high + c2 < BASE) as Wc by (unfold is_word in *; pose proof BASE_pos; nia).
  rewrite (ul_small (c1 + high)) by (unfold is_word in *; lia). rewrite ul_small by done.
  split; [done|]. split; [done|]. lia.
Qed.

(** ** In every build *)

Lemma mul_word_ok w k a : is_word w -> is_word k -> is_word a ->
  let '(r, k') := mul w k a in is_word r /\ is_word k' /\ r + BASE * k' = w * a + k.
Proof.
  intros Hw Hk Ha. unfold mul. destruct llong; [|destruct (mul_umult_ok w k a Hw Hk Ha) as [E M], umult; [by apply mul_half_ok|exact M|by rewrite E]].
  unfold mul_llong. pose proof (square_bound a w k 0 Ha Hw Hk is_word_0).
  pose proof (square_bound a w 0 0 Ha Hw is_word_0 is_word_0).
  rewrite !ull_small by (rewrite ?ull_small by lia; lia). apply split_ull. lia.
Qed.

Lemma mul_add_ok w k a r : is_word w -> is_word k -> is_word a -> is_word r ->
  let '(r', k') := mul_add w k a r in is_word r' /\ is_word k' /\ r' + BASE * k' = w * a + r + k.
Proof.
  intros Hw Hk Ha Hr. unfold mul_add. destruct llong.
  2: { destruct (mul_add_umult_ok w k a r Hw Hk Ha Hr) as [E M], umult; [by apply mul_add_half_ok|exact M|by rewrite E]. }
  unfold mul_add_llong. pose proof (square_bound a w r k Ha Hw Hr Hk).
  pose proof (square_bound a w r 0 Ha Hw Hr is_word_0).
  pose proof (square_bound a w 0 0 Ha Hw is_word_0 is_word_0).
  rewrite (ull_small (w * a)), (ull_small (w * a + r)), ull_small by lia. apply split_ull. lia.
Qed.

Lemma sqr_ok a : is_word a ->
  let '(lo, hi) := sqr a in is_word lo /\ is_word hi /\ lo + BASE * hi = a * a.
Proof.
  intros Ha. unfold sqr. destruct llong.
  2: { destruct (umult_ok a a Ha Ha) as (W1 & W2 & E & EL), umult; [by apply sqr64_ok| |done].
    unfold sqr_lohi. by rewrite EL. }
  unfold sqr_llong. pose proof (square_bound a a 0 0 Ha Ha is_word_0 is_word_0).
  rewrite ull_small by lia. apply split_ull. lia.
Qed.

Definition is_bit (k : Z) : Prop := 0 <= k <= 1.

Lemma is_bit_0 : is_bit 0.
Proof. unfold is_bit. lia. Qed.

Lemma add_step_ok k a b : is_bit k -> is_word a -> is_word b ->
  let '(l, k') := add_step k a b in is_word l /\ is_bit k' /\ l + BASE * k' = a + b + k.
Proof.
  intros Hk Ha Hb. pose proof BASE_pos. unfold add_step, is_bit in *. destruct llong.
  - unfold is_word in Ha, Hb. rewrite (ull_small (a + b)), ull_small by nia.
    destruct (split_ull (k + (a + b))) as (W & _ & E); [nia|]. unfold Hw, Lw in *.
    rewrite mask2_mod in *. rewrite Z.shiftr_div_pow2 in * by (destruct BITS2_cases; lia). fold BASE in *.
    change (Z.land (ul (k + (a + b))) BN_MASK2) with (mask2 (k + (a + b))). rewrite mask2_mod.
    pose proof (Z.div_mod (k + (a + b)) BASE). split; [done|].
    assert (0 <= (k + (a + b)) / BASE < 2); [|lia].
    split; [apply Z.div_pos; lia|]. apply Z.div_lt_upper_bound; lia.
  - assert (is_word k) as Wk by (unfold is_word; lia).
    pose proof (carry_of a k Ha Wk) as C1. pose proof (mask2_word (a + k)) as W1.
    set (t := mask2 (a + k)) in *. pose proof (carry_of b t Hb W1) as C2.
    rewrite (Z.add_comm b t) in C2. pose proof (mask2_word (t + b)) as W2.
    set (l := mask2 (t + b)) in *. clearbody t l. split; [done|].
    unfold is_word in *. destruct (t <? k), (l <? t); cbn in *; lia.
Qed.

Lemma sub_step_ok k a b : is_bit k -> is_word a -> is_word b ->
  let '(l, k') := sub_step k a b in is_word l /\ is_bit k' /\ l - BASE * k' = a - b - k.
Proof.
  intros Hk Ha Hb. unfold sub_step. split; [apply mask2_word|]. rewrite mask2_mod.
  unfold is_bit, is_word in *. pose proof BASE_pos.
  pose proof (Z.div_mod (a - b - k) BASE). pose proof (Z.mod_pos_bound (a - b - k) BASE).
  set (q := (a - b - k) / BASE) in *. set (m := (a - b - k) mod BASE) in *. clearbody q m.
  assert (k = 0 \/ k = 1) as Ek by lia.
  assert (q = -1 \/ q = 0) as [-> | ->] by nia; destruct Ek as [-> | ->];
    (destruct (Z.eqb_spec a b); cbn; [|destruct (Z.ltb_spec a b); cbn]; lia).
Qed.
End macros.

(** ** Loops *)

(** The words of a region are words. *)
Definition region {c : Build} (s : mem) (p : ptr) (n : nat) : Prop := within s p n /\ words (rd s p n).

Section loops.
Context {c : Build}.
Implicit Types (s : mem) (n : Z).

(** A step that is linear up to a carry or borrow makes a loop that is. *)
Lemma stream_linear (P : Z -> Prop) (x y sg : Z) f :
  (forall k a b, P k -> is_word a -> is_word b ->
    let '(v, k') := f k a b in is_word v /\ P k' /\ v + sg * (BASE * k') = x * a + y * b + sg * k) ->
  forall A B k, words A -> words B -> length A = length B -> P k ->
  let '(l, k') := stream f k A B in
  words l /\ length l = length A /\ P k' /\
  eval l + sg * (weight (length A) * k') = x * eval A + y * eval B + sg * k.
Proof.
  intros Hf A. induction A as [|a A IH]; intros [|b B] k HA HB L Hk; try done; cbn [stream].
  { rewrite weight_0. cbn. repeat split; [constructor|done|lia]. }
  apply Forall_cons in HA as [Ha HA], HB as [Hb HB].
  specialize (Hf k a b Hk Ha Hb). destruct (f k a b) as [v k1]. destruct Hf as (Hv & Hk1 & E).
  specialize (IH B k1 HA HB ltac:(cbn in L; lia) Hk1). destruct (stream f k1 A B) as [l k2].
  destruct IH as (Hl & Ll & Hk2 & E2). cbn [eval length]. rewrite weight_S.
  split; [by constructor|]. split; [lia|]. split; [done|].
  replace (v + BASE * eval l + sg * (BASE * weight (length A) * k2))
    with (v + BASE * (eval l + sg * (weight (length A) * k2))) by ring.
  rewrite E2. replace (v + BASE * (x * eval A + y * eval B + sg * k1))
    with (v + sg * (BASE * k1) + BASE * (x * eval A + y * eval B)) by ring. rewrite E. ring.
Qed.

(** What the loops over words do: the words [l] at [r], and a carry. *)
Definition wrote s (r : ptr) (n : nat) (P : Z -> list Z -> Prop) (k : Z) (s' : mem) : Prop :=
  exists l, s' = wr r l s /\ length l = n /\ words l /\ P k l.

Lemma runs_linear_for P x y sg f (body : Z -> Z -> prog Z) r a b (n : nat) s k :
  (forall k a b, P k -> is_word a -> is_word b ->
    let '(v, k') := f k a b in is_word v /\ P k' /\ v + sg * (BASE * k') = x * a + y * b + sg * k) ->
  P k -> within s r n -> region s a n -> region s b n -> ahead r a n -> ahead r b n ->
  (forall i k u v t Q, runs (ldw a i) t (fun x t' => x = u /\ t' = t) ->
     runs (ldw b i) t (fun x t' => x = v /\ t' = t) ->
     runs (stw r i (f k u v).1) t (fun _ t' => Q (f k u v).2 t') -> runs (body i k) t Q) ->
  runs (for_ n 0 body k) s (wrote s r n (fun k' l => P k' /\
    eval l + sg * (weight n * k') = x * eval (rd s a n) + y * eval (rd s b n) + sg * k)).
Proof.
  intros Hf Hk Hr [Ha Wa] [Hb Wb] Aa Ab Hbody.
  pose proof (length_rd _ _ _ Ha) as La. pose proof (length_rd _ _ _ Hb) as Lb.
  eapply runs_mono; [by apply (runs_stream f _ r a b)|]. intros k' s' (l & E & ->).
  pose proof (stream_linear P x y sg f Hf _ _ k Wa Wb ltac:(congruence) Hk) as S.
  rewrite E, La in S. destruct S as (Wl & Ll & Pk & Ev). exists l. eauto 6.
Qed.

Lemma runs_linear P x y sg f (body : Z -> Z -> prog Z) r a b n s k :
  (forall k a b, P k -> is_word a -> is_word b ->
    let '(v, k') := f k a b in is_word v /\ P k' /\ v + sg * (BASE * k') = x * a + y * b + sg * k) ->
  P k -> within s r (Z.to_nat n) -> region s a (Z.to_nat n) -> region s b (Z.to_nat n) ->
  ahead r a (Z.to_nat n) -> ahead r b (Z.to_nat n) -> 0 <= n ->
  (forall i k u v t Q, runs (ldw a i) t (fun x t' => x = u /\ t' = t) ->
     runs (ldw b i) t (fun x t' => x = v /\ t' = t) ->
     runs (stw r i (f k u v).1) t (fun _ t' => Q (f k u v).2 t') -> runs (body i k) t Q) ->
  runs (unrolled n body k) s (wrote s r (Z.to_nat n) (fun k' l => P k' /\
    eval l + sg * (weight (Z.to_nat n) * k') =
      x * eval (rd s a (Z.to_nat n)) + y * eval (rd s b (Z.to_nat n)) + sg * k)).
Proof. intros. apply runs_unrolled; [done|]. by apply (runs_linear_for P x y sg f _ r a b). Qed.

(** The reads of a body, given what they return. *)
Ltac reads :=
  repeat match goal with
         | H : runs (ldw ?p ?i) ?t (fun x t' => x = _ /\ t' = _) |- runs (ldw ?p ?i ≫= _) ?t _ =>
             apply runs_bind; eapply runs_mono; [exact H|]; intros ? ? [-> ->]
         end.

Lemma region_nonpos s p n : n <= 0 -> rd s p (Z.to_nat n) = [].
Proof. intros H. unfold rd. destruct (objs s !! fst p); [|done]. by rewrite (Z2Nat.nonpos n). Qed.

Lemma wrote_nil s r n (P : Z -> list Z -> Prop) k : n <= 0 -> P k [] -> wrote s r (Z.to_nat n) P k s.
Proof.
  intros Hn HP. exists []. rewrite wr_nil, (Z2Nat.nonpos n) by done.
  repeat split; [constructor|done].
Qed.

Section two.
Context (s : mem) (r a : ptr) (n : Z).
Let N := Z.to_nat n.
Hypothesis Hr : within s r N.
Hypothesis Ha : region s a N.
Hypothesis Aa : ahead r a N.

Lemma bn_mul_words_ok w : is_word w ->
  runs (bn_mul_words r a n w) s (wrote s r N (fun k l => is_word k /\
    eval l + weight N * k = w * eval (rd s a N))).
Proof.
  intros Hw. unfold bn_mul_words. unfold N in *. destruct (Z.leb_spec n 0).
  { apply runs_ret, wrote_nil; [done|]. rewrite region_nonpos by done. cbn. split; [apply is_word_0|lia]. }
  eapply runs_mono; [apply (runs_linear is_word w 0 1 (fun k a _ => mul w k a) _ r a a); try done; [|apply is_word_0|lia|]|].
  - intros k u v Hk Hu _. pose proof (mul_word_ok w k u Hw Hk Hu) as M.
    destruct (mul w k u). destruct M as (? & ? & ?). split_and!; try done; lia.
  - intros i k u v t Q R1 _ W. reads. destruct (mul w k u) as [l k'].
    apply runs_bind. eapply runs_mono; [exact W|]. intros ? ? ?. by apply runs_ret.
  - intros k s' (l & -> & L & Wl & Pk & E). exists l. destruct Pk; split_and!; try done; lia.
Qed.

Lemma bn_mul_add_words_ok w : is_word w -> region s r N ->
  runs (bn_mul_add_words r a n w) s (wrote s r N (fun k l => is_word k /\
    eval l + weight N * k = w * eval (rd s a N) + eval (rd s r N))).
Proof.
  intros Hw Rr. unfold bn_mul_add_words. unfold N in *. destruct (Z.leb_spec n 0).
  { apply runs_ret, wrote_nil; [done|]. rewrite !region_nonpos by done. cbn. split; [apply is_word_0|lia]. }
  eapply runs_mono; [apply (runs_linear is_word w 1 1 (fun k a r => mul_add w k a r) _ r a r); try done;
    [|apply is_word_0|right; left; lia|lia|]|].
  - intros k u v Hk Hu Hv. pose proof (mul_add_ok w k u v Hw Hk Hu Hv) as M.
    destruct (mul_add w k u v). destruct M as (? & ? & ?). split_and!; try done; lia.
  - intros i k u v t Q R1 R2 W. reads. destruct (mul_add w k u v) as [l k'].
    apply runs_bind. eapply runs_mono; [exact W|]. intros ? ? ?. by apply runs_ret.
  - intros k s' (l & -> & L & Wl & Pk & E). exists l. destruct Pk; split_and!; try done; lia.
Qed.

Context (b : ptr).
Hypothesis Hb : region s b N.
Hypothesis Ab : ahead r b N.

Lemma bn_add_words_ok :
  runs (bn_add_words r a b n) s (wrote s r N (fun k l => is_bit k /\
    eval l + weight N * k = eval (rd s a N) + eval (rd s b N))).
Proof.
  unfold bn_add_words. unfold N in *. destruct (Z.leb_spec n 0).
  { apply runs_ret, wrote_nil; [done|]. rewrite !region_nonpos by done. cbn. split; [apply is_bit_0|lia]. }
  apply runs_bind.
  eapply runs_mono; [apply (runs_linear is_bit 1 1 1 add_step _ r a b); try done; [|lia|]|].
  - intros k u v Hk Hu Hv. pose proof (add_step_ok k u v Hk Hu Hv) as M.
    destruct (add_step k u v). destruct M as (? & ? & ?). split_and!; try done; lia.
  - intros i k u v t Q R1 R2 W. reads. destruct (add_step k u v) as [l k'].
    apply runs_bind. eapply runs_mono; [exact W|]. intros ? ? ?. by apply runs_ret.
  - intros k s' (l & -> & L & Wl & Pk & E). apply runs_ret. unfold is_bit in Pk.
    rewrite ul_small by (unfold is_word; pose proof BASE_pos; lia).
    exists l. split_and!; try done; lia.
Qed.

Lemma bn_sub_words_ok :
  runs (bn_sub_words r a b n) s (wrote s r N (fun k l => is_bit k /\
    eval l - weight N * k = eval (rd s a N) - eval (rd s b N))).
Proof.
  unfold bn_sub_words. unfold N in *. destruct (Z.leb_spec n 0).
  { apply runs_ret, wrote_nil; [done|]. rewrite !region_nonpos by done. cbn. split; [apply is_bit_0|lia]. }
  eapply runs_mono; [apply (runs_linear is_bit 1 (-1) (-1) sub_step _ r a b); try done; [|lia|]|].
  - intros k u v Hk Hu Hv. pose proof (sub_step_ok k u v Hk Hu Hv) as M.
    destruct (sub_step k u v). destruct M as (? & ? & ?). split_and!; try done; lia.
  - intros i k u v t Q R1 R2 W. reads. destruct (sub_step k u v) as [l k'].
    apply runs_bind. eapply runs_mono; [exact W|]. intros ? ? ?. by apply runs_ret.
  - intros k s' (l & -> & L & Wl & Pk & E). exists l. split_and!; try done; lia.
Qed.
End two.
End loops.
