(* ===== verification/BnDivWords.v ===== *)
(** * Big numbers: the quotient of two words by one

    [bn_div_words] of crypto/bn/bn_asm.c: over a double-width type, and in
    portable C by the schoolbook method on half words.  The portable variant is
    proved to be the exact quotient; its inner loop makes at most three turns. *)

From S2P Require Import Prelude Bytes BnBase BnMem BnWords.

Section div.
Context {c : Build}.

(** [for (;;) { t = h - th; if (...) break; q--; th -= dh; tl -= dl; }] *)
Fixpoint div_inner (fuel : nat) (h l dh dl q th tl : Z) : outcome (Z * Z * Z) :=
  match fuel with
  | O => NoFuel
  | S k =>
      let t := ul (h - th) in
      if negb (Z.land t BN_MASK2h =? 0) ||
         (tl <=? Z.lor (ul (Z.shiftl t BN_BITS4)) (Z.shiftr (Z.land l BN_MASK2h) BN_BITS4))
      then Ret (q, th, tl)
      else div_inner k h l dh dl (ul (q - 1)) (ul (th - dh)) (ul (tl - dl))
  end.

(** A turn of the outer loop up to [if (--count == 0)]: [q], [h] and [l]. *)
Definition div_round (h l d dh dl : Z) : outcome (Z * Z * Z) :=
  let q := if Z.shiftr h BN_BITS4 =? dh then BN_MASK2l else h / dh in
  let th := ul (q * dh) in
  let tl := ul (dl * q) in
  '(q, th, tl) ← div_inner 3 h l dh dl q th tl;
  let t := Z.shiftr tl BN_BITS4 in
  let tl := Z.land (ul (Z.shiftl tl BN_BITS4)) BN_MASK2h in
  let th := ul (th + t) in
  let th := if l <? tl then ul (th + 1) else th in
  let l := ul (l - tl) in
  let '(h, q) := if h <? th then (ul (h + d), ul (q - 1)) else (h, q) in
  let h := ul (h - th) in
  Ret (q, h, l).

Definition div_words_portable (h l d : Z) : outcome Z :=
  if d =? 0 then Ret BN_MASK2
  else
    let i := BN_BITS2 - BN_num_bits_word d in
    let h := if d <=? h then ul (h - d) else h in
    let '(h, l, d) :=
      if negb (i =? 0)
      then (Z.lor (ul (Z.shiftl h i)) (Z.shiftr l (BN_BITS2 - i)), ul (Z.shiftl l i), ul (Z.shiftl d i))
      else (h, l, d) in
    let dh := Z.shiftr (Z.land d BN_MASK2h) BN_BITS4 in
    let dl := Z.land d BN_MASK2l in
    '(q, h, l) ← div_round h l d dh dl;
    let ret := ul (Z.shiftl q BN_BITS4) in
    let h := mask2 (Z.lor (ul (Z.shiftl h BN_BITS4)) (Z.shiftr l BN_BITS4)) in
    let l := ul (Z.shiftl (Z.land l BN_MASK2l) BN_BITS4) in
    '(q, h, l) ← div_round h l d dh dl;
    Ret (Z.lor ret q).

Definition bn_div_words (h l d : Z) : outcome Z :=
  if llong && div2w then
    if d =? 0 then Fault else Ret (ul (Z.lor (ull (Z.shiftl h BN_BITS2)) l / d))
  else div_words_portable h l d.

(** ** Half words *)

Lemma MASK2h_high z : Z.shiftr (Z.land z BN_MASK2h) BN_BITS4 = HBITS z.
Proof.
  unfold HBITS. rewrite Z.shiftr_land. f_equal. unfold BN_MASK2h, BN_BITS4, BN_MASK2l. by destruct wide.
Qed.

Lemma MASK2h_mul z : is_word z -> Z.land z BN_MASK2h = HBITS z * HALF.
Proof.
  intros Hz. rewrite <- MASK2h_high. destruct BITS2_half as [_ HB].
  unfold HALF. rewrite <- Z.shiftl_mul_pow2 by lia. rewrite Z.shiftr_land, Z.shiftl_land.
  apply Z.bits_inj'. intros i Hi. rewrite !Z.land_spec.
  destruct (Z.testbit (Z.shiftl (Z.shiftr BN_MASK2h BN_BITS4) BN_BITS4) i) eqn:E.
  - assert (Z.testbit BN_MASK2h i = true) as ->.
    { rewrite <- E. f_equal. unfold BN_MASK2h, BN_BITS4. by destruct wide. }
    rewrite Z.shiftl_spec in * by done. destruct (Z.lt_ge_cases i BN_BITS4) as [L|G].
    + rewrite (Z.testbit_neg_r _ (i - BN_BITS4)) in E by lia. done.
    + rewrite Z.shiftr_spec by lia. do 2 f_equal. lia.
  - assert (Z.testbit BN_MASK2h i = false) as ->.
    { rewrite <- E. f_equal. unfold BN_MASK2h, BN_BITS4. by destruct wide. }
    by rewrite !andb_false_r.
Qed.

Lemma shl_half a : ul (Z.shiftl a BN_BITS4) = a mod HALF * HALF.
Proof. rewrite <- L2HBITS_mul. unfold L2HBITS. rewrite mask2_mod. done. Qed.

Lemma shr_half a : is_word a -> Z.shiftr a BN_BITS4 = HBITS a.
Proof.
  intros H. rewrite HBITS_div, Z.shiftr_div_pow2 by (done || destruct BITS2_half; lia). done.
Qed.

Lemma lor_half a b : is_half a -> is_half b -> Z.lor (a * HALF) b = a * HALF + b.
Proof.
  intros Ha Hb. apply lor_low; [destruct BITS2_half; lia|]. done.
Qed.

Lemma HBITS_halves a b : is_half a -> is_half b -> HBITS (a * HALF + b) = a.
Proof.
  intros Ha Hb. pose proof HALF_pos as HP. unfold is_half in *.
  rewrite HBITS_div by (unfold is_word; rewrite HALF_sqr; nia).
  symmetry. apply Z.div_unique with b; lia.
Qed.

Lemma HBITS_shift a : is_half a -> HBITS (a * HALF) = a.
Proof.
  intros Ha. rewrite <- (Z.add_0_r (a * HALF)). apply HBITS_halves; [done|].
  unfold is_half in *. lia.
Qed.

Lemma LBITS_halves a b : is_half b -> LBITS (a * HALF + b) = b.
Proof.
  intros Hb. unfold is_half in *. rewrite LBITS_mod. symmetry. apply Z.mod_unique with a; lia.
Qed.

(** ** One turn

    [d = dh * HALF + dl] has its high bit set, [h < d], and [Q] is the quotient
    of [h] and the high half of [l] by [d]. *)

Section round.
Context (h l dh dl : Z).
Let d := dh * HALF + dl.
Hypothesis Hdh : is_half dh.
Hypothesis Hdl : is_half dl.
Hypothesis Hnorm : HALF <= 2 * dh.
Hypothesis Hh : 0 <= h < d.
Hypothesis Hl : is_word l.
Let X := h * HALF + HBITS l.
Let Q := X / d.

Lemma d_pos : 0 < d.
Proof. unfold d, is_half in *. pose proof HALF_pos. nia. Qed.

Lemma Q_spec : 0 <= Q < HALF /\ Q * d <= X < Q * d + d.
Proof.
  pose proof d_pos as Hd. destruct (halves l Hl) as (_ & H1 & _). unfold is_half in H1.
  pose proof (Z.div_mod X d ltac:(lia)) as D. pose proof (Z.mod_pos_bound X d Hd).
  fold Q in D |- *. split; [|lia]. split; [apply Z.div_pos; unfold X; pose proof HALF_pos; nia|].
  apply Z.div_lt_upper_bound; [done|]. unfold X. pose proof HALF_pos. nia.
Qed.

Lemma round_word z : 0 <= z <= h -> is_word z.
Proof.
  intros Hz. unfold is_word. rewrite HALF_sqr. unfold d, is_half in *. nia.
Qed.

(** The test of the inner loop is exact. *)
Lemma inner_test q : 0 <= q < HALF -> q * dh <= h ->
  negb (Z.land (ul (h - q * dh)) BN_MASK2h =? 0) ||
    (q * dl <=? Z.lor (ul (Z.shiftl (ul (h - q * dh)) BN_BITS4)) (Z.shiftr (Z.land l BN_MASK2h) BN_BITS4)) =
  (q <=? Q).
Proof.
  intros Hq Ht. destruct Q_spec as [HQ E]. pose proof HALF_pos as HP. pose proof d_pos as Hd.
  assert (0 <= q * dh) by (unfold is_half in *; nia).
  assert (is_word (h - q * dh)) as Wt by (apply round_word; lia).
  rewrite (ul_small _ Wt), MASK2h_high, shl_half. set (t := h - q * dh) in *.
  destruct (halves l Hl) as (_ & H1 & _).
  rewrite lor_half by (done || apply Z.mod_pos_bound; lia).
  rewrite MASK2h_mul, HBITS_div by done.
  assert ((q <=? Q) = (q * d <=? X)) as ->.
  { destruct (Z.leb_spec q Q), (Z.leb_spec (q * d) X); try done; nia. }
  assert (q * d = q * dh * HALF + q * dl) as Ed by (unfold d; ring).
  destruct (Z.lt_ge_cases t HALF) as [L|G].
  - rewrite (Z.div_small t), (Z.mod_small t) by lia. cbn [negb Z.mul Z.eqb orb].
    unfold X. rewrite Ed. destruct (Z.leb_spec (q * dl) (t * HALF + HBITS l)),
      (Z.leb_spec (q * dh * HALF + q * dl) (h * HALF + HBITS l)); try done; unfold t in *; lia.
  - assert (0 < t / HALF) by (apply Z.div_str_pos; lia).
    assert (t / HALF * HALF =? 0 = false) as -> by (apply Z.eqb_neq; nia). cbn [negb orb].
    symmetry. apply Z.leb_le. unfold X, t, is_half in *. rewrite Ed.
    assert (q * dl <= HALF * HALF) by nia. nia.
Qed.

Lemma div_inner_S k q th tl : div_inner (S k) h l dh dl q th tl =
  (if negb (Z.land (ul (h - th)) BN_MASK2h =? 0) ||
      (tl <=? Z.lor (ul (Z.shiftl (ul (h - th)) BN_BITS4)) (Z.shiftr (Z.land l BN_MASK2h) BN_BITS4))
   then Ret (q, th, tl)
   else div_inner k h l dh dl (ul (q - 1)) (ul (th - dh)) (ul (tl - dl))).
Proof. done. Qed.

Lemma div_inner_ok k : forall q, Q <= q < HALF -> q <= Q + Z.of_nat k -> q * dh <= h ->
  div_inner (S k) h l dh dl q (q * dh) (dl * q) = Ret (Q, Q * dh, dl * Q).
Proof.
  destruct Q_spec as [HQ E].
  induction k as [|k IH]; intros q Hq Hk Ht; rewrite div_inner_S, (Z.mul_comm dl q), inner_test by lia.
  - replace q with Q by lia. by rewrite Z.leb_refl, (Z.mul_comm dl).
  - destruct (Z.leb_spec q Q) as [L|G].
    + replace q with Q by lia. by rewrite (Z.mul_comm dl).
    + assert (is_word (q - 1) /\ is_word ((q - 1) * dh) /\ is_word ((q - 1) * dl)) as (W1 & W2 & W3).
      { unfold is_word. rewrite HALF_sqr. pose proof HALF_pos. unfold is_half in *. nia. }
      replace (q * dh - dh) with ((q - 1) * dh) by ring. replace (q * dl - dl) with ((q - 1) * dl) by ring.
      rewrite (ul_small _ W1), (ul_small _ W2), (ul_small _ W3), (Z.mul_comm (q - 1) dl).
      apply IH; [lia|lia|]. unfold is_half in *. nia.
Qed.

(** The estimate is at most two too large (Knuth). *)
Lemma estimate_ok : let q := if Z.shiftr h BN_BITS4 =? dh then BN_MASK2l else h / dh in
  Q <= q < HALF /\ q <= Q + 2 /\ q * dh <= h.
Proof.
  intros q. pose proof HALF_pos as HP. pose proof d_pos as Hd. destruct Q_spec as [HQ E].
  destruct (halves l Hl) as (_ & H1 & _).
  assert (is_word h) as Wh by (apply round_word; lia).
  assert (0 < dh) as Hp by lia.
  assert (h / HALF <= dh) as Hle by (apply Z.lt_succ_r, Z.div_lt_upper_bound; unfold d, is_half in *; nia).
  assert (Q <= q < HALF /\ q * dh <= h) as (B & Bh).
  { unfold q. rewrite shr_half, HBITS_div by done. destruct (Z.eqb_spec (h / HALF) dh) as [Eq|N].
    - rewrite MASK2l_ones, Z.ones_equiv. fold HALF. pose proof (Z.mul_div_le h HALF). nia.
    - assert (h < dh * HALF) as B.
      { destruct (Z.lt_ge_cases h (dh * HALF)); [done|]. exfalso. apply N.
        assert (dh <= h / HALF); [|lia]. apply Z.div_le_lower_bound; lia. }
      split; [|pose proof (Z.mul_div_le h dh); lia]. split; [|apply Z.div_lt_upper_bound; lia].
      assert (Q * dh * HALF < (h + 1) * HALF) by (unfold X, d, is_half in *; nia).
      apply Z.div_le_lower_bound; [lia|]. nia. }
  split; [done|]. split; [|done].
  destruct (Z.lt_ge_cases q 2); [lia|].
  assert ((q - 2) * d <= X) as Hx.
  { unfold X, d, is_half in *. nia. }
  assert (q - 2 <= Q); [|lia]. unfold Q. apply Z.div_le_lower_bound; lia.
Qed.

(** The quotient and what remains. *)
Lemma div_round_ok : exists h' l', div_round h l d dh dl = Ret (Q, h', l') /\
  is_half h' /\ is_word l' /\ h' * BASE + l' = (X - Q * d) * HALF + LBITS l.
Proof.
  destruct estimate_ok as (B & B2 & Bh). cbv zeta in *. unfold div_round.
  set (q0 := if _ =? _ then _ else _) in *. clearbody q0.
  pose proof HALF_pos as HP. pose proof HALF_sqr as HS. pose proof d_pos as Hd. destruct Q_spec as [HQ E].
  destruct (halves l Hl) as (L0 & L1 & EL).
  assert (is_half q0) as Hq0 by (unfold is_half; lia).
  rewrite !ul_half_mul by done. rewrite div_inner_ok by lia. cbn [mbind outcome_bind].
  assert (is_half Q) as HQh by done.
  assert (is_word (dl * Q)) as Wt by (pose proof (half_mul dl Q Hdl HQh); unfold is_word; nia).
  rewrite shr_half by done. destruct (halves _ Wt) as (T0 & T1 & ET).
  rewrite shl_half, <- LBITS_mod.
  assert (is_word (LBITS (dl * Q) * HALF)) as Wt0 by (by apply half_shift_word).
  rewrite MASK2h_mul, HBITS_shift by done.
  set (tl := LBITS (dl * Q)) in *. set (tt := HBITS (dl * Q)) in *.
  assert (h * BASE + l - (Q * dh + tt) * BASE - tl * HALF = (X - Q * d) * HALF + LBITS l) as EV.
  { unfold X, d. rewrite HS. nia. }
  set (R := X - Q * d) in *. assert (0 <= R < d) as HR by (unfold R; lia).
  assert (d < HALF * HALF) as Bd by (unfold d, is_half in *; nia).
  unfold is_half in *. unfold is_word in *.
  assert (0 <= Q * dh) as Hqd by nia.
  assert (0 <= h - (Q * dh + tt) - Z.b2z (l <? tl * HALF)) as Hno.
  { destruct (Z.ltb_spec l (tl * HALF)); cbn; nia. }
  rewrite (ul_small (Q * dh + tt)) by (unfold is_word; destruct (l <? tl * HALF); cbn in *; lia).
  rewrite ul_add_carry by (unfold is_word; destruct (l <? tl * HALF); cbn in *; lia).
  destruct (Z.ltb_spec h (Q * dh + tt + Z.b2z (l <? tl * HALF))) as [?|_]; [lia|].
  set (h' := ul (h - _)). set (l' := ul (l - _)).
  assert (h' = h - (Q * dh + tt + Z.b2z (l <? tl * HALF))) as Eh by (apply ul_small; unfold is_word; destruct (l <? tl * HALF); cbn in *; lia).
  assert (l' = l - tl * HALF + BASE * Z.b2z (l <? tl * HALF)) as El.
  { unfold l', ul. destruct (Z.ltb_spec l (tl * HALF)); cbn [Z.b2z].
    - symmetry. apply Z.mod_unique with (-1); lia.
    - rewrite Z.mod_small; lia. }
  assert (h' * BASE + l' = R * HALF + LBITS l) as EE by (rewrite Eh, El; lia).
  assert (0 <= l' < BASE) as Wl' by apply ul_word.
  exists h', l'. split; [done|]. split; [|split; [done|done]].
  assert (0 <= h') as H0 by (rewrite Eh; lia). split; [done|].
  assert (R * HALF <= (BASE - 1) * HALF) as B1 by (apply Z.mul_le_mono_nonneg_r; lia).
  destruct (Z.lt_ge_cases h' HALF) as [|G]; [done|exfalso].
  assert (HALF * BASE <= h' * BASE) as B3 by (apply Z.mul_le_mono_nonneg_r; lia).
  clear - EE B1 B3 L0 Wl'. lia.
Qed.
End round.

(** ** Both turns *)

(** The part of [div_words_portable] from the normalised numbers on. *)
Definition div_two_turns (h l d : Z) : outcome Z :=
  let dh := Z.shiftr (Z.land d BN_MASK2h) BN_BITS4 in
  let dl := Z.land d BN_MASK2l in
  '(q, h, l) ← div_round h l d dh dl;
  let ret := ul (Z.shiftl q BN_BITS4) in
  let h := mask2 (Z.lor (ul (Z.shiftl h BN_BITS4)) (Z.shiftr l BN_BITS4)) in
  let l := ul (Z.shiftl (Z.land l BN_MASK2l) BN_BITS4) in
  '(q, h, l) ← div_round h l d dh dl;
  Ret (Z.lor ret q).

Lemma div_two_turns_ok h l d : is_word l -> is_word d -> BASE <= 2 * d -> 0 <= h < d ->
  div_two_turns h l d = Ret ((h * BASE + l) / d).
Proof.
  intros Hl Hd Hn Hh. unfold div_two_turns. rewrite MASK2h_high. fold (LBITS d).
  destruct (halves d Hd) as (D0 & D1 & Ed). pose proof HALF_pos as HP. pose proof HALF_sqr as HS.
  set (dh := HBITS d) in *. set (dl := LBITS d) in *. clearbody dh dl.
  assert (d = dh * HALF + dl) as -> by lia. clear Ed. set (d := dh * HALF + dl) in *.
  assert (HALF <= 2 * dh) as Hnorm.
  { destruct (Z.lt_ge_cases (2 * dh) HALF) as [L|]; [exfalso|done].
    assert (2 * dh + 2 <= HALF) as L2.
    { destruct BITS2_half as [_ HB]. assert (HALF = 2 * 2 ^ (BN_BITS4 - 1)) as E2; [|lia].
      unfold HALF. rewrite <- Z.pow_succ_r by lia. f_equal. lia. }
    unfold d, is_half in *. nia. }
  destruct (div_round_ok h l dh dl D1 D0 Hnorm Hh Hl) as (h' & l' & E1 & Hh' & Hl' & EV).
  fold d in E1, EV. rewrite E1. cbn [mbind outcome_bind]. fold (LBITS l').
  destruct (Q_spec h l dh dl) as [HQ1 B1]; try done. fold d in HQ1, B1, EV |- *.
  set (Q1 := (h * HALF + HBITS l) / d) in *. set (R := h * HALF + HBITS l - Q1 * d) in *.
  destruct (halves l Hl) as (L0 & L1 & El). destruct (halves l' Hl') as (M0 & M1 & El').
  assert (R = h' * HALF + HBITS l' /\ LBITS l = LBITS l') as [ER EL].
  { rewrite HS in EV. unfold is_half in *. rewrite El' in EV.
    assert ((h' * HALF + HBITS l' - R) * HALF = LBITS l - LBITS l') as E by lia.
    assert (h' * HALF + HBITS l' - R = 0) by nia. nia. }
  rewrite !shl_half, shr_half by done.
  rewrite (Z.mod_small h'), (Z.mod_small Q1) by (unfold is_half in *; lia).
  rewrite lor_half by done. rewrite <- ER.
  assert (0 <= R < d) as HR by (unfold R; lia).
  rewrite mask2_mod, (Z.mod_small R) by (unfold is_word in Hd; lia).
  rewrite (Z.mod_small (LBITS l')) by done. rewrite <- EL.
  assert (is_word (LBITS l * HALF)) as Wl by (by apply half_shift_word).
  destruct (div_round_ok R (LBITS l * HALF) dh dl D1 D0 Hnorm HR Wl) as (h2 & l2 & E2 & _).
  destruct (Q_spec R (LBITS l * HALF) dh dl) as [HQ2 B2]; try done.
  fold d in E2. rewrite E2. cbn [mbind outcome_bind]. fold d in HQ2, B2. rewrite HBITS_shift in HQ2, B2 |- * by done.
  set (Q2 := (R * HALF + LBITS l) / d) in *.
  rewrite lor_half by done. f_equal.
  apply (Z.div_unique _ _ _ (R * HALF + LBITS l - Q2 * d)); [lia|].
  unfold R. rewrite HS, El at 1. ring.
Qed.

Lemma div_words_portable_ok h l d : is_word h -> is_word l -> is_word d -> 0 < d -> h < 2 * d ->
  div_words_portable h l d = Ret (((if d <=? h then h - d else h) * BASE + l) / d).
Proof.
  intros Wh Hl Hd Hp H2. unfold div_words_portable.
  destruct (Z.eqb_spec d 0); [lia|]. rewrite BN_num_bits_word_ok by done.
  assert ((if d <=? h then ul (h - d) else h) = if d <=? h then h - d else h) as ->.
  { destruct (Z.leb_spec d h); [|done]. apply ul_small. unfold is_word in *. lia. }
  set (h0 := if d <=? h then h - d else h).
  assert (0 <= h0 < d) as Hh by (unfold h0; unfold is_word in Wh; destruct (Z.leb_spec d h); lia).
  clearbody h0. clear h Wh H2.
  set (i := BN_BITS2 - bit_length d). unfold is_word in Hd.
  pose proof (bit_length_range d BN_BITS2 ltac:(destruct BITS2_cases; lia) Hd) as Hb.
  destruct (bit_length_bounds d ltac:(lia)) as [Hb2|]; [|lia].
  pose proof (bit_length_lt d ltac:(lia)) as Hb1.
  assert (BASE = 2 ^ i * 2 ^ bit_length d) as EB.
  { unfold BASE, i. rewrite <- Z.pow_add_r by lia. f_equal. lia. }
  assert (0 < 2 ^ i) as Pi by (apply Z.pow_pos_nonneg; lia).
  destruct (Z.eqb_spec i 0) as [Ei|Ni]; cbn [negb].
  - apply div_two_turns_ok; [done|done| |done]. rewrite Ei in EB. lia.
  - assert (ul (Z.shiftl h0 i) = h0 * 2 ^ i) as ->.
    { rewrite Z.shiftl_mul_pow2 by lia. apply ul_small. unfold is_word. nia. }
    assert (ul (Z.shiftl d i) = d * 2 ^ i) as ->.
    { rewrite Z.shiftl_mul_pow2 by lia. apply ul_small. unfold is_word. nia. }
    replace (BN_BITS2 - i) with (bit_length d) by lia.
    rewrite (Z.shiftr_div_pow2 l) by lia.
    assert (0 <= l / 2 ^ bit_length d < 2 ^ i) as Bq.
    { unfold is_word in Hl. split; [apply Z.div_pos; lia|]. apply Z.div_lt_upper_bound; lia. }
    rewrite lor_low by lia.
    assert (ul (Z.shiftl l i) = l mod 2 ^ bit_length d * 2 ^ i) as ->.
    { rewrite Z.shiftl_mul_pow2 by lia. unfold ul. rewrite EB, (Z.mul_comm (2 ^ i)).
      apply Z.mul_mod_distr_r; lia. }
    change (div_two_turns (h0 * 2 ^ i + l / 2 ^ bit_length d) (l mod 2 ^ bit_length d * 2 ^ i) (d * 2 ^ i) =
      Ret ((h0 * BASE + l) / d)).
    pose proof (Z.mod_pos_bound l (2 ^ bit_length d) ltac:(lia)) as Bm.
    rewrite div_two_turns_ok.
    + f_equal. rewrite <- (Z.div_mul_cancel_r _ d (2 ^ i)) by lia. f_equal.
      pose proof (Z.div_mod l (2 ^ bit_length d) ltac:(lia)) as D. rewrite EB. rewrite D at 3. ring.
    + unfold is_word. nia.
    + unfold is_word. nia.
    + nia.
    + nia.
Qed.
End div.

Lemma div_words_ok {c : Build} h l d : is_word l -> is_word d -> 0 <= h < d ->
  bn_div_words h l d = Ret ((h * BASE + l) / d).
Proof.
  intros Hl Hd Hh. unfold bn_div_words. destruct (llong && div2w).
  - destruct (Z.eqb_spec d 0); [lia|]. f_equal. unfold is_word in *. pose proof BASE_pos.
    rewrite Z.shiftl_mul_pow2 by (destruct BITS2_cases; lia). fold BASE.
    rewrite ull_small by nia.
    assert (Z.lor (h * BASE) l = h * BASE + l) as -> by (unfold BASE; apply lor_low; [destruct BITS2_cases; lia|done]).
    apply ul_small. unfold is_word. split; [apply Z.div_pos; nia|]. apply Z.div_lt_upper_bound; nia.
  - rewrite div_words_portable_ok by (done || unfold is_word in *; lia).
    destruct (Z.leb_spec d h); [lia|done].
Qed.
