(* ===== verification/BnLib.v ===== *)
(** * Big numbers: objects

    crypto/bn/bn_lib.c without the conversions to and from bytes (in [BnBin]), the
    generator callbacks and [BN_with_flags], which shares an array.  Functions
    that only read take the object; the others are programs.  [ok] tells which
    allocations succeed.  The functions are those of a build without [BN_DEBUG]:
    [BN_FLG_FIXED_TOP] is 0, and checks and assertions are empty. *)

From S2P Require Import Prelude Bytes BnBase BnMem.

Definition BN_FLG_MALLOCED : Z := 1.
Definition BN_FLG_STATIC_DATA : Z := 2.
Definition BN_FLG_CONSTTIME : Z := 4.
Definition BN_FLG_SECURE : Z := 8.
Definition BN_FLG_FIXED_TOP : Z := 0.

Definition BN_get_flags (b : BIGNUM) (n : Z) : Z := Z.land (bn_flags b) n.

Definition has (b : BIGNUM) (n : Z) : bool := negb (BN_get_flags b n =? 0).

Definition BN_set_flags (b : nat) (n : Z) : prog unit := modify b (fun o => set_flags (Z.lor (bn_flags o) n) o).

(** [a->flags &= ~BN_FLG_FIXED_TOP] *)
Definition unfix (a : BIGNUM) : BIGNUM := set_flags (Z.land (bn_flags a) (Z.lnot BN_FLG_FIXED_TOP)) a.

(** [a->flags |= BN_FLG_FIXED_TOP] *)
Definition fix_top (a : BIGNUM) : BIGNUM := set_flags (Z.lor (bn_flags a) BN_FLG_FIXED_TOP) a.

Definition zero_bn : BIGNUM := {| bn_d := []; bn_top := 0; bn_dmax := 0; bn_neg := 0; bn_flags := 0 |}.

(** ** Reading *)

Section read.
Context {c : Build}.
Implicit Types a b : BIGNUM.

Definition BN_value_one : BIGNUM :=
  {| bn_d := [1]; bn_top := 1; bn_dmax := 1; bn_neg := 0; bn_flags := BN_FLG_STATIC_DATA |}.

Definition BN_is_zero a : bool := bn_top a =? 0.

Definition BN_abs_is_word a (w : Z) : outcome bool :=
  if bn_top a =? 1 then
    x ← aget (bn_d a) 0;
    Ret ((x =? w) || ((w =? 0) && (bn_top a =? 0)))
  else Ret ((w =? 0) && (bn_top a =? 0)).

Definition BN_is_one a : outcome bool :=
  r ← BN_abs_is_word a 1; Ret (r && (bn_neg a =? 0)).

Definition BN_is_word a (w : Z) : outcome bool :=
  r ← BN_abs_is_word a w; Ret (r && ((w =? 0) || (bn_neg a =? 0))).

Definition BN_is_odd a : outcome bool :=
  if 0 <? bn_top a then x ← aget (bn_d a) 0; Ret (negb (Z.land x 1 =? 0)) else Ret false.

Definition BN_is_negative a : bool := negb (bn_neg a =? 0).

Definition BN_get_word a : outcome Z :=
  if 1 <? bn_top a then Ret BN_MASK2
  else if bn_top a =? 1 then aget (bn_d a) 0
  else Ret 0.

(** [for (j = 0; j < a->dmax; j++)]: [ret] and [past_i] *)
Fixpoint consttime_loop (k : nat) (j : Z) a (i ret past_i : Z) : outcome Z :=
  match k with
  | O => Ret ret
  | S k' =>
      let mask := constant_time_eq_int i j in
      let ret := s32 (ret + Z.land BN_BITS2 (Z.land (u32 (Z.lnot mask)) (u32 (Z.lnot past_i)))) in
      x ← aget (bn_d a) j;
      let ret := s32 (ret + Z.land (BN_num_bits_word x) mask) in
      consttime_loop k' (j + 1) a i ret (Z.lor past_i mask)
  end.

Definition bn_num_bits_consttime a : outcome Z :=
  let i := bn_top a - 1 in
  ret ← consttime_loop (Z.to_nat (bn_dmax a)) 0 a i 0 0;
  let mask := u32 (Z.lnot (constant_time_eq_int i (-1))) in
  Ret (s32 (Z.land (u32 ret) mask)).

Definition BN_num_bits a : outcome Z :=
  let i := bn_top a - 1 in
  if has a BN_FLG_CONSTTIME then bn_num_bits_consttime a
  else if BN_is_zero a then Ret 0
  else x ← aget (bn_d a) i; int_op (i * BN_BITS2 + BN_num_bits_word x).

(** [for (i = a->top - 1; i >= 0; i--)]: the first words that differ, from the
    [n]-th down. *)
Fixpoint first_diff (n : nat) (a b : list Z) : outcome (option (Z * Z)) :=
  match n with
  | O => Ret None
  | S k =>
      t1 ← aget a (Z.of_nat k); t2 ← aget b (Z.of_nat k);
      if negb (t1 =? t2) then Ret (Some (t1, t2)) else first_diff k a b
  end.

Definition BN_ucmp a b : outcome Z :=
  let i := bn_top a - bn_top b in
  if negb (i =? 0) then Ret i
  else
    x ← first_diff (Z.to_nat (bn_top a)) (bn_d a) (bn_d b);
    Ret (match x with None => 0 | Some (t1, t2) => if t2 <? t1 then 1 else -1 end).

Definition BN_cmp (a b : option BIGNUM) : outcome Z :=
  match a, b with
  | Some _, None => Ret (-1)
  | None, Some _ => Ret 1
  | None, None => Ret 0
  | Some a, Some b =>
      if negb (bn_neg a =? bn_neg b) then Ret (if negb (bn_neg a =? 0) then -1 else 1)
      else
        let '(gt, lt) := if bn_neg a =? 0 then (1, -1) else (-1, 1) in
        if bn_top b <? bn_top a then Ret gt
        else if bn_top a <? bn_top b then Ret lt
        else
          x ← first_diff (Z.to_nat (bn_top a)) (bn_d a) (bn_d b);
          Ret (match x with None => 0 | Some (t1, t2) => if t2 <? t1 then gt else lt end)
  end.

Definition BN_is_bit_set a (n : Z) : outcome Z :=
  if n <? 0 then Ret 0
  else
    let i := n / BN_BITS2 in
    let j := n mod BN_BITS2 in
    if bn_top a <=? i then Ret 0
    else x ← aget (bn_d a) i; Ret (s32 (Z.land (Z.shiftr x j) 1)).

(** [while (tmp_top > 0 && d[tmp_top - 1] == 0) tmp_top--] *)
Fixpoint top_loop (n : nat) (d : list Z) : outcome Z :=
  match n with
  | O => Ret 0
  | S k => x ← aget d (Z.of_nat k); if negb (x =? 0) then Ret (Z.of_nat n) else top_loop k d
  end.

Definition correct_top a : outcome BIGNUM :=
  t ← (if 0 <? bn_top a then top_loop (Z.to_nat (bn_top a)) (bn_d a) else Ret (bn_top a));
  let a := set_top t a in
  let a := if bn_top a =? 0 then set_neg 0 a else a in
  Ret (unfix a).

Definition BN_security_bits (L N : Z) : Z :=
  let table :=
    if 15360 <=? L then Some 256 else if 7680 <=? L then Some 192 else if 3072 <=? L then Some 128
    else if 2048 <=? L then Some 112 else if 1024 <=? L then Some 80 else None in
  match table with
  | None => 0
  | Some secbits =>
      if N =? -1 then secbits
      else
        let bits := Z.quot N 2 in
        if bits <? 80 then 0 else if secbits <=? bits then secbits else bits
  end.
End read.

(** ** Allocation *)

Section alloc.
Context {c : Build} (ok : nat -> bool).

(** An allocation, of words. *)
Definition zalloc : prog bool := fun s => Ret (ok (next s), {| objs := objs s; next := S (next s) |}).

Definition BN_new : prog (option nat) := fun s =>
  if ok (next s)
  then Ret (Some (next s), {| objs := <[next s := set_flags BN_FLG_MALLOCED zero_bn]> (objs s); next := S (next s) |})
  else Ret (None, {| objs := objs s; next := S (next s) |}).

Definition BN_secure_new : prog (option nat) :=
  r ← BN_new;
  match r with
  | None => ret None
  | Some l => _ ← BN_set_flags l BN_FLG_SECURE; ret (Some l)
  end.

Definition bn_init (a : nat) : prog unit := modify a (fun _ => zero_bn).

(** The array is released; what it held is cleared or not. *)
Definition bn_free_d (a : nat) : prog unit := modify a (set_d []).

Definition free_struct (a : nat) : prog unit := fun s =>
  match objs s !! a with
  | Some _ => Ret (tt, {| objs := delete a (objs s); next := next s |})
  | None => Fault
  end.

Definition BN_clear_free (a : option nat) : prog unit :=
  match a with
  | None => ret tt
  | Some a =>
      o ← get a;
      _ ← (if bool_decide (bn_d o <> []) && negb (has o BN_FLG_STATIC_DATA) then bn_free_d a else ret tt);
      if has o BN_FLG_MALLOCED then free_struct a else ret tt
  end.

Definition BN_free (a : option nat) : prog unit :=
  match a with
  | None => ret tt
  | Some a =>
      o ← get a;
      _ ← (if negb (has o BN_FLG_STATIC_DATA) then bn_free_d a else ret tt);
      if has o BN_FLG_MALLOCED then free_struct a else ret tt
  end.

Definition WORDS_MAX : Z := INT_MAX / (4 * BN_BITS2).

Definition bn_expand_internal (b : BIGNUM) (words : Z) : prog (option (list Z)) :=
  if WORDS_MAX <? words then ret None
  else if has b BN_FLG_STATIC_DATA then ret None
  else
    got ← zalloc;
    if negb got then ret None
    else
      let a := replicate (Z.to_nat words) 0 in
      if 0 <? bn_top b then
        w ← lift (mem_read (bn_d b) 0 (bn_top b));
        a ← lift (mem_write a 0 w); ret (Some a)
      else ret (Some a).

Definition bn_expand2 (b : nat) (words : Z) : prog bool :=
  o ← get b;
  if bn_dmax o <? words then
    a ← bn_expand_internal o words;
    match a with
    | None => ret false
    | Some a => _ ← put b (set_dmax words (set_d a o)); ret true
    end
  else ret true.

Definition bn_wexpand (a : nat) (words : Z) : prog bool :=
  o ← get a; if words <=? bn_dmax o then ret true else bn_expand2 a words.

Definition bn_expand (a : nat) (bits : Z) : prog bool :=
  if INT_MAX - BN_BITS2 + 1 <? bits then ret false
  else
    o ← get a;
    if (bits + BN_BITS2 - 1) / BN_BITS2 <=? bn_dmax o then ret true
    else bn_expand2 a ((bits + BN_BITS2 - 1) / BN_BITS2).

(** ** Writing *)

Definition bn_correct_top (a : nat) : prog unit := o ← get a; o ← lift (correct_top o); put a o.

Definition BN_copy (a b : nat) : prog bool :=
  ob ← get b;
  let bn_words := if has ob BN_FLG_CONSTTIME then bn_dmax ob else bn_top ob in
  if decide (a = b) then ret true
  else
    r ← bn_wexpand a bn_words;
    if negb (r : bool) then ret false
    else
      oa ← get a;
      d ← (if 0 <? bn_top ob then
             w ← lift (mem_read (bn_d ob) 0 bn_words); lift (mem_write (bn_d oa) 0 w)
           else ret (bn_d oa));
      let oa := set_top (bn_top ob) (set_neg (bn_neg ob) (set_d d oa)) in
      _ ← put a (set_flags (Z.lor (bn_flags oa) (Z.land (bn_flags ob) BN_FLG_FIXED_TOP)) oa);
      ret true.

Definition BN_dup (a : option nat) : prog (option nat) :=
  match a with
  | None => ret None
  | Some a =>
      o ← get a;
      t ← (if has o BN_FLG_SECURE then BN_secure_new else BN_new);
      match t with
      | None => ret None
      | Some t =>
          r ← BN_copy t a;
          if negb (r : bool) then _ ← BN_free (Some t); ret None else ret (Some t)
      end
  end.

Definition FLAGS_DATA (flags : Z) : Z :=
  Z.land flags (Z.lor BN_FLG_STATIC_DATA (Z.lor BN_FLG_CONSTTIME (Z.lor BN_FLG_SECURE BN_FLG_FIXED_TOP))).

Definition FLAGS_STRUCT (flags : Z) : Z := Z.land flags BN_FLG_MALLOCED.

Definition BN_swap (a b : nat) : prog unit :=
  oa ← get a; ob ← get b;
  let swapped (x y : BIGNUM) := set_flags (Z.lor (FLAGS_STRUCT (bn_flags x)) (FLAGS_DATA (bn_flags y))) y in
  _ ← put a (swapped oa ob); put b (swapped ob oa).

Definition BN_clear (a : option nat) : prog unit :=
  match a with
  | None => ret tt
  | Some a =>
      modify a (fun o => unfix (set_top 0 (set_neg 0 (set_d (map (fun _ => 0) (bn_d o)) o))))
  end.

Definition BN_set_word (a : nat) (w : Z) : prog bool :=
  r ← bn_expand a (BN_BYTES * 8);
  if negb (r : bool) then ret false
  else
    o ← get a;
    d ← lift (aset (bn_d o) 0 w);
    _ ← put a (unfix (set_top (if negb (w =? 0) then 1 else 0) (set_d d (set_neg 0 o))));
    ret true.

Definition BN_zero (a : nat) : prog unit := modify a (fun o => unfix (set_top 0 (set_neg 0 o))).

Definition BN_set_bit (a : nat) (n : Z) : prog bool :=
  if n <? 0 then ret false
  else
    let i := n / BN_BITS2 in
    let j := n mod BN_BITS2 in
    o ← get a;
    r ← (if bn_top o <=? i then
           r ← bn_wexpand a (i + 1);
           if negb (r : bool) then ret false
           else
             o ← get a;
             d ← lift (mem_write (bn_d o) (bn_top o) (replicate (Z.to_nat (i + 1 - bn_top o)) 0));
             _ ← put a (unfix (set_top (i + 1) (set_d d o)));
             ret true
         else ret true);
    if negb (r : bool) then ret false
    else
      x ← ldw (a, 0) i;
      _ ← stw (a, 0) i (Z.lor x (ul (Z.shiftl 1 j)));
      ret true.

Definition BN_clear_bit (a : nat) (n : Z) : prog bool :=
  if n <? 0 then ret false
  else
    let i := n / BN_BITS2 in
    let j := n mod BN_BITS2 in
    o ← get a;
    if bn_top o <=? i then ret false
    else
      x ← ldw (a, 0) i;
      _ ← stw (a, 0) i (Z.land x (ul (Z.lnot (ul (Z.shiftl 1 j)))));
      _ ← bn_correct_top a; ret true.

Definition BN_mask_bits (a : nat) (n : Z) : prog bool :=
  if n <? 0 then ret false
  else
    let w := n / BN_BITS2 in
    let b := n mod BN_BITS2 in
    o ← get a;
    if bn_top o <=? w then ret false
    else
      _ ← (if b =? 0 then modify a (set_top w)
           else
             _ ← modify a (set_top (w + 1));
             x ← ldw (a, 0) w;
             stw (a, 0) w (Z.land x (ul (Z.lnot (ul (Z.shiftl BN_MASK2 b))))));
      _ ← bn_correct_top a; ret true.

Definition BN_set_negative (a : nat) (b : Z) : prog unit :=
  modify a (fun o => set_neg (if negb (b =? 0) && negb (BN_is_zero o) then 1 else 0) o).

(** ** Words *)

(** [for (i = n - 2; i >= 0; i--)] *)
Fixpoint cmp_words_loop (n : nat) (a b : ptr) : prog Z :=
  match n with
  | O => ret 0
  | S k =>
      aa ← ldw a (Z.of_nat k); bb ← ldw b (Z.of_nat k);
      if negb (aa =? bb) then ret (if bb <? aa then 1 else -1) else cmp_words_loop k a b
  end.

Definition bn_cmp_words (a b : ptr) (n : Z) : prog Z :=
  if n =? 0 then ret 0
  else
    aa ← ldw a (n - 1); bb ← ldw b (n - 1);
    if negb (aa =? bb) then ret (if bb <? aa then 1 else -1) else cmp_words_loop (Z.to_nat (n - 1)) a b.

(** [for (i = dl; i < 0; i++) if (b[n - i] != 0)], [k] turns left, and the same
    over [a]. *)
Fixpoint nonzero_from (k : nat) (p : ptr) (n : Z) : prog bool :=
  match k with
  | O => ret false
  | S k' => x ← ldw p (n + Z.of_nat k); if negb (x =? 0) then ret true else nonzero_from k' p n
  end.

Definition bn_cmp_part_words (a b : ptr) (cl dl : Z) : prog Z :=
  let n := cl - 1 in
  r ← (if dl <? 0 then nonzero_from (Z.to_nat (- dl)) b n else ret false);
  if r : bool then ret (-1)
  else
    r ← (if 0 <? dl then nonzero_from (Z.to_nat dl) a n else ret false);
    if r : bool then ret 1 else bn_cmp_words a b cl.

(** ** The swap in constant time *)

Definition swap_mask (condition : Z) : Z :=
  ul (Z.shiftr (Z.land (ul (Z.lnot condition)) (ul (condition - 1))) (BN_BITS2 - 1) - 1).

(** [t = (x ^ y) & condition; x ^= t; y ^= t] *)
Definition masked_swap (condition x y : Z) : Z * Z :=
  let t := Z.land (Z.lxor x y) condition in (Z.lxor x t, Z.lxor y t).

Definition CONSTTIME_SWAP_FLAGS : Z := Z.lor BN_FLG_CONSTTIME BN_FLG_FIXED_TOP.

(** [a] and [b] are different objects. *)
Definition BN_consttime_swap (condition : Z) (a b : nat) (nwords : Z) : prog unit :=
  let condition := swap_mask condition in
  oa ← get a; ob ← get b;
  let '(ta, tb) := masked_swap condition (bn_top oa) (bn_top ob) in
  let '(na, nb) := masked_swap condition (bn_neg oa) (bn_neg ob) in
  let t := Z.land (Z.land (Z.lxor (bn_flags oa) (bn_flags ob)) CONSTTIME_SWAP_FLAGS) condition in
  _ ← put a (set_top ta (set_neg na (set_flags (Z.lxor (bn_flags oa) t) oa)));
  _ ← put b (set_top tb (set_neg nb (set_flags (Z.lxor (bn_flags ob) t) ob)));
  for_ (Z.to_nat nwords) 0 (fun i _ =>
    x ← ldw (a, 0) i; y ← ldw (b, 0) i;
    let '(x, y) := masked_swap condition x y in
    _ ← stw (a, 0) i x; stw (b, 0) i y) tt.

End alloc.

(** ** The deprecated parameters *)

(** [bn_limit_bits] and [bn_limit_num] of each kind. *)
Record bn_params : Type :=
  { limit_mult : Z * Z; limit_high : Z * Z; limit_low : Z * Z; limit_mont : Z * Z }.

Definition default_params : bn_params :=
  {| limit_mult := (0, 8); limit_high := (0, 8); limit_low := (0, 8); limit_mont := (0, 8) |}.

Definition set_limit (v : Z) (old : Z * Z) : outcome (Z * Z) :=
  if 0 <=? v then
    let v := if 4 * 8 - 1 <? v then 4 * 8 - 1 else v in
    n ← int_op (Z.shiftl 1 v); Ret (v, n)
  else Ret old.

Definition BN_set_params (mult high low mont : Z) (p : bn_params) : outcome bn_params :=
  a ← set_limit mult (limit_mult p);
  b ← set_limit high (limit_high p);
  l ← set_limit low (limit_low p);
  m ← set_limit mont (limit_mont p);
  Ret {| limit_mult := a; limit_high := b; limit_low := l; limit_mont := m |}.

Definition BN_get_params (which : Z) (p : bn_params) : Z :=
  if which =? 0 then fst (limit_mult p) else if which =? 1 then fst (limit_high p)
  else if which =? 2 then fst (limit_low p) else if which =? 3 then fst (limit_mont p) else 0.
