(* ===== verification/BnLibCorrect.v ===== *)
(** * Big numbers: the number of an object

    [wf] objects have their words in order, [canon] ones no leading zeros and no
    negative zero; [val] is the number.  The functions of [BnLib] are those on
    numbers, and keep both properties. *)

From S2P Require Import Prelude Bytes BnBase BnMem BnLib.

Section objects.
Context {c : Build}.
Implicit Types a b o : BIGNUM.

Definition top_words o : list Z := take (Z.to_nat (bn_top o)) (bn_d o).

Record wf o : Prop := {
  wf_len : Z.of_nat (length (bn_d o)) = bn_dmax o;
  wf_words : words (bn_d o);
  wf_top : 0 <= bn_top o <= bn_dmax o;
  wf_dmax : bn_dmax o <= WORDS_MAX;
  wf_neg : bn_neg o = 0 \/ bn_neg o = 1
}.

Definition mag o : Z := eval (top_words o).
Definition val o : Z := if bn_neg o =? 0 then mag o else - mag o.

(** No leading zero words. *)
Definition lean o : Prop := forall k, bn_top o = Z.of_nat (S k) -> bn_d o !! k <> Some 0.

Definition canon o : Prop := lean o /\ (bn_top o = 0 -> bn_neg o = 0).

Lemma WORDS_MAX_small : WORDS_MAX * BN_BITS2 <= INT_MAX / 4 /\ 0 < WORDS_MAX.
Proof. unfold WORDS_MAX. destruct BITS2_cases as [-> | ->]; vm_compute; split; congruence || done. Qed.

Lemma WORDS_MAX_int : WORDS_MAX < 2 ^ 31.
Proof. unfold WORDS_MAX. destruct BITS2_cases as [-> | ->]; by vm_compute. Qed.

Lemma length_top o : wf o -> length (top_words o) = Z.to_nat (bn_top o).
Proof. intros H. destruct H. unfold top_words. rewrite length_take. lia. Qed.

Lemma words_top o : wf o -> words (top_words o).
Proof. intros H. destruct H. by apply words_take. Qed.

Lemma mag_bounds o : wf o -> 0 <= mag o < weight (Z.to_nat (bn_top o)).
Proof. intros H. rewrite <- (length_top o H). apply eval_bounds, words_top, H. Qed.

Lemma lookup_top o (k : nat) : Z.of_nat k < bn_top o -> top_words o !! k = bn_d o !! k.
Proof. intros H. unfold top_words. apply lookup_take_lt. lia. Qed.

Lemma mag_lower o k : wf o -> lean o -> bn_top o = Z.of_nat (S k) -> weight k <= mag o.
Proof.
  intros H L E. apply eval_top_pos; [by apply words_top|rewrite length_top by done; lia|].
  rewrite lookup_top by lia. by apply L.
Qed.

Lemma mag_zero o : wf o -> lean o -> mag o = 0 <-> bn_top o = 0.
Proof.
  intros H L. split; intros E.
  - destruct (Z.to_nat (bn_top o)) as [|k] eqn:Et; [destruct H; lia|].
    pose proof (mag_lower o k H L). pose proof (weight_pos k). destruct H. lia.
  - unfold mag, top_words. rewrite E. done.
Qed.

(** Numbers of different sizes. *)
Lemma mag_top_lt a b : wf a -> wf b -> lean b -> bn_top a < bn_top b -> mag a < mag b.
Proof.
  intros Ha Hb Lb H. pose proof (mag_bounds a Ha) as B.
  destruct (Z.to_nat (bn_top b)) as [|k] eqn:Et; [destruct Ha, Hb; lia|].
  pose proof (mag_lower b k Hb Lb). pose proof (weight_mono (Z.to_nat (bn_top a)) k). destruct Ha, Hb. lia.
Qed.

Lemma val_sign o : wf o -> Z.abs (val o) = mag o.
Proof. intros H. pose proof (mag_bounds o H). unfold val. destruct (bn_neg o =? 0); lia. Qed.

Lemma val_neg o : wf o -> canon o -> (val o < 0 <-> bn_neg o = 1).
Proof.
  intros H [L N]. pose proof (mag_bounds o H) as B. unfold val. destruct (wf_neg _ H) as [E|E]; rewrite E; cbn; [lia|].
  split; [done|]. intros _. destruct (Z.eq_dec (mag o) 0) as [E0|]; [|lia].
  apply (mag_zero o H L) in E0. specialize (N E0). lia.
Qed.

Lemma val_zero o : wf o -> lean o -> val o = 0 <-> bn_top o = 0.
Proof.
  intros H L. rewrite <- (mag_zero o H L). unfold val. destruct (bn_neg o =? 0); lia.
Qed.

(** ** Reading *)

(** The words of an object can be read. *)
Lemma d_lookup o i : wf o -> 0 <= i < bn_dmax o -> exists x, bn_d o !! Z.to_nat i = Some x /\ is_word x /\ aget (bn_d o) i = Ret x.
Proof.
  intros H Hi. destruct (lookup_lt_is_Some_2 (bn_d o) (Z.to_nat i)) as [x E]; [destruct H; lia|].
  exists x. split; [done|]. split; [by eapply words_lookup, E; destruct H|]. apply aget_lookup; [lia|done].
Qed.

Lemma top_loop_ok d n : words d -> (n <= length d)%nat ->
  exists t : nat, top_loop n d = Ret (Z.of_nat t) /\ (t <= n)%nat /\ eval (take t d) = eval (take n d) /\
    (forall k, t = S k -> d !! k <> Some 0).
Proof.
  intros W. induction n as [|n IH]; intros L; cbn [top_loop].
  { exists 0%nat. by split_and!. }
  destruct (lookup_lt_is_Some_2 d n) as [x E]; [lia|]. rewrite (aget_nat _ _ _ E). cbn [mbind outcome_bind].
  destruct (Z.eqb_spec x 0) as [->|N]; cbn [negb].
  - destruct IH as (t & -> & Ht & Ev & Hl); [lia|]. exists t. split_and!; [done|lia| |done].
    rewrite Ev, (take_S_r _ _ _ E), eval_snoc. lia.
  - exists (S n). split_and!; [done|done|done|]. intros k [= <-]. congruence.
Qed.

Lemma unfix_same o : unfix o = o.
Proof. destruct o. unfold unfix, set_flags, BN_FLG_FIXED_TOP. cbn. by rewrite Z.land_m1_r. Qed.

Lemma fix_top_same o : fix_top o = o.
Proof. destruct o. unfold fix_top, set_flags, BN_FLG_FIXED_TOP. cbn. by rewrite Z.lor_0_r. Qed.

(** [bn_correct_top] makes an object canonical; [top] alone may have been wrong. *)
Lemma correct_top_ok o : wf o -> exists o', correct_top o = Ret o' /\ wf o' /\ canon o' /\
  val o' = val o /\ bn_d o' = bn_d o /\ bn_dmax o' = bn_dmax o /\ bn_flags o' = bn_flags o.
Proof.
  intros H. pose proof H as [Hl Hw Ht Hm Hn]. unfold correct_top.
  assert (exists t : nat, (if 0 <? bn_top o then top_loop (Z.to_nat (bn_top o)) (bn_d o) else Ret (bn_top o)) = Ret (Z.of_nat t) /\
    (t <= Z.to_nat (bn_top o))%nat /\ eval (take t (bn_d o)) = mag o /\ (forall k, t = S k -> bn_d o !! k <> Some 0))
    as (t & -> & L & E & N).
  { destruct (Z.ltb_spec 0 (bn_top o)); [apply top_loop_ok; [done|lia]|].
    exists 0%nat. assert (bn_top o = 0) as E by lia. unfold mag, top_words. rewrite E. by split_and!. }
  cbn [mbind outcome_bind]. rewrite unfix_same.
  eexists. split; [done|].
  assert (forall a, bn_d a = bn_d o -> bn_top a = Z.of_nat t -> mag a = mag o) as Em.
  { intros a Ea Et. unfold mag at 1, top_words. by rewrite Ea, Et, Nat2Z.id. }
  destruct (Z.eqb_spec (bn_top (set_top (Z.of_nat t) o)) 0) as [E0|N0]; cbn in E0 || cbn in N0.
  - split; [|split; [|split; [|done]]].
    + constructor; cbn; try done; [lia|by left].
    + split; [|done]. intros k Ek. cbn in Ek. apply N. lia.
    + unfold val. cbn [bn_neg set_neg set_top]. rewrite Z.eqb_refl, Em by done.
      rewrite <- E. assert (t = 0)%nat as -> by lia. cbn. by destruct (bn_neg o =? 0).
  - split; [|split; [|split; [|done]]].
    + constructor; cbn; try done; lia.
    + split; [intros k Ek; cbn in Ek; apply N; lia|cbn; lia].
    + unfold val. cbn [bn_neg set_top]. by rewrite Em.
Qed.

Lemma first_diff_ok n (A B : list Z) : words A -> words B -> (n <= length A)%nat -> (n <= length B)%nat ->
  exists r, first_diff n A B = Ret r /\
    match r with
    | None => eval (take n A) = eval (take n B)
    | Some (x, y) => x <> y /\ (x < y <-> eval (take n A) < eval (take n B)) /\
        (y < x <-> eval (take n B) < eval (take n A))
    end.
Proof.
  intros WA WB. induction n as [|n IH]; intros LA LB; cbn [first_diff]; [by exists None|].
  destruct (lookup_lt_is_Some_2 A n) as [x Ex]; [lia|]. destruct (lookup_lt_is_Some_2 B n) as [y Ey]; [lia|].
  rewrite (aget_nat _ _ _ Ex), (aget_nat _ _ _ Ey). cbn [mbind outcome_bind].
  rewrite (take_S_r _ _ _ Ex), (take_S_r _ _ _ Ey), !eval_snoc, !length_take, !Nat.min_l by lia.
  pose proof (eval_bounds (take n A) (words_take n _ WA)) as BA. pose proof (eval_bounds (take n B) (words_take n _ WB)) as BB.
  rewrite length_take, Nat.min_l in BA, BB by lia. pose proof (weight_pos n).
  destruct (Z.eqb_spec x y) as [->|N]; cbn [negb].
  - destruct IH as (r & -> & Hr); [lia|lia|]. exists r. split; [done|].
    destruct r as [[u v]|]; [|lia]. destruct Hr as (? & ? & ?). split; [done|]. lia.
  - exists (Some (x, y)). split; [done|]. split; [done|].
    split; (split; [intros; nia|]); intros E; destruct (Z.lt_trichotomy x y) as [|[|]]; try done; nia.
Qed.

(** The sign of the result of a comparison. *)
Definition sign_of (r : Z) (x : comparison) : Prop :=
  match x with Eq => r = 0 | Lt => r < 0 | Gt => 0 < r end.

Lemma ucmp_ok a b : wf a -> wf b -> lean a -> lean b ->
  exists r, BN_ucmp a b = Ret r /\ sign_of r (mag a ?= mag b).
Proof.
  intros Ha Hb La Lb. unfold BN_ucmp. destruct (Z.eqb_spec (bn_top a - bn_top b) 0) as [E|N]; cbn [negb].
  - assert (bn_top b = bn_top a) as Et by lia.
    destruct (first_diff_ok (Z.to_nat (bn_top a)) (bn_d a) (bn_d b)) as (r & -> & Hr);
      try apply Ha; try apply Hb; [destruct Ha; lia|destruct Hb; lia|].
    assert (eval (take (Z.to_nat (bn_top a)) (bn_d b)) = mag b) as Eb by (unfold mag, top_words; by rewrite Et).
    fold (top_words a) in Hr. fold (mag a) in Hr. rewrite Eb in Hr.
    cbn [mbind outcome_bind]. eexists. split; [done|]. unfold sign_of. destruct r as [[x y]|].
    + destruct Hr as (N & H1 & H2).
      destruct (Z.compare_spec (mag a) (mag b)), (Z.ltb_spec y x); lia.
    + rewrite Hr. by rewrite Z.compare_refl.
  - eexists. split; [done|]. unfold sign_of.
    destruct (Z.lt_ge_cases (bn_top a) (bn_top b)).
    + assert (mag a < mag b) as L by (by apply mag_top_lt). rewrite (proj2 (Z.compare_lt_iff _ _) L). lia.
    + assert (mag b < mag a) as L by (apply mag_top_lt; try done; lia).
      rewrite (proj2 (Z.compare_gt_iff _ _)) by lia. lia.
Qed.

Definition cmp_result (x : comparison) : Z := match x with Eq => 0 | Lt => -1 | Gt => 1 end.

Lemma cmp_ok a b : wf a -> wf b -> canon a -> canon b ->
  BN_cmp (Some a) (Some b) = Ret (cmp_result (val a ?= val b)).
Proof.
  intros Ha Hb Ca Cb. pose proof (val_neg a Ha Ca) as Na. pose proof (val_neg b Hb Cb) as Nb.
  pose proof (mag_bounds a Ha) as Ma. pose proof (mag_bounds b Hb) as Mb.
  destruct (wf_neg _ Ha) as [Ea|Ea], (wf_neg _ Hb) as [Eb|Eb]; unfold BN_cmp; rewrite Ea, Eb; cbn [Z.eqb negb];
    try (f_equal; destruct (Z.compare_spec (val a) (val b)); cbn; lia || done).
  all: unfold val; rewrite Ea, Eb; cbn [Z.eqb].
  all: destruct (Z.ltb_spec (bn_top b) (bn_top a)) as [L|G];
    [pose proof (mag_top_lt b a Hb Ha (proj1 Ca) L); f_equal;
     match goal with |- _ = cmp_result (?x ?= ?y) => destruct (Z.compare_spec x y); cbn; lia || done end|].
  all: destruct (Z.ltb_spec (bn_top a) (bn_top b)) as [L|G'];
    [pose proof (mag_top_lt a b Ha Hb (proj1 Cb) L); f_equal;
     match goal with |- _ = cmp_result (?x ?= ?y) => destruct (Z.compare_spec x y); cbn; lia || done end|].
  all: assert (bn_top b = bn_top a) as Et by lia.
  all: destruct (first_diff_ok (Z.to_nat (bn_top a)) (bn_d a) (bn_d b)) as (r & -> & Hr);
      try apply Ha; try apply Hb; [destruct Ha; lia|destruct Hb; lia|].
  all: assert (eval (take (Z.to_nat (bn_top a)) (bn_d b)) = mag b) as Em by (unfold mag, top_words; by rewrite Et).
  all: fold (top_words a) in Hr; fold (mag a) in Hr; rewrite Em in Hr; cbn [mbind outcome_bind]; f_equal.
  all: destruct r as [[x y]|]; [destruct Hr as (N & H1 & H2); destruct (Z.ltb_spec y x)|];
    match goal with |- _ = cmp_result (?x ?= ?y) => destruct (Z.compare_spec x y); cbn; lia || done end.
Qed.

(** *** Sizes *)

Lemma top_int o : wf o -> bn_top o * BN_BITS2 <= INT_MAX / 4.
Proof.
  intros H. pose proof WORDS_MAX_small. destruct H, BITS2_cases as [E|E]; rewrite E in *; lia.
Qed.

(** The bits of a number from those of its top word. *)
Lemma bits_of_top o k x : wf o -> lean o -> bn_top o = Z.of_nat (S k) -> bn_d o !! k = Some x ->
  is_word x /\ bit_length (mag o) = Z.of_nat k * BN_BITS2 + bit_length x.
Proof.
  intros H L E Ex. assert (is_word x) as Wx by (eapply words_lookup, Ex; apply H). split; [done|].
  assert (x <> 0) as N by (intros ->; by apply (L k E)).
  assert (mag o = eval (take k (bn_d o)) + weight k * x) as Em.
  { unfold mag, top_words. rewrite E, Nat2Z.id, (take_S_r _ _ _ Ex), eval_snoc, length_take.
    destruct H. by rewrite Nat.min_l by lia. }
  pose proof (eval_bounds (take k (bn_d o)) (words_take _ _ (wf_words _ H))) as B.
  rewrite length_take, Nat.min_l in B by (destruct H; lia). unfold is_word in Wx.
  pose proof (weight_pos k). unfold bit_length.
  destruct (Z.eqb_spec x 0); [done|]. destruct (Z.eqb_spec (mag o) 0); [nia|].
  assert (Z.log2 (mag o) = Z.of_nat k * BN_BITS2 + Z.log2 x); [|lia].
  assert (0 <= Z.of_nat k * BN_BITS2) by (destruct BITS2_cases; lia).
  pose proof (Z.log2_nonneg x). pose proof (Z.log2_spec x ltac:(lia)) as Sx.
  assert (weight k = 2 ^ (Z.of_nat k * BN_BITS2)) as Ew by (rewrite weight_bits; f_equal; lia).
  set (e := Z.of_nat k * BN_BITS2) in *. clearbody e. rewrite Ew in *.
  apply Z.log2_unique; [lia|]. rewrite <- Z.add_succ_r, !Z.pow_add_r by lia. nia.
Qed.

Lemma top_pred o : wf o -> 0 < bn_top o -> exists k x, bn_top o = Z.of_nat (S k) /\ bn_d o !! k = Some x /\
  aget (bn_d o) (bn_top o - 1) = Ret x.
Proof.
  intros H Hp. destruct (d_lookup o (bn_top o - 1) H) as (x & E & _ & Eg); [destruct H; lia|].
  exists (Z.to_nat (bn_top o - 1)), x. split; [lia|]. by split.
Qed.

Lemma consttime_past k : forall j a i r, wf a -> 0 <= i < j -> j + Z.of_nat k <= bn_dmax a -> 0 <= r < 2 ^ 31 ->
  consttime_loop k j a i r (mask32 true) = Ret r.
Proof.
  induction k as [|k IH]; intros j a i r H Hi Hj Hr; cbn [consttime_loop]; [done|].
  pose proof WORDS_MAX_small. pose proof (wf_dmax _ H).
  pose proof WORDS_MAX_int.
  destruct (d_lookup a j H) as (x & _ & _ & ->); [lia|]. cbn [mbind outcome_bind].
  rewrite constant_time_eq_int_ok by lia. destruct (Z.eqb_spec i j); [lia|]. cbn [mask32].
  rewrite Z.land_0_r, Z.lor_0_r.
  change (u32 (Z.lnot (2 ^ 32 - 1))) with 0. rewrite !Z.land_0_r, !Z.add_0_r, (s32_small r), (s32_small r) by lia.
  apply IH; lia || done.
Qed.

Lemma consttime_before k : forall j a i r x, wf a -> 0 <= j <= i -> i < j + Z.of_nat k -> j + Z.of_nat k <= bn_dmax a ->
  aget (bn_d a) i = Ret x -> is_word x -> 0 <= r -> r + (i - j) * BN_BITS2 + BN_BITS2 <= INT_MAX ->
  consttime_loop k j a i r 0 = Ret (r + (i - j) * BN_BITS2 + bit_length x).
Proof.
  induction k as [|k IH]; intros j a i r x H Hi Hk Hj Ex Wx Hr Hm; cbn [consttime_loop]; [lia|].
  pose proof WORDS_MAX_small. pose proof (wf_dmax _ H). unfold INT_MAX in *.
  pose proof WORDS_MAX_int.
  rewrite constant_time_eq_int_ok by lia. rewrite Z.lor_0_l.
  destruct (Z.eqb_spec i j) as [->|N]; cbn [mask32].
  - assert (0 < BN_BITS2) by (destruct BITS2_cases; lia).
    rewrite Z.sub_diag, Z.mul_0_l, Z.add_0_r in Hm |- *.
    rewrite Ex. cbn [mbind outcome_bind]. change (u32 (Z.lnot (2 ^ 32 - 1))) with 0.
    rewrite Z.land_0_l, Z.land_0_r, Z.add_0_r, (s32_small r) by lia.
    rewrite BN_num_bits_word_ok by done.
    pose proof (bit_length_range x BN_BITS2 ltac:(destruct BITS2_cases; lia) Wx).
    replace (2 ^ 32 - 1) with (Z.ones 32) by done. rewrite Z.land_ones by lia.
    rewrite Z.mod_small by (destruct BITS2_cases; lia). rewrite s32_small by lia.
    change (Z.ones 32) with (mask32 true). rewrite consttime_past by (done || lia). done.
  - destruct (d_lookup a j H) as (y & _ & _ & ->); [lia|]. cbn [mbind outcome_bind].
    change (u32 (Z.lnot 0)) with (Z.ones 32). rewrite Z.land_0_r, Z.add_0_r.
    change (Z.land (Z.ones 32) (Z.ones 32)) with (Z.ones 32). rewrite Z.land_ones by lia.
    rewrite (Z.mod_small BN_BITS2) by (destruct BITS2_cases; lia).
    assert (0 < BN_BITS2) by (destruct BITS2_cases; lia).
    rewrite (s32_small (r + BN_BITS2)), (s32_small (r + BN_BITS2)) by nia. rewrite (IH _ _ _ _ x) by (done || nia). f_equal. nia.
Qed.

Lemma consttime_none k : forall j a r, wf a -> 0 <= j -> j + Z.of_nat k <= bn_dmax a ->
  exists r', consttime_loop k j a (-1) r 0 = Ret r'.
Proof.
  induction k as [|k IH]; intros j a r H Hj Hk; cbn [consttime_loop]; [by eexists|].
  pose proof WORDS_MAX_small. pose proof (wf_dmax _ H). unfold INT_MAX in *.
  pose proof WORDS_MAX_int.
  rewrite constant_time_eq_int_ok by lia. destruct (Z.eqb_spec (-1) j); [lia|].
  destruct (d_lookup a j H) as (y & _ & _ & ->); [lia|]. cbn [mbind outcome_bind mask32].
  rewrite Z.lor_0_l. apply IH; lia || done.
Qed.

Lemma num_bits_ok a : wf a -> lean a -> BN_num_bits a = Ret (bit_length (mag a)).
Proof.
  intros H L. pose proof (top_int a H) as Ti. unfold BN_num_bits, BN_is_zero.
  assert (0 < BN_BITS2) as PB by (destruct BITS2_cases; lia).
  change (INT_MAX / 4) with 536870911 in Ti.
  destruct (Z.eq_dec (bn_top a) 0) as [E|N].
  - assert (mag a = 0) as -> by (by apply mag_zero). rewrite E. cbn [Z.eqb].
    destruct (has a BN_FLG_CONSTTIME); [|done]. unfold bn_num_bits_consttime. rewrite E.
    destruct (consttime_none (Z.to_nat (bn_dmax a)) 0 a 0 H) as (r & Er); [lia|destruct H; lia|].
    change (0 - 1) with (-1). rewrite Er. cbn [mbind outcome_bind].
    rewrite constant_time_eq_int_ok by lia. cbn [Z.eqb mask32]. change (u32 (Z.lnot (2 ^ 32 - 1))) with 0.
    by rewrite Z.land_0_r.
  - destruct (top_pred a H) as (k & x & Ek & Ex & Eg); [destruct H; lia|].
    destruct (bits_of_top a k x H L Ek Ex) as [Wx Eb]. rewrite Eb.
    assert (0 <= bit_length x <= BN_BITS2) by (apply bit_length_range; [lia|exact Wx]).
    destruct (has a BN_FLG_CONSTTIME).
    + unfold bn_num_bits_consttime.
      rewrite (consttime_before _ 0 a (bn_top a - 1) 0 x)
        by (first [done | destruct H; lia | unfold INT_MAX; nia]).
      cbn [mbind outcome_bind]. rewrite constant_time_eq_int_ok by (destruct H; nia).
      destruct (Z.eqb_spec (bn_top a - 1) (-1)); [lia|]. cbn [mask32]. change (u32 (Z.lnot 0)) with (Z.ones 32).
      rewrite Z.land_ones, (Z.mod_small (u32 _)) by (lia || apply u32_range).
      rewrite s32_u32, s32_small by nia. f_equal. nia.
    + destruct (Z.eqb_spec (bn_top a) 0); [done|]. rewrite Eg. cbn [mbind outcome_bind].
      rewrite BN_num_bits_word_ok by done. rewrite int_op_ok; [f_equal; nia|].
      unfold is_int, INT_MIN, INT_MAX. nia.
Qed.

Lemma is_bit_set_ok a n : wf a -> BN_is_bit_set a n = Ret (Z.b2z (Z.testbit (mag a) n)).
Proof.
  intros H. unfold BN_is_bit_set. destruct (Z.ltb_spec n 0) as [Ln|Hn]; [by rewrite Z.testbit_neg_r|].
  destruct (split_index n Hn) as (Hi & Hj & En). rewrite En at 3.
  unfold mag. rewrite eval_testbit by (done || by apply words_top).
  destruct (Z.leb_spec (bn_top a) (n / BN_BITS2)).
  - rewrite (lookup_ge_None_2 (top_words a)) by (rewrite length_top; [lia|done]). by rewrite Z.bits_0.
  - destruct (d_lookup a (n / BN_BITS2) H) as (x & Ex & Wx & ->); [destruct H; lia|].
    cbn [mbind outcome_bind]. rewrite lookup_top, Ex by lia. cbn [default].
    f_equal. change 1 with (Z.ones 1). rewrite Z.land_ones by lia.
    change (2 ^ 1) with 2. rewrite <- Z.bit0_mod. rewrite Z.shiftr_spec by lia. rewrite Z.add_0_l.
    unfold id. destruct (Z.testbit x (n mod BN_BITS2)); done.
Qed.
End objects.
