(* ===== verification/BnOps.v ===== *)
(** * Big numbers: what the functions of bn_lib.c write

    Each function that writes an object, as an operation on its number: it
    [writes] the new value, in canonical form and with the flags unchanged, or
    refuses for want of memory or of range.  The exchanges of two objects follow. *)

From S2P Require Import Prelude Bytes BnBase BnMem BnLib BnLibCorrect.

Section ops.
Context {c : Build} (ok : nat -> bool).
Implicit Types (s : mem) (o : BIGNUM) (l r : nat).

(** The object [r] has become [o']; allocations may have happened. *)
Definition stored s r o' s' : Prop := objs s' = <[r := o']> (objs s) /\ (next s <= next s')%nat.

(** Why [n] words cannot be had. *)
Definition starved (n : Z) o : Prop :=
  WORDS_MAX < n \/ has o BN_FLG_STATIC_DATA = true \/ exists k, ok k = false.

(** [o'] is [o] with room for [n] words. *)
Record room (n : Z) o o' : Prop := {
  room_wf : wf o';
  room_dmax : n <= bn_dmax o' /\ bn_dmax o <= bn_dmax o';
  room_words : top_words o' = top_words o;
  room_top : bn_top o' = bn_top o;
  room_neg : bn_neg o' = bn_neg o;
  room_flags : bn_flags o' = bn_flags o
}.

Definition writes s r (v : Z) s' : Prop :=
  exists o o', objs s !! r = Some o /\ stored s r o' s' /\ wf o' /\ canon o' /\ val o' = v /\
    bn_flags o' = bn_flags o.

Lemma stored_self s r o : objs s !! r = Some o -> stored s r o s.
Proof. intros E. split; [by rewrite insert_id|done]. Qed.

Lemma stored_lookup s r o' s' l : stored s r o' s' -> objs s' !! l = if decide (l = r) then Some o' else objs s !! l.
Proof.
  intros [-> _]. destruct (decide (l = r)) as [->|N]; [apply lookup_insert_eq|by rewrite lookup_insert_ne by done].
Qed.

Lemma stored_eq s r o' s' : stored s r o' s' -> objs s' !! r = Some o'.
Proof. intros H. by rewrite (stored_lookup _ _ _ _ _ H), decide_True. Qed.

Lemma stored_trans s r o1 s1 o2 s2 : stored s r o1 s1 -> stored s1 r o2 s2 -> stored s r o2 s2.
Proof. intros [E1 L1] [E2 L2]. split; [by rewrite E2, E1, insert_insert_eq|lia]. Qed.

Lemma stored_set s r o1 o2 s1 : stored s r o1 s1 -> stored s r o2 (set_obj r o2 s1).
Proof. intros [E L]. split; cbn; [by rewrite E, insert_insert_eq|done]. Qed.

Lemma stored_set_same s r o o2 : objs s !! r = Some o -> stored s r o2 (set_obj r o2 s).
Proof. intros E. by apply (stored_set _ _ o), stored_self. Qed.

Lemma wr_top_zeros o n : wf o -> bn_top o <= n ->
  let d := blit 0 (top_words o) (replicate (Z.to_nat n) 0) in
  Z.of_nat (length d) = n /\ words d /\ take (Z.to_nat (bn_top o)) d = top_words o.
Proof.
  intros H Hn d. pose proof (length_top o H) as L. destruct H as [H1 H2 H3 H4 H5].
  assert (length d = Z.to_nat n) as Ld by (unfold d; rewrite length_blit, length_replicate; rewrite ?length_replicate; lia).
  split; [lia|]. split; [apply words_blit; [by apply words_take|apply words_zeros]|].
  unfold d, blit. rewrite take_0, app_nil_l, take_app_le by lia. apply take_ge. lia.
Qed.

Lemma bn_expand2_ok l o n s (Q : bool -> mem -> Prop) : objs s !! l = Some o -> wf o -> bn_top o <= n ->
  (forall o' s', stored s l o' s' -> room n o o' -> Q true s') ->
  (forall s', stored s l o s' -> starved n o -> Q false s') ->
  runs (bn_expand2 ok l n) s Q.
Proof.
  intros E H Hn HT HF. unfold bn_expand2. apply runs_bind, (runs_get _ _ _ _ E).
  destruct (Z.ltb_spec (bn_dmax o) n) as [L|G].
  2: { apply runs_ret, (HT o); [by apply stored_self|]. by constructor. }
  unfold bn_expand_internal. apply runs_bind.
  destruct (Z.ltb_spec WORDS_MAX n) as [L2|G2].
  { apply runs_ret, runs_ret, HF; [by apply stored_self|by left]. }
  destruct (has o BN_FLG_STATIC_DATA) eqn:Es.
  { apply runs_ret, runs_ret, HF; [by apply stored_self|right; by left]. }
  apply runs_bind. exists (ok (next s)), {| objs := objs s; next := S (next s) |}. split; [done|].
  set (s1 := {| objs := objs s; next := S (next s) |}).
  assert (stored s l o s1) as S1 by (split; cbn; [by rewrite insert_id|lia]).
  destruct (ok (next s)) eqn:Eok; cbn [negb].
  2: { apply runs_ret, runs_ret, HF; [done|]. right; right. by exists (next s). }
  pose proof (wr_top_zeros o n H Hn) as (D1 & D2 & D3).
  assert (runs (put l (set_dmax n (set_d (blit 0 (top_words o) (replicate (Z.to_nat n) 0)) o)) ≫= (fun _ => ret true)) s1 Q) as HQ.
  { apply runs_bind. eapply runs_put; [exact E|]. apply runs_ret.
    eapply HT; [apply (stored_set _ _ o), S1|]. destruct H as [H1 H2 H3 H4 H5].
    constructor; try done; [constructor; cbn; try done; lia|cbn; lia]. }
  destruct (Z.ltb_spec 0 (bn_top o)) as [Lt|Gt].
  - apply runs_bind, (runs_lift (top_words o)).
    { rewrite mem_read_ok by (destruct H; lia). by rewrite drop_0. }
    apply runs_bind, (runs_lift (blit 0 (top_words o) (replicate (Z.to_nat n) 0))).
    { apply mem_write_ok; [done|]. rewrite length_top, length_replicate by done. destruct H; lia. }
    by apply runs_ret.
  - apply runs_ret. assert (top_words o = []) as E0.
    { unfold top_words. destruct H. by replace (Z.to_nat (bn_top o)) with 0%nat by lia. }
    rewrite E0, blit_nil in HQ. exact HQ.
Qed.

Lemma bn_wexpand_ok l o n s (Q : bool -> mem -> Prop) : objs s !! l = Some o -> wf o -> bn_top o <= n ->
  (forall o' s', stored s l o' s' -> room n o o' -> Q true s') ->
  (forall s', stored s l o s' -> starved n o -> Q false s') ->
  runs (bn_wexpand ok l n) s Q.
Proof.
  intros E H Hn HT HF. unfold bn_wexpand. apply runs_bind, (runs_get _ _ _ _ E).
  destruct (Z.leb_spec n (bn_dmax o)).
  - apply runs_ret, (HT o); [by apply stored_self|]. constructor; try done.
  - by eapply bn_expand2_ok.
Qed.

(** Expansion to fewer words than are in use changes nothing. *)
Lemma bn_wexpand_any l o n s (Q : bool -> mem -> Prop) : objs s !! l = Some o -> wf o ->
  (forall o' s', stored s l o' s' -> room n o o' -> Q true s') ->
  (forall s', stored s l o s' -> starved n o -> Q false s') ->
  runs (bn_wexpand ok l n) s Q.
Proof.
  intros E H HT HF. destruct (Z.le_gt_cases (bn_top o) n); [by eapply bn_wexpand_ok|].
  unfold bn_wexpand. apply runs_bind, (runs_get _ _ _ _ E).
  destruct (Z.leb_spec n (bn_dmax o)); [|destruct H; lia].
  apply runs_ret, (HT o); [by apply stored_self|]. constructor; try done.
Qed.

Lemma room_mag n o o' : room n o o' -> mag o' = mag o.
Proof. intros H. unfold mag. by rewrite (room_words _ _ _ H). Qed.

Lemma bn_correct_top_ok l o s (Q : unit -> mem -> Prop) : objs s !! l = Some o -> wf o ->
  (forall o', wf o' -> canon o' -> val o' = val o -> bn_flags o' = bn_flags o -> bn_dmax o' = bn_dmax o ->
    Q tt (set_obj l o' s)) -> runs (bn_correct_top l) s Q.
Proof.
  intros E H HQ. unfold bn_correct_top. apply runs_bind, (runs_get _ _ _ _ E).
  destruct (correct_top_ok o H) as (o' & Eo & Hw & Hc & Hv & Hd & Hm & Hf).
  apply runs_bind, (runs_lift _ _ _ _ Eo). eapply runs_put; [exact E|]. by apply HQ.
Qed.

(** ** Single words *)

Lemma canon_word o (w : Z) : is_word w -> bn_top o = (if w =? 0 then 0 else 1) -> bn_neg o = 0 ->
  bn_d o !! 0%nat = Some w -> canon o.
Proof.
  intros Hw Ht Hn Hd. split; [|done]. intros k Ek. destruct (Z.eqb_spec w 0); [lia|].
  assert (k = 0)%nat as -> by lia. congruence.
Qed.

Lemma BN_set_word_ok l o w s : objs s !! l = Some o -> wf o -> is_word w ->
  runs (BN_set_word ok l w) s (fun b s' =>
    if b then writes s l w s' else stored s l o s' /\ starved 1 o).
Proof.
  intros E H Hw. unfold BN_set_word, bn_expand.
  assert (BN_BYTES * 8 = BN_BITS2) as -> by done.
  assert ((BN_BITS2 + BN_BITS2 - 1) / BN_BITS2 = 1) as E1 by (destruct BITS2_cases as [-> | ->]; done).
  apply runs_bind.
  destruct (Z.ltb_spec (INT_MAX - BN_BITS2 + 1) BN_BITS2) as [L|_];
    [exfalso; unfold INT_MAX in L; destruct BITS2_cases as [B|B]; rewrite B in L; lia|].
  rewrite E1. apply runs_bind, (runs_get _ _ _ _ E).
  assert (forall o' s', stored s l o' s' -> room 1 o o' ->
    runs (if negb true then ret false
      else o ← get l; d ← lift (aset (bn_d o) 0 w);
           _ ← put l (unfix (set_top (if negb (w =? 0) then 1 else 0) (set_d d (set_neg 0 o)))); ret true) s'
      (fun b s' => if b then writes s l w s' else stored s l o s' /\ starved 1 o)) as HT.
  { intros o' s' St R. pose proof (room_wf _ _ _ R) as Hw'. pose proof (room_dmax _ _ _ R) as Hd. cbn [negb].
    apply runs_bind, (runs_get _ _ _ _ (stored_eq _ _ _ _ St)). pose proof Hw' as [W1 W2 W3 W4 W5].
    apply runs_bind, (runs_lift (<[0%nat := w]> (bn_d o'))); [apply aset_ok; lia|].
    apply runs_bind. eapply runs_put; [by eapply stored_eq|]. apply runs_ret. rewrite unfix_same.
    destruct (bn_d o') as [|x d] eqn:Ed; [cbn in W1; lia|]. cbn [insert list_insert].
    change (<[0%nat := w]> (x :: d)) with (w :: d).
    eexists o, _. split; [done|]. split; [by eapply stored_set|].
    assert (words (w :: d)) as Wd by (constructor; [done|by inversion W2]).
    split; [|split; [|split]].
    - constructor; cbn; try done; [destruct (w =? 0); cbn; lia|by left].
    - apply (canon_word _ w); cbn; try done. by destruct (w =? 0).
    - unfold val, mag, top_words. cbn [bn_neg bn_top bn_d set_top set_d set_neg Z.eqb].
      destruct (Z.eqb_spec w 0) as [->|]; [done|]. change (eval (take 1 (w :: d)) = w). change (w + BASE * 0 = w). ring.
    - cbn. by rewrite (room_flags _ _ _ R). }
  destruct (Z.leb_spec 1 (bn_dmax o)).
  - apply runs_ret, (HT o); [by apply stored_self|]. by constructor.
  - eapply bn_expand2_ok; [done|done|destruct H; lia|exact HT|].
    intros s' S' F. apply runs_ret. by split.
Qed.

Lemma BN_zero_ok l o s : objs s !! l = Some o -> wf o ->
  runs (BN_zero l) s (fun _ s' => writes s l 0 s').
Proof.
  intros E H. apply (runs_modify _ _ _ _ _ E). rewrite unfix_same.
  eexists o, _. split; [done|]. split; [by eapply stored_set_same|]. destruct H as [H1 H2 H3 H4 H5].
  split; [constructor; cbn; try done; [lia|by left]|]. split; [|done].
  split; [intros k Ek; cbn in Ek; lia|done].
Qed.

Lemma BN_set_negative_ok l o b s : objs s !! l = Some o -> wf o -> canon o ->
  runs (BN_set_negative l b) s (fun _ s' =>
    writes s l (if b =? 0 then Z.abs (val o) else - Z.abs (val o)) s').
Proof.
  intros E H [Hl Hn]. apply (runs_modify _ _ _ _ _ E).
  eexists o, _. split; [done|]. split; [by eapply stored_set_same|]. rewrite (val_sign o H).
  pose proof H as [H1 H2 H3 H4 H5]. unfold BN_is_zero.
  split; [constructor; cbn; try done; destruct (negb (b =? 0) && negb (bn_top o =? 0)); auto|].
  split; [split; [exact Hl|]|split; [|done]].
  - cbn. intros ->. by rewrite andb_false_r.
  - unfold val. cbn [bn_neg set_neg]. change (mag (set_neg _ o)) with (mag o).
    destruct (Z.eqb_spec b 0); cbn [negb andb]; [done|].
    destruct (Z.eqb_spec (bn_top o) 0) as [E0|]; cbn [negb]; [|done].
    apply (mag_zero o H Hl) in E0. cbn. lia.
Qed.

(** ** Copies *)

Lemma BN_copy_ok a b oa ob s : objs s !! a = Some oa -> objs s !! b = Some ob -> wf oa -> wf ob -> canon ob ->
  runs (BN_copy ok a b) s (fun got s' =>
    if got then writes s a (val ob) s' else stored s a oa s' /\ starved (bn_dmax ob) oa).
Proof.
  intros Ea Eb Ha Hb Cb. unfold BN_copy. apply runs_bind, (runs_get _ _ _ _ Eb).
  destruct (decide (a = b)) as [->|N].
  { apply runs_ret. assert (oa = ob) as -> by congruence. exists ob, ob. split_and!; try done. by apply stored_self. }
  set (n := if has ob BN_FLG_CONSTTIME then bn_dmax ob else bn_top ob).
  assert (bn_top ob <= n <= bn_dmax ob) as Hn by (unfold n; destruct Hb, (has ob BN_FLG_CONSTTIME); lia).
  apply runs_bind, (bn_wexpand_any _ oa); [done|done| |].
  2: { intros s' S' F. apply runs_ret. split; [done|]. destruct F as [F|F]; [left; lia|by right]. }
  intros o' s' S' R. cbn [negb]. apply runs_bind, (runs_get _ _ _ _ (stored_eq _ _ _ _ S')).
  pose proof (room_wf _ _ _ R) as [W1 W2 W3 W4 W5]. pose proof (room_dmax _ _ _ R).
  pose proof Hb as [B1 B2 B3 B4 B5].
  assert (exists d, (if 0 <? bn_top ob then w ← lift (mem_read (bn_d ob) 0 n); lift (mem_write (bn_d o') 0 w)
      else ret (bn_d o')) s' = Ret (d, s') /\ length d = length (bn_d o') /\ words d /\
      take (Z.to_nat (bn_top ob)) d = top_words ob) as (d & Ed & Ld & Wd & Td).
  { destruct (Z.ltb_spec 0 (bn_top ob)).
    - exists (blit 0 (take (Z.to_nat n) (bn_d ob)) (bn_d o')).
      rewrite mem_read_ok, drop_0 by lia. split; [|split; [|split]].
      + unfold mbind, prog_bind, lift. cbn. rewrite mem_write_ok; [done|done|]. rewrite length_take. lia.
      + apply length_blit. rewrite length_take. lia.
      + apply words_blit; [by apply words_take|done].
      + unfold blit, top_words. rewrite take_0, app_nil_l, take_app_le, take_take by (rewrite length_take; lia).
        f_equal. lia.
    - exists (bn_d o'). split_and!; [done|done|done|]. unfold top_words.
      by replace (Z.to_nat (bn_top ob)) with 0%nat by lia. }
  apply runs_bind. exists d, s'. split; [exact Ed|]. apply runs_bind.
  eapply runs_put; [by eapply stored_eq|]. apply runs_ret.
  assert (forall k, (k < Z.to_nat (bn_top ob))%nat -> d !! k = bn_d ob !! k) as Lk.
  { intros k Hk. transitivity (take (Z.to_nat (bn_top ob)) d !! k); [by rewrite lookup_take_lt|].
    rewrite Td. apply lookup_top. lia. }
  eexists oa, _. split; [done|]. split; [by eapply stored_set|]. split; [|split; [|split]].
  - constructor; cbn; try done; [by rewrite Ld|lia].
  - destruct Cb as [C1 C2]. split; [|exact C2]. intros k Ek. cbn in Ek |- *. rewrite Lk by lia. by apply C1.
  - unfold val, mag. cbn [bn_neg set_flags set_top set_neg set_d]. unfold top_words at 1 2. cbn. by rewrite Td.
  - cbn. unfold BN_FLG_FIXED_TOP. rewrite Z.land_0_r, Z.lor_0_r. by rewrite (room_flags _ _ _ R).
Qed.

(** ** Bits *)

(** [m] with the sign of [v]. *)
Definition with_sign (v m : Z) : Z := if v <? 0 then - m else m.

Lemma val_with_sign o o' : wf o -> canon o -> bn_neg o' = bn_neg o -> val o' = with_sign (val o) (mag o').
Proof.
  intros H C E. pose proof (val_neg o H C) as N. unfold with_sign, val at 1. rewrite E.
  destruct (wf_neg _ H) as [E0|E0]; rewrite E0 in *; cbn; destruct (Z.ltb_spec (val o) 0); lia.
Qed.

(** A word that is in use is replaced. *)
Lemma set_word_at o (i : nat) v : wf o -> Z.of_nat i < bn_top o -> is_word v ->
  let o' := set_d (<[i := v]> (bn_d o)) o in wf o' /\ top_words o' = <[i := v]> (top_words o).
Proof.
  intros H Hi Hv o'. destruct H as [H1 H2 H3 H4 H5]. split.
  - constructor; cbn; try done; [by rewrite length_insert|by apply words_insert].
  - unfold top_words. cbn. apply list_eq. intros k. destruct (decide (k < Z.to_nat (bn_top o))%nat).
    + rewrite lookup_take_lt by done. destruct (decide (k = i)) as [->|N].
      * rewrite !list_lookup_insert_eq; [done|rewrite length_take; lia|lia].
      * rewrite !list_lookup_insert_ne by done. by rewrite lookup_take_lt.
    + rewrite lookup_take_ge by lia. rewrite list_lookup_insert_ne by lia. by rewrite lookup_take_ge by lia.
Qed.

Lemma runs_at l i o s x (Q : Z -> mem -> Prop) : objs s !! l = Some o -> 0 <= i ->
  bn_d o !! Z.to_nat i = Some x -> Q x s -> runs (ldw (l, 0) i) s Q.
Proof. intros E Hi Ex HQ. by apply (runs_ldw (l, 0) i o x). Qed.

Lemma runs_set_at l i v o s (Q : unit -> mem -> Prop) : objs s !! l = Some o ->
  0 <= i < Z.of_nat (length (bn_d o)) ->
  Q tt (set_obj l (set_d (<[Z.to_nat i := v]> (bn_d o)) o) s) -> runs (stw (l, 0) i v) s Q.
Proof. intros E Hi HQ. by apply (runs_stw (l, 0) i v o). Qed.

Lemma bit_word j : 0 <= j < BN_BITS2 -> ul (Z.shiftl 1 j) = 2 ^ j /\ is_word (2 ^ j).
Proof.
  intros Hj. assert (is_word (2 ^ j)) as W.
  { unfold is_word, BASE. split; [apply Z.pow_nonneg; lia|]. apply Z.pow_lt_mono_r; lia. }
  rewrite Z.shiftl_mul_pow2, Z.mul_1_l by lia. by rewrite ul_small.
Qed.

Lemma word_bits x : is_word x <-> 0 <= x /\ forall n, BN_BITS2 <= n -> Z.testbit x n = false.
Proof.
  unfold is_word, BASE. assert (0 < BN_BITS2) by (destruct BITS2_cases; lia). split.
  - intros [H0 H1]. split; [done|]. intros n Hn. rewrite <- (Z.mod_small x (2 ^ BN_BITS2)) by done.
    apply Z.mod_pow2_bits_high. lia.
  - intros [H0 Hb]. split; [done|]. destruct (Z.eq_dec x 0) as [->|]; [by apply Z.pow_pos_nonneg; lia|].
    apply Z.log2_lt_pow2; [lia|]. destruct (Z.lt_ge_cases (Z.log2 x) BN_BITS2) as [|G]; [done|].
    specialize (Hb _ G). rewrite Z.bit_log2 in Hb by lia. done.
Qed.

Lemma lor_word x y : is_word x -> is_word y -> is_word (Z.lor x y).
Proof.
  intros [X1 X2]%word_bits [Y1 Y2]%word_bits. apply word_bits. split; [by apply Z.lor_nonneg|].
  intros n Hn. by rewrite Z.lor_spec, X2, Y2.
Qed.

Lemma land_word x y : is_word x -> is_word (Z.land x y).
Proof.
  intros [X1 X2]%word_bits. apply word_bits. split; [apply Z.land_nonneg; auto|].
  intros n Hn. by rewrite Z.land_spec, X2.
Qed.

(** The bits of a number after one of its words has been replaced. *)
Lemma eval_replaced w (i : nat) x v z : words w -> w !! i = Some x -> is_word v -> 0 <= z ->
  (forall i' j, 0 <= i' -> 0 <= j < BN_BITS2 -> Z.testbit z (i' * BN_BITS2 + j) =
    if decide (i' = Z.of_nat i) then Z.testbit v j else Z.testbit (eval w) (i' * BN_BITS2 + j)) ->
  eval (<[i := v]> w) = z.
Proof.
  intros W E Wv Hz H. apply eval_bits; [by apply words_insert|done|]. intros i' j Hi Hj. rewrite H by done.
  destruct (decide (i' = Z.of_nat i)) as [->|N].
  - rewrite Nat2Z.id, list_lookup_insert_eq by (by eapply lookup_lt_Some). done.
  - rewrite eval_testbit by done. rewrite list_lookup_insert_ne by lia. done.
Qed.

Lemma same_bit i j n : 0 <= n -> 0 <= i -> 0 <= j < BN_BITS2 ->
  (i * BN_BITS2 + j = n <-> i = n / BN_BITS2 /\ j = n mod BN_BITS2).
Proof.
  intros Hn Hi Hj. destruct (split_index n Hn) as (H1 & H2 & E).
  split; [|intros [-> ->]; lia]. intros <-. split.
  - apply Z.div_unique with j; lia.
  - apply Z.mod_unique with i; lia.
Qed.

Lemma BN_set_bit_ok l o n s : objs s !! l = Some o -> wf o -> canon o -> 0 <= n ->
  runs (BN_set_bit ok l n) s (fun b s' =>
    if b then writes s l (with_sign (val o) (Z.setbit (mag o) n)) s'
    else stored s l o s' /\ starved (n / BN_BITS2 + 1) o).
Proof.
  intros E H C Hn. unfold BN_set_bit. destruct (Z.ltb_spec n 0); [lia|].
  destruct (split_index n Hn) as (Hi & Hj & En). set (i := n / BN_BITS2) in *. set (j := n mod BN_BITS2) in *.
  destruct (bit_word j Hj) as [Ej Wj]. rewrite Ej.
  (* the second half, from an object that has the word *)
  assert (forall o1 s1, stored s l o1 s1 -> wf o1 -> i < bn_top o1 -> mag o1 = mag o -> bn_neg o1 = bn_neg o ->
    bn_flags o1 = bn_flags o -> (forall k, bn_top o1 = Z.of_nat (S k) -> k <> Z.to_nat i -> bn_d o1 !! k <> Some 0) ->
    runs (x ← ldw (l, 0) i; _ ← stw (l, 0) i (Z.lor x (2 ^ j)); ret true) s1
      (fun b s' => if b then writes s l (with_sign (val o) (Z.setbit (mag o) n)) s'
        else stored s l o s' /\ starved (i + 1) o)) as Second.
  { intros o1 s1 S1 H1 Ht Em En1 Ef Hl.
    destruct (d_lookup o1 i H1) as (x & Ex & Wx & _); [destruct H1; lia|].
    apply runs_bind. eapply runs_at; [by eapply stored_eq|done|exact Ex|].
    apply runs_bind. eapply runs_set_at; [by eapply stored_eq|destruct H1; lia|]. apply runs_ret.
    pose proof (lor_word _ _ Wx Wj) as Wv.
    destruct (set_word_at o1 (Z.to_nat i) (Z.lor x (2 ^ j)) H1 ltac:(lia) Wv) as [W' T'].
    eexists o, _. split; [done|]. split; [by eapply stored_set|]. split; [done|].
    assert (mag (set_d (<[Z.to_nat i := Z.lor x (2 ^ j)]> (bn_d o1)) o1) = Z.setbit (mag o) n) as Em'.
    { unfold mag at 1. rewrite T'. rewrite <- Em. eapply eval_replaced; [by apply words_top| |done| |].
      - rewrite lookup_top by lia. exact Ex.
      - apply Z.lor_nonneg. split; [apply mag_bounds, H1|]. apply Z.shiftl_nonneg. lia.
      - intros i' j' Hi' Hj'. rewrite Z.setbit_eqb by lia. change (eval (top_words o1)) with (mag o1).
        destruct (decide (i' = Z.of_nat (Z.to_nat i))) as [->|N].
        + rewrite Z2Nat.id by done. rewrite Z.lor_spec. unfold mag. rewrite eval_testbit by (done || by apply words_top).
          rewrite lookup_top, Ex by lia. cbn [default]. unfold id. rewrite orb_comm. f_equal.
          destruct (Z.eqb_spec n (i * BN_BITS2 + j')) as [E1|E1].
          * assert (j' = j) as -> by lia. by rewrite Z.pow2_bits_true by lia.
          * rewrite Z.pow2_bits_false; [done|]. intros ->. lia.
        + destruct (Z.eqb_spec n (i' * BN_BITS2 + j')) as [E1|E1]; [|done].
          symmetry in E1. apply same_bit in E1; [|done|done|done]. unfold i in N. lia. }
    split; [|split; [|exact Ef]].
    - split.
      + intros k Ek. cbn in Ek |- *. destruct (decide (k = Z.to_nat i)) as [->|N].
        * rewrite list_lookup_insert_eq by (destruct H1; lia). intros [= E0].
          assert (Z.testbit (Z.lor x (2 ^ j)) j = true) as Eb by (rewrite Z.lor_spec, Z.pow2_bits_true, orb_true_r by lia; done).
          rewrite E0, Z.bits_0 in Eb. done.
        * rewrite list_lookup_insert_ne by done. by apply Hl.
      + cbn. lia.
    - rewrite <- Em'. by apply val_with_sign. }
  apply runs_bind, (runs_get _ _ _ _ E). apply runs_bind.
  destruct (Z.leb_spec (bn_top o) i) as [Lt|Ge].
  2: { apply runs_ret. apply (Second o); try done; [by apply stored_self|]. intros k Ek _. by apply C. }
  apply runs_bind. eapply bn_wexpand_ok; [done|done|lia| |].
  2: { intros s' S' F. cbn [negb]. apply runs_ret, runs_ret. by split. }
  intros o' s' S' R. cbn [negb]. pose proof (room_wf _ _ _ R) as Hw'. pose proof Hw' as [W1 W2 W3 W4 W5].
  pose proof (room_dmax _ _ _ R). pose proof (room_top _ _ _ R) as Rt.
  apply runs_bind, (runs_get _ _ _ _ (stored_eq _ _ _ _ S')).
  set (z := replicate (Z.to_nat (i + 1 - bn_top o')) 0).
  set (d' := blit (Z.to_nat (bn_top o')) z (bn_d o')).
  assert (length z = Z.to_nat (i + 1 - bn_top o')) as Lz by apply length_replicate.
  apply runs_bind, (runs_lift d'); [apply mem_write_ok; lia|].
  apply runs_bind. eapply runs_put; [by eapply stored_eq|]. apply runs_ret. cbn [negb]. rewrite unfix_same.
  assert (length d' = length (bn_d o')) as Ld by (apply length_blit; lia).
  assert (top_words (set_top (i + 1) (set_d d' o')) = top_words o' ++ z) as Tw.
  { unfold top_words. cbn. unfold d', blit. rewrite app_assoc, take_app_le by (rewrite length_app, length_take; lia).
    rewrite take_ge; [done|]. rewrite length_app, length_take. lia. }
  apply (Second (set_top (i + 1) (set_d d' o'))).
  - by eapply stored_set.
  - constructor; cbn; try done; [by rewrite Ld|apply words_blit; [apply words_zeros|done]|lia].
  - cbn. lia.
  - unfold mag at 1. rewrite Tw. unfold z. rewrite eval_zeros_r. by rewrite (room_words _ _ _ R).
  - cbn. apply R.
  - cbn. apply R.
  - intros k Ek. cbn in Ek. lia.
Qed.

Lemma not_word m : is_word m -> ul (Z.lnot m) = BASE - 1 - m.
Proof. intros H. unfold ul, Z.lnot. symmetry. apply Z.mod_unique with (-1); unfold is_word in H; lia. Qed.

(** [x & ~m], as [Z.ldiff]. *)
Lemma clear_word x m : is_word x -> is_word m -> Z.land x (ul (Z.lnot m)) = Z.ldiff x m.
Proof.
  intros Hx Hm. rewrite Z.ldiff_land. apply Z.bits_inj'. intros n Hn. rewrite !Z.land_spec.
  unfold ul, BASE. destruct (Z.lt_ge_cases n BN_BITS2).
  - by rewrite Z.mod_pow2_bits_low by done.
  - apply word_bits in Hx as [_ Hx]. by rewrite Hx by done.
Qed.

Lemma BN_clear_bit_ok l o n s : objs s !! l = Some o -> wf o -> canon o -> 0 <= n ->
  runs (BN_clear_bit l n) s (fun b s' =>
    if b then writes s l (with_sign (val o) (Z.clearbit (mag o) n)) s'
    else s' = s /\ Z.clearbit (mag o) n = mag o).
Proof.
  intros E H C Hn. unfold BN_clear_bit. destruct (Z.ltb_spec n 0); [lia|].
  destruct (split_index n Hn) as (Hi & Hj & En). set (i := n / BN_BITS2) in *. set (j := n mod BN_BITS2) in *.
  destruct (bit_word j Hj) as [Ej Wj]. rewrite Ej.
  apply runs_bind, (runs_get _ _ _ _ E). destruct (Z.leb_spec (bn_top o) i) as [Lt|Ge].
  { apply runs_ret. split; [done|]. apply Z.bits_inj'. intros k Hk. rewrite Z.clearbit_eqb by done.
    destruct (Z.eqb_spec n k) as [<-|]; [|by rewrite andb_true_r]. cbn. rewrite andb_false_r, En.
    unfold mag. rewrite eval_testbit by (done || by apply words_top).
    rewrite lookup_ge_None_2; [by rewrite Z.bits_0|]. rewrite length_top by done. lia. }
  destruct (d_lookup o i H) as (x & Ex & Wx & _); [destruct H; lia|].
  apply runs_bind. eapply runs_at; [done|done|exact Ex|]. rewrite clear_word by done.
  apply runs_bind. eapply runs_set_at; [done|destruct H; lia|].
  assert (is_word (Z.ldiff x (2 ^ j))) as Wv by (rewrite Z.ldiff_land; by apply land_word).
  destruct (set_word_at o (Z.to_nat i) (Z.ldiff x (2 ^ j)) H ltac:(lia) Wv) as [W' T'].
  set (o1 := set_d _ o) in *.
  assert (mag o1 = Z.clearbit (mag o) n) as Em.
  { unfold mag at 1. rewrite T'. eapply eval_replaced; [by apply words_top| |done| |].
    - rewrite lookup_top by lia. exact Ex.
    - apply Z.ldiff_nonneg. left. apply mag_bounds, H.
    - intros i' j' Hi' Hj'. rewrite Z.clearbit_eqb by lia. change (eval (top_words o)) with (mag o).
      destruct (decide (i' = Z.of_nat (Z.to_nat i))) as [->|N].
      + rewrite Z2Nat.id by done. rewrite Z.ldiff_spec. unfold mag. rewrite eval_testbit by (done || by apply words_top).
        rewrite lookup_top, Ex by lia. cbn [default]. unfold id. f_equal. f_equal.
        destruct (Z.eqb_spec n (i * BN_BITS2 + j')) as [E1|E1].
        * assert (j' = j) as -> by lia. by rewrite Z.pow2_bits_true by lia.
        * rewrite Z.pow2_bits_false; [done|]. intros ->. lia.
      + destruct (Z.eqb_spec n (i' * BN_BITS2 + j')) as [E1|E1]; [|by rewrite andb_true_r].
        symmetry in E1. apply same_bit in E1; [|done|done|done]. unfold i in N. lia. }
  apply runs_bind. eapply bn_correct_top_ok; [apply (stored_eq _ _ _ _ (stored_set_same s l o o1 E))|done|].
  intros o2 H2 C2 V2 F2 _. apply runs_ret. exists o, o2. split; [done|].
  split; [eapply stored_set, stored_set_same, E|]. split; [done|]. split; [done|]. split; [|exact F2].
  rewrite V2, <- Em. by apply val_with_sign.
Qed.

Lemma BN_mask_bits_ok l o n s : objs s !! l = Some o -> wf o -> canon o -> 0 <= n ->
  runs (BN_mask_bits l n) s (fun b s' =>
    if b then writes s l (with_sign (val o) (mag o mod 2 ^ n)) s' else s' = s /\ mag o < 2 ^ n).
Proof.
  intros E H C Hn. unfold BN_mask_bits. destruct (Z.ltb_spec n 0); [lia|].
  destruct (split_index n Hn) as (Hi & Hj & En). set (i := n / BN_BITS2) in *. set (j := n mod BN_BITS2) in *.
  assert (0 < BN_BITS2) as PB by (destruct BITS2_cases; lia).
  apply runs_bind, (runs_get _ _ _ _ E). destruct (Z.leb_spec (bn_top o) i) as [Lt|Ge].
  { apply runs_ret. split; [done|]. pose proof (mag_bounds o H) as B. rewrite weight_bits in B.
    eapply Z.lt_le_trans; [apply B|]. apply Z.pow_le_mono_r; [lia|]. destruct H; nia. }
  assert (forall o1, wf o1 -> bn_neg o1 = bn_neg o -> bn_flags o1 = bn_flags o -> mag o1 = mag o mod 2 ^ n ->
    forall s1, stored s l o1 s1 -> runs (_ ← bn_correct_top l; ret true) s1 (fun b s' =>
    if b then writes s l (with_sign (val o) (mag o mod 2 ^ n)) s' else s' = s /\ mag o < 2 ^ n)) as Last.
  { intros o1 H1 N1 F1 M1 s1 S1. apply runs_bind.
    eapply bn_correct_top_ok; [by eapply stored_eq|done|].
    intros o2 H2 C2 V2 F2 _. apply runs_ret. exists o, o2. split; [done|].
    split; [by eapply stored_set|]. split; [done|]. split; [done|]. split; [|by rewrite F2].
    rewrite V2, <- M1. by apply val_with_sign. }
  pose proof (words_top o H) as Wt. pose proof (length_top o H) as Lt.
  destruct (eval_div (top_words o) (Z.to_nat i) Wt) as [_ Em]; [lia|].
  rewrite weight_bits, Z2Nat.id, Z.mul_comm in Em by done.
  assert (forall k, (k <= Z.to_nat (bn_top o))%nat -> take k (top_words o) = take k (bn_d o)) as Tk.
  { intros k Hk. unfold top_words. rewrite take_take. f_equal. lia. }
  apply runs_bind. destruct (Z.eqb_spec j 0) as [Ej|Nj].
  - eapply runs_modify; [done|]. apply (Last (set_top i o)); [|done|done| |by eapply stored_set_same].
    + destruct H as [H1 H2 H3 H4 H5]. constructor; cbn; try done. lia.
    + rewrite En, Ej, Z.add_0_r. fold (mag o) in Em. rewrite Em. unfold mag, top_words at 1. cbn.
      by rewrite Tk by lia.
  - set (o1 := set_top (i + 1) o).
    assert (wf o1) as H1 by (destruct H as [H1 H2 H3 H4 H5]; constructor; cbn; try done; lia).
    apply runs_bind. eapply runs_modify; [done|].
    destruct (d_lookup o i H) as (x & Ex & Wx & _); [destruct H; lia|].
    apply runs_bind. eapply runs_at; [by apply (stored_eq _ _ _ _ (stored_set_same s l o o1 E))|done|exact Ex|].
    eapply runs_set_at; [by apply (stored_eq _ _ _ _ (stored_set_same s l o o1 E))|destruct H; cbn; lia|].
    assert (Z.land x (ul (Z.lnot (ul (Z.shiftl BN_MASK2 j)))) = x mod 2 ^ j) as ->.
    { rewrite clear_word by (done || apply ul_word). rewrite <- Z.land_ones by lia.
      apply Z.bits_inj'. intros k Hk. rewrite Z.ldiff_spec, Z.land_spec, MASK2_ones.
      destruct (Z.lt_ge_cases k BN_BITS2) as [Lk|Gk].
      - f_equal. unfold ul, BASE. rewrite Z.mod_pow2_bits_low, Z.shiftl_spec by lia.
        destruct (Z.lt_ge_cases k j).
        + by rewrite Z.testbit_neg_r, Z.ones_spec_low by lia.
        + by rewrite Z.ones_spec_low, Z.ones_spec_high by lia.
      - apply word_bits in Wx as [_ Hx]. by rewrite Hx by done. }
    assert (is_word (x mod 2 ^ j)) as Wv.
    { unfold is_word in *. assert (0 < 2 ^ j) by (apply Z.pow_pos_nonneg; lia).
      pose proof (Z.mod_pos_bound x (2 ^ j)). pose proof (Z.mod_le x (2 ^ j)). lia. }
    destruct (set_word_at o1 (Z.to_nat i) (x mod 2 ^ j) H1 ltac:(cbn; lia) Wv) as [H2 T2].
    apply (Last (set_d (<[Z.to_nat i := x mod 2 ^ j]> (bn_d o1)) o1)); [done|done|done| |by eapply stored_set, stored_set_same].
    assert (top_words o1 = take (S (Z.to_nat i)) (top_words o)) as T1.
    { rewrite Tk by lia. unfold top_words. cbn. f_equal. lia. }
    unfold mag at 1. rewrite T2, T1. eapply eval_replaced.
    + by apply words_take.
    + rewrite lookup_take_lt, lookup_top by lia. exact Ex.
    + done.
    + apply Z.mod_pos_bound, Z.pow_pos_nonneg; lia.
    + intros i' j' Hi' Hj'. unfold mag.
      destruct (decide (i' = Z.of_nat (Z.to_nat i))) as [->|N].
      * rewrite Z2Nat.id by done. rewrite En. destruct (Z.lt_ge_cases j' j) as [Lj|Gj].
        -- rewrite !Z.mod_pow2_bits_low, eval_testbit by (lia || done). rewrite lookup_top, Ex by lia. done.
        -- by rewrite !Z.mod_pow2_bits_high by lia.
      * destruct (Z.lt_ge_cases i' i) as [Li|Gi].
        -- rewrite Z.mod_pow2_bits_low by nia. rewrite !eval_testbit by (done || by apply words_take).
           by rewrite lookup_take_lt by lia.
        -- rewrite Z.mod_pow2_bits_high by nia. rewrite eval_testbit by (done || by apply words_take).
           rewrite lookup_take_ge by lia. by rewrite Z.bits_0.
Qed.
End ops.

(** * Exchanges

    [BN_swap] exchanges two objects, and [BN_consttime_swap] their numbers or
    nothing, by the same reads and writes. *)

Section swap.
Context {c : Build}.
Implicit Types (s : mem) (o : BIGNUM) (a b : nat).

Lemma land_below k x y : 0 <= k -> 0 <= x < 2 ^ k -> Z.land x y < 2 ^ k.
Proof.
  intros Hk Hx. rewrite <- (Z.mod_small x (2 ^ k)), <- Z.land_ones, <- Z.land_assoc, (Z.land_comm (Z.ones k)), Z.land_assoc by done.
  rewrite Z.land_ones by done. apply Z.mod_pos_bound. apply Z.pow_pos_nonneg; lia.
Qed.

Lemma swap_mask_ok w : is_word w -> swap_mask w = if w =? 0 then 0 else BASE - 1.
Proof.
  intros W. unfold swap_mask. pose proof BASE_pos. assert (0 < BN_BITS2) as PB by (destruct BITS2_cases; lia).
  pose proof BASE_even as HE. set (h := 2 ^ (BN_BITS2 - 1)) in *.
  assert (0 <= Z.land (ul (Z.lnot w)) (ul (w - 1)) < BASE) as R.
  { apply land_word, ul_word. }
  rewrite Z.shiftr_div_pow2 by lia. fold h. unfold is_word in W. destruct (Z.eqb_spec w 0) as [->|N].
  - assert (Z.land (ul (Z.lnot 0)) (ul (0 - 1)) = BASE - 1) as ->.
    { change (Z.lnot 0) with (-1). change (0 - 1) with (-1). rewrite Z.land_diag. symmetry. apply Z.mod_unique with (-1); lia. }
    assert ((BASE - 1) / h = 1) as -> by (symmetry; apply Z.div_unique with (h - 1); lia). by apply Z.mod_0_l; lia.
  - (* the top bits of [~w] and of [w - 1] are not both set *)
    assert (Z.land (ul (Z.lnot w)) (ul (w - 1)) < h) as L.
    { assert (ul (Z.lnot w) = BASE - 1 - w) as E1 by (unfold ul, Z.lnot; symmetry; apply Z.mod_unique with (-1); lia).
      assert (ul (w - 1) = w - 1) as E2 by (unfold ul; apply Z.mod_small; lia).
      rewrite E1, E2 in *. destruct (Z.lt_ge_cases w h).
      - rewrite Z.land_comm. apply land_below; lia.
      - apply land_below; lia. }
    rewrite Z.div_small by lia. unfold ul. symmetry. apply Z.mod_unique with (-1); lia.
Qed.

Lemma masked_swap_none x y : masked_swap 0 x y = (x, y).
Proof. unfold masked_swap. by rewrite Z.land_0_r, !Z.lxor_0_r. Qed.

Lemma masked_swap_all x y : is_word x -> is_word y -> masked_swap (BASE - 1) x y = (y, x).
Proof.
  intros Wx Wy. unfold masked_swap. assert (0 < BN_BITS2) as PB by (destruct BITS2_cases; lia).
  assert (Z.land (Z.lxor x y) (BASE - 1) = Z.lxor x y) as ->.
  { replace (BASE - 1) with (Z.ones BN_BITS2) by (rewrite Z.ones_equiv; unfold BASE; lia). apply Z.bits_inj'. intros n Hn.
    rewrite Z.land_spec. destruct (Z.lt_ge_cases n BN_BITS2); [by rewrite Z.ones_spec_low, andb_true_r by lia|].
    apply word_bits in Wx as [_ Wx], Wy as [_ Wy]. by rewrite Z.lxor_spec, Wx, Wy. }
  by rewrite lxor_cancel_l, Z.lxor_comm, lxor_cancel_r.
Qed.

(** The words of [x] after [i] of them have been exchanged with those of [y]. *)
Definition exchanged (all : bool) (i : nat) (x y : list Z) : list Z := if all then take i y ++ drop i x else x.

Lemma exchanged_lookup all i x y : (i <= length y)%nat -> (i <= length x)%nat ->
  length (exchanged all i x y) = length x /\ exchanged all i x y !! i = x !! i.
Proof.
  intros L1 L2. unfold exchanged. destruct all; [|done]. split; [rewrite length_app, length_take, length_drop; lia|].
  rewrite lookup_app_r, length_take, Nat.min_l, Nat.sub_diag by (rewrite ?length_take; lia). by rewrite lookup_drop, Nat.add_0_r.
Qed.

Lemma exchanged_S (all : bool) i (x y : list Z) u w : x !! i = Some u -> y !! i = Some w ->
  <[i := if all then w else u]> (exchanged all i x y) = exchanged all (S i) x y.
Proof.
  intros Ex Ey. unfold exchanged. destruct all; [|by apply list_insert_id].
  pose proof (lookup_lt_Some _ _ _ Ex). pose proof (lookup_lt_Some _ _ _ Ey).
  rewrite (drop_S _ _ _ Ex). rewrite insert_app_r_alt by (rewrite length_take; lia).
  rewrite length_take, Nat.min_l, Nat.sub_diag by lia. cbn. by rewrite (take_S_r _ _ _ Ey), <- app_assoc.
Qed.

Lemma words_exchanged all i x y : words x -> words y -> words (exchanged all i x y).
Proof. intros Wx Wy. unfold exchanged. destruct all; [|done]. apply words_app. split; [by apply words_take|by apply words_drop]. Qed.

Definition two s a b (oa ob : BIGNUM) s' : Prop := objs s' = <[b := ob]> (<[a := oa]> (objs s)) /\ next s' = next s.

Lemma swap_words_ok (w n : Z) a b oa ob s s0 : a <> b -> is_word w -> words (bn_d oa) -> words (bn_d ob) ->
  0 <= n <= Z.of_nat (length (bn_d oa)) -> n <= Z.of_nat (length (bn_d ob)) -> two s a b oa ob s0 ->
  runs (for_ (Z.to_nat n) 0 (fun i _ =>
    x ← ldw (a, 0) i; y ← ldw (b, 0) i;
    let '(x, y) := masked_swap (swap_mask w) x y in
    _ ← stw (a, 0) i x; stw (b, 0) i y) tt) s0 (fun _ s' =>
    let all := negb (w =? 0) in let n := Z.to_nat n in
    two s a b (set_d (exchanged all n (bn_d oa) (bn_d ob)) oa) (set_d (exchanged all n (bn_d ob) (bn_d oa)) ob) s').
Proof.
  intros Nab Ww Wa Wb La Lb [E0 N0]. set (all := negb (w =? 0)).
  apply (runs_for (fun i _ s' => two s a b (set_d (exchanged all (Z.to_nat i) (bn_d oa) (bn_d ob)) oa)
    (set_d (exchanged all (Z.to_nat i) (bn_d ob) (bn_d oa)) ob) s')).
  - intros i [] s1 Hi [E1 N1].
    destruct (lookup_lt_is_Some_2 (bn_d oa) (Z.to_nat i)) as [x Ex]; [lia|].
    destruct (lookup_lt_is_Some_2 (bn_d ob) (Z.to_nat i)) as [y Ey]; [lia|].
    pose proof (words_lookup _ _ _ Wa Ex) as Wx. pose proof (words_lookup _ _ _ Wb Ey) as Wy.
    destruct (exchanged_lookup all (Z.to_nat i) (bn_d oa) (bn_d ob)) as [L1 X1]; [lia|lia|].
    destruct (exchanged_lookup all (Z.to_nat i) (bn_d ob) (bn_d oa)) as [L2 X2]; [lia|lia|].
    assert (objs s1 !! a = Some (set_d (exchanged all (Z.to_nat i) (bn_d oa) (bn_d ob)) oa)) as Ea
      by (by rewrite E1, lookup_insert_ne, lookup_insert_eq).
    assert (objs s1 !! b = Some (set_d (exchanged all (Z.to_nat i) (bn_d ob) (bn_d oa)) ob)) as Eb by (by rewrite E1, lookup_insert_eq).
    apply runs_bind. eapply runs_at; [exact Ea|lia|cbn [bn_d set_d]; rewrite X1; exact Ex|].
    apply runs_bind. eapply runs_at; [exact Eb|lia|cbn [bn_d set_d]; rewrite X2; exact Ey|].
    assert (masked_swap (swap_mask w) x y = (if all then y else x, if all then x else y)) as ->.
    { rewrite swap_mask_ok by done. unfold all. destruct (w =? 0); [apply masked_swap_none|by apply masked_swap_all]. }
    apply runs_bind. eapply runs_set_at; [exact Ea|cbn; lia|].
    eapply runs_set_at; [cbn; rewrite lookup_insert_ne by done; exact Eb|cbn; lia|].
    replace (Z.to_nat (i + 1)) with (S (Z.to_nat i)) by lia.
    rewrite <- (exchanged_S all _ _ _ x y), <- (exchanged_S all _ (bn_d ob) _ y x) by done.
    split; [|exact N1]. cbn. rewrite E1. rewrite (insert_insert_ne _ a b), insert_insert_eq, insert_insert_eq by done. done.
  - unfold exchanged. change (Z.to_nat 0) with 0%nat. rewrite !take_0, !drop_0. cbn [app].
    destruct all; rewrite !set_d_same; by split.
  - intros [] s' Hs. rewrite Z.add_0_l, Z2Nat.id in Hs by lia. exact Hs.
Qed.

Lemma BN_consttime_swap_ok w a b n oa ob s : a <> b -> objs s !! a = Some oa -> objs s !! b = Some ob ->
  wf oa -> wf ob -> is_word w -> bn_top oa <= n -> bn_top ob <= n -> n <= bn_dmax oa -> n <= bn_dmax ob ->
  runs (BN_consttime_swap w a b n) s (fun _ s' => exists oa' ob', two s a b oa' ob' s' /\ wf oa' /\ wf ob' /\
    if w =? 0 then oa' = oa /\ ob' = ob
    else top_words oa' = top_words ob /\ top_words ob' = top_words oa /\ bn_neg oa' = bn_neg ob /\ bn_neg ob' = bn_neg oa).
Proof.
  intros Nab Ea Eb Ha Hb Ww Ta Tb Na Nb. pose proof Ha as [A1 A2 A3 A4 A5]. pose proof Hb as [B1 B2 B3 B4 B5].
  pose proof WORDS_MAX_int. pose proof BASE_big. unfold BN_consttime_swap.
  apply runs_bind, (runs_get _ _ _ _ Ea), runs_bind, (runs_get _ _ _ _ Eb).
  assert (forall x y, is_word x -> is_word y -> masked_swap (swap_mask w) x y = if w =? 0 then (x, y) else (y, x)) as Sw.
  { intros x y Wx Wy. rewrite swap_mask_ok by done. destruct (w =? 0); [apply masked_swap_none|by apply masked_swap_all]. }
  rewrite (Sw (bn_top oa)), (Sw (bn_neg oa)) by (unfold is_word; lia).
  set (t := Z.land (Z.land _ CONSTTIME_SWAP_FLAGS) _).
  assert (w = 0 -> t = 0) as Zt by (intros ->; unfold t; rewrite swap_mask_ok by done; apply Z.land_0_r).
  set (all := negb (w =? 0)). pose (pick := fun x y : Z => if all then y else x).
  assert ((if w =? 0 then (bn_top oa, bn_top ob) else (bn_top ob, bn_top oa)) =
    (pick (bn_top oa) (bn_top ob), pick (bn_top ob) (bn_top oa))) as -> by (unfold pick, all; by destruct (w =? 0)).
  assert ((if w =? 0 then (bn_neg oa, bn_neg ob) else (bn_neg ob, bn_neg oa)) =
    (pick (bn_neg oa) (bn_neg ob), pick (bn_neg ob) (bn_neg oa))) as -> by (unfold pick, all; by destruct (w =? 0)).
  set (oa1 := set_top _ (set_neg _ (set_flags _ oa))). set (ob1 := set_top _ (set_neg _ (set_flags _ ob))).
  apply runs_bind. eapply runs_put; [exact Ea|]. apply runs_bind. eapply runs_put; [cbn; rewrite lookup_insert_ne by done; exact Eb|].
  eapply runs_mono; [apply (swap_words_ok w n a b oa1 ob1 s); try done; try (cbn; lia); by split|].
  intros [] s' Hs. cbn zeta in Hs. fold all in Hs. change (bn_d oa1) with (bn_d oa) in Hs. change (bn_d ob1) with (bn_d ob) in Hs.
  eexists _, _. split; [exact Hs|].
  destruct (exchanged_lookup all (Z.to_nat n) (bn_d oa) (bn_d ob)) as [L1 _]; [lia|lia|].
  destruct (exchanged_lookup all (Z.to_nat n) (bn_d ob) (bn_d oa)) as [L2 _]; [lia|lia|].
  split; [|split].
  - constructor; cbn; try done; [lia|by apply words_exchanged| |]; unfold pick; destruct all; (done || lia).
  - constructor; cbn; try done; [lia|by apply words_exchanged| |]; unfold pick; destruct all; (done || lia).
  - destruct (Z.eqb_spec w 0) as [Ew|Nw].
    + assert (all = false) as Eall by done. unfold oa1, ob1, pick, exchanged. rewrite Eall, (Zt Ew), !Z.lxor_0_r.
      by destruct oa, ob.
    + assert (all = true) as Eall by done.
      unfold oa1, ob1, pick, exchanged, top_words. rewrite Eall. cbn. split_and!; try done.
      * rewrite take_app_le by (rewrite length_take; lia). rewrite take_take. f_equal. lia.
      * rewrite take_app_le by (rewrite length_take; lia). rewrite take_take. f_equal. lia.
Qed.

Lemma BN_swap_ok a b oa ob s : a <> b -> objs s !! a = Some oa -> objs s !! b = Some ob ->
  runs (BN_swap a b) s (fun _ s' => exists fa fb, two s a b (set_flags fa ob) (set_flags fb oa) s' /\
    Z.land fa BN_FLG_MALLOCED = Z.land (bn_flags oa) BN_FLG_MALLOCED /\ Z.land fb BN_FLG_MALLOCED = Z.land (bn_flags ob) BN_FLG_MALLOCED).
Proof.
  intros Nab Ea Eb. unfold BN_swap. apply runs_bind, (runs_get _ _ _ _ Ea), runs_bind, (runs_get _ _ _ _ Eb).
  apply runs_bind. eapply runs_put; [exact Ea|]. eapply runs_put; [cbn; rewrite lookup_insert_ne by done; exact Eb|].
  eexists _, _. split; [by split|].
  assert (forall x y, Z.land (Z.lor (FLAGS_STRUCT x) (FLAGS_DATA y)) BN_FLG_MALLOCED = Z.land x BN_FLG_MALLOCED) as Eq.
  { intros x y. unfold FLAGS_STRUCT, FLAGS_DATA. rewrite Z.land_lor_distr_l, <- !Z.land_assoc. rewrite Z.land_diag.
    change (Z.land (Z.lor BN_FLG_STATIC_DATA (Z.lor BN_FLG_CONSTTIME (Z.lor BN_FLG_SECURE BN_FLG_FIXED_TOP))) BN_FLG_MALLOCED) with 0.
    by rewrite Z.land_0_r, Z.lor_0_r. }
  by rewrite !Eq.
Qed.
End swap.
