(* ===== verification/BnBin.v ===== *)
(** * Big numbers: conversions to and from bytes

    [bin2bn] and [bn2binpad] of bn_lib.c, which the public functions call, and
    bn_mpi.c.  A buffer is the list of its bytes and a pointer an index into it,
    so that a read before or after it is a fault.  [size_t] has 64 bits. *)

From S2P Require Import Prelude Bytes BnBase BnMem BnLib.

Inductive endianess_t : Type := BIG | LITTLE.
Inductive signedness_t : Type := SIGNED | UNSIGNED.

(** [for (; len > 0 && *s2 == xor; s2 += inc2, len--)] *)
Fixpoint skip_ext (k : nat) (s : list Z) (s2 inc2 len xor : Z) : outcome (Z * Z) :=
  match k with
  | O => Ret (s2, len)
  | S k =>
      if 0 <? len then
        x ← aget s s2;
        if x =? xor then skip_ext k s (s2 + inc2) inc2 (len - 1) xor else Ret (s2, len)
      else Ret (s2, len)
  end.

(** [for (; len > 0 && m < BN_BYTES * 8; len--, s += inc, m += 8)], in its last
    [k] turns: [s], [len], [carry] and [l] afterwards. *)
Fixpoint word_loop (k : nat) (s : list Z) (p inc len xor carry m l : Z) : outcome (Z * Z * Z * Z) :=
  match k with
  | O => Ret (p, len, carry, l)
  | S k =>
      if 0 <? len then
        x ← aget s p;
        let byte_xored := Z.lxor x xor in
        let byte := Z.land (byte_xored + carry) 0xff in
        let carry := Z.b2z (byte <? byte_xored) in
        word_loop k s (p + inc) inc (len - 1) xor carry (m + 8) (Z.lor l (Z.shiftl byte m))
      else Ret (p, len, carry, l)
  end.

Section bin.
Context {c : Build} (ok : nat -> bool).

Definition bin2bn (s : list Z) (len : Z) (rt : option nat) (endianess : endianess_t)
    (signedness : signedness_t) : prog (option nat) :=
  rt' ← (match rt with None => BN_new ok | Some l => ret (Some l) end);
  match rt' with
  | None => ret None
  | Some l =>
      let '(s2, inc2, inc, p) :=
        match endianess with
        | LITTLE => (len - 1, -1, 1, 0)
        | BIG => (0, 1, -1, len - 1)
        end in
      neg ← lift (match signedness with
        | SIGNED => x ← aget s s2; Ret (Z.b2z (negb (Z.land x 0x80 =? 0)))
        | UNSIGNED => Ret 0
        end);
      let xor := if neg =? 0 then 0 else 0xff in
      let carry := neg in
      x ← lift (skip_ext (Z.to_nat len) s s2 inc2 len xor);
      let '(s2, len) := x in
      len ← lift (if xor =? 0xff then
                    if len =? 0 then Ret (len + 1)
                    else x ← aget s s2; Ret (if Z.land x 0x80 =? 0 then len + 1 else len)
                  else Ret len);
      if len =? 0 then _ ← modify l (set_top 0); ret (Some l)
      else
        let n := u32 (Z.quot (len - 1) BN_BYTES + 1) in
        r ← bn_wexpand ok l (s32 n);
        if negb (r : bool) then
          _ ← BN_free (match rt with None => Some l | Some _ => None end); ret None
        else
          _ ← modify l (fun o => set_neg neg (set_top (s32 n) o));
          _ ← for_ (Z.to_nat n) 0 (fun i st =>
            let '(p, len, carry) := st in
            x ← lift (word_loop (Z.to_nat BN_BYTES) s p inc len xor carry 0 0);
            let '(p, len, carry, w) := x in
            _ ← stw (l, 0) i w;
            ret (p, len, carry)) (p, len, carry);
          _ ← bn_correct_top l;
          ret (Some l)
  end.

Definition BN_bin2bn s len r := bin2bn s len r BIG UNSIGNED.
Definition BN_signed_bin2bn s len r := bin2bn s len r BIG SIGNED.
Definition BN_lebin2bn s len r := bin2bn s len r LITTLE UNSIGNED.
Definition BN_signed_lebin2bn s len r := bin2bn s len r LITTLE SIGNED.

Definition BN_native2bn (little : bool) s len r :=
  if little then BN_lebin2bn s len r else BN_bin2bn s len r.

Definition BN_signed_native2bn (little : bool) s len r :=
  if little then BN_signed_lebin2bn s len r else BN_signed_bin2bn s len r.

(** [for (i = 0, j = 0; j < (size_t)tolen; j++)], with [k] turns left. *)
Fixpoint out_loop (k : nat) (j i : Z) (d : list Z) (lasti atop xor inc p carry : Z) (to : list Z) : outcome (list Z) :=
  match k with
  | O => Ret to
  | S k =>
      l ← aget d (i / BN_BYTES);
      let mask := u64 (0 - Z.shiftr (u64 (j - atop)) 63) in
      let byte := u8 (Z.land (Z.shiftr l (8 * (i mod BN_BYTES))) mask) in
      let byte_xored := Z.lxor byte xor in
      let b := u8 (byte_xored + carry) in
      to ← aset to p b;
      let carry := Z.b2z (b <? byte_xored) in
      let i := u64 (i + Z.shiftr (u64 (i - lasti)) 63) in
      out_loop k (j + 1) i d lasti atop xor inc (p + inc) carry to
  end.

Definition bn2binpad (a : BIGNUM) (to : list Z) (tolen : Z) (endianess : endianess_t)
    (signedness : signedness_t) : outcome (Z * list Z) :=
  n8 ← BN_num_bits a;
  let n := Z.quot (n8 + 7) 8 in
  let '(xor, carry, ext) :=
    match signedness with
    | SIGNED =>
        (if bn_neg a =? 0 then 0 else 0xff, bn_neg a,
         if n * 8 =? n8 then Z.b2z (bn_neg a =? 0) else bn_neg a)
    | UNSIGNED => (0, 0, 0)
    end in
  r ← (if tolen =? -1 then Ret (Some (n + ext))
       else if tolen <? n + ext then
         temp ← correct_top a;
         n8 ← BN_num_bits temp;
         let n := Z.quot (n8 + 7) 8 in
         Ret (if tolen <? n + ext then None else Some tolen)
       else Ret (Some tolen));
  match r with
  | None => Ret (-1, to)
  | Some tolen =>
      let atop := bn_dmax a * BN_BYTES in
      if atop =? 0 then
        to ← mem_write to 0 (replicate (Z.to_nat tolen) 0); Ret (tolen, to)
      else
        let '(inc, p) := match endianess with LITTLE => (1, 0) | BIG => (-1, tolen - 1) end in
        let lasti := atop - 1 in
        let atop := bn_top a * BN_BYTES in
        to ← out_loop (Z.to_nat tolen) 0 0 (bn_d a) lasti atop xor inc p carry to;
        Ret (tolen, to)
  end.

Definition BN_bn2binpad a to tolen : outcome (Z * list Z) :=
  if tolen <? 0 then Ret (-1, to) else bn2binpad a to tolen BIG UNSIGNED.

Definition BN_signed_bn2bin a to tolen : outcome (Z * list Z) :=
  if tolen <? 0 then Ret (-1, to) else bn2binpad a to tolen BIG SIGNED.

Definition BN_bn2bin a to : outcome (Z * list Z) := bn2binpad a to (-1) BIG UNSIGNED.

Definition BN_bn2lebinpad a to tolen : outcome (Z * list Z) :=
  if tolen <? 0 then Ret (-1, to) else bn2binpad a to tolen LITTLE UNSIGNED.

Definition BN_signed_bn2lebin a to tolen : outcome (Z * list Z) :=
  if tolen <? 0 then Ret (-1, to) else bn2binpad a to tolen LITTLE SIGNED.

Definition BN_bn2nativepad (little : bool) a to tolen :=
  if little then BN_bn2lebinpad a to tolen else BN_bn2binpad a to tolen.

Definition BN_signed_bn2native (little : bool) a to tolen :=
  if little then BN_signed_bn2lebin a to tolen else BN_signed_bn2bin a to tolen.

(** ** The format with a length *)

Definition BN_bn2mpi (a : BIGNUM) (d : option (list Z)) : outcome (Z * list Z) :=
  bits ← BN_num_bits a;
  let num := Z.quot (bits + 7) 8 in
  let ext := if 0 <? bits then Z.b2z (Z.land bits 7 =? 0) else 0 in
  match d with
  | None => Ret (num + 4 + ext, [])
  | Some d =>
      let l := num + ext in
      d ← aset d 0 (Z.land (u8 (Z.shiftr l 24)) 0xff);
      d ← aset d 1 (Z.land (u8 (Z.shiftr l 16)) 0xff);
      d ← aset d 2 (Z.land (u8 (Z.shiftr l 8)) 0xff);
      d ← aset d 3 (Z.land (u8 l) 0xff);
      d ← (if ext =? 0 then Ret d else aset d 4 0);
      '(num, w) ← BN_bn2bin a (drop (Z.to_nat (4 + ext)) d);
      let d := take (Z.to_nat (4 + ext)) d ++ w in
      d ← (if bn_neg a =? 0 then Ret d else x ← aget d 4; aset d 4 (Z.lor x 0x80));
      Ret (num + 4 + ext, d)
  end.

Definition BN_mpi2bn (d : list Z) (n : Z) (ain : option nat) : prog (option nat) :=
  d0 ← lift (if n <? 4 then Ret 0 else aget d 0);
  if (n <? 4) || negb (Z.land d0 0x80 =? 0) then ret None
  else
    d1 ← lift (aget d 1); d2 ← lift (aget d 2); d3 ← lift (aget d 3);
    let len := Z.lor (Z.lor (Z.lor (Z.shiftl d0 24) (Z.shiftl d1 16)) (Z.shiftl d2 8)) d3 in
    if negb (len + 4 =? n) then ret None
    else
      a ← (match ain with None => BN_new ok | Some l => ret (Some l) end);
      match a with
      | None => ret None
      | Some a =>
          if len =? 0 then
            _ ← modify a (fun o => set_top 0 (set_neg 0 o)); ret (Some a)
          else
            x ← lift (aget d 4);
            let neg := if negb (Z.land x 0x80 =? 0) then 1 else 0 in
            r ← BN_bin2bn (drop 4 d) (s32 len) (Some a);
            match r with
            | None => _ ← BN_free (match ain with None => Some a | Some _ => None end); ret None
            | Some _ =>
                _ ← modify a (set_neg neg);
                _ ← (if neg =? 0 then ret tt
                     else
                       o ← get a; nb ← lift (BN_num_bits o);
                       _ ← BN_clear_bit a (nb - 1); ret tt);
                ret (Some a)
            end
      end.
End bin.
