(* ===== verification/BnBinCorrect.v ===== *)
(** * Big numbers: what the byte strings stand for

    [bin2bn] reads the number of a string, and [bn2binpad] writes the one of an
    object, in two's complement if signed. *)

From S2P Require Import Prelude Bytes BnBase BnMem BnLib BnLibCorrect BnOps BnBin.

(** ** Two's complement

    The bytes of [-t], or of [t]: each is complemented, and [c] is added at the
    lowest one. *)

Fixpoint conv (X c : Z) (t : list Z) : list Z * Z :=
  match t with
  | [] => ([], c)
  | x :: t =>
      let bx := Z.lxor x X in
      let b := Z.land (bx + c) 0xff in
      let '(o, c') := conv X (Z.b2z (b <? bx)) t in
      (b :: o, c')
  end.

Lemma conv_app X a b : forall c, conv X c (a ++ b) =
  let '(o1, c1) := conv X c a in let '(o2, c2) := conv X c1 b in (o1 ++ o2, c2).
Proof.
  induction a as [|x a IH]; intros c; cbn [conv app]; [by destruct (conv X c b)|].
  rewrite IH. destruct (conv X _ a) as [o1 c1]. by destruct (conv X c1 b).
Qed.

(** No mask, or the mask of all bits. *)
Definition mask_of (neg : Z) : Z := if neg =? 0 then 0 else 0xff.

Lemma lxor_255 x : is_byte x -> Z.lxor x 0xff = 255 - x.
Proof.
  intros H. change 0xff with (Z.ones 8). change 255 with (2 ^ 8 - 1).
  assert (Z.lxor x (Z.ones 8) = Z.ldiff (Z.ones 8) x) as ->.
  { apply Z.bits_inj'. intros n Hn. rewrite Z.lxor_spec, Z.ldiff_spec.
    destruct (Z.lt_ge_cases n 8).
    - rewrite Z.ones_spec_low by lia. by destruct (Z.testbit x n).
    - rewrite Z.ones_spec_high by lia. by rewrite (testbit_byte x) by (done || lia). }
  rewrite <- Z.sub_nocarry_ldiff; [by rewrite Z.ones_equiv|].
  apply Z.bits_inj'. intros n Hn. rewrite Z.ldiff_spec, Z.bits_0.
  destruct (Z.lt_ge_cases n 8).
  - by rewrite Z.ones_spec_low, andb_false_r by lia.
  - by rewrite (testbit_byte x) by (done || lia).
Qed.

Lemma land_byte x : 0 <= x -> Z.land x 0xff = x mod 256.
Proof. intros H. change 0xff with (Z.ones 8). by rewrite Z.land_ones by lia. Qed.

Lemma pow256_S n : 256 ^ Z.of_nat (S n) = 256 * 256 ^ Z.of_nat n.
Proof. rewrite Nat2Z.inj_succ, Z.pow_succ_r by lia. done. Qed.

Lemma conv_ok neg t : bytes t -> forall c, c = 0 \/ c = 1 ->
  let '(o, c') := conv (mask_of neg) c t in
  nbytes (length t) o /\ (c' = 0 \/ c' = 1) /\
  word_get o + 256 ^ Z.of_nat (length t) * c' =
    (if neg =? 0 then word_get t else 256 ^ Z.of_nat (length t) - 1 - word_get t) + c.
Proof.
  induction 1 as [|x t Hx Ht IH]; intros cc Hc.
  - cbn. split; [split; [done|constructor]|]. split; [done|]. destruct (neg =? 0); lia.
  - cbn [conv length]. set (bx := Z.lxor x (mask_of neg)).
    assert (bx = if neg =? 0 then x else 255 - x) as Eb.
    { unfold bx, mask_of. destruct (neg =? 0); [apply Z.lxor_0_r|by apply lxor_255]. }
    assert (0 <= bx < 256) as Rb by (unfold is_byte in Hx; destruct (neg =? 0); lia).
    rewrite land_byte by lia. set (b := (bx + cc) mod 256).
    assert (is_byte b) as Wb by (apply Z.mod_pos_bound; lia).
    assert (b + 256 * Z.b2z (b <? bx) = bx + cc) as Ec.
    { unfold b. destruct (Z.ltb_spec ((bx + cc) mod 256) bx); cbn [Z.b2z]; Z.div_mod_to_equations; lia. }
    specialize (IH (Z.b2z (b <? bx))). destruct (conv _ _ t) as [o c'].
    destruct IH as ([L W] & Hc' & E); [destruct (b <? bx); auto|].
    split; [split; [cbn; lia|by constructor]|]. split; [done|]. cbn [word_get].
    rewrite pow256_S. destruct (neg =? 0); lia.
Qed.

Lemma word_get_fill n : word_get (replicate n 255) = 256 ^ Z.of_nat n - 1.
Proof. induction n as [|n IH]; cbn [word_get replicate]; [done|]. rewrite IH, pow256_S. lia. Qed.

Lemma word_get_zeros n : word_get (replicate n 0) = 0.
Proof. induction n as [|n IH]; cbn [word_get replicate]; lia. Qed.

Lemma word_put_get t : bytes t -> word_put (length t) (word_get t) = t.
Proof.
  induction 1 as [|x t Hx Ht IH]; cbn [word_get word_put length]; [done|]. unfold is_byte in Hx.
  replace ((x + 256 * word_get t) / 256) with (word_get t) by (Z.div_mod_to_equations; lia).
  rewrite IH. f_equal. Z.div_mod_to_equations; lia.
Qed.

Lemma word_put_mod n : forall z, word_put n (z mod 256 ^ Z.of_nat n) = word_put n z.
Proof.
  induction n as [|n IH]; intros z; cbn [word_put]; [done|].
  rewrite pow256_S, Z.rem_mul_r by (lia || apply Z.pow_pos_nonneg; lia).
  set (r := (z / 256) mod 256 ^ Z.of_nat n).
  replace ((z mod 256 + 256 * r) mod 256) with (z mod 256) by (Z.div_mod_to_equations; lia).
  replace ((z mod 256 + 256 * r) / 256) with r by (Z.div_mod_to_equations; lia). unfold r. by rewrite IH.
Qed.

(** The bytes of [t] or of [- t]. *)
Lemma conv_put neg t : bytes t -> (neg = 0 \/ neg = 1) ->
  (conv (mask_of neg) neg t).1 = word_put (length t) (if neg =? 0 then word_get t else - word_get t).
Proof.
  intros W Hn. pose proof (conv_ok neg t W neg Hn) as H. destruct (conv _ neg t) as [o c'].
  destruct H as ([L Wo] & Hc & E). cbn [fst]. rewrite <- (word_put_get o Wo), L, <- word_put_mod.
  rewrite <- (word_put_mod _ (if neg =? 0 then _ else _)). f_equal.
  set (P := 256 ^ Z.of_nat (length t)) in *.
  assert (word_get o = (if neg =? 0 then word_get t else - word_get t) + (if neg =? 0 then - c' else 1 - c') * P) as ->
    by (destruct Hn as [-> | ->]; cbn [Z.eqb] in *; lia).
  apply Z.mod_add. unfold P. assert (0 < 256 ^ Z.of_nat (length t)) by (apply Z.pow_pos_nonneg; lia). lia.
Qed.

(** ** Reading *)

(** The bytes [t] are at [p], in the direction of [inc]. *)
Definition src (s : list Z) (p inc : Z) (t : list Z) : Prop :=
  forall i x, t !! i = Some x -> aget s (p + inc * Z.of_nat i) = Ret x.

Lemma src_cons s p inc x t : src s p inc (x :: t) -> aget s p = Ret x /\ src s (p + inc) inc t.
Proof.
  intros H. split.
  - specialize (H 0%nat x eq_refl). by rewrite Z.mul_0_r, Z.add_0_r in H.
  - intros i y E. specialize (H (S i) y E). rewrite <- H. f_equal. lia.
Qed.

Lemma src_drop s p inc k t : src s p inc t -> src s (p + inc * Z.of_nat k) inc (drop k t).
Proof. intros H i x E. rewrite lookup_drop in E. rewrite <- (H _ _ E). f_equal. lia. Qed.

Lemma src_take s p inc k t : src s p inc t -> src s p inc (take k t).
Proof. intros H i x E. apply H. by apply lookup_take_Some in E as [? _]. Qed.

Lemma word_loop_ok k s inc X : forall t p len c m l, bytes t -> src s p inc t -> len = Z.of_nat (length t) ->
  0 <= m -> 0 <= l < 2 ^ m -> 
  word_loop k s p inc len X c m l =
    let '(o, c') := conv X c (take k t) in
    Ret (p + inc * Z.of_nat (length (take k t)), len - Z.of_nat (length (take k t)), c', l + 2 ^ m * word_get o).
Proof.
  induction k as [|k IH]; intros t p len c m l W S El Hm Hl.
  { rewrite take_0. cbn. by rewrite ?Z.mul_0_r, ?Z.add_0_r, ?Z.sub_0_r. }
  cbn [word_loop]. destruct t as [|x t]; cbn [length] in El.
  { subst len. rewrite take_nil. cbn. by rewrite ?Z.mul_0_r, ?Z.add_0_r. }
  destruct (Z.ltb_spec 0 len); [|lia]. apply src_cons in S as [-> S]. cbn [mbind outcome_bind].
  apply Forall_cons in W as [Wx W]. set (bx := Z.lxor x X). set (b := Z.land (bx + c) 255).
  assert (is_byte b) as Wb.
  { apply is_byte_bits; [apply Z.land_nonneg; by right|]. intros i Hi. unfold b.
    rewrite Z.land_spec. change 255 with (Z.ones 8). by rewrite (Z.ones_spec_high 8 i), andb_false_r by lia. }
  unfold is_byte in Wb.
  assert (Z.lor l (Z.shiftl b m) = l + 2 ^ m * b) as ->.
  { rewrite Z.lor_comm, Z.shiftl_mul_pow2, lor_low by done. lia. }
  assert (2 ^ (m + 8) = 256 * 2 ^ m) as Ep by (rewrite Z.pow_add_r by lia; lia).
  rewrite (IH t); [|done|done|lia|lia|rewrite Ep; nia].
  cbn [take conv]. fold bx. fold b. destruct (conv X (Z.b2z (b <? bx)) (take k t)) as [o c'].
  cbn [length word_get]. rewrite Ep.
  apply (f_equal Ret). rewrite Nat2Z.inj_succ. apply f_equal2; [apply f_equal2; [apply f_equal2|]|]; first [done | lia | ring].
Qed.

(** Leading bytes [xor] are skipped: [len'] bytes are left. *)
Lemma skip_ext_ok k s inc X : forall t p len, src s p inc t -> len = Z.of_nat (length t) -> (length t <= k)%nat ->
  exists len' : nat, skip_ext k s (p + inc * (len - 1)) (- inc) len X = Ret (p + inc * (Z.of_nat len' - 1), Z.of_nat len') /\
    (len' <= length t)%nat /\ t = take len' t ++ replicate (length t - len') X /\
    (forall x, t !! (len' - 1)%nat = Some x -> (0 < len')%nat -> x <> X).
Proof.
  induction k as [|k IH]; intros t p len S -> Hk; cbn [skip_ext].
  { destruct t; [|cbn in Hk; lia]. exists 0%nat. by split_and!. }
  destruct (Z.ltb_spec 0 (Z.of_nat (length t))).
  2: { destruct t; [|cbn in *; lia]. exists 0%nat. by split_and!. }
  destruct t as [|x t _] using rev_ind; [cbn in *; lia|]. rewrite length_app in *. cbn [length] in *.
  assert (aget s (p + inc * (Z.of_nat (length t + 1) - 1)) = Ret x) as ->.
  { replace (Z.of_nat (length t + 1) - 1) with (Z.of_nat (length t)) by lia. apply S.
    by rewrite lookup_app_r, Nat.sub_diag by done. }
  cbn [mbind outcome_bind]. destruct (Z.eqb_spec x X) as [->|N].
  - destruct (IH t p (Z.of_nat (length t))) as (len' & E & L & Et & N).
    + intros i y Ey. apply S. by apply lookup_app_l_Some.
    + done.
    + lia.
    + exists len'. split_and!; [|lia| |].
      * rewrite <- E. f_equal; lia.
      * rewrite take_app_le by done. replace (length t + 1 - len')%nat with (Datatypes.S (length t - len')) by lia.
        rewrite replicate_S_end, app_assoc. by rewrite <- Et.
      * intros y Ey Hp. apply N; [|done]. by rewrite lookup_app_l in Ey by lia.
  - exists (length t + 1)%nat. split_and!; [done|done| |].
    + rewrite Nat.sub_diag, take_ge, app_nil_r by (rewrite length_app; cbn; lia). done.
    + intros y Ey _. rewrite Nat.add_sub, lookup_app_r, Nat.sub_diag in Ey by lia. cbn in Ey; congruence.
Qed.

(** The bytes of a buffer, the lowest one first. *)
Definition lsb_first (e : endianess_t) (len : nat) (s : list Z) : list Z :=
  match e with LITTLE => take len s | BIG => reverse (take len s) end.

(** The number of a string of bytes. *)
Definition num_of (sg : signedness_t) (t : list Z) : Z :=
  match sg with
  | UNSIGNED => word_get t
  | SIGNED => if 128 <=? List.last t 0 then word_get t - 256 ^ Z.of_nat (length t) else word_get t
  end.

Lemma lsb_first_props e len s : bytes s -> (len <= length s)%nat -> nbytes len (lsb_first e len s).
Proof.
  intros W L. assert (nbytes len (take len s)) as H by (split; [rewrite length_take; lia|by apply bytes_take]).
  destruct e; [by apply nbytes_reverse|done].
Qed.

Lemma lsb_first_src e len s : (len <= length s)%nat ->
  src s (match e with LITTLE => 0 | BIG => Z.of_nat len - 1 end) (match e with LITTLE => 1 | BIG => -1 end)
    (lsb_first e len s).
Proof.
  intros L i x E. destruct e; cbn [lsb_first] in E.
  - pose proof (lookup_lt_Some _ _ _ E) as Li. rewrite length_reverse, length_take in Li.
    rewrite reverse_lookup in E by (rewrite length_take; lia). rewrite length_take in E.
    apply lookup_take_Some in E as [E _]. apply aget_lookup; [lia|]. rewrite <- E. f_equal. lia.
  - apply lookup_take_Some in E as [E _]. apply aget_lookup; [lia|]. rewrite <- E. f_equal. lia.
Qed.

Section bin.
Context {c : Build} (ok : nat -> bool).

Lemma BYTES_pos : 0 < BN_BYTES /\ BN_BITS2 = 8 * BN_BYTES.
Proof. unfold BN_BITS2, BN_BYTES. destruct wide; lia. Qed.

Lemma weight_256 n : weight n = 256 ^ (BN_BYTES * Z.of_nat n).
Proof.
  destruct BYTES_pos as [P E]. rewrite weight_bits. change 256 with (2 ^ 8).
  rewrite <- Z.pow_mul_r by lia. f_equal. lia.
Qed.

Lemma BASE_256 : BASE = 256 ^ BN_BYTES.
Proof. destruct BYTES_pos as [P E]. unfold BASE. rewrite E, Z.pow_mul_r by lia. done. Qed.

Lemma word_get_word t : bytes t -> (length t <= Z.to_nat BN_BYTES)%nat -> is_word (word_get t).
Proof.
  intros W L. pose proof (word_get_bounds t W). unfold is_word. rewrite BASE_256. split; [lia|].
  eapply Z.lt_le_trans; [apply H|]. apply Z.pow_le_mono_r; [lia|]. destruct BYTES_pos. lia.
Qed.

(** The words of the result. *)
Lemma chunks_ok s l o p inc neg t n (st : mem) : objs st !! l = Some o -> wf o -> bytes t ->
  (neg = 0 \/ neg = 1) -> src s p inc t -> 0 < Z.of_nat (length t) -> 
  Z.of_nat n = (Z.of_nat (length t) - 1) / BN_BYTES + 1 -> Z.of_nat n <= bn_dmax o ->
  runs (for_ n 0 (fun i st =>
    let '(p, len, carry) := st in
    x ← lift (word_loop (Z.to_nat BN_BYTES) s p inc len (mask_of neg) carry 0 0);
    let '(p, len, carry, w) := x in
    _ ← stw (l, 0) i w;
    ret (p, len, carry)) (p, Z.of_nat (length t), neg)) st (fun _ st' => exists ws,
      length ws = n /\ words ws /\ eval ws = word_get (conv (mask_of neg) neg t).1 /\
      stored st l (set_d (blit 0 ws (bn_d o)) o) st').
Proof.
  intros E H W Hneg S Hm Hn Hd. destruct BYTES_pos as [PB EB]. set (B := BN_BYTES) in *.
  set (m := length t) in *. pose proof (Z.div_mod (Z.of_nat m - 1) B ltac:(lia)) as Dm.
  pose proof (Z.mod_pos_bound (Z.of_nat m - 1) B PB) as Bm.
  eapply (runs_for (fun i x st' => exists ws o1,
    x = (p + inc * Z.of_nat (length (take (Z.to_nat (B * i)) t)),
         Z.of_nat m - Z.of_nat (length (take (Z.to_nat (B * i)) t)), (conv (mask_of neg) neg (take (Z.to_nat (B * i)) t)).2) /\
    o1 = (conv (mask_of neg) neg (take (Z.to_nat (B * i)) t)).1 /\ Z.of_nat (length ws) = i /\ words ws /\
    eval ws = word_get o1 /\ stored st l (set_d (blit 0 ws (bn_d o)) o) st')).
  - intros i x st' Hi (ws & o1 & -> & -> & Li & Ww & Ev & St).
    set (k := Z.to_nat (B * i)) in *.
    assert (k < m)%nat as Lk by nia.
    assert (length (take k t) = k) as Lt by (rewrite length_take; lia). rewrite Lt.
    assert (take (Z.to_nat (B * (i + 1))) t = take k t ++ take (Z.to_nat B) (drop k t)) as Et.
    { replace (Z.to_nat (B * (i + 1))) with (k + Z.to_nat B)%nat by lia. by rewrite take_take_drop. }
    pose proof (conv_ok neg (take k t) (bytes_take _ _ W) neg Hneg) as C1.
    destruct (conv (mask_of neg) neg (take k t)) as [o1 c1] eqn:Ec. cbn [fst snd] in *.
    destruct C1 as ([L1 W1] & Hc1 & _).
    assert (length (drop k t) = m - k)%nat as Ld by (rewrite length_drop; done).
    apply runs_bind. rewrite (word_loop_ok _ _ _ _ (drop k t));
      [|by apply bytes_drop|by apply src_drop|lia|done|done].
    pose proof (conv_ok neg (take (Z.to_nat B) (drop k t)) (bytes_take _ _ (bytes_drop _ _ W)) c1 Hc1) as C2.
    destruct (conv (mask_of neg) c1 (take (Z.to_nat B) (drop k t))) as [o2 c2] eqn:Ec2.
    destruct C2 as ([L2 W2] & _ & _).
    eapply runs_lift; [done|]. cbn. rewrite Z.mul_1_l.
    assert (is_word (word_get o2)) as Wd by (apply word_get_word; [done|]; rewrite L2, length_take; lia).
    apply runs_bind. eapply runs_set_at; [by eapply stored_eq| |].
    { cbn [bn_d set_d]. destruct H. rewrite length_blit; lia. }
    apply runs_ret. cbn [bn_d set_d]. exists (ws ++ [word_get o2]), (conv (mask_of neg) neg (take (Z.to_nat (B * (i + 1))) t)).1.
    rewrite Et, conv_app, Ec, Ec2. cbn [fst snd]. split; [|split; [done|split; [|split; [|split]]]].
    + rewrite length_app, Lt. apply f_equal2; [|done]. apply f_equal2; lia.
    + rewrite length_app. cbn. lia.
    + apply words_app. split; [done|]. by constructor.
    + rewrite eval_snoc, word_get_app, Ev. rewrite weight_256. fold B. rewrite L1, Lt, Li. by replace (B * i) with (Z.of_nat k) by lia.
    + rewrite <- Li, Nat2Z.id, <- (Nat.add_0_l (length ws)), blit_snoc by (destruct H; cbn; lia).
      change (set_d (blit 0 (ws ++ [word_get o2]) (bn_d o)) (set_d (blit 0 ws (bn_d o)) o))
        with (set_d (blit 0 (ws ++ [word_get o2]) (bn_d o)) o). by eapply stored_set.
  - exists [], []. rewrite Z.mul_0_r. change (Z.to_nat 0) with 0%nat. rewrite take_0. cbn. rewrite blit_nil, set_d_same.
    split; [by rewrite Z.mul_0_r, Z.add_0_r, Z.sub_0_r|]. split; [done|]. split; [done|]. split; [constructor|]. split; [done|]. by apply stored_self.
  - intros x st' (ws & o1 & -> & -> & Li & Ww & Ev & St). rewrite Z.add_0_l in *.
    rewrite (take_ge t (Z.to_nat (B * Z.of_nat n))) in Ev by (fold m; nia).
    exists ws. split_and!; try done. lia.
Qed.

Lemma land_128 x : is_byte x -> (Z.land x 0x80 =? 0) = (x <? 128).
Proof.
  intros H. change 0x80 with (2 ^ 7). unfold is_byte in H.
  assert (Z.land x (2 ^ 7) = if Z.testbit x 7 then 2 ^ 7 else 0) as ->.
  { apply Z.bits_inj'. intros n Hn. rewrite Z.land_spec, Z.pow2_bits_eqb by lia.
    destruct (Z.eqb_spec 7 n) as [<-|N]; [rewrite andb_true_r|rewrite andb_false_r];
      destruct (Z.testbit x 7) eqn:Eb; rewrite ?Z.bits_0, ?Z.pow2_bits_eqb by lia; try done.
    by destruct (Z.eqb_spec 7 n). }
  pose proof (Z.testbit_true x 7 ltac:(lia)) as T. change (2 ^ 7) with 128 in *.
  destruct (Z.testbit x 7).
  - destruct (Z.ltb_spec x 128); [|done]. rewrite Z.div_small in T by lia. by pose proof (proj1 T eq_refl).
  - destruct (Z.ltb_spec x 128); [done|]. replace (x / 128) with 1 in T by (Z.div_mod_to_equations; lia).
    by pose proof (proj2 T eq_refl).
Qed.

(** The bytes that count: the magnitude, and one with the sign bit if negative. *)
Lemma trim_ok s p inc neg t : bytes t -> src s p inc t -> (neg = 0 \/ neg = 1) ->
  (neg = 1 -> exists t0 x, t = t0 ++ [x] /\ 128 <= x) ->
  exists s2 len1 (m : nat),
    skip_ext (length t) s (p + inc * (Z.of_nat (length t) - 1)) (- inc) (Z.of_nat (length t)) (mask_of neg) = Ret (s2, len1) /\
    (if mask_of neg =? 0xff then
       if len1 =? 0 then Ret (len1 + 1)
       else x ← aget s s2; Ret (if Z.land x 0x80 =? 0 then len1 + 1 else len1)
     else Ret len1) = Ret (Z.of_nat m) /\ (m <= length t)%nat /\
    (if neg =? 0 then word_get t = word_get (take m t)
     else 0 < word_get (take m t) /\ word_get t - 256 ^ Z.of_nat (length t) = word_get (take m t) - 256 ^ Z.of_nat m).
Proof.
  intros W S Hneg Htop.
  destruct (skip_ext_ok (length t) s inc (mask_of neg) t p _ S eq_refl ltac:(lia)) as (len1 & E & L & Et & N).
  eexists _, _. destruct Hneg as [-> | ->].
  - exists len1. split; [exact E|]. split; [done|]. split; [done|].
    apply (f_equal word_get) in Et. rewrite word_get_app in Et. change (mask_of 0) with 0 in Et.
    rewrite word_get_zeros in Et. cbn [Z.eqb]. lia.
  - destruct (Htop eq_refl) as (t0 & x & Ex & Hx). change (mask_of 1) with 255 in *. cbn [Z.eqb].
    assert (forall m, (len1 <= m <= length t)%nat ->
      word_get t - 256 ^ Z.of_nat (length t) = word_get (take m t) - 256 ^ Z.of_nat m) as Eq.
    { intros m Hm. assert (t = take m t ++ replicate (length t - m) 255) as Em.
      { apply (f_equal (drop m)) in Et. rewrite drop_app_ge, drop_replicate in Et by (rewrite length_take; lia).
        rewrite length_take, Nat.min_l in Et by lia. replace (length t - len1 - (m - len1))%nat with (length t - m)%nat in Et by lia.
        rewrite <- Et. by rewrite take_drop. }
      apply (f_equal word_get) in Em. rewrite word_get_app, word_get_fill, length_take, Nat.min_l in Em by lia.
      rewrite Z.mul_sub_distr_l, <- Z.pow_add_r in Em by lia.
      replace (Z.of_nat m + Z.of_nat (length t - m)) with (Z.of_nat (length t)) in Em by lia. lia. }
    assert (forall m y, t !! m = Some y -> 0 < y -> 0 < word_get (take (Datatypes.S m) t)) as Pos.
    { intros m y Ey Hy. rewrite (take_S_r _ _ _ Ey), word_get_app. cbn [word_get].
      pose proof (word_get_bounds _ (bytes_take m t W)).
      assert (0 < 256 ^ Z.of_nat (length (take m t))) by (apply Z.pow_pos_nonneg; lia). nia. }
    assert (forall m, (len1 <= m < length t)%nat -> t !! m = Some 255) as Fill.
    { intros m Hm. transitivity ((take len1 t ++ replicate (length t - len1) 255) !! m); [by rewrite <- Et|].
      rewrite lookup_app_r by (rewrite length_take; lia). apply lookup_replicate_2.
      rewrite length_take. lia. }
    assert (t !! (length t - 1)%nat = Some x) as El.
    { rewrite Ex, length_app, lookup_app_r by (cbn; lia). by replace (length t0 + length [x] - 1 - length t0)%nat with 0%nat by (cbn; lia). }
    assert (0 < length t)%nat as Lp by (rewrite Ex, length_app; cbn; lia).
    destruct (Z.eqb_spec (Z.of_nat len1) 0) as [E0|N0].
    + exists 1%nat. split; [exact E|]. split; [f_equal; lia|]. split; [lia|]. split; [|apply Eq; lia].
      apply (Pos 0%nat 255); [apply Fill; lia|lia].
    + destruct (lookup_lt_is_Some_2 t (len1 - 1)) as [y Ey]; [lia|].
      specialize (N y Ey ltac:(lia)). pose proof (Forall_lookup_1 _ _ _ _ W Ey) as Wy.
      destruct (decide (y < 128)) as [Ly|Gy].
      * exists (Datatypes.S len1). split; [exact E|].
        assert (len1 < length t)%nat as L1.
        { destruct (decide (len1 = length t)) as [El1|]; [|lia]. rewrite El1 in Ey. rewrite El in Ey. simplify_eq. lia. }
        split; [|split; [lia|split; [|apply Eq; lia]]].
        -- replace (p + inc * (Z.of_nat len1 - 1)) with (p + inc * Z.of_nat (len1 - 1)) by (f_equal; f_equal; lia).
           rewrite (S _ _ Ey). cbn [mbind outcome_bind]. rewrite land_128 by done.
           destruct (Z.ltb_spec y 128); [|lia]. f_equal. lia.
        -- apply (Pos len1 255); [apply Fill; lia|lia].
      * exists len1. split; [exact E|]. split; [|split; [lia|split; [|apply Eq; lia]]].
        -- replace (p + inc * (Z.of_nat len1 - 1)) with (p + inc * Z.of_nat (len1 - 1)) by (f_equal; f_equal; lia).
           rewrite (S _ _ Ey). cbn [mbind outcome_bind]. rewrite land_128 by done.
           destruct (Z.ltb_spec y 128); [lia|done].
        -- replace len1 with (Datatypes.S (len1 - 1)) by lia. apply (Pos _ y); [done|]. lia.
Qed.

Lemma sign_byte sg t : sg = UNSIGNED \/ t <> [] -> bytes t ->
  let neg := match sg with SIGNED => Z.b2z (128 <=? List.last t 0) | UNSIGNED => 0 end in
  (neg = 0 \/ neg = 1) /\ (neg = 1 -> exists t0 x, t = t0 ++ [x] /\ 128 <= x) /\
  num_of sg t = (if neg =? 0 then word_get t else word_get t - 256 ^ Z.of_nat (length t)).
Proof.
  intros H W. destruct sg; cbn [num_of]; [|split_and!; [by left|done|done]].
  destruct H as [|H]; [done|]. destruct t as [|x t _] using rev_ind; [done|].
  rewrite List.last_last. destruct (Z.leb_spec 128 x); cbn; split_and!; auto; try done.
  by exists t, x.
Qed.

(** What [bin2bn] leaves in its result: it does not clear the sign of a zero. *)
Definition reads (st : mem) (l : nat) (o : BIGNUM) (v : Z) (st' : mem) : Prop :=
  exists o', stored st l o' st' /\ wf o' /\ lean o' /\ val o' = v /\ bn_flags o' = bn_flags o /\
    (v <> 0 \/ bn_neg o = 0 -> canon o').

Lemma bin2bn_ok s len e sg l o st : objs st !! l = Some o -> wf o -> bytes s ->
  (len <= length s)%nat -> Z.of_nat len <= INT_MAX -> sg = UNSIGNED \/ len <> 0%nat ->
  runs (bin2bn ok s (Z.of_nat len) (Some l) e sg) st (fun r st' =>
    match r with
    | Some l' => l' = l /\ reads st l o (num_of sg (lsb_first e len s)) st'
    | None => stored st l o st' /\ starved ok ((Z.of_nat len + BN_BYTES - 1) / BN_BYTES) o
    end).
Proof.
  intros E H Ws Hl Hmax Hsg. pose proof (lsb_first_props e len s Ws Hl) as [Lt Wt].
  pose proof (lsb_first_src e len s Hl) as S. set (t := lsb_first e len s) in *.
  set (p := match e with LITTLE => 0 | BIG => Z.of_nat len - 1 end) in *.
  set (inc := match e with LITTLE => 1 | BIG => -1 end) in *.
  destruct (sign_byte sg t) as (Hneg & Htop & Enum); [|done|].
  { destruct Hsg as [|N]; [by left|right]. intros Et. by rewrite Et in Lt. }
  set (neg := match sg with SIGNED => _ | UNSIGNED => 0 end) in *.
  destruct (trim_ok s p inc neg t Wt S Hneg Htop) as (s2 & len1 & m & Esk & Etr & Lm & Ev).
  rewrite Lt in Esk, Lm. unfold bin2bn. apply runs_bind, runs_ret.
  assert ((match e with BIG => (0, 1, -1, Z.of_nat len - 1) | LITTLE => (Z.of_nat len - 1, -1, 1, 0) end) =
    (p + inc * (Z.of_nat len - 1), - inc, inc, p)) as -> by (unfold p, inc; destruct e; repeat f_equal; lia).
  apply runs_bind, (runs_lift neg).
  { unfold neg. destruct sg; [|done]. destruct Hsg as [|N]; [done|].
    destruct t as [|x t' _] using rev_ind; [by cbn in Lt|]. rewrite List.last_last.
    assert (aget s (p + inc * (Z.of_nat len - 1)) = Ret x) as ->.
    { rewrite <- Lt, length_app. cbn [length]. replace (Z.of_nat (length t' + 1) - 1) with (Z.of_nat (length t')) by lia.
      apply S. by rewrite lookup_app_r, Nat.sub_diag by done. }
    cbn [mbind outcome_bind]. apply Forall_app in Wt as [_ Wx]. apply Forall_cons in Wx as [Wx _].
    rewrite land_128 by done. do 2 f_equal. destruct (Z.ltb_spec x 128), (Z.leb_spec 128 x); lia || done. }
  fold (mask_of neg). apply runs_bind. rewrite Nat2Z.id. eapply runs_lift; [exact Esk|].
  apply runs_bind. eapply runs_lift; [exact Etr|].
  destruct (Z.eqb_spec (Z.of_nat m) 0) as [E0|N0].
  { (* all zeros *)
    assert (m = 0%nat) as -> by lia. apply runs_bind. eapply runs_modify; [exact E|]. apply runs_ret.
    split; [done|]. exists (set_top 0 o). rewrite take_0 in Ev. cbn [word_get] in Ev.
    assert (num_of sg t = 0) as -> by (rewrite Enum; destruct (neg =? 0); lia).
    split; [by eapply stored_set_same|]. destruct H as [H1 H2 H3 H4 H5].
    split; [constructor; cbn; (done || lia)|]. split; [intros k Ek; cbn in Ek; lia|].
    split; [unfold val, mag, top_words; cbn; by destruct (bn_neg o =? 0)|]. split; [done|].
    intros [?|En]; [done|]. split; [intros k Ek; cbn in Ek; lia|]. by intros _. }
  destruct BYTES_pos as [PB EB].
  assert (u32 (Z.quot (Z.of_nat m - 1) BN_BYTES + 1) = (Z.of_nat m - 1) / BN_BYTES + 1) as ->.
  { rewrite Z.quot_div_nonneg by lia. apply u32_small. unfold INT_MAX in Hmax.
    pose proof (Z.div_pos (Z.of_nat m - 1) BN_BYTES). pose proof (Z.div_le_upper_bound (Z.of_nat m - 1) BN_BYTES (Z.of_nat m - 1)). nia. }
  set (n := (Z.of_nat m - 1) / BN_BYTES + 1).
  assert (1 <= n <= Z.of_nat m) as Hn.
  { unfold n. pose proof (Z.div_pos (Z.of_nat m - 1) BN_BYTES).
    pose proof (Z.div_le_upper_bound (Z.of_nat m - 1) BN_BYTES (Z.of_nat m - 1)). nia. }
  assert (s32 n = n) as En by (apply s32_small; unfold INT_MAX in Hmax; lia). rewrite En.
  apply runs_bind. apply (bn_wexpand_any ok l o); [done|done| |].
  2: { intros s' S' F. cbn [negb]. apply runs_bind, runs_ret, runs_ret. split; [done|].
    assert (n <= (Z.of_nat len + BN_BYTES - 1) / BN_BYTES) as Ln.
    { unfold n. rewrite <- Z.div_add by lia. rewrite Z.mul_1_l. apply Z.div_le_mono; lia. }
    destruct F as [F|F]; [left; lia|by right]. }
  intros o1 st1 S1 R. cbn [negb]. pose proof (room_wf _ _ _ R) as W1. pose proof W1 as [A1 A2 A3 A4 A5].
  pose proof (room_dmax _ _ _ R) as [Dn _].
  apply runs_bind. eapply runs_modify; [by eapply stored_eq|].
  set (o2 := set_neg neg (set_top n o1)).
  assert (wf o2) as W2 by (constructor; cbn; try done; lia).
  apply runs_bind. eapply runs_mono.
  { assert (Z.of_nat m = Z.of_nat (length (take m t))) as -> by (rewrite length_take; lia).
    eapply (chunks_ok s l o2 p inc neg (take m t)).
    - apply (stored_eq _ _ _ _ (stored_set _ _ _ o2 _ S1)).
    - done.
    - by apply bytes_take.
    - done.
    - by apply src_take.
    - rewrite length_take. lia.
    - rewrite length_take, Nat.min_l by lia. fold n. lia.
    - cbn. lia. }
  intros x st2 (ws & Lw & Ww & Evw & S2). apply runs_bind.
  set (o3 := set_d (blit 0 ws (bn_d o2)) o2) in *.
  assert (wf o3) as W3.
  { constructor; cbn [o3 o2 bn_d bn_top bn_dmax bn_neg bn_flags set_d set_top set_neg]; try done;
      [|by apply words_blit|lia]. rewrite length_blit; [done|]. lia. }
  eapply bn_correct_top_ok; [by eapply stored_eq|done|].
  intros o4 W4 C4 V4 F4 _. apply runs_ret. split; [done|].
  exists o4. split; [|split; [done|split; [apply C4|]]].
  { eapply stored_set, stored_trans; [|exact S2]. by eapply stored_set. }
  split; [|split; [|done]].
  - rewrite V4. unfold val. change (bn_neg o3) with neg.
    assert (mag o3 = word_get (conv (mask_of neg) neg (take m t)).1) as ->.
    { rewrite <- Evw. unfold mag, top_words. cbn. f_equal. unfold blit. rewrite take_0, app_nil_l.
      rewrite take_app_le by lia. apply take_ge. lia. }
    assert (nbytes m (take m t)) as [Lk Wk] by (split; [rewrite length_take; lia|by apply bytes_take]).
    rewrite conv_put, word_get_put, Lk by done. pose proof (word_get_bounds _ Wk) as B. rewrite Lk in B.
    rewrite Enum. destruct (neg =? 0).
    + rewrite Z.mod_small by done. done.
    + destruct Ev as [Pv Ev]. rewrite Ev.
      replace (- word_get (take m t)) with (256 ^ Z.of_nat m - word_get (take m t) + -1 * 256 ^ Z.of_nat m) by lia.
      rewrite Z.mod_add by lia. rewrite Z.mod_small by lia. lia.
  - rewrite F4. cbn. apply R.
Qed.

(** ** Writing *)

(** A number in [n] bytes. *)
Definition bytes_out (e : endianess_t) (n : nat) (z : Z) : list Z :=
  match e with LITTLE => word_put n z | BIG => reverse (word_put n z) end.

Lemma length_bytes_out e n z : length (bytes_out e n z) = n.
Proof. destruct (nbytes_word_put n z) as [L _]. destruct e; cbn; [rewrite length_reverse|]; done. Qed.

Lemma word_put_0 n : word_put n 0 = replicate n 0.
Proof. induction n as [|n IH]; [done|]. cbn [word_put replicate]. change (0 mod 256) with 0. change (0 / 256) with 0. by rewrite IH. Qed.

(** The mask of the bytes in use. *)
Lemma borrow_mask x y : 0 <= x < 2 ^ 62 -> 0 <= y < 2 ^ 62 ->
  u64 (0 - Z.shiftr (u64 (x - y)) 63) = if x <? y then 2 ^ 64 - 1 else 0.
Proof.
  intros Hx Hy. unfold u64. rewrite Z.shiftr_div_pow2 by lia. destruct (Z.ltb_spec x y).
  - replace ((x - y) mod 2 ^ 64) with (x - y + 2 ^ 64) by (apply Z.mod_unique with (-1); lia).
    replace ((x - y + 2 ^ 64) / 2 ^ 63) with 1 by (apply Z.div_unique with (x - y + 2 ^ 63); lia). done.
  - rewrite (Z.mod_small (x - y)), Z.div_small by lia. done.
Qed.

Lemma next_index x y : 0 <= x <= y -> y < 2 ^ 62 ->
  u64 (x + Z.shiftr (u64 (x - y)) 63) = if x <? y then x + 1 else x.
Proof.
  intros Hx Hy. unfold u64. rewrite Z.shiftr_div_pow2 by lia. destruct (Z.ltb_spec x y).
  - replace ((x - y) mod 2 ^ 64) with (x - y + 2 ^ 64) by (apply Z.mod_unique with (-1); lia).
    replace ((x - y + 2 ^ 64) / 2 ^ 63) with 1 by (apply Z.div_unique with (x - y + 2 ^ 63); lia).
    apply Z.mod_small. lia.
  - rewrite (Z.mod_small (x - y)), Z.div_small, Z.add_0_r by lia. apply Z.mod_small. lia.
Qed.

(** A byte of a number is one of its words. *)
Lemma byte_of_word a j : wf a -> 0 <= j < bn_top a * BN_BYTES ->
  exists x, aget (bn_d a) (j / BN_BYTES) = Ret x /\
    u8 (Z.land (Z.shiftr x (8 * (j mod BN_BYTES))) (2 ^ 64 - 1)) = (mag a / 256 ^ j) mod 256.
Proof.
  intros H Hj. destruct BYTES_pos as [PB EB].
  assert (BN_BYTES <> 0) as NB by lia. pose proof (Z.div_mod j BN_BYTES NB) as Dj. pose proof (Z.mod_pos_bound j BN_BYTES PB) as Mj.
  assert (0 <= j / BN_BYTES < bn_top a) as Hi by (split; [apply Z.div_pos; lia|apply Z.div_lt_upper_bound; lia]).
  destruct (d_lookup a (j / BN_BYTES) H) as (x & Ex & Wx & Eg); [destruct H; lia|].
  exists x. split; [done|]. unfold u8. apply Z.bits_inj'. intros n Hn.
  destruct (Z.lt_ge_cases n 8) as [L|G].
  - change 256 with (2 ^ 8) at 2. rewrite !Z.mod_pow2_bits_low by lia.
    change 256 with (2 ^ 8). rewrite <- Z.pow_mul_r, Z.div_pow2_bits by lia.
    rewrite Z.land_spec, Z.shiftr_spec by lia. change (2 ^ 64 - 1) with (Z.ones 64).
    rewrite Z.ones_spec_low, andb_true_r by lia.
    replace (n + 8 * j) with (j / BN_BYTES * BN_BITS2 + (n + 8 * (j mod BN_BYTES))) by nia.
    unfold mag. rewrite eval_testbit; [|by apply words_top|lia|lia].
    by rewrite lookup_top, Ex by lia.
  - change 256 with (2 ^ 8) at 2. by rewrite !Z.mod_pow2_bits_high by lia.
Qed.

Lemma byte_past a j : wf a -> bn_top a * BN_BYTES <= j -> mag a / 256 ^ j = 0.
Proof.
  intros H Hj. pose proof (mag_bounds a H) as B. rewrite weight_256, Z2Nat.id in B by (destruct H; lia).
  apply Z.div_small. split; [lia|]. eapply Z.lt_le_trans; [apply B|]. apply Z.pow_le_mono_r; lia.
Qed.

Lemma out_loop_ok a neg inc k : wf a -> 0 < bn_dmax a -> (inc = 1 \/ inc = -1) -> forall j p carry to,
  0 <= j -> j + Z.of_nat k < 2 ^ 62 -> (carry = 0 \/ carry = 1) ->
  (forall i : nat, (i < k)%nat -> 0 <= p + inc * Z.of_nat i < Z.of_nat (length to)) ->
  exists to', out_loop k j (Z.min j (bn_dmax a * BN_BYTES - 1)) (bn_d a) (bn_dmax a * BN_BYTES - 1)
      (bn_top a * BN_BYTES) (mask_of neg) inc p carry to = Ret to' /\ length to' = length to /\
    (forall i : nat, (i < k)%nat ->
      to' !! Z.to_nat (p + inc * Z.of_nat i) = (conv (mask_of neg) carry (word_put k (mag a / 256 ^ j))).1 !! i) /\
    (forall q : nat, (forall i : nat, (i < k)%nat -> Z.of_nat q <> p + inc * Z.of_nat i) -> to' !! q = to !! q).
Proof.
  intros H Hd Hinc. destruct BYTES_pos as [PB EB]. pose proof H as [A1 A2 A3 A4 A5].
  pose proof WORDS_MAX_int as Wmax.
  assert (BN_BYTES <= 8) as B8 by (unfold BN_BYTES; destruct wide; lia).
  induction k as [|k IH]; intros j p carry to Hj Hk Hc Hp.
  { exists to. split_and!; try done; intros; lia. }
  cbn [out_loop]. set (lasti := bn_dmax a * BN_BYTES - 1) in *.
  assert (0 <= lasti < 2 ^ 62) as Hla by (unfold lasti; nia).
  assert (0 <= bn_top a * BN_BYTES < 2 ^ 62) as Hta by nia.
  assert (exists l, aget (bn_d a) (Z.min j lasti / BN_BYTES) = Ret l /\
    u8 (Z.land (Z.shiftr l (8 * (Z.min j lasti mod BN_BYTES))) (u64 (0 - Z.shiftr (u64 (j - bn_top a * BN_BYTES)) 63))) =
      (mag a / 256 ^ j) mod 256) as (l & -> & Eb).
  { rewrite borrow_mask by lia. destruct (Z.ltb_spec j (bn_top a * BN_BYTES)) as [L|G].
    - rewrite Z.min_l by (unfold lasti; nia). by apply byte_of_word.
    - destruct (d_lookup a (Z.min j lasti / BN_BYTES) H) as (x & _ & _ & ->).
      { split; [apply Z.div_pos; lia|]. apply Z.div_lt_upper_bound; unfold lasti; lia. }
      exists x. split; [done|]. rewrite byte_past by done. by rewrite Z.land_0_r. }
  cbn [mbind outcome_bind]. rewrite Eb. cbn [word_put conv].
  set (x := (mag a / 256 ^ j) mod 256). set (bx := Z.lxor x (mask_of neg)).
  assert (is_byte x) as Wx by (apply Z.mod_pos_bound; lia).
  assert (0 <= bx) as Pb.
  { apply Z.lxor_nonneg. unfold mask_of, is_byte in *. destruct (neg =? 0); lia. }
  assert (u8 (bx + carry) = Z.land (bx + carry) 255) as -> by (rewrite land_byte by lia; done).
  set (b := Z.land (bx + carry) 255).
  rewrite aset_ok by (specialize (Hp 0%nat ltac:(lia)); lia). cbn [mbind outcome_bind].
  rewrite next_index by lia.
  assert ((if Z.min j lasti <? lasti then Z.min j lasti + 1 else Z.min j lasti) = Z.min (j + 1) lasti) as ->.
  { destruct (Z.ltb_spec (Z.min j lasti) lasti); lia. }
  set (to1 := <[Z.to_nat p := b]> to).
  assert (length to1 = length to) as L1 by apply length_insert.
  destruct (IH (j + 1) (p + inc) (Z.b2z (b <? bx)) to1) as (to' & E & L & Hin & Hout).
  - lia.
  - lia.
  - destruct (b <? bx); auto.
  - intros i Hi. rewrite L1. specialize (Hp (Datatypes.S i) ltac:(lia)). lia.
  - exists to'. split; [exact E|]. split; [congruence|].
    replace (mag a / 256 ^ (j + 1)) with (mag a / 256 ^ j / 256) in Hin.
    2: { rewrite Z.pow_add_r, Z.div_div by (lia || apply Z.pow_pos_nonneg; lia). done. }
    destruct (conv _ _ (word_put k _)) as [o c'] eqn:Ec. cbn [fst] in *. split.
    + intros [|i] Hi.
      * rewrite Z.mul_0_r, Z.add_0_r. cbn. rewrite Hout.
        -- unfold to1. apply list_lookup_insert_eq. specialize (Hp 0%nat ltac:(lia)). lia.
        -- intros i Hi'. specialize (Hp 0%nat ltac:(lia)). lia.
      * cbn [fst]. change ((b :: o) !! Datatypes.S i) with (o !! i). rewrite <- (Hin i) by lia. f_equal. f_equal. lia.
    + intros q Hq. rewrite Hout.
      * unfold to1. apply list_lookup_insert_ne. specialize (Hq 0%nat ltac:(lia)). specialize (Hp 0%nat ltac:(lia)). lia.
      * intros i Hi. specialize (Hq (Datatypes.S i) ltac:(lia)). lia.
Qed.

Definition sval (sg : signedness_t) (a : BIGNUM) : Z := match sg with SIGNED => val a | UNSIGNED => mag a end.

(** The bytes that [bn2binpad] asks for. *)
Definition asked (sg : signedness_t) (a : BIGNUM) : Z :=
  let n8 := bit_length (mag a) in
  let n := (n8 + 7) / 8 in
  n + match sg with
      | UNSIGNED => 0
      | SIGNED => if n * 8 =? n8 then Z.b2z (bn_neg a =? 0) else bn_neg a
      end.

Lemma bit_length_nonneg z : 0 <= bit_length z.
Proof. unfold bit_length. destruct (z =? 0); [done|]. pose proof (Z.log2_nonneg z). lia. Qed.

(** The bytes written from a pointer on, in the direction of the order. *)
Lemma bytes_written e n (to to' o : list Z) : length o = n -> (n <= length to)%nat -> length to' = length to ->
  let inc := match e with LITTLE => 1 | BIG => -1 end in
  let p := match e with LITTLE => 0 | BIG => Z.of_nat n - 1 end in
  (forall i : nat, (i < n)%nat -> to' !! Z.to_nat (p + inc * Z.of_nat i) = o !! i) ->
  (forall q : nat, (forall i : nat, (i < n)%nat -> Z.of_nat q <> p + inc * Z.of_nat i) -> to' !! q = to !! q) ->
  to' = blit 0 (match e with LITTLE => o | BIG => reverse o end) to.
Proof.
  intros Lo Ln L inc p Hin Hout. apply list_eq. intros q.
  assert (length (match e with LITTLE => o | BIG => reverse o end) = n) as Lr by (destruct e; [rewrite length_reverse|]; done).
  destruct (decide (q < n)%nat) as [Hq|Hq].
  - rewrite lookup_blit_in by lia. rewrite Nat.sub_0_r. destruct e.
    + rewrite reverse_lookup by lia. specialize (Hin (n - 1 - q)%nat ltac:(lia)).
      replace (length o - S q)%nat with (n - 1 - q)%nat by lia. rewrite <- Hin. f_equal. unfold p, inc. lia.
    + specialize (Hin q Hq). rewrite <- Hin. f_equal. unfold p, inc. lia.
  - rewrite lookup_blit_out by lia. apply Hout. intros i Hi. unfold p, inc. destruct e; lia.
Qed.

Lemma out_ok e sg a tolen to : wf a -> 0 <= tolen <= INT_MAX -> tolen <= Z.of_nat (length to) ->
  (if bn_dmax a * BN_BYTES =? 0 then
     to ← mem_write to 0 (replicate (Z.to_nat tolen) 0); Ret (tolen, to)
   else
     let '(inc, p) := match e with LITTLE => (1, 0) | BIG => (-1, tolen - 1) end in
     to ← out_loop (Z.to_nat tolen) 0 0 (bn_d a) (bn_dmax a * BN_BYTES - 1) (bn_top a * BN_BYTES)
       (mask_of (match sg with SIGNED => bn_neg a | UNSIGNED => 0 end)) inc p
       (match sg with SIGNED => bn_neg a | UNSIGNED => 0 end) to;
     Ret (tolen, to)) = Ret (tolen, blit 0 (bytes_out e (Z.to_nat tolen) (sval sg a)) to).
Proof.
  intros H Ht Hto. destruct BYTES_pos as [PB EB]. pose proof H as [A1 A2 A3 A4 A5].
  set (neg := match sg with SIGNED => bn_neg a | UNSIGNED => 0 end).
  assert (neg = 0 \/ neg = 1) as Hneg by (unfold neg; destruct sg; auto).
  assert (sval sg a = if neg =? 0 then mag a else - mag a) as Es by (unfold neg; by destruct sg).
  assert (0 <= mag a) as Pm by apply mag_bounds, H.
  destruct (Z.eqb_spec (bn_dmax a * BN_BYTES) 0) as [E0|N0].
  - assert (mag a = 0) as Em.
    { unfold mag, top_words. by replace (Z.to_nat (bn_top a)) with 0%nat by nia. }
    assert (sval sg a = 0) as -> by (rewrite Es; destruct (neg =? 0); lia).
    rewrite mem_write_ok by (rewrite ?length_replicate; lia). cbn [mbind outcome_bind].
    f_equal. f_equal. unfold bytes_out. destruct e; rewrite word_put_0; [|done].
    by rewrite reverse_replicate.
  - set (inc := match e with LITTLE => 1 | BIG => -1 end). set (p := match e with LITTLE => 0 | BIG => tolen - 1 end).
    assert ((match e with LITTLE => (1, 0) | BIG => (-1, tolen - 1) end) = (inc, p)) as -> by (by destruct e).
    destruct (out_loop_ok a neg inc (Z.to_nat tolen) H ltac:(nia) ltac:(unfold inc; destruct e; auto) 0 p neg to)
      as (to' & E & L & Hin & Hout); [lia|unfold INT_MAX in *; lia|done|unfold p, inc; destruct e; lia|].
    rewrite Z.min_l in E by nia. cbv beta zeta. rewrite E. cbn [mbind outcome_bind]. f_equal. f_equal.
    destruct (nbytes_word_put (Z.to_nat tolen) (mag a / 256 ^ 0)) as [Lp Wp].
    rewrite conv_put, Lp in Hin by done. rewrite word_get_put, Z.pow_0_r, Z.div_1_r in Hin.
    assert (word_put (Z.to_nat tolen) (if neg =? 0 then mag a mod 256 ^ Z.of_nat (Z.to_nat tolen)
      else - (mag a mod 256 ^ Z.of_nat (Z.to_nat tolen))) = word_put (Z.to_nat tolen) (sval sg a)) as Eo.
    { rewrite Es. destruct (neg =? 0); [apply word_put_mod|].
      assert (256 ^ Z.of_nat (Z.to_nat tolen) <> 0) by (apply Z.pow_nonzero; lia).
      rewrite <- (word_put_mod _ (- mag a)), <- (word_put_mod _ (- (_ mod _))). f_equal.
      rewrite <- (Z.sub_0_l (mag a mod _)), <- (Z.sub_0_l (mag a)). by rewrite Zminus_mod_idemp_r. }
    rewrite Eo in Hin. destruct (nbytes_word_put (Z.to_nat tolen) (sval sg a)) as [Lo _].
    rewrite (bytes_written e (Z.to_nat tolen) to to' (word_put (Z.to_nat tolen) (sval sg a)));
      [by destruct e|done|lia|done| |].
    + intros i Hi. rewrite <- (Hin i Hi). f_equal. unfold p, inc. destruct e; lia.
    + intros q Hq. apply Hout. intros i Hi. specialize (Hq i Hi). unfold p, inc. destruct e; lia.
Qed.

(** The result of [bn2binpad], with [r] bytes to write. *)
Definition padded (sg : signedness_t) (a : BIGNUM) (tolen : Z) : option Z :=
  if tolen =? -1 then Some (asked sg a) else if tolen <? asked sg a then None else Some tolen.

Lemma bn2binpad_ok e sg a tolen to : wf a -> canon a -> -1 <= tolen <= INT_MAX ->
  (forall r, padded sg a tolen = Some r -> r <= Z.of_nat (length to)) ->
  bn2binpad a to tolen e sg = Ret (match padded sg a tolen with
    | None => (-1, to)
    | Some r => (r, blit 0 (bytes_out e (Z.to_nat r) (sval sg a)) to)
    end).
Proof.
  intros H C Ht Hto. pose proof H as [A1 A2 A3 A4 A5]. unfold bn2binpad.
  rewrite num_bits_ok by (done || apply C). cbn [mbind outcome_bind].
  pose proof (bit_length_nonneg (mag a)) as Pb.
  assert (bit_length (mag a) <= INT_MAX / 4) as Bb.
  { pose proof (top_int a H) as B. pose proof (mag_bounds a H) as Bm. rewrite weight_bits in Bm.
    etrans; [|exact B]. apply bit_length_range; destruct BITS2_cases; [nia|nia| |];
    (replace (bn_top a * BN_BITS2) with (BN_BITS2 * Z.of_nat (Z.to_nat (bn_top a))) by lia; exact Bm). }
  change (INT_MAX / 4) with 536870911 in Bb.
  rewrite Z.quot_div_nonneg by lia. set (n8 := bit_length (mag a)) in *. set (n := (n8 + 7) / 8).
  set (ext := match sg with SIGNED => if n * 8 =? n8 then Z.b2z (bn_neg a =? 0) else bn_neg a | UNSIGNED => 0 end).
  assert (asked sg a = n + ext) as Ea by (unfold asked, ext, n, n8; by destruct sg).
  assert (0 <= ext <= 1) as Be.
  { unfold ext. destruct sg; [|lia]. destruct (n * 8 =? n8); [destruct (bn_neg a =? 0); cbn; lia|lia]. }
  assert (0 <= n <= n8 + 7) as Bn by (unfold n; Z.div_mod_to_equations; lia).
  assert ((match sg with
      | SIGNED => (if bn_neg a =? 0 then 0 else 255, bn_neg a, if n * 8 =? n8 then Z.b2z (bn_neg a =? 0) else bn_neg a)
      | UNSIGNED => (0, 0, 0)
      end) = (mask_of (match sg with SIGNED => bn_neg a | UNSIGNED => 0 end),
        match sg with SIGNED => bn_neg a | UNSIGNED => 0 end, ext)) as -> by (unfold ext, mask_of; by destruct sg).
  cbv beta iota.
  assert ((if tolen =? -1 then Ret (Some (n + ext))
    else if tolen <? n + ext then
      temp ← correct_top a;
      n8 ← BN_num_bits temp;
      Ret (if tolen <? Z.quot (n8 + 7) 8 + ext then None else Some tolen)
    else Ret (Some tolen)) = Ret (padded sg a tolen)) as ->.
  { unfold padded. rewrite Ea. destruct (Z.eqb_spec tolen (-1)); [done|].
    destruct (Z.ltb_spec tolen (n + ext)); [|done].
    destruct (correct_top_ok a H) as (a' & -> & W' & C' & V' & _). cbn [mbind outcome_bind].
    rewrite num_bits_ok by (done || apply C'). cbn [mbind outcome_bind].
    assert (mag a' = mag a) as -> by (rewrite <- (val_sign a'), <- (val_sign a), V' by done; done).
    fold n8. rewrite Z.quot_div_nonneg by lia. fold n. destruct (Z.ltb_spec tolen (n + ext)); [done|lia]. }
  cbn [mbind outcome_bind]. destruct (padded sg a tolen) as [r|] eqn:Er; [|done].
  assert (0 <= r <= INT_MAX) as Hr.
  { unfold padded in Er. rewrite Ea in Er. unfold INT_MAX in *. destruct (Z.eqb_spec tolen (-1)); simplify_eq; [lia|].
    destruct (Z.ltb_spec tolen (n + ext)); simplify_eq. lia. }
  apply out_ok; [done|done|by apply Hto].
Qed.
End bin.
