(* ===== verification/BnArith.v ===== *)
(** * Big numbers: sums, shifts and single words

    bn_add.c, bn_shift.c and bn_word.c.  The result may be one of the operands:
    all are names of objects.  A pointer that moves is the object and the index
    it has come to. *)

From S2P Require Import Prelude Bytes BnBase BnMem BnWords BnDivWords BnLib.

Section arith.
Context {c : Build} (ok : nat -> bool).
Implicit Types (r a b : nat).

(** ** Sums *)

(** [BN_uadd] from the assignment to [max] on: [a] has as many words as [b]. *)
Definition uadd_ordered r a b (max min : Z) : prog bool :=
  let dif := max - min in
  x ← bn_wexpand ok r (max + 1);
  if negb (x : bool) then ret false
  else
    _ ← modify r (set_top max);
    carry ← bn_add_words (r, 0) (a, 0) (b, 0) min;
    carry ← for_ (Z.to_nat dif) 0 (fun i carry =>
      t1 ← ldw (padd (a, 0) min) i;
      let t2 := mask2 (t1 + carry) in
      _ ← stw (padd (r, 0) min) i t2;
      ret (Z.land carry (Z.b2z (t2 =? 0)))) carry;
    _ ← stw (r, 0) max carry;
    _ ← modify r (fun o => set_neg 0 (set_top (bn_top o + carry) o));
    ret true.

Definition BN_uadd r a b : prog bool :=
  oa ← get a; ob ← get b;
  if bn_top oa <? bn_top ob then uadd_ordered r b a (bn_top ob) (bn_top oa)
  else uadd_ordered r a b (bn_top oa) (bn_top ob).

Definition BN_usub r a b : prog bool :=
  oa ← get a; ob ← get b;
  let max := bn_top oa in
  let min := bn_top ob in
  let dif := max - min in
  if dif <? 0 then ret false
  else
    x ← bn_wexpand ok r max;
    if negb (x : bool) then ret false
    else
      borrow ← bn_sub_words (r, 0) (a, 0) (b, 0) min;
      _ ← for_ (Z.to_nat dif) 0 (fun i borrow =>
        t1 ← ldw (padd (a, 0) min) i;
        let t2 := mask2 (t1 - borrow) in
        _ ← stw (padd (r, 0) min) i t2;
        ret (Z.land borrow (Z.b2z (t1 =? 0)))) borrow;
      o ← get r;
      max ← lift (top_loop (Z.to_nat max) (bn_d o));
      _ ← modify r (fun o => set_neg 0 (set_top max o));
      ret true.

(** The calls of [BN_add] and [BN_sub] when the signs make it a difference. *)
Definition differ r a b (b_neg : Z) (oa ob : BIGNUM) : prog (bool * Z) :=
  cmp_res ← lift (BN_ucmp oa ob);
  if 0 <? cmp_res then x ← BN_usub r a b; ret (x, bn_neg oa)
  else if cmp_res <? 0 then x ← BN_usub r b a; ret (x, b_neg)
  else _ ← BN_zero r; ret (true, 0).

Definition BN_add r a b : prog bool :=
  oa ← get a; ob ← get b;
  '(x, r_neg) ← (if bn_neg oa =? bn_neg ob then x ← BN_uadd r a b; ret (x, bn_neg oa)
                 else differ r a b (bn_neg ob) oa ob);
  _ ← modify r (set_neg r_neg);
  ret x.

Definition BN_sub r a b : prog bool :=
  oa ← get a; ob ← get b;
  '(x, r_neg) ← (if negb (bn_neg oa =? bn_neg ob) then x ← BN_uadd r a b; ret (x, bn_neg oa)
                 else differ r a b (Z.b2z (bn_neg ob =? 0)) oa ob);
  _ ← modify r (set_neg r_neg);
  ret x.

(** ** Shifts *)

Definition BN_lshift1 r a : prog bool :=
  oa ← get a;
  x ← (if decide (r = a) then bn_wexpand ok r (bn_top oa + 1)
       else
         _ ← modify r (set_neg (bn_neg oa));
         x ← bn_wexpand ok r (bn_top oa + 1);
         if negb (x : bool) then ret false else _ ← modify r (set_top (bn_top oa)); ret true);
  if negb (x : bool) then ret false
  else
    c ← for_ (Z.to_nat (bn_top oa)) 0 (fun i c =>
      t ← ldw (a, 0) i;
      _ ← stw (r, 0) i (mask2 (Z.lor (ul (Z.shiftl t 1)) c));
      ret (Z.shiftr t (BN_BITS2 - 1))) 0;
    _ ← stw (r, 0) (bn_top oa) c;
    _ ← modify r (fun o => set_top (bn_top o + c) o);
    ret true.

(** [while (i > 0)] *)
Fixpoint rshift1_loop (i : nat) r a (c : Z) : prog unit :=
  match i with
  | O => ret tt
  | S i =>
      t ← ldw (a, 0) (Z.of_nat i);
      _ ← stw (r, 0) (Z.of_nat i) (Z.lor (mask2 (Z.shiftr t 1)) c);
      rshift1_loop i r a (ul (Z.shiftl t (BN_BITS2 - 1)))
  end.

Definition BN_rshift1 r a : prog bool :=
  oa ← get a;
  if BN_is_zero oa then _ ← BN_zero r; ret true
  else
    let i := bn_top oa in
    x ← (if decide (a = r) then ret true
         else
           x ← bn_wexpand ok r i;
           if negb (x : bool) then ret false else _ ← modify r (set_neg (bn_neg oa)); ret true);
    if negb (x : bool) then ret false
    else
      _ ← modify r (set_top i);
      t ← ldw (a, 0) (i - 1);
      _ ← stw (r, 0) (i - 1) (Z.shiftr t 1);
      _ ← modify r (fun o => set_top (bn_top o - Z.b2z (t =? 1)) o);
      _ ← rshift1_loop (Z.to_nat (i - 1)) r a (ul (Z.shiftl t (BN_BITS2 - 1)));
      _ ← modify r (fun o => if bn_top o =? 0 then set_neg 0 o else o);
      ret true.

(** [rmask = 0 - (rb != 0)], for a shift by less than a word. *)
Definition shift_mask (rb : Z) : Z := let m := ul (0 - rb) in Z.lor m (Z.shiftr m 8).

(** [for (i = a->top - 1; i > 0; i--)], and the last store. *)
Fixpoint lshift_loop (i : nat) (t f : ptr) (lb rb rmask l : Z) : prog unit :=
  match i with
  | O => stw t 0 (mask2 (ul (Z.shiftl l lb)))
  | S i' =>
      let m := ul (Z.shiftl l lb) in
      l ← ldw f (Z.of_nat i');
      _ ← stw t (Z.of_nat i) (mask2 (Z.lor m (Z.land (Z.shiftr l rb) rmask)));
      lshift_loop i' t f lb rb rmask l
  end.

Definition bn_lshift_fixed_top r a (n : Z) : prog bool :=
  let nw := n / BN_BITS2 in
  oa ← get a;
  x ← bn_wexpand ok r (bn_top oa + nw + 1);
  if negb (x : bool) then ret false
  else
    _ ← (if negb (bn_top oa =? 0) then
           let lb := n mod BN_BITS2 in
           let rb := (BN_BITS2 - lb) mod BN_BITS2 in
           let rmask := shift_mask rb in
           l ← ldw (a, 0) (bn_top oa - 1);
           _ ← stw (padd (r, 0) nw) (bn_top oa) (Z.land (Z.shiftr l rb) rmask);
           lshift_loop (Z.to_nat (bn_top oa - 1)) (padd (r, 0) nw) (a, 0) lb rb rmask l
         else stw (r, 0) nw 0);
    _ ← (if negb (nw =? 0) then
           o ← get r; d ← lift (mem_write (bn_d o) 0 (replicate (Z.to_nat nw) 0)); put r (set_d d o)
         else ret tt);
    _ ← modify r (fun o => fix_top (set_top (bn_top oa + nw + 1) (set_neg (bn_neg oa) o)));
    ret true.

Definition BN_lshift r a (n : Z) : prog bool :=
  if n <? 0 then ret false
  else
    x ← bn_lshift_fixed_top r a n;
    _ ← bn_correct_top r; ret x.

Definition bn_rshift_fixed_top r a (n : Z) : prog bool :=
  let nw := n / BN_BITS2 in
  oa ← get a;
  if bn_top oa <=? nw then _ ← BN_zero r; ret true
  else
    let rb := n mod BN_BITS2 in
    let lb := (BN_BITS2 - rb) mod BN_BITS2 in
    let mask := shift_mask lb in
    let top := bn_top oa - nw in
    x ← (if decide (r = a) then ret true else bn_wexpand ok r top);
    if negb (x : bool) then ret false
    else
      let f := padd (a, 0) nw in
      l ← ldw f 0;
      l ← for_ (Z.to_nat (top - 1)) 0 (fun i l =>
        m ← ldw f (i + 1);
        _ ← stw (r, 0) i (Z.lor (Z.shiftr l rb) (Z.land (ul (Z.shiftl m lb)) mask));
        ret m) l;
      _ ← stw (r, 0) (top - 1) (Z.shiftr l rb);
      _ ← modify r (fun o => fix_top (set_top top (set_neg (bn_neg oa) o)));
      ret true.

Definition BN_rshift r a (n : Z) : prog bool :=
  if n <? 0 then ret false
  else
    x ← bn_rshift_fixed_top r a n;
    _ ← bn_correct_top r; ret x.

(** ** Single words *)

(** [for (i = a->top - 1; i >= 0; i--)] *)
Fixpoint div_word_loop (i : nat) a (w rt : Z) : prog Z :=
  match i with
  | O => ret rt
  | S i =>
      l ← ldw (a, 0) (Z.of_nat i);
      d ← lift (bn_div_words rt l w);
      let rt := mask2 (l - mask2 (d * w)) in
      _ ← stw (a, 0) (Z.of_nat i) d;
      div_word_loop i a w rt
  end.

Definition BN_div_word a (w : Z) : prog Z :=
  let w := mask2 w in
  if w =? 0 then ret (ul (-1))
  else
    o ← get a;
    if bn_top o =? 0 then ret 0
    else
      let j := BN_BITS2 - BN_num_bits_word w in
      let w := ul (Z.shiftl w j) in
      x ← BN_lshift a a j;
      if negb (x : bool) then ret (ul (-1))
      else
        o ← get a;
        rt ← div_word_loop (Z.to_nat (bn_top o)) a w 0;
        o ← get a;
        _ ← (if 0 <? bn_top o then
               x ← ldw (a, 0) (bn_top o - 1);
               if x =? 0 then modify a (set_top (bn_top o - 1)) else ret tt
             else ret tt);
        let rt := Z.shiftr rt j in
        _ ← modify a (fun o => if bn_top o =? 0 then set_neg 0 o else o);
        ret rt.

Fixpoint mod_word_loop (i : nat) (d : list Z) (w rt : Z) : outcome Z :=
  match i with
  | O => Ret rt
  | S i =>
      x ← aget d (Z.of_nat i);
      let rt :=
        if llong then ull (Z.lor (ull (Z.shiftl rt BN_BITS2)) x) mod w
        else
          let rt := Z.lor (ul (Z.shiftl rt BN_BITS4)) (Z.land (Z.shiftr x BN_BITS4) BN_MASK2l) mod w in
          Z.lor (ul (Z.shiftl rt BN_BITS4)) (Z.land x BN_MASK2l) mod w in
      mod_word_loop i d w rt
  end.

Definition BN_mod_word a (w : Z) : prog Z :=
  if w =? 0 then ret (ul (-1))
  else if negb llong && (ul (Z.shiftl 1 BN_BITS4) <? w) then
    tmp ← BN_dup ok (Some a);
    match tmp with
    | None => ret (ul (-1))
    | Some tmp => rt ← BN_div_word tmp w; _ ← BN_free (Some tmp); ret rt
    end
  else
    o ← get a;
    let w := mask2 w in
    rt ← lift (mod_word_loop (Z.to_nat (bn_top o)) (bn_d o) w 0);
    ret (ul rt).

(** [for (i = 0; w != 0 && i < a->top; i++)], in its last [k] turns. *)
Fixpoint add_word_loop (k : nat) a (i w : Z) : prog (Z * Z) :=
  match k with
  | O => ret (i, w)
  | S k =>
      if negb (w =? 0) then
        x ← ldw (a, 0) i;
        let l := mask2 (x + w) in
        _ ← stw (a, 0) i l;
        add_word_loop k a (i + 1) (if l <? w then 1 else 0)
      else ret (i, w)
  end.

(** [for (;;)], in its last [k] turns: [i] when it breaks. *)
Fixpoint sub_word_loop (k : nat) a (i w : Z) : prog Z :=
  match k with
  | O => lift NoFuel
  | S k =>
      x ← ldw (a, 0) i;
      if w <=? x then _ ← stw (a, 0) i (x - w); ret i
      else _ ← stw (a, 0) i (mask2 (x - w)); sub_word_loop k a (i + 1) 1
  end.

(** The two functions call each other; [rec] is the other one. *)
Definition add_word (rec : nat -> Z -> prog bool) a (w : Z) : prog bool :=
  let w := mask2 w in
  if w =? 0 then ret true
  else
    o ← get a;
    if BN_is_zero o then BN_set_word ok a w
    else if negb (bn_neg o =? 0) then
      _ ← modify a (set_neg 0);
      i ← rec a w;
      _ ← modify a (fun o => if BN_is_zero o then o else set_neg (Z.b2z (bn_neg o =? 0)) o);
      ret i
    else
      '(i, w) ← add_word_loop (Z.to_nat (bn_top o)) a 0 w;
      if negb (w =? 0) && (i =? bn_top o) then
        x ← bn_wexpand ok a (bn_top o + 1);
        if negb (x : bool) then ret false
        else _ ← modify a (set_top (bn_top o + 1)); _ ← stw (a, 0) i w; ret true
      else ret true.

Definition sub_word (rec : nat -> Z -> prog bool) a (w : Z) : prog bool :=
  let w := mask2 w in
  if w =? 0 then ret true
  else
    o ← get a;
    if BN_is_zero o then
      i ← BN_set_word ok a w;
      _ ← (if (i : bool) then BN_set_negative a 1 else ret tt);
      ret i
    else if negb (bn_neg o =? 0) then
      _ ← modify a (set_neg 0);
      i ← rec a w;
      _ ← modify a (set_neg 1);
      ret i
    else
      x ← (if bn_top o =? 1 then ldw (a, 0) 0 else ret 0);
      if (bn_top o =? 1) && (x <? w) then
        _ ← stw (a, 0) 0 (w - x);
        _ ← modify a (set_neg 1);
        ret true
      else
        i ← sub_word_loop (length (bn_d o)) a 0 w;
        x ← ldw (a, 0) i;
        _ ← (if (x =? 0) && (i =? bn_top o - 1) then modify a (set_top (bn_top o - 1)) else ret tt);
        ret true.

(** The sign is cleared before a call, so that the calls are not nested further. *)
Definition BN_add_word : nat -> Z -> prog bool := add_word (sub_word (fun _ _ => lift NoFuel)).
Definition BN_sub_word : nat -> Z -> prog bool := sub_word (add_word (fun _ _ => lift NoFuel)).

Definition BN_mul_word a (w : Z) : prog bool :=
  let w := mask2 w in
  o ← get a;
  if negb (bn_top o =? 0) then
    if w =? 0 then _ ← BN_zero a; ret true
    else
      ll ← bn_mul_words (a, 0) (a, 0) (bn_top o) w;
      if negb (ll =? 0) then
        x ← bn_wexpand ok a (bn_top o + 1);
        if negb (x : bool) then ret false
        else _ ← stw (a, 0) (bn_top o) ll; _ ← modify a (set_top (bn_top o + 1)); ret true
      else ret true
  else ret true.
End arith.
