(* ===== verification/BnAddCorrect.v ===== *)
(** * Big numbers: sums are sums

    bn_add.c computes the sum and the difference, of numbers without sign and
    with one, whatever objects the operands and the result are. *)

From S2P Require Import Prelude Bytes BnBase BnMem BnWords BnLib BnLibCorrect BnOps BnArith.

(** ** Memory *)

Lemma within_wr s p l q n : within s p (length l) -> within s q n -> within (wr p l s) q n.
Proof.
  intros (o & E & H0 & H) (o' & E' & H0' & H'). destruct (decide (fst q = fst p)) as [Eq|N].
  - assert (o' = o) as -> by congruence. eexists. rewrite Eq. split; [by apply wr_objs|].
    cbn [bn_d set_d]. rewrite length_blit by lia. done.
  - exists o'. by rewrite wr_other.
Qed.

(** What is past the words that were written has not changed. *)
Lemma rd_past s p l q n : within s p (length l) -> within s q n -> snd p + Z.of_nat (length l) <= snd q ->
  rd (wr p l s) q n = rd s q n.
Proof.
  intros (o & E & H0 & H) (o' & E' & H0' & H') Hq. unfold rd. destruct (decide (fst q = fst p)) as [Eq|N].
  - rewrite Eq, (wr_objs _ _ _ _ E), E. cbn [bn_d set_d]. f_equal. unfold blit.
    rewrite app_assoc, drop_app_ge by (rewrite length_app, length_take; lia).
    rewrite drop_drop. f_equal. rewrite length_app, length_take. lia.
  - by rewrite wr_other.
Qed.

Lemma wr_app p l1 l2 s : within s p (length l1 + length l2) ->
  wr (padd p (Z.of_nat (length l1))) l2 (wr p l1 s) = wr p (l1 ++ l2) s.
Proof.
  intros (o & E & H0 & H).
  rewrite (wr_set_obj (padd p (Z.of_nat (length l1))) l2 (wr p l1 s) _ (wr_objs p l1 s o E)).
  rewrite (wr_set_obj p l1 s o E), (wr_set_obj p (l1 ++ l2) s o E). unfold set_obj. cbn [objs next fst snd padd].
  rewrite insert_insert_eq. do 2 f_equal. unfold set_d. cbn. f_equal.
  rewrite Z2Nat.inj_add, Nat2Z.id by lia. apply blit_app. lia.
Qed.

Lemma within_le s p (m n : nat) : (m <= n)%nat -> within s p n -> within s p m.
Proof. intros L (o & E & H0 & H). exists o. split; [done|]. split; [done|lia]. Qed.

Lemma runs_assoc {A B C} (m : prog A) (f : A -> prog B) (g : B -> prog C) s Q :
  runs ((m ≫= f) ≫= g) s Q -> runs (m ≫= (fun x => f x ≫= g)) s Q.
Proof. intros (x & s' & E & H). exists x, s'. by rewrite <- bind_assoc. Qed.

Section add.
Context {c : Build} (ok : nat -> bool).
Implicit Types (s : mem) (o : BIGNUM) (l r a b : nat).

(** The object [x] begins with the words [A]. *)
Definition operand s (x : nat) (A : list Z) : Prop :=
  exists o, objs s !! x = Some o /\ words (bn_d o) /\ (length A <= length (bn_d o))%nat /\ take (length A) (bn_d o) = A.

Lemma operand_words s x A : operand s x A -> words A.
Proof. intros (o & _ & W & _ & <-). by apply words_take. Qed.

Lemma operand_rd s x A (k n : nat) : operand s x A -> (k + n <= length A)%nat ->
  region s (x, Z.of_nat k) n /\ rd s (x, Z.of_nat k) n = take n (drop k A).
Proof.
  intros (o & E & W & L & T) H. assert (rd s (x, Z.of_nat k) n = take n (drop k A)) as R.
  { unfold rd. cbn [fst snd]. rewrite E, Nat2Z.id, <- T, skipn_firstn_comm, take_take. f_equal. lia. }
  split; [|done]. split; [exists o; cbn; split_and!; (done || lia)|].
  rewrite R, <- T. by apply words_take, words_drop, words_take.
Qed.

Lemma operand_prefix s x A n : operand s x A -> (n <= length A)%nat ->
  region s (x, 0) n /\ rd s (x, 0) n = take n A.
Proof. intros H L. destruct (operand_rd s x A 0 n H) as [R E]; [lia|]. rewrite drop_0 in E. by split. Qed.

Lemma operand_top s x o : objs s !! x = Some o -> wf o -> operand s x (top_words o).
Proof.
  intros E H. exists o. rewrite length_top by done. destruct H as [H1 H2 H3 H4 H5]. split_and!; (done || lia).
Qed.

(** Operands after the result has been given room. *)
Lemma operand_room s r o n o' s' x ox : objs s !! r = Some o -> room n o o' -> stored s r o' s' ->
  objs s !! x = Some ox -> wf ox -> operand s' x (top_words ox).
Proof.
  intros E R S Ex Hx. destruct (decide (x = r)) as [->|N].
  - assert (ox = o) as -> by congruence. rewrite <- (room_words _ _ _ R).
    apply operand_top; [by eapply stored_eq|apply R].
  - apply operand_top; [|done]. by rewrite (stored_lookup _ _ _ _ _ S), decide_False.
Qed.

Lemma operand_set s r o o1 x A : objs s !! r = Some o -> bn_d o1 = bn_d o -> operand s x A ->
  operand (set_obj r o1 s) x A.
Proof.
  intros E D (ox & Ex & H). destruct (decide (x = r)) as [->|N].
  - assert (ox = o) as -> by congruence. exists o1. cbn. rewrite lookup_insert_eq, D. by split.
  - exists ox. cbn. by rewrite lookup_insert_ne by done.
Qed.

(** ** The two loops *)

Lemma chain_ok (first : prog Z) (body : Z -> Z -> prog Z) f sg s r a (A B : list Z) : operand s a A -> words B ->
  (length B <= length A)%nat -> within s (r, 0) (length A) ->
  runs first s (wrote s (r, 0) (length B) (fun k (l : list Z) => is_bit k /\
    eval l + sg * (weight (length B) * k) = eval (take (length B) A) + sg * eval B)) ->
  (forall k x, is_bit k -> is_word x -> let '(v, k') := f k x in is_word v /\ is_bit k' /\ v + sg * (BASE * k') = x + sg * k) ->
  (forall i k u t Q, runs (ldw (padd (a, 0) (Z.of_nat (length B))) i) t (fun x t' => x = u /\ t' = t) ->
     runs (stw (padd (r, 0) (Z.of_nat (length B))) i (f k u).1) t (fun _ t' => Q (f k u).2 t') -> runs (body i k) t Q) ->
  runs (first ≫= for_ (length A - length B) 0 body) s (wrote s (r, 0) (length A) (fun k (l : list Z) => is_bit k /\
    eval l + sg * (weight (length A) * k) = eval A + sg * eval B)).
Proof.
  intros HA WB L Hr H1 Hf Hb. apply runs_bind. eapply runs_mono; [exact H1|].
  intros k s1 (l1 & -> & L1 & W1 & K1 & E1).
  assert (within s (r, 0) (length l1)) as Hr1 by (rewrite L1; by eapply within_le).
  destruct (operand_rd s a A (length B) (length A - length B) HA) as [[Wa Wda] Ra]; [lia|].
  rewrite (take_ge (drop (length B) A)) in Ra by (rewrite length_drop; lia).
  set (q := (a, Z.of_nat (length B)) : ptr) in *. set (p := padd (r, 0) (Z.of_nat (length B))).
  assert (rd (wr (r, 0) l1 s) q (length A - length B) = drop (length B) A) as Ra'.
  { rewrite rd_past; [done|done|done|cbn; lia]. }
  assert (within (wr (r, 0) l1 s) q (length A - length B)) as Wa' by (by apply within_wr).
  assert (region (wr (r, 0) l1 s) q (length A - length B)) as Rg by (split; [done|]; by rewrite Ra', <- Ra).
  assert (within (wr (r, 0) l1 s) p (length A - length B)) as Hp.
  { apply within_wr; [done|]. destruct Hr as (o & E & _ & H). exists o. cbn in *. split_and!; (done || lia). }
  eapply runs_mono.
  { apply (runs_linear_for is_bit 1 0 sg (fun k x _ => f k x) body p q q _ _ k); try done.
    - intros k' x y Hk Hx _. specialize (Hf k' x Hk Hx). destruct (f k' x). destruct Hf as (? & ? & ?). split_and!; try done; lia.
    - right. left. cbn. lia.
    - right. left. cbn. lia.
    - intros i k' u v t Q R1 _ Wt. by apply (Hb i k' u). }
  intros k2 s2 (l2 & -> & L2 & W2 & K2 & E2). exists (l1 ++ l2).
  split; [|split; [|split; [|split; [done|]]]].
  - unfold p. rewrite <- L1. apply wr_app. rewrite L1, L2. by replace (length B + (length A - length B))%nat with (length A) by lia.
  - rewrite length_app. lia.
  - by apply words_app.
  - rewrite eval_app, L1. rewrite Ra' in E2.
    rewrite (eval_split (length B) A), length_take, Nat.min_l by done.
    replace (length A) with (length B + (length A - length B))%nat at 1 by lia. rewrite weight_add.
    set (w := weight (length B)) in *. set (w2 := weight (length A - length B)) in *.
    replace (eval l1 + w * eval l2 + sg * (w * w2 * k2)) with (eval l1 + w * (eval l2 + sg * (w2 * k2))) by ring.
    rewrite E2. replace (eval l1 + w * (1 * eval (drop (length B) A) + 0 * eval (drop (length B) A) + sg * k))
      with (eval l1 + sg * (w * k) + w * eval (drop (length B) A)) by ring. rewrite E1. ring.
Qed.

Lemma carry_step k x : is_bit k -> is_word x ->
  let v := mask2 (x + k) in is_word v /\ is_bit (Z.land k (Z.b2z (v =? 0))) /\ v + 1 * (BASE * Z.land k (Z.b2z (v =? 0))) = x + 1 * k.
Proof.
  intros Hk Hx v. split; [apply mask2_word|]. unfold v. rewrite mask2_mod. unfold is_bit, is_word in *. pose proof BASE_pos.
  assert (k = 0 \/ k = 1) as [-> | ->] by lia.
  - rewrite Z.add_0_r, Z.mod_small by done. rewrite Z.land_0_l. lia.
  - destruct (Z.eq_dec (x + 1) BASE) as [E|N].
    + rewrite E, Z_mod_same_full. change (Z.land 1 (Z.b2z (0 =? 0))) with 1. lia.
    + rewrite Z.mod_small by lia. destruct (Z.eqb_spec (x + 1) 0); [lia|]. change (Z.land 1 (Z.b2z false)) with 0. lia.
Qed.

Lemma borrow_step k x : is_bit k -> is_word x ->
  let v := mask2 (x - k) in is_word v /\ is_bit (Z.land k (Z.b2z (x =? 0))) /\
    v + -1 * (BASE * Z.land k (Z.b2z (x =? 0))) = x + -1 * k.
Proof.
  intros Hk Hx v. split; [apply mask2_word|]. unfold v. rewrite mask2_mod. unfold is_bit, is_word in *. pose proof BASE_pos.
  assert (k = 0 \/ k = 1) as [-> | ->] by lia.
  - rewrite Z.sub_0_r, Z.mod_small by done. rewrite Z.land_0_l. lia.
  - destruct (Z.eqb_spec x 0) as [->|N].
    + assert ((0 - 1) mod BASE = BASE - 1) as -> by (symmetry; apply Z.mod_unique with (-1); lia).
      change (Z.land 1 (Z.b2z true)) with 1. lia.
    + rewrite Z.mod_small by lia. change (Z.land 1 (Z.b2z false)) with 0. lia.
Qed.

(** The result, from the words it has been given. *)
Lemma result_ok s r o o1 w (n : nat) (k : Z) : objs s !! r = Some o -> wf o1 -> bn_flags o1 = bn_flags o ->
  (length w <= length (bn_d o1))%nat -> words w -> (n <= length w)%nat -> k = Z.of_nat n ->
  (forall i, n = S i -> w !! i <> Some 0) ->
  forall s1, stored s r (set_neg 0 (set_top k (set_d (blit 0 w (bn_d o1)) o1))) s1 ->
  writes s r (eval (take n w)) s1.
Proof.
  intros E H F Lw Ww Ln -> Hn s1 S1. pose proof H as [H1 H2 H3 H4 H5].
  set (o2 := set_neg 0 _) in *. exists o, o2.
  assert (length (blit 0 w (bn_d o1)) = length (bn_d o1)) as Lb by (apply length_blit; lia).
  split; [done|]. split; [done|]. split; [|split; [|split]].
  - constructor; cbn -[blit]; try done; [by rewrite Lb|by apply words_blit|lia|by left].
  - split; [|done]. intros i Ei. cbn -[blit] in Ei |- *. rewrite lookup_blit_in by lia. rewrite Nat.sub_0_r. apply Hn. lia.
  - unfold val, mag, top_words. cbn -[blit]. rewrite Nat2Z.id. f_equal. unfold blit.
    rewrite take_0, app_nil_l, take_app_le by lia. done.
  - done.
Qed.

Lemma within_obj s r o (n : nat) : objs s !! r = Some o -> wf o -> Z.of_nat n <= bn_dmax o -> within s (r, 0) n.
Proof. intros E [H1 _ _ _ _] Hn. exists o. cbn. split_and!; (done || lia). Qed.

Lemma uadd_ordered_ok r a b o oa ob s : objs s !! r = Some o -> objs s !! a = Some oa -> objs s !! b = Some ob ->
  wf o -> wf oa -> wf ob -> lean oa -> (bn_top ob <= bn_top oa) ->
  runs (uadd_ordered ok r a b (bn_top oa) (bn_top ob)) s (fun x s' =>
    if x then writes s r (mag oa + mag ob) s' else stored s r o s' /\ starved ok (bn_top oa + 1) o).
Proof.
  intros Er Ea Eb H Ha Hb Lna Hle. unfold uadd_ordered. apply runs_bind, (bn_wexpand_any ok r o); [done|done| |].
  2: { intros s' S' F. apply runs_ret. by split. }
  intros o1 s1 S1 R. cbn [negb]. pose proof (room_wf _ _ _ R) as W1. pose proof (room_dmax _ _ _ R) as [D1 _].
  pose proof (operand_room s r o _ o1 s1 a oa Er R S1 Ea Ha) as A1.
  pose proof (operand_room s r o _ o1 s1 b ob Er R S1 Eb Hb) as B1.
  pose proof (stored_eq _ _ _ _ S1) as E1.
  apply runs_bind. eapply runs_modify; [exact E1|]. set (o2 := set_top (bn_top oa) o1).
  set (s2 := set_obj r o2 s1). set (A := top_words oa) in *. set (B := top_words ob) in *.
  assert (operand s2 a A) as A2 by (by apply (operand_set s1 r o1)).
  assert (operand s2 b B) as B2 by (by apply (operand_set s1 r o1)).
  assert (objs s2 !! r = Some o2) as E2 by apply lookup_insert_eq.
  assert (bn_top oa = Z.of_nat (length A)) as Ta by (unfold A; rewrite length_top by done; destruct Ha; lia).
  assert (bn_top ob = Z.of_nat (length B)) as Tb by (unfold B; rewrite length_top by done; destruct Hb; lia).
  assert (wf o2) as W2 by (destruct W1 as [X1 X2 X3 X4 X5]; constructor; cbn; (done || lia)).
  assert (within s2 (r, 0) (length A + 1)) as Wi by (apply (within_obj s2 r o2); [done|done|cbn; lia]).
  assert (within s2 (r, 0) (length A)) as Wi' by (eapply within_le; [|exact Wi]; lia).
  apply runs_assoc, runs_bind. rewrite Ta, Tb.
  replace (Z.to_nat (Z.of_nat (length A) - Z.of_nat (length B))) with (length A - length B)%nat by lia.
  eapply runs_mono.
  { apply (chain_ok _ _ (fun k x => (mask2 (x + k), Z.land k (Z.b2z (mask2 (x + k) =? 0)))) 1 s2 r a A B);
      [done|by eapply operand_words|lia|done| | |].
    - destruct (operand_prefix s2 a A (length B) A2) as [Ra Ea']; [lia|].
      destruct (operand_prefix s2 b B (length B) B2) as [Rb Eb']; [lia|].
      rewrite take_ge in Eb' by lia.
      eapply runs_mono; [apply (bn_add_words_ok s2 (r, 0) (a, 0) (Z.of_nat (length B)))|]; rewrite ?Nat2Z.id; try done.
      + eapply within_le; [|exact Wi]. lia.
      + right. left. cbn. lia.
      + right. left. cbn. lia.
      + intros k s' (w & -> & Lw & Ww & Kw & Ew). exists w. rewrite Ea', Eb' in Ew. split_and!; try done. lia.
    - apply carry_step.
    - intros i k u t Q R1 Wt. apply runs_bind. eapply runs_mono; [exact R1|]. intros ? ? [-> ->].
      apply runs_bind. eapply runs_mono; [exact Wt|]. intros ? ? HQ. by apply runs_ret. }
  intros k s3 (w & -> & Lw & Ww & Kw & Ew). cbn [fst snd] in *. rewrite Z.mul_1_l, Z.mul_1_l in Ew.
  apply runs_bind. replace (Z.of_nat (length A)) with (Z.of_nat (length w)) by lia.
  apply (runs_stw_next (r, 0) w k s2 (length A + 1)); [done|lia|].
  assert (objs (wr (r, 0) (w ++ [k]) s2) !! r = Some (set_d (blit 0 (w ++ [k]) (bn_d o2)) o2)) as E3 by (by apply wr_objs).
  apply runs_bind. eapply runs_modify; [exact E3|]. apply runs_ret. cbn [bn_top set_d o2 set_top].
  unfold is_bit in Kw. assert (is_word k) as Wk by (unfold is_word; pose proof BASE_pos; lia).
  assert (mag oa + mag ob = eval (take (length A + Z.to_nat k) (w ++ [k]))) as ->.
  { unfold mag. fold A B. rewrite <- Ew. assert (k = 0 \/ k = 1) as [-> | ->] by lia.
    - rewrite Nat.add_0_r, <- Lw, take_app_length. lia.
    - rewrite take_ge by (rewrite length_app; cbn; lia). rewrite eval_snoc, Lw. lia. }
  eapply (result_ok s r o o2).
  - done.
  - done.
  - cbn. apply R.
  - rewrite length_app. destruct W2. cbn [bn_dmax bn_top bn_d o2 set_top length] in *. lia.
  - apply words_app. split; [done|]. by constructor.
  - rewrite length_app. cbn. lia.
  - reflexivity.
  - intros i Ei. assert (k = 0 \/ k = 1) as [-> | ->] by lia.
    + rewrite lookup_app_l by lia. intros E0.
      assert (take (length w) w = w) as Tw by (by apply take_ge).
      pose proof (eval_split i w) as Es. rewrite (drop_S _ _ _ E0), drop_ge in Es by lia. cbn [eval] in Es.
      assert (weight i <= eval A) as Lo.
      { apply mag_lower; [done|done|]. rewrite Ta. f_equal. lia. }
      pose proof (eval_bounds (take i w) (words_take _ _ Ww)) as Bw. rewrite length_take, Nat.min_l in Bw by lia.
      pose proof (mag_bounds ob Hb) as Bb. unfold mag in Bb. fold B in Bb. lia.
    + rewrite lookup_app_r by lia. by replace (i - length w)%nat with 0%nat by lia.
  - rewrite (wr_set_obj (r, 0) _ s2 o2 E2). cbn [fst snd]. change (Z.to_nat 0) with 0%nat.
    replace (Z.of_nat (length A + Z.to_nat k)) with (bn_top oa + k) by lia.
    eapply stored_set, stored_set, stored_set, S1.
Qed.

Lemma BN_uadd_ok r a b o oa ob s : objs s !! r = Some o -> objs s !! a = Some oa -> objs s !! b = Some ob ->
  wf o -> wf oa -> wf ob -> lean oa -> lean ob ->
  runs (BN_uadd ok r a b) s (fun x s' =>
    if x then writes s r (mag oa + mag ob) s' else stored s r o s' /\ starved ok (Z.max (bn_top oa) (bn_top ob) + 1) o).
Proof.
  intros Er Ea Eb H Ha Hb La Lb. unfold BN_uadd. apply runs_bind, (runs_get _ _ _ _ Ea), runs_bind, (runs_get _ _ _ _ Eb).
  destruct (Z.ltb_spec (bn_top oa) (bn_top ob)).
  - rewrite Z.max_r, (Z.add_comm (mag oa)) by lia. by apply uadd_ordered_ok; try done; lia.
  - rewrite Z.max_l by lia. by apply uadd_ordered_ok; try done; lia.
Qed.

(** The difference, within the words of the first number: a second one that has as
    many words and is larger is subtracted all the same. *)
Lemma BN_usub_mod r a b o oa ob s : objs s !! r = Some o -> objs s !! a = Some oa -> objs s !! b = Some ob ->
  wf o -> wf oa -> wf ob -> bn_top ob <= bn_top oa ->
  runs (BN_usub ok r a b) s (fun x s' =>
    if x then writes s r ((mag oa - mag ob) mod weight (Z.to_nat (bn_top oa))) s' else stored s r o s' /\ starved ok (bn_top oa) o).
Proof.
  intros Er Ea Eb H Ha Hb Hto. unfold BN_usub.
  apply runs_bind, (runs_get _ _ _ _ Ea), runs_bind, (runs_get _ _ _ _ Eb).
  destruct (Z.ltb_spec (bn_top oa - bn_top ob) 0); [lia|].
  apply runs_bind, (bn_wexpand_any ok r o); [done|done| |].
  2: { intros s' S' F. apply runs_ret. by split. }
  intros o1 s1 S1 R. cbn [negb]. pose proof (room_wf _ _ _ R) as W1. pose proof (room_dmax _ _ _ R) as [D1 _].
  pose proof (operand_room s r o _ o1 s1 a oa Er R S1 Ea Ha) as A1.
  pose proof (operand_room s r o _ o1 s1 b ob Er R S1 Eb Hb) as B1.
  pose proof (stored_eq _ _ _ _ S1) as E1. set (A := top_words oa) in *. set (B := top_words ob) in *.
  assert (bn_top oa = Z.of_nat (length A)) as Ta by (unfold A; rewrite length_top by done; destruct Ha; lia).
  assert (bn_top ob = Z.of_nat (length B)) as Tb by (unfold B; rewrite length_top by done; destruct Hb; lia).
  assert (within s1 (r, 0) (length A)) as Wi by (apply (within_obj s1 r o1); [done|done|lia]).
  apply runs_assoc, runs_bind. rewrite Ta, Tb.
  replace (Z.to_nat (Z.of_nat (length A) - Z.of_nat (length B))) with (length A - length B)%nat by lia.
  eapply runs_mono.
  { apply (chain_ok _ _ (fun k x => (mask2 (x - k), Z.land k (Z.b2z (x =? 0)))) (-1) s1 r a A B);
      [done|by eapply operand_words|lia|done| | |].
    - destruct (operand_prefix s1 a A (length B) A1) as [Ra Ea']; [lia|].
      destruct (operand_prefix s1 b B (length B) B1) as [Rb Eb']; [lia|].
      rewrite take_ge in Eb' by lia.
      eapply runs_mono; [apply (bn_sub_words_ok s1 (r, 0) (a, 0) (Z.of_nat (length B)))|]; rewrite ?Nat2Z.id; try done.
      + eapply within_le; [|exact Wi]. lia.
      + right. left. cbn. lia.
      + right. left. cbn. lia.
      + intros k s' (w & -> & Lw & Ww & Kw & Ew). exists w. rewrite Ea', Eb' in Ew. split_and!; try done; lia.
    - apply borrow_step.
    - intros i k u t Q R1 Wt. apply runs_bind. eapply runs_mono; [exact R1|]. intros ? ? [-> ->].
      apply runs_bind. eapply runs_mono; [exact Wt|]. intros ? ? HQ. by apply runs_ret. }
  intros k s3 (w & -> & Lw & Ww & Kw & Ew). cbn [fst snd] in *.
  assert (eval w = (mag oa - mag ob) mod weight (length A)) as Ev.
  { pose proof (eval_bounds w Ww) as Bw. rewrite Lw in Bw. change (eval A) with (mag oa) in Ew. change (eval B) with (mag ob) in Ew.
    apply Z.mod_unique with (- k); lia. }
  set (o2 := set_d (blit 0 w (bn_d o1)) o1).
  assert (length w <= length (bn_d o1))%nat as Lw' by (destruct W1; lia).
  assert (objs (wr (r, 0) w s1) !! r = Some o2) as E2 by (by apply (wr_objs (r, 0))).
  apply runs_bind, (runs_get _ _ _ _ E2). rewrite Nat2Z.id.
  assert (take (length w) (blit 0 w (bn_d o1)) = w) as Tw.
  { unfold blit. rewrite take_0, app_nil_l. apply take_app_length. }
  destruct (top_loop_ok (bn_d o2) (length A)) as (n & Et & Ln & Ent & Hn).
  { apply words_blit; [done|apply W1]. }
  { cbn -[blit]. rewrite length_blit by lia. lia. }
  apply runs_bind, (runs_lift _ _ _ _ Et), runs_bind. eapply runs_modify; [exact E2|]. apply runs_ret.
  cbn -[blit eval] in Ent. rewrite <- Lw, Tw in Ent.
  assert (take n (blit 0 w (bn_d o1)) = take n w) as Tn.
  { rewrite <- Tw at 2. rewrite take_take. f_equal. lia. }
  rewrite <- Ev, <- Ent, Tn.
  eapply (result_ok s r o o1); [done|done|apply R|done|done|lia|done| |].
  - intros i Ei. specialize (Hn i Ei). cbn -[blit] in Hn. rewrite lookup_blit_in in Hn by lia. by rewrite Nat.sub_0_r in Hn.
  - rewrite (wr_set_obj (r, 0) _ s1 o1 E1). cbn [fst snd]. change (Z.to_nat 0) with 0%nat.
    eapply stored_set, stored_set, S1.
Qed.

Lemma BN_usub_ok r a b o oa ob s : objs s !! r = Some o -> objs s !! a = Some oa -> objs s !! b = Some ob ->
  wf o -> wf oa -> wf ob -> lean ob -> mag ob <= mag oa ->
  runs (BN_usub ok r a b) s (fun x s' =>
    if x then writes s r (mag oa - mag ob) s' else stored s r o s' /\ starved ok (bn_top oa) o).
Proof.
  intros Er Ea Eb H Ha Hb Lb Hle. pose proof (mag_bounds oa Ha). pose proof (mag_bounds ob Hb).
  rewrite <- (Z.mod_small (mag oa - mag ob) (weight (Z.to_nat (bn_top oa)))) by lia. apply BN_usub_mod; try done.
  destruct (Z.lt_ge_cases (bn_top oa) (bn_top ob)); [|done]. pose proof (mag_top_lt oa ob Ha Hb Lb). lia.
Qed.

(** ** Signs *)

Lemma writes_sign s r m n s' : writes s r m s' -> 0 <= m -> (n = 0 \/ n = 1) -> (m = 0 -> n = 0) ->
  runs (modify r (set_neg n)) s' (fun _ s' => writes s r (if n =? 0 then m else - m) s').
Proof.
  intros (o & o' & E & S & W & [L C] & V & F) Hm Hn Hz.
  eapply runs_modify; [by eapply stored_eq|]. exists o, (set_neg n o').
  pose proof (mag_bounds o' W) as B. assert (mag o' = m) as Em by (rewrite <- (val_sign o'), V by done; lia).
  split; [done|]. split; [by eapply stored_set|]. destruct W as [H1 H2 H3 H4 H5].
  split; [constructor; cbn; done|]. split; [split; [done|]|split; [|done]].
  - cbn. intros Et. apply Hz. rewrite <- Em. unfold mag, top_words. by rewrite Et.
  - unfold val. cbn [bn_neg set_neg]. change (mag (set_neg n o')) with (mag o'). by rewrite Em.
Qed.

(** A failure has changed nothing but the sign. *)
Definition refused s r o (n : Z) s' : Prop :=
  exists g, (g = 0 \/ g = 1) /\ stored s r (set_neg g o) s' /\ starved ok n o.

Lemma refused_sign s r o n g s' : stored s r o s' -> starved ok n o -> g = 0 \/ g = 1 ->
  runs (modify r (set_neg g)) s' (fun _ s' => refused s r o n s').
Proof.
  intros S F Hg. eapply runs_modify; [by eapply stored_eq|]. exists g. split; [done|]. split; [|done]. by eapply stored_set.
Qed.

Lemma starved_le m n o : m <= n -> starved ok m o -> starved ok n o.
Proof. intros L [F|F]; [left; lia|by right]. Qed.

Lemma differ_ok r a b g o oa ob s : objs s !! r = Some o -> objs s !! a = Some oa -> objs s !! b = Some ob ->
  wf o -> wf oa -> wf ob -> lean oa -> lean ob -> (g = 0 \/ g = 1) ->
  runs ('(x, r_neg) ← differ ok r a b g oa ob; _ ← modify r (set_neg r_neg); ret x) s (fun x s' =>
    if x then writes s r (if mag ob <? mag oa then if bn_neg oa =? 0 then mag oa - mag ob else - (mag oa - mag ob)
      else if g =? 0 then mag ob - mag oa else - (mag ob - mag oa)) s'
    else refused s r o (Z.max (bn_top oa) (bn_top ob) + 1) s').
Proof.
  intros Er Ea Eb H Ha Hb La Lb Hg. apply runs_bind. unfold differ.
  destruct (ucmp_ok oa ob Ha Hb La Lb) as (cmp & Ec & Hc). apply runs_bind, (runs_lift _ _ _ _ Ec).
  pose proof (mag_bounds oa Ha) as Ba. pose proof (mag_bounds ob Hb) as Bb.
  destruct (Z.compare_spec (mag oa) (mag ob)) as [E|L|L]; cbn in Hc.
  - rewrite Hc. cbn [Z.ltb Z.compare]. apply runs_bind. eapply runs_mono; [by apply (BN_zero_ok r o)|].
    intros [] s' Wz. apply runs_ret, runs_bind. destruct (Z.ltb_spec (mag ob) (mag oa)); [lia|].
    eapply runs_mono; [apply (writes_sign s r 0 0 s'); (done || lia || by left)|].
    intros [] s'' Ws. apply runs_ret. cbn [Z.eqb] in Ws. by replace (if g =? 0 then mag ob - mag oa else - (mag ob - mag oa)) with 0
      by (destruct (g =? 0); lia).
  - destruct (Z.ltb_spec 0 cmp); [lia|]. destruct (Z.ltb_spec cmp 0); [|lia]. destruct (Z.ltb_spec (mag ob) (mag oa)); [lia|].
    apply runs_bind. eapply runs_mono; [apply (BN_usub_ok r b a o ob oa s); try done; lia|].
    intros x s' Hx. apply runs_ret, runs_bind. destruct x.
    + eapply runs_mono; [apply (writes_sign s r _ g s' Hx); (done || lia)|]. intros [] s'' Ws. by apply runs_ret.
    + destruct Hx as [S F]. eapply runs_mono; [apply (refused_sign s r o (Z.max (bn_top oa) (bn_top ob) + 1)); [done| |done]|].
      * eapply starved_le, F. lia.
      * intros [] s'' Ws. by apply runs_ret.
  - destruct (Z.ltb_spec 0 cmp); [|lia]. destruct (Z.ltb_spec (mag ob) (mag oa)); [|lia].
    apply runs_bind. eapply runs_mono; [apply (BN_usub_ok r a b o oa ob s); try done; lia|].
    intros x s' Hx. apply runs_ret, runs_bind. pose proof (wf_neg _ Ha) as Na. destruct x.
    + eapply runs_mono; [apply (writes_sign s r _ (bn_neg oa) s' Hx); (done || lia)|]. intros [] s'' Ws. by apply runs_ret.
    + destruct Hx as [S F]. eapply runs_mono; [apply (refused_sign s r o (Z.max (bn_top oa) (bn_top ob) + 1)); [done| |done]|].
      * eapply starved_le, F. lia.
      * intros [] s'' Ws. by apply runs_ret.
Qed.

Section signed.
Context (r a b : nat) (o oa ob : BIGNUM) (s : mem).
Hypothesis Er : objs s !! r = Some o.
Hypothesis Ea : objs s !! a = Some oa.
Hypothesis Eb : objs s !! b = Some ob.
Hypothesis H : wf o.
Hypothesis Ha : wf oa.
Hypothesis Hb : wf ob.
Hypothesis Ca : canon oa.
Hypothesis Cb : canon ob.

Lemma same_sign_ok :
  runs ('(x, r_neg) ← (x ← BN_uadd ok r a b; ret (x, bn_neg oa)); _ ← modify r (set_neg r_neg); ret x) s (fun x s' =>
    if x then writes s r (if bn_neg oa =? 0 then mag oa + mag ob else - (mag oa + mag ob)) s'
    else refused s r o (Z.max (bn_top oa) (bn_top ob) + 1) s').
Proof.
  apply runs_bind, runs_bind. destruct Ca as [La Na], Cb as [Lb Nb].
  pose proof (mag_bounds oa Ha) as Ba. pose proof (mag_bounds ob Hb) as Bb.
  eapply runs_mono; [by apply (BN_uadd_ok r a b o oa ob s)|].
  intros x s' Hx. apply runs_ret, runs_bind. pose proof (wf_neg _ Ha) as Gn. destruct x.
  - eapply runs_mono; [apply (writes_sign s r _ (bn_neg oa) s' Hx); [lia|done|]|].
    + intros E0. apply Na. apply (mag_zero oa Ha La). lia.
    + intros [] s'' Ws. by apply runs_ret.
  - destruct Hx as [S F]. eapply runs_mono; [by apply (refused_sign s r o (Z.max (bn_top oa) (bn_top ob) + 1))|].
    intros [] s'' Ws. by apply runs_ret.
Qed.

Lemma BN_add_ok : runs (BN_add ok r a b) s (fun x s' =>
  if x then writes s r (val oa + val ob) s' else refused s r o (Z.max (bn_top oa) (bn_top ob) + 1) s').
Proof.
  unfold BN_add. apply runs_bind, (runs_get _ _ _ _ Ea), runs_bind, (runs_get _ _ _ _ Eb).
  pose proof (wf_neg _ Ha) as Ga. pose proof (wf_neg _ Hb) as Gb. destruct (Z.eqb_spec (bn_neg oa) (bn_neg ob)) as [E|N].
  - eapply runs_mono; [apply same_sign_ok|]. intros [] s' Hx; [|done].
    unfold val. rewrite <- E. destruct (bn_neg oa =? 0); [done|]. by replace (- mag oa + - mag ob) with (- (mag oa + mag ob)) by lia.
  - eapply runs_mono; [apply (differ_ok r a b (bn_neg ob) o oa ob s); try done; [apply Ca|apply Cb]|].
    intros [] s' Hx; [|done]. replace (val oa + val ob) with
      (if mag ob <? mag oa then if bn_neg oa =? 0 then mag oa - mag ob else - (mag oa - mag ob)
       else if bn_neg ob =? 0 then mag ob - mag oa else - (mag ob - mag oa)); [done|].
    unfold val. destruct Ga as [Ga|Ga], Gb as [Gb|Gb]; rewrite Ga, Gb in *; cbn; destruct (mag ob <? mag oa); lia.
Qed.

Lemma BN_sub_ok : runs (BN_sub ok r a b) s (fun x s' =>
  if x then writes s r (val oa - val ob) s' else refused s r o (Z.max (bn_top oa) (bn_top ob) + 1) s').
Proof.
  unfold BN_sub. apply runs_bind, (runs_get _ _ _ _ Ea), runs_bind, (runs_get _ _ _ _ Eb).
  pose proof (wf_neg _ Ha) as Ga. pose proof (wf_neg _ Hb) as Gb. destruct (Z.eqb_spec (bn_neg oa) (bn_neg ob)) as [E|N]; cbn [negb].
  - eapply runs_mono; [apply (differ_ok r a b (Z.b2z (bn_neg ob =? 0)) o oa ob s); try done; [apply Ca|apply Cb|]|].
    { destruct (bn_neg ob =? 0); auto. }
    intros [] s' Hx; [|done]. replace (val oa - val ob) with
      (if mag ob <? mag oa then if bn_neg oa =? 0 then mag oa - mag ob else - (mag oa - mag ob)
       else if Z.b2z (bn_neg ob =? 0) =? 0 then mag ob - mag oa else - (mag ob - mag oa)); [done|].
    unfold val. destruct Ga as [Ga|Ga], Gb as [Gb|Gb]; rewrite Ga, Gb in *; cbn; destruct (mag ob <? mag oa); lia.
  - eapply runs_mono; [apply same_sign_ok|]. intros [] s' Hx; [|done].
    replace (val oa - val ob) with (if bn_neg oa =? 0 then mag oa + mag ob else - (mag oa + mag ob)); [done|].
    unfold val. destruct Ga as [Ga|Ga], Gb as [Gb|Gb]; rewrite Ga, Gb in *; cbn; lia.
Qed.
End signed.
End add.
