(* ===== verification/BnShiftCorrect.v ===== *)
(** * Big numbers: shifts are multiplications and divisions

    bn_shift.c multiplies by powers of two, and divides by them towards zero. *)

From S2P Require Import Prelude Bytes BnBase BnMem BnWords BnLib BnLibCorrect BnOps BnArith BnAddCorrect.

Section shift.
Context {c : Build}.

(** ** Numbers *)

Lemma BITS2_pos : 0 < BN_BITS2.
Proof. destruct BITS2_cases; lia. Qed.

Lemma BASE_split k : 0 <= k <= BN_BITS2 -> BASE = 2 ^ k * 2 ^ (BN_BITS2 - k) /\ 0 < 2 ^ k /\ 0 < 2 ^ (BN_BITS2 - k).
Proof.
  intros H. split_and!; [|apply Z.pow_pos_nonneg; lia..]. unfold BASE. rewrite <- Z.pow_add_r by lia. f_equal. lia.
Qed.

(** The words of [w] shifted to the left by [lb] bits, with [k] at the right. *)
Fixpoint shl (lb k : Z) (w : list Z) : list Z :=
  match w with
  | [] => [k]
  | x :: w => ((x * 2 ^ lb) mod BASE + k) :: shl lb (x / 2 ^ (BN_BITS2 - lb)) w
  end.

(** The words of [w] shifted to the right by [rb] bits. *)
Fixpoint shr (rb : Z) (w : list Z) : list Z :=
  match w with
  | [] => []
  | x :: w => (x / 2 ^ rb + (default 0 (head w) * 2 ^ (BN_BITS2 - rb)) mod BASE) :: shr rb w
  end.

Lemma mul_mod_base x k : 0 <= k <= BN_BITS2 -> (x * 2 ^ k) mod BASE = 2 ^ k * (x mod 2 ^ (BN_BITS2 - k)).
Proof.
  intros H. destruct (BASE_split k H) as (E & P1 & P2). rewrite E, Z.mul_comm, Z.mul_mod_distr_l by lia. done.
Qed.

Lemma shl_word x k lb : 0 <= lb < BN_BITS2 -> is_word x -> 0 <= k < 2 ^ lb ->
  is_word ((x * 2 ^ lb) mod BASE + k) /\ 0 <= x / 2 ^ (BN_BITS2 - lb) < 2 ^ lb /\
  (x * 2 ^ lb) mod BASE + k + BASE * (x / 2 ^ (BN_BITS2 - lb)) = 2 ^ lb * x + k.
Proof.
  intros H Wx Hk. rewrite mul_mod_base by lia. destruct (BASE_split lb) as (E & P1 & P2); [lia|].
  unfold is_word in *. rewrite E in *.
  pose proof (Z.div_mod x (2 ^ (BN_BITS2 - lb))) as D. pose proof (Z.mod_pos_bound x (2 ^ (BN_BITS2 - lb))) as M.
  set (u := 2 ^ lb) in *. set (v := 2 ^ (BN_BITS2 - lb)) in *.
  set (q := x / v) in *. set (m := x mod v) in *. clearbody u v q m.
  split; [nia|]. split; [|nia]. split; [nia|]. nia.
Qed.

Lemma shl_ok lb w : 0 <= lb < BN_BITS2 -> words w -> forall k, 0 <= k < 2 ^ lb ->
  words (shl lb k w) /\ length (shl lb k w) = S (length w) /\ eval (shl lb k w) = 2 ^ lb * eval w + k.
Proof.
  intros H. induction 1 as [|x w Wx Ww IH]; intros k Hk; cbn [shl eval length].
  - split; [|lia]. constructor; [|constructor]. destruct (BASE_split lb) as (E & P1 & P2); [lia|]. unfold is_word. nia.
  - destruct (shl_word x k lb H Wx Hk) as (W1 & H1 & E1). destruct (IH _ H1) as (W2 & L2 & E2).
    split; [by constructor|]. split; [lia|]. rewrite E2. rewrite Z.mul_add_distr_l. rewrite Z.add_assoc, (Z.add_comm (_ + k)).
    lia.
Qed.

Lemma shr_ok rb w : 0 <= rb < BN_BITS2 -> words w ->
  words (shr rb w) /\ length (shr rb w) = length w /\ eval (shr rb w) = eval w / 2 ^ rb.
Proof.
  intros H. destruct (BASE_split rb) as (E & P1 & P2); [lia|].
  induction 1 as [|x w Wx Ww IH]; cbn [shr eval length]; [by rewrite Z.div_0_l by lia; split; [constructor|]|].
  destruct IH as (W2 & L2 & E2). set (y := default 0 (head w)).
  assert (y = eval w mod BASE) as Ey.
  { unfold y. destruct Ww as [|z w' Wz Ww']; cbn; [done|]. unfold is_word in Wz.
    apply Z.mod_unique with (eval w'); lia. }
  assert ((y * 2 ^ (BN_BITS2 - rb)) mod BASE = 2 ^ (BN_BITS2 - rb) * (eval w mod 2 ^ rb)) as Eh.
  { rewrite mul_mod_base by lia. replace (BN_BITS2 - (BN_BITS2 - rb)) with rb by lia. f_equal.
    rewrite Ey. symmetry. apply Znumtheory.Zmod_div_mod; [lia|pose proof BASE_pos; lia|]. exists (2 ^ (BN_BITS2 - rb)). lia. }
  rewrite Eh. pose proof (Z.div_mod (eval w) (2 ^ rb)) as D. pose proof (Z.mod_pos_bound (eval w) (2 ^ rb)) as M.
  pose proof (Z.div_mod x (2 ^ rb)) as Dx. pose proof (Z.mod_pos_bound x (2 ^ rb)) as Mx. unfold is_word in Wx.
  split; [constructor; [|done]|split; [lia|]].
  - unfold is_word. rewrite E in *. assert (0 <= x / 2 ^ rb < 2 ^ (BN_BITS2 - rb)) as B by nia. nia.
  - rewrite E2. apply Z.div_unique with (x mod 2 ^ rb); [lia|]. rewrite E. specialize (D ltac:(lia)). specialize (Dx ltac:(lia)).
    set (u := 2 ^ rb) in *. set (v := 2 ^ (BN_BITS2 - rb)) in *. set (m := eval w mod u) in *. set (q := eval w / u) in *.
    rewrite D. set (qx := x / u) in *. set (mx := x mod u) in *. rewrite Dx. ring.
Qed.

Lemma shl_lookup lb w : forall k (i : nat), (i <= length w)%nat -> shl lb k w !! i =
  Some ((default 0 (w !! i) * 2 ^ lb) mod BASE + match i with O => k | S j => default 0 (w !! j) / 2 ^ (BN_BITS2 - lb) end).
Proof.
  induction w as [|x w IH]; intros k i Hi; cbn [shl length] in *.
  - destruct i; [|lia]. cbn. by rewrite Z.mod_0_l by (pose proof BASE_pos; lia).
  - destruct i as [|i]; [done|]. cbn. rewrite IH by lia. destruct i; done.
Qed.

Lemma shr_lookup rb w : forall (i : nat) x, w !! i = Some x -> shr rb w !! i =
  Some (x / 2 ^ rb + (default 0 (w !! S i) * 2 ^ (BN_BITS2 - rb)) mod BASE).
Proof.
  induction w as [|y w IH]; intros i x E; [done|]. destruct i as [|i]; cbn in *.
  - injection E as ->. by destruct w.
  - exact (IH i x E).
Qed.

(** A number as large as its size says has no zero at the top. *)
Lemma top_of_value w i : words w -> length w = S i -> weight i <= eval w -> w !! i <> Some 0.
Proof.
  intros W L H E0. pose proof (eval_split i w) as Es. rewrite (drop_S _ _ _ E0), drop_ge in Es by lia. cbn [eval] in Es.
  pose proof (eval_bounds (take i w) (words_take _ _ W)) as B. rewrite length_take, Nat.min_l in B by lia. lia.
Qed.

(** ** The operations on words *)

Lemma shift_mask_ok k : 0 <= k < BN_BITS2 -> shift_mask k = if k =? 0 then 0 else BN_MASK2.
Proof.
  intros H. assert (Forall (fun i => shift_mask (Z.of_nat i) = if Z.of_nat i =? 0 then 0 else BN_MASK2)
    (seq 0 (Z.to_nat BN_BITS2))) as F.
  { unfold shift_mask, ul, BASE, BN_BITS2, BN_BYTES, BN_MASK2. destruct wide; cbn [Z.mul Pos.mul];
      repeat (apply Forall_cons_2; [by vm_compute|]); constructor. }
  rewrite Forall_forall in F. specialize (F (Z.to_nat k)). rewrite Z2Nat.id in F by lia. apply F.
  apply list_elem_of_In, in_seq. lia.
Qed.

Lemma masked_shr x lb : 0 <= lb < BN_BITS2 -> is_word x ->
  let rb := (BN_BITS2 - lb) mod BN_BITS2 in Z.land (Z.shiftr x rb) (shift_mask rb) = x / 2 ^ (BN_BITS2 - lb).
Proof.
  intros H Wx rb. pose proof BITS2_pos. unfold is_word in Wx.
  assert (0 <= rb < BN_BITS2) as Hr by (apply Z.mod_pos_bound; lia). rewrite shift_mask_ok by done.
  destruct (Z.eq_dec lb 0) as [->|N].
  - assert (rb = 0) as -> by (unfold rb; rewrite Z.sub_0_r; by apply Z_mod_same_full). cbn [Z.eqb].
    rewrite Z.land_0_r, Z.sub_0_r. fold BASE. by rewrite Z.div_small.
  - assert (rb = BN_BITS2 - lb) as Er by (apply Z.mod_small; lia). destruct (Z.eqb_spec rb 0); [lia|].
    rewrite <- Er. rewrite land_mask2, Z.shiftr_div_pow2 by lia. apply Z.mod_small.
    pose proof (Z.pow_pos_nonneg 2 rb ltac:(lia) ltac:(lia)).
    split; [apply Z.div_pos; lia|]. apply Z.div_lt_upper_bound; nia.
Qed.

Lemma masked_shl x rb : 0 <= rb < BN_BITS2 -> is_word x ->
  let lb := (BN_BITS2 - rb) mod BN_BITS2 in
  Z.land (ul (Z.shiftl x lb)) (shift_mask lb) = (x * 2 ^ (BN_BITS2 - rb)) mod BASE.
Proof.
  intros H Wx lb. pose proof BITS2_pos.
  assert (0 <= lb < BN_BITS2) as Hr by (apply Z.mod_pos_bound; lia). rewrite shift_mask_ok by done.
  destruct (Z.eq_dec rb 0) as [->|N].
  - assert (lb = 0) as -> by (unfold lb; rewrite Z.sub_0_r; by apply Z_mod_same_full). cbn [Z.eqb].
    rewrite Z.land_0_r, Z.sub_0_r. fold BASE. by rewrite Z_mod_mult.
  - assert (lb = BN_BITS2 - rb) as Er by (apply Z.mod_small; lia). destruct (Z.eqb_spec lb 0); [lia|].
    rewrite <- Er. rewrite land_mask2, Z.shiftl_mul_pow2 by lia. unfold ul. by rewrite Zmod_mod.
Qed.

Lemma shl_bits x lb k : 0 <= lb < BN_BITS2 -> is_word x -> 0 <= k < 2 ^ lb ->
  mask2 (Z.lor (ul (Z.shiftl x lb)) k) = (x * 2 ^ lb) mod BASE + k.
Proof.
  intros H Wx Hk. destruct (shl_word x k lb H Wx Hk) as (W & _ & _).
  rewrite mask2_mod, Z.shiftl_mul_pow2 by lia. unfold ul. rewrite mul_mod_base in * by lia.
  rewrite (Z.mul_comm (2 ^ lb)) in *. rewrite lor_low by lia. by apply Z.mod_small.
Qed.

Lemma shr_bits x y rb : 0 <= rb < BN_BITS2 -> is_word x ->
  Z.lor (Z.shiftr x rb) ((y * 2 ^ (BN_BITS2 - rb)) mod BASE) = x / 2 ^ rb + (y * 2 ^ (BN_BITS2 - rb)) mod BASE.
Proof.
  intros H Wx. rewrite mul_mod_base, Z.shiftr_div_pow2 by lia. rewrite Z.lor_comm, (Z.mul_comm (2 ^ _)), lor_low.
  - lia.
  - lia.
  - destruct (BASE_split rb) as (E & P1 & P2); [lia|]. unfold is_word in Wx. rewrite E in Wx.
    split; [apply Z.div_pos; lia|]. apply Z.div_lt_upper_bound; lia.
Qed.
End shift.

(** ** Loops that go down *)

Lemma blit_cons_down {A} k (x : A) l d : (k + S (length l) <= length d)%nat ->
  <[k := x]> (blit (S k) l d) = blit k (x :: l) d.
Proof.
  intros H. apply list_eq. intros i. destruct (decide (i = k)) as [->|N].
  - rewrite list_lookup_insert_eq by (rewrite length_blit; lia). rewrite lookup_blit_in by (cbn; lia).
    by rewrite Nat.sub_diag.
  - rewrite list_lookup_insert_ne by done. destruct (decide (S k <= i < S k + length l)%nat).
    + rewrite lookup_blit_in by lia. rewrite lookup_blit_in by (cbn; lia).
      by replace (i - k)%nat with (S (i - S k)) by lia.
    + rewrite lookup_blit_out by lia. rewrite lookup_blit_out by (cbn; lia). done.
Qed.

(** The word before those that have been written. *)
Lemma runs_stw_down p i v l s (q : nat) (Q : unit -> mem -> Prop) : snd p + i = Z.of_nat q ->
  within s (fst p, Z.of_nat q) (S (length l)) -> Q tt (wr (fst p, Z.of_nat q) (v :: l) s) ->
  runs (stw p i v) (wr (fst p, Z.of_nat (S q)) l s) Q.
Proof.
  intros Ei (o & E & _ & H) HQ. cbn [fst snd] in *.
  eapply runs_stw; [by apply (wr_objs (fst p, Z.of_nat (S q)))| |].
  - cbn [bn_d set_d snd]. rewrite length_blit; lia.
  - replace (set_obj _ _ _) with (wr (fst p, Z.of_nat q) (v :: l) s); [done|].
    rewrite (wr_set_obj (fst p, Z.of_nat q) (v :: l) s o E), (wr_set_obj (fst p, Z.of_nat (S q)) l s o E).
    unfold set_obj. cbn [objs next fst snd]. rewrite insert_insert_eq, Ei, !Nat2Z.id. do 2 f_equal.
    unfold set_d. cbn -[blit]. f_equal. symmetry. apply blit_cons_down. lia.
Qed.

(** A read of another word. *)
Lemma runs_ldw_out p i q l s x (Q : Z -> mem -> Prop) : fst p <> fst q \/ snd p + i < snd q \/ snd q + Z.of_nat (length l) <= snd p + i ->
  within s q (length l) -> 0 <= snd p + i -> (exists o, objs s !! fst p = Some o /\ bn_d o !! Z.to_nat (snd p + i) = Some x) ->
  Q x (wr q l s) -> runs (ldw p i) (wr q l s) Q.
Proof.
  intros Hq (o & E & H0 & H) Hi (o' & E' & Ex) HQ. destruct (decide (fst p = fst q)) as [Eq|N].
  - assert (o' = o) as -> by congruence. eapply runs_ldw; [rewrite Eq; by apply wr_objs|done| |done].
    cbn [bn_d set_d]. rewrite lookup_blit_out by lia. done.
  - eapply runs_ldw; [by rewrite wr_other|done|exact Ex|done].
Qed.

Section loops.
Context {c : Build} (ok : nat -> bool).
Implicit Types (s : mem) (o : BIGNUM) (r a : nat).

Lemma operand_lookup s x A i w : operand s x A -> A !! i = Some w -> exists o, objs s !! x = Some o /\ bn_d o !! i = Some w.
Proof.
  intros (o & E & W & L & T) H. exists o. split; [done|]. rewrite <- T in H. by apply lookup_take_Some in H as [? _].
Qed.

Lemma lshift_loop_ok r a (nw : nat) lb A s : operand s a A -> 0 <= lb < BN_BITS2 ->
  within s (r, Z.of_nat nw) (S (length A)) -> forall i l, A !! i = Some l ->
  runs (lshift_loop i (padd (r, 0) (Z.of_nat nw)) (a, 0) lb ((BN_BITS2 - lb) mod BN_BITS2)
    (shift_mask ((BN_BITS2 - lb) mod BN_BITS2)) l) (wr (r, Z.of_nat (nw + S i)) (drop (S i) (shl lb 0 A)) s)
    (fun _ s' => s' = wr (r, Z.of_nat nw) (shl lb 0 A) s).
Proof.
  intros HA Hlb Hw. pose proof (operand_words _ _ _ HA) as WA.
  destruct (shl_ok lb A Hlb WA 0) as (WL & LL & _); [split; [lia|apply Z.pow_pos_nonneg; lia]|].
  set (L := shl lb 0 A) in *.
  assert (forall (i : nat) x, L !! i = Some x -> x :: drop (S i) L = drop i L) as Dr by (intros; by rewrite <- drop_S).
  assert (forall i : nat, (i <= length A)%nat -> within s (r, Z.of_nat (nw + i)) (S (length (drop (S i) L)))) as Hwi.
  { intros i Hi. destruct Hw as (o & E & _ & H). exists o. cbn in *. rewrite length_drop. split_and!; (done || lia). }
  induction i as [|i IH]; intros l El; cbn [lshift_loop].
  - pose proof (words_lookup _ _ _ WA El) as Wl.
    assert (L !! 0%nat = Some (mask2 (ul (Z.shiftl l lb)))) as E0.
    { unfold L. rewrite shl_lookup, El by lia. cbn. f_equal. rewrite Z.add_0_r, mask2_mod. unfold ul.
      rewrite Z.shiftl_mul_pow2 by lia. by rewrite Zmod_mod. }
    replace (nw + 1)%nat with (S nw) by lia.
    apply (runs_stw_down (padd (r, 0) (Z.of_nat nw)) 0 _ _ s nw); [cbn; lia| |].
    + specialize (Hwi 0%nat ltac:(lia)). by rewrite Nat.add_0_r in Hwi.
    + by rewrite (Dr _ _ E0).
  - pose proof (words_lookup _ _ _ WA El) as Wl.
    pose proof (lookup_lt_Some _ _ _ El) as Li.
    destruct (lookup_lt_is_Some_2 A i) as [l' El']; [lia|]. pose proof (words_lookup _ _ _ WA El') as Wl'.
    apply runs_bind. eapply (runs_ldw_out (a, 0)).
    + right. left. cbn. lia.
    + cbn [fst]. destruct Hw as (o & E & _ & H). exists o. cbn in *. rewrite length_drop. split_and!; (done || lia).
    + cbn. lia.
    + cbn [fst snd]. rewrite Z.add_0_l, Nat2Z.id. by apply (operand_lookup s a A).
    + apply runs_bind. replace (nw + S (S i))%nat with (S (nw + S i)) by lia.
      assert (L !! S i = Some (mask2 (Z.lor (ul (Z.shiftl l lb)) (Z.land (Z.shiftr l' ((BN_BITS2 - lb) mod BN_BITS2))
        (shift_mask ((BN_BITS2 - lb) mod BN_BITS2)))))) as E0.
      { unfold L. rewrite shl_lookup, El, El' by lia. cbn [default]. unfold id. f_equal.
        rewrite masked_shr by done. symmetry. apply shl_bits; [done|done|].
        by apply (shl_word l' 0 lb Hlb Wl'); split; [lia|apply Z.pow_pos_nonneg; lia]. }
      apply (runs_stw_down (padd (r, 0) (Z.of_nat nw)) _ _ _ s (nw + S i)); [cbn; lia|by apply Hwi; lia|].
      cbn [fst padd]. rewrite (Dr _ _ E0). by apply IH.
Qed.

Lemma rshift1_loop_ok r a A s : operand s a A -> within s (r, 0) (length A) -> forall i l, A !! i = Some l ->
  runs (rshift1_loop i r a (ul (Z.shiftl l (BN_BITS2 - 1)))) (wr (r, Z.of_nat i) (drop i (shr 1 A)) s)
    (fun _ s' => s' = wr (r, 0) (shr 1 A) s).
Proof.
  intros HA Hw. pose proof (operand_words _ _ _ HA) as WA. pose proof BITS2_pos as PB.
  assert (0 <= 1 < BN_BITS2) as H1 by (destruct BITS2_cases; lia).
  destruct (shr_ok 1 A H1 WA) as (WL & LL & _). set (L := shr 1 A) in *.
  assert (forall (i : nat) x, L !! i = Some x -> x :: drop (S i) L = drop i L) as Dr by (intros; by rewrite <- drop_S).
  induction i as [|i IH]; intros l El; cbn [rshift1_loop]; [by apply runs_ret|].
  pose proof (lookup_lt_Some _ _ _ El) as Li.
  destruct (lookup_lt_is_Some_2 A i) as [l' El']; [lia|]. pose proof (words_lookup _ _ _ WA El') as Wl'.
  destruct Hw as (o & E & _ & H). cbn in E, H.
  apply runs_bind. eapply (runs_ldw_out (a, 0)).
  - right. left. cbn. lia.
  - exists o. cbn. rewrite length_drop. split_and!; (done || lia).
  - cbn. lia.
  - cbn [fst snd]. rewrite Z.add_0_l, Nat2Z.id. by apply (operand_lookup s a A).
  - assert (L !! i = Some (Z.lor (mask2 (Z.shiftr l' 1)) (ul (Z.shiftl l (BN_BITS2 - 1))))) as E0.
    { unfold L. rewrite (shr_lookup 1 A i l' El'), El. cbn [default]. unfold id. f_equal.
      rewrite mask2_mod, (Z.mod_small (Z.shiftr _ _)).
      - rewrite Z.shiftl_mul_pow2 by lia. unfold ul. symmetry. by apply shr_bits.
      - unfold is_word in Wl'. rewrite Z.shiftr_div_pow2 by lia. split; [apply Z.div_pos; lia|].
        apply Z.div_lt_upper_bound; lia. }
    apply runs_bind. apply (runs_stw_down (r, 0) _ _ _ s i); [cbn; lia| |].
    + exists o. cbn. rewrite length_drop. split_and!; (done || lia).
    + cbn [fst]. rewrite (Dr _ _ E0). by apply IH.
Qed.

(** ** Shifts to the left *)

Lemma take_blits (nw : nat) (L d : list Z) : (nw + length L <= length d)%nat ->
  take (nw + length L) (blit 0 (replicate nw 0) (blit nw L d)) = replicate nw 0 ++ L.
Proof.
  intros H. apply list_eq. intros i. destruct (decide (i < nw + length L)%nat) as [Hi|Hi].
  - rewrite lookup_take_lt by done. destruct (decide (i < nw)%nat).
    + rewrite lookup_blit_in by (rewrite ?length_blit, length_replicate; rewrite ?length_replicate; lia).
      by rewrite Nat.sub_0_r, lookup_app_l by (rewrite length_replicate; lia).
    + rewrite lookup_blit_out by (rewrite ?length_blit, ?length_replicate; lia).
      rewrite lookup_blit_in by lia. by rewrite lookup_app_r, length_replicate by (rewrite length_replicate; lia).
  - rewrite lookup_take_ge by lia. rewrite lookup_ge_None_2; [done|]. rewrite length_app, length_replicate. lia.
Qed.

Lemma lshift_words_ok r a (nw : nat) lb A s : operand s a A -> 0 <= lb < BN_BITS2 ->
  within s (r, Z.of_nat nw) (S (length A)) ->
  runs (if negb (Z.of_nat (length A) =? 0) then
          let rb := (BN_BITS2 - lb) mod BN_BITS2 in
          let rmask := shift_mask rb in
          l ← ldw (a, 0) (Z.of_nat (length A) - 1);
          _ ← stw (padd (r, 0) (Z.of_nat nw)) (Z.of_nat (length A)) (Z.land (Z.shiftr l rb) rmask);
          lshift_loop (Z.to_nat (Z.of_nat (length A) - 1)) (padd (r, 0) (Z.of_nat nw)) (a, 0) lb rb rmask l
        else stw (r, 0) (Z.of_nat nw) 0) s (fun _ s' => s' = wr (r, Z.of_nat nw) (shl lb 0 A) s).
Proof.
  intros HA Hlb Hw. pose proof (operand_words _ _ _ HA) as WA. destruct (Z.eqb_spec (Z.of_nat (length A)) 0) as [E0|N0]; cbn [negb].
  - destruct A; [|cbn in E0; lia]. cbn [shl]. rewrite <- (wr_nil (r, Z.of_nat (S nw)) s) at 1.
    by apply (runs_stw_down (r, 0) _ 0 [] s nw); [cbn; lia|exact Hw|].
  - destruct (lookup_lt_is_Some_2 A (length A - 1)) as [l El]; [lia|]. pose proof (words_lookup _ _ _ WA El) as Wl.
    destruct (operand_lookup s a A _ _ HA El) as (oa & Ea & Ed).
    apply runs_bind. eapply runs_at; [exact Ea|lia| |].
    { by replace (Z.to_nat (Z.of_nat (length A) - 1)) with (length A - 1)%nat by lia. }
    apply runs_bind. rewrite masked_shr by done.
    destruct (shl_ok lb A Hlb WA 0) as (WL & LL & _); [split; [lia|apply Z.pow_pos_nonneg; lia]|].
    assert (shl lb 0 A !! length A = Some (l / 2 ^ (BN_BITS2 - lb))) as Et.
    { rewrite shl_lookup by lia. rewrite (lookup_ge_None_2 A) by lia. cbn [default]. rewrite Z.mul_0_l, Z.mod_0_l by (pose proof BASE_pos; lia).
      destruct (length A) as [|k] eqn:EL; [lia|]. rewrite Nat.sub_succ, Nat.sub_0_r in El. by rewrite El. }
    rewrite <- (wr_nil (r, Z.of_nat (S (nw + length A))) s) at 1.
    apply (runs_stw_down (padd (r, 0) (Z.of_nat nw)) _ _ [] s (nw + length A)); [cbn; lia| |].
    { destruct Hw as (o & E & _ & H). exists o. cbn in *. split_and!; (done || lia). }
    cbn [fst padd].
    assert ([l / 2 ^ (BN_BITS2 - lb)] = drop (length A) (shl lb 0 A)) as ->.
    { rewrite (drop_S _ _ _ Et), drop_ge by lia. done. }
    replace (Z.to_nat (Z.of_nat (length A) - 1)) with (length A - 1)%nat by lia.
    pose proof (lshift_loop_ok r a nw lb A s HA Hlb Hw (length A - 1) l El) as Lo.
    by replace (S (length A - 1)) with (length A) in Lo by lia.
Qed.

Lemma BN_lshift_ok r a n o oa s : objs s !! r = Some o -> objs s !! a = Some oa -> wf o -> wf oa -> canon oa -> 0 <= n ->
  runs (BN_lshift ok r a n) s (fun x s' =>
    if x then writes s r (val oa * 2 ^ n) s'
    else writes s r (val o) s' /\ starved ok (bn_top oa + n / BN_BITS2 + 1) o).
Proof.
  intros Er Ea H Ha Ca Hn. unfold BN_lshift. destruct (Z.ltb_spec n 0); [lia|].
  destruct (split_index n Hn) as (Hi & Hlb & En). set (lb := n mod BN_BITS2) in *.
  set (nw := Z.to_nat (n / BN_BITS2)). assert (n / BN_BITS2 = Z.of_nat nw) as Enw by lia.
  apply runs_bind. unfold bn_lshift_fixed_top. apply runs_bind, (runs_get _ _ _ _ Ea). fold lb. rewrite Enw in *.
  apply runs_bind, (bn_wexpand_any ok r o); [done|done| |].
  2: { intros s' S' F. apply runs_ret, runs_bind. eapply bn_correct_top_ok; [by eapply stored_eq|done|].
    intros o' W' C' V' F' _. apply runs_ret. split; [|done]. exists o, o'. split_and!; try done. by eapply stored_set. }
  intros o1 s1 S1 R. cbn [negb]. pose proof (room_wf _ _ _ R) as W1. pose proof (room_dmax _ _ _ R) as [D1 _].
  pose proof (operand_room s r o _ o1 s1 a oa Er R S1 Ea Ha) as A1. pose proof (stored_eq _ _ _ _ S1) as E1.
  set (A := top_words oa) in *.
  assert (bn_top oa = Z.of_nat (length A)) as Ta by (unfold A; rewrite length_top by done; destruct Ha; lia).
  pose proof (operand_words _ _ _ A1) as WA. rewrite Ta in *.
  destruct (shl_ok lb A Hlb WA 0) as (WL & LL & EL); [split; [lia|apply Z.pow_pos_nonneg; lia]|].
  set (L := shl lb 0 A) in *. assert (nw + length L <= length (bn_d o1))%nat as Lfit by (destruct W1; lia).
  apply runs_bind. eapply runs_mono.
  { apply lshift_words_ok; [exact A1|done|]. exists o1. cbn. split_and!; (done || lia). }
  intros ? s2 ->. fold L. set (o2 := set_d (blit nw L (bn_d o1)) o1).
  assert (wr (r, Z.of_nat nw) L s1 = set_obj r o2 s1) as Es2.
  { rewrite (wr_set_obj (r, Z.of_nat nw) L s1 o1 E1). cbn [fst snd]. by rewrite Nat2Z.id. }
  rewrite Es2. assert (stored s r o2 (set_obj r o2 s1)) as S2 by (by eapply stored_set).
  set (d := blit 0 (replicate nw 0) (bn_d o2)). set (o3 := set_d d o2).
  apply runs_bind. apply (runs_mono _ _ (fun _ s' => stored s r o3 s')).
  { destruct (Z.eqb_spec (Z.of_nat nw) 0) as [E0|N0]; cbn [negb].
    - apply runs_ret. assert (nw = 0%nat) as E0' by lia. unfold o3, d. rewrite E0'. cbn [replicate]. by rewrite blit_nil, set_d_same.
    - apply runs_bind, (runs_get _ _ _ _ (stored_eq _ _ _ _ S2)), runs_bind, (runs_lift d).
      + rewrite Nat2Z.id. apply mem_write_ok; [done|]. rewrite length_replicate. cbn -[blit]. rewrite length_blit; lia.
      + eapply runs_put; [by eapply stored_eq|]. by eapply stored_set. }
  intros [] s3 S3. apply runs_bind. eapply runs_modify; [by eapply stored_eq|]. apply runs_ret. rewrite fix_top_same.
  set (o4 := set_top _ (set_neg _ o3)).
  assert (length d = length (bn_d o1)) as Ld.
  { unfold d. cbn -[blit]. rewrite !length_blit; rewrite ?length_blit, ?length_replicate; lia. }
  assert (wf o4) as W4.
  { destruct W1 as [X1 X2 X3 X4 X5]. constructor; cbn -[blit]; try done.
    - by rewrite Ld.
    - apply words_blit; [apply words_zeros|by apply words_blit].
    - lia.
    - apply Ha. }
  assert (top_words o4 = replicate nw 0 ++ L) as T4.
  { unfold top_words. cbn -[blit]. replace (Z.to_nat (Z.of_nat (length A) + Z.of_nat nw + 1)) with (nw + length L)%nat by lia.
    by apply take_blits. }
  apply runs_bind. eapply bn_correct_top_ok; [by eapply stored_eq, stored_set|done|].
  intros o5 W5 C5 V5 F5 _. apply runs_ret. exists o, o5. split; [done|]. split; [by eapply stored_set, stored_set|].
  split; [done|]. split; [done|]. split.
  - rewrite V5. unfold val. change (bn_neg o4) with (bn_neg oa).
    assert (mag o4 = mag oa * 2 ^ n) as ->.
    { unfold mag at 1. rewrite T4, eval_app, eval_zeros, EL, length_replicate, weight_bits. fold (mag oa).
      assert (0 <= Z.of_nat nw * BN_BITS2) by (pose proof BITS2_pos; nia).
      rewrite En, Z.pow_add_r, (Z.mul_comm BN_BITS2) by lia. unfold A, mag. ring. }
    destruct (bn_neg oa =? 0); lia.
  - rewrite F5. cbn. apply R.
Qed.

(** ** The result *)

Lemma result_signed s r o o2 s1 w : objs s !! r = Some o -> stored s r o2 s1 -> Z.of_nat (length (bn_d o2)) = bn_dmax o2 ->
  bn_dmax o2 <= WORDS_MAX -> words (bn_d o2) -> bn_top o2 = Z.of_nat (length w) -> take (length w) (bn_d o2) = w ->
  (bn_neg o2 = 0 \/ bn_neg o2 = 1) -> (w = [] -> bn_neg o2 = 0) -> bn_flags o2 = bn_flags o ->
  (forall i, length w = S i -> w !! i <> Some 0) ->
  writes s r (if bn_neg o2 =? 0 then eval w else - eval w) s1.
Proof.
  intros E S Hl Hd Hw Ht Tw Hn Hz Hf Hlean. exists o, o2. split; [done|]. split; [done|].
  assert (top_words o2 = w) as T by (unfold top_words; by rewrite Ht, Nat2Z.id).
  assert (length w <= length (bn_d o2))%nat as Lw by (rewrite <- Tw, length_take; lia).
  split; [constructor; (done || lia)|]. split; [|split; [unfold val, mag; by rewrite T|done]]. split.
  - intros k Ek. rewrite Ht in Ek. specialize (Hlean k ltac:(lia)). rewrite <- Tw in Hlean.
    by rewrite lookup_take_lt in Hlean by lia.
  - rewrite Ht. intros E0. apply Hz. destruct w; [done|cbn in E0; lia].
Qed.

Lemma take_blit (n : nat) (w d : list Z) : (length w <= length d)%nat -> (n <= length w)%nat ->
  take n (blit 0 w d) = take n w.
Proof. intros H L. unfold blit. rewrite take_0, app_nil_l. by rewrite take_app_le by lia. Qed.

(** The top word of a shift to the left by a bit. *)
Lemma lshift1_step k x : is_bit k -> is_word x ->
  let v := mask2 (Z.lor (ul (Z.shiftl x 1)) k) in
  is_word v /\ is_bit (Z.shiftr x (BN_BITS2 - 1)) /\ v + 1 * (BASE * Z.shiftr x (BN_BITS2 - 1)) = 2 * x + 1 * k.
Proof.
  intros Hk Wx v. assert (0 <= 1 < BN_BITS2) as H1 by (destruct BITS2_cases; lia).
  unfold v. rewrite shl_bits by (done || unfold is_bit in Hk; lia).
  destruct (shl_word x k 1 H1 Wx) as (W & B & E); [unfold is_bit in Hk; lia|].
  rewrite Z.shiftr_div_pow2 by lia. unfold is_bit. split; [done|]. split; lia.
Qed.

Lemma BN_lshift1_ok r a o oa s : objs s !! r = Some o -> objs s !! a = Some oa -> wf o -> wf oa -> canon oa ->
  runs (BN_lshift1 ok r a) s (fun x s' =>
    if x then writes s r (2 * val oa) s' else refused ok s r o (bn_top oa + 1) s').
Proof.
  intros Er Ea H Ha [La Na]. unfold BN_lshift1. apply runs_bind, (runs_get _ _ _ _ Ea). apply runs_bind.
  set (A := top_words oa).
  assert (bn_top oa = Z.of_nat (length A)) as Ta by (unfold A; rewrite length_top by done; destruct Ha; lia).
  (* room, the top and the sign of [a] *)
  apply (runs_mono _ _ (fun x s1 => if x : bool then exists o1, stored s r o1 s1 /\ wf o1 /\ bn_top oa + 1 <= bn_dmax o1 /\
      bn_top o1 = bn_top oa /\ bn_neg o1 = bn_neg oa /\ bn_flags o1 = bn_flags o /\ operand s1 a A
    else refused ok s r o (bn_top oa + 1) s1)).
  { destruct (decide (r = a)) as [->|N].
    - assert (o = oa) as -> by congruence. apply (bn_wexpand_any ok a oa); [done|done| |].
      + intros o1 s1 S1 R. exists o1. pose proof (room_dmax _ _ _ R). split_and!; try done; try apply R; try lia.
        by apply (operand_room s a oa (bn_top oa + 1) o1 s1 a oa).
      + intros s1 S1 F. exists (bn_neg oa). split; [apply Ha|]. split; [|done]. by destruct oa.
    - apply runs_bind. eapply runs_modify; [done|]. set (o0 := set_neg (bn_neg oa) o).
      assert (wf o0) as W0 by (destruct H; constructor; cbn; try done; apply Ha).
      apply runs_bind. apply (bn_wexpand_any ok r o0); [apply lookup_insert_eq|done| |].
      + intros o1 s1 S1 R. cbn [negb]. apply runs_bind. eapply runs_modify; [by eapply stored_eq|]. apply runs_ret.
        pose proof (room_wf _ _ _ R) as [X1 X2 X3 X4 X5]. pose proof (room_dmax _ _ _ R).
        exists (set_top (bn_top oa) o1). split_and!; try done; try (cbn; apply R); try (cbn; lia).
        * eapply stored_trans; [by apply (stored_set_same s r o o0)|]. by eapply stored_set.
        * constructor; cbn; try done. destruct Ha. lia.
        * eapply operand_set; [by eapply stored_eq|done|].
          apply (operand_room (set_obj r o0 s) r o0 (bn_top oa + 1) o1 s1 a oa); try done; cbn;
            [apply lookup_insert_eq|by rewrite lookup_insert_ne by done].
      + intros s1 S1 F. cbn [negb]. apply runs_ret. exists (bn_neg oa). split; [apply Ha|]. split; [|done].
        eapply stored_trans; [by apply (stored_set_same s r o o0)|done]. }
  intros [] s1; [|intros F; cbn [negb]; by apply runs_ret]. cbn [negb].
  intros (o1 & S1 & W1 & D1 & T1 & N1 & F1 & A1). pose proof (stored_eq _ _ _ _ S1) as E1. rewrite Ta in *.
  apply runs_bind. rewrite Nat2Z.id. destruct (operand_prefix s1 a A (length A) A1) as [Ra EA]; [lia|]. rewrite take_ge in EA by lia.
  assert (within s1 (r, 0) (length A + 1)) as Wi by (apply (within_obj s1 r o1); [done|done|lia]).
  eapply runs_mono.
  { apply (runs_linear_for is_bit 2 0 1 (fun k x _ => (mask2 (Z.lor (ul (Z.shiftl x 1)) k), Z.shiftr x (BN_BITS2 - 1)))
      _ (r, 0) (a, 0) (a, 0) (length A) s1 0); try done.
    - intros k x y Hk Hx _. destruct (lshift1_step k x Hk Hx) as (? & ? & ?). split_and!; try done; lia.
    - eapply within_le; [|exact Wi]. lia.
    - right. left. cbn. lia.
    - right. left. cbn. lia.
    - intros i k u v t Q R1 _ Wt. apply runs_bind. eapply runs_mono; [exact R1|]. intros ? ? [-> ->].
      apply runs_bind. eapply runs_mono; [exact Wt|]. intros ? ? HQ. by apply runs_ret. }
  intros k s2 (w & -> & Lw & Ww & Kw & Ew). rewrite EA in Ew.
  assert (eval w + weight (length A) * k = 2 * mag oa) as Em by (unfold mag; fold A; lia). clear Ew.
  apply runs_bind. replace (Z.of_nat (length A)) with (Z.of_nat (length w)) by lia.
  apply (runs_stw_next (r, 0) w k s1 (length A + 1)); [done|lia|].
  rewrite (wr_set_obj (r, 0) (w ++ [k]) s1 o1 E1). cbn [fst snd]. change (Z.to_nat 0) with 0%nat.
  set (o2 := set_d _ o1). assert (stored s r o2 (set_obj r o2 s1)) as S2 by (by eapply stored_set).
  apply runs_bind. eapply runs_modify; [by eapply stored_eq|]. apply runs_ret.
  unfold is_bit in Kw. assert (is_word k) as Wk by (unfold is_word; pose proof BASE_pos; lia).
  set (n := (length A + Z.to_nat k)%nat). set (o3 := set_top _ o2).
  pose proof W1 as [X1 X2 X3 X4 X5].
  assert (length (w ++ [k]) = S (length A)) as Lk by (rewrite length_app; cbn; lia).
  assert (words (w ++ [k])) as Wwk by (apply words_app; split; [done|by constructor]).
  assert (length (take n (w ++ [k])) = n) as Ln by (rewrite length_take; lia).
  assert (eval (take n (w ++ [k])) = 2 * mag oa) as Ev.
  { rewrite <- Em. unfold n. assert (k = 0 \/ k = 1) as [-> | ->] by lia.
    - rewrite Nat.add_0_r, <- Lw, take_app_length. lia.
    - rewrite take_ge by lia. rewrite eval_snoc, Lw. lia. }
  assert (2 * val oa = if bn_neg o3 =? 0 then eval (take n (w ++ [k])) else - eval (take n (w ++ [k]))) as ->.
  { rewrite Ev. unfold val. cbn. rewrite N1. destruct (bn_neg oa =? 0); lia. }
  apply (result_signed s r o o3); try done.
  - by eapply stored_set.
  - cbn -[blit]. rewrite length_blit; lia.
  - cbn -[blit]. by apply words_blit.
  - cbn. rewrite Ln. unfold n. lia.
  - rewrite Ln. cbn -[blit]. apply take_blit; lia.
  - cbn. intros E0. rewrite N1. apply Na. rewrite E0 in Ln. cbn in Ln. unfold n in Ln. lia.
  - rewrite Ln. intros i Ei. assert (k = 0 \/ k = 1) as [-> | ->] by lia.
    + apply top_of_value; [by apply words_take|lia|]. rewrite Ev.
      assert (weight i <= mag oa) by (apply mag_lower; [done|done|unfold n in Ei; lia]). pose proof (weight_pos i). lia.
    + rewrite lookup_take_lt by lia. unfold n in Ei. rewrite lookup_app_r by lia.
      by replace (i - length w)%nat with 0%nat by lia.
Qed.

(** ** Shifts to the right *)

Lemma quot_val o n : wf o -> 0 <= n -> Z.quot (val o) (2 ^ n) = if bn_neg o =? 0 then mag o / 2 ^ n else - (mag o / 2 ^ n).
Proof.
  intros H Hn. pose proof (mag_bounds o H) as B. assert (0 < 2 ^ n) by (apply Z.pow_pos_nonneg; lia).
  unfold val. destruct (bn_neg o =? 0); rewrite ?Z.quot_opp_l, Z.quot_div_nonneg by lia; done.
Qed.

(** The object that [BN_zero] leaves. *)
Lemma zeroed s r o : objs s !! r = Some o -> wf o -> exists o', stored s r o' (set_obj r o' s) /\
  runs (BN_zero r) s (fun _ s' => s' = set_obj r o' s) /\ wf o' /\ canon o' /\ val o' = 0 /\ bn_flags o' = bn_flags o.
Proof.
  intros E H. exists (set_top 0 (set_neg 0 o)). split; [by eapply stored_set_same|].
  split; [apply (runs_modify _ _ _ _ _ E); by rewrite unfix_same|]. destruct H as [H1 H2 H3 H4 H5].
  split; [constructor; cbn; try done; [lia|by left]|]. split; [|done]. split; [intros k Ek; cbn in Ek; lia|done].
Qed.

(** A target for words of [a]: it has been given room if it is another object. *)
Lemma target_ok r a o oa n s : objs s !! r = Some o -> objs s !! a = Some oa -> wf o -> wf oa -> n <= bn_dmax oa ->
  runs (if decide (r = a) then ret true else bn_wexpand ok r n) s (fun x s1 =>
    if x : bool then exists o1, stored s r o1 s1 /\ wf o1 /\ n <= bn_dmax o1 /\ bn_flags o1 = bn_flags o /\ operand s1 a (top_words oa)
    else stored s r o s1 /\ starved ok n o).
Proof.
  intros Er Ea H Ha Hn. destruct (decide (r = a)) as [->|N].
  - apply runs_ret. assert (o = oa) as -> by congruence. exists oa. split_and!; try done; [by apply stored_self|by apply operand_top].
  - apply (bn_wexpand_any ok r o); [done|done| |by intros s1 S1 F].
    intros o1 s1 S1 R. exists o1. pose proof (room_dmax _ _ _ R). split_and!; try done; try apply R; try lia.
    by apply (operand_room s r o n o1 s1 a oa).
Qed.

Lemma rshift_words_ok r a (nw : nat) rb A s l : operand s a A -> 0 <= rb < BN_BITS2 -> (nw < length A)%nat ->
  A !! nw = Some l -> within s (r, 0) (length A - nw) ->
  runs (l ← for_ (length A - nw - 1) 0 (fun i l =>
      m ← ldw (padd (a, 0) (Z.of_nat nw)) (i + 1);
      _ ← stw (r, 0) i (Z.lor (Z.shiftr l rb) (Z.land (ul (Z.shiftl m ((BN_BITS2 - rb) mod BN_BITS2)))
        (shift_mask ((BN_BITS2 - rb) mod BN_BITS2))));
      ret m) l;
    stw (r, 0) (Z.of_nat (length A - nw) - 1) (Z.shiftr l rb)) s
    (fun _ s' => s' = wr (r, 0) (shr rb (drop nw A)) s).
Proof.
  intros HA Hrb Hnw El Hw. pose proof (operand_words _ _ _ HA) as WA. set (F := drop nw A).
  assert (length F = length A - nw)%nat as LF by (unfold F; by rewrite length_drop).
  assert (words F) as WF by (by apply words_drop). destruct (shr_ok rb F Hrb WF) as (WL & LL & _). set (L := shr rb F) in *.
  apply runs_bind. apply (runs_for (fun i l s' => F !! Z.to_nat i = Some l /\ s' = wr (r, 0) (take (Z.to_nat i) L) s)).
  - intros i x s' Hi (Ex & ->). pose proof (words_lookup _ _ _ WF Ex) as Wx.
    destruct (lookup_lt_is_Some_2 F (Z.to_nat (i + 1))) as [m Em]; [lia|]. pose proof (words_lookup _ _ _ WF Em) as Wm.
    assert (length (take (Z.to_nat i) L) = Z.to_nat i) as Lt by (rewrite length_take; lia).
    apply runs_bind. eapply (runs_ldw_out (padd (a, 0) (Z.of_nat nw))).
    + right. right. cbn. lia.
    + eapply within_le; [|exact Hw]. lia.
    + cbn. lia.
    + cbn [fst snd padd]. apply (operand_lookup s a A); [done|]. unfold F in Em. rewrite lookup_drop in Em. rewrite <- Em. f_equal. lia.
    + apply runs_bind. rewrite masked_shl, shr_bits by done.
      assert (L !! Z.to_nat i = Some (x / 2 ^ rb + (m * 2 ^ (BN_BITS2 - rb)) mod BASE)) as E0.
      { unfold L. rewrite (shr_lookup rb F _ x Ex). replace (S (Z.to_nat i)) with (Z.to_nat (i + 1)) by lia. by rewrite Em. }
      replace i with (Z.of_nat (length (take (Z.to_nat i) L))) at 1 by lia.
      apply (runs_stw_next _ _ _ s (length A - nw)); [done|lia|]. apply runs_ret. split; [done|].
      replace (Z.to_nat (i + 1)) with (S (Z.to_nat i)) by lia. by rewrite (take_S_r _ _ _ E0).
  - split; [|by rewrite wr_nil]. change (Z.to_nat 0) with 0%nat. unfold F. by rewrite lookup_drop, Nat.add_0_r.
  - intros x s' (Ex & ->). rewrite Z.add_0_l, Nat2Z.id in *. set (k := (length A - nw - 1)%nat) in *.
    pose proof (words_lookup _ _ _ WF Ex) as Wx.
    assert (L !! k = Some (Z.shiftr x rb)) as E0.
    { unfold L. rewrite (shr_lookup rb F _ x Ex). rewrite (lookup_ge_None_2 F) by lia. cbn [default].
      rewrite Z.mul_0_l, Z.mod_0_l, Z.add_0_r by (pose proof BASE_pos; lia). by rewrite Z.shiftr_div_pow2 by lia. }
    assert (length (take k L) = k) as Lt by (rewrite length_take; lia).
    replace (Z.of_nat (length A - nw) - 1) with (Z.of_nat (length (take k L))) by lia.
    apply (runs_stw_next _ _ _ s (length A - nw)); [done|lia|]. rewrite <- (take_S_r _ _ _ E0). by rewrite take_ge by lia.
Qed.

Lemma BN_rshift_ok r a n o oa s : objs s !! r = Some o -> objs s !! a = Some oa -> wf o -> wf oa -> canon oa -> 0 <= n ->
  runs (BN_rshift ok r a n) s (fun x s' =>
    if x then writes s r (Z.quot (val oa) (2 ^ n)) s'
    else writes s r (val o) s' /\ starved ok (bn_top oa - n / BN_BITS2) o).
Proof.
  intros Er Ea H Ha Ca Hn. unfold BN_rshift. destruct (Z.ltb_spec n 0); [lia|]. rewrite quot_val by done.
  destruct (split_index n Hn) as (Hi & Hrb & En). set (rb := n mod BN_BITS2) in *.
  set (nw := Z.to_nat (n / BN_BITS2)). assert (n / BN_BITS2 = Z.of_nat nw) as Enw by lia.
  apply runs_bind. unfold bn_rshift_fixed_top. apply runs_bind, (runs_get _ _ _ _ Ea). fold rb. rewrite Enw in *.
  set (A := top_words oa).
  assert (bn_top oa = Z.of_nat (length A)) as Ta by (unfold A; rewrite length_top by done; destruct Ha; lia).
  destruct (Z.leb_spec (bn_top oa) (Z.of_nat nw)) as [Lt|Gt].
  { destruct (zeroed s r o Er H) as (o' & S' & Rz & W' & C' & V' & F'). apply runs_bind. eapply runs_mono; [exact Rz|].
    intros ? ? ->. apply runs_ret, runs_bind. eapply bn_correct_top_ok; [by eapply stored_eq|done|].
    intros o2 W2 C2 V2 F2 _. apply runs_ret. exists o, o2. split; [done|]. split; [by eapply stored_set|].
    split; [done|]. split; [done|]. split; [|by rewrite F2].
    assert (mag oa / 2 ^ n = 0) as ->; [|rewrite V2, V'; by destruct (bn_neg oa =? 0)].
    apply Z.div_small. pose proof (mag_bounds oa Ha) as B. split; [lia|]. eapply Z.lt_le_trans; [apply B|].
    rewrite weight_bits. apply Z.pow_le_mono_r; [lia|]. pose proof BITS2_pos. nia. }
  apply runs_bind. eapply runs_mono; [apply (target_ok r a o oa); try done; destruct Ha; lia|].
  intros [] s1; cbn [negb].
  2: { intros (S1 & F1). apply runs_ret, runs_bind. eapply bn_correct_top_ok; [by eapply stored_eq|done|].
    intros o' W' C' V' F' _. apply runs_ret. split; [|done]. exists o, o'. split_and!; try done. by eapply stored_set. }
  intros (o1 & S1 & W1 & D1 & F1 & A1). pose proof (stored_eq _ _ _ _ S1) as E1. fold A in A1. rewrite Ta in *.
  destruct (lookup_lt_is_Some_2 A nw) as [l El]; [lia|]. destruct (operand_lookup s1 a A _ _ A1 El) as (oa1 & Ea1 & Ed).
  apply runs_bind. eapply (runs_ldw (padd (a, 0) (Z.of_nat nw)) 0 oa1 l); [done|cbn; lia| |].
  { cbn [snd padd]. by replace (Z.to_nat (0 + Z.of_nat nw + 0)) with nw by lia. }
  replace (Z.to_nat (Z.of_nat (length A) - Z.of_nat nw - 1)) with (length A - nw - 1)%nat by lia.
  replace (Z.of_nat (length A) - Z.of_nat nw) with (Z.of_nat (length A - nw)) in * by lia.
  apply runs_assoc, runs_bind. eapply runs_mono.
  { apply (rshift_words_ok r a nw rb A s1 l); try done; [lia|]. apply (within_obj s1 r o1); [done|done|lia]. }
  intros ? s2 ->. pose proof (operand_words _ _ _ A1) as WA.
  destruct (shr_ok rb (drop nw A) Hrb (words_drop _ _ WA)) as (WL & LL & EL). set (L := shr rb (drop nw A)) in *.
  rewrite length_drop in LL.
  rewrite (wr_set_obj (r, 0) L s1 o1 E1). cbn [fst snd]. change (Z.to_nat 0) with 0%nat. set (o2 := set_d _ o1).
  assert (stored s r o2 (set_obj r o2 s1)) as S2 by (by eapply stored_set).
  apply runs_bind. eapply runs_modify; [by eapply stored_eq|]. apply runs_ret. rewrite fix_top_same. set (o3 := set_top _ (set_neg _ o2)).
  pose proof W1 as [X1 X2 X3 X4 X5].
  assert (wf o3) as W3.
  { constructor; cbn -[blit]; try done; [rewrite length_blit; lia|by apply words_blit|lia|apply Ha]. }
  apply runs_bind. eapply bn_correct_top_ok; [by eapply stored_eq, stored_set|done|].
  intros o4 W4 C4 V4 F4 _. apply runs_ret. exists o, o4. split; [done|]. split; [by eapply stored_set, stored_set|].
  split; [done|]. split; [done|]. split; [|by rewrite F4; cbn].
  rewrite V4. unfold val. change (bn_neg o3) with (bn_neg oa).
  assert (mag o3 = mag oa / 2 ^ n) as ->; [|done].
  unfold mag at 1, top_words. cbn -[blit eval]. rewrite Nat2Z.id, take_blit by lia. rewrite take_ge by lia. rewrite EL.
  destruct (eval_div A nw WA) as [<- _]; [lia|]. rewrite weight_bits. pose proof BITS2_pos.
  rewrite Z.div_div by (try apply Z.pow_nonzero; try apply Z.pow_pos_nonneg; nia).
  rewrite <- Z.pow_add_r by nia. unfold mag. fold A. do 2 f_equal. lia.
Qed.

Lemma BN_rshift1_ok r a o oa s : objs s !! r = Some o -> objs s !! a = Some oa -> wf o -> wf oa -> canon oa ->
  runs (BN_rshift1 ok r a) s (fun x s' =>
    if x then writes s r (Z.quot (val oa) 2) s' else stored s r o s' /\ starved ok (bn_top oa) o).
Proof.
  intros Er Ea H Ha [La Na]. unfold BN_rshift1. apply runs_bind, (runs_get _ _ _ _ Ea).
  change 2 with (2 ^ 1) at 1. rewrite quot_val by done. change (2 ^ 1) with 2. unfold BN_is_zero.
  set (A := top_words oa).
  assert (bn_top oa = Z.of_nat (length A)) as Ta by (unfold A; rewrite length_top by done; destruct Ha; lia).
  destruct (Z.eqb_spec (bn_top oa) 0) as [E0|N0].
  { destruct (zeroed s r o Er H) as (o' & S' & Rz & W' & C' & V' & F'). apply runs_bind. eapply runs_mono; [exact Rz|].
    intros ? ? ->. apply runs_ret. exists o, o'. split_and!; try done. rewrite V'.
    apply (mag_zero oa Ha La) in E0. rewrite E0. by destruct (bn_neg oa =? 0). }
  apply runs_bind. apply (runs_mono _ _ (fun x s1 => if x : bool then exists o1, stored s r o1 s1 /\ wf o1 /\ bn_top oa <= bn_dmax o1 /\
      bn_neg o1 = bn_neg oa /\ bn_flags o1 = bn_flags o /\ operand s1 a A
    else stored s r o s1 /\ starved ok (bn_top oa) o)).
  { pose proof (target_ok r a o oa (bn_top oa) s Er Ea H Ha ltac:(destruct Ha; lia)) as T.
    destruct (decide (r = a)) as [Era|Nra].
    - rewrite decide_True by done. apply runs_ret. assert (o = oa) as -> by congruence. exists oa.
      destruct Ha. split_and!; try done; try lia; [by apply stored_self|by apply operand_top].
    - rewrite decide_False by done. apply runs_bind. eapply runs_mono; [exact T|]. intros [] s1 Hs; cbn [negb]; [|by apply runs_ret].
      destruct Hs as (o1 & S1 & W1 & D1 & F1 & A1). apply runs_bind. eapply runs_modify; [by eapply stored_eq|]. apply runs_ret.
      exists (set_neg (bn_neg oa) o1). split_and!; try done.
      + by eapply stored_set.
      + destruct W1 as [X1 X2 X3 X4 X5]. constructor; cbn; try done. apply Ha.
      + eapply operand_set; [by eapply stored_eq|done|done]. }
  intros [] s1; cbn [negb]; [|intros F; by apply runs_ret].
  intros (o1 & S1 & W1 & D1 & N1 & F1 & A1). pose proof W1 as [X1 X2 X3 X4 X5]. rewrite Ta in *.
  apply runs_bind. eapply runs_modify; [by eapply stored_eq|]. set (o2 := set_top _ o1).
  set (s2 := set_obj r o2 s1). assert (stored s r o2 s2) as S2 by (by eapply stored_set).
  pose proof (stored_eq _ _ _ _ S2) as E2.
  assert (operand s2 a A) as A2 by (eapply operand_set; [by eapply stored_eq|done|done]).
  assert (wf o2) as W2 by (constructor; cbn; (done || lia)).
  pose proof (operand_words _ _ _ A2) as WA. pose proof BITS2_pos as PB.
  assert (0 <= 1 < BN_BITS2) as H1 by (destruct BITS2_cases; lia).
  destruct (shr_ok 1 A H1 WA) as (WL & LL & EL). set (L := shr 1 A) in *. set (k := (length A - 1)%nat).
  destruct (lookup_lt_is_Some_2 A k) as [t El]; [lia|]. destruct (operand_lookup s2 a A _ _ A2 El) as (oa2 & Ea2 & Ed).
  pose proof (words_lookup _ _ _ WA El) as Wt.
  replace (Z.of_nat (length A) - 1) with (Z.of_nat k) by lia.
  apply runs_bind. eapply runs_at; [exact Ea2|lia|by rewrite Nat2Z.id|].
  assert (L !! k = Some (Z.shiftr t 1)) as E0.
  { unfold L. rewrite (shr_lookup 1 A k t El). rewrite (lookup_ge_None_2 A) by lia. cbn [default].
    rewrite Z.mul_0_l, Z.mod_0_l, Z.add_0_r by (pose proof BASE_pos; lia). by rewrite Z.shiftr_div_pow2 by lia. }
  assert (within s2 (r, 0) (length A)) as Wi by (apply (within_obj s2 r o2); [done|done|cbn; lia]).
  apply runs_bind. rewrite <- (wr_nil (r, Z.of_nat (S k)) s2).
  apply (runs_stw_down (r, 0) _ _ [] s2 k); [cbn; lia|exists o2; cbn; split_and!; (done || lia)|].
  cbn [fst]. rewrite (wr_set_obj (r, Z.of_nat k) [_] s2 o2 E2). cbn [fst snd].
  set (o3 := set_d _ o2). apply runs_bind. eapply runs_modify; [apply lookup_insert_eq|]. set (o4 := set_top _ o3).
  (* the loop runs after [top] has been set *)
  set (o2' := set_top (bn_top o3 - Z.b2z (t =? 1)) o2). set (s2' := set_obj r o2' s1).
  assert (set_obj r o4 (set_obj r o3 s2) = wr (r, Z.of_nat k) (drop k L) s2') as ->.
  { rewrite (wr_set_obj (r, Z.of_nat k) _ s2' o2') by apply lookup_insert_eq. unfold s2', s2, set_obj. cbn [objs next fst].
    rewrite !insert_insert_eq. do 2 f_equal. rewrite (drop_S _ _ _ E0), drop_ge by lia. done. }
  assert (operand s2' a A) as A2' by (eapply operand_set; [by eapply stored_eq|done|done]).
  assert (stored s r o2' s2') as S2' by (by eapply stored_set).
  assert (within s2' (r, 0) (length A)) as Wi'.
  { exists o2'. split; [apply lookup_insert_eq|]. cbn. lia. }
  apply runs_bind. rewrite Nat2Z.id. eapply runs_mono; [by apply (rshift1_loop_ok r a A s2')|].
  intros ? s3 ->. fold L. rewrite (wr_set_obj (r, 0) L s2' o2') by apply lookup_insert_eq. cbn [fst snd].
  change (Z.to_nat 0) with 0%nat. set (o5 := set_d (blit 0 L (bn_d o2')) o2').
  assert (stored s r o5 (set_obj r o5 s2')) as S5 by (by eapply stored_set).
  apply runs_bind. eapply runs_modify; [by eapply stored_eq|]. apply runs_ret.
  set (n := (length A - Z.to_nat (Z.b2z (t =? 1)%Z))%nat).
  assert (bn_top o5 = Z.of_nat n) as T5 by (cbn; unfold n; destruct (t =? 1); cbn; lia).
  assert (0 < t) as Pt.
  { assert (t <> 0); [|unfold is_word in Wt; lia]. intros ->. apply (La k); [lia|]. by rewrite <- lookup_top by lia. }
  assert (eval (take n L) = mag oa / 2) as Ev.
  { unfold n. destruct (Z.eqb_spec t 1) as [->|Nt]; cbn [Z.b2z].
    - change (Z.to_nat 1) with 1%nat. fold k. change (Z.shiftr 1 1) with 0 in E0.
      pose proof (eval_split k L) as Es. rewrite (drop_S _ _ _ E0), drop_ge in Es by lia. cbn [eval] in Es.
      rewrite EL in Es. change (2 ^ 1) with 2 in Es. unfold mag. fold A. lia.
    - change (Z.to_nat 0) with 0%nat. rewrite Nat.sub_0_r, take_ge by lia. exact EL. }
  assert (length (take n L) = n) as Ln by (rewrite length_take; unfold n; lia).
  set (o6 := if bn_top o5 =? 0 then set_neg 0 o5 else o5).
  assert (bn_d o6 = blit 0 L (bn_d o1) /\ bn_dmax o6 = bn_dmax o1 /\ bn_top o6 = Z.of_nat n /\ bn_flags o6 = bn_flags o /\
    bn_neg o6 = if (n =? 0)%nat then 0 else bn_neg oa) as (D6 & M6 & T6 & F6 & N6).
  { unfold o6. rewrite T5. destruct (Nat.eqb_spec n 0) as [En|En].
    - rewrite En. cbn [Z.eqb Z.of_nat Nat.eqb]. split_and!; try done. change (bn_top o5 = 0). lia.
    - destruct (Z.eqb_spec (Z.of_nat n) 0); [lia|]. split_and!; try done. }
  assert ((if bn_neg oa =? 0 then mag oa / 2 else - (mag oa / 2)) = if bn_neg o6 =? 0 then eval (take n L) else - eval (take n L)) as ->.
  { rewrite Ev, N6. destruct (Nat.eqb_spec n 0) as [En|En]; [|done]. rewrite En in Ev. cbn in Ev. rewrite <- Ev. by destruct (bn_neg oa =? 0). }
  apply (result_signed s r o o6).
  - done.
  - by eapply stored_set.
  - rewrite D6, M6, length_blit; lia.
  - lia.
  - rewrite D6. by apply words_blit.
  - rewrite T6. lia.
  - rewrite Ln, D6. apply take_blit; unfold n; lia.
  - rewrite N6. destruct (n =? 0)%nat; [by left|apply Ha].
  - intros En. rewrite N6. assert (n = 0%nat) as -> by (rewrite En in Ln; by cbn in Ln). done.
  - done.
  - rewrite Ln. intros i Ei. apply top_of_value; [by apply words_take|lia|]. rewrite Ev.
    destruct (Z.eqb_spec t 1) as [Et|Nt].
    + assert (weight (S i) <= mag oa) as Lo by (apply mag_lower; [done|done|unfold n in Ei; cbn in Ei; lia]).
      rewrite weight_S in Lo. pose proof BASE_pos. pose proof (weight_pos i). apply Z.div_le_lower_bound; [lia|]. nia.
    + assert (i = k) as -> by (unfold n in Ei; cbn in Ei; lia).
      pose proof (eval_split k A) as Es. rewrite (drop_S _ _ _ El), drop_ge in Es by lia. cbn [eval] in Es.
      rewrite length_take, Nat.min_l in Es by lia. pose proof (eval_bounds (take k A) (words_take _ _ WA)).
      pose proof (weight_pos k). unfold mag. fold A. apply Z.div_le_lower_bound; [lia|]. nia.
Qed.
End loops.
