(* ===== verification/BnWordCorrect.v ===== *)
(** * Big numbers: arithmetic with a word

    bn_word.c: products, sums, differences, quotients and remainders by a single
    word, with the sign of the number. *)

From S2P Require Import Prelude Bytes BnBase BnMem BnWords BnDivWords BnLib BnLibCorrect BnOps BnArith BnAddCorrect BnShiftCorrect.

Section word.
Context {c : Build} (ok : nat -> bool).
Implicit Types (s : mem) (o : BIGNUM) (a : nat).

(** A failure may leave a number that has been changed in part. *)
Definition damaged s a (n : Z) s' : Prop := exists o o', objs s !! a = Some o /\ stored s a o' s' /\ wf o' /\ starved ok n o.

Lemma mask2_small w : is_word w -> mask2 w = w.
Proof. intros W. rewrite mask2_mod. by apply Z.mod_small. Qed.

Lemma writes_self s a o : objs s !! a = Some o -> wf o -> canon o -> writes s a (val o) s.
Proof. intros E H C. exists o, o. split_and!; try done. by apply stored_self. Qed.

(** The words of an object have been replaced, and one may have been added. *)
Lemma replaced s a o d' (n : nat) s' o' : objs s !! a = Some o -> wf o -> words d' -> length d' = length (bn_d o) ->
  o' = set_top (Z.of_nat n) (set_d d' o) -> stored s a o' s' -> (n <= length d')%nat -> (n = 0%nat -> bn_neg o = 0) ->
  (forall i, n = S i -> weight i <= eval (take n d') \/ d' !! i <> Some 0) ->
  writes s a (if bn_neg o =? 0 then eval (take n d') else - eval (take n d')) s'.
Proof.
  intros E H W L -> S Hn Hz Hl. destruct H as [H1 H2 H3 H4 H5].
  assert (length (take n d') = n) as Lt by (rewrite length_take; lia).
  apply (result_signed s a o (set_top (Z.of_nat n) (set_d d' o))); cbn; try done.
  - by rewrite L.
  - by rewrite Lt.
  - by rewrite Lt.
  - intros E0. apply Hz. rewrite <- Lt, E0. done.
  - rewrite Lt. intros i Ei. destruct (Hl i Ei) as [Lo|N].
    + apply top_of_value; [by apply words_take|lia|done].
    + by rewrite lookup_take_lt by lia.
Qed.

Lemma take_mag o d' n : bn_d o = d' -> bn_top o = Z.of_nat n -> mag o = eval (take n d').
Proof. intros <- E. unfold mag, top_words. by rewrite E, Nat2Z.id. Qed.

(** The word past the top is written, and becomes the top. *)
Lemma grown s a o s1 o1 o2 d s2 (n : nat) k : objs s !! a = Some o -> stored s a o1 s1 -> wf o1 ->
  bn_flags o1 = bn_flags o -> take n (bn_d o1) = take n d -> bn_top o1 = Z.of_nat n -> is_word k -> k <> 0 ->
  Z.of_nat n + 1 <= bn_dmax o1 -> o2 = set_top (Z.of_nat n + 1) (set_d (<[n := k]> (bn_d o1)) o1) -> stored s a o2 s2 ->
  (n <= length d)%nat ->
  writes s a (if bn_neg o1 =? 0 then eval (take n d) + weight n * k else - (eval (take n d) + weight n * k)) s2.
Proof.
  intros E S1 [H1 H2 H3 H4 H5] Ef Et En Wk Nk Hd -> S2 Ld.
  assert (take (S n) (<[n := k]> (bn_d o1)) = take n d ++ [k]) as T.
  { rewrite (take_S_r _ _ k) by (apply list_lookup_insert_eq; lia). by rewrite take_insert_ge, Et by lia. }
  assert (length (take n d ++ [k]) = S n) as Lt by (rewrite length_app, length_take; cbn; lia).
  replace (weight n * k) with (weight (length (take n d)) * k) by (rewrite length_take; by rewrite Nat.min_l).
  rewrite <- eval_snoc.
  apply (result_signed s a o (set_top (Z.of_nat n + 1) (set_d (<[n := k]> (bn_d o1)) o1))); cbn; try done.
  - by rewrite length_insert.
  - by apply words_insert.
  - rewrite Lt. lia.
  - by rewrite Lt.
  - intros E0. rewrite E0 in Lt. done.
  - rewrite Lt. intros i [= <-]. rewrite lookup_app_r by (rewrite length_take; lia).
    rewrite length_take, Nat.min_l, Nat.sub_diag by lia. by intros [= ->].
Qed.

(** ** Products *)

Lemma BN_mul_word_ok a w o s : objs s !! a = Some o -> wf o -> canon o -> is_word w ->
  runs (BN_mul_word ok a w) s (fun x s' =>
    if x then writes s a (val o * w) s' else damaged s a (bn_top o + 1) s').
Proof.
  intros E H [L N] Ww. unfold BN_mul_word. rewrite mask2_small by done. apply runs_bind, (runs_get _ _ _ _ E).
  destruct (Z.eqb_spec (bn_top o) 0) as [E0|N0]; cbn [negb].
  { apply runs_ret. assert (val o = 0) as Ev by (by apply val_zero). rewrite Ev, Z.mul_0_l, <- Ev. by apply writes_self. }
  destruct (Z.eqb_spec w 0) as [->|Nw].
  { apply runs_bind. eapply runs_mono; [by apply (BN_zero_ok a o)|]. intros [] s' Ws. apply runs_ret. by rewrite Z.mul_0_r. }
  set (A := top_words o).
  assert (bn_top o = Z.of_nat (length A)) as Ta by (unfold A; rewrite length_top by done; destruct H; lia).
  pose proof (operand_top s a o E H) as OA. fold A in OA. rewrite Ta in *.
  destruct (operand_prefix s a A (length A) OA) as [Ra EA]; [lia|]. rewrite take_ge in EA by lia.
  pose proof H as [H1 H2 H3 H4 H5].
  assert (within s (a, 0) (length A)) as Wi by (apply (within_obj s a o); [done|done|lia]).
  apply runs_bind. eapply runs_mono.
  { apply (bn_mul_words_ok s (a, 0) (a, 0) (Z.of_nat (length A))); rewrite ?Nat2Z.id; try done. right. left. cbn. lia. }
  rewrite Nat2Z.id, EA. fold (mag o). intros k s1 (l & -> & Ll & Wl & Wk & El). change (eval A) with (mag o) in El.
  rewrite (wr_set_obj (a, 0) l s o E). cbn [fst snd]. change (Z.to_nat 0) with 0%nat.
  set (o1 := set_d (blit 0 l (bn_d o)) o).
  assert (stored s a o1 (set_obj a o1 s)) as S1 by (by eapply stored_set_same).
  assert (wf o1) as W1.
  { constructor; cbn -[blit]; try done; try lia; [rewrite length_blit; lia|by apply words_blit]. }
  assert (take (length A) (blit 0 l (bn_d o)) = l) as Tl by (rewrite <- Ll; rewrite take_blit by lia; by apply take_ge).
  destruct (Z.eqb_spec k 0) as [->|Nk]; cbn [negb].
  - apply runs_ret. rewrite Z.mul_0_r, Z.add_0_r in El.
    assert (val o * w = if bn_neg o =? 0 then eval (take (length A) (blit 0 l (bn_d o))) else - eval (take (length A) (blit 0 l (bn_d o)))) as ->.
    { rewrite Tl, El. unfold val. destruct (bn_neg o =? 0); lia. }
    eapply (replaced s a o); try done.
    + by apply words_blit.
    + apply length_blit. lia.
    + cbn. rewrite <- Ta. unfold o1 in S1. by destruct o.
    + rewrite length_blit; lia.
    + lia.
    + intros i Ei. left. rewrite Tl, El. assert (weight i <= mag o) by (apply mag_lower; [done|done|lia]).
      unfold is_word in Ww. pose proof (weight_pos i). nia.
  - apply runs_bind. apply (bn_wexpand_any ok a o1); [by eapply stored_eq|done| |].
    + intros o2 s2 S2 R. cbn [negb]. pose proof (room_wf _ _ _ R) as W2. pose proof (room_dmax _ _ _ R) as [D2 _].
      assert (bn_top o2 = Z.of_nat (length A)) as T2 by (rewrite (room_top _ _ _ R); done).
      apply runs_bind. eapply runs_set_at; [by eapply stored_eq|destruct W2; lia|]. rewrite Nat2Z.id.
      apply runs_bind. eapply runs_modify; [apply lookup_insert_eq|]. apply runs_ret.
      assert (val o * w = if bn_neg o2 =? 0 then eval (take (length A) (blit 0 l (bn_d o))) + weight (length A) * k
        else - (eval (take (length A) (blit 0 l (bn_d o))) + weight (length A) * k)) as ->.
      { rewrite Tl, El, (room_neg _ _ _ R). change (bn_neg o1) with (bn_neg o). unfold val. destruct (bn_neg o =? 0); lia. }
      eapply (grown s a o s2 o2); try done.
      * by eapply stored_trans.
      * by rewrite (room_flags _ _ _ R).
      * pose proof (room_words _ _ _ R) as Rw. unfold top_words in Rw. rewrite T2 in Rw. cbn -[blit] in Rw.
        by rewrite Ta, Nat2Z.id in Rw.
      * eapply stored_set, stored_set, stored_trans; [exact S1|exact S2].
      * rewrite length_blit; lia.
    + intros s2 S2 F. cbn [negb]. apply runs_ret. exists o, o1. split; [done|]. split; [by eapply stored_trans|]. split; [done|].
      rewrite <- Ta in F. by rewrite <- Ta.
Qed.

(** ** Sums *)

(** A word is replaced, and the rest is the same. *)
Lemma eval_take_insert d (n i : nat) x v : d !! i = Some x -> (i < n)%nat ->
  eval (take n (<[i := v]> d)) = eval (take n d) + weight i * (v - x).
Proof.
  intros E L. rewrite take_insert_lt by done. apply eval_insert. by rewrite lookup_take_lt.
Qed.

Lemma add_word_loop_ok a : forall k s o i w, objs s !! a = Some o -> words (bn_d o) ->
  (i + k <= length (bn_d o))%nat -> is_word w ->
  runs (add_word_loop k a (Z.of_nat i) w) s (fun x s' => exists d', stored s a (set_d d' o) s' /\
    length d' = length (bn_d o) /\ words d' /\ is_word x.2 /\ (x.2 <> 0 -> x.1 = Z.of_nat (i + k)) /\
    eval (take (i + k) d') + weight (i + k) * x.2 = eval (take (i + k) (bn_d o)) + weight i * w).
Proof.
  induction k as [|k IH]; intros s o i w E W L Ww; cbn [add_word_loop].
  { apply runs_ret. exists (bn_d o). rewrite set_d_same, Nat.add_0_r. cbn. split_and!; try done. by apply stored_self. }
  destruct (Z.eqb_spec w 0) as [->|Nw]; cbn [negb].
  { apply runs_ret. exists (bn_d o). rewrite set_d_same. cbn. split_and!; try done; try lia. by apply stored_self. }
  destruct (lookup_lt_is_Some_2 (bn_d o) i) as [x Ex]; [lia|]. pose proof (words_lookup _ _ _ W Ex) as Wx.
  apply runs_bind. eapply runs_at; [done|lia|by rewrite Nat2Z.id|].
  apply runs_bind. eapply runs_set_at; [done|lia|]. rewrite Nat2Z.id.
  set (l := mask2 (x + w)). assert (is_word l) as Wl by apply mask2_word.
  assert (l + BASE * (if l <? w then 1 else 0) = x + w) as El.
  { unfold l. rewrite mask2_mod. unfold is_word in *. pose proof BASE_pos.
    destruct (Z.lt_ge_cases (x + w) BASE).
    - rewrite Z.mod_small by lia. destruct (Z.ltb_spec (x + w) w); lia.
    - replace ((x + w) mod BASE) with (x + w - BASE) by (apply Z.mod_unique with 1; lia).
      destruct (Z.ltb_spec (x + w - BASE) w); lia. }
  set (o1 := set_d (<[i := l]> (bn_d o)) o).
  assert (is_word (if l <? w then 1 else 0)) as Wc by (unfold is_word; pose proof BASE_pos; destruct (l <? w); lia).
  replace (Z.of_nat i + 1) with (Z.of_nat (S i)) by lia.
  eapply runs_mono.
  { apply (IH (set_obj a o1 s) o1 (S i)); [apply lookup_insert_eq|by apply words_insert| |exact Wc].
    cbn. rewrite length_insert. lia. }
  intros [j w'] s' (d' & S' & L' & W' & Ww' & Hj & Ev). cbn [fst snd] in *. exists d'.
  replace (S i + k)%nat with (i + S k)%nat in * by lia.
  split; [eapply stored_trans; [by apply (stored_set_same s a o o1)|exact S']|].
  split; [rewrite L'; cbn; by rewrite length_insert|]. split; [done|]. split; [done|]. split.
  - done.
  - rewrite Ev. cbn -[eval]. rewrite (eval_take_insert _ _ _ x) by (done || lia). rewrite weight_S.
    replace (l - x) with (w - BASE * (if l <? w then 1 else 0)) by lia. ring.
Qed.

Lemma sub_word_loop_ok a (n : nat) : forall k s o i w, objs s !! a = Some o -> words (bn_d o) ->
  (n <= length (bn_d o))%nat -> (n <= i + k)%nat -> is_word w -> 0 < w -> weight i * w <= weight i * eval (drop i (take n (bn_d o))) ->
  runs (sub_word_loop k a (Z.of_nat i) w) s (fun j s' => exists d' (m : nat), j = Z.of_nat m /\ (i <= m < n)%nat /\
    stored s a (set_d d' o) s' /\ length d' = length (bn_d o) /\ words d' /\
    eval (take n d') = eval (take n (bn_d o)) - weight i * w /\ (forall q : nat, (m < q)%nat -> d' !! q = bn_d o !! q)).
Proof.
  induction k as [|k IH]; intros s o i w E W Ln Lk Ww Pw Hle.
  { rewrite drop_ge in Hle by (rewrite length_take; lia). cbn in Hle. pose proof (weight_pos i). nia. }
  pose proof (weight_pos i) as Pi.
  assert (i < n)%nat as Li.
  { destruct (decide (i < n)%nat) as [|G]; [done|]. rewrite drop_ge in Hle by (rewrite length_take; lia). cbn in Hle. nia. }
  destruct (lookup_lt_is_Some_2 (bn_d o) i) as [x Ex]; [lia|]. pose proof (words_lookup _ _ _ W Ex) as Wx.
  cbn [sub_word_loop]. apply runs_bind. eapply runs_at; [done|lia|by rewrite Nat2Z.id|].
  pose proof BASE_pos. unfold is_word in *. destruct (Z.leb_spec w x) as [Lw|Gw].
  - apply runs_bind. eapply runs_set_at; [done|lia|]. apply runs_ret. rewrite Nat2Z.id.
    exists (<[i := x - w]> (bn_d o)), i. split; [done|]. split; [lia|]. split; [by eapply stored_set_same|].
    split; [apply length_insert|]. split; [apply words_insert; [done|unfold is_word; lia]|]. split.
    + rewrite (eval_take_insert _ _ _ x) by done. lia.
    + intros q Hq. by rewrite list_lookup_insert_ne by lia.
  - apply runs_bind. eapply runs_set_at; [done|lia|]. rewrite Nat2Z.id.
    assert (mask2 (x - w) = x - w + BASE) as -> by (rewrite mask2_mod; symmetry; apply Z.mod_unique with (-1); lia).
    set (o1 := set_d (<[i := x - w + BASE]> (bn_d o)) o).
    replace (Z.of_nat i + 1) with (Z.of_nat (S i)) by lia.
    assert (words (<[i := x - w + BASE]> (bn_d o))) as W1 by (apply words_insert; [done|unfold is_word; lia]).
    eapply runs_mono.
    { apply (IH (set_obj a o1 s) o1 (S i) 1); [apply lookup_insert_eq|done|cbn; rewrite length_insert; lia|lia|lia|lia|].
      assert (1 <= eval (drop (S i) (take n (bn_d o1)))) as H1; [|rewrite weight_S; nia].
      assert (take n (bn_d o) !! i = Some x) as Ex' by (by rewrite lookup_take_lt).
      rewrite (drop_S _ _ _ Ex') in Hle. cbn [eval] in Hle.
      assert (drop (S i) (take n (bn_d o1)) = drop (S i) (take n (bn_d o))) as ->.
      { cbn. rewrite take_insert_lt by done. by rewrite drop_insert_lt by lia. }
      assert (w <= x + BASE * eval (drop (S i) (take n (bn_d o)))) by nia. nia. }
    intros j s' (d' & m & -> & Lm & S' & L' & W' & Ev & Hq). exists d', m. split; [done|]. split; [lia|].
    split; [eapply stored_trans; [by apply (stored_set_same s a o o1)|exact S']|].
    split; [rewrite L'; cbn; by rewrite length_insert|]. split; [done|]. split.
    + rewrite Ev. cbn -[eval]. rewrite (eval_take_insert _ _ _ x) by done. rewrite weight_S. lia.
    + intros q Hmq. rewrite Hq by done. cbn. by rewrite list_lookup_insert_ne by lia.
Qed.

Lemma stored_neg s a o n : objs s !! a = Some o -> stored s a (set_neg n o) (set_obj a (set_neg n o) s).
Proof. apply stored_set_same. Qed.

(** Numbers that are positive: the other function is not called. *)
Lemma add_word_pos_ok rec a w o s : objs s !! a = Some o -> wf o -> canon o -> is_word w -> 0 < w ->
  bn_top o <> 0 -> bn_neg o = 0 ->
  runs (add_word ok rec a w) s (fun x s' => if x then writes s a (val o + w) s' else damaged s a (bn_top o + 1) s').
Proof.
  intros E H [L _] Ww Pw N0 G0. unfold add_word. rewrite mask2_small by done.
  destruct (Z.eqb_spec w 0) as [?|Nw]; [lia|]. apply runs_bind, (runs_get _ _ _ _ E). unfold BN_is_zero.
  destruct (Z.eqb_spec (bn_top o) 0) as [?|Nz]; [done|]. rewrite G0. cbn [Z.eqb negb]. pose proof H as [H1 H2 H3 H4 H5].
  set (n := Z.to_nat (bn_top o)). assert (bn_top o = Z.of_nat n) as Tn by lia. rewrite Tn in *.
  assert (val o = eval (take n (bn_d o))) as Ev by (unfold val, mag, top_words; by rewrite G0, Tn, Nat2Z.id).
  apply runs_bind. eapply runs_mono; [apply (add_word_loop_ok a n s o 0 w E H2); (done || lia)|].
  intros [j k] s1 (d' & S1 & L1 & W1 & Wk & Hj & Ek). cbn [fst snd] in *. rewrite Nat.add_0_l, weight_0, Z.mul_1_l in *.
  rewrite <- Ev in Ek. set (o1 := set_d d' o).
  assert (wf o1) as Wo1 by (constructor; cbn; try done; lia).
  destruct (Z.eqb_spec k 0) as [->|Nk]; cbn [negb andb].
  - apply runs_ret. rewrite Z.mul_0_r, Z.add_0_r in Ek. rewrite <- Ek.
    assert (eval (take n d') = if bn_neg o =? 0 then eval (take n d') else - eval (take n d')) as -> by (by rewrite G0).
    apply (replaced s a o d' n s1 o1); try done; try lia.
    + rewrite <- Tn. by destruct o.
    + intros i Ei. left. rewrite Ek. assert (weight i <= mag o) by (apply mag_lower; [done|done|lia]).
      unfold val. rewrite G0. cbn. lia.
  - rewrite (Hj Nk). rewrite Z.eqb_refl. apply runs_bind. apply (bn_wexpand_any ok a o1); [by eapply stored_eq|done| |].
    + intros o2 s2 S2 R. cbn [negb]. pose proof (room_wf _ _ _ R) as W2. pose proof (room_dmax _ _ _ R) as [D2 _].
      assert (bn_top o2 = Z.of_nat n) as T2 by (by rewrite (room_top _ _ _ R)).
      apply runs_bind. eapply runs_modify; [by eapply stored_eq|]. apply runs_bind.
      eapply runs_set_at; [apply lookup_insert_eq|cbn; destruct W2; lia|]. apply runs_ret. rewrite Nat2Z.id.
      assert (val o + w = if bn_neg o2 =? 0 then eval (take n d') + weight n * k else - (eval (take n d') + weight n * k)) as ->.
      { rewrite (room_neg _ _ _ R). change (bn_neg o1) with (bn_neg o). rewrite G0. cbn [Z.eqb]. lia. }
      eapply (grown s a o s2 o2); try done.
      * by eapply stored_trans.
      * by rewrite (room_flags _ _ _ R).
      * pose proof (room_words _ _ _ R) as Rw. unfold top_words in Rw. rewrite T2 in Rw. cbn in Rw.
        by rewrite Tn, Nat2Z.id in Rw.
      * eapply stored_set, stored_set, stored_trans; [exact S1|exact S2].
      * lia.
    + intros s2 S2 F. cbn [negb]. apply runs_ret. exists o, o1. split; [done|]. split; [by eapply stored_trans|]. by split.
Qed.

Lemma sub_word_pos_ok rec a w o s : objs s !! a = Some o -> wf o -> canon o -> is_word w -> 0 < w ->
  bn_top o <> 0 -> bn_neg o = 0 ->
  runs (sub_word ok rec a w) s (fun x s' => x = true /\ writes s a (val o - w) s').
Proof.
  intros E H [L _] Ww Pw N0 G0. unfold sub_word. rewrite mask2_small by done.
  destruct (Z.eqb_spec w 0) as [?|Nw]; [lia|]. apply runs_bind, (runs_get _ _ _ _ E). unfold BN_is_zero.
  destruct (Z.eqb_spec (bn_top o) 0) as [?|Nz]; [done|]. rewrite G0. cbn [Z.eqb negb]. pose proof H as [H1 H2 H3 H4 H5].
  set (n := Z.to_nat (bn_top o)). assert (bn_top o = Z.of_nat n) as Tn by lia. rewrite Tn in *.
  assert (val o = eval (take n (bn_d o))) as Ev by (unfold val, mag, top_words; by rewrite G0, Tn, Nat2Z.id).
  destruct (lookup_lt_is_Some_2 (bn_d o) 0) as [x Ex]; [lia|]. pose proof (words_lookup _ _ _ H2 Ex) as Wx.
  apply runs_bind. apply (runs_mono _ _ (fun y s' => s' = s /\ (n = 1%nat -> y = x))).
  { destruct (Z.eqb_spec (Z.of_nat n) 1); [|apply runs_ret; split; [done|lia]].
    by eapply runs_at; [done|done|exact Ex|]. }
  intros y s0 (-> & Hy).
  assert (n = 1%nat -> val o = x) as V1.
  { intros ->. rewrite Ev, (take_S_r _ _ _ Ex), take_0. cbn. lia. }
  assert (0 < eval (take n (bn_d o))) as Pe.
  { rewrite <- Ev. unfold val. rewrite G0. cbn. pose proof (mag_bounds o H). pose proof (proj1 (mag_zero o H L)). lia. }
  destruct ((Z.of_nat n =? 1) && (y <? w)) eqn:Ec.
  - (* the sign changes *)
    apply andb_true_iff in Ec as [E1%Z.eqb_eq Lt%Z.ltb_lt].
    assert (n = 1%nat) as En by lia. rewrite (Hy En) in *. rewrite (V1 En) in *.
    apply runs_bind. eapply runs_set_at; [done|lia|]. change (Z.to_nat 0) with 0%nat.
    apply runs_bind. eapply runs_modify; [apply lookup_insert_eq|]. apply runs_ret. split; [done|].
    unfold is_word in *. set (v := w - x). assert (is_word v) as Wv by (unfold is_word, v; lia).
    set (o1 := set_neg 1 _). replace (x - w) with (if bn_neg o1 =? 0 then eval [v] else - eval [v]) by (cbn; unfold v; lia).
    apply (result_signed s a o o1); cbn; try done.
    + by eapply stored_set, stored_set_same.
    + by rewrite length_insert.
    + by apply words_insert.
    + lia.
    + destruct (bn_d o); [cbn in *; lia|done].
    + by right.
    + intros i [= <-] [= Ez]. unfold v in Ez. lia.
  - assert (w <= val o) as Hle.
    { destruct (decide (n = 1%nat)) as [E1|N1].
      - rewrite (V1 E1). apply andb_false_iff in Ec as [Ec%Z.eqb_neq|Ec%Z.ltb_ge]; [lia|]. by rewrite (Hy E1) in Ec.
      - assert (weight (n - 1) <= mag o) as Lo by (apply mag_lower; [done|done|lia]).
        pose proof (weight_mono 1 (n - 1) ltac:(lia)) as M. change (weight 1) with (BASE ^ 1) in M. rewrite Z.pow_1_r in M.
        unfold val. rewrite G0. cbn. unfold is_word in Ww. lia. }
    apply runs_bind. eapply runs_mono.
    { apply (sub_word_loop_ok a n (length (bn_d o)) s o 0 w); try done; try lia. rewrite weight_0, drop_0, <- Ev. lia. }
    intros j s1 (d' & m & -> & Lm & S1 & L1 & W1 & Ed & Hq). rewrite weight_0, Z.mul_1_l, <- Ev in Ed.
    destruct (lookup_lt_is_Some_2 d' m) as [z Ez]; [lia|].
    apply runs_bind. eapply runs_at; [by eapply stored_eq|lia|by rewrite Nat2Z.id|].
    assert (forall b : nat, (b <= n)%nat -> eval (take b d') = eval (take n d') ->
      (forall i, b = S i -> weight i <= eval (take b d') \/ d' !! i <> Some 0) ->
      forall s2, stored s a (set_top (Z.of_nat b) (set_d d' o)) s2 -> writes s a (val o - w) s2) as Fin.
    { intros b Lb Eb Hl s2 S2. rewrite <- Ed, <- Eb.
      replace (eval (take b d')) with (if bn_neg o =? 0 then eval (take b d') else - eval (take b d')) by (by rewrite G0).
      eapply (replaced s a o d' b s2); try done; try lia. }
    destruct ((z =? 0) && (Z.of_nat m =? Z.of_nat n - 1)) eqn:Et.
    + apply andb_true_iff in Et as [->%Z.eqb_eq Em%Z.eqb_eq]. apply runs_bind.
      eapply runs_modify; [by eapply stored_eq|]. apply runs_ret. split; [done|].
      assert (eval (take m d') = eval (take n d')) as Emn.
      { replace n with (S m) by lia. rewrite (take_S_r _ _ _ Ez), eval_snoc. lia. }
      apply (Fin m); [lia|done| |].
      * intros i Ei. left. rewrite Emn, Ed.
        assert (weight (S i) <= mag o) as Lo by (apply mag_lower; [done|done|lia]). rewrite weight_S in Lo.
        unfold val. rewrite G0. cbn. pose proof (weight_pos i). pose proof BASE_pos. unfold is_word in Ww. nia.
      * replace (Z.of_nat n - 1) with (Z.of_nat m) by lia. by eapply stored_set.
    + apply runs_bind, runs_ret, runs_ret. split; [done|].
      apply (Fin n); [done|done| |rewrite <- Tn; by destruct o].
      intros i Ei. right. apply andb_false_iff in Et. destruct (decide (m = i)) as [->|N].
      * rewrite Ez. destruct Et as [Et%Z.eqb_neq|Et%Z.eqb_neq]; [congruence|lia].
      * rewrite Hq by lia. apply L. lia.
Qed.

(** A number without its sign. *)
Lemma absolute s a o : objs s !! a = Some o -> wf o -> canon o -> bn_top o <> 0 ->
  let o1 := set_neg 0 o in let s1 := set_obj a o1 s in
  objs s1 !! a = Some o1 /\ wf o1 /\ canon o1 /\ val o1 = mag o /\ bn_top o1 <> 0 /\ bn_neg o1 = 0.
Proof.
  intros E [H1 H2 H3 H4 H5] [L N] N0 o1 s1. split; [apply lookup_insert_eq|].
  split; [constructor; cbn; try done; by left|]. split; [by split|]. by split_and!.
Qed.

Lemma signed_back s a o n m s' : objs s !! a = Some o -> writes (set_obj a (set_neg 0 o) s) a m s' ->
  (n = 0 \/ n = 1) -> m <> 0 ->
  forall o', objs s' !! a = Some o' -> writes s a (if n =? 0 then Z.abs m else - Z.abs m) (set_obj a (set_neg n o') s').
Proof.
  intros E (o0 & o2 & E0 & S & W & [L N] & V & F) Hn Nm o' E'. rewrite (stored_eq _ _ _ _ S) in E'. injection E' as <-.
  assert (o0 = set_neg 0 o) as -> by (cbn in E0; rewrite lookup_insert_eq in E0; congruence).
  exists o, (set_neg n o2). split; [done|]. split; [eapply stored_set, stored_trans; [by apply (stored_set_same s a o (set_neg 0 o))|exact S]|].
  assert (mag o2 = Z.abs m) as Em by (by rewrite <- (val_sign o2 W), V). destruct W as [H1 H2 H3 H4 H5].
  split; [constructor; cbn; done|]. split; [split; [done|]|split; [|done]].
  - cbn. intros Et. exfalso. apply Nm. rewrite <- V. apply val_zero; [by constructor|done|done].
  - unfold val. cbn [bn_neg set_neg]. change (mag (set_neg n o2)) with (mag o2). by rewrite Em.
Qed.

Lemma BN_add_word_ok a w o s : objs s !! a = Some o -> wf o -> canon o -> is_word w ->
  runs (BN_add_word ok a w) s (fun x s' => if x then writes s a (val o + w) s' else damaged s a (bn_top o + 1) s').
Proof.
  intros E H C Ww. unfold BN_add_word. destruct (decide (w = 0)) as [->|Nw].
  { unfold add_word. rewrite mask2_small by done. cbn [Z.eqb]. apply runs_ret. rewrite Z.add_0_r. by apply writes_self. }
  assert (0 < w) as Pw by (unfold is_word in Ww; lia).
  destruct (decide (bn_top o = 0)) as [E0|N0].
  { unfold add_word. rewrite mask2_small by done. destruct (Z.eqb_spec w 0); [done|]. apply runs_bind, (runs_get _ _ _ _ E).
    unfold BN_is_zero. rewrite E0. cbn [Z.eqb]. assert (val o = 0) as -> by (by apply val_zero; [|apply C|]).
    eapply runs_mono; [by apply (BN_set_word_ok ok a o w)|]. intros [] s' Hs; [by rewrite Z.add_0_l|].
    destruct Hs as [S F]. exists o, o. by split_and!. }
  destruct (wf_neg _ H) as [G|G]; [by apply add_word_pos_ok|].
  unfold add_word at 1. rewrite mask2_small by done. destruct (Z.eqb_spec w 0); [done|]. apply runs_bind, (runs_get _ _ _ _ E).
  unfold BN_is_zero at 1. destruct (Z.eqb_spec (bn_top o) 0); [done|]. rewrite G. cbn [Z.eqb negb].
  apply runs_bind. eapply runs_modify; [exact E|]. destruct (absolute s a o E H C N0) as (E1 & W1 & C1 & V1 & N1 & G1).
  apply runs_bind. eapply runs_mono; [apply (sub_word_pos_ok _ a w _ _ E1 W1 C1 Ww Pw N1 G1)|].
  intros x s2 [-> Ws]. rewrite V1 in Ws. pose proof Ws as (o0 & o2 & E0 & S2 & W2 & [L2 C2] & V2 & F2).
  pose proof (stored_eq _ _ _ _ S2) as E2. assert (val o = - mag o) as Ev by (unfold val; by rewrite G).
  apply runs_bind. eapply runs_modify; [exact E2|]. apply runs_ret. unfold BN_is_zero.
  pose proof (val_zero o2 W2 L2) as Z2. pose proof (val_neg o2 W2 (conj L2 C2)) as N2.
  destruct (Z.eqb_spec (bn_top o2) 0) as [Et|Nt].
  - exists o, o2. split; [done|]. split; [eapply stored_set, stored_trans; [by apply (stored_set_same s a o (set_neg 0 o))|exact S2]|].
    split; [done|]. split; [done|]. split; [|]. { assert (val o2 = 0) by (by apply Z2). lia. }
    rewrite F2. cbn in E0. rewrite lookup_insert_eq in E0. by injection E0 as <-.
  - assert (val o2 <> 0) as Nv by (intros Ez; by apply Nt, Z2).
    pose proof (signed_back s a o (Z.b2z (bn_neg o2 =? 0)) _ s2 E Ws ltac:(destruct (bn_neg o2 =? 0); auto) ltac:(lia) o2 E2) as Sb.
    replace (val o + w) with (if Z.b2z (bn_neg o2 =? 0) =? 0 then Z.abs (mag o - w) else - Z.abs (mag o - w)); [exact Sb|].
    destruct (wf_neg _ W2) as [G2|G2]; rewrite G2 in *; cbn; lia.
Qed.

Lemma BN_sub_word_ok a w o s : objs s !! a = Some o -> wf o -> canon o -> is_word w ->
  runs (BN_sub_word ok a w) s (fun x s' => if x then writes s a (val o - w) s' else damaged s a (bn_top o + 1) s').
Proof.
  intros E H C Ww. unfold BN_sub_word. destruct (decide (w = 0)) as [->|Nw].
  { unfold sub_word. rewrite mask2_small by done. cbn [Z.eqb]. apply runs_ret. rewrite Z.sub_0_r. by apply writes_self. }
  assert (0 < w) as Pw by (unfold is_word in Ww; lia).
  destruct (decide (bn_top o = 0)) as [E0|N0].
  { unfold sub_word. rewrite mask2_small by done. destruct (Z.eqb_spec w 0); [done|]. apply runs_bind, (runs_get _ _ _ _ E).
    unfold BN_is_zero. rewrite E0. cbn [Z.eqb]. assert (val o = 0) as -> by (by apply val_zero; [|apply C|]).
    apply runs_bind. eapply runs_mono; [by apply (BN_set_word_ok ok a o w)|]. intros [] s' Hs.
    - destruct Hs as (o0 & o1 & E1 & S1 & W1 & C1 & V1 & F1). apply runs_bind.
      eapply runs_mono; [apply (BN_set_negative_ok a o1 1); [by eapply stored_eq|done|done]|].
      intros [] s2 (o2 & o3 & E2 & S2 & W3 & C3 & V3 & F3). apply runs_ret. exists o0, o3. split; [done|].
      split; [by eapply stored_trans|]. split; [done|]. split; [done|]. split.
      + rewrite V3. cbn. lia.
      + rewrite (stored_eq _ _ _ _ S1) in E2. injection E2 as <-. congruence.
    - destruct Hs as [S F]. apply runs_bind, runs_ret, runs_ret. exists o, o. by split_and!. }
  destruct (wf_neg _ H) as [G|G].
  { eapply runs_mono; [by apply (sub_word_pos_ok _ a w o s)|]. by intros x s' [-> Hs]. }
  unfold sub_word at 1. rewrite mask2_small by done. destruct (Z.eqb_spec w 0); [done|]. apply runs_bind, (runs_get _ _ _ _ E).
  unfold BN_is_zero at 1. destruct (Z.eqb_spec (bn_top o) 0); [done|]. rewrite G. cbn [Z.eqb negb].
  apply runs_bind. eapply runs_modify; [exact E|]. destruct (absolute s a o E H C N0) as (E1 & W1 & C1 & V1 & N1 & G1).
  apply runs_bind. eapply runs_mono; [apply (add_word_pos_ok _ a w _ _ E1 W1 C1 Ww Pw N1 G1)|].
  pose proof (mag_bounds o H) as Bm. assert (val o = - mag o) as Ev by (unfold val; by rewrite G).
  intros [] s2 Hs.
  - rewrite V1 in Hs. pose proof Hs as (o0 & o2 & _ & S2 & _). apply runs_bind. eapply runs_modify; [by eapply stored_eq|].
    apply runs_ret. pose proof (signed_back s a o 1 _ s2 E Hs (or_intror eq_refl) ltac:(lia) o2 (stored_eq _ _ _ _ S2)) as Sb.
    cbn [Z.eqb] in Sb. by replace (val o - w) with (- Z.abs (mag o + w)) by lia.
  - destruct Hs as (o0 & o2 & E0 & S2 & W2 & F). apply runs_bind. eapply runs_modify; [by eapply stored_eq|]. apply runs_ret.
    exists o, (set_neg 1 o2). split; [done|].
    split; [eapply stored_set, stored_trans; [by apply (stored_set_same s a o (set_neg 0 o))|exact S2]|].
    rewrite E1 in E0. injection E0 as <-. destruct W2 as [X1 X2 X3 X4 X5]. split; [constructor; cbn; try done; by right|done].
Qed.

(** ** Quotients *)

Lemma div_word_loop_ok a w : is_word w -> 0 < w -> forall i s o rt, objs s !! a = Some o -> words (bn_d o) ->
  (i <= length (bn_d o))%nat -> 0 <= rt < w ->
  runs (div_word_loop i a w rt) s (fun x s' => exists d', stored s a (set_d d' o) s' /\ length d' = length (bn_d o) /\
    words d' /\ drop i d' = drop i (bn_d o) /\ eval (take i d') = (rt * weight i + eval (take i (bn_d o))) / w /\
    x = (rt * weight i + eval (take i (bn_d o))) mod w).
Proof.
  intros Ww Pw. induction i as [|i IH]; intros s o rt E W L Hr; cbn [div_word_loop].
  { apply runs_ret. exists (bn_d o). rewrite set_d_same, take_0, weight_0. change (eval []) with 0. rewrite Z.mul_1_r, Z.add_0_r.
    rewrite Z.div_small, Z.mod_small by done. split_and!; try done. by apply stored_self. }
  destruct (lookup_lt_is_Some_2 (bn_d o) i) as [l El]; [lia|]. pose proof (words_lookup _ _ _ W El) as Wl.
  apply runs_bind. eapply runs_at; [done|lia|by rewrite Nat2Z.id|].
  apply runs_bind. eapply runs_lift; [by apply div_words_ok|].
  set (q := (rt * BASE + l) / w). pose proof BASE_pos. unfold is_word in *.
  pose proof (Z.div_mod (rt * BASE + l) w ltac:(lia)) as D. pose proof (Z.mod_pos_bound (rt * BASE + l) w Pw) as M. fold q in D.
  set (m := (rt * BASE + l) mod w) in *.
  assert (0 <= q < BASE) as Wq by (split; [apply Z.div_pos; nia|]; apply Z.div_lt_upper_bound; nia).
  assert (mask2 (l - mask2 (q * w)) = m) as ->.
  { rewrite !mask2_mod, Zminus_mod_idemp_r. symmetry. apply Z.mod_unique with (- rt); [lia|]. lia. }
  apply runs_bind. eapply runs_set_at; [done|lia|]. rewrite Nat2Z.id. set (o1 := set_d (<[i := q]> (bn_d o)) o).
  eapply runs_mono.
  { apply (IH (set_obj a o1 s) o1 m); [apply lookup_insert_eq|by apply words_insert|cbn; rewrite length_insert; lia|done]. }
  intros x s' (d' & S' & L' & W' & Dr & Ev & Ex). exists d'. cbn in L', Dr, Ev, Ex. rewrite length_insert in L'.
  rewrite take_insert_ge in Ev, Ex by lia.
  assert (d' !! i = Some q) as Ei.
  { pose proof (f_equal (fun l => l !! 0%nat) Dr) as Dr0. cbn in Dr0. rewrite !lookup_drop, !Nat.add_0_r in Dr0.
    rewrite Dr0. apply list_lookup_insert_eq. lia. }
  split; [eapply stored_trans; [by apply (stored_set_same s a o o1)|exact S']|]. split; [done|]. split; [done|].
  split.
  { replace (S i) with (i + 1)%nat by lia. rewrite <- !drop_drop, Dr. rewrite !drop_drop. by rewrite drop_insert_lt by lia. }
  rewrite (take_S_r _ _ _ Ei), (take_S_r _ _ _ El), !eval_snoc, !length_take, !Nat.min_l by lia. rewrite weight_S.
  assert (rt * (BASE * weight i) + (eval (take i (bn_d o)) + weight i * l) = m * weight i + eval (take i (bn_d o)) + (weight i * q) * w) as ->.
  { replace (rt * (BASE * weight i) + (eval (take i (bn_d o)) + weight i * l)) with (weight i * (rt * BASE + l) + eval (take i (bn_d o))) by ring.
    rewrite D. ring. }
  rewrite Z.div_add, Z.mod_add by lia. by rewrite Ev.
Qed.

Lemma BN_div_word_ok a w o s : objs s !! a = Some o -> wf o -> canon o -> is_word w -> 0 < w ->
  runs (BN_div_word ok a w) s (fun x s' =>
    x = mag o mod w /\ writes s a (Z.quot (val o) w) s' \/
    x = BASE - 1 /\ writes s a (val o) s' /\ starved ok (bn_top o + 1) o).
Proof.
  intros E H C Ww Pw. unfold BN_div_word. rewrite mask2_small by done. destruct (Z.eqb_spec w 0) as [?|Nw]; [lia|].
  apply runs_bind, (runs_get _ _ _ _ E). pose proof (mag_bounds o H) as Bm. destruct (Z.eqb_spec (bn_top o) 0) as [E0|N0].
  { apply runs_ret. left. assert (val o = 0) as Ev by (by apply val_zero; [|apply C|]).
    assert (mag o = 0) as -> by (by apply mag_zero; [|apply C|]). rewrite Ev, Z.quot_0_l, Z.mod_0_l by lia. split; [done|].
    rewrite <- Ev. by apply writes_self. }
  rewrite BN_num_bits_word_ok by done. set (j := BN_BITS2 - bit_length w).
  assert (0 <= j < BN_BITS2 /\ w * 2 ^ j < BASE) as [Hj Hw].
  { pose proof (bit_length_range w BN_BITS2 ltac:(destruct BITS2_cases; lia) Ww) as Br.
    assert (0 < bit_length w) by (unfold bit_length; destruct (Z.eqb_spec w 0); [lia|]; pose proof (Z.log2_nonneg w); lia).
    split; [lia|]. pose proof (bit_length_lt w ltac:(lia)) as Bl.
    unfold BASE. replace BN_BITS2 with (bit_length w + j) by lia. rewrite Z.pow_add_r by lia.
    pose proof (Z.pow_pos_nonneg 2 j). nia. }
  assert (0 < 2 ^ j) as Pj by (apply Z.pow_pos_nonneg; lia).
  assert (is_word (w * 2 ^ j)) as Ww' by (unfold is_word; split; [apply Z.mul_nonneg_nonneg; lia|done]).
  rewrite Z.shiftl_mul_pow2 by lia. rewrite (ul_small _ Ww').
  apply runs_bind. eapply runs_mono; [apply (BN_lshift_ok ok a a j o o s); try done; lia|].
  intros [] s1; cbn [negb].
  2: { intros [Ws F]. apply runs_ret. right. split; [|split; [done|]].
    - unfold ul. symmetry. apply Z.mod_unique with (-1); pose proof BASE_pos; lia.
    - rewrite Z.div_small, Z.add_0_r in F by done. done. }
  intros (o0 & o1 & E0 & S1 & W1 & [L1 C1] & V1 & F1). assert (o0 = o) as -> by congruence.
  pose proof (stored_eq _ _ _ _ S1) as E1. pose proof W1 as [X1 X2 X3 X4 X5].
  assert (mag o1 = mag o * 2 ^ j) as M1 by (rewrite <- (val_sign o1), V1, <- (val_sign o), Z.abs_mul by done; f_equal; lia).
  assert (0 < mag o) as Pm by (pose proof (proj1 (mag_zero o H (proj1 C))); lia).
  apply runs_bind, (runs_get _ _ _ _ E1). set (n := Z.to_nat (bn_top o1)).
  assert (bn_top o1 = Z.of_nat n) as Tn by lia.
  assert (n <> 0%nat) as Nn. { intros En. assert (mag o1 = 0) by (apply mag_zero; [done|done|lia]). nia. }
  apply runs_bind. eapply runs_mono; [apply (div_word_loop_ok a (w * 2 ^ j) Ww' ltac:(nia) n s1 o1 0); (done || lia || nia)|].
  intros x s2 (d' & S2 & L2 & W2 & _ & Ed & Ex). rewrite Z.mul_0_l, Z.add_0_l in Ed, Ex.
  assert (eval (take n (bn_d o1)) = mag o1) as En by done. rewrite En, M1 in Ed, Ex.
  rewrite Z.div_mul_cancel_r in Ed by lia. rewrite Z.mul_mod_distr_r in Ex by lia.
  apply runs_bind, (runs_get _ _ _ _ (stored_eq _ _ _ _ S2)). cbn [bn_top set_d]. rewrite Tn.
  destruct (Z.ltb_spec 0 (Z.of_nat n)); [|lia]. destruct (lookup_lt_is_Some_2 d' (n - 1)) as [t Et]; [lia|].
  pose proof (words_lookup _ _ _ W2 Et) as Wt.
  (* the quotient has at most one word less *)
  set (k := if t =? 0 then (n - 1)%nat else n).
  assert (eval (take k d') = mag o / w) as Ek.
  { rewrite <- Ed. unfold k. destruct (Z.eqb_spec t 0) as [->|]; [|done].
    replace n with (S (n - 1)) at 2 by lia. rewrite (take_S_r _ _ _ Et), eval_snoc. lia. }
  assert (forall i, k = S i -> weight i <= eval (take k d') \/ d' !! i <> Some 0) as Hk.
  { intros i Ei. unfold k in Ei. destruct (Z.eqb_spec t 0) as [->|Nt].
    - left. rewrite Ek, <- (Z.div_mul_cancel_r _ w (2 ^ j)), <- M1 by lia.
      assert (weight (S i) <= mag o1) as Lo by (apply mag_lower; [done|done|lia]). rewrite weight_S in Lo.
      apply Z.div_le_lower_bound; [nia|]. pose proof (weight_pos i). unfold is_word in Ww'. nia.
    - right. replace i with (n - 1)%nat by lia. congruence. }
  apply runs_bind. apply (runs_mono _ _ (fun _ s3 => stored s a (set_top (Z.of_nat k) (set_d d' o1)) s3)).
  { apply runs_bind. eapply runs_at; [by eapply stored_eq|lia| |].
    { cbn. by replace (Z.to_nat (Z.of_nat n - 1)) with (n - 1)%nat by lia. }
    unfold k. destruct (Z.eqb_spec t 0).
    - eapply runs_modify; [by eapply stored_eq|]. replace (Z.of_nat n - 1) with (Z.of_nat (n - 1)) by lia.
      eapply stored_set, stored_trans; [exact S1|exact S2].
    - apply runs_ret. rewrite <- Tn. assert (set_top (bn_top o1) (set_d d' o1) = set_d d' o1) as -> by (by destruct o1).
      by eapply stored_trans. }
  intros [] s3 S3. apply runs_bind. eapply runs_modify; [by eapply stored_eq|]. apply runs_ret. left. split.
  { subst x. rewrite Z.shiftr_div_pow2 by lia. by rewrite Z.div_mul by lia. }
  set (o3 := set_top (Z.of_nat k) (set_d d' o1)). set (o4 := if bn_top o3 =? 0 then set_neg 0 o3 else o3).
  assert (k <= n)%nat as Lk by (unfold k; destruct (t =? 0); lia).
  assert (Z.quot (val o) w = if bn_neg o4 =? 0 then eval (take k d') else - eval (take k d')) as ->.
  { rewrite Ek.
    assert (bn_neg o1 = bn_neg o) as Sg.
    { pose proof (val_neg o H C) as G. pose proof (val_neg o1 W1 (conj L1 C1)) as G1.
      destruct (wf_neg _ H) as [Go|Go], X5 as [Go1|Go1]; rewrite Go, Go1 in *; try done.
      - assert (val o1 < 0) by (by apply G1). unfold val in V1 at 2. rewrite Go in V1. cbn in V1. nia.
      - assert (val o < 0) by (by apply G). assert (val o1 < 0) by nia. exfalso. assert (0 = 1) by (by apply G1). done. }
    unfold o4. cbn [bn_top o3 set_top]. destruct (Z.eqb_spec (Z.of_nat k) 0) as [Ek0|_].
    - assert (k = 0%nat) as Ek1 by lia. rewrite Ek1 in Ek. cbn in Ek. cbn. rewrite <- Ek.
      unfold val. destruct (bn_neg o =? 0); rewrite ?Z.quot_opp_l, Z.quot_div_nonneg, <- Ek by lia; done.
    - cbn [bn_neg o3 set_top set_d]. rewrite Sg. unfold val.
      destruct (bn_neg o =? 0); rewrite ?Z.quot_opp_l, Z.quot_div_nonneg by lia; done. }
  assert (length (take k d') = k) as Lt by (rewrite length_take; lia).
  assert (bn_d o4 = d' /\ bn_dmax o4 = bn_dmax o1 /\ bn_top o4 = Z.of_nat k /\ bn_flags o4 = bn_flags o /\
    (bn_neg o4 = 0 \/ bn_neg o4 = 1) /\ (k = 0%nat -> bn_neg o4 = 0)) as (D4 & M4 & T4 & F4 & G4 & Z4).
  { unfold o4. cbn [bn_top o3 set_top]. destruct (Z.eqb_spec (Z.of_nat k) 0); cbn; split_and!; try done; (by left) || lia. }
  apply (result_signed s a o o4); try done.
  - by eapply stored_set.
  - by rewrite D4, M4, L2.
  - by rewrite M4.
  - by rewrite D4.
  - by rewrite T4, Lt.
  - by rewrite Lt, D4.
  - intros Ee. apply Z4. by rewrite <- Lt, Ee.
  - rewrite Lt. intros i Ei. destruct (Hk i Ei) as [Lo|N].
    + apply top_of_value; [by apply words_take|lia|done].
    + by rewrite lookup_take_lt by lia.
Qed.

(** ** Copies that are made and released *)

(** Names that have not been given yet are not in use. *)
Definition fresh s : Prop := objs s !! next s = None.

(** A temporary object [t], in memory that is otherwise the same. *)
Definition temporary s (t : nat) (v : Z) s' : Prop :=
  exists o, objs s !! t = None /\ objs s' = <[t := o]> (objs s) /\ wf o /\ canon o /\ val o = v /\
    has o BN_FLG_MALLOCED = true /\ has o BN_FLG_STATIC_DATA = false.

Lemma zero_bn_wf f : wf (set_flags f zero_bn) /\ canon (set_flags f zero_bn).
Proof.
  split; [constructor; cbn; try done; [constructor|pose proof WORDS_MAX_small; lia|by left]|].
  split; [intros k Ek; cbn in Ek; lia|done].
Qed.

Lemma new_for_dup o s : fresh s ->
  runs (if has o BN_FLG_SECURE then BN_secure_new ok else BN_new ok) s (fun r s' =>
    match r with
    | Some t => t = next s /\ exists f, objs s' = <[t := set_flags f zero_bn]> (objs s) /\
        has (set_flags f zero_bn) BN_FLG_MALLOCED = true /\ has (set_flags f zero_bn) BN_FLG_STATIC_DATA = false
    | None => objs s' = objs s /\ exists k, ok k = false
    end).
Proof.
  intros Fr. assert (runs (BN_new ok) s (fun r s' => match r with
    | Some t => t = next s /\ objs s' = <[t := set_flags BN_FLG_MALLOCED zero_bn]> (objs s)
    | None => objs s' = objs s /\ exists k, ok k = false end)) as New.
  { unfold BN_new, runs. destruct (ok (next s)) eqn:Eok; eexists _, _; (split; [done|]); [done|]. split; [done|]. by exists (next s). }
  destruct (has o BN_FLG_SECURE).
  - apply runs_bind. eapply runs_mono; [exact New|]. intros [t|] s' Hs; [|by apply runs_ret]. destruct Hs as [-> Es].
    apply runs_bind. eapply runs_modify; [rewrite Es; apply lookup_insert_eq|]. apply runs_ret. split; [done|].
    exists (Z.lor BN_FLG_MALLOCED BN_FLG_SECURE). split; [|by split]. cbn. rewrite Es. by rewrite insert_insert_eq.
  - eapply runs_mono; [exact New|]. intros [t|] s' Hs; [|done]. destruct Hs as [-> Es]. split; [done|].
    exists BN_FLG_MALLOCED. by split.
Qed.

Lemma BN_free_tmp s t v s' : temporary s t v s' -> runs (BN_free (Some t)) s' (fun _ s2 => objs s2 = objs s).
Proof.
  intros (o & N & E & W & C & V & M & D). assert (objs s' !! t = Some o) as Et by (rewrite E; apply lookup_insert_eq).
  unfold BN_free. apply runs_bind, (runs_get _ _ _ _ Et). rewrite D, M. cbn [negb]. apply runs_bind.
  eapply runs_modify; [exact Et|]. unfold free_struct, runs. cbn [objs set_obj]. rewrite lookup_insert_eq.
  eexists _, _. split; [done|]. cbn. rewrite E, insert_insert_eq. by apply delete_insert_id.
Qed.

Lemma BN_dup_ok a o s : objs s !! a = Some o -> wf o -> canon o -> fresh s ->
  runs (BN_dup ok (Some a)) s (fun r s' =>
    match r with
    | Some t => temporary s t (val o) s'
    | None => objs s' = objs s /\ exists k, ok k = false
    end).
Proof.
  intros E H C Fr. unfold BN_dup. apply runs_bind, (runs_get _ _ _ _ E).
  apply runs_bind. eapply runs_mono; [by apply new_for_dup|]. intros [t|] s1 Hs; [|by apply runs_ret].
  destruct Hs as (-> & f & Es & M & D). unfold fresh in Fr. set (t := next s) in *.
  assert (a <> t) as Nat by congruence. destruct (zero_bn_wf f) as [Wz Cz].
  assert (objs s1 !! t = Some (set_flags f zero_bn)) as Et by (rewrite Es; apply lookup_insert_eq).
  apply runs_bind. eapply runs_mono.
  { apply (BN_copy_ok ok t a (set_flags f zero_bn) o s1); try done. by rewrite Es, lookup_insert_ne. }
  intros [] s2 Hs; cbn [negb].
  - destruct Hs as (o0 & o' & E0 & S' & W' & C' & V' & F'). rewrite Et in E0. injection E0 as <-. apply runs_ret. exists o'.
    split; [done|]. split; [destruct S' as [-> _]; by rewrite Es, insert_insert_eq|]. split; [done|]. split; [done|].
    split; [done|]. unfold has, BN_get_flags in *. by rewrite F'.
  - destruct Hs as [S' F]. apply runs_bind.
    eapply runs_mono; [apply (BN_free_tmp s t 0 s2)|].
    + exists (set_flags f zero_bn). split_and!; try done. destruct S' as [-> _]. by rewrite Es, insert_insert_eq.
    + intros [] s3 E3. apply runs_ret. split; [done|]. destruct F as [F|[F|F]]; [destruct H; lia|congruence|done].
Qed.

(** ** Remainders *)

Lemma mod_word_loop_ok d w : words d -> 0 < w -> w <= (if llong then BASE - 1 else 2 ^ BN_BITS4) -> forall i rt,
  (i <= length d)%nat -> 0 <= rt < w -> mod_word_loop i d w rt = Ret ((rt * weight i + eval (take i d)) mod w).
Proof.
  intros W Pw Hw. pose proof BASE_pos. destruct BITS2_half as [EB HB]. induction i as [|i IH]; intros rt L Hr.
  { cbn. rewrite take_0, weight_0. cbn. rewrite Z.mul_1_r, Z.add_0_r, Z.mod_small by done. done. }
  destruct (lookup_lt_is_Some_2 d i) as [x Ex]; [lia|]. pose proof (words_lookup _ _ _ W Ex) as Wx.
  cbn [mod_word_loop]. rewrite (aget_nat _ _ _ Ex). cbn [mbind outcome_bind].
  assert ((if llong then ull (Z.lor (ull (Z.shiftl rt BN_BITS2)) x) mod w
    else Z.lor (ul (Z.shiftl (Z.lor (ul (Z.shiftl rt BN_BITS4)) (Z.land (Z.shiftr x BN_BITS4) BN_MASK2l) mod w) BN_BITS4))
      (Z.land x BN_MASK2l) mod w) = (rt * BASE + x) mod w) as ->.
  { unfold is_word in Wx. destruct llong.
    - rewrite Z.shiftl_mul_pow2 by lia. fold BASE. unfold ull. rewrite (Z.mod_small (rt * BASE)) by nia.
      assert (Z.lor (rt * BASE) x = rt * BASE + x) as -> by (unfold BASE; apply lor_low; [lia|done]).
      rewrite (Z.mod_small (rt * BASE + x) (BASE * BASE)) by nia. done.
    - assert (BN_MASK2l = Z.ones BN_BITS4) as -> by (unfold BN_MASK2l, BN_BITS4; by destruct wide).
      rewrite !Z.land_ones, Z.shiftr_div_pow2, !Z.shiftl_mul_pow2 by lia.
      assert (BASE = 2 ^ BN_BITS4 * 2 ^ BN_BITS4) as Eh by (unfold BASE; rewrite EB, <- Z.pow_add_r by lia; f_equal; lia).
      set (h := 2 ^ BN_BITS4) in *. assert (0 < h) by (unfold h; apply Z.pow_pos_nonneg; lia).
      assert (forall u v, 0 <= v < h -> Z.lor (u * h) v = u * h + v) as Lor by (intros; unfold h; apply lor_low; [lia|done]).
      assert (0 <= x / h < h) as Bh by (split; [apply Z.div_pos; lia|apply Z.div_lt_upper_bound; nia]).
      pose proof (Z.mod_pos_bound x h ltac:(lia)) as Bl. rewrite (Z.mod_small (x / h)) by lia.
      unfold ul. rewrite (Z.mod_small (rt * h)) by nia. rewrite Lor by done.
      set (m := (rt * h + x / h) mod w). pose proof (Z.mod_pos_bound (rt * h + x / h) w Pw) as Bm. fold m in Bm.
      rewrite (Z.mod_small (m * h)) by nia. rewrite Lor by done.
      unfold m. rewrite <- Z.add_mod_idemp_l, Z.mul_mod_idemp_l, Z.add_mod_idemp_l by lia. f_equal.
      pose proof (Z.div_mod x h ltac:(lia)). rewrite Eh. lia. }
  pose proof (Z.mod_pos_bound (rt * BASE + x) w Pw). rewrite IH by (lia || done). f_equal.
  rewrite (take_S_r _ _ _ Ex), eval_snoc, length_take, Nat.min_l, weight_S by lia.
  rewrite <- Z.add_mod_idemp_l, Z.mul_mod_idemp_l, Z.add_mod_idemp_l by lia. f_equal. ring.
Qed.

Lemma BN_mod_word_ok a w o s : objs s !! a = Some o -> wf o -> canon o -> is_word w -> 0 < w -> fresh s ->
  runs (BN_mod_word ok a w) s (fun x s' => objs s' = objs s /\
    (x = mag o mod w \/ x = BASE - 1 /\ (WORDS_MAX <= bn_top o \/ exists k, ok k = false))).
Proof.
  intros E H C Ww Pw Fr. unfold BN_mod_word. destruct (Z.eqb_spec w 0) as [?|Nw]; [lia|]. pose proof BASE_pos as PB.
  assert (ul (-1) = BASE - 1) as Em by (unfold ul; symmetry; apply Z.mod_unique with (-1); lia).
  destruct BITS2_half as [EB HB].
  assert (ul (Z.shiftl 1 BN_BITS4) = 2 ^ BN_BITS4) as Es.
  { rewrite Z.shiftl_mul_pow2, Z.mul_1_l by lia. apply ul_small. unfold is_word, BASE.
    split; [apply Z.pow_nonneg; lia|apply Z.pow_lt_mono_r; lia]. }
  rewrite Es. destruct (negb llong && (2 ^ BN_BITS4 <? w)) eqn:Eb.
  - apply runs_bind. eapply runs_mono; [by apply (BN_dup_ok a o s)|]. intros [t|] s1 Hs.
    + pose proof Hs as (o1 & N1 & E1 & W1 & C1 & V1 & M1 & D1).
      assert (objs s1 !! t = Some o1) as Et by (rewrite E1; apply lookup_insert_eq).
      assert (mag o1 = mag o) as Mg by (by rewrite <- (val_sign o1), <- (val_sign o), V1).
      apply runs_bind. eapply runs_mono; [by apply (BN_div_word_ok t w o1 s1)|]. intros x s2 Hx.
      assert (exists v, temporary s t v s2) as (v & Ht).
      { destruct Hx as [[_ Ws]|(_ & Ws & _)]; destruct Ws as (o2 & o3 & E2 & [S3 _] & W3 & C3 & V3 & F3);
          rewrite Et in E2; injection E2 as <-; exists (val o3), o3; unfold has, BN_get_flags in *; rewrite F3;
          split_and!; try done; by rewrite S3, E1, insert_insert_eq. }
      apply runs_bind. eapply runs_mono; [by apply (BN_free_tmp s t v s2)|]. intros [] s3 E3. apply runs_ret.
      split; [done|]. rewrite Mg in Hx. destruct Hx as [[-> _]|(-> & _ & F)]; [by left|right]. split; [done|].
      destruct F as [F|[F|F]]; [|congruence|by right]. left.
      destruct (Z.lt_ge_cases (bn_top o) (bn_top o1)) as [Lt|]; [|lia].
      pose proof (mag_top_lt o o1 H W1 (proj1 C1) Lt). lia.
    + destruct Hs as [E1 F]. apply runs_ret. split; [done|]. right. split; [done|]. by right.
  - apply runs_bind, (runs_get _ _ _ _ E). rewrite mask2_small by done. pose proof H as [H1 H2 H3 H4 H5].
    apply runs_bind. eapply runs_lift.
    { apply mod_word_loop_ok; [done|done| |lia|lia]. apply andb_false_iff in Eb. unfold is_word in Ww.
      destruct llong; cbn in Eb; [lia|]. destruct Eb as [Eb|Eb%Z.ltb_ge]; [done|lia]. }
    apply runs_ret. split; [done|]. left. rewrite Z.mul_0_l, Z.add_0_l. change (eval (take (Z.to_nat (bn_top o)) (bn_d o))) with (mag o).
    pose proof (Z.mod_pos_bound (mag o) w Pw). apply ul_small. unfold is_word in *. lia.
Qed.
End word.
