(* ===== verification/BnHistory.v ===== *)
(** * Big numbers: histories of operations

    The contract of the library: a sequence of calls on any objects, the same
    one in several places or not, is the same sequence of operations on
    integers, until a call reports that it has no room. *)

From S2P Require Import Prelude Bytes BnBase BnMem BnWords BnLib BnLibCorrect BnOps BnBin BnBinCorrect BnArith BnAddCorrect BnShiftCorrect BnWordCorrect.

(** The calls, with the objects they are given. *)
Inductive op : Type :=
  | Add (r a b : nat) | Sub (r a b : nat) | Uadd (r a b : nat) | Usub (r a b : nat)
  | Lshift1 (r a : nat) | Rshift1 (r a : nat) | Lshift (r a : nat) (n : Z) | Rshift (r a : nat) (n : Z)
  | Mul_word (a : nat) (w : Z) | Div_word (a : nat) (w : Z) | Add_word (a : nat) (w : Z) | Sub_word (a : nat) (w : Z)
  | Set_word (a : nat) (w : Z) | Copy (a b : nat)
  | Set_bit (a : nat) (n : Z) | Clear_bit (a : nat) (n : Z) | Mask_bits (a : nat) (n : Z)
  | Set_negative (a : nat) (b : Z).

Section history.
Context {c : Build} (ok : nat -> bool).
Implicit Types (s : mem) (o : BIGNUM) (v : nat -> Z) (f : nat -> Z).

(** A call, and whether it has done its work: [BN_clear_bit] and [BN_mask_bits]
    return 0 when there was nothing to do, and [BN_div_word] returns all ones
    when it fails. *)
Definition exec (x : op) : prog bool :=
  match x with
  | Add r a b => BN_add ok r a b
  | Sub r a b => BN_sub ok r a b
  | Uadd r a b => BN_uadd ok r a b
  | Usub r a b => BN_usub ok r a b
  | Lshift1 r a => BN_lshift1 ok r a
  | Rshift1 r a => BN_rshift1 ok r a
  | Lshift r a n => BN_lshift ok r a n
  | Rshift r a n => BN_rshift ok r a n
  | Mul_word a w => BN_mul_word ok a w
  | Div_word a w => x ← BN_div_word ok a w; ret (negb (x =? BASE - 1))
  | Add_word a w => BN_add_word ok a w
  | Sub_word a w => BN_sub_word ok a w
  | Set_word a w => BN_set_word ok a w
  | Copy a b => BN_copy ok a b
  | Set_bit a n => BN_set_bit ok a n
  | Clear_bit a n => _ ← BN_clear_bit a n; ret true
  | Mask_bits a n => _ ← BN_mask_bits a n; ret true
  | Set_negative a b => _ ← BN_set_negative a b; ret true
  end.

Definition target (x : op) : nat :=
  match x with
  | Add r _ _ | Sub r _ _ | Uadd r _ _ | Usub r _ _ | Lshift1 r _ | Rshift1 r _ | Lshift r _ _ | Rshift r _ _
  | Mul_word r _ | Div_word r _ | Add_word r _ | Sub_word r _ | Set_word r _ | Copy r _
  | Set_bit r _ | Clear_bit r _ | Mask_bits r _ | Set_negative r _ => r
  end.

Definition sources (x : op) : list nat :=
  match x with
  | Add _ a b | Sub _ a b | Uadd _ a b | Usub _ a b => [a; b]
  | Lshift1 _ a | Rshift1 _ a | Lshift _ a _ | Rshift _ a _ | Copy _ a => [a]
  | _ => []
  end.

(** ** On integers *)

(** The words of a number. *)
Definition nwords (z : Z) : Z := (bit_length (Z.abs z) + BN_BITS2 - 1) / BN_BITS2.

(** [BN_usub] of a larger number wraps around, if it has as many words;
    [BN_clear_bit] and [BN_mask_bits] do nothing for a negative number of bits. *)
Definition result (x : op) (v : nat -> Z) : Z :=
  match x with
  | Add _ a b => v a + v b
  | Sub _ a b => v a - v b
  | Uadd _ a b => Z.abs (v a) + Z.abs (v b)
  | Usub _ a b =>
      let d := Z.abs (v a) - Z.abs (v b) in
      if 0 <=? d then d else d + BASE ^ nwords (v a)
  | Lshift1 _ a => 2 * v a
  | Rshift1 _ a => Z.quot (v a) 2
  | Lshift _ a n => v a * 2 ^ n
  | Rshift _ a n => Z.quot (v a) (2 ^ n)
  | Mul_word a w => v a * w
  | Div_word a w => Z.quot (v a) w
  | Add_word a w => v a + w
  | Sub_word a w => v a - w
  | Set_word _ w => w
  | Copy _ b => v b
  | Set_bit a n => with_sign (v a) (Z.setbit (Z.abs (v a)) n)
  | Clear_bit a n => with_sign (v a) (Z.clearbit (Z.abs (v a)) n)
  | Mask_bits a n => with_sign (v a) (Z.abs (v a) mod 2 ^ n)
  | Set_negative a b => if b =? 0 then Z.abs (v a) else - Z.abs (v a)
  end.

Definition update (x : op) (v : nat -> Z) : nat -> Z :=
  fun l => if decide (l = target x) then result x v else v l.

(** The calls that are refused whatever memory there is: shifts by and bits of
    negative numbers, divisions by 0, differences with a number of more words. *)
Definition refuses (x : op) (v : nat -> Z) : bool :=
  match x with
  | Usub _ a b => nwords (v a) <? nwords (v b)
  | Lshift _ _ n | Rshift _ _ n | Set_bit _ n => n <? 0
  | Div_word _ w => w =? 0
  | _ => false
  end.

(** A [BN_ULONG] is a word. *)
Definition typed (x : op) : Prop :=
  match x with
  | Mul_word _ w | Add_word _ w | Sub_word _ w | Set_word _ w | Div_word _ w => is_word w
  | _ => True
  end.

(** The words that a call asks for. *)
Definition need (x : op) (v : nat -> Z) : Z :=
  match x with
  | Add _ a b | Sub _ a b | Uadd _ a b => Z.max (nwords (v a)) (nwords (v b)) + 1
  | Usub _ a _ | Rshift1 _ a | Rshift _ a _ => nwords (v a)
  | Lshift1 _ a => nwords (v a) + 1
  | Lshift _ a n => nwords (v a) + n / BN_BITS2 + 1
  | Mul_word a _ | Div_word a _ | Add_word a _ | Sub_word a _ => nwords (v a) + 1
  | Set_word _ _ => 1
  | Set_bit _ n => n / BN_BITS2 + 1
  | Copy _ _ | Clear_bit _ _ | Mask_bits _ _ | Set_negative _ _ => 0
  end.

(** ** Refinement *)

(** The memory holds the numbers [v], in objects with the flags [f]. *)
Definition holds_numbers s v f : Prop :=
  map_Forall (fun l o => wf o /\ canon o /\ val o = v l /\ bn_flags o = f l) (objs s).

(** Why a call fails: it asks for more words than there can be, the array of its
    result is not its own, or an allocation fails. *)
Definition unable (x : op) v f : Prop :=
  WORDS_MAX < need x v \/ Z.land (f (target x)) BN_FLG_STATIC_DATA <> 0 \/ exists k, ok k = false.

Lemma top_nwords o : wf o -> canon o -> bn_top o = nwords (val o).
Proof.
  intros H [L _]. unfold nwords. rewrite val_sign by done. pose proof BITS2_pos as PB. pose proof (wf_top _ H) as Ht.
  destruct (Z.eq_dec (bn_top o) 0) as [E|N].
  - assert (mag o = 0) as -> by (by apply mag_zero). rewrite E. change (bit_length 0) with 0. symmetry. apply Z.div_small. lia.
  - destruct (top_pred o H) as (k & x & Ek & Ex & _); [lia|]. destruct (bits_of_top o k x H L Ek Ex) as [Wx ->].
    pose proof (bit_length_range x BN_BITS2 (Z.lt_le_incl _ _ PB) Wx) as B.
    assert (0 < bit_length x).
    { unfold bit_length. destruct (Z.eqb_spec x 0) as [->|]; [by destruct (L k Ek)|]. pose proof (Z.log2_nonneg x). lia. }
    rewrite Ek. apply Z.div_unique with (bit_length x - 1); lia.
Qed.

Lemma holds_lookup s v f l : holds_numbers s v f -> is_Some (objs s !! l) ->
  exists o, objs s !! l = Some o /\ wf o /\ canon o /\ val o = v l /\ bn_flags o = f l.
Proof. intros H [o E]. exists o. split; [done|]. by apply (map_Forall_lookup_1 _ _ _ _ H E). Qed.

(** A call that writes its target. *)
Lemma writes_update s v f x s' : holds_numbers s v f -> writes s (target x) (result x v) s' ->
  holds_numbers s' (update x v) f /\ dom (objs s') = dom (objs s).
Proof.
  intros H (o & o' & E & [S _] & W & C & V & F). split.
  - unfold holds_numbers. rewrite S. intros l ol El. unfold update. destruct (decide (l = target x)) as [->|N].
    + rewrite lookup_insert_eq in El. injection El as <-. destruct (H _ _ E) as (_ & _ & _ & Ff). split_and!; try done. congruence.
    + rewrite lookup_insert_ne in El by done. by apply H.
  - rewrite S. apply dom_insert_lookup_L. by exists o.
Qed.

Lemma starved_unable s v f x o n : holds_numbers s v f -> objs s !! target x = Some o -> starved ok n o -> 
  n <= need x v \/ n <= WORDS_MAX -> unable x v f.
Proof.
  intros H E F L. destruct (H _ _ E) as (_ & _ & _ & Ff). destruct F as [F|[F|F]]; [|right; left|by right; right].
  - left. destruct L; lia.
  - unfold has, BN_get_flags in F. rewrite Ff in F. by apply negb_true_iff, Z.eqb_neq in F.
Qed.

(** The objects are well-formed, whatever their numbers are. *)
Definition well_formed s : Prop := map_Forall (fun _ o => wf o) (objs s).

(** A call whose target becomes [m], or that cannot be made. *)
Definition outcome_of s (x : op) o (n m : Z) (b : bool) s' : Prop :=
  if b then writes s (target x) m s'
  else starved ok n o /\ exists o', stored s (target x) o' s' /\ wf o'.

(** What a call promises: it is the operation on numbers, or it is refused and
    changes nothing, or the objects are still well-formed. *)
Definition promised s (x : op) v f (b : bool) s' : Prop :=
  if b then refuses x v = false /\ holds_numbers s' (update x v) f /\ dom (objs s') = dom (objs s)
  else refuses x v = true /\ s' = s \/ refuses x v = false /\ unable x v f /\ well_formed s'.

Lemma refusal s x v f P : refuses x v = true -> runs P s (fun b s' => b = false /\ s' = s) -> runs P s (promised s x v f).
Proof. intros E R. eapply runs_mono; [exact R|]. intros b s' [-> ->]. by left. Qed.

Lemma finish x s v f o n m (P : prog bool) : holds_numbers s v f -> objs s !! target x = Some o -> m = result x v -> refuses x v = false ->
  n <= need x v \/ n <= WORDS_MAX -> runs P s (outcome_of s x o n m) ->
  runs P s (promised s x v f).
Proof.
  intros H E -> Er L R. eapply runs_mono; [exact R|]. intros [] s'; [intros Hs; split; [done|by apply writes_update]|].
  intros (F & o' & [S _] & W). right. split; [done|]. split; [by eapply starved_unable|]. unfold well_formed. rewrite S.
  apply map_Forall_insert_2; [done|]. eapply map_Forall_impl; [exact H|]. by intros l ol (? & _).
Qed.

(** The shapes of what the functions have been shown to do. *)
Lemma of_refused s x o n m b s' : wf o ->
  (if b : bool then writes s (target x) m s' else refused ok s (target x) o n s') -> outcome_of s x o n m b s'.
Proof.
  intros [H1 H2 H3 H4 H5]. destruct b; [done|]. intros (g & Hg & S & F). split; [done|]. exists (set_neg g o). by split; [|constructor].
Qed.

Lemma of_damaged s x o n m b s' : objs s !! target x = Some o ->
  (if b : bool then writes s (target x) m s' else damaged ok s (target x) n s') -> outcome_of s x o n m b s'.
Proof.
  intros E. destruct b; [done|]. intros (o0 & o1 & E0 & S & W & F). split; [by replace o with o0 by congruence|]. by exists o1.
Qed.

Lemma of_stored s x o n m b s' : wf o ->
  (if b : bool then writes s (target x) m s' else stored s (target x) o s' /\ starved ok n o) -> outcome_of s x o n m b s'.
Proof. intros W. destruct b; [done|]. intros [S F]. split; [done|]. by exists o. Qed.

Lemma of_written s x o n m m' b s' :
  (if b : bool then writes s (target x) m s' else writes s (target x) m' s' /\ starved ok n o) -> outcome_of s x o n m b s'.
Proof. destruct b; [done|]. intros [(o1 & o2 & _ & S & W & _) F]. split; [done|]. by exists o2. Qed.

Lemma same_number s x o v f : holds_numbers s v f -> objs s !! target x = Some o -> val o = result x v -> writes s (target x) (result x v) s.
Proof. intros H E <-. destruct (H _ _ E) as (W & C & _). by apply writes_self. Qed.

Lemma mag_abs o : wf o -> mag o = Z.abs (val o).
Proof. intros W. by rewrite val_sign. Qed.

Ltac operand a :=
  let o := fresh "o" a in let E := fresh "E" a in let W := fresh "W" a in let C := fresh "C" a in
  let V := fresh "V" a in
  match goal with
  | H : holds_numbers ?s ?v ?f, I : is_Some (objs ?s !! a) |- _ =>
      destruct (holds_lookup s v f a H I) as (o & E & W & C & V & _)
  end.

Section step.
Context (s : mem) (v f : nat -> Z).
Hypothesis H : holds_numbers s v f.

Let good (x : op) (P : prog bool) : Prop :=
  runs P s (promised s x v f).

Lemma exec_sums r a b : is_Some (objs s !! r) -> is_Some (objs s !! a) -> is_Some (objs s !! b) ->
  good (Add r a b) (BN_add ok r a b) /\ good (Sub r a b) (BN_sub ok r a b) /\ good (Uadd r a b) (BN_uadd ok r a b) /\
  good (Usub r a b) (BN_usub ok r a b).
Proof.
  intros Ir Ia Ib. operand r. operand a. operand b.
  pose proof (top_nwords _ Wa Ca) as Ta. pose proof (top_nwords _ Wb Cb) as Tb. rewrite Va in Ta. rewrite Vb in Tb.
  split; [|split; [|split]].
  - eapply (finish (Add r a b)); [done|done| |done| |eapply runs_mono; [by apply (BN_add_ok ok r a b or oa ob)|]].
    3: { intros y s'. by apply (of_refused s (Add r a b)). }
    + cbn. by rewrite Va, Vb.
    + left. cbn. by rewrite Ta, Tb.
  - eapply (finish (Sub r a b)); [done|done| |done| |eapply runs_mono; [by apply (BN_sub_ok ok r a b or oa ob)|]].
    3: { intros y s'. by apply (of_refused s (Sub r a b)). }
    + cbn. by rewrite Va, Vb.
    + left. cbn. by rewrite Ta, Tb.
  - eapply (finish (Uadd r a b)); [done|done| |done| |eapply runs_mono; [apply (BN_uadd_ok ok r a b or oa ob); try done; [apply Ca|apply Cb]|]].
    3: { intros y s'. by apply (of_stored s (Uadd r a b)). }
    + cbn. by rewrite !mag_abs, Va, Vb.
    + left. cbn. by rewrite Ta, Tb.
  - destruct (Z.ltb_spec (nwords (v a)) (nwords (v b))) as [Lt|Ge].
    { apply (refusal _ (Usub r a b)); [by apply Z.ltb_lt|]. unfold BN_usub.
      apply runs_bind, (runs_get _ _ _ _ Ea), runs_bind, (runs_get _ _ _ _ Eb). rewrite Ta, Tb.
      destruct (Z.ltb_spec (nwords (v a) - nwords (v b)) 0); [by apply runs_ret|lia]. }
    eapply (finish (Usub r a b)); [done|done| |by apply Z.ltb_ge| |eapply runs_mono; [apply (BN_usub_mod ok r a b or oa ob); try done; lia|]].
    3: { intros y s'. by apply (of_stored s (Usub r a b)). }
    + pose proof (mag_bounds oa Wa) as Ba. pose proof (mag_bounds ob Wb) as Bb.
      pose proof (weight_mono (Z.to_nat (bn_top ob)) (Z.to_nat (bn_top oa)) ltac:(lia)).
      cbn [result]. rewrite <- Va, <- Vb, <- !mag_abs by done.
      assert (BASE ^ nwords (val oa) = weight (Z.to_nat (bn_top oa))) as ->.
      { unfold weight. pose proof (wf_top _ Wa). rewrite Z2Nat.id by lia. by rewrite Va, Ta. }
      destruct (Z.leb_spec 0 (mag oa - mag ob)); [apply Z.mod_small; lia|]. symmetry. apply Z.mod_unique with (-1); lia.
    + left. cbn. by rewrite Ta.
Qed.

Lemma exec_shifts r a n : is_Some (objs s !! r) -> is_Some (objs s !! a) ->
  good (Lshift1 r a) (BN_lshift1 ok r a) /\ good (Rshift1 r a) (BN_rshift1 ok r a) /\
  good (Lshift r a n) (BN_lshift ok r a n) /\ good (Rshift r a n) (BN_rshift ok r a n).
Proof.
  intros Ir Ia. operand r. operand a. pose proof (top_nwords _ Wa Ca) as Ta. rewrite Va in Ta.
  pose proof (wf_top _ Wa). pose proof (wf_dmax _ Wa).
  split; [|split; [|split]].
  - eapply (finish (Lshift1 r a)); [done|done| |done| |eapply runs_mono; [by apply (BN_lshift1_ok ok r a or oa)|]].
    3: { intros y s'. by apply (of_refused s (Lshift1 r a)). }
    + cbn. by rewrite Va.
    + left. cbn. by rewrite Ta.
  - eapply (finish (Rshift1 r a)); [done|done| |done| |eapply runs_mono; [by apply (BN_rshift1_ok ok r a or oa)|]].
    3: { intros y s'. by apply (of_stored s (Rshift1 r a)). }
    + cbn. by rewrite Va.
    + right. lia.
  - destruct (Z.ltb_spec n 0) as [Neg|Hn].
    { apply (refusal _ (Lshift r a n)); [by apply Z.ltb_lt|]. unfold BN_lshift. zcase; [by apply runs_ret|lia]. }
    pose proof (split_index n Hn) as (Hq & _ & _).
    eapply (finish (Lshift r a n)); [done|done| |by apply Z.ltb_ge| |eapply runs_mono; [by apply (BN_lshift_ok ok r a n or oa)|]].
    3: { intros y s'. by apply (of_written s (Lshift r a n)). }
    + cbn. by rewrite Va.
    + left. cbn. by rewrite Ta.
  - destruct (Z.ltb_spec n 0) as [Neg|Hn].
    { apply (refusal _ (Rshift r a n)); [by apply Z.ltb_lt|]. unfold BN_rshift. zcase; [by apply runs_ret|lia]. }
    pose proof (split_index n Hn) as (Hq & _ & _).
    eapply (finish (Rshift r a n)); [done|done| |by apply Z.ltb_ge| |eapply runs_mono; [by apply (BN_rshift_ok ok r a n or oa)|]].
    3: { intros y s'. by apply (of_written s (Rshift r a n)). }
    + cbn. by rewrite Va.
    + right. lia.
Qed.

Lemma exec_words a w : is_Some (objs s !! a) -> is_word w ->
  good (Mul_word a w) (BN_mul_word ok a w) /\ good (Add_word a w) (BN_add_word ok a w) /\
  good (Sub_word a w) (BN_sub_word ok a w) /\ good (Set_word a w) (BN_set_word ok a w) /\
  good (Div_word a w) (x ← BN_div_word ok a w; ret (negb (x =? BASE - 1))).
Proof.
  intros Ia Ww. operand a. pose proof (top_nwords _ Wa Ca) as Ta. rewrite Va in Ta.
  split; [|split; [|split; [|split]]].
  - eapply (finish (Mul_word a w)); [done|done| |done| |eapply runs_mono; [by apply (BN_mul_word_ok ok a w oa)|]].
    3: { intros y s'. by apply (of_damaged s (Mul_word a w)). }
    + cbn. by rewrite Va.
    + left. cbn. by rewrite Ta.
  - eapply (finish (Add_word a w)); [done|done| |done| |eapply runs_mono; [by apply (BN_add_word_ok ok a w oa)|]].
    3: { intros y s'. by apply (of_damaged s (Add_word a w)). }
    + cbn. by rewrite Va.
    + left. cbn. by rewrite Ta.
  - eapply (finish (Sub_word a w)); [done|done| |done| |eapply runs_mono; [by apply (BN_sub_word_ok ok a w oa)|]].
    3: { intros y s'. by apply (of_damaged s (Sub_word a w)). }
    + cbn. by rewrite Va.
    + left. cbn. by rewrite Ta.
  - eapply (finish (Set_word a w)); [done|done| |done| |eapply runs_mono; [by apply (BN_set_word_ok ok a oa w)|]].
    3: { intros y s'. by apply (of_stored s (Set_word a w)). }
    + done.
    + left. done.
  - destruct (Z.eqb_spec w 0) as [->|Nw].
    { apply (refusal _ (Div_word a 0)); [done|]. unfold BN_div_word. rewrite mask2_mod, Z.mod_0_l by (pose proof BASE_pos; lia).
      apply runs_bind, runs_ret, runs_ret. split; [|done]. apply negb_false_iff, Z.eqb_eq. unfold ul.
      symmetry. apply Z.mod_unique with (-1); pose proof BASE_pos; lia. }
    assert (0 < w) as Pw by (unfold is_word in Ww; lia).
    eapply (finish (Div_word a w)); [done|done| |by apply Z.eqb_neq| |apply runs_bind; eapply runs_mono; [by apply (BN_div_word_ok ok a w oa)|]].
    3: { intros y s' [[-> Ws]|(-> & Ws & F)]; apply runs_ret.
      - pose proof (Z.mod_pos_bound (mag oa) w Pw). unfold is_word in Ww.
        destruct (Z.eqb_spec (mag oa mod w) (BASE - 1)); [lia|]. exact Ws.
      - rewrite Z.eqb_refl. by apply (of_written s (Div_word a w) oa _ 0 (val oa) false). }
    + cbn. by rewrite Va.
    + left. cbn. by rewrite Ta.
Qed.

Lemma exec_bits a n b : is_Some (objs s !! a) ->
  good (Set_bit a n) (BN_set_bit ok a n) /\ good (Clear_bit a n) (_ ← BN_clear_bit a n; ret true) /\
  good (Mask_bits a n) (_ ← BN_mask_bits a n; ret true) /\ good (Set_negative a b) (_ ← BN_set_negative a b; ret true).
Proof.
  intros Ia. operand a. pose proof (mag_abs _ Wa) as Ma. rewrite Va in Ma.
  assert (val oa = with_sign (v a) (Z.abs (v a))) as Vs by (unfold with_sign; destruct (Z.ltb_spec (v a) 0); lia).
  split; [|split; [|split]].
  - destruct (Z.ltb_spec n 0) as [Neg|Hn].
    { apply (refusal _ (Set_bit a n)); [by apply Z.ltb_lt|]. unfold BN_set_bit. zcase; [by apply runs_ret|lia]. }
    eapply (finish (Set_bit a n)); [done|done| |by apply Z.ltb_ge| |eapply runs_mono; [by apply (BN_set_bit_ok ok a oa n)|]].
    3: { intros y s'. by apply (of_stored s (Set_bit a n)). }
    + cbn. by rewrite Va, Ma.
    + by left.
  - eapply (finish (Clear_bit a n) s v f oa 0); [done|done|done|done|left; done|]. apply runs_bind.
    destruct (Z.ltb_spec n 0) as [Neg|Hn].
    { unfold BN_clear_bit. zcase; [|lia]. apply runs_ret, runs_ret. apply (same_number s (Clear_bit a n) oa v f H Ea). cbn [result].
      unfold Z.clearbit. rewrite Z.shiftl_1_l, Z.pow_neg_r, Z.ldiff_0_r by done. done. }
    eapply runs_mono; [by apply (BN_clear_bit_ok a oa n)|]. intros [] s' Hs; apply runs_ret; cbn [outcome_of].
    + rewrite Va, Ma in Hs. exact Hs.
    + destruct Hs as [-> Eq]. apply (same_number s (Clear_bit a n) oa v f H Ea). cbn. by rewrite <- Ma, Eq, Ma.
  - eapply (finish (Mask_bits a n) s v f oa 0); [done|done|done|done|left; done|]. apply runs_bind.
    destruct (Z.ltb_spec n 0) as [Neg|Hn].
    { unfold BN_mask_bits. zcase; [|lia]. apply runs_ret, runs_ret. apply (same_number s (Mask_bits a n) oa v f H Ea). cbn [result].
      by rewrite Z.pow_neg_r, Zmod_0_r. }
    eapply runs_mono; [by apply (BN_mask_bits_ok a oa n)|]. intros [] s' Hs; apply runs_ret; cbn [outcome_of].
    + rewrite Va, Ma in Hs. exact Hs.
    + destruct Hs as [-> Lt]. apply (same_number s (Mask_bits a n) oa v f H Ea). cbn. rewrite Z.mod_small by lia. done.
  - eapply (finish (Set_negative a b) s v f oa 0); [done|done|done|done|left; done|]. apply runs_bind.
    eapply runs_mono; [by apply (BN_set_negative_ok a oa b)|]. intros [] s' Hs. apply runs_ret. cbn [outcome_of].
    rewrite Va in Hs. exact Hs.
Qed.

Lemma exec_copy a b : is_Some (objs s !! a) -> is_Some (objs s !! b) -> good (Copy a b) (BN_copy ok a b).
Proof.
  intros Ia Ib. operand a. operand b.
  eapply (finish (Copy a b)); [done|done| |done| |eapply runs_mono; [by apply (BN_copy_ok ok a b oa ob)|]].
  3: { intros y s'. by apply (of_stored s (Copy a b)). }
  - done.
  - right. pose proof (wf_dmax _ Wb). lia.
Qed.

Lemma exec_ok x : typed x -> Forall (fun l => is_Some (objs s !! l)) (target x :: sources x) -> good x (exec x).
Proof.
  intros Hv Hn. destruct x; cbn [target sources] in Hn; rewrite ?Forall_cons in Hn; cbn [exec typed] in *;
    repeat match goal with H : _ /\ _ |- _ => destruct H end;
    first [by apply exec_sums | by apply exec_copy | by apply (exec_shifts _ _ 0) | by apply exec_shifts
      | by apply exec_words | by apply (exec_bits _ _ 0) | by apply (exec_bits _ 0)].
Qed.
End step.

(** ** Sequences of calls *)

(** The calls one after another, until one fails. *)
Fixpoint run (h : list op) : prog bool :=
  match h with
  | [] => ret true
  | x :: h => b ← exec x; if b : bool then run h else ret false
  end.

Fixpoint updates (h : list op) (v : nat -> Z) : nat -> Z :=
  match h with [] => v | x :: h => updates h (update x v) end.

(** What a sequence of calls leaves: the numbers that it means, or those before a
    call that is refused, or well-formed objects after one that cannot be made. *)
Lemma bn_run_ok h : forall s v f, holds_numbers s v f -> Forall typed h ->
  Forall (fun x => Forall (fun l => l ∈ dom (objs s)) (target x :: sources x)) h ->
  runs (run h) s (fun b s' =>
    if b then (forall before x after, h = before ++ x :: after -> refuses x (updates before v) = false) /\
      holds_numbers s' (updates h v) f
    else exists before x after, h = before ++ x :: after /\
      (refuses x (updates before v) = true /\ holds_numbers s' (updates before v) f \/
       refuses x (updates before v) = false /\ unable x (updates before v) f /\ well_formed s')).
Proof.
  induction h as [|x h IH]; intros s v f H Hv Hn; cbn [run updates] in *.
  { apply runs_ret. split; [|done]. by intros [|] ? ?. }
  apply Forall_cons in Hv as [Hx Hv], Hn as [Nx Hn]. apply runs_bind. eapply runs_mono.
  { apply (exec_ok s v f H x Hx). eapply Forall_impl; [exact Nx|]. intros l. apply elem_of_dom. }
  intros [] s' Hs.
  - destruct Hs as (Nr & Hs & Ds). eapply runs_mono; [apply (IH s' (update x v) f Hs Hv)|].
    { eapply Forall_impl; [exact Hn|]. intros y. by rewrite Ds. }
    intros [] s2.
    + intros [Hr H2]. split; [|done]. intros [|y before] z after [= <- E]; [done|]. cbn [updates]. by eapply Hr.
    + intros (before & y & after & -> & U). by exists (x :: before), y, after.
  - apply runs_ret. exists [], x, h. split; [done|]. cbn [updates]. destruct Hs as [[E ->]|Hs]; [by left|by right].
Qed.

Lemma numbers_well_formed s v f : holds_numbers s v f -> well_formed s.
Proof. intros H. eapply map_Forall_impl; [exact H|]. by intros l o (W & _). Qed.
End history.
