(* ===== verification/BnTheorems.v ===== *)
(** * Big numbers: the theorems

    Histories of calls, what the functions that read return, the arithmetic on
    words in every build, and the conversions to and from bytes. *)

From S2P Require Import Prelude Bytes BnBase BnMem BnWords BnDivWords BnLib BnLibCorrect BnOps BnBin BnBinCorrect BnArith BnAddCorrect BnShiftCorrect BnWordCorrect BnHistory.

(** ** Histories *)

(** C21: whatever calls of [op] are made on whatever objects, the same one as result
    and operand or not, with any [int] and any word as arguments: the sequence
    stops at a call that is refused (a shift by, or a bit of, a negative number, a
    division by 0, [BN_usub] of a number with more words) with the integers that
    the calls before it mean, or at one that needs more words than an object can
    have, or whose array is not its own, or for want of memory; otherwise no call
    was one of the first kind and every object holds the integer that the
    operations on integers give, where [BN_usub] of a larger number with as many
    words is the difference modulo the range of these words. *)
Theorem bn_history {c : Build} ok h s v f : holds_numbers s v f -> Forall typed h ->
  Forall (fun x => Forall (fun l => l ∈ dom (objs s)) (target x :: sources x)) h ->
  runs (run ok h) s (fun b s' =>
    if b then (forall before x after, h = before ++ x :: after -> refuses x (updates before v) = false) /\
      holds_numbers s' (updates h v) f
    else exists before x after, h = before ++ x :: after /\
      (refuses x (updates before v) = true /\ holds_numbers s' (updates before v) f \/
       refuses x (updates before v) = false /\ unable ok x (updates before v) f)).
Proof.
  intros H Hv Hn. eapply runs_mono; [by apply (bn_run_ok ok h s v f)|]. intros [] s'; [done|].
  intros (before & x & after & -> & [U|(U & U' & _)]); exists before, x, after; (split; [done|]); [by left|by right].
Qed.

(** C22: after any sequence of these calls, finished or stopped by a failure of
    whatever kind, every object is well-formed: as many words in memory as it says,
    each in range, a [top] within them, and a sign that is 0 or 1. *)
Theorem bn_typed {c : Build} ok h s v f : holds_numbers s v f -> Forall typed h ->
  Forall (fun x => Forall (fun l => l ∈ dom (objs s)) (target x :: sources x)) h ->
  runs (run ok h) s (fun _ s' => well_formed s').
Proof.
  intros H Hv Hn. eapply runs_mono; [by apply (bn_run_ok ok h s v f)|].
  intros [] s' Hs; [by eapply numbers_well_formed, Hs|].
  destruct Hs as (before & x & after & _ & [[_ Hs]|(_ & _ & Hs)]); [by eapply numbers_well_formed|done].
Qed.

(** ** Reading *)

Section read.
Context {c : Build}.

Lemma one_word a : wf a -> bn_top a = 1 -> aget (bn_d a) 0 = Ret (mag a).
Proof.
  intros H E. destruct (d_lookup a 0 H) as (x & Ex & _ & ->); [destruct H; lia|].
  change (Z.to_nat 0) with 0%nat in Ex. unfold mag, top_words. rewrite E. change (Z.to_nat 1) with 1%nat.
  rewrite (take_S_r _ _ _ Ex), take_0. cbn. f_equal. lia.
Qed.

Lemma one_word_iff a : wf a -> lean a -> (1 < bn_top a <-> BASE <= mag a).
Proof.
  intros H L. pose proof (mag_bounds a H) as B. pose proof (wf_top _ H). split; intros Ht.
  - assert (weight (Z.to_nat (bn_top a - 1)) <= mag a) as Lo by (apply mag_lower; [done|done|lia]).
    pose proof (weight_mono 1 (Z.to_nat (bn_top a - 1)) ltac:(lia)) as M. change (weight 1) with (BASE ^ 1) in M.
    rewrite Z.pow_1_r in M. lia.
  - destruct (Z.lt_ge_cases 1 (bn_top a)) as [|G]; [done|].
    pose proof (weight_mono (Z.to_nat (bn_top a)) 1 ltac:(lia)) as M. change (weight 1) with (BASE ^ 1) in M. rewrite Z.pow_1_r in M. lia.
Qed.

Lemma abs_is_word_ok a w : wf a -> lean a -> is_word w -> BN_abs_is_word a w = Ret (Z.abs (val a) =? w).
Proof.
  intros H L Ww. rewrite val_sign by done. unfold BN_abs_is_word. pose proof (mag_zero a H L) as Z0. pose proof (one_word_iff a H L) as Z1.
  pose proof (mag_bounds a H) as Bm. pose proof (wf_top _ H). unfold is_word in Ww. destruct (Z.eqb_spec (bn_top a) 1) as [E|N].
  - rewrite one_word by done. cbn [mbind outcome_bind]. f_equal. destruct (Z.eqb_spec (bn_top a) 0); [lia|]. by rewrite andb_false_r, orb_false_r.
  - f_equal. destruct (Z.eqb_spec w 0) as [->|Nw]; cbn [andb].
    + destruct (Z.eqb_spec (bn_top a) 0), (Z.eqb_spec (mag a) 0); tauto.
    + destruct (Z.eqb_spec (mag a) w) as [E|]; [|done]. assert (bn_top a = 0) as T0 by lia. apply Z0 in T0. lia.
Qed.

Lemma is_odd_ok a : wf a -> BN_is_odd a = Ret (Z.odd (val a)).
Proof.
  intros H. assert (Z.odd (val a) = Z.odd (mag a)) as -> by (unfold val; destruct (bn_neg a =? 0); [done|apply Z.odd_opp]).
  unfold BN_is_odd. destruct (Z.ltb_spec 0 (bn_top a)).
  - destruct (d_lookup a 0 H) as (x & Ex & _ & ->); [destruct H; lia|]. cbn [mbind outcome_bind]. f_equal.
    change 1 with (Z.ones 1). rewrite Z.land_ones by lia. change (2 ^ 1) with 2. rewrite Zmod_odd.
    change (Z.to_nat 0) with 0%nat in Ex.
    assert (Z.odd (mag a) = Z.odd x) as ->; [|by destruct (Z.odd x)].
    unfold mag, top_words. destruct (bn_d a) as [|y d] eqn:Ed; [done|]. injection Ex as ->.
    destruct (Z.to_nat (bn_top a)) as [|k] eqn:Ek; [lia|]. cbn [take eval]. rewrite Z.odd_add, BASE_even, <- Z.mul_assoc, Z.odd_mul.
    cbn. by destruct (Z.odd x).
  - unfold mag, top_words. by replace (Z.to_nat (bn_top a)) with 0%nat by lia.
Qed.

(** C25: what the functions that read objects return: the order of the numbers and
    of their absolute values, the number of bits (by the branch in constant time
    or the other), single bits, the sign, parity, and the number itself if it is
    a word. *)
Theorem bn_reading a b n w : wf a -> canon a -> wf b -> canon b -> is_word w ->
  BN_cmp (Some a) (Some b) = Ret (cmp_result (val a ?= val b)) /\
  (exists r, BN_ucmp a b = Ret r /\ sign_of r (Z.abs (val a) ?= Z.abs (val b))) /\
  BN_num_bits a = Ret (bit_length (Z.abs (val a))) /\
  BN_is_bit_set a n = Ret (Z.b2z (Z.testbit (Z.abs (val a)) n)) /\
  BN_is_zero a = (val a =? 0) /\ BN_is_negative a = (val a <? 0) /\ BN_is_odd a = Ret (Z.odd (val a)) /\
  BN_abs_is_word a w = Ret (Z.abs (val a) =? w) /\ BN_is_word a w = Ret (val a =? w) /\ BN_is_one a = Ret (val a =? 1) /\
  BN_get_word a = Ret (if Z.abs (val a) <? BASE then Z.abs (val a) else BASE - 1).
Proof.
  intros Ha Ca Hb Cb Ww. pose proof Ca as [La Na]. pose proof BASE_pos as PB. pose proof (val_neg a Ha Ca) as Vn.
  pose proof (val_zero a Ha La) as Vz. pose proof (wf_neg _ Ha) as Gn. pose proof (val_sign a Ha) as Vs. pose proof (mag_bounds a Ha) as Bm.
  assert (val a = if bn_neg a =? 0 then mag a else - mag a) as Ev by done.
  split; [by apply cmp_ok|]. split; [rewrite !val_sign by done; by apply ucmp_ok; try done; apply Cb|].
  split; [rewrite Vs; by apply num_bits_ok|]. split; [rewrite Vs; by apply is_bit_set_ok|].
  split; [unfold BN_is_zero; destruct (Z.eqb_spec (bn_top a) 0), (Z.eqb_spec (val a) 0); tauto|].
  split. { unfold BN_is_negative. destruct Gn as [G|G]; rewrite G in *; cbn; destruct (Z.ltb_spec (val a) 0); lia || done. }
  split; [by apply is_odd_ok|].
  assert (forall w, is_word w -> BN_is_word a w = Ret (val a =? w) /\
    BN_abs_is_word a w = Ret (mag a =? w)) as Words.
  { intros u Wu. unfold BN_is_word. rewrite abs_is_word_ok, Vs by done. cbn [mbind outcome_bind]. split; [|done]. f_equal. unfold is_word in Wu.
    destruct Gn as [G|G]; rewrite G in *; cbn in *; destruct (Z.eqb_spec (mag a) u), (Z.eqb_spec (val a) u), (Z.eqb_spec u 0); cbn; lia || done. }
  split; [by apply abs_is_word_ok|]. split; [by apply Words|]. split.
  - unfold BN_is_one. destruct (Words 1) as [_ ->]; [unfold is_word; lia|]. cbn [mbind outcome_bind]. f_equal.
    destruct Gn as [G|G]; rewrite G in *; cbn in *; destruct (Z.eqb_spec (mag a) 1), (Z.eqb_spec (val a) 1); cbn; lia || done.
  - rewrite Vs. unfold BN_get_word. pose proof (one_word_iff a Ha La) as One. pose proof (wf_top _ Ha).
    destruct (Z.ltb_spec 1 (bn_top a)), (Z.ltb_spec (mag a) BASE); try lia.
    + by rewrite MASK2_ones, Z.ones_equiv.
    + destruct (Z.eqb_spec (bn_top a) 1); [by apply one_word|]. assert (bn_top a = 0) as E0 by lia. by rewrite (proj2 (mag_zero a Ha La) E0).
Qed.
End read.

(** ** Words *)

(** C26: the quotient of two words by one is exact in every build: the schoolbook
    method on half words computes what the division of the compiler does. *)
Theorem bn_div_words_exact {c : Build} h l d : is_word l -> is_word d -> 0 <= h < d ->
  bn_div_words h l d = Ret ((h * BASE + l) / d) /\ div_words_portable h l d = Ret ((h * BASE + l) / d).
Proof.
  intros Hl Hd Hh. split; [by apply div_words_ok|].
  rewrite div_words_portable_ok by (done || unfold is_word in *; lia). by destruct (Z.leb_spec d h); [lia|].
Qed.

(** C27: the loops over words compute products by a word, with or without an
    accumulation, sums and differences, with the carry that is returned; rolled
    out or not, with or without a double-word type, and in place or not. *)
Theorem bn_word_loops {c : Build} s r a b n w : is_word w ->
  let N := Z.to_nat n in
  within s r N -> region s r N -> region s a N -> region s b N -> ahead r a N -> ahead r b N ->
  runs (bn_mul_words r a n w) s (wrote s r N (fun k l => is_word k /\
    eval l + weight N * k = w * eval (rd s a N))) /\
  runs (bn_mul_add_words r a n w) s (wrote s r N (fun k l => is_word k /\
    eval l + weight N * k = w * eval (rd s a N) + eval (rd s r N))) /\
  runs (bn_add_words r a b n) s (wrote s r N (fun k l => is_bit k /\
    eval l + weight N * k = eval (rd s a N) + eval (rd s b N))) /\
  runs (bn_sub_words r a b n) s (wrote s r N (fun k l => is_bit k /\
    eval l - weight N * k = eval (rd s a N) - eval (rd s b N))).
Proof.
  intros Hw N Wr Rr Ra Rb Aa Ab. split; [by apply bn_mul_words_ok|]. split; [by apply bn_mul_add_words_ok|].
  split; [by apply bn_add_words_ok|by apply bn_sub_words_ok].
Qed.

(** C28: the remainder by a word is that of the absolute value, whether it is found
    with a double-word type, by half words or by dividing a copy, which is then
    released; [BN_div_word] also leaves the quotient, truncated.  The error value
    is no remainder, and is returned only for want of memory or of room. *)
Theorem bn_remainders {c : Build} ok a w o s : objs s !! a = Some o -> wf o -> canon o -> is_word w -> 0 < w -> fresh s ->
  runs (BN_mod_word ok a w) s (fun x s' => objs s' = objs s /\
    (x = Z.abs (val o) mod w \/ x = BASE - 1 /\ (WORDS_MAX <= bn_top o \/ exists k, ok k = false))) /\
  runs (BN_div_word ok a w) s (fun x s' =>
    x = Z.abs (val o) mod w /\ writes s a (Z.quot (val o) w) s' \/
    x = BASE - 1 /\ writes s a (val o) s' /\ starved ok (bn_top o + 1) o) /\
  Z.abs (val o) mod w <> BASE - 1.
Proof.
  intros E H C Ww Pw Fr. rewrite val_sign by done. split; [by apply BN_mod_word_ok|]. split; [by apply BN_div_word_ok|].
  pose proof (Z.mod_pos_bound (mag o) w Pw). unfold is_word in Ww. lia.
Qed.

(** ** Bytes *)

(** C23: a string that is read as a number and written with its own length, order and
    signedness is the string, unless [bn2binpad] asks for more bytes; it does
    not if there is no sign. *)
Theorem bn_bytes_roundtrip {c : Build} ok s e sg l o st to : objs st !! l = Some o -> wf o -> bn_neg o = 0 -> bytes s ->
  Z.of_nat (length s) <= INT_MAX -> sg = UNSIGNED \/ s <> [] -> (length s <= length to)%nat ->
  runs (bin2bn ok s (Z.of_nat (length s)) (Some l) e sg) st (fun r st' =>
    match r with
    | None => starved ok ((Z.of_nat (length s) + BN_BYTES - 1) / BN_BYTES) o
    | Some l' => exists o', objs st' !! l' = Some o' /\ val o' = num_of sg (lsb_first e (length s) s) /\
        bn2binpad o' to (Z.of_nat (length s)) e sg =
          Ret (if Z.of_nat (length s) <? asked sg o' then (-1, to) else (Z.of_nat (length s), blit 0 s to)) /\
        (sg = UNSIGNED -> asked sg o' <= Z.of_nat (length s))
    end).
Proof.
  intros E H G Ws Hmax Hsg Hto. eapply runs_mono.
  { apply (bin2bn_ok ok s (length s) e sg l o st); try done. destruct Hsg; [by left|right]. by destruct s. }
  intros [l'|] st' Hs; [|apply Hs]. destruct Hs as (-> & o' & S & W & L & V & F & C). specialize (C (or_intror G)).
  pose proof (lsb_first_props e (length s) s Ws (le_n _)) as [Lt Wt]. set (t := lsb_first e (length s) s) in *.
  exists o'. split; [by eapply stored_eq|]. split; [done|].
  pose proof (word_get_bounds t Wt) as Bt. rewrite Lt in Bt.
  assert (sval sg o' mod 256 ^ Z.of_nat (length s) = word_get t) as Ev.
  { destruct sg; cbn [sval]; rewrite <- ?(val_sign o' W), V; cbn [num_of].
    - destruct (128 <=? _); [|by apply Z.mod_small]. rewrite Lt. symmetry. apply Z.mod_unique with (-1); lia.
    - rewrite Z.abs_eq by lia. by apply Z.mod_small. }
  assert (bytes_out e (length s) (sval sg o') = s) as Eb.
  { assert (word_put (length s) (sval sg o') = t) as Et by (rewrite <- word_put_mod, Ev, <- Lt; by apply word_put_get).
    unfold bytes_out. rewrite Et. unfold t, lsb_first. rewrite firstn_all. destruct e; [apply reverse_involutive|done]. }
  split.
  - rewrite bn2binpad_ok; [|done|done|lia|].
    + unfold padded. destruct (Z.eqb_spec (Z.of_nat (length s)) (-1)); [lia|].
      destruct (Z.ltb_spec (Z.of_nat (length s)) (asked sg o')); [done|]. by rewrite Nat2Z.id, Eb.
    + intros r Hr. unfold padded in Hr. destruct (Z.eqb_spec (Z.of_nat (length s)) (-1)); [lia|].
      destruct (_ <? _); [done|]. injection Hr as <-. lia.
  - intros ->. unfold asked. rewrite Z.add_0_r, <- (val_sign o' W), V. cbn [num_of]. rewrite Z.abs_eq by lia.
    pose proof (bit_length_range (word_get t) (8 * Z.of_nat (length s)) ltac:(lia)) as B.
    rewrite Z.pow_mul_r in B by lia. change (2 ^ 8) with 256 in B. specialize (B Bt). Z.div_mod_to_equations; lia.
Qed.

Lemma last_word_put n z : (0 < n)%nat -> List.last (word_put n z) 0 = (z / 256 ^ Z.of_nat (n - 1)) mod 256.
Proof.
  revert z. induction n as [|n IH]; intros z H; [lia|]. destruct n as [|n]; [cbn; by rewrite Z.div_1_r|].
  replace (S (S n) - 1)%nat with (S n) by lia. change (word_put (S (S n)) z) with (z mod 256 :: word_put (S n) (z / 256)).
  transitivity (List.last (word_put (S n) (z / 256)) 0); [done|]. rewrite IH by lia. rewrite Nat.sub_succ, Nat.sub_0_r, pow256_S.
  by rewrite Z.div_div by (lia || apply Z.pow_pos_nonneg; lia).
Qed.

(** The numbers that [bn2binpad] writes in [n] bytes.  Two's complement has room
    for those from [- 256 ^ n / 2] on; of the negative ones it takes those whose
    absolute value needs all of the [8 * n] bits, or no bit of the last byte. *)
Definition accepts (sg : signedness_t) (z n : Z) : bool :=
  match sg with
  | UNSIGNED => z <? 256 ^ n
  | SIGNED =>
      if 0 <=? z then (0 <? n) && (2 * z <? 256 ^ n)
      else (Z.abs z <? 256 ^ (n - 1)) || (256 ^ n <=? 2 * Z.abs z) && (Z.abs z <? 256 ^ n)
  end.

Lemma bits_of_bytes z k : 0 <= z -> 0 <= k -> (z < 256 ^ k <-> bit_length z <= 8 * k).
Proof.
  intros Hz Hk. assert (256 ^ k = 2 ^ (8 * k)) as -> by (rewrite Z.pow_mul_r by lia; done). split; intros Hx.
  - apply (bit_length_range z (8 * k)); lia.
  - eapply Z.lt_le_trans; [apply (bit_length_lt z Hz)|]. apply Z.pow_le_mono_r; lia.
Qed.

Lemma bits_of_bytes_half z k : 0 <= z -> 0 < k -> (2 * z < 256 ^ k <-> bit_length z <= 8 * k - 1).
Proof.
  intros Hz Hk. assert (256 ^ k = 2 * 2 ^ (8 * k - 1)) as ->.
  { rewrite <- Z.pow_succ_r by lia. replace (Z.succ (8 * k - 1)) with (8 * k) by lia. rewrite Z.pow_mul_r by lia. done. }
  split; intros Hx.
  - apply (bit_length_range z (8 * k - 1)); lia.
  - assert (z < 2 ^ (8 * k - 1)); [|lia]. eapply Z.lt_le_trans; [apply (bit_length_lt z Hz)|]. apply Z.pow_le_mono_r; lia.
Qed.

Lemma accepts_asked {c : Build} sg a n : wf a -> canon a -> 0 <= n -> accepts sg (sval sg a) n = (asked sg a <=? n).
Proof.
  intros H C Hn. pose proof (mag_bounds a H) as Bm. unfold asked. set (n8 := bit_length (mag a)).
  pose proof (bit_length_nonneg (mag a)) as P8. fold n8 in P8.
  pose proof (bits_of_bytes (mag a) n (proj1 Bm) Hn) as S0. fold n8 in S0.
  apply eq_true_iff_eq. rewrite Z.leb_le. destruct sg; cbn [accepts sval].
  2: { rewrite Z.ltb_lt, S0. Z.div_mod_to_equations; lia. }
  pose proof (val_neg a H C) as Vn. pose proof (val_sign a H) as Vs. rewrite Vs. destruct (Z.leb_spec 0 (val a)) as [Hv|Hv].
  - assert (bn_neg a = 0) as -> by (destruct (wf_neg _ H) as [|G]; [done|apply Vn in G; lia]).
    assert (val a = mag a) as -> by lia. rewrite andb_true_iff, !Z.ltb_lt.
    destruct (Z.eq_dec n 0) as [->|]; [|rewrite bits_of_bytes_half by lia; fold n8];
      destruct (Z.eqb_spec ((n8 + 7) / 8 * 8) n8); cbn; Z.div_mod_to_equations; lia.
  - assert (bn_neg a = 1) as -> by by apply Vn. assert (0 < n8) as N8.
    { unfold n8, bit_length. destruct (Z.eqb_spec (mag a) 0); [lia|]. pose proof (Z.log2_nonneg (mag a)). lia. }
    rewrite orb_true_iff, andb_true_iff, !Z.ltb_lt, Z.leb_le.
    destruct (Z.eq_dec n 0) as [->|].
    + change (256 ^ (0 - 1)) with 0. change (256 ^ 0) with 1.
      destruct (Z.eqb_spec ((n8 + 7) / 8 * 8) n8); cbn; Z.div_mod_to_equations; lia.
    + pose proof (bits_of_bytes (mag a) (n - 1) (proj1 Bm) ltac:(lia)) as S1. fold n8 in S1.
      pose proof (bits_of_bytes_half (mag a) n (proj1 Bm) ltac:(lia)) as S2. fold n8 in S2.
      destruct (Z.eqb_spec ((n8 + 7) / 8 * 8) n8); cbn; Z.div_mod_to_equations; lia.
Qed.

(** Two's complement read back: a number below its range becomes positive. *)
Lemma read_back sg z n : accepts sg z (Z.of_nat n) = true -> (sg = UNSIGNED -> 0 <= z) ->
  num_of sg (word_put n z) = if z <? - (256 ^ Z.of_nat n / 2) then z + 256 ^ Z.of_nat n else z.
Proof.
  intros Ha Hu. destruct n as [|n].
  { cbn [word_put num_of]. destruct sg; cbn [accepts] in Ha.
    - exfalso. destruct (Z.leb_spec 0 z); [done|]. apply orb_true_iff in Ha as [Ha%Z.ltb_lt|[_ Ha%Z.ltb_lt]%andb_true_iff]; cbn in Ha; lia.
    - specialize (Hu eq_refl). apply Z.ltb_lt in Ha. cbn in Ha. by assert (z = 0) as -> by lia. }
  rewrite pow256_S. set (q := 256 ^ Z.of_nat n).
  assert (0 < q) as Pq by (apply Z.pow_pos_nonneg; lia).
  assert (256 * q / 2 = 128 * q) as -> by (symmetry; apply Z.div_unique with 0; lia).
  assert (256 ^ Z.of_nat (S n) = 256 * q) as Ep by (by rewrite pow256_S).
  assert (256 ^ (Z.of_nat (S n) - 1) = q) as Eq by (unfold q; f_equal; lia).
  destruct sg; cbn [num_of accepts] in *.
  - rewrite last_word_put, word_get_put by lia. rewrite (proj1 (nbytes_word_put _ _)), Ep.
    replace (S n - 1)%nat with n by lia. fold q. rewrite Ep, Eq in Ha.
    assert (- (256 * q) < z < 128 * q) as Bz.
    { destruct (Z.leb_spec 0 z); [apply andb_true_iff in Ha as [_ Ha%Z.ltb_lt]; lia|].
      apply orb_true_iff in Ha as [Ha%Z.ltb_lt|Ha]; [lia|]. apply andb_true_iff in Ha as [_ Ha%Z.ltb_lt]. lia. }
    destruct (Z.ltb_spec z 0) as [Neg|Pos].
    + assert (z mod (256 * q) = z + 256 * q) as -> by (symmetry; apply Z.mod_unique with (-1); lia).
      assert ((z / q) mod 256 = z / q + 256) as ->.
      { symmetry. apply Z.mod_unique with (-1); [|lia]. left.
        split; [|assert (z / q < 0); [by apply Z.div_lt_upper_bound; lia|lia]].
        assert (-256 <= z / q); [apply Z.div_le_lower_bound; lia|lia]. }
      destruct (Z.leb_spec 128 (z / q + 256)) as [G|G], (Z.ltb_spec z (- (128 * q))) as [Lt|Ge]; try lia; exfalso.
      * assert (z / q < -128); [|lia]. apply Z.div_lt_upper_bound; lia.
      * assert (-128 <= z / q); [|lia]. apply Z.div_le_lower_bound; lia.
    + rewrite (Z.mod_small z) by lia.
      assert (0 <= z / q < 128) as B by (split; [apply Z.div_pos|apply Z.div_lt_upper_bound]; lia).
      rewrite Z.mod_small by lia. destruct (Z.leb_spec 128 (z / q)); [lia|].
      by destruct (Z.ltb_spec z (- (128 * q))); [lia|].
  - rewrite word_get_put, Ep. rewrite Ep in Ha. apply Z.ltb_lt in Ha. specialize (Hu eq_refl).
    rewrite Z.mod_small by lia. by destruct (Z.ltb_spec z (- (128 * q))); [lia|].
Qed.

(** C24: [bn2binpad] in every order and signedness, for numbers of either sign.  It
    writes the number in [tolen] bytes, in two's complement if signed, and nothing
    past them, or refuses and writes nothing, just as [accepts] says; with -1 for
    the length it writes the fewest bytes that it would accept.  What it accepts is
    read back as the number, except for negative numbers below the range of two's
    complement, that the code takes for numbers in range: they are read back as
    positive ones. *)
Theorem bn_bytes_written {c : Build} e sg a to : wf a -> canon a ->
  let z := sval sg a in
  (forall tolen, 0 <= tolen <= INT_MAX -> tolen <= Z.of_nat (length to) ->
    bn2binpad a to tolen e sg =
      Ret (if accepts sg z tolen then (tolen, blit 0 (bytes_out e (Z.to_nat tolen) z) to) else (-1, to))) /\
  (exists r, 0 <= r /\ accepts sg z r = true /\ (forall n, 0 <= n < r -> accepts sg z n = false) /\
    (r <= Z.of_nat (length to) -> bn2binpad a to (-1) e sg = Ret (r, blit 0 (bytes_out e (Z.to_nat r) z) to))) /\
  (forall n, accepts sg z (Z.of_nat n) = true ->
    num_of sg (word_put n z) = if z <? - (256 ^ Z.of_nat n / 2) then z + 256 ^ Z.of_nat n else z).
Proof.
  intros H C z. assert (0 <= asked sg a) as Pa.
  { unfold asked. pose proof (bit_length_nonneg (mag a)).
    assert (0 <= bn_neg a <= 1) by (destruct (wf_neg _ H); lia).
    destruct sg; [case_match; [destruct (bn_neg a =? 0)|]|]; cbn; Z.div_mod_to_equations; lia. }
  split; [|split].
  - intros n Hn Hto. unfold z. rewrite accepts_asked by (done || lia). rewrite bn2binpad_ok; [|done|done|lia|].
    + unfold padded. destruct (Z.eqb_spec n (-1)); [lia|]. rewrite Z.leb_antisym. by destruct (n <? asked sg a).
    + intros r Hr. unfold padded in Hr. destruct (Z.eqb_spec n (-1)); [lia|]. destruct (_ <? _); simplify_eq. lia.
  - exists (asked sg a). split; [done|]. unfold z. split; [rewrite accepts_asked by done; by apply Z.leb_le|].
    split; [intros n Hn; rewrite accepts_asked by (done || lia); apply Z.leb_gt; lia|]. intros Hto.
    rewrite bn2binpad_ok; [done|done|done|done|]. intros r [= <-]. done.
  - intros n Ha. apply read_back; [done|]. unfold z. intros ->. by apply mag_bounds.
Qed.
