(* ===== verification/BnSamples.v ===== *)
(** * Big numbers: samples

    The theorems at concrete numbers, in a build with words of 64 bits without a
    double-word type, or with a multiplication of 128 bits, and in one of 32 bits
    with one; runs of the definitions; and
    the inputs on which the functions do not do what they mean to. *)

From S2P Require Import Prelude Bytes BnBase BnMem BnWords BnDivWords BnLib BnLibCorrect BnOps BnBin BnBinCorrect BnArith BnAddCorrect BnShiftCorrect BnWordCorrect BnHistory BnTheorems.

Definition b64 : Build := {| wide := true; llong := false; div2w := false; small := false; umult := UMULT_NONE |}.
Definition b32 : Build := {| wide := false; llong := true; div2w := true; small := true; umult := UMULT_NONE |}.
(** The build of gcc for 64-bit processors, with its 128-bit integers. *)
Definition b128 : Build := {| wide := true; llong := false; div2w := false; small := false; umult := UMULT_LOHI |}.

(** Three new objects. *)
Definition new_bn : BIGNUM := set_flags BN_FLG_MALLOCED zero_bn.
Definition m0 : mem := {| objs := <[0%nat := new_bn]> (<[1%nat := new_bn]> (<[2%nat := new_bn]> ∅)); next := 3 |}.

Definition plenty (k : nat) : bool := true.

Lemma m0_holds {c : Build} : holds_numbers m0 (fun _ => 0) (fun _ => BN_FLG_MALLOCED).
Proof.
  destruct (zero_bn_wf BN_FLG_MALLOCED) as [W C].
  assert (wf new_bn /\ canon new_bn /\ val new_bn = 0 /\ bn_flags new_bn = BN_FLG_MALLOCED) as N by (by split_and!).
  unfold holds_numbers, m0. cbn [objs]. repeat (apply map_Forall_insert_2; [apply N|]). apply map_Forall_empty.
Qed.

(** Calls with results among their operands, in every way. *)
Definition h0 : list op :=
  [Set_word 0 0xffffffff; Lshift 1 0 100; Sub 2 0 1; Mul_word 2 12345; Add 2 2 2; Usub 1 1 0; Div_word 2 7;
   Rshift 0 2 33; Sub_word 2 3; Add_word 2 0xfffffffe; Rshift1 2 2; Lshift1 1 1; Copy 0 1; Set_bit 0 200;
   Clear_bit 1 101; Mask_bits 2 70; Set_negative 2 0; Uadd 2 2 2; Sub 1 1 2;
   Set_word 1 3; Set_word 2 5; Usub 1 1 2; Usub 1 1 0; Add 0 0 1].

(** The numbers of a memory. *)
Definition numbers {c : Build} (m : mem) : list Z :=
  map (fun l => match objs m !! l with Some o => val o | None => 0 end) [0%nat; 1%nat; 2%nat].

Definition numbers_after {c : Build} (x : outcome (bool * mem)) : option (bool * list Z) :=
  match x with Ret (b, m) => Some (b, numbers m) | _ => None end.

(** The definitions compute what the integers do, in each build, until the
    difference of one word and two. *)
Example h0_runs :
  numbers_after (c := b64) (run (c := b64) plenty h0 m0) = Some (false, map (updates (c := b64) (take 22 h0) (fun _ => 0)) [0%nat; 1%nat; 2%nat]) /\
  numbers_after (c := b32) (run (c := b32) plenty h0 m0) = Some (false, map (updates (c := b32) (take 22 h0) (fun _ => 0)) [0%nat; 1%nat; 2%nat]) /\
  numbers_after (c := b128) (run (c := b128) plenty h0 m0) = Some (false, map (updates (c := b128) (take 22 h0) (fun _ => 0)) [0%nat; 1%nat; 2%nat]).
Proof. by vm_compute. Qed.

Lemma h0_typed {c : Build} : (forall w, 0 <= w < 2 ^ 32 -> is_word w) -> Forall typed h0.
Proof. intros W. repeat constructor; cbn [typed]; apply W; split; by vm_compute. Qed.

Lemma h0_names : Forall (fun x => Forall (fun l => l ∈ dom (objs m0)) (target x :: sources x)) h0.
Proof. solve_closed. Qed.

(** The last calls but one: 3 - 5 wraps around, and the difference of one word and
    two is refused. *)
Lemma bn_history_witness :
  runs (run (c := b128) plenty h0) m0 (fun b s' =>
    if b then (forall before x after, h0 = before ++ x :: after -> refuses (c := b128) x (updates (c := b128) before (fun _ => 0)) = false) /\
      holds_numbers (c := b128) s' (updates (c := b128) h0 (fun _ => 0)) (fun _ => BN_FLG_MALLOCED)
    else exists before x after, h0 = before ++ x :: after /\
      (refuses (c := b128) x (updates (c := b128) before (fun _ => 0)) = true /\
         holds_numbers (c := b128) s' (updates (c := b128) before (fun _ => 0)) (fun _ => BN_FLG_MALLOCED) \/
       refuses (c := b128) x (updates (c := b128) before (fun _ => 0)) = false /\
         unable (c := b128) plenty x (updates (c := b128) before (fun _ => 0)) (fun _ => BN_FLG_MALLOCED))) /\
  numbers_after (c := b128) (run (c := b128) plenty h0 m0) =
    Some (false, map (updates (c := b128) (take 22 h0) (fun _ => 0)) [0%nat; 1%nat; 2%nat]).
Proof.
  split; [|by vm_compute].
  apply (bn_history (c := b128) plenty h0 m0 (fun _ => 0) (fun _ => BN_FLG_MALLOCED)).
  - exact m0_holds.
  - apply h0_typed. intros w [H0 H1]. split; [done|]. apply Z.lt_trans with (2 ^ 32); [done|by vm_compute].
  - exact h0_names.
Defined.

Lemma bn_typed_witness : runs (run (c := b32) (fun k => k <? 2)%nat h0) m0 (fun _ s' => well_formed (c := b32) s').
Proof.
  apply (bn_typed (c := b32) (fun k => k <? 2)%nat h0 m0 (fun _ => 0) (fun _ => BN_FLG_MALLOCED)).
  - exact m0_holds.
  - apply h0_typed. intros w [H0 H1]. split; [done|]. exact H1.
  - exact h0_names.
Defined.

(** Numbers of two words and of none. *)
Definition minus_two_words : BIGNUM := {| bn_d := [5; 3; 0]; bn_top := 2; bn_dmax := 3; bn_neg := 1; bn_flags := BN_FLG_CONSTTIME |}.

Ltac solve_words := unfold words, is_word; solve_closed.

Lemma minus_two_words_wf : wf (c := b64) minus_two_words /\ canon minus_two_words.
Proof.
  split.
  - constructor; [done|solve_words|by split|by vm_compute|by right].
  - split; [|done]. intros k E. cbn in E. by assert (k = 1%nat) as -> by lia.
Qed.

Lemma new_bn_wf {c : Build} : wf new_bn /\ canon new_bn.
Proof. apply zero_bn_wf. Qed.

Lemma bn_reading_witness :
  BN_cmp (Some minus_two_words) (Some new_bn) = Ret (-1) /\ BN_num_bits (c := b64) minus_two_words = Ret 66.
Proof.
  destruct minus_two_words_wf as [W C], (new_bn_wf (c := b64)) as [Wn Cn].
  destruct (bn_reading (c := b64) minus_two_words new_bn 64 5 W C Wn Cn) as (E1 & _ & E2 & _); [by split; vm_compute|].
  rewrite E1, E2. split; by vm_compute.
Defined.

Lemma bn_div_words_exact_witness :
  bn_div_words (c := b64) (2 ^ 63) 12345 (2 ^ 63 + 1) = Ret ((2 ^ 63 * 2 ^ 64 + 12345) / (2 ^ 63 + 1)) /\
  bn_div_words (c := b32) 7 0xffffffff 8 = Ret 0xffffffff.
Proof.
  split.
  - apply (bn_div_words_exact (c := b64)); split; by vm_compute.
  - rewrite (proj1 (bn_div_words_exact (c := b32) 7 0xffffffff 8 ltac:(by split) ltac:(by split) ltac:(lia))). by vm_compute.
Defined.

(** An array with words at [a] and [b], and a result at [a]. *)
Definition m1 : mem :=
  {| objs := {[0%nat := {| bn_d := [2 ^ 64 - 1; 7; 2 ^ 64 - 3; 2 ^ 63]; bn_top := 4; bn_dmax := 4; bn_neg := 0; bn_flags := 0 |}]}; next := 1 |}.

Lemma m1_region (k : Z) : k = 0 \/ k = 2 -> region (c := b64) m1 (0%nat, k) 2.
Proof.
  intros [-> | ->]; (split; [eexists; split; [done|cbn; lia]|]); solve_words.
Qed.

Lemma bn_word_loops_witness : runs (bn_mul_words (c := b64) (0%nat, 0) (0%nat, 0) 2 (2 ^ 64 - 1)) m1
  (wrote (c := b64) m1 (0%nat, 0) 2 (fun k l => is_word (c := b64) k /\
    eval (c := b64) l + weight (c := b64) 2 * k = (2 ^ 64 - 1) * eval (c := b64) [2 ^ 64 - 1; 7])).
Proof.
  apply (bn_word_loops (c := b64) m1 (0%nat, 0) (0%nat, 0) (0%nat, 2) 2 (2 ^ 64 - 1)).
  - by split; vm_compute.
  - apply m1_region. by left.
  - apply m1_region. by left.
  - apply m1_region. by left.
  - apply m1_region. by right.
  - right. left. cbn. lia.
  - right. left. cbn. lia.
Defined.

Definition m2 : mem := {| objs := {[0%nat := minus_two_words]}; next := 1 |}.

Lemma bn_remainders_witness :
  runs (BN_mod_word (c := b64) plenty 0 0xfffffffff) m2 (fun x s' => objs s' = objs m2 /\
    (x = Z.abs (val (c := b64) minus_two_words) mod 0xfffffffff \/
     x = BASE (c := b64) - 1 /\ (WORDS_MAX (c := b64) <= 2 \/ exists k, plenty k = false))) /\
  match BN_mod_word (c := b64) plenty 0 0xfffffffff m2 with
  | Ret (x, s') => x = Z.abs (val (c := b64) minus_two_words) mod 0xfffffffff
  | _ => False
  end.
Proof.
  destruct minus_two_words_wf as [W C]. split; [|by vm_compute].
  apply (bn_remainders (c := b64) plenty 0%nat 0xfffffffff minus_two_words m2); try done.
Defined.

Lemma bn_bytes_roundtrip_witness : runs (bin2bn (c := b64) plenty [0xfe; 0; 1] 3 (Some 0%nat) BIG SIGNED) m0 (fun r st' =>
  match r with
  | None => starved (c := b64) plenty ((3 + 8 - 1) / 8) new_bn
  | Some l' => exists o', objs st' !! l' = Some o' /\ val (c := b64) o' = 0xfe0001 - 0x1000000 /\
      bn2binpad (c := b64) o' [9; 9; 9; 9] 3 BIG SIGNED =
        Ret (if 3 <? asked (c := b64) SIGNED o' then (-1, [9; 9; 9; 9]) else (3, [0xfe; 0; 1; 9])) /\
      (SIGNED = UNSIGNED -> asked (c := b64) SIGNED o' <= 3)
  end).
Proof.
  destruct (new_bn_wf (c := b64)) as [W C].
  apply (bn_bytes_roundtrip (c := b64) plenty [0xfe; 0; 1] BIG SIGNED 0%nat new_bn m0 [9; 9; 9; 9]); try done.
  - solve_closed.
  - by right.
  - cbn. lia.
Defined.

Lemma bn_bytes_written_witness :
  bn2binpad (c := b64) minus_two_words (replicate 12 7) 10 LITTLE SIGNED =
    Ret (10, blit 0 (word_put 10 (- (5 + 3 * 2 ^ 64))) (replicate 12 7)) /\
  num_of SIGNED (word_put 10 (- (5 + 3 * 2 ^ 64))) = - (5 + 3 * 2 ^ 64).
Proof.
  destruct minus_two_words_wf as [W C].
  destruct (bn_bytes_written (c := b64) LITTLE SIGNED minus_two_words (replicate 12 7) W C) as (E & _ & N).
  split.
  - rewrite E; [by vm_compute|by split; vm_compute|by vm_compute].
  - specialize (N 10%nat ltac:(by vm_compute)). exact N.
Defined.

(** ** Pitfalls *)

Definition bn_of (w neg : Z) : BIGNUM := {| bn_d := [w]; bn_top := 1; bn_dmax := 1; bn_neg := neg; bn_flags := 0 |}.
Definition mem_of (o : BIGNUM) : mem := {| objs := {[0%nat := o]}; next := 1 |}.

Definition never (k : nat) : bool := false.

(** Where the conversions and the signs go wrong.  [bn2binpad] accepts negative
    numbers whose top byte has its high bit set in as many bytes as their
    absolute value has, so that -255 is written as 1; and asks for two bytes for
    -1, that is read from one.  The signed readers look at a byte of an empty
    string.  A string of zeros read into a negative number leaves its sign, and
    so does a sum that fails, if the result was zero.  The largest exponent that
    [BN_set_params] allows makes it shift into the sign. *)
Theorem bn_pitfalls :
  (bn2binpad (c := b64) (bn_of 255 1) [9] 1 BIG SIGNED = Ret (1, [1]) /\ val (c := b64) (bn_of 255 1) = -255 /\ num_of SIGNED [1] = 1) /\
  (bn2binpad (c := b64) (bn_of 1 1) [9] 1 BIG SIGNED = Ret (-1, [9]) /\ num_of SIGNED [0xff] = -1 /\
   numbers_after (c := b64) (match BN_signed_bin2bn (c := b64) plenty [0xff] 1 (Some 0%nat) (mem_of new_bn) with
     Ret (_, s) => Ret (true, s) | _ => Fault end) = Some (true, [-1; 0; 0])) /\
  (BN_signed_bin2bn (c := b64) plenty [] 0 (Some 0%nat) m0 = Fault /\ BN_signed_lebin2bn (c := b64) plenty [] 0 (Some 0%nat) m0 = Fault) /\
  (exists s, BN_bin2bn (c := b64) plenty [0; 0] 2 (Some 0%nat) (mem_of (bn_of 5 1)) = Ret (Some 0%nat, s) /\
     objs s !! 0%nat = Some (set_top 0 (bn_of 5 1))) /\
  (exists s, BN_add (c := b64) never 0 1 1 {| objs := {[0%nat := new_bn; 1%nat := bn_of 5 1]}; next := 2 |} = Ret (false, s) /\
     objs s !! 0%nat = Some (set_neg 1 new_bn)) /\
  (BN_set_params 31 0 0 0 default_params = Fault /\ BN_set_params 99 0 0 0 default_params = Fault).
Proof. split_and!; try (by vm_compute); eexists; split; by vm_compute. Qed.
